(* ===== verification/_CoqProject ===== *)
-Q . S2P
Prelude.v
Memory.v
Numerals.v
SerialBuffer.v
Parcel.v
ParcelFacts.v
FrameHeader.v
CommTypes.v
ProtocolProto.v
Fragmentation.v
ProtoFacts.v
ProtoRoundtrip.v
FragFacts.v
FrameCombiner.v
CombinerFacts.v
Reassembly.v
SplitReassemble.v
AppMessage.v
AppMessageFacts.v
SyncStorage.v
WaterMark.v
WaterMarkFacts.v
WaterMarkCache.v
MetaData.v
MetaDataFacts.v
TimeHelper.v
TimeSync.v
TimeSyncFacts.v
MessageSchedule.v
MessageScheduleFacts.v
MessageOrder.v
CommitNotify.v
QuerySync.v
ParcelRuns.v
QuerySyncFacts.v
KvEntry.v
KvEntryFacts.v
SyncPacket.v
SyncPacketFacts.v
DbAbility.v
SqliteUtils.v
StoreExecutor.v
SqliteFacts.v
StoreExecutorFacts.v
NaturalStore.v
NaturalStoreFacts.v
Convergence.v
ChangesReported.v
LocalWrites.v
SyncRead.v
SyncPages.v
QueryMerge.v
SubscribeManager.v
SubscribeFacts.v
SyncWorld.v
SyncTask.v
DataSync.v
SyncLogic.v
DataSyncFacts.v
SyncViews.v
SyncSender.v
ControlSync.v
SyncMachine.v
StepTermination.v
SenderRuns.v
SyncSafety.v
NaturalSync.v
SyncSample.v
SendTaskScheduler.v
SchedulerFacts.v
FrameRetainer.v
RetainerFacts.v
CommunicatorLinker.v
LinkerFacts.v
SendSide.v
Communicator.v
CommunicatorAggregator.v
AggregatorFacts.v
Delivery.v
NetworkAdapter.v
