(* ===== verification/Prelude.v ===== *)
(** Verification of the distributed data manager: communicator, single version store and syncer.

    * The program

    The distributed data manager keeps key-value stores of several devices in step. This
    development models its core library, [services/distributeddataservice/libs/distributeddb];
    source files are named relative to it.

      - The application writes through a connection of a store ([storage]). The store is a table
        of SQLite; every write gets a time stamp, and the last write of a key wins.
      - The syncer ([syncer]) has for every other device a task context, a state machine and a
        [SingleVerDataSync]. In a session one device reads its own writes from the store page by
        page, from the local water mark of the other device on, and sends them in a sliding
        window; the other device saves them, moves its peer water mark and acknowledges. Before,
        the devices have compared their clocks ([TimeSync]) and their abilities. The water
        marks are meta data in the store, behind the caches of [Metadata].
      - The communicator ([communicator]) turns the messages of the syncer into packets of the
        transport and back: [ProtocolProto] serializes, the [CommunicatorAggregator] queues
        frames in the [SendTaskScheduler] and splits them to the MTU, the [FrameCombiner] puts
        them together, the [FrameRetainer] keeps them for a communicator that is not there yet,
        and the [CommunicatorLinker] exchanges which labels (data bases) are open where.

    * Conventions

    A class of the source is a record with the names of its fields, a method a function from the
    state and its arguments to the result and the new state; an out-parameter is part of the
    result. Integers are [Z] with the wrap-around of their width written out ([u8] .. [u64]).
    Statuses are the numbers of db_errno.h. [None] as the result of an action is undefined
    behaviour. Callbacks are reported as events. An operation runs as a whole, as the lock of
    its object makes it; a run is a sequence of operations in any order, timers included.
    Where an operation takes its lock several times and threads share the object (MessageSchedule,
    [GetTime]), a step is one critical section. What
    is not part of the source is a class: [Host] (byte order), [Heap] (allocations may fail),
    [ProcessCommunicator] (transport), [Sqlite] (which calls fail, and how), [ValueHash], [DeviceHash],
    [Zlib], [SyncEnv] (clock, timers, sends, permissions), [SyncStorage] and
    [SyncGenericInterface] (the storage as the syncer sees it).

    * The files: shared

      - Prelude: statuses, machine integers, bytes and byte orders, generic lemmas. Memory: byte
        arrays and [memcpy_s]. Numerals: decimal numerals.
      - Parcel (common/src/parcel.cpp) with ParcelFacts; ParcelRuns, a program logic for code
        that fills and reads a parcel.

    * The files: communicator

      - SerialBuffer, FrameHeader (frame_header.h, header_converter.cpp), CommTypes,
        ProtocolProto and Fragmentation (protocol_proto.cpp), AppMessage (message.h),
        FrameCombiner (with combine_status.cpp), SendTaskScheduler, FrameRetainer,
        CommunicatorLinker, SendSide and CommunicatorAggregator, Communicator, NetworkAdapter:
        the source file of the same name. The linker sees the aggregator through the class
        [Aggregator], of which SendSide is the instance; the aggregator sees the adapter through
        the class [Adapter], of which NetworkAdapter is one over the class
        [ProcessCommunicator] of the transport.
      - ProtoFacts, ProtoRoundtrip, FragFacts, CombinerFacts, Reassembly, SplitReassemble,
        AppMessageFacts, SchedulerFacts, RetainerFacts, LinkerFacts, AggregatorFacts, Delivery:
        the theorems.

    * The files: storage

      - CommitNotify (single_ver_natural_store_commit_notify_data.cpp), SqliteUtils
        (sqlite_utils.cpp, storage_executor.cpp), StoreExecutor
        (sqlite_single_ver_storage_executor.cpp: saving with the conflict rules), NaturalStore
        (sqlite_single_ver_natural_store.cpp and its connection: what is received, and what the
        application does), SyncRead (the pages that the syncer reads, with
        sqlite_single_ver_continue_token.cpp), KvEntry (generic_single_ver_kv_entry.cpp and the
        compression), QuerySync (query_object.cpp, query_sync_object.cpp).
      - SqliteFacts (reasoning about failing calls), StoreExecutorFacts, NaturalStoreFacts,
        Convergence, ChangesReported, LocalWrites, SyncPages, QueryMerge, KvEntryFacts,
        QuerySyncFacts: the theorems. SQL statements are modelled by their meaning on the table.

    * The files: syncer

      - SyncStorage: interfaces of the storage and the clock. WaterMark
        (query_sync_water_mark_helper.cpp), MetaData (meta_data.cpp), TimeHelper, TimeSync,
        MessageSchedule (single_ver_data_message_schedule.cpp), DbAbility, SubscribeManager,
        SyncPacket (single_ver_data_packet.cpp, single_ver_serialize_manager.cpp).
      - SyncWorld: the state of the synchronization with one device, and the monad of the code
        that works on it. SyncTask (sync_operation.cpp, the targets and the task contexts),
        DataSync (single_ver_data_sync.cpp, single_ver_data_sync_utils.cpp), ControlSync (the
        control commands in them), SyncMachine (sync_state_machine.cpp,
        single_ver_sync_state_machine.cpp).
      - WaterMarkFacts, WaterMarkCache, MetaDataFacts, TimeSyncFacts,
        MessageScheduleFacts, MessageOrder, SyncPacketFacts, SubscribeFacts: the theorems about
        the parts. SyncLogic (a program logic: what code keeps, [stays], and what it
        establishes, [wp]), DataSyncFacts (the window), StepTermination (the loop of the state
        machine, over the interface [SteadyAnswers]), SyncViews (the interface [PagedLaws] of
        a storage that is read page by page), SyncSender, SenderRuns, SyncSafety (with the
        interface [SavingLaws], and two devices), NaturalSync (the natural store discharges
        the three interfaces; two devices with natural stores), SyncSample (runs).

    * The theorems

      - Communicator. Delivery: an accepted message causes exactly one callback with the same
        message on the other device, whatever the MTU and the order of the packets. Packets: what
        is sealed is accepted and read back; damage inside one word is detected.
        Fragmentation: inverse to reassembly in any order; the invariant of the combiner. The
        scheduler refines one queue per priority, the retainer a log. Linker and aggregator:
        invariants of all reachable states; label exchanges in any order; an exchange is sent
        at most 21 times whatever the aggregator answers; every communicator sees exactly the targets that serve its label. Adapter: who counts
        as online has been reported, and its MTU is one that frames can be split to.
      - Wire formats of the syncer: packets survive, plain and compressed, to any version;
        reading arbitrary bytes is safe; the identity of a query agrees on both sides.
      - Storage. Whatever fails in SQLite, what is received or written is saved completely or
        not at all; a connection refines a finite map with transactions, which also says what is
        known after a failure inside of one; the reported changes
        are the difference of the data; replicas that saved the same items hold the same data
        (and when repeated delivery breaks this); pages are complete.
      - Syncer. Water marks answer as without caches and survive a restart; time stamps increase
        strictly from a call of [GetTime] to any call that starts after it has returned (calls
        that overlap may get the same one); the measured offset of clocks is as exact as the
        network allows; no data message is lost in the schedule, whatever versions the peer is
        known to have, and from version 3.0 on they are handled one at a time, in order, each
        once (below 3.0, or while the version is not known, threads can handle messages side
        by side); subscriptions are counted
        right; at most three packets are on their way and none is forgotten; the loop of the
        state machine ends, with at most nine rounds for every waiting task and nine more.
      - Two devices with their stores ([sync_no_loss]): whatever the network and the
        applications do, and whatever fails when data is read or saved, of a write that is older than the peer water mark the other store has the
        key with a write at least as late; and how a send that times out breaks this
        ([timed_out_send_loses]).

    * Bounds and assumptions

      - Fuel: [decimal] 20 (the digits of 2^64 - 1); [finalize_loop] one more than the tasks
        ([finalize_drains]); [notify_removed] 2n + 1; [inner_loop] one more than the window
        ([window_sound]); [step_loop] 9 * targets + 9 and [exec_tasks] the targets of the
        context ([sync_step_terminates]); the bits of an ability 8. Other recursion is structural.
      - 64-bit counters that only grow have not wrapped where a theorem about unbounded runs
        says so ([far_from_wrap]); time stamps are below [INT64_MAX]; 32-bit sequence numbers
        of a session last ([window_sound]).
      - [heap_total] where a theorem says that an operation succeeds; [mtu_ok] and [sendable]
        for the splitting of frames, which the source does not check.
      - Storage and communicator do not answer with the statuses of a new start, for the loop of
        the state machine ([SteadyAnswers]); the natural store does not, if its handles and
        what it leaves to others do not ([natural_store_steady]).
      - The hash of a key is total and injective where a theorem says so; zlib inverts itself
        ([ZlibLaws]); a statement of SQLite that fails has no effect.
      - [sync_no_loss] is about full synchronizations with devices that speak a version after
        3.0: local writes have different time stamps and are found by the hash of their key,
        writes of meta data of the sender succeed, nothing intercepts its data, nobody asked
        for the removal of data, acknowledged water marks are in range, no send times out; the
        receiving store has no schema, its last write wins, and its time stamps and its clock
        have not reached 2^64 - 1. An error of a session that leaves a continue token is
        followed by an abort ([settles]): that is what the state machine does in the sessions
        a device starts itself ([initiator_settles], [continuation_settles] in SenderRuns), but
        not when a pull response cannot send its first packet, nor where [ignoreInnerErr]
        applies. The witness is a run of three packets in disorder.

    * What is not modelled

      - The transport below the adapter (an interface); threads, timers and task pool of the
        runtime context; other interleavings inside an operation that gives its
        lock up; logging and performance records.
      - The engine of the syncer (which device is synchronized when), the exchange of abilities
        (an interface of the state machine), the syncers of multi version stores.
      - Schemas and value checks; the cache data base and the migration from it; opening,
        upgrading and encrypting data bases; local-only data; pools of handles; multi version
        and relational stores, whose logic is in other SQL tables.
      - The data service application with its IPC, and the client frameworks. *)

(** * Shared vocabulary: error codes, machine integers, bytes and the host byte order. *)

From Stdlib Require Import ZArith Lia.
From Stdlib Require Import Strings.Byte.
From stdpp Require Import base numbers list gmap countable sorting.

Open Scope Z_scope.

Ltac Zify.zify_post_hook ::= Z.div_mod_to_equations.

(** * Error codes (common/include/db_errno.h) *)

Definition E_OK : Z := 0.
Definition E_BASE : Z := 1000.
Definition E_NOT_FOUND : Z := E_BASE + 3.
Definition E_INVALID_ARGS : Z := E_BASE + 7.
Definition E_SECUREC_ERROR : Z := E_BASE + 10.
Definition E_OUT_OF_MEMORY : Z := E_BASE + 11.
Definition E_NOT_PERMIT : Z := E_BASE + 12.
Definition E_ALREADY_REGISTER : Z := E_BASE + 13.
Definition E_ALREADY_ALLOC : Z := E_BASE + 14.
Definition E_CONTAINER_FULL : Z := E_BASE + 16.
Definition E_CONTAINER_EMPTY : Z := E_BASE + 17.
Definition E_CONTAINER_FULL_TO_NOTFULL : Z := E_BASE + 18.
Definition E_CONTAINER_NOTEMPTY_TO_EMPTY : Z := E_BASE + 19.
Definition E_WAIT_RETRY : Z := E_BASE + 20.
Definition E_PARSE_FAIL : Z := E_BASE + 21.
Definition E_TIMEOUT : Z := E_BASE + 22.
Definition E_SERIALIZE_ERROR : Z := E_BASE + 23.
Definition E_DESERIALIZE_ERROR : Z := E_BASE + 24.
Definition E_NOT_REGISTER : Z := E_BASE + 25.
Definition E_LENGTH_ERROR : Z := E_BASE + 26.
Definition E_PERIPHERAL_INTERFACE_FAIL : Z := E_BASE + 32.
Definition E_INTERNAL_ERROR : Z := E_BASE + 37.
Definition E_CONTAINER_ONLY_DELAY_TASK : Z := E_BASE + 38.
Definition E_SUM_CALCULATE_FAIL : Z := E_BASE + 39.
Definition E_SUM_MISMATCH : Z := E_BASE + 40.
Definition E_OUT_OF_DATE : Z := E_BASE + 41.
Definition E_VERSION_NOT_SUPPORT : Z := E_BASE + 69.
Definition E_FRAME_TYPE_NOT_SUPPORT : Z := E_BASE + 70.
Definition E_INVALID_QUERY_FORMAT : Z := E_BASE + 83.
Definition E_NOT_SUPPORT : Z := E_BASE + 1.
Definition E_BUSY : Z := E_BASE + 4.
Definition E_UNEXPECTED_DATA : Z := E_BASE + 5.
Definition E_UNFINISHED : Z := E_BASE + 27.
Definition E_FINISHED : Z := E_BASE + 28.
Definition E_MAX_LIMITS : Z := E_BASE + 34.
Definition E_OBJ_IS_KILLED : Z := E_BASE + 42.
Definition E_SEND_DATA : Z := E_BASE + 46.
Definition E_NO_DATA_SEND : Z := E_BASE + 54.
Definition E_RECV_FINISHED : Z := E_BASE + 55.
Definition E_NEED_PULL_REPONSE : Z := E_BASE + 56.
Definition E_NO_SYNC_TASK : Z := E_BASE + 57.
Definition E_INVALID_PASSWD_OR_CORRUPTED_DB : Z := E_BASE + 58.
Definition E_SCHEMA_MISMATCH : Z := E_BASE + 75.
Definition E_NEED_ABILITY_SYNC : Z := E_BASE + 78.
Definition E_WAIT_NEXT_MESSAGE : Z := E_BASE + 79.
Definition E_INVALID_QUERY_FIELD : Z := E_BASE + 84.
Definition E_SAVE_DATA_NOTIFY : Z := E_BASE + 87.
Definition E_RE_SEND_DATA : Z := E_BASE + 88.
Definition E_EKEYREVOKED : Z := E_BASE + 89.
Definition E_SECURITY_OPTION_CHECK_ERROR : Z := E_BASE + 90.
Definition E_NOT_NEED_DELETE_MSG : Z := E_BASE + 92.
Definition E_INTERCEPT_DATA_FAIL : Z := E_BASE + 97.
Definition E_DISTRIBUTED_SCHEMA_NOT_FOUND : Z := E_BASE + 202.
Definition E_DISTRIBUTED_SCHEMA_CHANGED : Z := E_BASE + 203.
Definition E_COMBINE_FAIL : Z := E_BASE + 49.
Definition E_FEEDBACK_UNKNOWN_MESSAGE : Z := E_BASE + 200.
Definition E_FEEDBACK_COMMUNICATOR_NOT_FOUND : Z := E_BASE + 201.

(** * Machine integers *)

(** An unsigned [w]-bit value: every C++ operation on it is taken modulo [2^w]. *)
Definition wrap (w x : Z) : Z := x mod 2 ^ w.

Abbreviation u8 x := (wrap 8 x).
Abbreviation u16 x := (wrap 16 x).
Abbreviation u32 x := (wrap 32 x).
Abbreviation u64 x := (wrap 64 x).

Definition INT32_MAX : Z := 2147483647.
Definition UINT32_MAX : Z := 4294967295.
Definition UINT64_MAX : Z := 18446744073709551615.

(** Two's complement reading of a [w]-bit pattern. *)
Definition to_signed (w x : Z) : Z :=
  if x mod 2 ^ w <? 2 ^ (w - 1) then x mod 2 ^ w else x mod 2 ^ w - 2 ^ w.

(** The macro [BYTE_8_ALIGN], at the width of its operand. *)
Definition byte8_align (w x : Z) : Z := Z.land (wrap w (x + (8 - 1))) (Z.lnot (8 - 1)).

Lemma wrap_small w x : 0 <= x < 2 ^ w -> wrap w x = x.
Proof. apply Z.mod_small. Qed.

Lemma wrap_range w x : 0 <= w -> 0 <= wrap w x < 2 ^ w.
Proof. intros. apply Z.mod_pos_bound. lia. Qed.

Lemma land_lnot_7 x : Z.land x (Z.lnot 7) = 8 * (x / 8).
Proof.
  replace (Z.lnot 7) with (Z.lnot (Z.ones 3)) by reflexivity.
  rewrite <- Z.ldiff_land, Z.ldiff_ones_r by lia.
  rewrite Z.shiftl_mul_pow2, Z.shiftr_div_pow2 by lia. change (2 ^ 3) with 8. lia.
Qed.

(** What the macro computes when the addition does not wrap. *)
Lemma byte8_align_spec w x :
  0 <= x -> x + 7 < 2 ^ w -> byte8_align w x = 8 * ((x + 7) / 8).
Proof.
  intros. unfold byte8_align. change (8 - 1) with 7.
  rewrite wrap_small, land_lnot_7 by lia. reflexivity.
Qed.

Lemma byte8_align_bounds w x :
  0 <= x -> x + 7 < 2 ^ w ->
  x <= byte8_align w x < x + 8 /\ byte8_align w x mod 8 = 0.
Proof. intros. rewrite byte8_align_spec by lia. lia. Qed.

(** * Bytes and little-endian words *)

#[export] Instance byte_eq_dec : EqDecision byte := Byte.byte_eq_dec.

#[export] Program Instance byte_countable : Countable byte :=
  inj_countable Byte.to_N Byte.of_N _.
Next Obligation. intros b. apply Byte.of_to_N. Qed.

#[export] Instance byte_inhabited : Inhabited byte := populate x00.

Definition b2z (b : byte) : Z := Z.of_N (Byte.to_N b).
Definition z2b (z : Z) : byte :=
  match Byte.of_N (Z.to_N (z mod 256)) with Some b => b | None => x00 end.

Lemma b2z_range b : 0 <= b2z b < 256.
Proof. unfold b2z. pose proof (Byte.to_N_bounded b). lia. Qed.

Lemma z2b_b2z b : z2b (b2z b) = b.
Proof.
  unfold z2b. rewrite Z.mod_small by apply b2z_range. unfold b2z.
  rewrite N2Z.id, Byte.of_to_N. reflexivity.
Qed.

Lemma b2z_z2b z : b2z (z2b z) = z mod 256.
Proof.
  unfold z2b, b2z. destruct (Byte.of_N _) as [b|] eqn:E.
  - apply Byte.to_of_N in E. rewrite E. lia.
  - apply Byte.of_N_None_iff in E. lia.
Qed.

Lemma z2b_mod z : z2b (z mod 256) = z2b z.
Proof. unfold z2b. rewrite Z.mod_mod by lia. reflexivity. Qed.

Fixpoint le_bytes (n : nat) (v : Z) : list byte :=
  match n with
  | O => []
  | S n => z2b v :: le_bytes n (v / 256)
  end.

Fixpoint le_val (bs : list byte) : Z :=
  match bs with
  | [] => 0
  | b :: bs => b2z b + 256 * le_val bs
  end.

Lemma length_le_bytes n v : length (le_bytes n v) = n.
Proof. revert v; induction n; intros; simpl; auto. Qed.

Lemma le_val_le_bytes n v : le_val (le_bytes n v) = v mod 256 ^ Z.of_nat n.
Proof.
  revert v; induction n as [|n IH]; intros v.
  - simpl. rewrite Z.mod_1_r. reflexivity.
  - cbn [le_bytes le_val]. rewrite IH, b2z_z2b, Nat2Z.inj_succ, Z.pow_succ_r by lia.
    assert (0 < 256 ^ Z.of_nat n) by lia.
    rewrite Z.rem_mul_r by lia. reflexivity.
Qed.

Lemma le_bytes_le_val bs : le_bytes (length bs) (le_val bs) = bs.
Proof.
  induction bs as [|b bs IH]; [reflexivity|]. cbn [length le_bytes le_val].
  pose proof (b2z_range b). f_equal.
  - rewrite <- z2b_mod.
    replace ((b2z b + 256 * le_val bs) mod 256) with (b2z b) by lia. apply z2b_b2z.
  - replace ((b2z b + 256 * le_val bs) / 256) with (le_val bs) by lia. exact IH.
Qed.

Lemma le_val_range bs : 0 <= le_val bs < 256 ^ Z.of_nat (length bs).
Proof. rewrite <- (le_bytes_le_val bs) at 1 2. rewrite le_val_le_bytes. lia. Qed.

(** * Host byte order (common/include/endian_convert.h) *)

(** The two implementation-defined properties of the machine that the code
    depends on: [IsBigEndian()] probes the first, the signedness of [char] shows in
    [Hash::HashFunc]. *)
Class Host : Type := {
  IsBigEndian : bool;
  char_signed : bool
}.

(** The hosts the product runs on: little-endian with unsigned (ARM) or signed (x86)
    [char], and a big-endian one. *)
Definition arm_host : Host := {| IsBigEndian := false; char_signed := false |}.
Definition x86_host : Host := {| IsBigEndian := false; char_signed := true |}.
Definition be_host : Host := {| IsBigEndian := true; char_signed := false |}.

Section Endian.
Context `{H : Host}.

(** The object representation of an [n]-byte unsigned integer, and its inverse. *)
Definition store_int (n : nat) (v : Z) : list byte :=
  if IsBigEndian then rev (le_bytes n v) else le_bytes n v.

Definition load_int (bs : list byte) : Z :=
  le_val (if IsBigEndian then rev bs else bs).

(** [HostToNet<T>]: the bytes of the argument in reverse order on a
    little-endian host, the argument itself on a big-endian one. *)
Definition HostToNet (n : nat) (from : Z) : Z :=
  if IsBigEndian then from else le_val (rev (le_bytes n from)).

Definition NetToHost (n : nat) (from : Z) : Z := HostToNet n from.

(** Network byte order, independent of the host. *)
Definition be_bytes (n : nat) (v : Z) : list byte := rev (le_bytes n v).
Definition be_val (bs : list byte) : Z := le_val (rev bs).

Lemma length_store_int n v : length (store_int n v) = n.
Proof. unfold store_int. destruct IsBigEndian; rewrite ?length_rev; apply length_le_bytes. Qed.

Lemma load_int_range bs : 0 <= load_int bs < 256 ^ Z.of_nat (length bs).
Proof.
  unfold load_int. destruct IsBigEndian; [rewrite <- length_rev|]; apply le_val_range.
Qed.

Lemma length_be_bytes n v : length (be_bytes n v) = n.
Proof. unfold be_bytes. rewrite length_rev. apply length_le_bytes. Qed.

Lemma load_store n v : load_int (store_int n v) = v mod 256 ^ Z.of_nat n.
Proof.
  unfold load_int, store_int.
  destruct IsBigEndian; rewrite ?rev_involutive; apply le_val_le_bytes.
Qed.

Lemma store_load bs : store_int (length bs) (load_int bs) = bs.
Proof.
  unfold load_int, store_int. destruct IsBigEndian; [|apply le_bytes_le_val].
  rewrite <- (length_rev bs), le_bytes_le_val. apply rev_involutive.
Qed.

(** Writing a converted integer produces network order on every host. *)
Lemma store_HostToNet n v : store_int n (HostToNet n v) = be_bytes n v.
Proof.
  unfold store_int, HostToNet, be_bytes. destruct IsBigEndian; [reflexivity|].
  rewrite <- (length_le_bytes n v) at 1. rewrite <- length_rev. apply le_bytes_le_val.
Qed.

(** Reading an integer and converting it decodes network order on every host. *)
Lemma NetToHost_load bs n : length bs = n -> NetToHost n (load_int bs) = be_val bs.
Proof.
  intros <-. unfold NetToHost, HostToNet, load_int, be_val.
  destruct IsBigEndian; [reflexivity|]. rewrite le_bytes_le_val. reflexivity.
Qed.

Lemma be_val_be_bytes n v : be_val (be_bytes n v) = v mod 256 ^ Z.of_nat n.
Proof. unfold be_val, be_bytes. rewrite rev_involutive. apply le_val_le_bytes. Qed.

Lemma be_bytes_be_val bs : be_bytes (length bs) (be_val bs) = bs.
Proof.
  unfold be_val, be_bytes. rewrite <- (length_rev bs), le_bytes_le_val. apply rev_involutive.
Qed.

Lemma be_val_range bs : 0 <= be_val bs < 256 ^ Z.of_nat (length bs).
Proof. unfold be_val. rewrite <- length_rev. apply le_val_range. Qed.

Lemma HostToNet_involutive n v :
  0 <= v < 256 ^ Z.of_nat n -> NetToHost n (HostToNet n v) = v.
Proof.
  intros Hv. rewrite <- (Z.mod_small _ _ Hv) at 2. rewrite <- (be_val_be_bytes n v).
  rewrite <- store_HostToNet, <- (NetToHost_load _ n) by apply length_store_int.
  rewrite load_store. unfold NetToHost, HostToNet.
  destruct IsBigEndian; [rewrite Z.mod_small by lia; reflexivity|].
  f_equal. rewrite Z.mod_small; [reflexivity|].
  pose proof (le_val_range (rev (le_bytes n v))) as Hr.
  rewrite length_rev, length_le_bytes in Hr. exact Hr.
Qed.

End Endian.
