(* ===== verification/Memory.v ===== *)
(** Byte buffers: reads and writes at an offset, the bounds-checked
    [memcpy_s], and 64-bit words of a buffer. *)

From S2P Require Import Prelude.
From Stdlib Require Import ZArith Lia.
From Stdlib Require Import Strings.Byte.
From stdpp Require Import base numbers list.

Open Scope Z_scope.

Definition zlen {A} (l : list A) : Z := Z.of_nat (length l).

(** [len] bytes of [l] from offset [off], and [dst] with [src] written at [off]. *)
Definition slice {A} (off len : Z) (l : list A) : list A :=
  take (Z.to_nat len) (drop (Z.to_nat off) l).

Definition splice {A} (off : Z) (src dst : list A) : list A :=
  take (Z.to_nat off) dst ++ src ++ drop (Z.to_nat off + length src) dst.

Section Slices.
Context {A : Type}.
Implicit Types (l src dst : list A).

Lemma zlen_nonneg l : 0 <= zlen l.
Proof. unfold zlen. lia. Qed.

Lemma zlen_app l1 l2 : zlen (l1 ++ l2) = zlen l1 + zlen l2.
Proof. unfold zlen. rewrite length_app. lia. Qed.

Lemma length_slice off len l :
  0 <= off -> 0 <= len -> off + len <= zlen l -> length (slice off len l) = Z.to_nat len.
Proof. unfold slice, zlen. intros. rewrite length_take, length_drop. lia. Qed.

Lemma zlen_slice off len l :
  0 <= off -> 0 <= len -> off + len <= zlen l -> zlen (slice off len l) = len.
Proof. intros. unfold zlen at 1. rewrite length_slice by lia. lia. Qed.

Lemma lookup_slice off len l (i : nat) :
  0 <= off -> slice off len l !! i =
    if bool_decide (Z.of_nat i < len) then l !! (Z.to_nat off + i)%nat else None.
Proof.
  intros. unfold slice. case_bool_decide.
  - rewrite lookup_take_lt by lia. apply lookup_drop.
  - apply lookup_take_ge. lia.
Qed.

Lemma zlen_splice off src dst :
  0 <= off -> off + zlen src <= zlen dst -> zlen (splice off src dst) = zlen dst.
Proof.
  unfold splice, zlen. intros. rewrite !length_app, length_take, length_drop. lia.
Qed.

Lemma lookup_splice off src dst (i : nat) :
  0 <= off -> off + zlen src <= zlen dst ->
  splice off src dst !! i =
    if bool_decide (off <= Z.of_nat i < off + zlen src)
    then src !! (i - Z.to_nat off)%nat else dst !! i.
Proof.
  unfold splice, zlen. intros. case_bool_decide as Hi.
  - rewrite lookup_app_r by (rewrite length_take; lia).
    rewrite length_take, Nat.min_l by lia. apply lookup_app_l. lia.
  - destruct (decide (Z.of_nat i < off)).
    + rewrite lookup_app_l by (rewrite length_take; lia). apply lookup_take_lt. lia.
    + rewrite lookup_app_r, length_take, Nat.min_l by (rewrite ?length_take; lia).
      rewrite lookup_app_r, lookup_drop by lia. f_equal. lia.
Qed.

(** Reading back exactly what was written. *)
Lemma slice_splice_same off src dst len :
  0 <= off -> off + zlen src <= zlen dst -> len = zlen src ->
  slice off len (splice off src dst) = src.
Proof.
  intros ? ? ->. unfold slice, splice, zlen in *.
  rewrite drop_app_length' by (rewrite length_take; lia).
  rewrite Nat2Z.id. apply take_app_length.
Qed.

(** A write leaves every disjoint range as it was. *)
Lemma slice_splice_disjoint off src dst off' len :
  0 <= off -> off + zlen src <= zlen dst -> 0 <= off' ->
  off' + len <= off \/ off + zlen src <= off' ->
  slice off' len (splice off src dst) = slice off' len dst.
Proof.
  intros. apply list_eq. intros i. rewrite !lookup_slice by lia.
  case_bool_decide; [|reflexivity]. rewrite lookup_splice by lia.
  case_bool_decide; [lia|reflexivity].
Qed.

Lemma slice_slice off len off' len' l :
  0 <= off -> 0 <= off' -> off' + len' <= len ->
  slice off' len' (slice off len l) = slice (off + off') len' l.
Proof.
  intros. apply list_eq. intros i. rewrite !lookup_slice by lia.
  case_bool_decide; [|reflexivity]. rewrite bool_decide_true by lia. f_equal. lia.
Qed.

Lemma slice_all l : slice 0 (zlen l) l = l.
Proof. unfold slice, zlen. simpl. rewrite Nat2Z.id. apply take_ge. lia. Qed.

Lemma slice_nil_len off l : slice off 0 l = [].
Proof. reflexivity. Qed.

Lemma drop_slice n off len l :
  0 <= off -> 0 <= n -> drop (Z.to_nat n) (slice off len l) = slice (off + n) (len - n) l.
Proof.
  intros. apply list_eq. intros i. rewrite lookup_drop, !lookup_slice by lia.
  repeat case_bool_decide; try lia; try reflexivity. f_equal. lia.
Qed.

Lemma slice_app_l off len l1 l2 :
  0 <= off -> off + len <= zlen l1 -> slice off len (l1 ++ l2) = slice off len l1.
Proof.
  intros. unfold zlen in *. apply list_eq. intros i. rewrite !lookup_slice by lia.
  case_bool_decide; [|reflexivity]. apply lookup_app_l. lia.
Qed.

Lemma slice_app_r off len l1 l2 :
  zlen l1 <= off -> slice off len (l1 ++ l2) = slice (off - zlen l1) len l2.
Proof.
  intros. unfold zlen in *. apply list_eq. intros i. rewrite !lookup_slice by lia.
  case_bool_decide; [|reflexivity]. rewrite lookup_app_r by lia. f_equal. lia.
Qed.

Lemma slice_split off len len' l :
  0 <= off -> 0 <= len -> 0 <= len' ->
  slice off (len + len') l = slice off len l ++ slice (off + len) len' l.
Proof.
  intros. unfold slice. rewrite Z2Nat.inj_add by lia.
  rewrite <- take_take_drop, drop_drop. do 3 f_equal. lia.
Qed.

(** Overwriting the part of [dst] after [off] keeps the part before it. *)
Lemma splice_prefix off src dst :
  0 <= off -> off + zlen src <= zlen dst ->
  splice off src dst = slice 0 off dst ++ src ++ slice (off + zlen src) (zlen dst - off - zlen src) dst.
Proof.
  intros. unfold splice, slice, zlen in *. simpl. f_equal. f_equal.
  rewrite (take_ge (drop _ _)) by (rewrite length_drop; lia). f_equal. lia.
Qed.

Lemma splice_full src dst : zlen src = zlen dst -> splice 0 src dst = src.
Proof.
  unfold splice, zlen. intros. simpl. rewrite drop_ge by lia. apply app_nil_r.
Qed.

(** A write inside a window, seen through the window. *)
Lemma slice_splice_inside off src dst p len :
  0 <= p <= off -> off + zlen src <= p + len -> p + len <= zlen dst ->
  slice p len (splice off src dst) = splice (off - p) src (slice p len dst).
Proof.
  intros. assert (0 <= zlen src) by (unfold zlen; lia).
  apply list_eq. intros i.
  rewrite lookup_slice, !lookup_splice, lookup_slice by (rewrite ?zlen_slice; lia).
  repeat case_bool_decide; try lia; try reflexivity. f_equal. lia.
Qed.

Lemma splice_mid off a b c src :
  zlen a = off -> zlen src = zlen b -> splice off src (a ++ b ++ c) = a ++ src ++ c.
Proof.
  intros <- Hs. unfold splice, zlen in *. rewrite Nat2Z.id.
  rewrite take_app_length. do 2 f_equal.
  rewrite app_assoc, drop_app_length'; [reflexivity|]. rewrite length_app. lia.
Qed.

(** Two adjacent writes are one write. *)
Lemma splice_splice_adjacent off a b dst :
  0 <= off -> off + zlen a + zlen b <= zlen dst ->
  splice (off + zlen a) b (splice off a dst) = splice off (a ++ b) dst.
Proof.
  intros. pose proof (zlen_nonneg a). pose proof (zlen_nonneg b). apply list_eq. intros i.
  rewrite !lookup_splice by (rewrite ?zlen_splice, ?zlen_app; lia). rewrite zlen_app.
  repeat case_bool_decide; try lia; try reflexivity.
  - rewrite lookup_app_r by (unfold zlen in *; lia). f_equal. unfold zlen in *. lia.
  - rewrite lookup_app_l by (unfold zlen in *; lia). reflexivity.
Qed.

Lemma slice_drop off len l : 0 <= off -> off + len = zlen l -> slice off len l = drop (Z.to_nat off) l.
Proof. unfold slice, zlen. intros. apply take_ge. rewrite length_drop. lia. Qed.

Lemma splice_head src dst :
  zlen src <= zlen dst -> splice 0 src dst = src ++ slice (zlen src) (zlen dst - zlen src) dst.
Proof.
  intros. rewrite splice_prefix by lia. rewrite slice_nil_len. simpl. do 2 f_equal; lia.
Qed.

(** Two buffers of the same length that agree on every position are equal. *)
Lemma slice_ext off len l1 l2 :
  0 <= off ->
  (forall i : nat, off <= Z.of_nat i < off + len -> l1 !! i = l2 !! i) ->
  slice off len l1 = slice off len l2.
Proof.
  intros Hoff Hext. apply list_eq. intros i. rewrite !lookup_slice by lia.
  case_bool_decide; [|reflexivity]. apply Hext. lia.
Qed.

Lemma slice_replicate off len n (x : A) :
  0 <= off -> 0 <= len -> off + len <= n ->
  slice off len (replicate (Z.to_nat n) x) = replicate (Z.to_nat len) x.
Proof.
  intros. unfold slice. rewrite drop_replicate, take_replicate. f_equal. lia.
Qed.

Lemma zlen_replicate n (x : A) : 0 <= n -> zlen (replicate (Z.to_nat n) x) = n.
Proof. intros. unfold zlen. rewrite length_replicate. lia. Qed.

End Slices.

Create Rewrite HintDb zlen.
#[export] Hint Rewrite @zlen_app : zlen.

(** * [memcpy_s] *)

(** The bounds-checked copy of the secure C library: it refuses an empty or
    over-large destination and a source longer than the destination space, and
    copies [src] to the front of the destination otherwise. [dst] is the whole
    buffer, [off] the destination pointer and [destMax] the space left. *)
Definition SECUREC_MEM_MAX_LEN : Z := 2147483647.

Definition memcpy_s (dst : list byte) (off destMax : Z) (src : list byte) : option (list byte) :=
  if (destMax =? 0) || (SECUREC_MEM_MAX_LEN <? destMax) || (destMax <? zlen src)
  then None else Some (splice off src dst).

Lemma memcpy_s_ok dst off destMax src :
  0 < destMax <= SECUREC_MEM_MAX_LEN -> zlen src <= destMax ->
  memcpy_s dst off destMax src = Some (splice off src dst).
Proof.
  intros. unfold memcpy_s.
  destruct (Z.eqb_spec destMax 0), (Z.ltb_spec SECUREC_MEM_MAX_LEN destMax),
    (Z.ltb_spec destMax (zlen src)); simpl; lia || reflexivity.
Qed.

Lemma memcpy_s_Some dst off destMax src dst' :
  memcpy_s dst off destMax src = Some dst' ->
  dst' = splice off src dst /\ zlen src <= destMax /\ 0 <> destMax.
Proof.
  unfold memcpy_s. intros Hm.
  destruct (Z.eqb_spec destMax 0), (Z.ltb_spec SECUREC_MEM_MAX_LEN destMax),
    (Z.ltb_spec destMax (zlen src)); simpl in Hm; try discriminate.
  injection Hm as <-. repeat split; lia.
Qed.
