(* ===== verification/Numerals.v ===== *)
(** Decimal numerals: [std::to_string] of 64-bit integers and [strtoll] in base 10. *)

From S2P Require Import Prelude Memory.
From Stdlib Require Import ZArith Lia.
From Stdlib Require Import Strings.Byte.
From stdpp Require Import base numbers list.

Open Scope Z_scope.

(** [std::to_string] of an unsigned 64-bit integer. *)
Fixpoint decimal (fuel : nat) (v : Z) : list byte :=
  match fuel with
  | O => []
  | S fuel => (if v <? 10 then [] else decimal fuel (v / 10)) ++ [z2b (48 + v mod 10)]
  end.

Definition to_string (v : Z) : list byte := decimal 20 v.

(** [std::to_string] of a signed one. *)
Definition to_string_signed (v : Z) : list byte :=
  if v <? 0 then x2d :: to_string (- v) else to_string v.

Definition INT64_MAX : Z := 9223372036854775807.
Definition INT64_MIN : Z := - 9223372036854775808.

Definition is_space (b : byte) : bool := let z := b2z b in (z =? 32) || ((9 <=? z) && (z <=? 13)).
Definition is_digit (b : byte) : bool := let z := b2z b in (48 <=? z) && (z <=? 57).

Fixpoint skip_spaces (s : list byte) : list byte :=
  match s with
  | b :: s' => if is_space b then skip_spaces s' else s
  | [] => []
  end.

Fixpoint digits (acc : Z) (s : list byte) : Z :=
  match s with
  | b :: s' => if is_digit b then digits (acc * 10 + (b2z b - 48)) s' else acc
  | [] => acc
  end.

Definition clamp64 (v : Z) : Z := Z.max INT64_MIN (Z.min INT64_MAX v).

(** [strtoll(s, nullptr, 10)]. *)
Definition strtoll (s : list byte) : Z :=
  match skip_spaces s with
  | b :: s' => if b2z b =? 45 then clamp64 (- digits 0 s')
               else if b2z b =? 43 then clamp64 (digits 0 s')
               else clamp64 (digits 0 (b :: s'))
  | [] => 0
  end.

Lemma digit_byte d : 0 <= d < 10 -> b2z (z2b (48 + d)) = 48 + d.
Proof. intros. rewrite b2z_z2b. apply Z.mod_small. lia. Qed.

Lemma digits_snoc s d : forall acc, Forall (fun b => is_digit b = true) s -> 0 <= d < 10 ->
  digits acc (s ++ [z2b (48 + d)]) = digits acc s * 10 + d.
Proof.
  induction s as [|b s IH]; intros acc Hs Hd; cbn [digits app].
  - unfold is_digit. rewrite digit_byte by done.
    rewrite (proj2 (Z.leb_le 48 _)), (proj2 (Z.leb_le _ 57)) by lia. cbn [andb]. lia.
  - inversion Hs as [|? ? Hb Hs']; subst. rewrite Hb. by apply IH.
Qed.

Lemma decimal_digits fuel : forall v, Forall (fun b => is_digit b = true) (decimal fuel v).
Proof.
  induction fuel as [|fuel IH]; intros v; cbn [decimal]; [done |].
  apply Forall_app. split; [destruct (v <? 10); [done | apply IH] |].
  constructor; [| done]. unfold is_digit. rewrite digit_byte by lia.
  rewrite (proj2 (Z.leb_le 48 _)), (proj2 (Z.leb_le _ 57)) by lia. done.
Qed.

Lemma digits_decimal fuel : forall v, 0 <= v < 10 ^ Z.of_nat fuel -> digits 0 (decimal fuel v) = v.
Proof.
  induction fuel as [|fuel IH]; intros v Hv; cbn [decimal].
  { change (10 ^ Z.of_nat 0) with 1 in Hv. cbn. lia. }
  rewrite Nat2Z.inj_succ, Z.pow_succ_r in Hv by lia.
  rewrite digits_snoc by (first [destruct (v <? 10); [constructor | apply decimal_digits] | lia]).
  destruct (Z.ltb_spec v 10).
  - cbn [digits]. rewrite Z.mod_small by lia. lia.
  - rewrite IH by lia. lia.
Qed.

Lemma decimal_head fuel v : exists b s, decimal (S fuel) v = b :: s /\ is_digit b = true.
Proof.
  pose proof (decimal_digits (S fuel) v) as Hd. destruct (decimal (S fuel) v) as [|b s] eqn:E.
  - cbn [decimal] in E. by destruct (if v <? 10 then [] else decimal fuel (v / 10)).
  - inversion Hd. eauto.
Qed.

Lemma digit_not_special b : is_digit b = true ->
  is_space b = false /\ (b2z b =? 45) = false /\ (b2z b =? 43) = false.
Proof.
  unfold is_digit, is_space. intros Hb. apply andb_true_iff in Hb as [H1 H2].
  apply Z.leb_le in H1, H2.
  rewrite (proj2 (Z.eqb_neq _ 32)), (proj2 (Z.leb_gt _ 13)), andb_false_r by lia.
  split_and!; try done; apply Z.eqb_neq; lia.
Qed.

(** A signed 64-bit integer is read back from its numeral. *)
Lemma strtoll_to_string v : INT64_MIN <= v <= INT64_MAX -> strtoll (to_string_signed v) = v.
Proof.
  unfold INT64_MIN, INT64_MAX, strtoll, to_string_signed, to_string, clamp64. intros Hv.
  destruct (Z.ltb_spec v 0).
  - cbn [skip_spaces]. replace (is_space x2d) with false by reflexivity. cbv iota.
    replace (b2z x2d =? 45) with true by reflexivity. cbv iota.
    rewrite digits_decimal by (change (10 ^ Z.of_nat 20) with 100000000000000000000; lia).
    unfold INT64_MIN, INT64_MAX. lia.
  - destruct (decimal_head 19 v) as (b & s & E & Hb). rewrite E. cbn [skip_spaces].
    destruct (digit_not_special b Hb) as (-> & -> & ->). rewrite <- E.
    rewrite digits_decimal by (change (10 ^ Z.of_nat 20) with 100000000000000000000; lia).
    unfold INT64_MIN, INT64_MAX. lia.
Qed.
