(* ===== verification/SerialBuffer.v ===== *)
(** Model of [SerialBuffer] (communicator/src/serial_buffer.cpp): the buffer a
    frame is built in, received in or assembled in. *)

From S2P Require Import Prelude Memory.
From Stdlib Require Import ZArith Lia.
From Stdlib Require Import Strings.Byte.
From stdpp Require Import base numbers list.

Open Scope Z_scope.

(** [communicator_type_define.h] and [serial_buffer.h] limits. *)
Definition MAX_TOTAL_LEN : Z := 104857600.
Definition MAX_EXTEND_HEAD_LENGTH : Z := 512.

(** The heap behind [new (std::nothrow)]: [heap_obj] says whether a small object
    can be had, [heap_new n] is [new uint8_t[n]]: it may fail, and the bytes it
    returns are not initialised, so they are arbitrary. *)
Class Heap : Type := {
  heap_obj : bool;
  heap_new : Z -> option (list byte);
  heap_new_zlen : forall n bs, 0 <= n -> heap_new n = Some bs -> zlen bs = n
}.

(** No allocation fails. *)
Definition heap_total `{Heap} : Prop :=
  heap_obj = true /\ forall n, 0 <= n -> is_Some (heap_new n).

(** A heap that never fails and hands out zeroed memory. *)
Program Definition zero_heap : Heap :=
  {| heap_obj := true; heap_new := fun n => Some (replicate (Z.to_nat n) x00) |}.
Next Obligation. intros n bs Hn [= <-]. unfold zlen. rewrite length_replicate. lia. Qed.

Lemma zero_heap_total : @heap_total zero_heap.
Proof. split; [reflexivity|]. intros n _. eexists. reflexivity. Qed.

(** [bytes_] points into [oringinalBytes_]; it is kept as an offset. *)
Record SerialBuffer := mkSerialBuffer {
  oringinalBytes_ : option (list byte);
  bytes_ : option Z;
  externalBytes_ : option (list byte);
  totalLen_ : Z;
  headerLen_ : Z;
  payloadLen_ : Z;
  paddingLen_ : Z;
  extendHeadLen_ : Z;
  isExternalStackMemory_ : bool
}.

(** The default member initialisers of the class. *)
Definition emptySerialBuffer : SerialBuffer :=
  mkSerialBuffer None None None 0 0 0 0 0 false.

Definition is_null {A} (o : option A) : bool :=
  match o with None => true | Some _ => false end.

Section Operations.
Context `{Heap}.

Definition SetExtendHeadLength (b : SerialBuffer) (extendHeaderLen : Z) : SerialBuffer :=
  mkSerialBuffer (oringinalBytes_ b) (bytes_ b) (externalBytes_ b) (totalLen_ b)
    (headerLen_ b) (payloadLen_ b) (paddingLen_ b) extendHeaderLen (isExternalStackMemory_ b).

Definition GetExtendHeadLength (b : SerialBuffer) : Z := extendHeadLen_ b.

Definition AllocBufferByPayloadLength (b : SerialBuffer) (inPayloadLen inHeaderLen : Z)
    : Z * SerialBuffer :=
  if negb (is_null (oringinalBytes_ b)) || negb (is_null (bytes_ b))
     || negb (is_null (externalBytes_ b)) then (- E_NOT_PERMIT, b)
  else
    let total := byte8_align 32 (u32 (inPayloadLen + inHeaderLen)) in
    let padding := u32 (total - inPayloadLen - inHeaderLen) in
    let b1 o p := mkSerialBuffer o p (externalBytes_ b) total inHeaderLen inPayloadLen padding
                    (extendHeadLen_ b) (isExternalStackMemory_ b) in
    if (total =? 0) || (MAX_TOTAL_LEN <? total) then (- E_INVALID_ARGS, b1 None None)
    else match heap_new (u32 (total + extendHeadLen_ b)) with
         | None => (- E_OUT_OF_MEMORY, b1 None None)
         | Some mem => (E_OK, b1 (Some mem) (Some (extendHeadLen_ b)))
         end.

Definition AllocBufferByTotalLength (b : SerialBuffer) (inTotalLen inHeaderLen : Z)
    : Z * SerialBuffer :=
  if negb (is_null (bytes_ b)) || negb (is_null (externalBytes_ b)) then (- E_NOT_PERMIT, b)
  else if (inTotalLen =? 0) || (MAX_TOTAL_LEN <? inTotalLen) || (inTotalLen <? inHeaderLen)
  then (- E_INVALID_ARGS, b)
  else
    let b1 o p := mkSerialBuffer o p (externalBytes_ b) inTotalLen inHeaderLen
                    (u32 (inTotalLen - inHeaderLen)) 0 (extendHeadLen_ b)
                    (isExternalStackMemory_ b) in
    match heap_new inTotalLen with
    | None => (- E_OUT_OF_MEMORY, b1 (oringinalBytes_ b) None)
    | Some mem => (E_OK, b1 (Some mem) (Some 0))
    end.

Definition SetExternalBuff (b : SerialBuffer) (buff : option (list byte))
    (inTotalLen inHeaderLen : Z) : Z * SerialBuffer :=
  if negb (is_null (bytes_ b)) || negb (is_null (externalBytes_ b)) then (- E_NOT_PERMIT, b)
  else if is_null buff || (inTotalLen =? 0) || (MAX_TOTAL_LEN <? inTotalLen)
          || (inTotalLen <? inHeaderLen) then (- E_INVALID_ARGS, b)
  else (E_OK, mkSerialBuffer (oringinalBytes_ b) (bytes_ b) buff inTotalLen inHeaderLen
                (u32 (inTotalLen - inHeaderLen)) 0 (extendHeadLen_ b) true).

(** The bytes from a pointer into the owned allocation. *)
Definition owned_bytes (b : SerialBuffer) (off len : Z) : option (list byte) :=
  match oringinalBytes_ b, bytes_ b with
  | Some mem, Some p => Some (slice (p + off) len mem)
  | _, _ => None
  end.

Definition ConvertForCrossThread (b : SerialBuffer) : Z * SerialBuffer :=
  match externalBytes_ b with
  | None => (E_OK, b)
  | Some ext =>
    match heap_new (totalLen_ b) with
    | None => (- E_OUT_OF_MEMORY,
        mkSerialBuffer (oringinalBytes_ b) None (externalBytes_ b) (totalLen_ b) (headerLen_ b)
          (payloadLen_ b) (paddingLen_ b) (extendHeadLen_ b) (isExternalStackMemory_ b))
    | Some mem =>
      match memcpy_s mem 0 (totalLen_ b) (slice 0 (totalLen_ b) ext) with
      | None => (- E_SECUREC_ERROR,
          mkSerialBuffer (oringinalBytes_ b) None (externalBytes_ b) (totalLen_ b) (headerLen_ b)
            (payloadLen_ b) (paddingLen_ b) (extendHeadLen_ b) (isExternalStackMemory_ b))
      | Some mem' => (E_OK,
          mkSerialBuffer (Some mem') (Some 0) None (totalLen_ b) (headerLen_ b)
            (payloadLen_ b) (paddingLen_ b) 0 false)
      end
    end
  end.

(** [Clone] copies [totalLen_] bytes from [bytes_]; the copy has no extended head
    area in front of it although [extendHeadLen_] is copied. *)
Definition Clone (b : SerialBuffer) : Z * option SerialBuffer :=
  let twin o p := mkSerialBuffer o p (externalBytes_ b) (totalLen_ b) (headerLen_ b)
                    (payloadLen_ b) (paddingLen_ b) (extendHeadLen_ b)
                    (isExternalStackMemory_ b) in
  match owned_bytes b 0 (totalLen_ b) with
  | None => (E_OK, Some (twin None None))
  | Some content =>
    match heap_new (totalLen_ b) with
    | None => (- E_OUT_OF_MEMORY, None)
    | Some mem =>
      match memcpy_s mem 0 (totalLen_ b) content with
      | None => (- E_SECUREC_ERROR, None)
      | Some mem' => (E_OK, Some (twin (Some mem') (Some 0)))
      end
    end
  end.

Definition GetSize (b : SerialBuffer) : Z :=
  if is_null (bytes_ b) && is_null (externalBytes_ b) then 0 else totalLen_ b.

(** Read access: the bytes of a region with its length; [None] is [nullptr]. *)
Definition read_region (b : SerialBuffer) (off len : Z) : option (list byte) * Z :=
  if isExternalStackMemory_ b then (slice off len <$> externalBytes_ b, len)
  else match owned_bytes b off len with
       | Some bs => (Some bs, len)
       | None => (None, 0)
       end.

Definition GetReadOnlyBytesForEntireBuffer (b : SerialBuffer) : option (list byte) * Z :=
  read_region b 0 (totalLen_ b).
Definition GetReadOnlyBytesForEntireFrame (b : SerialBuffer) : option (list byte) * Z :=
  read_region b 0 (u32 (totalLen_ b - paddingLen_ b)).
Definition GetReadOnlyBytesForHeader (b : SerialBuffer) : option (list byte) * Z :=
  read_region b 0 (headerLen_ b).
Definition GetReadOnlyBytesForPayload (b : SerialBuffer) : option (list byte) * Z :=
  read_region b (headerLen_ b) (payloadLen_ b).

(** Write access: the offset of the region in the owned allocation and its length. *)
Definition write_region (b : SerialBuffer) (off len : Z) : option Z * Z :=
  match bytes_ b with
  | None => (None, 0)
  | Some p => (Some (p + off), len)
  end.

Definition GetWritableBytesForEntireBuffer (b : SerialBuffer) : option Z * Z :=
  write_region b 0 (totalLen_ b).
Definition GetWritableBytesForEntireFrame (b : SerialBuffer) : option Z * Z :=
  write_region b 0 (u32 (totalLen_ b - paddingLen_ b)).
Definition GetWritableBytesForHeader (b : SerialBuffer) : option Z * Z :=
  write_region b 0 (headerLen_ b).
Definition GetWritableBytesForPayload (b : SerialBuffer) : option Z * Z :=
  write_region b (headerLen_ b) (payloadLen_ b).

(** Replaces the owned memory, as a write through a pointer does. *)
Definition set_memory (b : SerialBuffer) (mem : list byte) : SerialBuffer :=
  mkSerialBuffer (Some mem) (bytes_ b) (externalBytes_ b) (totalLen_ b) (headerLen_ b)
    (payloadLen_ b) (paddingLen_ b) (extendHeadLen_ b) (isExternalStackMemory_ b).

(** * Well-formedness *)

(** A buffer that owns its bytes: an extended head of [extendHeadLen_] bytes (none
    for an assembled frame), then header, payload and fewer than 8 padding bytes. *)
Record owned_wf (b : SerialBuffer) (mem : list byte) (p : Z) : Prop := {
  owf_mem : oringinalBytes_ b = Some mem;
  owf_ptr : bytes_ b = Some p;
  owf_ext : externalBytes_ b = None;
  owf_flag : isExternalStackMemory_ b = false;
  owf_p : 0 <= p;
  owf_zlen : zlen mem = p + totalLen_ b;
  owf_hdr : 0 <= headerLen_ b;
  owf_pay : 0 <= payloadLen_ b;
  owf_pad : 0 <= paddingLen_ b < 8;
  owf_total : totalLen_ b = headerLen_ b + payloadLen_ b + paddingLen_ b;
  owf_pos : 0 < totalLen_ b <= MAX_TOTAL_LEN
}.

(** A buffer that views received bytes. *)
Record external_wf (b : SerialBuffer) (ext : list byte) : Prop := {
  ewf_owned : bytes_ b = None;
  ewf_ext : externalBytes_ b = Some ext;
  ewf_flag : isExternalStackMemory_ b = true;
  ewf_hdr : 0 <= headerLen_ b;
  ewf_pay : 0 <= payloadLen_ b;
  ewf_pad : paddingLen_ b = 0;
  ewf_total : totalLen_ b = headerLen_ b + payloadLen_ b;
  ewf_zlen : totalLen_ b <= zlen ext;
  ewf_pos : 0 < totalLen_ b <= MAX_TOTAL_LEN
}.

(** * Lemmas *)

Lemma read_region_owned b mem p off len :
  owned_wf b mem p -> read_region b off len = (Some (slice (p + off) len mem), len).
Proof.
  intros []. unfold read_region, owned_bytes. rewrite owf_mem0, owf_ptr0, owf_flag0. reflexivity.
Qed.

Lemma read_region_external b ext off len :
  external_wf b ext -> read_region b off len = (Some (slice off len ext), len).
Proof. intros []. unfold read_region. rewrite ewf_ext0, ewf_flag0. reflexivity. Qed.

Lemma set_memory_wf b mem p mem' :
  owned_wf b mem p -> zlen mem' = zlen mem -> owned_wf (set_memory b mem') mem' p.
Proof. intros [] Hl. constructor; simpl; auto. rewrite Hl. auto. Qed.

(** The frame of an owned buffer is header and payload, without the padding. *)
Lemma frame_len_owned b mem p :
  owned_wf b mem p -> u32 (totalLen_ b - paddingLen_ b) = headerLen_ b + payloadLen_ b.
Proof. intros []. unfold MAX_TOTAL_LEN in *. rewrite wrap_small; lia. Qed.

Lemma GetSize_owned b mem p : owned_wf b mem p -> GetSize b = totalLen_ b.
Proof. intros []. unfold GetSize. rewrite owf_ptr0. reflexivity. Qed.

Lemma alloc_payload_ok ext payload header mem :
  0 <= payload -> 0 <= header -> 0 <= ext <= MAX_EXTEND_HEAD_LENGTH ->
  0 < payload + header -> payload + header + 7 <= MAX_TOTAL_LEN ->
  heap_new (byte8_align 32 (payload + header) + ext) = Some mem ->
  exists b, AllocBufferByPayloadLength (SetExtendHeadLength emptySerialBuffer ext) payload header
              = (E_OK, b) /\
    owned_wf b mem ext /\ headerLen_ b = header /\ payloadLen_ b = payload /\
    extendHeadLen_ b = ext /\ totalLen_ b = byte8_align 32 (payload + header) /\
    totalLen_ b mod 8 = 0.
Proof.
  intros Hp Hh He Hpos Hmax Hnew. unfold MAX_TOTAL_LEN, MAX_EXTEND_HEAD_LENGTH in *.
  destruct (byte8_align_bounds 32 (payload + header)) as [Hb Hm]; [lia..|].
  unfold AllocBufferByPayloadLength. simpl.
  rewrite (wrap_small 32 (payload + header)) by lia.
  set (total := byte8_align 32 (payload + header)) in *.
  rewrite (wrap_small 32 (total - payload - header)), (wrap_small 32 (total + ext)) by lia.
  destruct (Z.eqb_spec total 0), (Z.ltb_spec MAX_TOTAL_LEN total);
    unfold MAX_TOTAL_LEN in *; try lia.
  cbn [orb]. rewrite Hnew. eexists. split; [reflexivity|].
  apply heap_new_zlen in Hnew; [|lia].
  repeat split; simpl; unfold MAX_TOTAL_LEN; auto; lia.
Qed.

Lemma alloc_total_ok total header mem :
  0 <= header <= total -> 0 < total <= MAX_TOTAL_LEN -> heap_new total = Some mem ->
  exists b, AllocBufferByTotalLength emptySerialBuffer total header = (E_OK, b) /\
    owned_wf b mem 0 /\ headerLen_ b = header /\ payloadLen_ b = total - header /\
    totalLen_ b = total /\ paddingLen_ b = 0.
Proof.
  intros Hh Ht Hnew. unfold MAX_TOTAL_LEN in *. unfold AllocBufferByTotalLength. simpl.
  destruct (Z.eqb_spec total 0), (Z.ltb_spec MAX_TOTAL_LEN total), (Z.ltb_spec total header);
    unfold MAX_TOTAL_LEN in *; try lia.
  cbn [orb]. rewrite Hnew, wrap_small by lia. eexists. split; [reflexivity|].
  apply heap_new_zlen in Hnew; [|lia].
  repeat split; simpl; unfold MAX_TOTAL_LEN; auto; lia.
Qed.

Lemma set_external_ok ext total header :
  0 <= header <= total -> 0 < total <= MAX_TOTAL_LEN -> total <= zlen ext ->
  exists b, SetExternalBuff emptySerialBuffer (Some ext) total header = (E_OK, b) /\
    external_wf b ext /\ headerLen_ b = header /\ payloadLen_ b = total - header.
Proof.
  intros Hh Ht Hl. unfold MAX_TOTAL_LEN in *. unfold SetExternalBuff. simpl.
  destruct (Z.eqb_spec total 0), (Z.ltb_spec MAX_TOTAL_LEN total), (Z.ltb_spec total header);
    unfold MAX_TOTAL_LEN in *; try lia.
  cbn [orb]. rewrite wrap_small by lia. eexists. split; [reflexivity|].
  repeat split; simpl; unfold MAX_TOTAL_LEN; auto; lia.
Qed.

(** Detaching a received buffer from the receive thread's stack. *)
Lemma convert_external b ext mem :
  external_wf b ext -> heap_new (totalLen_ b) = Some mem ->
  exists b', ConvertForCrossThread b = (E_OK, b') /\
    owned_wf b' (slice 0 (totalLen_ b) ext) 0 /\
    (forall off len, 0 <= off -> 0 <= len -> off + len <= totalLen_ b ->
       read_region b' off len = read_region b off len) /\
    headerLen_ b' = headerLen_ b /\ payloadLen_ b' = payloadLen_ b /\
    totalLen_ b' = totalLen_ b /\ paddingLen_ b' = paddingLen_ b.
Proof.
  intros Hwf Hnew. pose proof Hwf as []. unfold MAX_TOTAL_LEN in *.
  unfold ConvertForCrossThread. rewrite ewf_ext0, Hnew.
  apply heap_new_zlen in Hnew; [|lia].
  assert (Hs : zlen (slice 0 (totalLen_ b) ext) = totalLen_ b) by (apply zlen_slice; lia).
  rewrite memcpy_s_ok by (unfold SECUREC_MEM_MAX_LEN; lia).
  eexists. split; [reflexivity|].
  assert (Hmem : splice 0 (slice 0 (totalLen_ b) ext) mem = slice 0 (totalLen_ b) ext).
  { apply splice_full. lia. }
  rewrite Hmem.
  assert (Hwf' : owned_wf (mkSerialBuffer (Some (slice 0 (totalLen_ b) ext)) (Some 0) None
      (totalLen_ b) (headerLen_ b) (payloadLen_ b) (paddingLen_ b) 0 false)
      (slice 0 (totalLen_ b) ext) 0).
  { constructor; simpl; unfold MAX_TOTAL_LEN; auto; lia. }
  split; [exact Hwf'|]. split; [|auto].
  intros off len Ho Hl Hol.
  rewrite (read_region_owned _ _ _ _ _ Hwf'), (read_region_external _ _ _ _ Hwf).
  rewrite slice_slice by lia. reflexivity.
Qed.

(** Header, payload and padding partition the buffer that is sent. *)
Lemma regions_partition b mem p :
  owned_wf b mem p ->
  slice p (totalLen_ b) mem =
    slice p (headerLen_ b) mem ++ slice (p + headerLen_ b) (payloadLen_ b) mem ++
    slice (p + headerLen_ b + payloadLen_ b) (paddingLen_ b) mem.
Proof.
  intros []. rewrite owf_total0.
  rewrite <- Z.add_assoc, !slice_split by lia. reflexivity.
Qed.

End Operations.
