(* ===== verification/Parcel.v ===== *)
(** Model of [Parcel] (common/include/parcel.h, common/src/parcel.cpp): typed values
    written to and read from a byte buffer, with an error that sticks. *)

From S2P Require Import Prelude Memory.
From Stdlib Require Import ZArith Lia.
From Stdlib Require Import Strings.Byte.
From stdpp Require Import base numbers list.

Open Scope Z_scope.

(** [buf_] is the memory the parcel was given ([None] is the null pointer); [bufPtr_]
    points into it and is kept as an offset. *)
Record Parcel := mkParcel {
  isError_ : bool;
  buf_ : option (list byte);
  bufPtr_ : Z;
  parcelLen_ : Z;
  totalLen_ : Z
}.

Definition newParcel (inBuf : option (list byte)) (len : Z) : Parcel :=
  mkParcel (match inBuf with None => true | Some _ => len =? 0 end) inBuf 0 0 len.

(** An operation on a parcel; [None] is undefined behaviour, an access outside the
    memory of the buffer. *)
Definition Run (A : Type) : Type := Parcel -> option (A * Parcel).

#[export] Instance run_ret : MRet Run := fun A a p => Some (a, p).
#[export] Instance run_bind : MBind Run := fun A B f m p => '(a, p) ← m p; f a p.

Definition set_isError : Run () := fun p =>
  Some ((), mkParcel true (buf_ p) (bufPtr_ p) (parcelLen_ p) (totalLen_ p)).
Definition move_ptr (n : Z) : Run () := fun p =>
  Some ((), mkParcel (isError_ p) (buf_ p) (bufPtr_ p + n) (parcelLen_ p) (totalLen_ p)).
Definition add_len (n : Z) : Run () := fun p =>
  Some ((), mkParcel (isError_ p) (buf_ p) (bufPtr_ p) (u64 (parcelLen_ p + n)) (totalLen_ p)).
Definition fail_with {A} (a : A) : Run A := set_isError ≫= fun _ => mret a.

Definition no_buffer (p : Parcel) : bool := match buf_ p with None => true | Some _ => false end.

(** Does an advance by [n] leave the buffer? *)
Definition beyond (n : Z) (p : Parcel) : bool := totalLen_ p <? u64 (parcelLen_ p + n).

(** [n] bytes at [bufPtr_]. *)
Definition load_bytes (n : Z) : Run (list byte) := fun p =>
  match buf_ p with
  | None => None
  | Some m => if (0 <=? bufPtr_ p) && (bufPtr_ p + n <=? zlen m)
              then Some (slice (bufPtr_ p) n m, p) else None
  end.

(** A plain store at [bufPtr_]. *)
Definition store_bytes (bs : list byte) : Run () := fun p =>
  match buf_ p with
  | None => None
  | Some m => if (0 <=? bufPtr_ p) && (bufPtr_ p + zlen bs <=? zlen m)
              then Some ((), mkParcel (isError_ p) (Some (splice (bufPtr_ p) bs m)) (bufPtr_ p)
                               (parcelLen_ p) (totalLen_ p))
              else None
  end.

(** [memcpy_s] to [bufPtr_]: whether it reports success. A refused copy leaves the
    memory alone, since no caller passes more bytes than the space it names. *)
Definition copy_to_parcel (destMax : Z) (src : list byte) : Run bool := fun p =>
  match buf_ p with
  | None => Some (false, p)
  | Some m => match memcpy_s m (bufPtr_ p) destMax src with
              | None => Some (false, p)
              | Some _ => '(_, p) ← store_bytes src p; Some (true, p)
              end
  end.

Section Parcel.
Context `{Host}.

(** * Integers *)

(** [ReadInteger<T>] and [WriteInteger<T>] for a [T] of [n] bytes. What is read is the
    bit pattern; [ReadInt] and [ReadInt64] give it the sign of their type. *)
Definition ReadInteger (n : nat) (integer : Z) : Run (Z * Z) := fun p =>
  if isError_ p then Some ((0, integer), p)
  else if no_buffer p || beyond (Z.of_nat n) p then fail_with (0, integer) p
  else (bs ← load_bytes (Z.of_nat n);
        _ ← move_ptr (Z.of_nat n);
        _ ← add_len (Z.of_nat n);
        mret (Z.of_nat n, NetToHost n (load_int bs))) p.

Definition WriteInteger (n : nat) (integer : Z) : Run Z := fun p =>
  if isError_ p then Some (- E_PARSE_FAIL, p)
  else if beyond (Z.of_nat n) p then fail_with (- E_PARSE_FAIL) p
  else (copied ← copy_to_parcel (u64 (totalLen_ p - parcelLen_ p))
          (store_int n (HostToNet n integer));
        if copied : bool then
          _ ← move_ptr (Z.of_nat n);
          _ ← add_len (Z.of_nat n);
          mret E_OK
        else fail_with (- E_SECUREC_ERROR)) p.

Definition WriteUInt8 (data : Z) : Run Z := WriteInteger 1 data.
Definition ReadUInt8 (val : Z) : Run (Z * Z) := ReadInteger 1 val.

Definition WriteBool (data : bool) : Run Z := WriteUInt8 (if data then 1 else 0).
Definition ReadBool (val : bool) : Run (Z * bool) :=
  '(len, intVal) ← ReadUInt8 0; mret (len, intVal =? 1).

Definition WriteInt (data : Z) : Run Z := WriteInteger 4 data.
Definition ReadInt (val : Z) : Run (Z * Z) :=
  '(len, v) ← ReadInteger 4 val; mret (len, to_signed 32 v).

Definition WriteInt64 (data : Z) : Run Z := WriteInteger 8 data.
Definition ReadInt64 (val : Z) : Run (Z * Z) :=
  '(len, v) ← ReadInteger 8 val; mret (len, to_signed 64 v).

Definition WriteUInt32 (data : Z) : Run Z := WriteInteger 4 data.
Definition ReadUInt32 (val : Z) : Run (Z * Z) := ReadInteger 4 val.

Definition WriteUInt64 (data : Z) : Run Z := WriteInteger 8 data.
Definition ReadUInt64 (val : Z) : Run (Z * Z) := ReadInteger 8 val.

(** A [double] is its 64-bit pattern. *)
Definition WriteDouble (data : Z) : Run Z := fun p =>
  if isError_ p || beyond 8 p then fail_with (- E_PARSE_FAIL) p
  else (copied ← copy_to_parcel (u64 (totalLen_ p - parcelLen_ p)) (store_int 8 (HostToNet 8 data));
        if copied : bool then _ ← move_ptr 8; _ ← add_len 8; mret E_OK
        else fail_with (- E_SECUREC_ERROR)) p.

Definition ReadDouble (val : Z) : Run (Z * Z) := fun p =>
  if isError_ p || no_buffer p || beyond 8 p then fail_with (0, val) p
  else (bs ← load_bytes 8;
        _ ← move_ptr 8;
        _ ← add_len 8;
        mret (8, NetToHost 8 (load_int bs))) p.

(** * Vectors and strings *)

(** The loops over the elements of a vector, each of [n] bytes. *)
Fixpoint store_items (n : nat) (data : list Z) : Run () :=
  match data with
  | [] => mret ()
  | iter :: data =>
    _ ← store_bytes (store_int n (HostToNet n iter));
    _ ← move_ptr (Z.of_nat n);
    store_items n data
  end.

Fixpoint load_items (n len : nat) : Run (list Z) :=
  match len with
  | O => mret []
  | S len =>
    bs ← load_bytes (Z.of_nat n);
    _ ← move_ptr (Z.of_nat n);
    rest ← load_items n len;
    mret (NetToHost n (load_int bs) :: rest)
  end.

Definition WriteVector (n : nat) (data : list Z) : Run Z := fun p =>
  if (INT32_MAX <? zlen data) || (INT32_MAX <? Z.of_nat n) then fail_with (- E_PARSE_FAIL) p
  else if isError_ p then Some (- E_PARSE_FAIL, p)
  else
    let stepLen := u64 (zlen data * Z.of_nat n + 4) in
    if no_buffer p || (INT32_MAX <? stepLen) || beyond (byte8_align 64 stepLen) p
    then fail_with (- E_PARSE_FAIL) p
    else (copied ← copy_to_parcel (u64 (totalLen_ p - parcelLen_ p))
            (store_int 4 (HostToNet 4 (zlen data)));
          if copied : bool then
            _ ← move_ptr 4;
            _ ← store_items n data;
            _ ← move_ptr (byte8_align 64 stepLen - stepLen);
            _ ← add_len (byte8_align 64 stepLen);
            mret E_OK
          else fail_with (- E_SECUREC_ERROR)) p.

Definition ReadVector (n : nat) (val : list Z) : Run (Z * list Z) := fun p =>
  if isError_ p then Some ((0, val), p)
  else if no_buffer p || beyond 4 p || (INT32_MAX <? Z.of_nat n) then fail_with (0, val) p
  else (bs ← load_bytes 4;
        let len := NetToHost 4 (load_int bs) in
        if INT32_MAX <? len then fail_with (0, val)
        else
          let stepLen := u64 (len * Z.of_nat n + 4) in
          if (INT32_MAX <? stepLen) || beyond (byte8_align 64 stepLen) p then fail_with (0, val)
          else
            _ ← move_ptr 4;
            items ← load_items n (Z.to_nat len);
            _ ← move_ptr (byte8_align 64 stepLen - stepLen);
            _ ← add_len (byte8_align 64 stepLen);
            mret (u32 (byte8_align 64 stepLen), items)) p.

(** A [std::vector<uint8_t>] holds bytes. *)
Definition WriteVectorChar (data : list byte) : Run Z := WriteVector 1 (b2z <$> data).
Definition ReadVectorChar (val : list byte) : Run (Z * list byte) :=
  '(len, items) ← ReadVector 1 (b2z <$> val); mret (len, z2b <$> items).

Definition WriteString (inVal : list byte) : Run Z := fun p =>
  if INT32_MAX <? zlen inVal then fail_with (- E_PARSE_FAIL) p
  else if isError_ p then Some (- E_PARSE_FAIL, p)
  else
    let stepLen := u64 (4 + zlen inVal) in
    if (INT32_MAX <? stepLen) || beyond (byte8_align 64 stepLen) p
    then fail_with (- E_PARSE_FAIL) p
    else (copied ← copy_to_parcel (u64 (totalLen_ p - parcelLen_ p))
            (store_int 4 (HostToNet 4 (zlen inVal)));
          if copied : bool then
            _ ← move_ptr 4;
            if zlen inVal =? 0 then
              _ ← move_ptr (byte8_align 64 stepLen - stepLen);
              _ ← add_len (byte8_align 64 stepLen);
              mret E_OK
            else
              copied ← copy_to_parcel (u64 (totalLen_ p - parcelLen_ p - 4)) inVal;
              if copied : bool then
                _ ← move_ptr (zlen inVal);
                _ ← move_ptr (byte8_align 64 stepLen - stepLen);
                _ ← add_len (byte8_align 64 stepLen);
                mret E_OK
              else fail_with (- E_SECUREC_ERROR)
          else fail_with (- E_SECUREC_ERROR)) p.

Definition ReadString (outVal : list byte) : Run (Z * list byte) := fun p =>
  if isError_ p then Some ((0, outVal), p)
  else if no_buffer p || beyond 4 p then fail_with (0, outVal) p
  else (bs ← load_bytes 4;
        let len := NetToHost 4 (load_int bs) in
        let stepLen := u64 (len + 4) in
        if (INT32_MAX <? stepLen) || beyond (byte8_align 64 stepLen) p then fail_with (0, outVal)
        else
          text ← load_bytes stepLen;
          _ ← move_ptr (byte8_align 64 stepLen);
          _ ← add_len (byte8_align 64 stepLen);
          mret (u32 (byte8_align 64 stepLen), drop 4 text)) p.

Definition IsContinueRead (p : Parcel) : bool := parcelLen_ p <? totalLen_ p.

(** * Blobs *)

(** The source buffer is read for [bufLen] bytes, which must be there. *)
Definition WriteBlob (buffer : option (list byte)) (bufLen : Z) : Run Z := fun p =>
  match buffer with
  | None => fail_with (- E_INVALID_ARGS) p
  | Some buffer =>
    if isError_ p then Some (- E_PARSE_FAIL, p)
    else if beyond bufLen p then fail_with (- E_PARSE_FAIL) p
    else
      let leftLen := u32 (totalLen_ p - parcelLen_ p) in
      if zlen buffer <? bufLen then None
      else (copied ← copy_to_parcel leftLen (slice 0 bufLen buffer);
            if copied : bool then
              let length := if byte8_align 32 bufLen <? leftLen then byte8_align 32 bufLen
                            else leftLen in
              _ ← move_ptr length;
              _ ← add_len length;
              mret E_OK
            else fail_with (- E_SECUREC_ERROR)) p
  end.

(** [buffer] is the destination; the copy names [bufLen] as its space and as its length,
    so [memcpy_s] refuses [bufLen = 0]. *)
Definition ReadBlob (buffer : option (list byte)) (bufLen : Z) : Run (Z * option (list byte)) := fun p =>
  match buffer with
  | None => fail_with (0, buffer) p
  | Some dst =>
    if isError_ p then Some ((0, buffer), p)
    else
      let leftLen := u32 (totalLen_ p - parcelLen_ p) in
      if beyond bufLen p then fail_with (0, buffer) p
      else if (bufLen =? 0) || (SECUREC_MEM_MAX_LEN <? bufLen) then fail_with (0, buffer) p
      else if zlen dst <? bufLen then None
      else (bs ← load_bytes bufLen;
            let length := if byte8_align 32 bufLen <? leftLen then byte8_align 32 bufLen
                          else leftLen in
            _ ← move_ptr length;
            _ ← add_len length;
            mret (length, Some (splice 0 bs dst))) p
  end.

Definition EightByteAlign : Run () := fun p =>
  Some ((), mkParcel (isError_ p) (buf_ p)
              (bufPtr_ p + (byte8_align 64 (parcelLen_ p) - parcelLen_ p))
              (byte8_align 64 (parcelLen_ p)) (totalLen_ p)).

End Parcel.

(** * Lengths *)

Definition GetUInt8Len : Z := 1.
Definition GetBoolLen : Z := GetUInt8Len.
Definition GetIntLen : Z := 4.
Definition GetUInt32Len : Z := 4.
Definition GetUInt64Len : Z := 8.
Definition GetInt64Len : Z := 8.
Definition GetDoubleLen : Z := 8.

Definition GetVectorLen {A} (n : nat) (data : list A) : Z :=
  if (INT32_MAX <? zlen data) || (INT32_MAX <? Z.of_nat n) then 0
  else
    let len := byte8_align 64 (u64 (4 + zlen data * Z.of_nat n)) in
    if INT32_MAX <? len then 0 else len.

Definition GetVectorCharLen (data : list byte) : Z := GetVectorLen 1 data.

Definition GetStringLen (data : list byte) : Z :=
  if INT32_MAX <? zlen data then 0
  else
    let len := byte8_align 64 (u64 (4 + zlen data)) in
    if INT32_MAX <? len then 0 else len.

Definition GetEightByteAlign (len : Z) : Z := byte8_align 32 len.
Definition GetAppendedLen : Z := 4 + 4 + 8 * 2.

(** * Commits of the multi-version store (storage/include/multi_ver_def.h) *)

Record MultiVerCommitNode := mkCommit {
  commitId : list byte;
  leftParent : list byte;
  rightParent : list byte;
  timestamp : Z;
  version : Z;
  isLocal : Z;
  deviceInfo : list byte
}.

Definition emptyCommit : MultiVerCommitNode := mkCommit [] [] [] 0 0 0 [].

(** [DBConstant::MAX_COMMIT_SIZE]. *)
Definition MAX_COMMIT_SIZE : Z := 1000000.

Section Commits.
Context `{Host}.

(** The steps of a writer, which returns the first status that is not [E_OK]. *)
Definition then_write (first next : Run Z) : Run Z :=
  errCode ← first; if errCode =? E_OK then next else mret errCode.

Definition WriteMultiVerCommit (commit : MultiVerCommitNode) : Run Z :=
  errCode ← WriteVectorChar (commitId commit);
  if negb (errCode =? E_OK) then fail_with errCode
  else
    then_write (WriteVectorChar (leftParent commit)) $
    then_write (WriteVectorChar (rightParent commit)) $
    then_write (WriteUInt64 (timestamp commit)) $
    then_write (WriteUInt64 (version commit)) $
    then_write (WriteUInt64 (isLocal commit)) $
    WriteString (deviceInfo commit).

(** The seven fields of [commit], read one after the other; the lengths are added up to
    [len], a [uint64_t]. *)
Definition read_fields (len : Z) (commit : MultiVerCommitNode) : Run (Z * MultiVerCommitNode) :=
  '(l1, id) ← ReadVectorChar (commitId commit);
  '(l2, lparent) ← ReadVectorChar (leftParent commit);
  '(l3, rparent) ← ReadVectorChar (rightParent commit);
  '(l4, time) ← ReadUInt64 (timestamp commit);
  '(l5, ver) ← ReadUInt64 (version commit);
  '(l6, loc) ← ReadUInt64 (isLocal commit);
  '(l7, dev) ← ReadString (deviceInfo commit);
  mret (u64 (len + l1 + l2 + l3 + l4 + l5 + l6 + l7), mkCommit id lparent rparent time ver loc dev).

Definition ReadMultiVerCommit (commit : MultiVerCommitNode) : Run (Z * MultiVerCommitNode) := fun p =>
  if isError_ p then Some ((0, commit), p)
  else
    '((len, commit), p) ← read_fields 0 commit p;
    if isError_ p || (INT32_MAX <? len) then fail_with (0, commit) p
    else Some ((u32 len, commit), p).

(** The loop of [WriteMultiVerCommits]. *)
Fixpoint write_commits (commits : list MultiVerCommitNode) : Run Z :=
  match commits with
  | [] => mret E_OK
  | iter :: commits =>
    then_write (WriteVectorChar (commitId iter)) $
    then_write (WriteVectorChar (leftParent iter)) $
    then_write (WriteVectorChar (rightParent iter)) $
    then_write (WriteUInt64 (timestamp iter)) $
    then_write (WriteUInt64 (version iter)) $
    then_write (WriteUInt64 (isLocal iter)) $
    then_write (WriteString (deviceInfo iter)) $
    _ ← EightByteAlign; write_commits commits
  end.

Definition WriteMultiVerCommits (commits : list MultiVerCommitNode) : Run Z :=
  errCode ← WriteUInt64 (zlen commits);
  if negb (errCode =? E_OK) then fail_with errCode
  else then_write (write_commits commits) (_ ← EightByteAlign; mret E_OK).

(** The loop of [ReadMultiVerCommits]: [size] rounds; [None] for an early return. *)
Fixpoint read_commits (size : nat) (len : Z) (commits : list MultiVerCommitNode)
    : Run (option Z * list MultiVerCommitNode) := fun p =>
  match size with
  | O => Some ((Some len, commits), p)
  | S size =>
    '((len, commit), p) ← read_fields len emptyCommit p;
    '(_, p) ← EightByteAlign p;
    let len := byte8_align 64 len in
    if isError_ p || (INT32_MAX <? len) then fail_with (None, commits ++ [commit]) p
    else read_commits size len (commits ++ [commit]) p
  end.

Definition ReadMultiVerCommits (commits : list MultiVerCommitNode)
    : Run (Z * list MultiVerCommitNode) := fun p =>
  '((len, size), p) ← ReadUInt64 0 p;
  if isError_ p then Some ((0, commits), p)
  else if MAX_COMMIT_SIZE <? size then fail_with (0, commits) p
  else
    '((len, commits), p) ← read_commits (Z.to_nat size) len commits p;
    match len with
    | None => Some ((0, commits), p)
    | Some len => Some ((u32 (byte8_align 64 len), commits), p)
    end.

End Commits.

(** The lengths of the seven fields added to [len]. *)
Definition fields_len (len : Z) (commit : MultiVerCommitNode) : Z :=
  u64 (len + GetVectorCharLen (commitId commit) + GetVectorCharLen (leftParent commit)
    + GetVectorCharLen (rightParent commit) + GetUInt64Len + GetUInt64Len + GetUInt64Len
    + GetStringLen (deviceInfo commit)).

Definition GetMultiVerCommitLen (commit : MultiVerCommitNode) : Z :=
  let len := fields_len 0 commit in
  if INT32_MAX <? len then 0 else len.

(** The loop of [GetMultiVerCommitsLen]; [None] for the early [return 0]. *)
Fixpoint commits_len (len : Z) (commits : list MultiVerCommitNode) : option Z :=
  match commits with
  | [] => Some len
  | iter :: commits =>
    let len := byte8_align 64 (fields_len len iter) in
    if INT32_MAX <? len then None else commits_len len commits
  end.

Definition GetMultiVerCommitsLen (commits : list MultiVerCommitNode) : Z :=
  match commits_len GetUInt64Len commits with
  | None => 0
  | Some len => let len := byte8_align 64 len in if INT32_MAX <? len then 0 else len
  end.
