(* ===== verification/ParcelFacts.v ===== *)
(** Correctness of [Parcel]: what is written is read back, in a buffer of the computed
    length nothing fails, and reading arbitrary bytes stays inside the buffer. *)

From S2P Require Import Prelude Memory Parcel.
From Stdlib Require Import ZArith Lia.
From Stdlib Require Import Strings.Byte.
From stdpp Require Import base numbers list.

Open Scope Z_scope.

(** * The values callers write *)

Inductive Item :=
  | IBool (b : bool)
  | IUInt8 (v : Z)
  | IInt (v : Z)
  | IUInt32 (v : Z)
  | IInt64 (v : Z)
  | IUInt64 (v : Z)
  | IDouble (v : Z)
  | IVector (n : nat) (vs : list Z)
  | IVectorChar (bs : list byte)
  | IString (bs : list byte)
  | IBlob (bs : list byte)
  | IAlign.

#[export] Instance Item_eq_dec : EqDecision Item.
Proof. solve_decision. Defined.

(** What a reader must know of a value. *)
Inductive Kind :=
  | KBool
  | KUInt8
  | KInt
  | KUInt32
  | KInt64
  | KUInt64
  | KDouble
  | KVector (n : nat)
  | KVectorChar
  | KString
  | KBlob (len : Z)
  | KAlign.

Definition kind_of (i : Item) : Kind :=
  match i with
  | IBool _ => KBool
  | IUInt8 _ => KUInt8
  | IInt _ => KInt
  | IUInt32 _ => KUInt32
  | IInt64 _ => KInt64
  | IUInt64 _ => KUInt64
  | IDouble _ => KDouble
  | IVector n _ => KVector n
  | IVectorChar _ => KVectorChar
  | IString _ => KString
  | IBlob bs => KBlob (zlen bs)
  | IAlign => KAlign
  end.

(** The value has its type, its size is that of an object in memory, and a blob is not
    empty: [ReadBlob] refuses an empty one. *)
Definition item_ok (i : Item) : Prop :=
  match i with
  | IBool _ | IAlign => True
  | IVectorChar bs | IString bs => zlen bs < 2 ^ 48
  | IUInt8 v => 0 <= v < 2 ^ 8
  | IInt v => - 2 ^ 31 <= v < 2 ^ 31
  | IUInt32 v => 0 <= v < 2 ^ 32
  | IInt64 v => - 2 ^ 63 <= v < 2 ^ 63
  | IUInt64 v | IDouble v => 0 <= v < 2 ^ 64
  | IVector n vs => (0 < n <= 8)%nat /\ Forall (fun v => 0 <= v < 256 ^ Z.of_nat n) vs /\ zlen vs < 2 ^ 48
  | IBlob bs => 0 < zlen bs < 2 ^ 32
  end.

Section Calls.
Context `{Host}.

Definition write_item (i : Item) : Run Z :=
  match i with
  | IBool b => WriteBool b
  | IUInt8 v => WriteUInt8 v
  | IInt v => WriteInt v
  | IUInt32 v => WriteUInt32 v
  | IInt64 v => WriteInt64 v
  | IUInt64 v => WriteUInt64 v
  | IDouble v => WriteDouble v
  | IVector n vs => WriteVector n vs
  | IVectorChar bs => WriteVectorChar bs
  | IString bs => WriteString bs
  | IBlob bs => WriteBlob (Some bs) (zlen bs)
  | IAlign => _ ← EightByteAlign; mret E_OK
  end.

(** A reader that adds up the lengths in [len] as the callers do. *)
Definition read_item (len : Z) (k : Kind) : Run (Z * Item) :=
  match k with
  | KBool => '(l, v) ← ReadBool false; mret (len + l, IBool v)
  | KUInt8 => '(l, v) ← ReadUInt8 0; mret (len + l, IUInt8 v)
  | KInt => '(l, v) ← ReadInt 0; mret (len + l, IInt v)
  | KUInt32 => '(l, v) ← ReadUInt32 0; mret (len + l, IUInt32 v)
  | KInt64 => '(l, v) ← ReadInt64 0; mret (len + l, IInt64 v)
  | KUInt64 => '(l, v) ← ReadUInt64 0; mret (len + l, IUInt64 v)
  | KDouble => '(l, v) ← ReadDouble 0; mret (len + l, IDouble v)
  | KVector n => '(l, v) ← ReadVector n []; mret (len + l, IVector n v)
  | KVectorChar => '(l, v) ← ReadVectorChar []; mret (len + l, IVectorChar v)
  | KString => '(l, v) ← ReadString []; mret (len + l, IString v)
  | KBlob n => '(l, v) ← ReadBlob (Some (replicate (Z.to_nat n) x00)) n;
               mret (len + l, IBlob (default [] v))
  | KAlign => _ ← EightByteAlign; mret (GetEightByteAlign len, IAlign)
  end.

(** The callers write one value after the other without looking at the statuses. *)
Fixpoint write_all (items : list Item) : Run () :=
  match items with
  | [] => mret ()
  | i :: items => _ ← write_item i; write_all items
  end.

Fixpoint read_all (len : Z) (kinds : list Kind) : Run (Z * list Item) :=
  match kinds with
  | [] => mret (len, [])
  | k :: kinds =>
    '(len, i) ← read_item len k;
    '(len, items) ← read_all len kinds;
    mret (len, i :: items)
  end.

(** * The wire format *)

(** A vector or string: its length, then its elements. *)
Definition enc_counted (n : Z) (body : list byte) : list byte := be_bytes 4 n ++ body.

Definition enc (i : Item) : list byte :=
  match i with
  | IBool b => be_bytes 1 (if b then 1 else 0)
  | IUInt8 v => be_bytes 1 v
  | IInt v | IUInt32 v => be_bytes 4 v
  | IInt64 v | IUInt64 v | IDouble v => be_bytes 8 v
  | IVector n vs => enc_counted (zlen vs) (concat (be_bytes n <$> vs))
  | IVectorChar bs | IString bs => enc_counted (zlen bs) bs
  | IBlob bs => bs
  | IAlign => []
  end.

Definition align8 (x : Z) : Z := 8 * ((x + 7) / 8).

(** How far the parcel moves, from [off] in a buffer of [total] bytes. *)
Definition adv (total off : Z) (i : Item) : Z :=
  match i with
  | IVector _ _ | IVectorChar _ | IString _ => align8 (zlen (enc i))
  | IBlob bs => Z.min (align8 (zlen bs)) (total - off)
  | IAlign => align8 off - off
  | _ => zlen (enc i)
  end.

(** The value fits from [off] on. *)
Definition fits (total off : Z) (i : Item) : Prop :=
  match i with
  | IAlign => True
  | IVector _ _ | IVectorChar _ | IString _ => off + align8 (zlen (enc i)) <= total
  | _ => off + zlen (enc i) <= total
  end.

(** A parcel without error at [off]. *)
Definition cursor (m : list byte) (off : Z) : Parcel := mkParcel false (Some m) off off (zlen m).

Lemma zlen_be_bytes n v : zlen (be_bytes n v) = Z.of_nat n.
Proof. unfold zlen. by rewrite length_be_bytes. Qed.

Lemma zlen_concat_be n vs : zlen (concat (be_bytes n <$> vs)) = zlen vs * Z.of_nat n.
Proof.
  induction vs as [|v vs IH]; [done |]. cbn [fmap list_fmap concat].
  rewrite zlen_app, zlen_be_bytes. change (be_bytes n <$> vs) with (be_bytes n <$> vs) in *.
  rewrite IH. unfold zlen. cbn [length]. lia.
Qed.

Lemma concat_b2z bs : concat (be_bytes 1 <$> (b2z <$> bs)) = bs.
Proof. induction bs as [|b bs IH]; [done |]. cbn. by rewrite z2b_b2z, IH. Qed.

Lemma to_signed_mod w n v :
  256 ^ Z.of_nat n = 2 ^ w -> 0 < w -> - 2 ^ (w - 1) <= v < 2 ^ (w - 1) ->
  to_signed w (v mod 256 ^ Z.of_nat n) = v.
Proof.
  intros -> Hw Hv. assert (E : 2 ^ w = 2 * 2 ^ (w - 1)).
  { replace w with (Z.succ (w - 1)) at 1 by lia. apply Z.pow_succ_r. lia. }
  unfold to_signed. rewrite E. clear E. set (h := 2 ^ (w - 1)) in *. clearbody h.
  rewrite Z.mod_mod by lia.
  destruct (Z.lt_ge_cases v 0).
  - replace (v mod (2 * h)) with (v + 2 * h).
    + destruct (Z.ltb_spec (v + 2 * h) h); lia.
    + apply (Z.mod_unique_pos _ _ (-1)); lia.
  - rewrite Z.mod_small by lia. destruct (Z.ltb_spec v h); lia.
Qed.

Lemma align8_bounds x : x <= align8 x < x + 8.
Proof. unfold align8. lia. Qed.

Lemma byte8_align_align8 w x : 0 <= x -> x + 7 < 2 ^ w -> byte8_align w x = align8 x.
Proof. apply byte8_align_spec. Qed.

Lemma beyond_cursor m off n : 0 <= off -> 0 <= n -> off + n < 2 ^ 64 ->
  beyond n (cursor m off) = (zlen m <? off + n).
Proof. intros. unfold beyond. cbn. by rewrite (wrap_small 64) by lia. Qed.

Lemma copy_cursor m off destMax src :
  0 <= off -> off + zlen src <= zlen m -> 0 < destMax <= INT32_MAX -> zlen src <= destMax ->
  forall p, buf_ p = Some m -> bufPtr_ p = off ->
  copy_to_parcel destMax src p =
    Some (true, mkParcel (isError_ p) (Some (splice off src m)) off (parcelLen_ p) (totalLen_ p)).
Proof.
  intros Ho Hs Hd Hl p Hb Hp. unfold copy_to_parcel. rewrite Hb, Hp, memcpy_s_ok by done.
  unfold store_bytes. rewrite Hb, Hp.
  destruct (Z.leb_spec 0 off); [| lia]. destruct (Z.leb_spec (off + zlen src) (zlen m)); [| lia].
  done.
Qed.

Lemma load_cursor n p m :
  buf_ p = Some m -> 0 <= bufPtr_ p -> bufPtr_ p + n <= zlen m ->
  load_bytes n p = Some (slice (bufPtr_ p) n m, p).
Proof.
  intros Hb Hp Hn. unfold load_bytes. rewrite Hb.
  destruct (Z.leb_spec 0 (bufPtr_ p)); [| lia].
  destruct (Z.leb_spec (bufPtr_ p + n) (zlen m)); [| lia]. done.
Qed.

Lemma run_bind_eq {A B} (f : A -> Run B) (r : Run A) p a q :
  r p = Some (a, q) -> (r ≫= f) p = f a q.
Proof. intros E. unfold mbind, run_bind. by rewrite E. Qed.

Lemma run_bind_then {A B} (f : A -> Run B) (r : Run A) p a q b q' :
  r p = Some (a, q) -> f a q = Some (b, q') -> (r ≫= f) p = Some (b, q').
Proof. intros E. by rewrite (run_bind_eq f r p a q E). Qed.

Lemma advance_eq {A} (a : A) p k n :
  bufPtr_ p + k = parcelLen_ p + n -> 0 <= parcelLen_ p + n < 2 ^ 64 ->
  (_ ← move_ptr k; _ ← add_len n; mret a) p =
    Some (a, mkParcel (isError_ p) (buf_ p) (parcelLen_ p + n) (parcelLen_ p + n) (totalLen_ p)).
Proof.
  intros Hp Hn. unfold mbind, run_bind. cbn. rewrite Hp, (wrap_small 64) by done. done.
Qed.

Lemma fail_with_eq {A} (a : A) p :
  fail_with a p = Some (a, mkParcel true (buf_ p) (bufPtr_ p) (parcelLen_ p) (totalLen_ p)).
Proof. done. Qed.

(** A write of [bs] that needs [room] bytes and moves the parcel by [step]. *)
Record write_spec (f : Run Z) (m : list byte) (off : Z) (bs : list byte) (step room : Z) : Prop := {
  ws_ok : off + room <= zlen m ->
    f (cursor m off) = Some (E_OK, cursor (splice off bs m) (off + step));
  ws_err : zlen m < off + room ->
    exists s p, f (cursor m off) = Some (s, p) /\ isError_ p = true
}.

Section Write.
Context (m : list byte) (off : Z).
Hypothesis Hm : zlen m <= INT32_MAX.
Hypothesis Hoff : 0 <= off <= 2 ^ 32.

Lemma cursor_spliced bs step :
  off + zlen bs <= zlen m ->
  mkParcel false (Some (splice off bs m)) (off + step) (off + step) (zlen m)
  = cursor (splice off bs m) (off + step).
Proof. intros. unfold cursor. by rewrite zlen_splice by lia. Qed.

Lemma left_space n : 0 < n -> off + n <= zlen m ->
  u64 (zlen m - off) = zlen m - off /\ 0 < zlen m - off <= INT32_MAX.
Proof. unfold INT32_MAX in *. intros. rewrite (wrap_small 64); lia. Qed.

Lemma WriteInteger_spec n v :
  (0 < n <= 8)%nat ->
  write_spec (WriteInteger n v) m off (be_bytes n v) (Z.of_nat n) (Z.of_nat n).
Proof.
  intros Hn. unfold INT32_MAX in *. split; intros Hr; unfold WriteInteger;
    cbn [isError_ cursor]; rewrite beyond_cursor by lia;
    destruct (Z.ltb_spec (zlen m) (off + Z.of_nat n)); try lia.
  - destruct (left_space (Z.of_nat n)) as [El Hl]; [lia.. |]. cbn [totalLen_ parcelLen_ cursor].
    rewrite El, store_HostToNet.
    erewrite run_bind_eq by (apply (copy_cursor m off); rewrite ?zlen_be_bytes; cbn; (done || lia)).
    cbv beta iota. rewrite advance_eq by (cbn; lia). cbn [isError_ buf_ parcelLen_ totalLen_ cursor].
    by rewrite cursor_spliced by (rewrite zlen_be_bytes; lia).
  - rewrite fail_with_eq. eauto.
Qed.

Lemma WriteDouble_spec v : write_spec (WriteDouble v) m off (be_bytes 8 v) 8 8.
Proof.
  unfold INT32_MAX in *. split; intros Hr; unfold WriteDouble;
    cbn [isError_ cursor orb]; rewrite beyond_cursor by lia;
    destruct (Z.ltb_spec (zlen m) (off + 8)); try lia.
  - destruct (left_space 8) as [El Hl]; [lia.. |]. cbn [totalLen_ parcelLen_ cursor].
    rewrite El, store_HostToNet.
    erewrite run_bind_eq by (apply (copy_cursor m off); rewrite ?zlen_be_bytes; cbn; (done || lia)).
    cbv beta iota. rewrite advance_eq by (cbn; lia). cbn [isError_ buf_ parcelLen_ totalLen_ cursor].
    by rewrite cursor_spliced by (rewrite zlen_be_bytes; lia).
  - rewrite fail_with_eq. eauto.
Qed.

Lemma store_items_eq n data : forall p m',
  buf_ p = Some m' -> 0 <= bufPtr_ p -> bufPtr_ p + zlen data * Z.of_nat n <= zlen m' ->
  store_items n data p = Some ((),
    mkParcel (isError_ p) (Some (splice (bufPtr_ p) (concat (be_bytes n <$> data)) m'))
      (bufPtr_ p + zlen data * Z.of_nat n) (parcelLen_ p) (totalLen_ p)).
Proof.
  induction data as [|v data IH]; intros p m' Hb Hp Hl.
  - destruct p; simpl in *. subst. unfold splice. cbn [length]. rewrite Nat.add_0_r.
    change (concat (be_bytes n <$> [])) with (@nil byte). cbn [app].
    rewrite take_drop. unfold zlen. cbn [length]. rewrite Z.mul_0_l, Z.add_0_r. done.
  - assert (Hz : zlen (v :: data) = 1 + zlen data) by (unfold zlen; cbn [length]; lia).
    rewrite Hz in *. pose proof (zlen_nonneg data).
    cbn [store_items]. rewrite store_HostToNet.
    erewrite run_bind_eq.
    2: { unfold store_bytes. rewrite Hb, zlen_be_bytes.
      destruct (Z.leb_spec 0 (bufPtr_ p)); [| lia].
      destruct (Z.leb_spec (bufPtr_ p + Z.of_nat n) (zlen m')); [done | nia]. }
    cbv beta. erewrite run_bind_eq by done. cbn [isError_ buf_ bufPtr_ parcelLen_ totalLen_].
    erewrite IH; [| done | cbn; lia | rewrite zlen_splice; cbn; rewrite ?zlen_be_bytes; nia].
    cbn [isError_ buf_ bufPtr_ parcelLen_ totalLen_ fmap list_fmap concat].
    replace (bufPtr_ p + Z.of_nat n) with (bufPtr_ p + zlen (be_bytes n v)) at 1
      by (by rewrite zlen_be_bytes).
    change (list_fmap Z (list byte) (be_bytes n) data) with (be_bytes n <$> data).
    rewrite splice_splice_adjacent by (rewrite ?zlen_concat_be, ?zlen_be_bytes; nia).
    do 3 f_equal. lia.
Qed.

Lemma WriteVector_spec n data :
  (0 < n <= 8)%nat -> zlen data < 2 ^ 48 ->
  let bs := enc_counted (zlen data) (concat (be_bytes n <$> data)) in
  write_spec (WriteVector n data) m off bs (align8 (zlen bs)) (align8 (zlen bs)).
Proof.
  intros Hn Hd bs. pose proof (zlen_nonneg data). unfold INT32_MAX in *.
  assert (Hbs : zlen bs = zlen data * Z.of_nat n + 4)
    by (unfold bs, enc_counted; rewrite zlen_app, zlen_be_bytes, zlen_concat_be; lia).
  assert (Hbig : zlen data <= zlen data * Z.of_nat n <= zlen data * 8) by nia.
  pose proof (align8_bounds (zlen bs)) as Ha.
  split; intros Hr; unfold WriteVector, INT32_MAX;
    rewrite (wrap_small 64 (zlen data * Z.of_nat n + 4)), <- Hbs, byte8_align_align8 by lia;
    cbn [isError_ no_buffer buf_ cursor]; rewrite beyond_cursor by lia.
  - rewrite (proj2 (Z.ltb_ge _ (zlen data))), (proj2 (Z.ltb_ge _ (Z.of_nat n))),
      (proj2 (Z.ltb_ge _ (zlen bs))), (proj2 (Z.ltb_ge (zlen m) _)) by lia. cbn [orb].
    destruct (left_space 4) as [El Hl]; [lia.. |]. unfold INT32_MAX in Hl.
    cbn [totalLen_ parcelLen_ cursor]. rewrite El, store_HostToNet.
    erewrite run_bind_eq by (apply (copy_cursor m off); rewrite ?zlen_be_bytes; cbn; (done || lia)).
    cbv beta iota. erewrite run_bind_eq by done. cbn [isError_ buf_ bufPtr_ parcelLen_ totalLen_ cursor].
    erewrite run_bind_eq by (eapply store_items_eq; [done | cbn [bufPtr_]; lia |
      cbn [bufPtr_]; rewrite zlen_splice, ?zlen_be_bytes by (rewrite ?zlen_be_bytes; lia); lia]).
    cbn [isError_ buf_ bufPtr_ parcelLen_ totalLen_].
    replace (off + 4) with (off + zlen (be_bytes 4 (zlen data))) at 1 by (by rewrite zlen_be_bytes).
    rewrite splice_splice_adjacent
      by (rewrite ?zlen_concat_be, ?zlen_be_bytes; lia).
    change (be_bytes 4 (zlen data) ++ concat (be_bytes n <$> data)) with bs.
    rewrite advance_eq by (cbn [bufPtr_ parcelLen_]; lia).
    cbn [isError_ buf_ parcelLen_ totalLen_]. by rewrite cursor_spliced by lia.
  - destruct (Z.ltb_spec 2147483647 (zlen data)); cbn [orb]; [rewrite fail_with_eq; eauto |].
    rewrite (proj2 (Z.ltb_ge _ (Z.of_nat n))) by lia.
    rewrite (proj2 (Z.ltb_lt (zlen m) _)), !orb_true_r by lia. rewrite fail_with_eq; eauto.
Qed.

Lemma WriteString_spec data :
  zlen data < 2 ^ 48 ->
  let bs := enc_counted (zlen data) data in
  write_spec (WriteString data) m off bs (align8 (zlen bs)) (align8 (zlen bs)).
Proof.
  intros Hd bs. pose proof (zlen_nonneg data). unfold INT32_MAX in *.
  assert (Hbs : zlen bs = 4 + zlen data)
    by (unfold bs, enc_counted; rewrite zlen_app, zlen_be_bytes; lia).
  pose proof (align8_bounds (zlen bs)) as Ha.
  split; intros Hr; unfold WriteString, INT32_MAX;
    rewrite (wrap_small 64 (4 + zlen data)), <- Hbs, byte8_align_align8 by lia;
    cbn [isError_ no_buffer buf_ cursor]; rewrite beyond_cursor by lia.
  - rewrite (proj2 (Z.ltb_ge _ (zlen data))),
      (proj2 (Z.ltb_ge _ (zlen bs))), (proj2 (Z.ltb_ge (zlen m) _)) by lia. cbn [orb].
    destruct (left_space 4) as [El Hl]; [lia.. |]. unfold INT32_MAX in Hl.
    cbn [totalLen_ parcelLen_ cursor]. rewrite El, store_HostToNet.
    rewrite (wrap_small 64 (zlen m - off - 4)) by lia.
    erewrite run_bind_eq by (apply (copy_cursor m off); rewrite ?zlen_be_bytes; cbn; (done || lia)).
    cbv beta iota. erewrite run_bind_eq by done. cbn [isError_ buf_ bufPtr_ parcelLen_ totalLen_ cursor].
    destruct (Z.eqb_spec (zlen data) 0) as [Hz | Hz].
    + rewrite advance_eq by (cbn [bufPtr_ parcelLen_]; lia).
      cbn [isError_ buf_ parcelLen_ totalLen_]. rewrite <- cursor_spliced by lia.
      do 4 f_equal. unfold bs, enc_counted. destruct data; [by rewrite app_nil_r |].
      unfold zlen in Hz. cbn [length] in Hz. lia.
    + set (m1 := splice off (be_bytes 4 (zlen data)) m).
      assert (Hm1 : zlen m1 = zlen m) by (apply zlen_splice; rewrite ?zlen_be_bytes; lia).
      erewrite run_bind_eq by (apply (copy_cursor m1 (off + 4));
        rewrite ?Hm1; unfold INT32_MAX; (done || lia)).
      cbv beta iota. erewrite run_bind_eq by done. cbn [isError_ buf_ bufPtr_ parcelLen_ totalLen_].
      rewrite advance_eq by (cbn [bufPtr_ parcelLen_]; lia).
      cbn [isError_ buf_ parcelLen_ totalLen_]. rewrite <- cursor_spliced by lia.
      do 4 f_equal. unfold m1. replace (off + 4) with (off + zlen (be_bytes 4 (zlen data)))
        by (by rewrite zlen_be_bytes).
      apply splice_splice_adjacent; rewrite ?zlen_be_bytes; lia.
  - destruct (Z.ltb_spec 2147483647 (zlen data)); [rewrite fail_with_eq; eauto |].
    rewrite (proj2 (Z.ltb_lt (zlen m) _)), orb_true_r by lia. rewrite fail_with_eq; eauto.
Qed.

Lemma WriteBlob_spec bs :
  0 < zlen bs < 2 ^ 32 ->
  write_spec (WriteBlob (Some bs) (zlen bs)) m off bs
    (Z.min (align8 (zlen bs)) (zlen m - off)) (zlen bs).
Proof.
  intros Hd. unfold INT32_MAX in *. pose proof (align8_bounds (zlen bs)) as Ha.
  split; intros Hr; unfold WriteBlob; cbn [isError_ cursor]; rewrite beyond_cursor by lia.
  - rewrite (proj2 (Z.ltb_ge (zlen m) _)), (proj2 (Z.ltb_ge (zlen bs) _)) by lia.
    cbn [totalLen_ parcelLen_ cursor].
    rewrite (wrap_small 32 (zlen m - off)), byte8_align_align8, slice_all by lia.
    erewrite run_bind_eq by (apply (copy_cursor m off); cbn; unfold INT32_MAX; (done || lia)).
    cbv beta iota. cbv zeta.
    replace (if align8 (zlen bs) <? zlen m - off then align8 (zlen bs) else zlen m - off)
      with (Z.min (align8 (zlen bs)) (zlen m - off))
      by (destruct (Z.ltb_spec (align8 (zlen bs)) (zlen m - off)); lia).
    rewrite advance_eq by (cbn [bufPtr_ parcelLen_ cursor]; lia).
    cbn [isError_ buf_ parcelLen_ totalLen_ cursor]. by rewrite cursor_spliced by lia.
  - rewrite (proj2 (Z.ltb_lt (zlen m) _)) by lia. rewrite fail_with_eq; eauto.
Qed.

(** What [write_item] does to a parcel without error. *)
Lemma write_item_spec i :
  item_ok i ->
  (fits (zlen m) off i /\
     write_item i (cursor m off) = Some (E_OK, cursor (splice off (enc i) m) (off + adv (zlen m) off i)))
  \/ (~ fits (zlen m) off i /\
      exists s p, write_item i (cursor m off) = Some (s, p) /\ isError_ p = true).
Proof.
  intros Hi.
  assert (Hspec : forall f bs step room, write_spec f m off bs step room ->
    (off + room <= zlen m /\ f (cursor m off) = Some (E_OK, cursor (splice off bs m) (off + step)))
    \/ (~ off + room <= zlen m /\ exists s p, f (cursor m off) = Some (s, p) /\ isError_ p = true)).
  { intros f bs step room []. destruct (Z.le_gt_cases (off + room) (zlen m)); [left | right]; auto.
    split; [lia | auto]. }
  destruct i; cbn [item_ok fits adv enc write_item] in *; rewrite ?zlen_be_bytes.
  - apply Hspec, WriteInteger_spec. lia.
  - apply Hspec, WriteInteger_spec. lia.
  - apply Hspec, WriteInteger_spec. lia.
  - apply Hspec, WriteInteger_spec. lia.
  - apply Hspec, WriteInteger_spec. lia.
  - apply Hspec, WriteInteger_spec. lia.
  - apply Hspec, WriteDouble_spec.
  - apply Hspec, WriteVector_spec; tauto.
  - unfold WriteVectorChar.
    pose proof (WriteVector_spec 1 (b2z <$> bs) ltac:(lia)) as W.
    unfold zlen in W at 1. rewrite length_fmap in W. specialize (W Hi).
    rewrite concat_b2z in W. replace (zlen (b2z <$> bs)) with (zlen bs) in W
      by (unfold zlen; by rewrite length_fmap).
    apply Hspec. exact W.
  - apply Hspec, WriteString_spec. lia.
  - apply Hspec, WriteBlob_spec. lia.
  - left. split; [done |]. unfold INT32_MAX in *.
    erewrite run_bind_eq by (unfold EightByteAlign; reflexivity).
    cbn [isError_ buf_ bufPtr_ parcelLen_ totalLen_ cursor].
    rewrite byte8_align_align8 by lia. unfold splice. cbn [length app].
    rewrite Nat.add_0_r, take_drop. unfold cursor.
    replace (off + (align8 off - off)) with (align8 off) by lia. done.
Qed.

End Write.

(** * Reading *)

Section Read.
Context (m : list byte) (off : Z).
Hypothesis Hm : zlen m <= INT32_MAX.
Hypothesis Hoff : 0 <= off <= 2 ^ 32.

Lemma ReadInteger_ok n x bs :
  (0 < n <= 8)%nat -> off + Z.of_nat n <= zlen m -> slice off (Z.of_nat n) m = bs ->
  ReadInteger n x (cursor m off) = Some ((Z.of_nat n, be_val bs), cursor m (off + Z.of_nat n)).
Proof.
  intros Hn Hf <-. unfold INT32_MAX in *. unfold ReadInteger. cbn [isError_ cursor no_buffer buf_ orb].
  rewrite beyond_cursor, (proj2 (Z.ltb_ge _ _)) by lia.
  erewrite run_bind_eq by (apply load_cursor; cbn; (done || lia)).
  cbn [bufPtr_ cursor]. rewrite NetToHost_load by (rewrite length_slice; lia).
  rewrite advance_eq by (cbn; lia). done.
Qed.

Lemma ReadDouble_ok x bs :
  off + 8 <= zlen m -> slice off 8 m = bs ->
  ReadDouble x (cursor m off) = Some ((8, be_val bs), cursor m (off + 8)).
Proof.
  intros Hf <-. unfold INT32_MAX in *. unfold ReadDouble. cbn [isError_ cursor no_buffer buf_ orb].
  rewrite beyond_cursor, (proj2 (Z.ltb_ge _ _)) by lia.
  erewrite run_bind_eq by (apply load_cursor; cbn; (done || lia)).
  cbn [bufPtr_ cursor]. rewrite NetToHost_load by (rewrite length_slice; lia).
  rewrite advance_eq by (cbn; lia). done.
Qed.

Lemma load_items_eq n vs : Forall (fun v => 0 <= v < 256 ^ Z.of_nat n) vs -> forall p,
  buf_ p = Some m -> 0 <= bufPtr_ p -> bufPtr_ p + zlen vs * Z.of_nat n <= zlen m ->
  slice (bufPtr_ p) (zlen vs * Z.of_nat n) m = concat (be_bytes n <$> vs) ->
  load_items n (length vs) p = Some (vs,
    mkParcel (isError_ p) (buf_ p) (bufPtr_ p + zlen vs * Z.of_nat n) (parcelLen_ p) (totalLen_ p)).
Proof.
  induction 1 as [|v vs Hv Hvs IH]; intros p Hb Hp Hl Hs.
  - destruct p. unfold zlen. cbn. by rewrite Z.add_0_r.
  - assert (Hz : zlen (v :: vs) = 1 + zlen vs) by (unfold zlen; cbn [length]; lia).
    rewrite Hz in *. pose proof (zlen_nonneg vs).
    rewrite Z.mul_add_distr_r, Z.mul_1_l, slice_split in Hs by nia. cbn [fmap list_fmap concat] in Hs.
    apply app_inj_1 in Hs as [H1 H2]; [| rewrite length_be_bytes, length_slice; nia].
    cbn [load_items length].
    erewrite run_bind_eq by (apply load_cursor; (done || nia)). rewrite H1. cbv beta.
    erewrite run_bind_eq by done. cbn [isError_ buf_ bufPtr_ parcelLen_ totalLen_].
    erewrite run_bind_eq by (apply IH; cbn [buf_ bufPtr_]; (done || nia)).
    cbn [isError_ buf_ bufPtr_ parcelLen_ totalLen_].
    rewrite NetToHost_load, be_val_be_bytes, Z.mod_small by (done || apply length_be_bytes).
    unfold mret, run_ret. do 3 f_equal. lia.
Qed.

(** A counted value: its length is read from the first four bytes. *)
Lemma counted_length n body :
  0 <= n < 2 ^ 31 -> off + zlen (enc_counted n body) <= zlen m ->
  slice off (zlen (enc_counted n body)) m = enc_counted n body ->
  slice off 4 m = be_bytes 4 n /\ slice (off + 4) (zlen body) m = body
  /\ NetToHost 4 (load_int (slice off 4 m)) = n.
Proof.
  intros Hn Hf Hs. unfold enc_counted in *. pose proof (zlen_nonneg body).
  rewrite zlen_app, zlen_be_bytes in *. rewrite slice_split in Hs by lia.
  apply app_inj_1 in Hs as [H1 H2]; [| rewrite length_be_bytes, length_slice; lia].
  change (Z.of_nat 4) with 4 in *.
  split_and!; [done.. |]. rewrite H1, NetToHost_load, be_val_be_bytes by apply length_be_bytes.
  apply Z.mod_small. change (256 ^ Z.of_nat 4) with (2 ^ 32). lia.
Qed.

Lemma ReadVector_ok n x vs :
  let bs := enc_counted (zlen vs) (concat (be_bytes n <$> vs)) in
  (0 < n <= 8)%nat -> Forall (fun v => 0 <= v < 256 ^ Z.of_nat n) vs ->
  off + align8 (zlen bs) <= zlen m -> slice off (zlen bs) m = bs ->
  ReadVector n x (cursor m off) =
    Some ((align8 (zlen bs), vs), cursor m (off + align8 (zlen bs))).
Proof.
  intros bs Hn Hvs Hf Hs. unfold INT32_MAX in *. pose proof (zlen_nonneg vs).
  assert (Hbs : zlen bs = zlen vs * Z.of_nat n + 4)
    by (unfold bs, enc_counted; rewrite zlen_app, zlen_be_bytes, zlen_concat_be; lia).
  pose proof (align8_bounds (zlen bs)) as Ha.
  assert (Hbig : zlen vs <= zlen vs * Z.of_nat n) by nia.
  destruct (counted_length (zlen vs) (concat (be_bytes n <$> vs))) as (H4 & Hbody & Hlen);
    [lia | fold bs; lia | done |]. rewrite zlen_concat_be in Hbody.
  unfold ReadVector, INT32_MAX. cbn [isError_ cursor no_buffer buf_ orb].
  rewrite beyond_cursor, (proj2 (Z.ltb_ge (zlen m) _)), (proj2 (Z.ltb_ge _ (Z.of_nat n))) by lia.
  cbn [orb]. erewrite run_bind_eq by (apply load_cursor; cbn; (done || lia)).
  cbn [bufPtr_ cursor]. rewrite Hlen. cbv zeta.
  rewrite (wrap_small 64 (zlen vs * Z.of_nat n + 4)), <- Hbs, byte8_align_align8 by lia.
  fold (cursor m off). rewrite beyond_cursor by lia.
  rewrite (proj2 (Z.ltb_ge _ (zlen vs))), (proj2 (Z.ltb_ge _ (zlen bs))),
    (proj2 (Z.ltb_ge (zlen m) _)) by lia. cbn [orb].
  erewrite run_bind_eq by done. cbn [isError_ buf_ bufPtr_ parcelLen_ totalLen_ cursor].
  replace (Z.to_nat (zlen vs)) with (length vs) by (unfold zlen; lia).
  erewrite run_bind_eq by (apply load_items_eq; cbn [buf_ bufPtr_]; (done || lia)).
  cbn [isError_ buf_ bufPtr_ parcelLen_ totalLen_].
  rewrite (wrap_small 32) by lia.
  rewrite advance_eq by (cbn [bufPtr_ parcelLen_]; lia). done.
Qed.

Lemma ReadVectorChar_ok x data :
  let bs := enc_counted (zlen data) data in
  off + align8 (zlen bs) <= zlen m -> slice off (zlen bs) m = bs ->
  ReadVectorChar x (cursor m off) =
    Some ((align8 (zlen bs), data), cursor m (off + align8 (zlen bs))).
Proof.
  intros bs Hf Hs. pose proof (ReadVector_ok 1 (b2z <$> x) (b2z <$> data)) as R. cbv zeta in R.
  rewrite concat_b2z in R. replace (zlen (b2z <$> data)) with (zlen data) in R
    by (unfold zlen; by rewrite length_fmap).
  eapply run_bind_then.
  - apply R; try done; [lia |]. apply Forall_fmap, Forall_true. intros b. apply b2z_range.
  - unfold mret, run_ret. fold bs. do 3 f_equal. rewrite <- list_fmap_compose.
    rewrite <- (list_fmap_id data) at 2. apply list_fmap_ext. intros ? b _. apply z2b_b2z.
Qed.

Lemma ReadString_ok x data :
  let bs := enc_counted (zlen data) data in
  off + align8 (zlen bs) <= zlen m -> slice off (zlen bs) m = bs ->
  ReadString x (cursor m off) =
    Some ((align8 (zlen bs), data), cursor m (off + align8 (zlen bs))).
Proof.
  intros bs Hf Hs. unfold INT32_MAX in *. pose proof (zlen_nonneg data).
  assert (Hbs : zlen bs = zlen data + 4)
    by (unfold bs, enc_counted; rewrite zlen_app, zlen_be_bytes; lia).
  pose proof (align8_bounds (zlen bs)) as Ha.
  destruct (counted_length (zlen data) data) as (H4 & Hbody & Hlen); [lia | fold bs; lia | done |].
  unfold ReadString, INT32_MAX. cbn [isError_ cursor no_buffer buf_ orb].
  rewrite beyond_cursor, (proj2 (Z.ltb_ge (zlen m) _)) by lia.
  erewrite run_bind_eq by (apply load_cursor; cbn; (done || lia)).
  cbn [bufPtr_ cursor]. rewrite Hlen. cbv zeta.
  rewrite (wrap_small 64 (zlen data + 4)), <- Hbs, byte8_align_align8 by lia.
  fold (cursor m off). rewrite beyond_cursor by lia.
  rewrite (proj2 (Z.ltb_ge _ (zlen bs))), (proj2 (Z.ltb_ge (zlen m) _)) by lia. cbn [orb].
  erewrite run_bind_eq by (apply load_cursor; cbn [buf_ bufPtr_ cursor]; (done || lia)).
  cbn [bufPtr_ cursor]. fold (cursor m off). rewrite Hs, (wrap_small 32) by lia.
  rewrite advance_eq by (cbn [bufPtr_ parcelLen_ cursor]; lia).
  unfold bs at 2, enc_counted. rewrite drop_app_length' by (symmetry; apply length_be_bytes). done.
Qed.

Lemma ReadBlob_ok dst bs :
  zlen dst = zlen bs -> 0 < zlen bs -> off + zlen bs <= zlen m -> slice off (zlen bs) m = bs ->
  let step := Z.min (align8 (zlen bs)) (zlen m - off) in
  ReadBlob (Some dst) (zlen bs) (cursor m off) = Some ((step, Some bs), cursor m (off + step)).
Proof.
  intros Hd Hb Hf Hs step. unfold INT32_MAX in *. pose proof (align8_bounds (zlen bs)) as Ha.
  unfold ReadBlob, SECUREC_MEM_MAX_LEN. cbn [isError_ cursor totalLen_ parcelLen_].
  fold (cursor m off). rewrite beyond_cursor by lia.
  rewrite (proj2 (Z.ltb_ge (zlen m) _)), (proj2 (Z.eqb_neq (zlen bs) 0)),
    (proj2 (Z.ltb_ge _ (zlen bs))), Hd, Z.ltb_irrefl by lia. cbn [orb].
  erewrite run_bind_eq by (apply load_cursor; cbn [buf_ bufPtr_ cursor]; (done || lia)).
  cbn [bufPtr_ cursor]. fold (cursor m off). rewrite Hs, (wrap_small 32 (zlen m - off)) by lia.
  rewrite byte8_align_align8 by lia. cbv zeta.
  replace (if align8 (zlen bs) <? zlen m - off then align8 (zlen bs) else zlen m - off)
    with step by (unfold step; destruct (Z.ltb_spec (align8 (zlen bs)) (zlen m - off)); lia).
  rewrite advance_eq by (cbn [bufPtr_ parcelLen_ cursor]; lia).
  rewrite splice_full by done. done.
Qed.

End Read.

(** * Layout of a sequence of values *)

(** The parcel never moves past the end of the buffer rounded up to 8. *)
Definition reach (total off : Z) : Prop := 0 <= off <= align8 total.

Lemma adv_reach total off i :
  reach total off -> fits total off i -> item_ok i ->
  0 <= adv total off i /\ reach total (off + adv total off i).
Proof.
  unfold reach. intros Hr Hf Hi. pose proof (align8_bounds total). pose proof (align8_bounds off).
  pose proof (zlen_nonneg (enc i)). pose proof (align8_bounds (zlen (enc i))).
  destruct i; cbn [adv fits enc item_ok] in *; try lia. unfold align8 in *. lia.
Qed.

Fixpoint laid_out (total off : Z) (items : list Item) (m : list byte) : Prop :=
  match items with
  | [] => True
  | i :: items =>
    fits total off i /\ slice off (zlen (enc i)) m = enc i
    /\ laid_out total (off + adv total off i) items m
  end.

Fixpoint end_of (total off : Z) (items : list Item) : Z :=
  match items with
  | [] => off
  | i :: items => end_of total (off + adv total off i) items
  end.

Lemma splice_nil (l : list byte) o : splice o [] l = l.
Proof. unfold splice. cbn [length app]. rewrite Nat.add_0_r. apply take_drop. Qed.

(** A written value does not touch what lies before it. *)
Lemma enc_bounds m off i :
  reach (zlen m) off -> fits (zlen m) off i -> item_ok i ->
  zlen (splice off (enc i) m) = zlen m
  /\ slice off (zlen (enc i)) (splice off (enc i) m) = enc i
  /\ (forall o n, 0 <= o -> o + n <= off ->
        slice o n (splice off (enc i) m) = slice o n m)
  /\ zlen (enc i) <= adv (zlen m) off i.
Proof.
  unfold reach. intros Hr Hf Hi. pose proof (align8_bounds (zlen (enc i))). pose proof (align8_bounds off).
  pose proof (zlen_nonneg (enc i)).
  destruct (decide (i = IAlign)) as [-> | Hne].
  { cbn [enc adv]. rewrite splice_nil. split_and!; try done. unfold zlen at 1. cbn. lia. }
  assert (Hfit : off + zlen (enc i) <= zlen m) by (destruct i; cbn [fits enc] in *; try lia; done).
  split_and!.
  - apply zlen_splice; lia.
  - apply slice_splice_same; lia.
  - intros. apply slice_splice_disjoint; lia.
  - destruct i; cbn [adv enc] in *; try lia; try done.
Qed.

(** An error sticks. *)
Lemma write_item_error i p : isError_ p = true ->
  exists s p', write_item i p = Some (s, p') /\ isError_ p' = true.
Proof.
  intros He.
  destruct i; cbn [write_item]; unfold WriteBool, WriteUInt8, WriteInt, WriteInt64, WriteUInt32,
    WriteUInt64, WriteVectorChar, WriteInteger, WriteDouble, WriteVector, WriteString, WriteBlob;
    rewrite ?He; cbn [orb]; rewrite ?fail_with_eq; eauto.
  - destruct (_ || _); rewrite ?fail_with_eq; eauto.
  - destruct (_ || _); rewrite ?fail_with_eq; eauto.
  - destruct (_ <? _); rewrite ?fail_with_eq; eauto.
Qed.

Lemma write_all_error items : forall p, isError_ p = true ->
  exists p', write_all items p = Some ((), p') /\ isError_ p' = true.
Proof.
  induction items as [|i items IH]; intros p He; cbn [write_all]; [eexists; done |].
  destruct (write_item_error i p He) as (s & p' & E & He').
  erewrite run_bind_eq by done. auto.
Qed.

Lemma write_all_spec items : Forall item_ok items -> forall m off p',
  zlen m <= INT32_MAX -> reach (zlen m) off ->
  write_all items (cursor m off) = Some ((), p') -> isError_ p' = false ->
  exists m', p' = cursor m' (end_of (zlen m) off items) /\ zlen m' = zlen m
    /\ laid_out (zlen m) off items m'
    /\ forall o n, 0 <= o -> o + n <= off -> slice o n m' = slice o n m.
Proof.
  induction 1 as [|i items Hi Hitems IH]; intros m off p' Hm Hr E He; cbn [write_all] in E.
  { injection E as <-. exists m. split_and!; done. }
  assert (Ho : 0 <= off <= 2 ^ 32).
  { pose proof (align8_bounds (zlen m)). unfold reach, INT32_MAX in *. lia. }
  destruct (write_item_spec m off Hm Ho i Hi) as [[Hf W] | (_ & s & q & W & Hq)].
  2: { erewrite run_bind_eq in E by done. destruct (write_all_error items q Hq) as (q' & E' & Hq').
       rewrite E' in E. injection E as ->. congruence. }
  erewrite run_bind_eq in E by done.
  destruct (enc_bounds m off i Hr Hf Hi) as (Hl & Hs & Hpre & Hadv).
  destruct (adv_reach (zlen m) off i Hr Hf Hi) as [Ha Hr'].
  destruct (IH (splice off (enc i) m) (off + adv (zlen m) off i) p') as (m' & -> & Hm' & Hlay & Hkeep);
    [by rewrite Hl | by rewrite Hl | done | done |].
  rewrite Hl in *. exists m'. split_and!; try done.
  - cbn [laid_out]. split_and!; try done. rewrite Hkeep by (unfold reach in *; lia). done.
  - intros. rewrite Hkeep by lia. apply Hpre; lia.
Qed.

Lemma read_item_ok m off i :
  zlen m <= INT32_MAX -> reach (zlen m) off -> item_ok i -> fits (zlen m) off i ->
  slice off (zlen (enc i)) m = enc i ->
  read_item off (kind_of i) (cursor m off) =
    Some ((off + adv (zlen m) off i, i), cursor m (off + adv (zlen m) off i)).
Proof.
  intros Hm Hr Hi Hf Hs.
  assert (Ho : 0 <= off <= 2 ^ 32).
  { pose proof (align8_bounds (zlen m)). unfold reach, INT32_MAX in *. lia. }
  destruct i; cbn [item_ok fits adv enc kind_of read_item] in *;
    rewrite ?zlen_be_bytes in *;
    unfold ReadBool, ReadUInt8, ReadInt, ReadUInt32, ReadInt64, ReadUInt64.
  all: try (eapply run_bind_then;
    [ eapply run_bind_then; [apply ReadInteger_ok; (done || lia) | reflexivity]
    | rewrite be_val_be_bytes; unfold mret, run_ret; do 4 f_equal ]).
  all: try (eapply run_bind_then; [apply ReadInteger_ok; (done || lia) |
    rewrite be_val_be_bytes; unfold mret, run_ret; do 4 f_equal]; lia).
  - by destruct b.
  - by apply to_signed_mod.
  - by apply to_signed_mod.
  - eapply run_bind_then; [apply ReadDouble_ok; (done || lia) |].
    rewrite be_val_be_bytes. unfold mret, run_ret. do 4 f_equal. lia.
  - destruct Hi as (Hn & Hvs & _).
    pose proof (ReadVector_ok m off Hm Ho n [] vs Hn Hvs Hf Hs) as R.
    eapply run_bind_then; [exact R | done].
  - pose proof (ReadVectorChar_ok m off Hm Ho [] bs Hf Hs) as R.
    eapply run_bind_then; [exact R | done].
  - pose proof (ReadString_ok m off Hm Ho [] bs Hf Hs) as R.
    eapply run_bind_then; [exact R | done].
  - pose proof (ReadBlob_ok m off Hm Ho (replicate (Z.to_nat (zlen bs)) x00) bs) as R.
    eapply run_bind_then; [apply R; (done || lia || apply zlen_replicate; lia) | done].
  - eapply run_bind_then; [unfold EightByteAlign; reflexivity |].
    unfold mret, run_ret, GetEightByteAlign. unfold INT32_MAX, reach in *.
    pose proof (align8_bounds (zlen m)).
    cbn [isError_ buf_ bufPtr_ parcelLen_ totalLen_ cursor].
    rewrite !byte8_align_align8 by lia. unfold cursor. by rewrite Zplus_minus.
Qed.

Lemma read_all_ok m items : zlen m <= INT32_MAX -> Forall item_ok items -> forall off,
  reach (zlen m) off -> laid_out (zlen m) off items m ->
  read_all off (kind_of <$> items) (cursor m off) =
    Some ((end_of (zlen m) off items, items), cursor m (end_of (zlen m) off items)).
Proof.
  intros Hm. induction 1 as [|i items Hi Hitems IH]; intros off Hr Hlay; [done |].
  destruct Hlay as (Hf & Hs & Hlay). cbn [fmap list_fmap read_all end_of].
  destruct (adv_reach (zlen m) off i Hr Hf Hi) as [Ha Hr'].
  eapply run_bind_then; [by apply read_item_ok |]. cbv beta iota.
  eapply run_bind_then; [by apply IH | done].
Qed.

Lemma new_cursor m : 0 < zlen m -> newParcel (Some m) (zlen m) = cursor m 0.
Proof. intros. unfold newParcel, cursor. by rewrite (proj2 (Z.eqb_neq _ _)) by lia. Qed.

Lemma reach_start (m : list byte) : reach (zlen m) 0.
Proof. unfold reach. pose proof (zlen_nonneg m). pose proof (align8_bounds (zlen m)). lia. Qed.

(** Whatever values a caller writes one after the other into a buffer, without looking
    at the status of any write: if the parcel shows no error at the end, a reader of the
    bytes that asks for values of the same kinds in the same order gets the values, the
    lengths it adds up are the bytes that were used, and it ends where the writer ended. *)
Theorem parcel_roundtrip m items p :
  0 < zlen m <= INT32_MAX -> Forall item_ok items ->
  write_all items (newParcel (Some m) (zlen m)) = Some ((), p) -> isError_ p = false ->
  exists m', buf_ p = Some m' /\ zlen m' = zlen m
    /\ read_all 0 (kind_of <$> items) (newParcel (Some m') (zlen m')) =
         Some ((parcelLen_ p, items), p).
Proof.
  intros Hm Hitems E He. rewrite new_cursor in E by lia.
  destruct (write_all_spec items Hitems m 0 p) as (m' & -> & Hm' & Hlay & _);
    [lia | apply reach_start | done | done |].
  exists m'. split; [done |]. split; [done |]. rewrite new_cursor by lia. rewrite <- Hm' in *.
  apply read_all_ok; [lia | done | apply reach_start | done].
Qed.

(** * Values that fit are written *)

Fixpoint all_fit (total off : Z) (items : list Item) : Prop :=
  match items with
  | [] => True
  | i :: items => fits total off i /\ all_fit total (off + adv total off i) items
  end.

Lemma end_of_app total l2 : forall l1 off,
  end_of total off (l1 ++ l2) = end_of total (end_of total off l1) l2.
Proof. induction l1 as [|i l1 IH]; intros off; [done |]. cbn [app end_of]. apply IH. Qed.

Lemma all_fit_app total l2 : forall l1 off,
  all_fit total off (l1 ++ l2) <-> all_fit total off l1 /\ all_fit total (end_of total off l1) l2.
Proof.
  induction l1 as [|i l1 IH]; intros off; [cbn; tauto |]. cbn [app all_fit end_of]. rewrite IH. tauto.
Qed.

(** A writer that stops at the first status other than [E_OK]. *)
Fixpoint write_until_error (items : list Item) : Run Z :=
  match items with
  | [] => mret E_OK
  | i :: items => then_write (write_item i) (write_until_error items)
  end.

Lemma then_write_ok f k p q : f p = Some (E_OK, q) -> then_write f k p = k q.
Proof. intros E. unfold then_write. by rewrite (run_bind_eq _ _ _ _ _ E). Qed.

Lemma then_write_ext f k k' p : (forall q, k q = k' q) -> then_write f k p = then_write f k' p.
Proof.
  intros Hk. unfold then_write, mbind, run_bind. destruct (f p) as [[s q]|]; [| done].
  cbn. destruct (s =? E_OK); auto.
Qed.

Lemma write_fitting items : Forall item_ok items -> forall m off,
  zlen m <= INT32_MAX -> reach (zlen m) off -> all_fit (zlen m) off items ->
  exists m', write_until_error items (cursor m off) =
      Some (E_OK, cursor m' (end_of (zlen m) off items))
    /\ zlen m' = zlen m /\ laid_out (zlen m) off items m'
    /\ forall o n, 0 <= o -> o + n <= off -> slice o n m' = slice o n m.
Proof.
  induction 1 as [|i items Hi Hitems IH]; intros m off Hm Hr Hfit; cbn [write_until_error].
  { exists m. split_and!; done. }
  destruct Hfit as [Hf Hfit].
  assert (Ho : 0 <= off <= 2 ^ 32).
  { pose proof (align8_bounds (zlen m)). unfold reach, INT32_MAX in *. lia. }
  destruct (write_item_spec m off Hm Ho i Hi) as [[_ W] | [Hn _]]; [| done].
  destruct (enc_bounds m off i Hr Hf Hi) as (Hl & Hs & Hpre & Hadv).
  destruct (adv_reach (zlen m) off i Hr Hf Hi) as [Ha Hr'].
  rewrite (then_write_ok _ _ _ _ W).
  destruct (IH (splice off (enc i) m) (off + adv (zlen m) off i)) as (m' & E & Hm' & Hlay & Hkeep);
    [rewrite Hl; done.. |].
  rewrite Hl in *. exists m'. split; [done |]. split; [done |]. split.
  - cbn [laid_out]. split_and!; try done. rewrite Hkeep by (unfold reach in *; lia). done.
  - intros. rewrite Hkeep by lia. apply Hpre; lia.
Qed.

Lemma write_all_until items : forall p q,
  write_until_error items p = Some (E_OK, q) -> write_all items p = Some ((), q).
Proof.
  induction items as [|i items IH]; intros p q E; cbn [write_until_error write_all] in *.
  { by injection E as <-. }
  unfold then_write, mbind, run_bind in *. destruct (write_item i p) as [[s r]|]; [| done].
  cbn in *. destruct (Z.eqb_spec s E_OK); [auto |]. by injection E.
Qed.

(** A fresh buffer that is long enough is written without error. *)
Lemma write_all_fits m items :
  0 < zlen m <= INT32_MAX -> Forall item_ok items -> all_fit (zlen m) 0 items ->
  exists m', write_all items (newParcel (Some m) (zlen m)) = Some ((), cursor m' (end_of (zlen m) 0 items))
    /\ zlen m' = zlen m /\ laid_out (zlen m) 0 items m'.
Proof.
  intros Hm Hok Hfit. rewrite new_cursor by lia.
  destruct (write_fitting items Hok m 0) as (m' & E & Hz & Hlay & _); [lia | apply reach_start | done |].
  exists m'. split; [by apply write_all_until | done].
Qed.

(** * Commits *)

Definition commit_items (c : MultiVerCommitNode) : list Item :=
  [IVectorChar (commitId c); IVectorChar (leftParent c); IVectorChar (rightParent c);
   IUInt64 (timestamp c); IUInt64 (version c); IUInt64 (isLocal c); IString (deviceInfo c)].

Fixpoint loop_items (cs : list MultiVerCommitNode) : list Item :=
  match cs with
  | [] => []
  | c :: cs => commit_items c ++ IAlign :: loop_items cs
  end.

Lemma write_commits_eq cs : forall p, write_commits cs p = write_until_error (loop_items cs) p.
Proof.
  induction cs as [|c cs IH]; intros p; [done |]. cbn [write_commits loop_items commit_items app write_until_error].
  do 7 (apply then_write_ext; intros ?). unfold then_write, mbind, run_bind. cbn. apply IH.
Qed.

(** The fields have their types and their lengths are not too large for a parcel. *)
Definition commit_ok (c : MultiVerCommitNode) : Prop :=
  Forall (fun bs => zlen bs <= INT32_MAX - 11)
    [commitId c; leftParent c; rightParent c; deviceInfo c]
  /\ Forall (fun v => 0 <= v < 2 ^ 64) [timestamp c; version c; isLocal c].

Definition field_size (bs : list byte) : Z := align8 (4 + zlen bs).

Definition commit_size (c : MultiVerCommitNode) : Z :=
  field_size (commitId c) + field_size (leftParent c) + field_size (rightParent c) + 24
  + field_size (deviceInfo c).

Fixpoint commits_size (cs : list MultiVerCommitNode) : Z :=
  match cs with
  | [] => 0
  | c :: cs => commit_size c + commits_size cs
  end.

Lemma field_size_bounds bs :
  4 + zlen bs <= field_size bs < 12 + zlen bs /\ field_size bs mod 8 = 0.
Proof. unfold field_size, align8. lia. Qed.

Lemma commit_size_bounds c : 0 < commit_size c /\ commit_size c mod 8 = 0.
Proof.
  unfold commit_size.
  pose proof (field_size_bounds (commitId c)). pose proof (field_size_bounds (leftParent c)).
  pose proof (field_size_bounds (rightParent c)). pose proof (field_size_bounds (deviceInfo c)).
  pose proof (zlen_nonneg (commitId c)). pose proof (zlen_nonneg (leftParent c)).
  pose proof (zlen_nonneg (rightParent c)). pose proof (zlen_nonneg (deviceInfo c)). lia.
Qed.

Lemma commits_size_bounds cs : 0 <= commits_size cs /\ commits_size cs mod 8 = 0.
Proof.
  induction cs as [|c cs IH]; cbn [commits_size]; [lia |].
  pose proof (commit_size_bounds c). lia.
Qed.

Lemma field_len_eq bs : zlen bs <= INT32_MAX - 11 ->
  GetVectorCharLen bs = field_size bs /\ GetStringLen bs = field_size bs.
Proof.
  intros Hb. pose proof (zlen_nonneg bs). pose proof (field_size_bounds bs) as Hf.
  unfold GetVectorCharLen, GetVectorLen, GetStringLen, INT32_MAX in *.
  rewrite Z.mul_1_r, (proj2 (Z.ltb_ge _ (zlen bs))) by lia. cbn [orb Z.of_nat].
  rewrite (proj2 (Z.ltb_ge _ (Z.of_nat 1))) by lia.
  rewrite (wrap_small 64) by lia. rewrite byte8_align_align8 by lia.
  change (align8 (4 + zlen bs)) with (field_size bs).
  rewrite (proj2 (Z.ltb_ge _ (field_size bs))) by lia. done.
Qed.

Lemma fields_len_eq len c : commit_ok c -> 0 <= len <= INT32_MAX ->
  fields_len len c = len + commit_size c.
Proof.
  intros [Hf _] Hlen. rewrite !Forall_cons in Hf. destruct Hf as (H1 & H2 & H3 & H4 & _).
  unfold fields_len.
  rewrite (proj1 (field_len_eq _ H1)), (proj1 (field_len_eq _ H2)), (proj1 (field_len_eq _ H3)),
    (proj2 (field_len_eq _ H4)).
  pose proof (field_size_bounds (commitId c)). pose proof (field_size_bounds (leftParent c)).
  pose proof (field_size_bounds (rightParent c)). pose proof (field_size_bounds (deviceInfo c)).
  unfold INT32_MAX, commit_size, GetUInt64Len in *.
  pose proof (commit_size_bounds c) as Hs. unfold commit_size in Hs.
  pose proof (zlen_nonneg (commitId c)). pose proof (zlen_nonneg (leftParent c)).
  pose proof (zlen_nonneg (rightParent c)). pose proof (zlen_nonneg (deviceInfo c)).
  rewrite (wrap_small 64); lia.
Qed.

Lemma align8_id x : x mod 8 = 0 -> align8 x = x.
Proof. unfold align8. lia. Qed.

Lemma commits_len_eq cs : Forall commit_ok cs -> forall len total,
  0 <= len <= INT32_MAX -> len mod 8 = 0 ->
  commits_len len cs = Some total -> total = len + commits_size cs /\ total <= INT32_MAX.
Proof.
  induction 1 as [|c cs Hc Hcs IH]; intros len total Hlen H8 E; cbn [commits_len commits_size] in *.
  { injection E as <-. lia. }
  pose proof (commit_size_bounds c) as [Hs Hs8]. rewrite fields_len_eq in E by done.
  assert (Hsmall : commit_size c < 2 ^ 62).
  { destruct Hc as [Hf _]. rewrite !Forall_cons in Hf. unfold INT32_MAX, commit_size in *.
    pose proof (field_size_bounds (commitId c)). pose proof (field_size_bounds (leftParent c)).
    pose proof (field_size_bounds (rightParent c)). pose proof (field_size_bounds (deviceInfo c)).
    lia. }
  rewrite byte8_align_align8, align8_id in E by (unfold INT32_MAX in *; lia).
  destruct (Z.ltb_spec INT32_MAX (len + commit_size c)); [done |].
  apply IH in E; lia.
Qed.

Lemma zlen_enc_counted n bs : zlen (enc_counted n bs) = 4 + zlen bs.
Proof. unfold enc_counted. rewrite zlen_app, zlen_be_bytes. lia. Qed.

Lemma commit_fits total off c rest :
  off mod 8 = 0 -> off + commit_size c <= total ->
  all_fit total (off + commit_size c) rest ->
  all_fit total off (commit_items c ++ IAlign :: rest)
  /\ end_of total off (commit_items c ++ IAlign :: rest) = end_of total (off + commit_size c) rest.
Proof.
  intros H8 Hf Hrest. pose proof (commit_size_bounds c) as [Hs Hs8].
  cbn [commit_items app all_fit end_of fits adv enc].
  rewrite !zlen_enc_counted, !zlen_be_bytes. fold (field_size (commitId c))
    (field_size (leftParent c)) (field_size (rightParent c)) (field_size (deviceInfo c)).
  pose proof (field_size_bounds (commitId c)). pose proof (field_size_bounds (leftParent c)).
  pose proof (field_size_bounds (rightParent c)). pose proof (field_size_bounds (deviceInfo c)).
  pose proof (zlen_nonneg (commitId c)). pose proof (zlen_nonneg (leftParent c)).
  pose proof (zlen_nonneg (rightParent c)). pose proof (zlen_nonneg (deviceInfo c)).
  match goal with |- context [align8 (?o)] =>
    assert (Eo : o = off + commit_size c) by (unfold commit_size; lia); rewrite !Eo end.
  rewrite align8_id, Z.sub_diag, Z.add_0_r by lia.
  change (Z.of_nat 8) with 8. unfold commit_size in *. split_and!; try done; lia.
Qed.

Lemma loop_fits total cs : forall off,
  off mod 8 = 0 -> off + commits_size cs <= total ->
  all_fit total off (loop_items cs) /\ end_of total off (loop_items cs) = off + commits_size cs.
Proof.
  induction cs as [|c cs IH]; intros off H8 Hf; cbn [commits_size loop_items] in *.
  { split; [done |]. cbn. lia. }
  pose proof (commit_size_bounds c). pose proof (commits_size_bounds cs).
  destruct (IH (off + commit_size c)) as [Hall Hend]; [lia.. |].
  destruct (commit_fits total off c (loop_items cs)) as [Hall' ->]; [lia | lia | done |].
  split; [done | lia].
Qed.

Lemma ReadUInt64_ok m off x v :
  zlen m <= INT32_MAX -> 0 <= off <= 2 ^ 32 -> 0 <= v < 2 ^ 64 ->
  off + 8 <= zlen m -> slice off 8 m = be_bytes 8 v ->
  ReadUInt64 x (cursor m off) = Some ((8, v), cursor m (off + 8)).
Proof.
  intros Hm Ho Hv Hf Hs. unfold ReadUInt64.
  rewrite (ReadInteger_ok m off Hm Ho 8 x (be_bytes 8 v)) by (done || lia).
  rewrite be_val_be_bytes, Z.mod_small by (change (256 ^ Z.of_nat 8) with (2 ^ 64); lia). done.
Qed.

Lemma read_field m off x data :
  zlen m <= INT32_MAX -> 0 <= off <= 2 ^ 32 -> off + field_size data <= zlen m ->
  slice off (4 + zlen data) m = enc_counted (zlen data) data ->
  ReadVectorChar x (cursor m off) = Some ((field_size data, data), cursor m (off + field_size data))
  /\ ReadString x (cursor m off) = Some ((field_size data, data), cursor m (off + field_size data)).
Proof.
  intros Hm Ho Hf Hs. pose proof (ReadVectorChar_ok m off Hm Ho x data) as R.
  pose proof (ReadString_ok m off Hm Ho x data) as R'. cbv zeta in R, R'.
  rewrite zlen_enc_counted in R, R'. auto.
Qed.

Lemma read_fields_ok m off len c x rest :
  zlen m <= INT32_MAX -> 0 <= off -> 0 <= len <= INT32_MAX -> commit_ok c ->
  off mod 8 = 0 -> off + commit_size c <= zlen m ->
  laid_out (zlen m) off (commit_items c ++ IAlign :: rest) m ->
  read_fields len x (cursor m off) =
    Some ((len + commit_size c, c), cursor m (off + commit_size c))
  /\ laid_out (zlen m) (off + commit_size c) rest m.
Proof.
  intros Hm Ho Hlen [Hfld Hnum] H8 Hf Hlay. rewrite !Forall_cons in Hfld. rewrite !Forall_cons in Hnum.
  pose proof (commit_size_bounds c) as [_ Hs8].
  cbn [commit_items app laid_out fits adv enc] in Hlay.
  rewrite !zlen_enc_counted, !zlen_be_bytes in Hlay. change (Z.of_nat 8) with 8 in Hlay.
  fold (field_size (commitId c)) (field_size (leftParent c)) (field_size (rightParent c))
    (field_size (deviceInfo c)) in Hlay.
  pose proof (field_size_bounds (commitId c)). pose proof (field_size_bounds (leftParent c)).
  pose proof (field_size_bounds (rightParent c)). pose proof (field_size_bounds (deviceInfo c)).
  pose proof (zlen_nonneg (commitId c)). pose proof (zlen_nonneg (leftParent c)).
  pose proof (zlen_nonneg (rightParent c)). pose proof (zlen_nonneg (deviceInfo c)).
  destruct Hlay as (F1 & S1 & F2 & S2 & F3 & S3 & F4 & S4 & F5 & S5 & F6 & S6 & F7 & S7 & _ & _ & Hrest).
  unfold INT32_MAX, commit_size in *. split.
  - unfold read_fields.
    eapply run_bind_then; [apply (read_field m off _ (commitId c)); (assumption || (unfold INT32_MAX; lia)) |]. cbv beta iota.
    eapply run_bind_then; [apply (read_field m _ _ (leftParent c)); (assumption || (unfold INT32_MAX; lia)) |]. cbv beta iota.
    eapply run_bind_then; [apply (read_field m _ _ (rightParent c)); (assumption || (unfold INT32_MAX; lia)) |]. cbv beta iota.
    eapply run_bind_then; [apply (ReadUInt64_ok m _ _ (timestamp c)); (assumption || (unfold INT32_MAX; lia)) |]. cbv beta iota.
    eapply run_bind_then; [apply (ReadUInt64_ok m _ _ (version c)); (assumption || (unfold INT32_MAX; lia)) |]. cbv beta iota.
    eapply run_bind_then; [apply (ReadUInt64_ok m _ _ (isLocal c)); (assumption || (unfold INT32_MAX; lia)) |]. cbv beta iota.
    eapply run_bind_then; [apply (read_field m _ _ (deviceInfo c)); (assumption || (unfold INT32_MAX; lia)) |]. cbv beta iota.
    rewrite (wrap_small 64) by lia. unfold mret, run_ret.
    replace (mkCommit _ _ _ _ _ _ _) with c by (by destruct c).
    apply f_equal, f_equal2; [apply f_equal2; [lia | done] | f_equal; lia].
  - match type of Hrest with laid_out _ (?o + (align8 ?o - ?o)) _ _ =>
      replace (o + (align8 o - o)) with o in Hrest by (rewrite (align8_id o) by lia; lia);
      match goal with |- laid_out _ ?o' _ _ => replace o' with o by lia end end.
    exact Hrest.
Qed.

Lemma read_commits_ok m cs : Forall commit_ok cs -> zlen m <= INT32_MAX -> forall off acc rest,
  0 <= off -> off mod 8 = 0 -> off + commits_size cs <= zlen m ->
  laid_out (zlen m) off (loop_items cs ++ rest) m ->
  read_commits (length cs) off acc (cursor m off) =
    Some ((Some (off + commits_size cs), acc ++ cs), cursor m (off + commits_size cs)).
Proof.
  intros Hcs Hm. induction Hcs as [|c cs Hc Hcs IH]; intros off acc rest Ho H8 Hf Hlay;
    cbn [commits_size read_commits length] in *.
  { rewrite app_nil_r, Z.add_0_r. done. }
  pose proof (commit_size_bounds c). pose proof (commits_size_bounds cs).
  cbn [loop_items] in Hlay. rewrite <- app_assoc in Hlay. cbn [app] in Hlay. unfold INT32_MAX in *.
  destruct (read_fields_ok m off off c emptyCommit (loop_items cs ++ rest)) as [-> Hlay'];
    (done || unfold INT32_MAX; lia || idtac).
  cbn. rewrite !byte8_align_align8, !align8_id, Z.sub_diag, Z.add_0_r by lia.
  unfold INT32_MAX. rewrite (proj2 (Z.ltb_ge _ (off + commit_size c))) by lia.
  fold (cursor m (off + commit_size c)). rewrite (IH _ (acc ++ [c]) rest) by (done || lia).
  rewrite <- app_assoc. cbn [app]. by rewrite Z.add_assoc.
Qed.

Lemma commit_items_ok cs : Forall commit_ok cs -> Forall item_ok (loop_items cs).
Proof.
  induction 1 as [|c cs [Hf Hn] Hcs IH]; cbn [loop_items]; [done |].
  rewrite !Forall_cons in Hf. rewrite !Forall_cons in Hn. unfold INT32_MAX in *.
  apply Forall_app. split; [| by constructor].
  unfold commit_items. repeat constructor; cbn [item_ok]; lia.
Qed.

Lemma write_until_error_app l1 l2 p q :
  write_until_error (l1 ++ l2) p = Some (E_OK, q) ->
  exists r, write_until_error l1 p = Some (E_OK, r) /\ write_until_error l2 r = Some (E_OK, q).
Proof.
  revert p. induction l1 as [|i l1 IH]; intros p E; cbn [app write_until_error] in *.
  { exists p. done. }
  unfold then_write, mbind, run_bind in *. destruct (write_item i p) as [[s r]|]; [| done].
  cbn in *. destruct (Z.eqb_spec s E_OK); [by apply IH |]. by injection E.
Qed.

Lemma write_commits_success cs p q :
  write_until_error (IUInt64 (zlen cs) :: loop_items cs ++ [IAlign]) p = Some (E_OK, q) ->
  WriteMultiVerCommits cs p = Some (E_OK, q).
Proof.
  cbn [write_until_error write_item]. intros E. unfold WriteMultiVerCommits.
  unfold then_write at 1, mbind at 1, run_bind at 1 in E. unfold mbind at 1, run_bind at 1.
  destruct (WriteUInt64 (zlen cs) p) as [[s r]|]; [| done]. cbn in E |- *.
  destruct (Z.eqb_spec s E_OK); [| by injection E]. cbn [negb].
  apply write_until_error_app in E as (r' & E1 & E2).
  rewrite <- write_commits_eq in E1. by rewrite (then_write_ok _ _ _ _ E1).
Qed.

(** A buffer of [GetMultiVerCommitsLen] bytes holds the commits exactly:
    [WriteMultiVerCommits] succeeds and uses all of it, and [ReadMultiVerCommits] of the
    bytes returns the same commits and the same length. *)
Theorem commits_roundtrip m commits :
  Forall commit_ok commits -> zlen commits <= MAX_COMMIT_SIZE ->
  GetMultiVerCommitsLen commits <> 0 -> zlen m = GetMultiVerCommitsLen commits ->
  exists m' p,
    WriteMultiVerCommits commits (newParcel (Some m) (zlen m)) = Some (E_OK, p)
    /\ buf_ p = Some m' /\ isError_ p = false /\ parcelLen_ p = zlen m
    /\ ReadMultiVerCommits [] (newParcel (Some m') (zlen m')) = Some ((zlen m, commits), p).
Proof.
  intros Hok Hmax Hlen Hm. unfold GetMultiVerCommitsLen, GetUInt64Len in *.
  destruct (commits_len 8 commits) as [total|] eqn:El; [| done].
  pose proof (commits_size_bounds commits) as [Hs Hs8].
  apply commits_len_eq in El as [-> Ht]; [| done | unfold INT32_MAX; lia..].
  unfold INT32_MAX, MAX_COMMIT_SIZE in *.
  rewrite byte8_align_align8, align8_id in Hm by lia.
  rewrite (proj2 (Z.ltb_ge _ (8 + commits_size commits))) in Hm by lia.
  destruct (loop_fits (zlen m) commits 8) as [Hfit Hend]; [lia.. |].
  set (items := IUInt64 (zlen commits) :: loop_items commits ++ [IAlign]).
  assert (Hend' : end_of (zlen m) 0 items = zlen m /\ all_fit (zlen m) 0 items).
  { unfold items. cbn [all_fit end_of fits adv enc]. rewrite zlen_be_bytes. change (0 + Z.of_nat 8) with 8.
    rewrite all_fit_app, end_of_app, Hend. cbn [end_of all_fit fits adv]. rewrite align8_id by lia.
    split_and!; try done; lia. }
  destruct Hend' as [Hend' Hfit'].
  destruct (write_fitting items) with (m := m) (off := 0) as (m' & Ew & Hm' & Hlay & _);
    [| unfold INT32_MAX; lia | apply reach_start | done |].
  { unfold items. constructor; [cbn [item_ok]; pose proof (zlen_nonneg commits); lia |].
    apply Forall_app. split; [by apply commit_items_ok | by repeat constructor]. }
  rewrite Hend' in Ew. apply write_commits_success in Ew.
  exists m', (cursor m' (zlen m)). rewrite !new_cursor by lia. split_and!; try done.
  rewrite <- Hm' in *. clear Ew Hfit Hfit' Hend Hend'.
  unfold items in Hlay. destruct Hlay as (Hf8 & Hs0 & Hlay). cbn [adv enc] in *. rewrite zlen_be_bytes in *.
  change (0 + Z.of_nat 8) with 8 in *. pose proof (zlen_nonneg commits).
  unfold ReadMultiVerCommits.
  rewrite (ReadUInt64_ok m' 0 0 (zlen commits)) by (done || unfold INT32_MAX; lia).
  cbn [mbind option_bind isError_ cursor]. unfold MAX_COMMIT_SIZE.
  rewrite (proj2 (Z.ltb_ge _ (zlen commits))) by lia. change (0 + 8) with 8.
  unfold zlen at 1. rewrite Nat2Z.id. fold (cursor m' 8).
  rewrite (read_commits_ok m' commits Hok) with (rest := [IAlign]) by (done || unfold INT32_MAX; lia).
  cbn [mbind option_bind app]. rewrite byte8_align_align8, align8_id, (wrap_small 32) by lia.
  rewrite <- Hm. done.
Qed.

(** * Reading arbitrary bytes *)

Section Wire.
Context {m : list byte}.

Definition parcel_wf (p : Parcel) : Prop :=
  buf_ p = Some m /\ zlen m = totalLen_ p /\ totalLen_ p < 2 ^ 32
    /\ bufPtr_ p = parcelLen_ p /\ reach (totalLen_ p) (parcelLen_ p).

(** The outcome of a read of [p] that stayed inside the buffer; if no error is left behind
    there was none before and the length returned is not 0. *)
Definition safe_from {A} (p : Parcel) (outcome : option ((Z * A) * Parcel)) : Prop :=
  exists len a q, outcome = Some ((len, a), q) /\ parcel_wf q /\ 0 <= len < 2 ^ 32
    /\ (isError_ q = false -> isError_ p = false /\ 0 < len).

Definition safe_read {A} (r : Run (Z * A)) : Prop := forall p, parcel_wf p -> safe_from p (r p).

Lemma wf_no_buffer p : parcel_wf p -> no_buffer p = false.
Proof. intros (Hb & _). unfold no_buffer. by rewrite Hb. Qed.

Lemma safe_fail {A} (a : A) p : parcel_wf p -> safe_from p (fail_with (0, a) p).
Proof.
  intros (Hb & Hrest). exists 0, a. eexists. rewrite fail_with_eq. split; [done |].
  split; [done |]. split; [lia | done].
Qed.

Lemma safe_skip {A} (a : A) p : isError_ p = true -> parcel_wf p -> safe_from p (Some ((0, a), p)).
Proof. intros He Hwf. exists 0, a, p. split_and!; try done; congruence. Qed.

Lemma beyond_wf p n : parcel_wf p -> 0 <= n < 2 ^ 63 ->
  beyond n p = (totalLen_ p <? parcelLen_ p + n).
Proof.
  intros (_ & Hz & Ht & _ & Hr) Hn. unfold beyond, reach in *.
  pose proof (align8_bounds (totalLen_ p)). by rewrite (wrap_small 64) by lia.
Qed.

(** A read that has its bytes moves on by [step]. *)
Lemma safe_step {A} (a : A) p p0 len k step : parcel_wf p0 -> isError_ p0 = false ->
  isError_ p = isError_ p0 -> buf_ p = buf_ p0 -> parcelLen_ p = parcelLen_ p0 ->
  totalLen_ p = totalLen_ p0 ->
  0 < len < 2 ^ 32 -> bufPtr_ p + k = parcelLen_ p + step ->
  0 <= step -> parcelLen_ p + step <= totalLen_ p ->
  safe_from p0 ((_ ← move_ptr k; _ ← add_len step; mret (len, a)) p).
Proof.
  intros (Hb & Hz & Ht & Hp & Hr) He He' Hb' Hl' Ht' Hlen Hk Hs Hf. unfold reach in *.
  pose proof (align8_bounds (totalLen_ p)).
  exists len, a. eexists. rewrite advance_eq by lia. split; [done |].
  split; [| split; [lia | intros; split; [done | lia]]].
  unfold parcel_wf. cbn [buf_ totalLen_ bufPtr_ parcelLen_]. unfold reach. split_and!; (congruence || lia).
Qed.

Lemma safe_ReadInteger n x : (0 < n <= 8)%nat -> safe_read (ReadInteger n x).
Proof.
  intros Hn p Hwf. unfold ReadInteger. destruct (isError_ p) eqn:He; [by apply safe_skip |].
  rewrite wf_no_buffer, beyond_wf by (done || lia). cbn [orb].
  destruct (Z.ltb_spec (totalLen_ p) (parcelLen_ p + Z.of_nat n)); [by apply safe_fail |].
  pose proof Hwf as (Hb & Hz & Ht & Hp & Hr). unfold reach in Hr.
  erewrite run_bind_eq by (apply load_cursor; (done || lia)). apply safe_step; (done || lia).
Qed.

Lemma safe_ReadDouble x : safe_read (ReadDouble x).
Proof.
  intros p Hwf. unfold ReadDouble. destruct (isError_ p) eqn:He; cbn [orb]; [by apply safe_fail |].
  rewrite wf_no_buffer, beyond_wf by (done || lia). cbn [orb].
  destruct (Z.ltb_spec (totalLen_ p) (parcelLen_ p + 8)); [by apply safe_fail |].
  pose proof Hwf as (Hb & Hz & Ht & Hp & Hr). unfold reach in Hr.
  erewrite run_bind_eq by (apply load_cursor; (done || lia)). apply safe_step; (done || lia).
Qed.

Lemma load_items_total n k : forall p,
  buf_ p = Some m -> 0 <= bufPtr_ p -> bufPtr_ p + Z.of_nat k * Z.of_nat n <= zlen m ->
  exists vs, load_items n k p = Some (vs,
    mkParcel (isError_ p) (buf_ p) (bufPtr_ p + Z.of_nat k * Z.of_nat n) (parcelLen_ p) (totalLen_ p)).
Proof.
  induction k as [|k IH]; intros p Hb Hp Hl; cbn [load_items].
  { exists []. destruct p. cbn. by rewrite Z.add_0_r. }
  erewrite run_bind_eq by (apply load_cursor; (done || nia)). cbv beta.
  erewrite run_bind_eq by done.
  destruct (IH (mkParcel (isError_ p) (buf_ p) (bufPtr_ p + Z.of_nat n) (parcelLen_ p) (totalLen_ p)))
    as (vs & E); [done | cbn [bufPtr_]; lia | cbn [bufPtr_]; nia |].
  eexists. eapply run_bind_then; [exact E |].
  cbn [isError_ buf_ bufPtr_ parcelLen_ totalLen_]. unfold mret, run_ret. do 3 f_equal. lia.
Qed.

(** The length field of a vector or string, as it comes from the wire. *)
Lemma wire_length_range bs : length bs = 4%nat -> 0 <= NetToHost 4 (load_int bs) < 2 ^ 32.
Proof. intros Hb. rewrite NetToHost_load by done. pose proof (be_val_range bs). rewrite Hb in *. done. Qed.

Lemma safe_ReadVector n x : (0 < n <= 8)%nat -> safe_read (ReadVector n x).
Proof.
  intros Hn p Hwf. unfold ReadVector. destruct (isError_ p) eqn:He; [by apply safe_skip |].
  rewrite wf_no_buffer, beyond_wf by (done || lia). cbn [orb].
  destruct (Z.ltb_spec (totalLen_ p) (parcelLen_ p + 4)); [by apply safe_fail |].
  rewrite (proj2 (Z.ltb_ge _ (Z.of_nat n))) by (unfold INT32_MAX; lia). cbn [orb].
  pose proof Hwf as (Hb & Hz & Ht & Hp & Hr). unfold reach in Hr.
  erewrite run_bind_eq by (apply load_cursor; (done || lia)). cbv beta zeta.
  pose proof (wire_length_range (slice (bufPtr_ p) 4 m)) as Hw.
  rewrite length_slice in Hw by lia. specialize (Hw eq_refl).
  set (len := NetToHost 4 (load_int (slice (bufPtr_ p) 4 m))) in *. clearbody len.
  destruct (Z.ltb_spec INT32_MAX len) as [| Hlen]; [by apply safe_fail |].
  assert (Hmul : 0 <= len * Z.of_nat n < 2 ^ 40) by nia.
  rewrite (wrap_small 64) by lia.
  destruct (Z.ltb_spec INT32_MAX (len * Z.of_nat n + 4)) as [| Hstep]; [by apply safe_fail |].
  pose proof (align8_bounds (len * Z.of_nat n + 4)).
  rewrite byte8_align_align8, beyond_wf by (done || lia). cbn [orb].
  destruct (Z.ltb_spec (totalLen_ p) (parcelLen_ p + align8 (len * Z.of_nat n + 4)));
    [by apply safe_fail |].
  unfold INT32_MAX in *. erewrite run_bind_eq by done.
  set (p1 := mkParcel (isError_ p) (buf_ p) (bufPtr_ p + 4) (parcelLen_ p) (totalLen_ p)).
  destruct (load_items_total n (Z.to_nat len) p1) as (vs & E); [done | cbn; lia | |].
  { unfold p1. cbn [bufPtr_]. rewrite Z2Nat.id by lia. lia. }
  erewrite run_bind_eq by exact E. rewrite (wrap_small 32) by lia.
  apply safe_step; try (done || lia).
  unfold p1. cbn [bufPtr_ parcelLen_]. rewrite Z2Nat.id by lia. lia.
Qed.

Lemma safe_ReadString x : safe_read (ReadString x).
Proof.
  intros p Hwf. unfold ReadString. destruct (isError_ p) eqn:He; [by apply safe_skip |].
  rewrite wf_no_buffer, beyond_wf by (done || lia). cbn [orb].
  destruct (Z.ltb_spec (totalLen_ p) (parcelLen_ p + 4)); [by apply safe_fail |].
  pose proof Hwf as (Hb & Hz & Ht & Hp & Hr). unfold reach in Hr.
  erewrite run_bind_eq by (apply load_cursor; (done || lia)). cbv beta zeta.
  pose proof (wire_length_range (slice (bufPtr_ p) 4 m)) as Hw.
  rewrite length_slice in Hw by lia. specialize (Hw eq_refl).
  set (len := NetToHost 4 (load_int (slice (bufPtr_ p) 4 m))) in *. clearbody len.
  rewrite (wrap_small 64) by lia.
  destruct (Z.ltb_spec INT32_MAX (len + 4)) as [| Hstep]; [by apply safe_fail |].
  pose proof (align8_bounds (len + 4)).
  rewrite byte8_align_align8, beyond_wf by (done || lia). cbn [orb].
  destruct (Z.ltb_spec (totalLen_ p) (parcelLen_ p + align8 (len + 4))); [by apply safe_fail |].
  unfold INT32_MAX in *. erewrite run_bind_eq by (apply load_cursor; (done || lia)).
  rewrite (wrap_small 32) by lia. apply safe_step; (done || lia).
Qed.

Lemma safe_ReadBlob dst n : 0 <= n < 2 ^ 32 -> n <= zlen dst -> safe_read (ReadBlob (Some dst) n).
Proof.
  intros Hn Hd p Hwf. unfold ReadBlob. destruct (isError_ p) eqn:He; [by apply safe_skip |].
  rewrite beyond_wf by (done || lia).
  destruct (Z.ltb_spec (totalLen_ p) (parcelLen_ p + n)); [by apply safe_fail |].
  destruct (Z.eqb_spec n 0); [by apply safe_fail |].
  destruct (Z.ltb_spec SECUREC_MEM_MAX_LEN n); [by apply safe_fail |]. cbn [orb].
  rewrite (proj2 (Z.ltb_ge (zlen dst) n)) by lia.
  pose proof Hwf as (Hb & Hz & Ht & Hp & Hr). unfold reach, SECUREC_MEM_MAX_LEN in *.
  erewrite run_bind_eq by (apply load_cursor; (done || lia)). cbv beta zeta.
  rewrite byte8_align_align8, (wrap_small 32) by lia. pose proof (align8_bounds n).
  destruct (Z.ltb_spec (align8 n) (totalLen_ p - parcelLen_ p)); apply safe_step; (done || lia).
Qed.

Lemma safe_map {A B} (r : Run (Z * A)) (g : A -> B) :
  safe_read r -> safe_read ('(len, v) ← r; mret (len, g v)).
Proof.
  intros Hr p Hwf. destruct (Hr p Hwf) as (len & a & q & E & Hq).
  exists len, (g a), q. split; [| done]. by eapply run_bind_then.
Qed.

Lemma safe_ReadVectorChar x : safe_read (ReadVectorChar x).
Proof. apply (safe_map _ (fmap z2b)), safe_ReadVector. lia. Qed.

(** One field of a commit is read and its length added. *)
Lemma safe_next {A B} (r : Run (Z * A)) (f : Z -> A -> Run B) p (P : B -> Parcel -> Prop) :
  safe_read r -> parcel_wf p ->
  (forall len a q, parcel_wf q -> 0 <= len < 2 ^ 32 ->
     (isError_ q = false -> isError_ p = false /\ 0 < len) ->
     exists b q', f len a q = Some (b, q') /\ P b q') ->
  exists b q', ('(len, a) ← r; f len a) p = Some (b, q') /\ P b q'.
Proof.
  intros Hr Hwf Hf. destruct (Hr p Hwf) as (len & a & q & E & Hq & Hlen & He).
  destruct (Hf len a q Hq Hlen He) as (b & q' & E' & HP).
  exists b, q'. split; [| done]. by eapply run_bind_then.
Qed.

Lemma safe_fields len0 x p : parcel_wf p -> 0 <= len0 <= INT32_MAX ->
  exists r q, read_fields len0 x p = Some (r, q) /\ (parcel_wf q /\ 0 <= fst r < 2 ^ 40
    /\ (isError_ q = false -> isError_ p = false /\ len0 < fst r)).
Proof.
  intros Hwf Hlen. unfold read_fields, INT32_MAX in *.
  do 3 (eapply safe_next; [apply safe_ReadVectorChar | done |]; intros).
  do 3 (eapply safe_next; [apply safe_ReadInteger; lia | done |]; intros).
  eapply safe_next; [apply safe_ReadString | done |]; intros.
  do 2 eexists. split; [reflexivity |]. cbn [fst]. rewrite (wrap_small 64) by lia.
  split; [done |]. split; [lia |]. intros He.
  repeat match goal with Hx : isError_ _ = false -> _ , He : isError_ _ = false |- _ =>
    specialize (Hx He); let E := fresh in destruct Hx as [E ?]; clear He; rename E into He end.
  split; [done | lia].
Qed.

(** The end of a read that may still fail. *)
Lemma safe_end {A} (a : A) p q len :
  parcel_wf q -> 0 <= len < 2 ^ 40 -> (isError_ q = false -> isError_ p = false /\ 0 < len) ->
  safe_from p (if isError_ q || (INT32_MAX <? len) then fail_with (0, a) q
               else Some ((u32 len, a), q)).
Proof.
  intros Hq Hl Hpos. destruct (isError_ q || (INT32_MAX <? len)) eqn:Eq.
  { exists 0, a. eexists. rewrite fail_with_eq. split; [done |].
    split; [by destruct Hq |]. split; [lia | done]. }
  apply orb_false_iff in Eq as [Eq El]. apply Z.ltb_ge in El. unfold INT32_MAX in El.
  exists len, a, q. rewrite (wrap_small 32) by lia. split_and!; (done || lia || tauto).
Qed.

Lemma safe_ReadMultiVerCommit x : safe_read (ReadMultiVerCommit x).
Proof.
  intros p Hwf. unfold ReadMultiVerCommit. destruct (isError_ p) eqn:He; [by apply safe_skip |].
  destruct (safe_fields 0 x p) as ([len c] & q & E & Hq & Hl & Hpos); [done | unfold INT32_MAX; lia |].
  rewrite E. cbn [mbind option_bind fst] in *. by apply safe_end.
Qed.

Lemma align_wf p : parcel_wf p -> exists q, EightByteAlign p = Some ((), q) /\ parcel_wf q
  /\ isError_ q = isError_ p.
Proof.
  intros (Hb & Hz & Ht & Hp & Hr). unfold reach in Hr. pose proof (align8_bounds (totalLen_ p)).
  eexists. split; [reflexivity |]. split; [| done].
  unfold parcel_wf. cbn [buf_ totalLen_ bufPtr_ parcelLen_]. rewrite !byte8_align_align8 by lia.
  unfold reach. split_and!; try (done || lia). all: unfold align8 in *; lia.
Qed.

Lemma safe_read_commits k : forall len acc p, parcel_wf p -> 0 < len <= INT32_MAX ->
  exists r cs q, read_commits k len acc p = Some ((r, cs), q) /\ parcel_wf q
    /\ match r with
       | None => isError_ q = true
       | Some l => len <= l <= INT32_MAX /\ (isError_ q = false -> isError_ p = false)
       end.
Proof.
  induction k as [|k IH]; intros len acc p Hwf Hlen; cbn [read_commits].
  { do 3 eexists. split; [reflexivity |]. split; [done |]. split; [lia | done]. }
  destruct (safe_fields len emptyCommit p) as ([l c] & q & E & Hq & Hl & Hpos); [done | lia |].
  rewrite E. cbn [mbind option_bind fst] in *. destruct (align_wf q Hq) as (q' & -> & Hq' & Ee).
  cbn [mbind option_bind]. rewrite Ee, byte8_align_align8 by lia. pose proof (align8_bounds l).
  destruct (isError_ q) eqn:Eq; cbn [orb].
  { do 3 eexists. rewrite fail_with_eq. split; [done |].
    split; [by destruct Hq' | done]. }
  destruct (Z.ltb_spec INT32_MAX (align8 l)).
  { do 3 eexists. rewrite fail_with_eq. split; [done |].
    split; [by destruct Hq' | done]. }
  destruct (Hpos eq_refl) as [Hp Hgt].
  destruct (IH (align8 l) (acc ++ [c]) q' Hq') as (r & cs & q2 & E2 & Hq2 & Hr); [lia |].
  exists r, cs, q2. split; [done |]. split; [done |]. destruct r; [| done]. split; [lia | done].
Qed.

Lemma safe_ReadMultiVerCommits x : safe_read (ReadMultiVerCommits x).
Proof.
  intros p Hwf. unfold ReadMultiVerCommits, ReadUInt64.
  destruct (safe_ReadInteger 8 0 ltac:(lia) p Hwf) as (l & size & q & E & Hq & Hl & Hpos).
  rewrite E. cbn [mbind option_bind]. destruct (isError_ q) eqn:Eq.
  { exists 0, x, q. split; [done |]. split; [done |]. split; [lia | congruence]. }
  destruct (Hpos eq_refl) as [Hp Hl0].
  destruct (Z.ltb_spec MAX_COMMIT_SIZE size).
  { do 3 eexists. rewrite fail_with_eq. split; [done |].
    split; [by destruct Hq |]. split; [lia | done]. }
  assert (l = 8) as ->.
  { unfold ReadInteger in E. rewrite Hp in E. destruct (_ || _) in E.
    - rewrite fail_with_eq in E. injection E as <- _ _. lia.
    - unfold mbind, run_bind in E. destruct (load_bytes (Z.of_nat 8) p) as [[bs p1]|]; [| done].
      cbn in E. by injection E. }
  destruct (safe_read_commits (Z.to_nat size) 8 x q Hq) as (r & cs & q' & E' & Hq' & Hr);
    [unfold INT32_MAX; lia |]. rewrite E'. cbn [mbind option_bind]. destruct r as [l|].
  - destruct Hr as [Hr He]. unfold INT32_MAX in Hr. pose proof (align8_bounds l).
    rewrite byte8_align_align8, (wrap_small 32) by lia.
    do 3 eexists. split; [done |]. split; [done |]. split; [lia |]. split; [done | lia].
  - do 3 eexists. split; [done |]. split; [done |]. split; [lia | congruence].
Qed.

(** * Any sequence of reads *)

Inductive Request :=
  | RValue (k : Kind)
  | RCommit
  | RCommits.

(** A blob is read into a buffer of its length, a vector has elements of 1 to 8 bytes. *)
Definition request_ok (r : Request) : Prop :=
  match r with
  | RValue (KBlob n) => 0 <= n < 2 ^ 32
  | RValue (KVector n) => (0 < n <= 8)%nat
  | _ => True
  end.

(** The length the read returned. *)
Definition request (r : Request) : Run Z :=
  match r with
  | RValue KAlign => _ ← EightByteAlign; mret 8
  | RValue k => '(l, _) ← read_item 0 k; mret l
  | RCommit => '(l, _) ← ReadMultiVerCommit emptyCommit; mret l
  | RCommits => '(l, _) ← ReadMultiVerCommits []; mret l
  end.

Fixpoint requests (rs : list Request) : Run (list Z) :=
  match rs with
  | [] => mret []
  | r :: rs => l ← request r; ls ← requests rs; mret (l :: ls)
  end.

Lemma safe_length {A B} (r : Run (Z * A)) (f : Z -> A -> B) p : safe_read r -> parcel_wf p ->
  exists l q, ('(l, _) ← ('(l, v) ← r; mret (0 + l, f l v)); mret l) p = Some (l, q)
    /\ parcel_wf q /\ (isError_ q = false -> isError_ p = false /\ 0 < l).
Proof.
  intros Hr Hwf. destruct (Hr p Hwf) as (l & a & q & E & Hq & Hl & Hpos).
  exists l, q. split; [| done].
  eapply run_bind_then; [eapply run_bind_then; [exact E | reflexivity] | reflexivity].
Qed.

Lemma request_safe r p : request_ok r -> parcel_wf p ->
  exists l q, request r p = Some (l, q) /\ parcel_wf q
    /\ (isError_ q = false -> isError_ p = false /\ 0 < l).
Proof.
  intros Hok Hwf.
  assert (Hlen : forall A (f : Run (Z * A)), safe_read f ->
    exists l q, ('(l, _) ← f; mret l) p = Some (l, q) /\ parcel_wf q
      /\ (isError_ q = false -> isError_ p = false /\ 0 < l)).
  { intros A f Hf. destruct (Hf p Hwf) as (l & a & q & E & Hq & Hl & Hpos).
    exists l, q. split; [| done]. by eapply run_bind_then. }
  destruct r as [k| |]; cbn [request]; [| apply Hlen, safe_ReadMultiVerCommit
                                        | apply Hlen, safe_ReadMultiVerCommits].
  destruct k; cbn [read_item request_ok] in *;
    try (eapply safe_length; [| done]);
    try (apply safe_ReadInteger; lia); try (apply (safe_map _ _), safe_ReadInteger; lia).
  - apply safe_ReadDouble.
  - by apply safe_ReadVector.
  - apply safe_ReadVectorChar.
  - apply safe_ReadString.
  - apply safe_ReadBlob; [done |]. rewrite zlen_replicate; lia.
  - destruct (align_wf p Hwf) as (q & E & Hq & He). exists 8, q. split; [by eapply run_bind_then |].
    rewrite He. split; [done |]. split; [done | lia].
Qed.

Lemma requests_safe rs : Forall request_ok rs -> forall p, parcel_wf p ->
  exists ls q, requests rs p = Some (ls, q) /\ parcel_wf q
    /\ (isError_ q = false ->
         isError_ p = false /\ length ls = length rs /\ Forall (fun l => 0 < l) ls).
Proof.
  induction 1 as [|r rs Hr Hrs IH]; intros p Hwf; cbn [requests].
  { do 2 eexists. split; [reflexivity |]. split; [done |]. intros. split_and!; done. }
  destruct (request_safe r p Hr Hwf) as (l & q & E & Hq & Hpos).
  destruct (IH q Hq) as (ls & q' & E' & Hq' & Hall).
  exists (l :: ls), q'. split; [eapply run_bind_then; [exact E |]; by eapply run_bind_then |].
  split; [done |]. intros He. destruct (Hall He) as (He' & Hlen & Hf). destruct (Hpos He').
  split; [done |]. split; [cbn; lia | by constructor].
Qed.

End Wire.

(** C18: Whatever bytes arrive, any sequence of reads stays inside the buffer, and errors
    stick: a caller that finds no error after the last read knows that every read before
    returned a value. *)
Theorem parcel_reads_safe m rs :
  0 < zlen m < 2 ^ 32 -> Forall request_ok rs ->
  exists ls p, requests rs (newParcel (Some m) (zlen m)) = Some (ls, p)
    /\ buf_ p = Some m /\ parcelLen_ p <= align8 (zlen m)
    /\ (isError_ p = false -> length ls = length rs /\ Forall (fun l => 0 < l) ls).
Proof.
  intros Hm Hrs. rewrite new_cursor by lia.
  destruct (requests_safe (m := m) rs Hrs (cursor m 0)) as (ls & q & E & Hq & Hall).
  { split_and!; try done; [cbn; lia | apply reach_start]. }
  exists ls, q. destruct Hq as (Hb & Hz & _ & _ & Hr). rewrite Hz. unfold reach in Hr.
  split_and!; try done; try lia. tauto.
Qed.

End Calls.

(** * Samples *)

Module ParcelSample.

#[local] Existing Instance arm_host.

Definition sample_memory (n : nat) : list byte := replicate n x00.

Definition sample_items : list Item :=
  [IBool true; IUInt8 200; IAlign; IInt (-5); IUInt32 7; IInt64 (-1); IUInt64 (2 ^ 64 - 1); IDouble 0;
   IVector 8 [1; 2]; IVectorChar [x01; x02; x03]; IString [x68; x69]; IString []; IBlob [x0a; x0b; x0c]].

Lemma parcel_roundtrip_witness :
  exists p m', write_all sample_items (newParcel (Some (sample_memory 120)) 120) = Some ((), p)
    /\ buf_ p = Some m'
    /\ read_all 0 (kind_of <$> sample_items) (newParcel (Some m') (zlen m'))
       = Some ((parcelLen_ p, sample_items), p).
Proof.
  destruct (write_all sample_items (newParcel (Some (sample_memory 120)) 120)) as [[[] p]|] eqn:E;
    [| vm_compute in E; discriminate E].
  destruct (parcel_roundtrip (sample_memory 120) sample_items p) as (m' & Hb & Hz & Hr).
  - split; [reflexivity | discriminate].
  - repeat constructor; vm_compute; (lia || discriminate || reflexivity).
  - exact E.
  - vm_compute in E. injection E as <-. reflexivity.
  - exists p, m'. split; [reflexivity | split; [exact Hb | exact Hr]].
Defined.

Definition sample_commit (n : Z) : MultiVerCommitNode :=
  mkCommit [x01; x02] [] [x03] n (n + 1) 1 [x64; x65; x76].

Definition sample_commits : list MultiVerCommitNode := [sample_commit 5; sample_commit 6].

Lemma commits_roundtrip_witness :
  GetMultiVerCommitsLen sample_commits = 120 /\
  exists m' p,
    WriteMultiVerCommits sample_commits (newParcel (Some (sample_memory 120)) (zlen (sample_memory 120)))
      = Some (E_OK, p)
    /\ buf_ p = Some m' /\ isError_ p = false /\ parcelLen_ p = zlen (sample_memory 120)
    /\ ReadMultiVerCommits [] (newParcel (Some m') (zlen m'))
       = Some ((zlen (sample_memory 120), sample_commits), p).
Proof.
  split; [reflexivity |]. apply commits_roundtrip.
  - repeat constructor; vm_compute; (lia || discriminate || reflexivity).
  - vm_compute. discriminate.
  - vm_compute. discriminate.
  - reflexivity.
Defined.

Lemma parcel_reads_safe_witness :
  exists ls p, requests [RValue KString; RCommits; RValue (KBlob 3)]
      (newParcel (Some (sample_memory 20)) (zlen (sample_memory 20))) = Some (ls, p)
    /\ buf_ p = Some (sample_memory 20) /\ parcelLen_ p <= align8 (zlen (sample_memory 20))
    /\ (isError_ p = false -> length ls = 3%nat /\ Forall (fun l => 0 < l) ls).
Proof.
  apply parcel_reads_safe.
  - split; reflexivity.
  - repeat constructor; vm_compute; (lia || discriminate || reflexivity).
Defined.

(** An empty blob can be written, but reading it is an error. *)
Lemma empty_blob_not_read :
  (exists p, WriteBlob (Some []) 0 (newParcel (Some (sample_memory 8)) 8) = Some (E_OK, p)
     /\ isError_ p = false)
  /\ (exists r p, ReadBlob (Some []) 0 (newParcel (Some (sample_memory 8)) 8) = Some (r, p)
     /\ isError_ p = true).
Proof. split; vm_compute; eauto. Qed.

End ParcelSample.
