(* ===== verification/FrameHeader.v ===== *)
(** The wire headers (communicator/src/frame_header.h), their object
    representation and the byte-order conversion of header_converter.cpp. *)

From S2P Require Import Prelude Memory.
From Stdlib Require Import ZArith Lia.
From Stdlib Require Import Strings.Byte.
From stdpp Require Import base numbers list.

Open Scope Z_scope.

(** * Structs as sequences of fixed-width fields *)

Section Fields.
Context `{Host}.

(** None of the wire structs has padding between its members, so the object
    representation is the concatenation of the members'. *)
Fixpoint store_fields (fs : list (nat * Z)) : list byte :=
  match fs with
  | [] => []
  | (n, v) :: fs => store_int n v ++ store_fields fs
  end.

Fixpoint load_fields (ns : list nat) (bs : list byte) : list Z :=
  match ns with
  | [] => []
  | n :: ns => load_int (take n bs) :: load_fields ns (drop n bs)
  end.

Definition field_ok (f : nat * Z) : Prop := 0 <= snd f < 256 ^ Z.of_nat (fst f).

Lemma length_store_fields fs : length (store_fields fs) = sum_list (map fst fs).
Proof.
  induction fs as [|[n v] fs IH]; simpl; [reflexivity|].
  rewrite length_app, length_store_int, IH. reflexivity.
Qed.

Lemma load_store_fields fs rest :
  Forall field_ok fs ->
  load_fields (map fst fs) (store_fields fs ++ rest) = map snd fs.
Proof.
  induction 1 as [|[n v] fs Hv Hfs IH]; simpl; [reflexivity|].
  rewrite <- app_assoc. rewrite take_app_length' by (symmetry; apply length_store_int).
  rewrite drop_app_length' by (symmetry; apply length_store_int).
  rewrite load_store, Z.mod_small, IH by exact Hv. reflexivity.
Qed.

End Fields.

(** * The headers *)

Record CommPhyHeader := mkCommPhyHeader {
  phy_magic : Z;        (* uint16_t *)
  phy_version : Z;      (* uint16_t *)
  phy_packetLen : Z;    (* uint32_t *)
  phy_checkSum : Z;     (* uint64_t *)
  phy_sourceId : Z;     (* uint64_t *)
  phy_frameId : Z;      (* uint32_t *)
  phy_packetType : Z;   (* uint8_t  *)
  phy_paddingLen : Z;   (* uint8_t  *)
  phy_dbIntVer : Z      (* uint16_t *)
}.

Record CommPhyOptHeader := mkCommPhyOptHeader {
  opt_frameLen : Z;     (* uint32_t *)
  opt_fragCount : Z;    (* uint16_t *)
  opt_fragNo : Z        (* uint16_t *)
}.

Definition COMM_LABEL_LENGTH : Z := 32.

Record CommDivergeHeader := mkCommDivergeHeader {
  div_version : Z;      (* uint16_t *)
  div_reserved : Z;     (* uint16_t *)
  div_payLoadLen : Z;   (* uint32_t *)
  div_commLabel : list byte (* uint8_t[COMM_LABEL_LENGTH] *)
}.

Record MessageHeader := mkMessageHeader {
  mh_version : Z;       (* uint16_t *)
  mh_messageType : Z;   (* uint16_t *)
  mh_messageId : Z;     (* uint32_t *)
  mh_sessionId : Z;     (* uint32_t *)
  mh_sequenceId : Z;    (* uint32_t *)
  mh_errorNo : Z;       (* uint32_t *)
  mh_dataLen : Z        (* uint32_t *)
}.

Definition sizeof_CommPhyHeader : Z := 32.
Definition sizeof_CommPhyOptHeader : Z := 8.
Definition sizeof_CommDivergeHeader : Z := 40.
Definition sizeof_MessageHeader : Z := 24.

Definition phy_fields (h : CommPhyHeader) : list (nat * Z) :=
  [(2%nat, phy_magic h); (2%nat, phy_version h); (4%nat, phy_packetLen h);
   (8%nat, phy_checkSum h); (8%nat, phy_sourceId h); (4%nat, phy_frameId h);
   (1%nat, phy_packetType h); (1%nat, phy_paddingLen h); (2%nat, phy_dbIntVer h)].

Definition opt_fields (h : CommPhyOptHeader) : list (nat * Z) :=
  [(4%nat, opt_frameLen h); (2%nat, opt_fragCount h); (2%nat, opt_fragNo h)].

Definition div_fields (h : CommDivergeHeader) : list (nat * Z) :=
  [(2%nat, div_version h); (2%nat, div_reserved h); (4%nat, div_payLoadLen h)].

Definition mh_fields (h : MessageHeader) : list (nat * Z) :=
  [(2%nat, mh_version h); (2%nat, mh_messageType h); (4%nat, mh_messageId h);
   (4%nat, mh_sessionId h); (4%nat, mh_sequenceId h); (4%nat, mh_errorNo h);
   (4%nat, mh_dataLen h)].

Definition phy_ok (h : CommPhyHeader) : Prop := Forall field_ok (phy_fields h).
Definition opt_ok (h : CommPhyOptHeader) : Prop := Forall field_ok (opt_fields h).
Definition div_ok (h : CommDivergeHeader) : Prop :=
  Forall field_ok (div_fields h) /\ zlen (div_commLabel h) = COMM_LABEL_LENGTH.
Definition mh_ok (h : MessageHeader) : Prop := Forall field_ok (mh_fields h).

Section Headers.
Context `{Host}.

Definition store_phy (h : CommPhyHeader) : list byte := store_fields (phy_fields h).
Definition store_opt (h : CommPhyOptHeader) : list byte := store_fields (opt_fields h).
Definition store_div (h : CommDivergeHeader) : list byte :=
  store_fields (div_fields h) ++ div_commLabel h.
Definition store_mh (h : MessageHeader) : list byte := store_fields (mh_fields h).

(** [reinterpret_cast<const Header *>(bytes)]. *)
Definition load_phy (bs : list byte) : CommPhyHeader :=
  match load_fields [2; 2; 4; 8; 8; 4; 1; 1; 2]%nat bs with
  | [a; b; c; d; e; f; g; h; i] => mkCommPhyHeader a b c d e f g h i
  | _ => mkCommPhyHeader 0 0 0 0 0 0 0 0 0
  end.

Definition load_opt (bs : list byte) : CommPhyOptHeader :=
  match load_fields [4; 2; 2]%nat bs with
  | [a; b; c] => mkCommPhyOptHeader a b c
  | _ => mkCommPhyOptHeader 0 0 0
  end.

Definition load_div (bs : list byte) : CommDivergeHeader :=
  match load_fields [2; 2; 4]%nat bs with
  | [a; b; c] => mkCommDivergeHeader a b c (slice 8 COMM_LABEL_LENGTH bs)
  | _ => mkCommDivergeHeader 0 0 0 []
  end.

Definition load_mh (bs : list byte) : MessageHeader :=
  match load_fields [2; 2; 4; 4; 4; 4; 4]%nat bs with
  | [a; b; c; d; e; f; g] => mkMessageHeader a b c d e f g
  | _ => mkMessageHeader 0 0 0 0 0 0 0
  end.

(** * HeaderConverter *)

Definition phy_ConvertHostToNet (h : CommPhyHeader) : CommPhyHeader :=
  mkCommPhyHeader
    (HostToNet 2 (phy_magic h)) (HostToNet 2 (phy_version h)) (HostToNet 4 (phy_packetLen h))
    (HostToNet 8 (phy_checkSum h)) (HostToNet 8 (phy_sourceId h)) (HostToNet 4 (phy_frameId h))
    (HostToNet 1 (phy_packetType h)) (HostToNet 1 (phy_paddingLen h))
    (HostToNet 2 (phy_dbIntVer h)).

Definition opt_ConvertHostToNet (h : CommPhyOptHeader) : CommPhyOptHeader :=
  mkCommPhyOptHeader (HostToNet 4 (opt_frameLen h)) (HostToNet 2 (opt_fragCount h))
    (HostToNet 2 (opt_fragNo h)).

Definition div_ConvertNetToHost (h : CommDivergeHeader) : CommDivergeHeader :=
  mkCommDivergeHeader (NetToHost 2 (div_version h)) (NetToHost 2 (div_reserved h))
    (NetToHost 4 (div_payLoadLen h)) (div_commLabel h).

Definition mh_ConvertNetToHost (h : MessageHeader) : MessageHeader :=
  mkMessageHeader (NetToHost 2 (mh_version h)) (NetToHost 2 (mh_messageType h))
    (NetToHost 4 (mh_messageId h)) (NetToHost 4 (mh_sessionId h))
    (NetToHost 4 (mh_sequenceId h)) (NetToHost 4 (mh_errorNo h)) (NetToHost 4 (mh_dataLen h)).

Definition phy_ConvertNetToHost (h : CommPhyHeader) : CommPhyHeader := phy_ConvertHostToNet h.
Definition opt_ConvertNetToHost (h : CommPhyOptHeader) : CommPhyOptHeader :=
  opt_ConvertHostToNet h.
Definition div_ConvertHostToNet (h : CommDivergeHeader) : CommDivergeHeader :=
  div_ConvertNetToHost h.
Definition mh_ConvertHostToNet (h : MessageHeader) : MessageHeader := mh_ConvertNetToHost h.

(** * Lemmas *)

Lemma HostToNet_ok n v : 0 <= v < 256 ^ Z.of_nat n -> 0 <= HostToNet n v < 256 ^ Z.of_nat n.
Proof.
  intros Hv. unfold HostToNet. destruct IsBigEndian; [exact Hv|].
  pose proof (le_val_range (rev (le_bytes n v))) as Hr.
  rewrite length_rev, length_le_bytes in Hr. exact Hr.
Qed.

Ltac fields_ok :=
  repeat match goal with
  | |- Forall field_ok [] => constructor
  | |- Forall field_ok (_ :: _) => constructor
  | Hf : Forall field_ok (_ :: _) |- _ => apply Forall_cons in Hf as [? Hf]
  | Hf : field_ok (_, _) |- _ => unfold field_ok in Hf; cbn [fst snd] in Hf
  | |- field_ok _ => unfold field_ok; cbn [fst snd]
  end.

Lemma zlen_store_phy h : zlen (store_phy h) = 32.
Proof. unfold zlen, store_phy. rewrite length_store_fields. reflexivity. Qed.
Lemma zlen_store_opt h : zlen (store_opt h) = 8.
Proof. unfold zlen, store_opt. rewrite length_store_fields. reflexivity. Qed.
Lemma zlen_store_mh h : zlen (store_mh h) = 24.
Proof. unfold zlen, store_mh. rewrite length_store_fields. reflexivity. Qed.
Lemma zlen_store_div h : zlen (div_commLabel h) = COMM_LABEL_LENGTH -> zlen (store_div h) = 40.
Proof.
  unfold store_div. intros Hl. rewrite zlen_app, Hl. unfold zlen.
  rewrite length_store_fields. reflexivity.
Qed.

Lemma load_store_phy h rest : phy_ok h -> load_phy (store_phy h ++ rest) = h.
Proof.
  intros Hok. unfold load_phy, store_phy.
  change [2; 2; 4; 8; 8; 4; 1; 1; 2]%nat with (map fst (phy_fields h)).
  rewrite load_store_fields by exact Hok. destruct h; reflexivity.
Qed.

Lemma load_store_opt h rest : opt_ok h -> load_opt (store_opt h ++ rest) = h.
Proof.
  intros Hok. unfold load_opt, store_opt.
  change [4; 2; 2]%nat with (map fst (opt_fields h)).
  rewrite load_store_fields by exact Hok. destruct h; reflexivity.
Qed.

Lemma load_store_mh h rest : mh_ok h -> load_mh (store_mh h ++ rest) = h.
Proof.
  intros Hok. unfold load_mh, store_mh.
  change [2; 2; 4; 4; 4; 4; 4]%nat with (map fst (mh_fields h)).
  rewrite load_store_fields by exact Hok. destruct h; reflexivity.
Qed.

Lemma load_store_div h rest : div_ok h -> load_div (store_div h ++ rest) = h.
Proof.
  intros [Hok Hl]. unfold load_div, store_div. rewrite <- app_assoc.
  change [2; 2; 4]%nat with (map fst (div_fields h)).
  rewrite load_store_fields by exact Hok.
  assert (Hz : zlen (store_fields (div_fields h)) = 8)
    by (unfold zlen; rewrite length_store_fields; reflexivity).
  rewrite slice_app_r, Hz, slice_app_l by (unfold COMM_LABEL_LENGTH in *; lia).
  unfold COMM_LABEL_LENGTH in *. rewrite <- Hl, Z.sub_diag, slice_all. destruct h; reflexivity.
Qed.

(** Conversion to network order and back is the identity on every host. *)
Lemma phy_convert_involutive h :
  phy_ok h -> phy_ConvertNetToHost (phy_ConvertHostToNet h) = h.
Proof.
  intros Hok. unfold phy_ok in Hok. unfold phy_fields in Hok. fields_ok.
  unfold phy_ConvertNetToHost, phy_ConvertHostToNet. destruct h; cbn in *.
  f_equal; apply HostToNet_involutive; assumption.
Qed.

Lemma opt_convert_involutive h :
  opt_ok h -> opt_ConvertNetToHost (opt_ConvertHostToNet h) = h.
Proof.
  intros Hok. unfold opt_ok in Hok. unfold opt_fields in Hok. fields_ok.
  unfold opt_ConvertNetToHost, opt_ConvertHostToNet. destruct h; cbn in *.
  f_equal; apply HostToNet_involutive; assumption.
Qed.

Lemma div_convert_involutive h :
  div_ok h -> div_ConvertNetToHost (div_ConvertHostToNet h) = h.
Proof.
  intros [Hok _]. unfold div_fields in Hok. fields_ok.
  unfold div_ConvertHostToNet, div_ConvertNetToHost. destruct h; cbn in *.
  f_equal; apply HostToNet_involutive; assumption.
Qed.

Lemma mh_convert_involutive h :
  mh_ok h -> mh_ConvertNetToHost (mh_ConvertHostToNet h) = h.
Proof.
  intros Hok. unfold mh_ok in Hok. unfold mh_fields in Hok. fields_ok.
  unfold mh_ConvertHostToNet, mh_ConvertNetToHost. destruct h; cbn in *.
  f_equal; apply HostToNet_involutive; assumption.
Qed.

Lemma phy_convert_ok h : phy_ok h -> phy_ok (phy_ConvertHostToNet h).
Proof.
  intros Hok. unfold phy_ok in *. unfold phy_fields, phy_ConvertHostToNet in *; cbn in *. fields_ok.
  all: apply HostToNet_ok; assumption.
Qed.

Lemma opt_convert_ok h : opt_ok h -> opt_ok (opt_ConvertHostToNet h).
Proof.
  intros Hok. unfold opt_ok in *. unfold opt_fields, opt_ConvertHostToNet in *; cbn in *. fields_ok.
  all: apply HostToNet_ok; assumption.
Qed.

Lemma div_convert_ok h : div_ok h -> div_ok (div_ConvertHostToNet h).
Proof.
  intros [Hok Hl]. split; [|exact Hl].
  unfold div_ConvertHostToNet. unfold div_fields, div_ConvertNetToHost in *; cbn in *. fields_ok.
  all: apply HostToNet_ok; assumption.
Qed.

Lemma mh_convert_ok h : mh_ok h -> mh_ok (mh_ConvertHostToNet h).
Proof.
  intros Hok. unfold mh_ok in *. unfold mh_ConvertHostToNet.
  unfold mh_fields, mh_ConvertNetToHost in *; cbn in *. fields_ok.
  all: apply HostToNet_ok; assumption.
Qed.

End Headers.
