(* ===== verification/CommTypes.v ===== *)
(** Types the communicator components share: frame types, priorities, labels,
    the parse result of a packet and the hash of a device name. *)

From S2P Require Import Prelude Memory.
From Stdlib Require Import ZArith Lia.
From Stdlib Require Import Strings.Byte.
From stdpp Require Import base numbers list gmap sorting.

Open Scope Z_scope.

(** A C++ [std::string] is a byte sequence, and so is [LabelType]. *)
Abbreviation cstring := (list byte).
Abbreviation LabelType := (list byte).

Inductive Priority := LOW | NORMAL | HIGH.

Inductive FrameType :=
  | EMPTY
  | APPLICATION_MESSAGE
  | COMMUNICATION_LABEL_EXCHANGE
  | COMMUNICATION_LABEL_EXCHANGE_ACK
  | INVALID_MAX_FRAME_TYPE.

#[export] Instance Priority_eq_dec : EqDecision Priority.
Proof. solve_decision. Defined.

#[export] Instance FrameType_eq_dec : EqDecision FrameType.
Proof. solve_decision. Defined.

#[export] Instance Priority_countable : Countable Priority.
Proof.
  refine (inj_countable
    (fun p => match p with LOW => 0%nat | NORMAL => 1%nat | HIGH => 2%nat end)
    (fun n => match n with
              | 0%nat => Some LOW | 1%nat => Some NORMAL | 2%nat => Some HIGH | _ => None
              end) _).
  by intros [].
Defined.

(** [static_cast<uint8_t>(FrameType)] and back. *)
Definition frame_type_code (t : FrameType) : Z :=
  match t with
  | EMPTY => 0
  | APPLICATION_MESSAGE => 1
  | COMMUNICATION_LABEL_EXCHANGE => 2
  | COMMUNICATION_LABEL_EXCHANGE_ACK => 3
  | INVALID_MAX_FRAME_TYPE => 4
  end.

Definition frame_type_of_code (z : Z) : FrameType :=
  match z with
  | 0 => EMPTY
  | 1 => APPLICATION_MESSAGE
  | 2 => COMMUNICATION_LABEL_EXCHANGE
  | 3 => COMMUNICATION_LABEL_EXCHANGE_ACK
  | _ => INVALID_MAX_FRAME_TYPE
  end.

(** * ParseResult (communicator/include/parse_result.h) *)

Record ParseResult := mkParseResult {
  frameId_ : Z;
  sourceId_ : Z;
  packetLen_ : Z;
  pr_paddingLen_ : Z;
  isFragment_ : bool;
  frameType_ : FrameType;
  frameLen_ : Z;
  fragCount_ : Z;
  fragNo_ : Z;
  pr_payloadLen_ : Z;
  commLabel_ : LabelType;
  labelExchangeDistinctValue_ : Z;
  labelExchangeSequenceId_ : Z;
  latestCommLabels_ : gset LabelType;
  dbVersion_ : Z
}.

Definition emptyParseResult : ParseResult :=
  mkParseResult 0 0 0 0 false INVALID_MAX_FRAME_TYPE 0 0 0 0 [] 0 0 ∅ 0.

(** The fields [ParseCommPhyHeader] fills in. *)
Definition set_phy_info (r : ParseResult) (frameId sourceId packetLen paddingLen dbVersion : Z)
    (isFragment : bool) : ParseResult :=
  mkParseResult frameId sourceId packetLen (u8 paddingLen) isFragment (frameType_ r)
    (frameLen_ r) (fragCount_ r) (fragNo_ r) (pr_payloadLen_ r) (commLabel_ r)
    (labelExchangeDistinctValue_ r) (labelExchangeSequenceId_ r) (latestCommLabels_ r) dbVersion.

Definition SetFrameTypeInfo (r : ParseResult) (t : FrameType) : ParseResult :=
  mkParseResult (frameId_ r) (sourceId_ r) (packetLen_ r) (pr_paddingLen_ r) (isFragment_ r) t
    (frameLen_ r) (fragCount_ r) (fragNo_ r) (pr_payloadLen_ r) (commLabel_ r)
    (labelExchangeDistinctValue_ r) (labelExchangeSequenceId_ r) (latestCommLabels_ r)
    (dbVersion_ r).

(** [SetFrameLen], [SetFragCount] and [SetFragNo], always used together. *)
Definition set_frag_info (r : ParseResult) (frameLen fragCount fragNo : Z) : ParseResult :=
  mkParseResult (frameId_ r) (sourceId_ r) (packetLen_ r) (pr_paddingLen_ r) (isFragment_ r)
    (frameType_ r) frameLen fragCount fragNo (pr_payloadLen_ r) (commLabel_ r)
    (labelExchangeDistinctValue_ r) (labelExchangeSequenceId_ r) (latestCommLabels_ r)
    (dbVersion_ r).

(** [SetPayloadLen] and [SetCommLabel]. *)
Definition set_diverge_info (r : ParseResult) (payloadLen : Z) (label : LabelType) : ParseResult :=
  mkParseResult (frameId_ r) (sourceId_ r) (packetLen_ r) (pr_paddingLen_ r) (isFragment_ r)
    (frameType_ r) (frameLen_ r) (fragCount_ r) (fragNo_ r) payloadLen label
    (labelExchangeDistinctValue_ r) (labelExchangeSequenceId_ r) (latestCommLabels_ r)
    (dbVersion_ r).

(** [SetLabelExchangeDistinctValue] and [SetLabelExchangeSequenceId]. *)
Definition set_exchange_info (r : ParseResult) (distinctValue sequenceId : Z) : ParseResult :=
  mkParseResult (frameId_ r) (sourceId_ r) (packetLen_ r) (pr_paddingLen_ r) (isFragment_ r)
    (frameType_ r) (frameLen_ r) (fragCount_ r) (fragNo_ r) (pr_payloadLen_ r) (commLabel_ r)
    distinctValue sequenceId (latestCommLabels_ r) (dbVersion_ r).

Definition SetLatestCommLabels (r : ParseResult) (labels : gset LabelType) : ParseResult :=
  mkParseResult (frameId_ r) (sourceId_ r) (packetLen_ r) (pr_paddingLen_ r) (isFragment_ r)
    (frameType_ r) (frameLen_ r) (fragCount_ r) (fragNo_ r) (pr_payloadLen_ r) (commLabel_ r)
    (labelExchangeDistinctValue_ r) (labelExchangeSequenceId_ r) labels (dbVersion_ r).

(** Iteration over a [std::map] with integer keys: ascending. *)
Definition key_le {A} (x y : Z * A) : Prop := fst x <= fst y.

#[export] Instance key_le_dec {A} : RelDecision (@key_le A).
Proof. intros x y. unfold key_le. apply _. Defined.

Definition in_key_order {A} (m : gmap Z A) : list (Z * A) := merge_sort key_le (map_to_list m).

Lemma elem_of_in_key_order {A} (m : gmap Z A) k v : (k, v) ∈ in_key_order m <-> m !! k = Some v.
Proof.
  unfold in_key_order. rewrite merge_sort_Permutation. apply elem_of_map_to_list.
Qed.

(** * Iteration order of [std::set<LabelType>]: lexicographic *)

Fixpoint lex_leb (a b : list byte) : bool :=
  match a, b with
  | [], _ => true
  | _ :: _, [] => false
  | x :: a, y :: b =>
    if b2z x <? b2z y then true else if b2z y <? b2z x then false else lex_leb a b
  end.

Definition lex_le (a b : list byte) : Prop := lex_leb a b = true.

#[export] Instance lex_le_dec : RelDecision lex_le.
Proof. intros a b. unfold lex_le. apply _. Defined.

Definition set_in_order (s : gset LabelType) : list LabelType := merge_sort lex_le (elements s).

Lemma set_in_order_perm s : set_in_order s ≡ₚ elements s.
Proof. apply merge_sort_Permutation. Qed.

Lemma elem_of_set_in_order x s : x ∈ set_in_order s <-> x ∈ s.
Proof. rewrite set_in_order_perm. apply elem_of_elements. Qed.

(** * Hash (common/src/hash.cpp) *)

Section Hash.
Context `{Host}.

Definition char_value (b : byte) : Z := if char_signed then to_signed 8 (b2z b) else b2z b.

Definition PRIME_SEED : Z := 33.

Definition HashFunc (input : cstring) : Z :=
  fold_left (fun hash c => u64 (hash * PRIME_SEED + char_value c)) input 0.

Definition Hash32Func (input : cstring) : Z :=
  Z.land
    (fold_left (fun hash c =>
       let hash := u32 (u32 (Z.shiftl hash 4) + char_value c) in
       let x := Z.land hash 0xf0000000 in
       let hash := if x =? 0 then hash else Z.lxor hash (Z.shiftr x 24) in
       Z.land hash (u32 (Z.lnot x))) input 0)
    0x7fffffff.

Lemma HashFunc_range input : 0 <= HashFunc input < 2 ^ 64.
Proof.
  unfold HashFunc.
  enough (Hg : forall h, 0 <= h < 2 ^ 64 ->
    0 <= fold_left (fun hash c => u64 (hash * PRIME_SEED + char_value c)) input h < 2 ^ 64)
    by (apply Hg; lia).
  induction input as [|c input IH]; intros h Hh; simpl; [exact Hh|].
  apply IH. apply wrap_range. lia.
Qed.

End Hash.
