(* ===== verification/ProtocolProto.v ===== *)
(** Model of [ProtocolProto] (communicator/src/protocol_proto.cpp): building,
    checking and parsing the packets of the communicator, splitting a frame into
    packets and copying a packet into the frame being assembled. *)

From S2P Require Import Prelude Memory SerialBuffer FrameHeader CommTypes.
From Stdlib Require Import ZArith Lia.
From Stdlib Require Import Strings.Byte.
From stdpp Require Import base numbers list gmap.

Open Scope Z_scope.

Definition MAGIC_CODE : Z := 0xAAAA.
Definition PROTOCOL_VERSION : Z := 0.
Definition SOFTWARE_VERSION_EARLIEST : Z := 101.
Definition SOFTWARE_VERSION_CURRENT : Z := 106. (* RELATIONAL_STORE is defined *)
Definition DB_GLOBAL_VERSION : Z := SOFTWARE_VERSION_CURRENT - SOFTWARE_VERSION_EARLIEST.
Definition PACKET_TYPE_FRAGMENTED : Z := Z.shiftl 1 0.
Definition PACKET_TYPE_NOT_FRAGMENTED : Z := 0.
Definition MAX_PADDING_LEN : Z := 7.
Definition LENGTH_BEFORE_SUM_RANGE : Z := 8 + 8.
Definition MAX_FRAME_LEN : Z := 32 * 1024 * 1024.
Definition MIN_FRAGMENT_COUNT : Z := 2.
Definition LABEL_VER_LEN : Z := 8.
Definition DISTINCT_VALUE_LEN : Z := 8.
Definition SEQUENCE_ID_LEN : Z := 8.
Definition COMM_LABEL_COUNT_LEN : Z := 8.

Definition SetFrameType (inPacketType : Z) (inFrameType : FrameType) : Z :=
  Z.lor (Z.land inPacketType 0x0F) (u8 (Z.shiftl (frame_type_code inFrameType) 4)).

Definition GetFrameType (inPacketType : Z) : FrameType :=
  let frameType := Z.shiftr (Z.land inPacketType 0xF0) 4 in
  if frame_type_code INVALID_MAX_FRAME_TYPE <=? frameType then INVALID_MAX_FRAME_TYPE
  else frame_type_of_code frameType.

Definition GetAppLayerFrameHeaderLength : Z := sizeof_CommPhyHeader + sizeof_CommDivergeHeader.
Definition GetLengthBeforeSerializedData : Z :=
  sizeof_CommPhyHeader + sizeof_CommDivergeHeader + sizeof_MessageHeader.
Definition GetCommLayerFrameHeaderLength : Z := sizeof_CommPhyHeader.

Record PhyHeaderInfo := mkPhyHeaderInfo {
  info_sourceId : Z;
  info_frameId : Z;
  info_frameType : FrameType
}.

Section Proto.
Context `{Host} `{Heap}.

(** A write of [src] at offset [off] of the buffer's allocation. *)
Definition write_at (b : SerialBuffer) (off : Z) (src : list byte) : SerialBuffer :=
  match oringinalBytes_ b with
  | Some mem => set_memory b (splice off src mem)
  | None => b
  end.

(** [memcpy_s] into the buffer's allocation. *)
Definition copy_at (b : SerialBuffer) (off destMax : Z) (src : list byte)
    : option SerialBuffer :=
  match oringinalBytes_ b with
  | Some mem => set_memory b <$> memcpy_s mem off destMax src
  | None => None
  end.

(** * Check sum *)

(** XOR of [count] host-order 64-bit words. *)
Fixpoint xor_words (count : nat) (bytes : list byte) (sum : Z) : Z :=
  match count with
  | O => sum
  | S count => xor_words count (drop 8 bytes) (Z.lxor sum (load_int (take 8 bytes)))
  end.

Definition CalculateXorSum (bytes : list byte) (length : Z) : option Z :=
  if negb (length mod 8 =? 0) then None
  else Some (xor_words (Z.to_nat (length / 8)) bytes 0).

(** * Frames of the communication layer *)

Definition BuildEmptyFrameForVersionNegotiate : Z * option SerialBuffer :=
  if negb heap_obj then (- E_OUT_OF_MEMORY, None)
  else
    let '(errCode, buffer) :=
      AllocBufferByPayloadLength emptySerialBuffer 0 GetCommLayerFrameHeaderLength in
    if negb (errCode =? E_OK) then (errCode, None) else (E_OK, Some buffer).

(** The consecutive [*fieldPtr++ = HostToNet(v)] writes. *)
Definition net_words (vs : list Z) : list byte :=
  concat (map (fun v => store_int 8 (HostToNet 8 v)) vs).

Definition BuildLabelExchange (inDistinctValue inSequenceId : Z) (inLabels : gset LabelType)
    : Z * option SerialBuffer :=
  let payloadLen := u32 (LABEL_VER_LEN + DISTINCT_VALUE_LEN + SEQUENCE_ID_LEN
    + COMM_LABEL_COUNT_LEN + Z.of_nat (size inLabels) * COMM_LABEL_LENGTH) in
  if negb heap_obj then (- E_OUT_OF_MEMORY, None)
  else
    let '(errCode, buffer) :=
      AllocBufferByPayloadLength emptySerialBuffer payloadLen GetCommLayerFrameHeaderLength in
    if negb (errCode =? E_OK) then (errCode, None)
    else match GetWritableBytesForPayload buffer with
         | (Some p, _) =>
           (E_OK, Some (write_at buffer p
              (net_words [PROTOCOL_VERSION; inDistinctValue; inSequenceId;
                          Z.of_nat (size inLabels)]
               ++ concat (set_in_order inLabels))))
         | (None, _) => (E_OK, Some buffer)
         end.

Definition BuildLabelExchangeAck (inDistinctValue inSequenceId : Z) : Z * option SerialBuffer :=
  let payloadLen := LABEL_VER_LEN + DISTINCT_VALUE_LEN + SEQUENCE_ID_LEN in
  if negb heap_obj then (- E_OUT_OF_MEMORY, None)
  else
    let '(errCode, buffer) :=
      AllocBufferByPayloadLength emptySerialBuffer payloadLen GetCommLayerFrameHeaderLength in
    if negb (errCode =? E_OK) then (errCode, None)
    else match GetWritableBytesForPayload buffer with
         | (Some p, _) =>
           (E_OK, Some (write_at buffer p
              (net_words [PROTOCOL_VERSION; inDistinctValue; inSequenceId])))
         | (None, _) => (E_OK, Some buffer)
         end.

(** * Headers of a frame that is sent *)

Definition SetDivergeHeader (inBuff : option SerialBuffer) (inCommLabel : LabelType)
    : Z * option SerialBuffer :=
  match inBuff with
  | None => (- E_INVALID_ARGS, None)
  | Some b =>
    let '(headerPtr, headerLen) := GetWritableBytesForHeader b in
    if negb (headerLen =? GetAppLayerFrameHeaderLength) then (- E_INVALID_ARGS, Some b)
    else
      let '(_, payloadLen) := GetReadOnlyBytesForPayload b in
      let divergeHeader := div_ConvertHostToNet
        (mkCommDivergeHeader PROTOCOL_VERSION 0 payloadLen
           (take (Z.to_nat COMM_LABEL_LENGTH) inCommLabel)) in
      match headerPtr with
      | None => (- E_SECUREC_ERROR, Some b)
      | Some p =>
        match copy_at b (p + sizeof_CommPhyHeader) (u32 (headerLen - sizeof_CommPhyHeader))
                (store_div divergeHeader) with
        | None => (- E_SECUREC_ERROR, Some b)
        | Some b' => (E_OK, Some b')
        end
      end
  end.

Definition FillPhyHeaderLenInfo (h : CommPhyHeader) (packetLen sum type paddingLen : Z)
    : CommPhyHeader :=
  mkCommPhyHeader (phy_magic h) (phy_version h) packetLen sum (phy_sourceId h) (phy_frameId h)
    (Z.lor (phy_packetType h) type) (u8 paddingLen) (phy_dbIntVer h).

(** The header [SetPhyHeader] writes, before its check sum is known. *)
Definition build_phy (inInfo : PhyHeaderInfo) (packetLen paddingLen : Z) : CommPhyHeader :=
  FillPhyHeaderLenInfo
    (mkCommPhyHeader MAGIC_CODE PROTOCOL_VERSION 0 0 (info_sourceId inInfo)
       (info_frameId inInfo) 0 0 DB_GLOBAL_VERSION)
    packetLen 0 (SetFrameType PACKET_TYPE_NOT_FRAGMENTED (info_frameType inInfo)) paddingLen.

Definition SetPhyHeader (inBuff : option SerialBuffer) (inInfo : PhyHeaderInfo)
    : Z * option SerialBuffer :=
  match inBuff with
  | None => (- E_INVALID_ARGS, None)
  | Some b =>
    let '(headerPtr, headerLen) := GetWritableBytesForHeader b in
    if headerLen <? sizeof_CommPhyHeader then (- E_INVALID_ARGS, Some b)
    else
      let '(_, bufferLen) := GetReadOnlyBytesForEntireBuffer b in
      let '(_, frameLen) := GetReadOnlyBytesForEntireFrame b in
      if decide (info_frameType inInfo = INVALID_MAX_FRAME_TYPE) then (- E_INVALID_ARGS, Some b)
      else
        let phyHeader := phy_ConvertHostToNet (build_phy inInfo bufferLen (bufferLen - frameLen)) in
        match headerPtr with
        | None => (- E_SECUREC_ERROR, Some b)
        | Some p =>
          match copy_at b p headerLen (store_phy phyHeader) with
          | None => (- E_SECUREC_ERROR, Some b)
          | Some b1 =>
            match fst (GetReadOnlyBytesForEntireBuffer b1) with
            | None => (- E_SUM_CALCULATE_FAIL, Some b1)
            | Some bytes =>
              match CalculateXorSum (drop (Z.to_nat LENGTH_BEFORE_SUM_RANGE) bytes)
                      (u32 (bufferLen - LENGTH_BEFORE_SUM_RANGE)) with
              | None => (- E_SUM_CALCULATE_FAIL, Some b1)
              | Some sumResult =>
                (E_OK, Some (write_at b1 (p + 8) (store_int 8 (HostToNet 8 sumResult))))
              end
            end
          end
        end
  end.

(** * Parsing a received packet *)

Definition ParseCommPhyHeaderCheckMagicAndVersion (bytes : list byte) (length : Z) : Z :=
  if length <? 2 + 2 then - E_LENGTH_ERROR
  else
    let magic := NetToHost 2 (load_int (slice 0 2 bytes)) in
    let version := NetToHost 2 (load_int (slice 2 2 bytes)) in
    if negb (magic =? MAGIC_CODE) then - E_PARSE_FAIL
    else if negb (version =? PROTOCOL_VERSION) then - E_VERSION_NOT_SUPPORT
    else E_OK.

Definition ParseCommPhyHeaderCheckField (srcTarget : cstring) (phyHeader : CommPhyHeader)
    (bytes : list byte) (length : Z) : Z :=
  if negb (phy_sourceId phyHeader =? HashFunc srcTarget) then - E_PARSE_FAIL
  else if negb (phy_packetLen phyHeader =? length) then - E_PARSE_FAIL
  else if MAX_PADDING_LEN <? phy_paddingLen phyHeader then - E_PARSE_FAIL
  else if phy_packetLen phyHeader <? sizeof_CommPhyHeader + phy_paddingLen phyHeader
  then - E_PARSE_FAIL
  else match CalculateXorSum (drop (Z.to_nat LENGTH_BEFORE_SUM_RANGE) bytes)
               (u32 (length - LENGTH_BEFORE_SUM_RANGE)) with
       | None => - E_SUM_CALCULATE_FAIL
       | Some sumResult =>
         if negb (phy_checkSum phyHeader =? sumResult) then - E_SUM_MISMATCH else E_OK
       end.

Definition ParseCommPhyHeader (srcTarget : cstring) (bytes : list byte) (length : Z)
    (inResult : ParseResult) : Z * ParseResult :=
  let errCode := ParseCommPhyHeaderCheckMagicAndVersion bytes length in
  if negb (errCode =? E_OK) then (errCode, inResult)
  else if length <? sizeof_CommPhyHeader then (- E_PARSE_FAIL, inResult)
  else
    let phyHeader := phy_ConvertNetToHost (load_phy bytes) in
    let errCode := ParseCommPhyHeaderCheckField srcTarget phyHeader bytes length in
    if negb (errCode =? E_OK) then (errCode, inResult)
    else
      let fragmented := negb (Z.land (phy_packetType phyHeader) PACKET_TYPE_FRAGMENTED =? 0) in
      let inResult := set_phy_info inResult (phy_frameId phyHeader) (phy_sourceId phyHeader)
        (phy_packetLen phyHeader) (phy_paddingLen phyHeader) (phy_dbIntVer phyHeader)
        (fragmented || isFragment_ inResult) in
      let frameType := GetFrameType (phy_packetType phyHeader) in
      if decide (frameType = INVALID_MAX_FRAME_TYPE) then (- E_FRAME_TYPE_NOT_SUPPORT, inResult)
      else (E_OK, SetFrameTypeInfo inResult frameType).

Definition ParseCommPhyOptHeader (bytes : list byte) (length : Z) (inResult : ParseResult)
    : Z * ParseResult :=
  if length <? sizeof_CommPhyHeader + sizeof_CommPhyOptHeader then (- E_LENGTH_ERROR, inResult)
  else
    let phyOptHeader := opt_ConvertNetToHost
      (load_opt (drop (Z.to_nat sizeof_CommPhyHeader) bytes)) in
    (E_OK, set_frag_info inResult (opt_frameLen phyOptHeader) (opt_fragCount phyOptHeader)
             (opt_fragNo phyOptHeader)).

Definition ParseCommDivergeHeader (bytes : list byte) (length : Z) (inResult : ParseResult)
    : Z * ParseResult :=
  if length <? sizeof_CommPhyHeader + 2 then (- E_LENGTH_ERROR, inResult)
  else
    let version := NetToHost 2 (load_int (slice sizeof_CommPhyHeader 2 bytes)) in
    if negb (version =? PROTOCOL_VERSION) then (- E_VERSION_NOT_SUPPORT, inResult)
    else if length <? sizeof_CommPhyHeader + sizeof_CommDivergeHeader
    then (- E_PARSE_FAIL, inResult)
    else
      let divergeHeader := div_ConvertNetToHost
        (load_div (drop (Z.to_nat sizeof_CommPhyHeader) bytes)) in
      if negb (u64 (sizeof_CommPhyHeader + sizeof_CommDivergeHeader
                    + div_payLoadLen divergeHeader + pr_paddingLen_ inResult)
               =? packetLen_ inResult)
      then (- E_PARSE_FAIL, inResult)
      else (E_OK, set_diverge_info inResult (div_payLoadLen divergeHeader)
                    (div_commLabel divergeHeader)).

(** The [i]-th big-endian 64-bit field after the physical header. *)
Definition net_word_at (bytes : list byte) (i : Z) : Z :=
  NetToHost 8 (load_int (slice (sizeof_CommPhyHeader + 8 * i) 8 bytes)).

(** The loop over [commLabelCount] labels; inserting a label twice has no effect. *)
Fixpoint read_labels (count : nat) (bytes : list byte) (labels : gset LabelType)
    : gset LabelType :=
  match count with
  | O => labels
  | S count =>
    read_labels count (drop (Z.to_nat COMM_LABEL_LENGTH) bytes)
      ({[take (Z.to_nat COMM_LABEL_LENGTH) bytes]} ∪ labels)
  end.

Definition ParseLabelExchange (bytes : list byte) (length : Z) (inResult : ParseResult)
    : Z * ParseResult :=
  let fixed := sizeof_CommPhyHeader + LABEL_VER_LEN + DISTINCT_VALUE_LEN + SEQUENCE_ID_LEN
               + COMM_LABEL_COUNT_LEN in
  if length <? sizeof_CommPhyHeader + LABEL_VER_LEN then (- E_LENGTH_ERROR, inResult)
  else if negb (net_word_at bytes 0 =? PROTOCOL_VERSION)
  then (- E_VERSION_NOT_SUPPORT, inResult)
  else if length <? fixed then (- E_LENGTH_ERROR, inResult)
  else
    let inResult := set_exchange_info inResult (net_word_at bytes 1) (net_word_at bytes 2) in
    let commLabelCount := net_word_at bytes 3 in
    if (length <? commLabelCount) || (UINT32_MAX / COMM_LABEL_LENGTH <? commLabelCount)
    then (- E_PARSE_FAIL, inResult)
    else if length <? u64 (fixed + commLabelCount * COMM_LABEL_LENGTH)
    then (- E_LENGTH_ERROR, inResult)
    else (E_OK, SetLatestCommLabels inResult
                  (read_labels (Z.to_nat commLabelCount) (drop (Z.to_nat fixed) bytes) ∅)).

Definition ParseLabelExchangeAck (bytes : list byte) (length : Z) (inResult : ParseResult)
    : Z * ParseResult :=
  if length <? sizeof_CommPhyHeader + LABEL_VER_LEN then (- E_LENGTH_ERROR, inResult)
  else if negb (net_word_at bytes 0 =? PROTOCOL_VERSION)
  then (- E_VERSION_NOT_SUPPORT, inResult)
  else if length <? sizeof_CommPhyHeader + LABEL_VER_LEN + DISTINCT_VALUE_LEN + SEQUENCE_ID_LEN
  then (- E_LENGTH_ERROR, inResult)
  else (E_OK, set_exchange_info inResult (net_word_at bytes 1) (net_word_at bytes 2)).

Definition ParseCommLayerPayload (bytes : list byte) (length : Z) (inResult : ParseResult)
    : Z * ParseResult :=
  if decide (frameType_ inResult = COMMUNICATION_LABEL_EXCHANGE_ACK)
  then ParseLabelExchangeAck bytes length inResult
  else ParseLabelExchange bytes length inResult.

Definition CheckAndParsePacket (srcTarget : cstring) (bytes : option (list byte)) (length : Z)
    (outResult : ParseResult) : Z * ParseResult :=
  match bytes with
  | None => (- E_INVALID_ARGS, outResult)
  | Some bytes =>
    if MAX_TOTAL_LEN <? length then (- E_INVALID_ARGS, outResult)
    else
      let '(errCode, outResult) := ParseCommPhyHeader srcTarget bytes length outResult in
      if negb (errCode =? E_OK) then (errCode, outResult)
      else if decide (frameType_ outResult = EMPTY) then (E_OK, outResult)
      else if isFragment_ outResult then ParseCommPhyOptHeader bytes length outResult
      else if decide (frameType_ outResult = APPLICATION_MESSAGE)
      then ParseCommDivergeHeader bytes length outResult
      else ParseCommLayerPayload bytes length outResult
  end.

Definition CheckAndParseFrame (inBuff : option SerialBuffer) (outResult : ParseResult)
    : Z * ParseResult :=
  match inBuff with
  | None => (- E_INTERNAL_ERROR, outResult)
  | Some b =>
    if isFragment_ outResult then (- E_INTERNAL_ERROR, outResult)
    else
      let '(frameBytes, frameLen) := GetReadOnlyBytesForEntireFrame b in
      let bytes := default [] frameBytes in
      if decide (frameType_ outResult = APPLICATION_MESSAGE)
      then ParseCommDivergeHeader bytes frameLen outResult
      else ParseCommLayerPayload bytes frameLen outResult
  end.

End Proto.
