(* ===== verification/Fragmentation.v ===== *)
(** The second half of protocol_proto.cpp: splitting a frame into packets
    ([SplitFrameIntoPacketsIfNeed], [FrameFragmentation], [FillFragmentPacket]) and
    putting a packet back ([AnalyzeSplitStructure], [CombinePacketIntoFrame]). *)

From S2P Require Import Prelude Memory SerialBuffer FrameHeader CommTypes ProtocolProto.
From Stdlib Require Import ZArith Lia.
From Stdlib Require Import Strings.Byte.
From stdpp Require Import base numbers list gmap.

Open Scope Z_scope.

Record FrameFragmentInfo := mkFrameFragmentInfo {
  oringinalBytesAddr : list byte;
  extendHeadSize : Z;
  splitLength : Z;
  fragCount : Z
}.

Section Fragmentation.
Context `{Host} `{Heap}.

(** [packet] is the vector being filled; the packet proper starts at [off] and has
    [leftLength] bytes. *)
Definition FillFragmentPacketExtendHead (headBytes : list byte) (headLen : Z)
    (packet : list byte) (leftLength : Z) : Z * list byte :=
  if leftLength <? headLen then (- E_INVALID_ARGS, packet)
  else match memcpy_s packet 0 leftLength (slice 0 headLen headBytes) with
       | None => (- E_SECUREC_ERROR, packet)
       | Some packet => (E_OK, packet)
       end.

Definition FillFragmentPacket (phyHeader : CommPhyHeader) (phyOptHeader : CommPhyOptHeader)
    (fragBytes : list byte) (packet : list byte) (off leftLength : Z) : Z * list byte :=
  if leftLength =? 0 then (- E_INVALID_ARGS, packet)
  else match memcpy_s packet off leftLength (store_phy phyHeader) with
  | None => (- E_SECUREC_ERROR, packet)
  | Some packet =>
    let off1 := off + sizeof_CommPhyHeader in
    let left1 := u32 (leftLength - sizeof_CommPhyHeader) in
    match memcpy_s packet off1 left1 (store_opt phyOptHeader) with
    | None => (- E_SECUREC_ERROR, packet)
    | Some packet =>
      let off2 := off1 + sizeof_CommPhyOptHeader in
      let left2 := u32 (left1 - sizeof_CommPhyOptHeader) in
      match memcpy_s packet off2 left2 fragBytes with
      | None => (- E_SECUREC_ERROR, packet)
      | Some packet =>
        match CalculateXorSum (drop (Z.to_nat (off + LENGTH_BEFORE_SUM_RANGE)) packet)
                (u32 (leftLength - LENGTH_BEFORE_SUM_RANGE)) with
        | None => (- E_SUM_CALCULATE_FAIL, packet)
        | Some sumResult =>
          (E_OK, splice (off + 8) (store_int 8 (HostToNet 8 sumResult)) packet)
        end
      end
    end
  end.

Definition quotient_of (info : FrameFragmentInfo) : Z := splitLength info / fragCount info.
Definition remainder_of (info : FrameFragmentInfo) : Z := u16 (splitLength info mod fragCount info).

Definition piece_frag_len (info : FrameFragmentInfo) (fragNo : Z) : Z :=
  if negb (fragNo =? fragCount info - 1) then quotient_of info
  else u32 (quotient_of info + remainder_of info).

(** One iteration of the loop of [FrameFragmentation]. *)
Definition make_piece (splitStartBytes : list byte) (info : FrameFragmentInfo)
    (framePhyHeader : CommPhyHeader) (fragNo byteOffset : Z) : Z * (list byte * Z) :=
  let pieceFragLen := piece_frag_len info fragNo in
  let alignedFragLen := byte8_align 32 pieceFragLen in
  let pieceTotalLen := u32 (alignedFragLen + sizeof_CommPhyHeader + sizeof_CommPhyOptHeader) in
  let packet := replicate (Z.to_nat (u32 (pieceTotalLen + extendHeadSize info))) x00 in
  let pktPhyHeader := phy_ConvertHostToNet
    (FillPhyHeaderLenInfo (phy_ConvertNetToHost framePhyHeader) pieceTotalLen 0
       PACKET_TYPE_FRAGMENTED (alignedFragLen - pieceFragLen)) in
  let pktPhyOptHeader := opt_ConvertHostToNet
    (mkCommPhyOptHeader (u32 (splitLength info + sizeof_CommPhyHeader)) (fragCount info) fragNo) in
  let '(err, packet) :=
    if 0 <? extendHeadSize info
    then FillFragmentPacketExtendHead (oringinalBytesAddr info) (extendHeadSize info) packet
           (extendHeadSize info)
    else (E_OK, packet) in
  if negb (err =? E_OK) then (err, (packet, 0))
  else
    let '(err, packet) :=
      FillFragmentPacket pktPhyHeader pktPhyOptHeader
        (slice byteOffset pieceFragLen splitStartBytes) packet (extendHeadSize info)
        (u32 (zlen packet - extendHeadSize info)) in
    (err, (packet, extendHeadSize info)).

Fixpoint frag_loop (n : nat) (splitStartBytes : list byte) (info : FrameFragmentInfo)
    (framePhyHeader : CommPhyHeader) (fragNo byteOffset : Z) : Z * list (list byte * Z) :=
  match n with
  | O => (E_OK, [])
  | S n =>
    let '(err, piece) := make_piece splitStartBytes info framePhyHeader fragNo byteOffset in
    if negb (err =? E_OK) then (err, [piece])
    else
      let '(err, pieces) := frag_loop n splitStartBytes info framePhyHeader (u16 (fragNo + 1))
        (u32 (byteOffset + piece_frag_len info fragNo)) in
      (err, piece :: pieces)
  end.

Definition FrameFragmentation (splitStartBytes : list byte) (info : FrameFragmentInfo)
    (framePhyHeader : CommPhyHeader) : Z * list (list byte * Z) :=
  if fragCount info <? MIN_FRAGMENT_COUNT then (- E_INVALID_ARGS, [])
  else frag_loop (Z.to_nat (fragCount info)) splitStartBytes info framePhyHeader 0 0.

Definition SplitFrameIntoPacketsIfNeed (inBuff : SerialBuffer) (inMtuSize : Z)
    : Z * list (list byte * Z) :=
  let '(_, bufferLen) := GetReadOnlyBytesForEntireBuffer inBuff in
  if u32 (bufferLen + GetExtendHeadLength inBuff) <=? inMtuSize then (E_OK, [])
  else
    let modifyMtuSize := u32 (inMtuSize - GetExtendHeadLength inBuff) in
    let '(frameBytes, frameLen) := GetReadOnlyBytesForEntireFrame inBuff in
    let frameBytes := default [] frameBytes in
    let lengthToSplit := u32 (frameLen - sizeof_CommPhyHeader) in
    let maxFragmentLen := u32 (modifyMtuSize - sizeof_CommPhyHeader - sizeof_CommPhyOptHeader) in
    let quotient := u16 (lengthToSplit / maxFragmentLen) in
    let remainder := lengthToSplit mod maxFragmentLen in
    let count := if remainder =? 0 then quotient else u16 (quotient + 1) in
    FrameFragmentation (drop (Z.to_nat sizeof_CommPhyHeader) frameBytes)
      (mkFrameFragmentInfo (default [] (oringinalBytes_ inBuff)) (GetExtendHeadLength inBuff)
         lengthToSplit count)
      (load_phy frameBytes).

Definition AnalyzeSplitStructure (inResult : ParseResult) : Z * (Z * Z) :=
  let frameLen := frameLen_ inResult in
  let count := fragCount_ inResult in
  let fragNo := fragNo_ inResult in
  if (frameLen <=? sizeof_CommPhyHeader) || (MAX_FRAME_LEN <? frameLen)
  then (- E_PARSE_FAIL, (0, 0))
  else
    let lengthBeSplit := u32 (frameLen - sizeof_CommPhyHeader) in
    if (count =? 0) || (count <? MIN_FRAGMENT_COUNT) || (lengthBeSplit <? count)
       || (count <=? fragNo) then (- E_PARSE_FAIL, (0, 0))
    else
      let quotient := lengthBeSplit / count in
      let remainder := u16 (lengthBeSplit mod count) in
      let outFragLen := quotient in
      let outLastFragLen := u32 (quotient + remainder) in
      let thisFragLen := if negb (fragNo =? count - 1) then outFragLen else outLastFragLen in
      if negb (u64 (sizeof_CommPhyHeader + sizeof_CommPhyOptHeader + thisFragLen
                    + pr_paddingLen_ inResult) =? packetLen_ inResult)
      then (- E_PARSE_FAIL, (outFragLen, outLastFragLen))
      else (E_OK, (outFragLen, outLastFragLen)).

Definition CombinePacketIntoFrame (inFrame : SerialBuffer) (pktBytes : list byte) (pktLength : Z)
    (fragOffset fragLength : Z) : Z * SerialBuffer :=
  if pktLength <? u64 (sizeof_CommPhyHeader + sizeof_CommPhyOptHeader + fragLength)
  then (- E_LENGTH_ERROR, inFrame)
  else
    let '(framePtr, frameLen) := GetWritableBytesForEntireFrame inFrame in
    if frameLen <? u64 (sizeof_CommPhyHeader + fragOffset + fragLength)
    then (- E_LENGTH_ERROR, inFrame)
    else
      let dstLeftLen := u32 (frameLen - sizeof_CommPhyHeader - fragOffset) in
      let src := slice (sizeof_CommPhyHeader + sizeof_CommPhyOptHeader) fragLength pktBytes in
      match framePtr with
      | None => (- E_SECUREC_ERROR, inFrame)
      | Some p =>
        match copy_at inFrame (p + sizeof_CommPhyHeader + fragOffset) dstLeftLen src with
        | None => (- E_SECUREC_ERROR, inFrame)
        | Some inFrame' => (E_OK, inFrame')
        end
      end.

End Fragmentation.
