(* ===== verification/ProtoFacts.v ===== *)
(** Facts about the physical header: the check sum, the header that
    [SetPhyHeader] writes and the header that [ParseCommPhyHeader] accepts. *)

From S2P Require Import Prelude Memory SerialBuffer FrameHeader CommTypes ProtocolProto.
From Stdlib Require Import ZArith Lia.
From Stdlib Require Import Strings.Byte.
From stdpp Require Import base numbers list gmap.

Open Scope Z_scope.

Section Facts.
Context `{Host}.

(** * The check sum *)

Lemma load_int_inj a b : length a = length b -> load_int a = load_int b -> a = b.
Proof.
  intros Hl Hv. rewrite <- (store_load a), <- (store_load b), Hl, Hv. reflexivity.
Qed.

Lemma be_val_inj a b : length a = length b -> be_val a = be_val b -> a = b.
Proof.
  intros Hl Hv. rewrite <- (be_bytes_be_val a), <- (be_bytes_be_val b), Hl, Hv. reflexivity.
Qed.

Lemma lxor_range w a b :
  0 <= w -> 0 <= a < 2 ^ w -> 0 <= b < 2 ^ w -> 0 <= Z.lxor a b < 2 ^ w.
Proof.
  intros Hw Ha Hb. split; [apply Z.lxor_nonneg; lia|].
  destruct (Z.eq_dec (Z.lxor a b) 0) as [->|Hne]; [lia|].
  assert (0 <= Z.lxor a b) by (apply Z.lxor_nonneg; lia).
  assert (Hcase : forall x, 0 <= x < 2 ^ w -> x = 0 \/ Z.log2 x < w).
  { intros x Hx. destruct (Z.eq_dec x 0); [auto|right]. apply Z.log2_lt_pow2; lia. }
  apply Z.log2_lt_pow2; [lia|].
  pose proof (Z.log2_lxor a b) as Hlog.
  destruct (Hcase a Ha) as [->|], (Hcase b Hb) as [->|].
  - rewrite Z.lxor_0_l in Hne. lia.
  - rewrite Z.lxor_0_l. lia.
  - rewrite Z.lxor_0_r. lia.
  - lia.
Qed.

Lemma take_range_u64 bs : 0 <= load_int (take 8 bs) < 2 ^ 64.
Proof.
  pose proof (load_int_range (take 8 bs)) as Hr.
  assert (length (take 8 bs) <= 8)%nat by (rewrite length_take; lia).
  change (2 ^ 64) with (256 ^ 8).
  assert (256 ^ Z.of_nat (length (take 8 bs)) <= 256 ^ 8) by (apply Z.pow_le_mono_r; lia). lia.
Qed.

Lemma xor_words_range n bs s : 0 <= s < 2 ^ 64 -> 0 <= xor_words n bs s < 2 ^ 64.
Proof.
  revert bs s; induction n as [|n IH]; intros bs s Hs; cbn [xor_words]; [exact Hs|].
  apply IH, lxor_range; [lia|exact Hs|apply take_range_u64].
Qed.

Lemma xor_words_acc n bs s : xor_words n bs s = Z.lxor s (xor_words n bs 0).
Proof.
  revert bs s; induction n as [|n IH]; intros bs s; cbn [xor_words].
  - rewrite Z.lxor_0_r. reflexivity.
  - rewrite IH, (IH _ (Z.lxor 0 _)), Z.lxor_0_l, Z.lxor_assoc. reflexivity.
Qed.

Lemma xor_words_app n m a b s :
  length a = (8 * n)%nat -> xor_words (n + m) (a ++ b) s = xor_words m b (xor_words n a s).
Proof.
  revert a s; induction n as [|n IH]; intros a s Ha.
  - destruct a; [reflexivity|discriminate].
  - cbn [Nat.add xor_words].
    rewrite take_app_le, drop_app_le by lia. apply IH. rewrite length_drop. lia.
Qed.

(** Replacing one word of the summed range changes the sum. *)
Lemma xor_words_change n m a w w' b :
  length a = (8 * n)%nat -> length w = 8%nat -> length w' = 8%nat ->
  xor_words (n + S m) (a ++ w ++ b) 0 = xor_words (n + S m) (a ++ w' ++ b) 0 -> w = w'.
Proof.
  intros Ha Hw Hw'. rewrite !xor_words_app by exact Ha. cbn [xor_words].
  rewrite !take_app_length', !drop_app_length' by lia.
  rewrite (xor_words_acc m b (Z.lxor _ (load_int w))).
  rewrite (xor_words_acc m b (Z.lxor _ (load_int w'))).
  intros Heq.
  assert (Heq2 : Z.lxor (xor_words n a 0) (load_int w) = Z.lxor (xor_words n a 0) (load_int w')).
  { apply (f_equal (fun z => Z.lxor z (xor_words m b 0))) in Heq.
    rewrite !Z.lxor_assoc, Z.lxor_nilpotent, !Z.lxor_0_r in Heq. exact Heq. }
  apply (f_equal (Z.lxor (xor_words n a 0))) in Heq2.
  rewrite <- !Z.lxor_assoc, Z.lxor_nilpotent, !Z.lxor_0_l in Heq2.
  apply load_int_inj; [congruence|exact Heq2].
Qed.

(** * Inversion of [ParseCommPhyHeader] *)

(** The fields a packet that passes the physical checks must have. *)
Record phy_accepted (srcTarget : cstring) (bs : list byte) : Prop := {
  pa_len : sizeof_CommPhyHeader <= zlen bs;
  pa_align : u32 (zlen bs - LENGTH_BEFORE_SUM_RANGE) mod 8 = 0;
  pa_magic : be_val (slice 0 2 bs) = MAGIC_CODE;
  pa_version : be_val (slice 2 2 bs) = PROTOCOL_VERSION;
  pa_packetLen : be_val (slice 4 4 bs) = zlen bs;
  pa_source : be_val (slice 16 8 bs) = HashFunc srcTarget;
  pa_sum : be_val (slice 8 8 bs) =
    xor_words (Z.to_nat (u32 (zlen bs - LENGTH_BEFORE_SUM_RANGE) / 8)) (drop 16 bs) 0
}.

Lemma slice_field n off bs :
  0 <= off -> off + Z.of_nat n <= zlen bs ->
  NetToHost n (load_int (slice off (Z.of_nat n) bs)) = be_val (slice off (Z.of_nat n) bs).
Proof. intros. apply NetToHost_load. rewrite length_slice; lia. Qed.

Lemma load_phy_fields bs :
  32 <= zlen bs ->
  phy_magic (phy_ConvertNetToHost (load_phy bs)) = be_val (slice 0 2 bs) /\
  phy_version (phy_ConvertNetToHost (load_phy bs)) = be_val (slice 2 2 bs) /\
  phy_packetLen (phy_ConvertNetToHost (load_phy bs)) = be_val (slice 4 4 bs) /\
  phy_checkSum (phy_ConvertNetToHost (load_phy bs)) = be_val (slice 8 8 bs) /\
  phy_sourceId (phy_ConvertNetToHost (load_phy bs)) = be_val (slice 16 8 bs).
Proof.
  intros Hl.
  rewrite <- (slice_field 2 0), <- (slice_field 2 2), <- (slice_field 4 4),
    <- (slice_field 8 8), <- (slice_field 8 16) by lia.
  unfold load_phy. cbn [load_fields]. rewrite !drop_drop. repeat split; reflexivity.
Qed.

Lemma CheckMagic_ok bs :
  ParseCommPhyHeaderCheckMagicAndVersion bs (zlen bs) = E_OK ->
  be_val (slice 0 2 bs) = MAGIC_CODE /\ be_val (slice 2 2 bs) = PROTOCOL_VERSION.
Proof.
  unfold ParseCommPhyHeaderCheckMagicAndVersion.
  destruct (Z.ltb_spec (zlen bs) (2 + 2)); [discriminate|].
  rewrite <- (slice_field 2 0), <- (slice_field 2 2) by lia. change (Z.of_nat 2) with 2.
  destruct (Z.eqb_spec (NetToHost 2 (load_int (slice 0 2 bs))) MAGIC_CODE); [|discriminate].
  destruct (Z.eqb_spec (NetToHost 2 (load_int (slice 2 2 bs))) PROTOCOL_VERSION);
    [|discriminate]. auto.
Qed.

Lemma CheckField_ok src h bs :
  ParseCommPhyHeaderCheckField src h bs (zlen bs) = E_OK ->
  phy_sourceId h = HashFunc src /\ phy_packetLen h = zlen bs /\
  u32 (zlen bs - LENGTH_BEFORE_SUM_RANGE) mod 8 = 0 /\
  phy_checkSum h =
    xor_words (Z.to_nat (u32 (zlen bs - LENGTH_BEFORE_SUM_RANGE) / 8)) (drop 16 bs) 0.
Proof.
  unfold ParseCommPhyHeaderCheckField, CalculateXorSum.
  change (Z.to_nat LENGTH_BEFORE_SUM_RANGE) with 16%nat.
  destruct (Z.eqb_spec (phy_sourceId h) (HashFunc src)); [|discriminate].
  destruct (Z.eqb_spec (phy_packetLen h) (zlen bs)); [|discriminate].
  destruct (Z.ltb_spec MAX_PADDING_LEN (phy_paddingLen h)); [discriminate|].
  destruct (Z.ltb_spec (phy_packetLen h) (sizeof_CommPhyHeader + phy_paddingLen h));
    [discriminate|].
  destruct (Z.eqb_spec (u32 (zlen bs - LENGTH_BEFORE_SUM_RANGE) mod 8) 0); [|discriminate].
  cbn [negb].
  destruct (Z.eqb_spec (phy_checkSum h) (xor_words
    (Z.to_nat (u32 (zlen bs - LENGTH_BEFORE_SUM_RANGE) / 8)) (drop 16 bs) 0)); [|discriminate].
  auto.
Qed.

Lemma ParseCommPhyHeader_accepted src bs r r' :
  ParseCommPhyHeader src bs (zlen bs) r = (E_OK, r') -> phy_accepted src bs.
Proof.
  unfold ParseCommPhyHeader.
  destruct (Z.eqb_spec (ParseCommPhyHeaderCheckMagicAndVersion bs (zlen bs)) E_OK) as [Hm|Hm];
    [|intros [=]; contradiction].
  cbn [negb]. destruct (Z.ltb_spec (zlen bs) sizeof_CommPhyHeader); [intros [=]|].
  set (h := phy_ConvertNetToHost (load_phy bs)).
  destruct (Z.eqb_spec (ParseCommPhyHeaderCheckField src h bs (zlen bs)) E_OK) as [Hf|Hf];
    [|intros [=]; contradiction].
  intros _. apply CheckMagic_ok in Hm as [? ?]. apply CheckField_ok in Hf as (? & ? & ? & ?).
  destruct (load_phy_fields bs) as (_ & _ & E1 & E2 & E3);
    [unfold sizeof_CommPhyHeader in *; lia|].
  fold h in E1, E2, E3. constructor; auto; congruence.
Qed.

(** * Corruption *)

Lemma CheckAndParsePacket_phy src bs len r r' :
  CheckAndParsePacket src (Some bs) len r = (E_OK, r') ->
  exists r1, ParseCommPhyHeader src bs len r = (E_OK, r1).
Proof.
  unfold CheckAndParsePacket. destruct (Z.ltb_spec MAX_TOTAL_LEN len); [intros [=]|].
  destruct (ParseCommPhyHeader src bs len r) as [e r1].
  destruct (Z.eqb_spec e E_OK) as [->|]; [eauto|intros [=]; contradiction].
Qed.

(** Two accepted packets that agree outside one aligned word are equal. *)
Lemma accepted_word_unique src n a w w' c :
  phy_accepted src (a ++ w ++ c) -> phy_accepted src (a ++ w' ++ c) ->
  length a = (8 * n)%nat -> length w = 8%nat -> length w' = 8%nat ->
  zlen (a ++ w ++ c) <= MAX_TOTAL_LEN -> w = w'.
Proof.
  intros P P' Ha Hw Hw' Hmax. destruct P, P'.
  assert (Hz : zlen (a ++ w' ++ c) = zlen (a ++ w ++ c))
    by (unfold zlen; rewrite !length_app; lia).
  rewrite Hz in *. clear Hz.
  set (count := Z.to_nat (u32 (zlen (a ++ w ++ c) - LENGTH_BEFORE_SUM_RANGE) / 8)) in *.
  assert (Hcount : (8 * count + 16)%nat = length (a ++ w ++ c)).
  { subst count. unfold LENGTH_BEFORE_SUM_RANGE, sizeof_CommPhyHeader, MAX_TOTAL_LEN, zlen in *.
    rewrite wrap_small in * by lia. lia. }
  rewrite !length_app in Hcount.
  destruct n as [|[|n]].
  - (* magic, version and packet length *)
    destruct a; [|discriminate]. cbn [app] in *.
    assert (Hs : forall off len (x : list byte), length x = 8%nat -> 0 <= off -> off + len <= 8 ->
      slice off len (x ++ c) = slice off len x)
      by (intros; apply slice_app_l; unfold zlen; lia).
    rewrite !Hs in * by lia.
    rewrite <- (slice_all w), <- (slice_all w').
    unfold zlen. rewrite Hw, Hw'. change (Z.of_nat 8) with (2 + (2 + 4)).
    rewrite !slice_split by lia. change (0 + 2) with 2. change (2 + 2) with 4.
    assert (Hl : forall off len (x : list byte), length x = 8%nat -> 0 <= off -> 0 <= len ->
      off + len <= 8 -> length (slice off len x) = Z.to_nat len)
      by (intros; apply length_slice; unfold zlen; lia).
    f_equal; [|f_equal]; apply be_val_inj; rewrite ?Hl by lia; congruence || lia.
  - (* the check sum itself *)
    assert (Hs : forall (x : list byte), length x = 8%nat -> slice 8 8 (a ++ x ++ c) = x).
    { intros x Hx. rewrite slice_app_r by (unfold zlen; lia).
      replace (8 - zlen a) with 0 by (unfold zlen; lia).
      rewrite slice_app_l by (unfold zlen; lia).
      replace 8 with (zlen x) by (unfold zlen; lia). apply slice_all. }
    rewrite !Hs in * by assumption. apply be_val_inj; [congruence|].
    rewrite pa_sum0, pa_sum1. f_equal.
    rewrite !(drop_app_ge a) by lia. rewrite !drop_app_length' by lia. reflexivity.
  - (* the summed range *)
    assert (Hs : forall (x : list byte), slice 8 8 (a ++ x ++ c) = slice 8 8 a)
      by (intros; apply slice_app_l; unfold zlen; lia).
    rewrite !Hs, !(drop_app_le a) in * by lia. rewrite pa_sum0 in pa_sum1.
    replace count with (n + S (count - n - 1))%nat in pa_sum1 by lia.
    eapply xor_words_change; [| | |exact pa_sum1]; rewrite ?length_drop; lia.
Qed.

(** * The header that [SetPhyHeader] and [FillFragmentPacket] produce *)

Definition set_checkSum (h : CommPhyHeader) (s : Z) : CommPhyHeader :=
  mkCommPhyHeader (phy_magic h) (phy_version h) (phy_packetLen h) s (phy_sourceId h)
    (phy_frameId h) (phy_packetType h) (phy_paddingLen h) (phy_dbIntVer h).

(** Writing the check sum field in place is the same as writing the header with
    that check sum. *)
Lemma splice_checkSum h s rest :
  splice 8 (store_int 8 (HostToNet 8 s)) (store_phy (phy_ConvertHostToNet h) ++ rest) =
  store_phy (phy_ConvertHostToNet (set_checkSum h s)) ++ rest.
Proof.
  unfold store_phy, phy_fields, phy_ConvertHostToNet, set_checkSum. cbn [store_fields
    phy_magic phy_version phy_packetLen phy_checkSum phy_sourceId phy_frameId phy_packetType
    phy_paddingLen phy_dbIntVer].
  rewrite !app_assoc. rewrite <- !(app_assoc _ (store_int 8 (HostToNet 8 _))).
  rewrite <- !app_assoc. rewrite !(app_assoc (store_int 2 _)).
  rewrite !(app_assoc _ (store_int 4 (HostToNet 4 (phy_packetLen h)))).
  apply splice_mid.
  - unfold zlen. rewrite !length_app, !length_store_int. reflexivity.
  - unfold zlen. rewrite !length_store_int. reflexivity.
Qed.

Lemma drop16_store_phy h s rest :
  drop 16 (store_phy (phy_ConvertHostToNet (set_checkSum h s)) ++ rest) =
  drop 16 (store_phy (phy_ConvertHostToNet h) ++ rest).
Proof.
  unfold store_phy, phy_fields, phy_ConvertHostToNet, set_checkSum. cbn [store_fields
    phy_magic phy_version phy_packetLen phy_checkSum phy_sourceId phy_frameId phy_packetType
    phy_paddingLen phy_dbIntVer].
  rewrite !app_assoc. rewrite <- !(app_assoc _ (store_int 8 (HostToNet 8 (phy_sourceId h)))).
  rewrite <- !app_assoc.
  rewrite !(app_assoc (store_int 2 _)), !(app_assoc _ (store_int 4 (HostToNet 4 (phy_packetLen h)))).
  rewrite !(app_assoc _ (store_int 8 (HostToNet 8 s))).
  rewrite !(app_assoc _ (store_int 8 (HostToNet 8 (phy_checkSum h)))).
  rewrite !drop_app_length' by (rewrite !length_app, !length_store_int; reflexivity).
  reflexivity.
Qed.

(** What a packet must be to pass [ParseCommPhyHeader], and what the parser
    then reports: stated on the header in host order. *)
Record phy_valid (src : cstring) (h : CommPhyHeader) (rest : list byte) : Prop := {
  pv_ok : phy_ok h;
  pv_magic : phy_magic h = MAGIC_CODE;
  pv_version : phy_version h = PROTOCOL_VERSION;
  pv_source : phy_sourceId h = HashFunc src;
  pv_len : phy_packetLen h = sizeof_CommPhyHeader + zlen rest;
  pv_max : phy_packetLen h <= MAX_TOTAL_LEN;
  pv_align : phy_packetLen h mod 8 = 0;
  pv_pad : phy_paddingLen h <= MAX_PADDING_LEN;
  pv_fit : phy_paddingLen h <= zlen rest;
  pv_sum : phy_checkSum h =
    xor_words (Z.to_nat ((phy_packetLen h - 16) / 8))
      (drop 16 (store_phy (phy_ConvertHostToNet h) ++ rest)) 0
}.

Lemma ParseCommPhyHeader_valid src h rest r :
  phy_valid src h rest -> GetFrameType (phy_packetType h) <> INVALID_MAX_FRAME_TYPE ->
  let bs := store_phy (phy_ConvertHostToNet h) ++ rest in
  ParseCommPhyHeader src bs (zlen bs) r =
    (E_OK, SetFrameTypeInfo
       (set_phy_info r (phy_frameId h) (phy_sourceId h) (phy_packetLen h) (phy_paddingLen h)
          (phy_dbIntVer h)
          (negb (Z.land (phy_packetType h) PACKET_TYPE_FRAGMENTED =? 0) || isFragment_ r))
       (GetFrameType (phy_packetType h))).
Proof.
  intros [] Hft. cbv zeta. unfold sizeof_CommPhyHeader, MAX_TOTAL_LEN, MAX_PADDING_LEN in *.
  set (bs := store_phy (phy_ConvertHostToNet h) ++ rest) in *.
  assert (Hz : zlen bs = phy_packetLen h)
    by (unfold bs; rewrite zlen_app, zlen_store_phy; lia).
  assert (Hload : phy_ConvertNetToHost (load_phy bs) = h).
  { unfold bs. rewrite load_store_phy by (apply phy_convert_ok; assumption).
    apply phy_convert_involutive. assumption. }
  pose proof (zlen_nonneg rest).
  destruct (load_phy_fields bs) as (E1 & E2 & _); [lia|]. rewrite Hload in E1, E2.
  unfold ParseCommPhyHeader.
  assert (Hm : ParseCommPhyHeaderCheckMagicAndVersion bs (zlen bs) = E_OK).
  { unfold ParseCommPhyHeaderCheckMagicAndVersion.
    destruct (Z.ltb_spec (zlen bs) (2 + 2)); [lia|].
    pose proof (slice_field 2 0 bs) as F1. pose proof (slice_field 2 2 bs) as F2.
    change (Z.of_nat 2) with 2 in F1, F2. rewrite F1, F2 by lia.
    rewrite <- E1, <- E2, pv_magic0, pv_version0. reflexivity. }
  rewrite Hm, Hload. cbn [negb].
  destruct (Z.ltb_spec (zlen bs) sizeof_CommPhyHeader);
    [unfold sizeof_CommPhyHeader in *; lia|].
  assert (Hf : ParseCommPhyHeaderCheckField src h bs (zlen bs) = E_OK).
  { unfold ParseCommPhyHeaderCheckField, CalculateXorSum, LENGTH_BEFORE_SUM_RANGE,
      sizeof_CommPhyHeader, MAX_PADDING_LEN.
    rewrite pv_source0, Z.eqb_refl, Hz, Z.eqb_refl. cbn [negb].
    destruct (Z.ltb_spec 7 (phy_paddingLen h)); [lia|].
    destruct (Z.ltb_spec (phy_packetLen h) (32 + phy_paddingLen h)); [lia|].
    rewrite wrap_small by lia.
    destruct (Z.eqb_spec ((phy_packetLen h - (8 + 8)) mod 8) 0); [|lia]. cbn [negb].
    change (Z.to_nat (8 + 8)) with 16%nat. change (8 + 8) with 16.
    rewrite <- pv_sum0, Z.eqb_refl. reflexivity. }
  rewrite Hf. cbn [negb Z.eqb E_OK].
  destruct (decide (GetFrameType (phy_packetType h) = INVALID_MAX_FRAME_TYPE)); [contradiction|].
  reflexivity.
Qed.

End Facts.
