(* ===== verification/ProtoRoundtrip.v ===== *)
(** Sender against receiver: what [SetPhyHeader] writes is what
    [CheckAndParsePacket] reads, for every kind of frame the communicator sends. *)

From S2P Require Import Prelude Memory SerialBuffer FrameHeader CommTypes ProtocolProto ProtoFacts.
From Stdlib Require Import ZArith Lia.
From Stdlib Require Import Strings.Byte.
From stdpp Require Import base numbers list gmap.

Open Scope Z_scope.

Section Roundtrip.
Context `{Host} `{Heap}.

Definition info_ok (info : PhyHeaderInfo) : Prop :=
  0 <= info_sourceId info < 2 ^ 64 /\ 0 <= info_frameId info < 2 ^ 32 /\
  info_frameType info <> INVALID_MAX_FRAME_TYPE.

Lemma SetFrameType_range t : 0 <= SetFrameType PACKET_TYPE_NOT_FRAGMENTED t < 256.
Proof. destruct t; vm_compute; split; congruence. Qed.

Lemma GetFrameType_SetFrameType t :
  t <> INVALID_MAX_FRAME_TYPE -> GetFrameType (SetFrameType PACKET_TYPE_NOT_FRAGMENTED t) = t.
Proof. destruct t; intros; [reflexivity..|congruence]. Qed.

Lemma build_phy_ok info len pad :
  info_ok info -> 0 <= len < 2 ^ 32 -> phy_ok (build_phy info len pad).
Proof.
  intros (Hs & Hf & _) Hl. unfold phy_ok, phy_fields, build_phy, FillPhyHeaderLenInfo. cbn.
  pose proof (SetFrameType_range (info_frameType info)).
  pose proof (wrap_range 8 pad ltac:(lia)). unfold MAGIC_CODE, PROTOCOL_VERSION, DB_GLOBAL_VERSION,
    SOFTWARE_VERSION_CURRENT, SOFTWARE_VERSION_EARLIEST.
  rewrite !Forall_cons, Forall_nil. unfold field_ok. rewrite Z.lor_0_l. cbn [fst snd]. repeat split; lia.
Qed.

Lemma set_checkSum_ok h s : phy_ok h -> 0 <= s < 2 ^ 64 -> phy_ok (set_checkSum h s).
Proof.
  unfold phy_ok, phy_fields. intros Hok Hs. cbn.
  rewrite !Forall_cons in *. unfold field_ok in *. cbn [fst snd] in *.
  intuition (try lia).
Qed.

(** The header with the check sum over everything that follows it. *)
Definition seal_phy (h : CommPhyHeader) (rest : list byte) : CommPhyHeader :=
  set_checkSum h (xor_words (Z.to_nat ((phy_packetLen h - 16) / 8))
    (drop 16 (store_phy (phy_ConvertHostToNet h) ++ rest)) 0).

Lemma seal_valid src h rest :
  phy_ok h -> phy_magic h = MAGIC_CODE -> phy_version h = PROTOCOL_VERSION ->
  phy_sourceId h = HashFunc src -> phy_packetLen h = 32 + zlen rest ->
  phy_packetLen h <= MAX_TOTAL_LEN -> phy_packetLen h mod 8 = 0 ->
  phy_paddingLen h <= MAX_PADDING_LEN -> phy_paddingLen h <= zlen rest ->
  phy_valid src (seal_phy h rest) rest.
Proof.
  intros. unfold seal_phy. constructor; auto.
  - apply set_checkSum_ok; [assumption|]. apply xor_words_range. lia.
  - cbn [phy_packetLen set_checkSum phy_checkSum]. rewrite drop16_store_phy. reflexivity.
Qed.

(** Everything [SetPhyHeader] does to the buffer. *)
Lemma SetPhyHeader_ok b mem p info :
  owned_wf b mem p -> sizeof_CommPhyHeader <= headerLen_ b -> totalLen_ b mod 8 = 0 ->
  info_ok info ->
  let rest := slice (p + 32) (totalLen_ b - 32) mem in
  let h := seal_phy (build_phy info (totalLen_ b) (paddingLen_ b)) rest in
  exists mem', SetPhyHeader (Some b) info = (E_OK, Some (set_memory b mem')) /\
    owned_wf (set_memory b mem') mem' p /\
    slice p (totalLen_ b) mem' = store_phy (phy_ConvertHostToNet h) ++ rest /\
    slice 0 p mem' = slice 0 p mem.
Proof.
  intros Hwf Hh Hal Hi. cbv zeta. pose proof Hwf as [].
  unfold sizeof_CommPhyHeader, MAX_TOTAL_LEN in *.
  set (h0 := build_phy info (totalLen_ b) (paddingLen_ b)).
  set (rest := slice (p + 32) (totalLen_ b - 32) mem).
  assert (Hrest : zlen rest = totalLen_ b - 32) by (apply zlen_slice; lia).
  set (hdr0 := store_phy (phy_ConvertHostToNet h0)).
  assert (HzH : zlen hdr0 = 32) by apply zlen_store_phy.
  set (mem1 := splice p hdr0 mem).
  assert (Hz1 : zlen mem1 = zlen mem) by (apply zlen_splice; lia).
  assert (Hs1 : slice p (totalLen_ b) mem1 = hdr0 ++ rest).
  { unfold mem1. rewrite slice_splice_inside, Z.sub_diag by lia.
    rewrite splice_head by (rewrite zlen_slice; lia).
    rewrite HzH, zlen_slice, slice_slice by lia. reflexivity. }
  assert (Hwf1 : owned_wf (set_memory b mem1) mem1 p) by (apply (set_memory_wf _ mem); auto).
  unfold SetPhyHeader, GetWritableBytesForHeader, write_region. rewrite owf_ptr.
  unfold GetReadOnlyBytesForEntireBuffer, GetReadOnlyBytesForEntireFrame.
  rewrite !(read_region_owned _ _ _ _ _ Hwf).
  rewrite (frame_len_owned _ _ _ Hwf).
  destruct (Z.ltb_spec (headerLen_ b) sizeof_CommPhyHeader) as [Hbad|_];
    [unfold sizeof_CommPhyHeader in Hbad; lia|].
  destruct (decide (info_frameType info = INVALID_MAX_FRAME_TYPE)) as [Hbad|_];
    [destruct Hi as (_ & _ & Hne); contradiction|].
  replace (totalLen_ b - (headerLen_ b + payloadLen_ b)) with (paddingLen_ b) by lia.
  fold h0. unfold copy_at. rewrite owf_mem. replace (p + 0) with p by lia.
  fold hdr0. rewrite memcpy_s_ok by (unfold SECUREC_MEM_MAX_LEN; lia).
  cbn [fmap option_fmap option_map]. fold mem1.
  change (totalLen_ (set_memory b mem1)) with (totalLen_ b).
  rewrite (read_region_owned _ _ _ _ _ Hwf1). cbn [fst].
  replace (p + 0) with p by lia. rewrite Hs1.
  unfold CalculateXorSum, LENGTH_BEFORE_SUM_RANGE. change (Z.to_nat (8 + 8)) with 16%nat.
  rewrite wrap_small by lia.
  destruct (Z.eqb_spec ((totalLen_ b - (8 + 8)) mod 8) 0) as [_|Hbad]; [|lia]. cbn [negb].
  set (s := xor_words _ _ 0).
  unfold write_at. cbn [oringinalBytes_ set_memory].
  set (cs := store_int 8 (HostToNet 8 s)).
  assert (Hcs : zlen cs = 8) by (unfold cs, zlen; rewrite length_store_int; lia).
  exists (splice (p + 8) cs mem1). split; [reflexivity|].
  assert (Hz2 : zlen (splice (p + 8) cs mem1) = zlen mem) by (rewrite zlen_splice; lia).
  split; [apply (set_memory_wf _ mem); auto|]. split.
  - rewrite slice_splice_inside by lia. rewrite Hs1.
    replace (p + 8 - p) with 8 by lia. unfold cs, hdr0. rewrite splice_checkSum. reflexivity.
  - rewrite slice_splice_disjoint by lia. apply slice_splice_disjoint; lia.
Qed.

(** The packet an owned, aligned buffer becomes on the wire passes the physical
    checks of the receiver that knows the sender as [src]. *)
Lemma SetPhyHeader_valid b mem p info src :
  owned_wf b mem p -> 32 <= headerLen_ b -> totalLen_ b mod 8 = 0 -> info_ok info ->
  info_sourceId info = HashFunc src ->
  let rest := slice (p + 32) (totalLen_ b - 32) mem in
  phy_valid src (seal_phy (build_phy info (totalLen_ b) (paddingLen_ b)) rest) rest.
Proof.
  intros Hwf Hh Hal Hi Hs. cbv zeta. pose proof Hwf as []. unfold MAX_TOTAL_LEN in *.
  assert (Hrest : zlen (slice (p + 32) (totalLen_ b - 32) mem) = totalLen_ b - 32)
    by (apply zlen_slice; lia).
  apply seal_valid; cbn; try reflexivity; unfold MAX_TOTAL_LEN, MAX_PADDING_LEN;
    rewrite ?(wrap_small 8) by lia; try lia; auto.
  apply build_phy_ok; [assumption|lia].
Qed.

(** * Communication layer frames *)

Lemma zlen_net_words vs : zlen (net_words vs) = 8 * Z.of_nat (length vs).
Proof.
  induction vs as [|v vs IH]; [reflexivity|].
  change (net_words (v :: vs)) with (store_int 8 (HostToNet 8 v) ++ net_words vs).
  rewrite zlen_app, IH. unfold zlen. rewrite length_store_int. simpl length. lia.
Qed.

Lemma slice_net_words vs (i : nat) v rest :
  vs !! i = Some v ->
  slice (8 * Z.of_nat i) 8 (net_words vs ++ rest) = store_int 8 (HostToNet 8 v).
Proof.
  revert i; induction vs as [|v0 vs IH]; intros [|i] Hi; simplify_eq/=.
  - change (net_words (v :: vs)) with (store_int 8 (HostToNet 8 v) ++ net_words vs).
    rewrite <- app_assoc, slice_app_l by (unfold zlen; rewrite ?length_store_int; lia).
    rewrite <- (slice_all (store_int 8 (HostToNet 8 v))) at 2.
    unfold zlen. rewrite length_store_int. reflexivity.
  - change (net_words (v0 :: vs)) with (store_int 8 (HostToNet 8 v0) ++ net_words vs).
    assert (Hz : zlen (store_int 8 (HostToNet 8 v0)) = 8)
      by (unfold zlen; rewrite length_store_int; lia).
    rewrite <- app_assoc, slice_app_r, Hz by lia.
    replace (8 * Z.of_nat (S i) - 8) with (8 * Z.of_nat i) by lia. apply IH. exact Hi.
Qed.

Lemma net_word_at_ok hdr vs rest (i : nat) v :
  zlen hdr = 32 -> vs !! i = Some v -> 0 <= v < 2 ^ 64 ->
  net_word_at (hdr ++ net_words vs ++ rest) (Z.of_nat i) = v.
Proof.
  intros Hh Hi Hv. unfold net_word_at, sizeof_CommPhyHeader.
  rewrite slice_app_r, Hh by lia. replace (32 + 8 * Z.of_nat i - 32) with (8 * Z.of_nat i) by lia.
  rewrite (slice_net_words _ _ _ _ Hi), store_HostToNet.
  rewrite NetToHost_load by apply length_be_bytes.
  rewrite be_val_be_bytes. apply Z.mod_small. exact Hv.
Qed.

Lemma read_labels_concat ls rest acc :
  Forall (fun l : LabelType => zlen l = COMM_LABEL_LENGTH) ls ->
  read_labels (length ls) (concat ls ++ rest) acc = list_to_set ls ∪ acc.
Proof.
  intros Hf. revert acc. induction Hf as [|l ls Hl _ IH]; intros acc; simpl.
  - set_solver.
  - rewrite <- app_assoc.
    assert (Hn : Z.to_nat COMM_LABEL_LENGTH = length l) by (unfold zlen in Hl; lia).
    rewrite Hn, take_app_length, drop_app_length, IH. set_solver.
Qed.

(** A payload written into a freshly allocated frame: what follows the header is the
    payload and the padding. *)
Lemma alloc_and_write header content mem :
  0 <= header -> 0 < header + zlen content -> zlen content + header + 7 <= MAX_TOTAL_LEN ->
  heap_new (byte8_align 32 (zlen content + header) + 0) = Some mem ->
  exists b b', AllocBufferByPayloadLength emptySerialBuffer (zlen content) header = (E_OK, b) /\
    GetWritableBytesForPayload b = (Some header, zlen content) /\
    b' = write_at b header content /\
    owned_wf b' (splice header content mem) 0 /\ headerLen_ b' = header /\
    totalLen_ b' mod 8 = 0 /\ extendHeadLen_ b' = 0 /\
    exists pad, zlen pad = paddingLen_ b' /\
      slice header (totalLen_ b' - header) (splice header content mem) = content ++ pad.
Proof.
  intros Hh Hpos Hmax Hnew. pose proof (zlen_nonneg content).
  destruct (alloc_payload_ok 0 (zlen content) header mem) as (b & Ha & Hwf & E1 & E2 & E3 & E4 & E5);
    [try (unfold MAX_EXTEND_HEAD_LENGTH; lia); auto..|].
  pose proof Hwf as [].
  exists b, (write_at b header content). split; [exact Ha|].
  assert (Hw : write_at b header content = set_memory b (splice header content mem))
    by (unfold write_at; rewrite owf_mem; reflexivity).
  assert (Hz : zlen (splice header content mem) = zlen mem) by (apply zlen_splice; lia).
  split; [|split; [reflexivity|]].
  { unfold GetWritableBytesForPayload, write_region. rewrite owf_ptr, E1, E2. reflexivity. }
  rewrite Hw. split; [apply (set_memory_wf _ mem); auto|].
  split; [exact E1|]. split; [exact E5|]. split; [exact E3|].
  cbn [totalLen_ paddingLen_ set_memory].
  exists (slice (header + zlen content) (paddingLen_ b) mem).
  split; [apply zlen_slice; lia|].
  rewrite slice_splice_inside, Z.sub_diag by lia.
  rewrite splice_head by (rewrite zlen_slice; lia).
  f_equal. rewrite zlen_slice, slice_slice by lia. f_equal; lia.
Qed.

Definition all_labels_ok (labels : gset LabelType) : Prop :=
  set_Forall (fun l : LabelType => zlen l = COMM_LABEL_LENGTH) labels.

Lemma zlen_concat_labels ls :
  Forall (fun l : LabelType => zlen l = COMM_LABEL_LENGTH) ls ->
  zlen (concat ls) = Z.of_nat (length ls) * COMM_LABEL_LENGTH.
Proof.
  induction 1 as [|l ls Hl _ IH]; [reflexivity|]. simpl. rewrite zlen_app, Hl, IH. lia.
Qed.

Lemma labels_in_order_ok labels :
  all_labels_ok labels ->
  Forall (fun l : LabelType => zlen l = COMM_LABEL_LENGTH) (set_in_order labels) /\
  length (set_in_order labels) = size labels /\ list_to_set (set_in_order labels) = labels.
Proof.
  intros Hl. repeat split.
  - apply Forall_forall. intros l Hin. apply Hl. by apply elem_of_set_in_order.
  - rewrite set_in_order_perm. reflexivity.
  - apply set_eq. intros x. rewrite elem_of_list_to_set. apply elem_of_set_in_order.
Qed.

(** The label exchange payload, parsed: [hdr] is any physical header. *)
Lemma ParseLabelExchange_ok hdr d s labels pad r :
  zlen hdr = 32 -> 0 <= d < 2 ^ 64 -> 0 <= s < 2 ^ 64 -> all_labels_ok labels ->
  Z.of_nat (size labels) * 32 <= MAX_TOTAL_LEN ->
  let bs := hdr ++ (net_words [PROTOCOL_VERSION; d; s; Z.of_nat (size labels)]
                    ++ concat (set_in_order labels)) ++ pad in
  ParseLabelExchange bs (zlen bs) r = (E_OK, SetLatestCommLabels (set_exchange_info r d s) labels).
Proof.
  intros Hh Hd Hs Hl Hmax. cbv zeta. rewrite <- app_assoc.
  destruct (labels_in_order_ok labels Hl) as (Hf & Hlen & Hset).
  set (n := Z.of_nat (size labels)) in *. set (ws := net_words [PROTOCOL_VERSION; d; s; n]).
  set (body := concat (set_in_order labels)).
  assert (Hws : zlen ws = 32) by apply zlen_net_words.
  assert (Hbody : zlen body = n * 32)
    by (unfold body; rewrite zlen_concat_labels, Hlen by exact Hf; reflexivity).
  set (bs := hdr ++ ws ++ body ++ pad).
  assert (Hz : zlen bs = 64 + n * 32 + zlen pad)
    by (unfold bs; rewrite !zlen_app, Hh, Hws, Hbody; lia).
  pose proof (zlen_nonneg pad). unfold MAX_TOTAL_LEN in *.
  assert (W : forall i v, [PROTOCOL_VERSION; d; s; n] !! i = Some v -> 0 <= v < 2 ^ 64 ->
    net_word_at bs (Z.of_nat i) = v) by (intros; apply net_word_at_ok; auto).
  pose proof (W 0%nat _ eq_refl ltac:(unfold PROTOCOL_VERSION; lia)) as W0.
  pose proof (W 1%nat _ eq_refl Hd) as W1. pose proof (W 2%nat _ eq_refl Hs) as W2.
  pose proof (W 3%nat _ eq_refl ltac:(lia)) as W3.
  change (Z.of_nat 0) with 0 in W0. change (Z.of_nat 1) with 1 in W1.
  change (Z.of_nat 2) with 2 in W2. change (Z.of_nat 3) with 3 in W3.
  unfold ParseLabelExchange, sizeof_CommPhyHeader, LABEL_VER_LEN, DISTINCT_VALUE_LEN,
    SEQUENCE_ID_LEN, COMM_LABEL_COUNT_LEN, COMM_LABEL_LENGTH.
  rewrite W0, W1, W2, W3, Hz. rewrite Z.eqb_refl. cbn [negb].
  rewrite (wrap_small 64) by lia.
  destruct (Z.ltb_spec (64 + n * 32 + zlen pad) (32 + 8)); [lia|].
  destruct (Z.ltb_spec (64 + n * 32 + zlen pad) (32 + 8 + 8 + 8 + 8)); [lia|].
  destruct (Z.ltb_spec (64 + n * 32 + zlen pad) n); [lia|].
  destruct (Z.ltb_spec (UINT32_MAX / 32) n) as [Hbad|_];
    [change (UINT32_MAX / 32) with 134217727 in Hbad; lia|].
  cbn [orb]. destruct (Z.ltb_spec (64 + n * 32 + zlen pad) (32 + 8 + 8 + 8 + 8 + n * 32)); [lia|].
  do 2 f_equal. change (Z.to_nat (32 + 8 + 8 + 8 + 8)) with 64%nat.
  unfold bs. rewrite (app_assoc hdr), drop_app_length'
    by (rewrite length_app; unfold zlen in Hh, Hws; lia).
  replace (Z.to_nat n) with (length (set_in_order labels)) by (rewrite Hlen; lia).
  unfold body. rewrite read_labels_concat, Hset by exact Hf. set_solver.
Qed.

Lemma ParseLabelExchangeAck_ok hdr d s pad r :
  zlen hdr = 32 -> 0 <= d < 2 ^ 64 -> 0 <= s < 2 ^ 64 ->
  let bs := hdr ++ net_words [PROTOCOL_VERSION; d; s] ++ pad in
  ParseLabelExchangeAck bs (zlen bs) r = (E_OK, set_exchange_info r d s).
Proof.
  intros Hh Hd Hs. cbv zeta.
  set (bs := hdr ++ net_words [PROTOCOL_VERSION; d; s] ++ pad).
  assert (Hz : zlen bs = 56 + zlen pad)
    by (unfold bs; rewrite !zlen_app, Hh, zlen_net_words; cbn [length]; lia).
  pose proof (zlen_nonneg pad).
  assert (W : forall i v, [PROTOCOL_VERSION; d; s] !! i = Some v -> 0 <= v < 2 ^ 64 ->
    net_word_at bs (Z.of_nat i) = v) by (intros; apply net_word_at_ok; auto).
  pose proof (W 0%nat _ eq_refl ltac:(unfold PROTOCOL_VERSION; lia)) as W0.
  pose proof (W 1%nat _ eq_refl Hd) as W1. pose proof (W 2%nat _ eq_refl Hs) as W2.
  change (Z.of_nat 0) with 0 in W0. change (Z.of_nat 1) with 1 in W1.
  change (Z.of_nat 2) with 2 in W2.
  unfold ParseLabelExchangeAck, sizeof_CommPhyHeader, LABEL_VER_LEN, DISTINCT_VALUE_LEN,
    SEQUENCE_ID_LEN.
  rewrite W0, W1, W2, Hz. rewrite Z.eqb_refl. cbn [negb].
  destruct (Z.ltb_spec (56 + zlen pad) (32 + 8)); [lia|].
  destruct (Z.ltb_spec (56 + zlen pad) (32 + 8 + 8 + 8)); [lia|]. reflexivity.
Qed.

(** The parse result after the physical header of an unfragmented packet. *)
Definition phy_result (info : PhyHeaderInfo) (packetLen paddingLen : Z) : ParseResult :=
  SetFrameTypeInfo
    (set_phy_info emptyParseResult (info_frameId info) (info_sourceId info) packetLen paddingLen
       DB_GLOBAL_VERSION false) (info_frameType info).

(** From a buffer on the sending side to the part of [CheckAndParsePacket] that is
    specific to the frame type. *)
Lemma sent_packet b mem p info src :
  owned_wf b mem p -> 32 <= headerLen_ b -> totalLen_ b mod 8 = 0 -> info_ok info ->
  info_sourceId info = HashFunc src -> info_frameType info <> EMPTY ->
  exists b' hdr, let bytes := hdr ++ slice (p + 32) (totalLen_ b - 32) mem in
    SetPhyHeader (Some b) info = (E_OK, Some b') /\ zlen hdr = 32 /\
    GetReadOnlyBytesForEntireBuffer b' = (Some bytes, zlen bytes) /\
    CheckAndParsePacket src (Some bytes) (zlen bytes) emptyParseResult =
      (if decide (info_frameType info = APPLICATION_MESSAGE) then ParseCommDivergeHeader
       else ParseCommLayerPayload) bytes (zlen bytes)
        (phy_result info (totalLen_ b) (paddingLen_ b)).
Proof.
  intros Hwf Hh Hal Hi Hs Hne.
  destruct (SetPhyHeader_ok b mem p info Hwf Hh Hal Hi) as (mem' & Hset & Hwf' & Hsl & _).
  pose proof (SetPhyHeader_valid b mem p info src Hwf Hh Hal Hi Hs) as Hv.
  cbv zeta in *. pose proof Hwf as []. unfold MAX_TOTAL_LEN in *.
  set (rest := slice (p + 32) (totalLen_ b - 32) mem) in *.
  set (h := seal_phy (build_phy info (totalLen_ b) (paddingLen_ b)) rest) in *.
  exists (set_memory b mem'), (store_phy (phy_ConvertHostToNet h)).
  split; [exact Hset|]. split; [apply zlen_store_phy|].
  assert (Hz : zlen (store_phy (phy_ConvertHostToNet h) ++ rest) = totalLen_ b)
    by (rewrite zlen_app, zlen_store_phy; unfold rest; rewrite zlen_slice; lia).
  split.
  { unfold GetReadOnlyBytesForEntireBuffer. rewrite (read_region_owned _ _ _ _ _ Hwf').
    replace (p + 0) with p by lia. rewrite Hz. rewrite <- Hsl. reflexivity. }
  unfold CheckAndParsePacket. destruct (Z.ltb_spec MAX_TOTAL_LEN
    (zlen (store_phy (phy_ConvertHostToNet h) ++ rest))); [unfold MAX_TOTAL_LEN in *; lia|].
  destruct Hi as (Hi1 & Hi2 & Hi3).
  assert (Hft : GetFrameType (phy_packetType h) = info_frameType info)
    by (apply GetFrameType_SetFrameType; exact Hi3).
  rewrite (ParseCommPhyHeader_valid src h rest) by (rewrite ?Hft; assumption).
  rewrite Hft. cbn [negb Z.eqb E_OK].
  assert (Hfrag : Z.land (phy_packetType h) PACKET_TYPE_FRAGMENTED = 0).
  { change (phy_packetType h) with
      (Z.lor 0 (SetFrameType PACKET_TYPE_NOT_FRAGMENTED (info_frameType info))).
    destruct (info_frameType info); reflexivity || congruence. }
  rewrite Hfrag. cbn [Z.eqb negb orb isFragment_ emptyParseResult frameType_ SetFrameTypeInfo].
  destruct (decide (info_frameType info = EMPTY)); [contradiction|].
  assert (Hr : SetFrameTypeInfo (set_phy_info emptyParseResult (phy_frameId h) (phy_sourceId h)
      (phy_packetLen h) (phy_paddingLen h) (phy_dbIntVer h) false) (info_frameType info)
    = phy_result info (totalLen_ b) (paddingLen_ b)).
  { unfold phy_result, h, seal_phy, build_phy. cbn. rewrite !(wrap_small 8) by lia. reflexivity. }
  rewrite Hr. cbn [isFragment_ set_phy_info SetFrameTypeInfo].
  destruct (decide (info_frameType info = APPLICATION_MESSAGE)); reflexivity.
Qed.

(** A label exchange can always be built when memory and size allow, and its buffer
    holds the four fields and the labels in order behind the header. *)
Lemma BuildLabelExchange_ok d s labels :
  heap_total -> all_labels_ok labels -> Z.of_nat (size labels) * 32 + 71 <= MAX_TOTAL_LEN ->
  exists b mem pad,
    BuildLabelExchange d s labels = (E_OK, Some b) /\ owned_wf b mem 0 /\
    headerLen_ b = 32 /\ totalLen_ b mod 8 = 0 /\ extendHeadLen_ b = 0 /\
    slice 32 (totalLen_ b - 32) mem =
      (net_words [PROTOCOL_VERSION; d; s; Z.of_nat (size labels)]
       ++ concat (set_in_order labels)) ++ pad.
Proof.
  intros [Hobj Hnew] Hl Hmax. unfold MAX_TOTAL_LEN in *.
  destruct (labels_in_order_ok labels Hl) as (Hfo & Hlen & _).
  set (content := net_words [PROTOCOL_VERSION; d; s; Z.of_nat (size labels)]
                  ++ concat (set_in_order labels)).
  assert (Hc : zlen content = 32 + Z.of_nat (size labels) * 32).
  { unfold content. rewrite zlen_app, zlen_net_words, zlen_concat_labels, Hlen by exact Hfo.
    cbn [length]. unfold COMM_LABEL_LENGTH. lia. }
  destruct (Hnew (byte8_align 32 (zlen content + 32) + 0)) as [mem Hmem];
    [rewrite byte8_align_spec by lia; lia|].
  destruct (alloc_and_write 32 content mem)
    as (b & b' & Ha & Hw & -> & Hwf & Hh & Hal & Hext & pad & _ & Hrest);
    [unfold MAX_TOTAL_LEN; lia || exact Hmem ..|].
  exists (write_at b 32 content), (splice 32 content mem), pad.
  split; [|split; [exact Hwf|split; [exact Hh|split; [exact Hal|split; [exact Hext|exact Hrest]]]]].
  unfold BuildLabelExchange, LABEL_VER_LEN, DISTINCT_VALUE_LEN, SEQUENCE_ID_LEN,
    COMM_LABEL_COUNT_LEN, COMM_LABEL_LENGTH, GetCommLayerFrameHeaderLength, sizeof_CommPhyHeader.
  rewrite Hobj, wrap_small by lia.
  replace (8 + 8 + 8 + 8 + Z.of_nat (size labels) * 32) with (zlen content) by lia.
  rewrite Ha. cbn [negb Z.eqb E_OK]. rewrite Hw. reflexivity.
Qed.

(** A label exchange frame built by [BuildLabelExchange] and sealed by
    [SetPhyHeader] is accepted by [CheckAndParsePacket] of a receiver that knows the
    sender's name, and yields exactly the distinct value, the sequence id and the set
    of labels that were sent, whatever the byte order of the host and the contents of
    the freshly allocated memory. *)
Theorem label_exchange_roundtrip src d s labels frameId :
  heap_total -> 0 <= d < 2 ^ 64 -> 0 <= s < 2 ^ 64 -> 0 <= frameId < 2 ^ 32 ->
  all_labels_ok labels -> Z.of_nat (size labels) * 32 + 71 <= MAX_TOTAL_LEN ->
  exists b b' bytes r,
    BuildLabelExchange d s labels = (E_OK, Some b) /\
    SetPhyHeader (Some b)
      (mkPhyHeaderInfo (HashFunc src) frameId COMMUNICATION_LABEL_EXCHANGE) = (E_OK, Some b') /\
    GetReadOnlyBytesForEntireBuffer b' = (Some bytes, zlen bytes) /\
    CheckAndParsePacket src (Some bytes) (zlen bytes) emptyParseResult = (E_OK, r) /\
    frameType_ r = COMMUNICATION_LABEL_EXCHANGE /\ isFragment_ r = false /\
    frameId_ r = frameId /\ sourceId_ r = HashFunc src /\
    labelExchangeDistinctValue_ r = d /\ labelExchangeSequenceId_ r = s /\
    latestCommLabels_ r = labels.
Proof.
  intros Hheap Hd Hs Hf Hl Hmax.
  destruct (BuildLabelExchange_ok d s labels Hheap Hl Hmax)
    as (b & mem & pad & Hb & Hwf & Hh & Hal & _ & Hrest).
  set (info := mkPhyHeaderInfo (HashFunc src) frameId COMMUNICATION_LABEL_EXCHANGE).
  destruct (sent_packet _ _ _ info src Hwf) as (b' & hdr & Hset & Hhdr & Hread & Hparse);
    [lia|exact Hal| |reflexivity|discriminate|].
  { split; [apply HashFunc_range|]. split; [exact Hf|discriminate]. }
  cbv zeta in Hset, Hread, Hparse. change (0 + 32) with 32 in Hread, Hparse. rewrite Hrest in Hread, Hparse.
  exists b. eexists b', _, _. split; [exact Hb|split; [exact Hset|split; [exact Hread|]]].
  split.
  { rewrite Hparse. apply (ParseLabelExchange_ok hdr d s labels pad); auto.
    unfold MAX_TOTAL_LEN in *. lia. }
  repeat split; reflexivity.
Qed.

(** The acknowledgement of a label exchange, built, sealed and parsed, carries
    the same distinct value and sequence id. *)
Theorem label_exchange_ack_roundtrip src d s frameId :
  heap_total -> 0 <= d < 2 ^ 64 -> 0 <= s < 2 ^ 64 -> 0 <= frameId < 2 ^ 32 ->
  exists b b' bytes r,
    BuildLabelExchangeAck d s = (E_OK, Some b) /\
    SetPhyHeader (Some b)
      (mkPhyHeaderInfo (HashFunc src) frameId COMMUNICATION_LABEL_EXCHANGE_ACK)
      = (E_OK, Some b') /\
    GetReadOnlyBytesForEntireBuffer b' = (Some bytes, zlen bytes) /\
    CheckAndParsePacket src (Some bytes) (zlen bytes) emptyParseResult = (E_OK, r) /\
    frameType_ r = COMMUNICATION_LABEL_EXCHANGE_ACK /\ frameId_ r = frameId /\
    labelExchangeDistinctValue_ r = d /\ labelExchangeSequenceId_ r = s.
Proof.
  intros [Hobj Hnew] Hd Hs Hf.
  set (content := net_words [PROTOCOL_VERSION; d; s]).
  assert (Hc : zlen content = 24) by apply zlen_net_words.
  destruct (Hnew (byte8_align 32 (zlen content + 32) + 0)) as [mem Hmem];
    [rewrite Hc; vm_compute; discriminate|].
  destruct (alloc_and_write 32 content mem) as (b & b' & Ha & Hw & -> & Hwf & Hh & Hal & _ & pad & _ & Hrest);
    [unfold MAX_TOTAL_LEN; lia || exact Hmem ..|].
  set (info := mkPhyHeaderInfo (HashFunc src) frameId COMMUNICATION_LABEL_EXCHANGE_ACK).
  destruct (sent_packet _ _ _ info src Hwf) as (b' & hdr & Hset & Hhdr & Hread & Hparse);
    [lia|exact Hal| |reflexivity|discriminate|].
  { split; [apply HashFunc_range|]. split; [exact Hf|discriminate]. }
  cbv zeta in Hset, Hread, Hparse. change (0 + 32) with 32 in Hread, Hparse. rewrite Hrest in Hread, Hparse.
  eexists (write_at b 32 content), b', _, _. split; [|split; [exact Hset|split; [exact Hread|]]].
  { unfold BuildLabelExchangeAck. rewrite Hobj.
    change (LABEL_VER_LEN + DISTINCT_VALUE_LEN + SEQUENCE_ID_LEN) with 24. rewrite <- Hc.
    change GetCommLayerFrameHeaderLength with 32. rewrite Ha. cbn [negb Z.eqb E_OK].
    rewrite Hw. reflexivity. }
  split.
  { rewrite Hparse. unfold content. apply (ParseLabelExchangeAck_ok hdr d s pad); auto. }
  repeat split; reflexivity.
Qed.

(** C12: Damage confined to one aligned 8-byte word of an accepted packet, wherever
    the word lies, makes the receiver refuse the packet: the magic, version and length
    fields are each checked, and the XOR sum covers the rest. *)
Theorem single_word_corruption_detected src n a w w' c r r' :
  CheckAndParsePacket src (Some (a ++ w ++ c)) (zlen (a ++ w ++ c)) emptyParseResult
    = (E_OK, r) ->
  length a = (8 * n)%nat -> length w = 8%nat -> length w' = 8%nat -> w <> w' ->
  fst (CheckAndParsePacket src (Some (a ++ w' ++ c)) (zlen (a ++ w' ++ c)) r') <> E_OK.
Proof.
  intros Hok Ha Hw Hw' Hne Hbad. apply Hne.
  assert (Hmax : zlen (a ++ w ++ c) <= MAX_TOTAL_LEN).
  { unfold CheckAndParsePacket in Hok. revert Hok.
    destruct (Z.ltb_spec MAX_TOTAL_LEN (zlen (a ++ w ++ c))); [discriminate|auto]. }
  destruct (CheckAndParsePacket src (Some (a ++ w' ++ c)) _ r') as [e r2] eqn:E2.
  cbn [fst] in Hbad. subst e.
  apply CheckAndParsePacket_phy in Hok as [r1 Hok].
  apply CheckAndParsePacket_phy in E2 as [r3 E2].
  apply ParseCommPhyHeader_accepted in Hok, E2.
  eapply accepted_word_unique; eassumption.
Qed.

End Roundtrip.

(** * Witnesses *)

Definition sample_labels : gset LabelType :=
  {[replicate 32 x01; replicate 32 x02; replicate 32 x7f]}.

Lemma sample_labels_ok : all_labels_ok sample_labels.
Proof. intros l Hl. unfold sample_labels in Hl. set_unfold in Hl. destruct Hl as [[->| ->]| ->]; reflexivity. Qed.

Lemma label_exchange_roundtrip_witness :
  exists b b' bytes r,
    @BuildLabelExchange be_host zero_heap 77 5 sample_labels = (E_OK, Some b) /\
    @SetPhyHeader be_host (Some b)
      (mkPhyHeaderInfo (@HashFunc be_host [x61; x62]) 9 COMMUNICATION_LABEL_EXCHANGE)
      = (E_OK, Some b') /\
    GetReadOnlyBytesForEntireBuffer b' = (Some bytes, zlen bytes) /\
    @CheckAndParsePacket be_host [x61; x62] (Some bytes) (zlen bytes) emptyParseResult
      = (E_OK, r) /\
    frameType_ r = COMMUNICATION_LABEL_EXCHANGE /\ isFragment_ r = false /\
    frameId_ r = 9 /\ sourceId_ r = @HashFunc be_host [x61; x62] /\
    labelExchangeDistinctValue_ r = 77 /\ labelExchangeSequenceId_ r = 5 /\
    latestCommLabels_ r = sample_labels.
Proof.
  apply (@label_exchange_roundtrip be_host zero_heap [x61; x62] 77 5 sample_labels 9).
  - exact zero_heap_total.
  - lia.
  - lia.
  - lia.
  - exact sample_labels_ok.
  - vm_compute. discriminate.
Defined.

Lemma label_exchange_ack_roundtrip_witness :
  exists b b' bytes r,
    @BuildLabelExchangeAck arm_host zero_heap 77 5 = (E_OK, Some b) /\
    @SetPhyHeader arm_host (Some b)
      (mkPhyHeaderInfo (@HashFunc arm_host [x61; xe2]) 9 COMMUNICATION_LABEL_EXCHANGE_ACK)
      = (E_OK, Some b') /\
    GetReadOnlyBytesForEntireBuffer b' = (Some bytes, zlen bytes) /\
    @CheckAndParsePacket arm_host [x61; xe2] (Some bytes) (zlen bytes) emptyParseResult
      = (E_OK, r) /\
    frameType_ r = COMMUNICATION_LABEL_EXCHANGE_ACK /\ frameId_ r = 9 /\
    labelExchangeDistinctValue_ r = 77 /\ labelExchangeSequenceId_ r = 5.
Proof.
  apply (@label_exchange_ack_roundtrip arm_host zero_heap [x61; xe2] 77 5 9).
  - exact zero_heap_total.
  - lia.
  - lia.
  - lia.
Defined.

(** The bytes of an acknowledgement sent by a device named "ab". *)
Definition sample_packet : list byte :=
  match snd (@BuildLabelExchangeAck arm_host zero_heap 77 5) with
  | None => []
  | Some b =>
    match snd (@SetPhyHeader arm_host (Some b)
      (mkPhyHeaderInfo (@HashFunc arm_host [x61; x62]) 9 COMMUNICATION_LABEL_EXCHANGE_ACK)) with
    | None => []
    | Some b' => default [] (fst (GetReadOnlyBytesForEntireBuffer b'))
    end
  end.

Lemma single_word_corruption_detected_witness :
  fst (@CheckAndParsePacket arm_host [x61; x62]
         (Some (take 40 sample_packet ++ replicate 8 xff ++ drop 48 sample_packet))
         (zlen (take 40 sample_packet ++ replicate 8 xff ++ drop 48 sample_packet))
         emptyParseResult) <> E_OK.
Proof.
  apply (@single_word_corruption_detected arm_host [x61; x62] 5 (take 40 sample_packet)
    (take 8 (drop 40 sample_packet)) (replicate 8 xff) (drop 48 sample_packet)
    (snd (@CheckAndParsePacket arm_host [x61; x62] (Some sample_packet) (zlen sample_packet)
       emptyParseResult))).
  - vm_compute. reflexivity.
  - vm_compute. reflexivity.
  - vm_compute. reflexivity.
  - vm_compute. reflexivity.
  - vm_compute. discriminate.
Defined.
