(* ===== verification/FragFacts.v ===== *)
(** What fragmentation produces, packet by packet, and how each packet parses. *)

From S2P Require Import Prelude Memory SerialBuffer FrameHeader CommTypes ProtocolProto.
From S2P Require Import Fragmentation ProtoFacts ProtoRoundtrip.
From Stdlib Require Import ZArith Lia.
From Stdlib Require Import Strings.Byte.
From stdpp Require Import base numbers list gmap.

Open Scope Z_scope.

Section FragFacts.
Context `{Host}.

(** The frame being split: its physical header [hf] in host order and the
    [splitLength] bytes after it. *)
Record split_wf (hf : CommPhyHeader) (info : FrameFragmentInfo) (body : list byte) : Prop := {
  sw_phy : phy_ok hf;
  sw_count : 2 <= fragCount info < 2 ^ 16;
  sw_fit : fragCount info <= splitLength info;
  sw_max : splitLength info + sizeof_CommPhyHeader <= MAX_FRAME_LEN;
  sw_ext : 0 <= extendHeadSize info <= MAX_EXTEND_HEAD_LENGTH;
  sw_head : extendHeadSize info <= zlen (oringinalBytesAddr info);
  sw_body : zlen body = splitLength info
}.

(** * The packets *)

Definition frag_pad (info : FrameFragmentInfo) (i : Z) : Z :=
  byte8_align 32 (piece_frag_len info i) - piece_frag_len info i.

Definition frag_total (info : FrameFragmentInfo) (i : Z) : Z :=
  byte8_align 32 (piece_frag_len info i) + sizeof_CommPhyHeader + sizeof_CommPhyOptHeader.

Definition frag_payload (info : FrameFragmentInfo) (body : list byte) (i : Z) : list byte :=
  slice (i * quotient_of info) (piece_frag_len info i) body.

Definition frag_opt (info : FrameFragmentInfo) (i : Z) : CommPhyOptHeader :=
  mkCommPhyOptHeader (splitLength info + sizeof_CommPhyHeader) (fragCount info) i.

Definition frag_rest (info : FrameFragmentInfo) (body : list byte) (i : Z) : list byte :=
  store_opt (opt_ConvertHostToNet (frag_opt info i)) ++ frag_payload info body i
  ++ replicate (Z.to_nat (frag_pad info i)) x00.

Definition frag_header (hf : CommPhyHeader) (info : FrameFragmentInfo) (i : Z) : CommPhyHeader :=
  FillPhyHeaderLenInfo hf (frag_total info i) 0 PACKET_TYPE_FRAGMENTED (frag_pad info i).

Definition frag_packet (hf : CommPhyHeader) (info : FrameFragmentInfo) (body : list byte) (i : Z)
    : list byte :=
  let rest := frag_rest info body i in
  store_phy (phy_ConvertHostToNet (seal_phy (frag_header hf info i) rest)) ++ rest.

(** * Lengths *)

Section Lengths.
Context {hf info body} (Hwf : split_wf hf info body).

Lemma quotient_bounds :
  1 <= quotient_of info /\
  fragCount info * quotient_of info + remainder_of info = splitLength info /\
  0 <= remainder_of info < fragCount info.
Proof.
  destruct Hwf. unfold quotient_of, remainder_of, MAX_FRAME_LEN, sizeof_CommPhyHeader in *.
  rewrite wrap_small by lia.
  assert (1 <= splitLength info / fragCount info) by (apply Z.div_le_lower_bound; lia).
  pose proof (Z.div_mod (splitLength info) (fragCount info) ltac:(lia)).
  pose proof (Z.mod_pos_bound (splitLength info) (fragCount info) ltac:(lia)). lia.
Qed.

Lemma piece_frag_len_spec i :
  piece_frag_len info i =
    if i =? fragCount info - 1 then quotient_of info + remainder_of info else quotient_of info.
Proof.
  pose proof quotient_bounds. destruct Hwf.
  unfold piece_frag_len, MAX_FRAME_LEN, sizeof_CommPhyHeader in *.
  destruct (i =? fragCount info - 1); cbn [negb]; [|reflexivity]. apply wrap_small. nia.
Qed.

(** Fragment [i] covers [i * quotient, i * quotient + piece_frag_len i). *)
Lemma piece_bounds i :
  0 <= i < fragCount info ->
  1 <= piece_frag_len info i /\ i * quotient_of info + piece_frag_len info i <= splitLength info /\
  (i = fragCount info - 1 -> i * quotient_of info + piece_frag_len info i = splitLength info).
Proof.
  intros Hi. pose proof quotient_bounds. rewrite piece_frag_len_spec.
  destruct (Z.eqb_spec i (fragCount info - 1)); [nia|].
  assert (i * quotient_of info + quotient_of info = (i + 1) * quotient_of info) by lia.
  nia.
Qed.

Lemma frag_pad_bounds i :
  0 <= i < fragCount info -> 0 <= frag_pad info i < 8 /\ frag_total info i mod 8 = 0 /\
  frag_total info i = 40 + piece_frag_len info i + frag_pad info i.
Proof.
  intros Hi. pose proof (piece_bounds i Hi). pose proof quotient_bounds. destruct Hwf.
  unfold frag_pad, frag_total, MAX_FRAME_LEN, sizeof_CommPhyHeader, sizeof_CommPhyOptHeader in *.
  rewrite byte8_align_spec by nia. nia.
Qed.

Lemma piece_le_split i : 0 <= i < fragCount info -> piece_frag_len info i <= splitLength info.
Proof. intros Hi. pose proof (piece_bounds i Hi). pose proof quotient_bounds. nia. Qed.

Lemma zlen_frag_payload i :
  0 <= i < fragCount info -> zlen (frag_payload info body i) = piece_frag_len info i.
Proof.
  intros Hi. pose proof (piece_bounds i Hi). pose proof quotient_bounds. destruct Hwf.
  apply zlen_slice; nia.
Qed.

Lemma zlen_frag_rest i :
  0 <= i < fragCount info -> zlen (frag_rest info body i) = frag_total info i - 32.
Proof.
  intros Hi. pose proof (frag_pad_bounds i Hi). unfold frag_rest.
  rewrite !zlen_app, zlen_store_opt, zlen_frag_payload, zlen_replicate by lia. lia.
Qed.

Lemma zlen_frag_packet i :
  0 <= i < fragCount info -> zlen (frag_packet hf info body i) = frag_total info i.
Proof.
  intros Hi. unfold frag_packet. rewrite zlen_app, zlen_store_phy, zlen_frag_rest by lia. lia.
Qed.

End Lengths.

(** * One packet *)

(** [FillFragmentPacket] on a vector whose packet part starts at [off]. *)
Lemma FillFragmentPacket_ok h o frag packet off len :
  0 <= off -> zlen packet = off + len -> 0 < zlen frag -> 40 + zlen frag <= len ->
  len mod 8 = 0 -> len <= MAX_TOTAL_LEN -> phy_packetLen h = len ->
  let rest := store_opt o ++ frag ++ slice (off + 40 + zlen frag) (len - 40 - zlen frag) packet in
  FillFragmentPacket (phy_ConvertHostToNet h) o frag packet off len =
    (E_OK, slice 0 off packet ++ store_phy (phy_ConvertHostToNet (seal_phy h rest)) ++ rest).
Proof.
  intros Hoff Hz Hpos Hfit Hal Hmax Hpl. cbv zeta. unfold MAX_TOTAL_LEN in *.
  unfold FillFragmentPacket, sizeof_CommPhyHeader, sizeof_CommPhyOptHeader.
  destruct (Z.eqb_spec len 0); [lia|]. rewrite !(wrap_small 32) by lia.
  set (P := store_phy (phy_ConvertHostToNet h)).
  assert (HP : zlen P = 32) by apply zlen_store_phy.
  assert (HO : zlen (store_opt o) = 8) by apply zlen_store_opt.
  rewrite !memcpy_s_ok by (unfold SECUREC_MEM_MAX_LEN; lia).
  replace (off + 32) with (off + zlen P) by lia.
  rewrite splice_splice_adjacent by lia.
  replace (off + zlen P + 8) with (off + zlen (P ++ store_opt o)) by (rewrite zlen_app; lia).
  rewrite splice_splice_adjacent by (rewrite ?zlen_app; lia).
  set (rest := store_opt o ++ frag ++ _).
  set (full := (P ++ store_opt o) ++ frag).
  assert (Hfull : zlen full = 40 + zlen frag) by (unfold full; rewrite !zlen_app; lia).
  assert (Hmem : splice off full packet = slice 0 off packet ++ P ++ rest).
  { rewrite splice_prefix by lia. f_equal. rewrite Hfull. unfold full, rest.
    rewrite <- !app_assoc. do 4 f_equal; lia. }
  rewrite Hmem.
  assert (Hs0 : zlen (slice 0 off packet) = off) by (apply zlen_slice; lia).
  unfold CalculateXorSum, LENGTH_BEFORE_SUM_RANGE. rewrite wrap_small by lia.
  destruct (Z.eqb_spec ((len - (8 + 8)) mod 8) 0) as [_|]; [|lia]. cbn [negb].
  assert (Hdrop : drop (Z.to_nat (off + (8 + 8))) (slice 0 off packet ++ P ++ rest)
                  = drop 16 (P ++ rest)).
  { rewrite drop_app_ge by (unfold zlen in Hs0; lia). f_equal. unfold zlen in Hs0. lia. }
  rewrite Hdrop. f_equal. unfold seal_phy. rewrite <- splice_checkSum, Hpl.
  change (8 + 8) with 16. fold P. unfold splice.
  replace (Z.to_nat (off + 8)) with (length (slice 0 off packet) + 8)%nat
    by (unfold zlen in Hs0; lia).
  rewrite take_app_add, <- Nat.add_assoc, drop_app_add, <- app_assoc. reflexivity.
Qed.

Section Packets.
Context {hf info body} (Hwf : split_wf hf info body).

(** The vector after the extended head was copied in front of the zeroed packet. *)
Lemma extend_head_ok total :
  0 < total -> total <= MAX_TOTAL_LEN ->
  (if 0 <? extendHeadSize info
   then FillFragmentPacketExtendHead (oringinalBytesAddr info) (extendHeadSize info)
          (replicate (Z.to_nat (total + extendHeadSize info)) x00) (extendHeadSize info)
   else (E_OK, replicate (Z.to_nat (total + extendHeadSize info)) x00)) =
  (E_OK, slice 0 (extendHeadSize info) (oringinalBytesAddr info)
         ++ replicate (Z.to_nat total) x00).
Proof.
  intros Ht Hmax. destruct Hwf. unfold MAX_EXTEND_HEAD_LENGTH, MAX_TOTAL_LEN in *.
  destruct (Z.ltb_spec 0 (extendHeadSize info)) as [He|He].
  - unfold FillFragmentPacketExtendHead.
    destruct (Z.ltb_spec (extendHeadSize info) (extendHeadSize info)); [lia|].
    assert (Hz : zlen (slice 0 (extendHeadSize info) (oringinalBytesAddr info))
                 = extendHeadSize info) by (apply zlen_slice; lia).
    rewrite memcpy_s_ok by (unfold SECUREC_MEM_MAX_LEN; lia).
    rewrite splice_head, Hz by (rewrite Hz, zlen_replicate; lia).
    rewrite zlen_replicate, slice_replicate by lia. do 3 f_equal. lia.
  - replace (extendHeadSize info) with 0 by lia. rewrite Z.add_0_r. reflexivity.
Qed.

Lemma make_piece_eq i :
  0 <= i < fragCount info ->
  make_piece body info (phy_ConvertHostToNet hf) i (i * quotient_of info) =
    (E_OK, (slice 0 (extendHeadSize info) (oringinalBytesAddr info)
            ++ frag_packet hf info body i, extendHeadSize info)).
Proof.
  intros Hi. pose proof (frag_pad_bounds Hwf i Hi) as (Hp1 & Hp2 & Hp3).
  pose proof (piece_bounds Hwf i Hi) as (Hb1 & Hb2 & _).
  pose proof (piece_le_split Hwf i Hi) as Hb3.
  pose proof (zlen_frag_payload Hwf i Hi) as Hpay.
  pose proof Hwf as []. unfold MAX_FRAME_LEN, MAX_EXTEND_HEAD_LENGTH, sizeof_CommPhyHeader in *.
  unfold make_piece, sizeof_CommPhyHeader, sizeof_CommPhyOptHeader.
  change (byte8_align 32 (piece_frag_len info i) + 32 + 8) with (frag_total info i).
  change (byte8_align 32 (piece_frag_len info i) - piece_frag_len info i) with (frag_pad info i).
  rewrite (wrap_small 32 (frag_total info i)) by lia.
  rewrite (wrap_small 32 (splitLength info + 32)) by lia.
  rewrite (wrap_small 32 (frag_total info i + extendHeadSize info)) by lia.
  rewrite phy_convert_involutive by assumption.
  rewrite extend_head_ok by (unfold MAX_TOTAL_LEN; lia). cbn [negb Z.eqb E_OK].
  set (head := slice 0 (extendHeadSize info) (oringinalBytesAddr info)).
  assert (Hhead : zlen head = extendHeadSize info) by (apply zlen_slice; lia).
  rewrite zlen_app, Hhead, zlen_replicate by lia.
  replace (extendHeadSize info + frag_total info i - extendHeadSize info)
    with (frag_total info i) by lia.
  rewrite wrap_small by lia.
  fold (frag_header hf info i) (frag_opt info i) (frag_payload info body i).
  rewrite FillFragmentPacket_ok; try lia; unfold MAX_TOTAL_LEN; try lia; try reflexivity;
    [|rewrite zlen_app, Hhead, zlen_replicate; lia].
  rewrite slice_app_l, <- Hhead, slice_all by lia.
  rewrite slice_app_r by lia. rewrite Hhead, Hpay.
  rewrite slice_replicate by lia.
  replace (frag_total info i - 40 - piece_frag_len info i) with (frag_pad info i) by lia.
  reflexivity.
Qed.

Lemma frag_loop_eq n i :
  0 <= i -> i + Z.of_nat n = fragCount info ->
  frag_loop n body info (phy_ConvertHostToNet hf) i (i * quotient_of info) =
    (E_OK, map (fun j => (slice 0 (extendHeadSize info) (oringinalBytesAddr info)
                          ++ frag_packet hf info body j, extendHeadSize info))
             (seqZ i (Z.of_nat n))).
Proof.
  revert i; induction n as [|n IH]; intros i Hi Hn; [reflexivity|].
  cbn [frag_loop]. rewrite make_piece_eq by lia. cbn [negb Z.eqb E_OK].
  pose proof (quotient_bounds Hwf) as Hq. pose proof Hwf as [].
  unfold MAX_FRAME_LEN, sizeof_CommPhyHeader in *.
  rewrite (wrap_small 16) by lia.
  rewrite seqZ_cons by lia. cbn [map].
  replace (Z.pred (Z.of_nat (S n))) with (Z.of_nat n) by lia.
  destruct (Z.eq_dec i (fragCount info - 1)) as [Hlast|Hlast].
  - assert (n = 0%nat) as -> by lia. reflexivity.
  - pose proof (piece_frag_len_spec Hwf i) as Hpl.
    destruct (Z.eqb_spec i (fragCount info - 1)); [lia|]. rewrite Hpl.
    pose proof (piece_bounds Hwf i ltac:(lia)) as Hb.
    rewrite wrap_small by nia.
    replace (i * quotient_of info + quotient_of info) with ((i + 1) * quotient_of info) by lia.
    rewrite IH by lia. reflexivity.
Qed.

(** [FrameFragmentation] succeeds and its packets are exactly [frag_packet]. *)
Lemma FrameFragmentation_eq :
  FrameFragmentation body info (phy_ConvertHostToNet hf) =
    (E_OK, map (fun j => (slice 0 (extendHeadSize info) (oringinalBytesAddr info)
                          ++ frag_packet hf info body j, extendHeadSize info))
             (seqZ 0 (fragCount info))).
Proof.
  pose proof Hwf as []. unfold FrameFragmentation, MIN_FRAGMENT_COUNT.
  destruct (Z.ltb_spec (fragCount info) 2); [lia|].
  change 0 with (0 * quotient_of info) at 2.
  rewrite frag_loop_eq by lia. rewrite Z2Nat.id by lia. reflexivity.
Qed.

(** * How a packet parses *)

Definition frag_result (i : Z) : ParseResult :=
  set_frag_info
    (SetFrameTypeInfo
       (set_phy_info emptyParseResult (phy_frameId hf) (phy_sourceId hf) (frag_total info i)
          (frag_pad info i) (phy_dbIntVer hf) true) (GetFrameType (phy_packetType hf)))
    (splitLength info + sizeof_CommPhyHeader) (fragCount info) i.

Lemma GetFrameType_fragmented t :
  0 <= t < 256 -> GetFrameType (Z.lor t PACKET_TYPE_FRAGMENTED) = GetFrameType t.
Proof.
  intros Ht. unfold GetFrameType. rewrite Z.land_lor_distr_l.
  change (Z.land PACKET_TYPE_FRAGMENTED 0xF0) with 0. rewrite Z.lor_0_r. reflexivity.
Qed.

Lemma lor_1_range t : 0 <= t < 256 -> 0 <= Z.lor t 1 < 256.
Proof.
  intros Ht. split; [apply Z.lor_nonneg; lia|].
  destruct (Z.eq_dec (Z.lor t 1) 0) as [->|Hne]; [lia|].
  assert (0 < Z.lor t 1) by (pose proof (proj2 (Z.lor_nonneg t 1)); lia).
  change 256 with (2 ^ 8). apply Z.log2_lt_pow2; [lia|].
  rewrite Z.log2_lor by lia. change (Z.log2 1) with 0.
  destruct (Z.eq_dec t 0) as [->|]; [reflexivity|].
  assert (Z.log2 t < 8) by (apply Z.log2_lt_pow2; lia). lia.
Qed.

Lemma frag_packet_valid src i :
  0 <= i < fragCount info -> phy_magic hf = MAGIC_CODE -> phy_version hf = PROTOCOL_VERSION ->
  phy_sourceId hf = HashFunc src ->
  phy_valid src (seal_phy (frag_header hf info i) (frag_rest info body i)) (frag_rest info body i).
Proof.
  intros Hi Hm Hv Hs. pose proof (frag_pad_bounds Hwf i Hi) as (Hp1 & Hp2 & Hp3).
  pose proof (piece_bounds Hwf i Hi) as (Hb1 & _). pose proof (piece_le_split Hwf i Hi) as Hb3.
  pose proof (zlen_frag_rest Hwf i Hi) as Hz.
  pose proof Hwf as []. unfold MAX_FRAME_LEN, sizeof_CommPhyHeader in *.
  apply seal_valid; cbn -[frag_rest]; try assumption; unfold MAX_TOTAL_LEN, MAX_PADDING_LEN;
    rewrite ?(wrap_small 8) by lia; try lia.
  unfold phy_ok, phy_fields, frag_header, FillPhyHeaderLenInfo in *. cbn.
  rewrite !Forall_cons in *. unfold field_ok in *. cbn [fst snd] in *.
  pose proof (lor_1_range (phy_packetType hf)). rewrite (wrap_small 8) by lia.
  change PACKET_TYPE_FRAGMENTED with 1. intuition lia.
Qed.

Lemma frag_packet_parse src i :
  0 <= i < fragCount info -> phy_magic hf = MAGIC_CODE -> phy_version hf = PROTOCOL_VERSION ->
  phy_sourceId hf = HashFunc src ->
  GetFrameType (phy_packetType hf) <> INVALID_MAX_FRAME_TYPE ->
  GetFrameType (phy_packetType hf) <> EMPTY ->
  CheckAndParsePacket src (Some (frag_packet hf info body i)) (zlen (frag_packet hf info body i))
    emptyParseResult = (E_OK, frag_result i).
Proof.
  intros Hi Hm Hv Hs Hft1 Hft2.
  pose proof (frag_packet_valid src i Hi Hm Hv Hs) as Hval.
  pose proof (frag_pad_bounds Hwf i Hi) as (Hp1 & Hp2 & Hp3).
  pose proof (piece_bounds Hwf i Hi) as (Hb1 & _). pose proof (piece_le_split Hwf i Hi) as Hb3.
  pose proof (zlen_frag_packet Hwf i Hi) as Hz.
  pose proof Hwf as []. unfold MAX_FRAME_LEN, sizeof_CommPhyHeader in *.
  assert (Hpt : 0 <= phy_packetType hf < 256).
  { pose proof (sw_phy _ _ _ Hwf) as Hphy. unfold phy_ok, phy_fields in Hphy.
    rewrite !Forall_cons in Hphy. unfold field_ok in Hphy. cbn [fst snd] in Hphy. lia. }
  unfold CheckAndParsePacket.
  destruct (Z.ltb_spec MAX_TOTAL_LEN (zlen (frag_packet hf info body i))) as [Hbad|_];
    [unfold MAX_TOTAL_LEN in Hbad; lia|].
  set (h := seal_phy (frag_header hf info i) (frag_rest info body i)) in *.
  assert (Hft : GetFrameType (phy_packetType h) = GetFrameType (phy_packetType hf))
    by (apply GetFrameType_fragmented; exact Hpt).
  unfold frag_packet at 1 2. fold h.
  rewrite (ParseCommPhyHeader_valid src h) by (rewrite ?Hft; assumption).
  rewrite Hft. cbn [negb Z.eqb E_OK].
  assert (Hfrag : (Z.land (phy_packetType h) PACKET_TYPE_FRAGMENTED =? 0) = false).
  { change (phy_packetType h) with (Z.lor (phy_packetType hf) 1). apply Z.eqb_neq.
    change PACKET_TYPE_FRAGMENTED with 1. rewrite Z.land_lor_distr_l, Z.land_diag.
    intros E. apply Z.lor_eq_0_iff in E. lia. }
  rewrite Hfrag. cbn [negb orb frameType_ SetFrameTypeInfo isFragment_ set_phy_info].
  destruct (decide (GetFrameType (phy_packetType hf) = EMPTY)); [contradiction|].
  unfold ParseCommPhyOptHeader, sizeof_CommPhyHeader, sizeof_CommPhyOptHeader.
  destruct (Z.ltb_spec (zlen (frag_packet hf info body i)) (32 + 8)); [lia|].
  change (frag_packet hf info body i) with
    (store_phy (phy_ConvertHostToNet h) ++ frag_rest info body i).
  rewrite drop_app_length' by (pose proof (zlen_store_phy (phy_ConvertHostToNet h)) as E;
    unfold zlen in E; lia).
  unfold frag_rest. rewrite load_store_opt.
  2: { apply opt_convert_ok. unfold opt_ok, opt_fields, frag_opt. cbn.
       rewrite !Forall_cons, Forall_nil. unfold field_ok, sizeof_CommPhyHeader.
       cbn [fst snd]. repeat split; lia. }
  rewrite opt_convert_involutive.
  2: { unfold opt_ok, opt_fields, frag_opt. cbn.
       rewrite !Forall_cons, Forall_nil. unfold field_ok, sizeof_CommPhyHeader.
       cbn [fst snd]. repeat split; lia. }
  unfold frag_result, h, seal_phy, frag_header, frag_opt. cbn.
  rewrite !(wrap_small 8) by lia. reflexivity.
Qed.

(** The receiver recomputes the same split. *)
Lemma AnalyzeSplitStructure_eq i :
  0 <= i < fragCount info ->
  AnalyzeSplitStructure (frag_result i) =
    (E_OK, (quotient_of info, quotient_of info + remainder_of info)).
Proof.
  intros Hi. pose proof (frag_pad_bounds Hwf i Hi) as (Hp1 & Hp2 & Hp3).
  pose proof (quotient_bounds Hwf) as Hq. pose proof (piece_frag_len_spec Hwf i) as Hpl.
  pose proof (piece_le_split Hwf i Hi) as Hb3. pose proof (piece_bounds Hwf i Hi) as [Hb1 _].
  pose proof Hwf as []. unfold MAX_FRAME_LEN, sizeof_CommPhyHeader in *.
  unfold AnalyzeSplitStructure, frag_result. cbn [frameLen_ fragCount_ fragNo_ set_frag_info
    pr_paddingLen_ packetLen_ SetFrameTypeInfo set_phy_info].
  unfold MAX_FRAME_LEN, MIN_FRAGMENT_COUNT, sizeof_CommPhyHeader, sizeof_CommPhyOptHeader.
  replace (splitLength info + 32 - 32) with (splitLength info) by lia.
  rewrite (wrap_small 32 (splitLength info)) by lia.
  destruct (Z.leb_spec (splitLength info + 32) 32); [lia|].
  destruct (Z.ltb_spec (32 * 1024 * 1024) (splitLength info + 32)); [lia|].
  destruct (Z.eqb_spec (fragCount info) 0); [lia|].
  destruct (Z.ltb_spec (fragCount info) 2); [lia|].
  destruct (Z.ltb_spec (splitLength info) (fragCount info)); [lia|].
  destruct (Z.leb_spec (fragCount info) i); [lia|]. cbn [orb].
  fold (quotient_of info) (remainder_of info).
  rewrite (wrap_small 32 (quotient_of info + remainder_of info)) by nia.
  rewrite (wrap_small 8) by lia.
  replace (if negb (i =? fragCount info - 1) then _ else _) with (piece_frag_len info i)
    by (rewrite Hpl; destruct (i =? fragCount info - 1); reflexivity).
  rewrite (wrap_small 64) by lia.
  destruct (Z.eqb_spec (32 + 8 + piece_frag_len info i + frag_pad info i) (frag_total info i));
    [reflexivity|lia].
Qed.

End Packets.

End FragFacts.
