(* ===== verification/FrameCombiner.v ===== *)
(** Model of [CombineStatus] (communicator/src/combine_status.cpp) and
    [FrameCombiner] (communicator/src/frame_combiner.cpp): the reassembly of
    fragmented frames, one frame at a time for each sender. *)

From S2P Require Import Prelude Memory SerialBuffer FrameHeader CommTypes ProtocolProto.
From S2P Require Import Fragmentation.
From Stdlib Require Import ZArith Lia.
From Stdlib Require Import Strings.Byte.
From stdpp Require Import base numbers list gmap sorting.

Open Scope Z_scope.

(** * CombineStatus *)

Record CombineStatus := mkCombineStatus {
  progressId_ : Z;
  hasProgressFlag_ : bool;
  fragmentLen_ : Z;
  lastFragmentLen_ : Z;
  fragmentCount_ : Z;
  combinedFragmentNo_ : gset Z
}.

Definition emptyCombineStatus : CombineStatus := mkCombineStatus 0 true 0 0 0 ∅.

Definition UpdateProgressId (s : CombineStatus) (inProgressId : Z) : CombineStatus :=
  mkCombineStatus inProgressId true (fragmentLen_ s) (lastFragmentLen_ s) (fragmentCount_ s)
    (combinedFragmentNo_ s).

Definition GetProgressId (s : CombineStatus) : Z := progressId_ s.

Definition CheckProgress (s : CombineStatus) : bool * CombineStatus :=
  (hasProgressFlag_ s,
   mkCombineStatus (progressId_ s) false (fragmentLen_ s) (lastFragmentLen_ s)
     (fragmentCount_ s) (combinedFragmentNo_ s)).

Definition SetFragmentLen (s : CombineStatus) (inFragLen : Z) : CombineStatus :=
  mkCombineStatus (progressId_ s) (hasProgressFlag_ s) inFragLen (lastFragmentLen_ s)
    (fragmentCount_ s) (combinedFragmentNo_ s).

Definition SetLastFragmentLen (s : CombineStatus) (inLastFragLen : Z) : CombineStatus :=
  mkCombineStatus (progressId_ s) (hasProgressFlag_ s) (fragmentLen_ s) inLastFragLen
    (fragmentCount_ s) (combinedFragmentNo_ s).

Definition SetFragmentCount (s : CombineStatus) (inFragCount : Z) : CombineStatus :=
  mkCombineStatus (progressId_ s) (hasProgressFlag_ s) (fragmentLen_ s) (lastFragmentLen_ s)
    inFragCount (combinedFragmentNo_ s).

Definition GetThisFragmentLength (s : CombineStatus) (inFragNo : Z) : Z :=
  if negb (inFragNo =? fragmentCount_ s - 1) then fragmentLen_ s else lastFragmentLen_ s.

Definition GetThisFragmentOffset (s : CombineStatus) (inFragNo : Z) : Z :=
  u32 (fragmentLen_ s * inFragNo).

Definition IsFragNoAlreadyExist (s : CombineStatus) (inFragNo : Z) : bool :=
  bool_decide (inFragNo ∈ combinedFragmentNo_ s).

Definition CheckInFragmentNo (s : CombineStatus) (inFragNo : Z) : CombineStatus :=
  if fragmentCount_ s <=? inFragNo then s
  else mkCombineStatus (progressId_ s) (hasProgressFlag_ s) (fragmentLen_ s) (lastFragmentLen_ s)
         (fragmentCount_ s) ({[inFragNo]} ∪ combinedFragmentNo_ s).

Definition IsCombineDone (s : CombineStatus) : bool :=
  fragmentCount_ s <=? Z.of_nat (size (combinedFragmentNo_ s)).

(** * FrameCombiner *)

Definition MAX_WORK_PER_SRC_TARGET : Z := 1.

Record CombineWork := mkCombineWork {
  cw_buffer : option SerialBuffer;
  cw_status : CombineStatus;
  cw_frameInfo : ParseResult
}.

Record FrameCombiner := mkFrameCombiner {
  incProgressId_ : Z;
  fc_totalSizeByByte_ : Z;
  combineWorkPool_ : gmap Z (gmap Z CombineWork)
}.

Definition emptyFrameCombiner : FrameCombiner := mkFrameCombiner 0 0 ∅.

(** [combineWorkPool_[sourceId]]. *)
Definition works_of (c : FrameCombiner) (sourceId : Z) : gmap Z CombineWork :=
  default ∅ (combineWorkPool_ c !! sourceId).

Definition set_works (c : FrameCombiner) (sourceId : Z) (ws : gmap Z CombineWork) : FrameCombiner :=
  mkFrameCombiner (incProgressId_ c) (fc_totalSizeByByte_ c) (<[sourceId := ws]> (combineWorkPool_ c)).

(** [incProgressId_++]. *)
Definition next_progress (c : FrameCombiner) : Z * FrameCombiner :=
  (incProgressId_ c,
   mkFrameCombiner (u64 (incProgressId_ c + 1)) (fc_totalSizeByByte_ c) (combineWorkPool_ c)).

Section Combiner.
Context `{Host} `{Heap}.

Definition CreateNewFrameBuffer (inInfo : ParseResult) : option SerialBuffer :=
  if negb heap_obj then None
  else
    let frameHeaderLength :=
      if decide (frameType_ inInfo = APPLICATION_MESSAGE) then GetAppLayerFrameHeaderLength
      else GetCommLayerFrameHeaderLength in
    let '(errCode, buffer) :=
      AllocBufferByTotalLength emptySerialBuffer (frameLen_ inInfo) frameHeaderLength in
    if negb (errCode =? E_OK) then None else Some buffer.

Definition CheckPacketWithOriWork (inPacketInfo : ParseResult) (inWork : CombineWork) : bool :=
  if negb (frameLen_ inPacketInfo =? frameLen_ (cw_frameInfo inWork)) then false
  else if negb (fragCount_ inPacketInfo =? fragCount_ (cw_frameInfo inWork)) then false
  else if fragCount_ inPacketInfo <=? fragNo_ inPacketInfo then false
  else if IsFragNoAlreadyExist (cw_status inWork) (fragNo_ inPacketInfo) then false
  else true.

(** The work of the frame must exist. Dereferencing a null buffer is undefined; the
    model then reports failure. *)
Definition ContinueExistCombineWork (c : FrameCombiner) (bytes : list byte) (length : Z)
    (inPacketInfo : ParseResult) (oriWork : CombineWork) : Z * FrameCombiner :=
  let sourceId := sourceId_ inPacketInfo in
  let frameId := frameId_ inPacketInfo in
  if negb (CheckPacketWithOriWork inPacketInfo oriWork) then (- E_COMBINE_FAIL, c)
  else
    let fragNo := fragNo_ inPacketInfo in
    let fragOffset := GetThisFragmentOffset (cw_status oriWork) fragNo in
    let fragLength := GetThisFragmentLength (cw_status oriWork) fragNo in
    match cw_buffer oriWork with
    | None => (- E_COMBINE_FAIL, c)
    | Some buffer =>
      let '(errCode, buffer) := CombinePacketIntoFrame buffer bytes length fragOffset fragLength in
      if negb (errCode =? E_OK) then (- E_COMBINE_FAIL, c)
      else
        let '(progressId, c) := next_progress c in
        let status := CheckInFragmentNo (UpdateProgressId (cw_status oriWork) progressId) fragNo in
        let work := mkCombineWork (Some buffer) status (cw_frameInfo oriWork) in
        (E_OK, set_works c sourceId (<[frameId := work]> (works_of c sourceId)))
    end.

(** The [ParseResult] of the frame being assembled. *)
Definition frame_info_of (inPacketInfo : ParseResult) : ParseResult :=
  mkParseResult (frameId_ inPacketInfo) (sourceId_ inPacketInfo) (frameLen_ inPacketInfo) 0 false
    (frameType_ inPacketInfo) (frameLen_ inPacketInfo) (fragCount_ inPacketInfo) 0 0 [] 0 0 ∅ 0.

Definition CreateNewCombineWork (c : FrameCombiner) (bytes : list byte) (length : Z)
    (inPacketInfo : ParseResult) : Z * FrameCombiner :=
  let '(errCode, (fragLen, lastFragLen)) := AnalyzeSplitStructure inPacketInfo in
  if negb (errCode =? E_OK) then (errCode, c)
  else
    let status := SetFragmentCount (SetLastFragmentLen (SetFragmentLen emptyCombineStatus fragLen)
                    lastFragLen) (fragCount_ inPacketInfo) in
    match CreateNewFrameBuffer inPacketInfo with
    | None => (- E_OUT_OF_MEMORY, c)
    | Some buffer =>
      let fragNo := fragNo_ inPacketInfo in
      let fragOffset := GetThisFragmentOffset status fragNo in
      let fragLength := GetThisFragmentLength status fragNo in
      let '(errCode, buffer) := CombinePacketIntoFrame buffer bytes length fragOffset fragLength in
      if negb (errCode =? E_OK) then (errCode, c)
      else
        let c := mkFrameCombiner (incProgressId_ c)
          (u64 (fc_totalSizeByByte_ c + GetSize buffer)) (combineWorkPool_ c) in
        let '(progressId, c) := next_progress c in
        let status := CheckInFragmentNo (UpdateProgressId status progressId) fragNo in
        let work := mkCombineWork (Some buffer) status (frame_info_of inPacketInfo) in
        (E_OK, set_works c (sourceId_ inPacketInfo)
                 (<[frameId_ inPacketInfo := work]> (works_of c (sourceId_ inPacketInfo))))
    end.

(** The loop that looks for the work with the lowest progress id. *)
Definition lowest_progress (ws : list (Z * CombineWork)) : Z * Z :=
  fold_left (fun '(toBeAbortFrameId, toBeAbortProgressId) '(frameId, work) =>
    if GetProgressId (cw_status work) <? toBeAbortProgressId
    then (frameId, GetProgressId (cw_status work))
    else (toBeAbortFrameId, toBeAbortProgressId)) ws (0, UINT64_MAX).

Definition AbortCombineWorkBySource (c : FrameCombiner) (inSourceId : Z) : FrameCombiner :=
  let ws := works_of c inSourceId in
  if Z.of_nat (size ws) =? 0 then set_works c inSourceId ws
  else
    let '(toBeAbortFrameId, _) := lowest_progress (in_key_order ws) in
    set_works c inSourceId (delete toBeAbortFrameId ws).

(** Result: the completed frame with its information, if any, and [outErrorNo]. *)
Definition AssembleFrameFragment (c : FrameCombiner) (bytes : list byte) (length : Z)
    (inPacketInfo : ParseResult) : (option (SerialBuffer * ParseResult) * Z) * FrameCombiner :=
  let sourceId := sourceId_ inPacketInfo in
  let frameId := frameId_ inPacketInfo in
  let c := set_works c sourceId (works_of c sourceId) in
  match works_of c sourceId !! frameId with
  | Some oriWork =>
    let '(errCode, c) := ContinueExistCombineWork c bytes length inPacketInfo oriWork in
    if negb (errCode =? E_OK) then ((None, errCode), c)
    else
      match works_of c sourceId !! frameId with
      | Some work =>
        if IsCombineDone (cw_status work) then
          (((fun b => (b, cw_frameInfo work)) <$> cw_buffer work, E_OK),
           set_works c sourceId (delete frameId (works_of c sourceId)))
        else ((None, E_OK), c)
      | None => ((None, E_OK), c)
      end
  | None =>
    let '(errCode, c) := CreateNewCombineWork c bytes length inPacketInfo in
    if negb (errCode =? E_OK) then ((None, errCode), c)
    else
      let c := if MAX_WORK_PER_SRC_TARGET <? Z.of_nat (size (works_of c sourceId))
               then AbortCombineWorkBySource c sourceId else c in
      ((None, E_OK), c)
  end.

(** One work under surveillance: dropped when it made no progress since the
    previous tick, kept with its progress flag cleared otherwise. *)
Definition surveil_work (work : CombineWork) : option CombineWork :=
  let '(progress, status) := CheckProgress (cw_status work) in
  if progress then Some (mkCombineWork (cw_buffer work) status (cw_frameInfo work)) else None.

Definition PeriodicalSurveillance (c : FrameCombiner) : FrameCombiner :=
  mkFrameCombiner (incProgressId_ c) (fc_totalSizeByByte_ c)
    (fmap (M := gmap Z) (omap (M := gmap Z) surveil_work) (combineWorkPool_ c)).

(** Shutdown frees the buffers; the entries stay in the map. *)
Definition release_work (work : CombineWork) : CombineWork :=
  mkCombineWork None (cw_status work) (cw_frameInfo work).

Definition Finalize (c : FrameCombiner) : FrameCombiner :=
  mkFrameCombiner (incProgressId_ c) (fc_totalSizeByByte_ c)
    (fmap (M := gmap Z) (fmap (M := gmap Z) release_work) (combineWorkPool_ c)).

End Combiner.
