(* ===== verification/CombinerFacts.v ===== *)
(** The invariant of [FrameCombiner] and the correctness of reassembly. *)

From S2P Require Import Prelude Memory SerialBuffer FrameHeader CommTypes ProtocolProto.
From S2P Require Import Fragmentation ProtoFacts ProtoRoundtrip FragFacts FrameCombiner.
From Stdlib Require Import ZArith Lia.
From Stdlib Require Import Strings.Byte.
From stdpp Require Import base numbers list gmap sorting.

Open Scope Z_scope.

(** * The eviction choice *)

Lemma map_size_1_inv {A} (m : gmap Z A) : size m = 1%nat -> exists k v, m = {[k := v]}.
Proof.
  intros Hs. destruct (decide (m = ∅)) as [->|Hne]; [rewrite map_size_empty in Hs; discriminate|].
  apply map_choose in Hne as (k & v & Hk). exists k, v.
  assert (Hd : size (delete k m) = 0%nat) by (rewrite map_size_delete_Some by eauto; lia).
  apply map_size_empty_inv in Hd. rewrite <- (insert_delete_id m k v Hk), Hd.
  apply insert_empty.
Qed.

Section Lowest.
Implicit Types (l : list (Z * CombineWork)).

Lemma lowest_progress_fold l k0 p0 :
  let '(k, p) := fold_left (fun '(k, p) '(frameId, work) =>
    if GetProgressId (cw_status work) <? p then (frameId, GetProgressId (cw_status work))
    else (k, p)) l (k0, p0) in
  p <= p0 /\ (forall f w, (f, w) ∈ l -> p <= GetProgressId (cw_status w)) /\
  ((k = k0 /\ p = p0) \/ exists w, (k, w) ∈ l /\ p = GetProgressId (cw_status w)).
Proof.
  revert k0 p0; induction l as [|[f w] l IH]; intros k0 p0; cbn [fold_left].
  - split; [lia|]. split; [|auto]. intros f w Hin. by apply not_elem_of_nil in Hin.
  - destruct (Z.ltb_spec (GetProgressId (cw_status w)) p0) as [Hlt|Hge].
    + specialize (IH f (GetProgressId (cw_status w))).
      destruct (fold_left _ l _) as [k p]. destruct IH as (H1 & H2 & H3).
      split; [lia|]. split.
      * intros f' w' Hin. apply elem_of_cons in Hin as [[= -> ->]|Hin]; [lia|eauto].
      * right. destruct H3 as [[-> ->]|(w' & Hin & ->)].
        -- exists w. split; [apply elem_of_cons; auto|reflexivity].
        -- exists w'. split; [apply elem_of_cons; auto|reflexivity].
    + specialize (IH k0 p0). destruct (fold_left _ l _) as [k p]. destruct IH as (H1 & H2 & H3).
      split; [lia|]. split.
      * intros f' w' Hin. apply elem_of_cons in Hin as [[= -> ->]|Hin]; [lia|eauto].
      * destruct H3 as [?|(w' & Hin & ->)]; [auto|right].
        exists w'. split; [apply elem_of_cons; auto|reflexivity].
Qed.

(** The loop finds a work of the source whose progress id is lowest. *)
Lemma lowest_progress_spec (ws : gmap Z CombineWork) f0 w0 :
  ws !! f0 = Some w0 -> GetProgressId (cw_status w0) < UINT64_MAX ->
  exists w, ws !! fst (lowest_progress (in_key_order ws)) = Some w /\
    forall f w', ws !! f = Some w' -> GetProgressId (cw_status w) <= GetProgressId (cw_status w').
Proof.
  intros Hf0 Hw0. unfold lowest_progress.
  pose proof (lowest_progress_fold (in_key_order ws) 0 UINT64_MAX) as Hl.
  destruct (fold_left _ _ _) as [k p]. destruct Hl as (_ & Hmin & Hk). cbn [fst].
  assert (Hmin' : forall f w', ws !! f = Some w' -> p <= GetProgressId (cw_status w')).
  { intros f w' Hw'. apply (Hmin f). by apply elem_of_in_key_order. }
  destruct Hk as [[_ ->]|(w & Hin & ->)].
  - specialize (Hmin' _ _ Hf0). lia.
  - apply elem_of_in_key_order in Hin. eauto.
Qed.

End Lowest.

(** * Invariant *)

(** A work in progress: the assembled frame has exactly the announced length, the
    fragments tile it, and fewer fragments than announced have arrived. *)
Record work_inv (w : CombineWork) : Prop := {
  wi_buffer : exists b mem, cw_buffer w = Some b /\ owned_wf b mem 0 /\ paddingLen_ b = 0 /\
    totalLen_ b = frameLen_ (cw_frameInfo w);
  wi_count : 2 <= fragmentCount_ (cw_status w) < 2 ^ 16;
  wi_info : fragCount_ (cw_frameInfo w) = fragmentCount_ (cw_status w);
  wi_len : 1 <= fragmentLen_ (cw_status w) <= lastFragmentLen_ (cw_status w);
  wi_tile : sizeof_CommPhyHeader + fragmentLen_ (cw_status w) * (fragmentCount_ (cw_status w) - 1)
            + lastFragmentLen_ (cw_status w) = frameLen_ (cw_frameInfo w);
  wi_max : frameLen_ (cw_frameInfo w) <= MAX_FRAME_LEN;
  wi_range : forall i, i ∈ combinedFragmentNo_ (cw_status w) ->
    0 <= i < fragmentCount_ (cw_status w)
}.

Definition frame_header_len (t : FrameType) : Z :=
  if decide (t = APPLICATION_MESSAGE) then GetAppLayerFrameHeaderLength
  else GetCommLayerFrameHeaderLength.

(** The frame under assembly holds the bytes [mem]. *)
Definition work_has (w : CombineWork) (mem : list byte) : Prop :=
  exists b, cw_buffer w = Some b /\ owned_wf b mem 0 /\ paddingLen_ b = 0 /\
    totalLen_ b = frameLen_ (cw_frameInfo w) /\
    headerLen_ b = frame_header_len (frameType_ (cw_frameInfo w)).

(** The frame bytes after fragment [i] of packet [bytes] was put in. *)
Definition put_fragment (st : CombineStatus) (i : Z) (bytes mem : list byte) : list byte :=
  splice (sizeof_CommPhyHeader + GetThisFragmentOffset st i)
    (slice (sizeof_CommPhyHeader + sizeof_CommPhyOptHeader) (GetThisFragmentLength st i) bytes) mem.

(** Two stages of the same work. *)
Definition same_split (w w' : CombineWork) : Prop :=
  fragmentCount_ (cw_status w') = fragmentCount_ (cw_status w) /\
  fragmentLen_ (cw_status w') = fragmentLen_ (cw_status w) /\
  lastFragmentLen_ (cw_status w') = lastFragmentLen_ (cw_status w).

Definition work_incomplete (w : CombineWork) : Prop := IsCombineDone (cw_status w) = false.

Record combiner_inv (c : FrameCombiner) : Prop := {
  ci_inc : 0 <= incProgressId_ c <= UINT64_MAX;
  ci_one : forall src, Z.of_nat (size (works_of c src)) <= MAX_WORK_PER_SRC_TARGET;
  ci_work : forall src f w, works_of c src !! f = Some w ->
    work_inv w /\ work_incomplete w /\ 0 <= progressId_ (cw_status w) < incProgressId_ c
}.

(** The packet information comes from fixed-width header fields. *)
Definition frag_fields_ok (r : ParseResult) : Prop :=
  0 <= frameLen_ r < 2 ^ 32 /\ 0 <= fragCount_ r < 2 ^ 16 /\ 0 <= fragNo_ r < 2 ^ 16.

Section Facts.
Context `{Host} `{Heap}.

Lemma works_of_set c s ws s' :
  works_of (set_works c s ws) s' = if decide (s = s') then ws else works_of c s'.
Proof.
  unfold works_of, set_works. cbn. rewrite lookup_insert. case_decide; reflexivity.
Qed.

(** * Copying a packet into the frame *)

Lemma CombinePacketIntoFrame_inv b mem bytes off len e b' :
  owned_wf b mem 0 -> paddingLen_ b = 0 -> 0 <= off < 2 ^ 32 -> 0 <= len < 2 ^ 32 ->
  CombinePacketIntoFrame b bytes (zlen bytes) off len = (e, b') ->
  (e <> E_OK /\ b' = b) \/
  (e = E_OK /\ 40 + len <= zlen bytes /\ 32 + off + len <= totalLen_ b /\
   let mem' := splice (32 + off) (slice 40 len bytes) mem in
   b' = set_memory b mem' /\ owned_wf b' mem' 0).
Proof.
  intros Hwf Hpad Ho Hl. unfold CombinePacketIntoFrame, sizeof_CommPhyHeader,
    sizeof_CommPhyOptHeader. rewrite !(wrap_small 64) by lia.
  destruct (Z.ltb_spec (zlen bytes) (32 + 8 + len)) as [|H1]; [intros [= <- <-]; left; done|].
  unfold GetWritableBytesForEntireFrame, write_region.
  rewrite (owf_ptr _ _ _ Hwf), (frame_len_owned _ _ _ Hwf).
  pose proof Hwf as []. unfold MAX_TOTAL_LEN in *.
  destruct (Z.ltb_spec (headerLen_ b + payloadLen_ b) (32 + off + len)) as [|H2];
    [intros [= <- <-]; left; done|].
  unfold copy_at. rewrite owf_mem.
  destruct (memcpy_s mem _ _ _) as [mem'|] eqn:E; cbn; [|intros [= <- <-]; left; done].
  apply memcpy_s_Some in E as (-> & _ & _). intros [= <- <-]. right.
  assert (Hz : zlen (slice 40 len bytes) = len) by (apply zlen_slice; lia).
  replace (0 + 0 + 32 + off) with (32 + off) by lia.
  repeat split_and!; try lia; try reflexivity.
  apply (set_memory_wf _ mem); [exact Hwf|]. apply zlen_splice; lia.
Qed.

(** It succeeds when the fragment lies inside the frame. *)
Lemma CombinePacketIntoFrame_ok b mem bytes off len :
  owned_wf b mem 0 -> paddingLen_ b = 0 -> 0 <= off -> 0 < len ->
  40 + len <= zlen bytes -> 32 + off + len <= totalLen_ b ->
  CombinePacketIntoFrame b bytes (zlen bytes) off len =
    (E_OK, set_memory b (splice (32 + off) (slice 40 len bytes) mem)).
Proof.
  intros Hwf Hpad Ho Hl Hb Ht. unfold CombinePacketIntoFrame, sizeof_CommPhyHeader,
    sizeof_CommPhyOptHeader. pose proof Hwf as []. unfold MAX_TOTAL_LEN in *.
  rewrite !(wrap_small 64) by lia.
  destruct (Z.ltb_spec (zlen bytes) (32 + 8 + len)); [lia|].
  unfold GetWritableBytesForEntireFrame, write_region.
  rewrite owf_ptr, (frame_len_owned _ _ _ Hwf).
  destruct (Z.ltb_spec (headerLen_ b + payloadLen_ b) (32 + off + len)); [lia|].
  unfold copy_at. rewrite owf_mem, (wrap_small 32) by lia.
  change (32 + 8) with 40. rewrite memcpy_s_ok by (rewrite ?zlen_slice; unfold SECUREC_MEM_MAX_LEN; lia).
  cbn. do 3 f_equal.
Qed.

(** * Starting a work *)

Lemma AnalyzeSplitStructure_inv r q l :
  frag_fields_ok r -> AnalyzeSplitStructure r = (E_OK, (q, l)) ->
  32 < frameLen_ r <= MAX_FRAME_LEN /\ 2 <= fragCount_ r /\ fragNo_ r < fragCount_ r /\
  1 <= q <= l /\ 32 + q * (fragCount_ r - 1) + l = frameLen_ r.
Proof.
  intros (Hf & Hc & Hn). unfold AnalyzeSplitStructure, MAX_FRAME_LEN, sizeof_CommPhyHeader,
    MIN_FRAGMENT_COUNT.
  destruct (Z.leb_spec (frameLen_ r) 32); [discriminate|].
  destruct (Z.ltb_spec (32 * 1024 * 1024) (frameLen_ r)); [discriminate|]. cbn [orb].
  rewrite (wrap_small 32 (frameLen_ r - 32)) by lia.
  destruct (Z.eqb_spec (fragCount_ r) 0); [discriminate|].
  destruct (Z.ltb_spec (fragCount_ r) 2); [discriminate|].
  destruct (Z.ltb_spec (frameLen_ r - 32) (fragCount_ r)); [discriminate|].
  destruct (Z.leb_spec (fragCount_ r) (fragNo_ r)); [discriminate|]. cbn [orb].
  pose proof (Z.div_mod (frameLen_ r - 32) (fragCount_ r) ltac:(lia)) as Hdm.
  pose proof (Z.mod_pos_bound (frameLen_ r - 32) (fragCount_ r) ltac:(lia)) as Hmb.
  assert (Hq1 : 1 <= (frameLen_ r - 32) / fragCount_ r) by (apply Z.div_le_lower_bound; lia).
  set (q0 := (frameLen_ r - 32) / fragCount_ r) in *.
  set (m0 := (frameLen_ r - 32) mod fragCount_ r) in *. clearbody q0 m0.
  rewrite (wrap_small 16) by lia. rewrite (wrap_small 32) by nia.
  intros E. assert (Hql : q = q0 /\ l = q0 + m0).
  { repeat match type of E with context [if ?b then _ else _] => destruct b end;
      simplify_eq; auto. }
  destruct Hql as [-> ->]. split_and!; lia.
Qed.

Lemma CreateNewFrameBuffer_inv r b :
  32 < frameLen_ r <= MAX_FRAME_LEN -> CreateNewFrameBuffer r = Some b ->
  exists mem, owned_wf b mem 0 /\ paddingLen_ b = 0 /\ totalLen_ b = frameLen_ r /\
    headerLen_ b = frame_header_len (frameType_ r).
Proof.
  intros Hf. unfold CreateNewFrameBuffer. destruct heap_obj; [|discriminate]. cbn [negb].
  set (hl := if decide _ then _ else _).
  assert (Hhl : 0 <= hl).
  { unfold hl. case_decide; vm_compute; discriminate. }
  unfold AllocBufferByTotalLength, MAX_FRAME_LEN in *. cbn [is_null bytes_ externalBytes_
    emptySerialBuffer negb orb].
  destruct ((frameLen_ r =? 0) || (MAX_TOTAL_LEN <? frameLen_ r) || (frameLen_ r <? hl)) eqn:E;
    [discriminate|].
  apply orb_false_elim in E as [_ E]. apply Z.ltb_ge in E.
  destruct (heap_new (frameLen_ r)) as [mem|] eqn:Hn; [|discriminate].
  cbn. intros [= <-]. exists mem. apply heap_new_zlen in Hn; [|lia].
  rewrite (wrap_small 32) by lia.
  split; [|auto]. constructor; cbn; unfold MAX_TOTAL_LEN; auto; lia.
Qed.

(** Success of [CreateNewCombineWork] adds one well-formed work whose progress id is
    the newest. *)
Lemma CreateNewCombineWork_inv c bytes r c' :
  frag_fields_ok r -> CreateNewCombineWork c bytes (zlen bytes) r = (E_OK, c') ->
  exists w, work_inv w /\ progressId_ (cw_status w) = incProgressId_ c /\
    combinedFragmentNo_ (cw_status w) = {[fragNo_ r]} /\
    (cw_frameInfo w = frame_info_of r /\ fragmentCount_ (cw_status w) = fragCount_ r /\
     AnalyzeSplitStructure r =
       (E_OK, (fragmentLen_ (cw_status w), lastFragmentLen_ (cw_status w))) /\
     exists mem, zlen mem = frameLen_ r /\
       work_has w (put_fragment (cw_status w) (fragNo_ r) bytes mem)) /\
    incProgressId_ c' = u64 (incProgressId_ c + 1) /\
    forall s, works_of c' s = if decide (s = sourceId_ r)
                              then <[frameId_ r := w]> (works_of c (sourceId_ r))
                              else works_of c s.
Proof.
  intros Hr. unfold CreateNewCombineWork.
  destruct (AnalyzeSplitStructure r) as [e [q l]] eqn:Ea.
  destruct (Z.eqb_spec e E_OK) as [->|]; [|intros [=]; contradiction]. cbn [negb].
  destruct (AnalyzeSplitStructure_inv _ _ _ Hr Ea) as (Hf & Hc & Hn & Hq & Ht).
  destruct (CreateNewFrameBuffer r) as [b|] eqn:Eb; [|discriminate].
  destruct (CreateNewFrameBuffer_inv _ _ Hf Eb) as (mem & Hwf & Hpad & Htot & Hhl).
  destruct Hr as (Hr1 & Hr2 & Hr3). unfold MAX_FRAME_LEN in *.
  set (st := SetFragmentCount _ _).
  assert (Hoff : 0 <= GetThisFragmentOffset st (fragNo_ r) < 2 ^ 32) by (apply wrap_range; lia).
  assert (Hlen : 0 <= GetThisFragmentLength st (fragNo_ r) < 2 ^ 32).
  { unfold GetThisFragmentLength, st. cbn. destruct (negb _); nia. }
  destruct (CombinePacketIntoFrame b bytes (zlen bytes) _ _) as [e b'] eqn:Ec.
  destruct (CombinePacketIntoFrame_inv _ _ _ _ _ _ _ Hwf Hpad Hoff Hlen Ec)
    as [[Hne _]|(-> & _ & _ & -> & Hwf')].
  { destruct (Z.eqb_spec e E_OK); [contradiction|]. intros [=]; contradiction. }
  cbn [negb Z.eqb E_OK next_progress]. intros [= <-].
  eexists. split; [|split; [|split; [|split; [|split]]]]; cycle 5.
  { intros s. rewrite works_of_set. unfold works_of at 1 3. cbn.
    repeat case_decide; congruence || reflexivity. }
  - unfold CheckInFragmentNo. cbn. destruct (Z.leb_spec (fragCount_ r) (fragNo_ r)); [lia|].
    constructor; cbn; try lia; auto.
    + eexists _, _. split; [reflexivity|]. split; [exact Hwf'|]. auto.
    + unfold MAX_FRAME_LEN; lia.
    + intros i Hi. set_unfold in Hi. lia.
  - unfold CheckInFragmentNo. cbn. destruct (_ <=? _); reflexivity.
  - unfold CheckInFragmentNo. cbn. destruct (Z.leb_spec (fragCount_ r) (fragNo_ r)); [lia|].
    cbn. apply (right_id_L ∅ (∪)).
  - unfold CheckInFragmentNo. cbn. destruct (Z.leb_spec (fragCount_ r) (fragNo_ r)); [lia|].
    cbn. split_and!; [reflexivity|reflexivity|reflexivity|]. exists mem.
    split; [destruct Hwf; lia|]. eexists. split; [reflexivity|]. split; [exact Hwf'|]. auto.
  - reflexivity.
Qed.

(** * Continuing a work *)

Lemma ContinueExistCombineWork_inv c bytes r w e c' :
  frag_fields_ok r -> work_inv w ->
  ContinueExistCombineWork c bytes (zlen bytes) r w = (e, c') ->
  (e = - E_COMBINE_FAIL /\ c' = c) \/
  (e = E_OK /\ (fragNo_ r ∉ combinedFragmentNo_ (cw_status w)) /\
   exists w', work_inv w' /\ cw_frameInfo w' = cw_frameInfo w /\
    same_split w w' /\
    (forall mem, work_has w mem -> work_has w' (put_fragment (cw_status w) (fragNo_ r) bytes mem)) /\
    combinedFragmentNo_ (cw_status w') = {[fragNo_ r]} ∪ combinedFragmentNo_ (cw_status w) /\
    progressId_ (cw_status w') = incProgressId_ c /\
    incProgressId_ c' = u64 (incProgressId_ c + 1) /\
    forall s, works_of c' s = if decide (s = sourceId_ r)
                              then <[frameId_ r := w']> (works_of c (sourceId_ r))
                              else works_of c s).
Proof.
  intros (Hr1 & Hr2 & Hr3) Hw.
  pose proof Hw as [(b & mem & Hb & Hwf & Hpad & Htot) Hc Hi Hl Ht Hm Hr].
  unfold ContinueExistCombineWork, CheckPacketWithOriWork, MAX_FRAME_LEN, sizeof_CommPhyHeader in *.
  destruct (Z.eqb_spec (frameLen_ r) (frameLen_ (cw_frameInfo w))); cbn [negb];
    [|intros [= <- <-]; auto].
  destruct (Z.eqb_spec (fragCount_ r) (fragCount_ (cw_frameInfo w))); cbn [negb];
    [|intros [= <- <-]; auto].
  destruct (Z.leb_spec (fragCount_ r) (fragNo_ r)); cbn [negb]; [intros [= <- <-]; auto|].
  unfold IsFragNoAlreadyExist. case_bool_decide as Hdup; cbn [negb]; [intros [= <- <-]; auto|].
  rewrite Hb.
  assert (Hoff : 0 <= GetThisFragmentOffset (cw_status w) (fragNo_ r) < 2 ^ 32)
    by (apply wrap_range; lia).
  assert (Hlen : 0 <= GetThisFragmentLength (cw_status w) (fragNo_ r) < 2 ^ 32).
  { unfold GetThisFragmentLength. destruct (negb _); nia. }
  destruct (CombinePacketIntoFrame b bytes (zlen bytes) _ _) as [er b'] eqn:Ec.
  destruct (CombinePacketIntoFrame_inv _ _ _ _ _ _ _ Hwf Hpad Hoff Hlen Ec)
    as [[Hne _]|(-> & _ & _ & -> & Hwf')].
  { destruct (Z.eqb_spec er E_OK); [contradiction|]. intros [= <- <-]; auto. }
  cbn [negb Z.eqb E_OK next_progress]. intros [= <- <-]. right.
  split; [reflexivity|]. split; [exact Hdup|].
  unfold CheckInFragmentNo. cbn.
  destruct (Z.leb_spec (fragmentCount_ (cw_status w)) (fragNo_ r)); [lia|].
  eexists. split; [|split; [|split; [|split; [|split; [|split; [|split]]]]]]; cycle 7.
  { intros s. rewrite works_of_set. unfold works_of at 1 3. cbn.
    repeat case_decide; congruence || reflexivity. }
  1: constructor; cbn; try assumption.
  1: { eexists _, _. split; [reflexivity|]. split; [exact Hwf'|]. auto. }
  1: { intros i. rewrite elem_of_union, elem_of_singleton. intros [->|?]; [lia|auto]. }
  3: { intros mem2 (b2 & Hb2 & Hwf2 & _ & _ & Hhl2). rewrite Hb in Hb2. injection Hb2 as <-.
       assert (mem2 = mem) as -> by (destruct Hwf, Hwf2; congruence).
       eexists. split; [reflexivity|]. split; [exact Hwf'|]. auto. }
  all: repeat split; reflexivity.
Qed.

(** A failed start leaves the pool as it was. *)
Lemma CreateNewCombineWork_fail c bytes r e c' :
  CreateNewCombineWork c bytes (zlen bytes) r = (e, c') -> e <> E_OK -> c' = c.
Proof.
  unfold CreateNewCombineWork. destruct (AnalyzeSplitStructure r) as [e1 [q l]].
  destruct (Z.eqb_spec e1 E_OK); cbn [negb]; [|intros [= <- <-]; auto].
  destruct (CreateNewFrameBuffer r); [|intros [= <- <-]; auto].
  destruct (CombinePacketIntoFrame _ _ _ _ _) as [e2 b'].
  destruct (Z.eqb_spec e2 E_OK); cbn [negb]; [|intros [= <- <-]; auto].
  cbn. intros [= <- <-]. contradiction.
Qed.

(** A new work displaces the work its source had before. *)
Lemma abort_keeps_newest c src fid w :
  (forall f w', works_of c src !! f = Some w' -> f <> fid ->
     progressId_ (cw_status w') < progressId_ (cw_status w)) ->
  progressId_ (cw_status w) < UINT64_MAX ->
  works_of c src !! fid = Some w -> Z.of_nat (size (works_of c src)) = 2 ->
  forall s, works_of (AbortCombineWorkBySource c src) s =
    if decide (s = src) then {[fid := w]} else works_of c s.
Proof.
  intros Hnew Hp Hw Hsz s. unfold AbortCombineWorkBySource.
  destruct (Z.eqb_spec (Z.of_nat (size (works_of c src))) 0); [lia|].
  destruct (lowest_progress_spec _ _ _ Hw Hp) as (wm & Hm & Hmin).
  destruct (lowest_progress _) as [k p]. cbn [fst] in Hm.
  rewrite works_of_set. destruct (decide (src = s)) as [->|]; [|by rewrite decide_False by congruence].
  rewrite decide_True by reflexivity.
  assert (Hsz2 : size (delete k (works_of c s)) = 1%nat)
    by (rewrite map_size_delete_Some by eauto; lia).
  assert (Hk : k <> fid).
  { intros ->. assert (wm = w) as -> by congruence.
    assert (Hex : exists f w', delete fid (works_of c s) !! f = Some w').
    { apply map_size_1_inv in Hsz2 as (f & w' & ->). exists f, w'. apply lookup_singleton_eq. }
    destruct Hex as (f & w' & Hf). apply lookup_delete_Some in Hf as [Hne Hf].
    pose proof (Hmin _ _ Hf) as Hle. unfold GetProgressId in Hle.
    specialize (Hnew _ _ Hf ltac:(congruence)). lia. }
  apply map_size_1_inv in Hsz2 as (f & w' & Hd).
  assert (Hl : delete k (works_of c s) !! fid = Some w) by (rewrite lookup_delete_ne; auto).
  rewrite Hd in Hl |- *. apply lookup_singleton_Some in Hl as [-> ->]. reflexivity.
Qed.

End Facts.
