(* ===== verification/Reassembly.v ===== *)
(** Properties of the frame combiner: its invariant is preserved whatever packets
    arrive, and the packets of a fragmented frame, in any order, give the frame back. *)

From S2P Require Import Prelude Memory SerialBuffer FrameHeader CommTypes ProtocolProto.
From S2P Require Import Fragmentation ProtoFacts ProtoRoundtrip FragFacts FrameCombiner.
From S2P Require Import CombinerFacts.
From Stdlib Require Import ZArith Lia.
From Stdlib Require Import Strings.Byte.
From stdpp Require Import base numbers list gmap sorting.

Open Scope Z_scope.

(** The fragment numbers of a frame of [n] fragments. *)
Definition all_fragments (n : Z) : gset Z := list_to_set (seqZ 0 n).

Lemma elem_of_all_fragments n i : i ∈ all_fragments n <-> 0 <= i < n.
Proof. unfold all_fragments. rewrite elem_of_list_to_set, elem_of_seqZ. lia. Qed.

Lemma size_all_fragments n : size (all_fragments n) = Z.to_nat n.
Proof. unfold all_fragments. rewrite size_list_to_set by apply NoDup_seqZ. apply length_seqZ. Qed.

(** A work is complete exactly when all its fragments are in. *)
Lemma IsCombineDone_spec w :
  (forall i, i ∈ combinedFragmentNo_ (cw_status w) -> 0 <= i < fragmentCount_ (cw_status w)) ->
  IsCombineDone (cw_status w) = true <->
  combinedFragmentNo_ (cw_status w) = all_fragments (fragmentCount_ (cw_status w)).
Proof.
  intros Hr. unfold IsCombineDone. rewrite Z.leb_le. split.
  - intros Hs. apply set_subseteq_size_eq.
    + intros i Hi. apply elem_of_all_fragments. auto.
    + rewrite size_all_fragments. lia.
  - intros ->. rewrite size_all_fragments. lia.
Qed.

Section Step.
Context `{Host} `{Heap}.

Lemma works_of_touch c s s' : works_of (set_works c s (works_of c s)) s' = works_of c s'.
Proof. rewrite works_of_set. case_decide; congruence. Qed.

Lemma combiner_inv_ext c c' :
  (forall s, works_of c' s = works_of c s) -> incProgressId_ c' = incProgressId_ c ->
  combiner_inv c -> combiner_inv c'.
Proof.
  intros Hw Hi [H1 H2 H3]. constructor; rewrite ?Hi; auto; intros s; rewrite Hw; [apply H2|apply H3].
Qed.

(** Putting one work [w] with the newest progress id at the source [src] and nothing
    else there. *)
Lemma combiner_inv_put c c' src fid w :
  combiner_inv c -> incProgressId_ c < UINT64_MAX ->
  incProgressId_ c' = u64 (incProgressId_ c + 1) ->
  (forall s, works_of c' s = if decide (s = src) then {[fid := w]} else works_of c s) ->
  work_inv w -> work_incomplete w -> progressId_ (cw_status w) = incProgressId_ c ->
  combiner_inv c'.
Proof.
  intros [Hi Ho Hwk] Hlt Hinc Hws Hw Hd Hp.
  assert (Hinc' : incProgressId_ c' = incProgressId_ c + 1).
  { rewrite Hinc. apply wrap_small. unfold UINT64_MAX in *. lia. }
  constructor.
  - lia.
  - intros s. rewrite Hws. case_decide; [rewrite map_size_singleton; reflexivity|apply Ho].
  - intros s f w'. rewrite Hws. case_decide.
    + intros Hl. apply lookup_singleton_Some in Hl as [-> ->]. split_and!; auto; lia.
    + intros Hl. destruct (Hwk _ _ _ Hl) as (? & ? & ?). split_and!; auto; lia.
Qed.

(** At most one work per source: a source that has the work [fid] has nothing else. *)
Lemma works_of_only c src fid w :
  combiner_inv c -> works_of c src !! fid = Some w -> works_of c src = {[fid := w]}.
Proof.
  intros [_ Ho _] Hw. specialize (Ho src). unfold MAX_WORK_PER_SRC_TARGET in Ho.
  assert (Hs : size (works_of c src) = 1%nat).
  { destruct (size (works_of c src)) as [|n] eqn:E; [|lia].
    apply map_size_empty_inv in E. rewrite E, lookup_empty in Hw. discriminate. }
  apply map_size_1_inv in Hs as (k & v & E). rewrite E in Hw |- *.
  apply lookup_singleton_Some in Hw as [-> ->]. reflexivity.
Qed.

(** A packet of an unknown frame: either refused with the pool unchanged, or its
    source is now busy with exactly this frame. *)
Lemma assemble_new c bytes r :
  combiner_inv c -> frag_fields_ok r -> incProgressId_ c < UINT64_MAX ->
  works_of c (sourceId_ r) !! frameId_ r = None ->
  exists e c', AssembleFrameFragment c bytes (zlen bytes) r = ((None, e), c') /\
   ((e <> E_OK /\ (forall s, works_of c' s = works_of c s) /\ incProgressId_ c' = incProgressId_ c) \/
    (e = E_OK /\ exists w, work_inv w /\ combinedFragmentNo_ (cw_status w) = {[fragNo_ r]} /\
       (cw_frameInfo w = frame_info_of r /\ fragmentCount_ (cw_status w) = fragCount_ r /\
        AnalyzeSplitStructure r =
          (E_OK, (fragmentLen_ (cw_status w), lastFragmentLen_ (cw_status w))) /\
        exists mem, zlen mem = frameLen_ r /\
          work_has w (put_fragment (cw_status w) (fragNo_ r) bytes mem)) /\
       progressId_ (cw_status w) = incProgressId_ c /\
       incProgressId_ c' = u64 (incProgressId_ c + 1) /\
       forall s, works_of c' s = if decide (s = sourceId_ r) then {[frameId_ r := w]}
                                 else works_of c s)).
Proof.
  intros Hinv Hr Hinc Hnone. unfold AssembleFrameFragment. rewrite works_of_touch, Hnone.
  set (c0 := set_works c (sourceId_ r) _).
  assert (Hc0 : forall s, works_of c0 s = works_of c s) by (intros; apply works_of_touch).
  destruct (CreateNewCombineWork c0 bytes (zlen bytes) r) as [e c1] eqn:E.
  destruct (Z.eqb_spec e E_OK) as [->|Hne]; cbn [negb].
  2: { eexists _, _. split; [reflexivity|left]. apply CreateNewCombineWork_fail in E as ->; auto. }
  destruct (CreateNewCombineWork_inv _ _ _ _ Hr E) as (w & Hw & Hp & Hcomb & Hstart & Hi & Hws).
  eexists _, _. split; [reflexivity|right]. split; [reflexivity|]. exists w.
  do 4 (split; [assumption|]). split.
  { change (incProgressId_ c) with (incProgressId_ c0). rewrite <- Hi. unfold AbortCombineWorkBySource. destruct (_ <? _); [|reflexivity].
    destruct (_ =? _); [reflexivity|]. destruct (lowest_progress _); reflexivity. }
  pose proof (Hws (sourceId_ r)) as Hsrc. rewrite decide_True, Hc0 in Hsrc by reflexivity.
  assert (Hsz : Z.of_nat (size (works_of c1 (sourceId_ r)))
                = Z.of_nat (size (works_of c (sourceId_ r))) + 1).
  { rewrite Hsrc, map_size_insert_None by assumption. lia. }
  pose proof (ci_one _ Hinv (sourceId_ r)) as Hone. unfold MAX_WORK_PER_SRC_TARGET in *.
  destruct (Z.ltb_spec 1 (Z.of_nat (size (works_of c1 (sourceId_ r))))) as [H2|H1]; intros s.
  - rewrite (abort_keeps_newest c1 (sourceId_ r) (frameId_ r) w).
    + case_decide as Hs; [reflexivity|]. rewrite Hws, decide_False, Hc0 by exact Hs. reflexivity.
    + intros f w' Hf Hne. rewrite Hsrc, lookup_insert_ne in Hf by congruence.
      destruct (ci_work _ Hinv _ _ _ Hf) as (_ & _ & Hlt). rewrite Hp. cbn. lia.
    + rewrite Hp. exact Hinc.
    + rewrite Hsrc. apply lookup_insert_eq.
    + lia.
  - rewrite Hws, Hc0. case_decide as Hs; [|apply Hc0].
    assert (E0 : size (works_of c (sourceId_ r)) = 0%nat) by lia.
    apply map_size_empty_inv in E0. rewrite E0. apply insert_empty.
Qed.

(** A packet of the frame its source is busy with: refused with the pool unchanged,
    or recorded; the frame is delivered with its last missing fragment. *)
Lemma assemble_known c bytes r w :
  combiner_inv c -> frag_fields_ok r ->
  works_of c (sourceId_ r) !! frameId_ r = Some w ->
  exists out e c', AssembleFrameFragment c bytes (zlen bytes) r = ((out, e), c') /\
   ((e = - E_COMBINE_FAIL /\ out = None /\
     (forall s, works_of c' s = works_of c s) /\ incProgressId_ c' = incProgressId_ c) \/
    (e = E_OK /\ fragNo_ r ∉ combinedFragmentNo_ (cw_status w)) /\
     exists w', work_inv w' /\ cw_frameInfo w' = cw_frameInfo w /\
       same_split w w' /\
       (forall mem, work_has w mem ->
          work_has w' (put_fragment (cw_status w) (fragNo_ r) bytes mem)) /\
       combinedFragmentNo_ (cw_status w') = {[fragNo_ r]} ∪ combinedFragmentNo_ (cw_status w) /\
       progressId_ (cw_status w') = incProgressId_ c /\
       incProgressId_ c' = u64 (incProgressId_ c + 1) /\
       ((work_incomplete w' /\ out = None /\
         forall s, works_of c' s = if decide (s = sourceId_ r) then {[frameId_ r := w']}
                                   else works_of c s) \/
        (IsCombineDone (cw_status w') = true /\
         (exists b, cw_buffer w' = Some b /\ out = Some (b, cw_frameInfo w)) /\
         forall s, works_of c' s = if decide (s = sourceId_ r) then ∅ else works_of c s))).
Proof.
  intros Hinv Hr Hsome. unfold AssembleFrameFragment. rewrite works_of_touch, Hsome.
  set (c0 := set_works c (sourceId_ r) _).
  assert (Hc0 : forall s, works_of c0 s = works_of c s) by (intros; apply works_of_touch).
  destruct (ContinueExistCombineWork c0 bytes (zlen bytes) r w) as [e c1] eqn:E.
  destruct (ci_work _ Hinv _ _ _ Hsome) as (Hw & _ & _).
  destruct (ContinueExistCombineWork_inv _ _ _ _ _ _ Hr Hw E)
    as [[-> ->]|(-> & Hdup & w' & Hw' & Hfi & Hsame & Hhas & Hcomb & Hp & Hi & Hws)].
  { eexists _, _, _. split; [reflexivity|left]. auto. }
  assert (Honly : works_of c1 (sourceId_ r) = {[frameId_ r := w']}).
  { rewrite Hws, decide_True, Hc0, (works_of_only _ _ _ _ Hinv Hsome) by reflexivity.
    apply insert_singleton_eq. }
  cbn [negb Z.eqb E_OK]. rewrite Honly, lookup_singleton_eq.
  destruct (wi_buffer _ Hw') as (b & mem & Hb & _).
  destruct (IsCombineDone (cw_status w')) eqn:Ed.
  - eexists _, _, _. split; [reflexivity|right]. split; [auto|].
    exists w'. split_and!; auto. right. split; [exact Ed|]. split.
    { exists b. rewrite Hb, Hfi. auto. }
    intros s. rewrite works_of_set. destruct (decide (sourceId_ r = s)) as [<-|Hne].
    + rewrite decide_True by reflexivity. apply delete_singleton_eq.
    + rewrite Hws, !decide_False, Hc0 by congruence. reflexivity.
  - eexists _, _, _. split; [reflexivity|right]. split; [auto|].
    exists w'. split_and!; auto. left. split; [exact Ed|]. split; [reflexivity|].
    intros s. case_decide as Hs; [subst; exact Honly|].
    rewrite Hws, decide_False, Hc0 by congruence. reflexivity.
Qed.

(** The error number reported is the one of the step taken. *)
Lemma assemble_new_errno c bytes n r :
  works_of c (sourceId_ r) !! frameId_ r = None ->
  snd (fst (AssembleFrameFragment c bytes n r)) =
  fst (CreateNewCombineWork (set_works c (sourceId_ r) (works_of c (sourceId_ r))) bytes n r).
Proof.
  intros Hn. unfold AssembleFrameFragment. rewrite works_of_touch, Hn.
  destruct (CreateNewCombineWork _ _ _ _) as [e c']. cbn [fst].
  destruct (Z.eqb_spec e E_OK) as [->|]; reflexivity.
Qed.

Lemma assemble_known_errno c bytes n r w :
  works_of c (sourceId_ r) !! frameId_ r = Some w ->
  snd (fst (AssembleFrameFragment c bytes n r)) =
  fst (ContinueExistCombineWork (set_works c (sourceId_ r) (works_of c (sourceId_ r))) bytes n r w).
Proof.
  intros Hn. unfold AssembleFrameFragment. rewrite works_of_touch, Hn.
  destruct (ContinueExistCombineWork _ _ _ _ _) as [e c']. cbn [fst].
  destruct (Z.eqb_spec e E_OK) as [->|]; cbn [negb]; [|reflexivity].
  destruct (works_of c' (sourceId_ r) !! frameId_ r); [|reflexivity].
  destruct (IsCombineDone _); reflexivity.
Qed.

Lemma work_incomplete_new w i :
  work_inv w -> combinedFragmentNo_ (cw_status w) = {[i]} -> work_incomplete w.
Proof.
  intros [] E. unfold work_incomplete, IsCombineDone. rewrite E, size_singleton.
  apply Z.leb_gt. lia.
Qed.

Lemma assemble_keeps_inv c bytes r out e c' :
  combiner_inv c -> frag_fields_ok r -> incProgressId_ c < UINT64_MAX ->
  AssembleFrameFragment c bytes (zlen bytes) r = ((out, e), c') -> combiner_inv c'.
Proof.
  intros Hinv Hr Hinc E.
  destruct (works_of c (sourceId_ r) !! frameId_ r) as [w|] eqn:Hw.
  - destruct (assemble_known c bytes r w Hinv Hr Hw) as (out' & e' & c'' & E' & Hcase).
    rewrite E in E'. injection E' as -> -> ->.
    destruct Hcase as [(-> & -> & Hws & Hi)|[[-> Hdup] (w' & Hw' & _ & _ & _ & _ & Hp & Hi &
      [(Hd & -> & Hws)|(Hd & _ & Hws)])]].
    + eapply combiner_inv_ext; eauto.
    + eapply combiner_inv_put; eauto.
    + assert (Hinc' : incProgressId_ c'' = incProgressId_ c + 1).
      { rewrite Hi. apply wrap_small. destruct Hinv. unfold UINT64_MAX in *. lia. }
      destruct Hinv as [Hci1 Hci2 Hci3]. constructor.
      * lia.
      * intros s. rewrite Hws. case_decide; [rewrite map_size_empty; done|apply Hci2].
      * intros s f w1. rewrite Hws. case_decide; [by rewrite lookup_empty|].
        intros Hl. destruct (Hci3 _ _ _ Hl) as (? & ? & ?). split_and!; auto; lia.
  - destruct (assemble_new c bytes r Hinv Hr Hinc Hw) as (e' & c'' & E' & Hcase).
    rewrite E in E'. injection E' as -> -> ->.
    destruct Hcase as [(Hne & Hws & Hi)|(-> & w & Hwi & Hcomb & _ & Hp & Hi & Hws)].
    + eapply combiner_inv_ext; eauto.
    + eapply combiner_inv_put; eauto using work_incomplete_new.
Qed.

(** C9: whatever packet arrives, the combiner keeps its invariant (every work is
    well formed, incomplete, and the only one of its source); a refused packet leaves
    every work untouched; and a frame is handed out only together with success, with
    the announced length, when the packet supplied the last missing fragment, and is
    then no longer in the pool. *)
Theorem assemble_invariant c bytes r out e c' :
  combiner_inv c -> frag_fields_ok r -> incProgressId_ c < UINT64_MAX ->
  AssembleFrameFragment c bytes (zlen bytes) r = ((out, e), c') ->
  combiner_inv c' /\
  (e <> E_OK -> out = None /\ forall s, works_of c' s = works_of c s) /\
  (forall b info, out = Some (b, info) ->
     e = E_OK /\ works_of c' (sourceId_ r) = ∅ /\ totalLen_ b = frameLen_ info /\
     exists w, works_of c (sourceId_ r) !! frameId_ r = Some w /\ info = cw_frameInfo w /\
       {[fragNo_ r]} ∪ combinedFragmentNo_ (cw_status w) = all_fragments (fragCount_ info)).
Proof.
  intros Hinv Hr Hinc E. split; [eapply assemble_keeps_inv; eauto|].
  destruct (works_of c (sourceId_ r) !! frameId_ r) as [w|] eqn:Hw.
  - destruct (assemble_known c bytes r w Hinv Hr Hw) as (out' & e' & c'' & E' & Hcase).
    rewrite E in E'. injection E' as -> -> ->.
    destruct Hcase as [(-> & -> & Hws & Hi)|[[-> Hdup] (w' & Hw' & Hfi & Hsame & _ & Hcomb & _ & _ &
      [(_ & -> & _)|(Hd & (b & Hb & ->) & Hws)])]]; [split; [auto|discriminate]|split; done|].
    split; [done|]. intros b' info [= <- <-]. split; [reflexivity|].
    split; [rewrite Hws, decide_True; reflexivity|].
    pose proof Hw' as [(b1 & mem & Hb1 & _ & _ & Htot) _ Hinfo _ _ _ Hrange].
    apply IsCombineDone_spec in Hd; [|exact Hrange].
    rewrite Hb in Hb1. injection Hb1 as ->. rewrite Htot, Hfi. split; [reflexivity|].
    exists w. rewrite <- Hcomb, Hd, <- Hinfo, Hfi. auto.
  - destruct (assemble_new c bytes r Hinv Hr Hinc Hw) as (e' & c'' & E' & Hcase).
    rewrite E in E'. injection E' as -> -> ->.
    destruct Hcase as [(Hne & Hws & Hi)|(-> & _)]; split; try done; auto.
Qed.

Lemma works_of_surveillance c s :
  works_of (PeriodicalSurveillance c) s = omap surveil_work (works_of c s).
Proof.
  unfold works_of, PeriodicalSurveillance. cbn. rewrite lookup_fmap.
  destruct (combineWorkPool_ c !! s); [reflexivity|]. cbn. by rewrite omap_empty.
Qed.

(** C16: a surveillance tick keeps the invariant; a work survives it exactly when it
    made progress since the previous tick, so two ticks without a packet in between
    empty the pool. *)
Theorem surveillance_invariant c :
  combiner_inv c ->
  combiner_inv (PeriodicalSurveillance c) /\
  (forall s f, is_Some (works_of (PeriodicalSurveillance c) s !! f) <->
     exists w, works_of c s !! f = Some w /\ hasProgressFlag_ (cw_status w) = true) /\
  (forall s, works_of (PeriodicalSurveillance (PeriodicalSurveillance c)) s = ∅).
Proof.
  intros [Hi Ho Hwk].
  assert (Hl : forall s f w', works_of (PeriodicalSurveillance c) s !! f = Some w' <->
    exists w, works_of c s !! f = Some w /\ hasProgressFlag_ (cw_status w) = true /\
      w' = mkCombineWork (cw_buffer w) (snd (CheckProgress (cw_status w))) (cw_frameInfo w)).
  { intros s f w'. rewrite works_of_surveillance, lookup_omap_Some. unfold surveil_work. cbn.
    split; intros (w & H1 & H2); exists w.
    - destruct (hasProgressFlag_ (cw_status w)); [|discriminate]. injection H1 as <-. auto.
    - destruct H2 as [-> ->]. auto. }
  split; [constructor|split].
  - exact Hi.
  - intros s. etrans; [|apply (Ho s)]. apply inj_le.
    rewrite works_of_surveillance, <- !size_dom. apply subseteq_size, dom_omap_subseteq.
  - intros s f w' Hw'. apply Hl in Hw' as (w & Hw & _ & ->).
    destruct (Hwk _ _ _ Hw) as ([] & Hd & Hp).
    split; [constructor; assumption|split; [exact Hd|exact Hp]].
  - intros s f. split.
    + intros [w' Hw']. apply Hl in Hw' as (w & ? & ? & _). eauto.
    + intros (w & ? & ?). eexists. apply Hl. eauto.
  - intros s. rewrite works_of_surveillance. apply map_empty. intros f.
    rewrite lookup_omap. destruct (works_of (PeriodicalSurveillance c) s !! f) eqn:Hw';
      [|reflexivity]. apply Hl in Hw' as (w & _ & _ & ->). reflexivity.
Qed.

End Step.

(** * Reassembling a fragmented frame *)

Section Frame.
Context `{Host} `{Heap} {hf info body} (Hwf : split_wf hf info body).

Abbreviation q := (quotient_of info).
Abbreviation count := (fragCount info).
Abbreviation result i := (@frag_result hf info i).

(** What the receiver reports about the frame: the same for every fragment. *)
Definition frame_result : ParseResult := frame_info_of (result 0).

Lemma frame_info_of_frag i : frame_info_of (result i) = frame_result.
Proof. reflexivity. Qed.

Lemma frag_result_fields i : 0 <= i < count -> frag_fields_ok (result i).
Proof.
  intros Hi. pose proof Hwf as []. unfold MAX_FRAME_LEN, sizeof_CommPhyHeader in *.
  unfold frag_fields_ok, sizeof_CommPhyHeader. cbn. unfold sizeof_CommPhyHeader. lia.
Qed.

Definition frame_status (w : CombineWork) : Prop :=
  cw_frameInfo w = frame_result /\ fragmentCount_ (cw_status w) = count /\
  fragmentLen_ (cw_status w) = q /\ lastFragmentLen_ (cw_status w) = q + remainder_of info.

(** The bytes of the fragments in [S] are where they belong. *)
Definition holds_fragments (S : gset Z) (mem : list byte) : Prop :=
  zlen mem = sizeof_CommPhyHeader + splitLength info /\
  forall i, i ∈ S ->
    slice (sizeof_CommPhyHeader + i * q) (piece_frag_len info i) mem = frag_payload info body i.

(** The source is busy with the frame and has received exactly the fragments [S]. *)
Definition assembling (c : FrameCombiner) (S : gset Z) : Prop :=
  exists w mem, works_of c (phy_sourceId hf) = {[phy_frameId hf := w]} /\
    combinedFragmentNo_ (cw_status w) = S /\ frame_status w /\ work_has w mem /\
    holds_fragments S mem.

Lemma fragment_offset w i :
  frame_status w -> 0 <= i < count ->
  GetThisFragmentOffset (cw_status w) i = i * q /\
  GetThisFragmentLength (cw_status w) i = piece_frag_len info i.
Proof.
  intros (_ & Hc & Hq & Hl) Hi. pose proof (piece_bounds Hwf i Hi) as (? & ? & _).
  pose proof (quotient_bounds Hwf) as (? & ? & ?).
  unfold GetThisFragmentOffset, GetThisFragmentLength. rewrite Hc, Hq, Hl.
  rewrite (piece_frag_len_spec Hwf). pose proof Hwf as [].
  unfold MAX_FRAME_LEN, sizeof_CommPhyHeader in *. split.
  - rewrite (wrap_small 32) by nia. lia.
  - destruct (i =? count - 1); reflexivity.
Qed.

(** The bytes a packet contributes are its fragment. *)
Lemma packet_payload i :
  0 <= i < count ->
  slice (sizeof_CommPhyHeader + sizeof_CommPhyOptHeader) (piece_frag_len info i)
    (frag_packet hf info body i) = frag_payload info body i.
Proof.
  intros Hi. pose proof (zlen_frag_payload Hwf i Hi) as Hz.
  pose proof (piece_bounds Hwf i Hi) as (? & _).
  unfold sizeof_CommPhyHeader, sizeof_CommPhyOptHeader, frag_packet, frag_rest.
  rewrite slice_app_r, zlen_store_phy by (rewrite zlen_store_phy; lia).
  rewrite slice_app_r, zlen_store_opt by (rewrite zlen_store_opt; lia).
  change (32 + 8 - 32 - 8) with 0. rewrite slice_app_l by lia.
  rewrite <- Hz. apply slice_all.
Qed.

Lemma put_fragment_holds w S i mem :
  frame_status w -> 0 <= i < count -> (forall j, j ∈ S -> 0 <= j < count) -> i ∉ S ->
  holds_fragments S mem ->
  holds_fragments ({[i]} ∪ S) (put_fragment (cw_status w) i (frag_packet hf info body i) mem).
Proof.
  intros Hst Hi HS Hni [Hz Hmem]. unfold put_fragment.
  destruct (fragment_offset w i Hst Hi) as [-> ->]. rewrite packet_payload by exact Hi.
  pose proof (zlen_frag_payload Hwf i Hi) as Hp.
  pose proof (piece_bounds Hwf i Hi) as (Hi1 & Hi2 & _). pose proof (quotient_bounds Hwf) as (Hq & _).
  unfold holds_fragments, sizeof_CommPhyHeader in *.
  assert (0 <= i * q) by nia. split; [rewrite zlen_splice; lia|].
  intros j. rewrite elem_of_union, elem_of_singleton. intros [->|Hj].
  - apply slice_splice_same; lia.
  - assert (i <> j) by congruence. specialize (HS j Hj).
    pose proof (piece_bounds Hwf j HS) as (Hj1 & _). rewrite (piece_frag_len_spec Hwf) in Hp, Hi2.
    rewrite slice_splice_disjoint; [auto|lia|rewrite Hp; lia|nia|].
    rewrite Hp, (piece_frag_len_spec Hwf).
    destruct (Z.eqb_spec i (count - 1)), (Z.eqb_spec j (count - 1)); nia.
Qed.

(** ** All fragments present means the frame is back *)

Lemma holds_prefix mem n :
  holds_fragments (all_fragments count) mem -> 0 <= n < count ->
  slice 32 (n * q) mem = slice 0 (n * q) body.
Proof.
  intros [Hz Hm] Hn. pose proof (quotient_bounds Hwf) as (Hq & _).
  destruct Hn as [Hn Hlt]. revert Hlt. pattern n. apply natlike_ind; [|clear n Hn|exact Hn].
  - intros _. rewrite Z.mul_0_l, !slice_nil_len. reflexivity.
  - intros n Hn IH Hlt. unfold Z.succ in *. rewrite Z.mul_add_distr_r, Z.mul_1_l.
    rewrite !slice_split by nia. rewrite IH by lia. f_equal.
    specialize (Hm n ltac:(apply elem_of_all_fragments; lia)).
    unfold frag_payload, sizeof_CommPhyHeader in Hm. rewrite (piece_frag_len_spec Hwf) in Hm.
    destruct (Z.eqb_spec n (count - 1)); [lia|]. exact Hm.
Qed.

Lemma holds_all mem :
  holds_fragments (all_fragments count) mem ->
  slice sizeof_CommPhyHeader (splitLength info) mem = body.
Proof.
  intros Hall. pose proof (quotient_bounds Hwf) as (Hq & Hsum & Hr). pose proof Hwf as [].
  pose proof (holds_prefix mem (count - 1) Hall ltac:(lia)) as Hpre.
  destruct Hall as [Hz Hm].
  specialize (Hm (count - 1) ltac:(apply elem_of_all_fragments; lia)).
  unfold frag_payload, sizeof_CommPhyHeader in *. rewrite (piece_frag_len_spec Hwf), Z.eqb_refl in Hm.
  replace (splitLength info) with ((count - 1) * q + (q + remainder_of info)) by nia.
  rewrite slice_split by nia. rewrite Hpre, Hm, <- slice_split by nia.
  replace ((count - 1) * q + (q + remainder_of info)) with (zlen body) by nia.
  apply slice_all.
Qed.

(** ** One packet *)

(** The frame is at least as long as the headers its type calls for. *)
Definition frame_long_enough : Prop :=
  (if decide (GetFrameType (phy_packetType hf) = APPLICATION_MESSAGE)
   then GetAppLayerFrameHeaderLength else GetCommLayerFrameHeaderLength)
  <= sizeof_CommPhyHeader + splitLength info.

Lemma CreateNewFrameBuffer_ok i :
  heap_total -> frame_long_enough -> exists b, CreateNewFrameBuffer (result i) = Some b.
Proof.
  intros [Hobj Hnew] Hlong. pose proof Hwf as []. unfold CreateNewFrameBuffer. rewrite Hobj.
  cbn [negb frag_result set_frag_info frameType_ SetFrameTypeInfo frameLen_].
  unfold frame_long_enough in Hlong. set (hl := if decide _ then _ else _) in *.
  unfold MAX_FRAME_LEN, sizeof_CommPhyHeader in *.
  unfold AllocBufferByTotalLength. cbn [is_null bytes_ externalBytes_ emptySerialBuffer negb orb].
  destruct (Z.eqb_spec (splitLength info + 32) 0); [lia|].
  destruct (Z.ltb_spec MAX_TOTAL_LEN (splitLength info + 32)) as [Hbad|];
    [unfold MAX_TOTAL_LEN in Hbad; lia|].
  destruct (Z.ltb_spec (splitLength info + 32) hl); [lia|]. cbn [orb].
  destruct (Hnew (splitLength info + 32) ltac:(lia)) as [mem E].
  destruct (heap_new _) as [mem'|] eqn:E'; [|congruence]. cbn. eauto.
Qed.

Lemma frame_status_start i w :
  0 <= i < count -> cw_frameInfo w = frame_info_of (result i) ->
  fragmentCount_ (cw_status w) = fragCount_ (result i) ->
  AnalyzeSplitStructure (result i) =
    (E_OK, (fragmentLen_ (cw_status w), lastFragmentLen_ (cw_status w))) ->
  frame_status w.
Proof.
  intros Hi Hf Hc Ha. rewrite (AnalyzeSplitStructure_eq Hwf i Hi) in Ha.
  injection Ha as H1 H2. unfold frame_status. auto.
Qed.

Lemma CombinePacket_fits w b mem i :
  frame_status w -> owned_wf b mem 0 -> paddingLen_ b = 0 ->
  totalLen_ b = sizeof_CommPhyHeader + splitLength info -> 0 <= i < count ->
  fst (CombinePacketIntoFrame b (frag_packet hf info body i) (zlen (frag_packet hf info body i))
    (GetThisFragmentOffset (cw_status w) i) (GetThisFragmentLength (cw_status w) i)) = E_OK.
Proof.
  intros Hst Hb Hpad Htot Hi. destruct (fragment_offset w i Hst Hi) as [-> ->].
  pose proof (piece_bounds Hwf i Hi) as (? & ? & _). pose proof (quotient_bounds Hwf) as (? & _).
  pose proof (frag_pad_bounds Hwf i Hi) as (? & _ & ?). pose proof (zlen_frag_packet Hwf i Hi).
  unfold sizeof_CommPhyHeader in *. rewrite (CombinePacketIntoFrame_ok b mem); auto; nia.
Qed.

Lemma CreateNewCombineWork_ok c i :
  heap_total -> frame_long_enough -> 0 <= i < count ->
  fst (CreateNewCombineWork c (frag_packet hf info body i)
         (zlen (frag_packet hf info body i)) (result i)) = E_OK.
Proof.
  intros Hheap Hlong Hi. unfold CreateNewCombineWork. rewrite (AnalyzeSplitStructure_eq Hwf i Hi).
  cbn [negb Z.eqb E_OK]. destruct (CreateNewFrameBuffer_ok i Hheap Hlong) as [b Hb]. rewrite Hb.
  pose proof Hwf as []. unfold MAX_FRAME_LEN, sizeof_CommPhyHeader in *.
  assert (Hlen : 32 < frameLen_ (result i) <= MAX_FRAME_LEN).
  { change (frameLen_ (result i)) with (splitLength info + 32). unfold MAX_FRAME_LEN. lia. }
  destruct (CreateNewFrameBuffer_inv _ _ Hlen Hb)
    as (mem & Hbwf & Hpad & Htot & _).
  set (st := SetFragmentCount _ _).
  pose proof (CombinePacket_fits (mkCombineWork None st frame_result) b mem i) as Hfit.
  cbn [cw_status] in Hfit.
  destruct (CombinePacketIntoFrame b _ _ _ _) as [e b'] eqn:E.
  change (frameLen_ (result i)) with (splitLength info + 32) in Htot.
  change sizeof_CommPhyHeader with 32 in Hfit. cbn [fst] in Hfit.
  rewrite Hfit; [reflexivity|repeat split|assumption|assumption|lia|assumption].
Qed.

Lemma ContinueExistCombineWork_ok c w mem i :
  frame_status w -> work_has w mem -> 0 <= i < count ->
  i ∉ combinedFragmentNo_ (cw_status w) ->
  fst (ContinueExistCombineWork c (frag_packet hf info body i)
         (zlen (frag_packet hf info body i)) (result i) w) = E_OK.
Proof.
  intros Hst (b & Hb & Hbwf & Hpad & Htot & _) Hi Hni. pose proof Hst as (Hfi & _).
  unfold ContinueExistCombineWork, CheckPacketWithOriWork. rewrite Hfi, Hb.
  cbn [frag_result frame_result frame_info_of frameLen_ fragCount_ fragNo_ set_frag_info].
  rewrite !Z.eqb_refl. cbn [negb]. destruct (Z.leb_spec count i); [lia|].
  unfold IsFragNoAlreadyExist. rewrite bool_decide_false by exact Hni. cbn [negb].
  pose proof (CombinePacket_fits w b mem i Hst Hbwf Hpad) as Hfit.
  destruct (CombinePacketIntoFrame b _ _ _ _) as [e b'] eqn:E. cbn [fst] in Hfit.
  rewrite Hfit; [reflexivity| |exact Hi].
  rewrite Htot, Hfi. apply Z.add_comm.
Qed.

(** The first packet of the frame to arrive. *)
Lemma first_fragment c i :
  heap_total -> frame_long_enough -> combiner_inv c -> incProgressId_ c < UINT64_MAX ->
  works_of c (phy_sourceId hf) !! phy_frameId hf = None -> 0 <= i < count ->
  exists c', AssembleFrameFragment c (frag_packet hf info body i)
               (zlen (frag_packet hf info body i)) (result i) = ((None, E_OK), c') /\
    assembling c' {[i]} /\ combiner_inv c' /\ incProgressId_ c' = incProgressId_ c + 1.
Proof.
  intros Hheap Hlong Hinv Hinc Hnone Hi.
  destruct (assemble_new c (frag_packet hf info body i) (result i) Hinv (frag_result_fields i Hi)
              Hinc Hnone) as (e & c' & E & Hcase).
  pose proof (assemble_new_errno c (frag_packet hf info body i)
                (zlen (frag_packet hf info body i)) (result i) Hnone) as He.
  rewrite CreateNewCombineWork_ok, E in He by assumption. cbn in He. subst e.
  destruct Hcase as [(Hne & _)|(_ & w & Hw & Hcomb & (Hfi & Hfc & Ha & mem & Hz & Hhas) & Hp & Hi' & Hws)];
    [done|].
  pose proof (frame_status_start i w Hi Hfi Hfc Ha) as Hst.
  exists c'. split; [exact E|]. split_and!.
  - exists w, (put_fragment (cw_status w) i (frag_packet hf info body i) mem). split_and!; auto.
    + rewrite Hws, decide_True; reflexivity.
    + rewrite <- (right_id_L ∅ (∪) {[i]}). apply put_fragment_holds; auto; [set_solver|set_solver|].
      split; [|set_solver]. rewrite Hz. apply Z.add_comm.
  - eapply combiner_inv_put; eauto using work_incomplete_new.
  - rewrite Hi'. apply wrap_small. destruct Hinv. unfold UINT64_MAX in *. lia.
Qed.

(** The buffer of the complete frame. *)
Definition delivered (b : SerialBuffer) : Prop :=
  exists mem, owned_wf b mem 0 /\ slice sizeof_CommPhyHeader (splitLength info) mem = body /\
    paddingLen_ b = 0 /\ totalLen_ b = sizeof_CommPhyHeader + splitLength info /\
    headerLen_ b = frame_header_len (GetFrameType (phy_packetType hf)).

(** A further packet of the frame. *)
Lemma next_fragment c S i :
  combiner_inv c -> incProgressId_ c < UINT64_MAX -> assembling c S ->
  0 <= i < count -> i ∉ S ->
  exists out c', AssembleFrameFragment c (frag_packet hf info body i)
               (zlen (frag_packet hf info body i)) (result i) = ((out, E_OK), c') /\
    combiner_inv c' /\ incProgressId_ c' = incProgressId_ c + 1 /\
    ((out = None /\ assembling c' ({[i]} ∪ S) /\ {[i]} ∪ S <> all_fragments count) \/
     ({[i]} ∪ S = all_fragments count /\ works_of c' (phy_sourceId hf) = ∅ /\
      exists b, out = Some (b, frame_result) /\ delivered b)).
Proof.
  intros Hinv Hinc (w & mem & Hws & Hcomb & Hst & Hhas & Hold) Hi Hni.
  assert (Hw : works_of c (phy_sourceId hf) !! phy_frameId hf = Some w)
    by (rewrite Hws; apply lookup_singleton_eq).
  destruct (assemble_known c (frag_packet hf info body i) (result i) w Hinv
              (frag_result_fields i Hi) Hw) as (out & e & c' & E & Hcase).
  pose proof (assemble_known_errno c (frag_packet hf info body i)
                (zlen (frag_packet hf info body i)) (result i) w Hw) as He.
  rewrite (ContinueExistCombineWork_ok _ w mem), E in He by (rewrite ?Hcomb; assumption).
  cbn in He. subst e.
  pose proof (assemble_keeps_inv _ _ _ _ _ _ Hinv (frag_result_fields i Hi) Hinc E) as Hinv'.
  destruct Hcase as [(Hbad & _)|[_ (w' & Hw' & Hfi & (Hs1 & Hs2 & Hs3) & Hput & Hcomb' & Hp & Hi' & Hend)]];
    [discriminate|].
  assert (HS : forall j, j ∈ S -> 0 <= j < count).
  { destruct (ci_work _ Hinv _ _ _ Hw) as (Hwi & _). destruct Hwi as [_ _ _ _ _ _ Hr].
    destruct Hst as (_ & <- & _). rewrite <- Hcomb. exact Hr. }
  pose proof (put_fragment_holds w S i mem Hst Hi HS Hni Hold) as Hnew. specialize (Hput _ Hhas).
  assert (Hst' : frame_status w').
  { destruct Hst as (? & ? & ? & ?). repeat split; congruence. }
  change (fragNo_ (result i)) with i in *. rewrite Hcomb in Hcomb'.
  assert (Hdone : IsCombineDone (cw_status w') = true <-> {[i]} ∪ S = all_fragments count).
  { rewrite <- Hcomb'. destruct Hst' as (_ & <- & _). apply IsCombineDone_spec, Hw'. }
  exists out, c'. split; [exact E|]. split; [exact Hinv'|]. split.
  { rewrite Hi'. apply wrap_small. destruct Hinv. unfold UINT64_MAX in *. lia. }
  destruct Hend as [(Hinc' & -> & Hws')|(Hd & (b & Hb & ->) & Hws')].
  - left. split; [reflexivity|]. split.
    + exists w', (put_fragment (cw_status w) i (frag_packet hf info body i) mem).
      split_and!; auto. rewrite Hws'. rewrite decide_True by reflexivity. reflexivity.
    + intros Hall. apply Hdone in Hall. unfold work_incomplete in Hinc'. congruence.
  - right. apply Hdone in Hd. split; [exact Hd|]. split; [rewrite Hws', decide_True; reflexivity|].
    destruct Hput as (b2 & Hb2 & Hbwf & Hpad & Htot & Hhl). rewrite Hb in Hb2. injection Hb2 as <-.
    rewrite Hd in Hnew. exists b. destruct Hst' as (Hfr & _). rewrite Hfr in Htot, Hhl.
    split; [by destruct Hst as (-> & _)|]. eexists. split; [exact Hbwf|].
    split; [apply holds_all, Hnew|]. split; [exact Hpad|]. split; [|exact Hhl].
    rewrite Htot. apply Z.add_comm.
Qed.

(** ** All packets *)

(** The receiving path of one packet up to the delivery of a frame. *)
Definition receive (srcTarget : cstring) (c : FrameCombiner) (pkt : list byte)
    : (option (SerialBuffer * ParseResult) * Z) * FrameCombiner :=
  let '(errCode, packetResult) := CheckAndParsePacket srcTarget (Some pkt) (zlen pkt) emptyParseResult in
  if negb (errCode =? E_OK) then ((None, errCode), c)
  else AssembleFrameFragment c pkt (zlen pkt) packetResult.

Fixpoint receive_all (srcTarget : cstring) (c : FrameCombiner) (pkts : list (list byte))
    : list (option (SerialBuffer * ParseResult) * Z) * FrameCombiner :=
  match pkts with
  | [] => ([], c)
  | pkt :: pkts =>
    let '(out, c) := receive srcTarget c pkt in
    let '(outs, c) := receive_all srcTarget c pkts in
    (out :: outs, c)
  end.

(** The header of the frame is one its sender [src] produces. *)
Record frame_from (src : cstring) : Prop := {
  ff_magic : phy_magic hf = MAGIC_CODE;
  ff_version : phy_version hf = PROTOCOL_VERSION;
  ff_source : phy_sourceId hf = HashFunc src;
  ff_type : GetFrameType (phy_packetType hf) <> INVALID_MAX_FRAME_TYPE;
  ff_nonempty : GetFrameType (phy_packetType hf) <> EMPTY
}.

Lemma receive_frag src c i :
  frame_from src -> 0 <= i < count ->
  receive src c (frag_packet hf info body i) =
  AssembleFrameFragment c (frag_packet hf info body i) (zlen (frag_packet hf info body i)) (result i).
Proof.
  intros [] Hi. unfold receive. rewrite (frag_packet_parse Hwf src i) by assumption. reflexivity.
Qed.

Definition packets (order : list Z) : list (list byte) := map (frag_packet hf info body) order.

Lemma receive_rest src order c S :
  frame_from src -> combiner_inv c ->
  incProgressId_ c + Z.of_nat (length order) <= UINT64_MAX -> assembling c S ->
  NoDup order -> (forall i, i ∈ order -> 0 <= i < count /\ i ∉ S) -> order <> [] ->
  list_to_set order ∪ S = all_fragments count ->
  exists c' b, receive_all src c (packets order) =
      (replicate (length order - 1) (None, E_OK) ++ [(Some (b, frame_result), E_OK)], c') /\
    delivered b /\ works_of c' (phy_sourceId hf) = ∅ /\ combiner_inv c'.
Proof.
  intros Hsrc. revert c S.
  induction order as [|i order IH]; intros c S Hinv Hinc Has Hnd Hin Hne Hall; [done|].
  apply NoDup_cons in Hnd as [Hni Hnd]. cbn [length] in Hinc.
  destruct (Hin i ltac:(apply elem_of_cons; auto)) as [Hi HiS].
  destruct (next_fragment c S i Hinv ltac:(lia) Has Hi HiS) as (out & c1 & E & Hinv1 & Hinc1 & Hcase).
  cbn [packets map receive_all]. rewrite receive_frag, E by assumption. fold (packets order).
  destruct Hcase as [(-> & Has1 & Hmore)|(Hdone & Hempty & b & -> & Hb)].
  - destruct order as [|j order'].
    { exfalso. apply Hmore. rewrite <- Hall. set_solver. }
    destruct (IH c1 ({[i]} ∪ S)) as (c' & b & E' & Hd & Hw & Hinv'); auto; [lia| |set_solver|].
    { intros k Hk. destruct (Hin k ltac:(apply elem_of_cons; auto)). split; [assumption|].
      set_unfold. intros [->|?]; [apply Hni; set_solver|tauto]. }
    exists c', b. rewrite E'. split_and!; auto. cbn [length]. rewrite !Nat.sub_succ, !Nat.sub_0_r.
    reflexivity.
  - destruct order as [|j order'].
    { exists c1, b. split_and!; auto. }
    exfalso. destruct (Hin j ltac:(set_solver)) as [Hj HjS].
    assert (Hj' : j ∈ {[i]} ∪ S) by (rewrite Hdone; apply elem_of_all_fragments; exact Hj).
    set_unfold. destruct Hj' as [->|?]; [apply Hni; auto|tauto].
Qed.

(** Every arrival order of the packets gives the frame with the last one. *)
Lemma receive_any_order src order c :
  heap_total -> frame_long_enough -> frame_from src -> combiner_inv c ->
  incProgressId_ c + count <= UINT64_MAX ->
  works_of c (phy_sourceId hf) !! phy_frameId hf = None ->
  order ≡ₚ seqZ 0 count ->
  exists c' b, receive_all src c (packets order) =
      (replicate (Z.to_nat count - 1) (None, E_OK) ++ [(Some (b, frame_result), E_OK)], c') /\
    delivered b /\ works_of c' (phy_sourceId hf) = ∅ /\ combiner_inv c'.
Proof.
  intros Hheap Hlong Hsrc Hinv Hinc Hnone Hord.
  assert (Hnd : NoDup order) by (rewrite Hord; apply NoDup_seqZ).
  assert (Hlen : length order = Z.to_nat count) by (rewrite Hord; apply length_seqZ).
  assert (Hin : forall i, i ∈ order <-> 0 <= i < count).
  { intros i. rewrite Hord, elem_of_seqZ. lia. }
  pose proof Hwf as []. destruct order as [|i order]; [cbn in Hlen; lia|].
  assert (Hi : 0 <= i < count) by (apply Hin, elem_of_cons; auto).
  destruct (first_fragment c i Hheap Hlong Hinv ltac:(lia) Hnone Hi) as (c1 & E & Has & Hinv1 & Hinc1).
  apply NoDup_cons in Hnd as [Hni Hnd]. cbn [length] in Hlen.
  destruct (receive_rest src order c1 {[i]}) as (c' & b & E' & Hd & Hw & Hinv'); auto.
  - lia.
  - intros j Hj. split; [apply Hin, elem_of_cons; auto|set_unfold; intros ->; auto].
  - intros ->. cbn in Hlen. lia.
  - apply set_eq. intros j. rewrite elem_of_all_fragments, <- Hin. set_solver.
  - exists c', b. cbn [packets map receive_all]. rewrite receive_frag, E by assumption.
    fold (packets order). rewrite E'. split_and!; auto.
    rewrite <- Hlen. cbn [length]. destruct order as [|k order]; [cbn in Hlen; lia|].
    cbn [length]. rewrite !Nat.sub_succ, !Nat.sub_0_r. reflexivity.
Qed.

End Frame.

(** * Splitting a buffer *)

Section Split.
Context `{Host} `{Heap}.

(** A buffer ready to be sent: [hf] is its physical header in host order, the MTU
    leaves room for the extended head and the packet headers, and the frame needs
    fewer than 2^16 fragments. *)
Record sendable (b : SerialBuffer) (mem : list byte) (hf : CommPhyHeader) (mtu : Z) : Prop := {
  sd_wf : owned_wf b mem (extendHeadLen_ b);
  sd_ext : 0 <= extendHeadLen_ b <= MAX_EXTEND_HEAD_LENGTH;
  sd_phy : phy_ok hf;
  sd_head : slice (extendHeadLen_ b) sizeof_CommPhyHeader mem = store_phy (phy_ConvertHostToNet hf);
  sd_len : sizeof_CommPhyHeader <= headerLen_ b;
  sd_max : headerLen_ b + payloadLen_ b <= MAX_FRAME_LEN;
  sd_mtu : extendHeadLen_ b + sizeof_CommPhyHeader + sizeof_CommPhyOptHeader < mtu < 2 ^ 32;
  sd_count : (headerLen_ b + payloadLen_ b - sizeof_CommPhyHeader)
             / (mtu - extendHeadLen_ b - sizeof_CommPhyHeader - sizeof_CommPhyOptHeader) + 1 < 2 ^ 16
}.

Definition split_length (b : SerialBuffer) : Z :=
  headerLen_ b + payloadLen_ b - sizeof_CommPhyHeader.

Definition max_fragment (b : SerialBuffer) (mtu : Z) : Z :=
  mtu - extendHeadLen_ b - sizeof_CommPhyHeader - sizeof_CommPhyOptHeader.

(** The number of fragments is the length divided by the room in a packet, rounded up. *)
Definition split_count (b : SerialBuffer) (mtu : Z) : Z :=
  (split_length b + max_fragment b mtu - 1) / max_fragment b mtu.

Definition split_info (b : SerialBuffer) (mem : list byte) (mtu : Z) : FrameFragmentInfo :=
  mkFrameFragmentInfo mem (extendHeadLen_ b) (split_length b) (split_count b mtu).

Definition split_body (b : SerialBuffer) (mem : list byte) : list byte :=
  slice (extendHeadLen_ b + sizeof_CommPhyHeader) (split_length b) mem.

Lemma ceil_div n d :
  0 < n -> 0 < d -> (n + d - 1) / d = if n mod d =? 0 then n / d else n / d + 1.
Proof.
  intros Hn Hd. pose proof (Z.div_mod n d ltac:(lia)) as E.
  pose proof (Z.mod_pos_bound n d Hd) as Hm. symmetry.
  destruct (Z.eqb_spec (n mod d) 0); apply (Z.div_unique _ _ _ (if decide (n mod d = 0) then d - 1 else n mod d - 1));
    case_decide; lia.
Qed.

Section Sent.
Context {b mem hf mtu} (Hs : sendable b mem hf mtu).

Lemma split_room :
  1 <= max_fragment b mtu /\
  (mtu < totalLen_ b + extendHeadLen_ b -> max_fragment b mtu < split_length b).
Proof.
  destruct Hs as [[]]. unfold max_fragment, split_length, sizeof_CommPhyHeader,
    sizeof_CommPhyOptHeader in *. lia.
Qed.

Lemma split_count_bounds :
  mtu < totalLen_ b + extendHeadLen_ b ->
  2 <= split_count b mtu < 2 ^ 16 /\ split_count b mtu <= split_length b.
Proof.
  intros Hm. destruct split_room as [H1 H2]. specialize (H2 Hm). unfold split_count.
  pose proof (sd_count _ _ _ _ Hs) as Hc.
  fold (split_length b) (max_fragment b mtu) in Hc.
  set (n := split_length b) in *. set (d := max_fragment b mtu) in *. clearbody n d.
  rewrite ceil_div by lia.
  pose proof (Z.div_mod n d ltac:(lia)) as E. pose proof (Z.mod_pos_bound n d ltac:(lia)).
  assert (1 <= n / d) by (apply Z.div_le_lower_bound; lia).
  destruct (Z.eqb_spec (n mod d) 0); nia.
Qed.

Lemma split_info_wf :
  mtu < totalLen_ b + extendHeadLen_ b -> split_wf hf (split_info b mem mtu) (split_body b mem).
Proof.
  intros Hm. pose proof (split_count_bounds Hm) as [Hc Hcl]. destruct Hs as [[]].
  unfold MAX_TOTAL_LEN, MAX_FRAME_LEN, sizeof_CommPhyHeader in *.
  constructor; cbn; auto; unfold split_length, split_body, MAX_FRAME_LEN, sizeof_CommPhyHeader in *;
    try lia. apply zlen_slice; lia.
Qed.

Lemma SplitFrame_eq :
  mtu < totalLen_ b + extendHeadLen_ b ->
  SplitFrameIntoPacketsIfNeed b mtu =
    (E_OK, map (fun j => (slice 0 (extendHeadLen_ b) mem
                          ++ frag_packet hf (split_info b mem mtu) (split_body b mem) j,
                          extendHeadLen_ b))
             (seqZ 0 (split_count b mtu))).
Proof.
  intros Hm. pose proof (split_info_wf Hm) as Hwf. pose proof (split_count_bounds Hm) as [Hc _].
  destruct split_room as [Hr1 Hr2]. specialize (Hr2 Hm).
  pose proof (sd_wf _ _ _ _ Hs) as Hown. pose proof Hs as [[] He Hphy Hhead Hlen Hmax Hmtu Hcnt].
  unfold MAX_TOTAL_LEN, MAX_FRAME_LEN, MAX_EXTEND_HEAD_LENGTH in *.
  unfold SplitFrameIntoPacketsIfNeed, GetReadOnlyBytesForEntireBuffer,
    GetReadOnlyBytesForEntireFrame, GetExtendHeadLength.
  rewrite !(read_region_owned _ _ _ _ _ Hown), (frame_len_owned _ _ _ Hown), owf_mem.
  rewrite (wrap_small 32 (totalLen_ b + extendHeadLen_ b)) by lia.
  destruct (Z.leb_spec (totalLen_ b + extendHeadLen_ b) mtu); [lia|]. cbn [default].
  unfold sizeof_CommPhyHeader, sizeof_CommPhyOptHeader in *.
  rewrite (wrap_small 32 (mtu - extendHeadLen_ b)), (wrap_small 32 (mtu - _ - _ - _)),
    (wrap_small 32 (headerLen_ b + payloadLen_ b - 32)) by lia.
  change (headerLen_ b + payloadLen_ b - 32) with (split_length b) in Hcnt |- *.
  change (mtu - extendHeadLen_ b - 32 - 8) with (max_fragment b mtu) in *.
  assert (Hq : 0 <= split_length b / max_fragment b mtu) by (apply Z.div_pos; lia).
  rewrite (wrap_small 16 (split_length b / max_fragment b mtu)) by lia.
  rewrite (wrap_small 16 (split_length b / max_fragment b mtu + 1)) by lia.
  rewrite <- ceil_div by lia. fold (split_count b mtu).
  rewrite Z.add_0_r. change (Z.to_nat 32) with 32%nat.
  assert (Hsplit : slice (extendHeadLen_ b) (headerLen_ b + payloadLen_ b) mem
                   = store_phy (phy_ConvertHostToNet hf) ++ split_body b mem).
  { rewrite <- Hhead. unfold split_body, split_length, sizeof_CommPhyHeader.
    rewrite <- slice_split by lia. f_equal. lia. }
  cbn [from_option id]. rewrite Hsplit, load_store_phy by (apply phy_convert_ok, Hphy).
  rewrite drop_app_length' by (pose proof (zlen_store_phy (phy_ConvertHostToNet hf)) as E;
    unfold zlen in E; lia).
  exact (FrameFragmentation_eq Hwf).
Qed.

End Sent.
End Split.
