(* ===== verification/SplitReassemble.v ===== *)
(** End-to-end properties of fragmentation: a buffer that is too long for the MTU is
    split into packets, and the receiver gets the frame back from them in any order. *)

From S2P Require Import Prelude Memory SerialBuffer FrameHeader CommTypes ProtocolProto.
From S2P Require Import Fragmentation ProtoFacts ProtoRoundtrip FragFacts FrameCombiner.
From S2P Require Import CombinerFacts Reassembly.
From Stdlib Require Import ZArith Lia.
From Stdlib Require Import Strings.Byte.
From stdpp Require Import base numbers list gmap sorting.

Open Scope Z_scope.

(** What the adapter of the receiver passes on: the packet behind the extended head. *)
Definition strip_head (piece : list byte * Z) : list byte := drop (Z.to_nat (snd piece)) (fst piece).

Section Claims.
Context `{Host} `{Heap}.

Lemma split_packets {b mem hf mtu} :
  sendable b mem hf mtu -> mtu < totalLen_ b + extendHeadLen_ b ->
  exists pieces, SplitFrameIntoPacketsIfNeed b mtu = (E_OK, pieces) /\
    map strip_head pieces =
      packets (hf := hf) (info := split_info b mem mtu) (body := split_body b mem)
        (seqZ 0 (split_count b mtu)).
Proof.
  intros Hs Hm. eexists. split; [apply (SplitFrame_eq Hs Hm)|].
  unfold packets. rewrite map_map. apply map_ext. intros i. unfold strip_head. cbn [fst snd].
  pose proof Hs as [[] He _ _ _ _ _ _].
  assert (Hz : zlen (slice 0 (extendHeadLen_ b) mem) = extendHeadLen_ b) by (apply zlen_slice; lia).
  apply drop_app_length'. unfold zlen in Hz. lia.
Qed.

(** C4: a frame that does not fit the MTU is split into packets, and whatever the order
    in which the packets reach a receiver that does not know the frame yet, every packet
    is accepted, none but the last to arrive yields a frame, and the last yields the
    frame: header information and every byte behind the physical header are those the
    sender split. *)
Theorem split_reassemble_roundtrip src b mem hf mtu c :
  sendable b mem hf mtu -> mtu < totalLen_ b + extendHeadLen_ b ->
  frame_from (hf := hf) src ->
  (if decide (GetFrameType (phy_packetType hf) = APPLICATION_MESSAGE)
   then GetAppLayerFrameHeaderLength else GetCommLayerFrameHeaderLength)
    <= headerLen_ b + payloadLen_ b ->
  heap_total -> combiner_inv c -> incProgressId_ c + split_count b mtu <= UINT64_MAX ->
  works_of c (phy_sourceId hf) !! phy_frameId hf = None ->
  exists pieces, SplitFrameIntoPacketsIfNeed b mtu = (E_OK, pieces) /\
  forall arrived, arrived ≡ₚ map strip_head pieces ->
  exists c' b' mem' info, receive_all src c arrived =
      (replicate (length pieces - 1) (None, E_OK) ++ [(Some (b', info), E_OK)], c') /\
    (frameId_ info = phy_frameId hf /\ sourceId_ info = phy_sourceId hf /\
     frameType_ info = GetFrameType (phy_packetType hf) /\
     frameLen_ info = headerLen_ b + payloadLen_ b) /\
    owned_wf b' mem' 0 /\
    slice sizeof_CommPhyHeader (split_length b) mem' =
      slice (extendHeadLen_ b + sizeof_CommPhyHeader) (split_length b) mem /\
    works_of c' (phy_sourceId hf) = ∅ /\ combiner_inv c'.
Proof.
  intros Hs Hm Hsrc Hlong Hheap Hinv Hinc Hnone.
  destruct (split_packets Hs Hm) as (pieces & E & Hp). exists pieces. split; [exact E|].
  intros arrived Harr. rewrite Hp in Harr. unfold packets in Harr.
  apply Permutation_map_inv in Harr as (order & -> & Hord). apply Permutation_sym in Hord.
  assert (Hlen : length pieces = Z.to_nat (split_count b mtu)).
  { rewrite <- (length_map strip_head), Hp. unfold packets. rewrite length_map. apply length_seqZ. }
  pose proof (split_info_wf Hs Hm) as Hwf.
  destruct (receive_any_order Hwf src order c Hheap) as (c' & b' & E' & (mem' & Hb & Hbody & _) & Hw & Hi);
    auto.
  { unfold frame_long_enough. cbn [splitLength split_info]. unfold split_length. lia. }
  exists c', b', mem'. eexists. rewrite Hlen. split; [exact E'|]. split_and!; auto.
  cbn [frame_result frame_info_of frag_result set_frag_info frameLen_ splitLength split_info].
  unfold split_length. lia.
Qed.

(** C17: when the MTU and the extended head are multiples of 8, the number of packets is
    the length to split divided by the room in a packet, rounded up, and every packet but
    the last fits the MTU; the last, which also carries the remainder of the division, is
    longer than the MTU by less than the number of packets plus 7 bytes. *)
Theorem packets_within_mtu b mem hf mtu pieces :
  sendable b mem hf mtu -> mtu < totalLen_ b + extendHeadLen_ b ->
  mtu mod 8 = 0 -> extendHeadLen_ b mod 8 = 0 ->
  SplitFrameIntoPacketsIfNeed b mtu = (E_OK, pieces) ->
  Z.of_nat (length pieces) = split_count b mtu /\
  forall i v off, pieces !! i = Some (v, off) ->
    off = extendHeadLen_ b /\
    (Z.of_nat i < split_count b mtu - 1 -> zlen v <= mtu) /\
    zlen v <= mtu + split_count b mtu + 6.
Proof.
  intros Hs Hm Hm8 He8 E. rewrite (SplitFrame_eq Hs Hm) in E. injection E as <-.
  pose proof (split_info_wf Hs Hm) as Hwf. pose proof (split_count_bounds Hs Hm) as [Hc _].
  split; [rewrite length_map, length_seqZ; lia|].
  intros i v off Hi. apply list_lookup_fmap_Some in Hi as (j & [= -> ->] & Hj).
  apply lookup_seqZ in Hj as [-> Hj]. rewrite Z.add_0_l. split; [reflexivity|].
  assert (Hj' : 0 <= Z.of_nat i < fragCount (split_info b mem mtu)) by (cbn; lia).
  pose proof (quotient_bounds Hwf) as (Hq1 & Hq2 & Hq3).
  pose proof (frag_pad_bounds Hwf _ Hj') as (Hp1 & Hp2 & Hp3).
  pose proof (split_room Hs) as [Hr1 _].
  pose proof Hs as [[] He _ _ _ _ _ _].
  rewrite zlen_app, (zlen_frag_packet Hwf _ Hj'), zlen_slice by lia.
  rewrite Hp3. rewrite Hp3 in Hp2. rewrite (piece_frag_len_spec Hwf) in *.
  cbn [fragCount split_info splitLength] in *.
  assert (Hqm : quotient_of (split_info b mem mtu) <= max_fragment b mtu).
  { unfold quotient_of. cbn [splitLength fragCount split_info].
    apply Z.div_le_upper_bound; [lia|]. unfold split_count.
    pose proof (Z.div_mod (split_length b + max_fragment b mtu - 1) (max_fragment b mtu) ltac:(lia)).
    pose proof (Z.mod_pos_bound (split_length b + max_fragment b mtu - 1) (max_fragment b mtu)
      ltac:(lia)). nia. }
  unfold max_fragment, sizeof_CommPhyHeader, sizeof_CommPhyOptHeader in *.
  destruct (Z.eqb_spec (Z.of_nat i) (split_count b mtu - 1)); split; try lia.
Qed.

End Claims.

(** * Concrete runs *)

Section Samples.
Local Existing Instance x86_host.
Local Existing Instance zero_heap.

Definition sample_src : cstring := [x61; x62].

Definition sample_header : CommPhyHeader :=
  mkCommPhyHeader MAGIC_CODE PROTOCOL_VERSION 0 0 (HashFunc sample_src) 7
    (SetFrameType PACKET_TYPE_NOT_FRAGMENTED COMMUNICATION_LABEL_EXCHANGE) 0 0.

(** A frame with [n] bytes behind its physical header, behind [ext] bytes of head. *)
Definition sample_buffer (ext n pad : Z) : SerialBuffer :=
  mkSerialBuffer
    (Some (replicate (Z.to_nat ext) x55 ++ store_phy (phy_ConvertHostToNet sample_header)
           ++ replicate (Z.to_nat (n + pad)) x41))
    (Some ext) None (32 + n + pad) 32 n pad ext false.

Definition sample_mem (ext n pad : Z) : list byte := default [] (oringinalBytes_ (sample_buffer ext n pad)).

Lemma sample_sendable : sendable (sample_buffer 8 100 4) (sample_mem 8 100 4) sample_header 88.
Proof.
  constructor; try (vm_compute; intuition congruence).
  - constructor; try (vm_compute; intuition congruence).
  - repeat constructor; vm_compute; congruence.
Qed.

Lemma sample_from : frame_from (hf := sample_header) sample_src.
Proof. constructor; vm_compute; congruence. Qed.

Lemma empty_combiner_inv : combiner_inv emptyFrameCombiner.
Proof.
  constructor; [vm_compute; intuition congruence| |done].
  intros s. unfold works_of. cbn. rewrite lookup_empty. cbn. rewrite map_size_empty.
  vm_compute. discriminate.
Qed.

Lemma split_reassemble_roundtrip_witness :
  exists pieces, SplitFrameIntoPacketsIfNeed (sample_buffer 8 100 4) 88 = (E_OK, pieces) /\
  forall arrived, arrived ≡ₚ map strip_head pieces ->
  exists c' b' mem' info, receive_all sample_src emptyFrameCombiner arrived =
      (replicate (length pieces - 1) (None, E_OK) ++ [(Some (b', info), E_OK)], c') /\
    (frameId_ info = 7 /\ sourceId_ info = HashFunc sample_src /\
     frameType_ info = COMMUNICATION_LABEL_EXCHANGE /\ frameLen_ info = 132) /\
    owned_wf b' mem' 0 /\
    slice sizeof_CommPhyHeader 100 mem' = slice 40 100 (sample_mem 8 100 4) /\
    works_of c' (HashFunc sample_src) = ∅ /\ combiner_inv c'.
Proof.
  apply (split_reassemble_roundtrip sample_src (sample_buffer 8 100 4) (sample_mem 8 100 4)
           sample_header 88 emptyFrameCombiner).
  - exact sample_sendable.
  - reflexivity.
  - exact sample_from.
  - vm_compute. discriminate.
  - exact zero_heap_total.
  - exact empty_combiner_inv.
  - vm_compute. discriminate.
  - reflexivity.
Defined.

Definition sample_pieces : list (list byte * Z) :=
  snd (SplitFrameIntoPacketsIfNeed (sample_buffer 8 100 4) 88).

Lemma packets_within_mtu_witness :
  Z.of_nat (length sample_pieces) = 3 /\
  forall i v off, sample_pieces !! i = Some (v, off) ->
    off = 8 /\ (Z.of_nat i < 3 - 1 -> zlen v <= 88) /\ zlen v <= 88 + 3 + 6.
Proof.
  apply (packets_within_mtu (sample_buffer 8 100 4) (sample_mem 8 100 4) sample_header 88).
  - exact sample_sendable.
  - reflexivity.
  - reflexivity.
  - reflexivity.
  - vm_compute. reflexivity.
Defined.

Definition sample_fragment : list byte := default [] (strip_head <$> sample_pieces !! 1%nat).
Definition sample_info : ParseResult :=
  snd (CheckAndParsePacket sample_src (Some sample_fragment) (zlen sample_fragment) emptyParseResult).
Definition sample_combiner : FrameCombiner :=
  snd (AssembleFrameFragment emptyFrameCombiner sample_fragment (zlen sample_fragment) sample_info).

Lemma assemble_invariant_witness :
  combiner_inv sample_combiner /\
  (E_OK <> E_OK -> @None (SerialBuffer * ParseResult) = None /\
     forall s, works_of sample_combiner s = works_of emptyFrameCombiner s) /\
  (forall b info, None = Some (b, info) ->
     E_OK = E_OK /\ works_of sample_combiner (sourceId_ sample_info) = ∅ /\
     totalLen_ b = frameLen_ info /\
     exists w, works_of emptyFrameCombiner (sourceId_ sample_info) !! frameId_ sample_info = Some w /\
       info = cw_frameInfo w /\
       {[fragNo_ sample_info]} ∪ combinedFragmentNo_ (cw_status w) = all_fragments (fragCount_ info)).
Proof.
  apply (assemble_invariant emptyFrameCombiner sample_fragment sample_info None E_OK sample_combiner).
  - exact empty_combiner_inv.
  - vm_compute. intuition congruence.
  - reflexivity.
  - vm_compute. reflexivity.
Defined.

Lemma sample_combiner_inv : combiner_inv sample_combiner.
Proof.
  apply (assemble_keeps_inv emptyFrameCombiner sample_fragment sample_info None E_OK).
  - exact empty_combiner_inv.
  - vm_compute. intuition congruence.
  - reflexivity.
  - vm_compute. reflexivity.
Qed.

Lemma surveillance_invariant_witness :
  combiner_inv (PeriodicalSurveillance sample_combiner) /\
  (forall s f, is_Some (works_of (PeriodicalSurveillance sample_combiner) s !! f) <->
     exists w, works_of sample_combiner s !! f = Some w /\ hasProgressFlag_ (cw_status w) = true) /\
  (forall s, works_of (PeriodicalSurveillance (PeriodicalSurveillance sample_combiner)) s = ∅).
Proof. apply (surveillance_invariant sample_combiner). exact sample_combiner_inv. Defined.

(** The last packet of a 4951-byte frame sent over an MTU of 1024 bytes is longer than
    the MTU: the 4 bytes that are left over by the division all go to it. *)
Lemma last_packet_exceeds_mtu :
  let pieces := snd (SplitFrameIntoPacketsIfNeed (sample_buffer 0 4919 1) 1024) in
  map (fun piece => zlen (fst piece)) pieces = [1024; 1024; 1024; 1024; 1032].
Proof. vm_compute. reflexivity. Qed.

(** The checksum is the xor of the packet's 8-byte words loaded in the byte order of the
    host, and is itself sent in network order: a receiver of the other byte order computes
    the byte-swapped sum and refuses the packet. *)
Lemma checksum_depends_on_byte_order :
  fst (@CheckAndParsePacket arm_host sample_src (Some sample_packet) (zlen sample_packet)
         emptyParseResult) = E_OK /\
  fst (@CheckAndParsePacket be_host sample_src (Some sample_packet) (zlen sample_packet)
         emptyParseResult) = - E_SUM_MISMATCH.
Proof. split; vm_compute; reflexivity. Qed.

End Samples.
