(* ===== verification/AppMessage.v ===== *)
(** Model of [Message] (communicator/include/message.h) and of the part of
    [ProtocolProto] that turns an application message into a buffer and back
    ([ToSerialBuffer], [ToMessage], [BuildFeedbackMessageFrame]), with the registry of
    transform functions. *)

From S2P Require Import Prelude Memory SerialBuffer FrameHeader CommTypes ProtocolProto.
From Stdlib Require Import ZArith Lia.
From Stdlib Require Import Strings.Byte.
From stdpp Require Import base numbers list gmap.

Open Scope Z_scope.

Definition INVALID_MESSAGE_ID : Z := 0.
Definition TYPE_INVALID : Z := 0.
Definition TYPE_REQUEST : Z := 1.
Definition TYPE_RESPONSE : Z := 2.
Definition TYPE_NOTIFY : Z := 3.
Definition NO_ERROR : Z := 0.
Definition MSG_VERSION_BASE : Z := 0.
Definition MSG_VERSION_EXT : Z := 1.

(** * Message *)

Section MessageType.
Context {Obj : Type}.

(** The object holder is polymorphic in the source; [Obj] is the type of all objects. *)
Record Message := mkMessage {
  version_ : Z;
  messageType_ : Z;
  messageId_ : Z;
  sessionId_ : Z;
  sequenceId_ : Z;
  errorNo_ : Z;
  holderPtr_ : option Obj;
  target_ : cstring;
  prio_ : Priority
}.

Definition emptyMessage : Message :=
  mkMessage MSG_VERSION_BASE TYPE_INVALID INVALID_MESSAGE_ID 0 0 NO_ERROR None [] LOW.

Definition SetVersion (m : Message) (inVersion : Z) : Message :=
  if negb (inVersion =? MSG_VERSION_BASE) && negb (inVersion =? MSG_VERSION_EXT) then m
  else mkMessage inVersion (messageType_ m) (messageId_ m) (sessionId_ m) (sequenceId_ m)
         (errorNo_ m) (holderPtr_ m) (target_ m) (prio_ m).

Definition SetMessageType (m : Message) (inMsgType : Z) : Z * Message :=
  if negb (inMsgType =? TYPE_REQUEST) && negb (inMsgType =? TYPE_RESPONSE)
     && negb (inMsgType =? TYPE_NOTIFY) then (- E_INVALID_ARGS, m)
  else (E_OK, mkMessage (version_ m) inMsgType (messageId_ m) (sessionId_ m) (sequenceId_ m)
                (errorNo_ m) (holderPtr_ m) (target_ m) (prio_ m)).

Definition SetMessageId (m : Message) (inMessageId : Z) : Message :=
  mkMessage (version_ m) (messageType_ m) inMessageId (sessionId_ m) (sequenceId_ m) (errorNo_ m)
    (holderPtr_ m) (target_ m) (prio_ m).

Definition SetSessionId (m : Message) (inSessionId : Z) : Message :=
  mkMessage (version_ m) (messageType_ m) (messageId_ m) inSessionId (sequenceId_ m) (errorNo_ m)
    (holderPtr_ m) (target_ m) (prio_ m).

Definition SetSequenceId (m : Message) (inSequenceId : Z) : Message :=
  mkMessage (version_ m) (messageType_ m) (messageId_ m) (sessionId_ m) inSequenceId (errorNo_ m)
    (holderPtr_ m) (target_ m) (prio_ m).

Definition SetErrorNo (m : Message) (inErrorNo : Z) : Message :=
  mkMessage (version_ m) (messageType_ m) (messageId_ m) (sessionId_ m) (sequenceId_ m) inErrorNo
    (holderPtr_ m) (target_ m) (prio_ m).

Definition SetTarget (m : Message) (inTarget : cstring) : Message :=
  mkMessage (version_ m) (messageType_ m) (messageId_ m) (sessionId_ m) (sequenceId_ m)
    (errorNo_ m) (holderPtr_ m) inTarget (prio_ m).

Definition SetPriority (m : Message) (inPriority : Priority) : Message :=
  mkMessage (version_ m) (messageType_ m) (messageId_ m) (sessionId_ m) (sequenceId_ m)
    (errorNo_ m) (holderPtr_ m) (target_ m) inPriority.

(** [SetCopiedObject] and [SetExternalObject] when the holder is allocated. *)
Definition set_object (m : Message) (o : Obj) : Message :=
  mkMessage (version_ m) (messageType_ m) (messageId_ m) (sessionId_ m) (sequenceId_ m)
    (errorNo_ m) (Some o) (target_ m) (prio_ m).

(** * Transform functions *)

(** The functions upper modules register; [None] is an empty [std::function]. The
    serializer gets the window of the buffer it may write, its length and the message. *)
Record TransformFunc := mkTransformFunc {
  computeFunc : option (Message -> Z);
  serializeFunc : option (list byte -> Z -> Message -> Z * list byte);
  deserializeFunc : option (list byte -> Z -> Message -> Z * Message)
}.

Definition emptyTransformFunc : TransformFunc := mkTransformFunc None None None.

Definition Registry := gmap Z TransformFunc.

Definition is_empty_func {A} (f : option A) : bool := match f with None => true | Some _ => false end.

Definition RegTransformFunction (msgIdMapFunc_ : Registry) (msgId : Z) (inFunc : TransformFunc)
    : Z * Registry :=
  match msgIdMapFunc_ !! msgId with
  | Some _ => (- E_ALREADY_REGISTER, msgIdMapFunc_)
  | None =>
    if is_empty_func (computeFunc inFunc) || is_empty_func (serializeFunc inFunc)
       || is_empty_func (deserializeFunc inFunc) then (- E_INVALID_ARGS, msgIdMapFunc_)
    else (E_OK, <[msgId := inFunc]> msgIdMapFunc_)
  end.

Definition UnRegTransformFunction (msgIdMapFunc_ : Registry) (msgId : Z) : Registry :=
  delete msgId msgIdMapFunc_.

(** The extended head is produced by the service above the communicator: its size (with
    a status) and the bytes it puts in front of the packet. *)
Record ExtendHeaderHandle := mkExtendHeaderHandle {
  GetHeadDataSize : Z * Z;
  FillHeadData : list byte -> Z -> Z -> Z * list byte
}.

Definition DBStatus_OK : Z := 0.

Section Transform.
Context `{Host} `{Heap}.

(** Calling an empty function throws; [None] stands for the exception. *)
Definition CalculateDataSerializeLength (msgIdMapFunc_ : Registry) (inMsg : Message) : option (Z * Z) :=
  match msgIdMapFunc_ !! messageId_ inMsg with
  | None => Some (- E_NOT_REGISTER, 0)
  | Some function =>
    computeFunc ← computeFunc function;
    let serializeLen := u32 (computeFunc inMsg) in
    let alignedLen := byte8_align 32 serializeLen in
    if (serializeLen =? 0) || (u32 (MAX_FRAME_LEN - GetLengthBeforeSerializedData) <? alignedLen)
    then Some (- E_LENGTH_ERROR, 0)
    else Some (E_OK, serializeLen)
  end.

Definition GetExtendHeadDataSize (extendHandle : option ExtendHeaderHandle) : Z * Z :=
  match extendHandle with
  | None => (E_OK, 0)
  | Some handle =>
    let '(status, headSize) := GetHeadDataSize handle in
    if negb (status =? DBStatus_OK) then (- E_FEEDBACK_COMMUNICATOR_NOT_FOUND, headSize)
    else if (MAX_EXTEND_HEAD_LENGTH <? headSize) || negb (headSize =? byte8_align 32 headSize)
    then (- E_FEEDBACK_COMMUNICATOR_NOT_FOUND, headSize)
    else (E_OK, headSize)
  end.

Definition FillExtendHeadDataIfNeed (extendHandle : option ExtendHeaderHandle)
    (buffer : SerialBuffer) (headSize : Z) : Z * SerialBuffer :=
  match extendHandle with
  | None => (E_OK, buffer)
  | Some handle =>
    if 0 <? headSize then
      let '(status, head) :=
        FillHeadData handle (slice 0 headSize (default [] (oringinalBytes_ buffer))) headSize
          (u32 (GetSize buffer + headSize)) in
      let buffer := write_at buffer 0 (take (Z.to_nat headSize) head) in
      if negb (status =? DBStatus_OK) then (- E_FEEDBACK_COMMUNICATOR_NOT_FOUND, buffer)
      else (E_OK, buffer)
    else (E_OK, buffer)
  end.

Definition message_header (inMsg : Message) (dataLen : Z) : MessageHeader :=
  mkMessageHeader (version_ inMsg) (messageType_ inMsg) (messageId_ inMsg) (sessionId_ inMsg)
    (sequenceId_ inMsg) (errorNo_ inMsg) dataLen.

Definition SerializeMessage (msgIdMapFunc_ : Registry) (inBuff : SerialBuffer) (inMsg : Message)
    : option (Z * SerialBuffer) :=
  let '(payloadPtr, payloadLen) := GetWritableBytesForPayload inBuff in
  if payloadLen <? sizeof_MessageHeader then Some (- E_LENGTH_ERROR, inBuff)
  else
    p ← payloadPtr;
    let dataLen := u32 (payloadLen - sizeof_MessageHeader) in
    let inBuff := write_at inBuff p (store_mh (mh_ConvertHostToNet (message_header inMsg dataLen))) in
    if dataLen =? 0 then Some (E_OK, inBuff)
    else
      let function := default emptyTransformFunc (msgIdMapFunc_ !! messageId_ inMsg) in
      serializeFunc ← serializeFunc function;
      let window := slice (p + sizeof_MessageHeader) dataLen (default [] (oringinalBytes_ inBuff)) in
      let '(result, data) := serializeFunc window dataLen inMsg in
      let inBuff := write_at inBuff (p + sizeof_MessageHeader) (take (Z.to_nat dataLen) data) in
      if negb (result =? E_OK) then Some (- E_SERIALIZE_ERROR, inBuff) else Some (E_OK, inBuff).

Definition IsSupportMessageVersion (version : Z) : bool :=
  (version =? MSG_VERSION_BASE) || (version =? MSG_VERSION_EXT).

Definition IsFeedbackErrorMessage (errorNo : Z) : bool :=
  (errorNo =? E_FEEDBACK_UNKNOWN_MESSAGE) || (errorNo =? E_FEEDBACK_COMMUNICATOR_NOT_FOUND).

(** The setters that [DeSerializeMessage] calls in a row. *)
Definition fill_message (m : Message) (version : Z) (hdr : MessageHeader) : Message :=
  SetErrorNo (SetSequenceId (SetSessionId (SetMessageId
    (snd (SetMessageType (SetVersion m version) (mh_messageType hdr)))
    (mh_messageId hdr)) (mh_sessionId hdr)) (mh_sequenceId hdr)) (mh_errorNo hdr).

Definition DeSerializeMessage (msgIdMapFunc_ : Registry) (inBuff : SerialBuffer) (inMsg : Message)
    (onlyMsgHeader : bool) : option (Z * Message) :=
  let '(payload, payloadLen) := GetReadOnlyBytesForPayload inBuff in
  if payloadLen <? 2 then Some (- E_LENGTH_ERROR, inMsg)
  else
    bytes ← payload;
    let version := NetToHost 2 (load_int (slice 0 2 bytes)) in
    if negb (IsSupportMessageVersion version) then Some (- E_VERSION_NOT_SUPPORT, inMsg)
    else if payloadLen <? sizeof_MessageHeader then Some (- E_LENGTH_ERROR, inMsg)
    else
      let messageHdr := mh_ConvertNetToHost (load_mh bytes) in
      let inMsg := fill_message inMsg version messageHdr in
      let dataLen := u32 (payloadLen - sizeof_MessageHeader) in
      if negb (dataLen =? mh_dataLen messageHdr) then Some (- E_LENGTH_ERROR, inMsg)
      else if IsFeedbackErrorMessage (mh_errorNo messageHdr) then Some (E_OK, inMsg)
      else if onlyMsgHeader || (dataLen =? 0) then Some (E_OK, inMsg)
      else match msgIdMapFunc_ !! messageId_ inMsg with
           | None => Some (- E_NOT_REGISTER, inMsg)
           | Some function =>
             deserializeFunc ← deserializeFunc function;
             let '(result, inMsg) :=
               deserializeFunc (slice sizeof_MessageHeader dataLen bytes) dataLen inMsg in
             if negb (result =? E_OK) then Some (- E_DESERIALIZE_ERROR, inMsg)
             else Some (E_OK, inMsg)
           end.

Definition ToSerialBuffer (msgIdMapFunc_ : Registry) (inMsg : option Message)
    (extendHandle : option ExtendHeaderHandle) (onlyMsgHeader : bool)
    : option (Z * option SerialBuffer) :=
  match inMsg with
  | None => Some (- E_INVALID_ARGS, None)
  | Some inMsg =>
    '(errCode, serializeLen) ←
      (if onlyMsgHeader then Some (E_OK, 0) else CalculateDataSerializeLength msgIdMapFunc_ inMsg);
    if negb (errCode =? E_OK) then Some (errCode, None)
    else
      let '(errCode, headSize) := GetExtendHeadDataSize extendHandle in
      if negb (errCode =? E_OK) then Some (errCode, None)
      else if negb heap_obj then Some (- E_OUT_OF_MEMORY, None)
      else
        let buffer := if 0 <? headSize then SetExtendHeadLength emptySerialBuffer headSize
                      else emptySerialBuffer in
        let payLoadLength := u32 (serializeLen + sizeof_MessageHeader) in
        let '(errCode, buffer) :=
          AllocBufferByPayloadLength buffer payLoadLength GetAppLayerFrameHeaderLength in
        if negb (errCode =? E_OK) then Some (errCode, None)
        else
          let '(errCode, buffer) := FillExtendHeadDataIfNeed extendHandle buffer headSize in
          if negb (errCode =? E_OK) then Some (errCode, None)
          else
            '(errCode, buffer) ← SerializeMessage msgIdMapFunc_ buffer inMsg;
            if negb (errCode =? E_OK) then Some (errCode, None) else Some (E_OK, Some buffer)
  end.

Definition ToMessage (msgIdMapFunc_ : Registry) (inBuff : option SerialBuffer) (onlyMsgHeader : bool)
    : option (Z * option Message) :=
  match inBuff with
  | None => Some (- E_INVALID_ARGS, None)
  | Some inBuff =>
    if negb heap_obj then Some (- E_OUT_OF_MEMORY, None)
    else
      '(errCode, outMsg) ← DeSerializeMessage msgIdMapFunc_ inBuff emptyMessage onlyMsgHeader;
      if negb (errCode =? E_OK) && negb (errCode =? - E_NOT_REGISTER) then Some (errCode, None)
      else Some (errCode, Some outMsg)
  end.

Definition BuildFeedbackMessageFrame (msgIdMapFunc_ : Registry) (inMsg : option Message) (inLabel : LabelType)
    : option (Z * option SerialBuffer) :=
  '(errCode, buffer) ← ToSerialBuffer msgIdMapFunc_ inMsg None true;
  match buffer with
  | None => Some (errCode, None)
  | Some buffer =>
    let '(errCode, buffer) := SetDivergeHeader (Some buffer) inLabel in
    if negb (errCode =? E_OK) then Some (errCode, None) else Some (E_OK, buffer)
  end.

End Transform.
End MessageType.

Arguments Message : clear implicits.
Arguments TransformFunc : clear implicits.
Arguments Registry : clear implicits.
