(* ===== verification/AppMessageFacts.v ===== *)
(** An application message survives the trip through its buffer, the frame and packet
    headers, the receiver's checks and deserialization. *)

From S2P Require Import Prelude Memory SerialBuffer FrameHeader CommTypes ProtocolProto.
From S2P Require Import ProtoFacts ProtoRoundtrip AppMessage.
From Stdlib Require Import ZArith Lia.
From Stdlib Require Import Strings.Byte.
From stdpp Require Import base numbers list gmap.

Open Scope Z_scope.

Section Facts.
Context {Obj : Type} `{Host} `{Heap}.
Abbreviation Message := (Message Obj).
Abbreviation TransformFunc := (TransformFunc Obj).
Abbreviation Registry := (Registry Obj).

(** * The registry *)

Definition registry_ok (reg : Registry) : Prop :=
  map_Forall (fun _ f => is_Some (computeFunc f) /\ is_Some (serializeFunc f) /\
                         is_Some (deserializeFunc f)) reg.

Lemma not_empty_func {A} (f : option A) : is_empty_func f = false <-> is_Some f.
Proof. destruct f; cbn; split; eauto; [discriminate|intros [? [=]]]. Qed.

Lemma RegTransformFunction_ok reg id f :
  registry_ok reg -> registry_ok (snd (RegTransformFunction reg id f)).
Proof.
  intros Hreg. unfold RegTransformFunction. destruct (reg !! id) eqn:E; [exact Hreg|].
  destruct (_ || _) eqn:E2; [exact Hreg|]. cbn.
  rewrite !orb_false_iff, !not_empty_func in E2.
  apply (map_Forall_insert_2 (M := gmap Z)); [tauto|exact Hreg].
Qed.

(** * What the registered functions promise *)

(** The [n] bytes [data], read for a message like [m], give the object [o]. *)
Record decodes (f : TransformFunc) (m : Message) (n : Z) (data : list byte) (o : Obj) : Prop := {
  dc_len : zlen data = n;
  dc_deserialize : exists g, deserializeFunc f = Some g /\
    forall m', messageId_ m' = messageId_ m -> messageType_ m' = messageType_ m ->
      g data n m' = (E_OK, set_object m' o)
}.

(** [f] turns [m] into [n] bytes, which may depend on what the buffer held before, and
    gives the object [o] back from them. *)
Record codec (f : TransformFunc) (m : Message) (n : Z) (o : Obj) : Prop := {
  cd_compute : exists g, computeFunc f = Some g /\ g m = n;
  cd_serialize : exists g, serializeFunc f = Some g /\
    forall window, zlen window = n -> exists data, g window n m = (E_OK, data) /\ decodes f m n data o
}.

(** The service asks for an extended head of [e] bytes and fills it with [head]. *)
Definition handle_ok (h : option ExtendHeaderHandle) (e : Z) (head : list byte) : Prop :=
  zlen head = e /\ 0 <= e <= MAX_EXTEND_HEAD_LENGTH /\ e mod 8 = 0 /\
  match h with
  | None => e = 0
  | Some h => GetHeadDataSize h = (DBStatus_OK, e) /\
              forall window total, FillHeadData h window e total = (DBStatus_OK, head)
  end.

(** A message that may be sent. *)
Record message_ok (m : Message) : Prop := {
  mo_version : version_ m = MSG_VERSION_BASE \/ version_ m = MSG_VERSION_EXT;
  mo_type : messageType_ m = TYPE_REQUEST \/ messageType_ m = TYPE_RESPONSE \/
            messageType_ m = TYPE_NOTIFY;
  mo_id : 0 <= messageId_ m < 2 ^ 32;
  mo_session : 0 <= sessionId_ m < 2 ^ 32;
  mo_sequence : 0 <= sequenceId_ m < 2 ^ 32;
  mo_error : 0 <= errorNo_ m < 2 ^ 32
}.

(** What the receiver gets: the same message with the deserialized object, its sender
    and priority not set. *)
Definition received (m : Message) (o : option Obj) : Message :=
  mkMessage (version_ m) (messageType_ m) (messageId_ m) (sessionId_ m) (sequenceId_ m)
    (errorNo_ m) o [] LOW.

(** * Serialization *)

Lemma write_at_wf b mem p off src :
  owned_wf b mem p -> 0 <= off -> off + zlen src <= zlen mem ->
  write_at b off src = set_memory b (splice off src mem) /\
  owned_wf (write_at b off src) (splice off src mem) p.
Proof.
  intros Hwf Ho Hl. unfold write_at. rewrite (owf_mem _ _ _ Hwf).
  split; [reflexivity|]. apply (set_memory_wf _ mem); [exact Hwf|]. apply zlen_splice; lia.
Qed.

Lemma message_header_ok m n : message_ok m -> 0 <= n < 2 ^ 32 -> mh_ok (message_header m n).
Proof.
  intros [] Hn. unfold mh_ok, mh_fields, message_header. cbn.
  rewrite !Forall_cons, Forall_nil. unfold field_ok. cbn [fst snd].
  unfold MSG_VERSION_BASE, MSG_VERSION_EXT, TYPE_REQUEST, TYPE_RESPONSE, TYPE_NOTIFY in *.
  repeat split; lia.
Qed.

(** The same layout as [b], other contents. *)
Definition same_layout (b b' : SerialBuffer) : Prop :=
  headerLen_ b' = headerLen_ b /\ payloadLen_ b' = payloadLen_ b /\ totalLen_ b' = totalLen_ b /\
  paddingLen_ b' = paddingLen_ b /\ extendHeadLen_ b' = extendHeadLen_ b.

Lemma FillExtendHead_ok h e head b mem :
  handle_ok h e head -> owned_wf b mem e ->
  exists b' mem', FillExtendHeadDataIfNeed h b e = (E_OK, b') /\ owned_wf b' mem' e /\
    same_layout b b' /\ slice 0 e mem' = head.
Proof.
  intros (Hz & He & _ & Hh) Hwf. unfold FillExtendHeadDataIfNeed. pose proof Hwf as [].
  assert (Hnil : e = 0 -> slice 0 e mem = head).
  { intros ->. rewrite slice_nil_len. destruct head; [reflexivity|]. unfold zlen in Hz.
    cbn in Hz. lia. }
  destruct h as [h|].
  - destruct Hh as [_ Hfill]. destruct (Z.ltb_spec 0 e) as [Hpos|].
    + rewrite Hfill. rewrite take_ge by (unfold zlen in Hz; lia). cbn [negb Z.eqb DBStatus_OK].
      destruct (write_at_wf b mem e 0 head Hwf) as [E Hwf']; [lia|lia|].
      eexists _, _. split; [reflexivity|]. split; [exact Hwf'|]. rewrite E.
      split; [repeat split|]. apply slice_splice_same; lia.
    + exists b, mem. split; [reflexivity|]. split; [exact Hwf|].
      split; [repeat split|apply Hnil; lia].
  - exists b, mem. split; [reflexivity|]. split; [exact Hwf|]. split; [repeat split|auto].
Qed.

(** The payload is the message header followed by the data. *)
Lemma SerializeMessage_ok reg f m n o b mem p :
  owned_wf b mem p -> payloadLen_ b = n + sizeof_MessageHeader -> 0 < n ->
  codec f m n o -> reg !! messageId_ m = Some f ->
  exists b' mem' data, decodes f m n data o /\
    SerializeMessage reg b m = Some (E_OK, b') /\ owned_wf b' mem' p /\
    same_layout b b' /\ slice 0 p mem' = slice 0 p mem /\
    slice (p + headerLen_ b) (n + sizeof_MessageHeader) mem' =
      store_mh (mh_ConvertHostToNet (message_header m n)) ++ data.
Proof.
  intros Hwf Hpay Hn [Hc Hs] Hreg. destruct Hs as (ser & Hser & Hs).
  pose proof Hwf as []. unfold MAX_TOTAL_LEN, sizeof_MessageHeader in *.
  unfold SerializeMessage, GetWritableBytesForPayload, write_region. rewrite owf_ptr, Hpay.
  unfold sizeof_MessageHeader. destruct (Z.ltb_spec (n + 24) 24); [lia|]. cbn [mbind option_bind].
  replace (u32 (n + 24 - 24)) with n by (rewrite (wrap_small 32); lia).
  destruct (Z.eqb_spec n 0); [lia|]. rewrite Hreg.
  change (default emptyTransformFunc (Some f)) with f. rewrite Hser. cbn [mbind option_bind].
  set (hdr := store_mh _). assert (Hh : zlen hdr = 24) by apply zlen_store_mh.
  destruct (write_at_wf b mem p (p + headerLen_ b) hdr Hwf) as [E1 Hwf1]; [lia|lia|].
  rewrite E1 in *. cbn [oringinalBytes_ set_memory].
  set (mem1 := splice (p + headerLen_ b) hdr mem) in *.
  assert (Hz1 : zlen mem1 = zlen mem) by (apply zlen_splice; lia).
  change (default [] (Some mem1)) with mem1.
  match goal with |- context [ser ?w n m] =>
    destruct (Hs w) as (data & -> & Hdec); [apply zlen_slice; lia |] end.
  pose proof (dc_len _ _ _ _ _ Hdec) as Hlen. rewrite take_ge by (unfold zlen in Hlen; lia).
  destruct (write_at_wf _ _ p (p + headerLen_ b + 24) data Hwf1) as [E2 Hwf2]; [lia|lia|].
  eexists _, _, data. split; [exact Hdec|]. split; [reflexivity|]. split; [exact Hwf2|]. rewrite E2.
  split; [repeat split|]. split.
  - rewrite slice_splice_disjoint by lia. apply slice_splice_disjoint; lia.
  - unfold mem1. replace (p + headerLen_ b + 24) with (p + headerLen_ b + zlen hdr) by lia.
    rewrite splice_splice_adjacent by lia. apply slice_splice_same; rewrite ?zlen_app; lia.
Qed.

Lemma ToSerialBuffer_ok reg f m n o h e head :
  heap_total -> codec f m n o -> reg !! messageId_ m = Some f -> handle_ok h e head ->
  0 < n -> byte8_align 32 n <= MAX_FRAME_LEN - GetLengthBeforeSerializedData -> n < 2 ^ 32 - 8 ->
  exists b mem data, decodes f m n data o /\
    ToSerialBuffer reg (Some m) h false = Some (E_OK, Some b) /\
    owned_wf b mem e /\ extendHeadLen_ b = e /\ headerLen_ b = GetAppLayerFrameHeaderLength /\
    payloadLen_ b = n + sizeof_MessageHeader /\ totalLen_ b mod 8 = 0 /\ slice 0 e mem = head /\
    slice (e + headerLen_ b) (n + sizeof_MessageHeader) mem =
      store_mh (mh_ConvertHostToNet (message_header m n)) ++ data.
Proof.
  intros [Hobj Hnew] Hcodec Hreg Hh Hn Hal Hmax.
  pose proof Hcodec as [(g & Hg & Hgm) _]. pose proof Hh as (Hhz & He & He8 & Hhandle).
  destruct (byte8_align_bounds 32 n) as [Hb1 Hb2]; [lia|lia|].
  unfold MAX_EXTEND_HEAD_LENGTH, MAX_FRAME_LEN, GetLengthBeforeSerializedData,
    sizeof_CommPhyHeader, sizeof_CommDivergeHeader, sizeof_MessageHeader in *.
  assert (Hsz : GetExtendHeadDataSize h = (E_OK, e)).
  { unfold GetExtendHeadDataSize. destruct h as [h|]; [|rewrite Hhandle; reflexivity].
    destruct Hhandle as [-> _]. cbn [negb Z.eqb DBStatus_OK]. unfold MAX_EXTEND_HEAD_LENGTH.
    destruct (Z.ltb_spec 512 e); [lia|]. rewrite byte8_align_spec by lia.
    destruct (Z.eqb_spec e (8 * ((e + 7) / 8))); [reflexivity|lia]. }
  assert (Hcalc : CalculateDataSerializeLength reg m = Some (E_OK, n)).
  { unfold CalculateDataSerializeLength. rewrite Hreg, Hg. cbn [mbind option_bind]. rewrite Hgm.
    rewrite (wrap_small 32 n) by lia. destruct (Z.eqb_spec n 0); [lia|].
    change (u32 _) with 33554336. destruct (Z.ltb_spec 33554336 (byte8_align 32 n)); [lia|].
    reflexivity. }
  unfold ToSerialBuffer. rewrite Hcalc. cbn [mbind option_bind negb Z.eqb E_OK].
  rewrite Hsz. cbn [negb Z.eqb E_OK]. rewrite Hobj. cbn [negb].
  replace (if 0 <? e then _ else _) with (SetExtendHeadLength emptySerialBuffer e)
    by (destruct (Z.ltb_spec 0 e); [reflexivity|replace e with 0 by lia; reflexivity]).
  rewrite (wrap_small 32) by (unfold sizeof_MessageHeader; lia).
  destruct (Hnew (byte8_align 32 (n + 24 + 72) + e)) as [mem0 Hmem0].
  { destruct (byte8_align_bounds 32 (n + 24 + 72)); lia. }
  destruct (alloc_payload_ok e (n + 24) 72 mem0) as (b0 & Ea & Hwf0 & Hhl & Hpl & Hel & Htl & Hm8);
    unfold MAX_EXTEND_HEAD_LENGTH, MAX_TOTAL_LEN; [lia..|exact Hmem0|].
  change GetAppLayerFrameHeaderLength with 72. change sizeof_MessageHeader with 24. rewrite Ea.
  cbn [negb Z.eqb E_OK].
  destruct (FillExtendHead_ok h e head b0 mem0 Hh Hwf0) as (b1 & mem1 & Ef & Hwf1 & Hl1 & Hhead).
  rewrite Ef. cbn [negb Z.eqb E_OK]. destruct Hl1 as (L1 & L2 & L3 & L4 & L5).
  destruct (SerializeMessage_ok reg f m n o b1 mem1 e) as
    (b2 & mem2 & data & Hdec & Es & Hwf2 & (M1 & M2 & M3 & M4 & M5) & Hpre & Hcont); auto.
  { rewrite L2, Hpl. reflexivity. }
  rewrite Es. cbn [mbind option_bind negb Z.eqb E_OK].
  exists b2, mem2, data. split; [exact Hdec|]. split; [reflexivity|]. split; [exact Hwf2|].
  repeat split; try congruence. rewrite M1. exact Hcont.
Qed.

(** * The headers around the payload *)

Lemma first_field n v rest :
  0 <= v < 256 ^ Z.of_nat n ->
  NetToHost n (load_int (slice 0 (Z.of_nat n) (store_int n (HostToNet n v) ++ rest))) = v.
Proof.
  intros Hv. unfold slice. rewrite Nat2Z.id.
  change (Z.to_nat 0) with 0%nat. rewrite drop_0.
  rewrite take_app_length' by (symmetry; apply length_store_int). rewrite store_HostToNet.
  rewrite NetToHost_load by apply length_be_bytes. rewrite be_val_be_bytes. apply Z.mod_small, Hv.
Qed.

Definition diverge_header (payload : Z) (label : LabelType) : CommDivergeHeader :=
  mkCommDivergeHeader PROTOCOL_VERSION 0 payload label.

Lemma diverge_ok payload label :
  0 <= payload < 2 ^ 32 -> zlen label = COMM_LABEL_LENGTH -> div_ok (diverge_header payload label).
Proof.
  intros Hp Hl. split; [|exact Hl]. unfold div_fields, diverge_header. cbn.
  rewrite !Forall_cons, Forall_nil. unfold field_ok, PROTOCOL_VERSION. cbn [fst snd]. lia.
Qed.

Lemma SetDivergeHeader_ok b mem p label :
  owned_wf b mem p -> headerLen_ b = GetAppLayerFrameHeaderLength ->
  zlen label = COMM_LABEL_LENGTH ->
  exists b' mem', SetDivergeHeader (Some b) label = (E_OK, Some b') /\ owned_wf b' mem' p /\
    same_layout b b' /\ slice 0 p mem' = slice 0 p mem /\
    slice (p + 32) (totalLen_ b - 32) mem' =
      store_div (div_ConvertHostToNet (diverge_header (payloadLen_ b) label))
      ++ slice (p + headerLen_ b) (payloadLen_ b) mem
      ++ slice (p + headerLen_ b + payloadLen_ b) (paddingLen_ b) mem.
Proof.
  intros Hwf Hh Hl. pose proof Hwf as []. unfold MAX_TOTAL_LEN in *.
  unfold GetAppLayerFrameHeaderLength, sizeof_CommPhyHeader, sizeof_CommDivergeHeader in *.
  unfold SetDivergeHeader, GetWritableBytesForHeader, write_region, GetReadOnlyBytesForPayload.
  rewrite owf_ptr, Hh, (read_region_owned _ _ _ _ _ Hwf).
  change (32 + 40 =? GetAppLayerFrameHeaderLength) with true. cbn [negb].
  rewrite take_ge by (unfold zlen in Hl; lia). fold (diverge_header (payloadLen_ b) label).
  set (d := store_div _).
  assert (Hd : zlen d = 40) by (apply zlen_store_div; exact Hl).
  unfold copy_at. rewrite owf_mem. unfold sizeof_CommPhyHeader. rewrite (wrap_small 32) by lia.
  rewrite memcpy_s_ok by (unfold SECUREC_MEM_MAX_LEN; lia). cbn [fmap option_fmap option_map].
  rewrite Z.add_0_r. eexists _, _. split; [reflexivity|].
  split; [apply (set_memory_wf _ mem); [exact Hwf|apply zlen_splice; lia]|].
  split; [repeat split|]. split; [apply slice_splice_disjoint; lia|].
  replace (totalLen_ b - 32) with (40 + (payloadLen_ b + paddingLen_ b)) by lia.
  rewrite !slice_split by lia. rewrite slice_splice_same by lia.
  replace (p + 32 + 40) with (p + (32 + 40)) by lia.
  rewrite !slice_splice_disjoint by lia. reflexivity.
Qed.

Lemma ParseCommDivergeHeader_ok hdr payload label rest r :
  zlen hdr = 32 -> 0 <= payload < 2 ^ 32 -> zlen label = COMM_LABEL_LENGTH ->
  let bytes := hdr ++ store_div (div_ConvertHostToNet (diverge_header payload label)) ++ rest in
  u64 (32 + 40 + payload + pr_paddingLen_ r) = packetLen_ r ->
  ParseCommDivergeHeader bytes (zlen bytes) r = (E_OK, set_diverge_info r payload label).
Proof.
  intros Hh Hp Hl. cbv zeta. intros Hlen.
  pose proof (diverge_ok payload label Hp Hl) as Hok.
  assert (Hd : zlen (store_div (div_ConvertHostToNet (diverge_header payload label))) = 40)
    by (apply zlen_store_div; exact Hl).
  pose proof (zlen_nonneg rest). unfold ParseCommDivergeHeader, sizeof_CommPhyHeader,
    sizeof_CommDivergeHeader. rewrite !zlen_app, Hh, Hd.
  destruct (Z.ltb_spec (32 + (40 + zlen rest)) (32 + 2)); [lia|].
  rewrite slice_app_r, Hh by lia. change (32 - 32) with 0.
  assert (Hver : NetToHost 2 (load_int (slice 0 2
            (store_div (div_ConvertHostToNet (diverge_header payload label)) ++ rest)))
            = PROTOCOL_VERSION).
  { unfold store_div. cbn [div_ConvertHostToNet div_ConvertNetToHost diverge_header div_fields
      store_fields div_version]. rewrite <- !app_assoc.
    change (@slice byte 0 2) with (@slice byte 0 (Z.of_nat 2)).
    apply (first_field 2). unfold PROTOCOL_VERSION. lia. }
  rewrite Hver.
  rewrite Z.eqb_refl. cbn [negb].
  destruct (Z.ltb_spec (32 + (40 + zlen rest)) (32 + 40)); [lia|].
  rewrite drop_app_length' by (unfold zlen in Hh; lia).
  rewrite load_store_div by (apply div_convert_ok, Hok).
  rewrite div_convert_involutive by exact Hok. cbn [div_payLoadLen diverge_header div_commLabel].
  rewrite Hlen, Z.eqb_refl. reflexivity.
Qed.

(** * Deserialization *)

Lemma fill_message_ok m n :
  message_ok m -> fill_message emptyMessage (version_ m) (message_header m n) = received m None.
Proof.
  intros [Hv Ht _ _ _ _]. destruct m. cbn in Hv, Ht.
  destruct Hv as [-> | ->]; destruct Ht as [-> | [-> | ->]]; reflexivity.
Qed.

Lemma message_version m n rest :
  message_ok m ->
  NetToHost 2 (load_int (slice 0 2
    (store_mh (mh_ConvertHostToNet (message_header m n)) ++ rest))) = version_ m.
Proof.
  intros Hm. unfold store_mh. cbn [mh_ConvertHostToNet mh_ConvertNetToHost message_header mh_fields
    store_fields mh_version]. rewrite <- app_assoc.
  change (@slice byte 0 2) with (@slice byte 0 (Z.of_nat 2)).
  apply (first_field 2). destruct (mo_version _ Hm) as [-> | ->]; vm_compute; intuition congruence.
Qed.

(** The payload read by the receiver, and what it makes of it. *)
Lemma DeSerializeMessage_ok reg f m n data o rb :
  message_ok m -> decodes f m n data o -> reg !! messageId_ m = Some f -> 0 < n < 2 ^ 32 - 24 ->
  IsFeedbackErrorMessage (errorNo_ m) = false ->
  GetReadOnlyBytesForPayload rb =
    (Some (store_mh (mh_ConvertHostToNet (message_header m n)) ++ data), n + 24) ->
  DeSerializeMessage reg rb emptyMessage false = Some (E_OK, received m (Some o)).
Proof.
  intros Hm Hcodec Hreg Hn Hfb Hpay. pose proof Hcodec as [Hlen (g & Hg & Hdes)].
  unfold DeSerializeMessage. rewrite Hpay. destruct (Z.ltb_spec (n + 24) 2); [lia|].
  cbn [mbind option_bind].
  pose proof (message_header_ok m n Hm ltac:(lia)) as Hok.
  rewrite message_version by exact Hm.
  assert (Hsup : IsSupportMessageVersion (version_ m) = true)
    by (destruct (mo_version _ Hm) as [-> | ->]; reflexivity).
  rewrite Hsup. cbn [negb]. unfold sizeof_MessageHeader.
  destruct (Z.ltb_spec (n + 24) 24); [lia|].
  rewrite load_store_mh by (apply mh_convert_ok, Hok). rewrite mh_convert_involutive by exact Hok.
  rewrite fill_message_ok by exact Hm. replace (n + 24 - 24) with n by lia.
  rewrite (wrap_small 32) by lia. cbn [mh_dataLen message_header mh_errorNo].
  rewrite Z.eqb_refl, Hfb. cbn [negb orb]. destruct (Z.eqb_spec n 0); [lia|].
  cbn [messageId_ received]. rewrite Hreg, Hg. cbn [mbind option_bind].
  rewrite slice_app_r, zlen_store_mh by (rewrite zlen_store_mh; lia).
  change (24 - 24) with 0. rewrite <- Hlen, slice_all, Hlen, Hdes by reflexivity. reflexivity.
Qed.

(** A payload without data. *)
Lemma DeSerializeMessage_header reg m rb only :
  message_ok m ->
  GetReadOnlyBytesForPayload rb =
    (Some (store_mh (mh_ConvertHostToNet (message_header m 0))), 24) ->
  DeSerializeMessage reg rb emptyMessage only = Some (E_OK, received m None).
Proof.
  intros Hm Hpay. unfold DeSerializeMessage. rewrite Hpay. cbn [Z.ltb Z.compare Pos.compare
    Pos.compare_cont mbind option_bind].
  pose proof (message_header_ok m 0 Hm ltac:(lia)) as Hok.
  rewrite <- (app_nil_r (store_mh _)), message_version by exact Hm.
  assert (Hsup : IsSupportMessageVersion (version_ m) = true)
    by (destruct (mo_version _ Hm) as [-> | ->]; reflexivity).
  rewrite Hsup. cbn [negb]. change (24 <? sizeof_MessageHeader) with false. cbv iota.
  rewrite load_store_mh by (apply mh_convert_ok, Hok). rewrite mh_convert_involutive by exact Hok.
  rewrite fill_message_ok by exact Hm. change (u32 (24 - sizeof_MessageHeader)) with 0.
  cbn [mh_dataLen message_header mh_errorNo Z.eqb negb].
  destruct (IsFeedbackErrorMessage _); [reflexivity|]. destruct only; reflexivity.
Qed.

(** The way of an application frame from the sender's buffer [b] to the receiver's
    buffer [rb]: label and physical header are added, the receiver checks the packet and
    views its bytes without the padding. *)
Definition transports (src : cstring) (b : SerialBuffer) (label : LabelType) (frameId : Z)
    (r : ParseResult) (rb : SerialBuffer) : Prop :=
  exists b1 b2 bytes,
    SetDivergeHeader (Some b) label = (E_OK, Some b1) /\
    SetPhyHeader (Some b1) (mkPhyHeaderInfo (HashFunc src) frameId APPLICATION_MESSAGE)
      = (E_OK, Some b2) /\
    GetReadOnlyBytesForEntireBuffer b2 = (Some bytes, zlen bytes) /\
    CheckAndParsePacket src (Some bytes) (zlen bytes) emptyParseResult = (E_OK, r) /\
    SetExternalBuff emptySerialBuffer (Some bytes) (u32 (zlen bytes - pr_paddingLen_ r))
      GetAppLayerFrameHeaderLength = (E_OK, rb).

Lemma app_transport src b mem e label frameId payload :
  owned_wf b mem e -> headerLen_ b = GetAppLayerFrameHeaderLength -> totalLen_ b mod 8 = 0 ->
  zlen label = COMM_LABEL_LENGTH -> 0 <= frameId < 2 ^ 32 ->
  slice (e + headerLen_ b) (payloadLen_ b) mem = payload ->
  exists r rb, transports src b label frameId r rb /\
    frameType_ r = APPLICATION_MESSAGE /\ isFragment_ r = false /\ frameId_ r = frameId /\
    commLabel_ r = label /\ GetReadOnlyBytesForPayload rb = (Some payload, payloadLen_ b).
Proof.
  intros Hwf Hhl Hm8 Hl Hf Hpay.
  destruct (SetDivergeHeader_ok b mem e label Hwf Hhl Hl)
    as (b1 & mem1 & E1 & Hwf1 & (L1 & L2 & L3 & L4 & L5) & _ & Hrest).
  destruct (sent_packet b1 mem1 e (mkPhyHeaderInfo (HashFunc src) frameId APPLICATION_MESSAGE) src)
    as (b2 & hdr & E2 & Hz & Erd & Eparse); auto; try (rewrite ?L1, ?L3, ?Hhl; done).
  { split; [|split]; cbn; [apply HashFunc_range|exact Hf|discriminate]. }
  cbn [info_frameType] in *. rewrite decide_True in Eparse by reflexivity.
  pose proof Hwf as [Hmm _ _ _ Hp0 Hzm _ Hpp Hpad Htot Hmax].
  unfold GetAppLayerFrameHeaderLength, sizeof_CommPhyHeader, sizeof_CommDivergeHeader,
    MAX_TOTAL_LEN in *.
  rewrite L3, Hrest, Hpay in Erd, Eparse. set (pad := slice _ (paddingLen_ b) mem) in *.
  assert (Hzpad : zlen pad = paddingLen_ b) by (apply zlen_slice; lia).
  assert (Hzpay : zlen payload = payloadLen_ b) by (rewrite <- Hpay; apply zlen_slice; lia).
  set (bytes := hdr ++ _ ++ payload ++ pad) in *.
  assert (Hd : zlen (store_div (div_ConvertHostToNet (diverge_header (payloadLen_ b) label))) = 40)
    by (apply zlen_store_div; exact Hl).
  assert (Hzb : zlen bytes = totalLen_ b) by (unfold bytes; rewrite !zlen_app; lia).
  rewrite (ParseCommDivergeHeader_ok hdr (payloadLen_ b) label (payload ++ pad)) in Eparse;
    [|exact Hz|lia|exact Hl|].
  2: { cbn. rewrite (wrap_small 8) by lia. rewrite (wrap_small 64) by lia. lia. }
  destruct (set_external_ok bytes (totalLen_ b - paddingLen_ b) 72) as (rb & Erb & Hrb & Hrh & Hrp);
    [lia|unfold MAX_TOTAL_LEN; lia|lia|].
  eexists _, rb. split; [exists b1, b2, bytes; split_and!; [exact E1|exact E2|exact Erd|exact Eparse|]|].
  - cbn [pr_paddingLen_ set_diverge_info phy_result SetFrameTypeInfo set_phy_info].
    rewrite L4, (wrap_small 8), Hzb, (wrap_small 32) by lia. exact Erb.
  - split_and!; try reflexivity. unfold GetReadOnlyBytesForPayload.
    rewrite (read_region_external _ _ _ _ Hrb), Hrh, Hrp.
    replace (totalLen_ b - paddingLen_ b - 72) with (payloadLen_ b) by lia. do 2 f_equal.
    unfold bytes. rewrite slice_app_r by lia. rewrite slice_app_r by lia.
    replace (72 - zlen hdr - _) with 0 by lia. rewrite slice_app_l by lia.
    rewrite <- Hzpay. apply slice_all.
Qed.

Lemma app_message_ok src reg f (m : Message) n o h e head label frameId :
  heap_total -> message_ok m -> IsFeedbackErrorMessage (errorNo_ m) = false ->
  reg !! messageId_ m = Some f -> codec f m n o -> handle_ok h e head ->
  0 < n < 2 ^ 32 - 8 -> byte8_align 32 n <= MAX_FRAME_LEN - GetLengthBeforeSerializedData ->
  zlen label = COMM_LABEL_LENGTH -> 0 <= frameId < 2 ^ 32 ->
  exists b r rb,
    ToSerialBuffer reg (Some m) h false = Some (E_OK, Some b) /\
    transports src b label frameId r rb /\
    frameType_ r = APPLICATION_MESSAGE /\ frameId_ r = frameId /\ commLabel_ r = label /\
    ToMessage reg (Some rb) false = Some (E_OK, Some (received m (Some o))).
Proof.
  intros Hheap Hm Hfb Hreg Hcodec Hh Hn Hal Hl Hf.
  destruct (ToSerialBuffer_ok reg f m n o h e head Hheap Hcodec Hreg Hh ltac:(lia) Hal ltac:(lia))
    as (b & mem & data & Hdec & Eb & Hwf & He & Hhl & Hpl & Hm8 & _ & Hpay). rewrite <- Hpl in Hpay.
  destruct (app_transport src b mem e label frameId _ Hwf Hhl Hm8 Hl Hf Hpay)
    as (r & rb & Htr & H1 & _ & H2 & H3 & Hrd).
  exists b, r, rb. split_and!; auto. destruct Hheap as [Hobj _]. unfold ToMessage. rewrite Hobj.
  cbn [negb]. rewrite (DeSerializeMessage_ok reg f m n data o rb Hm Hdec Hreg); [reflexivity| |exact Hfb|].
  - destruct (byte8_align_bounds 32 n) as [? _]; [lia|lia|].
    unfold MAX_FRAME_LEN, GetLengthBeforeSerializedData, sizeof_CommPhyHeader,
      sizeof_CommDivergeHeader, sizeof_MessageHeader in *. lia.
  - rewrite Hrd, Hpl. reflexivity.
Qed.

(** an application message whose transform functions are registered survives the
    whole trip: it is serialized into a buffer (behind the extended head the service asked
    for), the label and the physical header are added, the receiver accepts the packet,
    finds the label, and from the received bytes without their padding gets the same
    message back with the object its deserializer makes of the data. *)
Theorem app_message_roundtrip src reg f (m : Message) n o h e head label frameId :
  heap_total -> message_ok m -> IsFeedbackErrorMessage (errorNo_ m) = false ->
  reg !! messageId_ m = Some f -> codec f m n o -> handle_ok h e head ->
  0 < n < 2 ^ 32 - 8 -> byte8_align 32 n <= MAX_FRAME_LEN - GetLengthBeforeSerializedData ->
  zlen label = COMM_LABEL_LENGTH -> 0 <= frameId < 2 ^ 32 ->
  exists b r rb,
    ToSerialBuffer reg (Some m) h false = Some (E_OK, Some b) /\
    transports src b label frameId r rb /\
    frameType_ r = APPLICATION_MESSAGE /\ frameId_ r = frameId /\ commLabel_ r = label /\
    ToMessage reg (Some rb) false = Some (E_OK, Some (received m (Some o))).
Proof. apply app_message_ok. Qed.

(** a feedback frame carries the message header only; the sender needs no registered
    transform function for it, and the receiver recovers every header field of the
    message whether or not it knows the message id. *)
Theorem feedback_roundtrip src reg reg' (m : Message) label frameId only :
  heap_total -> message_ok m -> zlen label = COMM_LABEL_LENGTH -> 0 <= frameId < 2 ^ 32 ->
  exists b0 b r rb,
    ToSerialBuffer reg (Some m) None true = Some (E_OK, Some b0) /\
    BuildFeedbackMessageFrame reg (Some m) label = Some (E_OK, Some b) /\
    transports src b0 label frameId r rb /\
    SetDivergeHeader (Some b0) label = (E_OK, Some b) /\
    frameType_ r = APPLICATION_MESSAGE /\ commLabel_ r = label /\
    ToMessage reg' (Some rb) only = Some (E_OK, Some (received m None)).
Proof.
  intros [Hobj Hnew] Hm Hl Hf.
  destruct (Hnew 96 ltac:(lia)) as [mem0 Hmem0].
  destruct (alloc_payload_ok 0 24 72 mem0) as (b0 & Ea & Hwf0 & Hhl & Hpl & Hel & Htl & Hm8);
    unfold MAX_EXTEND_HEAD_LENGTH, MAX_TOTAL_LEN; [lia..|exact Hmem0|].
  set (hdr := store_mh (mh_ConvertHostToNet (message_header m 0))).
  assert (Hzh : zlen hdr = 24) by apply zlen_store_mh.
  pose proof Hwf0 as [Hmm Hptr _ _ _ Hzm _ _ Hpad Htot _].
  destruct (write_at_wf b0 mem0 0 72 hdr Hwf0) as [Ew Hwf]; [lia|lia|].
  assert (Eser : ToSerialBuffer reg (Some m) None true = Some (E_OK, Some (write_at b0 72 hdr))).
  { unfold ToSerialBuffer. cbn [mbind option_bind negb Z.eqb E_OK GetExtendHeadDataSize].
    rewrite Hobj. cbn [negb]. change (if 0 <? 0 then _ else _) with (SetExtendHeadLength emptySerialBuffer 0).
    change (u32 (0 + sizeof_MessageHeader)) with 24. change GetAppLayerFrameHeaderLength with 72.
    rewrite Ea. cbn [negb Z.eqb E_OK FillExtendHeadDataIfNeed].
    unfold SerializeMessage, GetWritableBytesForPayload, write_region. rewrite Hptr, Hpl, Hhl.
    reflexivity. }
  assert (Hsl : slice (0 + headerLen_ (write_at b0 72 hdr)) (payloadLen_ (write_at b0 72 hdr))
                  (splice 72 hdr mem0) = hdr).
  { rewrite Ew. cbn [headerLen_ payloadLen_ set_memory]. rewrite Hhl, Hpl.
    apply slice_splice_same; lia. }
  assert (Hlay : headerLen_ (write_at b0 72 hdr) = 72 /\ totalLen_ (write_at b0 72 hdr) mod 8 = 0 /\
                 payloadLen_ (write_at b0 72 hdr) = 24) by (rewrite Ew; auto).
  destruct Hlay as (Hlay1 & Hlay2 & Hlay3).
  destruct (app_transport src (write_at b0 72 hdr) _ 0 label frameId hdr Hwf Hlay1 Hlay2 Hl Hf Hsl)
    as (r & rb & Htr & H1 & _ & H2 & H3 & Hrd).
  destruct (SetDivergeHeader_ok (write_at b0 72 hdr) _ 0 label Hwf Hlay1 Hl) as (b1 & mem1 & E1 & _).
  exists (write_at b0 72 hdr), b1, r, rb. split_and!; auto.
  { unfold BuildFeedbackMessageFrame. rewrite Eser. cbn [mbind option_bind]. rewrite E1. reflexivity. }
  unfold ToMessage. rewrite Hobj. cbn [negb].
  rewrite (DeSerializeMessage_header reg' m rb only Hm); [reflexivity|]. rewrite Hrd, Hlay3. reflexivity.
Qed.

(** * No exception escapes *)

Lemma AllocBufferByPayloadLength_inv b payload header b' :
  AllocBufferByPayloadLength b payload header = (E_OK, b') ->
  payloadLen_ b' = payload /\ is_Some (bytes_ b').
Proof.
  unfold AllocBufferByPayloadLength. repeat case_match; intros [= <-]; cbn; eauto.
Qed.

Lemma FillExtendHead_keeps h b e :
  let b' := snd (FillExtendHeadDataIfNeed h b e) in
  payloadLen_ b' = payloadLen_ b /\ bytes_ b' = bytes_ b.
Proof.
  unfold FillExtendHeadDataIfNeed, write_at. repeat case_match; cbn; auto.
Qed.

Lemma ToSerialBuffer_total reg m h only :
  registry_ok reg -> is_Some (ToSerialBuffer reg (Some m) h only).
Proof.
  intros Hreg. unfold ToSerialBuffer.
  set (calc := if only then _ else _).
  assert (Hcalc : exists e n, calc = Some (e, n) /\
    (e = E_OK -> n = 0 \/ exists f, reg !! messageId_ m = Some f)).
  { unfold calc. destruct only; [eauto 6|]. unfold CalculateDataSerializeLength.
    destruct (reg !! messageId_ m) as [f|] eqn:E; [|eexists _, _; split; [reflexivity|discriminate]].
    destruct (map_Forall_lookup_1 _ _ _ _ Hreg E) as ([g ->] & _). cbn [mbind option_bind].
    case_match; eexists _, _; split; eauto. }
  destruct Hcalc as (e & n & -> & Hn). cbn [mbind option_bind].
  destruct (Z.eqb_spec e E_OK) as [->|]; [|eexists; reflexivity]. specialize (Hn eq_refl). cbn [negb].
  destruct (GetExtendHeadDataSize h) as [e1 hs]. destruct (negb (e1 =? E_OK)); [eexists; reflexivity|].
  destruct (negb heap_obj); [eexists; reflexivity|].
  set (pl := u32 _). destruct (AllocBufferByPayloadLength _ _ _) as [e2 b] eqn:Ea.
  destruct (Z.eqb_spec e2 E_OK) as [->|]; [|eexists; reflexivity]. cbn [negb].
  destruct (AllocBufferByPayloadLength_inv _ _ _ _ Ea) as [Hpl [p Hp]].
  pose proof (FillExtendHead_keeps h b hs) as Hk.
  destruct (FillExtendHeadDataIfNeed h b hs) as [e3 b']. cbn [snd] in Hk. destruct Hk as [Hk1 Hk2].
  destruct (negb (e3 =? E_OK)); [eexists; reflexivity|].
  assert (Hser : is_Some (SerializeMessage reg b' m)).
  { unfold SerializeMessage, GetWritableBytesForPayload, write_region.
    rewrite Hk2, Hp, Hk1, Hpl. unfold pl, sizeof_MessageHeader.
    destruct (u32 (n + 24) <? 24); [eexists; reflexivity|]. cbn [mbind option_bind].
    destruct (u32 (u32 (n + 24) - 24) =? 0) eqn:Hz; [eexists; reflexivity|].
    destruct Hn as [->|[f Hf]]; [discriminate Hz|]. rewrite Hf.
    change (default emptyTransformFunc (Some f)) with f.
    destruct (map_Forall_lookup_1 _ _ _ _ Hreg Hf) as (_ & [g ->] & _). cbn [mbind option_bind].
    destruct (g _ _ _). destruct (negb _); eexists; reflexivity. }
  destruct Hser as [[e4 b''] ->]. cbn [mbind option_bind].
  destruct (negb (e4 =? E_OK)); eexists; reflexivity.
Qed.

Lemma DeSerializeMessage_total reg b m only :
  registry_ok reg -> (isExternalStackMemory_ b = true -> is_Some (externalBytes_ b)) ->
  is_Some (DeSerializeMessage reg b m only).
Proof.
  intros Hreg Hext. unfold DeSerializeMessage, GetReadOnlyBytesForPayload.
  assert (Hp : forall off len, exists bs, fst (read_region b off len) = Some bs \/
                 snd (read_region b off len) = 0).
  { intros off len. unfold read_region. destruct (isExternalStackMemory_ b).
    - destruct (Hext eq_refl) as [ext ->]. cbn. eauto.
    - destruct (owned_bytes b off len) as [bs|]; cbn; [eauto|]. exists []. auto. }
  destruct (Hp (headerLen_ b) (payloadLen_ b)) as [bs Hbs].
  destruct (read_region b (headerLen_ b) (payloadLen_ b)) as [o n]. cbn in Hbs.
  destruct Hbs as [-> | ->]; [|eexists; reflexivity]. cbn [mbind option_bind].
  do 6 (match goal with |- is_Some (if ?c then _ else _) => destruct c end;
        [eexists; reflexivity|]).
  destruct (reg !! _) as [f|] eqn:Hf; [|eexists; reflexivity].
  destruct (map_Forall_lookup_1 _ _ _ _ Hreg Hf) as (_ & _ & [g ->]). cbn [mbind option_bind].
  destruct (g _ _ _). destruct (negb _); eexists; reflexivity.
Qed.

(** as long as the registry was filled through [RegTransformFunction] (so that every
    registered entry has all three functions), neither serializing nor deserializing a
    message calls an empty function, whatever the message, the buffer and the service's
    extended head are. *)
Theorem transform_never_throws (reg : Registry) m h only rb only' :
  registry_ok reg ->
  (forall b, rb = Some b -> isExternalStackMemory_ b = true -> is_Some (externalBytes_ b)) ->
  is_Some (ToSerialBuffer reg m h only) /\ is_Some (ToMessage reg rb only').
Proof.
  intros Hreg Hext. split.
  - destruct m as [m|]; [|eexists; reflexivity]. apply ToSerialBuffer_total, Hreg.
  - destruct rb as [b|]; [|eexists; reflexivity]. unfold ToMessage.
    destruct heap_obj; [|eexists; reflexivity]. cbn [negb].
    destruct (DeSerializeMessage_total reg b emptyMessage only' Hreg (Hext b eq_refl)) as [[e m'] ->].
    cbn. case_match; eexists; reflexivity.
Qed.

End Facts.

(** * A concrete message *)

Section Sample.
Local Existing Instance x86_host.
Local Existing Instance zero_heap.

(** The object is a byte string, sent as it is. *)
Definition raw_transform : TransformFunc (list byte) :=
  mkTransformFunc
    (Some (fun m => zlen (default [] (holderPtr_ m))))
    (Some (fun _ _ m => (E_OK, default [] (holderPtr_ m))))
    (Some (fun bs _ m => (E_OK, set_object m bs))).

Definition raw_registry : Registry (list byte) :=
  snd (RegTransformFunction ∅ 5 raw_transform).

Definition raw_message (err : Z) : Message (list byte) :=
  mkMessage MSG_VERSION_EXT TYPE_REQUEST 5 11 12 err (Some [x01; x02; x03]) [x61] HIGH.

Definition raw_handle : ExtendHeaderHandle :=
  mkExtendHeaderHandle (DBStatus_OK, 8) (fun _ _ _ => (DBStatus_OK, replicate 8 x7e)).

Definition raw_label : LabelType := replicate 32 x33.

Lemma raw_message_ok err : 0 <= err < 2 ^ 32 -> message_ok (raw_message err).
Proof. intros He. constructor; cbn; unfold MSG_VERSION_EXT, TYPE_REQUEST; auto; lia. Qed.

Lemma raw_codec err : codec raw_transform (raw_message err) 3 [x01; x02; x03].
Proof.
  constructor; (eexists; split; [reflexivity|]); [reflexivity|].
  intros window _. exists [x01; x02; x03]. split; [reflexivity|]. constructor; [reflexivity|].
  eexists. split; reflexivity.
Qed.

Lemma raw_registry_ok : registry_ok raw_registry.
Proof. apply RegTransformFunction_ok, (map_Forall_empty (M := gmap Z)). Qed.

Lemma app_message_roundtrip_witness :
  exists b r rb,
    ToSerialBuffer raw_registry (Some (raw_message 0)) (Some raw_handle) false = Some (E_OK, Some b) /\
    transports [x61; x62] b raw_label 4 r rb /\
    frameType_ r = APPLICATION_MESSAGE /\ frameId_ r = 4 /\ commLabel_ r = raw_label /\
    ToMessage raw_registry (Some rb) false =
      Some (E_OK, Some (received (raw_message 0) (Some [x01; x02; x03]))).
Proof.
  apply (app_message_roundtrip [x61; x62] raw_registry raw_transform (raw_message 0) 3
           [x01; x02; x03] (Some raw_handle) 8 (replicate 8 x7e) raw_label 4).
  - exact zero_heap_total.
  - apply raw_message_ok. lia.
  - reflexivity.
  - reflexivity.
  - apply raw_codec.
  - repeat split; vm_compute; congruence.
  - lia.
  - vm_compute. discriminate.
  - reflexivity.
  - lia.
Defined.

Lemma feedback_roundtrip_witness :
  exists b0 b r rb,
    ToSerialBuffer raw_registry (Some (raw_message E_FEEDBACK_UNKNOWN_MESSAGE)) None true
      = Some (E_OK, Some b0) /\
    BuildFeedbackMessageFrame raw_registry (Some (raw_message E_FEEDBACK_UNKNOWN_MESSAGE)) raw_label
      = Some (E_OK, Some b) /\
    transports [x61; x62] b0 raw_label 4 r rb /\
    SetDivergeHeader (Some b0) raw_label = (E_OK, Some b) /\
    frameType_ r = APPLICATION_MESSAGE /\ commLabel_ r = raw_label /\
    ToMessage ∅ (Some rb) false =
      Some (E_OK, Some (received (raw_message E_FEEDBACK_UNKNOWN_MESSAGE) None)).
Proof.
  apply (feedback_roundtrip [x61; x62] raw_registry ∅ (raw_message E_FEEDBACK_UNKNOWN_MESSAGE)
           raw_label 4 false).
  - exact zero_heap_total.
  - apply raw_message_ok. vm_compute. intuition congruence.
  - reflexivity.
  - lia.
Defined.

Lemma transform_never_throws_witness :
  is_Some (ToSerialBuffer raw_registry (Some (raw_message 0)) None false) /\
  is_Some (ToMessage raw_registry None false).
Proof.
  apply (transform_never_throws raw_registry (Some (raw_message 0)) None false None false).
  - exact raw_registry_ok.
  - discriminate.
Defined.

End Sample.
