(* ===== verification/SyncStorage.v ===== *)
(** What the syncer uses of the storage below it ([ISyncInterface],
    storage/include/isync_interface.h), of the system clock and of the device hash, as
    interfaces with their laws; and a storage in memory that satisfies them. *)

From S2P Require Import Prelude Memory CommTypes.
From Stdlib Require Import ZArith Lia.
From Stdlib Require Import Strings.Byte.
From stdpp Require Import base numbers list gmap.

Open Scope Z_scope.

Abbreviation Key := (list byte).
Abbreviation Value := (list byte).
Abbreviation DeviceID := (list byte).

Definition E_INVALID_DB : Z := E_BASE + 2.
Definition E_INVALID_TIME : Z := E_BASE + 71.
Definition E_SYSTEM_API_FAIL : Z := E_BASE + 43.

(** [DBConstant::MAX_SYNC_BLOCK_SIZE]: 30 MB. *)
Definition MAX_SYNC_BLOCK_SIZE : Z := 31457280.

(** The meta data operations of a storage with state [St]; each returns its status. *)
Class SyncStorage (St : Type) := {
  GetMetaData : St -> Key -> Z * Value;
  PutMetaData : St -> Key -> Value -> Z * St;
  DeleteMetaData : St -> list Key -> Z * St;
  DeleteMetaDataByPrefixKey : St -> Key -> Z * St;
  GetAllMetaKeys : St -> Z * list Key;
  GetMaxTimestamp : St -> Z
}.

Definition has_prefix (prefix key : list byte) : bool :=
  bool_decide (take (length prefix) key = prefix).

(** A storage keeps a map; a call that reports an error has changed nothing. Reads may
    fail, too. *)
Class StorageLaws (St : Type) `{SyncStorage St} := {
  contents : St -> gmap Key Value;
  get_found : forall st k v, GetMetaData st k = (E_OK, v) -> contents st !! k = Some v;
  get_missing : forall st k v, GetMetaData st k = (- E_NOT_FOUND, v) -> contents st !! k = None;
  put_spec : forall st k v e st', PutMetaData st k v = (e, st') ->
    contents st' = if e =? E_OK then <[k := v]> (contents st) else contents st;
  delete_spec : forall st ks e st', DeleteMetaData st ks = (e, st') ->
    contents st' = if e =? E_OK then filter (fun kv => kv.1 ∉ ks) (contents st) else contents st;
  delete_prefix_spec : forall st pre e st', DeleteMetaDataByPrefixKey st pre = (e, st') ->
    contents st' = if e =? E_OK
                   then filter (fun kv => has_prefix pre kv.1 = false) (contents st)
                   else contents st;
  keys_nodup : forall st ks, GetAllMetaKeys st = (E_OK, ks) -> NoDup ks;
  keys_spec : forall st ks, GetAllMetaKeys st = (E_OK, ks) ->
    forall k, k ∈ ks <-> is_Some (contents st !! k)
}.

(** The reads of [st] do not fail. *)
Definition reads_ok {St} `{StorageLaws St} (st : St) : Prop :=
  (forall k, match contents st !! k with
             | Some v => GetMetaData st k = (E_OK, v)
             | None => exists v, GetMetaData st k = (- E_NOT_FOUND, v)
             end)
  /\ fst (GetAllMetaKeys st) = E_OK.

(** [DBCommon::TransferHashString]: a cryptographic digest of another library. *)
Class DeviceHash := { TransferHashString : list byte -> list byte }.

(** * A storage in memory *)

(** [fails] says whether the next writes fail. *)
Record MemoryStorage := mkMemoryStorage {
  ms_data : gmap Key Value;
  ms_fails : bool;
  ms_max : Z
}.

Definition ms_write (st : MemoryStorage) (data : gmap Key Value) : Z * MemoryStorage :=
  if ms_fails st then (- E_INTERNAL_ERROR, st)
  else (E_OK, mkMemoryStorage data (ms_fails st) (ms_max st)).

#[export] Instance memory_storage : SyncStorage MemoryStorage := {|
  GetMetaData := fun st k => match ms_data st !! k with
                             | Some v => (E_OK, v)
                             | None => (- E_NOT_FOUND, [])
                             end;
  PutMetaData := fun st k v => ms_write st (<[k := v]> (ms_data st));
  DeleteMetaData := fun st ks => ms_write st (filter (fun kv => kv.1 ∉ ks) (ms_data st));
  DeleteMetaDataByPrefixKey := fun st pre =>
    ms_write st (filter (fun kv => has_prefix pre kv.1 = false) (ms_data st));
  GetAllMetaKeys := fun st => (E_OK, elements (dom (ms_data st)));
  GetMaxTimestamp := ms_max
|}.

#[export] Program Instance memory_storage_laws : StorageLaws MemoryStorage := {| contents := ms_data |}.
Next Obligation.
  intros st k v E. cbn in E. destruct (ms_data st !! k); [by injection E as -> | discriminate].
Qed.
Next Obligation.
  intros st k v E. cbn in E. destruct (ms_data st !! k); [discriminate | done].
Qed.
Next Obligation. intros st k v e st' E. cbn in E. unfold ms_write in E. by destruct (ms_fails st); injection E as <- <-. Qed.
Next Obligation. intros st ks e st' E. cbn in E. unfold ms_write in E. by destruct (ms_fails st); injection E as <- <-. Qed.
Next Obligation. intros st ks e st' E. cbn in E. unfold ms_write in E. by destruct (ms_fails st); injection E as <- <-. Qed.
Next Obligation. intros st ks E. injection E as <-. apply NoDup_elements. Qed.
Next Obligation. intros st ks E k. injection E as <-. rewrite elem_of_elements. apply elem_of_dom. Qed.

Lemma memory_reads_ok st : reads_ok st.
Proof.
  split; [| done]. intros k. cbn. destruct (ms_data st !! k); eauto.
Qed.

(** * The system time (the static part of [TimeHelper], syncer/src/time_helper.cpp), in units of 100 ns *)

Definition BASE_OFFSET : Z := 10000 * 365 * 24 * 3600 * 1000 * 1000 * 10.
Definition MAX_VALID_TIME : Z := BASE_OFFSET * 2.
Definition TO_100_NS : Z := 10.
Definition MS_TO_100_NS : Z := 10000.
Definition INVALID_TIMESTAMP : Z := 0.
Definition MAX_INC_COUNT : Z := 9.

(** The static members [lastSystemTimeUs_] and [currentIncCount_]. *)
Record SysClock := mkSysClock {
  lastSystemTimeUs_ : Z;
  currentIncCount_ : Z
}.

Definition initialClock : SysClock := mkSysClock 0 0.

(** [now] is what the operating system answers, [None] when it fails. *)
Definition GetSysCurrentTime (c : SysClock) (now : option Z) : Z * SysClock :=
  match now with
  | None => (INVALID_TIMESTAMP, c)
  | Some curTime =>
    let c := if curTime =? lastSystemTimeUs_ c then
               mkSysClock (lastSystemTimeUs_ c)
                 (if currentIncCount_ c <? MAX_INC_COUNT then u64 (currentIncCount_ c + 1)
                  else currentIncCount_ c)
             else mkSysClock curTime 0 in
    (u64 (u64 (curTime * TO_100_NS) + currentIncCount_ c), c)
  end.
