(* ===== verification/WaterMark.v ===== *)
(** Model of [LruMap] and [QuerySyncWaterMarkHelper]
    (syncer/src/query_sync_water_mark_helper.cpp): the water marks of query and delete
    synchronization, kept in the storage behind caches. *)

From S2P Require Import Prelude Memory CommTypes Parcel SyncStorage.
From Stdlib Require Import ZArith Lia.
From Stdlib Require Import Strings.Byte.
From stdpp Require Import base numbers list gmap sorting.

Open Scope Z_scope.

Definition MAX_CACHE_ITEMS : Z := 200.
Definition MAX_STORE_ITEMS : Z := 100000.
Definition SOFTWARE_VERSION_RELEASE_3_0 : Z := 103.
Definition SOFTWARE_VERSION_RELEASE_6_0 : Z := 106.
Definition QUERY_WATERMARK_VERSION_CURRENT : Z := SOFTWARE_VERSION_RELEASE_6_0.
Definition DELETE_WATERMARK_VERSION_CURRENT : Z := SOFTWARE_VERSION_RELEASE_3_0.

(** "querySync" and "deleteSync". *)
Definition QUERY_SYNC_PREFIX_KEY : list byte := [x71; x75; x65; x72; x79; x53; x79; x6e; x63].
Definition DELETE_SYNC_PREFIX_KEY : list byte := [x64; x65; x6c; x65; x74; x65; x53; x79; x6e; x63].

Record QueryWaterMark := mkQueryWaterMark {
  qw_version : Z;
  qw_sendWaterMark : Z;
  qw_recvWaterMark : Z;
  qw_lastUsedTime : Z;
  qw_sql : list byte;
  qw_lastQueryTime : Z
}.

Definition emptyQueryWaterMark : QueryWaterMark := mkQueryWaterMark 0 0 0 0 [] 0.

Record DeleteWaterMark := mkDeleteWaterMark {
  dw_version : Z;
  dw_sendWaterMark : Z;
  dw_recvWaterMark : Z
}.

Definition emptyDeleteWaterMark : DeleteWaterMark := mkDeleteWaterMark 0 0 0.

(** * LruMap *)

Record LruMap := mkLruMap {
  cache_ : gmap (list byte) QueryWaterMark;
  eliminationChain_ : list (list byte * QueryWaterMark)
}.

Definition emptyLruMap : LruMap := mkLruMap ∅ [].

Fixpoint erase_entry (key : list byte) (chain : list (list byte * QueryWaterMark))
    : list (list byte * QueryWaterMark) :=
  match chain with
  | [] => []
  | e :: chain => if decide (e.1 = key) then chain else e :: erase_entry key chain
  end.

(** Entries leave at the front until the chain has [MAX_CACHE_ITEMS]. *)
Fixpoint evict (chain : list (list byte * QueryWaterMark)) (cache : gmap (list byte) QueryWaterMark)
    : LruMap :=
  match chain with
  | [] => mkLruMap cache []
  | e :: rest => if MAX_CACHE_ITEMS <? zlen chain then evict rest (delete e.1 cache)
                 else mkLruMap cache chain
  end.

Definition Elimination (l : LruMap) (key : list byte) (inQueryWaterMark : QueryWaterMark) : LruMap :=
  evict (erase_entry key (eliminationChain_ l) ++ [(key, inQueryWaterMark)]) (cache_ l).

Definition lru_Put (l : LruMap) (key : list byte) (inValue : QueryWaterMark) : LruMap :=
  Elimination (mkLruMap (<[key := inValue]> (cache_ l)) (eliminationChain_ l)) key inValue.

Definition lru_Get (l : LruMap) (key : list byte) : option QueryWaterMark * LruMap :=
  match cache_ l !! key with
  | None => (None, l)
  | Some outValue => (Some outValue, Elimination l key outValue)
  end.

(** [key.find(prefixKey) == 0]; the loop goes over the chain. *)
Definition RemoveWithPrefixKey (l : LruMap) (prefixKey : list byte) : LruMap :=
  mkLruMap
    (fold_left (fun c e => if has_prefix prefixKey e.1 then delete e.1 c else c)
       (eliminationChain_ l) (cache_ l))
    (filter (fun e => has_prefix prefixKey e.1 = false) (eliminationChain_ l)).

(** * Serialized form *)

Section Serialize.
Context `{Host}.

(** A [uint64_t]; only [GetEightByteAlign] goes through 32 bits. *)
Definition CalculateQueryWaterMarkSize (q : QueryWaterMark) : Z :=
  let length := GetEightByteAlign GetUInt32Len in
  u64 (length + GetUInt64Len + GetUInt64Len + GetUInt64Len + GetStringLen (qw_sql q) + GetUInt64Len).

(** [None] is undefined behaviour of the parcel. *)
Definition SerializeQueryWaterMark (q : QueryWaterMark) : option (Z * list byte) :=
  let length := CalculateQueryWaterMarkSize q in
  let outValue := replicate (Z.to_nat length) x00 in
  '(_, p) ← (_ ← WriteUInt32 (qw_version q);
             _ ← EightByteAlign;
             _ ← WriteUInt64 (qw_sendWaterMark q);
             _ ← WriteUInt64 (qw_recvWaterMark q);
             _ ← WriteUInt64 (qw_lastUsedTime q);
             _ ← WriteString (qw_sql q);
             WriteUInt64 (qw_lastQueryTime q)) (newParcel (Some outValue) (u32 length));
  let outValue := default [] (buf_ p) in
  if isError_ p then Some (- E_PARSE_FAIL, outValue) else Some (E_OK, outValue).

Definition DeSerializeQueryWaterMark (dbQueryWaterMark : list byte) (q : QueryWaterMark)
    : option (Z * QueryWaterMark) :=
  '(q, p) ← ('(_, version) ← ReadUInt32 (qw_version q);
             _ ← EightByteAlign;
             '(_, send) ← ReadUInt64 (qw_sendWaterMark q);
             '(_, recv) ← ReadUInt64 (qw_recvWaterMark q);
             '(_, used) ← ReadUInt64 (qw_lastUsedTime q);
             '(_, sql) ← ReadString (qw_sql q);
             '(_, time) ← (if SOFTWARE_VERSION_RELEASE_6_0 <=? version
                           then ReadUInt64 (qw_lastQueryTime q)
                           else mret (0, qw_lastQueryTime q));
             mret (mkQueryWaterMark version send recv used sql time))
      (newParcel (Some dbQueryWaterMark) (u32 (zlen dbQueryWaterMark)));
  if isError_ p then Some (- E_PARSE_FAIL, q) else Some (E_OK, q).

Definition CalculateDeleteWaterMarkSize : Z :=
  u64 (GetEightByteAlign GetUInt32Len + GetUInt64Len + GetUInt64Len).

Definition SerializeDeleteWaterMark (d : DeleteWaterMark) : option (Z * list byte) :=
  let length := CalculateDeleteWaterMarkSize in
  let outValue := replicate (Z.to_nat length) x00 in
  '(_, p) ← (_ ← WriteUInt32 (dw_version d);
             _ ← EightByteAlign;
             _ ← WriteUInt64 (dw_sendWaterMark d);
             WriteUInt64 (dw_recvWaterMark d)) (newParcel (Some outValue) (u32 length));
  let outValue := default [] (buf_ p) in
  if isError_ p then Some (- E_PARSE_FAIL, outValue) else Some (E_OK, outValue).

Definition DeSerializeDeleteWaterMark (inValue : list byte) (d : DeleteWaterMark)
    : option (Z * DeleteWaterMark) :=
  '(d, p) ← ('(_, version) ← ReadUInt32 (dw_version d);
             _ ← EightByteAlign;
             '(_, send) ← ReadUInt64 (dw_sendWaterMark d);
             '(_, recv) ← ReadUInt64 (dw_recvWaterMark d);
             mret (mkDeleteWaterMark version send recv))
      (newParcel (Some inValue) (u32 (zlen inValue)));
  if isError_ p then Some (- E_PARSE_FAIL, d) else Some (E_OK, d).

End Serialize.

(** * QuerySyncWaterMarkHelper *)

(** [storage_] says whether the pointer is set. *)
Record QuerySyncWaterMarkHelper := mkHelper {
  querySyncCache_ : LruMap;
  deviceIdToHashQuerySyncIdMap_ : gmap DeviceID (gmap (list byte) (list byte));
  deleteSyncCache_ : gmap (list byte) DeleteWaterMark;
  deviceIdToHashDeleteSyncIdMap_ : gmap DeviceID (list byte);
  storage_ : bool
}.

Definition newHelper : QuerySyncWaterMarkHelper := mkHelper emptyLruMap ∅ ∅ ∅ false.

Section Helper.
Context `{Host} `{DeviceHash} {St : Type} `{SyncStorage St}.
Implicit Types (h : QuerySyncWaterMarkHelper) (st : St).

Definition helper_Initialize h : QuerySyncWaterMarkHelper :=
  mkHelper (querySyncCache_ h) (deviceIdToHashQuerySyncIdMap_ h) (deleteSyncCache_ h)
    (deviceIdToHashDeleteSyncIdMap_ h) true.

Definition set_lru h (l : LruMap) : QuerySyncWaterMarkHelper :=
  mkHelper l (deviceIdToHashQuerySyncIdMap_ h) (deleteSyncCache_ h) (deviceIdToHashDeleteSyncIdMap_ h)
    (storage_ h).

Definition set_delete_cache h (c : gmap (list byte) DeleteWaterMark) : QuerySyncWaterMarkHelper :=
  mkHelper (querySyncCache_ h) (deviceIdToHashQuerySyncIdMap_ h) c (deviceIdToHashDeleteSyncIdMap_ h)
    (storage_ h).

Definition helper_GetMetadataFromDb h st (key : Key) : Z * Value :=
  if storage_ h then GetMetaData st key else (- E_INVALID_DB, []).

Definition helper_SetMetadataToDb h st (key : Key) (inValue : Value) : Z * St :=
  if storage_ h then PutMetaData st key inValue else (- E_INVALID_DB, st).

Definition helper_DeleteMetaDataFromDB h st (keys : list Key) : Z * St :=
  if storage_ h then DeleteMetaData st keys else (- E_INVALID_DB, st).

Definition SaveQueryWaterMarkToDB h st (dbKeyString : DeviceID) (q : QueryWaterMark) : option (Z * St) :=
  '(errCode, dbValue) ← SerializeQueryWaterMark q;
  if negb (errCode =? E_OK) then Some (errCode, st)
  else Some (helper_SetMetadataToDb h st dbKeyString dbValue).

Definition GetQueryWaterMarkFromDB h st (dbKeyString : DeviceID) (q : QueryWaterMark)
    : option (Z * QueryWaterMark) :=
  let '(errCode, dbValue) := helper_GetMetadataFromDb h st dbKeyString in
  if negb (errCode =? E_OK) then Some (errCode, q) else DeSerializeQueryWaterMark dbValue q.

Definition set_used_time (q : QueryWaterMark) (t : Z) : QueryWaterMark :=
  mkQueryWaterMark (qw_version q) (qw_sendWaterMark q) (qw_recvWaterMark q) t (qw_sql q)
    (qw_lastQueryTime q).

(** [now]: the system time in microseconds, [None] when it is not available. *)
Definition PutQueryWaterMarkToDB h st (dbKeyString : DeviceID) (q : QueryWaterMark) (now : option Z)
    : option ((Z * QueryWaterMark) * St) :=
  match now with
  | None => Some ((- E_SYSTEM_API_FAIL, q), st)
  | Some t =>
    let q := mkQueryWaterMark QUERY_WATERMARK_VERSION_CURRENT (qw_sendWaterMark q) (qw_recvWaterMark q)
               t (qw_sql q) (qw_lastQueryTime q) in
    '(errCode, st) ← SaveQueryWaterMarkToDB h st dbKeyString q;
    Some ((errCode, q), st)
  end.

Definition GetQueryWaterMarkInCacheAndDb h st (cacheKey : list byte) (now : option Z)
    : option ((Z * QueryWaterMark) * (QuerySyncWaterMarkHelper * St)) :=
  match lru_Get (querySyncCache_ h) cacheKey with
  | (Some q, l) => Some ((E_OK, q), (set_lru h l, st))
  | (None, _) =>
    '(errCode, q) ← GetQueryWaterMarkFromDB h st cacheKey emptyQueryWaterMark;
    '((errCode, q), st) ←
      (if errCode =? - E_NOT_FOUND then PutQueryWaterMarkToDB h st cacheKey q now
       else Some ((errCode, q), st));
    if negb (errCode =? E_OK) then Some ((errCode, q), (h, st))
    else Some ((errCode, q), (set_lru h (lru_Put (querySyncCache_ h) cacheKey q), st))
  end.

(** The cache of hashed ids, [deviceIdToHashQuerySyncIdMap_]. *)
Definition GetHashQuerySyncDeviceId h (deviceId queryId : DeviceID)
    : list byte * QuerySyncWaterMarkHelper :=
  let of_device := default ∅ (deviceIdToHashQuerySyncIdMap_ h !! deviceId) in
  let '(hashQuerySyncId, of_device) :=
    match of_device !! queryId with
    | None => let hash := QUERY_SYNC_PREFIX_KEY ++ TransferHashString deviceId ++ queryId in
              (hash, <[queryId := hash]> of_device)
    | Some hash => (hash, of_device)
    end in
  (hashQuerySyncId,
   mkHelper (querySyncCache_ h) (<[deviceId := of_device]> (deviceIdToHashQuerySyncIdMap_ h))
     (deleteSyncCache_ h) (deviceIdToHashDeleteSyncIdMap_ h) (storage_ h)).

Definition GetQueryWaterMark h st (queryIdentify deviceId : list byte) (now : option Z)
    : option ((Z * QueryWaterMark) * (QuerySyncWaterMarkHelper * St)) :=
  let '(cacheKey, h) := GetHashQuerySyncDeviceId h deviceId queryIdentify in
  GetQueryWaterMarkInCacheAndDb h st cacheKey now.

Definition UpdateCacheAndSave h st (cacheKey : list byte) (q : QueryWaterMark) (now : option Z)
    : option (Z * (QuerySyncWaterMarkHelper * St)) :=
  match now with
  | None => Some (- E_SYSTEM_API_FAIL, (h, st))
  | Some t =>
    let q := set_used_time q t in
    '(errCode, st) ← SaveQueryWaterMarkToDB h st cacheKey q;
    if negb (errCode =? E_OK) then Some (errCode, (h, st))
    else Some (errCode, (set_lru h (lru_Put (querySyncCache_ h) cacheKey q), st))
  end.

(** A field of the stored mark is replaced: the common part of the three setters. The
    system time is read twice. *)
Definition update_mark h st (cacheKey : list byte) (change : QueryWaterMark -> QueryWaterMark)
    (now now' : option Z) : option (Z * (QuerySyncWaterMarkHelper * St)) :=
  '((errCode, q), (h, st)) ← GetQueryWaterMarkInCacheAndDb h st cacheKey now;
  if negb (errCode =? E_OK) then Some (errCode, (h, st))
  else UpdateCacheAndSave h st cacheKey (change q) now'.

Definition set_recv (waterMark : Z) (q : QueryWaterMark) : QueryWaterMark :=
  mkQueryWaterMark (qw_version q) (qw_sendWaterMark q) waterMark (qw_lastUsedTime q) (qw_sql q)
    (qw_lastQueryTime q).

Definition set_send (waterMark : Z) (q : QueryWaterMark) : QueryWaterMark :=
  mkQueryWaterMark (qw_version q) waterMark (qw_recvWaterMark q) (qw_lastUsedTime q) (qw_sql q)
    (qw_lastQueryTime q).

Definition set_query_time (timestamp : Z) (q : QueryWaterMark) : QueryWaterMark :=
  mkQueryWaterMark (qw_version q) (qw_sendWaterMark q) (qw_recvWaterMark q) (qw_lastUsedTime q)
    (qw_sql q) timestamp.

Definition SetRecvQueryWaterMark h st (queryIdentify deviceId : list byte) (waterMark : Z)
    (now now' : option Z) : option (Z * (QuerySyncWaterMarkHelper * St)) :=
  let '(cacheKey, h) := GetHashQuerySyncDeviceId h deviceId queryIdentify in
  update_mark h st cacheKey (set_recv waterMark) now now'.

Definition SetSendQueryWaterMark h st (queryIdentify deviceId : list byte) (waterMark : Z)
    (now now' : option Z) : option (Z * (QuerySyncWaterMarkHelper * St)) :=
  let '(cacheKey, h) := GetHashQuerySyncDeviceId h deviceId queryIdentify in
  update_mark h st cacheKey (set_send waterMark) now now'.

Definition SetLastQueryTime h st (queryIdentify deviceId : list byte) (timestamp : Z)
    (now now' : option Z) : option (Z * (QuerySyncWaterMarkHelper * St)) :=
  let '(cacheKey, h) := GetHashQuerySyncDeviceId h deviceId queryIdentify in
  update_mark h st cacheKey (set_query_time timestamp) now now'.

(** ** Delete synchronization *)

Definition GetHashDeleteSyncDeviceId h (deviceId : DeviceID) : list byte * QuerySyncWaterMarkHelper :=
  match deviceIdToHashDeleteSyncIdMap_ h !! deviceId with
  | None =>
    let hash := DELETE_SYNC_PREFIX_KEY ++ TransferHashString deviceId in
    (hash, mkHelper (querySyncCache_ h) (deviceIdToHashQuerySyncIdMap_ h) (deleteSyncCache_ h)
             (<[deviceId := hash]> (deviceIdToHashDeleteSyncIdMap_ h)) (storage_ h))
  | Some hash => (hash, h)
  end.

Definition GetDeleteWaterMarkFromDB h st (hashDeviceId : DeviceID) (d : DeleteWaterMark)
    : option (Z * DeleteWaterMark) :=
  let '(errCode, dbValue) := helper_GetMetadataFromDb h st hashDeviceId in
  if negb (errCode =? E_OK) then Some (errCode, d) else DeSerializeDeleteWaterMark dbValue d.

Definition SaveDeleteWaterMarkToDB h st (hashDeviceId : DeviceID) (d : DeleteWaterMark)
    : option (Z * St) :=
  '(errCode, dbValue) ← SerializeDeleteWaterMark d;
  if negb (errCode =? E_OK) then Some (errCode, st)
  else Some (helper_SetMetadataToDb h st hashDeviceId dbValue).

Definition GetDeleteWaterMarkFromCache h st (hashDeviceId : DeviceID) (d : DeleteWaterMark)
    : option ((Z * DeleteWaterMark) * QuerySyncWaterMarkHelper) :=
  match deleteSyncCache_ h !! hashDeviceId with
  | Some found => Some ((E_OK, found), h)
  | None =>
    '(errCode, waterMark) ← GetDeleteWaterMarkFromDB h st hashDeviceId
                              (mkDeleteWaterMark DELETE_WATERMARK_VERSION_CURRENT 0 0);
    let '(errCode, d) := if errCode =? - E_NOT_FOUND
                         then (E_OK, mkDeleteWaterMark (dw_version d) 0 0) else (errCode, d) in
    if negb (errCode =? E_OK) then Some ((errCode, d), h)
    else Some ((E_OK, waterMark),
               set_delete_cache h (<[hashDeviceId := waterMark]> (deleteSyncCache_ h)))
  end.

Definition GetDeleteSyncWaterMark h st (deviceId : DeviceID) (d : DeleteWaterMark)
    : option ((Z * DeleteWaterMark) * QuerySyncWaterMarkHelper) :=
  let '(hashId, h) := GetHashDeleteSyncDeviceId h deviceId in
  GetDeleteWaterMarkFromCache h st hashId d.

Definition UpdateDeleteSyncCacheAndSave h st (dbKey : list byte) (d : DeleteWaterMark)
    : option (Z * (QuerySyncWaterMarkHelper * St)) :=
  '(errCode, st) ← SaveDeleteWaterMarkToDB h st dbKey d;
  if negb (errCode =? E_OK) then Some (errCode, (h, st))
  else Some (errCode, (set_delete_cache h (<[dbKey := d]> (deleteSyncCache_ h)), st)).

(** The status of the read is ignored. *)
Definition SetSendDeleteSyncWaterMark h st (deviceId : DeviceID) (waterMark : Z)
    : option (Z * (QuerySyncWaterMarkHelper * St)) :=
  let '(hashId, h) := GetHashDeleteSyncDeviceId h deviceId in
  '((_, d), h) ← GetDeleteWaterMarkFromCache h st hashId emptyDeleteWaterMark;
  UpdateDeleteSyncCacheAndSave h st hashId
    (mkDeleteWaterMark (dw_version d) waterMark (dw_recvWaterMark d)).

Definition SetRecvDeleteSyncWaterMark h st (deviceId : DeviceID) (waterMark : Z)
    : option (Z * (QuerySyncWaterMarkHelper * St)) :=
  let '(hashId, h) := GetHashDeleteSyncDeviceId h deviceId in
  '((_, d), h) ← GetDeleteWaterMarkFromCache h st hashId emptyDeleteWaterMark;
  UpdateDeleteSyncCacheAndSave h st hashId
    (mkDeleteWaterMark (dw_version d) (dw_sendWaterMark d) waterMark).

Definition LoadDeleteSyncDataToCache h st (deleteWaterMarkKey : Key)
    : option (Z * QuerySyncWaterMarkHelper) :=
  let '(errCode, value) := helper_GetMetadataFromDb h st deleteWaterMarkKey in
  if negb (errCode =? E_OK) then Some (errCode, h)
  else
    '(errCode, d) ← DeSerializeDeleteWaterMark value emptyDeleteWaterMark;
    if negb (errCode =? E_OK) then Some (errCode, h)
    else Some (errCode, set_delete_cache h (<[deleteWaterMarkKey := d]> (deleteSyncCache_ h))).

(** ** Removal *)

(** The loop over the stored query marks: the readable ones with their last use, and the
    keys of those that are not readable. *)
Fixpoint scan_marks h st (querySyncIds : list Key)
    : option (list (Key * Z) * list Key) :=
  match querySyncIds with
  | [] => Some ([], [])
  | id :: ids =>
    '(allItems, waitToRemove) ← scan_marks h st ids;
    let '(errCode, value) := helper_GetMetadataFromDb h st id in
    if negb (errCode =? E_OK) then Some (allItems, id :: waitToRemove)
    else
      '(errCode, q) ← DeSerializeQueryWaterMark value emptyQueryWaterMark;
      if negb (errCode =? E_OK) then Some (allItems, id :: waitToRemove)
      else Some ((id, qw_lastUsedTime q) :: allItems, waitToRemove)
  end.

(** [std::nth_element] leaves the [n] least recently used items in front, in some order;
    sorting does so, too. *)
Definition used_before (x y : Key * Z) : Prop := x.2 <= y.2.

#[local] Instance used_before_dec : RelDecision used_before.
Proof. intros x y. apply Z.le_dec. Defined.

Definition RemoveLeastUsedQuerySyncItems h st (querySyncIds : list Key) : option (Z * St) :=
  if zlen querySyncIds <? MAX_STORE_ITEMS then Some (E_OK, st)
  else
    '(allItems, waitToRemove) ← scan_marks h st querySyncIds;
    if zlen allItems <? MAX_STORE_ITEMS + zlen waitToRemove
    then Some (helper_DeleteMetaDataFromDB h st waitToRemove)
    else
      let removeCount := u32 (zlen allItems - MAX_STORE_ITEMS - zlen waitToRemove) in
      let least := take (Z.to_nat removeCount) (merge_sort used_before allItems) in
      Some (helper_DeleteMetaDataFromDB h st (waitToRemove ++ (fst <$> least))).

Definition hex_digit (v : Z) : byte := if v <? 10 then z2b (48 + v) else z2b (87 + v).

Definition TransferStringToHex (origStr : list byte) : list byte :=
  flat_map (fun b => [hex_digit (b2z b / 16); hex_digit (b2z b mod 16)]) origStr.

(** [None]: the storage pointer is dereferenced although it is not set. *)
Definition ResetRecvQueryWaterMark h st (deviceId : DeviceID) (tableName : list byte)
    : option (Z * (QuerySyncWaterMarkHelper * St)) :=
  let prefixKeyStr := QUERY_SYNC_PREFIX_KEY ++ TransferHashString deviceId ++
    (match tableName with [] => [] | _ => TransferStringToHex (TransferHashString tableName) end) in
  if storage_ h then
    let '(errCode, st) := DeleteMetaDataByPrefixKey st prefixKeyStr in
    if negb (errCode =? E_OK) then Some (errCode, (h, st))
    else Some (E_OK, (set_lru h (RemoveWithPrefixKey (querySyncCache_ h) prefixKeyStr), st))
  else None.

End Helper.
