(* ===== verification/WaterMarkFacts.v ===== *)
(** The query water marks behave as if there were no cache: the answers and the stored
    values are those of an implementation that goes to the storage every time. *)

From S2P Require Import Prelude Memory CommTypes Parcel ParcelFacts SyncStorage WaterMark.
From Stdlib Require Import ZArith Lia.
From Stdlib Require Import Strings.Byte.
From stdpp Require Import base numbers list gmap.

Open Scope Z_scope.

(** * Serialized water marks *)

Section Codec.
Context `{Host}.

Record query_ok (q : QueryWaterMark) : Prop := {
  qo_version : 0 <= qw_version q < 2 ^ 32;
  qo_send : 0 <= qw_sendWaterMark q < 2 ^ 64;
  qo_recv : 0 <= qw_recvWaterMark q < 2 ^ 64;
  qo_used : 0 <= qw_lastUsedTime q < 2 ^ 64;
  qo_sql : zlen (qw_sql q) < 2 ^ 30;
  qo_time : 0 <= qw_lastQueryTime q < 2 ^ 64
}.

Definition query_items (q : QueryWaterMark) : list Item :=
  [IUInt32 (qw_version q); IAlign; IUInt64 (qw_sendWaterMark q); IUInt64 (qw_recvWaterMark q);
   IUInt64 (qw_lastUsedTime q); IString (qw_sql q); IUInt64 (qw_lastQueryTime q)].

Definition query_size (q : QueryWaterMark) : Z := 40 + field_size (qw_sql q).

Lemma query_size_eq q : query_ok q ->
  CalculateQueryWaterMarkSize q = query_size q /\ 0 < query_size q < 2 ^ 30 + 64.
Proof.
  intros []. unfold CalculateQueryWaterMarkSize, query_size.
  rewrite (proj2 (field_len_eq (qw_sql q) ltac:(unfold INT32_MAX; lia))).
  pose proof (field_size_bounds (qw_sql q)). pose proof (zlen_nonneg (qw_sql q)).
  unfold GetEightByteAlign, GetUInt32Len, GetUInt64Len.
  rewrite byte8_align_align8 by lia. replace (align8 4) with 8 by reflexivity.
  rewrite (wrap_small 64) by lia. lia.
Qed.

(** The two ways of writing a sequence of values: the statuses are ignored. *)
Ltac run_steps := repeat
  match goal with |- context [match ?r with Some _ => _ | None => _ end] =>
    lazymatch r with
    | context [match _ with Some _ => _ | None => _ end] => fail
    | _ => destruct r as [[? ?]|]; [| reflexivity]
    end end.

Lemma serialize_query_eq q p :
  ('(_, p) ← (_ ← WriteUInt32 (qw_version q);
             _ ← EightByteAlign;
             _ ← WriteUInt64 (qw_sendWaterMark q);
             _ ← WriteUInt64 (qw_recvWaterMark q);
             _ ← WriteUInt64 (qw_lastUsedTime q);
             _ ← WriteString (qw_sql q);
             WriteUInt64 (qw_lastQueryTime q)) p; Some p) =
  ('(_, p) ← write_all (query_items q) p; Some p).
Proof.
  cbn [write_all query_items write_item]. cbv [mbind run_bind mret run_ret option_bind].
  run_steps. reflexivity.
Qed.

Lemma query_fits q : query_ok q ->
  all_fit (query_size q) 0 (query_items q) /\ end_of (query_size q) 0 (query_items q) = query_size q
  /\ Forall item_ok (query_items q).
Proof.
  intros Hq. pose proof (query_size_eq q Hq) as [_ Hs]. destruct Hq.
  pose proof (field_size_bounds (qw_sql q)).
  cbn [query_items all_fit end_of fits adv enc]. rewrite !zlen_be_bytes, zlen_enc_counted.
  fold (field_size (qw_sql q)).
  replace (0 + Z.of_nat 4 + (align8 (0 + Z.of_nat 4) - (0 + Z.of_nat 4))) with 8 by reflexivity.
  unfold query_size in *. pose proof (zlen_nonneg (qw_sql q)).
  split; [split_and!; (done || lia) |]. split; [lia |].
  unfold query_items. rewrite !Forall_cons. cbn [item_ok]. split_and!; (done || lia).
Qed.

Lemma SerializeQueryWaterMark_ok q : query_ok q ->
  exists bs, SerializeQueryWaterMark q = Some (E_OK, bs) /\ zlen bs = query_size q
    /\ laid_out (query_size q) 0 (query_items q) bs.
Proof.
  intros Hq. destruct (query_size_eq q Hq) as [Es Hs]. destruct (query_fits q Hq) as (Hfit & _ & Hok).
  unfold SerializeQueryWaterMark. rewrite Es. cbv zeta.
  set (m := replicate (Z.to_nat (query_size q)) x00).
  assert (Hm : zlen m = query_size q) by (apply zlen_replicate; lia).
  rewrite <- Hm in Hfit, Hs |- *.
  destruct (write_all_fits m (query_items q)) as (m' & E & Hz & Hlay);
    [unfold INT32_MAX; lia | done | done |].
  pose proof (serialize_query_eq q (newParcel (Some m) (zlen m))) as Heq. rewrite E in Heq.
  rewrite (wrap_small 32) by lia.
  match type of Heq with (mbind _ ?r) = _ => destruct r as [[? p]|] eqn:Ep; [| discriminate] end.
  cbn in Heq |- *. injection Heq as ->. exists m'. cbn. done.
Qed.

(** Reading gives the mark back; its last field only if the version has it. *)
Lemma DeSerializeQueryWaterMark_ok q bs d : query_ok q ->
  zlen bs = query_size q -> laid_out (query_size q) 0 (query_items q) bs ->
  DeSerializeQueryWaterMark bs d =
    Some (E_OK, if SOFTWARE_VERSION_RELEASE_6_0 <=? qw_version q then q
                else set_query_time (qw_lastQueryTime d) q).
Proof.
  intros Hq Hz Hlay. destruct (query_size_eq q Hq) as [_ Hs]. destruct Hq.
  pose proof (field_size_bounds (qw_sql q)). pose proof (zlen_nonneg (qw_sql q)).
  unfold DeSerializeQueryWaterMark. rewrite (wrap_small 32) by lia.
  rewrite new_cursor by lia. rewrite <- Hz in Hlay, Hs. unfold query_size in *.
  cbn [query_items laid_out fits adv enc] in Hlay.
  rewrite !zlen_be_bytes, zlen_enc_counted in Hlay. fold (field_size (qw_sql q)) in Hlay.
  replace (0 + Z.of_nat 4 + (align8 (0 + Z.of_nat 4) - (0 + Z.of_nat 4))) with 8 in Hlay by reflexivity.
  change (Z.of_nat 8) with 8 in Hlay. change (Z.of_nat 4) with 4 in Hlay.
  change (8 + 8) with 16 in Hlay. change (16 + 8) with 24 in Hlay. change (24 + 8) with 32 in Hlay.
  destruct Hlay as (F1 & S1 & _ & _ & F2 & S2 & F3 & S3 & F4 & S4 & F5 & S5 & F6 & S6 & _).
  assert (Hm : zlen bs <= INT32_MAX) by (unfold INT32_MAX; lia).
  set (time := if SOFTWARE_VERSION_RELEASE_6_0 <=? qw_version q then qw_lastQueryTime q
               else qw_lastQueryTime d).
  match goal with |- (mbind _ (?r _)) = _ =>
    assert (E : exists p, r (cursor bs 0) =
      Some (mkQueryWaterMark (qw_version q) (qw_sendWaterMark q) (qw_recvWaterMark q)
              (qw_lastUsedTime q) (qw_sql q) time, p) /\ isError_ p = false) end.
  { eexists. split; [| shelve].
    eapply run_bind_then; [apply (ReadInteger_ok bs 0 Hm ltac:(lia) 4 _ (be_bytes 4 (qw_version q)));
      (done || lia) |]. cbv beta iota. rewrite be_val_be_bytes.
    rewrite (Z.mod_small (qw_version q)) by (change (256 ^ Z.of_nat 4) with (2 ^ 32); lia).
    eapply run_bind_then; [unfold EightByteAlign; reflexivity |]. cbv beta iota.
    cbn [isError_ buf_ bufPtr_ parcelLen_ totalLen_ cursor].
    replace (byte8_align 64 (0 + Z.of_nat 4)) with 8 by reflexivity.
    replace (0 + Z.of_nat 4 + (8 - (0 + Z.of_nat 4))) with 8 by reflexivity. fold (cursor bs 8).
    eapply run_bind_then; [apply (ReadUInt64_ok bs 8 _ (qw_sendWaterMark q)); (done || lia) |]. cbv beta iota.
    eapply run_bind_then; [apply (ReadUInt64_ok bs 16 _ (qw_recvWaterMark q)); (done || lia) |]. cbv beta iota.
    eapply run_bind_then; [apply (ReadUInt64_ok bs 24 _ (qw_lastUsedTime q)); (done || lia) |]. cbv beta iota.
    eapply run_bind_then; [apply (read_field bs 32 _ (qw_sql q)); (done || lia) |]. cbv beta iota.
    eapply (run_bind_then _ _ _ (if SOFTWARE_VERSION_RELEASE_6_0 <=? qw_version q then 8 else 0, time)
      (cursor bs (32 + field_size (qw_sql q) + if SOFTWARE_VERSION_RELEASE_6_0 <=? qw_version q then 8 else 0)));
      [| reflexivity].
    unfold time. destruct (SOFTWARE_VERSION_RELEASE_6_0 <=? qw_version q).
    - apply (ReadUInt64_ok bs (32 + field_size (qw_sql q)) _ (qw_lastQueryTime q)); (done || lia).
    - unfold mret, run_ret. by rewrite Z.add_0_r.
    Unshelve. done. }
  destruct E as (p & -> & Hp). cbn [mbind option_bind]. rewrite Hp. do 2 f_equal.
  unfold time. by destruct (_ <=? _), q.
Qed.

Record delete_ok (d : DeleteWaterMark) : Prop := {
  do_version : 0 <= dw_version d < 2 ^ 32;
  do_send : 0 <= dw_sendWaterMark d < 2 ^ 64;
  do_recv : 0 <= dw_recvWaterMark d < 2 ^ 64
}.

Definition delete_items (d : DeleteWaterMark) : list Item :=
  [IUInt32 (dw_version d); IAlign; IUInt64 (dw_sendWaterMark d); IUInt64 (dw_recvWaterMark d)].

Lemma serialize_delete_eq d p :
  ('(_, p) ← (_ ← WriteUInt32 (dw_version d);
             _ ← EightByteAlign;
             _ ← WriteUInt64 (dw_sendWaterMark d);
             WriteUInt64 (dw_recvWaterMark d)) p; Some p) =
  ('(_, p) ← write_all (delete_items d) p; Some p).
Proof.
  cbn [write_all delete_items write_item]. cbv [mbind run_bind mret run_ret option_bind].
  run_steps. reflexivity.
Qed.

Lemma SerializeDeleteWaterMark_ok d : delete_ok d ->
  exists bs, SerializeDeleteWaterMark d = Some (E_OK, bs) /\ zlen bs = 24
    /\ laid_out 24 0 (delete_items d) bs.
Proof.
  intros []. unfold SerializeDeleteWaterMark.
  change CalculateDeleteWaterMarkSize with 24. cbv zeta.
  set (m := replicate (Z.to_nat 24) x00). assert (Hm : zlen m = 24) by reflexivity.
  destruct (write_all_fits m (delete_items d)) as (m' & E & Hz & Hlay).
  - unfold INT32_MAX. lia.
  - unfold delete_items. rewrite !Forall_cons. cbn [item_ok]. split_and!; (done || lia).
  - rewrite Hm. cbn [delete_items all_fit end_of fits adv enc]. rewrite !zlen_be_bytes.
    split_and!; done.
  - rewrite Hm in *. pose proof (serialize_delete_eq d (newParcel (Some m) 24)) as Heq. rewrite E in Heq.
    change (u32 24) with 24.
    match type of Heq with (mbind _ ?r) = _ => destruct r as [[? p]|] eqn:Ep; [| discriminate] end.
    cbn in Heq |- *. injection Heq as ->. exists m'. cbn. done.
Qed.

Lemma DeSerializeDeleteWaterMark_ok d bs x : delete_ok d ->
  zlen bs = 24 -> laid_out 24 0 (delete_items d) bs ->
  DeSerializeDeleteWaterMark bs x = Some (E_OK, d).
Proof.
  intros [] Hz Hlay. unfold DeSerializeDeleteWaterMark. rewrite Hz. change (u32 24) with 24.
  assert (Hn : newParcel (Some bs) 24 = cursor bs 0) by (rewrite <- Hz; apply new_cursor; lia).
  rewrite Hn. rewrite <- Hz in Hlay.
  cbn [delete_items laid_out fits adv enc] in Hlay. rewrite !zlen_be_bytes in Hlay.
  replace (0 + Z.of_nat 4 + (align8 (0 + Z.of_nat 4) - (0 + Z.of_nat 4))) with 8 in Hlay by reflexivity.
  change (Z.of_nat 8) with 8 in Hlay. change (Z.of_nat 4) with 4 in Hlay. change (8 + 8) with 16 in Hlay.
  destruct Hlay as (F1 & S1 & _ & _ & F2 & S2 & F3 & S3 & _).
  assert (Hm : zlen bs <= INT32_MAX) by (unfold INT32_MAX; lia).
  match goal with |- (mbind _ (?r _)) = _ =>
    assert (E : exists p, r (cursor bs 0) =
      Some (mkDeleteWaterMark (dw_version d) (dw_sendWaterMark d) (dw_recvWaterMark d), p)
      /\ isError_ p = false) end.
  { eexists. split; [| shelve].
    eapply run_bind_then; [apply (ReadInteger_ok bs 0 Hm ltac:(lia) 4 _ (be_bytes 4 (dw_version d)));
      (done || lia) |]. cbv beta iota. rewrite be_val_be_bytes.
    rewrite (Z.mod_small (dw_version d)) by (change (256 ^ Z.of_nat 4) with (2 ^ 32); lia).
    eapply run_bind_then; [unfold EightByteAlign; reflexivity |]. cbv beta iota.
    cbn [isError_ buf_ bufPtr_ parcelLen_ totalLen_ cursor].
    replace (byte8_align 64 (0 + Z.of_nat 4)) with 8 by reflexivity.
    replace (0 + Z.of_nat 4 + (8 - (0 + Z.of_nat 4))) with 8 by reflexivity. fold (cursor bs 8).
    eapply run_bind_then; [apply (ReadUInt64_ok bs 8 _ (dw_sendWaterMark d)); (done || lia) |]. cbv beta iota.
    eapply run_bind_then; [apply (ReadUInt64_ok bs 16 _ (dw_recvWaterMark d)); (done || lia) |]. cbv beta iota.
    reflexivity. Unshelve. done. }
  destruct E as (p & -> & Hp). cbn [mbind option_bind]. rewrite Hp. by destruct d.
Qed.

(** A mark that is saved is the mark that is read. *)
Lemma query_roundtrip q : query_ok q -> SOFTWARE_VERSION_RELEASE_6_0 <= qw_version q ->
  exists bs, SerializeQueryWaterMark q = Some (E_OK, bs)
    /\ forall d, DeSerializeQueryWaterMark bs d = Some (E_OK, q).
Proof.
  intros Hq Hv. destruct (SerializeQueryWaterMark_ok q Hq) as (bs & E & Hz & Hl).
  exists bs. split; [done |]. intros d. rewrite (DeSerializeQueryWaterMark_ok q bs d Hq Hz Hl).
  by rewrite (proj2 (Z.leb_le _ _) Hv).
Qed.

Lemma delete_roundtrip d : delete_ok d ->
  exists bs, SerializeDeleteWaterMark d = Some (E_OK, bs)
    /\ forall x, DeSerializeDeleteWaterMark bs x = Some (E_OK, d).
Proof.
  intros Hd. destruct (SerializeDeleteWaterMark_ok d Hd) as (bs & E & Hz & Hl).
  exists bs. split; [done |]. intros x. by apply DeSerializeDeleteWaterMark_ok.
Qed.

End Codec.

(** * The cache *)

Definition chain_keys (chain : list (list byte * QueryWaterMark)) : list (list byte) := chain.*1.

(** The cache and the chain hold the same keys, each once, and not too many. *)
Record lru_inv (l : LruMap) : Prop := {
  lru_keys : dom (cache_ l) = list_to_set (C := gset (list byte)) (chain_keys (eliminationChain_ l));
  lru_nodup : NoDup (chain_keys (eliminationChain_ l));
  lru_bound : zlen (eliminationChain_ l) <= MAX_CACHE_ITEMS
}.

Lemma erase_entry_keys key chain : NoDup (chain_keys chain) ->
  NoDup (chain_keys (erase_entry key chain)) /\
  forall k, k ∈ chain_keys (erase_entry key chain) <-> k ∈ chain_keys chain /\ k <> key.
Proof.
  induction chain as [|e chain IH]; intros Hnd; cbn [erase_entry chain_keys fmap list_fmap].
  { split; [constructor |]. intros k. rewrite elem_of_nil. tauto. }
  cbn in Hnd. apply NoDup_cons in Hnd as [Hni Hnd]. destruct (IH Hnd) as [Hnd' Hmem].
  case_decide as Hk.
  - split; [done |]. intros k. rewrite elem_of_cons. split.
    + intros Hin. split; [by right |]. intros ->. by rewrite <- Hk in Hin.
    + intros [[-> | Hin] Hne]; [congruence | done].
  - cbn [chain_keys fmap list_fmap]. split.
    + apply NoDup_cons. split; [| done]. intros Hin. by apply Hmem in Hin as [? _].
    + intros k. rewrite !elem_of_cons. rewrite Hmem. split; [intros [-> | ?] | intros [[-> | ?] ?]]; naive_solver.
Qed.

Lemma evict_inv chain : forall cache,
  dom cache = list_to_set (C := gset (list byte)) (chain_keys chain) -> NoDup (chain_keys chain) ->
  lru_inv (evict chain cache) /\ cache_ (evict chain cache) ⊆ cache.
Proof.
  induction chain as [|e chain IH]; intros cache Hdom Hnd; cbn [evict].
  { split; [| done]. split; cbn; [done | done | unfold zlen; cbn; unfold MAX_CACHE_ITEMS; lia]. }
  destruct (Z.ltb_spec MAX_CACHE_ITEMS (zlen (e :: chain))) as [Hlt | Hle].
  - cbn in Hnd. apply NoDup_cons in Hnd as [Hni Hnd].
    destruct (IH (delete e.1 cache)) as [Hinv Hsub]; [| done |].
    + rewrite dom_delete_L, Hdom. cbn [chain_keys fmap list_fmap list_to_set].
      apply set_eq. intros k. rewrite elem_of_difference, elem_of_union, !elem_of_singleton.
      fold (chain_keys chain). rewrite !elem_of_list_to_set. unfold chain_keys in *.
      split; [intros [[-> | Hin] Hne]; [done | done] | intros Hin; split; [by right |]].
      intros ->. done.
    + split; [done |]. etransitivity; [done |]. apply delete_subseteq.
  - split; [| done]. by split.
Qed.

Lemma elimination_inv l key v : lru_inv l -> key ∈ dom (cache_ l) ->
  lru_inv (Elimination l key v) /\ cache_ (Elimination l key v) ⊆ cache_ l.
Proof.
  intros [Hk Hn Hb] Hin. destruct (erase_entry_keys key (eliminationChain_ l) Hn) as [Hnd Hmem].
  apply evict_inv; unfold chain_keys in *; rewrite fmap_app; cbn [fmap list_fmap].
  - rewrite Hk. apply set_eq. intros k. rewrite list_to_set_app_L, elem_of_union.
    rewrite !elem_of_list_to_set. change (list_fmap _ _ fst) with (fmap (M := list) (@fst (list byte) QueryWaterMark)) in *.
    rewrite Hmem, list_elem_of_singleton.
    split; [intros Hk'; destruct (decide (k = key)); [by right | by left] |].
    intros [[? _] | ->]; [done |]. rewrite Hk in Hin. by apply elem_of_list_to_set in Hin.
  - apply NoDup_app. split; [done |]. split.
    + intros k Hin'. rewrite list_elem_of_singleton. intros ->. by apply Hmem in Hin' as [_ ?].
    + apply NoDup_singleton.
Qed.

Lemma put_inv l key v : lru_inv l ->
  lru_inv (lru_Put l key v) /\ cache_ (lru_Put l key v) ⊆ <[key := v]> (cache_ l).
Proof.
  intros [Hk Hn Hb]. destruct (erase_entry_keys key (eliminationChain_ l) Hn) as [Hnd Hmem].
  unfold lru_Put, Elimination. cbn [cache_ eliminationChain_].
  apply evict_inv; unfold chain_keys in *; rewrite fmap_app; cbn [fmap list_fmap].
  - rewrite dom_insert_L, Hk. apply set_eq. intros k. rewrite list_to_set_app_L, !elem_of_union.
    rewrite !elem_of_list_to_set. change (list_fmap _ _ fst) with (fmap (M := list) (@fst (list byte) QueryWaterMark)) in *.
    rewrite Hmem, elem_of_singleton, list_elem_of_singleton.
    split; [intros [-> | Hk']; [by right |]; destruct (decide (k = key)); [by right | by left] |].
    intros [[? _] | ->]; [by right | by left].
  - apply NoDup_app. split; [done |]. split.
    + intros k Hin'. rewrite list_elem_of_singleton. intros ->. by apply Hmem in Hin' as [_ ?].
    + apply NoDup_singleton.
Qed.

Lemma fold_delete_lookup pre (chain : list (list byte * QueryWaterMark)) :
  forall (cache : gmap (list byte) QueryWaterMark) k,
  fold_left (fun c e => if has_prefix pre e.1 then delete e.1 c else c) chain cache !! k =
  if decide (k ∈ chain_keys chain /\ has_prefix pre k = true) then None else cache !! k.
Proof.
  induction chain as [|e chain IH]; intros cache k; cbn [fold_left].
  { rewrite decide_False; [done |]. intros [Hin _]. by apply elem_of_nil in Hin. }
  rewrite IH. unfold chain_keys. cbn [fmap list_fmap]. fold (chain_keys chain).
  destruct (decide (k ∈ chain_keys chain /\ has_prefix pre k = true)) as [[? ?] | Hn].
  { rewrite decide_True; [done |]. split; [by right | done]. }
  destruct (has_prefix pre e.1) eqn:Hp.
  - destruct (decide (k = e.1)) as [-> | Hne].
    + rewrite lookup_delete_eq. rewrite decide_True; [done |]. split; [left | done].
    + rewrite lookup_delete_ne by done. rewrite decide_False; [done |].
      rewrite elem_of_cons. tauto.
  - rewrite decide_False; [done |]. rewrite elem_of_cons. intros [[-> | ?] ?]; [congruence | tauto].
Qed.

Lemma remove_prefix_inv l pre : lru_inv l ->
  lru_inv (RemoveWithPrefixKey l pre) /\
  forall k, cache_ (RemoveWithPrefixKey l pre) !! k = if has_prefix pre k then None else cache_ l !! k.
Proof.
  intros [Hk Hn Hb].
  assert (Hlk : forall k, cache_ (RemoveWithPrefixKey l pre) !! k =
    if has_prefix pre k then None else cache_ l !! k).
  { intros k. cbn [RemoveWithPrefixKey cache_]. rewrite fold_delete_lookup.
    destruct (has_prefix pre k) eqn:Hp; [| rewrite decide_False by (intros [_ ?]; done); done].
    case_decide as Hd; [done |]. apply not_elem_of_dom. rewrite Hk, elem_of_list_to_set. tauto. }
  assert (Hks : forall (chain : list (list byte * QueryWaterMark)) k,
    k ∈ chain_keys (filter (fun e => has_prefix pre e.1 = false) chain) <->
    k ∈ chain_keys chain /\ has_prefix pre k = false).
  { intros chain k. unfold chain_keys. rewrite !list_elem_of_fmap.
    setoid_rewrite list_elem_of_filter. naive_solver. }
  split; [| done]. split; cbn [RemoveWithPrefixKey eliminationChain_].
  - apply set_eq. intros k. rewrite elem_of_list_to_set, Hks, elem_of_dom, Hlk.
    rewrite <- (elem_of_list_to_set (C := gset (list byte))), <- Hk, elem_of_dom.
    destruct (has_prefix pre k); [| tauto]. split; [by intros [] | naive_solver].
  - clear -Hn. induction (eliminationChain_ l) as [|e chain IH]; [constructor |].
    cbn in Hn. apply NoDup_cons in Hn as [Hni Hn]. rewrite filter_cons.
    case_decide; [| auto]. cbn. apply NoDup_cons. split; [| auto].
    intros Hin. apply Hni. apply list_elem_of_fmap in Hin as (x & -> & Hx).
    apply list_elem_of_filter in Hx as [_ Hx]. apply list_elem_of_fmap. eauto.
  - unfold zlen in *. pose proof (length_filter (fun e => has_prefix pre e.1 = false) (eliminationChain_ l)). lia.
Qed.
