(* ===== verification/WaterMarkCache.v ===== *)
(** The water marks behave as if there were no caches: the answers and the storage are
    those of an implementation that goes to the storage for every call. *)

From S2P Require Import Prelude Memory CommTypes Parcel SyncStorage WaterMark WaterMarkFacts.
From Stdlib Require Import ZArith Lia.
From Stdlib Require Import Strings.Byte.
From stdpp Require Import base numbers list gmap.

Open Scope Z_scope.

(** The calls of the helper; the times are what the system clock answers. *)
Inductive MarkOp :=
  | OpGetQuery (queryId deviceId : list byte) (now : option Z)
  | OpSetSend (queryId deviceId : list byte) (waterMark : Z) (now now' : option Z)
  | OpSetRecv (queryId deviceId : list byte) (waterMark : Z) (now now' : option Z)
  | OpSetQueryTime (queryId deviceId : list byte) (timestamp : Z) (now now' : option Z)
  | OpResetRecv (deviceId tableName : list byte)
  | OpGetDelete (deviceId : list byte)
  | OpSetSendDelete (deviceId : list byte) (waterMark : Z)
  | OpSetRecvDelete (deviceId : list byte) (waterMark : Z).

(** What a call answers: its status and, for the getters, the mark. *)
Inductive Answer :=
  | AStatus (errCode : Z)
  | AQuery (errCode : Z) (q : QueryWaterMark)
  | ADelete (errCode : Z) (d : DeleteWaterMark).

Section Cache.
Context `{Host} `{DeviceHash} {St : Type} `{StorageLaws St}.
Implicit Types (h : QuerySyncWaterMarkHelper) (st : St).

Definition mark_step h st (op : MarkOp) : option (Answer * (QuerySyncWaterMarkHelper * St)) :=
  match op with
  | OpGetQuery q d now =>
      '((e, mark), s) ← GetQueryWaterMark h st q d now; Some (AQuery e mark, s)
  | OpSetSend q d w now now' => '(e, s) ← SetSendQueryWaterMark h st q d w now now'; Some (AStatus e, s)
  | OpSetRecv q d w now now' => '(e, s) ← SetRecvQueryWaterMark h st q d w now now'; Some (AStatus e, s)
  | OpSetQueryTime q d t now now' => '(e, s) ← SetLastQueryTime h st q d t now now'; Some (AStatus e, s)
  | OpResetRecv d table => '(e, s) ← ResetRecvQueryWaterMark h st d table; Some (AStatus e, s)
  | OpGetDelete d =>
      '((e, mark), h) ← GetDeleteSyncWaterMark h st d emptyDeleteWaterMark; Some (ADelete e mark, (h, st))
  | OpSetSendDelete d w => '(e, s) ← SetSendDeleteSyncWaterMark h st d w; Some (AStatus e, s)
  | OpSetRecvDelete d w => '(e, s) ← SetRecvDeleteSyncWaterMark h st d w; Some (AStatus e, s)
  end.

Fixpoint run_marks h st (ops : list MarkOp) : option (list Answer * (QuerySyncWaterMarkHelper * St)) :=
  match ops with
  | [] => Some ([], (h, st))
  | op :: ops => '(a, (h, st)) ← mark_step h st op;
                 '(answers, s) ← run_marks h st ops; Some (a :: answers, s)
  end.

(** * The reference: no caches *)

Definition query_key (queryId deviceId : list byte) : Key :=
  QUERY_SYNC_PREFIX_KEY ++ TransferHashString deviceId ++ queryId.

Definition delete_key (deviceId : list byte) : Key :=
  DELETE_SYNC_PREFIX_KEY ++ TransferHashString deviceId.

Definition ref_save st (key : Key) (q : QueryWaterMark) : option (Z * St) :=
  '(e, v) ← SerializeQueryWaterMark q;
  if e =? E_OK then Some (PutMetaData st key v) else Some (e, st).

(** A mark that is not there yet is stored first. *)
Definition ref_get st (key : Key) (now : option Z) : option ((Z * QueryWaterMark) * St) :=
  let '(e, v) := GetMetaData st key in
  if e =? E_OK then '(e, q) ← DeSerializeQueryWaterMark v emptyQueryWaterMark; Some ((e, q), st)
  else if e =? - E_NOT_FOUND then
    match now with
    | None => Some ((- E_SYSTEM_API_FAIL, emptyQueryWaterMark), st)
    | Some t => let q := mkQueryWaterMark QUERY_WATERMARK_VERSION_CURRENT 0 0 t [] 0 in
                '(e, st) ← ref_save st key q; Some ((e, q), st)
    end
  else Some ((e, emptyQueryWaterMark), st).

Definition ref_update st (key : Key) (change : QueryWaterMark -> QueryWaterMark) (now now' : option Z)
    : option (Z * St) :=
  '((e, q), st) ← ref_get st key now;
  if e =? E_OK then
    match now' with
    | None => Some (- E_SYSTEM_API_FAIL, st)
    | Some t => ref_save st key (set_used_time (change q) t)
    end
  else Some (e, st).

Definition noDeleteMark : DeleteWaterMark := mkDeleteWaterMark DELETE_WATERMARK_VERSION_CURRENT 0 0.

Definition ref_get_delete st (key : Key) : option (Z * DeleteWaterMark) :=
  let '(e, v) := GetMetaData st key in
  if e =? E_OK then '(e, d) ← DeSerializeDeleteWaterMark v noDeleteMark;
                    Some (if e =? E_OK then (e, d) else (e, emptyDeleteWaterMark))
  else if e =? - E_NOT_FOUND then Some (E_OK, noDeleteMark)
  else Some (e, emptyDeleteWaterMark).

Definition ref_update_delete st (key : Key) (change : DeleteWaterMark -> DeleteWaterMark)
    : option (Z * St) :=
  '(_, d) ← ref_get_delete st key;
  '(e, v) ← SerializeDeleteWaterMark (change d);
  if e =? E_OK then Some (PutMetaData st key v) else Some (e, st).

Definition set_send_delete (waterMark : Z) (d : DeleteWaterMark) : DeleteWaterMark :=
  mkDeleteWaterMark (dw_version d) waterMark (dw_recvWaterMark d).

Definition set_recv_delete (waterMark : Z) (d : DeleteWaterMark) : DeleteWaterMark :=
  mkDeleteWaterMark (dw_version d) (dw_sendWaterMark d) waterMark.

Definition reset_prefix (deviceId tableName : list byte) : Key :=
  QUERY_SYNC_PREFIX_KEY ++ TransferHashString deviceId ++
    (match tableName with [] => [] | _ => TransferStringToHex (TransferHashString tableName) end).

Definition ref_step st (op : MarkOp) : option (Answer * St) :=
  match op with
  | OpGetQuery q d now => '((e, mark), st) ← ref_get st (query_key q d) now; Some (AQuery e mark, st)
  | OpSetSend q d w now now' =>
      '(e, st) ← ref_update st (query_key q d) (set_send w) now now'; Some (AStatus e, st)
  | OpSetRecv q d w now now' =>
      '(e, st) ← ref_update st (query_key q d) (set_recv w) now now'; Some (AStatus e, st)
  | OpSetQueryTime q d t now now' =>
      '(e, st) ← ref_update st (query_key q d) (set_query_time t) now now'; Some (AStatus e, st)
  | OpResetRecv d table =>
      let '(e, st) := DeleteMetaDataByPrefixKey st (reset_prefix d table) in Some (AStatus e, st)
  | OpGetDelete d => '(e, mark) ← ref_get_delete st (delete_key d); Some (ADelete e mark, st)
  | OpSetSendDelete d w =>
      '(e, st) ← ref_update_delete st (delete_key d) (set_send_delete w); Some (AStatus e, st)
  | OpSetRecvDelete d w =>
      '(e, st) ← ref_update_delete st (delete_key d) (set_recv_delete w); Some (AStatus e, st)
  end.

Fixpoint ref_run st (ops : list MarkOp) : option (list Answer * St) :=
  match ops with
  | [] => Some ([], st)
  | op :: ops => '(a, st) ← ref_step st op; '(answers, st) ← ref_run st ops; Some (a :: answers, st)
  end.

(** The arguments are values of their C++ types. *)
Definition u64_ok (z : Z) : Prop := 0 <= z < 2 ^ 64.
Definition time_ok (now : option Z) : Prop := from_option u64_ok True now.

Definition op_ok (op : MarkOp) : Prop :=
  match op with
  | OpGetQuery _ _ now => time_ok now
  | OpSetSend _ _ w now now' | OpSetRecv _ _ w now now' | OpSetQueryTime _ _ w now now' =>
      u64_ok w /\ time_ok now /\ time_ok now'
  | OpResetRecv _ _ | OpGetDelete _ => True
  | OpSetSendDelete _ w | OpSetRecvDelete _ w => u64_ok w
  end.

(** * The invariant *)

Definition is_query_key (k : Key) : Prop := has_prefix QUERY_SYNC_PREFIX_KEY k = true.
Definition is_delete_key (k : Key) : Prop := has_prefix DELETE_SYNC_PREFIX_KEY k = true.

Definition current (q : QueryWaterMark) : Prop :=
  query_ok q /\ SOFTWARE_VERSION_RELEASE_6_0 <= qw_version q.

(** What is stored under the keys of the marks can be read, and the query marks have the
    present version. *)
Record marks_ok st : Prop := {
  mo_query : forall k v, is_query_key k -> contents st !! k = Some v ->
    exists e q, DeSerializeQueryWaterMark v emptyQueryWaterMark = Some (e, q) /\ (e = E_OK -> current q);
  mo_delete : forall k v, is_delete_key k -> contents st !! k = Some v ->
    exists e d, DeSerializeDeleteWaterMark v noDeleteMark = Some (e, d) /\ (e = E_OK -> delete_ok d)
}.

(** The caches hold what the storage holds. *)
Record cached h st : Prop := {
  ca_storage : storage_ h = true;
  ca_lru : lru_inv (querySyncCache_ h);
  ca_query : forall k q, cache_ (querySyncCache_ h) !! k = Some q ->
    is_query_key k /\ current q /\
    exists v, contents st !! k = Some v /\ DeSerializeQueryWaterMark v emptyQueryWaterMark = Some (E_OK, q);
  ca_ids : forall dev ids q hash, deviceIdToHashQuerySyncIdMap_ h !! dev = Some ids ->
    ids !! q = Some hash -> hash = query_key q dev;
  ca_delete : forall k d, deleteSyncCache_ h !! k = Some d ->
    is_delete_key k /\ delete_ok d /\
    match contents st !! k with
    | Some v => DeSerializeDeleteWaterMark v noDeleteMark = Some (E_OK, d)
    | None => d = noDeleteMark
    end;
  ca_delete_ids : forall dev hash, deviceIdToHashDeleteSyncIdMap_ h !! dev = Some hash ->
    hash = delete_key dev
}.

Lemma is_query_query_key q dev : is_query_key (query_key q dev).
Proof. done. Qed.

Lemma is_delete_delete_key dev : is_delete_key (delete_key dev).
Proof. done. Qed.

Lemma has_prefix_app a b k : has_prefix (a ++ b) k = true -> has_prefix a k = true.
Proof.
  unfold has_prefix. rewrite !bool_decide_eq_true, length_app. intros E.
  apply (f_equal (take (length a))) in E. rewrite take_take, take_app_length in E.
  by rewrite Nat.min_l in E by lia.
Qed.

Lemma query_not_delete k : is_query_key k -> is_delete_key k -> False.
Proof.
  unfold is_query_key, is_delete_key, has_prefix. rewrite !bool_decide_eq_true.
  destruct k as [|b k]; [done |]. cbn. intros [= -> _] [= ?].
Qed.

Lemma fresh_cached st : cached (helper_Initialize newHelper) st.
Proof.
  split; cbn; try done. split; cbn; [done | constructor | done].
Qed.

(** Both depend on what is stored only. *)
Lemma marks_ok_same st st' : contents st' = contents st -> marks_ok st -> marks_ok st'.
Proof. intros E [Hq Hd]. split; rewrite E; done. Qed.

Lemma cached_same h st st' : contents st' = contents st -> cached h st -> cached h st'.
Proof. intros E []. split; try rewrite E; done. Qed.

(** * Storing *)

Lemma marks_ok_put_query st st' k q v : marks_ok st -> contents st' = <[k := v]> (contents st) ->
  is_query_key k -> current q -> DeSerializeQueryWaterMark v emptyQueryWaterMark = Some (E_OK, q) ->
  marks_ok st'.
Proof.
  intros [Hq Hd] E Hk Hc Hv. split; intros k' v' Hk'; rewrite E.
  - rewrite lookup_insert_Some. intros [[_ <-] | [_ ?]]; eauto.
  - rewrite lookup_insert_ne; [eauto |]. intros ->. by eapply query_not_delete.
Qed.

Lemma marks_ok_put_delete st st' k d v : marks_ok st -> contents st' = <[k := v]> (contents st) ->
  is_delete_key k -> delete_ok d -> DeSerializeDeleteWaterMark v noDeleteMark = Some (E_OK, d) ->
  marks_ok st'.
Proof.
  intros [Hq Hd] E Hk Hc Hv. split; intros k' v' Hk'; rewrite E.
  - rewrite lookup_insert_ne; [eauto |]. intros ->. by eapply query_not_delete.
  - rewrite lookup_insert_Some. intros [[_ <-] | [_ ?]]; eauto.
Qed.

(** The mark [q] is cached under [k] and stored there. *)
Lemma cached_put_query h st st' k q v : cached h st -> is_query_key k -> current q ->
  contents st' !! k = Some v -> DeSerializeQueryWaterMark v emptyQueryWaterMark = Some (E_OK, q) ->
  (forall k', k' <> k -> contents st' !! k' = contents st !! k') ->
  cached (set_lru h (lru_Put (querySyncCache_ h) k q)) st'.
Proof.
  intros [Hs Hl Hq Hi Hd Hdi] Hk Hc Hv E Hoth. destruct (put_inv (querySyncCache_ h) k q Hl) as [Hl' Hsub].
  split; cbn [set_lru storage_ querySyncCache_ deviceIdToHashQuerySyncIdMap_ deleteSyncCache_
    deviceIdToHashDeleteSyncIdMap_]; try done.
  - intros k' q' Hin. eapply lookup_weaken in Hin; [| exact Hsub].
    apply lookup_insert_Some in Hin as [[<- <-] | [Hne Hin]]; [eauto |].
    rewrite (Hoth k' ltac:(congruence)). eauto.
  - intros k' d Hin. destruct (Hd k' d Hin) as (Hk' & Hok & Hst). split_and!; [done | done |].
    rewrite Hoth; [done |]. intros ->. by eapply query_not_delete.
Qed.

Lemma cached_put_delete h st st' k d v : cached h st -> is_delete_key k -> delete_ok d ->
  contents st' = <[k := v]> (contents st) -> DeSerializeDeleteWaterMark v noDeleteMark = Some (E_OK, d) ->
  cached (set_delete_cache h (<[k := d]> (deleteSyncCache_ h))) st'.
Proof.
  intros [Hs Hl Hq Hi Hd Hdi] Hk Hok E Hv. split; cbn; try done; rewrite E.
  - intros k' q Hin. destruct (Hq k' q Hin) as (Hk' & Hc & Hst). split_and!; [done | done |].
    rewrite lookup_insert_ne; [done |]. intros ->. by eapply query_not_delete.
  - intros k' d'. rewrite lookup_insert_Some. intros [[<- <-] | [Hne Hin]].
    + by rewrite lookup_insert_eq.
    + rewrite lookup_insert_ne by done. eauto.
Qed.

(** A save that fails leaves the old value, in the storage and in the cache. *)
Lemma save_query h st k q : cached h st -> marks_ok st -> is_query_key k -> current q ->
  exists e st', SaveQueryWaterMarkToDB h st k q = Some (e, st') /\ ref_save st k q = Some (e, st')
    /\ cached h (if e =? E_OK then st else st') /\ marks_ok st'
    /\ (e = E_OK -> cached (set_lru h (lru_Put (querySyncCache_ h) k q)) st').
Proof.
  intros Hca Hm Hk Hc. destruct (query_roundtrip q (proj1 Hc) (proj2 Hc)) as (v & Es & Ed).
  unfold SaveQueryWaterMarkToDB, ref_save, helper_SetMetadataToDb. rewrite Es. cbn.
  rewrite (ca_storage _ _ Hca). destruct (PutMetaData st k v) as [e st'] eqn:Ep.
  exists e, st'. pose proof (put_spec _ _ _ _ _ Ep) as Hp. split_and!; [done | done | | |].
  - destruct (e =? E_OK); [done | by eapply cached_same].
  - destruct (e =? E_OK); [by eapply marks_ok_put_query | by eapply marks_ok_same].
  - intros ->. cbn in Hp. eapply cached_put_query; try done.
    + rewrite Hp. apply lookup_insert_eq.
    + intros k' Hne. by rewrite Hp, lookup_insert_ne.
Qed.

Lemma save_delete h st k d : cached h st -> marks_ok st -> is_delete_key k -> delete_ok d ->
  exists e h' st', UpdateDeleteSyncCacheAndSave h st k d = Some (e, (h', st'))
    /\ ('(e, v) ← SerializeDeleteWaterMark d;
        if e =? E_OK then Some (PutMetaData st k v) else Some (e, st)) = Some (e, st')
    /\ cached h' st' /\ marks_ok st'.
Proof.
  intros Hca Hm Hk Hok. destruct (delete_roundtrip d Hok) as (v & Es & Ed).
  unfold UpdateDeleteSyncCacheAndSave, SaveDeleteWaterMarkToDB, helper_SetMetadataToDb. rewrite Es. cbn.
  rewrite (ca_storage _ _ Hca). destruct (PutMetaData st k v) as [e st'] eqn:Ep. cbn.
  pose proof (put_spec _ _ _ _ _ Ep) as Hp. destruct (e =? E_OK); cbn; do 3 eexists.
  - split_and!; [done | done | by eapply cached_put_delete | by eapply marks_ok_put_delete].
  - split_and!; [done | done | by eapply cached_same | by eapply marks_ok_same].
Qed.

(** * Each call *)

Lemma deserialize_status v x e q : DeSerializeQueryWaterMark v x = Some (e, q) ->
  e = E_OK \/ e = - E_PARSE_FAIL.
Proof.
  unfold DeSerializeQueryWaterMark. intros E. apply bind_Some in E as ([q' p] & _ & E).
  destruct (isError_ p); injection E as <- _; auto.
Qed.

Lemma deserialize_delete_status v x e d : DeSerializeDeleteWaterMark v x = Some (e, d) ->
  e = E_OK \/ e = - E_PARSE_FAIL.
Proof.
  unfold DeSerializeDeleteWaterMark. intros E. apply bind_Some in E as ([q' p] & _ & E).
  destruct (isError_ p); injection E as <- _; auto.
Qed.

Lemma cached_touch h st k q : cached h st -> cache_ (querySyncCache_ h) !! k = Some q ->
  cached (set_lru h (Elimination (querySyncCache_ h) k q)) st.
Proof.
  intros [Hs Hl Hq Hi Hd Hdi] Hin.
  destruct (elimination_inv (querySyncCache_ h) k q Hl) as [Hl' Hsub]; [by apply elem_of_dom |].
  split; cbn [set_lru storage_ querySyncCache_ deviceIdToHashQuerySyncIdMap_ deleteSyncCache_
    deviceIdToHashDeleteSyncIdMap_]; try done.
  intros k' q' Hin'. eapply lookup_weaken in Hin'; [| exact Hsub]. eauto.
Qed.

Lemma current_new t : u64_ok t -> current (mkQueryWaterMark QUERY_WATERMARK_VERSION_CURRENT 0 0 t [] 0).
Proof.
  intros Ht. unfold u64_ok in Ht. split; [split | done]; cbn; (done || lia).
Qed.

Lemma get_query h st k now : reads_ok st -> cached h st -> marks_ok st -> is_query_key k -> time_ok now ->
  exists e q h' st', GetQueryWaterMarkInCacheAndDb h st k now = Some ((e, q), (h', st'))
    /\ ref_get st k now = Some ((e, q), st') /\ cached h' st' /\ marks_ok st' /\ (e = E_OK -> current q).
Proof.
  intros [Hr _] Hca Hm Hk Hnow. specialize (Hr k).
  unfold GetQueryWaterMarkInCacheAndDb, lru_Get, ref_get.
  destruct (cache_ (querySyncCache_ h) !! k) as [q|] eqn:Hin.
  { destruct (ca_query _ _ Hca k q Hin) as (_ & Hc & v & Hv & Ed). rewrite Hv in Hr. rewrite Hr. cbn.
    rewrite Ed. cbn. do 4 eexists. split_and!; [done | done | by apply cached_touch | done | done]. }
  unfold GetQueryWaterMarkFromDB, helper_GetMetadataFromDb. rewrite (ca_storage _ _ Hca).
  destruct (contents st !! k) as [v|] eqn:Hv.
  { rewrite Hr. cbn. destruct (mo_query _ Hm k v Hk Hv) as (e & q & Ed & Hc). rewrite Ed. cbn.
    destruct (deserialize_status _ _ _ _ Ed) as [-> | ->]; cbn; do 4 eexists.
    - split_and!; [done | done | | done | done]. eapply cached_put_query; eauto.
    - by split_and!. }
  destruct Hr as [v Hr]. rewrite Hr.
  destruct now as [t|]; cbn [time_ok from_option PutQueryWaterMarkToDB] in Hnow |- *.
  2: { do 4 eexists. by split_and!. }
  change (negb (- E_NOT_FOUND =? E_OK)) with true. cbn [mbind option_bind].
  change (- E_NOT_FOUND =? - E_NOT_FOUND) with true. change (- E_NOT_FOUND =? E_OK) with false.
  cbn [PutQueryWaterMarkToDB emptyQueryWaterMark qw_sendWaterMark qw_recvWaterMark qw_sql qw_lastQueryTime].
  pose proof (current_new t Hnow) as Hc.
  destruct (save_query h st k _ Hca Hm Hk Hc) as (e & st' & -> & -> & Hca' & Hm' & Hput). cbn.
  destruct (Z.eqb_spec e E_OK) as [-> | He]; cbn; do 4 eexists.
  - split_and!; [done | done | by apply Hput | done | done].
  - split_and!; done.
Qed.

Lemma update_query h st k change now now' :
  (forall st, reads_ok st) -> cached h st -> marks_ok st -> is_query_key k -> time_ok now -> time_ok now' ->
  (forall q t, current q -> u64_ok t -> current (set_used_time (change q) t)) ->
  exists e h' st', update_mark h st k change now now' = Some (e, (h', st'))
    /\ ref_update st k change now now' = Some (e, st') /\ cached h' st' /\ marks_ok st'.
Proof.
  intros Hr Hca Hm Hk Hnow Hnow' Hch. unfold update_mark, ref_update.
  destruct (get_query h st k now (Hr st) Hca Hm Hk Hnow) as (e & q & h1 & st1 & -> & -> & Hca1 & Hm1 & Hc).
  cbn. destruct (Z.eqb_spec e E_OK) as [He | He]; cbn.
  2: { do 3 eexists. by split_and!. }
  unfold UpdateCacheAndSave. destruct now' as [t|]; cbn in Hnow'.
  2: { do 3 eexists. by split_and!. }
  destruct (save_query h1 st1 k (set_used_time (change q) t) Hca1 Hm1 Hk) as (e' & st' & -> & -> & Hca' & Hm' & Hput);
    [by apply Hch; auto |]. cbn.
  destruct (Z.eqb_spec e' E_OK) as [-> | ?]; cbn; do 3 eexists; split_and!; (done || by apply Hput).
Qed.

Lemma get_delete h st k : reads_ok st -> cached h st -> marks_ok st -> is_delete_key k ->
  exists e d h', GetDeleteWaterMarkFromCache h st k emptyDeleteWaterMark = Some ((e, d), h')
    /\ ref_get_delete st k = Some (e, d) /\ cached h' st /\ delete_ok d.
Proof.
  intros [Hr _] Hca Hm Hk. specialize (Hr k). unfold GetDeleteWaterMarkFromCache, ref_get_delete.
  assert (Hno : delete_ok noDeleteMark) by done. assert (Hem : delete_ok emptyDeleteWaterMark) by done.
  assert (Hput : forall d, delete_ok d -> match contents st !! k with
      | Some v => DeSerializeDeleteWaterMark v noDeleteMark = Some (E_OK, d) | None => d = noDeleteMark end ->
    cached (set_delete_cache h (<[k := d]> (deleteSyncCache_ h))) st).
  { intros d Hd Hst. destruct Hca. split; cbn; try done. intros k' d'. rewrite lookup_insert_Some.
    intros [[<- <-] | [_ ?]]; eauto. }
  destruct (deleteSyncCache_ h !! k) as [d|] eqn:Hin.
  { destruct (ca_delete _ _ Hca k d Hin) as (_ & Hok & Hst). destruct (contents st !! k) as [v|].
    - rewrite Hr. cbn. rewrite Hst. cbn. do 3 eexists. by split_and!.
    - destruct Hr as [v Hr]. rewrite Hr. cbn. subst d. do 3 eexists. by split_and!. }
  unfold GetDeleteWaterMarkFromDB, helper_GetMetadataFromDb. rewrite (ca_storage _ _ Hca).
  fold noDeleteMark. destruct (contents st !! k) as [v|] eqn:Hv.
  - rewrite Hr. cbn. destruct (mo_delete _ Hm k v Hk Hv) as (e & d & Ed & Hok). rewrite Ed. cbn.
    destruct (deserialize_delete_status _ _ _ _ Ed) as [-> | ->]; cbn; do 3 eexists.
    + split_and!; [done | done | by apply Hput; auto | auto].
    + by split_and!.
  - destruct Hr as [v Hr]. rewrite Hr. cbn. do 3 eexists. split_and!; [done | done | by apply Hput | done].
Qed.

(** The cache of hashed ids gives the key that the hash gives. *)
Lemma query_id h st q dev : cached h st ->
  exists h', GetHashQuerySyncDeviceId h dev q = (query_key q dev, h') /\ cached h' st.
Proof.
  intros [Hs Hl Hq Hi Hd Hdi]. unfold GetHashQuerySyncDeviceId.
  set (ids := default ∅ (deviceIdToHashQuerySyncIdMap_ h !! dev)).
  assert (Hids : forall q' hash, ids !! q' = Some hash -> hash = query_key q' dev).
  { intros q' hash Hin. unfold ids in Hin. destruct (deviceIdToHashQuerySyncIdMap_ h !! dev) eqn:E; [eauto | done]. }
  destruct (ids !! q) as [hash|] eqn:Hin; eexists;
    (split; [try rewrite (Hids q hash Hin); reflexivity | split; cbn; try done]).
  - intros dev' ids' q' hash'. rewrite lookup_insert_Some.
    intros [[<- <-] | [_ Hm]]; [apply Hids | by apply Hi].
  - intros dev' ids' q' hash'. rewrite lookup_insert_Some. intros [[<- <-] | [_ ?]]; [| by apply Hi].
    rewrite lookup_insert_Some. intros [[<- <-] | [_ ?]]; [done | by apply Hids].
Qed.

Lemma delete_id h st dev : cached h st ->
  exists h', GetHashDeleteSyncDeviceId h dev = (delete_key dev, h') /\ cached h' st.
Proof.
  intros Hca. unfold GetHashDeleteSyncDeviceId.
  destruct (deviceIdToHashDeleteSyncIdMap_ h !! dev) as [hash|] eqn:E.
  - rewrite (ca_delete_ids _ _ Hca dev hash E). by eexists.
  - eexists. split; [done |]. destruct Hca. split; try done.
    intros dev' hash'. cbn [deviceIdToHashDeleteSyncIdMap_]. rewrite lookup_insert_Some. intros [[<- <-] | [_ ?]]; [done | auto].
Qed.

Lemma update_delete h st dev change : (forall st, reads_ok st) -> cached h st -> marks_ok st ->
  (forall d, delete_ok d -> delete_ok (change d)) ->
  exists e h' st',
    (let '(hashId, h) := GetHashDeleteSyncDeviceId h dev in
     '((_, d), h) ← GetDeleteWaterMarkFromCache h st hashId emptyDeleteWaterMark;
     UpdateDeleteSyncCacheAndSave h st hashId (change d)) = Some (e, (h', st'))
    /\ ref_update_delete st (delete_key dev) change = Some (e, st') /\ cached h' st' /\ marks_ok st'.
Proof.
  intros Hr Hca Hm Hch. destruct (delete_id h st dev Hca) as (h1 & -> & Hca1). unfold ref_update_delete.
  destruct (get_delete h1 st (delete_key dev) (Hr st) Hca1 Hm (is_delete_delete_key dev))
    as (e & d & h2 & -> & -> & Hca2 & Hok). cbn [mbind option_bind].
  destruct (save_delete h2 st (delete_key dev) (change d) Hca2 Hm (is_delete_delete_key dev) (Hch d Hok))
    as (e' & h3 & st' & -> & -> & Hca3 & Hm'). eauto 10.
Qed.

Lemma reset h st dev table : cached h st -> marks_ok st ->
  exists e h' st', ResetRecvQueryWaterMark h st dev table = Some (e, (h', st'))
    /\ DeleteMetaDataByPrefixKey st (reset_prefix dev table) = (e, st') /\ cached h' st' /\ marks_ok st'.
Proof.
  intros Hca Hm. unfold ResetRecvQueryWaterMark. fold (reset_prefix dev table).
  rewrite (ca_storage _ _ Hca).
  destruct (DeleteMetaDataByPrefixKey st (reset_prefix dev table)) as [e st'] eqn:E.
  pose proof (delete_prefix_spec _ _ _ _ E) as Hdel.
  destruct (Z.eqb_spec e E_OK) as [-> | He]; cbn [negb]; do 3 eexists; (split; [done |]).
  2: { split_and!; [done | by eapply cached_same | by eapply marks_ok_same]. }
  assert (Hlk : forall k, contents st' !! k = if has_prefix (reset_prefix dev table) k then None else contents st !! k).
  { intros k. rewrite Hdel. destruct (has_prefix (reset_prefix dev table) k) eqn:Hp.
    - apply map_lookup_filter_None_2. right. intros v _ Hf. cbn [fst] in Hf. congruence.
    - destruct (contents st !! k) as [v|] eqn:Hv.
      + apply map_lookup_filter_Some_2; [done | exact Hp].
      + apply map_lookup_filter_None_2. by left. }
  destruct Hca as [Hs Hl Hq Hi Hd Hdi]. destruct (remove_prefix_inv (querySyncCache_ h) (reset_prefix dev table) Hl) as [Hl' Hrem].
  split; [done |]. split.
  - split; cbn [set_lru storage_ querySyncCache_ deviceIdToHashQuerySyncIdMap_ deleteSyncCache_
      deviceIdToHashDeleteSyncIdMap_]; try done.
    + intros k q. rewrite Hrem, Hlk. destruct (has_prefix _ k); [done |]. eauto.
    + intros k d Hin. destruct (Hd k d Hin) as (Hk & Hok & Hst). rewrite Hlk.
      destruct (has_prefix (reset_prefix dev table) k) eqn:Hp; [| done].
      apply has_prefix_app in Hp. destruct (query_not_delete k Hp Hk).
  - destruct Hm as [Hmq Hmd]. split; intros k v Hk; rewrite Hlk; destruct (has_prefix _ k); eauto; done.
Qed.

(** * Sequences of calls *)

Lemma step_same h st op : (forall st, reads_ok st) -> cached h st -> marks_ok st -> op_ok op ->
  exists a h' st', mark_step h st op = Some (a, (h', st')) /\ ref_step st op = Some (a, st')
    /\ cached h' st' /\ marks_ok st'.
Proof.
  intros Hr Hca Hm Hop.
  assert (Hupd : forall q dev change now now', time_ok now -> time_ok now' ->
    (forall q t, current q -> u64_ok t -> current (set_used_time (change q) t)) ->
    exists e h' st', (let '(k, h) := GetHashQuerySyncDeviceId h dev q in
                      update_mark h st k change now now') = Some (e, (h', st'))
      /\ ref_update st (query_key q dev) change now now' = Some (e, st') /\ cached h' st' /\ marks_ok st').
  { intros q dev change now now' ? ? ?. destruct (query_id h st q dev Hca) as (h1 & -> & Hca1).
    by apply update_query. }
  assert (Hset : forall w f, (f = set_send w \/ f = set_recv w \/ f = set_query_time w) -> u64_ok w ->
    forall q t, current q -> u64_ok t -> current (set_used_time (f q) t)).
  { intros w f Hf Hw q t [[] Hv] Ht. unfold u64_ok in *.
    destruct Hf as [-> | [-> | ->]]; (split; [split; cbn; (done || lia) | done]). }
  destruct op as [q d now | q d w now now' | q d w now now' | q d w now now' | d table | d | d w | d w];
    cbn [mark_step ref_step op_ok] in *.
  - unfold GetQueryWaterMark. destruct (query_id h st q d Hca) as (h1 & -> & Hca1).
    destruct (get_query h1 st (query_key q d) now (Hr st) Hca1 Hm (is_query_query_key q d) Hop)
      as (e & mark & h2 & st' & -> & -> & Hca2 & Hm' & _). eauto 10.
  - destruct Hop as (Hw & Hn & Hn'). unfold SetSendQueryWaterMark.
    destruct (Hupd q d (set_send w) now now' Hn Hn') as (e & h' & st' & -> & -> & Hca' & Hm'); [eauto | eauto 10].
  - destruct Hop as (Hw & Hn & Hn'). unfold SetRecvQueryWaterMark.
    destruct (Hupd q d (set_recv w) now now' Hn Hn') as (e & h' & st' & -> & -> & Hca' & Hm'); [eauto | eauto 10].
  - destruct Hop as (Hw & Hn & Hn'). unfold SetLastQueryTime.
    destruct (Hupd q d (set_query_time w) now now' Hn Hn') as (e & h' & st' & -> & -> & Hca' & Hm'); [eauto | eauto 10].
  - destruct (reset h st d table Hca Hm) as (e & h' & st' & -> & -> & Hca' & Hm'). cbn. eauto 10.
  - unfold GetDeleteSyncWaterMark. destruct (delete_id h st d Hca) as (h1 & -> & Hca1).
    destruct (get_delete h1 st (delete_key d) (Hr st) Hca1 Hm (is_delete_delete_key d))
      as (e & mark & h2 & -> & -> & Hca2 & _). eauto 10.
  - destruct (update_delete h st d (set_send_delete w) Hr Hca Hm) as (e & h' & st' & E & -> & Hca' & Hm').
    { intros d' []. unfold u64_ok in Hop. split; cbn; (done || lia). }
    unfold SetSendDeleteSyncWaterMark. unfold set_send_delete in E. rewrite E. cbn. eauto 10.
  - destruct (update_delete h st d (set_recv_delete w) Hr Hca Hm) as (e & h' & st' & E & -> & Hca' & Hm').
    { intros d' []. unfold u64_ok in Hop. split; cbn; (done || lia). }
    unfold SetRecvDeleteSyncWaterMark. unfold set_recv_delete in E. rewrite E. cbn. eauto 10.
Qed.

Lemma run_same ops : (forall st, reads_ok st) -> Forall op_ok ops -> forall h st, cached h st -> marks_ok st ->
  exists answers h' st', run_marks h st ops = Some (answers, (h', st'))
    /\ ref_run st ops = Some (answers, st') /\ cached h' st' /\ marks_ok st'.
Proof.
  intros Hr Hok. induction Hok as [| op ops Hop _ IH]; intros h st Hca Hm; cbn [run_marks ref_run].
  { eauto 10. }
  destruct (step_same h st op Hr Hca Hm Hop) as (a & h1 & st1 & -> & -> & Hca1 & Hm1). cbn [mbind option_bind].
  destruct (IH h1 st1 Hca1 Hm1) as (l & h2 & st2 & -> & -> & Hca2 & Hm2). cbn. eauto 10.
Qed.


End Cache.


