(* ===== verification/MetaData.v ===== *)
(** Model of [Metadata] (syncer/src/meta_data.cpp): per device the time offset and the
    water marks, written through to the storage, and the local time offset. *)

From S2P Require Import Prelude Memory CommTypes Numerals Parcel SyncStorage WaterMark.
From Stdlib Require Import ZArith Lia.
From Stdlib Require Import Strings.Byte.
From stdpp Require Import base numbers list gmap.

Open Scope Z_scope.

(** "localTimeOffset", "deviceId", "subscribe_query_". *)
Definition LOCALTIME_OFFSET_KEY : list byte :=
  [x6c; x6f; x63; x61; x6c; x54; x69; x6d; x65; x4f; x66; x66; x73; x65; x74].
Definition DEVICEID_PREFIX_KEY : list byte := [x64; x65; x76; x69; x63; x65; x49; x64].
Definition SUBSCRIBE_QUERY_PREFIX : list byte :=
  [x73; x75; x62; x73; x63; x72; x69; x62; x65; x5f; x71; x75; x65; x72; x79; x5f].
Definition REMOVE_DEVICE_DATA_MARK : Z := 1.

Record MetaDataValue := mkMetaDataValue {
  timeOffset : Z;
  lastUpdateTime : Z;
  localWaterMark : Z;
  peerWaterMark : Z;
  dbCreateTime : Z;
  clearDeviceDataMark : Z
}.

Definition emptyMetaDataValue : MetaDataValue := mkMetaDataValue 0 0 0 0 0 0.

Definition set_timeOffset (m : MetaDataValue) (offset update : Z) : MetaDataValue :=
  mkMetaDataValue offset update (localWaterMark m) (peerWaterMark m) (dbCreateTime m)
    (clearDeviceDataMark m).
Definition set_localWaterMark (m : MetaDataValue) (v : Z) : MetaDataValue :=
  mkMetaDataValue (timeOffset m) (lastUpdateTime m) v (peerWaterMark m) (dbCreateTime m)
    (clearDeviceDataMark m).
Definition set_peerWaterMark (m : MetaDataValue) (v : Z) : MetaDataValue :=
  mkMetaDataValue (timeOffset m) (lastUpdateTime m) (localWaterMark m) v (dbCreateTime m)
    (clearDeviceDataMark m).
Definition set_create (m : MetaDataValue) (create mark : Z) : MetaDataValue :=
  mkMetaDataValue (timeOffset m) (lastUpdateTime m) (localWaterMark m) (peerWaterMark m) create mark.

(** [md_store] is the storage that [naturalStoragePtr_], when it is set, points to. *)
Record Metadata {St : Type} := mkMetadata {
  localTimeOffset_ : Z;
  naturalStoragePtr_ : bool;
  metadataMap_ : gmap (list byte) MetaDataValue;
  deviceIdToHashDeviceIdMap_ : gmap DeviceID DeviceID;
  lastLocalTime_ : Z;
  querySyncWaterMarkHelper_ : QuerySyncWaterMarkHelper;
  queryIdMap_ : gmap DeviceID (gset (list byte));
  md_store : St
}.

Arguments Metadata : clear implicits.
Arguments mkMetadata {St}.

Section Meta.
Context `{Host} `{DeviceHash} {St : Type} `{SyncStorage St}.
Implicit Types m : Metadata St.

Definition newMetadata (st : St) : Metadata St := mkMetadata 0 false ∅ ∅ 0 newHelper ∅ st.

Definition set_store m (st : St) : Metadata St :=
  mkMetadata (localTimeOffset_ m) (naturalStoragePtr_ m) (metadataMap_ m) (deviceIdToHashDeviceIdMap_ m)
    (lastLocalTime_ m) (querySyncWaterMarkHelper_ m) (queryIdMap_ m) st.

Definition set_metadata_map m (mm : gmap (list byte) MetaDataValue) : Metadata St :=
  mkMetadata (localTimeOffset_ m) (naturalStoragePtr_ m) mm (deviceIdToHashDeviceIdMap_ m)
    (lastLocalTime_ m) (querySyncWaterMarkHelper_ m) (queryIdMap_ m) (md_store m).

Definition set_hash_ids m (ids : gmap DeviceID DeviceID) : Metadata St :=
  mkMetadata (localTimeOffset_ m) (naturalStoragePtr_ m) (metadataMap_ m) ids
    (lastLocalTime_ m) (querySyncWaterMarkHelper_ m) (queryIdMap_ m) (md_store m).

Definition set_helper m (h : QuerySyncWaterMarkHelper) (st : St) : Metadata St :=
  mkMetadata (localTimeOffset_ m) (naturalStoragePtr_ m) (metadataMap_ m) (deviceIdToHashDeviceIdMap_ m)
    (lastLocalTime_ m) h (queryIdMap_ m) st.

Definition set_query_ids m (q : gmap DeviceID (gset (list byte))) : Metadata St :=
  mkMetadata (localTimeOffset_ m) (naturalStoragePtr_ m) (metadataMap_ m) (deviceIdToHashDeviceIdMap_ m)
    (lastLocalTime_ m) (querySyncWaterMarkHelper_ m) q (md_store m).

(** * Access to the storage *)

Definition GetMetadataFromDb m (key : Key) : Z * Value :=
  if naturalStoragePtr_ m then GetMetaData (md_store m) key else (- E_INVALID_DB, []).

Definition SetMetadataToDb m (key : Key) (inValue : Value) : Z * Metadata St :=
  if naturalStoragePtr_ m then
    let '(errCode, st) := PutMetaData (md_store m) key inValue in (errCode, set_store m st)
  else (- E_INVALID_DB, m).

Definition DeleteMetaDataFromDB m (keys : list Key) : Z * Metadata St :=
  if naturalStoragePtr_ m then
    let '(errCode, st) := DeleteMetaData (md_store m) keys in (errCode, set_store m st)
  else (- E_INVALID_DB, m).

Definition md_DeleteMetaDataByPrefixKey m (keyPrefix : Key) : Z * Metadata St :=
  if naturalStoragePtr_ m then
    let '(errCode, st) := DeleteMetaDataByPrefixKey (md_store m) keyPrefix in (errCode, set_store m st)
  else (- E_INVALID_DB, m).

Definition GetAllMetadataKey m : Z * list Key :=
  if naturalStoragePtr_ m then GetAllMetaKeys (md_store m) else (- E_INVALID_DB, []).

(** The object representation of a [MetaDataValue]: six words of 8 bytes. *)
Definition sizeof_MetaDataValue : Z := 48.

Definition SerializeMetaData (v : MetaDataValue) : list byte :=
  store_int 8 (timeOffset v) ++ store_int 8 (lastUpdateTime v) ++ store_int 8 (localWaterMark v)
  ++ store_int 8 (peerWaterMark v) ++ store_int 8 (dbCreateTime v)
  ++ store_int 8 (clearDeviceDataMark v).

Definition load_metadata (bs : list byte) : MetaDataValue :=
  let word i := load_int (slice (8 * i) 8 bs) in
  mkMetaDataValue (to_signed 64 (word 0)) (word 1) (word 2) (word 3) (word 4) (word 5).

(** [memcpy_s] over [outValue], which a shorter value fills in part. *)
Definition DeSerializeMetaData (inValue : Value) (outValue : MetaDataValue) : Z * MetaDataValue :=
  match inValue with
  | [] => (- E_INVALID_ARGS, outValue)
  | _ => match memcpy_s (SerializeMetaData outValue) 0 sizeof_MetaDataValue inValue with
         | None => (- E_SECUREC_ERROR, outValue)
         | Some bs => (E_OK, load_metadata bs)
         end
  end.

Definition PutMetadataToMap m (deviceId : DeviceID) (value : MetaDataValue) : Metadata St :=
  set_metadata_map m (<[deviceId := value]> (metadataMap_ m)).

(** [operator[]] inserts an empty value. *)
Definition GetMetadataFromMap m (deviceId : DeviceID) : MetaDataValue * Metadata St :=
  match metadataMap_ m !! deviceId with
  | Some v => (v, m)
  | None => (emptyMetaDataValue, PutMetadataToMap m deviceId emptyMetaDataValue)
  end.

Definition StringToLong (value : Value) : Z := strtoll value.

Definition GetHashDeviceId m (deviceId : DeviceID) (isNeedHash : bool) : DeviceID * Metadata St :=
  if negb isNeedHash then (deviceId, m)
  else match deviceIdToHashDeviceIdMap_ m !! deviceId with
       | None => let hash := DEVICEID_PREFIX_KEY ++ TransferHashString deviceId in
                 (hash, set_hash_ids m (<[deviceId := hash]> (deviceIdToHashDeviceIdMap_ m)))
       | Some hash => (hash, m)
       end.

Definition SaveMetaDataValue m (deviceId : DeviceID) (inValue : MetaDataValue) : Z * Metadata St :=
  let value := SerializeMetaData inValue in
  let '(hashDeviceId, m) := GetHashDeviceId m deviceId true in
  let '(errCode, m) := SetMetadataToDb m hashDeviceId value in
  if negb (errCode =? E_OK) then (errCode, m)
  else (E_OK, PutMetadataToMap m hashDeviceId inValue).

Definition GetMetaDataValue m (deviceId : DeviceID) (isNeedHash : bool) : MetaDataValue * Metadata St :=
  let '(hashDeviceId, m) := GetHashDeviceId m deviceId isNeedHash in
  GetMetadataFromMap m hashDeviceId.

(** * Operations *)

Definition SaveTimeOffset m (deviceId : DeviceID) (inValue : Z) (c : SysClock) (now : option Z)
    : Z * (Metadata St * SysClock) :=
  let '(metadata, m) := GetMetaDataValue m deviceId true in
  let '(time, c) := GetSysCurrentTime c now in
  let '(errCode, m) := SaveMetaDataValue m deviceId (set_timeOffset metadata inValue time) in
  (errCode, (m, c)).

Definition GetTimeOffset m (deviceId : DeviceID) : Z * Metadata St :=
  let '(metadata, m) := GetMetaDataValue m deviceId true in (timeOffset metadata, m).

Definition GetLocalWaterMark m (deviceId : DeviceID) : Z * Metadata St :=
  let '(metadata, m) := GetMetaDataValue m deviceId true in (localWaterMark metadata, m).

Definition SaveLocalWaterMark m (deviceId : DeviceID) (inValue : Z) : Z * Metadata St :=
  let '(metadata, m) := GetMetaDataValue m deviceId true in
  SaveMetaDataValue m deviceId (set_localWaterMark metadata inValue).

Definition GetPeerWaterMark m (deviceId : DeviceID) : Z * Metadata St :=
  let '(metadata, m) := GetMetaDataValue m deviceId true in (peerWaterMark metadata, m).

Definition SavePeerWaterMark m (deviceId : DeviceID) (inValue : Z) (isNeedHash : bool) : Z * Metadata St :=
  let '(metadata, m) := GetMetaDataValue m deviceId isNeedHash in
  SaveMetaDataValue m deviceId (set_peerWaterMark metadata inValue).

Definition SaveLocalTimeOffset m (offset : Z) : Z * Metadata St :=
  let m := mkMetadata offset (naturalStoragePtr_ m) (metadataMap_ m) (deviceIdToHashDeviceIdMap_ m)
             (lastLocalTime_ m) (querySyncWaterMarkHelper_ m) (queryIdMap_ m) (md_store m) in
  SetMetadataToDb m LOCALTIME_OFFSET_KEY (to_string_signed offset).

Definition GetLocalTimeOffset m : Z := localTimeOffset_ m.

Definition SetLastLocalTime m (lastLocalTime : Z) : Metadata St :=
  if lastLocalTime_ m <? lastLocalTime then
    mkMetadata (localTimeOffset_ m) (naturalStoragePtr_ m) (metadataMap_ m) (deviceIdToHashDeviceIdMap_ m)
      lastLocalTime (querySyncWaterMarkHelper_ m) (queryIdMap_ m) (md_store m)
  else m.

Definition GetLastLocalTime m : Z := lastLocalTime_ m.

Definition GetDbCreateTime m (deviceId : DeviceID) : Z * Metadata St :=
  let '(hashDeviceId, m) := GetHashDeviceId m deviceId true in
  match metadataMap_ m !! hashDeviceId with
  | Some metadata => (dbCreateTime metadata, m)
  | None => (0, m)
  end.

Definition SetDbCreateTime m (deviceId : DeviceID) (inValue : Z) (isNeedHash : bool) : Z * Metadata St :=
  let '(hashDeviceId, m) := GetHashDeviceId m deviceId isNeedHash in
  let metadata := match metadataMap_ m !! hashDeviceId with
                  | Some v => if negb (dbCreateTime v =? 0) && negb (dbCreateTime v =? inValue)
                              then set_create v (dbCreateTime v) REMOVE_DEVICE_DATA_MARK else v
                  | None => emptyMetaDataValue
                  end in
  SaveMetaDataValue m deviceId (set_create metadata inValue (clearDeviceDataMark metadata)).

Definition ResetMetaDataAfterRemoveData m (deviceId : DeviceID) : Z * Metadata St :=
  let '(hashDeviceId, m) := GetHashDeviceId m deviceId true in
  match metadataMap_ m !! hashDeviceId with
  | Some metadata => SaveMetaDataValue m deviceId (set_create metadata (dbCreateTime metadata) 0)
  | None => (- E_NOT_FOUND, m)
  end.

Definition GetRemoveDataMark m (deviceId : DeviceID) : Z * Metadata St :=
  let '(hashDeviceId, m) := GetHashDeviceId m deviceId true in
  match metadataMap_ m !! hashDeviceId with
  | Some metadata => (clearDeviceDataMark metadata, m)
  | None => (0, m)
  end.

(** * Query and delete water marks *)

Definition with_helper {A} m (r : option (A * (QuerySyncWaterMarkHelper * St)))
    : option (A * Metadata St) :=
  '(a, (h, st)) ← r; Some (a, set_helper m h st).

Definition md_SetRecvQueryWaterMark m (queryIdentify deviceId : list byte) (waterMark : Z)
    (now now' : option Z) : option (Z * Metadata St) :=
  with_helper m (SetRecvQueryWaterMark (querySyncWaterMarkHelper_ m) (md_store m) queryIdentify deviceId
    waterMark now now').

Definition md_SetSendQueryWaterMark m (queryIdentify deviceId : list byte) (waterMark : Z)
    (now now' : option Z) : option (Z * Metadata St) :=
  with_helper m (SetSendQueryWaterMark (querySyncWaterMarkHelper_ m) (md_store m) queryIdentify deviceId
    waterMark now now').

Definition md_SetLastQueryTime m (queryIdentify deviceId : list byte) (timestamp : Z)
    (now now' : option Z) : option (Z * Metadata St) :=
  with_helper m (SetLastQueryTime (querySyncWaterMarkHelper_ m) (md_store m) queryIdentify deviceId
    timestamp now now').

Definition read_mark m (queryIdentify deviceId : list byte) (now : option Z)
    : option ((Z * QueryWaterMark) * Metadata St) :=
  with_helper m (GetQueryWaterMark (querySyncWaterMarkHelper_ m) (md_store m) queryIdentify deviceId now).

(** The marks are at least the marks of the whole device. *)
Definition GetRecvQueryWaterMark m (queryIdentify deviceId : list byte) (waterMark : Z) (now : option Z)
    : option ((Z * Z) * Metadata St) :=
  '((errCode, q), m) ← read_mark m queryIdentify deviceId now;
  if negb (errCode =? E_OK) then Some ((errCode, waterMark), m)
  else let '(peer, m) := GetPeerWaterMark m deviceId in
       Some ((E_OK, Z.max (qw_recvWaterMark q) peer), m).

Definition GetSendQueryWaterMark m (queryIdentify deviceId : list byte) (waterMark : Z)
    (isAutoLift : bool) (now : option Z) : option ((Z * Z) * Metadata St) :=
  '((errCode, q), m) ← read_mark m queryIdentify deviceId now;
  if negb (errCode =? E_OK) then Some ((errCode, waterMark), m)
  else if isAutoLift then
    let '(local, m) := GetLocalWaterMark m deviceId in
    Some ((E_OK, Z.max (qw_sendWaterMark q) local), m)
  else Some ((E_OK, qw_sendWaterMark q), m).

Definition GetLastQueryTime m (queryIdentify deviceId : list byte) (timestamp : Z) (now : option Z)
    : option ((Z * Z) * Metadata St) :=
  '((errCode, q), m) ← read_mark m queryIdentify deviceId now;
  if negb (errCode =? E_OK) then Some ((errCode, timestamp), m)
  else Some ((E_OK, qw_lastQueryTime q), m).

Definition read_delete_mark m (deviceId : DeviceID) : option ((Z * DeleteWaterMark) * Metadata St) :=
  '(r, h) ← GetDeleteSyncWaterMark (querySyncWaterMarkHelper_ m) (md_store m) deviceId
              emptyDeleteWaterMark;
  Some (r, set_helper m h (md_store m)).

Definition GetSendDeleteSyncWaterMark m (deviceId : DeviceID) (waterMark : Z) (isAutoLift : bool)
    : option ((Z * Z) * Metadata St) :=
  '((errCode, d), m) ← read_delete_mark m deviceId;
  if negb (errCode =? E_OK) then Some ((errCode, waterMark), m)
  else if isAutoLift then
    let '(local, m) := GetLocalWaterMark m deviceId in
    Some ((E_OK, Z.max (dw_sendWaterMark d) local), m)
  else Some ((E_OK, dw_sendWaterMark d), m).

Definition GetRecvDeleteSyncWaterMark m (deviceId : DeviceID) (waterMark : Z)
    : option ((Z * Z) * Metadata St) :=
  '((errCode, d), m) ← read_delete_mark m deviceId;
  if negb (errCode =? E_OK) then Some ((errCode, waterMark), m)
  else let '(peer, m) := GetPeerWaterMark m deviceId in
       Some ((E_OK, Z.max (dw_recvWaterMark d) peer), m).

Definition md_SetSendDeleteSyncWaterMark m (deviceId : DeviceID) (waterMark : Z)
    : option (Z * Metadata St) :=
  with_helper m (SetSendDeleteSyncWaterMark (querySyncWaterMarkHelper_ m) (md_store m) deviceId waterMark).

Definition md_SetRecvDeleteSyncWaterMark m (deviceId : DeviceID) (waterMark : Z)
    : option (Z * Metadata St) :=
  with_helper m (SetRecvDeleteSyncWaterMark (querySyncWaterMarkHelper_ m) (md_store m) deviceId waterMark).

Definition md_ResetRecvQueryWaterMark m (deviceId : DeviceID) (tableName : list byte)
    : option (Z * Metadata St) :=
  with_helper m (ResetRecvQueryWaterMark (querySyncWaterMarkHelper_ m) (md_store m) deviceId tableName).

Definition EraseDeviceWaterMark m (deviceId : DeviceID) (isNeedHash : bool) (tableName : list byte)
    : option (Z * Metadata St) :=
  '(errCodeDeleteSync, m) ← md_SetRecvDeleteSyncWaterMark m deviceId 0;
  '(errCodeQuerySync, m) ← md_ResetRecvQueryWaterMark m deviceId tableName;
  let '(errCode, m) := SavePeerWaterMark m deviceId 0 isNeedHash in
  if negb (errCode =? E_OK) then Some (errCode, m)
  else if negb (errCodeQuerySync =? E_OK) then Some (errCodeQuerySync, m)
  else if negb (errCodeDeleteSync =? E_OK) then Some (errCodeDeleteSync, m)
  else Some (E_OK, m).

(** * Subscribed queries *)

Definition hash_query (queryId : list byte) : list byte :=
  SUBSCRIBE_QUERY_PREFIX ++ TransferHashString queryId.

Definition GetQueryLastTimestamp m (deviceId : DeviceID) (queryId : list byte) : Z * Metadata St :=
  let hashqueryId := hash_query queryId in
  let '(errCode, value) := GetMetadataFromDb m hashqueryId in
  if errCode =? - E_NOT_FOUND then
    match queryIdMap_ m !! deviceId with
    | Some ids =>
      if decide (hashqueryId ∈ ids) then (0, m)
      else (INT64_MAX, set_query_ids m (<[deviceId := {[hashqueryId]} ∪ ids]> (queryIdMap_ m)))
    | None => (INT64_MAX, set_query_ids m (<[deviceId := {[hashqueryId]}]> (queryIdMap_ m)))
    end
  else
    let m := match queryIdMap_ m !! deviceId with
             | Some ids => if errCode =? E_OK
                           then set_query_ids m (<[deviceId := ids ∖ {[hashqueryId]}]> (queryIdMap_ m))
                           else m
             | None => m
             end in
    (u64 (StringToLong value), m).

Definition RemoveQueryFromRecordSet m (deviceId : DeviceID) (queryId : list byte) : Metadata St :=
  match queryIdMap_ m !! deviceId with
  | Some ids => set_query_ids m (<[deviceId := ids ∖ {[hash_query queryId]}]> (queryIdMap_ m))
  | None => m
  end.

(** * Initialization *)

Definition LoadDeviceIdDataToMap m (key : Key) : Z * Metadata St :=
  let '(errCode, value) := GetMetadataFromDb m key in
  if negb (errCode =? E_OK) then (errCode, m)
  else
    let '(errCode, metaValue) := DeSerializeMetaData value emptyMetaDataValue in
    if negb (errCode =? E_OK) then (errCode, m)
    else (errCode, PutMetadataToMap m key metaValue).

Definition IsMetaDataKey (inKey : Key) (expectPrefix : list byte) : bool :=
  if zlen inKey <? zlen expectPrefix then false else has_prefix expectPrefix inKey.

(** The loop of [LoadAllMetadata]; the keys of query marks are collected. *)
Fixpoint load_keys m (metaDataKeys : list Key) (querySyncIds : list Key)
    : option ((Z * list Key) * Metadata St) :=
  match metaDataKeys with
  | [] => Some ((E_OK, querySyncIds), m)
  | key :: keys =>
    if IsMetaDataKey key DEVICEID_PREFIX_KEY then
      let '(errCode, m) := LoadDeviceIdDataToMap m key in
      if negb (errCode =? E_OK) then Some ((errCode, querySyncIds), m)
      else load_keys m keys querySyncIds
    else if IsMetaDataKey key QUERY_SYNC_PREFIX_KEY then load_keys m keys (querySyncIds ++ [key])
    else if IsMetaDataKey key DELETE_SYNC_PREFIX_KEY then
      '(errCode, h) ← LoadDeleteSyncDataToCache (querySyncWaterMarkHelper_ m) (md_store m) key;
      let m := set_helper m h (md_store m) in
      if negb (errCode =? E_OK) then Some ((errCode, querySyncIds), m)
      else load_keys m keys querySyncIds
    else load_keys m keys querySyncIds
  end.

Definition LoadAllMetadata m : option (Z * Metadata St) :=
  let '(errCode, metaDataKeys) := GetAllMetadataKey m in
  if negb (errCode =? E_OK) then Some (errCode, m)
  else
    '((errCode, querySyncIds), m) ← load_keys m metaDataKeys [];
    if negb (errCode =? E_OK) then Some (errCode, m)
    else
      '(errCode, st) ← RemoveLeastUsedQuerySyncItems (querySyncWaterMarkHelper_ m) (md_store m)
                         querySyncIds;
      Some (errCode, set_store m st).

Definition md_Initialize m : option (Z * Metadata St) :=
  let m := mkMetadata (localTimeOffset_ m) true (metadataMap_ m) (deviceIdToHashDeviceIdMap_ m)
             (lastLocalTime_ m) (querySyncWaterMarkHelper_ m) (queryIdMap_ m) (md_store m) in
  let '(errCode, offset) := GetMetadataFromDb m LOCALTIME_OFFSET_KEY in
  let '(errCode, m) :=
    if errCode =? - E_NOT_FOUND then SaveLocalTimeOffset m BASE_OFFSET
    else if errCode =? E_OK then
      (E_OK, mkMetadata (StringToLong offset) (naturalStoragePtr_ m) (metadataMap_ m)
               (deviceIdToHashDeviceIdMap_ m) (lastLocalTime_ m) (querySyncWaterMarkHelper_ m)
               (queryIdMap_ m) (md_store m))
    else (errCode, m) in
  if negb (errCode =? E_OK) then Some (errCode, m)
  else
    let m := set_metadata_map m ∅ in
    LoadAllMetadata (set_helper m (helper_Initialize (querySyncWaterMarkHelper_ m)) (md_store m)).

End Meta.
