(* ===== verification/MetaDataFacts.v ===== *)
(** What [Metadata] answers is what the storage holds, whatever calls were made and
    whichever of its writes failed: a restart loses nothing that was saved. *)

From S2P Require Import Prelude Memory CommTypes Numerals Parcel ParcelFacts SyncStorage WaterMark.
From S2P Require Import WaterMarkFacts WaterMarkCache MetaData.
From Stdlib Require Import ZArith Lia.
From Stdlib Require Import Strings.Byte.
From stdpp Require Import base numbers list gmap.

Open Scope Z_scope.

(** * The serialized value of a device *)

Record value_ok (v : MetaDataValue) : Prop := {
  vo_offset : INT64_MIN <= timeOffset v <= INT64_MAX;
  vo_update : 0 <= lastUpdateTime v < 2 ^ 64;
  vo_local : 0 <= localWaterMark v < 2 ^ 64;
  vo_peer : 0 <= peerWaterMark v < 2 ^ 64;
  vo_create : 0 <= dbCreateTime v < 2 ^ 64;
  vo_mark : 0 <= clearDeviceDataMark v < 2 ^ 64
}.

Section Codec.
Context `{Host}.

Lemma zlen_store_int n v : zlen (store_int n v) = Z.of_nat n.
Proof. unfold zlen. by rewrite length_store_int. Qed.

(** Word [i] of a list of words. *)
Lemma slice_words ws : forall i w, ws !! i = Some w ->
  slice (8 * Z.of_nat i) 8 (concat (store_int 8 <$> ws)) = store_int 8 w.
Proof.
  induction ws as [|w' ws IH]; intros [|i] w E; try discriminate; cbn [fmap list_fmap concat].
  - injection E as ->. rewrite slice_app_l by (rewrite ?zlen_store_int; lia).
    pose proof (slice_all (store_int 8 w)) as Hs. rewrite zlen_store_int in Hs. exact Hs.
  - rewrite slice_app_r by (rewrite zlen_store_int; lia). rewrite zlen_store_int.
    replace (8 * Z.of_nat (S i) - Z.of_nat 8) with (8 * Z.of_nat i) by lia. by apply IH.
Qed.

Lemma load_serialize v : value_ok v -> load_metadata (SerializeMetaData v) = v.
Proof.
  intros []. unfold load_metadata.
  set (ws := [timeOffset v; lastUpdateTime v; localWaterMark v; peerWaterMark v; dbCreateTime v;
              clearDeviceDataMark v]).
  replace (SerializeMetaData v) with (concat (store_int 8 <$> ws))
    by (unfold SerializeMetaData, ws; cbn [fmap list_fmap concat]; by rewrite app_nil_r).
  change (8 * 0) with (8 * Z.of_nat 0). change (8 * 1) with (8 * Z.of_nat 1).
  change (8 * 2) with (8 * Z.of_nat 2). change (8 * 3) with (8 * Z.of_nat 3).
  change (8 * 4) with (8 * Z.of_nat 4). change (8 * 5) with (8 * Z.of_nat 5).
  rewrite (slice_words ws 0 _ eq_refl), (slice_words ws 1 _ eq_refl), (slice_words ws 2 _ eq_refl),
    (slice_words ws 3 _ eq_refl), (slice_words ws 4 _ eq_refl), (slice_words ws 5 _ eq_refl), !load_store.
  unfold INT64_MIN, INT64_MAX in *. rewrite to_signed_mod by (change (2 ^ (64 - 1)) with 9223372036854775808; lia).
  rewrite !Z.mod_small by (change (256 ^ Z.of_nat 8) with (2 ^ 64); lia). by destruct v.
Qed.

Lemma zlen_serialize v : zlen (SerializeMetaData v) = sizeof_MetaDataValue.
Proof. unfold SerializeMetaData. rewrite !zlen_app, !zlen_store_int. reflexivity. Qed.

(** A value of full size is read back, whatever it is read over. *)
Lemma deserialize_full bs x : zlen bs = sizeof_MetaDataValue ->
  DeSerializeMetaData bs x = (E_OK, load_metadata bs).
Proof.
  intros Hz. unfold DeSerializeMetaData. destruct bs as [|b bs]; [discriminate |].
  rewrite memcpy_s_ok by (rewrite ?Hz; done). rewrite splice_head by (by rewrite Hz, zlen_serialize).
  rewrite Hz, zlen_serialize. change (sizeof_MetaDataValue - sizeof_MetaDataValue) with 0.
  by rewrite slice_nil_len, app_nil_r.
Qed.

End Codec.

(** * The calls *)

Inductive MetaOp :=
  | MSaveTimeOffset (d : DeviceID) (offset : Z) (now : option Z)
  | MGetTimeOffset (d : DeviceID)
  | MSaveLocalWaterMark (d : DeviceID) (w : Z)
  | MGetLocalWaterMark (d : DeviceID)
  | MSavePeerWaterMark (d : DeviceID) (w : Z)
  | MGetPeerWaterMark (d : DeviceID)
  | MSaveLocalTimeOffset (offset : Z)
  | MSetLastLocalTime (t : Z)
  | MGetDbCreateTime (d : DeviceID)
  | MSetDbCreateTime (d : DeviceID) (t : Z)
  | MResetAfterRemoveData (d : DeviceID)
  | MGetRemoveDataMark (d : DeviceID)
  | MSetRecvQuery (q d : list byte) (w : Z) (now now' : option Z)
  | MSetSendQuery (q d : list byte) (w : Z) (now now' : option Z)
  | MSetLastQueryTime (q d : list byte) (t : Z) (now now' : option Z)
  | MGetRecvQuery (q d : list byte) (now : option Z)
  | MGetSendQuery (q d : list byte) (isAutoLift : bool) (now : option Z)
  | MGetLastQueryTime (q d : list byte) (now : option Z)
  | MSetSendDelete (d : DeviceID) (w : Z)
  | MSetRecvDelete (d : DeviceID) (w : Z)
  | MGetSendDelete (d : DeviceID) (isAutoLift : bool)
  | MGetRecvDelete (d : DeviceID)
  | MResetRecvQuery (d : DeviceID) (tableName : list byte)
  | MEraseDeviceWaterMark (d : DeviceID) (tableName : list byte)
  | MGetQueryLastTimestamp (d : DeviceID) (q : list byte)
  | MRemoveQueryFromRecordSet (d : DeviceID) (q : list byte).

Section Answers.
Context `{Host} `{DeviceHash} {St : Type} `{StorageLaws St}.
Implicit Types (m : Metadata St) (st : St).

(** A call with its answer: the status, the value, or both. *)
Definition meta_step (s : Metadata St * SysClock) (op : MetaOp)
    : option (list Z * (Metadata St * SysClock)) :=
  let '(m, c) := s in
  let plain (r : Z * Metadata St) := Some ([r.1], (r.2, c)) in
  let status (r : option (Z * Metadata St)) := '(e, m) ← r; Some ([e], (m, c)) in
  let both (r : option ((Z * Z) * Metadata St)) := '((e, v), m) ← r; Some ([e; v], (m, c)) in
  match op with
  | MSaveTimeOffset d v now => let '(e, s) := SaveTimeOffset m d v c now in Some ([e], s)
  | MGetTimeOffset d => plain (GetTimeOffset m d)
  | MSaveLocalWaterMark d w => plain (SaveLocalWaterMark m d w)
  | MGetLocalWaterMark d => plain (GetLocalWaterMark m d)
  | MSavePeerWaterMark d w => plain (SavePeerWaterMark m d w true)
  | MGetPeerWaterMark d => plain (GetPeerWaterMark m d)
  | MSaveLocalTimeOffset o => plain (SaveLocalTimeOffset m o)
  | MSetLastLocalTime t => plain (E_OK, SetLastLocalTime m t)
  | MGetDbCreateTime d => plain (GetDbCreateTime m d)
  | MSetDbCreateTime d t => plain (SetDbCreateTime m d t true)
  | MResetAfterRemoveData d => plain (ResetMetaDataAfterRemoveData m d)
  | MGetRemoveDataMark d => plain (GetRemoveDataMark m d)
  | MSetRecvQuery q d w now now' => status (md_SetRecvQueryWaterMark m q d w now now')
  | MSetSendQuery q d w now now' => status (md_SetSendQueryWaterMark m q d w now now')
  | MSetLastQueryTime q d t now now' => status (md_SetLastQueryTime m q d t now now')
  | MGetRecvQuery q d now => both (GetRecvQueryWaterMark m q d 0 now)
  | MGetSendQuery q d lift now => both (GetSendQueryWaterMark m q d 0 lift now)
  | MGetLastQueryTime q d now => both (GetLastQueryTime m q d 0 now)
  | MSetSendDelete d w => status (md_SetSendDeleteSyncWaterMark m d w)
  | MSetRecvDelete d w => status (md_SetRecvDeleteSyncWaterMark m d w)
  | MGetSendDelete d lift => both (GetSendDeleteSyncWaterMark m d 0 lift)
  | MGetRecvDelete d => both (GetRecvDeleteSyncWaterMark m d 0)
  | MResetRecvQuery d table => status (md_ResetRecvQueryWaterMark m d table)
  | MEraseDeviceWaterMark d table => status (EraseDeviceWaterMark m d true table)
  | MGetQueryLastTimestamp d q => plain (GetQueryLastTimestamp m d q)
  | MRemoveQueryFromRecordSet d q => plain (E_OK, RemoveQueryFromRecordSet m d q)
  end.

Fixpoint meta_run (s : Metadata St * SysClock) (ops : list MetaOp)
    : option (list (list Z) * (Metadata St * SysClock)) :=
  match ops with
  | [] => Some ([], s)
  | op :: ops => '(a, s) ← meta_step s op; '(answers, s) ← meta_run s ops; Some (a :: answers, s)
  end.

(** The local offset of the last call to save it that succeeded, first [o]. *)
Fixpoint saved_offset (o : Z) (ops : list MetaOp) (answers : list (list Z)) : Z :=
  match ops, answers with
  | MSaveLocalTimeOffset v :: ops, [e] :: answers =>
      saved_offset (if e =? E_OK then v else o) ops answers
  | _ :: ops, _ :: answers => saved_offset o ops answers
  | _, _ => o
  end.

Definition meta_op_ok (op : MetaOp) : Prop :=
  match op with
  | MSaveTimeOffset _ o _ | MSaveLocalTimeOffset o => INT64_MIN <= o <= INT64_MAX
  | MSaveLocalWaterMark _ w | MSavePeerWaterMark _ w | MSetDbCreateTime _ w
  | MSetSendDelete _ w | MSetRecvDelete _ w => u64_ok w
  | MSetRecvQuery _ _ w now now' | MSetSendQuery _ _ w now now' | MSetLastQueryTime _ _ w now now' =>
      u64_ok w /\ time_ok now /\ time_ok now'
  | MGetRecvQuery _ _ now | MGetSendQuery _ _ _ now | MGetLastQueryTime _ _ now => time_ok now
  | _ => True
  end.

(** * What the storage holds *)

Definition is_device_key (k : Key) : Prop := has_prefix DEVICEID_PREFIX_KEY k = true.
Definition device_key (d : DeviceID) : Key := DEVICEID_PREFIX_KEY ++ TransferHashString d.

Record store_ok st : Prop := {
  so_marks : marks_ok st;
  so_delete : forall k v, is_delete_key k -> contents st !! k = Some v ->
    exists d, delete_ok d /\ forall x, DeSerializeDeleteWaterMark v x = Some (E_OK, d);
  so_device : forall k v, is_device_key k -> contents st !! k = Some v -> zlen v = sizeof_MetaDataValue
}.

(** The stored value of a device. *)
Definition stored st (k : Key) : MetaDataValue :=
  match contents st !! k with Some v => load_metadata v | None => emptyMetaDataValue end.

(** The stored local offset is [o]. *)
Definition stored_offset st (o : Z) : Prop :=
  INT64_MIN <= o <= INT64_MAX /\ contents st !! LOCALTIME_OFFSET_KEY = Some (to_string_signed o).

(** Memory and storage agree. *)
Record meta_inv (o : Z) m : Prop := {
  mi_storage : naturalStoragePtr_ m = true;
  mi_helper : cached (querySyncWaterMarkHelper_ m) (md_store m);
  mi_store : store_ok (md_store m);
  mi_map : forall k, is_device_key k -> default emptyMetaDataValue (metadataMap_ m !! k) = stored (md_store m) k;
  mi_ids : forall d hash, deviceIdToHashDeviceIdMap_ m !! d = Some hash -> hash = device_key d;
  mi_offset : stored_offset (md_store m) o
}.

Lemma device_not_mark k : is_device_key k -> ~ is_query_key k /\ ~ is_delete_key k.
Proof.
  unfold is_device_key, is_query_key, is_delete_key, has_prefix. rewrite !bool_decide_eq_true.
  destruct k as [|b [|b' [|b'' k]]]; try done. cbn. intros [= -> -> -> _]. split; intros [=].
Qed.

Lemma load_value_ok bs : zlen bs = sizeof_MetaDataValue -> value_ok (load_metadata bs).
Proof.
  intros Hz. assert (Hw : forall i, 0 <= load_int (slice (8 * i) 8 bs) < 2 ^ 64).
  { intros i. pose proof (load_int_range (slice (8 * i) 8 bs)) as Hr.
    assert (Hl : Z.of_nat (length (slice (8 * i) 8 bs)) <= 8)
      by (unfold slice; rewrite length_take; lia).
    pose proof (Z.pow_le_mono_r 256 _ 8 ltac:(lia) Hl). change (2 ^ 64) with (256 ^ 8). lia. }
  split; cbn [load_metadata timeOffset lastUpdateTime localWaterMark peerWaterMark dbCreateTime
    clearDeviceDataMark]; try apply Hw.
  specialize (Hw 0). revert Hw. generalize (load_int (slice (8 * 0) 8 bs)). intros z Hz'.
  unfold to_signed, INT64_MIN, INT64_MAX. change (2 ^ (64 - 1)) with 9223372036854775808.
  change (2 ^ 64) with 18446744073709551616 in *. rewrite Z.mod_small by lia.
  destruct (Z.ltb_spec z 9223372036854775808); lia.
Qed.

Lemma stored_value_ok st k : store_ok st -> is_device_key k -> value_ok (stored st k).
Proof.
  intros Hst Hk. unfold stored. destruct (contents st !! k) as [v|] eqn:E; [| done].
  apply load_value_ok. by eapply so_device.
Qed.

(** * Reading *)

Lemma hash_id o m d : meta_inv o m ->
  exists m', GetHashDeviceId m d true = (device_key d, m') /\ meta_inv o m'
    /\ md_store m' = md_store m /\ metadataMap_ m' = metadataMap_ m.
Proof.
  intros Hm. unfold GetHashDeviceId. cbn [negb].
  destruct (deviceIdToHashDeviceIdMap_ m !! d) as [hash|] eqn:E.
  - rewrite (mi_ids _ _ Hm d hash E). by exists m.
  - eexists. split; [done |]. split; [| done]. destruct Hm. split; try done.
    cbn [set_hash_ids deviceIdToHashDeviceIdMap_]. intros d' hash'. rewrite lookup_insert_Some.
    intros [[<- <-] | [_ ?]]; [done | auto].
Qed.

Lemma is_device_device_key d : is_device_key (device_key d).
Proof. done. Qed.

Lemma get_value o m d : meta_inv o m ->
  exists m', GetMetaDataValue m d true = (stored (md_store m) (device_key d), m') /\ meta_inv o m'
    /\ md_store m' = md_store m.
Proof.
  intros Hm. unfold GetMetaDataValue. destruct (hash_id o m d Hm) as (m1 & -> & Hm1 & Es & Em).
  unfold GetMetadataFromMap. pose proof (mi_map _ _ Hm1 (device_key d) (is_device_device_key d)) as Hv.
  rewrite <- Es. destruct (metadataMap_ m1 !! device_key d) as [v|] eqn:E; cbn [from_option id] in Hv; rewrite <- Hv.
  - by exists m1.
  - eexists. split; [done |]. split; [| done]. destruct Hm1 as [Hs Hh Hst Hmap Hids Ho]. split; try done.
    unfold PutMetadataToMap, set_metadata_map. cbn [metadataMap_ md_store]. intros k Hk.
    destruct (decide (k = device_key d)) as [-> | Hne].
    + rewrite lookup_insert_eq. exact Hv.
    + rewrite lookup_insert_ne by done. by apply Hmap.
Qed.

(** * Writing *)

(** What stays when the storage changes in other places. *)
Lemma store_ok_put_device st st' k v : store_ok st -> is_device_key k -> value_ok v ->
  contents st' = <[k := SerializeMetaData v]> (contents st) -> store_ok st'.
Proof.
  intros [[Hq Hd] Hdel Hdev] Hk Hv E. destruct (device_not_mark k Hk) as [Hnq Hnd].
  split; [split | |]; intros k' v' Hk'; rewrite E; rewrite ?lookup_insert_ne by congruence; eauto.
  rewrite lookup_insert_Some. intros [[_ <-] | [_ ?]]; [apply zlen_serialize | eauto].
Qed.

Lemma put_value o m k v e m' : meta_inv o m -> is_device_key k -> value_ok v ->
  SetMetadataToDb m k (SerializeMetaData v) = (e, m') ->
  if e =? E_OK then meta_inv o (PutMetadataToMap m' k v) else meta_inv o m'.
Proof.
  intros [Hs Hh Hst Hmap Hids [Hr Ho]] Hk Hv E. unfold SetMetadataToDb in E. rewrite Hs in E.
  destruct (PutMetaData (md_store m) k (SerializeMetaData v)) as [e' st'] eqn:Ep. injection E as <- <-.
  pose proof (put_spec _ _ _ _ _ Ep) as Hp. destruct (device_not_mark k Hk) as [Hnq Hnd].
  assert (Hoth : forall k', k' <> k -> contents st' !! k' = contents (md_store m) !! k').
  { intros k' Hne. rewrite Hp. destruct (_ =? _); [by apply lookup_insert_ne | done]. }
  assert (Hh' : cached (querySyncWaterMarkHelper_ m) st').
  { destruct Hh as [H1' H2' Hq Hi Hd Hdi]. split; try done.
    - intros k' q Hin. destruct (Hq k' q Hin) as (Hk' & Hc & Hex). rewrite Hoth by congruence. done.
    - intros k' d Hin. destruct (Hd k' d Hin) as (Hk' & Hc & Hex). rewrite Hoth by congruence. done. }
  destruct (Z.eqb_spec e' E_OK) as [-> | He]; (split; try done).
  - eapply store_ok_put_device; eauto.
  - unfold PutMetadataToMap, set_metadata_map, set_store. cbn [metadataMap_ md_store]. intros k' Hk'. unfold stored. rewrite Hp.
    destruct (decide (k' = k)) as [-> | Hne].
    + rewrite !lookup_insert_eq. cbn. by rewrite load_serialize.
    + rewrite !lookup_insert_ne by done. by apply Hmap.
  - split; [done |]. unfold PutMetadataToMap, set_metadata_map, set_store. cbn [md_store]. rewrite Hoth; [done |]. by intros <-.
  - destruct Hst as [Hmk Hdel Hdev]. split; [by eapply marks_ok_same | |]; cbn [set_store md_store]; by rewrite Hp.
  - cbn [set_store metadataMap_ md_store]. intros k' Hk'. unfold stored. rewrite Hp. by apply Hmap.
  - split; [done |]. cbn [set_store md_store]. by rewrite Hp.
Qed.

Lemma save_value o m d v : meta_inv o m -> value_ok v ->
  exists e m', SaveMetaDataValue m d v = (e, m') /\ meta_inv o m'.
Proof.
  intros Hm Hv. unfold SaveMetaDataValue. destruct (hash_id o m d Hm) as (m1 & -> & Hm1 & _ & _).
  destruct (SetMetadataToDb m1 (device_key d) (SerializeMetaData v)) as [e m2] eqn:E.
  pose proof (put_value o m1 (device_key d) v e m2 Hm1 (is_device_device_key d) Hv E) as Hp.
  destruct (e =? E_OK); cbn [negb]; eauto.
Qed.

(** * The water marks of queries and deletes *)

(** The values under the keys that satisfy [P] are the same. *)
Definition same_on (P : Key -> Prop) st st' : Prop :=
  forall k, P k -> contents st' !! k = contents st !! k.

Lemma ref_save_frame st k q e st' : is_query_key k -> ref_save st k q = Some (e, st') ->
  same_on (fun k => ~ is_query_key k) st st'.
Proof.
  intros Hk E k' Hk'. unfold ref_save in E. apply bind_Some in E as ([e0 v] & _ & E).
  destruct (e0 =? E_OK); [| by injection E as _ <-].
  injection E as E. pose proof (put_spec _ _ _ _ _ E) as Hp. rewrite Hp.
  destruct (e =? E_OK); [| done]. apply lookup_insert_ne. congruence.
Qed.

Lemma ref_get_frame st k now r st' : is_query_key k -> ref_get st k now = Some (r, st') ->
  same_on (fun k => ~ is_query_key k) st st'.
Proof.
  intros Hk E. unfold ref_get in E. destruct (GetMetaData st k) as [e v].
  destruct (e =? E_OK).
  { apply bind_Some in E as ([? ?] & _ & E). by injection E as _ <-. }
  destruct (e =? - E_NOT_FOUND); [destruct now as [t|] | ]; try (by injection E as _ <-).
  apply bind_Some in E as ([e' st1] & E & E'). injection E' as _ <-. by eapply ref_save_frame.
Qed.

Lemma ref_update_frame st k change now now' e st' : is_query_key k ->
  ref_update st k change now now' = Some (e, st') -> same_on (fun k => ~ is_query_key k) st st'.
Proof.
  intros Hk E. unfold ref_update in E. apply bind_Some in E as ([[e1 q] st1] & Eg & E).
  pose proof (ref_get_frame _ _ _ _ _ Hk Eg) as Hg.
  destruct (e1 =? E_OK); [destruct now' as [t|] |]; try (by injection E as _ <-).
  pose proof (ref_save_frame _ _ _ _ _ Hk E) as Hs. intros k' Hk'. by rewrite Hs, Hg.
Qed.

Definition deletes_ok st : Prop := forall k v, is_delete_key k -> contents st !! k = Some v ->
  exists d, delete_ok d /\ forall x, DeSerializeDeleteWaterMark v x = Some (E_OK, d).

Lemma ref_get_delete_ok st k e d : reads_ok st -> deletes_ok st -> is_delete_key k ->
  ref_get_delete st k = Some (e, d) -> delete_ok d.
Proof.
  intros [Hr _] Hd Hk E. specialize (Hr k). unfold ref_get_delete in E.
  destruct (contents st !! k) as [v|] eqn:Hv.
  - rewrite Hr in E. destruct (Hd k v Hk Hv) as (d' & Hok & Hde). cbn in E. rewrite Hde in E.
    cbn in E. by injection E as _ <-.
  - destruct Hr as [v Hr]. rewrite Hr in E. by injection E as _ <-.
Qed.

Lemma ref_update_delete_frame st k change e st' : reads_ok st -> deletes_ok st -> is_delete_key k ->
  (forall d, delete_ok d -> delete_ok (change d)) -> ref_update_delete st k change = Some (e, st') ->
  same_on (fun k => ~ is_delete_key k) st st' /\ deletes_ok st'.
Proof.
  intros Hr Hd Hk Hch E. unfold ref_update_delete in E. apply bind_Some in E as ([e1 d] & Eg & E).
  pose proof (Hch d (ref_get_delete_ok _ _ _ _ Hr Hd Hk Eg)) as Hok.
  destruct (delete_roundtrip (change d) Hok) as (v & Es & Ed). rewrite Es in E. cbn in E. injection E as E.
  pose proof (put_spec _ _ _ _ _ E) as Hp. destruct (e =? E_OK).
  - split; [intros k' Hk'; rewrite Hp; apply lookup_insert_ne; congruence |].
    intros k' v' Hk'. rewrite Hp, lookup_insert_Some. intros [[_ <-] | [_ Hin]]; eauto.
  - split; [intros k' _; by rewrite Hp |]. intros k' v'. rewrite Hp. by apply Hd.
Qed.

Lemma ref_step_frame st op a st' : reads_ok st -> deletes_ok st -> op_ok op -> ref_step st op = Some (a, st') ->
  same_on (fun k => ~ is_query_key k /\ ~ is_delete_key k) st st' /\ deletes_ok st'.
Proof.
  intros Hr Hd Hop E.
  assert (Hq : same_on (fun k => ~ is_query_key k) st st' ->
    same_on (fun k => ~ is_query_key k /\ ~ is_delete_key k) st st' /\ deletes_ok st').
  { intros Hs. split; [intros k [Hk _]; by apply Hs |]. intros k v Hk. rewrite Hs; [by apply Hd |].
    intros Hk'. by eapply query_not_delete. }
  assert (Hdel : forall k change e, is_delete_key k -> (forall d, delete_ok d -> delete_ok (change d)) ->
    ref_update_delete st k change = Some (e, st') ->
    same_on (fun k => ~ is_query_key k /\ ~ is_delete_key k) st st' /\ deletes_ok st').
  { intros k change e Hk Hch E'. destruct (ref_update_delete_frame _ _ _ _ _ Hr Hd Hk Hch E') as [Hs Hd'].
    split; [intros k' [_ Hk']; by apply Hs | done]. }
  destruct op as [q d now | q d w now now' | q d w now now' | q d w now now' | d table | d | d w | d w];
    cbn [ref_step op_ok] in *.
  5: { apply Hq. destruct (DeleteMetaDataByPrefixKey st (reset_prefix d table)) as [e st1] eqn:Ed.
       injection E as _ <-. pose proof (delete_prefix_spec _ _ _ _ Ed) as Hp. intros k Hk. rewrite Hp.
       destruct (e =? E_OK); [| done]. destruct (contents st !! k) as [v|] eqn:Hv.
       - apply map_lookup_filter_Some_2; [done |]. cbn [fst].
         destruct (has_prefix (reset_prefix d table) k) eqn:Hpre; [| done].
         apply has_prefix_app in Hpre. by destruct Hk.
       - apply map_lookup_filter_None_2. by left. }
  5: { apply bind_Some in E as ([? ?] & _ & E). injection E as _ <-. split; [done | done]. }
  5-6: apply bind_Some in E as ([e st1] & E & E'); injection E' as _ ->;
    eapply (Hdel (delete_key d)); [done | | exact E];
    intros d' []; unfold u64_ok in Hop; split; cbn; (done || lia).
  1: apply bind_Some in E as ([[e r] st1] & E & E'); injection E' as _ ->; apply Hq;
    eapply ref_get_frame; [| exact E]; done.
  all: apply bind_Some in E as ([e st1] & E & E'); injection E' as _ ->; apply Hq;
    eapply ref_update_frame; [| exact E]; done.
Qed.

Lemma mark_step_inv o m op : (forall st, reads_ok st) -> meta_inv o m -> op_ok op ->
  exists a h st', mark_step (querySyncWaterMarkHelper_ m) (md_store m) op = Some (a, (h, st'))
    /\ meta_inv o (set_helper m h st').
Proof.
  intros Hr [Hs Hh [Hmk Hdel Hdev] Hmap Hids [Hrg Ho]] Hop.
  destruct (step_same _ _ op Hr Hh Hmk Hop) as (a & h & st' & E & E' & Hh' & Hmk').
  destruct (ref_step_frame _ _ _ _ (Hr _) Hdel Hop E') as [Hsame Hdel'].
  exists a, h, st'. split; [done |].
  split; try done; unfold set_helper; cbn [md_store metadataMap_].
  - split; [done | done |]. intros k v Hk. rewrite Hsame; [by apply Hdev | by apply device_not_mark].
  - intros k Hk. unfold stored. rewrite Hsame by (by apply device_not_mark). by apply Hmap.
  - split; [done |]. rewrite Hsame; [done |]. split; intros [=].
Qed.

(** The helper's calls as [Metadata] makes them. *)
Lemma status_call o m op (f : QuerySyncWaterMarkHelper -> St -> option (Z * (QuerySyncWaterMarkHelper * St))) :
  (forall st, reads_ok st) -> meta_inv o m -> op_ok op ->
  (forall h st, mark_step h st op = '(e, s) ← f h st; Some (AStatus e, s)) ->
  exists e m', with_helper m (f (querySyncWaterMarkHelper_ m) (md_store m)) = Some (e, m') /\ meta_inv o m'.
Proof.
  intros Hr Hm Hop Hf. destruct (mark_step_inv o m op Hr Hm Hop) as (a & h & st' & E & Hm').
  rewrite Hf in E. apply bind_Some in E as ([e s] & E & E'). injection E' as _ ->.
  unfold with_helper. rewrite E. cbn. eauto.
Qed.

Lemma query_call o m q d now : (forall st, reads_ok st) -> meta_inv o m -> time_ok now ->
  exists r m', read_mark m q d now = Some (r, m') /\ meta_inv o m'.
Proof.
  intros Hr Hm Hop. destruct (mark_step_inv o m (OpGetQuery q d now) Hr Hm Hop) as (a & h & st' & E & Hm').
  cbn [mark_step] in E. apply bind_Some in E as ([[e r] s] & E & E'). injection E' as _ ->.
  unfold read_mark, with_helper. rewrite E. cbn. eauto.
Qed.

Lemma delete_call o m d : (forall st, reads_ok st) -> meta_inv o m ->
  exists r m', read_delete_mark m d = Some (r, m') /\ meta_inv o m'.
Proof.
  intros Hr Hm. destruct (mark_step_inv o m (OpGetDelete d) Hr Hm I) as (a & h & st' & E & Hm').
  cbn [mark_step] in E. apply bind_Some in E as ([[e r] h'] & E & E'). injection E' as _ -> <-.
  unfold read_delete_mark. rewrite E. cbn. eauto.
Qed.

(** The calls that read and write the value of a device. *)
Lemma update_call o m d f : meta_inv o m -> (forall v, value_ok v -> value_ok (f v)) ->
  exists e m', (let '(v, m) := GetMetaDataValue m d true in SaveMetaDataValue m d (f v)) = (e, m')
    /\ meta_inv o m'.
Proof.
  intros Hm Hf. destruct (get_value o m d Hm) as (m1 & -> & Hm1 & _). apply save_value; [done |].
  apply Hf, stored_value_ok; [apply Hm | done].
Qed.

Lemma map_value o m k v : meta_inv o m -> is_device_key k -> metadataMap_ m !! k = Some v -> value_ok v.
Proof.
  intros Hm Hk E. pose proof (mi_map _ _ Hm k Hk) as Hv. rewrite E in Hv. cbn [from_option id] in Hv.
  rewrite Hv. apply stored_value_ok; [apply Hm | done].
Qed.

Lemma value_ok_lemmas v : value_ok v ->
  (forall w, u64_ok w -> value_ok (set_localWaterMark v w)) /\
  (forall w, u64_ok w -> value_ok (set_peerWaterMark v w)) /\
  (forall o t, INT64_MIN <= o <= INT64_MAX -> u64_ok t -> value_ok (set_timeOffset v o t)) /\
  (forall t k, u64_ok t -> u64_ok k -> value_ok (set_create v t k)).
Proof. unfold u64_ok. intros []. split_and!; intros; split; cbn; (done || lia). Qed.

Lemma clock_u64 c now : u64_ok (fst (GetSysCurrentTime c now)).
Proof.
  unfold u64_ok. destruct now as [t|]; cbn [GetSysCurrentTime fst]; [| unfold INVALID_TIMESTAMP; lia].
  unfold u64, wrap. apply Z.mod_pos_bound. lia.
Qed.

Lemma save_offset o m v : meta_inv o m -> INT64_MIN <= v <= INT64_MAX ->
  exists e m', SaveLocalTimeOffset m v = (e, m') /\ meta_inv (if e =? E_OK then v else o) m'.
Proof.
  intros [Hs Hh [Hmk Hdel Hdev] Hmap Hids [Hrg Ho]] Hv. unfold SaveLocalTimeOffset, SetMetadataToDb.
  cbn [naturalStoragePtr_ md_store]. rewrite Hs.
  destruct (PutMetaData (md_store m) LOCALTIME_OFFSET_KEY (to_string_signed v)) as [e st'] eqn:Ep.
  pose proof (put_spec _ _ _ _ _ Ep) as Hp. do 2 eexists. split; [done |].
  assert (Hoth : forall k, k <> LOCALTIME_OFFSET_KEY -> contents st' !! k = contents (md_store m) !! k).
  { intros k Hne. rewrite Hp. destruct (e =? E_OK); [by apply lookup_insert_ne | done]. }
  unfold set_store. split; try done;
    cbn [naturalStoragePtr_ md_store metadataMap_ querySyncWaterMarkHelper_ deviceIdToHashDeviceIdMap_].
  - destruct Hh as [H1' H2' Hq Hi Hd Hdi]. split; try done.
    + intros k q Hin. destruct (Hq k q Hin) as (Hk & Hc & Hex). rewrite Hoth; [done |]. by intros ->.
    + intros k d Hin. destruct (Hd k d Hin) as (Hk & Hc & Hex). rewrite Hoth; [done |]. by intros ->.
  - destruct Hmk as [Hq Hd]. split; [split | |]; intros k x Hk; rewrite Hoth by (by intros ->); eauto.
  - intros k Hk. unfold stored. rewrite Hoth by (by intros ->). by apply Hmap.
  - unfold stored_offset. rewrite Hp. destruct (e =? E_OK); [| done]. by rewrite lookup_insert_eq.
Qed.

(** What a call does: its answer and a state in which memory and storage agree. *)
Definition keeps (o : Z) (r : option (list Z * (Metadata St * SysClock))) : Prop :=
  exists a m c, r = Some (a, (m, c)) /\ meta_inv o m.

Lemma keeps_status o (r : option (Z * Metadata St)) c :
  (exists e m', r = Some (e, m') /\ meta_inv o m') -> keeps o ('(e, m) ← r; Some ([e], (m, c))).
Proof. intros (e & m' & -> & Hm). by exists [e], m', c. Qed.

Lemma keeps_both o (r : option ((Z * Z) * Metadata St)) c :
  (exists e m', r = Some (e, m') /\ meta_inv o m') -> keeps o ('((e, v), m) ← r; Some ([e; v], (m, c))).
Proof. intros ([e v] & m' & -> & Hm). by exists [e; v], m', c. Qed.

Lemma keeps_plain o (r : Z * Metadata St) c :
  (exists e m', r = (e, m') /\ meta_inv o m') -> keeps o (Some ([r.1], (r.2, c))).
Proof. intros (e & m' & -> & Hm). by exists [e], m', c. Qed.

Lemma read_value_call o m d (f : MetaDataValue -> Z) : meta_inv o m ->
  exists e m', (let '(v, m) := GetMetaDataValue m d true in (f v, m)) = (e, m') /\ meta_inv o m'.
Proof. intros Hm. destruct (get_value o m d Hm) as (m1 & -> & Hm1 & _). eauto. Qed.

Lemma create_call o m d t : meta_inv o m -> u64_ok t ->
  exists e m', SetDbCreateTime m d t true = (e, m') /\ meta_inv o m'.
Proof.
  intros Hm Ht. unfold SetDbCreateTime. destruct (hash_id o m d Hm) as (m1 & -> & Hm1 & _ & _).
  apply save_value; [done |]. assert (Hmark : u64_ok REMOVE_DEVICE_DATA_MARK) by done.
  destruct (metadataMap_ m1 !! device_key d) as [v|] eqn:E.
  - pose proof (map_value o m1 _ v Hm1 (is_device_device_key d) E) as Hv.
    destruct (value_ok_lemmas v Hv) as (_ & _ & _ & Hc). destruct (negb _ && negb _).
    + apply Hc; done.
    + apply Hc; [done | apply Hv].
  - apply value_ok_lemmas; done.
Qed.

Lemma reset_call o m d : meta_inv o m ->
  exists e m', ResetMetaDataAfterRemoveData m d = (e, m') /\ meta_inv o m'.
Proof.
  intros Hm. unfold ResetMetaDataAfterRemoveData. destruct (hash_id o m d Hm) as (m1 & -> & Hm1 & _ & _).
  destruct (metadataMap_ m1 !! device_key d) as [v|] eqn:E; [| eauto].
  pose proof (map_value o m1 _ v Hm1 (is_device_device_key d) E) as Hv. apply save_value; [done |].
  apply value_ok_lemmas; [done | apply Hv | done].
Qed.

Lemma map_read_call o m d (f : MetaDataValue -> Z) : meta_inv o m ->
  exists e m', (let '(h, m) := GetHashDeviceId m d true in
                match metadataMap_ m !! h with Some v => (f v, m) | None => (0, m) end) = (e, m')
    /\ meta_inv o m'.
Proof.
  intros Hm. destruct (hash_id o m d Hm) as (m1 & -> & Hm1 & _ & _).
  destruct (metadataMap_ m1 !! device_key d); eauto.
Qed.

(** The state of the subscribed queries is not stored. *)
Lemma query_ids_inv o m q : meta_inv o m -> meta_inv o (set_query_ids m q).
Proof. intros []. by split. Qed.

Lemma erase_call o m d table : (forall st, reads_ok st) -> meta_inv o m ->
  exists e m', EraseDeviceWaterMark m d true table = Some (e, m') /\ meta_inv o m'.
Proof.
  intros Hr Hm. unfold EraseDeviceWaterMark.
  destruct (status_call o m (OpSetRecvDelete d 0) (fun h st => SetRecvDeleteSyncWaterMark h st d 0))
    as (e1 & m1 & E1 & Hm1); [done | done | done | done |].
  unfold md_SetRecvDeleteSyncWaterMark. rewrite E1. cbn [mbind option_bind].
  destruct (status_call o m1 (OpResetRecv d table) (fun h st => ResetRecvQueryWaterMark h st d table))
    as (e2 & m2 & E2 & Hm2); [done | done | done | done |].
  unfold md_ResetRecvQueryWaterMark. rewrite E2. cbn [mbind option_bind].
  destruct (update_call o m2 d (fun v => set_peerWaterMark v 0) Hm2) as (e3 & m3 & E3 & Hm3).
  { intros v Hv. by apply value_ok_lemmas. }
  unfold SavePeerWaterMark. rewrite E3. repeat (destruct (negb _); [eauto |]). eauto.
Qed.

Lemma get_query_calls o m q d now lift : (forall st, reads_ok st) -> meta_inv o m -> time_ok now ->
  (exists r m', GetRecvQueryWaterMark m q d 0 now = Some (r, m') /\ meta_inv o m') /\
  (exists r m', GetSendQueryWaterMark m q d 0 lift now = Some (r, m') /\ meta_inv o m') /\
  (exists r m', GetLastQueryTime m q d 0 now = Some (r, m') /\ meta_inv o m').
Proof.
  intros Hr Hm Hn. unfold GetRecvQueryWaterMark, GetSendQueryWaterMark, GetLastQueryTime.
  destruct (query_call o m q d now Hr Hm Hn) as ([e mark] & m1 & -> & Hm1). cbn [mbind option_bind].
  unfold GetPeerWaterMark, GetLocalWaterMark. destruct (get_value o m1 d Hm1) as (m2 & -> & Hm2 & _).
  destruct (negb (e =? E_OK)), lift; split_and!; eauto.
Qed.

Lemma get_delete_calls o m d lift : (forall st, reads_ok st) -> meta_inv o m ->
  (exists r m', GetRecvDeleteSyncWaterMark m d 0 = Some (r, m') /\ meta_inv o m') /\
  (exists r m', GetSendDeleteSyncWaterMark m d 0 lift = Some (r, m') /\ meta_inv o m').
Proof.
  intros Hr Hm. unfold GetRecvDeleteSyncWaterMark, GetSendDeleteSyncWaterMark.
  destruct (delete_call o m d Hr Hm) as ([e mark] & m1 & -> & Hm1). cbn [mbind option_bind].
  unfold GetPeerWaterMark, GetLocalWaterMark. destruct (get_value o m1 d Hm1) as (m2 & -> & Hm2 & _).
  destruct (negb (e =? E_OK)), lift; split_and!; eauto.
Qed.

Lemma query_timestamp_call o m d q : meta_inv o m ->
  exists e m', GetQueryLastTimestamp m d q = (e, m') /\ meta_inv o m'.
Proof.
  intros Hm. unfold GetQueryLastTimestamp. destruct (GetMetadataFromDb m (hash_query q)) as [e v].
  destruct (e =? - E_NOT_FOUND), (queryIdMap_ m !! d) as [ids|]; try case_decide;
    try destruct (e =? E_OK); do 2 eexists; (split; [done |]); try apply query_ids_inv; done.
Qed.

Lemma time_offset_call o m c d v now : meta_inv o m -> INT64_MIN <= v <= INT64_MAX ->
  exists e m' c', SaveTimeOffset m d v c now = (e, (m', c')) /\ meta_inv o m'.
Proof.
  intros Hm Hv. unfold SaveTimeOffset. destruct (GetSysCurrentTime c now) as [t c'] eqn:Ec.
  pose proof (clock_u64 c now) as Ht. rewrite Ec in Ht.
  destruct (update_call o m d (fun x => set_timeOffset x v t) Hm) as (e & m' & E & Hm').
  { intros x Hx. by apply value_ok_lemmas. }
  destruct (GetMetaDataValue m d true) as [x m1]. rewrite E. eauto.
Qed.

Lemma last_local_inv o m t : meta_inv o m -> meta_inv o (SetLastLocalTime m t).
Proof. intros Hm. unfold SetLastLocalTime. destruct (_ <? _); [destruct Hm; by split | done]. Qed.

Lemma remove_query_inv o m d q : meta_inv o m -> meta_inv o (RemoveQueryFromRecordSet m d q).
Proof.
  intros Hm. unfold RemoveQueryFromRecordSet. destruct (queryIdMap_ m !! d); [by apply query_ids_inv | done].
Qed.

Lemma other_step_inv o m c op : (forall st, reads_ok st) -> meta_inv o m -> meta_op_ok op ->
  (forall v, op <> MSaveLocalTimeOffset v) -> keeps o (meta_step (m, c) op).
Proof.
  intros Hr Hm Hop Hne.
  destruct op as [d v now | d | d w | d | d w | d | v | t | d | d t | d | d | q d w now now' | q d w now now'
    | q d t now now' | q d now | q d lift now | q d now | d w | d w | d lift | d | d table | d table | d q | d q];
    cbn [meta_step meta_op_ok] in *; first
    [ apply keeps_plain | apply keeps_status | apply keeps_both | idtac ].
  - destruct (time_offset_call o m c d v now Hm Hop) as (e & m' & c' & -> & Hm'). by exists [e], m', c'.
  - by apply read_value_call.
  - apply (update_call o m d (fun x => set_localWaterMark x w) Hm). intros x Hx. by apply value_ok_lemmas.
  - by apply read_value_call.
  - apply (update_call o m d (fun x => set_peerWaterMark x w) Hm). intros x Hx. by apply value_ok_lemmas.
  - by apply read_value_call.
  - by destruct (Hne v).
  - do 2 eexists. split; [done |]. by apply last_local_inv.
  - by apply (map_read_call o m d dbCreateTime).
  - by apply create_call.
  - by apply reset_call.
  - by apply (map_read_call o m d clearDeviceDataMark).
  - by apply (status_call o m (OpSetRecv q d w now now') (fun h st => SetRecvQueryWaterMark h st q d w now now')).
  - by apply (status_call o m (OpSetSend q d w now now') (fun h st => SetSendQueryWaterMark h st q d w now now')).
  - by apply (status_call o m (OpSetQueryTime q d t now now') (fun h st => SetLastQueryTime h st q d t now now')).
  - by apply (get_query_calls o m q d now true).
  - by apply (get_query_calls o m q d now lift).
  - by apply (get_query_calls o m q d now true).
  - by apply (status_call o m (OpSetSendDelete d w) (fun h st => SetSendDeleteSyncWaterMark h st d w)).
  - by apply (status_call o m (OpSetRecvDelete d w) (fun h st => SetRecvDeleteSyncWaterMark h st d w)).
  - by apply get_delete_calls.
  - by apply (get_delete_calls o m d true).
  - by apply (status_call o m (OpResetRecv d table) (fun h st => ResetRecvQueryWaterMark h st d table)).
  - by apply erase_call.
  - by apply query_timestamp_call.
  - do 2 eexists. split; [done |]. by apply remove_query_inv.
Qed.

Lemma meta_run_inv ops : (forall st, reads_ok st) -> Forall meta_op_ok ops -> forall o m c, meta_inv o m ->
  exists answers m' c', meta_run (m, c) ops = Some (answers, (m', c'))
    /\ meta_inv (saved_offset o ops answers) m'.
Proof.
  intros Hr Hok. induction Hok as [| op ops Hop _ IH]; intros o m c Hm; cbn [meta_run].
  { by exists [], m, c. }
  assert (Hstep : exists a m1 c1 o1, meta_step (m, c) op = Some (a, (m1, c1)) /\ meta_inv o1 m1
    /\ forall rest, saved_offset o (op :: ops) (a :: rest) = saved_offset o1 ops rest).
  { assert (Hdec : (exists v, op = MSaveLocalTimeOffset v) \/ forall v, op <> MSaveLocalTimeOffset v)
      by (destruct op; eauto; by right).
    destruct Hdec as [[v ->] | Hno].
    - destruct (save_offset o m v Hm Hop) as (e & m1 & E & Hm1). exists [e], m1, c, (if e =? E_OK then v else o).
      split_and!; [| done | done]. unfold meta_step. by rewrite E.
    - destruct (other_step_inv o m c op Hr Hm Hop) as (a & m1 & c1 & E & Hm1); [done |].
      exists a, m1, c1, o. split_and!; [done | done |]. intros rest. destruct op as [| | | | | | v | | | | | | | | | | | | | | | | | | |]; try done.
      by destruct (Hno v). }
  destruct Hstep as (a & m1 & c1 & o1 & -> & Hm1 & Heq). cbn [mbind option_bind].
  destruct (IH o1 m1 c1 Hm1) as (rest & m2 & c2 & -> & Hm2). cbn [mbind option_bind].
  exists (a :: rest), m2, c2. split; [done |]. by rewrite Heq.
Qed.

(** * Initialization *)

(** [meta_inv] while the map is being loaded. *)
Record load_inv (o : Z) m : Prop := {
  li_storage : naturalStoragePtr_ m = true;
  li_helper : cached (querySyncWaterMarkHelper_ m) (md_store m);
  li_store : store_ok (md_store m);
  li_ids : deviceIdToHashDeviceIdMap_ m = ∅;
  li_offset : stored_offset (md_store m) o
}.

Lemma IsMetaDataKey_prefix key pre : IsMetaDataKey key pre = has_prefix pre key.
Proof.
  unfold IsMetaDataKey. destruct (Z.ltb_spec (zlen key) (zlen pre)) as [Hlt |]; [| done].
  symmetry. apply bool_decide_eq_false. intros E. apply (f_equal (@length byte)) in E.
  rewrite length_take in E. unfold zlen in Hlt. lia.
Qed.

Lemma load_device o m key : reads_ok (md_store m) -> load_inv o m -> is_device_key key ->
  is_Some (contents (md_store m) !! key) ->
  LoadDeviceIdDataToMap m key = (E_OK, PutMetadataToMap m key (stored (md_store m) key)).
Proof.
  intros [Hr _] Hm Hk [v Hv]. specialize (Hr key). rewrite Hv in Hr.
  unfold LoadDeviceIdDataToMap, GetMetadataFromDb. rewrite (li_storage _ _ Hm), Hr.
  cbn [negb Z.eqb E_OK]. rewrite deserialize_full by (eapply so_device; [apply Hm | done | done]).
  cbn [negb]. unfold stored. by rewrite Hv.
Qed.

Lemma load_delete o m key : reads_ok (md_store m) -> load_inv o m -> is_delete_key key ->
  is_Some (contents (md_store m) !! key) ->
  exists h, LoadDeleteSyncDataToCache (querySyncWaterMarkHelper_ m) (md_store m) key = Some (E_OK, h)
    /\ cached h (md_store m).
Proof.
  intros [Hr _] Hm Hk [v Hv]. specialize (Hr key). rewrite Hv in Hr.
  unfold LoadDeleteSyncDataToCache, helper_GetMetadataFromDb. rewrite (ca_storage _ _ (li_helper _ _ Hm)), Hr.
  destruct (so_delete _ (li_store _ _ Hm) key v Hk Hv) as (d & Hok & Hd). cbn. rewrite Hd. cbn.
  eexists. split; [done |]. destruct (li_helper _ _ Hm) as [H1' H2' Hq Hi Hdel Hdi]. split; try done.
  unfold set_delete_cache. cbn [deleteSyncCache_]. intros k' d'. rewrite lookup_insert_Some.
  intros [[<- <-] | [_ ?]]; [| auto]. by rewrite Hv.
Qed.

Lemma load_keys_ok o keys : (forall st, reads_ok st) -> forall m ids, load_inv o m ->
  (forall k, k ∈ keys -> is_Some (contents (md_store m) !! k)) ->
  exists ids' m', load_keys m keys ids = Some ((E_OK, ids'), m') /\ load_inv o m'
    /\ md_store m' = md_store m /\ localTimeOffset_ m' = localTimeOffset_ m
    /\ (length ids' <= length ids + length keys)%nat
    /\ forall k, is_device_key k -> metadataMap_ m' !! k =
         if decide (k ∈ keys) then Some (stored (md_store m) k) else metadataMap_ m !! k.
Proof.
  intros Hr. induction keys as [|key keys IH]; intros m ids Hm Hin; cbn [load_keys].
  { exists ids, m. split_and!; [done.. | cbn; lia |]. intros k _. rewrite decide_False; [done |]. apply not_elem_of_nil. }
  assert (Hkey : is_Some (contents (md_store m) !! key)) by (apply Hin; left).
  rewrite !IsMetaDataKey_prefix.
  assert (Hgo : forall m1 ids1, load_inv o m1 -> md_store m1 = md_store m ->
    localTimeOffset_ m1 = localTimeOffset_ m -> (length ids1 <= length ids + 1)%nat ->
    (forall k, is_device_key k -> metadataMap_ m1 !! k =
       if decide (k = key) then Some (stored (md_store m) k) else metadataMap_ m !! k) ->
    exists ids' m', load_keys m1 keys ids1 = Some ((E_OK, ids'), m') /\ load_inv o m'
    /\ md_store m' = md_store m /\ localTimeOffset_ m' = localTimeOffset_ m
    /\ (length ids' <= length ids + S (length keys))%nat
    /\ forall k, is_device_key k -> metadataMap_ m' !! k =
         if decide (k ∈ key :: keys) then Some (stored (md_store m) k) else metadataMap_ m !! k).
  { intros m1 ids1 Hm1 Es Eo Hlen Hmap. destruct (IH m1 ids1 Hm1) as (ids' & m' & E & Hm' & Es' & Eo' & Hl & Hmap').
    { intros k Hk. rewrite Es. apply Hin. by right. }
    exists ids', m'. split_and!; [done | done | congruence | congruence | lia |]. intros k Hk.
    rewrite (Hmap' k Hk), Es, (Hmap k Hk). destruct (decide (k ∈ keys)) as [? | Hn].
    { rewrite decide_True; [done |]. by right. }
    destruct (decide (k = key)) as [-> | Hne]; [rewrite decide_True; [done | left] |].
    rewrite decide_False; [done |]. rewrite elem_of_cons. tauto. }
  assert (Hskip : ~ is_device_key key -> forall m1, metadataMap_ m1 = metadataMap_ m ->
    forall k, is_device_key k -> metadataMap_ m1 !! k =
       if decide (k = key) then Some (stored (md_store m) k) else metadataMap_ m !! k).
  { intros Hnk m1 -> k Hk. rewrite decide_False; [done |]. by intros ->. }
  destruct (has_prefix DEVICEID_PREFIX_KEY key) eqn:Hdev.
  { rewrite (load_device o m key (Hr _) Hm Hdev Hkey). cbn [negb Z.eqb E_OK]. apply Hgo; try done; [by destruct Hm | lia |].
    intros k Hk. unfold PutMetadataToMap, set_metadata_map. cbn [metadataMap_].
    case_decide as Hd; [subst; apply lookup_insert_eq | by apply lookup_insert_ne]. }
  assert (Hnk : ~ is_device_key key) by (unfold is_device_key; congruence).
  destruct (has_prefix QUERY_SYNC_PREFIX_KEY key) eqn:Hq.
  { apply Hgo; try done; [rewrite length_app; cbn; lia | by apply Hskip]. }
  destruct (has_prefix DELETE_SYNC_PREFIX_KEY key) eqn:Hdel; [| apply Hgo; try done; [lia | by apply Hskip]].
  destruct (load_delete o m key (Hr _) Hm Hdel Hkey) as (h & -> & Hh). cbn [mbind option_bind negb Z.eqb E_OK].
  apply Hgo; try done; [by destruct Hm | lia | by apply Hskip].
Qed.

Lemma keys_size st ks : GetAllMetaKeys st = (E_OK, ks) -> length ks = size (contents st).
Proof.
  intros E. rewrite <- (size_dom (D := gset Key) (contents st)).
  rewrite <- (size_list_to_set (C := gset Key) ks (keys_nodup _ _ E)). f_equal. apply set_eq. intros k.
  rewrite elem_of_list_to_set, elem_of_dom. by apply keys_spec.
Qed.

Lemma load_all o m : (forall st, reads_ok st) -> load_inv o m -> metadataMap_ m = ∅ ->
  Z.of_nat (size (contents (md_store m))) < MAX_STORE_ITEMS ->
  exists m', LoadAllMetadata m = Some (E_OK, m') /\ meta_inv o m'
    /\ md_store m' = md_store m /\ localTimeOffset_ m' = localTimeOffset_ m.
Proof.
  intros Hr Hm He Hsize. unfold LoadAllMetadata, GetAllMetadataKey. rewrite (li_storage _ _ Hm).
  destruct (GetAllMetaKeys (md_store m)) as [e ks] eqn:Ek.
  pose proof (proj2 (Hr (md_store m))) as Hk. rewrite Ek in Hk. cbn in Hk. subst e. cbn [negb Z.eqb E_OK].
  destruct (load_keys_ok o ks Hr m [] Hm) as (ids & m1 & -> & Hm1 & Es & Eo & Hl & Hmap).
  { intros k Hk. by apply (keys_spec _ _ Ek). }
  cbn [mbind option_bind negb Z.eqb E_OK]. pose proof (keys_size _ _ Ek) as Hz. cbn [length] in Hl.
  unfold RemoveLeastUsedQuerySyncItems. rewrite (proj2 (Z.ltb_lt _ _)) by (unfold zlen; lia).
  cbn [mbind option_bind]. eexists. split; [done |].
  destruct Hm1 as [Hs Hh Hst Hids Ho]. unfold set_store. cbn [md_store localTimeOffset_]. split; [| done].
  split; try done; cbn [metadataMap_ md_store deviceIdToHashDeviceIdMap_].
  - intros k Hk. rewrite (Hmap k Hk), Es. case_decide as Hd; [done |]. rewrite He, lookup_empty.
    unfold stored. destruct (contents (md_store m) !! k) eqn:Hv; [| done].
    destruct Hd. apply (keys_spec _ _ Ek). by rewrite Hv.
  - by rewrite Hids.
Qed.

End Answers.

(** * A restart: a [Metadata] that is initialized on the storage another one has left answers as
    that one did *)

Section Restart.
Context `{Host} `{DeviceHash} {St : Type} `{StorageLaws St}.
Implicit Types (m : Metadata St) (st : St).

Lemma init_found st o : (forall st, reads_ok st) -> store_ok st -> stored_offset st o ->
  Z.of_nat (size (contents st)) < MAX_STORE_ITEMS ->
  exists m, md_Initialize (newMetadata st) = Some (E_OK, m) /\ meta_inv o m /\ md_store m = st
    /\ localTimeOffset_ m = o.
Proof.
  intros Hr Hst Ho Hsize. unfold md_Initialize, GetMetadataFromDb, newMetadata.
  cbn [naturalStoragePtr_ md_store]. pose proof (proj1 (Hr st) LOCALTIME_OFFSET_KEY) as Hget.
  destruct Ho as [Hrg Ho]. rewrite Ho in Hget. rewrite Hget.
  change (E_OK =? - E_NOT_FOUND) with false. cbn [Z.eqb E_OK negb].
  match goal with |- context [LoadAllMetadata ?m1] =>
    destruct (load_all o m1 Hr) as (m & E & Hm & Es & Eo) end.
  - split; try done. apply fresh_cached.
  - done.
  - done.
  - exists m. split_and!; [done | done | done |]. rewrite Eo. cbn. by apply strtoll_to_string.
Qed.

(** The first start: the local offset is stored, if that succeeds. *)
Lemma init_new st m : (forall st, reads_ok st) -> store_ok st -> contents st !! LOCALTIME_OFFSET_KEY = None ->
  Z.of_nat (size (contents st)) + 1 < MAX_STORE_ITEMS ->
  md_Initialize (newMetadata st) = Some (E_OK, m) ->
  meta_inv BASE_OFFSET m /\ localTimeOffset_ m = BASE_OFFSET.
Proof.
  intros Hr Hst Hno Hsize. unfold md_Initialize, GetMetadataFromDb, newMetadata.
  cbn [naturalStoragePtr_ md_store]. pose proof (proj1 (Hr st) LOCALTIME_OFFSET_KEY) as Hget.
  rewrite Hno in Hget. destruct Hget as [v ->]. cbn [Z.eqb E_NOT_FOUND].
  change (- E_NOT_FOUND =? - E_NOT_FOUND) with true. cbv iota.
  unfold SaveLocalTimeOffset, SetMetadataToDb. cbn [naturalStoragePtr_ md_store].
  destruct (PutMetaData st LOCALTIME_OFFSET_KEY (to_string_signed BASE_OFFSET)) as [e st1] eqn:Ep.
  pose proof (put_spec _ _ _ _ _ Ep) as Hp.
  destruct (Z.eqb_spec e E_OK) as [-> | He]; cbn [negb]; [| intros [= ?]; done].
  unfold set_store. cbn [md_store querySyncWaterMarkHelper_].
  assert (Hst1 : store_ok st1).
  { destruct Hst as [[Hq Hd] Hdel Hdev].
    split; [split | |]; intros k x Hk; rewrite Hp, lookup_insert_ne by (by intros <-); eauto. }
  match goal with |- LoadAllMetadata ?m1 = _ -> _ =>
    destruct (load_all BASE_OFFSET m1 Hr) as (m' & E & Hm & Es & Eo) end.
  - split; try done; [apply fresh_cached |]. split; [done |].
    cbn [set_helper set_metadata_map md_store]. by rewrite Hp, lookup_insert_eq.
  - done.
  - cbn [set_helper set_metadata_map md_store]. rewrite Hp, map_size_insert_None by done. lia.
  - rewrite E. intros [= <-]. done.
Qed.

(** * Equal storages, equal answers *)

Lemma read_mark_ref o m q d now : (forall st, reads_ok st) -> meta_inv o m -> time_ok now ->
  exists r m', read_mark m q d now = Some (r, m') /\ meta_inv o m'
    /\ ref_get (md_store m) (query_key q d) now = Some (r, md_store m').
Proof.
  intros Hr Hm Hn. destruct (query_call o m q d now Hr Hm Hn) as (r & m' & E & Hm').
  exists r, m'. split_and!; [done | done |].
  destruct (step_same _ _ (OpGetQuery q d now) Hr (mi_helper _ _ Hm) (so_marks _ (mi_store _ _ Hm)) Hn)
    as (a & h' & st' & E1 & E2 & _). cbn [mark_step ref_step] in E1, E2.
  unfold read_mark, with_helper in E. apply bind_Some in E as ([r1 [h1 st1]] & E & E'). injection E' as <- <-.
  rewrite E in E1. destruct r1 as [e1 q1]. injection E1 as <- _ <-.
  apply bind_Some in E2 as ([[e2 q2] st2] & E2 & E3). injection E3 as -> -> <-. exact E2.
Qed.

Lemma read_delete_ref o m d : (forall st, reads_ok st) -> meta_inv o m ->
  exists r m', read_delete_mark m d = Some (r, m') /\ meta_inv o m' /\ md_store m' = md_store m
    /\ ref_get_delete (md_store m) (delete_key d) = Some r.
Proof.
  intros Hr Hm. destruct (delete_call o m d Hr Hm) as (r & m' & E & Hm').
  exists r, m'. destruct (step_same _ _ (OpGetDelete d) Hr (mi_helper _ _ Hm) (so_marks _ (mi_store _ _ Hm)) I)
    as (a & h' & st' & E1 & E2 & _). cbn [mark_step ref_step] in E1, E2.
  split; [done |]. split; [done |]. unfold read_delete_mark in E. apply bind_Some in E as ([r1 h1] & E & E').
  injection E' as <- <-. split; [done |].
  rewrite E in E1. destruct r1 as [e1 q1]. injection E1 as <- _ <-.
  apply bind_Some in E2 as ([e2 q2] & E2 & E3). injection E3 as -> ->. exact E2.
Qed.

Lemma device_value o m d : meta_inv o m -> (GetMetaDataValue m d true).1 = stored (md_store m) (device_key d).
Proof. intros Hm. by destruct (get_value o m d Hm) as (m1 & -> & _). Qed.

Lemma device_map_value o m d (f : MetaDataValue -> Z) : meta_inv o m -> f emptyMetaDataValue = 0 ->
  (let '(h, m) := GetHashDeviceId m d true in
   match metadataMap_ m !! h with Some v => (f v, m) | None => (0, m) end).1
  = f (stored (md_store m) (device_key d)).
Proof.
  intros Hm Hf. destruct (hash_id o m d Hm) as (m1 & -> & Hm1 & <- & _).
  rewrite <- (mi_map _ _ Hm1 (device_key d) (is_device_device_key d)).
  by destruct (metadataMap_ m1 !! device_key d).
Qed.

(** The answers of the getters that answer from what is stored. *)
Record same_answers m m' : Prop := {
  sa_offset : forall d, (GetTimeOffset m' d).1 = (GetTimeOffset m d).1;
  sa_local : forall d, (GetLocalWaterMark m' d).1 = (GetLocalWaterMark m d).1;
  sa_peer : forall d, (GetPeerWaterMark m' d).1 = (GetPeerWaterMark m d).1;
  sa_create : forall d, (GetDbCreateTime m' d).1 = (GetDbCreateTime m d).1;
  sa_remove : forall d, (GetRemoveDataMark m' d).1 = (GetRemoveDataMark m d).1;
  sa_recv : forall q d now, time_ok now ->
    fst <$> GetRecvQueryWaterMark m' q d 0 now = fst <$> GetRecvQueryWaterMark m q d 0 now;
  sa_send : forall q d lift now, time_ok now ->
    fst <$> GetSendQueryWaterMark m' q d 0 lift now = fst <$> GetSendQueryWaterMark m q d 0 lift now;
  sa_time : forall q d now, time_ok now ->
    fst <$> GetLastQueryTime m' q d 0 now = fst <$> GetLastQueryTime m q d 0 now;
  sa_recv_delete : forall d, fst <$> GetRecvDeleteSyncWaterMark m' d 0 = fst <$> GetRecvDeleteSyncWaterMark m d 0;
  sa_send_delete : forall d lift,
    fst <$> GetSendDeleteSyncWaterMark m' d 0 lift = fst <$> GetSendDeleteSyncWaterMark m d 0 lift
}.

Lemma query_answers o o' m m' q d now lift : (forall st, reads_ok st) -> meta_inv o m -> meta_inv o' m' ->
  md_store m' = md_store m -> time_ok now ->
  fst <$> GetRecvQueryWaterMark m' q d 0 now = fst <$> GetRecvQueryWaterMark m q d 0 now
  /\ fst <$> GetSendQueryWaterMark m' q d 0 lift now = fst <$> GetSendQueryWaterMark m q d 0 lift now
  /\ fst <$> GetLastQueryTime m' q d 0 now = fst <$> GetLastQueryTime m q d 0 now.
Proof.
  intros Hr Hm Hm' Es Hn. unfold GetRecvQueryWaterMark, GetSendQueryWaterMark, GetLastQueryTime.
  destruct (read_mark_ref o m q d now Hr Hm Hn) as ([e r] & m1 & -> & Hm1 & E1).
  destruct (read_mark_ref o' m' q d now Hr Hm' Hn) as ([e' r'] & m1' & -> & Hm1' & E1').
  rewrite Es, E1 in E1'. injection E1' as <- <- Es1. cbn [mbind option_bind].
  unfold GetPeerWaterMark, GetLocalWaterMark.
  pose proof (device_value o m1 d Hm1) as Hv. pose proof (device_value o' m1' d Hm1') as Hv'.
  rewrite <- Es1 in Hv'. destruct (GetMetaDataValue m1 d true) as [v m2], (GetMetaDataValue m1' d true) as [v' m2'].
  cbn [fst] in Hv, Hv'. subst v v'. by destruct (negb (e =? E_OK)), lift.
Qed.

Lemma delete_answers o o' m m' d lift : (forall st, reads_ok st) -> meta_inv o m -> meta_inv o' m' ->
  md_store m' = md_store m ->
  fst <$> GetRecvDeleteSyncWaterMark m' d 0 = fst <$> GetRecvDeleteSyncWaterMark m d 0
  /\ fst <$> GetSendDeleteSyncWaterMark m' d 0 lift = fst <$> GetSendDeleteSyncWaterMark m d 0 lift.
Proof.
  intros Hr Hm Hm' Es. unfold GetRecvDeleteSyncWaterMark, GetSendDeleteSyncWaterMark.
  destruct (read_delete_ref o m d Hr Hm) as ([e r] & m1 & -> & Hm1 & Es1 & E1).
  destruct (read_delete_ref o' m' d Hr Hm') as ([e' r'] & m1' & -> & Hm1' & Es1' & E1').
  rewrite Es, E1 in E1'. injection E1' as <- <-. cbn [mbind option_bind].
  unfold GetPeerWaterMark, GetLocalWaterMark.
  pose proof (device_value o m1 d Hm1) as Hv. pose proof (device_value o' m1' d Hm1') as Hv'.
  rewrite Es1', Es, <- Es1 in Hv'.
  destruct (GetMetaDataValue m1 d true) as [v m2], (GetMetaDataValue m1' d true) as [v' m2'].
  cbn [fst] in Hv, Hv'. subst v v'. by destruct (negb (e =? E_OK)), lift.
Qed.

Lemma equal_stores o o' m m' : (forall st, reads_ok st) -> meta_inv o m -> meta_inv o' m' ->
  md_store m' = md_store m -> same_answers m m'.
Proof.
  intros Hr Hm Hm' Es.
  assert (Hval : forall d (f : MetaDataValue -> Z),
    (let '(v, m) := GetMetaDataValue m' d true in (f v, m)).1 = (let '(v, m) := GetMetaDataValue m d true in (f v, m)).1).
  { intros d f. pose proof (device_value o m d Hm) as Hv. pose proof (device_value o' m' d Hm') as Hv'.
    rewrite Es in Hv'. destruct (GetMetaDataValue m d true), (GetMetaDataValue m' d true). cbn [fst] in *. congruence. }
  assert (Hmap : forall d (f : MetaDataValue -> Z), f emptyMetaDataValue = 0 ->
    (let '(h, m) := GetHashDeviceId m' d true in
     match metadataMap_ m !! h with Some v => (f v, m) | None => (0, m) end).1 =
    (let '(h, m) := GetHashDeviceId m d true in
     match metadataMap_ m !! h with Some v => (f v, m) | None => (0, m) end).1).
  { intros d f Hf. rewrite (device_map_value o m d f Hm Hf), (device_map_value o' m' d f Hm' Hf). by rewrite Es. }
  split; intros.
  - apply Hval.
  - apply Hval.
  - apply Hval.
  - by apply (Hmap d dbCreateTime).
  - by apply (Hmap d clearDeviceDataMark).
  - by apply (query_answers o o' m m' q d now true).
  - by apply (query_answers o o' m m' q d now lift).
  - by apply (query_answers o o' m m' q d now true).
  - by apply (delete_answers o o' m m' d true).
  - by apply (delete_answers o o' m m' d lift).
Qed.


End Restart.

