(* ===== verification/TimeHelper.v ===== *)
(** Model of [TimeHelper] (syncer/src/time_helper.cpp): the time stamps of written data.
    The helper works on the [Metadata] it shares with the rest of the syncer and on the
    static clock of the class. *)

From S2P Require Import Prelude Memory CommTypes Numerals SyncStorage WaterMark MetaData.
From Stdlib Require Import ZArith Lia Sorted.
From Stdlib Require Import Strings.Byte.
From stdpp Require Import base numbers list gmap.

Open Scope Z_scope.

Section TimeHelper.
Context `{Host} `{DeviceHash} {St : Type} `{SyncStorage St}.
Implicit Types (m : Metadata St) (c : SysClock).

Definition GetMaxDataItemTime m : Z := GetMaxTimestamp (md_store m).

(** [now] is what the operating system's clock answers. The offset is added as an unsigned
    64-bit number. *)
Definition th_Initialize m c (now : option Z) : Z * (Metadata St * SysClock) :=
  let '(currentSysTime, c) := GetSysCurrentTime c now in
  let localTimeOffset := GetLocalTimeOffset m in
  let maxItemTime := GetMaxDataItemTime m in
  if (MAX_VALID_TIME <? currentSysTime) || (MAX_VALID_TIME <? localTimeOffset)
     || (MAX_VALID_TIME <? maxItemTime) then (- E_INVALID_TIME, (m, c))
  else if u64 (currentSysTime + localTimeOffset) <=? maxItemTime then
    let localTimeOffset := to_signed 64 (u64 (maxItemTime - currentSysTime + MS_TO_100_NS)) in
    let '(errCode, m) := SaveLocalTimeOffset m localTimeOffset in
    if negb (errCode =? E_OK) then (errCode, (m, c))
    else (E_OK, (SetLastLocalTime m (u64 (currentSysTime + localTimeOffset)), c))
  else (E_OK, (SetLastLocalTime m (u64 (currentSysTime + localTimeOffset)), c)).

Definition GetTime m c (now : option Z) : Z * (Metadata St * SysClock) :=
  let '(currentSysTime, c) := GetSysCurrentTime c now in
  let localTimeOffset := GetLocalTimeOffset m in
  let currentLocalTime := u64 (currentSysTime + localTimeOffset) in
  let lastLocalTime := GetLastLocalTime m in
  if (currentLocalTime <=? lastLocalTime) || (MAX_VALID_TIME <? currentLocalTime) then
    let lastLocalTime := u64 (lastLocalTime + 1) in
    (lastLocalTime, (SetLastLocalTime m lastLocalTime, c))
  else (currentLocalTime, (SetLastLocalTime m currentLocalTime, c)).

(** * Threads *)

(** [GetTime] goes through four critical sections: the system time, the local offset, the
    last time, and setting the last time. Where a call stands between them; the last phase
    has the time stamp that was returned. *)
Inductive GetTimePhase :=
  | GSystem
  | GOffset (currentSysTime : Z)
  | GLast (currentLocalTime : Z)
  | GSet (currentLocalTime : Z)
  | GReturned (time : Z).

Definition get_time_step (s : Metadata St * SysClock) (p : GetTimePhase) (now : option Z)
    : (Metadata St * SysClock) * GetTimePhase :=
  let '(m, c) := s in
  match p with
  | GSystem => let '(currentSysTime, c) := GetSysCurrentTime c now in ((m, c), GOffset currentSysTime)
  | GOffset currentSysTime => (s, GLast (u64 (currentSysTime + GetLocalTimeOffset m)))
  | GLast currentLocalTime =>
    let lastLocalTime := GetLastLocalTime m in
    (s, GSet (if (currentLocalTime <=? lastLocalTime) || (MAX_VALID_TIME <? currentLocalTime)
              then u64 (lastLocalTime + 1) else currentLocalTime))
  | GSet currentLocalTime => ((SetLastLocalTime m currentLocalTime, c), GReturned currentLocalTime)
  | GReturned _ => (s, p)
  end.

(** The calls of all threads and helpers that share the [Metadata] and the clock, in the
    order in which they were made; the other calls that change the local offset or the last
    time; the answers of the system clock are arbitrary. *)
Inductive TimeEvent :=
  | TCall
  | TStep (i : nat) (now : option Z)
  | TSaveLocalTimeOffset (offset : Z)
  | TSetLastLocalTime (t : Z)
  | TSaveTimeOffset (d : DeviceID) (offset : Z) (now : option Z).

Record TimeWorld := mkTimeWorld {
  tw_shared : Metadata St * SysClock;
  tw_calls : list GetTimePhase
}.

Definition time_step (w : TimeWorld) (e : TimeEvent) : TimeWorld :=
  let '(m, c) := tw_shared w in
  match e with
  | TCall => mkTimeWorld (m, c) (tw_calls w ++ [GSystem])
  | TStep i now =>
    match tw_calls w !! i with
    | None => w
    | Some p => let '(s, p) := get_time_step (m, c) p now in mkTimeWorld s (<[i := p]> (tw_calls w))
    end
  | TSaveLocalTimeOffset o => mkTimeWorld ((SaveLocalTimeOffset m o).2, c) (tw_calls w)
  | TSetLastLocalTime t => mkTimeWorld (SetLastLocalTime m t, c) (tw_calls w)
  | TSaveTimeOffset d o now => mkTimeWorld (SaveTimeOffset m d o c now).2 (tw_calls w)
  end.

Definition time_run (w : TimeWorld) (es : list TimeEvent) : TimeWorld := fold_left time_step es w.

(** Times other parts of the syncer report to have been reached. *)
Definition MAX_LOCAL_TIME : Z := 2 * MAX_VALID_TIME + MS_TO_100_NS.

Definition time_event_ok (e : TimeEvent) : Prop :=
  match e with TSetLastLocalTime t => t <= MAX_LOCAL_TIME | _ => True end.

(** * Time stamps increase *)

Lemma save_value_last m d v : lastLocalTime_ (SaveMetaDataValue m d v).2 = lastLocalTime_ m.
Proof.
  unfold SaveMetaDataValue, GetHashDeviceId, SetMetadataToDb.
  destruct (deviceIdToHashDeviceIdMap_ m !! d); cbn [negb naturalStoragePtr_ set_hash_ids md_store];
    (destruct (naturalStoragePtr_ m); [destruct (PutMetaData _ _ _) as [e st']; destruct (e =? E_OK); reflexivity |
       reflexivity]).
Qed.

Lemma get_value_last m d : lastLocalTime_ (GetMetaDataValue m d true).2 = lastLocalTime_ m.
Proof.
  unfold GetMetaDataValue, GetHashDeviceId, GetMetadataFromMap. cbn [negb].
  destruct (deviceIdToHashDeviceIdMap_ m !! d); case_match; reflexivity.
Qed.

Lemma save_offset_last m o : lastLocalTime_ (SaveLocalTimeOffset m o).2 = lastLocalTime_ m.
Proof.
  unfold SaveLocalTimeOffset, SetMetadataToDb. cbn [naturalStoragePtr_ md_store].
  destruct (naturalStoragePtr_ m); [destruct (PutMetaData _ _ _) |]; reflexivity.
Qed.

Lemma save_time_offset_last m d o c now :
  lastLocalTime_ (SaveTimeOffset m d o c now).2.1 = lastLocalTime_ m.
Proof.
  unfold SaveTimeOffset. pose proof (get_value_last m d) as Hg.
  destruct (GetMetaDataValue m d true) as [v m1]. destruct (GetSysCurrentTime c now) as [t c'].
  pose proof (save_value_last m1 d (set_timeOffset v o t)) as Hs.
  destruct (SaveMetaDataValue m1 d _) as [e m2]. cbn [snd fst] in *. congruence.
Qed.

Lemma SetLastLocalTime_max m t : lastLocalTime_ (SetLastLocalTime m t) = Z.max (lastLocalTime_ m) t.
Proof. unfold SetLastLocalTime. destruct (Z.ltb_spec (lastLocalTime_ m) t); cbn; lia. Qed.

(** [GetTime] is what its steps do when no other thread comes in between. *)
Lemma get_time_steps m c now :
  let '(t, s) := GetTime m c now in
  fold_left (fun '(s, p) _ => get_time_step s p now) (seq 0 4) ((m, c), GSystem) = (s, GReturned t).
Proof.
  unfold GetTime. cbn [seq fold_left get_time_step]. destruct (GetSysCurrentTime c now) as [cur c'].
  cbn [get_time_step]. by destruct (_ || _).
Qed.

Abbreviation last_of w := (lastLocalTime_ (tw_shared w).1).

(** The time a call has chosen_time on. *)
Definition chosen_time (p : GetTimePhase) : option Z :=
  match p with GSet t | GReturned t => Some t | _ => None end.

(** The last time has reached [low] and what was returned; calls from number [n] on settle
    on times after [low]; nothing is above [high]. *)
Record time_inv (low high : Z) (n : nat) (w : TimeWorld) : Prop := {
  ti_low : low <= last_of w;
  ti_high : last_of w <= high;
  ti_returned : forall i t, tw_calls w !! i = Some (GReturned t) -> t <= last_of w;
  ti_after : forall i p t, (n <= i)%nat -> tw_calls w !! i = Some p -> chosen_time p = Some t -> low < t;
  ti_bound : forall i p t, tw_calls w !! i = Some p -> chosen_time p = Some t -> t <= high
}.

(** Any other call only raises the last time. *)
Lemma time_inv_raise low high n w s : time_inv low high n w ->
  last_of w <= lastLocalTime_ s.1 <= high -> time_inv low high n (mkTimeWorld s (tw_calls w)).
Proof.
  intros [L1 L2 L3 L4 L5] Hr. split; cbn [tw_shared tw_calls]; try done; try lia.
  intros i t E. specialize (L3 i t E). lia.
Qed.

Lemma time_inv_weaken low high high' n w : time_inv low high n w -> high <= high' -> time_inv low high' n w.
Proof.
  intros [L1 L2 L3 L4 L5] Hh. split; try done; [lia |]. intros i p t E1 E2. specialize (L5 i p t E1 E2). lia.
Qed.

(** A step of call [i] to phase [p]. *)
Lemma time_inv_call low high n w i s p : time_inv low high n w ->
  last_of w <= lastLocalTime_ s.1 <= high ->
  (forall t, p = GReturned t -> t <= lastLocalTime_ s.1) ->
  (forall t, chosen_time p = Some t -> ((n <= i)%nat -> low < t) /\ t <= high) ->
  time_inv low high n (mkTimeWorld s (<[i := p]> (tw_calls w))).
Proof.
  intros [L1 L2 L3 L4 L5] Hr Hret Hset. split; cbn [tw_shared tw_calls]; try done; try lia.
  - intros j t [[-> [E _]] | [Hne E]]%list_lookup_insert_Some; [by apply Hret |]. specialize (L3 j t E). lia.
  - intros j q t Hn [[-> [<- _]] | [Hne E]]%list_lookup_insert_Some Es; [by apply (Hset t Es) | by apply (L4 j q)].
  - intros j q t [[-> [<- _]] | [Hne E]]%list_lookup_insert_Some Es; [by apply (Hset t Es) | by apply (L5 j q)].
Qed.

Lemma get_time_step_inv low high n w i p now : 0 <= low -> MAX_VALID_TIME <= high -> high + 1 < 2 ^ 64 ->
  time_inv low high n w -> tw_calls w !! i = Some p ->
  let '(s, p') := get_time_step (tw_shared w) p now in
  time_inv low (high + 1) n (mkTimeWorld s (<[i := p']> (tw_calls w))).
Proof.
  intros Hlow Hmax Hb Hw E. pose proof Hw as [L1 L2 L3 L4 L5]. apply time_inv_weaken with (high' := high + 1) in Hw; [| lia].
  destruct w as [[m c] calls]. cbn [tw_shared tw_calls fst] in *.
  destruct p as [| cur | local | t | t]; cbn [get_time_step].
  - destruct (GetSysCurrentTime c now) as [cur c']. by apply (time_inv_call _ _ _ (mkTimeWorld (m, c) calls)); cbn; [| lia | |].
  - by apply (time_inv_call _ _ _ (mkTimeWorld (m, c) calls)); cbn; [| lia | |].
  - apply (time_inv_call _ _ _ (mkTimeWorld (m, c) calls)); cbn [tw_shared fst chosen_time]; [done | lia | done |].
    intros t [= <-]. unfold GetLastLocalTime. destruct (Z.leb_spec local (lastLocalTime_ m)); cbn [orb];
      [| destruct (Z.ltb_spec MAX_VALID_TIME local)]; rewrite ?(wrap_small 64) by lia; lia.
  - pose proof (L5 i (GSet t) t E eq_refl) as Ht.
    apply (time_inv_call _ _ _ (mkTimeWorld (m, c) calls)); cbn [tw_shared fst]; rewrite ?SetLastLocalTime_max;
      [done | lia | intros t' [= <-]; lia |].
    intros t' [= <-]. split; [| lia]. intros Hn. by apply (L4 i (GSet t)).
  - rewrite list_insert_id by done. done.
Qed.

Lemma time_step_inv low high n w e : 0 <= low -> MAX_LOCAL_TIME <= high -> high + 1 < 2 ^ 64 -> time_event_ok e ->
  time_inv low high n w -> time_inv low (high + 1) n (time_step w e).
Proof.
  intros Hlow Hmax Hb He Hw. pose proof Hw as [L1 L2 L3 L4 L5].
  assert (Hw' : time_inv low (high + 1) n w) by (apply (time_inv_weaken low high); [done | lia]).
  assert (HM : MAX_VALID_TIME <= MAX_LOCAL_TIME) by (vm_compute; discriminate).
  unfold time_step. destruct (tw_shared w) as [m c] eqn:Es.
  destruct e as [| i now | o | t | d o now]; cbn [time_event_ok] in He.
  - destruct Hw' as [G1 G2 G3 G4 G5]. cbn [fst] in *.
    split; cbn [tw_shared tw_calls fst]; rewrite ?Es in *; cbn [fst] in *; try done.
    + intros i t [E | [_ E]]%lookup_app_Some; [by apply (G3 i) |].
      apply list_lookup_singleton_Some in E as [_ E]. done.
    + intros i p t Hn [E | [_ E]]%lookup_app_Some Ep; [by apply (G4 i p) |].
      apply list_lookup_singleton_Some in E as [_ <-]. done.
    + intros i p t [E | [_ E]]%lookup_app_Some Ep; [by apply (G5 i p) |].
      apply list_lookup_singleton_Some in E as [_ <-]. done.
  - destruct (tw_calls w !! i) as [p|] eqn:E; [| done].
    pose proof (get_time_step_inv low high n w i p now Hlow ltac:(lia) Hb Hw E) as Hs. rewrite Es in Hs.
    by destruct (get_time_step (m, c) p now).
  - apply time_inv_raise; [done |]. cbn [fst]. rewrite save_offset_last, Es. cbn [fst] in *. lia.
  - apply time_inv_raise; [done |]. cbn [fst]. rewrite SetLastLocalTime_max, Es. cbn [fst] in *. lia.
  - apply time_inv_raise; [done |]. rewrite save_time_offset_last, Es. cbn [fst] in *. lia.
Qed.

Lemma time_run_inv es low n : 0 <= low -> Forall time_event_ok es -> forall high w,
  MAX_LOCAL_TIME <= high -> high + Z.of_nat (length es) < 2 ^ 64 ->
  time_inv low high n w -> time_inv low (high + Z.of_nat (length es)) n (time_run w es).
Proof.
  intros Hlow. induction 1 as [|e es He _ IH]; intros high w Hh Hb Hw; [by rewrite Z.add_0_r |].
  cbn [length] in *. replace (high + Z.of_nat (S (length es))) with (high + 1 + Z.of_nat (length es)) by lia.
  apply IH; [lia | lia |]. by apply time_step_inv; [| | lia | |].
Qed.

(** The invariant from a later moment on: calls made from then on. *)
Lemma time_inv_from low high n w : time_inv low high n w ->
  time_inv (last_of w) high (length (tw_calls w)) w.
Proof.
  intros [L1 L2 L3 L4 L5]. split; try done. intros i p t Hi E%lookup_lt_Some. lia.
Qed.

(** After initialization the last time is after every time stamp in the storage. *)
Lemma initialize_after m c now m1 c1 : th_Initialize m c now = (E_OK, (m1, c1)) ->
  0 <= GetMaxDataItemTime m -> 0 <= lastLocalTime_ m ->
  (forall t, now = Some t -> 0 <= t) -> GetMaxDataItemTime m < lastLocalTime_ m1
  /\ (0 <= GetLocalTimeOffset m -> lastLocalTime_ m1 <= Z.max MAX_LOCAL_TIME (lastLocalTime_ m)).
Proof.
  intros E Hmax Hlast Hnow. unfold th_Initialize in E.
  assert (Hcur : 0 <= fst (GetSysCurrentTime c now)).
  { destruct now; cbn; [apply Z.mod_pos_bound; lia | done]. }
  destruct (GetSysCurrentTime c now) as [cur c']. cbn [fst] in Hcur.
  destruct (Z.ltb_spec MAX_VALID_TIME cur) as [|Hc]; [discriminate |].
  destruct (Z.ltb_spec MAX_VALID_TIME (GetLocalTimeOffset m)) as [|Ho]; [discriminate |].
  destruct (Z.ltb_spec MAX_VALID_TIME (GetMaxDataItemTime m)) as [|Hi]; [discriminate |]. cbn [orb] in E.
  assert (HM : MAX_VALID_TIME = 6307200000000000000) by reflexivity.
  unfold MAX_LOCAL_TIME, MS_TO_100_NS in *.
  destruct (Z.leb_spec (u64 (cur + GetLocalTimeOffset m)) (GetMaxDataItemTime m)) as [Hle | Hgt].
  - assert (Hs : to_signed 64 (u64 (GetMaxDataItemTime m - cur + 10000)) = GetMaxDataItemTime m - cur + 10000).
    { unfold to_signed, u64, wrap. rewrite Zmod_mod. change (2 ^ (64 - 1)) with 9223372036854775808.
      change (2 ^ 64) with 18446744073709551616.
      destruct (Z.ltb_spec ((GetMaxDataItemTime m - cur + 10000) mod 18446744073709551616) 9223372036854775808); lia. }
    rewrite Hs in E. pose proof (save_offset_last m (GetMaxDataItemTime m - cur + 10000)) as Hm2.
    destruct (SaveLocalTimeOffset m _) as [e m2]. cbn [snd] in Hm2.
    destruct (Z.eqb_spec e E_OK); cbn [negb] in E; [| congruence]. injection E as <- _.
    rewrite SetLastLocalTime_max, Hm2.
    replace (cur + (GetMaxDataItemTime m - cur + 10000)) with (GetMaxDataItemTime m + 10000) by lia.
    rewrite (wrap_small 64) by lia. lia.
  - injection E as <- _. rewrite SetLastLocalTime_max. split; [lia |]. intros Hpos.
    rewrite (wrap_small 64) by lia. lia.
Qed.

(** C21: Once a [TimeHelper] is initialized, every time stamp that [GetTime] returns is later
    than every time stamp stored before, and a call that has returned has given a smaller time
    stamp than any call that starts after it, by whatever threads and helpers over the same
    meta data the calls are made, however they are interleaved, whatever the system clock
    answers (stands still, goes back, jumps or fails), however the local offset is changed in
    between and whether the storage takes the changes or not. The stored offset and the last
    time before were not negative, no time that other parts report exceeds [MAX_LOCAL_TIME],
    and there are fewer than [2 ^ 62] steps. *)
Theorem timestamps_increase m c now m1 c1 (es1 es2 : list TimeEvent) :
  th_Initialize m c now = (E_OK, (m1, c1)) ->
  (forall t, now = Some t -> 0 <= t) -> 0 <= GetMaxDataItemTime m -> 0 <= GetLocalTimeOffset m ->
  0 <= lastLocalTime_ m <= MAX_LOCAL_TIME ->
  Forall time_event_ok (es1 ++ es2) -> Z.of_nat (length (es1 ++ es2)) < 2 ^ 62 ->
  let w1 := time_run (mkTimeWorld (m1, c1) []) es1 in
  let w2 := time_run w1 es2 in
  (forall i t, tw_calls w2 !! i = Some (GReturned t) -> GetMaxDataItemTime m < t)
  /\ (forall i j t t', tw_calls w1 !! i = Some (GReturned t) -> (length (tw_calls w1) <= j)%nat ->
        tw_calls w2 !! j = Some (GReturned t') -> t < t').
Proof.
  intros E Hnow Hmax Hoff Hlast Hok Hlen w1 w2.
  destruct (initialize_after m c now m1 c1 E Hmax ltac:(lia) Hnow) as [Hgt Hle]. specialize (Hle Hoff).
  assert (HM : MAX_LOCAL_TIME < 2 ^ 64 - 2 ^ 62) by (vm_compute; reflexivity).
  assert (Hw0 : time_inv (lastLocalTime_ m1) MAX_LOCAL_TIME 0 (mkTimeWorld (m1, c1) [])).
  { split; cbn [tw_shared tw_calls fst]; try done; lia. }
  pose proof Hok as [Hok1 Hok2]%Forall_app. rewrite length_app in Hlen.
  pose proof (time_run_inv es1 (lastLocalTime_ m1) 0 ltac:(lia) Hok1 MAX_LOCAL_TIME _ ltac:(done) ltac:(lia) Hw0) as Hw1. fold w1 in Hw1.
  assert (H1pos : 0 <= last_of w1) by (pose proof (ti_low _ _ _ _ Hw1); lia).
  pose proof (time_run_inv es2 (lastLocalTime_ m1) 0 ltac:(lia) Hok2 (MAX_LOCAL_TIME + Z.of_nat (length es1)) _
    ltac:(lia) ltac:(lia) Hw1) as Hw2.
  pose proof (time_run_inv es2 _ _ H1pos Hok2 (MAX_LOCAL_TIME + Z.of_nat (length es1)) _
    ltac:(lia) ltac:(lia) (time_inv_from _ _ _ _ Hw1)) as Hw3.
  fold w2 in Hw2, Hw3. split.
  - intros i t Ei. pose proof (ti_after _ _ _ _ Hw2 i _ t ltac:(lia) Ei eq_refl). lia.
  - intros i j t t' Ei Hj Ej. pose proof (ti_returned _ _ _ _ Hw1 i t Ei).
    pose proof (ti_after _ _ _ _ Hw3 j _ t' Hj Ej eq_refl). lia.
Qed.

End TimeHelper.

(** A storage with data of the future. *)
Section Sample.
#[local] Instance sample_host : Host := {| IsBigEndian := false; char_signed := true |}.
#[local] Instance sample_hash : DeviceHash := {| TransferHashString := fun d => d |}.

Definition sample_metadata : Metadata MemoryStorage :=
  mkMetadata 50 true ∅ ∅ 0 newHelper ∅ (mkMemoryStorage ∅ false 900000).

Definition sample_started : Metadata MemoryStorage * SysClock :=
  (th_Initialize sample_metadata initialClock (Some 1000)).2.

(** A clock that stands still, goes back and fails; the calls 0 and 1 overlap, and so do 2
    and 3. *)
Definition sample_before : list TimeEvent :=
  [TCall; TCall; TStep 0 (Some 1000); TStep 1 (Some 1000); TStep 0 None; TStep 1 None; TStep 0 None; TStep 0 None;
   TStep 1 None; TStep 1 None; TSaveLocalTimeOffset 7].
Definition sample_after : list TimeEvent :=
  [TCall; TCall; TStep 2 (Some 3); TStep 3 None; TStep 2 None; TStep 3 None; TStep 2 None; TStep 3 None;
   TStep 2 None; TStep 3 None].

Lemma timestamps_increase_witness :
  let w1 := time_run (mkTimeWorld sample_started []) sample_before in
  let w2 := time_run w1 sample_after in
  (forall i t, tw_calls w2 !! i = Some (GReturned t) -> GetMaxDataItemTime sample_metadata < t)
  /\ (forall i j t t', tw_calls w1 !! i = Some (GReturned t) -> (length (tw_calls w1) <= j)%nat ->
        tw_calls w2 !! j = Some (GReturned t') -> t < t').
Proof.
  destruct sample_started as [m1 c1] eqn:Es.
  apply (timestamps_increase sample_metadata initialClock (Some 1000) m1 c1 sample_before sample_after).
  - rewrite <- Es. vm_compute. reflexivity.
  - intros t [= <-]. lia.
  - vm_compute. discriminate.
  - vm_compute. discriminate.
  - vm_compute. split; discriminate.
  - repeat constructor.
  - vm_compute. reflexivity.
Defined.

(** The calls 2 and 3 overlap: both read the last time before either sets it, and they return
    the same time stamp. *)
Example overlapping_calls_same_stamp :
  exists t, tw_calls (time_run (time_run (mkTimeWorld sample_started []) sample_before) sample_after) !! 2%nat
      = Some (GReturned t)
    /\ tw_calls (time_run (time_run (mkTimeWorld sample_started []) sample_before) sample_after) !! 3%nat
      = Some (GReturned t).
Proof. eexists. split; vm_compute; reflexivity. Qed.

End Sample.
