(* ===== verification/TimeSync.v ===== *)
(** Model of [TimeSyncPacket] and [TimeSync] (syncer/src/time_sync.cpp): the exchange that
    tells a device how far the clock of another one is ahead. *)

From S2P Require Import Prelude Memory SerialBuffer CommTypes Numerals Parcel AppMessage SyncStorage.
From S2P Require Import WaterMark MetaData TimeHelper.
From Stdlib Require Import ZArith Lia.
From Stdlib Require Import Strings.Byte.
From stdpp Require Import base numbers list gmap.

Open Scope Z_scope.

Definition TIME_SYNC_MESSAGE : Z := 1.
Definition TIME_SYNC_VERSION_V1 : Z := 101.
Definition TRIP_DIV_HALF : Z := 2.
Definition MAX_TIME_OFFSET_NOISE : Z := 1 * 1000 * 10000.
Definition MAX_RETRY_TIME : Z := 1.

(** * Packets *)

Record TimeSyncPacket := mkTimeSyncPacket {
  sourceTimeBegin_ : Z;
  sourceTimeEnd_ : Z;
  targetTimeBegin_ : Z;
  targetTimeEnd_ : Z;
  tp_version_ : Z
}.

Definition newTimeSyncPacket : TimeSyncPacket := mkTimeSyncPacket 0 0 0 0 TIME_SYNC_VERSION_V1.

Definition SetSourceTimeBegin (p : TimeSyncPacket) (t : Z) : TimeSyncPacket :=
  mkTimeSyncPacket t (sourceTimeEnd_ p) (targetTimeBegin_ p) (targetTimeEnd_ p) (tp_version_ p).
Definition SetSourceTimeEnd (p : TimeSyncPacket) (t : Z) : TimeSyncPacket :=
  mkTimeSyncPacket (sourceTimeBegin_ p) t (targetTimeBegin_ p) (targetTimeEnd_ p) (tp_version_ p).
Definition SetTargetTimeBegin (p : TimeSyncPacket) (t : Z) : TimeSyncPacket :=
  mkTimeSyncPacket (sourceTimeBegin_ p) (sourceTimeEnd_ p) t (targetTimeEnd_ p) (tp_version_ p).
Definition SetTargetTimeEnd (p : TimeSyncPacket) (t : Z) : TimeSyncPacket :=
  mkTimeSyncPacket (sourceTimeBegin_ p) (sourceTimeEnd_ p) (targetTimeBegin_ p) t (tp_version_ p).
Definition tp_SetVersion (p : TimeSyncPacket) (version : Z) : TimeSyncPacket :=
  mkTimeSyncPacket (sourceTimeBegin_ p) (sourceTimeEnd_ p) (targetTimeBegin_ p) (targetTimeEnd_ p) version.

Definition tp_CalculateLen : Z :=
  GetEightByteAlign (u32 (GetUInt32Len + GetUInt64Len + GetUInt64Len + GetUInt64Len + GetUInt64Len)).

Abbreviation TimeMessage := (Message TimeSyncPacket).

Section Transform.
Context `{Host} `{Heap}.

Definition IsPacketValid (inMsg : option TimeMessage) (messageType : Z) : bool :=
  match inMsg with
  | None => false
  | Some inMsg => if negb (messageId_ inMsg =? TIME_SYNC_MESSAGE) then false
                  else if negb (messageType =? messageType_ inMsg) then false else true
  end.

(** [Message::SetCopiedObject]. *)
Definition SetCopiedObject {Obj} (m : Message Obj) (o : Obj) : Z * Message Obj :=
  if negb heap_obj then (- E_OUT_OF_MEMORY, m) else (E_OK, set_object m o).

Definition ts_CalculateLen (inMsg : option TimeMessage) : Z :=
  if negb (IsPacketValid inMsg TYPE_RESPONSE || IsPacketValid inMsg TYPE_REQUEST) then 0
  else match inMsg ≫= holderPtr_ with
       | None => 0
       | Some _ => tp_CalculateLen
       end.

(** Each write is followed by a test of its status. *)
Definition or_secure_error (r : Run Z) (rest : Run Z) : Run Z :=
  errCode ← r; if negb (errCode =? E_OK) then mret (- E_SECUREC_ERROR) else rest.

(** [None] as a result is undefined behaviour of the parcel. *)
Definition Serialization (buffer : option (list byte)) (length : Z) (inMsg : option TimeMessage)
    : option (Z * option (list byte)) :=
  match buffer with
  | None => Some (- E_INVALID_ARGS, buffer)
  | Some _ =>
    if negb (IsPacketValid inMsg TYPE_RESPONSE || IsPacketValid inMsg TYPE_REQUEST)
    then Some (- E_INVALID_ARGS, buffer)
    else match inMsg ≫= holderPtr_ with
         | None => Some (- E_INVALID_ARGS, buffer)
         | Some packet =>
           if negb (length =? tp_CalculateLen) then Some (- E_INVALID_ARGS, buffer)
           else
             '(errCode, p) ←
               or_secure_error (WriteUInt32 TIME_SYNC_VERSION_V1)
                 (or_secure_error (WriteUInt64 (sourceTimeBegin_ packet))
                   (or_secure_error (WriteUInt64 (sourceTimeEnd_ packet))
                     (or_secure_error (WriteUInt64 (targetTimeBegin_ packet))
                       (or_secure_error (WriteUInt64 (targetTimeEnd_ packet))
                         (_ ← EightByteAlign; mret E_OK))))) (newParcel buffer length);
             Some (errCode, buf_ p)
         end
  end.

(** The times are not initialized before they are read: what they would be is not used. *)
Definition DeSerialization (buffer : option (list byte)) (length : Z) (inMsg : option TimeMessage)
    : option (Z * option TimeMessage) :=
  match buffer, inMsg with
  | Some _, Some m =>
    if negb (IsPacketValid inMsg TYPE_RESPONSE || IsPacketValid inMsg TYPE_REQUEST)
    then Some (- E_INVALID_ARGS, inMsg)
    else
      '((_, version), p) ← ReadUInt32 0 (newParcel buffer length);
      if isError_ p then Some (- E_INVALID_ARGS, inMsg)
      else if TIME_SYNC_VERSION_V1 <? version then
        let '(e, m) := SetCopiedObject m (tp_SetVersion newTimeSyncPacket version) in Some (e, Some m)
      else
        '(packet, p) ← ('(_, srcBegin) ← ReadUInt64 0;
                        '(_, srcEnd) ← ReadUInt64 0;
                        '(_, targetBegin) ← ReadUInt64 0;
                        '(_, targetEnd) ← ReadUInt64 0;
                        mret (SetTargetTimeEnd (SetTargetTimeBegin (SetSourceTimeEnd
                          (SetSourceTimeBegin newTimeSyncPacket srcBegin) srcEnd) targetBegin) targetEnd)) p;
        if isError_ p then Some (- E_INVALID_ARGS, inMsg)
        else let '(e, m) := SetCopiedObject m packet in Some (e, Some m)
  | _, _ => Some (- E_INVALID_ARGS, inMsg)
  end.

(** What is registered. The functions are defined on the buffers they are called with (see
    [serialization_defined] and [deserialization_defined] in TimeSyncFacts). *)
Definition time_sync_transform : TransformFunc TimeSyncPacket :=
  mkTransformFunc
    (Some (fun m => ts_CalculateLen (Some m)))
    (Some (fun buffer length m =>
       match Serialization (Some buffer) length (Some m) with
       | Some (e, Some bs) => (e, bs)
       | _ => (- E_INTERNAL_ERROR, buffer)
       end))
    (Some (fun buffer length m =>
       match DeSerialization (Some buffer) length (Some m) with
       | Some (e, Some m) => (e, m)
       | _ => (- E_INTERNAL_ERROR, m)
       end)).

Definition RegisterTransformFunc (reg : Registry TimeSyncPacket) : Z * Registry TimeSyncPacket :=
  RegTransformFunction reg TIME_SYNC_MESSAGE time_sync_transform.

End Transform.

(** * The exchange *)

(** [std::abs] of an [int64_t]; [None] is its overflow. *)
Definition abs64 (z : Z) : option Z := if z =? INT64_MIN then None else Some (Z.abs z).

Definition i64 (z : Z) : Z := to_signed 64 (u64 z).

(** The operands are unsigned, except [roundTrip], whose half is converted. *)
Definition CalculateTimeOffset (p : TimeSyncPacket) : Z :=
  let roundTrip := i64 (u64 (u64 (sourceTimeEnd_ p - sourceTimeBegin_ p)
                             - u64 (targetTimeEnd_ p - targetTimeBegin_ p))) in
  let half := u64 (Z.quot roundTrip TRIP_DIV_HALF) in
  let offset1 := i64 (u64 (u64 (targetTimeBegin_ p - sourceTimeBegin_ p) - half)) in
  let offset2 := i64 (u64 (u64 (targetTimeEnd_ p + half) - sourceTimeEnd_ p)) in
  Z.quot offset1 TRIP_DIV_HALF + Z.quot offset2 TRIP_DIV_HALF.

(** The fields of [TimeSync]; [metadata_] and the clock are shared and passed along.
    [timeHelper_] works on the same metadata. *)
Record TimeSync := mkTimeSync {
  deviceId_ : DeviceID;
  retryTime_ : Z;
  driverTimerId_ : Z;
  isSynced_ : bool;
  isAckReceived_ : bool;
  timeDriverLockCount_ : Z;
  isOnline_ : bool
}.

Definition newTimeSync : TimeSync := mkTimeSync [] 0 0 false false 0 true.

Definition ts_set_timer (s : TimeSync) (id : Z) : TimeSync :=
  mkTimeSync (deviceId_ s) (retryTime_ s) id (isSynced_ s) (isAckReceived_ s) (timeDriverLockCount_ s) (isOnline_ s).
Definition ts_set_retry (s : TimeSync) (n : Z) : TimeSync :=
  mkTimeSync (deviceId_ s) n (driverTimerId_ s) (isSynced_ s) (isAckReceived_ s) (timeDriverLockCount_ s) (isOnline_ s).
Definition ts_set_synced (s : TimeSync) (b : bool) : TimeSync :=
  mkTimeSync (deviceId_ s) (retryTime_ s) (driverTimerId_ s) b (isAckReceived_ s) (timeDriverLockCount_ s) (isOnline_ s).
Definition ts_set_acked (s : TimeSync) (b : bool) : TimeSync :=
  mkTimeSync (deviceId_ s) (retryTime_ s) (driverTimerId_ s) (isSynced_ s) b (timeDriverLockCount_ s) (isOnline_ s).
Definition ts_set_count (s : TimeSync) (n : Z) : TimeSync :=
  mkTimeSync (deviceId_ s) (retryTime_ s) (driverTimerId_ s) (isSynced_ s) (isAckReceived_ s) n (isOnline_ s).
Definition SetOnline (s : TimeSync) (b : bool) : TimeSync :=
  mkTimeSync (deviceId_ s) (retryTime_ s) (driverTimerId_ s) (isSynced_ s) (isAckReceived_ s) (timeDriverLockCount_ s) b.

Definition IsNeedSync (s : TimeSync) : bool := negb (isSynced_ s).

(** [timer] is what [SetTimer] answers: its status and the id it stores. *)
Definition ResetTimer (s : TimeSync) (timer : Z * Z) : TimeSync := ts_set_timer s timer.2.

(** [alive]: whether the object is still in [timeSyncSet_]. *)
Definition CommErrHandlerFunc (errCode : Z) (alive : bool) (s : TimeSync) : TimeSync :=
  if negb alive then s
  else if negb (errCode =? E_OK) then SetOnline s false else SetOnline s true.

Section Exchange.
Context `{Host} `{Heap} `{DeviceHash} {St : Type} `{SyncStorage St}.
Implicit Types (s : TimeSync) (m : Metadata St) (c : SysClock).

Definition World : Type := TimeSync * Metadata St * SysClock.

(** [communicator], [storage] and [metadata] say whether the pointers are set. *)
Definition ts_Initialize s m c (communicator storage metadata : bool) (deviceId : DeviceID)
    (now : option Z) (timer : Z * Z) : Z * World :=
  if negb communicator || negb storage || negb metadata then (- E_INVALID_ARGS, (s, m, c))
  else
    let s := mkTimeSync deviceId (retryTime_ s) (driverTimerId_ s) (isSynced_ s) (isAckReceived_ s)
               (timeDriverLockCount_ s) (isOnline_ s) in
    let '(errCode, (m, c)) := th_Initialize m c now in
    if negb (errCode =? E_OK) then (errCode, (s, m, c))
    else (timer.1, (ts_set_timer s timer.2, m, c)).

Definition newMessage (id : Z) : TimeMessage := SetMessageId emptyMessage id.

(** [sent] is what [SendMessage] answers; the message it was given is returned, too. *)
Definition SyncStart s m c (sessionId : Z) (now : option Z) (sent : Z) : (Z * option TimeMessage) * World :=
  let s := SetOnline s true in
  let '(startTime, (m, c)) := GetTime m c now in
  let packet := SetSourceTimeBegin newTimeSyncPacket startTime in
  if negb heap_obj then ((- E_OUT_OF_MEMORY, None), (s, m, c))
  else
    let message := SetSessionId (newMessage TIME_SYNC_MESSAGE) sessionId in
    let '(_, message) := SetMessageType message TYPE_REQUEST in
    let message := SetPriority message NORMAL in
    let '(errCode, message) := SetCopiedObject message packet in
    if negb (errCode =? E_OK) then ((errCode, None), (s, m, c))
    else ((sent, Some message), (s, m, c)).

(** The message is received with [target] set by the communicator. *)
Definition AckRecv s m c (message : option TimeMessage) (targetSessionId : Z) (now now' : option Z)
    (timer : Z * Z) : Z * World :=
  let closed := match message with
                | Some msg => negb (sessionId_ msg =? 0)
                              && (errorNo_ msg =? E_FEEDBACK_COMMUNICATOR_NOT_FOUND)
                              && (sessionId_ msg =? targetSessionId)
                | None => false
                end in
  if closed then (- E_FEEDBACK_COMMUNICATOR_NOT_FOUND, (s, m, c))
  else if negb (IsPacketValid message TYPE_RESPONSE) then (- E_INVALID_ARGS, (s, m, c))
  else match message ≫= holderPtr_ with
       | None => (- E_INVALID_ARGS, (s, m, c))
       | Some packet =>
         let '(sourceTimeEnd, (m, c)) := GetTime m c now in
         let packetData := SetSourceTimeEnd packet sourceTimeEnd in
         if (sourceTimeEnd_ packetData <? sourceTimeBegin_ packetData)
            || (targetTimeEnd_ packetData <? targetTimeBegin_ packetData)
            || (MAX_VALID_TIME <? sourceTimeEnd_ packetData)
            || (MAX_VALID_TIME <? targetTimeEnd_ packetData) then (- E_INVALID_TIME, (s, m, c))
         else
           let offset := CalculateTimeOffset packetData in
           let '(errCode, (m, c)) := SaveTimeOffset m (deviceId_ s) offset c now' in
           let s := ts_set_acked (ts_set_synced s true) true in
           (errCode, (ResetTimer s timer, m, c))
       end.

(** Whether the offset that is known is too far from what the request shows. *)
Definition offset_invalid (metadataTimeoffset timeoffsetIgnoreRtt : Z) : option bool :=
  a ← abs64 metadataTimeoffset;
  if INT64_MAX / 2 <=? a then Some true
  else
    b ← abs64 timeoffsetIgnoreRtt;
    if INT64_MAX / 2 <=? b then Some true
    else d ← abs64 (metadataTimeoffset - timeoffsetIgnoreRtt); Some (MAX_TIME_OFFSET_NOISE <? d).

(** [None]: [std::abs] overflows. *)
Definition RequestRecv s m c (message : option TimeMessage) (now now' : option Z) (sent : Z)
    : option ((Z * option TimeMessage) * World) :=
  if negb (IsPacketValid message TYPE_REQUEST) then Some ((- E_INVALID_ARGS, None), (s, m, c))
  else
    let '(targetTimeBegin, (m, c)) := GetTime m c now in
    match message, message ≫= holderPtr_ with
    | Some msg, Some packet =>
      let ackPacket := SetTargetTimeBegin packet targetTimeBegin in
      let '(targetTimeEnd, (m, c)) := GetTime m c now' in
      let ackPacket := SetTargetTimeEnd ackPacket targetTimeEnd in
      if MAX_VALID_TIME <? sourceTimeBegin_ ackPacket then Some ((- E_INVALID_TIME, None), (s, m, c))
      else
        let timeoffsetIgnoreRtt := i64 (sourceTimeBegin_ ackPacket - targetTimeBegin) in
        let '(metadataTimeoffset, m) := GetTimeOffset m (deviceId_ s) in
        invalid ← offset_invalid metadataTimeoffset timeoffsetIgnoreRtt;
        let s := if invalid : bool then ts_set_synced s false else s in
        if negb heap_obj then Some ((- E_OUT_OF_MEMORY, None), (s, m, c))
        else
          let ackMessage := SetSessionId (newMessage TIME_SYNC_MESSAGE) (sessionId_ msg) in
          let ackMessage := SetPriority ackMessage NORMAL in
          let '(_, ackMessage) := SetMessageType ackMessage TYPE_RESPONSE in
          let ackMessage := SetTarget ackMessage (deviceId_ s) in
          let '(errCode, ackMessage) := SetCopiedObject ackMessage ackPacket in
          if negb (errCode =? E_OK) then Some ((errCode, None), (s, m, c))
          else Some ((sent, Some ackMessage), (s, m, c))
    | _, _ => Some ((- E_INVALID_ARGS, None), (s, m, c))
    end.

(** ** [GetTimeOffset] *)

(** Up to the wait for the answer: [None] if there is nothing to wait for. The time that is
    logged, [now'], is read from the same clock. *)
Definition GetTimeOffset_begin s m c (sessionId : Z) (now now' : option Z) (sent : Z)
    : option (Z * option TimeMessage) * World :=
  if isSynced_ s then (None, (s, m, c))
  else let '(r, (s, m, c)) := SyncStart (ts_set_acked s false) m c sessionId now sent in
       let '(_, c) := GetSysCurrentTime c now' in (Some r, (s, m, c)).

(** After the wait, which ends with an answer or a time-out ([begun] is what
    [GetTimeOffset_begin] returned): the status and the offset, or [None] if the call starts
    over. *)
Definition GetTimeOffset_end s m (begun : option (Z * option TimeMessage)) (outOffset : Z)
    : option (Z * Z) * (TimeSync * Metadata St) :=
  let failed := match begun with
                | None => false
                | Some (errCode, _) => negb (errCode =? E_OK) || negb (isAckReceived_ s)
                end in
  if failed then
    let s := ts_set_retry s (retryTime_ s + 1) in
    if retryTime_ s <? MAX_RETRY_TIME then (None, (s, m))
    else (Some (- E_TIMEOUT, outOffset), (ts_set_retry s 0, m))
  else let '(offset, m) := GetTimeOffset m (deviceId_ s) in (Some (E_OK, offset), (ts_set_retry s 0, m)).

(** ** The timer *)

(** [scheduled] is what [ScheduleTask] answers. *)
Definition TimeSyncDriver s (timerId : Z) (scheduled : Z) : Z * TimeSync :=
  if negb (timerId =? driverTimerId_ s) then (- E_INTERNAL_ERROR, s)
  else if negb (isOnline_ s) then (E_OK, s)
  else if negb (scheduled =? E_OK) then (scheduled, s)
  else (E_OK, ts_set_count s (timeDriverLockCount_ s + 1)).

(** The task that the driver schedules. *)
Definition driver_task s m c (now : option Z) (sent : Z) : option TimeMessage * World :=
  let '((_, message), (s, m, c)) := SyncStart s m c 0 now sent in
  (message, (ts_set_count s (timeDriverLockCount_ s - 1), m, c)).

(** [Finalize] returns once no task is left. *)
Definition Finalize_done s : bool := timeDriverLockCount_ s =? 0.

End Exchange.
