(* ===== verification/TimeSyncFacts.v ===== *)
(** Time synchronization: its packets survive the wire, and after an exchange the offset
    that is saved is the difference of the two clocks, up to half the difference of the two
    transfer times. *)

From S2P Require Import Prelude Memory SerialBuffer FrameHeader CommTypes ProtocolProto Numerals.
From S2P Require Import Parcel ParcelFacts AppMessage AppMessageFacts SyncStorage.
From S2P Require Import WaterMark WaterMarkFacts WaterMarkCache MetaData MetaDataFacts TimeHelper TimeSync.
From Stdlib Require Import ZArith Lia.
From Stdlib Require Import Strings.Byte.
From stdpp Require Import base numbers list gmap.

Open Scope Z_scope.

(** * The packet on the wire *)

Record times_ok (p : TimeSyncPacket) : Prop := {
  po_sb : u64_ok (sourceTimeBegin_ p);
  po_se : u64_ok (sourceTimeEnd_ p);
  po_tb : u64_ok (targetTimeBegin_ p);
  po_te : u64_ok (targetTimeEnd_ p)
}.

Definition packet_ok (p : TimeSyncPacket) : Prop := times_ok p /\ tp_version_ p = TIME_SYNC_VERSION_V1.

Section Wire.
Context `{Host} `{Heap}.

Definition packet_items (p : TimeSyncPacket) : list Item :=
  [IUInt32 TIME_SYNC_VERSION_V1; IUInt64 (sourceTimeBegin_ p); IUInt64 (sourceTimeEnd_ p);
   IUInt64 (targetTimeBegin_ p); IUInt64 (targetTimeEnd_ p); IAlign].

Lemma or_secure_error_ok r rest p q : r p = Some (E_OK, q) -> or_secure_error r rest p = rest q.
Proof. intros E. unfold or_secure_error. by rewrite (run_bind_eq _ _ _ _ _ E). Qed.

(** The writer of the packet and the one that stops at the first error agree on success. *)
Lemma serialization_writes pk p q :
  write_until_error (packet_items pk) p = Some (E_OK, q) ->
  or_secure_error (WriteUInt32 TIME_SYNC_VERSION_V1)
    (or_secure_error (WriteUInt64 (sourceTimeBegin_ pk))
      (or_secure_error (WriteUInt64 (sourceTimeEnd_ pk))
        (or_secure_error (WriteUInt64 (targetTimeBegin_ pk))
          (or_secure_error (WriteUInt64 (targetTimeEnd_ pk))
            (_ ← EightByteAlign; mret E_OK))))) p = Some (E_OK, q).
Proof.
  assert (Hstep : forall r k k' p0, (forall p1, k p1 = Some (E_OK, q) -> k' p1 = Some (E_OK, q)) ->
    then_write r k p0 = Some (E_OK, q) -> or_secure_error r k' p0 = Some (E_OK, q)).
  { intros r k k' p0 Hk. unfold then_write, or_secure_error, mbind, run_bind.
    destruct (r p0) as [[s p1]|]; [| done]. cbn. destruct (Z.eqb_spec s E_OK); cbn; [apply Hk |].
    unfold mret, run_ret. congruence. }
  cbn [packet_items write_until_error write_item].
  do 5 (apply Hstep; intros ?). unfold then_write, mbind, run_bind, mret, run_ret.
  by destruct (EightByteAlign _) as [[? ?]|].
Qed.

Definition is_time_message (m : TimeMessage) (p : TimeSyncPacket) : Prop :=
  messageId_ m = TIME_SYNC_MESSAGE /\ (messageType_ m = TYPE_REQUEST \/ messageType_ m = TYPE_RESPONSE)
  /\ holderPtr_ m = Some p.

Lemma time_message_valid m p : is_time_message m p ->
  IsPacketValid (Some m) TYPE_RESPONSE || IsPacketValid (Some m) TYPE_REQUEST = true.
Proof. intros (Hid & Ht & _). unfold IsPacketValid. rewrite Hid. by destruct Ht as [-> | ->]. Qed.

Lemma serialization_ok m p window : times_ok p -> is_time_message m p -> zlen window = 40 ->
  exists data, Serialization (Some window) 40 (Some m) = Some (E_OK, Some data)
    /\ zlen data = 40 /\ laid_out 40 0 (packet_items p) data.
Proof.
  intros [] Hm Hz. unfold Serialization, u64_ok in *. rewrite (time_message_valid m p Hm). cbn [negb].
  destruct Hm as (_ & _ & Hh). cbn [mbind option_bind]. rewrite Hh.
  change (40 =? tp_CalculateLen) with true. cbn [negb].
  destruct (write_fitting (packet_items p)) with (m := window) (off := 0) as (m' & E & Hz' & Hlay & _).
  - unfold packet_items. rewrite !Forall_cons. cbn [item_ok]. unfold TIME_SYNC_VERSION_V1. split_and!; (done || lia).
  - unfold INT32_MAX. lia.
  - apply reach_start.
  - rewrite Hz. cbn [packet_items all_fit fits adv enc]. rewrite !zlen_be_bytes. split_and!; (done || lia).
  - assert (Hnew : newParcel (Some window) 40 = cursor window 0) by (rewrite <- Hz; apply new_cursor; lia).
    rewrite Hnew, (serialization_writes p _ _ E). cbn. rewrite Hz in *. eauto.
Qed.

(** Reading stops at the version if it is a newer one. *)
Lemma deserialization_ok m p data : packet_ok p -> heap_obj = true ->
  messageId_ m = TIME_SYNC_MESSAGE -> messageType_ m = TYPE_REQUEST \/ messageType_ m = TYPE_RESPONSE ->
  zlen data = 40 -> laid_out 40 0 (packet_items p) data ->
  DeSerialization (Some data) 40 (Some m) = Some (E_OK, Some (set_object m p)).
Proof.
  intros [[] Hver] Hheap Hid Ht Hz Hlay. unfold u64_ok in *. unfold DeSerialization.
  assert (Hval : IsPacketValid (Some m) TYPE_RESPONSE || IsPacketValid (Some m) TYPE_REQUEST = true)
    by (unfold IsPacketValid; rewrite Hid; by destruct Ht as [-> | ->]).
  rewrite Hval. cbn [negb].
  assert (Hnew : newParcel (Some data) 40 = cursor data 0) by (rewrite <- Hz; apply new_cursor; lia).
  rewrite Hnew. rewrite <- Hz in Hlay.
  cbn [packet_items laid_out fits adv enc] in Hlay. rewrite !zlen_be_bytes in Hlay.
  change (Z.of_nat 8) with 8 in Hlay. change (Z.of_nat 4) with 4 in Hlay.
  change (0 + 4) with 4 in Hlay. change (4 + 8) with 12 in Hlay. change (12 + 8) with 20 in Hlay.
  change (20 + 8) with 28 in Hlay.
  destruct Hlay as (F1 & S1 & F2 & S2 & F3 & S3 & F4 & S4 & F5 & S5 & _).
  assert (Hm : zlen data <= INT32_MAX) by (unfold INT32_MAX; lia).
  unfold ReadUInt32. rewrite (ReadInteger_ok data 0 Hm ltac:(lia) 4 _ (be_bytes 4 TIME_SYNC_VERSION_V1)) by (done || lia).
  cbn [mbind option_bind isError_ cursor]. rewrite be_val_be_bytes.
  change (TIME_SYNC_VERSION_V1 <? TIME_SYNC_VERSION_V1 mod 256 ^ Z.of_nat 4) with false. cbv iota.
  change (0 + Z.of_nat 4) with 4. fold (cursor data 4).
  match goal with |- (mbind _ ?r) = _ =>
    assert (E : r = Some (SetTargetTimeEnd (SetTargetTimeBegin (SetSourceTimeEnd
      (SetSourceTimeBegin newTimeSyncPacket (sourceTimeBegin_ p)) (sourceTimeEnd_ p)) (targetTimeBegin_ p))
      (targetTimeEnd_ p), cursor data 36)) end.
  { eapply run_bind_then; [apply (ReadUInt64_ok data 4 _ (sourceTimeBegin_ p)); (done || lia) |]. cbv beta iota.
    eapply run_bind_then; [apply (ReadUInt64_ok data 12 _ (sourceTimeEnd_ p)); (done || lia) |]. cbv beta iota.
    eapply run_bind_then; [apply (ReadUInt64_ok data 20 _ (targetTimeBegin_ p)); (done || lia) |]. cbv beta iota.
    eapply run_bind_then; [apply (ReadUInt64_ok data 28 _ (targetTimeEnd_ p)); (done || lia) |]. reflexivity. }
  rewrite E. cbn [mbind option_bind isError_ cursor]. unfold SetCopiedObject. rewrite Hheap. cbn [negb].
  do 4 f_equal. destruct p; cbn in *. by subst.
Qed.

(** The registered functions satisfy what the communicator requires of them. *)
Lemma time_sync_codec m p : heap_obj = true -> packet_ok p -> is_time_message m p ->
  codec time_sync_transform m 40 p.
Proof.
  intros Hheap Hp Hm. constructor; (eexists; split; [reflexivity |]); cbv beta.
  - unfold ts_CalculateLen. rewrite (time_message_valid m p Hm). cbn [negb].
    destruct Hm as (_ & _ & Hh). cbn [mbind option_bind]. by rewrite Hh.
  - intros window Hz. destruct (serialization_ok m p window (proj1 Hp) Hm Hz) as (data & -> & Hd & Hlay).
    exists data. split; [done |]. constructor; [done |]. eexists. split; [reflexivity |]. cbv beta.
    intros m' Hid Ht. destruct Hm as (Hmid & Hmt & _).
    rewrite (deserialization_ok m' p data Hp Hheap) by (congruence || (rewrite Ht; tauto)). done.
Qed.

(** No call of the communicator makes the functions read or write outside the buffer. *)
Lemma serialization_defined m window : zlen window < 2 ^ 32 ->
  (forall p, holderPtr_ m = Some p -> times_ok p) ->
  exists e data, Serialization (Some window) (zlen window) (Some m) = Some (e, Some data)
    /\ zlen data = zlen window.
Proof.
  intros Hz Hp. destruct (IsPacketValid (Some m) TYPE_RESPONSE || IsPacketValid (Some m) TYPE_REQUEST) eqn:Hv.
  2: { unfold Serialization. rewrite Hv. cbn. eauto. }
  destruct (holderPtr_ m) as [p|] eqn:Hh.
  2: { unfold Serialization. rewrite Hv. cbn. rewrite Hh. eauto. }
  destruct (Z.eqb_spec (zlen window) 40) as [E | E].
  - destruct (serialization_ok m p window (Hp p eq_refl)) as (data & Es & Hd & _); [| done |].
    + unfold IsPacketValid in Hv. split_and!; [| | done].
      * by destruct (Z.eqb_spec (messageId_ m) TIME_SYNC_MESSAGE).
      * destruct (negb (messageId_ m =? TIME_SYNC_MESSAGE)); [done |].
        destruct (Z.eqb_spec TYPE_RESPONSE (messageType_ m)); [right; congruence |].
        destruct (Z.eqb_spec TYPE_REQUEST (messageType_ m)); [left; congruence | done].
    + rewrite E. eauto.
  - unfold Serialization. rewrite Hv. cbn [negb mbind option_bind]. rewrite Hh.
    rewrite (proj2 (Z.eqb_neq _ _)) by (change tp_CalculateLen with 40; done). cbn. eauto.
Qed.

Lemma deserialization_defined m data : 0 < zlen data < 2 ^ 32 ->
  exists e m', DeSerialization (Some data) (zlen data) (Some m) = Some (e, Some m').
Proof.
  intros Hz. unfold DeSerialization. destruct (negb _); [eauto |]. rewrite new_cursor by lia.
  assert (Hwf : parcel_wf (m := data) (cursor data 0)) by (split_and!; try done; [cbn; lia | apply reach_start]).
  destruct (safe_ReadInteger (m := data) 4 0 ltac:(lia) _ Hwf) as (len & v & q & E & Hq & _).
  unfold ReadUInt32. rewrite E. cbn [mbind option_bind]. destruct (isError_ q); [eauto |].
  unfold SetCopiedObject. destruct (TIME_SYNC_VERSION_V1 <? v); [destruct (negb heap_obj); eauto |].
  assert (Hr : forall x, safe_read (m := data) (ReadUInt64 x)) by (intros x; apply safe_ReadInteger; lia).
  match goal with |- context [mbind ?k ?r] =>
    assert (E' : exists b q', r = Some (b, q') /\ True) end.
  { do 4 (apply (safe_next (m := data)); [apply Hr | assumption |]; intros ? ? ? ? _ _). eauto. }
  destruct E' as (b & q' & -> & _). cbn [mbind option_bind]. destruct (isError_ q'), (negb heap_obj); eauto.
Qed.

(** A time synchronization request or answer, with whatever times, reaches the other
    side with the packet it was sent with: the functions that [TimeSync] registers compute
    the length, write and read it as the communicator expects, in any buffer. *)
Theorem time_packet_roundtrip src (m : TimeMessage) (p : TimeSyncPacket) h e head label frameId :
  heap_total -> message_ok m -> IsFeedbackErrorMessage (errorNo_ m) = false ->
  is_time_message m p -> packet_ok p -> handle_ok h e head ->
  zlen label = COMM_LABEL_LENGTH -> 0 <= frameId < 2 ^ 32 ->
  let reg := (RegisterTransformFunc ∅).2 in
  exists b r rb,
    ToSerialBuffer reg (Some m) h false = Some (E_OK, Some b) /\
    transports src b label frameId r rb /\ commLabel_ r = label /\
    ToMessage reg (Some rb) false = Some (E_OK, Some (received m (Some p))).
Proof.
  intros Hheap Hm Hfb Htm Hp Hh Hl Hf reg.
  destruct (app_message_ok src reg time_sync_transform m 40 p h e head label frameId)
    as (b & r & rb & E1 & E2 & _ & _ & E3 & E4); try done.
  - destruct Htm as (-> & _). reflexivity.
  - by apply time_sync_codec; [apply Hheap | |].
  - eauto 10.
Qed.

End Wire.

(** * The computed offset *)

Lemma i64_congr x z : INT64_MIN <= x <= INT64_MAX -> z mod 2 ^ 64 = x mod 2 ^ 64 -> i64 z = x.
Proof.
  unfold INT64_MIN, INT64_MAX. intros Hx E. unfold i64, to_signed, u64, wrap. rewrite Zmod_mod, E.
  change (2 ^ (64 - 1)) with 9223372036854775808. change (2 ^ 64) with 18446744073709551616.
  destruct (Z.ltb_spec (x mod 18446744073709551616) 9223372036854775808); lia.
Qed.

(** For times that [AckRecv] accepts nothing overflows, and twice the offset is the sum of
    the two differences up to rounding. *)
Lemma CalculateTimeOffset_spec p :
  0 <= sourceTimeBegin_ p <= sourceTimeEnd_ p -> 0 <= targetTimeBegin_ p <= targetTimeEnd_ p ->
  sourceTimeEnd_ p <= MAX_VALID_TIME -> targetTimeEnd_ p <= MAX_VALID_TIME ->
  Z.abs (2 * CalculateTimeOffset p
         - ((targetTimeBegin_ p - sourceTimeBegin_ p) + (targetTimeEnd_ p - sourceTimeEnd_ p))) <= 4.
Proof.
  destruct p as [sb se tb te v]. cbn [sourceTimeBegin_ sourceTimeEnd_ targetTimeBegin_ targetTimeEnd_].
  change MAX_VALID_TIME with 6307200000000000000. intros Hs Ht HM HM'.
  unfold CalculateTimeOffset. cbn [sourceTimeBegin_ sourceTimeEnd_ targetTimeBegin_ targetTimeEnd_].
  rewrite (i64_congr ((se - sb) - (te - tb)) (u64 (u64 (se - sb) - u64 (te - tb)))).
  2: { unfold INT64_MIN, INT64_MAX. lia. }
  2: { unfold u64, wrap. rewrite ?Zmod_mod. first [by rewrite <- Zminus_mod | by rewrite Zplus_mod_idemp_r, Zminus_mod_idemp_l]. }
  set (rt := (se - sb) - (te - tb)). set (half := Z.quot rt TRIP_DIV_HALF).
  assert (Hhalf : Z.abs (2 * half - rt) <= 1).
  { unfold half. pose proof (Z.quot_rem' rt TRIP_DIV_HALF) as Hq.
    pose proof (Z.rem_bound_abs rt TRIP_DIV_HALF ltac:(discriminate)) as Hr. unfold TRIP_DIV_HALF in *. lia. }
  clearbody half.
  rewrite (i64_congr (tb - sb - half) (u64 (u64 (tb - sb) - u64 half))).
  2: { unfold INT64_MIN, INT64_MAX, rt in *. lia. }
  2: { unfold u64, wrap. rewrite ?Zmod_mod. first [by rewrite <- Zminus_mod | by rewrite Zplus_mod_idemp_r, Zminus_mod_idemp_l]. }
  rewrite (i64_congr (te + half - se) (u64 (u64 (te + u64 half) - se))).
  2: { unfold INT64_MIN, INT64_MAX, rt in *. lia. }
  2: { unfold u64, wrap. rewrite ?Zmod_mod. first [by rewrite <- Zminus_mod | by rewrite Zplus_mod_idemp_r, Zminus_mod_idemp_l]. }
  assert (Hq : forall x, Z.abs (2 * Z.quot x TRIP_DIV_HALF - x) <= 1).
  { intros x. pose proof (Z.quot_rem' x TRIP_DIV_HALF) as Hq.
    pose proof (Z.rem_bound_abs x TRIP_DIV_HALF ltac:(discriminate)) as Hr. unfold TRIP_DIV_HALF in *. lia. }
  pose proof (Hq (tb - sb - half)). pose proof (Hq (te + half - se)). unfold rt in *. lia.
Qed.

Section Exchange.
Context `{Host} `{Heap} `{DeviceHash} {St : Type} `{SyncStorage St}.
Implicit Types (s : TimeSync) (m : Metadata St) (c : SysClock).

Lemma GetTime_nonneg m c now : 0 <= (GetTime m c now).1.
Proof.
  unfold GetTime. destruct (GetSysCurrentTime c now) as [t c'].
  destruct (_ || _); cbn [fst]; apply Z.mod_pos_bound; lia.
Qed.

(** The offset that was saved is the one that is read. *)
Lemma save_get_offset m d v c now m' c' :
  SaveTimeOffset m d v c now = (E_OK, (m', c')) -> (GetTimeOffset m' d).1 = v.
Proof.
  unfold SaveTimeOffset. destruct (GetMetaDataValue m d true) as [x m1] eqn:E1.
  destruct (GetSysCurrentTime c now) as [t c1].
  unfold SaveMetaDataValue. destruct (GetHashDeviceId m1 d true) as [hash m2] eqn:E2.
  destruct (SetMetadataToDb m2 hash _) as [e m3] eqn:E3.
  destruct (Z.eqb_spec e E_OK) as [-> | He]; cbn [negb]; [| congruence]. intros [= <- _].
  assert (Hid : deviceIdToHashDeviceIdMap_ m3 !! d = Some hash).
  { assert (Hid2 : deviceIdToHashDeviceIdMap_ m2 !! d = Some hash).
    { unfold GetHashDeviceId in E2. cbn [negb] in E2. destruct (deviceIdToHashDeviceIdMap_ m1 !! d) eqn:Ed.
      - by injection E2 as <- <-.
      - injection E2 as <- <-. unfold set_hash_ids. cbn [deviceIdToHashDeviceIdMap_]. apply lookup_insert_eq. }
    unfold SetMetadataToDb in E3. destruct (naturalStoragePtr_ m2); [| by injection E3 as _ <-].
    destruct (PutMetaData _ _ _) as [e st]. by injection E3 as _ <-. }
  unfold GetTimeOffset, GetMetaDataValue, GetHashDeviceId. cbn [negb].
  unfold PutMetadataToMap, set_metadata_map. cbn [deviceIdToHashDeviceIdMap_]. rewrite Hid.
  unfold GetMetadataFromMap. cbn [metadataMap_]. by rewrite lookup_insert_eq.
Qed.

Lemma SyncStart_sends s m c sid now req w :
  SyncStart s m c sid now E_OK = ((E_OK, Some req), w) ->
  messageId_ req = TIME_SYNC_MESSAGE /\ messageType_ req = TYPE_REQUEST /\ sessionId_ req = sid
  /\ holderPtr_ req = Some (SetSourceTimeBegin newTimeSyncPacket (GetTime m c now).1).
Proof.
  unfold SyncStart, SetCopiedObject. destruct (GetTime m c now) as [t [m1 c1]].
  destruct heap_obj; cbn; [| congruence]. intros [= <- _]. done.
Qed.

Lemma RequestRecv_answers s m c req now now' ack w p :
  holderPtr_ req = Some p -> RequestRecv s m c (Some req) now now' E_OK = Some ((E_OK, Some ack), w) ->
  let '(tb, (m1, c1)) := GetTime m c now in
  messageId_ ack = TIME_SYNC_MESSAGE /\ messageType_ ack = TYPE_RESPONSE /\ sessionId_ ack = sessionId_ req
  /\ errorNo_ ack = NO_ERROR
  /\ holderPtr_ ack = Some (SetTargetTimeEnd (SetTargetTimeBegin p tb) (GetTime m1 c1 now').1).
Proof.
  intros Hp. unfold RequestRecv, SetCopiedObject. destruct (negb (IsPacketValid _ _)); [congruence |].
  destruct (GetTime m c now) as [tb [m1 c1]]. cbn [mbind option_bind]. rewrite Hp.
  destruct (GetTime m1 c1 now') as [te [m2 c2]]. destruct (_ <? _); [congruence |].
  destruct (GetTimeOffset m2 (deviceId_ s)) as [o m3].
  destruct (offset_invalid _ _) as [inv|]; [| discriminate]. cbn [mbind option_bind].
  destruct heap_obj; cbn; [| congruence]. intros [= <- _]. done.
Qed.

(** An error is not [E_OK]. *)
Ltac bad_status := let E := fresh "E" in intros E; injection E; intros; discriminate.

Lemma AckRecv_saves s m c ack tsid now now' timer w p :
  holderPtr_ ack = Some p -> AckRecv s m c (Some ack) tsid now now' timer = (E_OK, w) ->
  let p := SetSourceTimeEnd p (GetTime m c now).1 in
  sourceTimeBegin_ p <= sourceTimeEnd_ p /\ targetTimeBegin_ p <= targetTimeEnd_ p
  /\ sourceTimeEnd_ p <= MAX_VALID_TIME /\ targetTimeEnd_ p <= MAX_VALID_TIME
  /\ isSynced_ w.1.1 = true /\ isAckReceived_ w.1.1 = true
  /\ (GetTimeOffset w.1.2 (deviceId_ s)).1 = CalculateTimeOffset p.
Proof.
  intros Hp. unfold AckRecv. destruct (_ && _ && _); [bad_status |].
  destruct (negb (IsPacketValid _ _)); [bad_status |]. cbn [mbind option_bind]. rewrite Hp.
  destruct (GetTime m c now) as [se [m1 c1]]. cbn [fst].
  set (pd := SetSourceTimeEnd p se). cbv zeta.
  destruct (Z.ltb_spec (sourceTimeEnd_ pd) (sourceTimeBegin_ pd)); [bad_status |].
  destruct (Z.ltb_spec (targetTimeEnd_ pd) (targetTimeBegin_ pd)); [bad_status |].
  destruct (Z.ltb_spec MAX_VALID_TIME (sourceTimeEnd_ pd)); [bad_status |].
  destruct (Z.ltb_spec MAX_VALID_TIME (targetTimeEnd_ pd)); [bad_status |]. cbn [orb].
  destruct (SaveTimeOffset m1 (deviceId_ s) (CalculateTimeOffset pd) c1 now') as [e [m2 c2]] eqn:Es.
  intros [= -> <-]. split_and!; try done. cbn. by eapply save_get_offset.
Qed.

(** C22: When an exchange of time packets succeeds (the request, the other device's answer
    and its receipt, with anything happening in between on either side), the offset that is
    saved for the other device differs from the real difference [b - a] of the two clocks by
    at most half the difference of the two transfer times, plus rounding; the device counts
    as synchronized. Here [a] and [b] are what the clocks of the two devices are ahead of a
    common time, and [t1 .. t4] the moments at which the four times are taken. *)
Theorem exchange_offset s m c sid now1 req w1  s' m' c' now2 now3 ack w2  s3 m3 c3 tsid now4 now5 timer w3
    (a b t1 t2 t3 t4 : Z) :
  SyncStart s m c sid now1 E_OK = ((E_OK, Some req), w1) ->
  RequestRecv s' m' c' (Some (received req (holderPtr_ req))) now2 now3 E_OK = Some ((E_OK, Some ack), w2) ->
  AckRecv s3 m3 c3 (Some (received ack (holderPtr_ ack))) tsid now4 now5 timer = (E_OK, w3) ->
  (GetTime m c now1).1 = t1 + a ->
  (GetTime m' c' now2).1 = t2 + b ->
  (let '(_, (m'', c'')) := GetTime m' c' now2 in (GetTime m'' c'' now3).1) = t3 + b ->
  (GetTime m3 c3 now4).1 = t4 + a ->
  isSynced_ w3.1.1 = true /\ isAckReceived_ w3.1.1 = true
  /\ Z.abs (2 * ((GetTimeOffset w3.1.2 (deviceId_ s3)).1 - (b - a))) <= Z.abs ((t2 - t1) - (t4 - t3)) + 4.
Proof.
  intros E1 E2 E3 H1' H2' H3' H4'.
  destruct (SyncStart_sends _ _ _ _ _ _ _ E1) as (_ & _ & _ & Hreq).
  pose proof (RequestRecv_answers _ _ _ (received req (holderPtr_ req)) _ _ _ _ _ Hreq E2) as Hack.
  pose proof (GetTime_nonneg m c now1) as P1. pose proof (GetTime_nonneg m' c' now2) as P2.
  destruct (GetTime m' c' now2) as [tb [m'' c'']]. destruct Hack as (_ & _ & _ & _ & Hack).
  destruct (AckRecv_saves _ _ _ (received ack (holderPtr_ ack)) _ _ _ _ _ _ Hack E3)
    as (B1 & B2 & B3 & B4 & Hsyn & Hackd & ->).
  split; [done |]. split; [done |].
  match goal with |- context [CalculateTimeOffset ?q] => pose proof (CalculateTimeOffset_spec q) as Hspec end.
  cbn [sourceTimeBegin_ sourceTimeEnd_ targetTimeBegin_ targetTimeEnd_ SetSourceTimeEnd SetTargetTimeEnd
    SetTargetTimeBegin SetSourceTimeBegin newTimeSyncPacket fst] in *.
  specialize (Hspec ltac:(lia) ltac:(lia) ltac:(lia) ltac:(lia)). lia.
Qed.

End Exchange.

(** * A concrete exchange *)

Module TimeSyncSample.

#[local] Existing Instance x86_host.
#[local] Existing Instance zero_heap.
#[local] Instance plain_hash : DeviceHash := {| TransferHashString := fun d => d |}.

Definition side (device : DeviceID) : TimeSync := mkTimeSync device 0 1 false false 0 true.
Definition meta : Metadata MemoryStorage :=
  mkMetadata 0 true ∅ ∅ 0 newHelper ∅ (mkMemoryStorage ∅ false 0).

(** Device A starts at 1000 us, device B, whose clock is 50 us ahead, answers. *)
Definition started := SyncStart (side [x42]) meta initialClock 7 (Some 1000) E_OK.
Definition request : TimeMessage := default emptyMessage started.1.2.
Definition answered :=
  RequestRecv (side [x41]) meta initialClock (Some (received request (holderPtr_ request)))
    (Some 1060) (Some 1060) E_OK.
Definition answer : TimeMessage := default emptyMessage (answered ≫= (fun r => r.1.2)).
Definition accepted :=
  AckRecv started.2.1.1 started.2.1.2 started.2.2 (Some (received answer (holderPtr_ answer))) 7
    (Some 1030) (Some 1031) (E_OK, 2).

Lemma exchange_offset_witness :
  isSynced_ accepted.2.1.1 = true /\ isAckReceived_ accepted.2.1.1 = true
  /\ Z.abs (2 * ((GetTimeOffset accepted.2.1.2 [x42]).1 - (500 - 0)))
     <= Z.abs ((10100 - 10000) - (10300 - 10101)) + 4.
Proof.
  apply (exchange_offset (side [x42]) meta initialClock 7 (Some 1000) request started.2
           (side [x41]) meta initialClock (Some 1060) (Some 1060) answer
           (default (side [x41], meta, initialClock) (snd <$> answered))
           started.2.1.1 started.2.1.2 started.2.2 7 (Some 1030) (Some 1031) (E_OK, 2) accepted.2
           0 500 10000 10100 10101 10300).
  all: vm_compute; reflexivity.
Defined.

Definition packet : TimeSyncPacket := mkTimeSyncPacket 10000 0 10600 10601 TIME_SYNC_VERSION_V1.
Definition reply : TimeMessage :=
  mkMessage MSG_VERSION_BASE TYPE_RESPONSE TIME_SYNC_MESSAGE 7 0 NO_ERROR (Some packet) [] NORMAL.

Lemma time_packet_roundtrip_witness :
  exists b r rb,
    ToSerialBuffer (RegisterTransformFunc ∅).2 (Some reply) None false = Some (E_OK, Some b) /\
    transports [x61] b (replicate 32 x33) 4 r rb /\ commLabel_ r = replicate 32 x33 /\
    ToMessage (RegisterTransformFunc ∅).2 (Some rb) false = Some (E_OK, Some (received reply (Some packet))).
Proof.
  apply (time_packet_roundtrip [x61] reply packet None 0 [] (replicate 32 x33) 4).
  - exact zero_heap_total.
  - constructor; cbn; unfold TIME_SYNC_MESSAGE, NO_ERROR; auto; lia.
  - reflexivity.
  - split_and!; auto.
  - split; [split; vm_compute; (split; [discriminate | reflexivity]) | reflexivity].
  - repeat split; vm_compute; congruence.
  - reflexivity.
  - lia.
Defined.

End TimeSyncSample.
