(* ===== verification/MessageSchedule.v ===== *)
(** Model of [SingleVerDataMessageSchedule] (syncer/src/single_ver_data_message_schedule.cpp)
    and of the loop that drives it, [SingleVerSyncStateMachine::ScheduleMsgAndHandle]: the
    data messages of a device that knows the version of its peer are handled in the order of
    their sequence numbers, by one thread at a time; before, and for old peers, each thread
    takes the last message of the queue and drops the others. *)

From S2P Require Import Prelude Memory CommTypes SyncStorage AppMessage WaterMark TimeSync.
From Stdlib Require Import ZArith Lia.
From Stdlib Require Import Strings.Byte.
From stdpp Require Import base numbers list gmap.

Open Scope Z_scope.


Section Schedule.
(** The packet of a data request; only its id matters here. *)
Context {DataRequestPacket : Type} (GetPacketId : DataRequestPacket -> Z).

Abbreviation DataMessage := (Message DataRequestPacket).

(** [messageMap_] is ordered by sequence number. [deleted] records the messages that were
    deleted. *)
Record MessageSchedule := mkMessageSchedule {
  msgQueue_ : list DataMessage;
  isNeedReload_ : bool;
  isWorking_ : bool;
  messageMap_ : list (Z * DataMessage);
  prevSessionId_ : Z;
  currentSessionId_ : Z;
  finishedPacketId_ : Z;
  expectedSequenceId_ : Z;
  ms_timerId_ : Z;
  deleted : list DataMessage
}.

Implicit Types s : MessageSchedule.

Definition newMessageSchedule : MessageSchedule := mkMessageSchedule [] false false [] 0 0 0 0 0 [].

Definition set_queue s (q : list DataMessage) (reload : bool) : MessageSchedule :=
  mkMessageSchedule q reload (isWorking_ s) (messageMap_ s) (prevSessionId_ s) (currentSessionId_ s)
    (finishedPacketId_ s) (expectedSequenceId_ s) (ms_timerId_ s) (deleted s).

Definition set_working s (b : bool) : MessageSchedule :=
  mkMessageSchedule (msgQueue_ s) (isNeedReload_ s) b (messageMap_ s) (prevSessionId_ s)
    (currentSessionId_ s) (finishedPacketId_ s) (expectedSequenceId_ s) (ms_timerId_ s) (deleted s).

Definition set_msg_map s (mm : list (Z * DataMessage)) : MessageSchedule :=
  mkMessageSchedule (msgQueue_ s) (isNeedReload_ s) (isWorking_ s) mm (prevSessionId_ s)
    (currentSessionId_ s) (finishedPacketId_ s) (expectedSequenceId_ s) (ms_timerId_ s) (deleted s).

Definition set_timer s (id : Z) : MessageSchedule :=
  mkMessageSchedule (msgQueue_ s) (isNeedReload_ s) (isWorking_ s) (messageMap_ s) (prevSessionId_ s)
    (currentSessionId_ s) (finishedPacketId_ s) (expectedSequenceId_ s) id (deleted s).

Definition set_finished s (packetId sequenceId : Z) : MessageSchedule :=
  mkMessageSchedule (msgQueue_ s) (isNeedReload_ s) (isWorking_ s) (messageMap_ s) (prevSessionId_ s)
    (currentSessionId_ s) packetId sequenceId (ms_timerId_ s) (deleted s).

Definition set_session s (sessionId : Z) : MessageSchedule :=
  mkMessageSchedule (msgQueue_ s) (isNeedReload_ s) (isWorking_ s) (messageMap_ s) (currentSessionId_ s)
    sessionId 0 1 (ms_timerId_ s) (deleted s).

Definition delete_msgs s (ms : list DataMessage) : MessageSchedule :=
  mkMessageSchedule (msgQueue_ s) (isNeedReload_ s) (isWorking_ s) (messageMap_ s) (prevSessionId_ s)
    (currentSessionId_ s) (finishedPacketId_ s) (expectedSequenceId_ s) (ms_timerId_ s) (deleted s ++ ms).

(** * Operations *)

Definition PutMsg s (inMsg : option DataMessage) : MessageSchedule :=
  match inMsg with
  | None => s
  | Some msg => set_queue s (msgQueue_ s ++ [msg]) true
  end.

Definition IsNeedReloadQueue s : bool := isNeedReload_ s.

Definition ClearMsgMapWithNoLock s : MessageSchedule :=
  set_msg_map (delete_msgs s (messageMap_ s).*2) [].

Definition ClearMsgQueue s : MessageSchedule :=
  set_queue (delete_msgs s (msgQueue_ s)) [] (isNeedReload_ s).

(** The timer itself belongs to the runtime; [timer] is what [SetTimer] answers. *)
Definition StopTimer s : MessageSchedule := if ms_timerId_ s =? 0 then s else set_timer s 0.

Definition StartTimer s (timer : Z * Z) : MessageSchedule :=
  if negb (timer.1 =? E_OK) then s else set_timer s timer.2.

Definition ms_ResetTimer s (timer : Z * Z) : MessageSchedule := StartTimer (StopTimer s) timer.

Definition ClearMsg s : MessageSchedule := ClearMsgMapWithNoLock (ClearMsgQueue (StopTimer s)).

Fixpoint map_find (k : Z) (mm : list (Z * DataMessage)) : option DataMessage :=
  match mm with
  | [] => None
  | (k', v) :: mm => if k' =? k then Some v else map_find k mm
  end.

(** [messageMap_[k] = v]. *)
Fixpoint map_put (k : Z) (v : DataMessage) (mm : list (Z * DataMessage)) : list (Z * DataMessage) :=
  match mm with
  | [] => [(k, v)]
  | (k', v') :: mm' => if k <? k' then (k, v) :: mm
                       else if k' =? k then (k, v) :: mm' else (k', v') :: map_put k v mm'
  end.

(** The status; a message that is not taken is deleted by the caller. *)
Definition UpdateMsgMapIfNeed s (msg : option DataMessage) : Z * MessageSchedule :=
  match msg with
  | None => (- E_INVALID_ARGS, s)
  | Some m =>
    match holderPtr_ m with
    | None => (- E_INVALID_ARGS, s)
    | Some packet =>
      let packetId := GetPacketId packet in
      if negb (prevSessionId_ s =? 0) && (sessionId_ m =? prevSessionId_ s) then (- E_INVALID_ARGS, s)
      else
        let s := if negb (sessionId_ m =? currentSessionId_ s)
                 then set_session (ClearMsgMapWithNoLock s) (sessionId_ m) else s in
        match map_find (sequenceId_ m) (messageMap_ s) with
        | Some cached =>
          let older := match holderPtr_ cached with
                       | Some cachePacket => negb (packetId =? 0) && (packetId <? GetPacketId cachePacket)
                       | None => false
                       end in
          if older then (- E_INVALID_ARGS, s)
          else let s := delete_msgs s [cached] in
               (E_OK, set_msg_map s (map_put (sequenceId_ m) m (messageMap_ s)))
        | None => (E_OK, set_msg_map s (map_put (sequenceId_ m) m (messageMap_ s)))
        end
    end
  end.

Definition UpdateMsgMapInner s (msgTmpQueue : list DataMessage) : MessageSchedule :=
  fold_left (fun s msg => let '(errCode, s) := UpdateMsgMapIfNeed s (Some msg) in
                          if negb (errCode =? E_OK) then delete_msgs s [msg] else s) msgTmpQueue s.

Definition UpdateMsgMap s : MessageSchedule :=
  UpdateMsgMapInner (set_queue s [] false) (msgQueue_ s).

(** The loop over [messageMap_]: the message to be handled, whether it is to be handled (or
    only acknowledged), the rest of the map and what was deleted. *)
Fixpoint get_from_map (expected finished : Z) (mm : list (Z * DataMessage))
    : (option DataMessage * bool) * (list (Z * DataMessage) * list DataMessage) :=
  match mm with
  | [] => ((None, true), ([], []))
  | (_, msg) :: rest =>
    let drop := let '(r, (mm, del)) := get_from_map expected finished rest in (r, (mm, msg :: del)) in
    match holderPtr_ msg with
    | None => drop
    | Some packet =>
      let sequenceId := sequenceId_ msg in
      let packetId := GetPacketId packet in
      if sequenceId <? expected then
        let revisePacketId := u64 (finished - u32 (expected - 1 - sequenceId)) in
        if packetId <? revisePacketId then drop else ((Some msg, false), (rest, []))
      else if sequenceId =? expected then
        if packetId <? finished then drop else ((Some msg, true), (rest, []))
      else ((None, true), (map_put sequenceId msg rest, []))
    end
  end.

Definition GetMsgFromMap s : (option DataMessage * bool) * MessageSchedule :=
  let '(r, (mm, del)) := get_from_map (expectedSequenceId_ s) (finishedPacketId_ s) (messageMap_ s) in
  (r, delete_msgs (set_msg_map s mm) del).

Definition GetLastMsgFromQueue s : option DataMessage * MessageSchedule :=
  let q := msgQueue_ s in
  (last q, set_queue (delete_msgs s (removelast q)) [] false).

(** What [ScheduleInfoHandle] does before it resets [isWorking_]; it returns early when the
    message has no packet. *)
Definition schedule_info s (isNeedHandleStatus isNeedClearMap : bool) (inMsg : DataMessage)
    : option MessageSchedule :=
  if isNeedHandleStatus then
    match holderPtr_ inMsg with
    | None => None
    | Some packet =>
      let curPacketId := GetPacketId packet in
      Some (if isNeedClearMap then set_finished (ClearMsgMapWithNoLock s) curPacketId 1
            else set_finished s curPacketId (u32 (expectedSequenceId_ s + 1)))
    end
  else Some s.

Definition ScheduleInfoHandle s (isNeedHandleStatus isNeedClearMap : bool) (inMsg : DataMessage)
    : MessageSchedule :=
  match schedule_info s isNeedHandleStatus isNeedClearMap inMsg with
  | None => s
  | Some s => set_working s false
  end.

(** * Threads *)

(** Where a thread stands between two critical sections of [ScheduleMsgAndHandle] and the
    operations it calls, of [TimeOut] and of [ClearMsg]: other threads may come in between
    any two of them. *)
Inductive Phase :=
  | PStart                                       (** calls [MoveNextMsg] *)
  | PStop                                        (** has set [isWorking_]; calls [StopTimer] *)
  | PTimer                                       (** calls [StartTimer] *)
  | PUpdate                                      (** calls [UpdateMsgMap] *)
  | PInsert (msgTmpQueue : list DataMessage)     (** has taken the queue *)
  | PGet                                         (** has updated the map *)
  | PRelease                                     (** found no message; calls [StopTimer] *)
  | PRelease2                                    (** resets [isWorking_] *)
  | PCheck                                       (** [MoveNextMsg] returned no message *)
  | PHandle (msg : DataMessage) (isNeedHandle : bool)
  | PLast (msg : DataMessage)                    (** handles a message of [GetLastMsgFromQueue] *)
  | PFinish (msg : DataMessage)                  (** [ScheduleInfoHandle] resets [isWorking_] *)
  | PTimeOut (timerId : Z)                       (** the timer fires *)
  | PTimeOut2 (timerId : Z)
  | PTimeOut3 (timerId : Z)
  | PClear                                       (** calls [ClearMsg] *)
  | PClear2
  | PClear3
  | PDone.

(** What comes from outside: the answer of [SetTimer], what handling a message gives, and the
    answer of [GetRemoteSoftwareVersion], which is 0 until the first ability sync and may
    change from one call to the next. *)
Record Outcome := mkOutcome {
  oc_timer : Z * Z;
  oc_errCode : Z;
  oc_waterMarkErr : bool;
  oc_version : Z
}.

Definition old_version (o : Outcome) : bool := oc_version o <? SOFTWARE_VERSION_RELEASE_3_0.

(** The body of the loop once [MoveNextMsg] gave a message. *)
Definition handle_msg s (msg : DataMessage) (isNeedHandle : bool) (o : Outcome) : MessageSchedule * Phase :=
  let isNeedClearMap := isNeedHandle && (oc_waterMarkErr o || (oc_errCode o =? - E_NEED_ABILITY_SYNC)) in
  let isNeedHandle := isNeedHandle && negb (oc_errCode o =? - E_TIMEOUT) in
  let isNeedHandle := if old_version o then false else isNeedHandle in
  match schedule_info s isNeedHandle isNeedClearMap msg with
  | None => (delete_msgs s [msg], PStart)
  | Some s => (s, PFinish msg)
  end.

Definition thread_step s (p : Phase) (o : Outcome) : MessageSchedule * Phase :=
  match p with
  | PStart =>
    if old_version o then
      let '(msg, s) := GetLastMsgFromQueue s in
      (s, match msg with None => PCheck | Some msg => PLast msg end)
    else if isWorking_ s then (s, PDone) else (set_working s true, PStop)
  | PStop => (StopTimer s, PTimer)
  | PTimer => (StartTimer s (oc_timer o), PUpdate)
  | PUpdate => (set_queue s [] false, PInsert (msgQueue_ s))
  | PInsert msgTmpQueue => (UpdateMsgMapInner s msgTmpQueue, PGet)
  | PGet => let '((msg, isNeedHandle), s) := GetMsgFromMap s in
            (s, match msg with None => PRelease | Some msg => PHandle msg isNeedHandle end)
  | PRelease => (StopTimer s, PRelease2)
  | PRelease2 => (set_working s false, PCheck)
  | PCheck => (s, if IsNeedReloadQueue s then PStart else PDone)
  | PHandle msg isNeedHandle => handle_msg s msg isNeedHandle o
  | PLast msg => handle_msg s msg true o
  | PFinish msg => (delete_msgs (set_working s false) [msg], PStart)
  | PTimeOut id => (s, if IsNeedReloadQueue s then PDone else PTimeOut2 id)
  | PTimeOut2 id => (s, if isWorking_ s then PDone else PTimeOut3 id)
  | PTimeOut3 id => (if id =? ms_timerId_ s then set_timer (ClearMsgMapWithNoLock s) 0 else s, PDone)
  | PClear => (StopTimer s, PClear2)
  | PClear2 => (ClearMsgQueue s, PClear3)
  | PClear3 => (ClearMsgMapWithNoLock s, PDone)
  | PDone => (s, PDone)
  end.

(** A message arrives, the timer fires, the messages are cleared (the context is killed), or
    a thread does its next step. *)
Inductive Event :=
  | EArrive (msg : DataMessage)
  | ETimer (timerId : Z)
  | EClear
  | EThread (i : nat) (o : Outcome).

Record World := mkWorld {
  w_sched : MessageSchedule;
  w_threads : list Phase
}.

Definition newWorld : World := mkWorld newMessageSchedule [].

Definition world_step (w : World) (e : Event) : World :=
  match e with
  | EArrive msg => mkWorld (PutMsg (w_sched w) (Some msg)) (w_threads w ++ [PStart])
  | ETimer id => mkWorld (w_sched w) (w_threads w ++ [PTimeOut id])
  | EClear => mkWorld (w_sched w) (w_threads w ++ [PClear])
  | EThread i o =>
    match w_threads w !! i with
    | None => w
    | Some p => let '(s, p) := thread_step (w_sched w) p o in mkWorld s (<[i := p]> (w_threads w))
    end
  end.

Definition world_run (w : World) (es : list Event) : World := fold_left world_step es w.

(** ** A call that nothing interrupts *)

(** [MoveNextMsg] as a whole, when no other thread runs: the message, whether it is to be
    handled and whether the loop goes on. *)
Definition MoveNextMsg s (remoteVersion : Z) (timer : Z * Z)
    : (option DataMessage * bool * bool) * MessageSchedule :=
  if remoteVersion <? SOFTWARE_VERSION_RELEASE_3_0 then
    let '(msg, s) := GetLastMsgFromQueue s in ((msg, true, true), s)
  else if isWorking_ s then ((None, true, false), s)
  else
    let s := UpdateMsgMap (ms_ResetTimer (set_working s true) timer) in
    let '((msg, isNeedHandle), s) := GetMsgFromMap s in
    match msg with
    | None => ((None, isNeedHandle, true), set_working (StopTimer s) false)
    | Some _ => ((msg, isNeedHandle, true), s)
    end.

End Schedule.
