(* ===== verification/MessageScheduleFacts.v ===== *)
(** The schedule of data messages: one thread handles messages at a time, nothing is left
    behind, no message leaks or is deleted twice, the threads come to an end, and a session's
    messages are handled in order, each once, whatever the order of arrival. *)

From S2P Require Import Prelude Memory CommTypes SyncStorage AppMessage WaterMark TimeSync MessageSchedule.
From Stdlib Require Import ZArith Lia.
From Stdlib Require Import Strings.Byte.
From stdpp Require Import base numbers list gmap sorting.
From AAC_tactics Require Import AAC.
From AAC_tactics Require Instances.
Import Instances.Lists.

Open Scope Z_scope.

(** Lists of messages up to their order. *)
#[local] Instance permutation_lift {A} : AAC_lift (@Permutation A) (@Permutation A) :=
  Build_AAC_lift (Permutation_Equivalence A) _.

Ltac solve_Permutation :=
  repeat match goal with |- context [?x :: ?l] =>
    lazymatch l with [] => fail | _ => change (x :: l) with ([x] ++ l) end end;
  aac_reflexivity.

Section Facts.
Context {Pkt : Type} (GetPacketId : Pkt -> Z).

Abbreviation Msg := (Message Pkt).
Abbreviation Sched := (MessageSchedule (DataRequestPacket := Pkt)).
Implicit Types (s : Sched) (mm : list (Z * Msg)) (w : World (DataRequestPacket := Pkt)).

(** * The ordered map *)

(** Keys ascend, are the sequence numbers, and every message has its packet. *)
Definition msg_map_wf mm : Prop :=
  StronglySorted Z.lt mm.*1 /\ Forall (fun e => e.1 = sequenceId_ e.2 /\ is_Some (holderPtr_ e.2)) mm.

Lemma map_put_keys k v mm k' : k' ∈ (map_put k v mm).*1 <-> k' = k \/ k' ∈ mm.*1.
Proof.
  induction mm as [|[k0 v0] mm IH]; cbn [map_put fmap list_fmap].
  { rewrite list_elem_of_singleton, elem_of_nil. tauto. }
  destruct (Z.ltb_spec k k0); cbn [fmap list_fmap fst]; [rewrite !elem_of_cons; tauto |].
  destruct (Z.eqb_spec k0 k) as [-> |]; cbn [fmap list_fmap fst]; rewrite !elem_of_cons; [tauto |].
  rewrite IH. tauto.
Qed.

Lemma map_put_wf m mm : msg_map_wf mm -> is_Some (holderPtr_ m) -> msg_map_wf (map_put (sequenceId_ m) m mm).
Proof.
  intros [Hs Hf] Hm. split.
  - clear Hf. induction mm as [|[k0 v0] mm IH]; cbn [map_put].
    { repeat constructor. }
    cbn [fmap list_fmap fst] in Hs. apply StronglySorted_inv in Hs as [Hs Hlt].
    destruct (Z.ltb_spec (sequenceId_ m) k0); cbn [fmap list_fmap fst].
    + constructor; [by constructor |]. constructor; [done |].
      eapply Forall_impl; [exact Hlt |]. intros x Hx. lia.
    + destruct (Z.eqb_spec k0 (sequenceId_ m)) as [-> |]; cbn [fmap list_fmap fst]; [by constructor |].
      constructor; [by apply IH |]. apply Forall_forall. intros x Hx.
      apply map_put_keys in Hx as [-> | Hx]; [lia |]. rewrite Forall_forall in Hlt. by apply Hlt.
  - clear Hs. induction mm as [|[k0 v0] mm IH]; cbn [map_put]; [by constructor |].
    apply Forall_cons in Hf as [H0 Hf]. destruct (_ <? _); [by repeat (constructor; [done |]) |].
    destruct (_ =? _); constructor; auto.
Qed.

Lemma map_find_key k mm m : map_find k mm = Some m -> (k, m) ∈ mm.
Proof.
  induction mm as [|[k0 v0] mm IH]; cbn [map_find]; [done |].
  destruct (Z.eqb_spec k0 k) as [-> |]; [intros [= ->]; left | intros E; right; auto].
Qed.

Lemma map_find_none k mm : map_find k mm = None -> k ∉ mm.*1.
Proof.
  induction mm as [|[k0 v0] mm IH]; cbn [map_find fmap list_fmap fst]; [intros _; apply not_elem_of_nil |].
  destruct (Z.eqb_spec k0 k); [done |]. intros E. apply not_elem_of_cons. split; [done | auto].
Qed.

(** The messages of the map after a message is put: the old one of its number is gone. *)
Lemma map_put_msgs m mm : msg_map_wf mm ->
  match map_find (sequenceId_ m) mm with
  | Some old => old :: (map_put (sequenceId_ m) m mm).*2 ≡ₚ m :: mm.*2
  | None => (map_put (sequenceId_ m) m mm).*2 ≡ₚ m :: mm.*2
  end.
Proof.
  intros [Hs _]. induction mm as [|[k0 v0] mm IH]; cbn [map_find map_put]; [done |].
  cbn [fmap list_fmap fst snd] in Hs |- *. apply StronglySorted_inv in Hs as [Hs Hlt]. specialize (IH Hs).
  destruct (Z.eqb_spec k0 (sequenceId_ m)) as [-> | Hne].
  - rewrite Z.ltb_irrefl. cbn [fmap list_fmap snd]. apply Permutation_swap.
  - destruct (Z.ltb_spec (sequenceId_ m) k0) as [Hl | Hl].
    + destruct (map_find (sequenceId_ m) mm) as [old|] eqn:E; [| done].
      apply map_find_key in E. rewrite Forall_forall in Hlt. specialize (Hlt (sequenceId_ m)).
      exfalso. assert (k0 < sequenceId_ m); [| lia]. apply Hlt, list_elem_of_fmap. by exists (sequenceId_ m, old).
    + destruct (map_find (sequenceId_ m) mm) as [old|]; cbn [fmap list_fmap snd].
      * rewrite Permutation_swap, IH. apply Permutation_swap.
      * rewrite IH. apply Permutation_swap.
Qed.

(** Putting back the first entry changes nothing. *)
Lemma map_put_first m mm : msg_map_wf ((sequenceId_ m, m) :: mm) ->
  map_put (sequenceId_ m) m mm = (sequenceId_ m, m) :: mm.
Proof.
  intros [Hs _]. cbn in Hs. apply StronglySorted_inv in Hs as [_ Hlt].
  destruct mm as [|[k v] mm]; [done |]. cbn [map_put]. apply Forall_cons in Hlt as [Hl _]. cbn in Hl.
  by rewrite (proj2 (Z.ltb_lt _ _) Hl).
Qed.

Lemma msg_map_wf_tail e mm : msg_map_wf (e :: mm) -> msg_map_wf mm.
Proof.
  intros [Hs Hf]. cbn in Hs. apply StronglySorted_inv in Hs as [Hs _]. apply Forall_cons in Hf as [_ Hf]. done.
Qed.

(** * Taking a message from the map *)

(** What is first in the map is to be handled, or acknowledged, now. *)
Definition due (expected : Z) mm : Prop :=
  match mm with [] => False | (k, _) :: _ => k <= expected end.

Lemma get_from_map_spec expected finished mm : msg_map_wf mm ->
  let '((msg, need), (mm', del)) := get_from_map GetPacketId expected finished mm in
  msg_map_wf mm' /\ mm.*2 ≡ₚ option_list msg ++ del ++ mm'.*2 /\
  match msg with
  | None => ~ due expected mm'
  | Some m => is_Some (holderPtr_ m) /\ (if need : bool then sequenceId_ m = expected else sequenceId_ m < expected)
  end.
Proof.
  induction mm as [|[k m] mm IH]; intros Hwf; cbn [get_from_map]; [split_and!; [done | done | intros []] |].
  specialize (IH (msg_map_wf_tail _ _ Hwf)). pose proof Hwf as [Hs Hf]. apply Forall_cons in Hf as [[Hk [p Hp]] _].
  cbn [fst snd] in Hk, Hp. subst k. rewrite Hp.
  assert (Hdrop : let '((msg, need), (mm', del)) := (let '(r, (mm, del)) := get_from_map GetPacketId expected finished mm in
      (r, (mm, m :: del))) in
    msg_map_wf mm' /\ ((sequenceId_ m, m) :: mm).*2 ≡ₚ option_list msg ++ del ++ mm'.*2 /\
    match msg with
    | None => ~ due expected mm'
    | Some m => is_Some (holderPtr_ m) /\ (if need : bool then sequenceId_ m = expected else sequenceId_ m < expected)
    end).
  { destruct (get_from_map _ _ _ mm) as [[msg need] [mm' del]]. destruct IH as (H1 & H2 & H3).
    split_and!; [done | | done]. cbn [fmap list_fmap snd]. rewrite H2. cbn [app]. by rewrite Permutation_middle. }
  destruct (Z.ltb_spec (sequenceId_ m) expected).
  { destruct (_ <? _); [exact Hdrop |]. split_and!; [by apply msg_map_wf_tail in Hwf | done | eauto | done]. }
  destruct (Z.eqb_spec (sequenceId_ m) expected).
  { destruct (_ <? _); [exact Hdrop |]. split_and!; [by apply msg_map_wf_tail in Hwf | done | eauto | done]. }
  rewrite (map_put_first m mm Hwf). split_and!; [done | done |]. cbn. lia.
Qed.

(** * Moving the queue into the map *)

Definition sched_msgs s : list Msg := msgQueue_ s ++ (messageMap_ s).*2 ++ deleted s.

Lemma update_one s m : msg_map_wf (messageMap_ s) ->
  let '(e, s') := UpdateMsgMapIfNeed GetPacketId s (Some m) in
  let s' := if negb (e =? E_OK) then delete_msgs s' [m] else s' in
  msg_map_wf (messageMap_ s') /\ (messageMap_ s').*2 ++ deleted s' ≡ₚ m :: (messageMap_ s).*2 ++ deleted s
  /\ msgQueue_ s' = msgQueue_ s /\ isNeedReload_ s' = isNeedReload_ s /\ isWorking_ s' = isWorking_ s
  /\ (length (messageMap_ s') <= S (length (messageMap_ s)))%nat.
Proof.
  intros Hwf. unfold UpdateMsgMapIfNeed.
  assert (Hkeep : msg_map_wf (messageMap_ (delete_msgs s [m])) /\
    (messageMap_ (delete_msgs s [m])).*2 ++ deleted (delete_msgs s [m]) ≡ₚ m :: (messageMap_ s).*2 ++ deleted s
    /\ msgQueue_ (delete_msgs s [m]) = msgQueue_ s /\ isNeedReload_ (delete_msgs s [m]) = isNeedReload_ s
    /\ isWorking_ (delete_msgs s [m]) = isWorking_ s
    /\ (length (messageMap_ (delete_msgs s [m])) <= S (length (messageMap_ s)))%nat).
  { cbn [delete_msgs messageMap_ deleted msgQueue_ isNeedReload_ isWorking_].
    split_and!; try done; [| lia]. rewrite app_assoc. symmetry. apply Permutation_cons_append. }
  destruct (holderPtr_ m) as [p|] eqn:Hp; [| exact Hkeep].
  destruct (negb (prevSessionId_ s =? 0) && (sessionId_ m =? prevSessionId_ s)); [exact Hkeep |]. clear Hkeep.
  set (s1 := if negb (sessionId_ m =? currentSessionId_ s) then _ else s).
  assert (H1 : msg_map_wf (messageMap_ s1) /\ (messageMap_ s1).*2 ++ deleted s1 ≡ₚ (messageMap_ s).*2 ++ deleted s
    /\ msgQueue_ s1 = msgQueue_ s /\ isNeedReload_ s1 = isNeedReload_ s /\ isWorking_ s1 = isWorking_ s
    /\ (length (messageMap_ s1) <= length (messageMap_ s))%nat).
  { unfold s1. destruct (negb _); [| by split_and!].
    cbn [set_session ClearMsgMapWithNoLock set_msg_map delete_msgs messageMap_ deleted msgQueue_ isNeedReload_
      isWorking_ fmap list_fmap app length].
    split_and!; try done; [split; constructor | apply Permutation_app_comm | lia]. }
  clearbody s1. destruct H1 as (Hwf1 & Hp1 & Hq1 & Hr1 & Hw1 & Hl1).
  pose proof (map_put_wf m _ Hwf1 ltac:(by rewrite Hp)) as Hwf2. pose proof (map_put_msgs m _ Hwf1) as Hperm.
  destruct (map_find (sequenceId_ m) (messageMap_ s1)) as [old|].
  - destruct (match holderPtr_ old with Some _ => _ | None => _ end).
    + change (negb (- E_INVALID_ARGS =? E_OK)) with true. cbv iota.
      cbn [delete_msgs messageMap_ deleted msgQueue_ isNeedReload_ isWorking_].
      split_and!; try done; [| lia]. rewrite app_assoc, Hp1. symmetry. apply Permutation_cons_append.
    + change (negb (E_OK =? E_OK)) with false. cbv iota.
      cbn [set_msg_map delete_msgs messageMap_ deleted msgQueue_ isNeedReload_ isWorking_].
      assert (Hlen : (length (map_put (sequenceId_ m) m (messageMap_ s1)) = length (messageMap_ s1))).
      { apply Permutation_length in Hperm. cbn [length] in Hperm. rewrite !length_fmap in Hperm. lia. }
      split_and!; try done; [| lia]. rewrite <- Hp1, app_comm_cons, <- Hperm. cbn [app].
      rewrite app_assoc. symmetry. apply Permutation_cons_append.
  - change (negb (E_OK =? E_OK)) with false. cbv iota.
    cbn [set_msg_map delete_msgs messageMap_ deleted msgQueue_ isNeedReload_ isWorking_].
    assert (Hlen : (length (map_put (sequenceId_ m) m (messageMap_ s1)) = S (length (messageMap_ s1)))).
    { apply Permutation_length in Hperm. cbn [length] in Hperm. rewrite !length_fmap in Hperm. lia. }
    split_and!; try done; [| lia]. by rewrite Hperm, <- Hp1.
Qed.

Lemma update_inner q : forall s, msg_map_wf (messageMap_ s) ->
  let s' := UpdateMsgMapInner GetPacketId s q in
  msg_map_wf (messageMap_ s') /\ (messageMap_ s').*2 ++ deleted s' ≡ₚ q ++ (messageMap_ s).*2 ++ deleted s
  /\ msgQueue_ s' = msgQueue_ s /\ isNeedReload_ s' = isNeedReload_ s /\ isWorking_ s' = isWorking_ s
  /\ (length (messageMap_ s') <= length q + length (messageMap_ s))%nat.
Proof.
  induction q as [|m q IH]; intros s Hwf; cbn [UpdateMsgMapInner fold_left]; [by split_and! |].
  pose proof (update_one s m Hwf) as H1. destruct (UpdateMsgMapIfNeed GetPacketId s (Some m)) as [e s1].
  cbv zeta in H1. destruct H1 as (Hw1 & Hp1 & Hq1 & Hr1 & Hk1 & Hl1).
  destruct (IH _ Hw1) as (Hw2 & Hp2 & Hq2 & Hr2 & Hk2 & Hl2). fold (UpdateMsgMapInner GetPacketId).
  unfold UpdateMsgMapInner in *. split_and!; try done; try congruence.
  - rewrite Hp2, Hp1. rewrite <- Permutation_middle. done.
  - cbn [length]. lia.
Qed.

(** * The threads *)

Abbreviation Ph := (Phase (DataRequestPacket := Pkt)).

(** The phases of a thread that has set [isWorking_] or is about to reset it. *)
Definition worker (p : Ph) : bool :=
  match p with
  | PStop | PTimer | PUpdate | PInsert _ | PGet | PRelease | PRelease2 | PHandle _ _ | PFinish _ => true
  | _ => false
  end.

(** The phases after which the thread looks at the queue again. *)
Definition drainer (p : Ph) : bool :=
  worker p || match p with PStart | PCheck | PLast _ => true | _ => false end.

Definition held (p : Ph) : list Msg :=
  match p with PInsert q => q | PHandle m _ | PLast m | PFinish m => [m] | _ => [] end.

Definition is_done (p : Ph) : bool := match p with PDone => true | _ => false end.

Definition handling (p : Ph) : bool := match p with PHandle _ _ | PLast _ => true | _ => false end.

(** A message taken from the map has its packet. *)
Definition has_packet (p : Ph) : Prop := match p with PHandle m _ => is_Some (holderPtr_ m) | _ => True end.

(** What holds whatever versions the peer reports. *)
Record base_inv (arrived : list Msg) w : Prop := {
  bi_map : msg_map_wf (messageMap_ (w_sched w));
  bi_working : isWorking_ (w_sched w) = true -> Exists (fun p => worker p = true) (w_threads w);
  bi_reload : msgQueue_ (w_sched w) <> [] -> isNeedReload_ (w_sched w) = true;
  bi_queue : msgQueue_ (w_sched w) <> [] -> Exists (fun p => drainer p = true) (w_threads w);
  bi_packet : Forall has_packet (w_threads w);
  bi_msgs : arrived ≡ₚ sched_msgs (w_sched w) ++ (w_threads w ≫= held)
}.

Lemma thread_split {A} (ts : list A) i p : ts !! i = Some p ->
  exists l1 l2, ts = l1 ++ p :: l2 /\ forall p', <[i := p']> ts = l1 ++ p' :: l2.
Proof.
  intros E. exists (take i ts), (drop (S i) ts). split; [by rewrite take_drop_middle |].
  intros p'. apply insert_take_drop. by eapply lookup_lt_Some.
Qed.

Lemma Exists_middle {A} (P : A -> Prop) l1 x l2 :
  Exists P (l1 ++ x :: l2) <-> P x \/ Exists P (l1 ++ l2).
Proof. rewrite !Exists_app, Exists_cons. tauto. Qed.

Lemma Forall_middle {A} (P : A -> Prop) l1 x l2 :
  Forall P (l1 ++ x :: l2) <-> P x /\ Forall P (l1 ++ l2).
Proof. rewrite !Forall_app, Forall_cons. tauto. Qed.

Lemma held_middle l1 p l2 : (l1 ++ p :: l2) ≫= held ≡ₚ held p ++ (l1 ++ l2) ≫= held.
Proof. rewrite !bind_app, bind_cons. rewrite Permutation_app_swap_app. done. Qed.

Lemma new_base_inv : base_inv [] newWorld.
Proof. split; cbn; try done. split; constructor. Qed.

(** What a step of the thread between [l1] and [l2] must give. *)
Lemma base_update arrived s l1 l2 p s' p' : base_inv arrived (mkWorld s (l1 ++ p :: l2)) ->
  msg_map_wf (messageMap_ s') ->
  (isWorking_ s' = true -> worker p' = true \/ isWorking_ s = true /\ worker p = false) ->
  (msgQueue_ s' <> [] -> isNeedReload_ s' = true) ->
  (msgQueue_ s' <> [] -> drainer p' = true \/ Exists (fun p => drainer p = true) (l1 ++ l2)) ->
  has_packet p' ->
  sched_msgs s' ++ held p' ≡ₚ sched_msgs s ++ held p ->
  base_inv arrived (mkWorld s' (l1 ++ p' :: l2)).
Proof.
  intros [Hmap Hwk Hrel Hq Hh Hms] Hmap' Hw' Hrel' Hq' Hh' Hms'.
  cbn [w_sched w_threads] in *. split; cbn [w_sched w_threads]; try done.
  - intros E. rewrite Exists_middle. destruct (Hw' E) as [? | [E1 E2]]; [by left |].
    specialize (Hwk E1). rewrite Exists_middle, E2 in Hwk. destruct Hwk; [done | by right].
  - intros E. rewrite Exists_middle. auto.
  - rewrite Forall_middle in Hh |- *. tauto.
  - rewrite Hms, !held_middle, !app_assoc. by rewrite Hms'.
Qed.

(** The timer is not looked at here. *)
Lemma start_timer_is s timer : exists id, StartTimer s timer = set_timer s id.
Proof.
  unfold StartTimer. destruct (negb (timer.1 =? E_OK)); eauto. exists (ms_timerId_ s). by destruct s.
Qed.

Lemma stop_timer_is s : exists id, StopTimer s = set_timer s id.
Proof.
  unfold StopTimer. destruct (ms_timerId_ s =? 0); eauto. exists (ms_timerId_ s). by destruct s.
Qed.

Lemma last_split (q : list Msg) : q = removelast q ++ option_list (last q).
Proof.
  destruct (last q) as [x|] eqn:E.
  - apply last_Some in E as [l ->]. by rewrite removelast_last.
  - apply last_None in E as ->. done.
Qed.

(** Handling a message ends in resetting [isWorking_], except for one without a packet. *)
Lemma handle_msg_spec s m need o :
  let '(s', p') := handle_msg GetPacketId s m need o in
  msgQueue_ s' = msgQueue_ s /\ isNeedReload_ s' = isNeedReload_ s /\ isWorking_ s' = isWorking_ s
  /\ (messageMap_ s' = messageMap_ s \/ messageMap_ s' = [])
  /\ sched_msgs s' ++ held p' ≡ₚ sched_msgs s ++ [m]
  /\ (p' = PFinish m \/ p' = PStart /\ holderPtr_ m = None).
Proof.
  unfold handle_msg, schedule_info. set (need' := if old_version o then _ else _).
  destruct need'; [destruct (holderPtr_ m); [destruct (need && _) |] |];
    cbn [set_finished ClearMsgMapWithNoLock set_msg_map delete_msgs msgQueue_ messageMap_ deleted
      isNeedReload_ isWorking_ held]; split_and!; try done; auto;
    unfold sched_msgs; cbn [set_finished ClearMsgMapWithNoLock set_msg_map delete_msgs msgQueue_ messageMap_ deleted
      fmap list_fmap app]; solve_Permutation.
Qed.

Lemma map_wf_or s mm : msg_map_wf (messageMap_ s) -> mm = messageMap_ s \/ mm = [] -> msg_map_wf mm.
Proof. intros Hw [-> | ->]; [done | split; constructor]. Qed.

Lemma insert_base arrived s l1 q l2 : base_inv arrived (mkWorld s (l1 ++ PInsert q :: l2)) ->
  base_inv arrived (mkWorld (UpdateMsgMapInner GetPacketId s q) (l1 ++ PGet :: l2)).
Proof.
  intros Hw. pose proof Hw as [Hmap Hwk Hrel Hq Hh Hms]. cbn [w_sched w_threads] in *.
  destruct (update_inner q s Hmap) as (Hm' & Hp' & Hq2 & Hr2 & Hk2 & _).
  apply (base_update _ _ _ _ _ _ _ Hw); [done | by left | by rewrite Hq2, Hr2 | by left | done |].
  unfold sched_msgs. rewrite Hq2, Hp'. cbn [held]. solve_Permutation.
Qed.

Lemma get_base arrived s l1 l2 : base_inv arrived (mkWorld s (l1 ++ PGet :: l2)) ->
  let '((msg, need), s') := GetMsgFromMap GetPacketId s in
  base_inv arrived (mkWorld s' (l1 ++ (match msg with None => PRelease | Some m => PHandle m need end) :: l2)).
Proof.
  intros Hw. pose proof Hw as [Hmap Hwk Hrel Hq Hh Hms]. cbn [w_sched w_threads] in *. unfold GetMsgFromMap.
  pose proof (get_from_map_spec (expectedSequenceId_ s) (finishedPacketId_ s) _ Hmap) as Hg.
  destruct (get_from_map _ _ _ _) as [[msg need] [mm' del]]. destruct Hg as (Hm' & Hp' & Hmsg).
  apply (base_update _ _ _ _ _ _ _ Hw); [done | left; by destruct msg | done | left; by destruct msg | |].
  - destruct msg; [apply Hmsg | done].
  - unfold sched_msgs. cbn [set_msg_map delete_msgs msgQueue_ messageMap_ deleted held]. rewrite Hp'.
    destruct msg; cbn [held option_list option_rect app]; cbn; solve_Permutation.
Qed.

Lemma handle_base arrived s l1 p l2 m need o : base_inv arrived (mkWorld s (l1 ++ p :: l2)) ->
  held p = [m] -> (worker p = true -> is_Some (holderPtr_ m)) ->
  let '(s', p') := handle_msg GetPacketId s m need o in base_inv arrived (mkWorld s' (l1 ++ p' :: l2)).
Proof.
  intros Hw Hhp Hpk. pose proof Hw as [Hmap Hwk Hrel Hq Hh Hms]. cbn [w_sched w_threads] in *.
  pose proof (handle_msg_spec s m need o) as Hs. destruct (handle_msg GetPacketId s m need o) as [s' p'].
  destruct Hs as (Eq & Er & Ek & Em & Ems & Ep). apply (base_update _ _ _ _ _ _ _ Hw).
  - by apply (map_wf_or s).
  - rewrite Ek. intros Hk. destruct Ep as [-> | [-> Hn]]; [by left |]. right. split; [done |].
    destruct (worker p); [| done]. destruct (Hpk eq_refl) as [? ?]. congruence.
  - by rewrite Eq, Er.
  - intros _. left. by destruct Ep as [-> | [-> _]].
  - by destruct Ep as [-> | [-> _]].
  - by rewrite Ems, Hhp.
Qed.

Lemma start_base arrived s l1 l2 o : base_inv arrived (mkWorld s (l1 ++ PStart :: l2)) ->
  let '(s', p') := thread_step GetPacketId s PStart o in base_inv arrived (mkWorld s' (l1 ++ p' :: l2)).
Proof.
  intros Hw. pose proof Hw as [Hmap Hwk Hrel Hq Hh Hms]. cbn [w_sched w_threads thread_step] in *.
  destruct (old_version o); [| destruct (isWorking_ s) eqn:Ek].
  - unfold GetLastMsgFromQueue. apply (base_update _ _ _ _ _ _ _ Hw); try done.
    + right. done.
    + by destruct (last (msgQueue_ s)).
    + unfold sched_msgs. cbn [set_queue delete_msgs msgQueue_ messageMap_ deleted].
      pose proof (last_split (msgQueue_ s)) as El. rewrite El at 3.
      destruct (last (msgQueue_ s)); cbn [option_list held]; cbn; solve_Permutation.
  - specialize (Hwk eq_refl). rewrite Exists_middle in Hwk. destruct Hwk as [? | Hwk]; [done |].
    apply (base_update _ _ _ _ _ _ _ Hw); try done.
    + by right.
    + intros _. right. eapply Exists_impl; [exact Hwk |]. intros p Hp. unfold drainer. by rewrite Hp.
  - apply (base_update _ _ _ _ _ _ _ Hw); try done; by left.
Qed.

(** The steps that only go on, stop the timer, or give up [isWorking_]. *)
Lemma thread_step_base arrived s l1 p l2 o : base_inv arrived (mkWorld s (l1 ++ p :: l2)) ->
  let '(s', p') := thread_step GetPacketId s p o in base_inv arrived (mkWorld s' (l1 ++ p' :: l2)).
Proof.
  intros Hw. pose proof Hw as [Hmap Hwk Hrel Hq Hh Hms]. cbn [w_sched w_threads] in *.
  assert (Hq' : drainer p = false -> msgQueue_ s <> [] -> Exists (fun p => drainer p = true) (l1 ++ l2)).
  { intros Hd Hn. specialize (Hq Hn). rewrite Exists_middle, Hd in Hq. destruct Hq; [done | auto]. }
  destruct (stop_timer_is s) as [sid Hstop]. destruct (start_timer_is s (oc_timer o)) as [tid Hstart].
  destruct p as [| | | | q | | | | | m need | m | m | id | id | id | | | |]; cbn [thread_step];
    rewrite ?Hstop, ?Hstart;
    try (apply (base_update _ _ _ _ _ _ _ Hw); try done; auto; by left).
  - by apply start_base.
  - apply (base_update _ _ _ _ _ _ _ Hw); try done; [by left |].
    unfold sched_msgs. cbn [set_queue msgQueue_ messageMap_ deleted held]. solve_Permutation.
  - by apply insert_base.
  - pose proof (get_base arrived s l1 l2 Hw) as Hg. by destruct (GetMsgFromMap GetPacketId s) as [[msg need] s'].
  - unfold IsNeedReloadQueue. destruct (isNeedReload_ s) eqn:Er.
    + apply (base_update _ _ _ _ _ _ _ Hw); try done; [by right | by left].
    + apply (base_update _ _ _ _ _ _ _ Hw); try done; [by right | intros Hn; specialize (Hrel Hn); congruence..].
  - rewrite Forall_middle in Hh. apply (handle_base _ _ _ _ _ _ _ _ Hw); [done | intros _; apply Hh].
  - by apply (handle_base _ _ _ _ _ _ _ _ Hw).
  - apply (base_update _ _ _ _ _ _ _ Hw); try done; [by left |].
    unfold sched_msgs. cbn [set_working delete_msgs msgQueue_ messageMap_ deleted held]. solve_Permutation.
  - apply (base_update _ _ _ _ _ _ _ Hw); try done; auto; by destruct (IsNeedReloadQueue s).
  - apply (base_update _ _ _ _ _ _ _ Hw); try done; auto; by destruct (isWorking_ s).
  - destruct (id =? ms_timerId_ s); apply (base_update _ _ _ _ _ _ _ Hw); try done; auto; [split; constructor |].
    unfold sched_msgs. cbn [set_timer ClearMsgMapWithNoLock set_msg_map delete_msgs msgQueue_ messageMap_
      deleted held fmap list_fmap app]. solve_Permutation.
  - apply (base_update _ _ _ _ _ _ _ Hw); try done; auto.
    unfold sched_msgs. cbn [ClearMsgQueue set_queue delete_msgs msgQueue_ messageMap_ deleted held app]. solve_Permutation.
  - apply (base_update _ _ _ _ _ _ _ Hw); try done; auto; [split; constructor |].
    unfold sched_msgs. cbn [ClearMsgMapWithNoLock set_msg_map delete_msgs msgQueue_ messageMap_
      deleted held fmap list_fmap app]. solve_Permutation.
Qed.

Definition arrivals (es : list (Event (DataRequestPacket := Pkt))) : list Msg :=
  omap (fun e => match e with EArrive m => Some m | _ => None end) es.

(** A new thread that holds no message. *)
Lemma new_thread_base arrived s ts p : base_inv arrived (mkWorld s ts) -> held p = [] -> has_packet p ->
  base_inv arrived (mkWorld s (ts ++ [p])).
Proof.
  intros [Hmap Hwk Hrel Hq Hh Hms] Hp Hpk. cbn [w_sched w_threads] in *.
  split; cbn [w_sched w_threads]; try done.
  - intros E. apply Exists_app. left. auto.
  - intros E. apply Exists_app. left. auto.
  - apply Forall_app. split; [done | by repeat constructor].
  - by rewrite bind_app, bind_cons, Hp, !app_nil_r.
Qed.

Lemma arrive_base arrived s ts m : base_inv arrived (mkWorld s ts) ->
  base_inv (arrived ++ [m]) (mkWorld (PutMsg s (Some m)) (ts ++ [PStart])).
Proof.
  intros [Hmap Hwk Hrel Hq Hh Hms]. cbn [w_sched w_threads] in *.
  split; cbn [w_sched w_threads PutMsg set_queue messageMap_ isWorking_ msgQueue_ isNeedReload_]; try done.
  - intros E. apply Exists_app. left. auto.
  - intros _. apply Exists_app. right. by constructor.
  - apply Forall_app. split; [done | by repeat constructor].
  - rewrite bind_app, bind_cons, !app_nil_r. unfold sched_msgs in *. cbn [set_queue msgQueue_ messageMap_ deleted].
    rewrite Hms. solve_Permutation.
Qed.

Lemma world_step_base arrived w e : base_inv arrived w ->
  base_inv (arrived ++ arrivals [e]) (world_step GetPacketId w e).
Proof.
  destruct w as [s ts]. intros Hw. destruct e as [m | id | | i o];
    cbn [world_step arrivals omap list_omap w_sched w_threads]; rewrite ?app_nil_r.
  - by apply arrive_base.
  - by apply new_thread_base.
  - by apply new_thread_base.
  - destruct (ts !! i) as [p|] eqn:E; [| done].
    destruct (thread_split ts i p E) as (l1 & l2 & -> & Hins).
    pose proof (thread_step_base arrived s l1 p l2 o Hw) as Hst.
    destruct (thread_step GetPacketId s p o) as [s' p']. by rewrite Hins.
Qed.

Lemma arrivals_cons e es : arrivals (e :: es) = arrivals [e] ++ arrivals es.
Proof. by destruct e. Qed.

Lemma world_run_base es : forall arrived w, base_inv arrived w ->
  base_inv (arrived ++ arrivals es) (world_run GetPacketId w es).
Proof.
  induction es as [|e es IH]; intros arrived w Hw; [by rewrite app_nil_r |].
  rewrite arrivals_cons, app_assoc. by apply IH, world_step_base.
Qed.

Definition all_done w : Prop := Forall (fun p => is_done p = true) (w_threads w).

Lemma done_none w (f : Ph -> bool) : all_done w -> f PDone = false ->
  ~ Exists (fun p => f p = true) (w_threads w).
Proof.
  intros Hd Hf. unfold all_done in Hd. induction Hd as [|p ts Hp _ IH]; [by intros ?%Exists_nil |].
  rewrite Exists_cons. intros [E | ?]; [| done]. destruct p; try done. congruence.
Qed.

Lemma done_base arrived w : base_inv arrived w -> all_done w ->
  msgQueue_ (w_sched w) = [] /\ isWorking_ (w_sched w) = false.
Proof.
  intros Hw Hd. split.
  - destruct (msgQueue_ (w_sched w)) as [|m q] eqn:E; [done |]. exfalso.
    apply (done_none w drainer Hd eq_refl), (bi_queue _ _ Hw). by rewrite E.
  - destruct (isWorking_ (w_sched w)) eqn:E; [| done]. exfalso.
    by apply (done_none w worker Hd eq_refl), (bi_working _ _ Hw).
Qed.

(** * Peers of a known version *)

(** Every answer about the peer's version is 3.0 or later. *)
Definition modern (e : Event (DataRequestPacket := Pkt)) : Prop :=
  match e with EThread _ o => old_version o = false | _ => True end.

Definition workers (ts : list Ph) : nat := length (filter (fun p => worker p = true) ts).

(** The phases after which the thread looks at the map again, and those where it will not. *)
Definition ready (p : Ph) : bool :=
  match p with
  | PStart | PStop | PTimer | PUpdate | PInsert _ | PGet | PHandle _ _ | PFinish _ => true
  | _ => false
  end.
Definition releasing (p : Ph) : bool := match p with PRelease | PRelease2 => true | _ => false end.
Definition is_last (p : Ph) : bool := match p with PLast _ => true | _ => false end.

Definition map_due s : Prop := due (expectedSequenceId_ s) (messageMap_ s).

Record world_inv (arrived : list Msg) w : Prop := {
  wi_base : base_inv arrived w;
  wi_workers : workers (w_threads w) = if isWorking_ (w_sched w) then 1%nat else 0%nat;
  wi_due : map_due (w_sched w) -> Exists (fun p => ready p = true) (w_threads w);
  wi_release : Exists (fun p => releasing p = true) (w_threads w) -> ~ map_due (w_sched w);
  wi_last : Forall (fun p => is_last p = false) (w_threads w)
}.

Lemma workers_app l1 l2 : workers (l1 ++ l2) = (workers l1 + workers l2)%nat.
Proof. unfold workers. by rewrite filter_app, length_app. Qed.

Lemma workers_middle l1 p l2 :
  workers (l1 ++ p :: l2) = ((if worker p then 1 else 0) + workers (l1 ++ l2))%nat.
Proof.
  rewrite !workers_app. unfold workers at 2. rewrite filter_cons. destruct (worker p); [rewrite decide_True by done |
    rewrite decide_False by done]; cbn [length]; unfold workers; lia.
Qed.

Lemma workers_exists (l : list Ph) : (0 < workers l)%nat <-> Exists (fun p => worker p = true) l.
Proof.
  unfold workers. rewrite Exists_exists. split.
  - destruct (filter (fun p => worker p = true) l) as [|p ps] eqn:E; cbn [length]; [lia |]. intros _.
    exists p. assert (Hin : p ∈ filter (fun p => worker p = true) l) by (rewrite E; left).
    by apply list_elem_of_filter in Hin as [? ?].
  - intros (p & Hin & Hp). assert (Hf : p ∈ filter (fun p => worker p = true) l) by (by apply list_elem_of_filter).
    destruct (filter (fun p => worker p = true) l); [by apply elem_of_nil in Hf | cbn [length]; lia].
Qed.

Lemma new_world_inv : world_inv [] newWorld.
Proof. split; [apply new_base_inv | done | done | cbn; by intros ?%Exists_nil | constructor]. Qed.

(** What a step must give besides the general invariant. *)
Lemma inv_update arrived s l1 l2 p s' p' : world_inv arrived (mkWorld s (l1 ++ p :: l2)) ->
  base_inv arrived (mkWorld s' (l1 ++ p' :: l2)) ->
  (isWorking_ s' = isWorking_ s /\ worker p' = worker p
   \/ isWorking_ s = negb (worker p') /\ isWorking_ s' = worker p' /\ worker p = negb (worker p')) ->
  (map_due s' -> ready p' = true \/ Exists (fun p => ready p = true) (l1 ++ l2)) ->
  (releasing p' = true \/ Exists (fun p => releasing p = true) (l1 ++ l2) -> ~ map_due s') ->
  is_last p' = false ->
  world_inv arrived (mkWorld s' (l1 ++ p' :: l2)).
Proof.
  intros [Hb Hwk Hdue Hrl Hl] Hb' Hw' Hdue' Hrl' Hl'.
  cbn [w_sched w_threads] in *. split; cbn [w_sched w_threads]; try done.
  - rewrite workers_middle in *. destruct Hw' as [[-> ->] | (E1 & -> & E2)]; [done |].
    rewrite E1, E2 in Hwk. destruct (worker p'); cbn in *; lia.
  - by rewrite Exists_middle.
  - by rewrite Exists_middle.
  - rewrite Forall_middle in Hl |- *. tauto.
Qed.

Lemma releasing_worker (l : list Ph) : Exists (fun p => releasing p = true) l -> (0 < workers l)%nat.
Proof. intros He. apply workers_exists. eapply Exists_impl; [exact He |]. by intros []. Qed.

(** The only worker: no other thread is about to release. *)
Lemma only_worker arrived s l1 p l2 : world_inv arrived (mkWorld s (l1 ++ p :: l2)) -> worker p = true ->
  isWorking_ s = true /\ workers (l1 ++ l2) = 0%nat.
Proof.
  intros Hw Hp. pose proof (wi_workers _ _ Hw) as Hc. cbn [w_sched w_threads] in Hc.
  rewrite workers_middle, Hp in Hc. destruct (isWorking_ s); split; try done; lia.
Qed.

Lemma no_other_release arrived s l1 p l2 : world_inv arrived (mkWorld s (l1 ++ p :: l2)) -> worker p = true ->
  ~ Exists (fun p => releasing p = true) (l1 ++ l2).
Proof. intros Hw Hp He%releasing_worker. destruct (only_worker _ _ _ _ _ Hw Hp). lia. Qed.

(** A thread that finds another one at work may leave everything to it. *)
Lemma start_busy arrived s l1 l2 : world_inv arrived (mkWorld s (l1 ++ PStart :: l2)) ->
  isWorking_ s = true -> map_due s -> Exists (fun p => ready p = true) (l1 ++ l2).
Proof.
  intros Hw Hk Hd. pose proof (bi_working _ _ (wi_base _ _ Hw) Hk) as He. cbn [w_threads] in He.
  rewrite Exists_middle in He. destruct He as [? | He]; [done |].
  assert (Hr : ~ Exists (fun p => releasing p = true) (l1 ++ l2)).
  { intros Hr. apply (wi_release _ _ Hw); [| done]. cbn [w_threads]. rewrite Exists_middle. by right. }
  rewrite Exists_exists in *. destruct He as (p & Hin & Hp). exists p. split; [done |].
  destruct p; try done; destruct Hr; eauto.
Qed.

Lemma get_due s : msg_map_wf (messageMap_ s) ->
  let '((msg, need), s') := GetMsgFromMap GetPacketId s in
  isWorking_ s' = isWorking_ s /\ (msg = None -> ~ map_due s').
Proof.
  intros Hmap. unfold GetMsgFromMap.
  pose proof (get_from_map_spec (expectedSequenceId_ s) (finishedPacketId_ s) _ Hmap) as Hg.
  destruct (get_from_map _ _ _ _) as [[msg need] [mm' del]]. destruct Hg as (_ & _ & Hmsg).
  split; [done |]. by intros ->.
Qed.

Lemma thread_step_inv arrived s l1 p l2 o : old_version o = false ->
  world_inv arrived (mkWorld s (l1 ++ p :: l2)) ->
  let '(s', p') := thread_step GetPacketId s p o in world_inv arrived (mkWorld s' (l1 ++ p' :: l2)).
Proof.
  intros Ho Hw. pose proof (no_other_release _ _ _ _ _ Hw) as Hno. pose proof (only_worker _ _ _ _ _ Hw) as Hk.
  pose proof (thread_step_base arrived s l1 p l2 o (wi_base _ _ Hw)) as Hb.
  pose proof Hw as [[Hmap _ _ _ Hpk _] Hwk Hdue Hrl Hl]. cbn [w_sched w_threads] in *.
  rewrite Exists_middle in Hdue, Hrl. rewrite Forall_middle in Hpk, Hl.
  destruct (stop_timer_is s) as [sid Hstop]. destruct (start_timer_is s (oc_timer o)) as [tid Hstart].
  destruct p as [| | | | q | | | | | m need | m | m | id | id | id | | | |]; cbn [thread_step worker] in *;
    rewrite ?Hstop, ?Hstart in *; try (specialize (Hno eq_refl); destruct (Hk eq_refl) as [Hk1 _]).
  all: try (apply (inv_update _ _ _ _ _ _ _ Hw Hb); [by left | tauto | | done];
            cbn [releasing]; intros [? | ?]; [done | tauto]).
  - rewrite Ho in *. destruct (isWorking_ s) eqn:Ek.
    + apply (inv_update _ _ _ _ _ _ _ Hw Hb); [by left | | | done].
      * intros Hd. right. by eapply start_busy.
      * intros [? | ?]; [done | tauto].
    + apply (inv_update _ _ _ _ _ _ _ Hw Hb); [by right | by left | | done]. intros [? | ?]; [done |]. apply Hrl. by right.
  - destruct (update_inner q s Hmap) as (_ & _ & _ & _ & Hk2 & _).
    apply (inv_update _ _ _ _ _ _ _ Hw Hb); [by left | by left | by intros [? | ?] | done].
  - pose proof (get_due s Hmap) as Hg. destruct (GetMsgFromMap GetPacketId s) as [[msg need] s']. destruct Hg as [E Hg].
    apply (inv_update _ _ _ _ _ _ _ Hw Hb); [left; by destruct msg | | | by destruct msg].
    + destruct msg; [by left | by intros ?%Hg].
    + destruct msg; [by intros [? | ?] | by intros _ ?%Hg].
  - assert (Hnd : ~ map_due s) by (apply Hrl; by left).
    apply (inv_update _ _ _ _ _ _ _ Hw Hb); [by left | by intros ?%Hnd | by intros _ | done].
  - apply (inv_update _ _ _ _ _ _ _ Hw Hb); [right; by rewrite Hk1 | | by intros [? | ?] | done].
    intros Hd. destruct Hrl; [by left | done].
  - unfold IsNeedReloadQueue in *. destruct (isNeedReload_ s);
      (apply (inv_update _ _ _ _ _ _ _ Hw Hb); [by left | | | done]);
      [by left | intros [? | ?]; [done | tauto] | intros Hd; destruct (Hdue Hd); [done | by right] |
       intros [? | ?]; [done | tauto]].
  - pose proof (handle_msg_spec s m need o) as Hs. destruct (handle_msg GetPacketId s m need o) as [s' p'].
    destruct Hs as (_ & _ & Ek & _ & _ & [-> | [-> Hn]]).
    + apply (inv_update _ _ _ _ _ _ _ Hw Hb); [by left | by left | by intros [? | ?] | done].
    + destruct Hpk as [[? ?] _]. congruence.
  - destruct Hl as [? _]. done.
  - apply (inv_update _ _ _ _ _ _ _ Hw Hb); [right; by rewrite Hk1 | by left | by intros [? | ?] | done].
  - destruct (IsNeedReloadQueue s); (apply (inv_update _ _ _ _ _ _ _ Hw Hb); [by left | tauto | | done]);
      (intros [? | ?]; [done | tauto]).
  - destruct (isWorking_ s) eqn:Ek; (apply (inv_update _ _ _ _ _ _ _ Hw Hb); [by left | tauto | | done]);
      (intros [? | ?]; [done | tauto]).
  - destruct (id =? ms_timerId_ s); (apply (inv_update _ _ _ _ _ _ _ Hw Hb); [by left | | | done]).
    + done.
    + by intros _ [].
    + tauto.
    + intros [? | ?]; [done | tauto].
  - apply (inv_update _ _ _ _ _ _ _ Hw Hb); [by left | done | by intros _ [] | done].
Qed.

(** A new thread that neither works nor looks at the map. *)
Lemma new_thread_inv arrived s ts p s' arrived' : world_inv arrived (mkWorld s ts) ->
  base_inv arrived' (mkWorld s' (ts ++ [p])) -> isWorking_ s' = isWorking_ s -> (map_due s' <-> map_due s) ->
  worker p = false -> releasing p = false -> is_last p = false -> world_inv arrived' (mkWorld s' (ts ++ [p])).
Proof.
  intros [_ Hwk Hdue Hrl Hl] Hb Hk Hd Hp Hr Hla. cbn [w_sched w_threads] in *.
  split; cbn [w_sched w_threads]; [done | | | |].
  - rewrite workers_app, Hk, <- Hwk. unfold workers at 2. rewrite filter_cons, decide_False by (by rewrite Hp). cbn. lia.
  - intros ?%Hd. apply Exists_app. auto.
  - intros [He | He]%Exists_app; [rewrite Hd; auto |]. apply Exists_cons in He as [? | ?%Exists_nil]; [congruence | done].
  - apply Forall_app. split; [done | by repeat constructor].
Qed.

Lemma world_step_inv arrived w e : modern e -> world_inv arrived w ->
  world_inv (arrived ++ arrivals [e]) (world_step GetPacketId w e).
Proof.
  intros He Hw. pose proof (world_step_base arrived w e (wi_base _ _ Hw)) as Hb.
  destruct w as [s ts]. destruct e as [m | id | | i o];
    cbn [world_step arrivals omap list_omap w_sched w_threads] in *; rewrite ?app_nil_r in *.
  - by apply (new_thread_inv arrived s ts).
  - by apply (new_thread_inv arrived s ts).
  - by apply (new_thread_inv arrived s ts).
  - destruct (ts !! i) as [p|] eqn:E; [| done].
    destruct (thread_split ts i p E) as (l1 & l2 & -> & Hins).
    pose proof (thread_step_inv arrived s l1 p l2 o He Hw) as Hst.
    destruct (thread_step GetPacketId s p o) as [s' p']. by rewrite Hins.
Qed.

Lemma world_run_inv es : forall arrived w, Forall modern es -> world_inv arrived w ->
  world_inv (arrived ++ arrivals es) (world_run GetPacketId w es).
Proof.
  induction es as [|e es IH]; intros arrived w Hes Hw; [by rewrite app_nil_r |].
  apply Forall_cons in Hes as [He Hes]. rewrite arrivals_cons, app_assoc. by apply IH, world_step_inv.
Qed.

Lemma done_quiet arrived w : world_inv arrived w -> all_done w ->
  msgQueue_ (w_sched w) = [] /\ ~ map_due (w_sched w) /\ isWorking_ (w_sched w) = false.
Proof.
  intros Hw Hd. destruct (done_base _ _ (wi_base _ _ Hw) Hd) as [Hq Hk]. split_and!; [done | | done].
  intros Hdue. by apply (done_none w ready Hd eq_refl), (wi_due _ _ Hw).
Qed.

Lemma handling_workers (ts : list Ph) : Forall (fun p => is_last p = false) ts ->
  (length (filter (fun p => handling p = true) ts) <= workers ts)%nat.
Proof.
  unfold workers. induction 1 as [|p ts Hp _ IH]; [done |]. rewrite !filter_cons.
  destruct p; cbn [handling worker is_last] in *; repeat case_decide; try done; cbn [length]; lia.
Qed.

(** C23: However the threads that receive data messages, the idle timer and the calls that
    clear the messages interleave, and whatever versions of the peer are reported on the way:
    every message that arrived is in exactly one place (queued, in the map, being handled, or
    deleted once), and when all threads have returned the queue is empty and nobody is marked
    as working. If the peer's version was known to be 3.0 or later all the time, then besides
    at most one thread is handling a message, and when all have returned the first message
    left in the map, if any, comes after the next one expected. *)
Theorem schedule_safe (es : list Event) :
  let w := world_run GetPacketId newWorld es in
  arrivals es ≡ₚ msgQueue_ (w_sched w) ++ (messageMap_ (w_sched w)).*2 ++ deleted (w_sched w)
       ++ (w_threads w ≫= held)
  /\ (all_done w -> msgQueue_ (w_sched w) = [] /\ isWorking_ (w_sched w) = false)
  /\ (Forall modern es ->
      (length (filter (fun p => handling p = true) (w_threads w)) <= 1)%nat
      /\ (all_done w -> forall k m rest, messageMap_ (w_sched w) = (k, m) :: rest ->
            expectedSequenceId_ (w_sched w) < k)).
Proof.
  intros w. pose proof (world_run_base es [] newWorld new_base_inv) as Hb. fold w in Hb. cbn [app] in Hb.
  split_and!.
  - rewrite (bi_msgs _ _ Hb). unfold sched_msgs. by rewrite <- !app_assoc.
  - by apply done_base with (arrivals es).
  - intros Hes. pose proof (world_run_inv es [] newWorld Hes new_world_inv) as Hw. fold w in Hw. cbn [app] in Hw. split.
    + pose proof (handling_workers _ (wi_last _ _ Hw)) as Hle. rewrite (wi_workers _ _ Hw) in Hle.
      destruct (isWorking_ (w_sched w)); lia.
    + intros Hd k m rest E. destruct (done_quiet _ _ Hw Hd) as (_ & Hdue & _).
      unfold map_due in Hdue. rewrite E in Hdue. cbn in Hdue. lia.
Qed.

(** * Termination *)

(** How many steps a thread can still do before it looks at the queue and the map again. *)
Definition weight (reload : bool) (p : Ph) : nat :=
  match p with
  | PDone => 0
  | PTimeOut3 _ | PClear3 => 1 | PTimeOut2 _ | PClear2 => 2 | PTimeOut _ | PClear => 3
  | PCheck => if reload then 10 else 1
  | PRelease2 => if reload then 11 else 2
  | PRelease => if reload then 12 else 3
  | PGet => if reload then 13 else 4
  | PInsert q => 20 * length q + if reload then 14 else 5
  | PUpdate => 6
  | PTimer => 7
  | PStop => 8
  | PStart => 9
  | PFinish _ => 10
  | PHandle _ _ | PLast _ => 11
  end.

Definition sched_weight s : nat := 20 * (length (msgQueue_ s) + length (messageMap_ s)).

Definition measure w : nat :=
  sched_weight (w_sched w) + sum_list (weight (isNeedReload_ (w_sched w)) <$> w_threads w).

Lemma sum_middle (f : Ph -> nat) l1 p l2 :
  sum_list (f <$> l1 ++ p :: l2) = (sum_list (f <$> l1) + f p + sum_list (f <$> l2))%nat.
Proof.
  induction l1 as [|q l1 IH]; cbn [app fmap list_fmap sum_list sum_list_with]; [done |].
  cbn in IH |- *. lia.
Qed.

Lemma weight_reload (l : list Ph) r r' : (r' = true -> r = true) ->
  (sum_list (weight r' <$> l) <= sum_list (weight r <$> l))%nat.
Proof.
  intros Hr. induction l as [|p l IH]; cbn [fmap list_fmap]; [done |]. cbn [sum_list sum_list_with] in *.
  assert (Hp : (weight r' p <= weight r p)%nat).
  { destruct r, r'; try (specialize (Hr eq_refl); discriminate); destruct p; cbn [weight]; lia. }
  unfold sum_list in *. cbn in *. lia.
Qed.

(** Each step of a thread loses weight. *)
Lemma thread_step_weight s p o : msg_map_wf (messageMap_ s) -> is_done p = false ->
  let '(s', p') := thread_step GetPacketId s p o in
  (isNeedReload_ s' = true -> isNeedReload_ s = true) /\
  (sched_weight s' + weight (isNeedReload_ s') p' < sched_weight s + weight (isNeedReload_ s) p)%nat.
Proof.
  intros Hmap Hp. unfold sched_weight.
  destruct (stop_timer_is s) as [sid Hstop]. destruct (start_timer_is s (oc_timer o)) as [tid Hstart].
  assert (Hhandle : forall m need, let '(s', p') := handle_msg GetPacketId s m need o in
    (isNeedReload_ s' = true -> isNeedReload_ s = true) /\
    (20 * (length (msgQueue_ s') + length (messageMap_ s')) + weight (isNeedReload_ s') p' <
     20 * (length (msgQueue_ s) + length (messageMap_ s)) + 11)%nat).
  { intros m need. pose proof (handle_msg_spec s m need o) as Hs. destruct (handle_msg GetPacketId s m need o) as [s' p'].
    destruct Hs as (Eq & Er & _ & Em & _ & Ep). rewrite Er, Eq. split; [done |].
    destruct Em as [-> | ->], Ep as [-> | [-> _]]; cbn [weight length]; lia. }
  destruct p as [| | | | q | | | | | m need | m | m | id | id | id | | | |]; cbn [thread_step]; rewrite ?Hstop, ?Hstart;
    try done; try apply Hhandle;
    try (split; [done | cbn [set_timer set_working delete_msgs msgQueue_ messageMap_ isNeedReload_ weight];
                        destruct (isNeedReload_ s); lia]).
  - destruct (old_version o); [| destruct (isWorking_ s); (split; [done |]); cbn; lia].
    unfold GetLastMsgFromQueue. split; [done |]. destruct (msgQueue_ s) as [|m0 q0]; [cbn; lia |].
    destruct (last (m0 :: q0)); cbn [set_queue delete_msgs msgQueue_ messageMap_ isNeedReload_ weight length]; lia.
  - split; [done |]. cbn [set_queue msgQueue_ messageMap_ isNeedReload_ weight length]. lia.
  - destruct (update_inner q s Hmap) as (_ & _ & Hq2 & Hr2 & _ & Hl2). rewrite Hr2, Hq2. split; [done |].
    cbn [weight]. destruct (isNeedReload_ s); lia.
  - unfold GetMsgFromMap. pose proof (get_from_map_spec (expectedSequenceId_ s) (finishedPacketId_ s) _ Hmap) as Hg.
    destruct (get_from_map _ _ _ _) as [[msg need] [mm' del]]. destruct Hg as (_ & Hp' & _).
    apply Permutation_length in Hp'. rewrite !length_app, !length_fmap in Hp'. split; [done |].
    destruct msg as [msg|]; cbn [option_list option_rect length] in Hp';
      cbn [set_msg_map delete_msgs msgQueue_ messageMap_ isNeedReload_ weight]; destruct (isNeedReload_ s); cbn in Hp'; lia.
  - split; [done |]. unfold IsNeedReloadQueue. destruct (isNeedReload_ s); cbn [weight]; lia.
  - split; [done |]. destruct (IsNeedReloadQueue s); cbn [weight]; lia.
  - split; [done |]. destruct (isWorking_ s); cbn [weight]; lia.
  - destruct (id =? ms_timerId_ s); (split; [done |]);
      cbn [set_timer ClearMsgMapWithNoLock set_msg_map delete_msgs msgQueue_ messageMap_ isNeedReload_ weight length]; lia.
  - split; [done |]. cbn [ClearMsgQueue set_queue delete_msgs msgQueue_ messageMap_ isNeedReload_ weight length]. lia.
  - split; [done |]. cbn [ClearMsgMapWithNoLock set_msg_map delete_msgs msgQueue_ messageMap_ isNeedReload_ weight length]. lia.
Qed.

Lemma step_measure s l1 p l2 o : msg_map_wf (messageMap_ s) -> is_done p = false ->
  let '(s', p') := thread_step GetPacketId s p o in
  (measure (mkWorld s' (l1 ++ p' :: l2)) < measure (mkWorld s (l1 ++ p :: l2)))%nat.
Proof.
  intros Hmap Hp. pose proof (thread_step_weight s p o Hmap Hp) as Hs.
  destruct (thread_step GetPacketId s p o) as [s' p']. destruct Hs as [Hr Hlt]. unfold measure.
  cbn [w_sched w_threads]. rewrite !sum_middle.
  pose proof (weight_reload l1 _ _ Hr). pose proof (weight_reload l2 _ _ Hr). lia.
Qed.

(** Steps of threads that have not returned yet. *)
Fixpoint moves w (js : list (nat * Outcome)) : Prop :=
  match js with
  | [] => True
  | (i, o) :: js => (exists p, w_threads w !! i = Some p /\ is_done p = false)
                    /\ moves (world_step GetPacketId w (EThread i o)) js
  end.

Definition thread_events (js : list (nat * Outcome)) : list (Event (DataRequestPacket := Pkt)) :=
  (fun j => EThread j.1 j.2) <$> js.

Lemma move_measure arrived w i o p : base_inv arrived w -> w_threads w !! i = Some p -> is_done p = false ->
  base_inv arrived (world_step GetPacketId w (EThread i o))
  /\ (measure (world_step GetPacketId w (EThread i o)) < measure w)%nat.
Proof.
  intros Hw E Hp. split.
  { pose proof (world_step_base arrived w (EThread i o) Hw) as H1. cbn [arrivals omap list_omap] in H1.
    by rewrite app_nil_r in H1. }
  destruct w as [s ts]. cbn [world_step w_sched w_threads] in *. rewrite E.
  destruct (thread_split ts i p E) as (l1 & l2 & Ets & Hins).
  pose proof (step_measure s l1 p l2 o (bi_map _ _ Hw) Hp) as Hm.
  destruct (thread_step GetPacketId s p o) as [s' p']. by rewrite Hins, Ets.
Qed.

Lemma moves_bounded js : forall arrived w, base_inv arrived w -> moves w js -> (length js <= measure w)%nat.
Proof.
  induction js as [|[i o] js IH]; intros arrived w Hw Hj; cbn [length]; [lia |].
  destruct Hj as [(p & E & Hp) Hj]. destruct (move_measure arrived w i o p Hw E Hp) as [Hw' Hm].
  specialize (IH arrived _ Hw' Hj). lia.
Qed.

Lemma can_finish (o : Outcome) n : forall arrived w, base_inv arrived w -> (measure w < n)%nat ->
  exists js, moves w js /\ all_done (world_run GetPacketId w (thread_events js)).
Proof.
  induction n as [|n IH]; intros arrived w Hw Hn; [lia |].
  destruct (decide (all_done w)) as [Hd | Hnd]; [by exists [] |].
  unfold all_done in Hnd. apply not_Forall_Exists in Hnd; [| apply _].
  apply Exists_exists in Hnd as (p & Hin & Hp). apply list_elem_of_lookup in Hin as [i E].
  assert (Hp' : is_done p = false) by (destruct (is_done p) eqn:Ed; [by destruct (Hp Ed) | done]).
  destruct (move_measure arrived w i o p Hw E Hp') as [Hw' Hm].
  destruct (IH arrived _ Hw') as (js & Hj & Hd); [lia |].
  exists ((i, o) :: js). split; [| done]. split; [by exists p | done].
Qed.

(** C25: The threads come to an end: in any state that can be reached, whatever the threads
    do next in whatever order, whatever versions of the peer are reported and whatever
    handling the messages gives, they can make at most [measure] steps before all have
    returned, unless new messages arrive; and they can always be run until all have. *)
Theorem schedule_terminates (es : list Event) (o : Outcome) :
  let w := world_run GetPacketId newWorld es in
  (forall js, moves w js -> (length js <= measure w)%nat)
  /\ exists js, moves w js /\ all_done (world_run GetPacketId w (thread_events js)).
Proof.
  intros w. pose proof (world_run_base es [] newWorld new_base_inv) as Hw. fold w in Hw.
  split; [intros js; by eapply moves_bounded | eapply (can_finish o (S (measure w))); [done | lia]].
Qed.

(** * A call that nothing interrupts *)

Fixpoint run_thread (n : nat) s (p : Ph) (o : Outcome) : Sched * Ph :=
  match n with
  | O => (s, p)
  | S n => let '(s, p) := thread_step GetPacketId s p o in run_thread n s p o
  end.

(** [MoveNextMsg] as a whole is what its steps do when no other thread comes in between. *)
Lemma move_next_steps s o :
  let '((msg, need, continue), s') := MoveNextMsg GetPacketId s (oc_version o) (oc_timer o) in
  exists n, run_thread n s PStart o =
    (s', match msg with
         | Some m => if old_version o then PLast m else PHandle m need
         | None => if continue : bool then PCheck else PDone
         end).
Proof.
  unfold MoveNextMsg. fold (old_version o). destruct (old_version o) eqn:Ev.
  { destruct (GetLastMsgFromQueue s) as [msg s'] eqn:E. exists 1%nat. cbn [run_thread thread_step].
    rewrite Ev, E. by destruct msg. }
  destruct (isWorking_ s) eqn:Ek.
  { exists 1%nat. cbn [run_thread thread_step]. by rewrite Ev, Ek. }
  set (s1 := UpdateMsgMap GetPacketId (ms_ResetTimer (set_working s true) (oc_timer o))).
  assert (H5 : run_thread 5 s PStart o = (s1, PGet)).
  { cbn [run_thread thread_step]. by rewrite Ev, Ek. }
  assert (Happ : forall n m a p, run_thread (n + m) a p o = let '(b, p') := run_thread n a p o in run_thread m b p' o).
  { induction n as [|n IH]; intros m a p; [done |]. cbn [Nat.add run_thread].
    destruct (thread_step GetPacketId a p o). apply IH. }
  destruct (GetMsgFromMap GetPacketId s1) as [[msg need] s2] eqn:Eg. destruct msg as [m|].
  - exists (5 + 1)%nat. rewrite Happ, H5. cbn [run_thread thread_step]. by rewrite Eg.
  - exists (5 + 3)%nat. rewrite Happ, H5. cbn [run_thread thread_step]. by rewrite Eg.
Qed.

End Facts.

(** While the version of the peer is not known, [isWorking_] is not taken: thread 0 takes the
    message of sequence 1 as the last of the queue; the version becomes known, and thread 1
    handles its message at the same time. When thread 0 is done it counts its message as the
    expected one and resets the flag that thread 1 holds. *)
Definition overlap_events : list (Event (DataRequestPacket := Z)) :=
  let msg n := SetSequenceId (SetSessionId (set_object emptyMessage n) 7) n in
  let step v i := EThread i (mkOutcome (E_OK, 1) E_OK false v) in
  [EArrive (msg 1); step 0 0%nat; EArrive (msg 1)]
  ++ replicate 6 (step SOFTWARE_VERSION_RELEASE_3_0 1%nat).

Example overlap_two_handling :
  let w := world_run id newWorld overlap_events in
  length (filter (fun p => handling p = true) (w_threads w)) = 2%nat
  /\ let w' := world_run id w (replicate 2 (EThread 0%nat (mkOutcome (E_OK, 1) E_OK false SOFTWARE_VERSION_RELEASE_3_0))) in
     isWorking_ (w_sched w') = false /\ expectedSequenceId_ (w_sched w') = 2
     /\ length (filter (fun p => handling p = true) (w_threads w')) = 1%nat.
Proof. vm_compute. by repeat split. Qed.
