(* ===== verification/MessageOrder.v ===== *)
(** The data messages of one session are handled in the order of their sequence numbers,
    each exactly once, in whatever order and however often they arrive. *)

From S2P Require Import Prelude Memory CommTypes SyncStorage AppMessage WaterMark TimeSync MessageSchedule.
From S2P Require Import MessageScheduleFacts.
From Stdlib Require Import ZArith Lia.
From Stdlib Require Import Strings.Byte.
From stdpp Require Import base numbers list gmap sorting.

Open Scope Z_scope.

Section Order.
Context {Pkt : Type} (GetPacketId : Pkt -> Z) (session : Z).

Abbreviation Msg := (Message Pkt).
Abbreviation Sched := (MessageSchedule (DataRequestPacket := Pkt)).
Abbreviation Ph := (Phase (DataRequestPacket := Pkt)).
Implicit Types (s : Sched) (mm : list (Z * Msg)) (w : World (DataRequestPacket := Pkt)) (m : Msg).

Definition packet_id m : Z := from_option GetPacketId 0 (holderPtr_ m).

(** A message of the session. *)
Record msg_ok m : Prop := {
  mk_session : sessionId_ m = session;
  mk_seq : 1 <= sequenceId_ m < 2 ^ 32 - 1;
  mk_packet : is_Some (holderPtr_ m);
  mk_id : 0 <= packet_id m
}.

(** Later messages do not have smaller packet ids; a repeated message may have a new one. *)
Definition ordered (ms : list Msg) : Prop :=
  forall m1 m2, m1 ∈ ms -> m2 ∈ ms -> sequenceId_ m1 < sequenceId_ m2 -> packet_id m1 <= packet_id m2.

(** Handling succeeds: it neither times out nor asks for the session to start over; and the
    peer's version is known to be 3.0 or later. *)
Definition outcome_ok (o : Outcome) : Prop :=
  oc_errCode o <> - E_TIMEOUT /\ oc_errCode o <> - E_NEED_ABILITY_SYNC /\ oc_waterMarkErr o = false
  /\ SOFTWARE_VERSION_RELEASE_3_0 <= oc_version o.

Definition event_ok (e : Event (DataRequestPacket := Pkt)) : Prop :=
  match e with
  | EArrive m => msg_ok m
  | ETimer _ | EClear => False
  | EThread _ o => outcome_ok o
  end.

(** The sequence numbers of the messages that are handled (and not only acknowledged). *)
Definition handled_by w (e : Event (DataRequestPacket := Pkt)) : list Z :=
  match e with
  | EThread i _ => match w_threads w !! i with
                   | Some (PHandle m true) => [sequenceId_ m]
                   | _ => []
                   end
  | _ => []
  end.

Fixpoint handled w (es : list Event) : list Z :=
  match es with
  | [] => []
  | e :: es => handled_by w e ++ handled (world_step GetPacketId w e) es
  end.

(** * The invariant *)

Definition handles (ts : list Ph) : list (Msg * bool) :=
  ts ≫= (fun p => match p with PHandle m b => [(m, b)] | _ => [] end).

(** The messages a thread has taken from the queue and not yet put into the map. *)
Definition taken (p : Ph) : list Msg := match p with PInsert q => q | _ => [] end.

(** Nothing of the session has been looked at; [pend] are the messages not yet in the map. *)
Record fresh (arrived : list Msg) (log : list Z) s (pend : list Msg) (hs : list (Msg * bool)) : Prop := {
  fr_session : currentSessionId_ s = 0;
  fr_prev : prevSessionId_ s = 0;
  fr_map : messageMap_ s = [];
  fr_hs : hs = [];
  fr_log : log = [];
  fr_all : forall m, m ∈ arrived -> m ∈ pend
}.

Record active (arrived : list Msg) (log : list Z) s (pend : list Msg) (hs : list (Msg * bool)) : Prop := {
  ac_session : currentSessionId_ s = session;
  ac_prev : prevSessionId_ s = 0;
  ac_exp : 1 <= expectedSequenceId_ s;
  ac_log : log = seqZ 1 (expectedSequenceId_ s - 1);
  ac_last : expectedSequenceId_ s = 1 /\ finishedPacketId_ s = 0
            \/ exists m, m ∈ arrived /\ sequenceId_ m = expectedSequenceId_ s - 1
                         /\ packet_id m = finishedPacketId_ s;
  ac_all : forall m, m ∈ arrived -> m ∈ pend \/ sequenceId_ m < expectedSequenceId_ s
             \/ sequenceId_ m ∈ (messageMap_ s).*1
             \/ exists m', (m', true) ∈ hs /\ sequenceId_ m' = sequenceId_ m;
  ac_hs : forall m (b : bool), (m, b) ∈ hs ->
            if b then sequenceId_ m = expectedSequenceId_ s else sequenceId_ m < expectedSequenceId_ s
}.

Definition order_inv arrived log s pend hs : Prop :=
  fresh arrived log s pend hs \/ active arrived log s pend hs.

Context (session_pos : session <> 0).

(** ** The queue is moved into the map *)

Lemma update_one_order arrived log s m q : msg_map_wf (messageMap_ s) -> msg_ok m ->
  order_inv arrived log s (m :: q) [] ->
  let '(e, s') := UpdateMsgMapIfNeed GetPacketId s (Some m) in
  let s' := if negb (e =? E_OK) then delete_msgs s' [m] else s' in
  active arrived log s' q [].
Proof.
  intros Hwf [Hses Hseq [p Hp] Hid] Hinv. unfold UpdateMsgMapIfNeed. rewrite Hp.
  assert (Hprev : prevSessionId_ s = 0) by (by destruct Hinv as [[] | []]). rewrite Hprev. cbn [Z.eqb negb andb].
  set (s1 := if negb (sessionId_ m =? currentSessionId_ s) then _ else s).
  assert (H1 : active arrived log s1 (m :: q) []).
  { unfold s1. rewrite Hses. destruct Hinv as [[Fs Fp Fm _ Fl Fa] | Hac].
    - rewrite Fs. destruct (Z.eqb_spec session 0); [done |]. cbn [negb].
      split; cbn [set_session ClearMsgMapWithNoLock set_msg_map delete_msgs currentSessionId_ prevSessionId_
        expectedSequenceId_ finishedPacketId_ messageMap_]; try done.
      + by left.
      + intros m' Hm'. left. auto.
      + intros m' b []%elem_of_nil.
    - rewrite (ac_session _ _ _ _ _ Hac), Z.eqb_refl. exact Hac. }
  clearbody s1. destruct H1 as [A1 A2 A3 A4 A5 A6 A7].
  assert (Hput : forall s2, currentSessionId_ s2 = currentSessionId_ s1 -> prevSessionId_ s2 = prevSessionId_ s1 ->
    expectedSequenceId_ s2 = expectedSequenceId_ s1 -> finishedPacketId_ s2 = finishedPacketId_ s1 ->
    (forall k, k = sequenceId_ m \/ k ∈ (messageMap_ s1).*1 -> k ∈ (messageMap_ s2).*1) ->
    active arrived log s2 q []).
  { intros s2 E1 E2 E3 E4 Hk. split; rewrite ?E1, ?E2, ?E3, ?E4; try done.
    intros m' Hm'. destruct (A6 m' Hm') as [Hin | [? | [? | (? & []%elem_of_nil & _)]]]; [| auto |].
    - apply elem_of_cons in Hin as [-> | Hin]; [right; right; left; auto | by left].
    - right. right. left. auto. }
  destruct (map_find (sequenceId_ m) (messageMap_ s1)) as [old|] eqn:Ef.
  - destruct (match holderPtr_ old with Some _ => _ | None => _ end).
    + change (negb (- E_INVALID_ARGS =? E_OK)) with true. cbv iota. apply Hput; try done.
      intros k [-> | Hk]; [| done]. apply map_find_key in Ef. apply list_elem_of_fmap. by exists (sequenceId_ m, old).
    + change (negb (E_OK =? E_OK)) with false. cbv iota. apply Hput; try done.
      cbn [set_msg_map delete_msgs messageMap_]. intros k Hk. by apply map_put_keys.
  - change (negb (E_OK =? E_OK)) with false. cbv iota. apply Hput; try done.
    cbn [set_msg_map messageMap_]. intros k Hk. by apply map_put_keys.
Qed.

Lemma update_inner_order arrived log pend q : forall s, msg_map_wf (messageMap_ s) -> Forall msg_ok q ->
  order_inv arrived log s (q ++ pend) [] -> order_inv arrived log (UpdateMsgMapInner GetPacketId s q) pend [].
Proof.
  induction q as [|m q IH]; intros s Hwf Hok Hinv; cbn [UpdateMsgMapInner fold_left]; [done |].
  apply Forall_cons in Hok as [Hm Hok].
  pose proof (update_one_order arrived log s m (q ++ pend) Hwf Hm Hinv) as H1.
  pose proof (update_one GetPacketId s m Hwf) as H2.
  destruct (UpdateMsgMapIfNeed GetPacketId s (Some m)) as [e s1]. cbv zeta in H1, H2.
  destruct H2 as (Hwf1 & _). fold (UpdateMsgMapInner GetPacketId). apply IH; [done | done | by right].
Qed.

(** ** A message is taken from the map *)

(** Only messages that were handled before are dropped. *)
Lemma get_from_map_order expected finished mm : msg_map_wf mm ->
  (forall k m, (k, m) ∈ mm -> k = expected -> finished <= packet_id m) ->
  let '((msg, need), (mm', del)) := get_from_map GetPacketId expected finished mm in
  forall k, k ∈ mm.*1 -> k < expected \/ k ∈ mm'.*1 \/ exists m, msg = Some m /\ need = true /\ sequenceId_ m = k.
Proof.
  induction mm as [|[k m] mm IH]; intros Hwf Hfin; cbn [get_from_map]; [by intros k ?%elem_of_nil |].
  specialize (IH (msg_map_wf_tail _ _ Hwf)). pose proof Hwf as [_ Hf]. apply Forall_cons in Hf as [[Hk [p Hp]] _].
  cbn [fst snd] in Hk, Hp. subst k. rewrite Hp.
  assert (IH' := IH (fun k m' Hin => Hfin k m' (list_elem_of_further _ _ _ Hin))). clear IH.
  assert (Hkeep : forall need, sequenceId_ m <= expected -> (need = false -> sequenceId_ m < expected) ->
    forall k, k ∈ ((sequenceId_ m, m) :: mm).*1 -> k < expected \/ k ∈ mm.*1
      \/ exists m0, Some m = Some m0 /\ need = true /\ sequenceId_ m0 = k).
  { intros need Hle Hlt k Hin. cbn in Hin. apply elem_of_cons in Hin as [-> | Hin]; [| by right; left].
    destruct need; [right; right; by exists m | left; auto]. }
  assert (Hdrop : sequenceId_ m < expected ->
    let '((msg, need), (mm', del)) := (let '(r, (mm, del)) := get_from_map GetPacketId expected finished mm in
      (r, (mm, m :: del))) in
    forall k, k ∈ ((sequenceId_ m, m) :: mm).*1 -> k < expected \/ k ∈ mm'.*1
      \/ exists m, msg = Some m /\ need = true /\ sequenceId_ m = k).
  { intros Hlt. destruct (get_from_map _ _ _ mm) as [[msg need] [mm' del]]. intros k Hin.
    cbn in Hin. apply elem_of_cons in Hin as [-> | Hin]; [by left | auto]. }
  destruct (Z.ltb_spec (sequenceId_ m) expected).
  { destruct (_ <? _); [by apply Hdrop | by apply Hkeep; [lia |]]. }
  destruct (Z.eqb_spec (sequenceId_ m) expected) as [E |].
  { specialize (Hfin (sequenceId_ m) m ltac:(left) E). unfold packet_id in Hfin. rewrite Hp in Hfin.
    cbn [from_option] in Hfin. destruct (Z.ltb_spec (GetPacketId p) finished); [lia |]. apply Hkeep; [lia | done]. }
  intros k Hin. right. left. apply map_put_keys. cbn in Hin. by apply elem_of_cons in Hin.
Qed.

(** ** Steps *)

(** What the invariant looks at. *)
Lemma order_same arrived log s s' pend hs :
  currentSessionId_ s' = currentSessionId_ s -> prevSessionId_ s' = prevSessionId_ s ->
  expectedSequenceId_ s' = expectedSequenceId_ s -> finishedPacketId_ s' = finishedPacketId_ s ->
  messageMap_ s' = messageMap_ s -> order_inv arrived log s pend hs -> order_inv arrived log s' pend hs.
Proof.
  intros E1 E2 E3 E4 E5 [[] | []]; [left | right]; split; rewrite ?E1, ?E2, ?E3, ?E4, ?E5; done.
Qed.

(** Threads of messages, and of a peer of a known version. *)
Definition plain (p : Ph) : bool :=
  match p with
  | PTimeOut _ | PTimeOut2 _ | PTimeOut3 _ | PClear | PClear2 | PClear3 | PLast _ => false
  | _ => true
  end.

Lemma handles_middle l1 p l2 :
  handles (l1 ++ p :: l2) = handles l1 ++ (match p with PHandle m b => [(m, b)] | _ => [] end) ++ handles l2.
Proof. unfold handles. by rewrite bind_app, bind_cons. Qed.

Lemma taken_middle l1 p l2 : (l1 ++ p :: l2) ≫= taken = (l1 ≫= taken) ++ taken p ++ (l2 ≫= taken).
Proof. by rewrite bind_app, bind_cons. Qed.

(** Beside a thread that works no other one handles a message or holds a queue. *)
Lemma no_worker (l : list Ph) : workers l = 0%nat -> handles l = [] /\ l ≫= taken = [].
Proof.
  unfold workers, handles. induction l as [|q l IH]; [done |]. rewrite filter_cons, !bind_cons.
  case_decide as Hd; [done |]. intros Hl. destruct (IH Hl) as [-> ->]. rewrite !app_nil_r. by destruct q.
Qed.

Lemma alone arrived s l1 p l2 : world_inv arrived (mkWorld s (l1 ++ p :: l2)) -> worker p = true ->
  (handles l1 = [] /\ l1 ≫= taken = []) /\ (handles l2 = [] /\ l2 ≫= taken = []).
Proof.
  intros Hw Hp. destruct (only_worker _ _ _ _ _ Hw Hp) as [_ Hz]. rewrite workers_app in Hz.
  split; apply no_worker; lia.
Qed.

Lemma in_map arrived w k m : base_inv arrived w -> (k, m) ∈ messageMap_ (w_sched w) ->
  m ∈ arrived /\ k = sequenceId_ m.
Proof.
  intros Hw Hin. split.
  - rewrite (bi_msgs _ _ Hw). unfold sched_msgs. rewrite !elem_of_app. left. right. left.
    apply list_elem_of_fmap. by exists (k, m).
  - destruct (bi_map _ _ Hw) as [_ Hf]. rewrite Forall_forall in Hf. by apply (Hf (k, m) Hin).
Qed.

Lemma in_held arrived s l1 p l2 m : base_inv arrived (mkWorld s (l1 ++ p :: l2)) -> m ∈ held p -> m ∈ arrived.
Proof.
  intros Hw Hin. rewrite (bi_msgs _ _ Hw). cbn [w_threads]. rewrite bind_app, bind_cons, !elem_of_app. tauto.
Qed.

Lemma get_order arrived log s l1 l2 : base_inv arrived (mkWorld s (l1 ++ PGet :: l2)) ->
  Forall msg_ok arrived -> ordered arrived -> order_inv arrived log s (msgQueue_ s) [] ->
  let '((msg, need), s') := GetMsgFromMap GetPacketId s in
  order_inv arrived log s' (msgQueue_ s') (match msg with Some m => [(m, need)] | None => [] end).
Proof.
  intros Hw Hok Hord Hinv. unfold GetMsgFromMap. pose proof (bi_map _ _ Hw) as Hmap. cbn [w_sched] in Hmap.
  pose proof (get_from_map_spec GetPacketId (expectedSequenceId_ s) (finishedPacketId_ s) _ Hmap) as Hsp.
  pose proof (get_from_map_order (expectedSequenceId_ s) (finishedPacketId_ s) _ Hmap) as Hgo.
  destruct Hinv as [[F1 F2 F3 F4 F5 F6] | [A1 A2 A3 A4 A5 A6 A7]].
  - rewrite F3. cbn [get_from_map]. left. by split.
  - assert (Hfin : forall k m, (k, m) ∈ messageMap_ s -> k = expectedSequenceId_ s -> finishedPacketId_ s <= packet_id m).
    { intros k m Hin ->. destruct (in_map _ _ _ _ Hw Hin) as [Hm Hk]. rewrite Forall_forall in Hok.
      destruct A5 as [[_ ->] | (m0 & Hm0 & Hs0 & <-)]; [apply (Hok m Hm) |]. apply Hord; [done | done | lia]. }
    specialize (Hgo Hfin). destruct (get_from_map _ _ _ _) as [[msg need] [mm' del]].
    destruct Hsp as (_ & _ & Hmsg). right. split; cbn [delete_msgs set_msg_map currentSessionId_ prevSessionId_
      expectedSequenceId_ finishedPacketId_ messageMap_ msgQueue_]; try done.
    + intros m Hm. destruct (A6 m Hm) as [? | [? | [Hk | (? & []%elem_of_nil & _)]]]; [by left | by right; left |].
      destruct (Hgo _ Hk) as [? | [? | (m' & -> & -> & Hs)]]; [by right; left | by right; right; left |].
      right. right. right. exists m'. split; [left | done].
    + intros m b Hin. destruct msg as [m0|]; [| by apply elem_of_nil in Hin].
      apply list_elem_of_singleton in Hin as [= -> ->]. apply Hmsg.
Qed.

Lemma handle_order arrived log s m need o : m ∈ arrived ->
  Forall msg_ok arrived -> outcome_ok o -> order_inv arrived log s (msgQueue_ s) [(m, need)] ->
  let '(s', p') := handle_msg GetPacketId s m need o in
  p' = PFinish m /\
  order_inv arrived (log ++ if need then [sequenceId_ m] else []) s' (msgQueue_ s') [].
Proof.
  intros Hm Hok (O1 & O2 & O3 & O4) Hinv.
  rewrite Forall_forall in Hok. destruct (Hok m Hm) as [_ Hseq [p Hp] _].
  destruct Hinv as [[_ _ _ F4 _ _] | [A1 A2 A3 A4 A5 A6 A7]]; [done |]. unfold handle_msg, old_version.
  specialize (A7 m need ltac:(left)). rewrite O3. rewrite (proj2 (Z.eqb_neq _ _) O1), (proj2 (Z.eqb_neq _ _) O2).
  rewrite (proj2 (Z.ltb_ge _ _) O4), andb_false_r, andb_true_r. unfold schedule_info. rewrite Hp.
  destruct need; (split; [done |]); right; split; cbn [set_finished currentSessionId_ prevSessionId_
      expectedSequenceId_ finishedPacketId_ messageMap_ msgQueue_]; try done.
  - rewrite (wrap_small 32) by lia. lia.
  - rewrite (wrap_small 32), A4, A7 by lia. replace (expectedSequenceId_ s + 1 - 1) with (expectedSequenceId_ s) by lia.
    replace (expectedSequenceId_ s) with ((expectedSequenceId_ s - 1) + 1) at 3 by lia.
    rewrite seqZ_app by lia. f_equal. by replace (1 + (expectedSequenceId_ s - 1)) with (expectedSequenceId_ s) by lia.
  - right. exists m. rewrite (wrap_small 32) by lia. split_and!; [done | lia |]. unfold packet_id. by rewrite Hp.
  - rewrite (wrap_small 32) by lia. intros m' Hm'.
    destruct (A6 m' Hm') as [? | [? | [? | (m1 & Hin & Hs)]]]; [by left | right; left; lia | by right; right; left |].
    apply list_elem_of_singleton in Hin as [= ->]. right. left. lia.
  - intros m' b []%elem_of_nil.
  - by rewrite app_nil_r.
  - intros m' Hm'. destruct (A6 m' Hm') as [? | [? | [? | (m1 & Hin & Hs)]]]; auto.
    by apply list_elem_of_singleton in Hin as [=].
  - intros m' b []%elem_of_nil.
Qed.

(** The invariant of a world: the messages not yet in the map are in the queue, or taken. *)
Definition world_order arrived log w : Prop :=
  order_inv arrived log (w_sched w) ((w_threads w ≫= taken) ++ msgQueue_ (w_sched w)) (handles (w_threads w)).

Lemma thread_step_order arrived log s l1 p l2 o : world_inv arrived (mkWorld s (l1 ++ p :: l2)) ->
  Forall msg_ok arrived -> ordered arrived -> outcome_ok o -> plain p = true ->
  world_order arrived log (mkWorld s (l1 ++ p :: l2)) ->
  let '(s', p') := thread_step GetPacketId s p o in
  plain p' = true /\
  world_order arrived (log ++ match p with PHandle m true => [sequenceId_ m] | _ => [] end)
    (mkWorld s' (l1 ++ p' :: l2)).
Proof.
  unfold world_order. cbn [w_sched w_threads]. intros Hw Hok Hord Ho Hp Hinv.
  pose proof Ho as (_ & _ & _ & Hv). apply Z.ltb_ge in Hv. pose proof (wi_base _ _ Hw) as Hb.
  rewrite handles_middle, taken_middle in Hinv. pose proof (alone arrived s l1 p l2 Hw) as Hnone.
  destruct (stop_timer_is s) as [sid Hstop]. destruct (start_timer_is s (oc_timer o)) as [tid Hstart].
  destruct p as [| | | | q | | | | | m need | m | m | id | id | id | | | |]; cbn [plain worker taken] in *; try discriminate;
    try (destruct (Hnone eq_refl) as [[E1 E2] [E3 E4]]; rewrite E1, E2, E3, E4 in Hinv; cbn [app] in Hinv);
    cbn [thread_step]; rewrite ?Hstop, ?Hstart, ?app_nil_r in *;
    try (split; [done |]; rewrite handles_middle, taken_middle; cbn [taken]; rewrite ?E1, ?E2, ?E3, ?E4; cbn [app];
         by apply (order_same _ _ s)).
  - unfold old_version. rewrite Hv.
    destruct (isWorking_ s); (split; [done |]); rewrite handles_middle, taken_middle; [done |]. by apply (order_same _ _ s).
  - split; [done |]. rewrite handles_middle, taken_middle, E1, E2, E3, E4. cbn [taken app set_queue msgQueue_].
    rewrite !app_nil_r. by apply (order_same _ _ s).
  - split; [done |]. rewrite handles_middle, taken_middle, E1, E2, E3, E4. cbn [taken app].
    destruct (update_inner GetPacketId q s (bi_map _ _ Hb)) as (_ & _ & -> & _).
    apply update_inner_order; [apply (bi_map _ _ Hb) | | done].
    rewrite Forall_forall in Hok |- *. intros m Hin. by apply Hok, (in_held _ _ _ _ _ _ Hb).
  - pose proof (get_order arrived log s l1 l2 Hb Hok Hord Hinv) as Hg.
    destruct (GetMsgFromMap GetPacketId s) as [[[m|] need] s']; (split; [done |]);
      rewrite handles_middle, taken_middle, E1, E2, E3, E4; done.
  - unfold IsNeedReloadQueue. destruct (isNeedReload_ s); (split; [done |]); by rewrite handles_middle, taken_middle.
  - assert (Hm : m ∈ arrived) by (apply (in_held _ _ _ _ _ _ Hb); left).
    pose proof (handle_order arrived log s m need o Hm Hok Ho Hinv) as Hh.
    destruct (handle_msg GetPacketId s m need o) as [s' p']. destruct Hh as [-> Hh]. split; [done |].
    rewrite handles_middle, taken_middle, E1, E2, E3, E4. by destruct need.
Qed.

Record run_inv (arrived : list Msg) (log : list Z) w : Prop := {
  ri_world : world_inv arrived w;
  ri_order : world_order arrived log w;
  ri_plain : Forall (fun p => plain p = true) (w_threads w)
}.

Lemma event_modern e : event_ok e -> modern e.
Proof. destruct e; try done. cbn. intros (_ & _ & _ & Hv). by apply Z.ltb_ge. Qed.

Lemma arrive_order arrived log s ts m : world_order arrived log (mkWorld s ts) ->
  world_order (arrived ++ [m]) log (mkWorld (PutMsg s (Some m)) (ts ++ [PStart])).
Proof.
  unfold world_order, handles. cbn [w_sched w_threads PutMsg set_queue msgQueue_].
  rewrite !bind_app, !bind_cons, !app_nil_r. fold (handles ts). rewrite app_assoc.
  intros [[F1 F2 F3 F4 F5 F6] | [A1 A2 A3 A4 A5 A6 A7]]; [left | right]; split; try done.
  - intros m' [? | Hin]%elem_of_app; apply elem_of_app; auto.
  - destruct A5 as [? | (m0 & ? & ?)]; [by left | right; exists m0; split; [by apply elem_of_app; left | done]].
  - intros m' [Hin | Hin]%elem_of_app.
    + destruct (A6 m' Hin) as [? | ?]; [left; by apply elem_of_app; left | by right].
    + left. by apply elem_of_app; right.
Qed.

Lemma run_inv_step arrived log w e : event_ok e -> Forall msg_ok (arrived ++ arrivals [e]) ->
  ordered (arrived ++ arrivals [e]) -> run_inv arrived log w ->
  run_inv (arrived ++ arrivals [e]) (log ++ handled_by w e) (world_step GetPacketId w e).
Proof.
  intros He Hok Hord [Hw Ho Ht]. pose proof (world_step_inv GetPacketId arrived w e (event_modern e He) Hw) as Hw'.
  destruct w as [s ts]. destruct e as [m | id | | i o]; cbn [event_ok] in He; [| done | done |].
  - rewrite app_nil_r. split; [done | by apply arrive_order |].
    cbn [world_step w_threads]. apply Forall_app. split; [done | by repeat constructor].
  - cbn [arrivals omap list_omap] in *. rewrite app_nil_r in *.
    cbn [world_step handled_by w_sched w_threads] in *. destruct (ts !! i) as [p|] eqn:E.
    2: { rewrite app_nil_r. by split. }
    destruct (thread_split ts i p E) as (l1 & l2 & -> & Hins).
    rewrite Forall_middle in Ht. destruct Ht as [Htp Ht].
    pose proof (thread_step_order arrived log s l1 p l2 o Hw Hok Hord He Htp Ho) as Hst.
    destruct (thread_step GetPacketId s p o) as [s' p']. destruct Hst as [Hp' Hst]. rewrite Hins in *.
    split; [done | |].
    + by destruct p as [| | | | | | | | | m [] | | | | | | | | |].
    + cbn [w_threads]. by apply Forall_middle.
Qed.

Lemma run_inv_run es : forall arrived log w, Forall event_ok es -> Forall msg_ok (arrived ++ arrivals es) ->
  ordered (arrived ++ arrivals es) -> run_inv arrived log w ->
  run_inv (arrived ++ arrivals es) (log ++ handled w es) (world_run GetPacketId w es).
Proof.
  induction es as [|e es IH]; intros arrived log w Hev Hok Hord Hinv; [by rewrite !app_nil_r |].
  apply Forall_cons in Hev as [He Hev].
  rewrite arrivals_cons, app_assoc in *. cbn [handled]. rewrite app_assoc. apply IH; [done | done | done |].
  apply run_inv_step; [done | | | done].
  - by apply Forall_app in Hok as [? _].
  - intros m1 m2 H1 H2. apply Hord; apply elem_of_app; by left.
Qed.

(** When all threads have returned, whatever arrived has been handled or comes after a gap. *)
Lemma done_order arrived log w : run_inv arrived log w -> all_done w ->
  forall m, m ∈ arrived -> log = seqZ 1 (expectedSequenceId_ (w_sched w) - 1)
    /\ sequenceId_ m <> expectedSequenceId_ (w_sched w).
Proof.
  intros [Hw Ho _] Hd m Hm. destruct (done_quiet _ _ Hw Hd) as (Hq & Hdue & Hk). unfold world_order in Ho.
  assert (Hts : handles (w_threads w) = [] /\ w_threads w ≫= taken = []).
  { apply no_worker. rewrite (wi_workers _ _ Hw), Hk. done. }
  destruct Hts as [Hhs Hta]. rewrite Hq, Hhs, Hta in Ho. cbn [app] in Ho.
  destruct Ho as [[F1 F2 F3 F4 F5 F6] | [A1 A2 A3 A4 A5 A6 A7]]; [by apply F6, elem_of_nil in Hm |].
  split; [done |]. intros Hseq.
  destruct (A6 m Hm) as [Hin%elem_of_nil | [? | [Hin | (m' & Hin%elem_of_nil & _)]]]; [done | lia | | done].
  rewrite Hseq in Hin. apply list_elem_of_fmap in Hin as ([k m'] & Hk' & Hin). cbn in Hk'. subst k.
  destruct (bi_map _ _ (wi_base _ _ Hw)) as [Hs _]. unfold map_due, due in Hdue.
  destruct (messageMap_ (w_sched w)) as [|[k0 m0] mm]; [by apply elem_of_nil in Hin |].
  cbn in Hs. apply StronglySorted_inv in Hs as [_ Hlt]. rewrite Forall_forall in Hlt.
  apply elem_of_cons in Hin as [[= Hk0 _] | Hin]; [lia |].
  assert (k0 < expectedSequenceId_ (w_sched w)); [| lia]. apply Hlt, list_elem_of_fmap.
  by exists (expectedSequenceId_ (w_sched w), m').
Qed.

(** C24: The data messages of a session are handled one after the other in the order of
    their sequence numbers [1, 2, 3, ...], each exactly once, in whatever order, however
    often and by however many threads they are received; and once all threads have returned
    and the messages up to [n] have arrived, all of these have been handled. This is for one
    session and a peer whose version is known to be 3.0 or later; handling neither times out
    nor asks to start over, the idle timer does not fire and the messages are not cleared;
    packet ids do not shrink as the sequence numbers grow. *)
Theorem session_in_order (es : list Event) :
  Forall event_ok es -> ordered (arrivals es) ->
  exists k, handled newWorld es = seqZ 1 k
    /\ (all_done (world_run GetPacketId newWorld es) ->
        forall n, (forall i, 1 <= i <= n -> exists m, m ∈ arrivals es /\ sequenceId_ m = i) -> n <= k).
Proof.
  intros Hev Hord.
  assert (Hok : Forall msg_ok (arrivals es)).
  { apply Forall_forall. intros m Hin. apply list_elem_of_omap in Hin as (e & He & Em).
    rewrite Forall_forall in Hev. specialize (Hev e He). destruct e; [| done..]. by injection Em as ->. }
  assert (Hinv : run_inv [] [] newWorld).
  { split; [apply new_world_inv | | constructor]. left. split; try done. }
  pose proof (run_inv_run es [] [] newWorld Hev Hok Hord Hinv) as Hri. cbn [app] in *.
  set (w := world_run GetPacketId newWorld es) in *.
  assert (Hk : exists k, handled newWorld es = seqZ 1 k /\ (arrivals es = [] \/ k = expectedSequenceId_ (w_sched w) - 1
            \/ ~ all_done w) /\ 0 <= k).
  { destruct (ri_order _ _ _ Hri) as [[F1 F2 F3 F4 F5 F6] | [A1 A2 A3 A4 A5 A6 A7]].
    - exists 0. split_and!; [done | | lia]. destruct (arrivals es) as [|m ms]; [by left |]. right. right. intros Hd.
      destruct (done_order _ _ _ Hri Hd m ltac:(left)) as [_ _].
      destruct (done_quiet _ _ (ri_world _ _ _ Hri) Hd) as (Hq & _ & Hk).
      destruct (no_worker (w_threads w)) as [_ Hta]; [by rewrite (wi_workers _ _ (ri_world _ _ _ Hri)), Hk |].
      specialize (F6 m ltac:(left)). rewrite Hq, Hta in F6. by apply elem_of_nil in F6.
    - exists (expectedSequenceId_ (w_sched w) - 1). split_and!; [done | by right; left | lia]. }
  destruct Hk as (k & Hk & Hcase & Hpos). exists k. split; [done |]. intros Hd n Hn.
  destruct (Z.le_gt_cases n k) as [? | Hgt]; [done |]. exfalso.
  destruct (Hn (k + 1) ltac:(lia)) as (m & Hm & Hseq). destruct (done_order _ _ _ Hri Hd m Hm) as [_ Hne].
  destruct Hcase as [E | [E | ?]]; [rewrite E in Hm; by apply elem_of_nil in Hm | lia | done].
Qed.

End Order.

(** Messages 2 and 1 of session 7 arrive in this order, then 2 once more; the threads run to
    the end one after the other. *)
Definition sample_message (sequenceId packetId : Z) : Message Z :=
  SetSequenceId (SetSessionId (set_object emptyMessage packetId) 7) sequenceId.

Definition sample_events : list (Event (DataRequestPacket := Z)) :=
  let run := fun i => replicate 40 (EThread i (mkOutcome (E_OK, 1) E_OK false SOFTWARE_VERSION_RELEASE_6_0)) in
  [EArrive (sample_message 2 20)] ++ run 0%nat ++ [EArrive (sample_message 1 10)] ++ run 1%nat
  ++ [EArrive (sample_message 2 20)] ++ run 2%nat.

Lemma session_in_order_witness :
  exists k, handled id newWorld sample_events = seqZ 1 k
    /\ (all_done (world_run id newWorld sample_events) ->
        forall n, (forall i, 1 <= i <= n -> exists m, m ∈ arrivals sample_events /\ sequenceId_ m = i) -> n <= k).
Proof.
  apply (session_in_order id 7); [done | |].
  - repeat (constructor; [repeat split; vm_compute; done || (by eexists) |]). constructor.
  - intros m1 m2. cbn. rewrite !elem_of_cons, !elem_of_nil. intros [->|[->|[->|[]]]] [->|[->|[->|[]]]]; done.
Defined.

(** In this run both messages are handled. *)
Example sample_handled : handled id newWorld sample_events = [1; 2]
  /\ all_done (world_run id newWorld sample_events).
Proof. split; [done |]. vm_compute. by repeat constructor. Qed.
