(* ===== verification/CommitNotify.v ===== *)
(** Model of [SingleVerNaturalStoreCommitNotifyData]
    (storage/src/single_ver_natural_store_commit_notify_data.cpp): what a transaction tells
    the observers and the conflict notifiers; and of [DataItem] (common/include/db_types.h). *)

From S2P Require Import Prelude CommTypes SyncStorage.
From Stdlib Require Import ZArith Lia.
From Stdlib Require Import Strings.Byte.
From stdpp Require Import base numbers list gmap.

Open Scope Z_scope.

(** A cryptographic digest of another library, which may fail. *)
Class ValueHash := { value_hash : list byte -> option (list byte) }.

(** The status and the digest. *)
Definition CalcValueHash `{ValueHash} (v : list byte) : Z * list byte :=
  match value_hash v with
  | Some h => (E_OK, h)
  | None => (- E_INTERNAL_ERROR, [])
  end.

Abbreviation Entry := (Key * Value)%type.

(** * Data items *)

Record DataItem := mkDataItem {
  key : Key;
  value : Value;
  timestamp : Z;
  flag : Z;
  origDev : list byte;
  writeTimestamp : Z;
  dev : list byte;
  neglect : bool;
  hashKey : Key
}.

Definition newDataItem : DataItem := mkDataItem [] [] 0 0 [] 0 [] false [].

Definition DELETE_FLAG : Z := 1.
Definition LOCAL_FLAG : Z := 2.
Definition REMOTE_DEVICE_DATA_MISS_QUERY : Z := 16.

Definition has_flag (f mask : Z) : bool := negb (Z.land f mask =? 0).

Definition set_key (i : DataItem) (k : Key) : DataItem :=
  mkDataItem k (value i) (timestamp i) (flag i) (origDev i) (writeTimestamp i) (dev i) (neglect i) (hashKey i).

Definition set_value (i : DataItem) (v : Value) : DataItem :=
  mkDataItem (key i) v (timestamp i) (flag i) (origDev i) (writeTimestamp i) (dev i) (neglect i) (hashKey i).

Definition set_flag (i : DataItem) (f : Z) : DataItem :=
  mkDataItem (key i) (value i) (timestamp i) f (origDev i) (writeTimestamp i) (dev i) (neglect i) (hashKey i).

Definition set_stamps (i : DataItem) (t w : Z) : DataItem :=
  mkDataItem (key i) (value i) t (flag i) (origDev i) w (dev i) (neglect i) (hashKey i).

Definition set_neglect (i : DataItem) (b : bool) : DataItem :=
  mkDataItem (key i) (value i) (timestamp i) (flag i) (origDev i) (writeTimestamp i) (dev i) b (hashKey i).

(** * What a transaction has changed *)

Inductive DataType := NONE | INSERT | UPDATE | DELETE.
Inductive ExistStatus := EXIST_NONE | EXIST_DELETED | EXIST.

#[export] Instance data_type_eq : EqDecision DataType.
Proof. solve_decision. Defined.
#[export] Instance exist_status_eq : EqDecision ExistStatus.
Proof. solve_decision. Defined.

Record DataItemInfo := mkDataItemInfo {
  dataItem : DataItem;
  isLocal : bool;
  deviceName : list byte
}.

Record ConflictData := mkConflictData {
  cd_value : Value;
  cd_isDeleted : bool;
  cd_isLocal : bool
}.

Record KvDBConflictEntry := mkKvDBConflictEntry {
  ce_type : Z;
  ce_key : Key;
  ce_oldData : ConflictData;
  ce_newData : ConflictData
}.

Record ItemProp := mkItemProp {
  existStatus : ExistStatus;
  latestType : DataType
}.

Record CommitNotifyData := mkCommitNotifyData {
  insertedEntries_ : list Entry;
  updatedEntries_ : list Entry;
  deletedEntries_ : list Entry;
  conflictedEntries_ : list KvDBConflictEntry;
  keyFilter_ : Key;
  keyPropRecord_ : gmap Key ItemProp;
  orgDataItem_ : gmap Key DataItemInfo;
  conflictedFlag_ : Z
}.

Implicit Types c : CommitNotifyData.

Definition newCommitNotifyData : CommitNotifyData := mkCommitNotifyData [] [] [] [] [] ∅ ∅ 0.

Definition set_entries c (ins upd del : list Entry) : CommitNotifyData :=
  mkCommitNotifyData ins upd del (conflictedEntries_ c) (keyFilter_ c) (keyPropRecord_ c) (orgDataItem_ c)
    (conflictedFlag_ c).

Definition set_conflicted c (l : list KvDBConflictEntry) : CommitNotifyData :=
  mkCommitNotifyData (insertedEntries_ c) (updatedEntries_ c) (deletedEntries_ c) l (keyFilter_ c)
    (keyPropRecord_ c) (orgDataItem_ c) (conflictedFlag_ c).

Definition set_props c (p : gmap Key ItemProp) : CommitNotifyData :=
  mkCommitNotifyData (insertedEntries_ c) (updatedEntries_ c) (deletedEntries_ c) (conflictedEntries_ c)
    (keyFilter_ c) p (orgDataItem_ c) (conflictedFlag_ c).

Definition set_originals c (o : gmap Key DataItemInfo) : CommitNotifyData :=
  mkCommitNotifyData (insertedEntries_ c) (updatedEntries_ c) (deletedEntries_ c) (conflictedEntries_ c)
    (keyFilter_ c) (keyPropRecord_ c) o (conflictedFlag_ c).

Definition SetFilterKey c (k : Key) : CommitNotifyData :=
  mkCommitNotifyData (insertedEntries_ c) (updatedEntries_ c) (deletedEntries_ c) (conflictedEntries_ c)
    k (keyPropRecord_ c) (orgDataItem_ c) (conflictedFlag_ c).

Definition SetConflictedNotifiedFlag c (conflictedFlag : Z) : CommitNotifyData :=
  mkCommitNotifyData (insertedEntries_ c) (updatedEntries_ c) (deletedEntries_ c) (conflictedEntries_ c)
    (keyFilter_ c) (keyPropRecord_ c) (orgDataItem_ c) conflictedFlag.

Definition GetConflictedNotifiedFlag c : Z := conflictedFlag_ c.

Definition FilterEntriesByKey (entries : list Entry) (filterKey : Key) : list Entry :=
  if bool_decide (filterKey = []) then entries else filter (fun e : Entry => e.1 = filterKey) entries.

Definition GetInsertedEntries c : list Entry := FilterEntriesByKey (insertedEntries_ c) (keyFilter_ c).
Definition GetUpdatedEntries c : list Entry := FilterEntriesByKey (updatedEntries_ c) (keyFilter_ c).
Definition GetDeletedEntries c : list Entry := FilterEntriesByKey (deletedEntries_ c) (keyFilter_ c).
Definition GetCommitConflicts c : list KvDBConflictEntry := conflictedEntries_ c.

Definition is_empty {A} (l : list A) : bool := match l with [] => true | _ => false end.

Definition IsChangedDataEmpty c : bool :=
  is_empty (GetInsertedEntries c) && is_empty (GetUpdatedEntries c) && is_empty (GetDeletedEntries c).

Definition IsConflictedDataEmpty c : bool := is_empty (conflictedEntries_ c).

Definition IsKeyPropSet c (k : Key) : bool := bool_decide (is_Some (keyPropRecord_ c !! k)).

Definition InitKeyPropRecord c (k : Key) (status : ExistStatus) : CommitNotifyData :=
  if IsKeyPropSet c k then c else set_props c (<[k := mkItemProp status NONE]> (keyPropRecord_ c)).

Definition InsertEntry c (dataType : DataType) (entry : Entry) : CommitNotifyData :=
  match dataType with
  | INSERT => set_entries c (insertedEntries_ c ++ [entry]) (updatedEntries_ c) (deletedEntries_ c)
  | UPDATE => set_entries c (insertedEntries_ c) (updatedEntries_ c ++ [entry]) (deletedEntries_ c)
  | DELETE => set_entries c (insertedEntries_ c) (updatedEntries_ c) (deletedEntries_ c ++ [entry])
  | NONE => c
  end.

Definition DeleteEntry (k : Key) (entries : list Entry) : list Entry :=
  filter (fun e : Entry => e.1 <> k) entries.

Definition DeleteEntryByKey c (k : Key) (type : DataType) : CommitNotifyData :=
  match type with
  | INSERT => set_entries c (DeleteEntry k (insertedEntries_ c)) (updatedEntries_ c) (deletedEntries_ c)
  | UPDATE => set_entries c (insertedEntries_ c) (DeleteEntry k (updatedEntries_ c)) (deletedEntries_ c)
  | DELETE => set_entries c (insertedEntries_ c) (updatedEntries_ c) (DeleteEntry k (deletedEntries_ c))
  | NONE => c
  end.

(** The operation to report, from what there was before and what is done now. *)
Definition merged_type (status : ExistStatus) (dataType : DataType) : DataType :=
  if bool_decide (status = EXIST) then
    match dataType with INSERT | UPDATE => UPDATE | DELETE => DELETE | NONE => NONE end
  else match dataType with INSERT | UPDATE => INSERT | DELETE | NONE => NONE end.

Section WithHash.
Context `{ValueHash}.

Definition InsertCommittedData c (entry : Entry) (dataType : DataType) (needMerge : bool) : CommitNotifyData :=
  if negb needMerge then InsertEntry c dataType entry
  else
    let hash := snd (CalcValueHash entry.1) in
    match keyPropRecord_ c !! hash with
    | None => c
    | Some prop =>
      let type := merged_type (existStatus prop) dataType in
      let c := DeleteEntryByKey c entry.1 (latestType prop) in
      let c := set_props c (<[hash := mkItemProp (existStatus prop) type]> (keyPropRecord_ c)) in
      InsertEntry c type entry
    end.

(** * Conflicts *)

Definition SINGLE_VER_CONFLICT_FOREIGN_KEY_ONLY : Z := 1.
Definition SINGLE_VER_CONFLICT_FOREIGN_KEY_ORIG : Z := 2.
Definition SINGLE_VER_CONFLICT_NATIVE_ALL : Z := 12.

Definition IsConflictedNotifyMatched c (itemPut itemGet : DataItem) : bool :=
  let dataConflictedType :=
    if has_flag (flag itemPut) LOCAL_FLAG then SINGLE_VER_CONFLICT_NATIVE_ALL
    else if bool_decide (origDev itemPut <> origDev itemGet) then SINGLE_VER_CONFLICT_FOREIGN_KEY_ORIG
    else SINGLE_VER_CONFLICT_FOREIGN_KEY_ONLY in
  has_flag (GetConflictedNotifiedFlag c) dataConflictedType.

Fixpoint DeleteConflictEntry (k : Key) (l : list KvDBConflictEntry) : list KvDBConflictEntry :=
  match l with
  | [] => []
  | e :: l => if bool_decide (ce_key e = k) then l else e :: DeleteConflictEntry k l
  end.

Definition PutIntoConflictData c (orgItemInfo newItemInfo : DataItemInfo) : CommitNotifyData :=
  let org := dataItem orgItemInfo in
  let new := dataItem newItemInfo in
  if bool_decide (value org = value new) && bool_decide (origDev org = origDev new)
     && (flag org =? flag new) && bool_decide (deviceName orgItemInfo = deviceName newItemInfo)
  then c
  else
    let type := if isLocal newItemInfo then SINGLE_VER_CONFLICT_NATIVE_ALL
                else if bool_decide (origDev new <> origDev org) then SINGLE_VER_CONFLICT_FOREIGN_KEY_ORIG
                else SINGLE_VER_CONFLICT_FOREIGN_KEY_ONLY in
    let oldData := mkConflictData (value org) (Z.land (flag org) DELETE_FLAG =? DELETE_FLAG) true in
    let isDeleted := Z.land (flag new) DELETE_FLAG =? DELETE_FLAG in
    let newData := mkConflictData (value new) isDeleted (isLocal newItemInfo) in
    let k := if isDeleted then key org else key new in
    let e := if writeTimestamp new <=? writeTimestamp org
             then mkKvDBConflictEntry type k newData oldData
             else mkKvDBConflictEntry type k oldData newData in
    set_conflicted c (DeleteConflictEntry k (conflictedEntries_ c) ++ [e]).

Definition InsertConflictedItem c (itemInfo : DataItemInfo) (isOriginal : bool) : CommitNotifyData :=
  let k := key (dataItem itemInfo) in
  let hash := snd (CalcValueHash k) in
  match keyPropRecord_ c !! hash with
  | None => c
  | Some prop =>
    if bool_decide (existStatus prop = EXIST_NONE) then c
    else
      match orgDataItem_ c !! k with
      | None => if isOriginal then set_originals c (<[k := itemInfo]> (orgDataItem_ c)) else c
      | Some org => if isOriginal then c else PutIntoConflictData c org itemInfo
      end
  end.

End WithHash.
