(* ===== verification/QuerySync.v ===== *)
(** Model of [QueryObject] and [QuerySyncObject] as the synchronization uses them
    (storage/src/sqlite/query_object.cpp, query_sync_object.cpp): the attributes of a query,
    its identity, and how it is written to and read from a parcel. *)

From S2P Require Import Prelude Memory Parcel CommTypes ProtocolProto SyncStorage CommitNotify.
From Stdlib Require Import ZArith Lia.
From Stdlib Require Import Strings.Byte.
From stdpp Require Import base numbers list.

Open Scope Z_scope.

(** * Queries *)

(** The union of a [FieldValue] is kept as its longest member. *)
Record FieldValue := mkFieldValue {
  longValue : Z;
  stringValue : list byte
}.

Definition newFieldValue : FieldValue := mkFieldValue 0 [].

(** [operFlag] and [type] are enumerations that are also read from the wire, where they can
    be any number. *)
Record QueryObjNode := mkQueryObjNode {
  operFlag : Z;
  fieldName : list byte;
  valueType : Z;
  fieldValue : list FieldValue
}.

Definition OPER_ILLEGAL : Z := 0.
Definition QUERY_BY_KEY_PREFIX : Z := 0x0401.
Definition LIMIT : Z := 0x0701.
Definition ORDERBY : Z := 0x0702.
Definition SUGGEST_INDEX : Z := 0x0801.
Definition IN_KEYS : Z := 0x0901.
Definition VALUE_TYPE_INVALID : Z := -1.

Definition newQueryObjNode : QueryObjNode := mkQueryObjNode OPER_ILLEGAL [] VALUE_TYPE_INVALID [].

Definition SYMBOL_TYPE_MASK : Z := 0xff00.
Definition PREFIXKEY_SYMBOL : Z := 0x0400.
Definition IN_KEYS_SYMBOL : Z := 0x0900.

Definition GetSymbolType (queryObjType : Z) : Z := Z.land queryObjType SYMBOL_TYPE_MASK.

(** The order of [std::set<Key>]: lexicographic on unsigned bytes. *)
Fixpoint key_ltb (a b : Key) : bool :=
  match a, b with
  | _, [] => false
  | [], _ :: _ => true
  | x :: a, y :: b => (b2z x <? b2z y) || ((b2z x =? b2z y) && key_ltb a b)
  end.

(** [std::set::emplace]; the set is the list of its keys in order. *)
Fixpoint emplace (keys : list Key) (k : Key) : list Key :=
  match keys with
  | [] => [k]
  | x :: rest => if key_ltb k x then k :: keys
                 else if key_ltb x k then x :: emplace rest k else keys
  end.

(** The fields of [QueryObject], less the schema, which only the check of a query uses. *)
Record QuerySyncObject := mkQuerySyncObject {
  queryObjNodes_ : list QueryObjNode;
  prefixKey_ : Key;
  tableName_ : list byte;
  suggestIndex_ : list byte;
  keys_ : list Key;
  isValid_ : bool;
  initialized_ : bool;
  isTableNameSpecified_ : bool;
  limit_ : Z;
  offset_ : Z;
  hasOrderBy_ : bool;
  hasLimit_ : bool;
  hasPrefixKey_ : bool;
  hasInKeys_ : bool;
  orderByCounts_ : Z
}.

Definition INVALID_LIMIT : Z := INT32_MAX.
Definition LIMIT_FIELD_VALUE_SIZE : Z := 2.

(** "sync_data". *)
Definition SYNC_DATA_TABLE : list byte := [x73; x79; x6e; x63; x5f; x64; x61; x74; x61].

Definition newQuerySyncObject : QuerySyncObject :=
  mkQuerySyncObject [] [] SYNC_DATA_TABLE [] [] true false false INVALID_LIMIT 0 false false false false 0.

Section Attributes.
Context `{Host}.

(** The first four bytes of the union in memory. *)
Definition integerValue (v : FieldValue) : Z :=
  to_signed 32 (load_int (take 4 (store_int 8 (longValue v)))).

(** One round of the loop of [GetAttrFromQueryObjNodes]. *)
Definition node_attr (q : QuerySyncObject) (iter : QueryObjNode) : QuerySyncObject :=
  let symbolType := GetSymbolType (operFlag iter) in
  let set := fun limit offset orderBy hasLimit prefix inKeys =>
    mkQuerySyncObject (queryObjNodes_ q) (prefixKey_ q) (tableName_ q) (suggestIndex_ q) (keys_ q)
      (isValid_ q) (initialized_ q) (isTableNameSpecified_ q) limit offset orderBy hasLimit prefix inKeys
      (orderByCounts_ q) in
  if operFlag iter =? LIMIT then
    match fieldValue iter with
    | [v0; v1] => set (integerValue v0) (integerValue v1) (hasOrderBy_ q) true (hasPrefixKey_ q) (hasInKeys_ q)
    | _ => set (limit_ q) (offset_ q) (hasOrderBy_ q) true (hasPrefixKey_ q) (hasInKeys_ q)
    end
  else if operFlag iter =? ORDERBY then
    set (limit_ q) (offset_ q) true (hasLimit_ q) (hasPrefixKey_ q) (hasInKeys_ q)
  else if symbolType =? PREFIXKEY_SYMBOL then
    set (limit_ q) (offset_ q) (hasOrderBy_ q) (hasLimit_ q) true (hasInKeys_ q)
  else if symbolType =? IN_KEYS_SYMBOL then
    set (limit_ q) (offset_ q) (hasOrderBy_ q) (hasLimit_ q) (hasPrefixKey_ q) true
  else q.

Definition GetAttrFromQueryObjNodes (q : QuerySyncObject) : QuerySyncObject :=
  fold_left node_attr (queryObjNodes_ q) q.

(** The constructor that takes the parts of a query. *)
Definition QuerySyncObject_of (nodes : list QueryObjNode) (prefixKey : Key) (keys : list Key)
    : QuerySyncObject :=
  GetAttrFromQueryObjNodes
    (mkQuerySyncObject nodes prefixKey SYNC_DATA_TABLE [] keys true false false INVALID_LIMIT 0
       false false false false 0).

End Attributes.

Definition SetTableName (q : QuerySyncObject) (tableName : list byte) : QuerySyncObject :=
  mkQuerySyncObject (queryObjNodes_ q) (prefixKey_ q) tableName (suggestIndex_ q) (keys_ q)
    (isValid_ q) (initialized_ q) true (limit_ q) (offset_ q) (hasOrderBy_ q) (hasLimit_ q)
    (hasPrefixKey_ q) (hasInKeys_ q) (orderByCounts_ q).

Definition GetRelationTableName (q : QuerySyncObject) : list byte :=
  if negb (isTableNameSpecified_ q) then [] else tableName_ q.

Definition QUERY_SYNC_OBJECT_VERSION_0 : Z := 0.
Definition QUERY_SYNC_OBJECT_VERSION_1 : Z := 1.
Definition QUERY_SYNC_OBJECT_VERSION_CURRENT : Z := QUERY_SYNC_OBJECT_VERSION_1.

Definition GetVersion (q : QuerySyncObject) : Z :=
  if isTableNameSpecified_ q || negb (bool_decide (keys_ q = []))
  then QUERY_SYNC_OBJECT_VERSION_1 else QUERY_SYNC_OBJECT_VERSION_0.

(** "remote query". *)
Definition MAGIC : list byte :=
  [x72; x65; x6d; x6f; x74; x65; x20; x71; x75; x65; x72; x79].

Definition MAX_INKEYS_SIZE : Z := 128.

(** * On the wire *)

Section Wire.
Context `{Host}.

Definition IsError : Run bool := fun p => Some (isError_ p, p).

(** [parcel.IsError()] after writes whose statuses are not looked at. *)
Definition unless_error (errCode : Z) (rest : Run Z) : Run Z :=
  failed ← IsError; if failed : bool then mret errCode else rest.

(** The loops that write one thing after the other without looking at the statuses. *)
Fixpoint write_each {A} (write : A -> Run ()) (l : list A) : Run () :=
  match l with
  | [] => mret ()
  | x :: l => _ ← write x; write_each write l
  end.

Definition SerializeDataObjNode (objNode : QueryObjNode) : Run Z :=
  if operFlag objNode =? OPER_ILLEGAL then mret (- E_INVALID_QUERY_FORMAT)
  else
    _ ← WriteUInt32 (operFlag objNode);
    _ ← EightByteAlign;
    _ ← WriteString (fieldName objNode);
    _ ← WriteInt (valueType objNode);
    _ ← WriteUInt32 (u32 (zlen (fieldValue objNode)));
    _ ← write_each (fun value => _ ← WriteString (stringValue value); _ ← WriteInt64 (longValue value); mret ())
          (fieldValue objNode);
    unless_error (- E_INVALID_ARGS) (mret E_OK).

(** The loop of [DeSerializeDataObjNode]: [valueSize] rounds. *)
Fixpoint read_values (valueSize : nat) (values : list FieldValue) : Run (Z * list FieldValue) :=
  match valueSize with
  | O => mret (E_OK, values)
  | S valueSize =>
    '(_, s) ← ReadString [];
    '(_, l) ← ReadInt64 0;
    failed ← IsError;
    if failed : bool then mret (- E_INVALID_ARGS, values)
    else read_values valueSize (values ++ [mkFieldValue l s])
  end.

Definition DeSerializeDataObjNode (objNode : QueryObjNode) : Run (Z * QueryObjNode) :=
  '(_, readOperFlag) ← ReadUInt32 0;
  _ ← EightByteAlign;
  '(_, name) ← ReadString (fieldName objNode);
  '(_, readInt) ← ReadInt (-1);
  '(_, valueSize) ← ReadUInt32 0;
  failed ← IsError;
  if failed : bool then
    mret (- E_INVALID_ARGS, mkQueryObjNode readOperFlag name readInt (fieldValue objNode))
  else
    '(errCode, values) ← read_values (Z.to_nat valueSize) (fieldValue objNode);
    mret (errCode, mkQueryObjNode readOperFlag name readInt values).

(** The loop over the nodes, which stops at the first error. *)
Fixpoint write_nodes (nodes : list QueryObjNode) : Run Z :=
  match nodes with
  | [] => mret E_OK
  | node :: nodes => then_write (SerializeDataObjNode node) (write_nodes nodes)
  end.

(** [GetObjContext] and what is written of the context and of the object. *)
Definition q_SerializeData (q : QuerySyncObject) (softWareVersion : Z) : Run Z :=
  if negb (isValid_ q) then mret (- E_INVALID_QUERY_FORMAT)
  else
    _ ← WriteString MAGIC;
    _ ← WriteUInt32 (GetVersion q);
    _ ← WriteVectorChar (prefixKey_ q);
    _ ← WriteString (suggestIndex_ q);
    _ ← WriteUInt32 (u32 (zlen (queryObjNodes_ q)));
    _ ← EightByteAlign;
    then_write (write_nodes (queryObjNodes_ q)) $
    _ ← (if QUERY_SYNC_OBJECT_VERSION_1 <=? GetVersion q then
           _ ← WriteUInt32 (if isTableNameSpecified_ q then 1 else 0);
           _ ← (if isTableNameSpecified_ q then WriteString (tableName_ q) else mret E_OK);
           _ ← WriteUInt32 (u32 (zlen (keys_ q)));
           write_each (fun key => _ ← WriteVectorChar key; mret ()) (keys_ q)
         else mret ());
    unless_error (- E_INVALID_ARGS) (_ ← EightByteAlign; mret E_OK).

Fixpoint read_nodes (nodesSize : nat) (nodes : list QueryObjNode) : Run (Z * list QueryObjNode) :=
  match nodesSize with
  | O => mret (E_OK, nodes)
  | S nodesSize =>
    '(errCode, node) ← DeSerializeDataObjNode newQueryObjNode;
    if negb (errCode =? E_OK) then mret (errCode, nodes)
    else read_nodes nodesSize (nodes ++ [node])
  end.

Fixpoint read_keys (keysSize : nat) (keys : list Key) : Run (list Key) :=
  match keysSize with
  | O => mret keys
  | S keysSize => '(_, key) ← ReadVectorChar []; read_keys keysSize (emplace keys key)
  end.

Definition DeSerializeVersion1Data (version : Z) (tableName : list byte) (keys : list Key)
    : Run (Z * list byte * list Key) :=
  if QUERY_SYNC_OBJECT_VERSION_1 <=? version then
    '(_, isTblNameExist) ← ReadUInt32 0;
    tableName ← (if negb (isTblNameExist =? 0) then '(_, name) ← ReadString tableName; mret name
                 else mret tableName);
    '(_, keysSize) ← ReadUInt32 0;
    if MAX_INKEYS_SIZE <? keysSize then mret (- E_PARSE_FAIL, tableName, keys)
    else keys ← read_keys (Z.to_nat keysSize) keys; mret (E_OK, tableName, keys)
  else mret (E_OK, tableName, keys).

(** The status, and the query, which is only assigned on success. *)
Definition q_DeSerializeData (queryObj : QuerySyncObject) : Run (Z * QuerySyncObject) :=
  '(_, magic) ← ReadString [];
  if negb (bool_decide (magic = MAGIC)) then mret (- E_INVALID_ARGS, queryObj)
  else
    '(_, version) ← ReadUInt32 QUERY_SYNC_OBJECT_VERSION_0;
    if QUERY_SYNC_OBJECT_VERSION_CURRENT <? version then mret (- E_VERSION_NOT_SUPPORT, queryObj)
    else
      '(_, prefixKey) ← ReadVectorChar [];
      '(_, suggestIndex) ← ReadString [];
      '(_, nodesSize) ← ReadUInt32 0;
      failed ← IsError;
      if failed : bool then mret (- E_INVALID_ARGS, queryObj)
      else
        _ ← EightByteAlign;
        '(errCode, nodes) ← read_nodes (Z.to_nat nodesSize) [];
        if negb (errCode =? E_OK) then mret (errCode, queryObj)
        else
          '(errCode, tableName, keys) ← DeSerializeVersion1Data version [] [];
          if negb (errCode =? E_OK) then mret (errCode, queryObj)
          else
            failed ← IsError;
            if failed : bool then mret (- E_INVALID_ARGS, queryObj)
            else
              let queryObj := QuerySyncObject_of nodes prefixKey keys in
              mret (E_OK, if negb (bool_decide (tableName = [])) then SetTableName queryObj tableName
                          else queryObj).

(** * The identity of a query *)

Definition not_identified (node : QueryObjNode) : bool :=
  (operFlag node =? LIMIT) || (operFlag node =? ORDERBY) || (operFlag node =? SUGGEST_INDEX).

(** What [GetIdentify] adds up for the values and for the nodes. *)
Definition identify_values_len (len : Z) (values : list FieldValue) : Z :=
  fold_left (fun len value => u64 (len + GetStringLen (stringValue value) + GetInt64Len)) values len.

Definition identify_node_len (len : Z) (node : QueryObjNode) : Z :=
  if not_identified node then len
  else identify_values_len (u64 (len + GetUInt32Len + GetIntLen + GetStringLen (fieldName node)))
         (fieldValue node).

Definition identify_node (node : QueryObjNode) : Run () :=
  if not_identified node then mret ()
  else
    _ ← WriteUInt32 (operFlag node);
    _ ← WriteInt (valueType node);
    _ ← WriteString (fieldName node);
    write_each (fun value => _ ← WriteInt64 (longValue value); _ ← WriteString (stringValue value); mret ())
      (fieldValue node).

(** [CAP_HEX_CHAR_MAP]: '0' to '9' and 'A' to 'F'. *)
Definition CAP_HEX_CHAR_MAP : list byte :=
  [x30; x31; x32; x33; x34; x35; x36; x37; x38; x39; x41; x42; x43; x44; x45; x46].

(** [DBCommon::VectorToHexString] with its default separator, the empty string. *)
Definition VectorToHexString (inVec : list byte) : list byte :=
  concat ((fun entry => [default x00 (CAP_HEX_CHAR_MAP !! Z.to_nat (Z.shiftr (b2z entry) 4));
                         default x00 (CAP_HEX_CHAR_MAP !! Z.to_nat (Z.land (b2z entry) 15))]) <$> inVec).

Definition GetIdentify `{ValueHash} (q : QuerySyncObject) : option (list byte) :=
  if negb (isValid_ q) then Some []
  else
    let len := fold_left identify_node_len (queryObjNodes_ q) (GetVectorCharLen (prefixKey_ q)) in
    let len := u64 (len + (if isTableNameSpecified_ q then GetStringLen (tableName_ q) else 0)) in
    let len := fold_left (fun len key => u64 (len + GetVectorCharLen key)) (keys_ q) len in
    '(_, p) ← (_ ← WriteVectorChar (prefixKey_ q);
               _ ← write_each identify_node (queryObjNodes_ q);
               _ ← (if isTableNameSpecified_ q then WriteString (tableName_ q) else mret E_OK);
               write_each (fun key => _ ← WriteVectorChar key; mret ()) (keys_ q))
              (newParcel (Some (replicate (Z.to_nat len) x00)) (u32 len));
    if isError_ p then Some []
    else match CalcValueHash (default [] (buf_ p)) with
         | (errCode, hashBuff) => if negb (errCode =? E_OK) then Some [] else Some (VectorToHexString hashBuff)
         end.

End Wire.

(** * The computed length *)

(** One node; [None] for the early [return 0]. *)
Definition node_len (len : Z) (node : QueryObjNode) : option Z :=
  if operFlag node =? OPER_ILLEGAL then None
  else
    let len := GetEightByteAlign (u32 (u64 (len + GetUInt32Len))) in
    let len := u64 (len + GetStringLen (fieldName node) + GetIntLen + GetUInt32Len) in
    Some (fold_left (fun len value => u64 (len + GetInt64Len + GetStringLen (stringValue value)))
            (fieldValue node) len).

Fixpoint nodes_len (len : Z) (nodes : list QueryObjNode) : option Z :=
  match nodes with
  | [] => Some len
  | node :: nodes => len ← node_len len node; nodes_len len nodes
  end.

Definition q_CalculateLen (q : QuerySyncObject) : Z :=
  let len := u64 (GetStringLen MAGIC + GetUInt32Len + GetVectorCharLen (prefixKey_ q)
                  + GetStringLen (suggestIndex_ q) + GetUInt32Len) in
  match nodes_len (GetEightByteAlign (u32 len)) (queryObjNodes_ q) with
  | None => 0
  | Some len =>
    let len := u64 (len + GetUInt32Len) in
    let len := if isTableNameSpecified_ q then u64 (len + GetStringLen (tableName_ q)) else len in
    let len := u64 (len + GetUInt32Len) in
    let len := fold_left (fun len key => u64 (len + GetVectorCharLen key)) (keys_ q) len in
    let len := GetEightByteAlign (u32 len) in
    if INT32_MAX <? len then 0 else u32 len
  end.

Definition CalculateParcelLen (q : QuerySyncObject) (softWareVersion : Z) : Z :=
  if softWareVersion =? SOFTWARE_VERSION_CURRENT then q_CalculateLen q else 0.
