(* ===== verification/ParcelRuns.v ===== *)
(** A small program logic for code that fills and reads a parcel: [writes r items a] says
    that [r] puts the values [items] where they fit and returns [a]; [reads r items a] that
    it finds them there and returns what [a] makes of the number of bytes used. *)

From S2P Require Import Prelude Memory Parcel ParcelFacts QuerySync.
From Stdlib Require Import ZArith Lia.
From Stdlib Require Import Strings.Byte.
From stdpp Require Import base numbers list.

Open Scope Z_scope.

(** Sums that do not leave their type. *)
Ltac no_wrap :=
  repeat match goal with |- context [wrap ?w ?x] => rewrite (wrap_small w x) by lia end.

Lemma to_signed_small x : 0 <= x < 2 ^ 31 -> to_signed 32 x = x.
Proof.
  intros Hx. unfold to_signed. rewrite Z.mod_small by lia. change (32 - 1) with 31.
  by rewrite (proj2 (Z.ltb_lt _ _)) by lia.
Qed.

Create HintDb parcel.
Create Rewrite HintDb parcel_size.

(** * Layouts *)

Lemma new_cursor_of m n : zlen m = n -> 0 < n -> newParcel (Some m) n = cursor m 0.
Proof. intros <-. apply new_cursor. Qed.

Lemma laid_out_app total l2 m : forall l1 off,
  laid_out total off (l1 ++ l2) m <-> laid_out total off l1 m /\ laid_out total (end_of total off l1) l2 m.
Proof.
  induction l1 as [|i l1 IH]; intros off; [cbn; tauto |]. cbn [app laid_out end_of]. rewrite IH. tauto.
Qed.

Lemma end_of_reach total l : Forall item_ok l -> forall off,
  reach total off -> all_fit total off l -> reach total (end_of total off l) /\ off <= end_of total off l.
Proof.
  induction 1 as [|i l Hi Hl IH]; intros off Hr Hf; cbn [end_of]; [split; [done | lia] |].
  destruct Hf as [Hf Hfs]. destruct (adv_reach total off i Hr Hf Hi) as [Ha Hr'].
  destruct (IH _ Hr' Hfs). split; [done | lia].
Qed.

Lemma laid_out_fits total m l : forall off, laid_out total off l m -> all_fit total off l.
Proof. induction l as [|i l IH]; intros off; [done |]. intros (Hf & _ & Hl). split; auto. Qed.

(** Values stay where they are when only bytes behind them change. *)
Lemma laid_out_keep m m' l : Forall item_ok l -> forall off,
  reach (zlen m) off -> laid_out (zlen m) off l m ->
  (forall o n, 0 <= o -> o + n <= end_of (zlen m) off l -> slice o n m' = slice o n m) ->
  laid_out (zlen m) off l m'.
Proof.
  induction 1 as [|i l Hi Hl IH]; intros off Hr Hlay Hk; [done |].
  destruct Hlay as (Hf & Hs & Hlay). cbn [end_of] in Hk.
  destruct (adv_reach (zlen m) off i Hr Hf Hi) as [Ha Hr'].
  destruct (end_of_reach (zlen m) l Hl _ Hr' (laid_out_fits _ _ _ _ Hlay)) as [_ He].
  destruct (enc_bounds m off i Hr Hf Hi) as (_ & _ & _ & Hadv).
  cbn [laid_out]. split; [done |]. split; [| auto].
  rewrite Hk by (unfold reach in *; lia). done.
Qed.

(** Values other than blobs take the same place in every buffer, and fit if they end
    inside it. *)
Definition no_blob (i : Item) : Prop := match i with IBlob _ => False | _ => True end.

Lemma adv_nonneg total off i : no_blob i -> 0 <= adv total off i.
Proof.
  intros Hi. pose proof (zlen_nonneg (enc i)). pose proof (align8_bounds (zlen (enc i))).
  pose proof (align8_bounds off). destruct i; cbn [adv no_blob] in *; (done || lia).
Qed.

Lemma end_of_mono total l : Forall no_blob l -> forall off, off <= end_of total off l.
Proof.
  induction 1 as [|i l Hi Hl IH]; intros off; cbn [end_of]; [lia |].
  pose proof (adv_nonneg total off i Hi). specialize (IH (off + adv total off i)). lia.
Qed.

Lemma end_of_total t t' l : Forall no_blob l -> forall off, end_of t off l = end_of t' off l.
Proof.
  induction 1 as [|i l Hi Hl IH]; intros off; [done |]. cbn [end_of]. rewrite IH. f_equal.
  destruct i; done.
Qed.

Lemma all_fit_end total l : Forall no_blob l -> forall off, end_of total off l <= total -> all_fit total off l.
Proof.
  induction 1 as [|i l Hi Hl IH]; intros off He; [done |]. cbn [end_of] in He.
  pose proof (end_of_mono total l Hl (off + adv total off i)).
  split; [| auto]. destruct i; cbn [fits adv no_blob] in *; (done || lia).
Qed.

Lemma concat_singletons {A B} (f : A -> B) l : concat ((fun x => [f x]) <$> l) = f <$> l.
Proof. induction l as [|x l IH]; [done |]. cbn [fmap list_fmap concat app]. by f_equal. Qed.

(** * Writers *)

Section Runs.
Context `{Host}.

Definition writes {A} (r : Run A) (items : list Item) (a : A) : Prop :=
  Forall item_ok items /\
  forall m off, zlen m <= INT32_MAX -> reach (zlen m) off -> all_fit (zlen m) off items ->
  exists m', r (cursor m off) = Some (a, cursor m' (end_of (zlen m) off items)) /\ zlen m' = zlen m
    /\ laid_out (zlen m) off items m'
    /\ forall o n, 0 <= o -> o + n <= off -> slice o n m' = slice o n m.

Lemma writes_ret {A} (a : A) : writes (mret a) [] a.
Proof. split; [constructor |]. intros m off Hm Hr _. exists m. done. Qed.

Lemma writes_bind {A B} (r : Run A) (k : A -> Run B) l1 l2 a b :
  writes r l1 a -> writes (k a) l2 b -> writes (r ≫= k) (l1 ++ l2) b.
Proof.
  intros [Hok1 W1] [Hok2 W2]. split; [by apply Forall_app |]. intros m off Hm Hr Hf.
  apply all_fit_app in Hf as [Hf1 Hf2].
  destruct (W1 m off Hm Hr Hf1) as (m1 & E1 & Hz1 & Hl1 & Hk1).
  destruct (end_of_reach _ _ Hok1 off Hr Hf1) as [Hr1 He1].
  destruct (W2 m1 (end_of (zlen m) off l1)) as (m2 & E2 & Hz2 & Hl2 & Hk2); rewrite ?Hz1; try done.
  rewrite Hz1 in *. exists m2. rewrite end_of_app, laid_out_app.
  split; [by rewrite (run_bind_eq _ _ _ _ _ E1) |]. split; [done |]. split; [split; [| done] |].
  - rewrite <- Hz1. apply (laid_out_keep m1); rewrite ?Hz1; try done.
  - intros o n Ho Hn. rewrite Hk2 by lia. by apply Hk1.
Qed.

Lemma writes_item i : item_ok i -> writes (write_item i) [i] E_OK.
Proof.
  intros Hi. split; [by constructor |]. intros m off Hm Hr [Hf _].
  assert (Ho : 0 <= off <= 2 ^ 32).
  { pose proof (align8_bounds (zlen m)). unfold reach, INT32_MAX in *. lia. }
  destruct (write_item_spec m off Hm Ho i Hi) as [[_ W] | [Hn _]]; [| done].
  destruct (enc_bounds m off i Hr Hf Hi) as (Hl & Hs & Hpre & _).
  exists (splice off (enc i) m). split; [exact W |]. split; [done |].
  split; [cbn [laid_out]; by rewrite Hs | done].
Qed.

Lemma writes_align : writes EightByteAlign [IAlign] ().
Proof.
  split; [repeat constructor |]. intros m off Hm Hr _. exists m.
  pose proof (align8_bounds (zlen m)). unfold reach, INT32_MAX in *.
  split; [| done].
  unfold EightByteAlign. cbn [isError_ buf_ bufPtr_ parcelLen_ totalLen_ cursor end_of adv].
  rewrite byte8_align_align8 by lia. unfold cursor. by rewrite Zplus_minus.
Qed.

Lemma writes_then r k l1 l2 b : writes r l1 E_OK -> writes k l2 b -> writes (then_write r k) (l1 ++ l2) b.
Proof. intros W1 W2. unfold then_write. by eapply writes_bind. Qed.

Lemma writes_step {B} i (k : Z -> Run B) l b :
  item_ok i -> writes (k E_OK) l b -> writes (write_item i ≫= k) (i :: l) b.
Proof. intros Hi W. apply (writes_bind _ _ [i] l E_OK); [by apply writes_item | done]. Qed.

Lemma writes_align_step {B} (k : () -> Run B) l b : writes (k ()) l b -> writes (EightByteAlign ≫= k) (IAlign :: l) b.
Proof. intros W. apply (writes_bind _ _ [IAlign] l ()); [apply writes_align | done]. Qed.

Lemma writes_nil_step {A B} (a : A) (k : A -> Run B) l b : writes (k a) l b -> writes (mret a ≫= k) l b.
Proof. intros W. apply (writes_bind _ _ [] l a); [apply writes_ret | done]. Qed.

Lemma writes_IsError : writes IsError [] false.
Proof. split; [constructor |]. intros m off Hm Hr _. exists m. done. Qed.

Lemma writes_unless e k l b : writes k l b -> writes (unless_error e k) l b.
Proof. intros W. change l with ([] ++ l). eapply writes_bind; [apply writes_IsError | exact W]. Qed.

Lemma writes_each {A} (w : A -> Run ()) (f : A -> list Item) l :
  Forall (fun x => writes (w x) (f x) ()) l -> writes (write_each w l) (concat (f <$> l)) ().
Proof.
  induction 1 as [|x l Hx Hl IH]; cbn [write_each fmap list_fmap concat]; [apply writes_ret |].
  by eapply writes_bind.
Qed.

(** * Readers *)

Definition reads {A} (r : Run A) (items : list Item) (a : Z -> A) : Prop :=
  Forall item_ok items /\
  forall m off, zlen m <= INT32_MAX -> reach (zlen m) off -> laid_out (zlen m) off items m ->
  r (cursor m off) = Some (a (end_of (zlen m) off items - off), cursor m (end_of (zlen m) off items)).

Lemma reads_ret {A} (a : A) b : b 0 = a -> reads (mret a) [] b.
Proof. intros <-. split; [constructor |]. intros m off _ _ _. cbn [end_of]. by rewrite Z.sub_diag. Qed.

Lemma reads_bind {A B} (r : Run A) (k : A -> Run B) l1 l2 a b :
  reads r l1 a -> (forall n, reads (k (a n)) l2 (fun n2 => b (n + n2))) -> reads (r ≫= k) (l1 ++ l2) b.
Proof.
  intros [Hok1 R1] R2. split; [apply Forall_app; split; [done | apply (R2 0)] |].
  intros m off Hm Hr Hlay. apply laid_out_app in Hlay as [H1 H2].
  destruct (end_of_reach _ _ Hok1 off Hr (laid_out_fits _ _ _ _ H1)) as [Hr1 _].
  rewrite (run_bind_eq _ _ _ _ _ (R1 m off Hm Hr H1)), end_of_app.
  destruct (R2 (end_of (zlen m) off l1 - off)) as [_ R2']. rewrite (R2' m _ Hm Hr1 H2). do 3 f_equal. lia.
Qed.

Lemma reads_step {A B} (r : Run A) (k : A -> Run B) i l a b :
  reads r [i] a -> (forall n, reads (k (a n)) l (fun n2 => b (n + n2))) -> reads (r ≫= k) (i :: l) b.
Proof. intros R1 R2. by apply (reads_bind _ _ [i] l a). Qed.

Lemma reads_pure {A B} (r : Run A) (k : A -> Run B) l a b :
  reads r [] (fun _ => a) -> reads (k a) l b -> reads (r ≫= k) l b.
Proof.
  intros R1 [Hok R2]. split; [done |]. intros m off Hm Hr Hl. destruct R1 as [_ R1].
  specialize (R1 m off Hm Hr I). cbn [end_of] in R1. rewrite (run_bind_eq _ _ _ _ _ R1). by apply R2.
Qed.

Lemma reads_IsError : reads IsError [] (fun _ => false).
Proof. split; [constructor |]. done. Qed.

(** A single value. *)
Lemma reads_one {A} (r : Run A) i a : item_ok i ->
  (forall m off, zlen m <= INT32_MAX -> reach (zlen m) off -> 0 <= off <= 2 ^ 32 -> fits (zlen m) off i ->
     slice off (zlen (enc i)) m = enc i ->
     r (cursor m off) = Some (a (adv (zlen m) off i), cursor m (off + adv (zlen m) off i))) ->
  reads r [i] a.
Proof.
  intros Hi Hr. split; [by constructor |]. intros m off Hm Hreach (Hf & Hs & _). cbn [end_of].
  replace (off + adv (zlen m) off i - off) with (adv (zlen m) off i) by lia. apply Hr; try done.
  pose proof (align8_bounds (zlen m)). unfold reach, INT32_MAX in *. lia.
Qed.

Lemma reads_align : reads EightByteAlign [IAlign] (fun _ => ()).
Proof.
  apply reads_one; [done |]. intros m off Hm Hr Ho _ _. unfold EightByteAlign.
  cbn [isError_ buf_ bufPtr_ parcelLen_ totalLen_ cursor adv].
  rewrite byte8_align_align8 by lia. unfold cursor. by rewrite Zplus_minus.
Qed.

Lemma reads_uint n v x i : (0 < n <= 8)%nat -> 0 <= v < 256 ^ Z.of_nat n -> item_ok i ->
  enc i = be_bytes n v -> (forall total off, adv total off i = zlen (enc i)) ->
  (forall total off, fits total off i <-> off + zlen (enc i) <= total) ->
  reads (ReadInteger n x) [i] (fun len => (len, v)).
Proof.
  intros Hn Hv Hi He Ha Hfi. apply reads_one; [done |]. intros m off Hm Hr Ho Hf Hs.
  apply Hfi in Hf. rewrite Ha. rewrite He, ?zlen_be_bytes in *.
  rewrite (ReadInteger_ok m off Hm Ho n x (be_bytes n v)) by (done || lia).
  by rewrite be_val_be_bytes, Z.mod_small by lia.
Qed.

Lemma reads_UInt32 x v : 0 <= v < 2 ^ 32 -> reads (ReadUInt32 x) [IUInt32 v] (fun n => (n, v)).
Proof. intros. apply reads_uint; (done || lia). Qed.

Lemma reads_UInt64 x v : 0 <= v < 2 ^ 64 -> reads (ReadUInt64 x) [IUInt64 v] (fun n => (n, v)).
Proof. intros. apply reads_uint; (done || lia). Qed.

Lemma reads_signed r x i v b : (0 < r <= 8)%nat -> item_ok i -> enc i = be_bytes r v ->
  (forall total off, adv total off i = zlen (enc i)) ->
  (forall total off, fits total off i <-> off + zlen (enc i) <= total) ->
  to_signed b (v mod 256 ^ Z.of_nat r) = v ->
  reads ('(len, v) ← ReadInteger r x; mret (len, to_signed b v)) [i] (fun n => (n, v)).
Proof.
  intros Hn Hi He Ha Hfi Hv. apply reads_one; [done |]. intros m off Hm Hr Ho Hf Hs.
  apply Hfi in Hf. rewrite Ha. rewrite He, ?zlen_be_bytes in *.
  eapply run_bind_then; [apply (ReadInteger_ok m off Hm Ho r x (be_bytes r v)); (done || lia) |].
  rewrite be_val_be_bytes, Hv. done.
Qed.

Lemma reads_Int x v : - 2 ^ 31 <= v < 2 ^ 31 -> reads (ReadInt x) [IInt v] (fun n => (n, v)).
Proof. intros. apply reads_signed; try (done || lia). by apply to_signed_mod. Qed.

Lemma reads_Int64 x v : - 2 ^ 63 <= v < 2 ^ 63 -> reads (ReadInt64 x) [IInt64 v] (fun n => (n, v)).
Proof. intros. apply reads_signed; try (done || lia). by apply to_signed_mod. Qed.

Lemma reads_String x bs : zlen bs < 2 ^ 48 -> reads (ReadString x) [IString bs] (fun n => (n, bs)).
Proof. intros. apply reads_one; [done |]. intros m off Hm Hr Ho Hf Hs. by apply ReadString_ok. Qed.

Lemma reads_VectorChar x bs : zlen bs < 2 ^ 48 -> reads (ReadVectorChar x) [IVectorChar bs] (fun n => (n, bs)).
Proof. intros. apply reads_one; [done |]. intros m off Hm Hr Ho Hf Hs. by apply ReadVectorChar_ok. Qed.

Lemma reads_Vector n x vs : item_ok (IVector n vs) -> reads (ReadVector n x) [IVector n vs] (fun k => (k, vs)).
Proof.
  intros Hi. apply reads_one; [done |]. intros m off Hm Hr Ho Hf Hs. destruct Hi as (Hn & Hvs & _).
  by apply ReadVector_ok.
Qed.

End Runs.

(** * Sizes *)

(** The sum of [f] over a list. *)
Definition sum_of {A} (f : A -> Z) (l : list A) : Z := foldr (fun x n => f x + n) 0 l.

Lemma sum_of_app {A} (f : A -> Z) l1 l2 : sum_of f (l1 ++ l2) = sum_of f l1 + sum_of f l2.
Proof. induction l1 as [|x l1 IH]; cbn [app sum_of foldr]; [done |]. unfold sum_of in *. lia. Qed.

Lemma sum_of_concat {A B} (f : B -> Z) (g : A -> list B) l :
  sum_of f (concat (g <$> l)) = sum_of (fun x => sum_of f (g x)) l.
Proof.
  induction l as [|x l IH]; [done |]. cbn [fmap list_fmap concat]. rewrite sum_of_app.
  cbn [sum_of foldr]. unfold sum_of in *. lia.
Qed.

Lemma sum_of_nonneg {A} (f : A -> Z) l : (forall x, 0 <= f x) -> 0 <= sum_of f l.
Proof. intros Hf. induction l as [|x l IH]; cbn [sum_of foldr]; [lia |]. specialize (Hf x). unfold sum_of in *. lia. Qed.

Lemma sum_of_mod8 {A} (f : A -> Z) l : (forall x, f x mod 8 = 0) -> sum_of f l mod 8 = 0.
Proof. intros Hf. induction l as [|x l IH]; cbn [sum_of foldr]; [done |]. specialize (Hf x). unfold sum_of in *. lia. Qed.

Lemma sum_of_ext {A} (f g : A -> Z) l : (forall x, f x = g x) -> sum_of f l = sum_of g l.
Proof. intros Hf. induction l as [|x l IH]; cbn [sum_of foldr]; [done |]. unfold sum_of in *. by rewrite Hf, IH. Qed.

Lemma sum_of_elem {A} (f : A -> Z) l x : (forall y, 0 <= f y) -> x ∈ l -> f x <= sum_of f l.
Proof.
  intros Hf. induction l as [|y l IH]; intros Hx; [by apply not_elem_of_nil in Hx |].
  pose proof (sum_of_nonneg f l Hf). pose proof (Hf y). cbn [sum_of foldr]. unfold sum_of in *.
  apply elem_of_cons in Hx as [-> | Hx]; [lia |]. specialize (IH Hx). lia.
Qed.

(** A length that is added up in a [uint64_t]. *)
Lemma fold_len {A} (f : A -> Z) (step : Z -> A -> Z) l : (forall x, 0 <= f x) ->
  (forall len x, x ∈ l -> 0 <= len -> len + f x <= 2 ^ 62 -> step len x = len + f x) ->
  forall len, 0 <= len -> len + sum_of f l <= 2 ^ 62 -> fold_left step l len = len + sum_of f l.
Proof.
  intros Hf. induction l as [|x l IH]; intros Hs len Hl Hb; cbn [fold_left sum_of foldr] in *; [lia |].
  pose proof (Hf x). pose proof (sum_of_nonneg f l Hf). unfold sum_of in *.
  rewrite Hs by (try lia; left). rewrite IH; [lia | | lia | lia].
  intros. apply Hs; (done || by right).
Qed.

(** The place a value takes, for the kinds that take the same place everywhere. *)
Definition isize (i : Item) : Z := adv 0 0 i.
Definition fixed (i : Item) : Prop := match i with IBlob _ | IAlign => False | _ => True end.

Lemma end_of_fixed t l : Forall fixed l -> forall off, end_of t off l = off + sum_of isize l.
Proof.
  induction 1 as [|i l Hi Hl IH]; intros off; cbn [end_of sum_of foldr]; [lia |].
  rewrite IH. replace (adv t off i) with (isize i) by (by destruct i). unfold sum_of. lia.
Qed.

Lemma fixed_no_blob l : Forall fixed l -> Forall no_blob l.
Proof. intros Hl. apply (Forall_impl _ _ _ Hl). by intros []. Qed.

Section Known.
Context `{Host}.

(** A reader of values of fixed size knows how much it reads. *)
Lemma reads_known {A} (r : Run A) l a : Forall fixed l -> reads r l a -> reads r l (fun _ => a (sum_of isize l)).
Proof.
  intros Hf [Hok R]. split; [done |]. intros m off Hm Hr Hl. rewrite (R m off Hm Hr Hl).
  rewrite end_of_fixed by done. do 3 f_equal. lia.
Qed.

Lemma reads_size {A} (r : Run (Z * A)) i v n :
  fixed i -> isize i = n -> reads r [i] (fun n => (n, v)) -> reads r [i] (fun _ => (n, v)).
Proof.
  intros Hf <- R. replace (isize i) with (sum_of isize [i]) by (cbn; lia).
  apply (reads_known _ _ (fun n => (n, v))); [by constructor | done].
Qed.

End Known.

(** * Code that stays inside its buffer *)

(** Whatever the bytes, [r] returns: it does not access memory outside the buffer. *)
Definition stays {A} (r : Run A) : Prop :=
  forall m p, parcel_wf (m := m) p -> exists a q, r p = Some (a, q) /\ parcel_wf (m := m) q.

Lemma stays_ret {A} (a : A) : stays (mret a).
Proof. intros m p Hp. by exists a, p. Qed.

Lemma stays_bind {A B} (r : Run A) (k : A -> Run B) : stays r -> (forall a, stays (k a)) -> stays (r ≫= k).
Proof.
  intros Hr Hk m p Hp. destruct (Hr m p Hp) as (a & q & E & Hq). destruct (Hk a m q Hq) as (b & q' & E' & Hq').
  exists b, q'. split; [by rewrite (run_bind_eq _ _ _ _ _ E) | done].
Qed.

Lemma stays_read {A} (r : Run (Z * A)) : (forall m, safe_read (m := m) r) -> stays r.
Proof. intros Hr m p Hp. destruct (Hr m p Hp) as (len & a & q & E & Hq & _). eauto. Qed.

Lemma stays_IsError : stays IsError.
Proof. intros m p Hp. unfold IsError. eauto. Qed.

Lemma stays_align : stays EightByteAlign.
Proof. intros m p Hp. destruct (align_wf p Hp) as (q & E & Hq & _). eauto. Qed.

Lemma new_wf m : zlen m < 2 ^ 32 -> parcel_wf (m := m) (newParcel (Some m) (zlen m)).
Proof. intros Hz. split_and!; try done. apply reach_start. Qed.

Section Stays.
Context `{Host}.

Lemma stays_UInt32 x : stays (ReadUInt32 x).
Proof. apply stays_read. intros m. apply safe_ReadInteger. lia. Qed.
Lemma stays_UInt64 x : stays (ReadUInt64 x).
Proof. apply stays_read. intros m. apply safe_ReadInteger. lia. Qed.
Lemma stays_Int x : stays (ReadInt x).
Proof. apply stays_read. intros m. apply (safe_map _ (to_signed 32)), safe_ReadInteger. lia. Qed.
Lemma stays_Int64 x : stays (ReadInt64 x).
Proof. apply stays_read. intros m. apply (safe_map _ (to_signed 64)), safe_ReadInteger. lia. Qed.
Lemma stays_String x : stays (ReadString x).
Proof. apply stays_read. intros m. apply safe_ReadString. Qed.
Lemma stays_VectorChar x : stays (ReadVectorChar x).
Proof. apply stays_read. intros m. apply safe_ReadVectorChar. Qed.
Lemma stays_Vector x : stays (ReadVector 8 x).
Proof. apply stays_read. intros m. apply safe_ReadVector. lia. Qed.

End Stays.

#[export] Hint Resolve stays_ret stays_IsError stays_align stays_UInt32 stays_UInt64 stays_Int stays_Int64
  stays_String stays_VectorChar stays_Vector : parcel.

(** Reader code, step by step. *)
Ltac stays_step :=
  match goal with
  | |- stays (_ ≫= _) => apply stays_bind; [| intros ?]
  | |- stays (let '(_, _) := ?x in _) => destruct x
  | |- stays (if ?b then _ else _) => destruct b
  | |- stays (match ?x with _ => _ end) => destruct x
  | |- _ => solve [auto with parcel]
  end.
Ltac stays := repeat stays_step.
