(* ===== verification/QuerySyncFacts.v ===== *)
(** A query survives the wire: the receiver gets the same conditions, and the same identity,
    and the computed length is the place the query takes. *)

From S2P Require Import Prelude Memory Parcel ParcelFacts CommTypes ProtocolProto SyncStorage CommitNotify.
From S2P Require Import QuerySync ParcelRuns.
From Stdlib Require Import ZArith Lia Sorted.
From Stdlib Require Import Strings.Byte.
From stdpp Require Import base numbers list.

Open Scope Z_scope.

(** * The values of a query *)

Definition value_items (v : FieldValue) : list Item := [IString (stringValue v); IInt64 (longValue v)].

Definition node_items (n : QueryObjNode) : list Item :=
  [IUInt32 (operFlag n); IAlign; IString (fieldName n); IInt (valueType n); IUInt32 (zlen (fieldValue n))]
  ++ concat (value_items <$> fieldValue n).

Definition version1_items (q : QuerySyncObject) : list Item :=
  if QUERY_SYNC_OBJECT_VERSION_1 <=? GetVersion q then
    IUInt32 (if isTableNameSpecified_ q then 1 else 0)
    :: (if isTableNameSpecified_ q then [IString (tableName_ q)] else [])
    ++ IUInt32 (zlen (keys_ q)) :: (IVectorChar <$> keys_ q)
  else [].

(** What a reader looks at; the writer aligns once more. *)
Definition query_items (q : QuerySyncObject) : list Item :=
  [IString MAGIC; IUInt32 (GetVersion q); IVectorChar (prefixKey_ q); IString (suggestIndex_ q);
   IUInt32 (zlen (queryObjNodes_ q)); IAlign]
  ++ concat (node_items <$> queryObjNodes_ q) ++ version1_items q.

(** * The place they take *)

Definition value_size (v : FieldValue) : Z := field_size (stringValue v) + 8.
Definition node_size (n : QueryObjNode) : Z :=
  8 + field_size (fieldName n) + 8 + sum_of value_size (fieldValue n).

(** The length that is computed counts the last two numbers in any version. *)
Definition query_size (q : QuerySyncObject) : Z :=
  field_size MAGIC + 8 + field_size (prefixKey_ q) + field_size (suggestIndex_ q)
  + sum_of node_size (queryObjNodes_ q) + 8
  + (if isTableNameSpecified_ q then field_size (tableName_ q) else 0) + sum_of field_size (keys_ q).

Record value_ok (v : FieldValue) : Prop := {
  vo_long : - 2 ^ 63 <= longValue v < 2 ^ 63
}.

Record node_ok (n : QueryObjNode) : Prop := {
  no_oper : 0 < operFlag n < 2 ^ 32;
  no_type : - 2 ^ 31 <= valueType n < 2 ^ 31;
  no_values : Forall value_ok (fieldValue n)
}.

Definition key_lt (a b : Key) : Prop := key_ltb a b = true.

(** A query that may be sent: valid, its keys are a set of at most 128, and a table that is
    named has a name; the whole of it has less than two gigabytes. *)
Record query_ok (q : QuerySyncObject) : Prop := {
  qo_valid : isValid_ q = true;
  qo_nodes : Forall node_ok (queryObjNodes_ q);
  qo_keys : StronglySorted key_lt (keys_ q);
  qo_count : zlen (keys_ q) <= MAX_INKEYS_SIZE;
  qo_table : isTableNameSpecified_ q = true -> tableName_ q <> [];
  qo_size : query_size q <= INT32_MAX
}.

Lemma field_size_pos bs : 0 <= field_size bs.
Proof. pose proof (field_size_bounds bs). pose proof (zlen_nonneg bs). lia. Qed.

Lemma value_size_pos v : 0 <= value_size v.
Proof. pose proof (field_size_pos (stringValue v)). unfold value_size. lia. Qed.

Lemma node_size_pos n : 0 <= node_size n.
Proof.
  pose proof (field_size_pos (fieldName n)). pose proof (sum_of_nonneg _ (fieldValue n) value_size_pos).
  unfold node_size. lia.
Qed.

#[export] Hint Resolve field_size_pos value_size_pos node_size_pos sum_of_nonneg : parcel.

Lemma sum_of_length {A} (f : A -> Z) l : (forall x, 8 <= f x) -> 8 * zlen l <= sum_of f l.
Proof.
  intros Hf. unfold sum_of, zlen. induction l as [|x l IH]; cbn [foldr length]; [lia |]. specialize (Hf x). lia.
Qed.

(** The two lengths of bytes are [field_size] as soon as they fit. *)
Lemma byte_len bs : field_size bs <= INT32_MAX ->
  GetVectorCharLen bs = field_size bs /\ GetStringLen bs = field_size bs.
Proof.
  intros Hb. apply field_len_eq. pose proof (field_size_bounds bs). unfold field_size, align8, INT32_MAX in *. lia.
Qed.

Lemma isize_String bs : isize (IString bs) = field_size bs.
Proof. unfold isize. cbn [adv enc]. by rewrite zlen_enc_counted. Qed.
Lemma isize_VectorChar bs : isize (IVectorChar bs) = field_size bs.
Proof. unfold isize. cbn [adv enc]. by rewrite zlen_enc_counted. Qed.
Lemma isize_Vector n vs : isize (IVector n vs) = align8 (4 + zlen vs * Z.of_nat n).
Proof. unfold isize. cbn [adv enc]. unfold enc_counted. by rewrite zlen_app, zlen_be_bytes, zlen_concat_be. Qed.
Lemma isize_UInt32 v : isize (IUInt32 v) = 4. Proof. done. Qed.
Lemma isize_Int v : isize (IInt v) = 4. Proof. done. Qed.
Lemma isize_UInt64 v : isize (IUInt64 v) = 8. Proof. done. Qed.
Lemma isize_Int64 v : isize (IInt64 v) = 8. Proof. done. Qed.

#[export] Hint Rewrite isize_String isize_VectorChar isize_Vector isize_UInt32 isize_Int isize_UInt64
  isize_Int64 @sum_of_app @sum_of_concat : parcel_size.

(** * Writing *)

Section Wire.
Context `{Host}.

Lemma small_bytes bs n : field_size bs <= n -> n <= INT32_MAX -> zlen bs < 2 ^ 48.
Proof. pose proof (field_size_bounds bs). unfold INT32_MAX. lia. Qed.

Lemma value_small v : value_size v <= INT32_MAX -> zlen (stringValue v) < 2 ^ 48.
Proof. intros Hv. apply (small_bytes _ (value_size v)); [unfold value_size; lia | done]. Qed.

(** The parts of a node that is small enough are. *)
Lemma node_parts n : node_size n <= INT32_MAX ->
  zlen (fieldName n) < 2 ^ 48 /\ 0 <= zlen (fieldValue n) < 2 ^ 32
  /\ Forall (fun v => value_size v <= INT32_MAX) (fieldValue n).
Proof.
  intros Hn. pose proof (sum_of_nonneg _ (fieldValue n) value_size_pos). pose proof (field_size_pos (fieldName n)).
  pose proof (zlen_nonneg (fieldValue n)).
  assert (H8 : forall v, 8 <= value_size v) by (intros v; pose proof (field_size_pos (stringValue v)); unfold value_size; lia).
  pose proof (sum_of_length _ (fieldValue n) H8). unfold node_size, INT32_MAX in *. split_and!.
  - apply (small_bytes _ (node_size n)); unfold node_size, INT32_MAX; lia.
  - lia.
  - lia.
  - apply Forall_forall. intros v Hv. pose proof (sum_of_elem _ _ _ value_size_pos Hv). lia.
Qed.

Lemma u32_small n : 0 <= n < 2 ^ 32 -> u32 n = n.
Proof. apply (wrap_small 32). Qed.

Lemma writes_node n : node_ok n -> node_size n <= INT32_MAX ->
  writes (SerializeDataObjNode n) (node_items n) E_OK.
Proof.
  intros [Ho Ht Hv] Hs. destruct (node_parts n Hs) as (Hname & Hcount & Hvs). unfold SerializeDataObjNode.
  rewrite (proj2 (Z.eqb_neq _ _)), u32_small by (unfold OPER_ILLEGAL; lia).
  apply (writes_step (IUInt32 _)); [cbn; lia |]. apply writes_align_step.
  apply (writes_step (IString _)); [done |]. apply (writes_step (IInt _)); [done |].
  apply (writes_step (IUInt32 _)); [done |].
  rewrite <- (app_nil_r (concat _)). eapply writes_bind; [| apply writes_unless, writes_ret].
  apply writes_each. pose proof (proj2 (Forall_and _ _) (conj Hv Hvs)) as Hboth.
  apply (Forall_impl _ _ _ Hboth). intros v [[Hl] Hsz].
  apply (writes_step (IString _)); [by apply value_small |].
  apply (writes_step (IInt64 _)); [done | apply writes_ret].
Qed.

Lemma writes_nodes nodes : Forall node_ok nodes -> Forall (fun n => node_size n <= INT32_MAX) nodes ->
  writes (write_nodes nodes) (concat (node_items <$> nodes)) E_OK.
Proof.
  induction 1 as [|n nodes Hn Hnodes IH]; intros Hs; cbn [write_nodes fmap list_fmap concat]; [apply writes_ret |].
  apply Forall_cons in Hs as [Hs Hss]. apply writes_then; [by apply writes_node | by apply IH].
Qed.

(** The parts of a query that is small enough are. *)
Record query_parts (q : QuerySyncObject) : Prop := {
  qp_prefix : zlen (prefixKey_ q) < 2 ^ 48;
  qp_suggest : zlen (suggestIndex_ q) < 2 ^ 48;
  qp_table : isTableNameSpecified_ q = true -> zlen (tableName_ q) < 2 ^ 48;
  qp_count : 0 <= zlen (queryObjNodes_ q) < 2 ^ 32;
  qp_nodes : Forall (fun n => node_size n <= INT32_MAX) (queryObjNodes_ q);
  qp_keys : Forall (fun k => zlen k < 2 ^ 48) (keys_ q)
}.

Lemma query_small q : query_size q <= INT32_MAX -> query_parts q.
Proof.
  intros Hq. pose proof (field_size_pos MAGIC). pose proof (field_size_pos (prefixKey_ q)).
  pose proof (field_size_pos (suggestIndex_ q)). pose proof (sum_of_nonneg _ (queryObjNodes_ q) node_size_pos).
  pose proof (sum_of_nonneg _ (keys_ q) field_size_pos). pose proof (field_size_pos (tableName_ q)).
  assert (Ht : 0 <= if isTableNameSpecified_ q then field_size (tableName_ q) else 0)
    by (destruct (isTableNameSpecified_ q); lia).
  assert (H8 : forall n, 8 <= node_size n).
  { intros n. pose proof (sum_of_nonneg _ (fieldValue n) value_size_pos). pose proof (field_size_pos (fieldName n)).
    unfold node_size. lia. }
  pose proof (sum_of_length _ (queryObjNodes_ q) H8). pose proof (zlen_nonneg (queryObjNodes_ q)).
  unfold query_size in Hq. constructor.
  - apply (small_bytes _ INT32_MAX); lia.
  - apply (small_bytes _ INT32_MAX); lia.
  - intros E. rewrite E in *. apply (small_bytes _ INT32_MAX); lia.
  - unfold INT32_MAX in *. lia.
  - apply Forall_forall. intros n Hn. pose proof (sum_of_elem _ _ _ node_size_pos Hn). lia.
  - apply Forall_forall. intros k Hk. pose proof (sum_of_elem _ _ _ field_size_pos Hk).
    apply (small_bytes _ INT32_MAX); lia.
Qed.

Lemma GetVersion_range q : 0 <= GetVersion q <= 1.
Proof. unfold GetVersion. by destruct (_ || _). Qed.

Lemma writes_query q v : query_ok q -> writes (q_SerializeData q v) (query_items q ++ [IAlign]) E_OK.
Proof.
  intros [Hv Hn _ Hc _ Hs]. destruct (query_small q Hs) as []. unfold q_SerializeData. rewrite Hv. cbn [negb].
  pose proof (GetVersion_range q). unfold query_items. cbn [app]. rewrite <- app_assoc.
  apply (writes_step (IString _)); [done |]. apply (writes_step (IUInt32 _)); [cbn; lia |].
  apply (writes_step (IVectorChar _)); [done |]. apply (writes_step (IString _)); [done |].
  rewrite (u32_small (zlen (queryObjNodes_ q))) by done. apply (writes_step (IUInt32 _)); [done |]. apply writes_align_step.
  apply writes_then; [by apply writes_nodes |].
  eapply writes_bind; [| apply writes_unless, writes_align_step, writes_ret].
  unfold version1_items. destruct (_ <=? _); [| apply writes_ret].
  apply (writes_step (IUInt32 _)); [by destruct (isTableNameSpecified_ q) |].
  pose proof (zlen_nonneg (keys_ q)). unfold MAX_INKEYS_SIZE in *.
  assert (W : writes (_ ← WriteUInt32 (u32 (zlen (keys_ q))); write_each (fun key => _ ← WriteVectorChar key; mret ()) (keys_ q))
                (IUInt32 (zlen (keys_ q)) :: (IVectorChar <$> keys_ q)) ()).
  { rewrite u32_small by lia. apply (writes_step (IUInt32 _)); [cbn; lia |].
    rewrite <- concat_singletons.
    apply writes_each. apply (Forall_impl _ _ _ qp_keys0). intros k Hk.
    apply (writes_step (IVectorChar _)); [done | apply writes_ret]. }
  destruct (isTableNameSpecified_ q) eqn:Et; cbn [app].
  - apply (writes_step (IString _)); [by apply qp_table0 | done].
  - by apply writes_nil_step.
Qed.

(** * Reading *)

Lemma to_nat_zlen {A} (l : list A) : Z.to_nat (zlen l) = length l.
Proof. unfold zlen. lia. Qed.

Lemma reads_values vs : Forall value_ok vs -> Forall (fun v => value_size v <= INT32_MAX) vs -> forall acc,
  reads (read_values (length vs) acc) (concat (value_items <$> vs)) (fun _ => (E_OK, acc ++ vs)).
Proof.
  induction 1 as [|v vs [Hl] Hvs IH]; intros Hs acc; cbn [length read_values fmap list_fmap concat].
  { apply reads_ret. by rewrite app_nil_r. }
  apply Forall_cons in Hs as [Hs Hss]. cbn [value_items app].
  eapply reads_step; [apply reads_String; by apply value_small | intros n1; cbv beta iota].
  eapply reads_step; [by apply reads_Int64 | intros n2; cbv beta iota].
  eapply reads_pure; [apply reads_IsError |]. cbv iota.
  replace (acc ++ v :: vs) with ((acc ++ [v]) ++ vs) by (by rewrite <- app_assoc).
  destruct v as [lv sv]. by apply IH.
Qed.

Lemma reads_node n : node_ok n -> node_size n <= INT32_MAX ->
  reads (DeSerializeDataObjNode newQueryObjNode) (node_items n) (fun _ => (E_OK, n)).
Proof.
  intros [Ho Ht Hv] Hs. destruct (node_parts n Hs) as (Hname & Hcount & Hvs).
  unfold DeSerializeDataObjNode, node_items. cbn [app].
  eapply reads_step; [apply reads_UInt32; lia | intros n1; cbv beta iota].
  eapply reads_step; [apply reads_align | intros n2].
  eapply reads_step; [by apply reads_String | intros n3; cbv beta iota].
  eapply reads_step; [by apply reads_Int | intros n4; cbv beta iota].
  eapply reads_step; [by apply reads_UInt32 | intros n5; cbv beta iota].
  eapply reads_pure; [apply reads_IsError |]. cbv iota. rewrite to_nat_zlen.
  rewrite <- (app_nil_r (concat _)). eapply reads_bind; [by apply reads_values |].
  intros n6. cbv beta iota. apply reads_ret. by destruct n.
Qed.

Lemma reads_nodes nodes : Forall node_ok nodes -> Forall (fun n => node_size n <= INT32_MAX) nodes -> forall acc,
  reads (read_nodes (length nodes) acc) (concat (node_items <$> nodes)) (fun _ => (E_OK, acc ++ nodes)).
Proof.
  induction 1 as [|n nodes Hn Hnodes IH]; intros Hs acc; cbn [length read_nodes fmap list_fmap concat].
  { apply reads_ret. by rewrite app_nil_r. }
  apply Forall_cons in Hs as [Hs Hss]. eapply reads_bind; [by apply reads_node |].
  intros n1. cbv beta iota. cbn [negb Z.eqb E_OK].
  replace (acc ++ n :: nodes) with ((acc ++ [n]) ++ nodes) by (by rewrite <- app_assoc). by apply IH.
Qed.

Lemma key_ltb_asym a : forall b, key_ltb a b = true -> key_ltb b a = false.
Proof.
  induction a as [|x a IH]; intros [|y b]; cbn [key_ltb]; try done.
  destruct (Z.ltb_spec (b2z x) (b2z y)), (Z.ltb_spec (b2z y) (b2z x)); cbn [orb]; try lia; try done.
  intros E. apply andb_prop in E as [E1 E2]. rewrite (IH b E2). by rewrite andb_false_r.
Qed.

(** A key behind all others goes to the end. *)
Lemma emplace_last acc k : Forall (fun x => key_lt x k) acc -> emplace acc k = acc ++ [k].
Proof.
  induction 1 as [|x acc Hx Hacc IH]; cbn [emplace app]; [done |].
  rewrite (key_ltb_asym x k Hx), Hx. by rewrite IH.
Qed.

Lemma sorted_before acc k ks : StronglySorted key_lt (acc ++ k :: ks) -> Forall (fun x => key_lt x k) acc.
Proof.
  induction acc as [|x acc IH]; intros Hs; [constructor |].
  cbn [app] in Hs. apply StronglySorted_inv in Hs as [Hs Hx]. apply Forall_app in Hx as [_ Hx].
  apply Forall_cons in Hx as [Hx _]. constructor; auto.
Qed.

Lemma reads_keys ks : Forall (fun k => zlen k < 2 ^ 48) ks -> forall acc, StronglySorted key_lt (acc ++ ks) ->
  reads (read_keys (length ks) acc) (IVectorChar <$> ks) (fun _ => acc ++ ks).
Proof.
  induction 1 as [|k ks Hk Hks IH]; intros acc Hs; cbn [length read_keys fmap list_fmap].
  { apply reads_ret. by rewrite app_nil_r. }
  eapply reads_step; [by apply reads_VectorChar | intros n; cbv beta iota].
  rewrite emplace_last by (by eapply sorted_before).
  replace (acc ++ k :: ks) with ((acc ++ [k]) ++ ks) in * by (by rewrite <- app_assoc). by apply IH.
Qed.

(** What the receiver has: the conditions, with the attributes computed from them. *)
Definition received_query (q : QuerySyncObject) : QuerySyncObject :=
  let r := QuerySyncObject_of (queryObjNodes_ q) (prefixKey_ q) (keys_ q) in
  if isTableNameSpecified_ q then SetTableName r (tableName_ q) else r.

Lemma reads_version1 q : query_ok q -> query_parts q ->
  reads (DeSerializeVersion1Data (GetVersion q) [] []) (version1_items q)
    (fun _ => (E_OK, if isTableNameSpecified_ q then tableName_ q else [], keys_ q)).
Proof.
  intros [_ _ Hk Hc Ht _] []. unfold DeSerializeVersion1Data, version1_items.
  destruct (_ <=? _) eqn:Ev.
  2: { apply reads_ret. unfold GetVersion in Ev. destruct (isTableNameSpecified_ q); [done |].
       cbn [orb] in Ev. by case_bool_decide as Ek; [rewrite Ek |]. }
  assert (R : forall name : list byte, reads ('(_, keysSize) ← ReadUInt32 0;
                if MAX_INKEYS_SIZE <? keysSize then mret (- E_PARSE_FAIL, name, [] : list Key)
                else keys ← read_keys (Z.to_nat keysSize) []; mret (E_OK, name, keys))
                (IUInt32 (zlen (keys_ q)) :: (IVectorChar <$> keys_ q)) (fun _ => (E_OK, name, keys_ q))).
  { intros name. pose proof (zlen_nonneg (keys_ q)). unfold MAX_INKEYS_SIZE in *.
    eapply reads_step; [apply reads_UInt32; lia | intros n1; cbv beta iota].
    rewrite (proj2 (Z.ltb_ge _ _)), to_nat_zlen by lia.
    rewrite <- (app_nil_r (IVectorChar <$> keys_ q)). eapply reads_bind; [by apply reads_keys |].
    intros n2. by apply reads_ret. }
  destruct (isTableNameSpecified_ q); cbn [app].
  - eapply reads_step; [by apply reads_UInt32 | intros n1; cbv beta iota]. cbn [negb Z.eqb].
    change (IString (tableName_ q) :: ?l) with ([IString (tableName_ q)] ++ l).
    eapply reads_bind; [| intros n2; apply R].
    eapply reads_step; [apply reads_String; auto | intros n3; cbv beta iota; by apply reads_ret].
  - eapply reads_step; [by apply reads_UInt32 | intros n1; cbv beta iota]. cbn [negb Z.eqb].
    eapply reads_pure; [by apply reads_ret | apply R].
Qed.

Lemma reads_query q x : query_ok q ->
  reads (q_DeSerializeData x) (query_items q) (fun _ => (E_OK, received_query q)).
Proof.
  intros Hq. pose proof Hq as [_ Hn _ _ Ht Hs]. pose proof (query_small q Hs) as Hp. pose proof Hp as [].
  pose proof (GetVersion_range q). unfold q_DeSerializeData, query_items. cbn [app].
  eapply reads_step; [by apply reads_String | intros n1; cbv beta iota].
  rewrite bool_decide_eq_true_2 by done. cbn [negb].
  eapply reads_step; [apply reads_UInt32; lia | intros n2; cbv beta iota].
  rewrite (proj2 (Z.ltb_ge _ _)) by (unfold QUERY_SYNC_OBJECT_VERSION_CURRENT, QUERY_SYNC_OBJECT_VERSION_1; lia).
  eapply reads_step; [by apply reads_VectorChar | intros n3; cbv beta iota].
  eapply reads_step; [by apply reads_String | intros n4; cbv beta iota].
  eapply reads_step; [by apply reads_UInt32 | intros n5; cbv beta iota].
  eapply reads_pure; [apply reads_IsError |]. cbv iota.
  eapply reads_step; [apply reads_align | intros n6]. rewrite to_nat_zlen.
  eapply reads_bind; [by apply reads_nodes | intros n7; cbv beta iota]. cbn [negb Z.eqb E_OK].
  rewrite <- (app_nil_r (version1_items q)). eapply reads_bind; [by apply reads_version1 | intros n8; cbv beta iota].
  cbn [negb Z.eqb E_OK]. eapply reads_pure; [apply reads_IsError |]. cbv iota zeta.
  apply reads_ret. unfold received_query. destruct (isTableNameSpecified_ q).
  - by rewrite bool_decide_eq_false_2 by auto.
  - by rewrite bool_decide_eq_true_2.
Qed.

End Wire.

(** * Lengths *)

Lemma value_size_mod8 v : value_size v mod 8 = 0.
Proof. pose proof (field_size_bounds (stringValue v)). unfold value_size. lia. Qed.

Lemma node_size_mod8 n : node_size n mod 8 = 0.
Proof.
  pose proof (field_size_bounds (fieldName n)). pose proof (sum_of_mod8 _ (fieldValue n) value_size_mod8).
  unfold node_size. lia.
Qed.

Lemma field_size_mod8 bs : field_size bs mod 8 = 0.
Proof. apply field_size_bounds. Qed.

#[export] Hint Resolve value_size_mod8 node_size_mod8 field_size_mod8 sum_of_mod8 : parcel.

Lemma node_len_eq n len : node_ok n -> 0 <= len -> len mod 8 = 0 -> len + node_size n <= INT32_MAX ->
  node_len len n = Some (len + node_size n).
Proof.
  intros [Ho _ _] Hl H8 Hs. unfold node_len. unfold OPER_ILLEGAL. rewrite (proj2 (Z.eqb_neq _ _)) by lia.
  pose proof (field_size_pos (fieldName n)). pose proof (sum_of_nonneg _ (fieldValue n) value_size_pos) as Hv.
  unfold node_size in *. rewrite (proj2 (byte_len (fieldName n) ltac:(lia))).
  unfold INT32_MAX, GetUInt32Len, GetIntLen, GetInt64Len, GetEightByteAlign in *.
  rewrite (wrap_small 64 (len + 4)), (wrap_small 32 (len + 4)), byte8_align_align8 by lia.
  replace (align8 (len + 4)) with (len + 8) by (unfold align8; lia). cbv zeta.
  rewrite (wrap_small 64) by lia. f_equal. rewrite (fold_len value_size); [lia | apply value_size_pos | | lia | lia].
  intros l v Hin Hl0 Hb. pose proof (sum_of_elem _ _ _ value_size_pos Hin).
  pose proof (field_size_pos (stringValue v)). unfold value_size in *.
  rewrite (proj2 (byte_len (stringValue v) ltac:(unfold INT32_MAX; lia))). rewrite (wrap_small 64); lia.
Qed.

Lemma nodes_len_eq nodes : Forall node_ok nodes -> forall len, 0 <= len -> len mod 8 = 0 ->
  len + sum_of node_size nodes <= INT32_MAX -> nodes_len len nodes = Some (len + sum_of node_size nodes).
Proof.
  induction 1 as [|n nodes Hn Hnodes IH]; intros len Hl H8 Hs; cbn [nodes_len sum_of foldr] in *; [f_equal; lia |].
  pose proof (sum_of_nonneg _ nodes node_size_pos). pose proof (node_size_pos n). pose proof (node_size_mod8 n).
  unfold sum_of in *. rewrite node_len_eq by (done || lia). cbn [mbind option_bind].
  rewrite IH by lia. f_equal. lia.
Qed.

Lemma query_size_mod8 q : query_size q mod 8 = 0.
Proof.
  pose proof (field_size_mod8 MAGIC). pose proof (field_size_mod8 (prefixKey_ q)).
  pose proof (field_size_mod8 (suggestIndex_ q)). pose proof (field_size_mod8 (tableName_ q)).
  pose proof (sum_of_mod8 _ (queryObjNodes_ q) node_size_mod8). pose proof (sum_of_mod8 _ (keys_ q) field_size_mod8).
  unfold query_size. destruct (isTableNameSpecified_ q); lia.
Qed.

(** The computed length is exact. *)
Lemma q_CalculateLen_eq q : query_ok q -> q_CalculateLen q = query_size q.
Proof.
  intros [_ Hn _ _ _ Hs]. pose proof (query_size_mod8 q) as H8.
  pose proof (field_size_mod8 (prefixKey_ q)). pose proof (field_size_mod8 (suggestIndex_ q)).
  pose proof (field_size_pos (prefixKey_ q)). pose proof (field_size_pos (suggestIndex_ q)).
  pose proof (sum_of_nonneg _ (queryObjNodes_ q) node_size_pos). pose proof (sum_of_nonneg _ (keys_ q) field_size_pos).
  assert (Ht : 0 <= if isTableNameSpecified_ q then field_size (tableName_ q) else 0)
    by (pose proof (field_size_pos (tableName_ q)); destruct (isTableNameSpecified_ q); lia).
  unfold q_CalculateLen. unfold query_size in *. change (field_size MAGIC) with 16 in *.
  change (GetStringLen MAGIC) with 16. change GetUInt32Len with 4. unfold INT32_MAX in Hs.
  rewrite (proj1 (byte_len (prefixKey_ q) ltac:(unfold INT32_MAX; lia))).
  rewrite (proj2 (byte_len (suggestIndex_ q) ltac:(unfold INT32_MAX; lia))).
  rewrite (wrap_small 64), (wrap_small 32) by lia. unfold GetEightByteAlign at 1.
  rewrite byte8_align_align8, align8_id by lia.
  rewrite nodes_len_eq by (unfold INT32_MAX; (done || lia)). cbv zeta.
  assert (Et : forall len, 0 <= len <= INT32_MAX ->
    (if isTableNameSpecified_ q then u64 (len + GetStringLen (tableName_ q)) else len)
    = len + if isTableNameSpecified_ q then field_size (tableName_ q) else 0).
  { intros len Hl. unfold INT32_MAX in *. destruct (isTableNameSpecified_ q); [| lia].
    rewrite (proj2 (byte_len (tableName_ q) ltac:(unfold INT32_MAX; lia))). rewrite (wrap_small 64); lia. }
  rewrite (wrap_small 64 (_ + sum_of node_size (queryObjNodes_ q) + 4)) by lia. rewrite Et by (unfold INT32_MAX; lia). rewrite (wrap_small 64) by lia.
  rewrite (fold_len field_size).
  - rewrite (wrap_small 32) by lia. unfold GetEightByteAlign. rewrite byte8_align_align8 by lia.
    rewrite align8_id by lia. unfold INT32_MAX. rewrite (proj2 (Z.ltb_ge _ _)) by lia.
    rewrite (wrap_small 32); lia.
  - apply field_size_pos.
  - intros l k Hin Hl0 Hb. pose proof (sum_of_elem _ _ _ field_size_pos Hin). pose proof (field_size_pos k).
    rewrite (proj1 (byte_len k ltac:(unfold INT32_MAX; lia))). rewrite (wrap_small 64); lia.
  - lia.
  - lia.
Qed.

(** * Where a query ends *)

Lemma values_fixed vs : Forall fixed (concat (value_items <$> vs)).
Proof. induction vs as [|v vs IH]; cbn [fmap list_fmap concat]; [constructor |]. by repeat constructor. Qed.

Lemma node_end t off n : off mod 8 = 0 -> end_of t off (node_items n) = off + node_size n.
Proof.
  intros H8. unfold node_items. rewrite end_of_app. cbn [end_of].
  rewrite (end_of_fixed _ _ (values_fixed _)). cbn [adv].
  change (zlen (enc (IUInt32 _))) with 4. change (zlen (enc (IInt _))) with 4.
  cbn [enc]. rewrite zlen_enc_counted. fold (field_size (fieldName n)).
  replace (align8 (off + 4)) with (off + 8) by (unfold align8; lia).
  rewrite sum_of_concat. rewrite (sum_of_ext _ value_size).
  - unfold node_size. lia.
  - intros v. cbn [value_items sum_of foldr]. rewrite isize_String, isize_Int64. unfold value_size. lia.
Qed.

Lemma nodes_end t nodes : forall off, off mod 8 = 0 ->
  end_of t off (concat (node_items <$> nodes)) = off + sum_of node_size nodes.
Proof.
  induction nodes as [|n nodes IH]; intros off H8; cbn [fmap list_fmap concat sum_of foldr end_of]; [lia |].
  pose proof (node_size_mod8 n). rewrite end_of_app, node_end by done. rewrite IH by lia. unfold sum_of. lia.
Qed.

Lemma version1_fixed q : Forall fixed (version1_items q).
Proof.
  unfold version1_items. destruct (_ <=? _); [| constructor]. constructor; [done |].
  apply Forall_app. split; [destruct (isTableNameSpecified_ q); repeat constructor |].
  constructor; [done |]. apply Forall_fmap, Forall_true. done.
Qed.

Lemma query_no_blob q : Forall no_blob (query_items q).
Proof.
  unfold query_items. repeat (apply Forall_app; split).
  - by repeat constructor.
  - induction (queryObjNodes_ q) as [|n nodes IH]; cbn [fmap list_fmap concat]; [constructor |].
    apply Forall_app. split; [| done]. unfold node_items. repeat (apply Forall_cons; split; [done |]).
    apply fixed_no_blob, values_fixed.
  - apply fixed_no_blob, version1_fixed.
Qed.

Lemma sum_of_fmap {A B} (f : B -> Z) (g : A -> B) l : sum_of f (g <$> l) = sum_of (fun x => f (g x)) l.
Proof. induction l as [|x l IH]; [done |]. cbn [fmap list_fmap sum_of foldr]. unfold sum_of in *. by rewrite IH. Qed.

(** From an aligned place a query ends at an aligned place within the computed length. *)
Lemma query_end t off q : off mod 8 = 0 ->
  end_of t off (query_items q) <= off + query_size q /\ end_of t off (query_items q) mod 8 = 0.
Proof.
  intros H8. unfold query_items. rewrite !end_of_app.
  rewrite (end_of_fixed _ _ (version1_fixed q)). cbn [end_of adv enc].
  rewrite !zlen_enc_counted, !zlen_be_bytes.
  fold (field_size MAGIC) (field_size (prefixKey_ q)) (field_size (suggestIndex_ q)).
  change (field_size MAGIC) with 16. change (Z.of_nat 4) with 4.
  pose proof (field_size_mod8 (prefixKey_ q)). pose proof (field_size_mod8 (suggestIndex_ q)).
  set (o := off + 16 + 4 + field_size (prefixKey_ q) + field_size (suggestIndex_ q) + 4).
  assert (Ho : o mod 8 = 0) by (unfold o; lia).
  rewrite (align8_id o Ho), Z.sub_diag, Z.add_0_r. rewrite nodes_end by done.
  pose proof (sum_of_mod8 _ (queryObjNodes_ q) node_size_mod8). pose proof (sum_of_mod8 _ (keys_ q) field_size_mod8).
  pose proof (sum_of_nonneg _ (keys_ q) field_size_pos). pose proof (field_size_pos (tableName_ q)).
  pose proof (field_size_mod8 (tableName_ q)).
  unfold query_size. change (field_size MAGIC) with 16. unfold version1_items.
  destruct (_ <=? _).
  - destruct (isTableNameSpecified_ q); cbn [app sum_of foldr]; fold (sum_of isize (IVectorChar <$> keys_ q));
      rewrite sum_of_fmap, (sum_of_ext _ field_size) by (intros; apply isize_VectorChar);
      rewrite ?isize_UInt32, ?isize_String; unfold o; lia.
  - cbn [sum_of foldr]. destruct (isTableNameSpecified_ q); unfold o in *; lia.
Qed.

Lemma query_end_align t off q : off mod 8 = 0 ->
  end_of t off (query_items q ++ [IAlign]) = end_of t off (query_items q).
Proof.
  intros H8. rewrite end_of_app. cbn [end_of adv]. destruct (query_end t off q H8) as [_ E].
  rewrite align8_id by done. lia.
Qed.

(** * The identity *)

Section Identity.
Context `{Host} `{ValueHash}.

Record same_conditions (q q' : QuerySyncObject) : Prop := {
  sc_nodes : queryObjNodes_ q' = queryObjNodes_ q;
  sc_prefix : prefixKey_ q' = prefixKey_ q;
  sc_keys : keys_ q' = keys_ q;
  sc_valid : isValid_ q' = isValid_ q;
  sc_specified : isTableNameSpecified_ q' = isTableNameSpecified_ q;
  sc_table : isTableNameSpecified_ q = true -> tableName_ q' = tableName_ q
}.

Lemma identify_same q q' : same_conditions q q' -> GetIdentify q' = GetIdentify q.
Proof.
  intros [En Ep Ek Ev Es Et]. unfold GetIdentify. rewrite En, Ep, Ek, Ev, Es.
  destruct (isTableNameSpecified_ q); [by rewrite Et | done].
Qed.

Lemma attributes_keep nodes : forall q, let q' := fold_left node_attr nodes q in
  queryObjNodes_ q' = queryObjNodes_ q /\ prefixKey_ q' = prefixKey_ q /\ keys_ q' = keys_ q
  /\ isValid_ q' = isValid_ q /\ isTableNameSpecified_ q' = isTableNameSpecified_ q /\ tableName_ q' = tableName_ q.
Proof.
  induction nodes as [|n nodes IH]; intros q; [done |]. cbn [fold_left].
  destruct (IH (node_attr q n)) as (-> & -> & -> & -> & -> & ->). unfold node_attr.
  destruct (_ =? LIMIT); [by destruct (fieldValue n) as [|? [|? []]] |].
  destruct (_ =? ORDERBY); [done |]. destruct (_ =? PREFIXKEY_SYMBOL); [done |].
  by destruct (_ =? IN_KEYS_SYMBOL).
Qed.

Lemma received_same q : isValid_ q = true -> same_conditions q (received_query q).
Proof.
  intros Hv. unfold received_query, QuerySyncObject_of, GetAttrFromQueryObjNodes.
  match goal with |- context [fold_left node_attr ?l ?x] => destruct (attributes_keep l x) as (E1 & E2 & E3 & E4 & E5 & E6) end.
  destruct (isTableNameSpecified_ q) eqn:Es; constructor; unfold SetTableName;
    cbn [queryObjNodes_ prefixKey_ keys_ isValid_ isTableNameSpecified_ tableName_] in *; congruence.
Qed.

End Identity.

(** * Reading arbitrary bytes *)

Section Safety.
Context `{Host}.

Lemma stays_values size : forall acc, stays (read_values size acc).
Proof. induction size as [|size IH]; intros acc; cbn [read_values]; stays. Qed.

#[local] Hint Resolve stays_values : parcel.

Lemma stays_node n : stays (DeSerializeDataObjNode n).
Proof. unfold DeSerializeDataObjNode. stays. Qed.

#[local] Hint Resolve stays_node : parcel.

Lemma stays_nodes size : forall acc, stays (read_nodes size acc).
Proof. induction size as [|size IH]; intros acc; cbn [read_nodes]; stays. Qed.

Lemma stays_keys size : forall acc, stays (read_keys size acc).
Proof. induction size as [|size IH]; intros acc; cbn [read_keys]; stays. Qed.

#[local] Hint Resolve stays_nodes stays_keys : parcel.

Lemma stays_query x : stays (q_DeSerializeData x).
Proof. unfold q_DeSerializeData, DeSerializeVersion1Data. stays. Qed.

End Safety.

#[export] Hint Resolve stays_query : parcel.
