(* ===== verification/KvEntry.v ===== *)
(** Model of [GenericSingleVerKvEntry] (storage/src/generic_single_ver_kv_entry.cpp): the
    entries of a data packet in the format of the receiver's version, plain or compressed;
    with [DataCompression] and [ZlibCompression] (common/src/data_compression.cpp,
    zlib_compression.cpp). *)

From S2P Require Import Prelude Memory Parcel CommTypes SerialBuffer ProtocolProto SyncStorage CommitNotify QuerySync.
From Stdlib Require Import ZArith Lia.
From Stdlib Require Import Strings.Byte.
From stdpp Require Import base numbers list gmap.

Open Scope Z_scope.

Definition SOFTWARE_VERSION_RELEASE_2_0 : Z := 102.
Definition SOFTWARE_VERSION_RELEASE_4_0 : Z := 104.
Definition SOFTWARE_VERSION_RELEASE_6_0 : Z := 106.
Definition VERSION_INVALID : Z := INT32_MAX.

Definition E_UPGRADE_FAILED : Z := E_BASE + 61.
Definition E_INVALID_COMPRESS_ALGO : Z := E_BASE + 98.

(** A [SingleVerKvEntry *] and the item it points to. *)
Abbreviation SendDataItem := (option DataItem).

Inductive OperType := SERIALIZE | DESERIALIZE | CAL_LEN.

Section Entries.
Context `{Host} `{Heap}.

(** * One entry *)

Definition SerializeDataByFirstVersion (e : DataItem) : Run Z :=
  then_write (WriteVectorChar (key e)) $
  then_write (WriteVectorChar (value e)) $
  then_write (WriteUInt64 (timestamp e)) $
  then_write (WriteUInt64 (flag e)) $
  WriteString (origDev e).

(** [WriteVector] of bytes is [WriteVectorChar]. *)
Definition SerializeDataByLaterVersion (e : DataItem) (targetVersion : Z) : Run Z :=
  let time := if writeTimestamp e =? 0 then timestamp e else writeTimestamp e in
  then_write (WriteUInt64 time) $
  if SOFTWARE_VERSION_RELEASE_6_0 <=? targetVersion then WriteVectorChar (hashKey e) else mret E_OK.

Definition SerializeDataByVersion (e : DataItem) (targetVersion : Z) : Run Z :=
  errCode ← SerializeDataByFirstVersion e;
  if (targetVersion =? SOFTWARE_VERSION_EARLIEST) || negb (errCode =? E_OK) then mret errCode
  else SerializeDataByLaterVersion e targetVersion.

(** Read into [e]; the lengths are added up in a [uint64_t]. *)
Definition DeSerializeByFirstVersion (e : DataItem) (len : Z) : Run (Z * DataItem) :=
  '(l1, k) ← ReadVectorChar (key e);
  '(l2, v) ← ReadVectorChar (value e);
  '(l3, t) ← ReadUInt64 (timestamp e);
  '(l4, f) ← ReadUInt64 (flag e);
  '(l5, o) ← ReadString (origDev e);
  mret (u64 (len + l1 + l2 + l3 + l4 + l5), mkDataItem k v t f o t (dev e) (neglect e) (hashKey e)).

Definition DeSerializeByLaterVersion (e : DataItem) (len targetVersion : Z) : Run (Z * DataItem) :=
  '(l1, w) ← ReadUInt64 (writeTimestamp e);
  '(l2, h) ← (if SOFTWARE_VERSION_RELEASE_6_0 <=? targetVersion then ReadVectorChar (hashKey e)
              else mret (0, hashKey e));
  mret (u64 (len + l1 + l2),
        mkDataItem (key e) (value e) (timestamp e) (flag e) (origDev e) w (dev e) (neglect e) h).

Definition DeSerializeByVersion (e : DataItem) (targetVersion len : Z) : Run (Z * Z * DataItem) :=
  '(len, e) ← DeSerializeByFirstVersion e len;
  if targetVersion =? SOFTWARE_VERSION_EARLIEST then mret (E_OK, len, e)
  else '(len, e) ← DeSerializeByLaterVersion e len targetVersion; mret (E_OK, len, e).

Definition version_unsupported (targetVersion : Z) : bool :=
  (targetVersion <? SOFTWARE_VERSION_EARLIEST) || (SOFTWARE_VERSION_CURRENT <? targetVersion).

(** The status, [datalen] and the entry. *)
Definition AdaptToVersion (operType : OperType) (targetVersion : Z) (e : DataItem) (datalen : Z)
    : Run (Z * Z * DataItem) :=
  if version_unsupported targetVersion then mret (- E_VERSION_NOT_SUPPORT, datalen, e)
  else match operType with
       | SERIALIZE => errCode ← SerializeDataByVersion e targetVersion; mret (errCode, datalen, e)
       | DESERIALIZE => DeSerializeByVersion e targetVersion datalen
       | CAL_LEN => mret (- E_UPGRADE_FAILED, datalen, e)
       end.

Definition SerializeData (e : DataItem) (targetVersion : Z) : Run Z :=
  then_write (WriteUInt32 targetVersion) $
  '(errCode, _, _) ← AdaptToVersion SERIALIZE targetVersion e 0; mret errCode.

(** The result is an [int]. *)
Definition DeSerializeData (e : DataItem) : Run (Z * DataItem) :=
  '(len, version) ← ReadUInt32 VERSION_INVALID;
  failed ← IsError;
  if failed : bool then mret (0, e)
  else '(errCode, len, e) ← AdaptToVersion DESERIALIZE version e len;
       mret (if negb (errCode =? E_OK) then 0 else to_signed 32 (u32 len), e).

(** * The entries of a packet *)

Fixpoint write_entries (kvEntries : list SendDataItem) (targetVersion : Z) : Run Z :=
  match kvEntries with
  | [] => mret E_OK
  | None :: kvEntries => write_entries kvEntries targetVersion
  | Some kvEntry :: kvEntries =>
    then_write (SerializeData kvEntry targetVersion) (write_entries kvEntries targetVersion)
  end.

Definition SerializeDatas (kvEntries : list SendDataItem) (targetVersion : Z) : Run Z :=
  then_write (WriteUInt32 (u32 (zlen kvEntries))) $
  _ ← EightByteAlign; write_entries kvEntries targetVersion.

(** The loop of [DeSerializeDatas]: [size] rounds, which end with the length 0 when no
    entry can be created or the length is too large. *)
Fixpoint read_entries (size : nat) (len : Z) (kvEntries : list SendDataItem)
    : Run (Z * list SendDataItem) :=
  match size with
  | O => mret (len, kvEntries)
  | S size =>
    if negb heap_obj then mret (0, kvEntries)
    else
      '(l, kvEntry) ← DeSerializeData newDataItem;
      let len := u64 (len + l) in
      let kvEntries := kvEntries ++ [Some kvEntry] in
      if INT32_MAX <? len then mret (0, kvEntries) else read_entries size len kvEntries
  end.

Definition DeSerializeDatas (kvEntries : list SendDataItem) : Run (Z * list SendDataItem) :=
  '(l, size) ← ReadUInt32 0;
  _ ← EightByteAlign;
  '(len, kvEntries) ← read_entries (Z.to_nat size) (byte8_align 64 l) kvEntries;
  mret (to_signed 32 (u32 len), if len =? 0 then (fun _ => None) <$> kvEntries else kvEntries).

End Entries.

(** * Lengths *)

Definition CalLenByFirstVersion (e : DataItem) (len : Z) : Z :=
  u64 (len + GetUInt32Len + GetVectorCharLen (key e) + GetVectorCharLen (value e) + GetUInt64Len
       + GetUInt64Len + GetStringLen (origDev e)).

Definition CalLenByLaterVersion (e : DataItem) (len targetVersion : Z) : Z :=
  let len := u64 (len + GetUInt64Len) in
  if SOFTWARE_VERSION_RELEASE_6_0 <=? targetVersion then u64 (len + GetVectorCharLen (hashKey e)) else len.

Definition CalLenByVersion (e : DataItem) (targetVersion len : Z) : Z * Z :=
  let len := CalLenByFirstVersion e len in
  if targetVersion =? SOFTWARE_VERSION_EARLIEST then (E_OK, len)
  else (E_OK, CalLenByLaterVersion e len targetVersion).

(** The other [AdaptToVersion]. *)
Definition AdaptToVersion_len (operType : OperType) (targetVersion : Z) (e : DataItem) (datalen : Z) : Z * Z :=
  if version_unsupported targetVersion then (- E_VERSION_NOT_SUPPORT, datalen)
  else match operType with
       | CAL_LEN => CalLenByVersion e targetVersion datalen
       | _ => (- E_UPGRADE_FAILED, datalen)
       end.

Definition CalculateLen (e : DataItem) (targetVersion : Z) : Z :=
  let '(errCode, len) := AdaptToVersion_len CAL_LEN targetVersion e 0 in
  if (INT32_MAX <? len) || negb (errCode =? E_OK) then 0 else u32 len.

(** The loop of [CalculateLens]; [None] for the early [return 0]. *)
Fixpoint entries_len (len : Z) (kvEntries : list SendDataItem) (targetVersion : Z) : option Z :=
  match kvEntries with
  | [] => Some len
  | None :: kvEntries => entries_len len kvEntries targetVersion
  | Some kvEntry :: kvEntries =>
    let len := u64 (len + CalculateLen kvEntry targetVersion) in
    if INT32_MAX <? len then None else entries_len len kvEntries targetVersion
  end.

Definition CalculateLens (kvEntries : list SendDataItem) (targetVersion : Z) : Z :=
  match entries_len (byte8_align 64 GetUInt32Len) kvEntries targetVersion with
  | None => 0
  | Some len => u32 len
  end.

Definition CalculateCompressedLens (compressedData : list byte) : Z :=
  if bool_decide (compressedData = []) then 0
  else
    let len := u64 (GetUInt32Len + GetUInt32Len + GetVectorCharLen compressedData) in
    if INT32_MAX <? len then 0 else u32 len.

(** * Compression *)

(** An instance of [DataCompression]: the status and the destination. *)
Record DataCompression := mkDataCompression {
  dc_Compress : list byte -> list byte -> Z * list byte;
  dc_Uncompress : list byte -> list byte -> Z -> Z * list byte
}.

Definition NONE : Z := 0.
Definition ZLIB : Z := 1.

(** The two static maps of [DataCompression]. *)
Record CompressionMaps := mkCompressionMaps {
  compressionAlgos : gmap Z DataCompression;
  transferMap : gmap Z Z
}.

Definition no_compression : CompressionMaps := mkCompressionMaps ∅ ∅.

Definition GetInstance (c : CompressionMaps) (algo : Z) : option DataCompression := compressionAlgos c !! algo.

(** [std::map::insert] keeps an entry that exists. *)
Definition Register (c : CompressionMaps) (algo : Z) (compressionPtr : DataCompression) : CompressionMaps :=
  match GetInstance c algo with
  | Some _ => c
  | None => mkCompressionMaps (<[algo := compressionPtr]> (compressionAlgos c))
              (match transferMap c !! algo with
               | Some _ => transferMap c
               | None => <[algo := algo]> (transferMap c)
               end)
  end.

Definition GetCompressionAlgo (c : CompressionMaps) : gset Z := dom (compressionAlgos c).

Definition TransferCompressionAlgo (c : CompressionMaps) (compressAlgoType algoType : Z) : Z * Z :=
  match transferMap c !! compressAlgoType with
  | None => (- E_INVALID_ARGS, algoType)
  | Some algo => (E_OK, algo)
  end.

(** zlib. [compress dest source] is the status, the destination buffer after the call and
    [*destLen], which was its size before; likewise [uncompress]. *)
Class Zlib := {
  compressBound : Z -> Z;
  compress : list byte -> list byte -> Z * (list byte * Z);
  uncompress : list byte -> list byte -> Z * (list byte * Z)
}.

Definition Z_OK : Z := 0.

(** [std::vector::resize]. *)
Definition vector_resize (l : list byte) (n : Z) : list byte :=
  take (Z.to_nat n) l ++ replicate (Z.to_nat n - length l) x00.

Section Zlib.
Context `{Zlib}.

Definition zlib_Compress (srcData destData : list byte) : Z * list byte :=
  let srcLen := zlen srcData in
  let destLen := compressBound srcLen in
  if (MAX_SYNC_BLOCK_SIZE <? srcLen) || (MAX_SYNC_BLOCK_SIZE <? destLen) then (- E_INVALID_ARGS, destData)
  else
    let destData := vector_resize destData destLen in
    let '(errCode, (destData, destLen)) := compress destData srcData in
    if negb (errCode =? Z_OK) then (- E_SYSTEM_API_FAIL, destData) else (E_OK, vector_resize destData destLen).

Definition zlib_Uncompress (srcData destData : list byte) (destLen : Z) : Z * list byte :=
  let srcLen := zlen srcData in
  if (MAX_SYNC_BLOCK_SIZE <? srcLen) || (MAX_SYNC_BLOCK_SIZE <? destLen) then (- E_INVALID_ARGS, destData)
  else
    let destData := vector_resize destData destLen in
    let '(errCode, (destData, destDataLen)) := uncompress destData srcData in
    if negb (errCode =? Z_OK) then (- E_SYSTEM_API_FAIL, destData) else (E_OK, vector_resize destData destDataLen).

Definition zlib_instance : DataCompression := mkDataCompression zlib_Compress zlib_Uncompress.

(** What the static [g_zlibInstance] leaves. *)
Definition registered_compression : CompressionMaps := Register no_compression ZLIB zlib_instance.

End Zlib.

Section Compressed.
Context `{Host} `{Heap} `{Zlib}.

Record CompressInfo := mkCompressInfo {
  compressAlgo : Z;
  targetVersion : Z
}.

(** The status and the compressed data; [None] is undefined behaviour of the parcel. *)
Definition Compress (kvEntries : list SendDataItem) (destData : list byte) (compressInfo : CompressInfo)
    : option (Z * list byte) :=
  let srcLen := CalculateLens kvEntries (targetVersion compressInfo) in
  if srcLen =? 0 then Some (- E_INVALID_ARGS, destData)
  else
    '(errCode, p) ← SerializeDatas kvEntries (targetVersion compressInfo)
                      (newParcel (Some (replicate (Z.to_nat srcLen) x00)) srcLen);
    if negb (errCode =? E_OK) then Some (errCode, destData)
    else match GetInstance registered_compression (compressAlgo compressInfo) with
         | None => Some (- E_INVALID_COMPRESS_ALGO, destData)
         | Some inst => Some (dc_Compress inst (default [] (buf_ p)) destData)
         end.

Definition Uncompress (srcData : list byte) (kvEntries : list SendDataItem) (destLen algo : Z)
    : option (Z * list SendDataItem) :=
  let destData := replicate (Z.to_nat destLen) x00 in
  match GetInstance registered_compression algo with
  | None => Some (- E_INVALID_COMPRESS_ALGO, kvEntries)
  | Some inst =>
    let '(errCode, destData) := dc_Uncompress inst srcData destData destLen in
    if negb (errCode =? E_OK) then Some (errCode, kvEntries)
    else
      '((len, kvEntries), p) ← DeSerializeDatas kvEntries (newParcel (Some destData) (u32 (zlen destData)));
      Some (if len =? 0 then - E_PARSE_FAIL else E_OK, kvEntries)
  end.

Definition SerializeCompressedDatas (kvEntries : list SendDataItem) (compressedEntries : list byte)
    (targetVersion algo : Z) : Run Z :=
  let srcLen := CalculateLens kvEntries targetVersion in
  _ ← WriteUInt32 algo;
  _ ← WriteUInt32 srcLen;
  _ ← WriteVectorChar compressedEntries;
  unless_error (- E_PARSE_FAIL) (mret E_OK).

(** Work that does not touch the parcel. *)
Definition on_parcel {A} (r : option A) : Run A := fun p => a ← r; Some (a, p).

Definition DeSerializeCompressedDatas (kvEntries : list SendDataItem) : Run (Z * list SendDataItem) :=
  '(_, algoType) ← ReadUInt32 0;
  match TransferCompressionAlgo registered_compression algoType NONE with
  | (errCode, compressAlgo) =>
    if negb (errCode =? E_OK) then mret (errCode, kvEntries)
    else
      '(_, destLen) ← ReadUInt32 0;
      '(_, srcData) ← ReadVectorChar [];
      failed ← IsError;
      if failed : bool then mret (- E_PARSE_FAIL, kvEntries)
      else on_parcel (Uncompress srcData kvEntries destLen compressAlgo)
  end.

End Compressed.
