(* ===== verification/KvEntryFacts.v ===== *)
(** The entries of a data packet survive the wire, plain and compressed, in every version of
    the format, and their computed length is exact. *)

From S2P Require Import Prelude Memory Parcel ParcelFacts CommTypes SerialBuffer ProtocolProto SyncStorage CommitNotify.
From S2P Require Import QuerySync ParcelRuns QuerySyncFacts KvEntry.
From Stdlib Require Import ZArith Lia.
From Stdlib Require Import Strings.Byte.
From stdpp Require Import base numbers list gmap.

Open Scope Z_scope.

(** * One entry *)

Definition supported (v : Z) : Prop := SOFTWARE_VERSION_EARLIEST <= v <= SOFTWARE_VERSION_CURRENT.

Record entry_ok (e : DataItem) : Prop := {
  eo_timestamp : 0 <= timestamp e < 2 ^ 64;
  eo_flag : 0 <= flag e < 2 ^ 64;
  eo_write : 0 <= writeTimestamp e < 2 ^ 64
}.

(** What of an entry reaches a device of version [v]. *)
Definition wire_item (v : Z) (e : DataItem) : DataItem :=
  mkDataItem (key e) (value e) (timestamp e) (flag e) (origDev e)
    (if (v =? SOFTWARE_VERSION_EARLIEST) || (writeTimestamp e =? 0) then timestamp e else writeTimestamp e)
    [] false (if SOFTWARE_VERSION_RELEASE_6_0 <=? v then hashKey e else []).

Definition later_items (v : Z) (e : DataItem) : list Item :=
  if v =? SOFTWARE_VERSION_EARLIEST then []
  else IUInt64 (if writeTimestamp e =? 0 then timestamp e else writeTimestamp e)
       :: if SOFTWARE_VERSION_RELEASE_6_0 <=? v then [IVectorChar (hashKey e)] else [].

Definition entry_items (v : Z) (e : DataItem) : list Item :=
  [IUInt32 v; IVectorChar (key e); IVectorChar (value e); IUInt64 (timestamp e); IUInt64 (flag e);
   IString (origDev e)] ++ later_items v e.

Definition entry_size (v : Z) (e : DataItem) : Z :=
  4 + field_size (key e) + field_size (value e) + 16 + field_size (origDev e)
  + (if v =? SOFTWARE_VERSION_EARLIEST then 0
     else 8 + if SOFTWARE_VERSION_RELEASE_6_0 <=? v then field_size (hashKey e) else 0).

Lemma entry_fixed v e : Forall fixed (entry_items v e).
Proof.
  unfold entry_items, later_items. apply Forall_app. split; [by repeat constructor |].
  destruct (_ =? _); [constructor |]. constructor; [done |]. destruct (_ <=? _); by repeat constructor.
Qed.

Lemma entry_isize v e : sum_of isize (entry_items v e) = entry_size v e.
Proof.
  unfold entry_items, later_items, entry_size. rewrite sum_of_app.
  destruct (_ =? _); [| destruct (_ <=? _)]; cbn [sum_of foldr];
    rewrite ?isize_UInt32, ?isize_VectorChar, ?isize_UInt64, ?isize_String; lia.
Qed.

Lemma entry_size_pos v e : 0 <= entry_size v e.
Proof.
  pose proof (field_size_pos (key e)). pose proof (field_size_pos (value e)). pose proof (field_size_pos (origDev e)).
  pose proof (field_size_pos (hashKey e)). unfold entry_size. destruct (_ =? _); [| destruct (_ <=? _)]; lia.
Qed.

#[export] Hint Resolve entry_size_pos : parcel.

(** The parts of an entry that is small enough are; [hashKey] is only sent from 6.0 on. *)
Lemma entry_parts v e : supported v -> entry_size v e <= INT32_MAX ->
  field_size (key e) <= INT32_MAX /\ field_size (value e) <= INT32_MAX /\ field_size (origDev e) <= INT32_MAX
  /\ (SOFTWARE_VERSION_RELEASE_6_0 <= v -> field_size (hashKey e) <= INT32_MAX).
Proof.
  pose proof (field_size_pos (key e)). pose proof (field_size_pos (value e)). pose proof (field_size_pos (origDev e)).
  pose proof (field_size_pos (hashKey e)).
  unfold entry_size, supported, SOFTWARE_VERSION_EARLIEST, SOFTWARE_VERSION_CURRENT, SOFTWARE_VERSION_RELEASE_6_0, INT32_MAX.
  intros Hv. destruct (Z.eqb_spec v 101); [| destruct (Z.leb_spec 106 v)]; lia.
Qed.

Lemma in_range v : supported v -> version_unsupported v = false.
Proof.
  unfold supported, version_unsupported, SOFTWARE_VERSION_EARLIEST, SOFTWARE_VERSION_CURRENT. intros Hv.
  by rewrite !(proj2 (Z.ltb_ge _ _)) by lia.
Qed.

Lemma CalculateLen_eq v e : supported v -> entry_size v e <= INT32_MAX -> CalculateLen e v = entry_size v e.
Proof.
  intros Hv Hs. destruct (entry_parts v e Hv Hs) as (Hk & Hva & Ho & Hh). pose proof (entry_size_pos v e).
  unfold CalculateLen, AdaptToVersion_len. rewrite in_range by done.
  unfold CalLenByVersion, CalLenByFirstVersion, CalLenByLaterVersion.
  rewrite (proj1 (byte_len _ Hk)), (proj1 (byte_len _ Hva)), (proj2 (byte_len _ Ho)).
  change GetUInt32Len with 4. change GetUInt64Len with 8.
  pose proof (field_size_pos (key e)). pose proof (field_size_pos (value e)). pose proof (field_size_pos (origDev e)).
  pose proof (field_size_pos (hashKey e)). unfold entry_size in *. unfold INT32_MAX in *.
  destruct (v =? SOFTWARE_VERSION_EARLIEST).
  - rewrite (wrap_small 64) by lia. rewrite (proj2 (Z.ltb_ge _ _)) by lia. cbn [negb orb Z.eqb E_OK].
    rewrite (wrap_small 32); lia.
  - destruct (Z.leb_spec SOFTWARE_VERSION_RELEASE_6_0 v) as [H6 | H6].
    + rewrite (proj1 (byte_len _ (Hh H6))). no_wrap.
      rewrite (proj2 (Z.ltb_ge _ _)) by lia. cbn [negb orb Z.eqb E_OK]. lia.
    + no_wrap. rewrite (proj2 (Z.ltb_ge _ _)) by lia. cbn [negb orb Z.eqb E_OK]. lia.
Qed.

Section Wire.
Context `{Host} `{Heap}.

Lemma writes_entry v e : supported v -> entry_ok e -> entry_size v e <= INT32_MAX ->
  writes (SerializeData e v) (entry_items v e) E_OK.
Proof.
  intros Hv [Ht Hf Hw] Hs. destruct (entry_parts v e Hv Hs) as (Hk & Hva & Ho & Hh).
  assert (Hsmall : forall bs, field_size bs <= INT32_MAX -> zlen bs < 2 ^ 48) by (intros; by eapply small_bytes).
  assert (Wf : writes (SerializeDataByFirstVersion e)
    [IVectorChar (key e); IVectorChar (value e); IUInt64 (timestamp e); IUInt64 (flag e); IString (origDev e)] E_OK).
  { unfold SerializeDataByFirstVersion, then_write.
    apply (writes_step (IVectorChar _)); [by apply Hsmall |]. apply (writes_step (IVectorChar _)); [by apply Hsmall |].
    apply (writes_step (IUInt64 _)); [done |]. apply (writes_step (IUInt64 _)); [done |].
    apply (writes_item (IString _)). by apply Hsmall. }
  unfold SerializeData, entry_items, then_write, AdaptToVersion. cbn [app].
  apply (writes_step (IUInt32 _)).
  { unfold supported, SOFTWARE_VERSION_EARLIEST, SOFTWARE_VERSION_CURRENT in Hv. cbn. lia. }
  cbn [Z.eqb E_OK]. rewrite in_range by done.
  rewrite <- (app_nil_r (_ :: _ :: _)). apply (writes_bind _ _ _ _ (E_OK, 0, e)); [| apply writes_ret].
  rewrite <- (app_nil_r (_ :: _ :: _)). apply (writes_bind _ _ _ _ E_OK); [| apply writes_ret].
  unfold SerializeDataByVersion. eapply (writes_bind _ _ [_; _; _; _; _]); [exact Wf |].
  cbn [Z.eqb E_OK negb]. rewrite orb_false_r. unfold later_items, SerializeDataByLaterVersion, then_write.
  destruct (v =? SOFTWARE_VERSION_EARLIEST); [apply writes_ret |].
  apply (writes_step (IUInt64 _)); [by destruct (writeTimestamp e =? 0) |]. cbn [Z.eqb E_OK].
  destruct (Z.leb_spec SOFTWARE_VERSION_RELEASE_6_0 v) as [H6 | H6]; [| apply writes_ret].
  apply (writes_item (IVectorChar _)). by apply Hsmall, Hh.
Qed.

Lemma reads_entry v e : supported v -> entry_ok e -> entry_size v e <= INT32_MAX ->
  reads (DeSerializeData newDataItem) (entry_items v e) (fun _ => (entry_size v e, wire_item v e)).
Proof.
  intros Hv [Ht Hf Hw] Hs. destruct (entry_parts v e Hv Hs) as (Hk & Hva & Ho & Hh).
  assert (Hsmall : forall bs, field_size bs <= INT32_MAX -> zlen bs < 2 ^ 48) by (intros; by eapply small_bytes).
  pose proof (entry_size_pos v e) as Hpos.
  pose proof (field_size_pos (key e)). pose proof (field_size_pos (value e)). pose proof (field_size_pos (origDev e)).
  pose proof (field_size_pos (hashKey e)).
  unfold DeSerializeData, entry_items. cbn [app].
  eapply reads_step; [eapply (reads_size _ _ _ 4); [done | done |]; apply reads_UInt32 | intros ?; cbv beta iota].
  { unfold supported, SOFTWARE_VERSION_EARLIEST, SOFTWARE_VERSION_CURRENT in Hv. lia. }
  eapply reads_pure; [apply reads_IsError |]. cbv iota. unfold AdaptToVersion. rewrite in_range by done.
  rewrite <- (app_nil_r (_ :: _ :: _)).
  eapply (reads_bind _ _ _ _ (fun _ => (E_OK, entry_size v e, wire_item v e))).
  2: { intros ?. cbv beta iota. apply reads_ret. cbn [Z.eqb E_OK negb]. unfold INT32_MAX in Hs.
       f_equal. no_wrap. by rewrite to_signed_small by lia. }
  unfold DeSerializeByVersion.
  eapply (reads_bind _ _ [_; _; _; _; _] _
    (fun _ => (4 + field_size (key e) + field_size (value e) + 16 + field_size (origDev e),
               mkDataItem (key e) (value e) (timestamp e) (flag e) (origDev e) (timestamp e) [] false []))).
  { unfold DeSerializeByFirstVersion.
    eapply reads_step; [eapply (reads_size _ _ _ (field_size (key e))); [done | apply isize_VectorChar | by apply reads_VectorChar, Hsmall] | intros ?; cbv beta iota].
    eapply reads_step; [eapply (reads_size _ _ _ (field_size (value e))); [done | apply isize_VectorChar | by apply reads_VectorChar, Hsmall] | intros ?; cbv beta iota].
    eapply reads_step; [eapply (reads_size _ _ _ 8); [done | done | by apply reads_UInt64] | intros ?; cbv beta iota].
    eapply reads_step; [eapply (reads_size _ _ _ 8); [done | done | by apply reads_UInt64] | intros ?; cbv beta iota].
    eapply reads_step; [eapply (reads_size _ _ _ (field_size (origDev e))); [done | apply isize_String | by apply reads_String, Hsmall] | intros ?; cbv beta iota].
    apply reads_ret. unfold INT32_MAX in *. f_equal. no_wrap. lia. }
  intros ?. cbv beta iota. unfold later_items, wire_item, entry_size in *.
  destruct (v =? SOFTWARE_VERSION_EARLIEST) eqn:Ev.
  - apply reads_ret. apply Z.eqb_eq in Ev as ->. cbn [orb]. do 2 f_equal. lia.
  - rewrite <- (app_nil_r (_ :: _)). cbn [orb].
    set (w := if writeTimestamp e =? 0 then timestamp e else writeTimestamp e) in *.
    assert (Hw' : 0 <= w < 2 ^ 64) by (unfold w; by destruct (_ =? 0)).
    set (hs := if SOFTWARE_VERSION_RELEASE_6_0 <=? v then field_size (hashKey e) else 0) in *.
    assert (Hhs : 0 <= hs) by (unfold hs; destruct (_ <=? _); lia).
    set (hk := if SOFTWARE_VERSION_RELEASE_6_0 <=? v then hashKey e else []) in *.
    eapply (reads_bind _ _ _ _ (fun _ => (4 + field_size (key e) + field_size (value e) + 16 + field_size (origDev e) + (8 + hs),
               mkDataItem (key e) (value e) (timestamp e) (flag e) (origDev e) w [] false hk))).
    2: { intros ?. cbv beta iota. by apply reads_ret. }
    unfold DeSerializeByLaterVersion.
    eapply reads_step; [eapply (reads_size _ _ _ 8); [done | done | by apply reads_UInt64] | intros ?; cbv beta iota].
    rewrite <- (app_nil_r (if _ <=? _ then _ else _)).
    eapply (reads_bind _ _ _ _ (fun _ => (hs, hk))).
    2: { intros ?. cbv beta iota. apply reads_ret. unfold INT32_MAX in *. cbn [key value timestamp flag origDev dev neglect].
         f_equal. no_wrap. lia. }
    unfold hs, hk. destruct (Z.leb_spec SOFTWARE_VERSION_RELEASE_6_0 v) as [H6 | H6]; [| by apply reads_ret].
    apply reads_size; [done | apply isize_VectorChar |]. by apply reads_VectorChar, Hsmall, Hh.
Qed.

(** * All entries of a packet *)

Definition datas_items (v : Z) (es : list DataItem) : list Item :=
  IUInt32 (zlen es) :: IAlign :: concat (entry_items v <$> es).

Record entries_ok (v : Z) (es : list DataItem) : Prop := {
  so_version : supported v;
  so_entries : Forall entry_ok es;
  so_size : 8 + sum_of (entry_size v) es <= INT32_MAX
}.

Lemma entries_small v es : 8 + sum_of (entry_size v) es <= INT32_MAX ->
  Forall (fun e => entry_size v e <= INT32_MAX) es /\ 0 <= zlen es < 2 ^ 31.
Proof.
  intros Hs. pose proof (zlen_nonneg es). split.
  - apply Forall_forall. intros e He. pose proof (sum_of_elem _ _ _ (entry_size_pos v) He). lia.
  - assert (H8 : forall e, 8 <= entry_size v e).
    { intros e. pose proof (field_size_pos (key e)). pose proof (field_size_pos (value e)).
      pose proof (field_size_pos (origDev e)). pose proof (field_size_pos (hashKey e)).
      unfold entry_size. destruct (_ =? _); [| destruct (_ <=? _)]; lia. }
    pose proof (sum_of_length _ es H8). unfold INT32_MAX in *. lia.
Qed.

Lemma writes_entries v es : supported v -> Forall entry_ok es -> Forall (fun e => entry_size v e <= INT32_MAX) es ->
  writes (write_entries (Some <$> es) v) (concat (entry_items v <$> es)) E_OK.
Proof.
  intros Hv. induction 1 as [|e es He Hes IH]; intros Hs; cbn [fmap list_fmap write_entries concat]; [apply writes_ret |].
  apply Forall_cons in Hs as [Hs Hss]. apply writes_then; [by apply writes_entry | by apply IH].
Qed.

Lemma zlen_fmap {A B} (f : A -> B) l : zlen (f <$> l) = zlen l.
Proof. unfold zlen. by rewrite length_fmap. Qed.

Lemma writes_datas v es : entries_ok v es -> writes (SerializeDatas (Some <$> es) v) (datas_items v es) E_OK.
Proof.
  intros [Hv He Hs]. destruct (entries_small v es Hs) as [Hss Hz]. unfold SerializeDatas, datas_items, then_write.
  rewrite zlen_fmap, u32_small by lia. apply (writes_step (IUInt32 _)); [cbn; lia |]. cbn [Z.eqb E_OK].
  apply writes_align_step. by apply writes_entries.
Qed.

Lemma reads_entries v es : heap_obj = true -> supported v -> Forall entry_ok es ->
  Forall (fun e => entry_size v e <= INT32_MAX) es -> forall len acc,
  0 <= len -> len + sum_of (entry_size v) es <= INT32_MAX ->
  reads (read_entries (length es) len acc) (concat (entry_items v <$> es))
    (fun _ => (len + sum_of (entry_size v) es, acc ++ (Some <$> (wire_item v <$> es)))).
Proof.
  intros Hh Hv. induction 1 as [|e es He Hes IH]; intros Hs len acc Hl Hb;
    cbn [length read_entries fmap list_fmap concat sum_of foldr] in *.
  { apply reads_ret. rewrite app_nil_r. f_equal. lia. }
  apply Forall_cons in Hs as [Hs Hss]. rewrite Hh. cbn [negb].
  pose proof (entry_size_pos v e). pose proof (sum_of_nonneg _ es (entry_size_pos v)). unfold sum_of in *.
  eapply reads_bind; [by apply reads_entry |]. intros ?. cbv beta iota zeta. unfold INT32_MAX in *. no_wrap.
  rewrite (proj2 (Z.ltb_ge _ _)) by lia.
  rewrite (cons_middle (Some (wire_item v e)) acc (Some <$> (wire_item v <$> es))), (app_assoc acc).
  rewrite Z.add_assoc. apply IH; (done || lia).
Qed.

(** The entries and the bytes they take. *)
Lemma reads_datas v es : heap_obj = true -> entries_ok v es ->
  reads (DeSerializeDatas []) (datas_items v es)
    (fun _ => (8 + sum_of (entry_size v) es, Some <$> (wire_item v <$> es))).
Proof.
  intros Hh [Hv He Hs]. destruct (entries_small v es Hs) as [Hss Hz]. unfold DeSerializeDatas, datas_items.
  eapply reads_step; [eapply (reads_size _ _ _ 4); [done | done | apply reads_UInt32; lia] | intros ?; cbv beta iota].
  eapply reads_step; [apply reads_align | intros ?]. change (byte8_align 64 4) with 8. rewrite to_nat_zlen.
  rewrite <- (app_nil_r (concat _)). eapply reads_bind; [apply reads_entries; (done || lia) |].
  intros ?. cbv beta iota. pose proof (sum_of_nonneg _ es (entry_size_pos v)). unfold INT32_MAX in *.
  apply reads_ret. rewrite (proj2 (Z.eqb_neq _ _)) by lia. no_wrap. by rewrite to_signed_small by lia.
Qed.

Lemma entries_end t v es off : end_of t off (concat (entry_items v <$> es)) = off + sum_of (entry_size v) es.
Proof.
  rewrite end_of_fixed.
  - rewrite sum_of_concat. f_equal. apply sum_of_ext, entry_isize.
  - induction es as [|e es IH]; cbn [fmap list_fmap concat]; [constructor |]. apply Forall_app. split; [apply entry_fixed | done].
Qed.

Lemma datas_no_blob v es : Forall no_blob (datas_items v es).
Proof.
  unfold datas_items. do 2 (constructor; [done |]).
  induction es as [|e es IH]; cbn [fmap list_fmap concat]; [constructor |].
  apply Forall_app. split; [apply fixed_no_blob, entry_fixed | done].
Qed.

End Wire.

Lemma entries_len_eq v es : supported v -> Forall (fun e => entry_size v e <= INT32_MAX) es -> forall len,
  0 <= len -> len + sum_of (entry_size v) es <= INT32_MAX ->
  entries_len len (Some <$> es) v = Some (len + sum_of (entry_size v) es).
Proof.
  intros Hv. induction 1 as [|e es He Hes IH]; intros len Hl Hb; cbn [fmap list_fmap entries_len sum_of foldr] in *; [f_equal; lia |].
  pose proof (entry_size_pos v e). pose proof (sum_of_nonneg _ es (entry_size_pos v)). unfold sum_of, INT32_MAX in *.
  rewrite CalculateLen_eq by done. no_wrap. rewrite (proj2 (Z.ltb_ge _ _)) by lia. rewrite IH by lia. f_equal. lia.
Qed.

Lemma CalculateLens_eq v es : supported v -> 8 + sum_of (entry_size v) es <= INT32_MAX ->
  CalculateLens (Some <$> es) v = 8 + sum_of (entry_size v) es.
Proof.
  intros Hv Hs. destruct (entries_small v es Hs) as [Hss _]. pose proof (sum_of_nonneg _ es (entry_size_pos v)).
  unfold CalculateLens. change (byte8_align 64 GetUInt32Len) with 8. rewrite entries_len_eq by (done || lia).
  unfold INT32_MAX in *. by no_wrap.
Qed.

(** * Compression *)

(** The documented behaviour of zlib that the code relies on: what [compress] wrote is
    inside the buffer and not empty, and [uncompress] gives the source back in any buffer
    that holds it, and never reports more than the buffer holds. *)
Class ZlibLaws `{Zlib} : Prop := {
  bound_nonneg n : 0 <= n -> 0 <= compressBound n;
  compress_ok dest src d n : compress dest src = (Z_OK, (d, n)) ->
    0 < n <= zlen d /\ zlen d = zlen dest /\
    forall room, zlen src <= zlen room ->
      exists d', uncompress room (take (Z.to_nat n) d) = (Z_OK, (d', zlen src))
        /\ zlen d' = zlen room /\ take (Z.to_nat (zlen src)) d' = src;
  uncompress_bound room src e d n : uncompress room src = (e, (d, n)) -> 0 <= n <= zlen room
}.

Lemma resize_take l n : 0 <= n <= zlen l -> vector_resize l n = take (Z.to_nat n) l.
Proof.
  intros Hn. unfold vector_resize. unfold zlen in Hn.
  replace (Z.to_nat n - length l)%nat with 0%nat by lia. apply app_nil_r.
Qed.

Lemma zlen_resize_max l n : zlen (vector_resize l n) = Z.max 0 n.
Proof. unfold vector_resize, zlen. rewrite length_app, length_take, length_replicate. lia. Qed.

Lemma zlen_resize l n : 0 <= n -> zlen (vector_resize l n) = n.
Proof. rewrite zlen_resize_max. lia. Qed.

Section Compressed.
Context `{Host} `{Heap} `{ZlibLaws}.

(** What zlib made of some bytes gives them back, and is not too long for a packet. *)
Lemma zlib_roundtrip src dest out : zlib_Compress src dest = (E_OK, out) ->
  0 < zlen out <= MAX_SYNC_BLOCK_SIZE
  /\ forall room, zlib_Uncompress out room (zlen src) = (E_OK, src).
Proof.
  unfold zlib_Compress. destruct (_ || _) eqn:Hmax; [done |]. apply orb_false_elim in Hmax as [Hs Hd].
  apply Z.ltb_ge in Hs, Hd. pose proof (bound_nonneg (zlen src) (zlen_nonneg src)) as Hb.
  destruct (compress _ _) as [e [d n]] eqn:Ec. destruct (Z.eqb_spec e Z_OK) as [-> |]; [| done]. cbn [negb].
  destruct (compress_ok _ _ _ _ Ec) as (Hn & Hz & Hu). rewrite zlen_resize in Hz by done. intros [= <-].
  rewrite zlen_resize by lia. split; [lia |]. intros room. unfold zlib_Uncompress.
  rewrite zlen_resize, !(proj2 (Z.ltb_ge _ _)) by lia. cbn [orb]. rewrite (resize_take d n) by lia.
  destruct (Hu (vector_resize room (zlen src))) as (d' & -> & Hd' & Ht); [rewrite zlen_resize by apply zlen_nonneg; lia |].
  cbn [Z.eqb Z_OK negb]. rewrite zlen_resize in Hd' by apply zlen_nonneg. pose proof (zlen_nonneg src).
  rewrite resize_take by lia. by rewrite Ht.
Qed.

Lemma zlib_registered : GetInstance registered_compression ZLIB = Some zlib_instance
  /\ TransferCompressionAlgo registered_compression ZLIB NONE = (E_OK, ZLIB)
  /\ forall algo, algo <> ZLIB -> GetInstance registered_compression algo = None.
Proof.
  split; [reflexivity |]. split; [reflexivity |]. intros algo Ha.
  unfold registered_compression, Register, GetInstance, no_compression. cbn [compressionAlgos].
  rewrite lookup_empty. cbn [compressionAlgos]. rewrite lookup_insert_ne by congruence. apply lookup_empty.
Qed.

(** A parcel of exactly the computed length holds the entries. *)
Lemma serialize_datas_run v es : entries_ok v es -> let n := 8 + sum_of (entry_size v) es in
  exists m, SerializeDatas (Some <$> es) v (newParcel (Some (replicate (Z.to_nat n) x00)) n) = Some (E_OK, cursor m n)
    /\ zlen m = n /\ laid_out n 0 (datas_items v es) m.
Proof.
  intros He n. pose proof He as [Hv Hes Hs]. pose proof (sum_of_nonneg _ es (entry_size_pos v)) as Hp.
  destruct (writes_datas v es He) as [_ W].
  assert (Hz : zlen (replicate (Z.to_nat n) x00) = n) by (apply zlen_replicate; unfold n; lia).
  assert (Hend : end_of n 0 (datas_items v es) = n).
  { unfold datas_items. cbn [end_of]. rewrite entries_end. change (adv n 0 (IUInt32 (zlen es))) with 4.
    change (adv n (0 + 4) IAlign) with 4. unfold n. lia. }
  destruct (W (replicate (Z.to_nat n) x00) 0) as (m & E & Hm & Hl & _).
  - rewrite Hz. unfold n, INT32_MAX in *. lia.
  - apply reach_start.
  - apply all_fit_end; [apply datas_no_blob |]. rewrite Hz, Hend. lia.
  - rewrite Hz, Hend in *. exists m. split_and!; try done.
    by rewrite new_cursor_of by (done || (unfold n; lia)).
Qed.

(** Compressed entries are restored. *)
Lemma compress_roundtrip v es dest info out : entries_ok v es -> targetVersion info = v ->
  Compress (Some <$> es) dest info = Some (E_OK, out) ->
  compressAlgo info = ZLIB /\ 0 < zlen out <= MAX_SYNC_BLOCK_SIZE
  /\ (heap_obj = true ->
      Uncompress out [] (8 + sum_of (entry_size v) es) ZLIB = Some (E_OK, Some <$> (wire_item v <$> es))).
Proof.
  intros He <- Hc. pose proof He as [Hv Hes Hs].
  pose proof (sum_of_nonneg _ es (entry_size_pos (targetVersion info))) as Hp.
  unfold Compress in Hc. rewrite CalculateLens_eq in Hc by done. rewrite (proj2 (Z.eqb_neq _ _)) in Hc by lia.
  destruct (serialize_datas_run _ es He) as (m & E & Hz & Hl).
  rewrite E in Hc. cbn [mbind option_bind Z.eqb E_OK negb buf_ cursor default] in Hc.
  destruct zlib_registered as (Hi & _ & Hother).
  destruct (Z.eq_dec (compressAlgo info) ZLIB) as [Ea | Ea]; [| rewrite Hother in Hc by done; done].
  rewrite Ea, Hi in Hc. injection Hc as Hc. cbn [dc_Compress zlib_instance] in Hc.
  destruct (zlib_roundtrip _ _ _ Hc) as [Hout Hback]. split; [done |]. split; [done |].
  intros Hh. unfold Uncompress. rewrite Hi. cbn [dc_Uncompress zlib_instance]. change (from_option id [] (Some m)) with m in Hback.
  rewrite Hz in Hback. rewrite Hback. cbn [Z.eqb E_OK negb]. unfold INT32_MAX in Hs.
  rewrite Hz, u32_small by lia. rewrite new_cursor_of by (done || lia).
  destruct (reads_datas _ es Hh He) as [_ R]. rewrite (R m 0).
  - cbn [mbind option_bind]. by rewrite (proj2 (Z.eqb_neq _ _)) by lia.
  - rewrite Hz. unfold INT32_MAX. lia.
  - apply reach_start.
  - by rewrite Hz.
Qed.

End Compressed.

(** * Reading arbitrary bytes *)

Section Safety.
Context `{Host} `{Heap} `{ZlibLaws}.

Lemma stays_entry e : stays (DeSerializeData e).
Proof. unfold DeSerializeData, AdaptToVersion, DeSerializeByVersion, DeSerializeByFirstVersion, DeSerializeByLaterVersion. stays. Qed.

#[local] Hint Resolve stays_entry : parcel.

Lemma stays_entries size : forall len acc, stays (read_entries size len acc).
Proof. induction size as [|size IH]; intros len acc; cbn [read_entries]; stays. Qed.

#[local] Hint Resolve stays_entries : parcel.

Lemma stays_datas es : stays (DeSerializeDatas es).
Proof. unfold DeSerializeDatas. stays. Qed.

Lemma Uncompress_defined src es destLen algo : is_Some (Uncompress src es destLen algo).
Proof.
  unfold Uncompress. destruct zlib_registered as (Hi & _ & Hother).
  destruct (Z.eq_dec algo ZLIB) as [-> | Ha]; [| rewrite Hother by done; done]. rewrite Hi. cbn [dc_Uncompress zlib_instance].
  unfold zlib_Uncompress. destruct (_ || _) eqn:Hmax; [done |]. apply orb_false_elim in Hmax as [_ Hmax].
  apply Z.ltb_ge in Hmax. destruct (uncompress _ _) as [e [d n]] eqn:Eu. apply uncompress_bound in Eu.
  rewrite zlen_resize_max in Eu. destruct (negb _); [done |]. cbn [Z.eqb E_OK negb]. unfold MAX_SYNC_BLOCK_SIZE in *.
  assert (Hz : zlen (vector_resize d n) = n) by (apply zlen_resize; lia).
  rewrite u32_small by lia.
  destruct (stays_datas es _ _ (new_wf (vector_resize d n) ltac:(lia))) as ([len es'] & q & -> & _). done.
Qed.

Lemma stays_compressed es : stays (DeSerializeCompressedDatas es).
Proof.
  unfold DeSerializeCompressedDatas. stays. unfold on_parcel. intros m p Hp.
  match goal with |- context [Uncompress ?s ?e ?d ?a] => destruct (Uncompress_defined s e d a) as [r ->] end. by exists r, p.
Qed.

(** The number of entries is taken from the wire as it is: a reader that is already in error
    creates as many entries as the number says. *)
Lemma entry_count_unchecked size : heap_obj = true -> forall len acc p, isError_ p = true -> 0 <= len <= INT32_MAX ->
  read_entries size len acc p = Some ((len, acc ++ replicate size (Some newDataItem)), p).
Proof.
  intros Hh. induction size as [|size IH]; intros len acc p He Hl; cbn [read_entries replicate].
  { by rewrite app_nil_r. }
  rewrite Hh. cbn [negb].
  assert (E : DeSerializeData newDataItem p = Some ((0, newDataItem), p)).
  { unfold DeSerializeData, ReadUInt32, ReadInteger, mbind, run_bind. rewrite He. cbn. unfold IsError. by rewrite He. }
  rewrite (run_bind_eq _ _ _ _ _ E). cbv beta iota zeta. rewrite Z.add_0_r. unfold INT32_MAX in *.
  rewrite (wrap_small 64), (proj2 (Z.ltb_ge _ _)) by lia. rewrite IH by (done || lia).
  by rewrite <- app_assoc.
Qed.

End Safety.

#[export] Hint Resolve stays_datas stays_compressed : parcel.
