(* ===== verification/SyncPacket.v ===== *)
(** Model of the packets of the data synchronization (syncer/src/single_ver_data_packet.cpp)
    and of [SingleVerSerializeManager] (syncer/src/single_ver_serialize_manager.cpp), which
    turns them into bytes and back. *)

From S2P Require Import Prelude Memory SerialBuffer Parcel CommTypes ProtocolProto AppMessage SyncStorage CommitNotify.
From S2P Require Import QuerySync KvEntry.
From Stdlib Require Import ZArith Lia.
From Stdlib Require Import Strings.Byte.
From stdpp Require Import base numbers list gmap.

Open Scope Z_scope.

Definition DATA_SYNC_MESSAGE : Z := 2.
Definition QUERY_SYNC_MESSAGE : Z := 8.
Definition CONTROL_SYNC_MESSAGE : Z := 9.

Definition QUERY_PUSH : Z := 6.
Definition INVALID_MODE : Z := 12.

Definition SUBSCRIBE_QUERY_CMD : Z := 0.
Definition UNSUBSCRIBE_QUERY_CMD : Z := 1.
Definition INVALID_CONTROL_CMD : Z := 2.

Definition MAX_PACKETID : Z := 10000000000.
Definition E_MESSAGE_ID_ERROR : Z := E_BASE + 30.
Definition E_MESSAGE_TYPE_ERROR : Z := E_BASE + 31.

(** * Packets *)

Record DataRequestPacket := mkDataRequest {
  rq_data : list SendDataItem;
  rq_endWaterMark : Z;
  rq_localWaterMark : Z;
  rq_peerWaterMark : Z;
  rq_sendCode : Z;
  rq_mode : Z;
  rq_sessionId : Z;
  rq_version : Z;
  rq_reserved : list Z;
  rq_flag : Z;
  rq_query : QuerySyncObject;
  rq_queryId : list byte;
  rq_deletedWatermark : Z;
  rq_compressData : list byte;
  rq_algo : Z
}.

Definition newDataRequest : DataRequestPacket :=
  mkDataRequest [] 0 0 0 0 INVALID_MODE 0 SOFTWARE_VERSION_CURRENT [] 0 newQuerySyncObject [] 0 [] NONE.

Definition IS_LAST_SEQUENCE : Z := 1.
Definition IS_UPDATE_WATER : Z := 2.
Definition IS_COMPRESS_DATA : Z := 4.

Section Setters.
Variable p : DataRequestPacket.

Definition SetData (data : list SendDataItem) : DataRequestPacket :=
  mkDataRequest data (rq_endWaterMark p) (rq_localWaterMark p) (rq_peerWaterMark p) (rq_sendCode p) (rq_mode p)
    (rq_sessionId p) (rq_version p) (rq_reserved p) (rq_flag p) (rq_query p) (rq_queryId p)
    (rq_deletedWatermark p) (rq_compressData p) (rq_algo p).
Definition SetCompressData (compressData : list byte) : DataRequestPacket :=
  mkDataRequest (rq_data p) (rq_endWaterMark p) (rq_localWaterMark p) (rq_peerWaterMark p) (rq_sendCode p) (rq_mode p)
    (rq_sessionId p) (rq_version p) (rq_reserved p) (rq_flag p) (rq_query p) (rq_queryId p)
    (rq_deletedWatermark p) compressData (rq_algo p).
Definition SetEndWaterMark (waterMark : Z) : DataRequestPacket :=
  mkDataRequest (rq_data p) waterMark (rq_localWaterMark p) (rq_peerWaterMark p) (rq_sendCode p) (rq_mode p)
    (rq_sessionId p) (rq_version p) (rq_reserved p) (rq_flag p) (rq_query p) (rq_queryId p)
    (rq_deletedWatermark p) (rq_compressData p) (rq_algo p).
(** [SetLocalWaterMark], [SetPeerWaterMark] and [SetDeletedWaterMark] in one call. *)
Definition SetWaterMark (localMark peerMark deletedWatermark : Z) : DataRequestPacket :=
  mkDataRequest (rq_data p) (rq_endWaterMark p) localMark peerMark (rq_sendCode p) (rq_mode p)
    (rq_sessionId p) (rq_version p) (rq_reserved p) (rq_flag p) (rq_query p) (rq_queryId p)
    deletedWatermark (rq_compressData p) (rq_algo p).
(** [SetSendCode], [SetVersion] and [SetMode]. *)
Definition SetBasicInfo (sendCode version mode : Z) : DataRequestPacket :=
  mkDataRequest (rq_data p) (rq_endWaterMark p) (rq_localWaterMark p) (rq_peerWaterMark p) sendCode mode
    (rq_sessionId p) version (rq_reserved p) (rq_flag p) (rq_query p) (rq_queryId p)
    (rq_deletedWatermark p) (rq_compressData p) (rq_algo p).
Definition SetSessionId (sessionId : Z) : DataRequestPacket :=
  mkDataRequest (rq_data p) (rq_endWaterMark p) (rq_localWaterMark p) (rq_peerWaterMark p) (rq_sendCode p) (rq_mode p)
    sessionId (rq_version p) (rq_reserved p) (rq_flag p) (rq_query p) (rq_queryId p)
    (rq_deletedWatermark p) (rq_compressData p) (rq_algo p).
Definition SetReserved (reserved : list Z) : DataRequestPacket :=
  mkDataRequest (rq_data p) (rq_endWaterMark p) (rq_localWaterMark p) (rq_peerWaterMark p) (rq_sendCode p) (rq_mode p)
    (rq_sessionId p) (rq_version p) reserved (rq_flag p) (rq_query p) (rq_queryId p)
    (rq_deletedWatermark p) (rq_compressData p) (rq_algo p).
Definition SetFlag (flag : Z) : DataRequestPacket :=
  mkDataRequest (rq_data p) (rq_endWaterMark p) (rq_localWaterMark p) (rq_peerWaterMark p) (rq_sendCode p) (rq_mode p)
    (rq_sessionId p) (rq_version p) (rq_reserved p) flag (rq_query p) (rq_queryId p)
    (rq_deletedWatermark p) (rq_compressData p) (rq_algo p).
Definition SetQuery (query : QuerySyncObject) : DataRequestPacket :=
  mkDataRequest (rq_data p) (rq_endWaterMark p) (rq_localWaterMark p) (rq_peerWaterMark p) (rq_sendCode p) (rq_mode p)
    (rq_sessionId p) (rq_version p) (rq_reserved p) (rq_flag p) query (rq_queryId p)
    (rq_deletedWatermark p) (rq_compressData p) (rq_algo p).
Definition SetQueryId (queryId : list byte) : DataRequestPacket :=
  mkDataRequest (rq_data p) (rq_endWaterMark p) (rq_localWaterMark p) (rq_peerWaterMark p) (rq_sendCode p) (rq_mode p)
    (rq_sessionId p) (rq_version p) (rq_reserved p) (rq_flag p) (rq_query p) queryId
    (rq_deletedWatermark p) (rq_compressData p) (rq_algo p).
Definition SetCompressAlgo (algo : Z) : DataRequestPacket :=
  mkDataRequest (rq_data p) (rq_endWaterMark p) (rq_localWaterMark p) (rq_peerWaterMark p) (rq_sendCode p) (rq_mode p)
    (rq_sessionId p) (rq_version p) (rq_reserved p) (rq_flag p) (rq_query p) (rq_queryId p)
    (rq_deletedWatermark p) (rq_compressData p) algo.
End Setters.

Definition IsLastSequence (p : DataRequestPacket) : bool := Z.land (rq_flag p) IS_LAST_SEQUENCE =? IS_LAST_SEQUENCE.
Definition SetLastSequence (p : DataRequestPacket) : DataRequestPacket :=
  SetFlag p (Z.lor (rq_flag p) IS_LAST_SEQUENCE).
Definition IsNeedUpdateWaterMark (p : DataRequestPacket) : bool :=
  negb (Z.land (rq_flag p) IS_UPDATE_WATER =? IS_UPDATE_WATER).
Definition SetUpdateWaterMark (p : DataRequestPacket) : DataRequestPacket :=
  SetFlag p (Z.lor (rq_flag p) IS_UPDATE_WATER).
Definition IsCompressData (p : DataRequestPacket) : bool := Z.land (rq_flag p) IS_COMPRESS_DATA =? IS_COMPRESS_DATA.
Definition SetCompressDataMark (p : DataRequestPacket) : DataRequestPacket :=
  SetFlag p (Z.lor (rq_flag p) IS_COMPRESS_DATA).

Definition rq_GetPacketId (p : DataRequestPacket) : Z := default 0 (rq_reserved p !! 0%nat).

(** The entries that are sent as they are. *)
Definition plain_data (p : DataRequestPacket) : list SendDataItem := if IsCompressData p then [] else rq_data p.

Definition rq_CalculateLen (p : DataRequestPacket) (messageId : Z) : Z :=
  let totalLen := CalculateLens (plain_data p) (rq_version p) in
  let totalLen := u64 (totalLen + GetUInt64Len + GetUInt64Len + GetUInt64Len + GetIntLen + GetIntLen
                       + GetUInt32Len + GetUInt32Len + GetVectorLen 8 (rq_reserved p)) in
  let totalLen := if SOFTWARE_VERSION_RELEASE_2_0 <? rq_version p then u64 (totalLen + GetUInt32Len) else totalLen in
  let totalLen := GetEightByteAlign (u32 totalLen) in
  if INT32_MAX <? totalLen then 0
  else
    let totalLen :=
      if messageId =? QUERY_SYNC_MESSAGE then
        u64 (totalLen + GetUInt64Len + GetStringLen (rq_queryId p)
             + CalculateParcelLen (rq_query p) SOFTWARE_VERSION_CURRENT)
      else totalLen in
    let totalLen := if IsCompressData p then u64 (totalLen + CalculateCompressedLens (rq_compressData p))
                    else totalLen in
    if INT32_MAX <? totalLen then 0 else u32 totalLen.

Record DataAckPacket := mkDataAck {
  ak_data : Z;
  ak_recvCode : Z;
  ak_version : Z;
  ak_reserved : list Z
}.

Definition newDataAck : DataAckPacket := mkDataAck 0 0 SOFTWARE_VERSION_CURRENT [].

(** A packet id above the limit is a water mark of a device that sends no packet id. *)
Definition ak_GetPacketId (p : DataAckPacket) : Z :=
  let packetId := default 0 (ak_reserved p !! 1%nat) in
  if MAX_PACKETID <? packetId then 0 else packetId.

Definition IsPacketIdValid (packetId : Z) : bool := 0 <? packetId.

Definition ak_CalculateLen (p : DataAckPacket) : Z :=
  let len := GetEightByteAlign (u32 (u64 (GetUInt64Len + GetIntLen + GetUInt32Len + GetVectorLen 8 (ak_reserved p)))) in
  if INT32_MAX <? len then 0 else u32 len.

Record ControlRequestPacket := mkControlRequest {
  cr_version : Z;
  cr_sendCode : Z;
  cr_controlCmdType : Z;
  cr_flag : Z
}.

Definition newControlRequest : ControlRequestPacket := mkControlRequest SOFTWARE_VERSION_CURRENT 0 0 0.

Definition cr_SetPacketHead (sendCode version controlCmd flag : Z) : ControlRequestPacket :=
  mkControlRequest version sendCode (u32 controlCmd) flag.

Definition cr_CalculateLen : Z :=
  let len := GetEightByteAlign (u32 (u64 (GetUInt32Len + GetIntLen + GetUInt32Len + GetUInt32Len))) in
  if INT32_MAX <? len then 0 else u32 len.

(** A [ControlRequestPacket] with a query. *)
Record SubscribeRequest := mkSubscribe {
  sr_control : ControlRequestPacket;
  sr_query : QuerySyncObject
}.

Definition IS_AUTO_SUBSCRIBE : Z := 1.
Definition IsAutoSubscribe (p : SubscribeRequest) : bool :=
  Z.land (cr_flag (sr_control p)) IS_AUTO_SUBSCRIBE =? IS_AUTO_SUBSCRIBE.

Definition sr_CalculateLen (p : SubscribeRequest) : Z :=
  let totalLen := cr_CalculateLen in
  if totalLen =? 0 then 0
  else
    let totalLen := u64 (totalLen + CalculateParcelLen (sr_query p) SOFTWARE_VERSION_CURRENT) in
    if INT32_MAX <? totalLen then 0 else u32 totalLen.

Record ControlAckPacket := mkControlAck {
  ca_version : Z;
  ca_recvCode : Z;
  ca_controlCmdType : Z;
  ca_flag : Z
}.

Definition ca_SetPacketHead (recvCode version controlCmd flag : Z) : ControlAckPacket :=
  mkControlAck version recvCode (u32 controlCmd) flag.

Definition ca_CalculateLen : Z :=
  let len := GetEightByteAlign (u32 (u64 (GetUInt32Len + GetIntLen + GetUInt32Len + GetUInt32Len))) in
  if INT32_MAX <? len then 0 else u32 len.

(** * The objects of the messages *)

Inductive SyncObject :=
  | ODataRequest (p : DataRequestPacket)
  | ODataAck (p : DataAckPacket)
  | OControlRequest (p : ControlRequestPacket)
  | OSubscribe (p : SubscribeRequest)
  | OControlAck (p : ControlAckPacket).

Abbreviation SyncMessage := (Message SyncObject).

(** [GetObject<T>]: no object is the null pointer, [None] an object of another type, which
    the code would read as a [T]. *)
Definition GetDataRequest (m : SyncMessage) : option (option DataRequestPacket) :=
  match holderPtr_ m with None => Some None | Some (ODataRequest p) => Some (Some p) | Some _ => None end.
Definition GetDataAck (m : SyncMessage) : option (option DataAckPacket) :=
  match holderPtr_ m with None => Some None | Some (ODataAck p) => Some (Some p) | Some _ => None end.
(** A [SubscribeRequest] begins with its [ControlRequestPacket]. *)
Definition GetControlRequest (m : SyncMessage) : option (option ControlRequestPacket) :=
  match holderPtr_ m with
  | None => Some None
  | Some (OControlRequest p) => Some (Some p)
  | Some (OSubscribe p) => Some (Some (sr_control p))
  | Some _ => None
  end.
Definition GetSubscribe (m : SyncMessage) : option (option SubscribeRequest) :=
  match holderPtr_ m with None => Some None | Some (OSubscribe p) => Some (Some p) | Some _ => None end.
Definition GetControlAck (m : SyncMessage) : option (option ControlAckPacket) :=
  match holderPtr_ m with None => Some None | Some (OControlAck p) => Some (Some p) | Some _ => None end.

(** * SingleVerSerializeManager *)

Section Manager.
Context `{Host} `{Heap} `{Zlib}.

(** A writer on a new parcel over [buffer]: the status and the memory after it. *)
Definition on_buffer (buffer : list byte) (length : Z) (r : Run Z) : option (Z * list byte) :=
  '(errCode, p) ← r (newParcel (Some buffer) length);
  Some (errCode, default buffer (buf_ p)).

Definition query_is_sent (packet : DataRequestPacket) : bool :=
  (SOFTWARE_VERSION_RELEASE_4_0 <? rq_version packet) || negb (rq_mode packet =? QUERY_PUSH).

Definition DataPacketSyncerPartSerialization (packet : DataRequestPacket) : Run Z :=
  _ ← WriteUInt64 (rq_endWaterMark packet);
  _ ← WriteUInt64 (rq_localWaterMark packet);
  _ ← WriteUInt64 (rq_peerWaterMark packet);
  _ ← WriteInt (rq_sendCode packet);
  _ ← WriteInt (rq_mode packet);
  _ ← WriteUInt32 (rq_sessionId packet);
  _ ← WriteVector 8 (rq_reserved packet);
  unless_error (- E_PARSE_FAIL) $
  if SOFTWARE_VERSION_RELEASE_2_0 <? rq_version packet then
    _ ← WriteUInt32 (rq_flag packet);
    unless_error (- E_PARSE_FAIL) (_ ← EightByteAlign; mret E_OK)
  else _ ← EightByteAlign; mret E_OK.

Definition DataPacketQuerySyncSerialization (packet : DataRequestPacket) : Run Z :=
  then_write (WriteUInt64 (rq_deletedWatermark packet)) $
  then_write (WriteString (rq_queryId packet)) $
  if query_is_sent packet then q_SerializeData (rq_query packet) SOFTWARE_VERSION_CURRENT else mret E_OK.

Definition write_data_packet (packet : DataRequestPacket) (messageId : Z) : Run Z :=
  then_write (WriteUInt32 (rq_version packet)) $
  then_write (SerializeDatas (plain_data packet) (rq_version packet)) $
  then_write (DataPacketSyncerPartSerialization packet) $
  then_write (if messageId =? QUERY_SYNC_MESSAGE then DataPacketQuerySyncSerialization packet else mret E_OK) $
  if IsCompressData packet then
    SerializeCompressedDatas (rq_data packet) (rq_compressData packet) (rq_version packet) (rq_algo packet)
  else mret E_OK.

Definition DataPacketSerialization (buffer : list byte) (length : Z) (inMsg : SyncMessage) : option (Z * list byte) :=
  packet ← GetDataRequest inMsg;
  match packet with
  | None => Some (- E_INVALID_ARGS, buffer)
  | Some packet => on_buffer buffer length (write_data_packet packet (messageId_ inMsg))
  end.

Definition AckPacketSyncerPartSerializationV1 (packet : DataAckPacket) : Run Z :=
  _ ← WriteUInt64 (ak_data packet);
  _ ← WriteInt (ak_recvCode packet);
  _ ← WriteVector 8 (ak_reserved packet);
  unless_error (- E_PARSE_FAIL) (_ ← EightByteAlign; mret E_OK).

Definition AckPacketSerialization (buffer : list byte) (length : Z) (inMsg : SyncMessage) : option (Z * list byte) :=
  packet ← GetDataAck inMsg;
  match packet with
  | None => Some (- E_INVALID_ARGS, buffer)
  | Some packet => on_buffer buffer length $
      _ ← WriteUInt32 (ak_version packet);
      unless_error (- E_PARSE_FAIL) (AckPacketSyncerPartSerializationV1 packet)
  end.

Definition ControlRequestSerialization (packet : ControlRequestPacket) : Run Z :=
  _ ← WriteUInt32 (cr_version packet);
  _ ← WriteInt (cr_sendCode packet);
  _ ← WriteUInt32 (cr_controlCmdType packet);
  _ ← WriteUInt32 (cr_flag packet);
  unless_error (- E_INVALID_ARGS) (_ ← EightByteAlign; mret E_OK).

Definition SubscribeSerialization (buffer : list byte) (length : Z) (inMsg : SyncMessage) : option (Z * list byte) :=
  packet ← GetSubscribe inMsg;
  match packet with
  | None => Some (- E_INVALID_ARGS, buffer)
  | Some packet => on_buffer buffer length $
      then_write (ControlRequestSerialization (sr_control packet)) $
      q_SerializeData (sr_query packet) SOFTWARE_VERSION_CURRENT
  end.

Definition is_subscription (controlCmdType : Z) : bool :=
  (controlCmdType =? SUBSCRIBE_QUERY_CMD) || (controlCmdType =? UNSUBSCRIBE_QUERY_CMD).

Definition ControlPacketSerialization (buffer : list byte) (length : Z) (inMsg : SyncMessage)
    : option (Z * list byte) :=
  packet ← GetControlRequest inMsg;
  match packet with
  | None => Some (- E_INVALID_ARGS, buffer)
  | Some packet =>
    if INVALID_CONTROL_CMD <=? cr_controlCmdType packet then Some (- E_INVALID_ARGS, buffer)
    else if is_subscription (cr_controlCmdType packet) then SubscribeSerialization buffer length inMsg
    else Some (E_OK, buffer)
  end.

Definition AckControlPacketSerialization (buffer : list byte) (length : Z) (inMsg : SyncMessage)
    : option (Z * list byte) :=
  packet ← GetControlAck inMsg;
  match packet with
  | None => Some (- E_INVALID_ARGS, buffer)
  | Some packet => on_buffer buffer length $
      _ ← WriteUInt32 (ca_version packet);
      _ ← WriteInt (ca_recvCode packet);
      _ ← WriteUInt32 (ca_controlCmdType packet);
      _ ← WriteUInt32 (ca_flag packet);
      unless_error (- E_INVALID_ARGS) (_ ← EightByteAlign; mret E_OK)
  end.

Definition sm_IsPacketValid (inMsg : option SyncMessage) : bool :=
  match inMsg with
  | None => false
  | Some m => (messageType_ m =? TYPE_REQUEST) || (messageType_ m =? TYPE_RESPONSE) || (messageType_ m =? TYPE_NOTIFY)
  end.

Definition DataSerialization (buffer : list byte) (length : Z) (inMsg : SyncMessage) : option (Z * list byte) :=
  if messageType_ inMsg =? TYPE_REQUEST then DataPacketSerialization buffer length inMsg
  else if (messageType_ inMsg =? TYPE_RESPONSE) || (messageType_ inMsg =? TYPE_NOTIFY)
  then AckPacketSerialization buffer length inMsg
  else Some (- E_MESSAGE_TYPE_ERROR, buffer).

Definition ControlSerialization (buffer : list byte) (length : Z) (inMsg : SyncMessage) : option (Z * list byte) :=
  if messageType_ inMsg =? TYPE_REQUEST then ControlPacketSerialization buffer length inMsg
  else if messageType_ inMsg =? TYPE_RESPONSE then AckControlPacketSerialization buffer length inMsg
  else Some (- E_MESSAGE_TYPE_ERROR, buffer).

Definition sm_Serialization (buffer : option (list byte)) (length : Z) (inMsg : option SyncMessage)
    : option (Z * list byte) :=
  match buffer, inMsg with
  | Some buffer, Some m =>
    if negb (sm_IsPacketValid inMsg) then Some (- E_MESSAGE_ID_ERROR, buffer)
    else if messageId_ m =? CONTROL_SYNC_MESSAGE then ControlSerialization buffer length m
    else DataSerialization buffer length m
  | _, _ => Some (- E_MESSAGE_ID_ERROR, default [] buffer)
  end.

(** * Lengths *)

(** The status and the length, which starts as 0. *)
Definition DataPacketCalculateLen (inMsg : SyncMessage) : option (Z * Z) :=
  packet ← GetDataRequest inMsg;
  match packet with
  | None => Some (- E_INVALID_ARGS, 0)
  | Some packet => Some (E_OK, rq_CalculateLen packet (messageId_ inMsg))
  end.

Definition AckPacketCalculateLen (inMsg : SyncMessage) : option (Z * Z) :=
  packet ← GetDataAck inMsg;
  match packet with
  | None => Some (- E_INVALID_ARGS, 0)
  | Some packet => Some (E_OK, ak_CalculateLen packet)
  end.

Definition SubscribeCalculateLen (inMsg : SyncMessage) : option (Z * Z) :=
  packet ← GetSubscribe inMsg;
  match packet with
  | None => Some (- E_INVALID_ARGS, 0)
  | Some packet => Some (E_OK, sr_CalculateLen packet)
  end.

Definition ControlPacketCalculateLen (inMsg : SyncMessage) : option (Z * Z) :=
  packet ← GetControlRequest inMsg;
  match packet with
  | None => Some (- E_INVALID_ARGS, 0)
  | Some packet =>
    if INVALID_CONTROL_CMD <=? cr_controlCmdType packet then Some (- E_INVALID_ARGS, 0)
    else if is_subscription (cr_controlCmdType packet) then SubscribeCalculateLen inMsg
    else Some (E_OK, 0)
  end.

Definition AckControlPacketCalculateLen (inMsg : SyncMessage) : option (Z * Z) :=
  packet ← GetControlAck inMsg;
  match packet with
  | None => Some (- E_INVALID_ARGS, 0)
  | Some packet => Some (E_OK, ca_CalculateLen)
  end.

Definition len_or_zero (r : option (Z * Z)) : option Z :=
  '(errCode, len) ← r; Some (if negb (errCode =? E_OK) then 0 else len).

Definition CalculateDataLen (inMsg : SyncMessage) : option Z :=
  if messageType_ inMsg =? TYPE_REQUEST then len_or_zero (DataPacketCalculateLen inMsg)
  else if (messageType_ inMsg =? TYPE_RESPONSE) || (messageType_ inMsg =? TYPE_NOTIFY)
  then len_or_zero (AckPacketCalculateLen inMsg)
  else Some 0.

Definition CalculateControlLen (inMsg : SyncMessage) : option Z :=
  if messageType_ inMsg =? TYPE_REQUEST then len_or_zero (ControlPacketCalculateLen inMsg)
  else if (messageType_ inMsg =? TYPE_RESPONSE) || (messageType_ inMsg =? TYPE_NOTIFY)
  then len_or_zero (AckControlPacketCalculateLen inMsg)
  else Some 0.

Definition sm_CalculateLen (inMsg : option SyncMessage) : option Z :=
  if negb (sm_IsPacketValid inMsg) then Some 0
  else match inMsg with
       | None => Some 0
       | Some m => if messageId_ m =? CONTROL_SYNC_MESSAGE then CalculateControlLen m else CalculateDataLen m
       end.

(** * Reading *)

(** [Message::SetExternalObject] and [Message::SetCopiedObject]. *)
Definition SetObject (m : SyncMessage) (o : SyncObject) : Z * SyncMessage :=
  if negb heap_obj then (- E_OUT_OF_MEMORY, m) else (E_OK, set_object m o).

(** The lengths are only added up for the log. *)
Definition DataPacketSyncerPartDeSerialization (packet : DataRequestPacket) (version : Z)
    : Run (Z * DataRequestPacket) :=
  '(_, waterMark) ← ReadUInt64 0;
  '(_, localWaterMark) ← ReadUInt64 0;
  '(_, peerWaterMark) ← ReadUInt64 0;
  '(_, sendCode) ← ReadInt 0;
  '(_, mode) ← ReadInt 0;
  '(_, sessionId) ← ReadUInt32 0;
  '(_, reserved) ← ReadVector 8 [];
  packet ← (if SOFTWARE_VERSION_RELEASE_2_0 <? version then '(_, flag) ← ReadUInt32 0; mret (SetFlag packet flag)
            else mret packet);
  failed ← IsError;
  if failed : bool then mret (- E_LENGTH_ERROR, packet)
  else
    _ ← EightByteAlign;
    let packet := SetEndWaterMark packet waterMark in
    let packet := SetWaterMark packet localWaterMark peerWaterMark (rq_deletedWatermark packet) in
    let packet := SetBasicInfo packet sendCode (rq_version packet) mode in
    mret (E_OK, SetReserved (SetSessionId packet sessionId) reserved).

Definition DataPacketQuerySyncDeSerialization (packet : DataRequestPacket) : Run (Z * DataRequestPacket) :=
  '(_, deletedWatermark) ← ReadUInt64 0;
  '(_, queryId) ← ReadString [];
  failed ← IsError;
  if failed : bool then mret (- E_PARSE_FAIL, packet)
  else
    '(errCode, querySyncObj) ← (if query_is_sent packet then q_DeSerializeData newQuerySyncObject
                                else mret (E_OK, newQuerySyncObject));
    if negb (errCode =? E_OK) then mret (errCode, packet)
    else
      let packet := SetWaterMark packet (rq_localWaterMark packet) (rq_peerWaterMark packet) deletedWatermark in
      let packet := SetQueryId packet queryId in
      mret (E_OK, if query_is_sent packet then SetQuery packet querySyncObj else packet).

Definition DataPacketCompressDataDeSerialization (packet : DataRequestPacket) : Run (Z * DataRequestPacket) :=
  '(errCode, originalData) ← DeSerializeCompressedDatas [];
  if negb (errCode =? E_OK) then mret (errCode, packet) else mret (E_OK, SetData packet originalData).

(** The rest of [DataPacketDeSerialization]: the query and the compressed data. *)
Definition read_data_tail (messageId : Z) (packet : DataRequestPacket) : Run (Z * option DataRequestPacket) :=
  '(errCode, packet) ← (if messageId =? QUERY_SYNC_MESSAGE then DataPacketQuerySyncDeSerialization packet
                        else mret (E_OK, packet));
  if negb (errCode =? E_OK) then mret (errCode, None)
  else
    '(errCode, packet) ← (if IsCompressData packet then DataPacketCompressDataDeSerialization packet
                          else mret (E_OK, packet));
    if negb (errCode =? E_OK) then mret (errCode, None) else mret (E_OK, Some packet).

(** The status and the packet, if it was filled. *)
Definition read_data_packet (messageId : Z) : Run (Z * option DataRequestPacket) :=
  '(_, version) ← ReadUInt32 0;
  failed ← IsError;
  if failed : bool then mret (- E_PARSE_FAIL, None)
  else if SOFTWARE_VERSION_CURRENT <? version then mret (- E_VERSION_NOT_SUPPORT, None)
  else
    '(_, dataItems) ← DeSerializeDatas [];
    failed ← IsError;
    if failed : bool then mret (- E_PARSE_FAIL, None)
    else if negb heap_obj then mret (- E_OUT_OF_MEMORY, None)
    else
      let packet := SetData (SetBasicInfo newDataRequest (rq_sendCode newDataRequest) version
                               (rq_mode newDataRequest)) dataItems in
      '(errCode, packet) ← DataPacketSyncerPartDeSerialization packet version;
      if negb (errCode =? E_OK) then mret (errCode, None) else read_data_tail messageId packet.

(** What a reader found goes into the message. *)
Definition put_object (inMsg : SyncMessage) (r : option ((Z * option SyncObject) * Parcel)) : option (Z * SyncMessage) :=
  '((errCode, o), _) ← r;
  Some (match o with None => (errCode, inMsg) | Some o => SetObject inMsg o end).

Definition DataPacketDeSerialization (buffer : list byte) (length : Z) (inMsg : SyncMessage)
    : option (Z * SyncMessage) :=
  put_object inMsg ((('(errCode, packet) ← read_data_packet (messageId_ inMsg); mret (errCode, ODataRequest <$> packet))
                      : Run (Z * option SyncObject)) (newParcel (Some buffer) length)).

Definition AckPacketSyncerPartDeSerializationV1 (packet : DataAckPacket) : Run (Z * DataAckPacket) :=
  '(_, mark) ← ReadUInt64 0;
  '(_, errCode) ← ReadInt 0;
  '(_, reserved) ← ReadVector 8 [];
  failed ← IsError;
  if failed : bool then mret (- E_INVALID_ARGS, packet)
  else mret (E_OK, mkDataAck mark errCode (ak_version packet) reserved).

Definition read_ack_packet : Run (Z * option SyncObject) :=
  '(_, version) ← ReadUInt32 0;
  failed ← IsError;
  if failed : bool then mret (- E_INVALID_ARGS, None)
  else if SOFTWARE_VERSION_CURRENT <? version then
    mret (E_OK, Some (ODataAck (mkDataAck 0 (- E_VERSION_NOT_SUPPORT) version [])))
  else
    '(errCode, packet) ← AckPacketSyncerPartDeSerializationV1 (mkDataAck 0 0 version []);
    mret (errCode, if negb (errCode =? E_OK) then None else Some (ODataAck packet)).

Definition AckPacketDeSerialization (buffer : list byte) (length : Z) (inMsg : SyncMessage)
    : option (Z * SyncMessage) :=
  put_object inMsg (read_ack_packet (newParcel (Some buffer) length)).

(** [controlCmdType] goes through an [int32_t]. *)
Definition ControlRequestDeSerialization : Run (Z * ControlRequestPacket) :=
  '(_, version) ← ReadUInt32 0;
  if SOFTWARE_VERSION_CURRENT <? version then mret (- E_VERSION_NOT_SUPPORT, newControlRequest)
  else
    '(_, sendCode) ← ReadInt 0;
    '(_, controlCmdType) ← ReadUInt32 0;
    '(_, flag) ← ReadUInt32 0;
    failed ← IsError;
    if failed : bool then mret (- E_LENGTH_ERROR, newControlRequest)
    else mret (E_OK, cr_SetPacketHead sendCode version (to_signed 32 controlCmdType) flag).

Definition SubscribeDeSerialization (controlPacket : ControlRequestPacket) : Run (Z * option SyncObject) :=
  if negb heap_obj then mret (- E_OUT_OF_MEMORY, None)
  else
    '(errCode, querySyncObj) ← q_DeSerializeData newQuerySyncObject;
    if negb (errCode =? E_OK) then mret (errCode, None)
    else mret (E_OK, Some (OSubscribe (mkSubscribe
           (cr_SetPacketHead (cr_sendCode controlPacket) (cr_version controlPacket)
              (to_signed 32 (cr_controlCmdType controlPacket)) (cr_flag controlPacket)) querySyncObj))).

Definition read_control_packet : Run (Z * option SyncObject) :=
  '(errCode, packet) ← ControlRequestDeSerialization;
  if negb (errCode =? E_OK) then mret (errCode, None)
  else if is_subscription (cr_controlCmdType packet) then SubscribeDeSerialization packet
  else mret (errCode, None).

Definition ControlPacketDeSerialization (buffer : list byte) (length : Z) (inMsg : SyncMessage)
    : option (Z * SyncMessage) :=
  put_object inMsg (read_control_packet (newParcel (Some buffer) length)).

Definition read_control_ack : Run (Z * option SyncObject) :=
  if negb heap_obj then mret (- E_OUT_OF_MEMORY, None)
  else
    '(_, version) ← ReadUInt32 0;
    '(_, recvCode) ← ReadInt 0;
    '(_, controlCmdType) ← ReadUInt32 0;
    '(_, flag) ← ReadUInt32 0;
    failed ← IsError;
    if failed : bool then mret (- E_INVALID_ARGS, None)
    else mret (E_OK, Some (OControlAck (ca_SetPacketHead recvCode version (to_signed 32 controlCmdType) flag))).

Definition AckControlPacketDeSerialization (buffer : list byte) (length : Z) (inMsg : SyncMessage)
    : option (Z * SyncMessage) :=
  put_object inMsg (read_control_ack (newParcel (Some buffer) length)).

Definition DataDeSerialization (buffer : list byte) (length : Z) (inMsg : SyncMessage) : option (Z * SyncMessage) :=
  if messageType_ inMsg =? TYPE_REQUEST then DataPacketDeSerialization buffer length inMsg
  else if (messageType_ inMsg =? TYPE_RESPONSE) || (messageType_ inMsg =? TYPE_NOTIFY)
  then AckPacketDeSerialization buffer length inMsg
  else Some (- E_MESSAGE_TYPE_ERROR, inMsg).

Definition ControlDeSerialization (buffer : list byte) (length : Z) (inMsg : SyncMessage) : option (Z * SyncMessage) :=
  if messageType_ inMsg =? TYPE_REQUEST then ControlPacketDeSerialization buffer length inMsg
  else if messageType_ inMsg =? TYPE_RESPONSE then AckControlPacketDeSerialization buffer length inMsg
  else Some (- E_MESSAGE_TYPE_ERROR, inMsg).

Definition sm_DeSerialization (buffer : option (list byte)) (length : Z) (inMsg : option SyncMessage)
    : option (Z * option SyncMessage) :=
  match buffer, inMsg with
  | Some buffer, Some m =>
    if negb (sm_IsPacketValid inMsg) then Some (- E_MESSAGE_ID_ERROR, inMsg)
    else '(e, m) ← (if messageId_ m =? CONTROL_SYNC_MESSAGE then ControlDeSerialization buffer length m
                    else DataDeSerialization buffer length m);
         Some (e, Some m)
  | _, _ => Some (- E_MESSAGE_ID_ERROR, inMsg)
  end.

(** What is registered, on messages whose object is of the type that their id and type say. *)
Definition sync_transform : TransformFunc SyncObject :=
  mkTransformFunc
    (Some (fun m => default 0 (sm_CalculateLen (Some m))))
    (Some (fun buffer length m =>
       match sm_Serialization (Some buffer) length (Some m) with
       | Some (e, bs) => (e, bs)
       | None => (- E_INTERNAL_ERROR, buffer)
       end))
    (Some (fun buffer length m =>
       match sm_DeSerialization (Some buffer) length (Some m) with
       | Some (e, Some m) => (e, m)
       | _ => (- E_INTERNAL_ERROR, m)
       end)).

Definition sm_RegisterTransformFunc (reg : Registry SyncObject) : Z * Registry SyncObject :=
  let '(errCode, reg) := RegTransformFunction reg QUERY_SYNC_MESSAGE sync_transform in
  if negb (errCode =? E_OK) then (errCode, reg)
  else let '(errCode, reg) := RegTransformFunction reg DATA_SYNC_MESSAGE sync_transform in
       if negb (errCode =? E_OK) then (errCode, reg)
       else RegTransformFunction reg CONTROL_SYNC_MESSAGE sync_transform.

End Manager.
