(* ===== verification/SyncPacketFacts.v ===== *)
(** The packets of the data synchronization survive the wire: what the registered functions
    of [SingleVerSerializeManager] make of a message is what the other side gets. *)

From S2P Require Import Prelude Memory SerialBuffer FrameHeader Parcel ParcelFacts CommTypes ProtocolProto.
From S2P Require Import AppMessage AppMessageFacts SyncStorage CommitNotify.
From S2P Require Import QuerySync ParcelRuns QuerySyncFacts KvEntry KvEntryFacts SyncPacket.
From Stdlib Require Import ZArith Lia.
From Stdlib Require Import Strings.Byte.
From stdpp Require Import base numbers list gmap.

Open Scope Z_scope.

(** * The values of a data packet *)

Definition plain_entries (p : DataRequestPacket) (es : list DataItem) : list DataItem :=
  if IsCompressData p then [] else es.

Definition head_items (p : DataRequestPacket) (es : list DataItem) : list Item :=
  IUInt32 (rq_version p) :: datas_items (rq_version p) (plain_entries p es).

Definition marks_items (p : DataRequestPacket) : list Item :=
  [IUInt64 (rq_endWaterMark p); IUInt64 (rq_localWaterMark p); IUInt64 (rq_peerWaterMark p);
   IInt (rq_sendCode p); IInt (rq_mode p); IUInt32 (rq_sessionId p); IVector 8 (rq_reserved p)]
  ++ (if SOFTWARE_VERSION_RELEASE_2_0 <? rq_version p then [IUInt32 (rq_flag p)] else []).

Definition syncer_items (p : DataRequestPacket) : list Item := marks_items p ++ [IAlign].

(** What the reader of the query part looks at; the writer of a query aligns once more. *)
Definition query_part (p : DataRequestPacket) : list Item :=
  [IUInt64 (rq_deletedWatermark p); IString (rq_queryId p)]
  ++ (if query_is_sent p then query_items (rq_query p) else []).

Definition query_pad (p : DataRequestPacket) : list Item := if query_is_sent p then [IAlign] else [].

Definition compress_items (p : DataRequestPacket) (es : list DataItem) : list Item :=
  if IsCompressData p then
    [IUInt32 (rq_algo p); IUInt32 (8 + sum_of (entry_size (rq_version p)) es); IVectorChar (rq_compressData p)]
  else [].

(** * Sizes *)

Definition base_size (p : DataRequestPacket) (es : list DataItem) : Z :=
  8 + sum_of (entry_size (rq_version p)) (plain_entries p es) + 40 + align8 (4 + 8 * zlen (rq_reserved p))
  + (if SOFTWARE_VERSION_RELEASE_2_0 <? rq_version p then 4 else 0).

Definition request_size (id : Z) (p : DataRequestPacket) (es : list DataItem) : Z :=
  align8 (base_size p es)
  + (if id =? QUERY_SYNC_MESSAGE then 8 + field_size (rq_queryId p) + query_size (rq_query p) else 0)
  + (if IsCompressData p then 8 + field_size (rq_compressData p) else 0).

(** The largest data of a message. *)
Definition MAX_DATA_LEN : Z := MAX_FRAME_LEN - GetLengthBeforeSerializedData.

Section Packets.
Context `{Host} `{Heap} `{Zlib}.

(** A data request that may be sent as a message [id]: its fields have their types, the
    version is one this software knows, the compressed data, if any, is what [Compress]
    made of the entries for a version that knows of it, and it all fits into a frame. *)
Record request_ok (id : Z) (p : DataRequestPacket) (es : list DataItem) : Prop := {
  ro_data : rq_data p = Some <$> es;
  ro_entries : entries_ok (rq_version p) es;
  ro_end : 0 <= rq_endWaterMark p < 2 ^ 64;
  ro_local : 0 <= rq_localWaterMark p < 2 ^ 64;
  ro_peer : 0 <= rq_peerWaterMark p < 2 ^ 64;
  ro_code : - 2 ^ 31 <= rq_sendCode p < 2 ^ 31;
  ro_mode : - 2 ^ 31 <= rq_mode p < 2 ^ 31;
  ro_session : 0 <= rq_sessionId p < 2 ^ 32;
  ro_reserved : Forall (fun v => 0 <= v < 2 ^ 64) (rq_reserved p);
  ro_flag : 0 <= rq_flag p < 2 ^ 32;
  ro_deleted : 0 <= rq_deletedWatermark p < 2 ^ 64;
  ro_query : id = QUERY_SYNC_MESSAGE -> query_ok (rq_query p);
  ro_compress : IsCompressData p = true -> SOFTWARE_VERSION_RELEASE_2_0 < rq_version p /\
    exists dest, Compress (rq_data p) dest (mkCompressInfo (rq_algo p) (rq_version p)) = Some (E_OK, rq_compressData p);
  ro_size : request_size id p es <= MAX_DATA_LEN
}.

(** What the receiver has. *)
Definition received_request (id : Z) (p : DataRequestPacket) (es : list DataItem) : DataRequestPacket :=
  mkDataRequest (Some <$> (wire_item (rq_version p) <$> es)) (rq_endWaterMark p) (rq_localWaterMark p)
    (rq_peerWaterMark p) (rq_sendCode p) (rq_mode p) (rq_sessionId p) (rq_version p) (rq_reserved p)
    (if SOFTWARE_VERSION_RELEASE_2_0 <? rq_version p then rq_flag p else 0)
    (if (id =? QUERY_SYNC_MESSAGE) && query_is_sent p then received_query (rq_query p) else newQuerySyncObject)
    (if id =? QUERY_SYNC_MESSAGE then rq_queryId p else [])
    (if id =? QUERY_SYNC_MESSAGE then rq_deletedWatermark p else 0) [] NONE.

Definition request_items (id : Z) (p : DataRequestPacket) (es : list DataItem) : list Item :=
  head_items p es ++ syncer_items p
  ++ (if id =? QUERY_SYNC_MESSAGE then query_part p ++ query_pad p else []) ++ compress_items p es.

(** * The parts of a packet of bounded size *)

Lemma base_pos p es : 0 < base_size p es.
Proof.
  pose proof (sum_of_nonneg _ (plain_entries p es) (entry_size_pos (rq_version p))).
  pose proof (align8_bounds (4 + 8 * zlen (rq_reserved p))). pose proof (zlen_nonneg (rq_reserved p)).
  unfold base_size. destruct (_ <? _); lia.
Qed.

Record request_parts (id : Z) (p : DataRequestPacket) (es : list DataItem) : Prop := {
  rp_base : align8 (base_size p es) <= MAX_DATA_LEN;
  rp_reserved : 0 <= 8 * zlen (rq_reserved p) <= MAX_DATA_LEN;
  rp_queryId : id = QUERY_SYNC_MESSAGE -> field_size (rq_queryId p) + query_size (rq_query p) <= MAX_DATA_LEN;
  rp_comp : IsCompressData p = true -> field_size (rq_compressData p) <= MAX_DATA_LEN
}.

Lemma query_size_pos q : 0 <= query_size q.
Proof.
  pose proof (field_size_pos MAGIC). pose proof (field_size_pos (prefixKey_ q)). pose proof (field_size_pos (suggestIndex_ q)).
  pose proof (field_size_pos (tableName_ q)). pose proof (sum_of_nonneg _ (queryObjNodes_ q) node_size_pos).
  pose proof (sum_of_nonneg _ (keys_ q) field_size_pos). unfold query_size. destruct (isTableNameSpecified_ q); lia.
Qed.

Lemma request_small id p es : request_ok id p es -> request_parts id p es.
Proof.
  intros Hr. pose proof (ro_size _ _ _ Hr) as Hs. unfold request_size in Hs.
  pose proof (base_pos p es) as Hb. pose proof (align8_bounds (base_size p es)).
  pose proof (field_size_pos (rq_queryId p)). pose proof (query_size_pos (rq_query p)).
  pose proof (field_size_pos (rq_compressData p)). pose proof (zlen_nonneg (rq_reserved p)).
  pose proof (align8_bounds (4 + 8 * zlen (rq_reserved p))).
  pose proof (sum_of_nonneg _ (plain_entries p es) (entry_size_pos (rq_version p))).
  assert (Hres : 8 * zlen (rq_reserved p) <= base_size p es) by (unfold base_size; destruct (_ <? _); lia).
  revert Hs. destruct (Z.eqb_spec id QUERY_SYNC_MESSAGE), (IsCompressData p) eqn:Ec; intros Hs;
    constructor; intros; try congruence; lia.
Qed.

Context `{!ZlibLaws}.

(** Compressed data is what zlib made of the entries. *)
Lemma compressed_data id p es : request_ok id p es -> IsCompressData p = true ->
  rq_algo p = ZLIB /\ 0 < zlen (rq_compressData p) <= MAX_SYNC_BLOCK_SIZE
  /\ (heap_obj = true -> Uncompress (rq_compressData p) [] (8 + sum_of (entry_size (rq_version p)) es) ZLIB
       = Some (E_OK, Some <$> (wire_item (rq_version p) <$> es))).
Proof.
  intros Hr Ec. destruct (ro_compress _ _ _ Hr Ec) as (_ & dest & Hcomp). rewrite (ro_data _ _ _ Hr) in Hcomp.
  by apply (compress_roundtrip _ es dest _ _ (ro_entries _ _ _ Hr)) in Hcomp.
Qed.

(** * The computed length *)

Lemma MAX_DATA_LEN_small : MAX_DATA_LEN < 2 ^ 26.
Proof. done. Qed.

Lemma vector_len (vs : list Z) : 8 * zlen vs <= MAX_DATA_LEN ->
  GetVectorLen 8 vs = align8 (4 + 8 * zlen vs).
Proof.
  intros Hv. pose proof MAX_DATA_LEN_small. pose proof (zlen_nonneg vs). pose proof (align8_bounds (4 + 8 * zlen vs)).
  unfold GetVectorLen. change (Z.of_nat 8) with 8. unfold INT32_MAX. rewrite (proj2 (Z.ltb_ge _ (zlen vs))) by lia.
  change (2147483647 <? 8) with false. cbn [orb]. rewrite (Z.mul_comm (zlen vs) 8). no_wrap. rewrite byte8_align_align8 by lia.
  by rewrite (proj2 (Z.ltb_ge _ _)) by lia.
Qed.

Lemma plain_data_eq p es : rq_data p = Some <$> es -> plain_data p = Some <$> plain_entries p es.
Proof. intros Hd. unfold plain_data, plain_entries. by destruct (IsCompressData p). Qed.

Lemma plain_sizes p es : entries_ok (rq_version p) es -> entries_ok (rq_version p) (plain_entries p es).
Proof. intros [Hv He Hs]. unfold plain_entries. destruct (IsCompressData p); [| done]. by split. Qed.

Lemma rq_CalculateLen_eq id p es : request_ok id p es -> rq_CalculateLen p id = request_size id p es.
Proof.
  intros Hr. pose proof (request_small _ _ _ Hr) as [Hb Hres Hq Hc]. pose proof MAX_DATA_LEN_small as HM.
  pose proof (plain_sizes p es (ro_entries _ _ _ Hr)) as [Hv _ Hs].
  unfold rq_CalculateLen. rewrite (plain_data_eq p es (ro_data _ _ _ Hr)), CalculateLens_eq by done.
  rewrite vector_len by lia. pose proof (base_pos p es). pose proof (align8_bounds (base_size p es)).
  pose proof (align8_bounds (4 + 8 * zlen (rq_reserved p))).
  pose proof (sum_of_nonneg _ (plain_entries p es) (entry_size_pos (rq_version p))).
  change GetUInt64Len with 8. change GetIntLen with 4. change GetUInt32Len with 4.
  match goal with |- context [GetEightByteAlign ?x] => assert (Ex : x = base_size p es) end.
  { unfold base_size in *. destruct (_ <? _); no_wrap; lia. }
  rewrite Ex. unfold GetEightByteAlign. rewrite byte8_align_align8 by lia. unfold INT32_MAX.
  rewrite (proj2 (Z.ltb_ge _ (align8 _))) by lia.
  pose proof (ro_size _ _ _ Hr) as Hsize. unfold request_size in *. pose proof (field_size_pos (rq_queryId p)).
  pose proof (query_size_pos (rq_query p)). pose proof (field_size_pos (rq_compressData p)).
  assert (Eq : (if id =? QUERY_SYNC_MESSAGE then u64 (align8 (base_size p es) + 8 + GetStringLen (rq_queryId p)
       + CalculateParcelLen (rq_query p) SOFTWARE_VERSION_CURRENT) else align8 (base_size p es))
     = align8 (base_size p es) + if id =? QUERY_SYNC_MESSAGE then 8 + field_size (rq_queryId p) + query_size (rq_query p) else 0).
  { destruct (Z.eqb_spec id QUERY_SYNC_MESSAGE) as [Ei |]; [| lia]. specialize (Hq Ei).
    unfold CalculateParcelLen. rewrite Z.eqb_refl, (q_CalculateLen_eq _ (ro_query _ _ _ Hr Ei)).
    rewrite (proj2 (byte_len (rq_queryId p) ltac:(unfold INT32_MAX; lia))). no_wrap. lia. }
  cbv zeta. rewrite Eq. clear Eq.
  set (qs := if id =? QUERY_SYNC_MESSAGE then _ else _) in *.
  assert (Hqs : 0 <= qs) by (unfold qs; destruct (_ =? _); lia).
  destruct (IsCompressData p) eqn:Ec.
  - unfold CalculateCompressedLens. destruct (compressed_data id p es Hr Ec) as [_ [Hpos _]].
    rewrite bool_decide_eq_false_2 by (intros En; rewrite En in Hpos; unfold zlen in Hpos; simpl length in Hpos; lia). specialize (Hc eq_refl).
    rewrite (proj1 (byte_len (rq_compressData p) ltac:(unfold INT32_MAX; lia))).
    change GetUInt32Len with 4. unfold INT32_MAX. no_wrap. rewrite (proj2 (Z.ltb_ge _ (4 + 4 + _))) by lia.
    no_wrap. rewrite (proj2 (Z.ltb_ge _ _)) by lia. lia.
  - rewrite (proj2 (Z.ltb_ge _ _)) by lia. no_wrap. lia.
Qed.

(** * Writing a request *)

Lemma writes_syncer id p es : request_ok id p es -> request_parts id p es ->
  writes (DataPacketSyncerPartSerialization p) (syncer_items p) E_OK.
Proof.
  intros [] []. pose proof MAX_DATA_LEN_small. unfold DataPacketSyncerPartSerialization, syncer_items, marks_items. cbn [app].
  do 3 (apply (writes_step (IUInt64 _)); [done |]). do 2 (apply (writes_step (IInt _)); [done |]).
  apply (writes_step (IUInt32 _)); [done |].
  apply (writes_step (IVector 8 _)); [cbn [item_ok]; split_and!; [lia | lia | done | lia] |].
  apply writes_unless. destruct (_ <? _); cbn [app]; [| apply writes_align_step, writes_ret].
  apply (writes_step (IUInt32 _)); [done |]. apply writes_unless, writes_align_step, writes_ret.
Qed.

Lemma writes_query_part p : 0 <= rq_deletedWatermark p < 2 ^ 64 -> query_ok (rq_query p) ->
  field_size (rq_queryId p) <= MAX_DATA_LEN ->
  writes (DataPacketQuerySyncSerialization p) (query_part p ++ query_pad p) E_OK.
Proof.
  intros Hd Hq Hs. pose proof MAX_DATA_LEN_small. unfold DataPacketQuerySyncSerialization, query_part, query_pad, then_write.
  cbn [app]. apply (writes_step (IUInt64 _)); [done |]. cbn [Z.eqb E_OK].
  apply (writes_step (IString _)); [apply (small_bytes _ INT32_MAX); unfold INT32_MAX; lia |]. cbn [Z.eqb E_OK].
  destruct (query_is_sent p); [by apply writes_query | apply writes_ret].
Qed.

Lemma writes_compressed id p es : request_ok id p es -> request_parts id p es ->
  writes (if IsCompressData p
          then SerializeCompressedDatas (rq_data p) (rq_compressData p) (rq_version p) (rq_algo p) else mret E_OK)
    (compress_items p es) E_OK.
Proof.
  intros Hr Hp. unfold compress_items. destruct (IsCompressData p) eqn:Ec; [| apply writes_ret].
  destruct (compressed_data _ _ _ Hr Ec) as (Ha & Hz & _). pose proof (ro_entries _ _ _ Hr) as [Hv _ Hs].
  pose proof (sum_of_nonneg _ es (entry_size_pos (rq_version p))). unfold MAX_SYNC_BLOCK_SIZE in Hz.
  unfold SerializeCompressedDatas. rewrite (ro_data _ _ _ Hr), CalculateLens_eq by done. unfold INT32_MAX in Hs.
  apply (writes_step (IUInt32 _)); [by rewrite Ha |]. apply (writes_step (IUInt32 _)); [cbn; lia |].
  apply (writes_step (IVectorChar _)); [cbn; lia |]. apply writes_unless, writes_ret.
Qed.

Lemma writes_request id p es : request_ok id p es -> writes (write_data_packet p id) (request_items id p es) E_OK.
Proof.
  intros Hr. pose proof (request_small _ _ _ Hr) as Hp. pose proof (plain_sizes p es (ro_entries _ _ _ Hr)) as He.
  pose proof MAX_DATA_LEN_small. unfold write_data_packet, request_items, head_items. cbn [app].
  rewrite (plain_data_eq p es (ro_data _ _ _ Hr)).
  apply (writes_step (IUInt32 _)).
  { pose proof (so_version _ _ He) as Hv. unfold supported, SOFTWARE_VERSION_EARLIEST, SOFTWARE_VERSION_CURRENT in Hv. cbn. lia. }
  cbn [Z.eqb E_OK]. apply writes_then; [by apply writes_datas |].
  apply writes_then; [by eapply writes_syncer |]. apply writes_then; [| by eapply writes_compressed].
  destruct (Z.eqb_spec id QUERY_SYNC_MESSAGE) as [Ei | Ei]; [| apply writes_ret].
  destruct Hp. specialize (rp_queryId0 Ei). pose proof (query_size_pos (rq_query p)).
  apply writes_query_part; [apply (ro_deleted _ _ _ Hr) | apply (ro_query _ _ _ Hr Ei) | lia].
Qed.

(** * Where its parts end *)

Lemma marks_fixed p : Forall fixed (marks_items p).
Proof. unfold marks_items. apply Forall_app. split; [by repeat constructor |]. destruct (_ <? _); by repeat constructor. Qed.

Lemma syncer_end t off p : end_of t off (syncer_items p) =
  align8 (off + 36 + align8 (4 + 8 * zlen (rq_reserved p)) + (if SOFTWARE_VERSION_RELEASE_2_0 <? rq_version p then 4 else 0)).
Proof.
  unfold syncer_items. rewrite end_of_app. cbn [end_of adv]. rewrite (end_of_fixed _ _ (marks_fixed p)).
  unfold marks_items. rewrite sum_of_app. cbn [sum_of foldr]. rewrite isize_Vector, !isize_UInt64, !isize_Int, isize_UInt32.
  replace (4 + zlen (rq_reserved p) * Z.of_nat 8) with (4 + 8 * zlen (rq_reserved p)) by lia.
  destruct (_ <? _); cbn [sum_of foldr]; rewrite ?isize_UInt32, Zplus_minus; f_equal; lia.
Qed.

Lemma head_end t p es : end_of t 0 (head_items p es) = 8 + sum_of (entry_size (rq_version p)) (plain_entries p es).
Proof.
  unfold head_items, datas_items. cbn [end_of]. rewrite entries_end.
  change (adv t 0 (IUInt32 (rq_version p))) with 4. change (adv t (0 + 4) (IUInt32 _)) with 4.
  change (adv t (0 + 4 + 4) IAlign) with 0. lia.
Qed.

Lemma query_part_end t off p : off mod 8 = 0 ->
  end_of t off (query_part p ++ query_pad p) = end_of t off (query_part p)
  /\ end_of t off (query_part p) <= off + 8 + field_size (rq_queryId p) + query_size (rq_query p)
  /\ end_of t off (query_part p) mod 8 = 0.
Proof.
  intros H8. pose proof (field_size_mod8 (rq_queryId p)). pose proof (query_size_pos (rq_query p)).
  unfold query_part, query_pad. cbn [app end_of].
  change (adv t off (IUInt64 _)) with 8. replace (adv t (off + 8) (IString (rq_queryId p))) with (field_size (rq_queryId p))
    by (cbn [adv enc]; by rewrite zlen_enc_counted).
  assert (Ho : (off + 8 + field_size (rq_queryId p)) mod 8 = 0) by lia.
  destruct (query_is_sent p); cbn [app end_of]; [| split_and!; lia].
  rewrite query_end_align by done. destruct (query_end t _ (rq_query p) Ho). split_and!; lia.
Qed.

Lemma request_no_blob id p es : Forall no_blob (request_items id p es).
Proof.
  unfold request_items, head_items, syncer_items, compress_items.
  apply Forall_app. split; [constructor; [done | apply datas_no_blob] |].
  apply Forall_app. split; [apply Forall_app; split; [apply fixed_no_blob, marks_fixed | by repeat constructor] |].
  apply Forall_app. split; [| destruct (IsCompressData p); by repeat constructor].
  destruct (_ =? _); [| constructor]. unfold query_part, query_pad.
  destruct (query_is_sent p); [| by repeat constructor].
  do 2 (constructor; [done |]). apply Forall_app. split; [apply query_no_blob | by repeat constructor].
Qed.

Lemma request_end t id p es : request_ok id p es -> end_of t 0 (request_items id p es) <= request_size id p es.
Proof.
  intros Hr. pose proof (sum_of_nonneg _ (plain_entries p es) (entry_size_pos (rq_version p))) as Hp.
  unfold request_items. rewrite !end_of_app, head_end, syncer_end. set (s := align8 _).
  assert (Hs : s <= align8 (base_size p es) /\ s mod 8 = 0).
  { unfold s, base_size, align8. destruct (_ <? _); lia. }
  unfold request_size. set (o := end_of t s _).
  assert (Ho : o <= align8 (base_size p es)
     + if id =? QUERY_SYNC_MESSAGE then 8 + field_size (rq_queryId p) + query_size (rq_query p) else 0).
  { unfold o. destruct (id =? QUERY_SYNC_MESSAGE); [| cbn [end_of]; lia].
    destruct (query_part_end t s p (proj2 Hs)) as (-> & Hq & _). lia. }
  unfold compress_items. destruct (IsCompressData p); cbn [end_of]; [| lia].
  change (adv t o (IUInt32 _)) with 4. change (adv t (o + 4) (IUInt32 _)) with 4.
  replace (adv t (o + 4 + 4) (IVectorChar (rq_compressData p))) with (field_size (rq_compressData p))
    by (cbn [adv enc]; by rewrite zlen_enc_counted). lia.
Qed.

(** * Reading a request *)

Lemma reads_syncer id p es x : request_ok id p es -> request_parts id p es ->
  reads (DataPacketSyncerPartDeSerialization x (rq_version p)) (syncer_items p)
    (fun _ => (E_OK, mkDataRequest (rq_data x) (rq_endWaterMark p) (rq_localWaterMark p) (rq_peerWaterMark p)
       (rq_sendCode p) (rq_mode p) (rq_sessionId p) (rq_version x) (rq_reserved p)
       (if SOFTWARE_VERSION_RELEASE_2_0 <? rq_version p then rq_flag p else rq_flag x)
       (rq_query x) (rq_queryId x) (rq_deletedWatermark x) (rq_compressData x) (rq_algo x))).
Proof.
  intros [] []. pose proof MAX_DATA_LEN_small.
  unfold DataPacketSyncerPartDeSerialization, syncer_items, marks_items. cbn [app].
  do 3 (eapply reads_step; [by apply reads_UInt64 | intros ?; cbv beta iota]).
  do 2 (eapply reads_step; [by apply reads_Int | intros ?; cbv beta iota]).
  eapply reads_step; [by apply reads_UInt32 | intros ?; cbv beta iota].
  eapply reads_step; [apply reads_Vector; cbn [item_ok]; split_and!; [lia | lia | done | lia] | intros ?; cbv beta iota].
  destruct (_ <? _).
  - eapply (reads_bind _ _ _ _ (fun _ => SetFlag x (rq_flag p))).
    + eapply reads_step; [by apply reads_UInt32 | intros ?; cbv beta iota; by apply reads_ret].
    + intros ?. eapply reads_pure; [apply reads_IsError |]. cbv iota zeta.
      eapply reads_step; [apply reads_align | intros ?; by apply reads_ret].
  - eapply (reads_pure _ _ _ x); [by apply reads_ret |]. eapply reads_pure; [apply reads_IsError |]. cbv iota zeta.
    eapply reads_step; [apply reads_align | intros ?; by apply reads_ret].
Qed.

Lemma reads_query_part p x : 0 <= rq_deletedWatermark p < 2 ^ 64 -> query_ok (rq_query p) ->
  field_size (rq_queryId p) <= MAX_DATA_LEN -> rq_version x = rq_version p -> rq_mode x = rq_mode p ->
  reads (DataPacketQuerySyncDeSerialization x) (query_part p)
    (fun _ => (E_OK, mkDataRequest (rq_data x) (rq_endWaterMark x) (rq_localWaterMark x) (rq_peerWaterMark x)
       (rq_sendCode x) (rq_mode x) (rq_sessionId x) (rq_version x) (rq_reserved x) (rq_flag x)
       (if query_is_sent p then received_query (rq_query p) else rq_query x)
       (rq_queryId p) (rq_deletedWatermark p) (rq_compressData x) (rq_algo x))).
Proof.
  intros Hd Hq Hs Hv Hm. pose proof MAX_DATA_LEN_small.
  unfold DataPacketQuerySyncDeSerialization, query_part. cbn [app].
  assert (Hsent : forall y, rq_version y = rq_version x -> rq_mode y = rq_mode x -> query_is_sent y = query_is_sent p).
  { intros y Ey Em. unfold query_is_sent. by rewrite Ey, Em, Hv, Hm. }
  eapply reads_step; [by apply reads_UInt64 | intros ?; cbv beta iota].
  eapply reads_step; [apply reads_String, (small_bytes _ INT32_MAX); unfold INT32_MAX; lia | intros ?; cbv beta iota].
  eapply reads_pure; [apply reads_IsError |]. cbv iota. rewrite (Hsent x) by done.
  cbv zeta. rewrite Hsent by done.
  destruct (query_is_sent p).
  - rewrite <- (app_nil_r (query_items _)). eapply reads_bind; [by apply reads_query |].
    intros ?. cbv beta iota. cbn [Z.eqb E_OK negb]. by apply reads_ret.
  - eapply reads_pure; [by apply reads_ret |]. cbv beta iota. cbn [Z.eqb E_OK negb]. by apply reads_ret.
Qed.

Lemma reads_compressed id p es x : heap_obj = true -> request_ok id p es -> IsCompressData p = true ->
  reads (DataPacketCompressDataDeSerialization x) (compress_items p es)
    (fun _ => (E_OK, SetData x (Some <$> (wire_item (rq_version p) <$> es)))).
Proof.
  intros Hh Hr Ec. destruct (compressed_data _ _ _ Hr Ec) as (Ha & Hz & Hback). specialize (Hback Hh).
  pose proof (ro_entries _ _ _ Hr) as [Hv _ Hs].
  pose proof (sum_of_nonneg _ es (entry_size_pos (rq_version p))). unfold MAX_SYNC_BLOCK_SIZE, INT32_MAX in *.
  unfold DataPacketCompressDataDeSerialization, compress_items. rewrite Ec, <- (app_nil_r (_ :: _)).
  eapply (reads_bind _ _ _ _ (fun _ => (E_OK, Some <$> (wire_item (rq_version p) <$> es)))).
  2: { intros ?. cbv beta iota. cbn [Z.eqb E_OK negb]. by apply reads_ret. }
  unfold DeSerializeCompressedDatas. rewrite Ha.
  eapply reads_step; [by apply reads_UInt32 | intros ?; cbv beta iota].
  destruct zlib_registered as (_ & -> & _). cbn [Z.eqb E_OK negb].
  eapply reads_step; [apply reads_UInt32; lia | intros ?; cbv beta iota].
  eapply reads_step; [apply reads_VectorChar; lia | intros ?; cbv beta iota].
  eapply reads_pure; [apply reads_IsError |]. cbv iota.
  split; [constructor |]. intros m off _ _ _. unfold on_parcel. rewrite Hback. done.
Qed.

(** A reader on the cursor of a given memory, and then the next one. *)
Lemma reads_then {A B} (r : Run A) (k : A -> Run B) l a m off out : reads r l a ->
  zlen m <= INT32_MAX -> reach (zlen m) off -> laid_out (zlen m) off l m ->
  (reach (zlen m) (end_of (zlen m) off l) ->
   k (a (end_of (zlen m) off l - off)) (cursor m (end_of (zlen m) off l)) = out) ->
  (r ≫= k) (cursor m off) = out.
Proof.
  intros [Hok R] Hm Hr Hl Hk. rewrite (run_bind_eq _ _ _ _ _ (R m off Hm Hr Hl)). apply Hk.
  by apply end_of_reach; [| | eapply laid_out_fits].
Qed.

(** The packet as it is when its water marks have been read. *)
Definition partial_request (p : DataRequestPacket) (es : list DataItem) : DataRequestPacket :=
  mkDataRequest (Some <$> (wire_item (rq_version p) <$> plain_entries p es)) (rq_endWaterMark p) (rq_localWaterMark p)
    (rq_peerWaterMark p) (rq_sendCode p) (rq_mode p) (rq_sessionId p) (rq_version p) (rq_reserved p)
    (if SOFTWARE_VERSION_RELEASE_2_0 <? rq_version p then rq_flag p else 0) newQuerySyncObject [] 0 [] NONE.

Lemma read_compressed id p es x m off : heap_obj = true -> request_ok id p es -> zlen m <= INT32_MAX ->
  reach (zlen m) off -> laid_out (zlen m) off (compress_items p es) m ->
  rq_data x = Some <$> (wire_item (rq_version p) <$> plain_entries p es) ->
  rq_flag x = (if SOFTWARE_VERSION_RELEASE_2_0 <? rq_version p then rq_flag p else 0) ->
  exists q, ('(errCode, packet) ← (if IsCompressData x then DataPacketCompressDataDeSerialization x else mret (E_OK, x));
             if negb (errCode =? E_OK) then mret (errCode, None) else mret (E_OK, Some packet)) (cursor m off)
    = Some ((E_OK, Some (SetData x (Some <$> (wire_item (rq_version p) <$> es)))), q).
Proof.
  intros Hh Hr Hm Ho Hl Hd Hf. destruct (IsCompressData p) eqn:Ec.
  - destruct (ro_compress _ _ _ Hr Ec) as [Hv _]. rewrite (proj2 (Z.ltb_lt _ _)) in Hf by done.
    assert (Ex : IsCompressData x = true) by (unfold IsCompressData in *; by rewrite Hf). rewrite Ex. eexists.
    eapply reads_then; [by apply (reads_compressed id p es) | done | done | done | intros _; reflexivity].
  - assert (Ex : IsCompressData x = false).
    { unfold IsCompressData in *. rewrite Hf. by destruct (_ <? _). }
    rewrite Ex. eexists. unfold plain_entries in Hd. rewrite Ec in Hd. rewrite <- Hd. destruct x; reflexivity.
Qed.

(** The query ends where its writer ended, since both are aligned. *)
Lemma read_tail id p es m off : heap_obj = true -> request_ok id p es -> zlen m <= INT32_MAX ->
  reach (zlen m) off -> off mod 8 = 0 ->
  laid_out (zlen m) off ((if id =? QUERY_SYNC_MESSAGE then query_part p ++ query_pad p else []) ++ compress_items p es) m ->
  exists q, read_data_tail id (partial_request p es) (cursor m off) = Some ((E_OK, Some (received_request id p es)), q).
Proof.
  intros Hh Hr Hm Ho H8 Hl. apply laid_out_app in Hl as [Hl3 Hl4]. unfold read_data_tail, received_request.
  destruct (Z.eqb_spec id QUERY_SYNC_MESSAGE) as [Ei | Ei]; cbn [andb].
  - destruct (request_small _ _ _ Hr) as [_ _ Hq _]. specialize (Hq Ei). pose proof (query_size_pos (rq_query p)).
    apply laid_out_app in Hl3 as [Hl3 _]. destruct (query_part_end (zlen m) off p H8) as (Eend & _ & _).
    rewrite Eend in Hl4.
    destruct (reads_query_part p (partial_request p es)) as [Hok R];
      [apply (ro_deleted _ _ _ Hr) | apply (ro_query _ _ _ Hr Ei) | lia | done | done |].
    rewrite (run_bind_eq _ _ _ _ _ (R m off Hm Ho Hl3)). cbn [Z.eqb E_OK negb].
    destruct (end_of_reach (zlen m) _ Hok off Ho (laid_out_fits _ _ _ _ Hl3)) as [Ho3 _].
    match goal with |- context [IsCompressData ?x] => by apply (read_compressed id p es x m _ Hh Hr Hm Ho3 Hl4) end.
  - by apply (read_compressed id p es (partial_request p es) m off Hh Hr Hm Ho Hl4).
Qed.

Lemma read_request id p es m : heap_obj = true -> request_ok id p es -> zlen m <= INT32_MAX ->
  laid_out (zlen m) 0 (request_items id p es) m ->
  exists q, read_data_packet id (cursor m 0) = Some ((E_OK, Some (received_request id p es)), q).
Proof.
  intros Hh Hr Hm Hl. pose proof (request_small _ _ _ Hr) as Hp. pose proof (plain_sizes p es (ro_entries _ _ _ Hr)) as He.
  pose proof (so_version _ _ He) as Hv. unfold supported, SOFTWARE_VERSION_EARLIEST in Hv.
  assert (HC : SOFTWARE_VERSION_CURRENT = 106) by done.
  unfold request_items in Hl. apply laid_out_app in Hl as [Hl1 Hl]. apply laid_out_app in Hl as [Hl2 Hl].
  change (head_items p es) with ([IUInt32 (rq_version p)] ++ datas_items (rq_version p) (plain_entries p es)) in *.
  rewrite !end_of_app in Hl2, Hl. apply laid_out_app in Hl1 as [Hl0 Hl1].
  assert (Htail : forall o, reach (zlen m) (end_of (zlen m) o (syncer_items p)) ->
    laid_out (zlen m) (end_of (zlen m) o (syncer_items p))
      ((if id =? QUERY_SYNC_MESSAGE then query_part p ++ query_pad p else []) ++ compress_items p es) m ->
    exists q, read_data_tail id (partial_request p es) (cursor m (end_of (zlen m) o (syncer_items p)))
      = Some ((E_OK, Some (received_request id p es)), q)).
  { intros o Ho Hlo. apply read_tail; try done. rewrite syncer_end. unfold align8. lia. }
  set (o1 := end_of (zlen m) (end_of (zlen m) 0 [IUInt32 (rq_version p)]) _) in *.
  destruct (reads_datas _ _ Hh He) as [Hok1 _]. destruct (reads_syncer id p es newDataRequest Hr Hp) as [Hok2 _].
  assert (Hr0 : reach (zlen m) (end_of (zlen m) 0 [IUInt32 (rq_version p)])).
  { apply end_of_reach; [| apply reach_start | by eapply laid_out_fits]. constructor; [cbn; lia | constructor]. }
  assert (Hr1 : reach (zlen m) o1) by (by apply end_of_reach; [| | eapply laid_out_fits]).
  assert (Hr2 : reach (zlen m) (end_of (zlen m) o1 (syncer_items p))) by (by apply end_of_reach; [| | eapply laid_out_fits]).
  destruct (Htail o1 Hr2 Hl) as [q Eq]. exists q. unfold read_data_packet.
  eapply reads_then; [apply (reads_UInt32 0 (rq_version p)); lia | done | apply reach_start | done | intros _; cbv beta iota].
  eapply reads_then; [apply reads_IsError | done | done | done | intros _; cbn [end_of]; cbv iota].
  rewrite (proj2 (Z.ltb_ge _ _)) by lia.
  eapply reads_then; [by apply reads_datas | done | done | done | intros _; cbv beta iota].
  eapply reads_then; [apply reads_IsError | done | done | done | intros _; cbn [end_of]; cbv iota].
  rewrite Hh. cbn [negb]. cbv zeta.
  eapply reads_then; [by apply (reads_syncer id p es) | done | done | done | intros _; cbv beta iota].
  cbn [Z.eqb E_OK negb]. exact Eq.
Qed.

(** * The registered functions *)

(** A message whose writer fills the computed length and whose reader gives [o] back. *)
Lemma codec_of (m : SyncMessage) r l n o :
  writes r l E_OK -> Forall no_blob l -> end_of n 0 l <= n -> 0 < n <= MAX_DATA_LEN ->
  sm_CalculateLen (Some m) = Some n ->
  (forall w, sm_Serialization (Some w) n (Some m) = on_buffer w n r) ->
  (forall m' data, messageId_ m' = messageId_ m -> messageType_ m' = messageType_ m -> zlen data = n ->
     laid_out (zlen data) 0 l data ->
     sm_DeSerialization (Some data) n (Some m') = Some (E_OK, Some (set_object m' o))) ->
  codec sync_transform m n o.
Proof.
  intros [Hok W] Hb He Hn Hlen Hser Hdes. pose proof MAX_DATA_LEN_small. constructor; (eexists; split; [reflexivity |]); cbv beta.
  - by rewrite Hlen.
  - intros window Hz.
    destruct (W window 0) as (data & E & Hd & Hl & _).
    + rewrite Hz. unfold INT32_MAX. lia.
    + apply reach_start.
    + rewrite Hz. by apply all_fit_end.
    + exists data. rewrite Hser. unfold on_buffer. rewrite new_cursor_of by (done || lia). rewrite E.
      split; [done |]. constructor; [congruence |]. eexists. split; [reflexivity |]. cbv beta.
      intros m' Hid Ht. rewrite Hdes; [done | done | done | congruence |]. by rewrite Hd.
Qed.

(** ** Requests *)

Lemma request_codec (m : SyncMessage) p es : heap_obj = true ->
  messageId_ m = DATA_SYNC_MESSAGE \/ messageId_ m = QUERY_SYNC_MESSAGE -> messageType_ m = TYPE_REQUEST ->
  holderPtr_ m = Some (ODataRequest p) -> request_ok (messageId_ m) p es ->
  codec sync_transform m (request_size (messageId_ m) p es) (ODataRequest (received_request (messageId_ m) p es)).
Proof.
  intros Hh Hid Ht Ho Hr.
  assert (Hctl : (messageId_ m =? CONTROL_SYNC_MESSAGE) = false) by (by destruct Hid as [-> | ->]).
  assert (Hpos : 0 < request_size (messageId_ m) p es).
  { pose proof (base_pos p es). pose proof (align8_bounds (base_size p es)). pose proof (field_size_pos (rq_queryId p)).
    pose proof (query_size_pos (rq_query p)). pose proof (field_size_pos (rq_compressData p)).
    unfold request_size. destruct (messageId_ m =? QUERY_SYNC_MESSAGE); destruct (IsCompressData p); lia. }
  apply (codec_of m (write_data_packet p (messageId_ m)) (request_items (messageId_ m) p es)).
  - by apply writes_request.
  - apply request_no_blob.
  - by apply request_end.
  - split; [done | apply (ro_size _ _ _ Hr)].
  - unfold sm_CalculateLen, sm_IsPacketValid. rewrite Ht, Hctl. cbn [Z.eqb orb negb].
    unfold CalculateDataLen. rewrite Ht. unfold DataPacketCalculateLen, GetDataRequest. rewrite Ho.
    cbn. by rewrite (rq_CalculateLen_eq _ _ _ Hr).
  - intros w. unfold sm_Serialization, sm_IsPacketValid. rewrite Ht, Hctl. cbn [Z.eqb orb negb].
    unfold DataSerialization. rewrite Ht. unfold DataPacketSerialization, GetDataRequest. by rewrite Ho.
  - intros m' data Hid' Ht' Hz Hl. unfold sm_DeSerialization, sm_IsPacketValid. rewrite Ht', Ht, Hid', Hctl.
    cbn [Z.eqb orb negb]. unfold DataDeSerialization. rewrite Ht', Ht. cbn [Z.eqb TYPE_REQUEST Pos.eqb].
    unfold DataPacketDeSerialization. rewrite new_cursor_of by (done || lia). rewrite Hid'.
    destruct (read_request (messageId_ m) p es data Hh Hr) as [q E]; [| done |].
    + pose proof MAX_DATA_LEN_small. pose proof (ro_size _ _ _ Hr). unfold INT32_MAX. lia.
    + rewrite (run_bind_eq _ _ _ _ _ E). cbn. unfold SetObject. by rewrite Hh.
Qed.

(** ** Acknowledgements *)

Record ack_ok (p : DataAckPacket) : Prop := {
  ao_data : 0 <= ak_data p < 2 ^ 64;
  ao_code : - 2 ^ 31 <= ak_recvCode p < 2 ^ 31;
  ao_version : 0 <= ak_version p <= SOFTWARE_VERSION_CURRENT;
  ao_reserved : Forall (fun v => 0 <= v < 2 ^ 64) (ak_reserved p);
  ao_size : 16 + align8 (4 + 8 * zlen (ak_reserved p)) <= MAX_DATA_LEN
}.

Definition ack_size (p : DataAckPacket) : Z := 16 + align8 (4 + 8 * zlen (ak_reserved p)).

Definition ack_items (p : DataAckPacket) : list Item :=
  [IUInt32 (ak_version p); IUInt64 (ak_data p); IInt (ak_recvCode p); IVector 8 (ak_reserved p)].

Lemma ack_end t p : end_of t 0 (ack_items p ++ [IAlign]) = ack_size p /\ end_of t 0 (ack_items p) = ack_size p.
Proof.
  assert (E : end_of t 0 (ack_items p) = ack_size p).
  { rewrite end_of_fixed by (by repeat constructor). cbn [ack_items sum_of foldr].
    rewrite isize_UInt32, isize_UInt64, isize_Int, isize_Vector. unfold ack_size.
    replace (4 + zlen (ak_reserved p) * Z.of_nat 8) with (4 + 8 * zlen (ak_reserved p)) by lia. lia. }
  split; [| done]. rewrite end_of_app, E. cbn [end_of adv]. unfold ack_size.
  rewrite (align8_id (16 + _)) by (unfold align8; lia). lia.
Qed.

Lemma ack_codec (m : SyncMessage) p : heap_obj = true ->
  messageId_ m = DATA_SYNC_MESSAGE \/ messageId_ m = QUERY_SYNC_MESSAGE ->
  messageType_ m = TYPE_RESPONSE \/ messageType_ m = TYPE_NOTIFY ->
  holderPtr_ m = Some (ODataAck p) -> ack_ok p -> codec sync_transform m (ack_size p) (ODataAck p).
Proof.
  intros Hh Hid Ht Ho Hp. pose proof Hp as [Hd Hc Hv Hres Hs]. pose proof MAX_DATA_LEN_small.
  assert (HC : SOFTWARE_VERSION_CURRENT = 106) by done.
  pose proof (zlen_nonneg (ak_reserved p)). pose proof (align8_bounds (4 + 8 * zlen (ak_reserved p))).
  assert (Hctl : (messageId_ m =? CONTROL_SYNC_MESSAGE) = false) by (by destruct Hid as [-> | ->]).
  assert (Hreq : (messageType_ m =? TYPE_REQUEST) = false) by (by destruct Ht as [-> | ->]).
  assert (Hack : (messageType_ m =? TYPE_RESPONSE) || (messageType_ m =? TYPE_NOTIFY) = true) by (by destruct Ht as [-> | ->]).
  assert (Hvec : item_ok (IVector 8 (ak_reserved p))) by (cbn [item_ok]; split_and!; [lia | lia | done | lia]).
  destruct (ack_end 0 p) as [_ _].
  apply (codec_of m (_ ← WriteUInt32 (ak_version p); unless_error (- E_PARSE_FAIL) (AckPacketSyncerPartSerializationV1 p))
           (ack_items p ++ [IAlign])).
  - cbn [ack_items app]. apply (writes_step (IUInt32 _)); [cbn; lia |]. apply writes_unless.
    apply (writes_step (IUInt64 _)); [done |]. apply (writes_step (IInt _)); [done |].
    apply (writes_step (IVector 8 _)); [done |]. apply writes_unless, writes_align_step, writes_ret.
  - by repeat constructor.
  - by rewrite (proj1 (ack_end _ p)).
  - unfold ack_size. lia.
  - unfold sm_CalculateLen, sm_IsPacketValid. rewrite <- orb_assoc, Hack, orb_true_r, Hctl. cbn [negb].
    unfold CalculateDataLen. rewrite Hreq, Hack. unfold AckPacketCalculateLen, GetDataAck. rewrite Ho. cbn.
    unfold ak_CalculateLen. rewrite vector_len by lia. change (GetUInt64Len + GetIntLen + GetUInt32Len) with 16.
    no_wrap. unfold GetEightByteAlign. rewrite byte8_align_align8, align8_id by (unfold align8; lia).
    unfold INT32_MAX. rewrite (proj2 (Z.ltb_ge _ _)) by lia. by no_wrap.
  - intros w. unfold sm_Serialization, sm_IsPacketValid. rewrite <- orb_assoc, Hack, orb_true_r, Hctl. cbn [negb].
    unfold DataSerialization. rewrite Hreq, Hack. unfold AckPacketSerialization, GetDataAck. by rewrite Ho.
  - intros m' data Hid' Ht' Hz Hl. unfold sm_DeSerialization, sm_IsPacketValid.
    rewrite <- orb_assoc, Ht', Hack, orb_true_r, Hid', Hctl. cbn [negb]. unfold DataDeSerialization. rewrite Ht', Hreq, Hack.
    unfold AckPacketDeSerialization. rewrite new_cursor_of by (done || (unfold ack_size; lia)).
    apply laid_out_app in Hl as [Hl _].
    assert (R : reads read_ack_packet (ack_items p) (fun _ => (E_OK, Some (ODataAck p)))).
    { unfold read_ack_packet, ack_items.
      eapply reads_step; [apply reads_UInt32; lia | intros ?; cbv beta iota].
      eapply reads_pure; [apply reads_IsError |]. cbv iota. rewrite (proj2 (Z.ltb_ge _ _)) by lia.
      rewrite <- (app_nil_r (_ :: _)). eapply (reads_bind _ _ _ _ (fun _ => (E_OK, p))).
      2: { intros ?. cbv beta iota. by apply reads_ret. }
      unfold AckPacketSyncerPartDeSerializationV1.
      eapply reads_step; [by apply reads_UInt64 | intros ?; cbv beta iota].
      eapply reads_step; [by apply reads_Int | intros ?; cbv beta iota].
      eapply reads_step; [by apply reads_Vector | intros ?; cbv beta iota].
      eapply reads_pure; [apply reads_IsError |]. cbv iota. apply reads_ret. by destruct p. }
    destruct R as [_ R]. rewrite (R data 0); [| rewrite Hz; unfold ack_size, INT32_MAX; lia | apply reach_start | done].
    cbn. unfold SetObject. by rewrite Hh.
Qed.

(** ** Subscriptions *)

Record control_ok (p : ControlRequestPacket) : Prop := {
  co_version : 0 <= cr_version p <= SOFTWARE_VERSION_CURRENT;
  co_code : - 2 ^ 31 <= cr_sendCode p < 2 ^ 31;
  co_cmd : cr_controlCmdType p = SUBSCRIBE_QUERY_CMD \/ cr_controlCmdType p = UNSUBSCRIBE_QUERY_CMD;
  co_flag : 0 <= cr_flag p < 2 ^ 32
}.

Definition control_items (p : ControlRequestPacket) : list Item :=
  [IUInt32 (cr_version p); IInt (cr_sendCode p); IUInt32 (cr_controlCmdType p); IUInt32 (cr_flag p)].

Lemma subscribe_codec (m : SyncMessage) p : heap_obj = true ->
  messageId_ m = CONTROL_SYNC_MESSAGE -> messageType_ m = TYPE_REQUEST ->
  holderPtr_ m = Some (OSubscribe p) -> control_ok (sr_control p) -> query_ok (sr_query p) ->
  16 + query_size (sr_query p) <= MAX_DATA_LEN ->
  codec sync_transform m (16 + query_size (sr_query p))
    (OSubscribe (mkSubscribe (sr_control p) (received_query (sr_query p)))).
Proof.
  intros Hh Hid Ht Ho [Hv Hc Hcmd Hf] Hq Hs. pose proof MAX_DATA_LEN_small. pose proof (query_size_pos (sr_query p)).
  assert (HC : SOFTWARE_VERSION_CURRENT = 106) by done.
  assert (Hsub : (INVALID_CONTROL_CMD <=? cr_controlCmdType (sr_control p)) = false
     /\ is_subscription (cr_controlCmdType (sr_control p)) = true) by (by destruct Hcmd as [-> | ->]).
  destruct Hsub as [Hinv Hsub].
  assert (Hcu : 0 <= cr_controlCmdType (sr_control p) < 2 ^ 31) by (by destruct Hcmd as [-> | ->]).
  assert (Hend : forall t, end_of t 0 (control_items (sr_control p)) = 16) by done.
  apply (codec_of m (then_write (ControlRequestSerialization (sr_control p))
                       (q_SerializeData (sr_query p) SOFTWARE_VERSION_CURRENT))
           ((control_items (sr_control p) ++ [IAlign]) ++ query_items (sr_query p) ++ [IAlign])).
  - apply writes_then; [| by apply writes_query]. unfold ControlRequestSerialization. cbn [control_items app].
    apply (writes_step (IUInt32 _)); [cbn; lia |]. apply (writes_step (IInt _)); [done |].
    apply (writes_step (IUInt32 _)); [cbn; lia |]. apply (writes_step (IUInt32 _)); [done |].
    apply writes_unless, writes_align_step, writes_ret.
  - apply Forall_app. split; [by repeat constructor |]. apply Forall_app. split; [apply query_no_blob | by repeat constructor].
  - rewrite end_of_app. change (end_of _ 0 (control_items (sr_control p) ++ [IAlign])) with 16.
    rewrite query_end_align by done. by apply query_end.
  - lia.
  - unfold sm_CalculateLen, sm_IsPacketValid. rewrite Ht, Hid. cbn [Z.eqb orb negb].
    unfold CalculateControlLen. rewrite Ht. unfold ControlPacketCalculateLen, GetControlRequest. rewrite Ho.
    cbn [mbind option_bind Z.eqb Pos.eqb TYPE_REQUEST CONTROL_SYNC_MESSAGE]. rewrite Hinv, Hsub. unfold SubscribeCalculateLen, GetSubscribe. rewrite Ho. cbn.
    unfold sr_CalculateLen. change cr_CalculateLen with 16. cbn [Z.eqb]. unfold CalculateParcelLen.
    rewrite Z.eqb_refl, (q_CalculateLen_eq _ Hq). no_wrap. unfold INT32_MAX.
    by rewrite (proj2 (Z.ltb_ge _ _)) by lia.
  - intros w. unfold sm_Serialization, sm_IsPacketValid. rewrite Ht, Hid. cbn [Z.eqb orb negb].
    unfold ControlSerialization. rewrite Ht. unfold ControlPacketSerialization, GetControlRequest. rewrite Ho.
    cbn [mbind option_bind Z.eqb Pos.eqb TYPE_REQUEST CONTROL_SYNC_MESSAGE]. rewrite Hinv, Hsub.
    unfold SubscribeSerialization, GetSubscribe. by rewrite Ho.
  - intros m' data Hid' Ht' Hz Hl. unfold sm_DeSerialization, sm_IsPacketValid. rewrite Ht', Ht, Hid', Hid.
    cbn [Z.eqb orb negb]. unfold ControlDeSerialization. rewrite Ht', Ht.
    cbn [Z.eqb Pos.eqb TYPE_REQUEST CONTROL_SYNC_MESSAGE]. unfold ControlPacketDeSerialization.
    rewrite new_cursor_of by (done || lia).
    apply laid_out_app in Hl as [Hl1 Hl2]. apply laid_out_app in Hl1 as [Hl1 _]. apply laid_out_app in Hl2 as [Hl2 _].
    change (end_of _ 0 (control_items (sr_control p) ++ [IAlign])) with 16 in Hl2.
    assert (R : reads read_control_packet (control_items (sr_control p) ++ query_items (sr_query p))
      (fun _ => (E_OK, Some (OSubscribe (mkSubscribe (sr_control p) (received_query (sr_query p))))))).
    { unfold read_control_packet. eapply (reads_bind _ _ _ _ (fun _ => (E_OK, sr_control p))).
      - unfold ControlRequestDeSerialization, control_items.
        eapply reads_step; [apply reads_UInt32; lia | intros ?; cbv beta iota]. rewrite (proj2 (Z.ltb_ge _ _)) by lia.
        eapply reads_step; [by apply reads_Int | intros ?; cbv beta iota].
        eapply reads_step; [apply reads_UInt32; lia | intros ?; cbv beta iota].
        eapply reads_step; [by apply reads_UInt32 | intros ?; cbv beta iota].
        eapply reads_pure; [apply reads_IsError |]. cbv iota. apply reads_ret. unfold cr_SetPacketHead.
        rewrite to_signed_small, u32_small by lia. by destruct (sr_control p).
      - intros ?. cbv beta iota. cbn [Z.eqb E_OK negb]. rewrite Hsub. unfold SubscribeDeSerialization. rewrite Hh. cbn [negb].
        rewrite <- (app_nil_r (query_items _)). eapply reads_bind; [by apply reads_query |].
        intros ?. cbv beta iota. cbn [Z.eqb E_OK negb]. apply reads_ret. unfold cr_SetPacketHead.
        rewrite to_signed_small, u32_small by lia. by destruct (sr_control p). }
    destruct R as [_ R]. rewrite (R data 0); [| rewrite Hz; unfold INT32_MAX; lia | apply reach_start |].
    + cbn. unfold SetObject. by rewrite Hh.
    + apply laid_out_app. by rewrite Hend.
Qed.

(** ** Their acknowledgements *)

Record control_ack_ok (p : ControlAckPacket) : Prop := {
  cao_version : 0 <= ca_version p < 2 ^ 32;
  cao_code : - 2 ^ 31 <= ca_recvCode p < 2 ^ 31;
  cao_cmd : 0 <= ca_controlCmdType p < 2 ^ 32;
  cao_flag : 0 <= ca_flag p < 2 ^ 32
}.

Definition control_ack_items (p : ControlAckPacket) : list Item :=
  [IUInt32 (ca_version p); IInt (ca_recvCode p); IUInt32 (ca_controlCmdType p); IUInt32 (ca_flag p)].

(** Through [int32_t] and back. *)
Lemma u32_signed x : 0 <= x < 2 ^ 32 -> u32 (to_signed 32 x) = x.
Proof.
  intros Hx. unfold to_signed. rewrite Z.mod_small by lia. unfold wrap. destruct (_ <? _); [by rewrite Z.mod_small by lia |].
  replace (x - 2 ^ 32) with (x + (-1) * 2 ^ 32) by lia. rewrite Z.mod_add by done. by rewrite Z.mod_small by lia.
Qed.

Lemma control_ack_codec (m : SyncMessage) p : heap_obj = true ->
  messageId_ m = CONTROL_SYNC_MESSAGE -> messageType_ m = TYPE_RESPONSE ->
  holderPtr_ m = Some (OControlAck p) -> control_ack_ok p -> codec sync_transform m 16 (OControlAck p).
Proof.
  intros Hh Hid Ht Ho [Hv Hc Hcmd Hf].
  apply (codec_of m (_ ← WriteUInt32 (ca_version p); _ ← WriteInt (ca_recvCode p); _ ← WriteUInt32 (ca_controlCmdType p);
      _ ← WriteUInt32 (ca_flag p); unless_error (- E_INVALID_ARGS) (_ ← EightByteAlign; mret E_OK))
    (control_ack_items p ++ [IAlign])).
  - cbn [control_ack_items app]. apply (writes_step (IUInt32 _)); [done |]. apply (writes_step (IInt _)); [done |].
    do 2 (apply (writes_step (IUInt32 _)); [done |]). apply writes_unless, writes_align_step, writes_ret.
  - by repeat constructor.
  - done.
  - done.
  - unfold sm_CalculateLen, sm_IsPacketValid. rewrite Ht, Hid. cbn [Z.eqb orb negb].
    unfold CalculateControlLen. rewrite Ht. unfold AckControlPacketCalculateLen, GetControlAck. by rewrite Ho.
  - intros w. unfold sm_Serialization, sm_IsPacketValid. rewrite Ht, Hid. cbn [Z.eqb orb negb].
    unfold ControlSerialization. rewrite Ht. unfold AckControlPacketSerialization, GetControlAck. by rewrite Ho.
  - intros m' data Hid' Ht' Hz Hl. unfold sm_DeSerialization, sm_IsPacketValid. rewrite Ht', Ht, Hid', Hid.
    cbn [Z.eqb orb negb]. unfold ControlDeSerialization. rewrite Ht', Ht.
    cbn [Z.eqb Pos.eqb TYPE_REQUEST TYPE_RESPONSE CONTROL_SYNC_MESSAGE]. unfold AckControlPacketDeSerialization.
    rewrite new_cursor_of by done. apply laid_out_app in Hl as [Hl _].
    assert (R : reads read_control_ack (control_ack_items p) (fun _ => (E_OK, Some (OControlAck p)))).
    { unfold read_control_ack, control_ack_items. rewrite Hh. cbn [negb].
      eapply reads_step; [by apply reads_UInt32 | intros ?; cbv beta iota].
      eapply reads_step; [by apply reads_Int | intros ?; cbv beta iota].
      do 2 (eapply reads_step; [by apply reads_UInt32 | intros ?; cbv beta iota]).
      eapply reads_pure; [apply reads_IsError |]. cbv iota. apply reads_ret. unfold ca_SetPacketHead.
      rewrite u32_signed by lia. by destruct p. }
    destruct R as [_ R]. rewrite (R data 0); [| by rewrite Hz | apply reach_start | done].
    cbn. unfold SetObject. by rewrite Hh.
Qed.

(** * Round trip *)

(** [sendable m o n]: [m] carries a packet that may be sent, the receiver gets [o], and it
    takes [n] bytes. *)
Inductive sendable (m : SyncMessage) : SyncObject -> Z -> Prop :=
  | sendable_request p es :
      messageId_ m = DATA_SYNC_MESSAGE \/ messageId_ m = QUERY_SYNC_MESSAGE -> messageType_ m = TYPE_REQUEST ->
      holderPtr_ m = Some (ODataRequest p) -> request_ok (messageId_ m) p es ->
      sendable m (ODataRequest (received_request (messageId_ m) p es)) (request_size (messageId_ m) p es)
  | sendable_ack p :
      messageId_ m = DATA_SYNC_MESSAGE \/ messageId_ m = QUERY_SYNC_MESSAGE ->
      messageType_ m = TYPE_RESPONSE \/ messageType_ m = TYPE_NOTIFY ->
      holderPtr_ m = Some (ODataAck p) -> ack_ok p -> sendable m (ODataAck p) (ack_size p)
  | sendable_subscribe p :
      messageId_ m = CONTROL_SYNC_MESSAGE -> messageType_ m = TYPE_REQUEST ->
      holderPtr_ m = Some (OSubscribe p) -> control_ok (sr_control p) -> query_ok (sr_query p) ->
      16 + query_size (sr_query p) <= MAX_DATA_LEN ->
      sendable m (OSubscribe (mkSubscribe (sr_control p) (received_query (sr_query p)))) (16 + query_size (sr_query p))
  | sendable_control_ack p :
      messageId_ m = CONTROL_SYNC_MESSAGE -> messageType_ m = TYPE_RESPONSE ->
      holderPtr_ m = Some (OControlAck p) -> control_ack_ok p -> sendable m (OControlAck p) 16.

Lemma sendable_codec m o n : heap_obj = true -> sendable m o n -> codec sync_transform m n o.
Proof.
  intros Hh []; [by apply request_codec | by apply ack_codec | by apply subscribe_codec | by apply control_ack_codec].
Qed.

Lemma sendable_size m o n : sendable m o n -> 0 < n <= MAX_DATA_LEN.
Proof.
  intros [p es _ _ _ Hr | p _ _ _ [] | p _ _ _ _ _ Hs | p _ _ _ _].
  - split; [| apply (ro_size _ _ _ Hr)].
    pose proof (base_pos p es). pose proof (align8_bounds (base_size p es)). pose proof (field_size_pos (rq_queryId p)).
    pose proof (query_size_pos (rq_query p)). pose proof (field_size_pos (rq_compressData p)).
    unfold request_size. destruct (messageId_ m =? QUERY_SYNC_MESSAGE); destruct (IsCompressData p); lia.
  - pose proof (zlen_nonneg (ak_reserved p)). pose proof (align8_bounds (4 + 8 * zlen (ak_reserved p))). unfold ack_size. lia.
  - pose proof (query_size_pos (sr_query p)). lia.
  - done.
Qed.

Lemma sendable_registered m o n : sendable m o n ->
  (sm_RegisterTransformFunc ∅).2 !! messageId_ m = Some sync_transform.
Proof. by intros [p es [-> | ->] | p [-> | ->] | p -> | p ->]. Qed.

(** C33: Every packet of the data synchronization reaches the other device as it was sent:
    data requests of the plain and of the query synchronization, to a device of any
    supported version, with plain or compressed entries, their acknowledgements and
    notifications, (un)subscriptions and their acknowledgements. For a data request the
    receiver has the entries as the format of its version carries them, the water marks,
    codes and reserved numbers, and, for a query, its conditions; the computed length is
    enough for all of it, and no step of writing, framing or reading fails. *)
Theorem sync_packet_roundtrip src (m : SyncMessage) o n h e head label frameId :
  heap_total -> message_ok m -> IsFeedbackErrorMessage (errorNo_ m) = false ->
  sendable m o n -> handle_ok h e head ->
  zlen label = COMM_LABEL_LENGTH -> 0 <= frameId < 2 ^ 32 ->
  let reg := (sm_RegisterTransformFunc ∅).2 in
  exists b r rb,
    ToSerialBuffer reg (Some m) h false = Some (E_OK, Some b) /\
    transports src b label frameId r rb /\ commLabel_ r = label /\
    ToMessage reg (Some rb) false = Some (E_OK, Some (received m (Some o))).
Proof.
  intros Hheap Hm Hfb Hs Hh Hl Hf reg. pose proof (sendable_size m o n Hs) as Hn. pose proof MAX_DATA_LEN_small.
  destruct (app_message_ok src reg sync_transform m n o h e head label frameId)
    as (b & r & rb & E1 & E2 & _ & _ & E3 & E4); try done.
  - by eapply sendable_registered.
  - apply sendable_codec; [apply Hheap | done].
  - lia.
  - rewrite byte8_align_align8 by lia. fold MAX_DATA_LEN. assert (HM : MAX_DATA_LEN mod 8 = 0) by done.
    unfold align8. lia.
  - eauto 10.
Qed.

(** C34: The identity of a query that is received is the identity the sender computed, so
    that both sides keep their query water marks under the same name: a query that may be
    sent is written into any buffer of the computed length, and what is read back from it
    has the same identity. *)
Theorem query_identity_agrees `{ValueHash} (m : list byte) (q x : QuerySyncObject) v :
  query_ok q -> CalculateParcelLen q SOFTWARE_VERSION_CURRENT <= zlen m <= INT32_MAX ->
  exists p m' q' p',
    q_SerializeData q v (newParcel (Some m) (zlen m)) = Some (E_OK, p) /\ buf_ p = Some m' /\
    q_DeSerializeData x (newParcel (Some m') (zlen m')) = Some ((E_OK, q'), p') /\
    GetIdentify q' = GetIdentify q.
Proof.
  intros Hq Hm. unfold CalculateParcelLen in Hm. rewrite Z.eqb_refl, q_CalculateLen_eq in Hm by done.
  assert (Hpos : 16 <= query_size q).
  { pose proof (field_size_pos (prefixKey_ q)). pose proof (field_size_pos (suggestIndex_ q)).
    pose proof (field_size_pos (tableName_ q)). pose proof (sum_of_nonneg _ (queryObjNodes_ q) node_size_pos).
    pose proof (sum_of_nonneg _ (keys_ q) field_size_pos). unfold query_size. change (field_size MAGIC) with 16.
    destruct (isTableNameSpecified_ q); lia. }
  rewrite new_cursor by lia. destruct (writes_query q v Hq) as [_ W].
  destruct (W m 0) as (m' & E & Hz & Hl & _); [lia | apply reach_start | |].
  { apply all_fit_end; [apply Forall_app; split; [apply query_no_blob | by repeat constructor] |].
    rewrite query_end_align by done. destruct (query_end (zlen m) 0 q eq_refl). lia. }
  apply laid_out_app in Hl as [Hl _]. rewrite <- Hz in Hl. destruct (reads_query q x Hq) as [_ R].
  eexists _, m', _, _. split; [exact E |]. split; [done |]. rewrite new_cursor by lia.
  split; [apply (R m' 0); [lia | apply reach_start | done] |]. apply identify_same, received_same, Hq.
Qed.

(** * Reading arbitrary bytes *)

Lemma stays_tail id x : stays (read_data_tail id x).
Proof.
  unfold read_data_tail, DataPacketQuerySyncDeSerialization, DataPacketCompressDataDeSerialization. cbv zeta. stays.
Qed.

#[local] Hint Resolve stays_tail : parcel.

Lemma stays_packets id : stays (read_data_packet id) /\ stays read_ack_packet /\ stays read_control_packet /\ stays read_control_ack.
Proof.
  split_and!.
  - unfold read_data_packet, DataPacketSyncerPartDeSerialization. cbv zeta. stays.
  - unfold read_ack_packet, AckPacketSyncerPartDeSerializationV1. stays.
  - unfold read_control_packet, ControlRequestDeSerialization, SubscribeDeSerialization. stays.
  - unfold read_control_ack. stays.
Qed.

(** The message after a read: unchanged but for its object, which only a success sets. *)
Definition read_outcome (m : SyncMessage) (r : option (Z * SyncMessage)) : Prop :=
  exists e m', r = Some (e, m') /\ messageId_ m' = messageId_ m /\ messageType_ m' = messageType_ m
    /\ sessionId_ m' = sessionId_ m /\ (e <> E_OK -> m' = m).

Lemma outcome_same m e : read_outcome m (Some (e, m)).
Proof. by exists e, m. Qed.

Lemma put_outcome (r : Run (Z * option SyncObject)) m data : stays r -> zlen data < 2 ^ 32 ->
  read_outcome m (put_object m (r (newParcel (Some data) (zlen data)))).
Proof.
  intros Hr Hz. destruct (Hr _ _ (new_wf data Hz)) as ([e o] & q & -> & _). cbn [put_object mbind option_bind].
  destruct o as [o|]; [| apply outcome_same]. unfold SetObject. destruct heap_obj; cbn [negb]; [| apply outcome_same].
  by exists E_OK, (set_object m o).
Qed.

(** C35: Whatever bytes arrive as the data of a synchronization message, of any id and type,
    reading them never leaves the buffer: the functions registered for the messages return
    a status and a message, which still has its id, type and session. *)
Theorem sync_reader_safe (m : SyncMessage) data : zlen data < 2 ^ 32 ->
  exists e m', sm_DeSerialization (Some data) (zlen data) (Some m) = Some (e, Some m')
    /\ messageId_ m' = messageId_ m /\ messageType_ m' = messageType_ m /\ sessionId_ m' = sessionId_ m
    /\ (e <> E_OK -> m' = m).
Proof.
  intros Hz. destruct (stays_packets (messageId_ m)) as (S1 & S2 & S3 & S4).
  assert (Hd : read_outcome m (DataPacketDeSerialization data (zlen data) m)) by (apply put_outcome; [stays | done]).
  assert (Hout : read_outcome m (if messageId_ m =? CONTROL_SYNC_MESSAGE then ControlDeSerialization data (zlen data) m
                                 else DataDeSerialization data (zlen data) m)).
  { unfold ControlDeSerialization, DataDeSerialization. repeat case_match; try apply outcome_same; try done; by apply put_outcome. }
  unfold sm_DeSerialization. destruct (negb _); [by exists (- E_MESSAGE_ID_ERROR), m |].
  destruct Hout as (e & m' & -> & Hrest). by exists e, m'.
Qed.

End Packets.

(** * Concrete packets *)

Module PacketSample.

#[local] Existing Instance x86_host.
#[local] Existing Instance zero_heap.

(** A stand-in for zlib that puts a byte in front. *)
#[local] Instance marking_zlib : Zlib := {|
  compressBound := fun n => n + 1;
  compress := fun dest src =>
    if zlen dest <? zlen src + 1 then (-5, (dest, 0))
    else (Z_OK, ((x78 :: src) ++ drop (length src + 1) dest, zlen src + 1));
  uncompress := fun room src =>
    if zlen room <? zlen (tail src) then (-5, (room, 0))
    else (Z_OK, (tail src ++ drop (length (tail src)) room, zlen (tail src)))
|}.

Lemma marking_laws : ZlibLaws.
Proof.
  split.
  - intros n Hn. cbn. lia.
  - intros dest src d n. cbn [compress marking_zlib].
    destruct (Z.ltb_spec (zlen dest) (zlen src + 1)) as [| Hd]; [done |]. intros [= <- <-].
    pose proof (zlen_nonneg src). change (x78 :: src ++ ?l) with ((x78 :: src) ++ l).
    assert (Ez : zlen ((x78 :: src) ++ drop (length src + 1) dest) = zlen dest).
    { unfold zlen in *. rewrite length_app, length_drop. cbn [length]. lia. }
    split; [rewrite Ez; lia |]. split; [exact Ez |]. intros room Hroom.
    replace (Z.to_nat (zlen src + 1)) with (length (x78 :: src)) by (unfold zlen; cbn [length]; lia).
    rewrite take_app_length. cbn [uncompress marking_zlib tail]. rewrite (proj2 (Z.ltb_ge _ _)) by lia.
    eexists. split; [reflexivity |]. split.
    + unfold zlen in *. rewrite length_app, length_drop. lia.
    + rewrite to_nat_zlen. apply take_app_length.
  - intros room src e d n. cbn [uncompress marking_zlib]. pose proof (zlen_nonneg room). pose proof (zlen_nonneg (tail src)).
    destruct (Z.ltb_spec (zlen room) (zlen (tail src))); intros [= _ _ <-]; lia.
Qed.

#[local] Existing Instance marking_laws.

Definition item (n : Z) : DataItem := mkDataItem [x61; z2b n] [x62] (100 + n) 2 [x41] 0 [x42] false [x63; x64].
Definition items : list DataItem := [item 1; item 2].
Definition query : QuerySyncObject :=
  QuerySyncObject_of [mkQueryObjNode QUERY_BY_KEY_PREFIX [] 0 []; mkQueryObjNode IN_KEYS [] 0 [mkFieldValue 7 [x7a]]]
    [x61] [[x61; x01]; [x61; x02]].
Definition compressed : list byte :=
  default [] (snd <$> Compress (Some <$> items) [] (mkCompressInfo ZLIB SOFTWARE_VERSION_CURRENT)).
Definition packet : DataRequestPacket :=
  mkDataRequest (Some <$> items) 102 50 40 0 QUERY_PUSH 3 SOFTWARE_VERSION_CURRENT [9] (IS_LAST_SEQUENCE + IS_COMPRESS_DATA)
    query [x71] 30 compressed ZLIB.
Definition message : SyncMessage :=
  mkMessage MSG_VERSION_EXT TYPE_REQUEST QUERY_SYNC_MESSAGE 7 1 NO_ERROR (Some (ODataRequest packet)) [] NORMAL.

Lemma query_fine : query_ok query.
Proof.
  split; [vm_compute; reflexivity | | | vm_compute; congruence | vm_compute; congruence | vm_compute; congruence].
  - repeat (constructor; [split; [vm_compute; split; reflexivity | vm_compute; split; congruence | repeat constructor; cbn; lia] |]).
    constructor.
  - repeat constructor.
Qed.

Lemma packet_fine : request_ok QUERY_SYNC_MESSAGE packet items.
Proof.
  split.
  - reflexivity.
  - split; [vm_compute; split; congruence | repeat (constructor; [split; vm_compute; split; congruence |]); constructor | vm_compute; congruence].
  - cbn. lia.
  - cbn. lia.
  - cbn. lia.
  - cbn. lia.
  - unfold packet, QUERY_PUSH. cbn. lia.
  - cbn. lia.
  - unfold packet. cbn [rq_reserved]. repeat constructor; lia.
  - unfold packet. cbn [rq_flag]. unfold IS_LAST_SEQUENCE, IS_COMPRESS_DATA. lia.
  - cbn. lia.
  - intros _. apply query_fine.
  - intros _. split; [reflexivity |]. exists []. vm_compute. reflexivity.
  - vm_compute. congruence.
Qed.

Lemma sync_packet_roundtrip_witness :
  exists b r rb,
    ToSerialBuffer (sm_RegisterTransformFunc ∅).2 (Some message) None false = Some (E_OK, Some b) /\
    transports [x61] b (replicate 32 x33) 4 r rb /\ commLabel_ r = replicate 32 x33 /\
    ToMessage (sm_RegisterTransformFunc ∅).2 (Some rb) false =
      Some (E_OK, Some (received message (Some (ODataRequest (received_request QUERY_SYNC_MESSAGE packet items))))).
Proof.
  apply (sync_packet_roundtrip [x61] message _ (request_size QUERY_SYNC_MESSAGE packet items) None 0 [] (replicate 32 x33) 4).
  - exact zero_heap_total.
  - constructor; cbn; unfold QUERY_SYNC_MESSAGE, NO_ERROR; auto; lia.
  - reflexivity.
  - apply (sendable_request message packet items); auto. apply packet_fine.
  - repeat split; vm_compute; congruence.
  - reflexivity.
  - lia.
Defined.

#[local] Instance plain_hash : ValueHash := {| value_hash := fun v => Some v |}.

Lemma query_identity_agrees_witness :
  exists p m' q' p',
    q_SerializeData query SOFTWARE_VERSION_CURRENT (newParcel (Some (replicate 200 x00)) 200) = Some (E_OK, p) /\
    buf_ p = Some m' /\
    q_DeSerializeData newQuerySyncObject (newParcel (Some m') (zlen m')) = Some ((E_OK, q'), p') /\
    GetIdentify q' = GetIdentify query.
Proof.
  apply (query_identity_agrees (replicate 200 x00) query newQuerySyncObject SOFTWARE_VERSION_CURRENT query_fine).
  vm_compute. split; congruence.
Defined.

Lemma sync_reader_safe_witness :
  exists e m', sm_DeSerialization (Some (replicate 24 xff)) 24 (Some message) = Some (e, Some m')
    /\ messageId_ m' = QUERY_SYNC_MESSAGE /\ messageType_ m' = TYPE_REQUEST /\ sessionId_ m' = 7
    /\ (e <> E_OK -> m' = message).
Proof. apply (sync_reader_safe message (replicate 24 xff)). vm_compute. reflexivity. Defined.

End PacketSample.
