(* ===== verification/DbAbility.v ===== *)
(** Model of [DbAbility] (syncer/src/db_ability.cpp, sync_config.cpp): what the data base of
    another device can do, as bits that travel in the ability packets. *)

From S2P Require Import Prelude Memory Parcel ParcelFacts QuerySync ParcelRuns.
From Stdlib Require Import ZArith Lia.
From Stdlib Require Import Strings.Byte.
From stdpp Require Import base numbers list.

Open Scope Z_scope.

(** An ability: its first bit and the number of its bits. *)
Abbreviation AbilityItem := (Z * Z)%type.

Definition DATABASE_COMPRESSION_ZLIB : AbilityItem := (0, 1).
Definition ALLPREDICATEQUERY : AbilityItem := (1, 1).
Definition SUBSCRIBEQUERY : AbilityItem := (2, 1).
Definition INKEYS_QUERY : AbilityItem := (3, 1).

Definition ABILITYBITS : list AbilityItem :=
  [DATABASE_COMPRESSION_ZLIB; ALLPREDICATEQUERY; SUBSCRIBEQUERY; INKEYS_QUERY].

Definition SUPPORT_MARK : Z := 1.
Definition SERIALIZE_BIT_SIZE : Z := 64.

(** [dbAbility_]; the set of the known abilities is always [ABILITYBITS]. *)
Abbreviation DbAbility := (list bool).

(** The last ability ends the bits. *)
Definition ability_bits : Z := match last ABILITYBITS with Some (s, n) => s + n | None => 0 end.

Definition newDbAbility : DbAbility := replicate (Z.to_nat ability_bits) false.

Definition known (item : AbilityItem) : bool := bool_decide (item ∈ ABILITYBITS).

(** The loop of [GetAbilityItem]: the bits, the lowest first, in a [uint8_t]. *)
Fixpoint ability_value (bits : list bool) (skip data : Z) : Z :=
  match bits with
  | [] => data
  | b :: bits => ability_value bits (skip + 1) (if b then u8 (data + u8 (Z.shiftl 1 skip)) else data)
  end.

Definition GetAbilityItem (a : DbAbility) (item : AbilityItem) : Z :=
  if negb (known item) then 0
  else if Z.of_nat (length a) <? item.1 + item.2 then 0
  else ability_value (take (Z.to_nat item.2) (drop (Z.to_nat item.1) a)) 0 0.

(** The loop of [SetAbilityItem]; a [uint8_t] is zero after at most eight rounds. *)
Fixpoint set_ability (rounds : nat) (a : DbAbility) (pos data : Z) : DbAbility :=
  match rounds with
  | O => a
  | S rounds =>
    if data =? 0 then a
    else set_ability rounds (<[Z.to_nat pos := negb (data mod 2 =? 0)]> a) (pos + 1) (Z.shiftr data 1)
  end.

Definition SetAbilityItem (a : DbAbility) (item : AbilityItem) (data : Z) : Z * DbAbility :=
  if negb (known item) then (E_OK, a)
  else if 2 ^ item.2 <=? data then (- E_INTERNAL_ERROR, a)
  else
    let a := if Z.of_nat (length a) <? item.1 + item.2
             then a ++ replicate (Z.to_nat (item.1 + item.2) - length a) false else a in
    (E_OK, set_ability 8 a item.1 data).

(** The loop of [Serialize]: bit after bit into words of 64 bits. *)
Fixpoint pack_bits (bits : list bool) (dstBuf : list Z) (buffOffset innerBuffOffset : Z) : list Z :=
  match bits with
  | [] => dstBuf
  | b :: bits =>
    let '(buffOffset, innerBuffOffset) :=
      if SERIALIZE_BIT_SIZE <=? innerBuffOffset then (buffOffset + 1, 0) else (buffOffset, innerBuffOffset) in
    let value := Z.shiftl (Z.b2z b) innerBuffOffset in
    pack_bits bits (alter (fun w => Z.lor w value) (Z.to_nat buffOffset) dstBuf) buffOffset (innerBuffOffset + 1)
  end.

Definition buffer_words (a : DbAbility) : Z :=
  let len := Z.of_nat (length a) in
  let div := len / SERIALIZE_BIT_SIZE in
  if negb (len mod SERIALIZE_BIT_SIZE =? 0) then div + 1 else div.

Definition ability_words (a : DbAbility) : list Z :=
  pack_bits a (replicate (Z.to_nat (buffer_words a)) 0) 0 0.

(** The loop of [DeSerialize], for the bits [targetBuff] from [pos] on. *)
Fixpoint unpack_bits (n : nat) (dstBuf : list Z) (pos buffOffset innerBuffOffset : Z) : list bool :=
  match n with
  | O => []
  | S n =>
    if SERIALIZE_BIT_SIZE * Z.of_nat (length dstBuf) <=? pos then replicate (S n) false
    else
      let '(buffOffset, innerBuffOffset) :=
        if SERIALIZE_BIT_SIZE <=? innerBuffOffset then (buffOffset + 1, 0) else (buffOffset, innerBuffOffset) in
      let word := default 0 (dstBuf !! Z.to_nat buffOffset) in
      negb (Z.land (Z.shiftr word innerBuffOffset) 1 =? 0)
      :: unpack_bits n dstBuf (pos + 1) buffOffset (innerBuffOffset + 1)
  end.

Section Wire.
Context `{Host}.

Definition Serialize (a : DbAbility) : Run Z := WriteVector 8 (ability_words a).

(** Nothing left to read: an older device, and the ability stays as it was. *)
Definition DeSerialize (a : DbAbility) : Run (Z * DbAbility) := fun p =>
  if negb (IsContinueRead p) then Some ((E_OK, a), p)
  else ('(_, dstBuf) ← ReadVector 8 [];
        failed ← IsError;
        if failed : bool then mret (- E_LENGTH_ERROR, a)
        else match dstBuf with
             | [] => mret (- E_LENGTH_ERROR, a)
             | _ => mret (E_OK, unpack_bits (Z.to_nat ability_bits) dstBuf 0 0 0)
             end) p.

Definition CalculateLen (a : DbAbility) : Z := GetVectorLen 8 (replicate (Z.to_nat (buffer_words a)) 0).

End Wire.

(** * Facts *)

(** The words hold the bits. *)
Lemma unpack_words a : length a = Z.to_nat ability_bits ->
  unpack_bits (Z.to_nat ability_bits) (ability_words a) 0 0 0 = a.
Proof.
  change (Z.to_nat ability_bits) with 4%nat. intros Ha.
  destruct a as [|b0 [|b1 [|b2 [|b3 [|]]]]]; try discriminate Ha.
  by destruct b0, b1, b2, b3.
Qed.

Lemma one_word a : length a = Z.to_nat ability_bits -> exists w, ability_words a = [w].
Proof.
  change (Z.to_nat ability_bits) with 4%nat. intros Ha.
  destruct a as [|b0 [|b1 [|b2 [|b3 [|]]]]]; try discriminate Ha. by eexists.
Qed.

(** An ability that is set is there, and the others stay. *)
Lemma ability_set a item other :
  length a = Z.to_nat ability_bits -> item ∈ ABILITYBITS -> other ∈ ABILITYBITS ->
  let '(e, a') := SetAbilityItem a item SUPPORT_MARK in
  e = E_OK /\ length a' = length a
  /\ GetAbilityItem a' other = if decide (other = item) then SUPPORT_MARK else GetAbilityItem a other.
Proof.
  change (Z.to_nat ability_bits) with 4%nat. intros Ha Hi Ho.
  destruct a as [|b0 [|b1 [|b2 [|b3 [|]]]]]; try discriminate Ha.
  unfold ABILITYBITS in *. revert Hi Ho. rewrite !elem_of_cons, !elem_of_nil. intros Hi Ho.
  destruct Hi as [-> | [-> | [-> | [-> | []]]]], Ho as [-> | [-> | [-> | [-> | []]]]];
    by destruct b0, b1, b2, b3.
Qed.

(** Setting an ability to 0 does not take it away. *)
Lemma ability_not_cleared a item : SetAbilityItem a item 0 = (E_OK, a) \/ Z.of_nat (length a) < item.1 + item.2.
Proof.
  unfold SetAbilityItem. destruct (known item) eqn:Ek; cbn [negb]; [| by left].
  destruct (Z.ltb_spec (Z.of_nat (length a)) (item.1 + item.2)); [by right |]. left.
  replace (2 ^ item.2 <=? 0) with false; [done |].
  apply bool_decide_eq_true in Ek. symmetry. apply Z.leb_gt.
  revert Ek. unfold ABILITYBITS. rewrite !elem_of_cons, elem_of_nil.
  intros [-> | [-> | [-> | [-> | []]]]]; done.
Qed.
