(* ===== verification/SqliteUtils.v ===== *)
(** The use of SQLite: the helpers of storage/src/sqlite/sqlite_utils.cpp, the base of the
    executors (storage/src/storage_executor.cpp) and the table [sync_data].

    SQLite is another library: every call into it may fail, as the class [Sqlite] says. What
    is modelled of it is its documented behaviour: a statement that fails has no effect, a
    transaction that is rolled back has none, and some failures roll the transaction back by
    themselves. *)

From S2P Require Import Prelude CommTypes SyncStorage CommitNotify.
From Stdlib Require Import ZArith Lia.
From Stdlib Require Import Strings.Byte.
From stdpp Require Import base numbers list gmap.

Open Scope Z_scope.


(** * Result codes *)

Definition SQLITE_ERROR : Z := 1.
Definition SQLITE_BUSY : Z := 5.
Definition SQLITE_LOCKED : Z := 6.
Definition SQLITE_NOMEM : Z := 7.
Definition SQLITE_INTERRUPT : Z := 9.
Definition SQLITE_IOERR : Z := 10.
Definition SQLITE_CORRUPT : Z := 11.
Definition SQLITE_FULL : Z := 13.
Definition SQLITE_CONSTRAINT : Z := 19.
Definition SQLITE_NOTADB : Z := 26.
(** Result codes of failures lie below the codes [SQLITE_ROW] and [SQLITE_DONE]. *)
Definition SQLITE_ROW : Z := 100.

(** A failure: its code, whether [errno] is [EKEYREVOKED], and whether SQLite rolls the open
    transaction back, which it does for some codes only. *)
Record Fault := mkFault {
  f_code : Z;
  f_revoked : bool;
  f_rollback : bool
}.

(** The outcome of the [n]-th call into SQLite. *)
Class Sqlite := { sq_fault : nat -> option Fault }.

Definition is_failure (f : Fault) : bool := (0 <? f_code f) && (f_code f <? SQLITE_ROW).

Definition rolls_back (f : Fault) : bool :=
  f_rollback f && bool_decide (f_code f ∈ [SQLITE_FULL; SQLITE_IOERR; SQLITE_NOMEM; SQLITE_BUSY; SQLITE_INTERRUPT]).

Definition MapSQLiteErrno (f : Fault) : Z :=
  let errCode := f_code f in
  if errCode =? 0 then E_OK
  else if (errCode =? SQLITE_IOERR) && f_revoked f then - E_EKEYREVOKED
  else if (errCode =? SQLITE_CORRUPT) || (errCode =? SQLITE_NOTADB) then - E_INVALID_PASSWD_OR_CORRUPTED_DB
  else if (errCode =? SQLITE_LOCKED) || (errCode =? SQLITE_BUSY) then - E_BUSY
  else if (errCode =? SQLITE_ERROR) && f_revoked f then - E_EKEYREVOKED
  else - errCode.

(** * The data base *)

(** A row of [sync_data]; its key is the hash key. Integers are signed. *)
Record SyncRow := mkSyncRow {
  r_key : Key;
  r_value : Value;
  r_timestamp : Z;
  r_flag : Z;
  r_device : list byte;
  r_ori_device : list byte;
  r_w_timestamp : Z
}.

Abbreviation Table := (gmap Key SyncRow).

(** [pending] is the state inside the open transaction. *)
Record Database := mkDatabase {
  committed : Table;
  pending : option Table
}.

Definition table (d : Database) : Table := default (committed d) (pending d).

Definition put_table (d : Database) (t : Table) : Database :=
  match pending d with
  | None => mkDatabase t None
  | Some _ => mkDatabase (committed d) (Some t)
  end.

(** A pointer to a prepared statement, with its current row. *)
Abbreviation Stmt := (option (option (Key * SyncRow))).

(** * Executors *)

(** [SQLiteSingleVerStorageExecutor] with the data base of its handle, the number of calls
    into SQLite, its statements for saving ([saveSyncStatements_]) and the notification
    object that the caller passes. *)
Record Executor := mkExecutor {
  db : Database;
  sq_calls : nat;
  isTransactionOpen_ : bool;
  isCorrupted_ : bool;
  isMemDb_ : bool;
  conflictResolvePolicy_ : Z;
  queryStatement : Stmt;
  insertStatement : Stmt;
  updateStatement : Stmt;
  committedData : option CommitNotifyData
}.

Implicit Types x : Executor.

Definition set_db x (d : Database) : Executor :=
  mkExecutor d (sq_calls x) (isTransactionOpen_ x) (isCorrupted_ x) (isMemDb_ x) (conflictResolvePolicy_ x)
    (queryStatement x) (insertStatement x) (updateStatement x) (committedData x).

Definition count_call x : Executor :=
  mkExecutor (db x) (S (sq_calls x)) (isTransactionOpen_ x) (isCorrupted_ x) (isMemDb_ x)
    (conflictResolvePolicy_ x) (queryStatement x) (insertStatement x) (updateStatement x) (committedData x).

Definition set_open x (b : bool) : Executor :=
  mkExecutor (db x) (sq_calls x) b (isCorrupted_ x) (isMemDb_ x) (conflictResolvePolicy_ x)
    (queryStatement x) (insertStatement x) (updateStatement x) (committedData x).

Definition SetCorruptedStatus x : Executor :=
  mkExecutor (db x) (sq_calls x) (isTransactionOpen_ x) true (isMemDb_ x) (conflictResolvePolicy_ x)
    (queryStatement x) (insertStatement x) (updateStatement x) (committedData x).

Definition set_statements x (query insert update : Stmt) : Executor :=
  mkExecutor (db x) (sq_calls x) (isTransactionOpen_ x) (isCorrupted_ x) (isMemDb_ x) (conflictResolvePolicy_ x)
    query insert update (committedData x).

Definition set_committed x (c : option CommitNotifyData) : Executor :=
  mkExecutor (db x) (sq_calls x) (isTransactionOpen_ x) (isCorrupted_ x) (isMemDb_ x) (conflictResolvePolicy_ x)
    (queryStatement x) (insertStatement x) (updateStatement x) c.

(** * The monad of the executor *)

(** A function that returns an error code: [inl] the code, or [inr] the results. *)
Definition M (A : Type) : Type := Executor -> (Z + A) * Executor.

Definition ret {A} (a : A) : M A := fun x => (inr a, x).
Definition throw {A} (errCode : Z) : M A := fun x => (inl errCode, x).

Definition bind {A B} (m : M A) (k : A -> M B) : M B := fun x =>
  match m x with
  | (inl e, x) => (inl e, x)
  | (inr a, x) => k a x
  end.

(** The error code as a value: what [goto END] does, and codes that are not errors. *)
Definition try_ {A} (m : M A) : M (Z + A) := fun x => let '(r, x) := m x in (inr r, x).

Definition gets {A} (f : Executor -> A) : M A := fun x => (inr (f x), x).
Definition modify (f : Executor -> Executor) : M unit := fun x => (inr tt, f x).

Definition code_of {A} (r : Z + A) : Z := match r with inl e => e | inr _ => E_OK end.

(** A status with results that are there if it is [E_OK]. *)
Definition with_code {A} (errCode : Z) (r : Z + A) : M A :=
  match r with
  | inr a => if errCode =? E_OK then ret a else throw errCode
  | inl _ => throw errCode
  end.

Declare Scope exec_scope.
Delimit Scope exec_scope with exec.
Bind Scope exec_scope with M.

Notation "a <- m ;; k" := (bind m (fun a => k%exec))
  (at level 100, m at next level, right associativity) : exec_scope.
Notation "' p <- m ;; k" := (bind m (fun p => k%exec))
  (at level 100, p pattern, m at next level, right associativity) : exec_scope.
Notation "m ;; k" := (bind m (fun _ => k%exec)) (at level 100, right associativity) : exec_scope.

Open Scope exec_scope.

(** * Calls *)

Section Calls.
Context `{Sqlite}.

Definition raw_call x : option Fault * Executor :=
  match sq_fault (sq_calls x) with
  | Some f =>
    if is_failure f then
      (Some f, count_call (if rolls_back f then set_db x (mkDatabase (committed (db x)) None) else x))
    else (None, count_call x)
  | None => (None, count_call x)
  end.

Definition sq_call : M unit := fun x =>
  match raw_call x with
  | (None, x) => (inr tt, x)
  | (Some f, x) => (inl (MapSQLiteErrno f), x)
  end.

(** [StorageExecutor::CheckCorruptedStatus]. *)
Definition CheckCorruptedStatus (errCode : Z) : M Z := fun x =>
  (inr errCode, if errCode =? - E_INVALID_PASSWD_OR_CORRUPTED_DB then SetCorruptedStatus x else x).

Definition GetStatement (statement : Stmt) : M Stmt :=
  match statement with
  | Some _ => ret statement
  | None => sq_call;; ret (Some None)
  end.

Definition BindInt64ToStatement : M unit := sq_call.

Definition BindBlobToStatement (statement : Stmt) (v : list byte) (permEmpty : bool) : M unit :=
  match statement with
  | None => throw (- E_INVALID_ARGS)
  | Some _ => if is_empty v && negb permEmpty then throw (- E_INVALID_ARGS) else sq_call
  end.

Definition GetColumnBlobValue (statement : Stmt) (column : SyncRow -> list byte) : M (list byte) :=
  match statement with
  | None => throw (- E_INVALID_ARGS)
  | Some None => ret []
  | Some (Some (_, row)) => ret (column row)
  end.

(** The new pointer and the new error code. *)
Definition ResetStatement (statement : Stmt) (isNeedFinalize : bool) (errCode : Z) : M (Stmt * Z) :=
  let finalize := fun innerCode : option Z => r <- try_ sq_call;;
    ret (None : Stmt, match r, innerCode with inl e, _ => e | inr _, Some e => e | inr _, None => errCode end) in
  match statement with
  | None => ret (None, errCode)
  | Some _ =>
    if isNeedFinalize then finalize None
    else r <- try_ sq_call;;
         match r with
         | inl e => finalize (Some e)
         | inr _ => ret (Some None, errCode)
         end
  end.

Definition MAX_STEP_TIMES : Z := 8000.

Fixpoint step_loop {A} (retries : nat) (isMemDb : bool) (run : Table -> option (A * Table)) : M A := fun x =>
  match raw_call x with
  | (None, x) =>
    match run (table (db x)) with
    | Some (a, t) => (inr a, set_db x (put_table (db x) t))
    | None => (inl (- SQLITE_CONSTRAINT), x)
    end
  | (Some f, x) =>
    if (f_code f =? SQLITE_LOCKED) && isMemDb then
      match retries with
      | O => (inl (MapSQLiteErrno f), x)
      | S retries => step_loop retries isMemDb run x
      end
    else (inl (MapSQLiteErrno f), x)
  end.

(** Executes the statement, whose meaning is [run]: nothing if it violates a constraint. *)
Definition StepWithRetry {A} (statement : Stmt) (isMemDb : bool) (run : Table -> option (A * Table)) : M A :=
  match statement with
  | None => throw (- E_INVALID_ARGS)
  | Some _ => step_loop (Z.to_nat MAX_STEP_TIMES) isMemDb run
  end.

(** The end of a function with a statement of its own: [ResetStatement] and
    [CheckCorruptedStatus]. *)
Definition finish {A} (r : Z + A) (statement : Stmt) : M A :=
  '(_, errCode) <- ResetStatement statement true (code_of r);;
  errCode <- CheckCorruptedStatus errCode;;
  with_code errCode r.

Definition with_statement {A} (body : Stmt -> M A) : M A :=
  r <- try_ (GetStatement None);;
  match r with
  | inl e => finish (inl e) None
  | inr statement => r <- try_ (body statement);; finish r statement
  end.

(** [ExecuteRawSQL] with [BEGIN], [COMMIT] and [ROLLBACK]. *)
Definition BeginTransaction : M unit :=
  sq_call;; d <- gets db;;
  match pending d with
  | None => modify (fun x => set_db x (mkDatabase (committed d) (Some (committed d))))
  | Some _ => throw (- SQLITE_ERROR)
  end.

Definition CommitTransaction : M unit :=
  sq_call;; d <- gets db;;
  match pending d with
  | Some t => modify (fun x => set_db x (mkDatabase t None))
  | None => throw (- SQLITE_ERROR)
  end.

Definition RollbackTransaction : M unit :=
  sq_call;; d <- gets db;;
  match pending d with
  | Some _ => modify (fun x => set_db x (mkDatabase (committed d) None))
  | None => throw (- SQLITE_ERROR)
  end.

End Calls.
