(* ===== verification/StoreExecutor.v ===== *)
(** Model of [SQLiteSingleVerStorageExecutor]
    (storage/src/sqlite/sqlite_single_ver_storage_executor.cpp and
    sqlite_single_ver_storage_executor_subscribe.cpp): transactions, and how an item that
    was written here or received from another device is saved. The main data base only: the
    cache data base and the migration from it are not part of the model. *)

From S2P Require Import Prelude CommTypes SyncStorage CommitNotify SqliteUtils.
From Stdlib Require Import ZArith Lia.
From Stdlib Require Import Strings.Byte.
From stdpp Require Import base numbers list gmap.

Open Scope Z_scope.
Open Scope exec_scope.

Definition E_IGNORE_DATA : Z := E_BASE + 95.

Definition DEFAULT_LAST_WIN : Z := 0.
Definition DENY_OTHER_DEV_AMEND_CUR_DEV_DATA : Z := 1.

(** * Statements of [sync_data] (sqlite_single_ver_storage_executor_sql.h) *)

(** [INSERT_SYNC_SQL]: the hash key is the primary key. *)
Definition INSERT_SYNC (h : Key) (row : SyncRow) (t : Table) : option (unit * Table) :=
  match t !! h with
  | Some _ => None
  | None => Some (tt, <[h := row]> t)
  end.

Definition UPDATE_SYNC (h : Key) (row : SyncRow) (t : Table) : option (unit * Table) :=
  Some (tt, match t !! h with Some _ => <[h := row]> t | None => t end).

Definition SELECT_SYNC_HASH (h : Key) (t : Table) : option (option SyncRow * Table) := Some (t !! h, t).

Definition DELETE_SYNC_DATA_WITH_HASHKEY (h : Key) (t : Table) : option (unit * Table) :=
  Some (tt, delete h t).

Definition of_device (device : list byte) (row : SyncRow) : Prop :=
  r_device row = device /\ Z.land (r_flag row) 2 = 0.

Definition REMOVE_DEV_DATA (device : list byte) (t : Table) : option (unit * Table) :=
  Some (tt, filter (fun kv => ~ of_device device kv.2) t).

(** [SELECT_SYNC_VALUE_WTIMESTAMP_SQL]. *)
Definition SELECT_SYNC_VALUE_WTIMESTAMP (k : Key) (t : Table) : option (option (Value * Z) * Table) :=
  Some ((fun kv : Key * SyncRow => (r_value kv.2, r_w_timestamp kv.2))
          <$> head (filter (fun kv : Key * SyncRow => r_key kv.2 = k) (map_to_list t)), t).

Definition SELECT_ALL_SYNC_ENTRIES_BY_DEV (device : list byte) (t : Table) : list Entry :=
  (fun kv : Key * SyncRow => (r_key kv.2, r_value kv.2))
    <$> filter (fun kv : Key * SyncRow => r_device kv.2 = device /\ Z.land (r_flag kv.2) 3 = 0) (map_to_list t).

(** * Data *)

Inductive DataStatus := NOEXISTED | DELETED | EXISTED.

#[export] Instance data_status_eq : EqDecision DataStatus.
Proof. solve_decision. Defined.

Record DataOperStatus := mkDataOperStatus {
  preStatus : DataStatus;
  isDeleted : bool;
  isDefeated : bool
}.

Record DeviceInfo := mkDeviceInfo {
  di_isLocal : bool;
  di_deviceName : list byte
}.

(** [NotifyConflictAndObserverData], less the notification object. *)
Record NotifyData := mkNotifyData {
  getData : DataItem;
  nd_hashKey : Key;
  dataStatus : DataOperStatus
}.

(** A query: whether it is empty, the statuses of [GetQueryHelper] and
    [GetSyncDataCheckSql], the number of values bound besides the hash key, and the rows it
    matches. *)
Record Query := mkQuery {
  q_empty : bool;
  q_helper : Z;
  q_check_sql : Z;
  q_binds : nat;
  q_match : Key -> SyncRow -> bool
}.

Definition is_delete (f : Z) : bool := Z.land f DELETE_FLAG =? DELETE_FLAG.
Definition is_miss_query (f : Z) : bool := Z.land f REMOTE_DEVICE_DATA_MISS_QUERY =? REMOTE_DEVICE_DATA_MISS_QUERY.

Section Executor.
Context `{Sqlite} `{ValueHash}.

(** [DBCommon::TransferHashString]. *)
Definition TransferHash (devName : list byte) : list byte :=
  if is_empty devName then []
  else let '(errCode, hash) := CalcValueHash devName in if errCode =? E_OK then hash else [].

(** * Transactions *)

Definition checked {A} (m : M A) : M A :=
  r <- try_ m;; errCode <- CheckCorruptedStatus (code_of r);; with_code errCode r.

Definition StartTransaction : M unit :=
  checked (BeginTransaction;; modify (fun x => set_open x true)).

Definition Commit : M unit := checked CommitTransaction;; modify (fun x => set_open x false).

Definition Rollback : M unit := checked RollbackTransaction;; modify (fun x => set_open x false).

(** * Statements for saving *)

(** The three statements are reset in this order; the new error code. *)
Definition reset_save_statements (finalize : bool) (errCode : Z) : M Z :=
  st <- gets insertStatement;; '(insert, errCode) <- ResetStatement st finalize errCode;;
  st <- gets updateStatement;; '(update, errCode) <- ResetStatement st finalize errCode;;
  st <- gets queryStatement;; '(query, errCode) <- ResetStatement st finalize errCode;;
  modify (fun x => set_statements x query insert update);;
  ret errCode.

Definition ResetSaveSyncStatements (errCode : Z) : M Z :=
  errCode <- reset_save_statements false errCode;; CheckCorruptedStatus errCode.

Definition ResetForSavingData : M unit :=
  errCode <- reset_save_statements false E_OK;;
  errCode <- CheckCorruptedStatus errCode;; with_code errCode (inr tt).

Definition PrepareForSavingData : M unit :=
  let prepare :=
    st <- gets queryStatement;; st <- GetStatement st;;
    modify (fun x => set_statements x st (insertStatement x) (updateStatement x));;
    st <- gets insertStatement;; st <- GetStatement st;;
    modify (fun x => set_statements x (queryStatement x) st (updateStatement x));;
    st <- gets updateStatement;; st <- GetStatement st;;
    modify (fun x => set_statements x (queryStatement x) (insertStatement x) st) in
  checked (
    r <- try_ prepare;;
    match r with
    | inr _ => ret tt
    | inl e => reset_save_statements true E_OK;; throw e
    end).

(** [Reset], when the handle goes back to the engine. *)
Definition Reset : M unit :=
  open <- gets isTransactionOpen_;;
  (if open then try_ Rollback;; ret tt else ret tt);;
  try_ ResetForSavingData;; ret tt.

(** * Reading the row of an item *)

(** What [GetSyncDataPreByHashKey] fills in of the item. *)
Definition item_of_row (row : SyncRow) : DataItem :=
  mkDataItem (r_key row) [] (u64 (r_timestamp row)) (u64 (r_flag row)) (r_ori_device row)
    (u64 (r_w_timestamp row)) (r_device row) false [].

(** [-E_NOT_FOUND] is [None]. *)
Definition GetSyncDataPreByHashKey (h : Key) : M (option DataItem) :=
  st <- gets queryStatement;;
  BindBlobToStatement st h false;;
  mem <- gets isMemDb_;;
  row <- StepWithRetry st mem (SELECT_SYNC_HASH h);;
  match row with
  | None => ret None
  | Some row =>
    let st := Some (Some (h, row)) in
    modify (fun x => set_statements x st (insertStatement x) (updateStatement x));;
    GetColumnBlobValue st r_key;; GetColumnBlobValue st r_device;; GetColumnBlobValue st r_ori_device;;
    ret (Some (item_of_row row))
  end.

Definition GetSyncDataItemPre (itemPut : DataItem) : M (Key * option DataItem) :=
  h <- (if is_delete (flag itemPut) || is_miss_query (flag itemPut) then ret (key itemPut)
        else let '(errCode, hash) := CalcValueHash (key itemPut) in
             if negb (errCode =? E_OK) then throw errCode else ret hash);;
  itemGet <- GetSyncDataPreByHashKey h;;
  ret (h, itemGet).

Definition GetSyncDataItemExt (itemGet : DataItem) (status : DataOperStatus) : M DataItem :=
  if negb (bool_decide (preStatus status = EXISTED)) then ret itemGet
  else
    st <- gets queryStatement;;
    k <- GetColumnBlobValue st r_key;;
    v <- GetColumnBlobValue st r_value;;
    ret (set_value (set_key itemGet k) v).

(** * Decisions *)

Definition JudgeSyncSaveType (item itemGet : DataItem) (devName : list byte)
    (isHashKeyExisted isPermitForceWrite : bool) : DataOperStatus * DataItem :=
  let deleted := is_delete (flag item) || is_miss_query (flag item) in
  if isHashKeyExisted then
    let pre := if has_flag (flag itemGet) DELETE_FLAG then DELETED else EXISTED in
    let device := TransferHash devName in
    if writeTimestamp item <=? writeTimestamp itemGet then
      if negb (is_empty device) && bool_decide (dev itemGet = device) && isPermitForceWrite then
        (mkDataOperStatus pre deleted false,
         set_stamps item (timestamp itemGet) (u64 (writeTimestamp itemGet + 1)))
      else (mkDataOperStatus pre deleted true, item)
    else (mkDataOperStatus pre deleted false, item)
  else (mkDataOperStatus NOEXISTED deleted false, item).

Definition IsNeedIgnoredData (itemPut itemGet : DataItem) (devInfo : DeviceInfo) (isHashKeyExisted : bool)
    (policy : Z) : bool :=
  (is_empty (origDev itemGet) && isHashKeyExisted || is_empty (origDev itemPut))
  && (negb (di_isLocal devInfo) && (policy =? DENY_OTHER_DEV_AMEND_CUR_DEV_DATA)).

(** Nonexistent data, but deleted by local. *)
Definition deletes_nothing (status : DataOperStatus) (item : DataItem) : bool :=
  (bool_decide (preStatus status = DELETED) || bool_decide (preStatus status = NOEXISTED))
  && has_flag (flag item) DELETE_FLAG && has_flag (flag item) LOCAL_FLAG.

Definition GetOriginDevName (item : DataItem) (origDevGet : list byte) : list byte :=
  if has_flag (flag item) LOCAL_FLAG && is_empty (origDev item) then origDevGet else origDev item.

(** ** Notifications *)

Definition notify (f : CommitNotifyData -> CommitNotifyData) : M unit :=
  modify (fun x => set_committed x (f <$> committedData x)).

Definition exist_status (pre : DataStatus) : ExistStatus :=
  match pre with DELETED => EXIST_DELETED | EXISTED => EXIST | NOEXISTED => EXIST_NONE end.

Definition InitCommitNotifyDataKeyStatus (h : Key) (status : DataOperStatus) (c : CommitNotifyData)
    : CommitNotifyData := InitKeyPropRecord c h (exist_status (preStatus status)).

Definition PutConflictData (itemPut itemGet : DataItem) (deviceInfo : DeviceInfo) (status : DataOperStatus)
    (c : CommitNotifyData) : CommitNotifyData :=
  if negb (IsConflictedNotifyMatched c itemPut itemGet) then c
  else if bool_decide (preStatus status = NOEXISTED)
          || bool_decide (preStatus status = DELETED) && isDeleted status then c
  else
    let origKey := if is_delete (flag itemPut) || is_miss_query (flag itemPut)
                   then key itemGet else key itemPut in
    let c := InsertConflictedItem c (mkDataItemInfo (set_key itemGet origKey) true (dev itemGet)) true in
    InsertConflictedItem c
      (mkDataItemInfo (set_key itemPut origKey) (di_isLocal deviceInfo) (TransferHash (di_deviceName deviceInfo)))
      false.

Definition PutIntoCommittedData (itemPut itemGet : DataItem) (status : DataOperStatus) (c : CommitNotifyData)
    : CommitNotifyData :=
  if negb (isDeleted status) then
    InsertCommittedData c (key itemPut, value itemPut)
      (if bool_decide (preStatus status = EXISTED) then UPDATE else INSERT) true
  else InsertCommittedData c (key itemGet, value itemGet) DELETE true.

(** * Saving *)

Definition EraseSyncData (h : Key) : M unit :=
  st <- GetStatement None;;
  r <- try_ (BindBlobToStatement st h false;; StepWithRetry st false (DELETE_SYNC_DATA_WITH_HASHKEY h));;
  finish r st.

(** The row that is bound to the statement. *)
Definition saved_row (item : DataItem) (origDev devName : list byte) : SyncRow :=
  mkSyncRow (if is_delete (flag item) then [] else key item) (value item)
    (to_signed 64 (timestamp item)) (to_signed 64 (flag item)) devName origDev
    (to_signed 64 (writeTimestamp item)).

Definition BindDevForSavedSyncData (st : Stmt) (origDev devName : list byte) : M unit :=
  BindInt64ToStatement;; BindBlobToStatement st devName true;; BindBlobToStatement st origDev true.

Definition BindSavedSyncData (st : Stmt) (item : DataItem) (h : Key) (origDev devName : list byte) : M unit :=
  BindBlobToStatement st h false;;
  (if is_delete (flag item) then sq_call else BindBlobToStatement st (key item) false);;
  BindBlobToStatement st (value item) true;;
  BindInt64ToStatement;; BindInt64ToStatement;;
  BindDevForSavedSyncData st origDev devName.

Definition SaveSyncDataToDatabase (item : DataItem) (h : Key) (origDev devName : list byte) (isUpdate : bool)
    : M unit :=
  if is_miss_query (flag item) then EraseSyncData h
  else
    st <- gets (fun x => if isUpdate then updateStatement x else insertStatement x);;
    match st with
    | None => throw (- E_INVALID_ARGS)
    | Some _ =>
      let devName := TransferHash devName in
      BindSavedSyncData st item h origDev devName;;
      mem <- gets isMemDb_;;
      StepWithRetry st mem ((if isUpdate then UPDATE_SYNC else INSERT_SYNC) h (saved_row item origDev devName))
    end.

(** Leaves by [ResetSaveSyncStatements]. *)
Definition leave {A} (errCode : Z) : M A :=
  errCode <- ResetSaveSyncStatements errCode;; throw errCode.

Definition PrepareForNotifyConflictAndObserver (item : DataItem) (deviceInfo : DeviceInfo)
    (isPermitForceWrite : bool) : M (DataItem * NotifyData) :=
  r <- try_ (GetSyncDataItemPre item);;
  match r with
  | inl errCode => leave errCode
  | inr (h, itemGet) =>
    let isHashKeyExisted := match itemGet with Some _ => true | None => false end in
    let get := default newDataItem itemGet in
    policy <- gets conflictResolvePolicy_;;
    if IsNeedIgnoredData item get deviceInfo isHashKeyExisted policy then leave (- E_IGNORE_DATA)
    else
      let '(status, item) := JudgeSyncSaveType item get (di_deviceName deviceInfo) isHashKeyExisted
                               isPermitForceWrite in
      notify (InitCommitNotifyDataKeyStatus h status);;
      if deletes_nothing status item then leave (- E_NOT_FOUND)
      else
        r <- try_ (GetSyncDataItemExt get status);;
        match r with
        | inl errCode => leave errCode
        | inr get => ret (item, mkNotifyData get h status)
        end
  end.

(** The new maximum of the time stamps. *)
Definition SaveSyncDataItem (item : DataItem) (deviceInfo : DeviceInfo) (maxStamp : Z)
    (isPermitForceWrite : bool) : M Z :=
  r <- try_ (PrepareForNotifyConflictAndObserver item deviceInfo isPermitForceWrite);;
  match r with
  | inl errCode => if errCode =? - E_IGNORE_DATA then ret maxStamp else throw errCode
  | inr (item, nd) =>
    notify (PutConflictData item (getData nd) deviceInfo (dataStatus nd));;
    if isDefeated (dataStatus nd) then
      errCode <- ResetSaveSyncStatements E_OK;; with_code errCode (inr maxStamp)
    else
      let isUpdate := negb (bool_decide (preStatus (dataStatus nd) = NOEXISTED)) in
      let orig := GetOriginDevName item (origDev (getData nd)) in
      r <- try_ (SaveSyncDataToDatabase item (nd_hashKey nd) orig (di_deviceName deviceInfo) isUpdate);;
      (match r with
       | inr _ => notify (PutIntoCommittedData item (getData nd) (dataStatus nd))
       | inl _ => ret tt
       end);;
      errCode <- ResetSaveSyncStatements (code_of r);;
      with_code errCode (inr (Z.max (timestamp item) maxStamp))
  end.

(** * Removing the data of a device; reading *)

Definition RemoveDeviceData (name : list byte) : M unit :=
  let devName := TransferHash name in
  with_statement (fun st =>
    BindBlobToStatement st devName true;;
    mem <- gets isMemDb_;;
    StepWithRetry st mem (REMOVE_DEV_DATA devName)).

(** A step of a statement that selects rows and changes nothing. *)
Definition step_select (st : Stmt) : M unit :=
  mem <- gets isMemDb_;; StepWithRetry st mem (fun t => Some (tt, t)).

(** [GetAllEntries], for the rows that the statement selects: the entries read and the error
    code. *)
Fixpoint GetAllEntries (st : Stmt) (rows : list Entry) : M (list Entry * Z) :=
  r <- try_ (step_select st);;
  match r, rows with
  | inl e, _ => ret ([], e)
  | inr _, [] => ret ([], E_OK)
  | inr _, row :: rows => '(entries, errCode) <- GetAllEntries st rows;; ret (row :: entries, errCode)
  end.

(** The entries read; the callers ignore the status. *)
Definition GetAllSyncedEntries (name : list byte) : M (list Entry) :=
  r <- try_ (GetStatement None);;
  match r with
  | inl _ => ret []
  | inr st =>
    let devName := TransferHash name in
    r <- try_ (BindBlobToStatement st devName true);;
    entries <- (match r with
                | inl _ => ret []
                | inr _ => rows <- gets (fun x => SELECT_ALL_SYNC_ENTRIES_BY_DEV devName (table (db x)));;
                           '(entries, _) <- GetAllEntries st rows;; ret entries
                end);;
    ResetStatement st true E_OK;;
    ret entries
  end.

(** [GetKvData] for sync data: the value and the time stamp. *)
Definition GetKvData (k : Key) : M (Value * Z) :=
  with_statement (fun st =>
    BindBlobToStatement st k false;;
    mem <- gets isMemDb_;;
    r <- StepWithRetry st mem (SELECT_SYNC_VALUE_WTIMESTAMP k);;
    match r with
    | None => throw (- E_NOT_FOUND)
    | Some (v, w) => ret (v, u64 w)
    end).

(** * Items that miss a query *)

Fixpoint bind_values (n : nat) : M unit :=
  match n with O => ret tt | S n => sq_call;; bind_values n end.

Definition BindSyncDataCheckStmt (q : Query) (st : Stmt) (h : Key) : M unit :=
  match st with
  | None => throw (- E_INVALID_ARGS)
  | Some _ => BindBlobToStatement st h false;; bind_values (q_binds q)
  end.

(** The statement selects the row with the hash key, if it matches the query. *)
Definition CheckMissQueryDataItem (q : Query) (st : Stmt) (name : list byte) (item : DataItem) : M DataItem :=
  mem <- gets isMemDb_;;
  row <- StepWithRetry st mem (fun t => Some (
           match t !! key item with
           | Some row => if (Z.land (r_flag row) 1 =? 0) && q_match q (key item) row then Some row else None
           | None => None
           end, t));;
  match row with
  | Some row =>
    let stamp := u64 (r_timestamp row) in
    ret (set_neglect item ((timestamp item <? stamp)
           || (stamp =? timestamp item) && bool_decide (r_device row = TransferHash name)))
  | None => ret (set_neglect item true)
  end.

(** The pointer, the error code so far and the checked items. *)
Fixpoint CheckMissQueryDataItems (q : Query) (st : Stmt) (name : list byte) (errCode : Z)
    (dataItems : list DataItem) : M (Stmt * Z * list DataItem) :=
  match dataItems with
  | [] => ret (st, errCode, [])
  | item :: rest =>
    if has_flag (flag item) REMOTE_DEVICE_DATA_MISS_QUERY && negb (is_empty (key item)) then
      r <- try_ (BindSyncDataCheckStmt q st (key item));;
      match r with
      | inl e => ret (st, e, item :: rest)
      | inr _ =>
        r <- try_ (CheckMissQueryDataItem q st name item);;
        match r with
        | inl e => ret (st, e, item :: rest)
        | inr item =>
          '(st, errCode) <- ResetStatement st false E_OK;;
          '(st, errCode, rest) <- CheckMissQueryDataItems q st name errCode rest;;
          ret (st, errCode, item :: rest)
        end
      end
    else
      '(st, errCode, rest) <- CheckMissQueryDataItems q st name errCode rest;;
      ret (st, errCode, item :: rest)
  end.

Definition CheckDataWithQuery (q : Query) (dataItems : list DataItem) (deviceInfo : DeviceInfo)
    : M (list DataItem) :=
  if q_empty q then ret dataItems
  else if negb (q_helper q =? E_OK) then throw (q_helper q)
  else if negb (q_check_sql q =? E_OK) then throw (q_check_sql q)
  else
    r <- try_ (GetStatement None);;
    match r with
    | inl _ => throw (- E_INVALID_QUERY_FORMAT)
    | inr st =>
      '(st, errCode, dataItems) <- CheckMissQueryDataItems q st (di_deviceName deviceInfo) E_OK dataItems;;
      '(_, errCode) <- ResetStatement st true errCode;;
      errCode <- CheckCorruptedStatus errCode;;
      with_code errCode (inr dataItems)
    end.

End Executor.
