(* ===== verification/SqliteFacts.v ===== *)
(** Reasoning about functions of the executor: what they leave as it was when a call into
    SQLite fails, and that a failure always shows in the error code. *)

From S2P Require Import Prelude CommTypes SyncStorage CommitNotify SqliteUtils StoreExecutor.
From Stdlib Require Import ZArith Lia.
From Stdlib Require Import Strings.Byte.
From stdpp Require Import base numbers list gmap.

Open Scope Z_scope.
Open Scope exec_scope.

(** An error code that no function takes for a result. *)
Definition bad (e : Z) : Prop :=
  e <> E_OK /\ e <> - E_NOT_FOUND /\ e <> - E_IGNORE_DATA /\ e <> - E_FINISHED /\ e <> - E_UNFINISHED /\ e <> - E_TIMEOUT
  /\ e <> - E_NEED_ABILITY_SYNC /\ e <> - E_RE_SEND_DATA.

(** The settings do not change. *)
Record frame (x x' : Executor) : Prop := {
  fr_open : isTransactionOpen_ x' = isTransactionOpen_ x;
  fr_mem : isMemDb_ x' = isMemDb_ x;
  fr_policy : conflictResolvePolicy_ x' = conflictResolvePolicy_ x
}.

(** What can have happened after a failure: the open transaction is lost or not, but nothing
    is committed and no transaction is opened. *)
Record damaged (x x' : Executor) : Prop := {
  da_frame : frame x x';
  da_committed : committed (db x') = committed (db x);
  da_pending : pending (db x) = None -> pending (db x') = None
}.

(** Nothing has happened to the data and the notifications. *)
Record quiet (x x' : Executor) : Prop := {
  qu_frame : frame x x';
  qu_db : db x' = db x;
  qu_committed : committedData x' = committedData x
}.

Definition statements x : Stmt * Stmt * Stmt := (queryStatement x, insertStatement x, updateStatement x).

Record calm (x x' : Executor) : Prop := {
  ca_quiet : quiet x x';
  ca_statements : statements x' = statements x
}.

#[export] Instance frame_preorder : PreOrder frame.
Proof. split; [done |]. intros x y z [] []. split; congruence. Qed.

#[export] Instance damaged_preorder : PreOrder damaged.
Proof.
  split; [done |]. intros x y z [] []. split; [by etrans | congruence | auto].
Qed.

#[export] Instance quiet_preorder : PreOrder quiet.
Proof. split; [done |]. intros x y z [] []. split; [by etrans | congruence..]. Qed.

#[export] Instance calm_preorder : PreOrder calm.
Proof. split; [done |]. intros x y z [] []. split; [by etrans | congruence]. Qed.

Lemma quiet_damaged x x' : quiet x x' -> damaged x x'.
Proof. intros [? E ?]. split; [done | by rewrite E..]. Qed.

Lemma calm_damaged x x' : calm x x' -> damaged x x'.
Proof. intros [? _]. by apply quiet_damaged. Qed.

Create HintDb exec.
#[export] Hint Resolve quiet_damaged calm_damaged ca_quiet da_frame : exec.
#[export] Hint Extern 1 (bad _) => (split_and!; discriminate) : exec.

Lemma put_table_same d : put_table d (table d) = d.
Proof. destruct d as [c [p|]]; done. Qed.

(** * Results *)

(** After [m]: the results satisfy [P], or the error is a bad one. *)
Definition result {A} (m : M A) x (P : A -> Executor -> Prop) : Prop :=
  match m x with
  | (inr a, x') => P a x'
  | (inl e, x') => damaged x x' /\ bad e
  end.

Lemma result_mono {A} (m : M A) x (P Q : A -> Executor -> Prop) :
  (forall a x', P a x' -> Q a x') -> result m x P -> result m x Q.
Proof. unfold result. destruct (m x) as [[e|a] x']; auto. Qed.

Lemma result_ret {A} (a : A) x (P : A -> Executor -> Prop) : P a x -> result (ret a) x P.
Proof. done. Qed.

Lemma result_throw {A} e x (P : A -> Executor -> Prop) : bad e -> result (throw e) x P.
Proof. done. Qed.

Lemma result_gets {A} (f : Executor -> A) x (P : A -> Executor -> Prop) : P (f x) x -> result (gets f) x P.
Proof. done. Qed.

Lemma result_bind {A B} (m : M A) (k : A -> M B) x (P : A -> Executor -> Prop) (Q : B -> Executor -> Prop) :
  result m x P -> (forall a x', P a x' -> damaged x x' /\ result (k a) x' Q) -> result (bind m k) x Q.
Proof.
  unfold result, bind. intros Hm Hk. destruct (m x) as [[e|a] x1]; [done |].
  destruct (Hk a x1 Hm) as [Hd Hr]. destruct (k a x1) as [[e|b] x2]; [| done].
  destruct Hr. split; [by etrans | done].
Qed.

(** For a function that leaves everything as it was. *)
Lemma result_bind_calm {A B} (m : M A) (k : A -> M B) x (P : A -> Prop) (Q : B -> Executor -> Prop) :
  result m x (fun a x' => calm x x' /\ P a) -> (forall a x', calm x x' -> P a -> result (k a) x' Q) ->
  result (bind m k) x Q.
Proof. intros Hm Hk. eapply result_bind; [exact Hm |]. intros a x' [Hc Hp]. eauto with exec. Qed.

Section Facts.
Context `{Sqlite}.

Lemma failure_bad f : is_failure f = true -> bad (MapSQLiteErrno f).
Proof.
  unfold is_failure, MapSQLiteErrno. intros [H1 H2]%andb_prop.
  apply Z.ltb_lt in H1, H2. unfold SQLITE_ROW in H2.
  assert (Hb : bad (- f_code f)).
  { split_and!; unfold E_OK, E_NOT_FOUND, E_IGNORE_DATA, E_FINISHED, E_UNFINISHED, E_TIMEOUT, E_NEED_ABILITY_SYNC, E_RE_SEND_DATA, E_BASE; lia. }
  rewrite (proj2 (Z.eqb_neq (f_code f) 0)) by lia. repeat case_match; auto with exec.
Qed.

Lemma raw_call_spec x : match raw_call x with
  | (None, x') => calm x x'
  | (Some f, x') => damaged x x' /\ bad (MapSQLiteErrno f) /\ (f_code f = SQLITE_LOCKED -> calm x x')
  end.
Proof.
  unfold raw_call. destruct (sq_fault (sq_calls x)) as [f|]; [| done].
  destruct (is_failure f) eqn:E; [| done]. split_and!; [| by apply failure_bad |].
  - destruct (rolls_back f); split; done.
  - unfold rolls_back. intros ->. by rewrite andb_false_r.
Qed.

Lemma sq_call_spec x : result sq_call x (fun _ x' => calm x x').
Proof.
  unfold result, sq_call. pose proof (raw_call_spec x) as Hr. destruct (raw_call x) as [[f|] x']; naive_solver.
Qed.

Lemma BindBlobToStatement_spec st v perm x :
  result (BindBlobToStatement st v perm) x (fun _ x' => calm x x' /\ (perm = false -> v <> [])).
Proof.
  destruct st; [| by apply result_throw; auto with exec]. unfold BindBlobToStatement.
  destruct v, perm; cbn [is_empty negb andb]; try (by apply result_throw; auto with exec);
    (eapply result_mono; [| apply sq_call_spec]; by intros).
Qed.

Lemma GetColumnBlobValue_spec st column x :
  result (GetColumnBlobValue st column) x (fun v x' => x' = x
    /\ forall h row, st = Some (Some (h, row)) -> v = column row).
Proof.
  destruct st as [[[h row]|]|]; [| | by apply result_throw; auto with exec]; apply result_ret;
    split; [done | by intros ? ? [= <- <-] | done | by intros].
Qed.

Lemma GetStatement_spec st x : result (GetStatement st) x (fun st' x' => calm x x' /\ is_Some st').
Proof.
  destruct st; [by apply result_ret; eauto |]. eapply result_bind; [apply sq_call_spec |].
  intros [] x' Hc. split; [auto with exec |]. apply result_ret. eauto.
Qed.

(** A step: if it succeeds, the statement has been executed once. *)
Lemma StepWithRetry_spec {A} (st : Stmt) (mem : bool) (run : Table -> option (A * Table)) x :
  match StepWithRetry st mem run x with
  | (inr a, x') => exists x1 t', calm x x1 /\ run (table (db x)) = Some (a, t')
                     /\ x' = set_db x1 (put_table (db x) t')
  | (inl e, x') => damaged x x' /\ bad e
  end.
Proof.
  destruct st; [| by split; auto with exec]. unfold StepWithRetry.
  generalize (Z.to_nat MAX_STEP_TIMES) as n. intros n. revert x.
  assert (Hbase : forall x x1, calm x x1 ->
    match match run (table (db x1)) with
          | Some (a, t) => (inr a, set_db x1 (put_table (db x1) t))
          | None => (inl (- SQLITE_CONSTRAINT), x1)
          end with
    | (inr a, x') => exists x2 t', calm x x2 /\ run (table (db x)) = Some (a, t')
                       /\ x' = set_db x2 (put_table (db x) t')
    | (inl e, x') => damaged x x' /\ bad e
    end).
  { intros x x1 Hc. rewrite (qu_db _ _ (ca_quiet _ _ Hc)).
    destruct (run (table (db x))) as [[a t]|] eqn:E; [eauto | split; auto with exec]. }
  induction n as [|n IH]; intros x; cbn [step_loop]; pose proof (raw_call_spec x) as Hr;
    (destruct (raw_call x) as [[f|] x1]; [| by apply Hbase]); destruct Hr as (Hd & Hb & Hl);
    (destruct ((f_code f =? SQLITE_LOCKED) && mem) eqn:E; [| by split]); [by split |].
  apply andb_prop in E as [E%Z.eqb_eq _]. specialize (Hl E). specialize (IH x1).
  destruct (step_loop n mem run x1) as [[e|a] x2].
  - destruct IH. split; [by etrans | done].
  - destruct IH as (x3 & t' & Hc & Hrun & ->). rewrite (qu_db _ _ (ca_quiet _ _ Hl)) in *.
    exists x3, t'. split; [by etrans | done].
Qed.

(** A step of a statement that only reads. *)
Lemma step_read_spec {A} (st : Stmt) (mem : bool) (f : Table -> A) x :
  result (StepWithRetry st mem (fun t => Some (f t, t))) x (fun a x' => calm x x' /\ a = f (table (db x))).
Proof.
  unfold result. pose proof (StepWithRetry_spec st mem (fun t => Some (f t, t)) x) as Hs.
  destruct (StepWithRetry _ _ _ x) as [[e|a] x']; [done |].
  destruct Hs as (x1 & t' & Hc & [= <- <-] & ->). rewrite put_table_same.
  pose proof (qu_db _ _ (ca_quiet _ _ Hc)) as E. split; [| done].
  destruct Hc as [[[] ? ?] ?]. by split; [split; [split|..] |].
Qed.

(** * Resetting statements *)

(** Resetting succeeds and keeps the error code, or it gives a bad one. *)
Definition kept (e : Z) x (P : Executor -> Prop) (e' : Z) (x' : Executor) : Prop :=
  e' = e /\ P x' \/ damaged x x' /\ bad e'.

Lemma ResetStatement_spec st fin e x : exists st' e' x',
  ResetStatement st fin e x = (inr (st', e'), x') /\ kept e x (calm x) e' x' /\ (e' = e \/ st' = None).
Proof.
  unfold ResetStatement, kept. destruct st as [row|]; [| by repeat eexists; left].
  pose proof (sq_call_spec x) as H1. unfold result in H1.
  destruct fin; unfold bind, try_.
  - destruct (sq_call x) as [[e1|[]] x1]; do 3 eexists; (split; [reflexivity |]); split; [by right | by right | by left | by left].
  - destruct (sq_call x) as [[e1|[]] x1]; [| do 3 eexists; (split; [reflexivity |]); split; by left].
    pose proof (sq_call_spec x1) as H2. unfold result in H2. destruct H1 as [Hd Hb].
    destruct (sq_call x1) as [[e2|[]] x2]; do 3 eexists; (split; [reflexivity |]); (split; [right | by right]).
    + destruct H2. split; [by etrans | done].
    + split; [etrans; [exact Hd | auto with exec] | done].
Qed.

Lemma CheckCorruptedStatus_spec e x : exists x', CheckCorruptedStatus e x = (inr e, x') /\ calm x x'.
Proof. unfold CheckCorruptedStatus. destruct (_ =? _); eexists; (split; [reflexivity | done]). Qed.

Lemma finish_spec {A} (r : Z + A) st x (P : A -> Executor -> Prop) :
  match r with inr a => forall x', calm x x' -> P a x' | inl e => bad e end -> result (finish r st) x P.
Proof.
  intros Hr. unfold result, finish, bind.
  destruct (ResetStatement_spec st true (code_of r) x) as (st' & e' & x1 & -> & Hk & _). cbv beta iota.
  destruct (CheckCorruptedStatus_spec e' x1) as (x2 & -> & Hc2).
  destruct Hk as [[-> Hc1] | [Hd Hb]]; cbn in *.
  - destruct r as [e|a]; cbn; [split; [| done]; apply calm_damaged; by etrans | apply Hr; by etrans].
  - assert (Hd2 : damaged x x2) by (etrans; eauto with exec). destruct Hb as (Hb & ?).
    destruct r as [e|a]; cbn; [done |]. by rewrite (proj2 (Z.eqb_neq _ _) Hb).
Qed.

Lemma result_finish {A} (m : M A) st x (P : A -> Executor -> Prop) :
  (forall a x1 x2, P a x1 -> calm x1 x2 -> P a x2) -> (forall a x', P a x' -> damaged x x') ->
  result m x P -> result (r <- try_ m;; finish r st) x P.
Proof.
  intros Hcalm Hdam Hm. unfold result in *. unfold bind, try_. destruct (m x) as [r x1].
  pose proof (finish_spec r st x1 P) as Hf. unfold result in Hf.
  destruct (finish r st x1) as [[e|a] x2].
  - destruct Hf as [Hd Hb]; [destruct r; [apply Hm | eauto] |].
    split; [| done]. etrans; [| exact Hd]. destruct r; [apply Hm | eauto].
  - apply Hf. destruct r; [apply Hm | eauto].
Qed.

Lemma reset_save_statements_spec fin e x : exists e' x',
  reset_save_statements fin e x = (inr e', x') /\ kept e x (quiet x) e' x'.
Proof.
  unfold reset_save_statements, bind, gets, modify, ret.
  destruct (ResetStatement_spec (insertStatement x) fin e x) as (s1 & e1 & x1 & -> & H1 & _).
  destruct (ResetStatement_spec (updateStatement x1) fin e1 x1) as (s2 & e2 & x2 & -> & H2 & _).
  destruct (ResetStatement_spec (queryStatement x2) fin e2 x2) as (s3 & e3 & x3 & -> & H3 & _).
  do 2 eexists. split; [reflexivity |].
  assert (Hset : forall q i u, quiet x3 (set_statements x3 q i u)) by (by intros; split; [split | ..]).
  destruct H1 as [[? H1] | [H1 H1']], H2 as [[? H2] | [H2 H2']], H3 as [[? H3] | [H3 H3']]; cbn in *; subst;
    (left; split; [done |]; etrans; [| apply Hset]; etrans; [apply H1 | etrans; [apply H2 | apply H3]])
    || (right; split; [| done]; etrans; [| apply quiet_damaged, Hset];
        etrans; [| etrans]; [eauto with exec..]).
Qed.

Lemma ResetSaveSyncStatements_spec e x : exists e' x',
  ResetSaveSyncStatements e x = (inr e', x') /\ kept e x (quiet x) e' x'.
Proof.
  unfold ResetSaveSyncStatements, bind.
  destruct (reset_save_statements_spec false e x) as (e1 & x1 & -> & Hk).
  destruct (CheckCorruptedStatus_spec e1 x1) as (x2 & -> & Hc). do 2 eexists. split; [reflexivity |].
  destruct Hk as [[-> ?] | []]; [left; split; [done |]; etrans; [done | apply Hc]
                               | right; split; [etrans; eauto with exec | done]].
Qed.

Lemma checked_spec {A} (m : M A) x : exists x', checked m x = ((m x).1, x') /\ calm (m x).2 x'.
Proof.
  unfold checked, bind, try_. destruct (m x) as [r x1].
  destruct (CheckCorruptedStatus_spec (code_of r) x1) as (x2 & -> & Hc). exists x2.
  destruct r as [e|a]; cbn; done.
Qed.

Lemma result_checked {A} (m : M A) x (P : A -> Executor -> Prop) :
  (forall a x1 x2, P a x1 -> calm x1 x2 -> P a x2) -> result m x P -> result (checked m) x P.
Proof.
  unfold result. intros HP Hm. destruct (checked_spec m x) as (x' & -> & Hc).
  destruct (m x) as [[e|a] x1]; cbn in *; [| eauto].
  destruct Hm. split; [etrans; eauto with exec | done].
Qed.

Lemma ResetForSavingData_spec x : result ResetForSavingData x (fun _ x' => quiet x x').
Proof.
  unfold result, ResetForSavingData, bind.
  destruct (reset_save_statements_spec false E_OK x) as (e1 & x1 & -> & Hk).
  destruct (CheckCorruptedStatus_spec e1 x1) as (x2 & -> & Hc).
  destruct Hk as [[-> ?] | [? Hb]]; cbn in *; [etrans; [done | apply Hc] |].
  destruct Hb as (Hb & ?). rewrite (proj2 (Z.eqb_neq _ _) Hb). split; [etrans; eauto with exec | done].
Qed.

(** One of the three statements is prepared and stored. *)
Lemma prepare_spec {B} (get : Executor -> Stmt) (set : Executor -> Stmt -> Executor) (k : M B) x
    (Q : B -> Executor -> Prop) :
  (forall y st, quiet y (set y st)) -> (forall x', quiet x x' -> result k x' Q) ->
  result (st <- gets get;; st <- GetStatement st;; modify (fun x => set x st);; k) x Q.
Proof.
  intros Hset Hk. apply (result_bind _ _ _ (fun _ x' => x' = x)); [done |]. intros st x0 ->.
  split; [done |]. eapply result_bind; [apply GetStatement_spec |]. intros st' x1 [Hc _].
  split; [auto with exec |].
  apply (result_bind _ _ _ (fun _ x' => x' = set x1 st')); [done |]. intros [] x2 ->.
  split; [auto with exec |]. apply Hk. etrans; [apply Hc | apply Hset].
Qed.

Lemma PrepareForSavingData_spec x : result PrepareForSavingData x (fun _ x' => quiet x x').
Proof.
  apply result_checked; [intros; etrans; [done | by apply ca_quiet] |].
  match goal with |- result (bind (try_ ?m) _) _ _ =>
    assert (Hp : result m x (fun _ x' => quiet x x')); [| revert Hp; generalize m; intros prepare Hp] end.
  { assert (Hset : forall y q i u, quiet y (set_statements y q i u)) by (by intros; split; [split | ..]).
    apply prepare_spec; [auto |]. intros x1 H1. apply prepare_spec; [auto |]. intros x2 H2.
    apply (result_bind _ _ _ (fun _ x' => x' = x2)); [done |]. intros st x0 ->. split; [done |].
    eapply result_bind; [apply GetStatement_spec |]. intros st' x3 [Hc _]. split; [auto with exec |].
    unfold result, modify. etrans; [exact H1 | etrans; [exact H2 | etrans; [apply Hc | apply Hset]]]. }
  unfold result, bind, try_ in *. destruct (prepare x) as [[e|[]] x1]; [| done]. destruct Hp as [Hd Hb].
  destruct (reset_save_statements_spec true E_OK x1) as (e2 & x2 & -> & Hk). split; [| done].
  destruct Hk as [[_ ?] | []]; etrans; eauto with exec.
Qed.

(** * Transactions *)

Lemma StartTransaction_spec x : match StartTransaction x with
  | (inr _, x') => pending (db x) = None /\ isMemDb_ x' = isMemDb_ x
      /\ conflictResolvePolicy_ x' = conflictResolvePolicy_ x /\ committedData x' = committedData x
      /\ isTransactionOpen_ x' = true
      /\ db x' = mkDatabase (committed (db x)) (Some (committed (db x)))
  | (inl e, x') => damaged x x' /\ bad e
  end.
Proof.
  unfold StartTransaction.
  match goal with |- context [checked ?m] => destruct (checked_spec m x) as (x' & -> & Hc) end.
  revert Hc. unfold BeginTransaction, bind, gets, modify. pose proof (sq_call_spec x) as Hs. unfold result in Hs.
  destruct (sq_call x) as [[e|[]] x1]; [intros; cbn; destruct Hs; split; [etrans; eauto with exec | done] |].
  cbn. destruct Hs as [[[? ? ?] Hdb ?] ?]. rewrite Hdb. destruct (pending (db x)); cbn.
  - intros Hc. split; [| auto with exec]. etrans; [| apply calm_damaged, Hc]. split; [done | by rewrite Hdb..].
  - intros [[[] ? ?] ?]. cbn in *. split_and!; congruence.
Qed.

Lemma Rollback_spec x : match Rollback x with
  | (inr _, x') => isMemDb_ x' = isMemDb_ x /\ conflictResolvePolicy_ x' = conflictResolvePolicy_ x
      /\ isTransactionOpen_ x' = false /\ db x' = mkDatabase (committed (db x)) None
  | (inl e, x') => damaged x x' /\ bad e
  end.
Proof.
  unfold Rollback, bind. destruct (checked_spec RollbackTransaction x) as (x' & -> & Hc).
  revert Hc. unfold RollbackTransaction, bind, gets, modify. pose proof (sq_call_spec x) as Hs. unfold result in Hs.
  destruct (sq_call x) as [[e|[]] x1]; [intros; cbn; destruct Hs; split; [etrans; eauto with exec | done] |].
  destruct Hs as [[[? ? ?] Hdb ?] ?]. rewrite Hdb. destruct (pending (db x)); cbn.
  - intros [[[] ? ?] ?]. cbn in *. split_and!; congruence.
  - intros Hc. split; [| auto with exec]. etrans; [| apply calm_damaged, Hc]. split; [done | by rewrite Hdb..].
Qed.

Lemma Commit_spec x : match Commit x with
  | (inr _, x') => exists t, pending (db x) = Some t /\ isMemDb_ x' = isMemDb_ x
      /\ conflictResolvePolicy_ x' = conflictResolvePolicy_ x /\ committedData x' = committedData x
      /\ isTransactionOpen_ x' = false /\ db x' = mkDatabase t None
  | (inl e, x') => damaged x x' /\ bad e
  end.
Proof.
  unfold Commit, bind. destruct (checked_spec CommitTransaction x) as (x' & -> & Hc).
  revert Hc. unfold CommitTransaction, bind, gets, modify. pose proof (sq_call_spec x) as Hs. unfold result in Hs.
  destruct (sq_call x) as [[e|[]] x1]; [intros; cbn; destruct Hs; split; [etrans; eauto with exec | done] |].
  destruct Hs as [[[? ? ?] Hdb ?] ?]. rewrite Hdb. destruct (pending (db x)) as [t|]; cbn.
  - intros [[[] ? ?] ?]. cbn in *. exists t. split_and!; congruence.
  - intros Hc. split; [| auto with exec]. etrans; [| apply calm_damaged, Hc]. split; [done | by rewrite Hdb..].
Qed.

(** Resetting the executor never commits anything and does not open a transaction. *)
Lemma Reset_spec x : exists x', Reset x = (inr tt, x') /\ committed (db x') = committed (db x)
  /\ (pending (db x) = None -> pending (db x') = None)
  /\ conflictResolvePolicy_ x' = conflictResolvePolicy_ x.
Proof.
  unfold Reset, bind, gets, try_, ret.
  assert (Hf : forall y, let '(_, y') := ResetForSavingData y in damaged y y').
  { intros y. pose proof (ResetForSavingData_spec y) as Hr. unfold result in Hr.
    destruct (ResetForSavingData y) as [[e|[]] y']; [apply Hr | by apply quiet_damaged]. }
  destruct (isTransactionOpen_ x).
  - pose proof (Rollback_spec x) as Hr. destruct (Rollback x) as [[e|[]] x1]; specialize (Hf x1);
      destruct (ResetForSavingData x1) as [r x2]; destruct Hf as [[] ? ?]; eexists; (split; [reflexivity |]).
    + destruct Hr as [[[] ? ?] _]. split_and!; [congruence | auto | congruence].
    + destruct Hr as (_ & ? & _ & Hdb). rewrite Hdb in *. split_and!; [done | auto | congruence].
  - specialize (Hf x). destruct (ResetForSavingData x) as [r x2]. destruct Hf as [[] ? ?].
    eexists. split; [reflexivity | done].
Qed.

End Facts.
