(* ===== verification/StoreExecutorFacts.v ===== *)
(** What saving an item does, as a function on the table: [SaveSyncDataItem] either fails
    with an error, or has exactly this effect on the table and on the notification object. *)

From S2P Require Import Prelude CommTypes SyncStorage CommitNotify SqliteUtils StoreExecutor SqliteFacts.
From Stdlib Require Import ZArith Lia.
From Stdlib Require Import Strings.Byte.
From stdpp Require Import base numbers list gmap.

Open Scope Z_scope.
Open Scope exec_scope.

Section Spec.
Context `{ValueHash} (policy : Z) (permit : bool) (di : DeviceInfo).

(** * The reference *)

(** The hash key of an item: deletions are sent with the hash key in place of the key. *)
Definition item_hash (item : DataItem) : option Key :=
  if is_delete (flag item) || is_miss_query (flag item) then Some (key item) else value_hash (key item).

Definition existed (old : option SyncRow) : bool := match old with Some _ => true | None => false end.
Definition old_item (old : option SyncRow) : DataItem := default newDataItem (item_of_row <$> old).

Definition ignored (item : DataItem) (old : option SyncRow) : bool :=
  IsNeedIgnoredData item (old_item old) di (existed old) policy.

Definition judged (item : DataItem) (old : option SyncRow) : DataOperStatus * DataItem :=
  JudgeSyncSaveType item (old_item old) (di_deviceName di) (existed old) permit.

(** The old item with its value, if it is not deleted. *)
Definition loaded (old : option SyncRow) (status : DataOperStatus) : DataItem :=
  match old with
  | Some row => if bool_decide (preStatus status = EXISTED)
                then set_value (set_key (item_of_row row) (r_key row)) (r_value row) else item_of_row row
  | None => newDataItem
  end.

Definition new_row (item : DataItem) (old : option SyncRow) : SyncRow :=
  saved_row item (GetOriginDevName item (origDev (old_item old))) (TransferHash (di_deviceName di)).

(** The row of the item after it was saved. *)
Definition save_row (item : DataItem) (old : option SyncRow) : option SyncRow :=
  if ignored item old then old
  else
    let '(status, item) := judged item old in
    if deletes_nothing status item || isDefeated status then old
    else if is_miss_query (flag item) then None else Some (new_row item old).

Definition save_table (item : DataItem) (t : Table) : Table :=
  match item_hash item with
  | Some h => partial_alter (fun _ => save_row item (t !! h)) h t
  | None => t
  end.

Definition save_notify (h : Key) (item : DataItem) (old : option SyncRow) (c : CommitNotifyData)
    : CommitNotifyData :=
  if ignored item old then c
  else
    let '(status, item) := judged item old in
    let c := InitCommitNotifyDataKeyStatus h status c in
    if deletes_nothing status item then c
    else
      let c := PutConflictData item (loaded old status) di status c in
      if isDefeated status then c else PutIntoCommittedData item (loaded old status) status c.

Definition save_data (item : DataItem) (t : Table) (c : CommitNotifyData) : CommitNotifyData :=
  match item_hash item with
  | Some h => save_notify h item (t !! h) c
  | None => c
  end.

Definition save_stamp (item : DataItem) (old : option SyncRow) (maxStamp : Z) : Z :=
  if ignored item old then maxStamp
  else
    let '(status, item) := judged item old in
    if isDefeated status then maxStamp else Z.max (timestamp item) maxStamp.

Lemma save_row_new item old row : save_row item old = Some row ->
  old = Some row \/ row = new_row (judged item old).2 old.
Proof.
  unfold save_row. destruct (ignored _ _); [by left |]. destruct (judged item old) as [status item']. cbn.
  destruct (_ || _); [by left |]. destruct (is_miss_query _); [done |]. intros [= <-]. by right.
Qed.

End Spec.

Arguments item_hash {_} _.

Lemma alter_self (h : Key) (t : Table) : partial_alter (fun _ => t !! h) h t = t.
Proof. apply partial_alter_self. Qed.

Section Facts.
Context `{Sqlite} `{ValueHash}.

(** The item has been saved. *)
Record saved (di : DeviceInfo) (permit : bool) (item : DataItem) (x x' : Executor) : Prop := {
  sv_frame : frame x x';
  sv_db : db x' = put_table (db x) (save_table (conflictResolvePolicy_ x) permit di item (table (db x)));
  sv_data : committedData x'
            = save_data (conflictResolvePolicy_ x) permit di item (table (db x)) <$> committedData x
}.

(** ** Reading the old row *)

Lemma GetSyncDataPreByHashKey_spec h x :
  result (GetSyncDataPreByHashKey h) x (fun r x' => quiet x x' /\ r = item_of_row <$> table (db x) !! h
    /\ (forall row, table (db x) !! h = Some row -> queryStatement x' = Some (Some (h, row)))).
Proof.
  unfold GetSyncDataPreByHashKey.
  apply (result_bind _ _ _ (fun st x' => x' = x)); [done |]. intros st x0 ->. split; [done |].
  eapply result_bind; [apply BindBlobToStatement_spec |]. intros [] x1 [Hc1 _]. split; [auto with exec |].
  apply (result_bind _ _ _ (fun st x' => x' = x1)); [done |]. intros mem x0 ->. split; [done |].
  eapply result_bind; [apply (step_read_spec st mem (fun t => t !! h)) |]. intros row x2 [Hc2 ->].
  split; [auto with exec |].
  assert (Hq : quiet x x2) by (etrans; [apply Hc1 | apply Hc2]).
  rewrite (qu_db _ _ (ca_quiet _ _ Hc1)).
  destruct (table (db x) !! h) as [row|]; [| apply result_ret; done].
  unfold result, bind, modify, ret, GetColumnBlobValue. split_and!; [| done | by intros ? [= <-]].
  etrans; [exact Hq |]. by split; [split | ..].
Qed.

Lemma GetSyncDataItemPre_spec item x :
  result (GetSyncDataItemPre item) x (fun r x' => quiet x x' /\ item_hash item = Some r.1
    /\ r.2 = item_of_row <$> table (db x) !! r.1
    /\ (forall row, table (db x) !! r.1 = Some row -> queryStatement x' = Some (Some (r.1, row)))).
Proof.
  unfold GetSyncDataItemPre.
  apply (result_bind _ _ _ (fun h x' => x' = x /\ item_hash item = Some h)).
  { unfold item_hash, CalcValueHash. destruct (_ || _); [done |]. destruct (value_hash _); [done |].
    apply result_throw. auto with exec. }
  intros h x0 [-> Hh]. split; [done |].
  eapply result_bind; [apply GetSyncDataPreByHashKey_spec |]. intros r x1 (Hq & -> & Hrow).
  split; [auto with exec |]. by apply result_ret.
Qed.

Lemma GetSyncDataItemExt_spec old status h x :
  (forall row, old = Some row -> queryStatement x = Some (Some (h, row))) ->
  (preStatus status = EXISTED -> is_Some old) ->
  GetSyncDataItemExt (old_item old) status x = (inr (loaded old status), x).
Proof.
  intros Hrow Hpre. unfold GetSyncDataItemExt, loaded, old_item.
  destruct old as [row|]; case_bool_decide as E; cbn [negb default fmap option_fmap option_map]; try done.
  - unfold bind, gets. by rewrite (Hrow row eq_refl).
  - by destruct (Hpre E).
Qed.

Lemma judged_existed permit di item old : preStatus (judged permit di item old).1 = EXISTED -> is_Some old.
Proof. unfold judged, JudgeSyncSaveType. destruct old; cbn; [eauto | done]. Qed.

(** ** Leaving by [ResetSaveSyncStatements] *)

Lemma leave_spec {A} e x : exists e' x', leave (A := A) e x = (inl e', x') /\ kept e x (quiet x) e' x'.
Proof.
  unfold leave, bind. destruct (ResetSaveSyncStatements_spec e x) as (e' & x' & -> & Hk). eauto.
Qed.

(** What [PrepareForNotifyConflictAndObserver] does, in each of its cases. *)
Definition prepared (di : DeviceInfo) (permit : bool) (item : DataItem) (x : Executor)
    (r : Z + (DataItem * NotifyData)) (x' : Executor) : Prop :=
  exists h, let old := table (db x) !! h in let policy := conflictResolvePolicy_ x in
  item_hash item = Some h
  /\ if ignored policy di item old then r = inl (- E_IGNORE_DATA) /\ quiet x x'
     else
       let '(status, item') := judged permit di item old in
       frame x x' /\ db x' = db x
       /\ committedData x' = InitCommitNotifyDataKeyStatus h status <$> committedData x
       /\ if deletes_nothing status item' then r = inl (- E_NOT_FOUND)
          else r = inr (item', mkNotifyData (loaded old status) h status).

Lemma PrepareForNotify_spec item di permit x :
  let '(r, x') := PrepareForNotifyConflictAndObserver item di permit x in
  prepared di permit item x r x' \/ damaged x x' /\ exists e, r = inl e /\ bad e.
Proof.
  unfold PrepareForNotifyConflictAndObserver, bind, try_.
  pose proof (GetSyncDataItemPre_spec item x) as Hpre. unfold result in Hpre.
  destruct (GetSyncDataItemPre item x) as [[e|[h get]] x1].
  { destruct Hpre as [Hd Hb]. destruct (leave_spec (A := DataItem * NotifyData) e x1) as (e' & x2 & -> & Hk).
    right. destruct Hk as [[-> Hq] | [Hd' Hb']]; (split; [etrans; eauto with exec | eauto]). }
  cbn [fst snd] in Hpre. destruct Hpre as (Hq & Hh & -> & Hrow).
  assert (Ex : match item_of_row <$> table (db x) !! h with Some _ => true | None => false end
               = existed (table (db x) !! h)) by (by destruct (table (db x) !! h)).
  rewrite Ex. unfold gets. rewrite (fr_policy _ _ (qu_frame _ _ Hq)).
  fold (old_item (table (db x) !! h)).
  fold (ignored (conflictResolvePolicy_ x) di item (table (db x) !! h)).
  fold (judged permit di item (table (db x) !! h)).
  unfold prepared. destruct (ignored _ di item _) eqn:Ei.
  { destruct (leave_spec (A := DataItem * NotifyData) (- E_IGNORE_DATA) x1) as (e' & x2 & -> & Hk).
    destruct Hk as [[-> Hq'] | [Hd' Hb']]; [left | right; split; [etrans; eauto with exec | eauto]].
    exists h. split; [done |]. rewrite Ei. split; [done | by etrans]. }
  pose proof (judged_existed permit di item (table (db x) !! h)) as Hje.
  destruct (judged permit di item (table (db x) !! h)) as [status item'] eqn:Ej. cbn [fst] in Hje.
  unfold notify, modify. set (x2 := set_committed _ _).
  assert (H2 : frame x x2 /\ db x2 = db x
    /\ committedData x2 = InitCommitNotifyDataKeyStatus h status <$> committedData x).
  { destruct Hq as [[] ? ?]. cbn. split; [by split | split; congruence]. }
  destruct H2 as (Hf2 & Hd2 & Hc2).
  assert (Hdm : damaged x x2) by (split; [done | by rewrite Hd2..]).
  destruct (deletes_nothing status item') eqn:En.
  - destruct (leave_spec (A := DataItem * NotifyData) (- E_NOT_FOUND) x2) as (e' & x3 & -> & Hk).
    destruct Hk as [[-> Hq'] | [Hd' Hb']]; [left | right; split; [etrans; eauto with exec | eauto]].
    exists h. rewrite Ei, Ej, En. destruct Hq'. split_and!; try done; [by etrans | congruence..].
  - rewrite (GetSyncDataItemExt_spec _ _ h x2) by done. cbv beta iota. left.
    exists h. by rewrite Ei, Ej, En.
Qed.

(** ** Writing the row *)

(** A step that writes, inside a transaction. *)
Lemma step_write_spec (st : Stmt) (mem : bool) (run : Table -> option (unit * Table)) (t' : Table) x :
  is_Some (pending (db x)) -> (forall u t1, run (table (db x)) = Some (u, t1) -> t1 = t') ->
  result (StepWithRetry st mem run) x (fun _ x' => damaged x x' /\ committedData x' = committedData x
    /\ db x' = put_table (db x) t').
Proof.
  intros [p Hp] Ht. unfold result. pose proof (StepWithRetry_spec st mem run x) as Hs.
  destruct (StepWithRetry st mem run x) as [[e|u] x']; [done |].
  destruct Hs as (x1 & t1 & Hc & Hrun & ->). apply Ht in Hrun as ->.
  destruct Hc as [[[] Hdb ?] ?]. cbn. unfold put_table. rewrite Hp. cbn. split; [| done].
  split; [by split | done | by rewrite Hp].
Qed.

Lemma BindSavedSyncData_spec st item h origDev devName x :
  result (BindSavedSyncData st item h origDev devName) x (fun _ x' => calm x x').
Proof.
  unfold BindSavedSyncData, BindDevForSavedSyncData, BindInt64ToStatement.
  eapply result_bind; [apply BindBlobToStatement_spec |]. intros [] x1 [H1 _]. split; [auto with exec |].
  apply (result_bind _ _ _ (fun _ x' => calm x1 x')).
  { destruct (is_delete _); [apply sq_call_spec |]. eapply result_mono; [| apply BindBlobToStatement_spec].
    by intros ? ? [? _]. }
  intros [] x2 H2. split; [auto with exec |].
  eapply result_bind; [apply BindBlobToStatement_spec |]. intros [] x3 [H3 _]. split; [auto with exec |].
  eapply result_bind; [apply sq_call_spec |]. intros [] x4 H4. split; [auto with exec |].
  eapply result_bind; [apply sq_call_spec |]. intros [] x5 H5. split; [auto with exec |].
  eapply result_bind; [apply sq_call_spec |]. intros [] x6 H6. split; [auto with exec |].
  eapply result_bind; [apply BindBlobToStatement_spec |]. intros [] x7 [H7 _]. split; [auto with exec |].
  eapply result_mono; [| apply BindBlobToStatement_spec]. intros [] x8 [H8 _].
  repeat (etrans; [eassumption |]). done.
Qed.

Lemma EraseSyncData_spec h x : is_Some (pending (db x)) ->
  result (EraseSyncData h) x (fun _ x' => damaged x x' /\ committedData x' = committedData x
    /\ db x' = put_table (db x) (delete h (table (db x)))).
Proof.
  intros Hp. unfold EraseSyncData.
  eapply result_bind; [apply GetStatement_spec |]. intros st x1 [[Hq1 _] _]. split; [auto with exec |].
  pose proof (qu_db _ _ Hq1) as Hd1.
  eapply result_mono; [| apply (result_finish _ _ _ (fun _ x' => damaged x1 x' /\ committedData x' = committedData x
    /\ db x' = put_table (db x) (delete h (table (db x)))))].
  - intros [] x' (? & ? & ?). split_and!; [etrans; eauto with exec | done..].
  - intros _ y z (? & ? & ?) [Hq _]. split_and!; [etrans; eauto with exec | destruct Hq; congruence..].
  - by intros _ y (? & ? & ?).
  - eapply result_bind; [apply BindBlobToStatement_spec |]. intros [] x2 [[Hq2 _] _]. split; [auto with exec |].
    pose proof (qu_db _ _ Hq2) as Hd2.
    eapply result_mono; [| apply (step_write_spec _ _ _ (delete h (table (db x2)))); [by rewrite Hd2, Hd1 |]].
    + intros [] x3 (Hd & Hc & Hdb). rewrite Hdb, Hc, Hd2, Hd1.
      split_and!; [etrans; eauto with exec | destruct Hq1, Hq2; congruence | done].
    + by intros u t1 [= _ <-].
Qed.

(** The row is written or erased. *)
Lemma SaveSyncDataToDatabase_spec item h orig name upd x :
  is_Some (pending (db x)) -> (upd = true <-> is_Some (table (db x) !! h)) ->
  result (SaveSyncDataToDatabase item h orig name upd) x (fun _ x' => damaged x x'
    /\ committedData x' = committedData x
    /\ db x' = put_table (db x) (partial_alter (fun _ =>
         if is_miss_query (flag item) then None else Some (saved_row item orig (TransferHash name))) h (table (db x)))).
Proof.
  intros Hp Hupd. unfold SaveSyncDataToDatabase. destruct (is_miss_query _); [by apply EraseSyncData_spec |].
  set (st := if upd then updateStatement x else insertStatement x).
  apply (result_bind _ _ _ (fun st' x' => st' = st /\ x' = x)); [done |]. intros ? ? [-> ->]. split; [done |].
  destruct st; [| apply result_throw; auto with exec].
  eapply result_bind; [apply BindSavedSyncData_spec |]. intros [] x1 Hc. split; [auto with exec |].
  apply (result_bind _ _ _ (fun _ x' => x' = x1)); [done |]. intros mem ? ->. split; [done |].
  assert (Hdb : db x1 = db x) by apply Hc.
  eapply result_mono; [| apply (step_write_spec _ _ _ (<[h := saved_row item orig (TransferHash name)]> (table (db x))))].
  - intros [] x2 (Hd & Hcd & Hdb2). rewrite Hdb2, Hdb, Hcd.
    split_and!; [etrans; eauto with exec | apply Hc | done].
  - by rewrite Hdb.
  - rewrite Hdb. intros u t1. destruct upd.
    + unfold UPDATE_SYNC. destruct (proj1 Hupd eq_refl) as [row ->]. by intros [= _ <-].
    + unfold INSERT_SYNC. destruct (table (db x) !! h); [done |]. by intros [= _ <-].
Qed.

Lemma judged_noexisted permit di item old : preStatus (judged permit di item old).1 = NOEXISTED <-> old = None.
Proof.
  unfold judged, JudgeSyncSaveType. destruct old as [row|]; cbn; [| done].
  repeat case_match; cbn; done.
Qed.

Lemma loaded_orig old status : origDev (loaded old status) = origDev (old_item old).
Proof. unfold loaded. destruct old; [by case_bool_decide | done]. Qed.

(** Saving an item succeeds with the effect of the reference, or fails with an error. *)
Lemma SaveSyncDataItem_spec item di maxStamp permit x : is_Some (pending (db x)) ->
  let '(r, x') := SaveSyncDataItem item di maxStamp permit x in
  is_Some (item_hash item) /\ saved di permit item x x'
    /\ (r = inl (- E_NOT_FOUND) \/ exists m, r = inr m /\ forall h, item_hash item = Some h ->
          m = save_stamp (conflictResolvePolicy_ x) permit di item (table (db x) !! h) maxStamp)
  \/ damaged x x' /\ exists e, r = inl e /\ bad e.
Proof.
  intros Hp. unfold SaveSyncDataItem, bind, try_.
  pose proof (PrepareForNotify_spec item di permit x) as Hpre.
  destruct (PrepareForNotifyConflictAndObserver item di permit x) as [r x1].
  destruct Hpre as [(h & Hh & Hpre) | (Hd & e & -> & Hb)].
  2: { pose proof Hb as (_ & _ & Hi & _). rewrite (proj2 (Z.eqb_neq _ _) Hi). right. eauto. }
  cbv zeta in Hpre. set (old := table (db x) !! h) in *. set (policy := conflictResolvePolicy_ x) in *.
  assert (Hsave : forall x', frame x x' ->
    db x' = put_table (db x) (partial_alter (fun _ => save_row policy permit di item old) h (table (db x))) ->
    committedData x' = save_notify policy permit di h item old <$> committedData x -> saved di permit item x x').
  { intros x' ? ? ?. split; [done | |]; unfold save_table, save_data; by rewrite Hh. }
  assert (Hsame : forall x', save_row policy permit di item old = old -> frame x x' -> db x' = db x ->
    committedData x' = save_notify policy permit di h item old <$> committedData x -> saved di permit item x x').
  { intros x' Hr ? Hdb ?. apply Hsave; [done | | done]. rewrite Hr. unfold old. by rewrite alter_self, put_table_same. }
  unfold save_row, save_notify, save_stamp in *.
  destruct (ignored policy di item old) eqn:Ei.
  { destruct Hpre as [-> [Hf Hdb Hc]]. left. cbn. split_and!; [by eexists | |].
    - apply Hsame; [done.. |]. rewrite Hc. by destruct (committedData x).
    - right. eexists. split; [done |]. intros h' [= <-]%(eq_trans (eq_sym Hh)). fold old. by rewrite Ei. }
  pose proof (judged_noexisted permit di item old) as Hne.
  destruct (judged permit di item old) as [status item'] eqn:Ej. cbn [fst] in Hne.
  destruct Hpre as (Hf1 & Hdb1 & Hc1 & Hpre).
  assert (Hd1 : damaged x x1) by (split; [done | by rewrite Hdb1..]).
  destruct (deletes_nothing status item') eqn:En.
  { subst r. left. cbn. split_and!; [by eexists | by apply Hsame | by left]. }
  subst r. cbn [getData nd_hashKey dataStatus]. unfold notify at 1, modify.
  set (x2 := set_committed x1 _).
  assert (H2 : frame x x2 /\ db x2 = db x) by (destruct Hf1; by split; [split |]).
  assert (Hd2 : damaged x x2) by (destruct H2 as [? Hdb2]; split; [done | by rewrite Hdb2..]).
  destruct (isDefeated status) eqn:Ed.
  { destruct (ResetSaveSyncStatements_spec E_OK x2) as (e' & x3 & -> & Hk).
    destruct Hk as [[-> Hq] | [Hd Hb]].
    - left. cbn. split_and!; [by eexists | |].
      + apply Hsame; [done | etrans; [apply H2 | apply Hq] | rewrite (qu_db _ _ Hq); apply H2 |].
        rewrite (qu_committed _ _ Hq). unfold x2. cbn. rewrite Hc1. by destruct (committedData x).
      + right. eexists. split; [done |]. intros h' [= <-]%(eq_trans (eq_sym Hh)). fold old. by rewrite Ei, Ej, Ed.
    - pose proof Hb as (Ho & _). unfold with_code. rewrite (proj2 (Z.eqb_neq _ _) Ho). right.
      split; [by etrans | eauto]. }
  rewrite loaded_orig.
  pose proof (SaveSyncDataToDatabase_spec item' h (GetOriginDevName item' (origDev (old_item old))) (di_deviceName di)
    (negb (bool_decide (preStatus status = NOEXISTED))) x2) as Hw.
  destruct H2 as [Hf2 Hdb2]. rewrite Hdb2 in Hw. fold old in Hw. unfold result in Hw.
  specialize (Hw Hp). destruct (SaveSyncDataToDatabase _ _ _ _ _ x2) as [[e|[]] x3].
  { destruct Hw as [Hd Hb]; [rewrite negb_true_iff, bool_decide_eq_false, Hne; by destruct old; naive_solver |].
    destruct (ResetSaveSyncStatements_spec e x3) as (e' & x4 & E & Hk). cbn [ret code_of].
    rewrite E. cbv beta iota.
    assert (damaged x x4 /\ bad e') as [Hd' Hb'].
    { destruct Hk as [[-> Hq] | []]; (split; [| done]); (etrans; [exact Hd2 | etrans; eauto with exec]). }
    pose proof Hb' as (Ho & _). unfold with_code. rewrite (proj2 (Z.eqb_neq _ _) Ho). right. eauto. }
  destruct Hw as (Hd & Hc & Hdb); [rewrite negb_true_iff, bool_decide_eq_false, Hne; by destruct old; naive_solver |].
  unfold notify, modify. cbn [code_of]. set (x4 := set_committed x3 _).
  destruct (ResetSaveSyncStatements_spec E_OK x4) as (e' & x5 & E & Hk). rewrite E.
  assert (Hd4 : damaged x x4).
  { destruct Hd as [[] Hco _]. split; [etrans; [exact Hf2 | by split] | | intros Hn; rewrite Hn in Hp; by destruct Hp].
    cbn. by rewrite Hco, Hdb2. }
  destruct Hk as [[-> Hq] | [Hd' Hb]].
  - left. cbn. split_and!; [by eexists | |].
    + apply Hsave; [etrans; [apply Hd4 | apply Hq] | rewrite (qu_db _ _ Hq); exact Hdb |].
      rewrite (qu_committed _ _ Hq). unfold x4. cbn. rewrite Hc. unfold x2. cbn. rewrite Hc1. by destruct (committedData x).
    + right. eexists. split; [done |]. intros h' [= <-]%(eq_trans (eq_sym Hh)). fold old. by rewrite Ei, Ej, Ed.
  - pose proof Hb as (Ho & _). unfold with_code. rewrite (proj2 (Z.eqb_neq _ _) Ho). right.
    split; [by etrans | eauto].
Qed.

End Facts.
