(* ===== verification/NaturalStore.v ===== *)
(** Model of the writing side of a store: [SQLiteSingleVerNaturalStore]
    (storage/src/sqlite/sqlite_single_ver_natural_store.cpp), which saves what other devices
    send, and [SQLiteSingleVerNaturalStoreConnection]
    (sqlite_single_ver_natural_store_connection.cpp), through which the application writes.
    Data that is synchronized and the main data base only. *)

From S2P Require Import Prelude CommTypes SyncStorage CommitNotify SqliteUtils StoreExecutor.
From Stdlib Require Import ZArith Lia.
From Stdlib Require Import Strings.Byte.
From stdpp Require Import base numbers list gmap.

Open Scope Z_scope.
Open Scope exec_scope.

Definition E_TRANSACT_STATE : Z := E_BASE + 9.
Definition E_READ_ONLY : Z := E_BASE + 77.
Definition E_LOG_OVER_LIMITS : Z := E_BASE + 99.

Definition MAX_KEY_SIZE : Z := 1024.
Definition MAX_VALUE_SIZE : Z := 4194304.
Definition MAX_BATCH_SIZE : Z := 128.
Definition MAX_TRANSACTION_ENTRY_SIZE : Z := 128.
Definition MAX_DEV_LENGTH : Z := 128.
Definition MAX_TOTAL_NOTIFY_ITEM_SIZE : Z := 1048576.
Definition MAX_TOTAL_NOTIFY_DATA_SIZE : Z := 4195328.

Definition SQLITE_GENERAL_NS_PUT_EVENT : Z := 1.
Definition SQLITE_GENERAL_NS_SYNC_EVENT : Z := 2.
Definition SQLITE_GENERAL_CONFLICT_EVENT : Z := 8.

Definition size {A} (l : list A) : Z := Z.of_nat (length l).

(** ["Unknown"]. *)
Definition UNKNOWN : list byte := [x55; x6e; x6b; x6e; x6f; x77; x6e].

(** How the store was opened: [SYNC_DUAL_TUPLE_MODE], the conflict notifiers that are
    registered, and whether it may be written; the schema, with the check of a value (the
    status, and the value to use instead if it is amended); and the time stamps that
    [GetTimestamp] gives one after the other. *)
Class StoreConfig := {
  dual_tuple : bool;
  conflict_flag : Z;
  write_permission : bool;
  schema_valid : bool;
  schema_check : bool -> Value -> Z * option Value;
  clock : nat -> Z
}.

(** What a call finds: the status of [GetHandle], whether the log is over its limit, and
    whether memory can be allocated. *)
Record Env := mkEnv {
  env_handle : Z;
  env_logOver : bool;
  env_alloc : bool
}.

(** A connection. It has the write handle if [writeHandle_]. *)
Record Connection := mkConnection {
  writeHandle_ : bool;
  transactionEntrySize_ : Z;
  cn_currentMaxTimestamp_ : Z;
  committedData_ : option CommitNotifyData;
  transactionExeFlag_ : bool
}.

(** The store with its write executor, the time stamps given out and the notifications sent. *)
Record Store := mkStore {
  exec : Executor;
  currentMaxTimestamp_ : Z;
  ticks : nat;
  events : list (Z * CommitNotifyData);
  conn : Connection
}.

Implicit Types s : Store.

Definition set_exec s (x : Executor) : Store := mkStore x (currentMaxTimestamp_ s) (ticks s) (events s) (conn s).
Definition set_conn s (c : Connection) : Store := mkStore (exec s) (currentMaxTimestamp_ s) (ticks s) (events s) c.
Definition add_events s (es : list (Z * CommitNotifyData)) : Store :=
  mkStore (exec s) (currentMaxTimestamp_ s) (ticks s) (events s ++ es) (conn s).

Definition newConnection : Connection := mkConnection false 0 0 None false.

Definition SetMaxTimestamp s (stamp : Z) : Store :=
  mkStore (exec s) (if currentMaxTimestamp_ s <? stamp then stamp else currentMaxTimestamp_ s)
    (ticks s) (events s) (conn s).

Definition GetMaxTimestamp s : Z := currentMaxTimestamp_ s.

(** Runs a function of the executor, with a notification object. *)
Definition run {A} s (c : option CommitNotifyData) (m : M A) : (Z + A) * option CommitNotifyData * Store :=
  let '(r, x) := m (set_committed (exec s) c) in
  (r, committedData x, set_exec s (set_committed x None)).

Section Store.
Context `{Sqlite} `{ValueHash} `{StoreConfig}.

(** The handle is given to one user at a time. *)
Definition GetHandle s (env : Env) : Z := if writeHandle_ (conn s) then - E_BUSY else env_handle env.

Definition CheckDataStatus (k : Key) (v : Value) : Z :=
  if is_empty k || (MAX_KEY_SIZE <? size k) || (MAX_VALUE_SIZE <? size v) then - E_INVALID_ARGS else E_OK.

Definition CheckValueAndAmendIfNeed (fromSync : bool) (oriValue : Value) : Z * option Value :=
  if MAX_VALUE_SIZE <? size oriValue then (- E_INVALID_ARGS, None)
  else if negb schema_valid then (E_OK, None)
  else schema_check fromSync oriValue.

(** [CommitAndReleaseNotifyData]: the notifications that are sent. *)
Definition notifications (c : option CommitNotifyData) (isNeedCommit : bool) (eventType : Z)
    : list (Z * CommitNotifyData) :=
  match c with
  | Some c =>
    if isNeedCommit then
      (if IsChangedDataEmpty c then [] else [(eventType, c)])
      ++ (if IsConflictedDataEmpty c then [] else [(SQLITE_GENERAL_CONFLICT_EVENT, c)])
    else []
  | None => []
  end.

(** * Data from other devices *)

Definition amend_item (item : DataItem) : DataItem :=
  if is_delete (flag item) || is_miss_query (flag item) then item
  else
    let '(errCode, amended) := CheckValueAndAmendIfNeed true (value item) in
    if negb (errCode =? E_OK) then set_neglect item true
    else match amended with Some v => set_value item v | None => item end.

Definition CheckAmendValueContentForSyncProcedure (dataItems : list DataItem) : list DataItem :=
  if negb schema_valid then dataItems else amend_item <$> dataItems.

(** The loop over the items: the error code and the maximum of the time stamps. *)
Fixpoint save_loop (deviceInfo : DeviceInfo) (permit : bool) (errCode maxTimestamp : Z) (items : list DataItem)
    : M (Z * Z) :=
  match items with
  | [] => ret (errCode, maxTimestamp)
  | item :: items =>
    if neglect item then save_loop deviceInfo permit errCode maxTimestamp items
    else
      r <- try_ (SaveSyncDataItem item deviceInfo maxTimestamp permit);;
      let errCode := code_of r in
      let maxTimestamp := match r with inr m => m | inl _ => maxTimestamp end in
      if negb (errCode =? E_OK) && negb (errCode =? - E_NOT_FOUND) then ret (errCode, maxTimestamp)
      else save_loop deviceInfo permit errCode maxTimestamp items
  end.

Definition SaveSyncItems (query : Query) (dataItems : list DataItem) (deviceInfo : DeviceInfo) : M Z :=
  r <- try_ StartTransaction;;
  match r with
  | inl errCode => Reset;; throw errCode
  | inr _ =>
    let isPermitForceWrite := negb dual_tuple in
    r <- try_ (
      dataItems <- CheckDataWithQuery query dataItems deviceInfo;;
      PrepareForSavingData;;
      '(errCode, maxTimestamp) <- save_loop deviceInfo isPermitForceWrite E_OK 0 dataItems;;
      let errCode := if errCode =? - E_NOT_FOUND then E_OK else errCode in
      inner <- try_ ResetForSavingData;;
      let errCode := if negb (code_of inner =? E_OK) then code_of inner else errCode in
      with_code errCode (inr maxTimestamp));;
    r <- (match r with
          | inr maxTimestamp => c <- try_ Commit;;
                                ret (match c with inl e => inl e | inr _ => inr maxTimestamp end)
          | inl e => try_ Rollback;; ret (inl e)
          end);;
    Reset;;
    match r with inl e => throw e | inr m => ret m end
  end.

Definition SaveSyncDataToMain s (env : Env) (query : Query) (dataItems : list DataItem)
    (deviceInfo : DeviceInfo) : Z * Store :=
  if negb (env_alloc env) then (- E_OUT_OF_MEMORY, s)
  else
    let handle := GetHandle s env in
    if negb (handle =? E_OK) then (handle, s)
    else
      let c := SetConflictedNotifiedFlag newCommitNotifyData conflict_flag in
      let '(r, c, s) := run s (Some c) (SaveSyncItems query dataItems deviceInfo) in
      match r with
      | inr maxTimestamp =>
        (E_OK, add_events (SetMaxTimestamp s maxTimestamp) (notifications c true SQLITE_GENERAL_NS_SYNC_EVENT))
      | inl e => (e, s)
      end.

Definition first_error (l : list Z) : Z := default E_OK (head (filter (fun e => e <> E_OK) l)).

Definition SaveSyncDataItems s (env : Env) (query : Query) (dataItems : list DataItem) (deviceInfo : DeviceInfo)
    (checkValueContent : bool) : Z * Store :=
  let errCode := first_error ((fun i => CheckDataStatus (key i) (value i)) <$> dataItems) in
  if negb (errCode =? E_OK) then (errCode, s)
  else
    let dataItems := if checkValueContent then CheckAmendValueContentForSyncProcedure dataItems else dataItems in
    SaveSyncDataToMain s env query dataItems deviceInfo.

(** The entries are the items of a message; null pointers are left out. *)
Definition PutSyncDataWithQuery s (env : Env) (query : Query) (entries : list (option DataItem))
    (device : list byte) : Z * Store :=
  if MAX_DEV_LENGTH <? size device then (- E_INVALID_ARGS, s)
  else
    let deviceInfo := mkDeviceInfo false (if is_empty device then UNKNOWN else device) in
    let item := fun e : DataItem =>
      mkDataItem (key e) (value e) (timestamp e) (flag e) (origDev e) (writeTimestamp e) [] false [] in
    SaveSyncDataItems s env query (item <$> omap id entries) deviceInfo true.

(** * Writes of the application *)

Definition GetCurrentTimestamp s : Z * Store :=
  (clock (ticks s), mkStore (exec s) (currentMaxTimestamp_ s) (S (ticks s)) (events s) (conn s)).

Definition SaveEntryNormally s (item : DataItem) : Z * Store :=
  let '(r, c, s) := run s (committedData_ (conn s))
    (PrepareForSavingData;; SaveSyncDataItem item (mkDeviceInfo true []) 0 true) in
  let cn := conn s in
  match r with
  | inr maxTimestamp =>
    (E_OK, set_conn s (mkConnection (writeHandle_ cn) (transactionEntrySize_ cn)
                         (if cn_currentMaxTimestamp_ cn <? maxTimestamp then maxTimestamp
                          else cn_currentMaxTimestamp_ cn) c (transactionExeFlag_ cn)))
  | inl e => (e, set_conn s (mkConnection (writeHandle_ cn) (transactionEntrySize_ cn)
                               (cn_currentMaxTimestamp_ cn) c (transactionExeFlag_ cn)))
  end.

Definition SaveEntry s (entry : Entry) (isDelete : bool) (stamp : Z) : Z * Store :=
  let checked := if isDelete then (E_OK, None) else CheckValueAndAmendIfNeed false entry.2 in
  if negb (checked.1 =? E_OK) then (checked.1, s)
  else
    let v := default entry.2 checked.2 in
    let f := if isDelete then Z.lor LOCAL_FLAG DELETE_FLAG else LOCAL_FLAG in
    let '(now, s) := GetCurrentTimestamp s in
    let now := if now <? cn_currentMaxTimestamp_ (conn s) then cn_currentMaxTimestamp_ (conn s) else now in
    let w := if negb (stamp =? 0) then stamp else now in
    SaveEntryNormally s (mkDataItem entry.1 v now f [] w [] false []).

Fixpoint SaveSyncEntries s (entries : list Entry) : Z * Store :=
  match entries with
  | [] => (E_OK, s)
  | entry :: entries =>
    let '(errCode, s) := SaveEntry s entry false 0 in
    if negb (errCode =? E_OK) then (errCode, s) else SaveSyncEntries s entries
  end.

Fixpoint delete_loop s (errCode : Z) (keys : list Key) : Z * Store :=
  match keys with
  | [] => (errCode, s)
  | k :: keys =>
    let '(errCode, s) := SaveEntry s (snd (CalcValueHash k), []) true 0 in
    if negb (errCode =? E_OK) && negb (errCode =? - E_NOT_FOUND) then (errCode, s)
    else delete_loop s errCode keys
  end.

Definition DeleteSyncEntries s (keys : list Key) : Z * Store :=
  let '(errCode, s) := delete_loop s E_OK keys in
  (if errCode =? - E_NOT_FOUND then E_OK else errCode, s).

(** [ReleaseExecutor]: the handle goes back. *)
Definition release s : Store := let '(_, _, s) := run s None Reset in s.

Definition StartTransactionNormally s (env : Env) : Z * Store :=
  let handle := GetHandle s env in
  if negb (handle =? E_OK) then (handle, s)
  else if env_logOver env then (- E_LOG_OVER_LIMITS, release s)
  else if bool_decide (committedData_ (conn s) = None) && negb (env_alloc env)
  then (- E_OUT_OF_MEMORY, release s)
  else
    let c := default (SetConflictedNotifiedFlag newCommitNotifyData conflict_flag) (committedData_ (conn s)) in
    let '(r, _, s) := run s None StartTransaction in
    let cn := conn s in
    match r with
    | inl e => (e, release (set_conn s (mkConnection false (transactionEntrySize_ cn) (cn_currentMaxTimestamp_ cn)
                                          None (transactionExeFlag_ cn))))
    | inr _ => (E_OK, set_conn s (mkConnection true 0 (cn_currentMaxTimestamp_ cn) (Some c) (transactionExeFlag_ cn)))
    end.

Definition CommitInner s : Z * Store :=
  let '(r, _, s) := run s None Commit in
  let s := release s in
  let cn := conn s in
  let es := notifications (committedData_ cn) true SQLITE_GENERAL_NS_PUT_EVENT in
  let s := set_conn s (mkConnection false 0 (cn_currentMaxTimestamp_ cn) None (transactionExeFlag_ cn)) in
  (code_of r, SetMaxTimestamp (add_events s es) (cn_currentMaxTimestamp_ cn)).

Definition RollbackInner s : Z * Store :=
  let '(r, _, s) := run s None Rollback in
  let cn := conn s in
  (code_of r, release (set_conn s (mkConnection false 0 0 None (transactionExeFlag_ cn)))).

(** [PutBatchInner] and [DeleteBatchInner]: [save] writes the [n] entries. *)
Definition batch s (env : Env) (n : Z) (save : Store -> Z * Store) : Z * Store :=
  let isAuto := negb (writeHandle_ (conn s)) in
  let '(errCode, s) := if isAuto then StartTransactionNormally s env else (E_OK, s) in
  if negb (errCode =? E_OK) then (errCode, s)
  else if MAX_TRANSACTION_ENTRY_SIZE <? transactionEntrySize_ (conn s) + n then (- E_MAX_LIMITS, s)
  else
    let '(errCode, s) := save s in
    let cn := conn s in
    let s := if errCode =? E_OK
             then set_conn s (mkConnection (writeHandle_ cn) (transactionEntrySize_ cn + n)
                                (cn_currentMaxTimestamp_ cn) (committedData_ cn) (transactionExeFlag_ cn))
             else s in
    if isAuto then
      if errCode =? E_OK then CommitInner s
      else let '(innerCode, s) := RollbackInner s in
           (if negb (innerCode =? E_OK) then innerCode else errCode, s)
    else (errCode, s).

Definition CheckSyncEntriesValid (entries : list Entry) : Z :=
  if MAX_BATCH_SIZE <? size entries then - E_INVALID_ARGS
  else if negb write_permission then - E_READ_ONLY
  else first_error ((fun e : Entry => CheckDataStatus e.1 e.2) <$> entries).

Definition PutBatch s (env : Env) (entries : list Entry) : Z * Store :=
  let errCode := CheckSyncEntriesValid entries in
  if negb (errCode =? E_OK) then (errCode, s)
  else batch s env (size entries) (fun s => SaveSyncEntries s entries).

Definition Put s (env : Env) (k : Key) (v : Value) : Z * Store := PutBatch s env [(k, v)].

Definition CheckSyncKeysValid (keys : list Key) : Z :=
  if MAX_BATCH_SIZE <? size keys then - E_INVALID_ARGS
  else if negb write_permission then - E_READ_ONLY
  else first_error ((fun k => CheckDataStatus k []) <$> keys).

Definition DeleteBatch s (env : Env) (keys : list Key) : Z * Store :=
  let errCode := CheckSyncKeysValid keys in
  if negb (errCode =? E_OK) then (errCode, s)
  else batch s env (size keys) (fun s => DeleteSyncEntries s keys).

Definition Delete s (env : Env) (k : Key) : Z * Store := DeleteBatch s env [k].

Definition set_exe_flag s (b : bool) : Store :=
  let cn := conn s in
  set_conn s (mkConnection (writeHandle_ cn) (transactionEntrySize_ cn) (cn_currentMaxTimestamp_ cn)
                (committedData_ cn) b).

Definition cn_StartTransaction s (env : Env) : Z * Store :=
  if writeHandle_ (conn s) then (- E_TRANSACT_STATE, s)
  else let '(errCode, s) := StartTransactionNormally s env in
       (errCode, if errCode =? E_OK then set_exe_flag s true else s).

Definition cn_Commit s : Z * Store :=
  if negb (writeHandle_ (conn s)) then (- E_INVALID_DB, s)
  else let '(errCode, s) := CommitInner s in
       (errCode, if errCode =? E_OK then set_exe_flag s false else s).

Definition cn_RollBack s : Z * Store :=
  if negb (writeHandle_ (conn s)) then (- E_INVALID_DB, s)
  else let '(errCode, s) := RollbackInner s in
       (errCode, if errCode =? E_OK then set_exe_flag s false else s).

(** [Get]: [reader] is the status of [GetHandle] for a read handle, which sees what is
    committed; inside a transaction the write handle is used. *)
Definition Get s (reader : Z) (k : Key) : (Z + Value) * Store :=
  if (MAX_KEY_SIZE <? size k) || is_empty k then (inl (- E_INVALID_ARGS), s)
  else if writeHandle_ (conn s) then
    let '(r, _, s) := run s (committedData (exec s)) (GetKvData k) in
    (match r with inl e => inl e | inr (v, _) => inr v end, s)
  else if negb (reader =? E_OK) then (inl reader, s)
  else
    let '(r, x) := GetKvData k (set_db (exec s) (mkDatabase (committed (db (exec s))) None)) in
    (match r with inl e => inl e | inr (v, _) => inr v end, set_exec s (set_db x (db (exec s)))).

(** * Removing the data of a device *)

(** The loop of [NotifyRemovedData]: the notifications, or [None] if the fuel is not enough. *)
Fixpoint notify_removed (fuel : nat) (env : Env) (entries : list Entry) (totalSize : Z)
    (notifyData : option CommitNotifyData) : option (list (Z * CommitNotifyData)) :=
  match fuel with
  | O => None
  | S fuel =>
    match entries with
    | [] => Some (notifications notifyData true SQLITE_GENERAL_NS_SYNC_EVENT)
    | e :: rest =>
      match notifyData, env_alloc env with
      | None, false => Some []
      | _, _ =>
        let c := default newCommitNotifyData notifyData in
        if (MAX_KEY_SIZE <? size e.1) || (MAX_VALUE_SIZE <? size e.2)
        then notify_removed fuel env rest totalSize (Some c)
        else if MAX_TOTAL_NOTIFY_DATA_SIZE <? size e.1 + size e.2 + totalSize
        then app (notifications (Some c) true SQLITE_GENERAL_NS_SYNC_EVENT) <$> notify_removed fuel env entries 0 None
        else notify_removed fuel env rest (totalSize + (size e.1 + size e.2))
               (Some (InsertCommittedData c e DELETE false))
      end
    end
  end.

Definition NotifyRemovedData (env : Env) (entries : list Entry) : option (list (Z * CommitNotifyData)) :=
  if is_empty entries || (MAX_TOTAL_NOTIFY_ITEM_SIZE <? size entries) then Some []
  else notify_removed (2 * length entries + 1) env entries 0 None.

Definition RemoveDeviceDataNormally s (env : Env) (device : list byte) (isNeedNotify : bool) : Z * Store :=
  let handle := GetHandle s env in
  if negb (handle =? E_OK) then (handle, s)
  else
    let '(r, _, s) := run s None (
      entries <- (if isNeedNotify then GetAllSyncedEntries device else ret []);;
      r <- try_ (RemoveDeviceData device);;
      Reset;;
      ret (code_of r, entries)) in
    match r with
    | inl e => (e, s)
    | inr (errCode, entries) =>
      (errCode, if (errCode =? E_OK) && isNeedNotify
                then add_events s (default [] (NotifyRemovedData env entries)) else s)
    end.

(** [waterMark] is the status of [EraseDeviceWaterMark] of the syncer. *)
Definition ns_RemoveDeviceData s (env : Env) (device : list byte) (isNeedNotify isInSync : bool) (waterMark : Z)
    : Z * Store :=
  if is_empty device || (MAX_DEV_LENGTH <? size device) then (- E_INVALID_ARGS, s)
  else if negb isInSync && negb write_permission then (- E_NOT_PERMIT, s)
  else
    let handle := GetHandle s env in
    if negb (handle =? E_OK) then (handle, s)
    else
      let s := release s in
      if env_logOver env then (- E_LOG_OVER_LIMITS, s)
      else if negb (waterMark =? E_OK) then (waterMark, s)
      else RemoveDeviceDataNormally s env device isNeedNotify.

End Store.
