(* ===== verification/NaturalStoreFacts.v ===== *)
(** What is received from another device, or written through a connection outside of a
    transaction, is saved completely or not at all. *)

From S2P Require Import Prelude CommTypes SyncStorage CommitNotify SqliteUtils StoreExecutor SqliteFacts.
From S2P Require Import StoreExecutorFacts NaturalStore.
From Stdlib Require Import ZArith Lia.
From Stdlib Require Import Strings.Byte.
From stdpp Require Import base numbers list gmap.

Open Scope Z_scope.
Open Scope exec_scope.

(** * The reference *)

Section Spec.
Context `{ValueHash} (policy : Z) (permit : bool) (di : DeviceInfo).

(** The table and the notification object after the items, in their order. *)
Definition save_one (tc : Table * CommitNotifyData) (item : DataItem) : Table * CommitNotifyData :=
  if neglect item then tc
  else (save_table policy permit di item tc.1, save_data policy permit di item tc.1 tc.2).

Definition save_all (items : list DataItem) (tc : Table * CommitNotifyData) : Table * CommitNotifyData :=
  fold_left save_one items tc.

(** An item that misses the query is neglected unless it is newer than a row that matches. *)
Definition checked_item (q : Query) (name : list byte) (t : Table) (item : DataItem) : DataItem :=
  if has_flag (flag item) REMOTE_DEVICE_DATA_MISS_QUERY && negb (is_empty (key item)) then
    match t !! key item with
    | Some row =>
      if (Z.land (r_flag row) 1 =? 0) && q_match q (key item) row then
        set_neglect item ((timestamp item <? u64 (r_timestamp row))
          || (u64 (r_timestamp row) =? timestamp item) && bool_decide (r_device row = TransferHash name))
      else set_neglect item true
    | None => set_neglect item true
    end
  else item.

Definition checked_items (q : Query) (t : Table) (items : list DataItem) : list DataItem :=
  if q_empty q then items else checked_item q (di_deviceName di) t <$> items.

End Spec.

Section Facts.
Context `{Sqlite} `{ValueHash}.

(** * Functions that do not touch the notification object *)

Definition keeps_data {A} (m : M A) : Prop := forall x, committedData (m x).2 = committedData x.

Lemma keeps_bind {A B} (m : M A) (k : A -> M B) :
  keeps_data m -> (forall a, keeps_data (k a)) -> keeps_data (bind m k).
Proof.
  intros Hm Hk x. unfold bind. specialize (Hm x). destruct (m x) as [[e|a] x']; cbn in *; [done |].
  by rewrite Hk.
Qed.

Lemma keeps_try {A} (m : M A) : keeps_data m -> keeps_data (try_ m).
Proof. intros Hm x. unfold try_. specialize (Hm x). by destruct (m x). Qed.

Lemma keeps_sq_call : keeps_data sq_call.
Proof.
  intros x. unfold sq_call, raw_call. destruct (sq_fault _) as [f|]; [| done].
  destruct (is_failure f); [| done]. by destruct (rolls_back f).
Qed.

Lemma keeps_checked {A} (m : M A) : keeps_data m -> keeps_data (checked m).
Proof.
  intros Hm x. destruct (checked_spec m x) as (x' & -> & Hc). cbn. rewrite (qu_committed _ _ (ca_quiet _ _ Hc)).
  apply Hm.
Qed.

Lemma keeps_ResetStatement st fin e : keeps_data (ResetStatement st fin e).
Proof.
  unfold ResetStatement. destruct st; [| by intros x].
  destruct fin; (apply keeps_bind; [apply keeps_try, keeps_sq_call | intros []]); try (by intros x).
  apply keeps_bind; [apply keeps_try, keeps_sq_call | by intros [] x].
Qed.

Lemma keeps_ResetForSavingData : keeps_data ResetForSavingData.
Proof.
  apply keeps_bind; [| intros e; apply keeps_bind; [| by intros e'; unfold with_code; case_match]].
  - do 3 (apply keeps_bind; [by intros x | intros ?]; apply keeps_bind; [apply keeps_ResetStatement | intros [? ?]]).
    apply keeps_bind; by intros.
  - intros x. destruct (CheckCorruptedStatus_spec e x) as (x' & -> & [[] _]). done.
Qed.

Lemma keeps_Reset : keeps_data Reset.
Proof.
  apply keeps_bind; [by intros x |]. intros open. apply keeps_bind.
  - destruct open; [| by intros x]. apply keeps_bind; [apply keeps_try | by intros ? x].
    apply keeps_bind; [apply keeps_checked | by intros [] x].
    apply keeps_bind; [apply keeps_sq_call |]. intros []. apply keeps_bind; [by intros x |].
    intros d. by destruct (pending d).
  - intros []. apply keeps_bind; [apply keeps_try, keeps_ResetForSavingData | by intros ? x].
Qed.

(** * Items that miss the query *)

Lemma bind_values_spec n x : result (bind_values n) x (fun _ x' => calm x x').
Proof.
  revert x. induction n as [|n IH]; intros x; [by apply result_ret |].
  eapply result_bind; [apply sq_call_spec |]. intros [] x1 H1. split; [auto with exec |].
  eapply result_mono; [| apply IH]. intros [] x2 H2. by etrans.
Qed.

Lemma BindSyncDataCheckStmt_spec q st h x : result (BindSyncDataCheckStmt q st h) x (fun _ x' => calm x x').
Proof.
  destruct st; [| apply result_throw; auto with exec].
  eapply result_bind; [apply BindBlobToStatement_spec |]. intros [] x1 [H1 _]. split; [auto with exec |].
  eapply result_mono; [| apply bind_values_spec]. intros [] x2 H2. by etrans.
Qed.

Lemma CheckMissQueryDataItem_spec q st name item x :
  has_flag (flag item) REMOTE_DEVICE_DATA_MISS_QUERY && negb (is_empty (key item)) = true ->
  result (CheckMissQueryDataItem q st name item) x
    (fun item' x' => calm x x' /\ item' = checked_item q name (table (db x)) item).
Proof.
  intros Hf. unfold CheckMissQueryDataItem.
  apply (result_bind _ _ _ (fun st x' => x' = x)); [done |]. intros mem x0 ->. split; [done |].
  eapply result_bind; [apply (step_read_spec st mem (fun t => match t !! key item with
    | Some row => if (Z.land (r_flag row) 1 =? 0) && q_match q (key item) row then Some row else None
    | None => None end)) |].
  intros row x1 [Hc ->]. split; [auto with exec |]. unfold checked_item. rewrite Hf.
  destruct (table (db x) !! key item) as [row|]; [| by apply result_ret].
  destruct (_ && q_match _ _ _); by apply result_ret.
Qed.

(** The check fails with a bad error, or has changed nothing. *)
Lemma CheckMissQueryDataItems_spec q name items : forall st e x, (e = E_OK \/ bad e /\ st = None) ->
  exists st' e' items' x', CheckMissQueryDataItems q st name e items x = (inr (st', e', items'), x')
    /\ (e' = E_OK /\ e = E_OK /\ calm x x' /\ items' = checked_item q name (table (db x)) <$> items
        \/ damaged x x' /\ bad e').
Proof.
  induction items as [|item items IH]; intros st e x He; cbn [CheckMissQueryDataItems].
  { do 4 eexists. split; [reflexivity |]. destruct He as [-> | [He _]]; [by left | by right]. }
  destruct (has_flag (flag item) REMOTE_DEVICE_DATA_MISS_QUERY && negb (is_empty (key item))) eqn:Ef.
  - destruct He as [-> | [_ ->]]; [| do 4 eexists; split; [reflexivity | right; split; [done | auto with exec]]].
    unfold bind at 1, try_ at 1. pose proof (BindSyncDataCheckStmt_spec q st (key item) x) as Hb. unfold result in Hb.
    destruct (BindSyncDataCheckStmt q st (key item) x) as [[e1|[]] x1].
    { do 4 eexists. split; [reflexivity | by right]. }
    unfold bind at 1, try_ at 1. pose proof (CheckMissQueryDataItem_spec q st name item x1 Ef) as Hc. unfold result in Hc.
    destruct (CheckMissQueryDataItem q st name item x1) as [[e2|item'] x2].
    { do 4 eexists. split; [reflexivity | right]. destruct Hc. split; [etrans; eauto with exec | done]. }
    destruct Hc as [Hc ->]. unfold bind at 1.
    destruct (ResetStatement_spec st false E_OK x2) as (st3 & e3 & x3 & -> & Hk & Hst).
    unfold bind. destruct (IH st3 e3 x3) as (st4 & e4 & items' & x4 & -> & Hr).
    { destruct Hk as [[-> _] | [_ Hb3]]; [by left | right]. split; [done |].
      destruct Hst as [-> | ?]; [by destruct Hb3 | done]. }
    do 4 eexists. split; [reflexivity |].
    assert (H02 : calm x x2) by (by etrans).
    destruct Hk as [[-> Hc3] | [Hd3 Hb3]].
    + assert (H03 : calm x x3) by (by etrans).
      destruct Hr as [(-> & _ & Hc4 & ->) | [Hd4 Hb4]].
      * left. split_and!; [done | done | by etrans |]. cbn. f_equal.
        -- by rewrite (qu_db _ _ (ca_quiet _ _ Hb)).
        -- by rewrite (qu_db _ _ (ca_quiet _ _ H03)).
      * right. split; [etrans; eauto with exec | done].
    + destruct Hr as [(_ & -> & _) | [Hd4 Hb4]]; [by destruct Hb3 |]. right.
      split; [| done]. etrans; [apply calm_damaged, H02 | by etrans].
  - unfold bind. destruct (IH st e x He) as (st' & e' & items' & x' & -> & Hr).
    do 4 eexists. split; [reflexivity |].
    destruct Hr as [(-> & -> & Hc & ->) | Hr]; [left | by right].
    split_and!; try done. cbn. unfold checked_item at 2. by rewrite Ef.
Qed.

Lemma CheckDataWithQuery_spec q items di x :
  match CheckDataWithQuery q items di x with
  | (inr items', x') => calm x x' /\ items' = checked_items di q (table (db x)) items
  | (inl e, x') => damaged x x' /\ e <> E_OK
  end.
Proof.
  unfold CheckDataWithQuery, checked_items. destruct (q_empty q); [done |].
  destruct (q_helper q =? E_OK) eqn:E1; cbn [negb]; [| by apply Z.eqb_neq in E1].
  destruct (q_check_sql q =? E_OK) eqn:E2; cbn [negb]; [| by apply Z.eqb_neq in E2].
  unfold bind, try_.
  pose proof (GetStatement_spec None x) as Hg. unfold result in Hg.
  destruct (GetStatement None x) as [[e|st] x1]; [by destruct Hg as [? (? & _)] |].
  destruct Hg as [Hc1 _]. assert (Hdb : db x1 = db x) by apply Hc1.
  destruct (CheckMissQueryDataItems_spec q (di_deviceName di) items st E_OK x1) as (st2 & e2 & items' & x2 & -> & Hr);
    [by left |]. cbv beta iota.
  destruct (ResetStatement_spec st2 true e2 x2) as (st3 & e3 & x3 & -> & Hk & _). cbv beta iota.
  destruct (CheckCorruptedStatus_spec e3 x3) as (x4 & -> & Hc4).
  assert (Hbad : damaged x x4 -> bad e3 ->
    match with_code e3 (inr items') x4 with
    | (inr a, x') => calm x x' /\ a = checked_item q (di_deviceName di) (table (db x)) <$> items
    | (inl e, x') => damaged x x' /\ e <> E_OK
    end).
  { intros Hd (Hb & _). unfold with_code. by rewrite (proj2 (Z.eqb_neq _ _) Hb). }
  destruct Hk as [[-> Hc3] | [Hd3 Hb3]].
  - destruct Hr as [(-> & _ & Hc2 & ->) | [Hd2 Hb2]].
    + cbn. rewrite Hdb. split; [| done]. etrans; [exact Hc1 |]. etrans; [exact Hc2 |]. by etrans.
    + apply Hbad; [| done]. etrans; [apply calm_damaged, Hc1 |]. etrans; [exact Hd2 |].
      apply calm_damaged. by etrans.
  - apply Hbad; [| done]. etrans; [apply calm_damaged, Hc1 |]. etrans; [| etrans; [exact Hd3 | auto with exec]].
    destruct Hr as [(_ & _ & Hc2 & _) | [Hd2 _]]; auto with exec.
Qed.

(** * The loop *)

Definition accepted (e : Z) : Prop := e = E_OK \/ e = - E_NOT_FOUND.

Lemma save_loop_spec di permit items : forall e m x, accepted e -> is_Some (pending (db x)) ->
  exists e' m' x', save_loop di permit e m items x = (inr (e', m'), x')
    /\ (accepted e' /\ frame x x'
        /\ (forall c, let tc := save_all (conflictResolvePolicy_ x) permit di items (table (db x), c) in
             db x' = put_table (db x) tc.1 /\ (committedData x = Some c -> committedData x' = Some tc.2))
        \/ damaged x x' /\ bad e').
Proof.
  induction items as [|item items IH]; intros e m x He Hp; cbn [save_loop].
  { do 3 eexists. split; [reflexivity |]. left. split_and!; [done | done |]. intros c. cbn.
    by rewrite put_table_same. }
  destruct (neglect item) eqn:En.
  { destruct (IH e m x He Hp) as (e' & m' & x' & -> & Hr). do 3 eexists. split; [reflexivity |].
    unfold save_all, save_one in *. cbn [fold_left]. by rewrite En. }
  unfold bind, try_. pose proof (SaveSyncDataItem_spec item di m permit x Hp) as Hs.
  destruct (SaveSyncDataItem item di m permit x) as [r x1].
  destruct Hs as [(_ & [Hf Hdb Hc] & Hr) | (Hd & e1 & -> & Hb)].
  2: { cbn [code_of]. pose proof Hb as (Ho & Hn & _).
       rewrite (proj2 (Z.eqb_neq _ _) Ho), (proj2 (Z.eqb_neq _ _) Hn). cbn. do 3 eexists. split; [reflexivity |]. by right. }
  assert (He1 : accepted (code_of r)) by (destruct Hr as [-> | (? & -> & _)]; [by right | by left]).
  replace (negb (code_of r =? E_OK) && negb (code_of r =? - E_NOT_FOUND)) with false
    by (by destruct He1 as [-> | ->]).
  destruct Hp as [p Hp].
  assert (Hp1 : is_Some (pending (db x1))) by (rewrite Hdb; unfold put_table; rewrite Hp; by eexists).
  destruct (IH (code_of r) (match r with inr m1 => m1 | inl _ => m end) x1 He1 Hp1) as (e' & m' & x' & -> & Hrest).
  do 3 eexists. split; [reflexivity |].
  destruct Hrest as [(He' & Hf' & Hall) | [Hd Hb]]; [left | right].
  - split_and!; [done | by etrans |]. intros c. unfold save_all, save_one. cbn [fold_left]. rewrite En. cbn [fst snd].
    fold (save_one (conflictResolvePolicy_ x) permit di).
    assert (Ht : table (db x1) = save_table (conflictResolvePolicy_ x) permit di item (table (db x))).
    { rewrite Hdb. unfold put_table, table. by rewrite Hp. }
    destruct (Hall (save_data (conflictResolvePolicy_ x) permit di item (table (db x)) c)) as [Hdb' Hc'].
    rewrite (fr_policy _ _ Hf), Ht in *. split.
    + rewrite Hdb', Hdb. unfold put_table. by rewrite Hp.
    + intros E. apply Hc'. by rewrite Hc, E.
  - split; [| done]. etrans; [| exact Hd]. split; [done | | by rewrite Hp].
    rewrite Hdb. unfold put_table. by rewrite Hp.
Qed.

(** * The transaction *)

Lemma with_code_bad {A} e (r : Z + A) x : bad e -> with_code e r x = (inl e, x).
Proof. intros (He & _). unfold with_code. destruct r; [done |]. by rewrite (proj2 (Z.eqb_neq _ _) He). Qed.

Context `{StoreConfig}.

(** The body of the transaction: everything is saved in it, or an error shows. *)
Lemma save_body_spec q items di x : is_Some (pending (db x)) ->
  match (dataItems <- CheckDataWithQuery q items di;;
         PrepareForSavingData;;
         '(errCode, maxTimestamp) <- save_loop di (negb dual_tuple) E_OK 0 dataItems;;
         let errCode := if errCode =? - E_NOT_FOUND then E_OK else errCode in
         inner <- try_ ResetForSavingData;;
         let errCode := if negb (code_of inner =? E_OK) then code_of inner else errCode in
         with_code errCode (inr maxTimestamp)) x with
  | (inr m, x') => frame x x' /\ forall c,
      let tc := save_all (conflictResolvePolicy_ x) (negb dual_tuple) di
                  (checked_items di q (table (db x)) items) (table (db x), c) in
      db x' = put_table (db x) tc.1 /\ (committedData x = Some c -> committedData x' = Some tc.2)
  | (inl e, x') => damaged x x' /\ e <> E_OK
  end.
Proof.
  intros Hp. unfold bind at 1. pose proof (CheckDataWithQuery_spec q items di x) as Hc.
  destruct (CheckDataWithQuery q items di x) as [[e|items'] x1]; [done |]. destruct Hc as [[Hq1 _] ->].
  unfold bind at 1. pose proof (PrepareForSavingData_spec x1) as Hpr. unfold result in Hpr.
  destruct (PrepareForSavingData x1) as [[e|[]] x2].
  { destruct Hpr as [Hd (Hb & _)]. split; [etrans; eauto with exec | done]. }
  assert (Hq : quiet x x2) by (by etrans). assert (Hdb : db x2 = db x) by apply Hq.
  unfold bind at 1.
  destruct (save_loop_spec di (negb dual_tuple) (checked_items di q (table (db x)) items) E_OK 0 x2)
    as (e3 & m3 & x3 & -> & Hl); [by left | by rewrite Hdb |]. cbv beta iota zeta.
  unfold bind, try_. pose proof (ResetForSavingData_spec x3) as Hrs. unfold result in Hrs.
  destruct Hl as [(He & Hf & Hall) | [Hd Hb]].
  - replace (if e3 =? - E_NOT_FOUND then E_OK else e3) with E_OK by (by destruct He as [-> | ->]).
    assert (Hdam : damaged x x3).
    { split; [etrans; [apply Hq | done] | | intros Hn; rewrite Hn in Hp; by destruct Hp].
      destruct (Hall newCommitNotifyData) as [Hdb3 _]. rewrite Hdb3, Hdb. unfold put_table. by destruct (pending (db x)). }
    destruct (ResetForSavingData x3) as [[e4|[]] x4].
    + destruct Hrs as [Hd4 Hb4]. pose proof Hb4 as (Ho & _). cbn [code_of].
      rewrite (proj2 (Z.eqb_neq _ _) Ho). cbn [negb]. rewrite with_code_bad by done. split; [by etrans | done].
    + cbn. split; [etrans; [apply Hq |]; etrans; [exact Hf | apply Hrs] |]. intros c.
      destruct (Hall c) as [Hdb3 Hc3]. rewrite (fr_policy _ _ (qu_frame _ _ Hq)), Hdb in *.
      split; [by rewrite (qu_db _ _ Hrs) |]. intros E. rewrite (qu_committed _ _ Hrs). apply Hc3.
      by rewrite (qu_committed _ _ Hq).
  - pose proof Hb as (Ho & Hn & _). rewrite (proj2 (Z.eqb_neq _ _) Hn).
    destruct (ResetForSavingData x3) as [r4 x4].
    assert (Hbad : bad (if negb (code_of r4 =? E_OK) then code_of r4 else e3)).
    { destruct r4 as [e4|[]]; cbn; [| done]. destruct Hrs as [_ Hb4]. pose proof Hb4 as (Ho4 & _).
      by rewrite (proj2 (Z.eqb_neq _ _) Ho4). }
    rewrite with_code_bad by done. split; [| apply Hbad].
    etrans; [apply quiet_damaged, Hq |]. etrans; [exact Hd |].
    destruct r4 as [e4|[]]; [apply Hrs | by apply quiet_damaged].
Qed.

Lemma SaveSyncItems_spec q items di x :
  match SaveSyncItems q items di x with
  | (inr m, x') => pending (db x) = None /\ pending (db x') = None
      /\ conflictResolvePolicy_ x' = conflictResolvePolicy_ x
      /\ forall c, let tc := save_all (conflictResolvePolicy_ x) (negb dual_tuple) di
                      (checked_items di q (committed (db x)) items) (committed (db x), c) in
         committed (db x') = tc.1 /\ (committedData x = Some c -> committedData x' = Some tc.2)
  | (inl e, x') => e <> E_OK /\ committed (db x') = committed (db x)
      /\ conflictResolvePolicy_ x' = conflictResolvePolicy_ x
  end.
Proof.
  unfold SaveSyncItems, bind at 1, try_ at 1. pose proof (StartTransaction_spec x) as Hst.
  destruct (StartTransaction x) as [[e|[]] x1].
  { unfold bind. destruct (Reset_spec x1) as (x2 & -> & ? & _ & ?). destruct Hst as [[[] ? ?] (? & _)].
    split_and!; congruence. }
  destruct Hst as (Hnone & Hmem & Hpol & Hcd & Hopen & Hdb).
  cbv beta iota zeta. unfold bind at 1, try_ at 1.
  pose proof (save_body_spec q items di x1) as Hb. rewrite Hdb in Hb. specialize (Hb (mk_is_Some _ _ eq_refl)).
  match type of Hb with match ?m with _ => _ end => destruct m as [[e|mx] x2] end.
  - destruct Hb as [[[] Hco _] He]. rewrite Hdb in Hco. cbn in Hco.
    unfold bind, try_. pose proof (Rollback_spec x2) as Hrb.
    destruct (Rollback x2) as [r3 x3]. unfold ret. cbv beta iota.
    destruct (Reset_spec x3) as (x4 & -> & Hc4 & _ & Hp4).
    assert (committed (db x3) = committed (db x) /\ conflictResolvePolicy_ x3 = conflictResolvePolicy_ x) as [? ?].
    { destruct r3 as [e3|[]].
      - destruct Hrb as [[[] ? ?] _]. split; congruence.
      - destruct Hrb as (_ & ? & _ & Hdb3). rewrite Hdb3. cbn. split; congruence. }
    split_and!; [done | congruence..].
  - destruct Hb as [[] Hall]. cbn in Hall. unfold bind, try_. pose proof (Commit_spec x2) as Hcm.
    destruct (Commit x2) as [[e3|[]] x3]; unfold ret; cbv beta iota.
    + destruct (Reset_spec x3) as (x4 & -> & Hc4 & _ & Hp4).
      destruct Hcm as [[[] Hco _] (He & _)]. split_and!; [done | | congruence].
      rewrite Hc4, Hco. by destruct (Hall newCommitNotifyData) as [-> _].
    + destruct Hcm as (t & Ht & _ & Hp3 & Hcd3 & _ & Hdb3).
      pose proof (keeps_Reset x3) as Hk. destruct (Reset_spec x3) as (x4 & E & Hc4 & Hn4 & Hp4).
      rewrite E in *. cbn in Hk |- *. rewrite Hdb3 in *. cbn in *. split_and!; [done | auto | congruence |].
      intros c. destruct (Hall c) as [Hdb2 Hc2]. rewrite Hdb2 in Ht. cbn in Ht. injection Ht as <-.
      rewrite Hpol in *. split; [done |]. rewrite Hcd in Hc2. intros Hc. rewrite Hk, Hcd3. auto.
Qed.

(** * Data of another device *)

(** The items that are saved: without the device, and with the values amended to the schema
    or marked as neglected. *)
Definition received (entries : list (option DataItem)) : list DataItem :=
  CheckAmendValueContentForSyncProcedure
    ((fun e : DataItem => mkDataItem (key e) (value e) (timestamp e) (flag e) (origDev e) (writeTimestamp e) [] false [])
       <$> omap id entries).

Definition sender (device : list byte) : DeviceInfo := mkDeviceInfo false (if is_empty device then UNKNOWN else device).

Definition fresh_data : CommitNotifyData := SetConflictedNotifiedFlag newCommitNotifyData conflict_flag.

(** What saving them does to the table and which changes it records. *)
Definition sync_result (policy : Z) (q : Query) (entries : list (option DataItem)) (device : list byte) (t : Table)
    : Table * CommitNotifyData :=
  save_all policy (negb dual_tuple) (sender device) (checked_items (sender device) q t (received entries)) (t, fresh_data).

Lemma PutSyncDataWithQuery_cases s env q entries device :
  let '(e, s') := PutSyncDataWithQuery s env q entries device in
  let x := exec s in let x' := exec s' in
  conflictResolvePolicy_ x' = conflictResolvePolicy_ x /\ conn s' = conn s /\ ticks s' = ticks s
  /\ if e =? E_OK then
       let tc := sync_result (conflictResolvePolicy_ x) q entries device (committed (db x)) in
       pending (db x) = None /\ db x' = mkDatabase tc.1 None
       /\ events s' = events s ++ notifications (Some tc.2) true SQLITE_GENERAL_NS_SYNC_EVENT
     else committed (db x') = committed (db x) /\ events s' = events s
          /\ currentMaxTimestamp_ s' = currentMaxTimestamp_ s.
Proof.
  unfold PutSyncDataWithQuery, SaveSyncDataItems, SaveSyncDataToMain.
  destruct (MAX_DEV_LENGTH <? _); [done |]. fold (sender device).
  set (items := _ <$> omap id entries).
  destruct (first_error _ =? E_OK) eqn:Ef; cbn [negb]; [| by rewrite Ef].
  destruct (env_alloc env); cbn [negb]; [| done].
  destruct (GetHandle s env =? E_OK) eqn:Eh; cbn [negb]; [| by rewrite Eh].
  unfold run. pose proof (SaveSyncItems_spec q (CheckAmendValueContentForSyncProcedure items) (sender device)
    (set_committed (exec s) (Some (SetConflictedNotifiedFlag newCommitNotifyData conflict_flag)))) as Hs.
  destruct (SaveSyncItems _ _ _ _) as [[e|m] x'].
  - destruct Hs as (He & Hc & Hp). cbn in *. rewrite (proj2 (Z.eqb_neq _ _) He). done.
  - cbn in Hs. destruct Hs as (Hn & Hn' & Hp & Hall).
    destruct (Hall fresh_data) as [Ht Hd]. specialize (Hd eq_refl).
    cbn. rewrite Hd. split_and!; try done.
    destruct (db x') as [c p]. cbn in *. by subst.
Qed.

(** C27: Whatever calls into SQLite fail, data received from another device is saved
    completely or not at all: if the call reports success, the committed table is the one
    with all items resolved against it one after the other, and the observers are told
    exactly the recorded changes; otherwise the committed table is unchanged and nobody is
    told anything. *)
Theorem sync_atomic s env q entries device :
  let '(e, s') := PutSyncDataWithQuery s env q entries device in
  let t := committed (db (exec s)) in
  let t' := committed (db (exec s')) in
  let tc := sync_result (conflictResolvePolicy_ (exec s)) q entries device t in
  e = E_OK /\ t' = tc.1 /\ events s' = events s ++ notifications (Some tc.2) true SQLITE_GENERAL_NS_SYNC_EVENT
  \/ e <> E_OK /\ t' = t /\ events s' = events s /\ currentMaxTimestamp_ s' = currentMaxTimestamp_ s.
Proof.
  pose proof (PutSyncDataWithQuery_cases s env q entries device) as Hc.
  destruct (PutSyncDataWithQuery s env q entries device) as [e s']. destruct Hc as (_ & _ & _ & Hc).
  destruct (e =? E_OK) eqn:E; [left | right].
  - apply Z.eqb_eq in E. destruct Hc as (_ & -> & ?). done.
  - apply Z.eqb_neq in E. done.
Qed.

End Facts.
