(* ===== verification/Convergence.v ===== *)
(** Stores that have received the same items hold the same data, whatever the order and the
    batches in which the items arrived: the last write wins. *)

From S2P Require Import Prelude CommTypes SyncStorage CommitNotify SqliteUtils StoreExecutor SqliteFacts.
From S2P Require Import StoreExecutorFacts NaturalStore NaturalStoreFacts.
From Stdlib Require Import ZArith Lia.
From Stdlib Require Import Strings.Byte.
From stdpp Require Import base numbers list gmap.

Open Scope Z_scope.

(** * Last write wins *)

Lemma u64_signed w : 0 <= w < 2 ^ 64 -> u64 (to_signed 64 w) = w.
Proof.
  intros Hw. unfold to_signed, wrap. rewrite (Z.mod_small w) by lia. destruct (_ <? _) eqn:E; [by rewrite Z.mod_small by lia |].
  apply Z.ltb_ge in E. rewrite <- (Z.mod_add _ 1) by lia. rewrite Z.mod_small; lia.
Qed.

Lemma ord_pairs_perm {A} (R : relation A) `{!Symmetric R} l1 l2 :
  l1 ≡ₚ l2 -> ForallOrdPairs R l1 -> ForallOrdPairs R l2.
Proof.
  induction 1 as [|a l1 l2 Hp IH|a b l|l1 l2 l3 _ IH1 _ IH2]; intros HR; auto.
  - inversion HR; subst. constructor; [by rewrite <- Hp | auto].
  - inversion HR as [|? ? Hall HR']; subst. inversion HR'; subst. apply Forall_cons in Hall as [? ?].
    repeat constructor; auto.
Qed.

Section Merge.
Context `{ValueHash} (permit : bool).

(** An item with the device that sends it. *)
Abbreviation Update := (DeviceInfo * DataItem)%type.
Implicit Types (u : Update) (t : Table).

Definition apply_update t u : Table := save_table DEFAULT_LAST_WIN permit u.1 u.2 t.

Definition write_stamp (row : SyncRow) : Z := u64 (r_w_timestamp row).

(** An item of a full synchronization: neither local nor missing a query. *)
Record plain u : Prop := {
  pl_local : has_flag (flag u.2) LOCAL_FLAG = false;
  pl_query : is_miss_query (flag u.2) = false;
  pl_stamp : 0 <= writeTimestamp u.2 < 2 ^ 64
}.

Definition update_row u : SyncRow := new_row u.1 u.2 None.

(** The later write. *)
Definition later (old : option SyncRow) (row : SyncRow) : SyncRow :=
  match old with
  | Some o => if write_stamp row <=? write_stamp o then o else row
  | None => row
  end.

Definition merge_update t u : Table :=
  match item_hash u.2 with
  | Some h => <[h := later (t !! h) (update_row u)]> t
  | None => t
  end.

(** The sender's own earlier write is not newer: its data is not overwritten by force. *)
Definition in_turn t u : Prop := permit = true -> forall h row, item_hash u.2 = Some h -> t !! h = Some row ->
  TransferHash (di_deviceName u.1) <> [] -> r_device row = TransferHash (di_deviceName u.1) ->
  write_stamp row < writeTimestamp u.2.

Lemma write_stamp_new u : plain u -> write_stamp (update_row u) = writeTimestamp u.2.
Proof. intros [_ _ Hw]. by apply u64_signed. Qed.

Lemma new_row_old u old : plain u -> new_row u.1 u.2 old = update_row u.
Proof. intros [Hl _ _]. unfold update_row, new_row, GetOriginDevName. by rewrite Hl. Qed.

Lemma save_row_plain t u h : plain u -> in_turn t u -> item_hash u.2 = Some h ->
  save_row DEFAULT_LAST_WIN permit u.1 u.2 (t !! h) = Some (later (t !! h) (update_row u)).
Proof.
  intros Hp Ht Hh. unfold save_row, ignored, IsNeedIgnoredData.
  rewrite (andb_false_r (negb _)), andb_false_r. unfold judged, JudgeSyncSaveType, later.
  pose proof (new_row_old u (t !! h) Hp) as Hnew. pose proof (write_stamp_new u Hp) as Hw.
  destruct (t !! h) as [row|] eqn:Er; cbn [existed].
  - change (writeTimestamp (old_item (Some row))) with (write_stamp row).
    change (dev (old_item (Some row))) with (r_device row). rewrite Hw.
    destruct (writeTimestamp u.2 <=? write_stamp row) eqn:El.
    + destruct (negb _ && _ && permit) eqn:Ef.
      * exfalso. apply andb_prop in Ef as [[Ee Ed]%andb_prop Ep]. apply bool_decide_eq_true in Ed.
        apply Z.leb_le in El. assert (write_stamp row < writeTimestamp u.2); [| lia].
        apply (Ht Ep h row); [done | done | by destruct (TransferHash _) | done].
      * unfold deletes_nothing. destruct Hp as [Hl _ _]. by rewrite Hl, andb_false_r.
    + unfold deletes_nothing. destruct Hp as [Hl Hm _]. rewrite Hl, andb_false_r, Hm. cbn. by rewrite Hnew.
  - unfold deletes_nothing. destruct Hp as [Hl Hm _]. rewrite Hl, andb_false_r, Hm. cbn. by rewrite Hnew.
Qed.

Lemma apply_merge t u : plain u -> in_turn t u -> apply_update t u = merge_update t u.
Proof.
  intros Hp Ht. unfold apply_update, save_table, merge_update. destruct (item_hash u.2) as [h|] eqn:Hh; [| done].
  by rewrite (save_row_plain t u h).
Qed.

(** * Any order *)

(** Different writes of the same key have different time stamps. *)
Definition apart u1 u2 : Prop := item_hash u1.2 = item_hash u2.2 ->
  writeTimestamp u1.2 = writeTimestamp u2.2 -> update_row u1 = update_row u2.

Lemma merge_comm t u1 u2 : plain u1 -> plain u2 -> apart u1 u2 ->
  merge_update (merge_update t u1) u2 = merge_update (merge_update t u2) u1.
Proof.
  intros H1 H2 Ha. unfold merge_update, apart in *. pose proof (write_stamp_new u1 H1). pose proof (write_stamp_new u2 H2).
  destruct (item_hash u1.2) as [h1|], (item_hash u2.2) as [h2|]; try done.
  destruct (decide (h1 = h2)) as [->|Hn].
  - rewrite !lookup_insert_eq, !insert_insert_eq. f_equal. specialize (Ha eq_refl).
    assert (Heq : write_stamp (update_row u1) = write_stamp (update_row u2) -> update_row u1 = update_row u2).
    { intros E. apply Ha. congruence. }
    unfold later. destruct (t !! h2) as [o|]; repeat case_match; try done; rewrite ?Z.leb_le, ?Z.leb_gt in *; try lia;
      (done || (apply Heq; lia) || (symmetry; apply Heq; lia)).
  - rewrite !lookup_insert_ne by done. by apply insert_insert_ne.
Qed.

#[local] Instance apart_sym : Symmetric apart.
Proof. unfold apart. intros u v Huv E1 E2. symmetry. by apply Huv. Qed.

Definition merge_all (us : list Update) t : Table := fold_left merge_update us t.

Lemma merge_all_perm us1 us2 t : us1 ≡ₚ us2 -> Forall plain us1 -> ForallOrdPairs apart us1 ->
  merge_all us1 t = merge_all us2 t.
Proof.
  intros Hperm. revert t. induction Hperm as [|u us1 us2 Hp IH|u v us|us1 us2 us3 Hp1 IH1 Hp2 IH2]; intros t Hpl Hap.
  - done.
  - apply Forall_cons in Hpl as [_ Hpl]. inversion Hap; subst. by apply IH.
  - apply Forall_cons in Hpl as [Hu Hpl]. apply Forall_cons in Hpl as [Hv _].
    inversion Hap as [|? ? Hall _]; subst. apply Forall_cons in Hall as [Huv _].
    unfold merge_all. cbn. by rewrite merge_comm.
  - rewrite IH1 by done. apply IH2; [by rewrite <- Hp1 | by apply (ord_pairs_perm _ us1)].
Qed.

(** * In the order of the sender *)

Definition apply_all (us : list Update) t : Table := fold_left apply_update us t.

(** A device sends its writes of a key in their order, each once. *)
Definition turn u1 u2 : Prop := item_hash u1.2 = item_hash u2.2 -> TransferHash (di_deviceName u1.1) <> [] ->
  TransferHash (di_deviceName u1.1) = TransferHash (di_deviceName u2.1) -> writeTimestamp u1.2 < writeTimestamp u2.2.

Definition in_order (us : list Update) t : Prop :=
  permit = true -> Forall (in_turn t) us /\ ForallOrdPairs turn us.

Lemma in_turn_merge t u v : plain u -> turn u v -> in_turn t v -> in_turn (merge_update t u) v.
Proof.
  intros Hp Huv Ht Hpermit h row Hh Hrow Hne Hdev. unfold merge_update in Hrow. unfold turn in Huv.
  destruct (item_hash u.2) as [hu|] eqn:Eu; [| by eapply Ht].
  destruct (decide (hu = h)) as [->|Hn]; [| rewrite lookup_insert_ne in Hrow by done; by eapply Ht].
  rewrite lookup_insert_eq in Hrow. injection Hrow as <-. unfold later in *.
  assert (Hnew : r_device (update_row u) = TransferHash (di_deviceName v.1) ->
    write_stamp (update_row u) < writeTimestamp v.2).
  { intros E. rewrite write_stamp_new by done. cbn in E. apply Huv; congruence. }
  destruct (t !! h) as [o|] eqn:Eo; [| auto]. destruct (_ <=? _) eqn:El; [| auto]. by eapply Ht.
Qed.

Lemma apply_all_merge us : forall t, Forall plain us -> in_order us t -> apply_all us t = merge_all us t.
Proof.
  induction us as [|u us IH]; intros t Hpl Hord; [done |]. apply Forall_cons in Hpl as [Hu Hpl].
  unfold apply_all, merge_all. cbn. rewrite apply_merge; [| done |].
  - apply IH; [done |]. intros Hp. destruct (Hord Hp) as [Ht Hturn]. apply Forall_cons in Ht as [_ Ht].
    inversion Hturn as [|? ? Hall Hturn']; subst. split; [| done]. apply Forall_forall. intros v Hv.
    rewrite Forall_forall in Ht, Hall. apply in_turn_merge; auto.
  - intros Hp. destruct (Hord Hp) as [Ht _]. apply Forall_cons in Ht as [Ht _]. by apply Ht.
Qed.

Lemma apply_all_perm us1 us2 t : us1 ≡ₚ us2 -> Forall plain us1 -> ForallOrdPairs apart us1 ->
  in_order us1 t -> in_order us2 t -> apply_all us1 t = apply_all us2 t.
Proof.
  intros Hperm Hpl Hap H1 H2. rewrite !apply_all_merge; [by apply merge_all_perm | by rewrite <- Hperm | done..].
Qed.

Lemma save_all_apply di items t c :
  (save_all DEFAULT_LAST_WIN permit di items (t, c)).1 = apply_all (pair di <$> filter (fun i => neglect i = false) items) t.
Proof.
  unfold save_all, apply_all. revert t c. induction items as [|i items IH]; intros t c; [done |].
  cbn [fold_left]. unfold save_one at 2. rewrite filter_cons. cbn [fst snd].
  destruct (neglect i) eqn:E; [rewrite decide_False by done | rewrite decide_True by done]; by rewrite IH.
Qed.

End Merge.

(** * Stores *)

(** The items of a message, as another device delivers them. *)
Record Delivery := mkDelivery {
  d_env : Env;
  d_entries : list (option DataItem);
  d_device : list byte
}.

(** No query. *)
Definition full : Query := mkQuery true E_OK E_OK 0 (fun _ _ => true).

Section Receive.
Context `{Sqlite} `{ValueHash} `{StoreConfig}.

Definition updates (d : Delivery) : list (DeviceInfo * DataItem) :=
  pair (sender (d_device d)) <$> filter (fun i => neglect i = false) (received (d_entries d)).

(** Receives the deliveries one after the other: the items of those that are saved. *)
Fixpoint receive (s : Store) (ds : list Delivery) : list (DeviceInfo * DataItem) * Store :=
  match ds with
  | [] => ([], s)
  | d :: ds =>
    let '(e, s) := PutSyncDataWithQuery s (d_env d) full (d_entries d) (d_device d) in
    let '(us, s) := receive s ds in
    ((if e =? E_OK then updates d else []) ++ us, s)
  end.

Lemma receive_spec ds : forall s, conflictResolvePolicy_ (exec s) = DEFAULT_LAST_WIN ->
  committed (db (exec (receive s ds).2))
  = apply_all (negb dual_tuple) (receive s ds).1 (committed (db (exec s))).
Proof.
  induction ds as [|d ds IH]; intros s Hp; [done |]. cbn [receive].
  pose proof (PutSyncDataWithQuery_cases s (d_env d) full (d_entries d) (d_device d)) as Hc.
  destruct (PutSyncDataWithQuery _ _ _ _ _) as [e s']. destruct Hc as (Hp' & _ & _ & Hc).
  specialize (IH s' (eq_trans Hp' Hp)). destruct (receive s' ds) as [us s'']. cbn [fst snd] in *. rewrite IH.
  destruct (e =? E_OK).
  - destruct Hc as (_ & -> & _). cbn [committed]. unfold sync_result. rewrite Hp, save_all_apply.
    unfold apply_all. by rewrite <- fold_left_app.
  - by destruct Hc as (-> & _).
Qed.

End Receive.


(** * Repeated deliveries *)

Section Repeat.
Context `{Sqlite} `{ValueHash} `{StoreConfig}.

(** The same write of the same device again: it is stored with a later time stamp. *)
Lemma apply_again t u h row : plain u -> item_hash u.2 = Some h -> t !! h = Some row ->
  TransferHash (di_deviceName u.1) <> [] -> r_device row = TransferHash (di_deviceName u.1) ->
  write_stamp row = writeTimestamp u.2 -> writeTimestamp u.2 + 1 < 2 ^ 64 ->
  exists row', apply_update true t u !! h = Some row' /\ write_stamp row' = writeTimestamp u.2 + 1
    /\ r_value row' = value u.2 /\ r_device row' = TransferHash (di_deviceName u.1).
Proof.
  intros [Hl Hm Hw0] Hh Hr Hne Hdev Hw Hlt. unfold apply_update, save_table. rewrite Hh, lookup_partial_alter_eq, Hr.
  unfold save_row, ignored, IsNeedIgnoredData. rewrite (andb_false_r (negb _)), andb_false_r.
  unfold judged, JudgeSyncSaveType. cbn [existed].
  change (writeTimestamp (old_item (Some row))) with (write_stamp row).
  change (dev (old_item (Some row))) with (r_device row).
  rewrite Hw, Z.leb_refl, bool_decide_eq_true_2 by done.
  replace (is_empty (TransferHash (di_deviceName u.1))) with false by (by destruct (TransferHash _)).
  cbn [negb andb]. unfold deletes_nothing. cbn [flag set_stamps preStatus isDefeated]. rewrite Hl, andb_false_r, Hm. cbn [orb].
  eexists. split; [reflexivity |]. cbn. split; [| done].
  unfold write_stamp. cbn [r_w_timestamp]. rewrite (wrap_small 64 (writeTimestamp u.2 + 1)) by lia. apply u64_signed. lia.
Qed.

(** C29: Repeated delivery is not harmless: a device that receives a write twice stores it
    with a later time stamp, and then a later write of another device with that time stamp,
    which replaces it everywhere else, is rejected here. *)
Theorem redelivery_diverges s1 s2 ds1 ds2 h u v :
  dual_tuple = false ->
  conflictResolvePolicy_ (exec s1) = DEFAULT_LAST_WIN -> conflictResolvePolicy_ (exec s2) = DEFAULT_LAST_WIN ->
  committed (db (exec s1)) !! h = None -> committed (db (exec s2)) !! h = None ->
  (receive s1 ds1).1 = [u; v] -> (receive s2 ds2).1 = [u; u; v] ->
  plain u -> plain v -> item_hash u.2 = Some h -> item_hash v.2 = Some h ->
  TransferHash (di_deviceName u.1) <> [] -> TransferHash (di_deviceName v.1) <> TransferHash (di_deviceName u.1) ->
  writeTimestamp v.2 = writeTimestamp u.2 + 1 ->
  r_value <$> committed (db (exec (receive s1 ds1).2)) !! h = Some (value v.2)
  /\ r_value <$> committed (db (exec (receive s2 ds2).2)) !! h = Some (value u.2).
Proof.
  intros Hdt P1 P2 N1 N2 U1 U2 Hu Hv Hhu Hhv Hne Hdev Hw.
  rewrite (receive_spec ds1 s1 P1), (receive_spec ds2 s2 P2), U1, U2, Hdt.
  assert (Hfresh : forall t, t !! h = None -> apply_update true t u = <[h := update_row u]> t).
  { intros t Ht. rewrite apply_merge; [| done |].
    - unfold merge_update. by rewrite Hhu, Ht.
    - intros _ h' row Hh' Hrow. congruence. }
  assert (Hlate : forall t row, t !! h = Some row -> r_device row = TransferHash (di_deviceName u.1) ->
    apply_update true t v = <[h := later (Some row) (update_row v)]> t).
  { intros t row Ht Hd. rewrite apply_merge; [| done |].
    - unfold merge_update. by rewrite Hhv, Ht.
    - intros _ h' row' Hh' Hrow. congruence. }
  unfold apply_all. cbn [fold_left negb]. rewrite (Hfresh (committed (db (exec s1)))), (Hfresh (committed (db (exec s2)))) by done.
  pose proof (pl_stamp _ Hv) as Hvs. split.
  - rewrite (Hlate _ (update_row u)); [| apply lookup_insert_eq | done]. rewrite lookup_insert_eq. unfold later.
    rewrite !write_stamp_new by done. rewrite (proj2 (Z.leb_gt _ _)) by lia. done.
  - destruct (apply_again (<[h := update_row u]> (committed (db (exec s2)))) u h (update_row u))
      as (row' & Hr & Hs & Hval & Hd); try done; [apply lookup_insert_eq | by apply write_stamp_new | lia |].
    rewrite (Hlate _ row') by done. rewrite lookup_insert_eq. unfold later. rewrite write_stamp_new, Hs by done.
    rewrite (proj2 (Z.leb_le _ _)) by lia. cbn. by rewrite Hval.
Qed.

End Repeat.

(** * Samples *)

Module Sample.

#[export] Instance hash : ValueHash := {| value_hash := fun v => Some (x68 :: v) |}.
#[export] Instance config : StoreConfig := {|
  dual_tuple := false; conflict_flag := 0; write_permission := true;
  schema_valid := false; schema_check := fun _ _ => (E_OK, None); clock := fun n => Z.of_nat n + 1
|}.

(** SQLite never fails; the step of the first [INSERT] fails. *)
Definition reliable : Sqlite := {| sq_fault := fun _ => None |}.
Definition failing : Sqlite := {| sq_fault := fun n => if (n =? 15)%nat then Some (mkFault SQLITE_FULL false true) else None |}.

Definition executor : Executor :=
  mkExecutor (mkDatabase ∅ None) 0 false false false DEFAULT_LAST_WIN None None None None.
Definition store : Store := mkStore executor 0 0 [] newConnection.
Definition ready : Env := mkEnv E_OK false true.

Definition item (k v : byte) (w : Z) : DataItem := mkDataItem [k] [v] w 0 [x6f] w [] false [].
Definition delivery (device : byte) (i : DataItem) : Delivery := mkDelivery ready [Some i] [device].

Definition ds1 : list Delivery := [delivery x41 (item x6b x31 10); delivery x42 (item x6b x32 20)].
Definition ds2 : list Delivery :=
  [delivery x42 (item x6b x32 20); delivery x42 (item x6b x32 20); delivery x41 (item x6b x31 10)].

End Sample.

#[local] Existing Instance Sample.hash.
#[local] Existing Instance Sample.config.


Lemma redelivery_diverges_witness :
  r_value <$> committed (db (exec (receive (H := Sample.reliable) Sample.store
      [Sample.delivery x41 (Sample.item x6b x31 10); Sample.delivery x42 (Sample.item x6b x32 11)]).2))
    !! [x68; x6b] = Some [x32]
  /\ r_value <$> committed (db (exec (receive (H := Sample.reliable) Sample.store
      [Sample.delivery x41 (Sample.item x6b x31 10); Sample.delivery x41 (Sample.item x6b x31 10);
       Sample.delivery x42 (Sample.item x6b x32 11)]).2)) !! [x68; x6b] = Some [x31].
Proof.
  apply (redelivery_diverges (H := Sample.reliable) _ _ _ _ [x68; x6b]
    (mkDeviceInfo false [x41], mkDataItem [x6b] [x31] 10 0 [x6f] 10 [] false [])
    (mkDeviceInfo false [x42], mkDataItem [x6b] [x32] 11 0 [x6f] 11 [] false []));
    try (vm_compute; reflexivity); try discriminate; repeat constructor; cbn; lia.
Defined.
