(* ===== verification/ChangesReported.v ===== *)
(** The changes that a store reports are the difference between the data before and after:
    nothing is missing, nothing is reported twice or wrongly. And the table stays well
    formed. *)

From S2P Require Import Prelude CommTypes SyncStorage CommitNotify SqliteUtils StoreExecutor SqliteFacts.
From S2P Require Import StoreExecutorFacts NaturalStore NaturalStoreFacts Convergence.
From Stdlib Require Import ZArith Lia.
From Stdlib Require Import Strings.Byte.
From stdpp Require Import base numbers list gmap.

Open Scope Z_scope.

(** * Well-formed tables *)

Definition deleted_row (row : SyncRow) : bool := has_flag (u64 (r_flag row)) DELETE_FLAG.

Section Changes.
Context `{ValueHash}.

(** The hash of the key of a row is its hash key; a deleted row has no key. *)
Definition row_wf (h : Key) (row : SyncRow) : Prop :=
  if deleted_row row then r_key row = [] else value_hash (r_key row) = Some h /\ r_key row <> [].

Definition table_wf (t : Table) : Prop := map_Forall row_wf t.

(** The data that the application sees. *)
Definition live_row (old : option SyncRow) : option Value :=
  match old with
  | Some row => if deleted_row row then None else Some (r_value row)
  | None => None
  end.

Definition live (t : Table) (k : Key) : option Value :=
  match value_hash k with
  | Some h => live_row (t !! h)
  | None => None
  end.

(** An item that may be saved: it has a key, and its flags are 64 bits. *)
Record item_ok (i : DataItem) : Prop := {
  io_key : key i <> [];
  io_flag : 0 <= flag i < 2 ^ 64
}.

Lemma is_delete_flag f : is_delete f = has_flag f DELETE_FLAG.
Proof.
  unfold is_delete, has_flag, DELETE_FLAG. change 1 with (Z.ones 1). rewrite Z.land_ones by lia.
  change (2 ^ 1) with 2. change (Z.ones 1) with 1. pose proof (Z.mod_pos_bound f 2 ltac:(lia)).
  destruct (f mod 2 =? 1) eqn:E; lia.
Qed.

Lemma deleted_saved i orig devName : 0 <= flag i < 2 ^ 64 -> deleted_row (saved_row i orig devName) = is_delete (flag i).
Proof. intros Hf. unfold deleted_row. cbn [r_flag saved_row]. by rewrite u64_signed, is_delete_flag. Qed.

Lemma judged_item permit di i old : key (judged permit di i old).2 = key i /\ value (judged permit di i old).2 = value i
  /\ flag (judged permit di i old).2 = flag i.
Proof. unfold judged, JudgeSyncSaveType. by repeat case_match. Qed.

Section Saves.
Context (policy : Z) (permit : bool) (di : DeviceInfo).

(** The row after saving is the old one, or nothing, or that of the item. *)
Lemma save_row_cases i old : 0 <= flag i < 2 ^ 64 ->
  save_row policy permit di i old = old
  \/ save_row policy permit di i old = None
  \/ exists row, save_row policy permit di i old = Some row /\ deleted_row row = is_delete (flag i)
       /\ is_miss_query (flag i) = false /\ r_value row = value i
       /\ r_key row = if is_delete (flag i) then [] else key i.
Proof.
  intros Hf. unfold save_row. destruct (ignored _ _ _ _); [by left |].
  pose proof (judged_item permit di i old) as (Hk & Hv & Hfl).
  destruct (judged permit di i old) as [status i']. cbn [fst snd] in *.
  destruct (_ || _); [by left |]. rewrite Hfl. destruct (is_miss_query (flag i)); [right; by left | right; right].
  eexists. split; [reflexivity |]. unfold new_row. rewrite deleted_saved by (by rewrite Hfl).
  cbn. by rewrite Hk, Hv, Hfl.
Qed.

Lemma save_table_wf i t : 0 <= flag i < 2 ^ 64 -> (is_delete (flag i) = false -> key i <> []) -> table_wf t ->
  table_wf (save_table policy permit di i t).
Proof.
  intros Hi Hne Ht. unfold save_table. destruct (item_hash i) as [h|] eqn:Hh; [| done].
  intros h' row. destruct (decide (h = h')) as [<-|Hn]; [| rewrite lookup_partial_alter_ne by done; apply Ht].
  rewrite lookup_partial_alter_eq.
  destruct (save_row_cases i (t !! h) Hi) as [-> | [-> | (row' & -> & Hd & Hm & _ & Hk)]]; [apply Ht | done |].
  intros [= <-]. unfold row_wf. rewrite Hd, Hk. unfold item_hash in Hh. rewrite Hm, orb_false_r in Hh.
  destruct (is_delete (flag i)); [done |]. split; [done | by apply Hne].
Qed.

End Saves.

(** * Reports *)

Definition for_key (k : Key) (l : list Entry) : list Entry := filter (fun e : Entry => e.1 = k) l.

Lemma for_key_app k l1 l2 : for_key k (l1 ++ l2) = for_key k l1 ++ for_key k l2.
Proof. apply filter_app. Qed.

Lemma for_key_one k k' v : for_key k [(k', v)] = if decide (k' = k) then [(k', v)] else [].
Proof. unfold for_key. rewrite filter_cons, filter_nil. by destruct (decide (k' = k)); [rewrite decide_True | rewrite decide_False]. Qed.

Lemma for_key_delete k k' l : for_key k (DeleteEntry k' l) = if decide (k' = k) then [] else for_key k l.
Proof.
  unfold for_key, DeleteEntry. rewrite list_filter_filter. destruct (decide (k' = k)) as [->|Hn].
  - induction l as [|e l IH]; [done |]. rewrite filter_cons, decide_False; [done |]. by intros [].
  - apply list_filter_iff. intros e. naive_solver.
Qed.

Definition status_of (old : option SyncRow) : ExistStatus :=
  match old with
  | None => EXIST_NONE
  | Some row => if deleted_row row then EXIST_DELETED else EXIST
  end.

Definition type_of c (h : Key) : DataType := from_option latestType NONE (keyPropRecord_ c !! h).

(** What is reported of a key, given its value before and now. *)
Definition report c (k : Key) (type : DataType) (before now : option Value) : Prop :=
  for_key k (insertedEntries_ c) = match type, now with INSERT, Some v => [(k, v)] | _, _ => [] end
  /\ for_key k (updatedEntries_ c) = match type, now with UPDATE, Some v => [(k, v)] | _, _ => [] end
  /\ (if decide (type = DELETE) then exists v, for_key k (deletedEntries_ c) = [(k, v)]
      else for_key k (deletedEntries_ c) = [])
  /\ match type with
     | NONE => now = before
     | INSERT => before = None /\ is_Some now
     | UPDATE => is_Some before /\ is_Some now
     | DELETE => is_Some before /\ now = None
     end.

Record reports (t0 t : Table) c : Prop := {
  rp_wf : table_wf t;
  rp_none : forall h, keyPropRecord_ c !! h = None -> t !! h = t0 !! h;
  rp_status : forall h p, keyPropRecord_ c !! h = Some p -> existStatus p = status_of (t0 !! h);
  rp_keys : forall k h, value_hash k = Some h -> report c k (type_of c h) (live t0 k) (live t k)
}.

(** Conflicts are recorded elsewhere. *)
Definition same_changes c c' : Prop :=
  insertedEntries_ c' = insertedEntries_ c /\ updatedEntries_ c' = updatedEntries_ c
  /\ deletedEntries_ c' = deletedEntries_ c /\ keyPropRecord_ c' = keyPropRecord_ c.

Lemma reports_same t0 t c c' : same_changes c c' -> reports t0 t c -> reports t0 t c'.
Proof.
  intros (E1 & E2 & E3 & E4) [? ? ? Hk]. split; [done | by rewrite E4 | by rewrite E4 |].
  intros k h Hh. unfold report, type_of. rewrite E1, E2, E3, E4. by apply Hk.
Qed.

Lemma InsertConflictedItem_same c info b : same_changes c (InsertConflictedItem c info b).
Proof.
  unfold InsertConflictedItem, PutIntoConflictData. by repeat case_match.
Qed.

Lemma PutConflictData_same i get di status c : same_changes c (PutConflictData i get di status c).
Proof.
  unfold PutConflictData. do 2 (case_match; [done |]).
  match goal with |- same_changes _ (InsertConflictedItem ?c1 _ _) => set (c1' := c1) end.
  destruct (InsertConflictedItem_same c (mkDataItemInfo (set_key get (if is_delete (flag i) || is_miss_query (flag i)
    then key get else key i)) true (dev get)) true) as (? & ? & ? & ?).
  match goal with |- same_changes _ (InsertConflictedItem _ ?info _) =>
    destruct (InsertConflictedItem_same c1' info false) as (? & ? & ? & ?) end.
  split_and!; etrans; eassumption.
Qed.

Lemma reports_init t0 t c h : reports t0 t c ->
  reports t0 t (InitKeyPropRecord c h (status_of (t !! h)))
  /\ is_Some (keyPropRecord_ (InitKeyPropRecord c h (status_of (t !! h))) !! h).
Proof.
  intros [Hwf Hn Hs Hk]. unfold InitKeyPropRecord, IsKeyPropSet. case_bool_decide as E.
  { by split. }
  apply eq_None_not_Some in E. split; [| cbn; rewrite lookup_insert_eq; eauto]. split; [done | | |]; cbn.
  - intros h' [H1 _]%lookup_insert_None. auto.
  - intros h' p. destruct (decide (h = h')) as [<-|Hne]; [| rewrite lookup_insert_ne by done; apply Hs].
    rewrite lookup_insert_eq. intros [= <-]. cbn. by rewrite Hn.
  - intros k h' Hh'. unfold report, type_of. cbn. specialize (Hk k h' Hh').
    destruct (decide (h = h')) as [<-|Hne]; [| by rewrite lookup_insert_ne by done].
    unfold report, type_of in Hk. rewrite E in Hk. by rewrite lookup_insert_eq.
Qed.

(** Collisions of the digest are disregarded. *)
Context (hash_total : forall v, is_Some (value_hash v))
        (hash_inj : forall v w h, value_hash v = Some h -> value_hash w = Some h -> v = w).

Lemma live_alter (t : Table) h row' k h' : value_hash k = Some h' ->
  live (partial_alter (fun _ => row') h t) k = if decide (h = h') then live_row row' else live t k.
Proof.
  intros Hk. unfold live. rewrite Hk. destruct (decide (h = h')) as [<-|Hn];
    [by rewrite lookup_partial_alter_eq | by rewrite lookup_partial_alter_ne].
Qed.

Lemma status_live old : status_of old = EXIST <-> is_Some (live_row old).
Proof.
  destruct old as [row|]; cbn; [| split; [done | by intros []]].
  destruct (deleted_row row); split; intros Hd; (done || (by eexists) || by destruct Hd).
Qed.

(** The entries of a key in the three lists. *)
Definition entries_of c (k : Key) : list Entry * list Entry * list Entry :=
  (for_key k (insertedEntries_ c), for_key k (updatedEntries_ c), for_key k (deletedEntries_ c)).

Lemma entries_delete c k k' ty : entries_of (DeleteEntryByKey c k ty) k' =
  if decide (k = k') then
    let '(i, u, d) := entries_of c k' in
    match ty with INSERT => ([], u, d) | UPDATE => (i, [], d) | DELETE => (i, u, []) | NONE => (i, u, d) end
  else entries_of c k'.
Proof.
  unfold entries_of. destruct ty; cbn [DeleteEntryByKey set_entries insertedEntries_ updatedEntries_ deletedEntries_];
    rewrite ?for_key_delete; by destruct (decide (k = k')).
Qed.

Lemma entries_insert c k v k' ty : entries_of (InsertEntry c ty (k, v)) k' =
  if decide (k = k') then
    let '(i, u, d) := entries_of c k' in
    match ty with
    | INSERT => (i ++ [(k, v)], u, d) | UPDATE => (i, u ++ [(k, v)], d) | DELETE => (i, u, d ++ [(k, v)])
    | NONE => (i, u, d)
    end
  else entries_of c k'.
Proof.
  unfold entries_of. destruct ty; cbn [InsertEntry set_entries insertedEntries_ updatedEntries_ deletedEntries_];
    rewrite ?for_key_app, ?for_key_one; destruct (decide (k = k')); by rewrite ?app_nil_r.
Qed.

Lemma report_entries c k ty before now : report c k ty before now <->
  (exists d, entries_of c k = (match ty, now with INSERT, Some v => [(k, v)] | _, _ => [] end,
                               match ty, now with UPDATE, Some v => [(k, v)] | _, _ => [] end, d)
     /\ if decide (ty = DELETE) then exists v, d = [(k, v)] else d = [])
  /\ match ty with
     | NONE => now = before
     | INSERT => before = None /\ is_Some now
     | UPDATE => is_Some before /\ is_Some now
     | DELETE => is_Some before /\ now = None
     end.
Proof.
  unfold report, entries_of. split.
  - intros (-> & -> & H3 & H4). split; [| done]. eexists. split; [reflexivity | done].
  - intros [(d & [= -> -> ->] & H3) H4]. done.
Qed.

(** The entries of a key after a change of it, and of the other keys. *)
Lemma report_insert c k v h p ty before now now' : value_hash k = Some h -> keyPropRecord_ c !! h = Some p ->
  report c k (latestType p) before now -> (existStatus p = EXIST <-> is_Some before) ->
  (ty = DELETE /\ now' = None \/ (ty = INSERT \/ ty = UPDATE) /\ now' = Some v) ->
  let c' := InsertCommittedData c (k, v) ty true in
  report c' k (merged_type (existStatus p) ty) before now'
  /\ (forall k', k' <> k -> entries_of c' k' = entries_of c k')
  /\ keyPropRecord_ c' = <[h := mkItemProp (existStatus p) (merged_type (existStatus p) ty)]> (keyPropRecord_ c).
Proof.
  intros Hk Hp [(d & He & Hd) Hr]%report_entries Hs Hty. cbv zeta.
  unfold InsertCommittedData, CalcValueHash. cbn [negb fst]. rewrite Hk. cbn [snd]. rewrite Hp.
  set (type := merged_type (existStatus p) ty). set (c1 := DeleteEntryByKey c k (latestType p)).
  set (c2 := set_props c1 _).
  assert (E2 : forall k', entries_of c2 k' = if decide (k = k') then ([], [], []) else entries_of c k').
  { intros k'. change (entries_of c2 k') with (entries_of c1 k'). unfold c1. rewrite entries_delete.
    destruct (decide (k = k')) as [<-|]; [| done]. rewrite He.
    destruct (latestType p); [subst now; by rewrite Hd | destruct Hr as [_ [? ->]]; by rewrite Hd
      | destruct Hr as [_ [? ->]]; by rewrite Hd | destruct Hr as [_ ->]; done]. }
  split_and!.
  - apply report_entries. rewrite entries_insert, E2, !decide_True by done. unfold type, merged_type.
    case_bool_decide as Es.
    + apply Hs in Es as [v0 ->]. destruct Hty as [[-> ->] | [[-> | ->] ->]]; cbn; (split; [| by eauto]);
        eexists; (split; [reflexivity | first [by exists v | done]]).
    + assert (before = None) as -> by (apply eq_None_not_Some; tauto).
      destruct Hty as [[-> ->] | [[-> | ->] ->]]; cbn; (split; [| by eauto]);
        eexists; (split; [reflexivity | by case_decide]).
  - intros k' Hn. by rewrite entries_insert, E2, !decide_False by done.
  - unfold c2, c1. by destruct (latestType p), type.
Qed.

(** A key is changed and the change is recorded. *)
Lemma reports_insert t0 t c k v h p ty row' : reports t0 t c -> value_hash k = Some h ->
  keyPropRecord_ c !! h = Some p -> table_wf (partial_alter (fun _ => row') h t) ->
  (ty = DELETE /\ live_row row' = None \/ (ty = INSERT \/ ty = UPDATE) /\ live_row row' = Some v) ->
  reports t0 (partial_alter (fun _ => row') h t) (InsertCommittedData c (k, v) ty true).
Proof.
  intros [Hwf Hn Hs Hr] Hk Hp Hwf' Hty.
  destruct (report_insert c k v h p ty (live t0 k) (live t k) (live_row row')) as (Hrep & Hother & Hprop); try done.
  { specialize (Hr k h Hk). unfold type_of in Hr. by rewrite Hp in Hr. }
  { rewrite (Hs h p Hp), status_live. unfold live. by rewrite Hk. }
  split; [done | | |].
  - intros h'. rewrite Hprop. intros [H1 H2]%lookup_insert_None. rewrite lookup_partial_alter_ne by done. auto.
  - intros h' p'. rewrite Hprop. destruct (decide (h = h')) as [<-|Hne].
    + rewrite lookup_insert_eq. intros [= <-]. cbn. by apply Hs.
    + rewrite lookup_insert_ne by done. apply Hs.
  - intros k' h' Hk'. rewrite (live_alter t h row' k' h' Hk'). unfold type_of. rewrite Hprop.
    destruct (decide (h = h')) as [<-|Hne].
    + rewrite lookup_insert_eq. assert (k' = k) as -> by (by eapply hash_inj). done.
    + rewrite lookup_insert_ne by done. specialize (Hr k' h' Hk'). apply report_entries in Hr. apply report_entries.
      rewrite Hother; [done |]. intros ->. congruence.
Qed.

(** A row that is not seen is changed to another one. *)
Lemma reports_dead t0 t c h row' : reports t0 t c -> is_Some (keyPropRecord_ c !! h) ->
  table_wf (partial_alter (fun _ => row') h t) -> live_row (t !! h) = None -> live_row row' = None ->
  reports t0 (partial_alter (fun _ => row') h t) c.
Proof.
  intros [Hwf Hn Hs Hr] Hp Hwf' Hold Hnew. split; [done | | done |].
  - intros h' Hh'. rewrite lookup_partial_alter_ne; [by apply Hn |]. intros <-. rewrite Hh' in Hp. by destruct Hp.
  - intros k h' Hk. rewrite (live_alter t h row' k h' Hk). specialize (Hr k h' Hk).
    destruct (decide (h = h')) as [<-|]; [| done]. rewrite Hnew. unfold live in Hr at 2. by rewrite Hk, Hold in Hr.
Qed.

(** No data has an empty key. *)
Lemma reports_no_key t0 t c v : reports t0 t c -> reports t0 t (InsertCommittedData c ([], v) DELETE true).
Proof.
  intros Hr. destruct (hash_total []) as [h0 H0]. destruct (keyPropRecord_ c !! h0) as [p|] eqn:Ep.
  - rewrite <- (alter_self h0 t). eapply reports_insert; [done | done | done | |].
    + rewrite alter_self. apply Hr.
    + left. split; [done |]. destruct (t !! h0) as [row|] eqn:Et; [| done].
      pose proof (rp_wf _ _ _ Hr h0 row Et) as Hwf. unfold row_wf in Hwf. cbn. destruct (deleted_row row); [done |].
      destruct Hwf as [Hh Hne]. destruct Hne. by eapply hash_inj.
  - unfold InsertCommittedData, CalcValueHash. cbn [negb fst]. rewrite H0. cbn [snd]. by rewrite Ep.
Qed.

Section Saving.
Context (policy : Z) (permit : bool) (di : DeviceInfo).

Lemma judged_status i old : exist_status (preStatus (judged permit di i old).1) = status_of old
  /\ isDeleted (judged permit di i old).1
     = match old with _ => is_delete (flag i) || is_miss_query (flag i) end.
Proof. unfold judged, JudgeSyncSaveType, status_of, deleted_row. destruct old; cbn; by repeat case_match. Qed.

(** The old item as it is reported. *)
Lemma loaded_live i old : let '(status, _) := judged permit di i old in
  match old with
  | Some row => if deleted_row row then key (loaded old status) = r_key row
                else key (loaded old status) = r_key row /\ value (loaded old status) = r_value row
  | None => key (loaded old status) = []
  end.
Proof.
  pose proof (judged_status i old) as [Hs _]. destruct (judged permit di i old) as [status i']. cbn [fst] in Hs.
  unfold loaded, status_of in *. destruct old as [row|]; [| done].
  destruct (deleted_row row), (preStatus status); try done; by case_bool_decide.
Qed.

(** Saving an item keeps the report true. *)
Lemma reports_save t0 t c i : item_ok i -> reports t0 t c ->
  reports t0 (save_table policy permit di i t) (save_data policy permit di i t c).
Proof.
  intros Hi Hr. pose proof (save_table_wf policy permit di i t (io_flag _ Hi) (fun _ => io_key _ Hi) (rp_wf _ _ _ Hr)) as Hwf'.
  unfold save_table, save_data in *. destruct (item_hash i) as [h|] eqn:Hh; [| done].
  set (old := t !! h) in *.
  assert (Hsame : partial_alter (fun _ => old) h t = t) by apply alter_self.
  unfold save_row, save_notify in *.
  destruct (ignored policy di i old); [by rewrite Hsame |].
  pose proof (judged_status i old) as [Hst Hdel]. pose proof (judged_item permit di i old) as (Hk & Hv & Hf).
  pose proof (loaded_live i old) as Hload.
  destruct (judged permit di i old) as [status i']. cbn [fst snd] in *.
  unfold InitCommitNotifyDataKeyStatus. rewrite Hst.
  destruct (reports_init t0 t c h Hr) as [Hr1 Hp1]. fold old in Hr1, Hp1.
  set (c1 := InitKeyPropRecord c h (status_of old)) in *.
  destruct (deletes_nothing status i'); cbn [orb] in *; [by rewrite Hsame |].
  pose proof (PutConflictData_same i' (loaded old status) di status c1) as Hcs.
  apply (reports_same _ _ _ _ Hcs) in Hr1. destruct Hcs as (_ & _ & _ & Hprops).
  set (c2 := PutConflictData i' (loaded old status) di status c1) in *. rewrite <- Hprops in Hp1. clear Hprops.
  destruct (isDefeated status); [by rewrite Hsame |].
  unfold PutIntoCommittedData. rewrite Hdel. destruct Hp1 as [p Hp1].
  destruct (is_delete (flag i) || is_miss_query (flag i)) eqn:Ed; cbn [negb].
  - set (row' := if is_miss_query (flag i') then None else Some (new_row di i' old)) in *.
    assert (Hdead : live_row row' = None).
    { unfold row'. rewrite Hf. destruct (is_miss_query (flag i)); [done |]. rewrite orb_false_r in Ed. cbn.
      unfold new_row. rewrite deleted_saved, Hf by (rewrite Hf; apply Hi). by rewrite Ed. }
    destruct (live_row old) as [v|] eqn:El.
    + destruct old as [row|] eqn:Eo; [| done]. cbn in El. destruct (deleted_row row) eqn:Edr; [done |].
      destruct Hload as [Hlk Hlv]. pose proof (rp_wf _ _ _ Hr h row Eo) as Hw. unfold row_wf in Hw. rewrite Edr in Hw.
      eapply reports_insert; [done | rewrite Hlk; apply Hw | done | done | by left].
    + assert (Hlk : key (loaded old status) = []).
      { destruct old as [row|] eqn:Eo; [| done]. cbn in El. destruct (deleted_row row) eqn:Edr; [| done].
        pose proof (rp_wf _ _ _ Hr h row Eo) as Hw. unfold row_wf in Hw. rewrite Edr in Hw. by rewrite Hload. }
      rewrite Hlk. apply reports_no_key. apply reports_dead; eauto.
  - apply orb_false_iff in Ed as [Ed Em]. rewrite Hf, Em in *.
    unfold item_hash in Hh. rewrite Ed, Em in Hh. cbn [orb] in Hh. rewrite Hk, Hv.
    eapply reports_insert; [done | done | done | done |]. right. split; [case_bool_decide; auto |].
    cbn. unfold new_row. rewrite deleted_saved by (rewrite Hf; apply Hi). rewrite Hf, Ed. cbn. by rewrite Hv.
Qed.

Lemma reports_all t0 items : forall t c, Forall (fun i => neglect i = false -> item_ok i) items -> reports t0 t c ->
  let tc := save_all policy permit di items (t, c) in reports t0 tc.1 tc.2.
Proof.
  unfold save_all. induction items as [|i items IH]; intros t c Hi Hr; [done |].
  apply Forall_cons in Hi as [H1 Hi]. cbn [fold_left].
  replace (save_one policy permit di (t, c) i) with (if neglect i then (t, c)
    else (save_table policy permit di i t, save_data policy permit di i t c)) by (unfold save_one; by destruct (neglect i)).
  destruct (neglect i); [by apply IH |]. apply IH; [done |]. apply reports_save; auto.
Qed.

End Saving.

Lemma reports_new t flag : table_wf t -> reports t t (SetConflictedNotifiedFlag newCommitNotifyData flag).
Proof.
  intros Hwf. split; [done | done | done |]. intros k h Hk. apply report_entries. split; [| done].
  exists []. split; [| by case_decide]. done.
Qed.

(** * Stores *)

Context `{Sqlite} `{StoreConfig}.

Lemma first_error_ok l : first_error l = E_OK -> Forall (fun e => e = E_OK) l.
Proof.
  unfold first_error. intros Hf. apply Forall_forall. intros e He. destruct (decide (e = E_OK)) as [|Hn]; [done |].
  exfalso. destruct (filter (fun e => e <> E_OK) l) as [|e' l'] eqn:E.
  - assert (Hin : e ∈ filter (fun e => e <> E_OK) l) by (by apply list_elem_of_filter). rewrite E in Hin. by apply elem_of_nil in Hin.
  - assert (Hin : e' ∈ filter (fun e => e <> E_OK) l) by (rewrite E; left). apply list_elem_of_filter in Hin as [Hne _].
    by cbn in Hf.
Qed.

(** The items that are saved have keys, since the others are refused. *)
Lemma received_keys s env q entries device : (PutSyncDataWithQuery s env q entries device).1 = E_OK ->
  Forall (fun e => 0 <= flag e < 2 ^ 64) (omap id entries) ->
  Forall item_ok (received entries).
Proof.
  intros He Hflags. unfold PutSyncDataWithQuery, SaveSyncDataItems in He. destruct (MAX_DEV_LENGTH <? _); [done |].
  set (items := _ <$> omap id entries) in He.
  destruct (first_error _ =? E_OK) eqn:Ef; cbn [negb] in He; [| apply Z.eqb_neq in Ef; by destruct Ef].
  apply Z.eqb_eq, first_error_ok in Ef. clear He.
  assert (Hi : Forall item_ok items).
  { apply Forall_forall. intros i Hin. rewrite Forall_forall in Ef.
    pose proof (proj1 (Forall_forall _ _) Hflags) as Hflag. split.
    - specialize (Ef (CheckDataStatus (key i) (value i))). intros E. rewrite E in Ef. discriminate Ef.
      apply list_elem_of_fmap. exists i. by rewrite E.
    - unfold items in Hin. apply list_elem_of_fmap in Hin as (e & -> & Hin). exact (Hflag e Hin). }
  change (Forall item_ok (CheckAmendValueContentForSyncProcedure items)).
  unfold CheckAmendValueContentForSyncProcedure. destruct (negb schema_valid); [done |].
  apply Forall_fmap. eapply Forall_impl; [exact Hi |]. intros i [Hk Hf]. unfold compose, amend_item.
  case_match; [done |]. by repeat case_match.
Qed.

Lemma checked_items_ok di q t items : Forall item_ok items -> Forall item_ok (checked_items di q t items).
Proof.
  intros Hi. unfold checked_items. destruct (q_empty q); [done |]. apply Forall_fmap. eapply Forall_impl; [exact Hi |].
  intros i [Hk Hf]. unfold compose, checked_item. by repeat case_match.
Qed.

Lemma sync_reports s env q entries device : table_wf (committed (db (exec s))) ->
  Forall (fun e => 0 <= flag e < 2 ^ 64) (omap id entries) ->
  (PutSyncDataWithQuery s env q entries device).1 = E_OK ->
  let t := committed (db (exec s)) in
  let tc := sync_result (conflictResolvePolicy_ (exec s)) q entries device t in
  reports t tc.1 tc.2.
Proof.
  intros Hwf Hf He. apply reports_all; [| by apply reports_new].
  eapply Forall_impl; [apply checked_items_ok, (received_keys s env q entries device); done |]. by intros.
Qed.

(** C28: The observers are told exactly what changed. When data of another device has been
    saved, the inserted entries they are told are the keys that had no value before, with
    their values; the deleted ones are the keys that have no value any more; the updated ones
    are keys with a value before and after, with the new value, and include every key whose
    value is different. No key is reported twice. *)
Theorem changes_reported s env q entries device k :
  table_wf (committed (db (exec s))) -> Forall (fun e => 0 <= flag e < 2 ^ 64) (omap id entries) ->
  let '(e, s') := PutSyncDataWithQuery s env q entries device in
  e = E_OK -> exists c,
    events s' = events s ++ notifications (Some c) true SQLITE_GENERAL_NS_SYNC_EVENT
    /\ match live (committed (db (exec s))) k, live (committed (db (exec s'))) k with
       | None, None => entries_of c k = ([], [], [])
       | None, Some v => entries_of c k = ([(k, v)], [], [])
       | Some _, None => exists v, entries_of c k = ([], [], [(k, v)])
       | Some v0, Some v => entries_of c k = ([], [(k, v)], []) \/ entries_of c k = ([], [], []) /\ v = v0
       end.
Proof.
  intros Hwf Hf. pose proof (PutSyncDataWithQuery_cases s env q entries device) as Hc.
  pose proof (sync_reports s env q entries device Hwf Hf) as Hr.
  destruct (PutSyncDataWithQuery s env q entries device) as [e s']. destruct Hc as (_ & _ & _ & Hc).
  cbn [fst] in Hr. intros ->. specialize (Hr eq_refl). cbn [Z.eqb E_OK] in Hc.
  destruct Hc as (_ & -> & Hev). cbn [committed]. cbv zeta in Hr.
  set (tc := sync_result _ _ _ _ _) in *. exists tc.2. split; [done |].
  destruct (hash_total k) as [h Hh]. destruct (rp_keys _ _ _ Hr k h Hh) as (R1 & R2 & R3 & R4).
  unfold entries_of. rewrite R1, R2. destruct (type_of tc.2 h).
  - rewrite R4. cbn in R3. rewrite R3. destruct (live (committed (db (exec s))) k); [by right | done].
  - destruct R4 as [-> [v ->]]. cbn in R3. by rewrite R3.
  - destruct R4 as [[v0 ->] [v ->]]. cbn in R3. rewrite R3. by left.
  - destruct R4 as [[v0 ->] ->]. cbn in R3. destruct R3 as [v ->]. eauto.
Qed.

End Changes.

(** A sample: a new key. *)
Lemma changes_reported_witness :
  let k := [x6b] in
  let s := Sample.store in
  let '(e, s') := PutSyncDataWithQuery (H := Sample.reliable) (H0 := Sample.hash) (H1 := Sample.config) s Sample.ready
                    full [Some (Sample.item x6b x31 10)] [x41] in
  exists c, events s' = events s ++ notifications (Some c) true SQLITE_GENERAL_NS_SYNC_EVENT
    /\ entries_of c k = ([(k, [x31])], [], []).
Proof.
  pose proof (changes_reported (H := Sample.hash) ltac:(intros v; by eexists) ltac:(intros v w h [= <-] [= ->]; done)
    (H0 := Sample.reliable) (H1 := Sample.config) Sample.store Sample.ready full [Some (Sample.item x6b x31 10)] [x41] [x6b]
    ltac:(by intros h row Hr) ltac:(repeat constructor; cbn; lia)) as Hc.
  destruct (PutSyncDataWithQuery (H := Sample.reliable) (H0 := Sample.hash) (H1 := Sample.config) Sample.store Sample.ready
    full [Some (Sample.item x6b x31 10)] [x41]) as [e s'] eqn:E.
  vm_compute in E. injection E as <- <-. apply Hc. reflexivity.
Defined.
