(* ===== verification/LocalWrites.v ===== *)
(** What the application sees: through a connection the store behaves as a finite map with
    transactions, whatever fails in SQLite. *)

From S2P Require Import Prelude CommTypes SyncStorage CommitNotify SqliteUtils StoreExecutor SqliteFacts.
From S2P Require Import StoreExecutorFacts NaturalStore NaturalStoreFacts Convergence ChangesReported.
From Stdlib Require Import ZArith Lia.
From Stdlib Require Import Strings.Byte.
From stdpp Require Import base numbers list gmap.

Open Scope Z_scope.
Open Scope exec_scope.

(** * The specification *)

(** Writes: a key gets a value, or is deleted. *)
Abbreviation Writes := (list (Key * option Value)).
Abbreviation View := (Key -> option Value).

Definition after (ws : Writes) (m : View) (k : Key) : option Value :=
  fold_left (fun v w => if decide (w.1 = k) then w.2 else v) ws (m k).

Lemma after_app ws1 ws2 m k : after (ws1 ++ ws2) m k = after ws2 (after ws1 m) k.
Proof. unfold after. by rewrite fold_left_app. Qed.

(** Each key has the value it had, or one that some of the writes [ws] gives it. *)
Definition mixes (m : View) (ws : Writes) (m' : View) : Prop := forall k, m' k = m k \/ (k, m' k) ∈ ws.

(** Outside of a transaction; inside of one, with the data that is committed and the data as
    the transaction sees it; in a transaction in which something has failed: what is
    committed, what the transaction had before the first failure, and the writes that were
    called for since, of which some may have been done. *)
Inductive Phase :=
  | Idle (m : View)
  | Busy (m w : View)
  | Failed (m w : View) (ws : Writes).

Inductive Call :=
  | CPut (env : Env) (entries : list Entry)
  | CDelete (env : Env) (keys : list Key)
  | CGet (reader : Z) (k : Key)
  | CStart (env : Env)
  | CCommit
  | CRollBack.

Section Spec.
Context `{ValueHash} `{StoreConfig}.

(** What the schema makes of a value. *)
Definition stored_value (v : Value) : Value := default v (CheckValueAndAmendIfNeed false v).2.

Definition writes_of (c : Call) : Writes :=
  match c with
  | CPut _ entries => (fun e : Entry => (e.1, Some (stored_value e.2))) <$> entries
  | CDelete _ keys => (fun k => (k, None)) <$> keys
  | _ => []
  end.

(** Whether the answer to a read is right. *)
Definition read_ok (m : View) (k : Key) (e : Z) (v : Value) : bool :=
  if e =? E_OK then bool_decide (m k = Some v)
  else if e =? - E_NOT_FOUND then bool_decide (m k = None)
  else true.

(** Whether a call may answer with this error code and value, and lead to this phase.

    After a failure in a transaction SQLite may have ended the transaction by itself: then a
    commit fails, but the connection still has the handle, and each further write is
    committed at once. Or the transaction is still there with a part of the batch: then a
    commit may succeed. A roll back gives back what was committed. *)
Definition next (p : Phase) (c : Call) (e : Z) (v : Value) (p' : Phase) : Prop :=
  match p, c with
  | Idle m, (CPut _ _ | CDelete _ _) => p' = Idle (if e =? E_OK then after (writes_of c) m else m)
  | Idle m, CGet _ k => read_ok m k e v = true /\ p' = Idle m
  | Idle m, CStart _ => p' = if e =? E_OK then Busy m m else Idle m
  | Idle m, (CCommit | CRollBack) => e = - E_INVALID_DB /\ p' = Idle m
  | Busy m w, (CPut _ _ | CDelete _ _) =>
    p' = if e =? E_OK then Busy m (after (writes_of c) w) else Failed m w (writes_of c)
  | Busy m w, CGet _ k =>
    read_ok w k e v = true /\ p' = if (e =? E_OK) || (e =? - E_NOT_FOUND) then Busy m w else Failed m w []
  | Busy m w, CCommit => p' = Idle (if e =? E_OK then w else m)
  | Failed m w ws, (CPut _ _ | CDelete _ _) =>
    exists m', mixes m (writes_of c) m' /\ p' = Failed m' w (ws ++ writes_of c)
  | Failed m w ws, CGet _ k =>
    (exists r, (r = m \/ mixes w ws r) /\ read_ok r k e v = true) /\ p' = Failed m w ws
  | Failed m w ws, CCommit => exists m', (if e =? E_OK then mixes w ws m' else m' = m) /\ p' = Idle m'
  | Busy _ _, CStart _ | Failed _ _ _, CStart _ => e = - E_TRANSACT_STATE /\ p' = p
  | Busy m _, CRollBack | Failed m _ _, CRollBack => p' = Idle m
  end.

(** A sequence of calls with their answers. *)
Fixpoint allowed (p : Phase) (answers : list (Call * Z * Value)) (p' : Phase) : Prop :=
  match answers with
  | [] => p' = p
  | (c, e, v) :: answers => exists q, next p c e v q /\ allowed q answers p'
  end.

End Spec.

(** * The store *)

Section Store.
Context `{Sqlite} `{ValueHash} `{StoreConfig}.
Implicit Types s : Store.

Definition call s (c : Call) : Z * Value * Store :=
  match c with
  | CPut env entries => let '(e, s) := PutBatch s env entries in (e, [], s)
  | CDelete env keys => let '(e, s) := DeleteBatch s env keys in (e, [], s)
  | CGet reader k => let '(r, s) := Get s reader k in (code_of r, match r with inr v => v | inl _ => [] end, s)
  | CStart env => let '(e, s) := cn_StartTransaction s env in (e, [], s)
  | CCommit => let '(e, s) := cn_Commit s in (e, [], s)
  | CRollBack => let '(e, s) := cn_RollBack s in (e, [], s)
  end.

(** Runs the calls and collects the answers. *)
Fixpoint history s (cs : list Call) : list (Call * Z * Value) * Store :=
  match cs with
  | [] => ([], s)
  | c :: cs =>
    let '(e, v, s) := call s c in
    let '(answers, s) := history s cs in ((c, e, v) :: answers, s)
  end.

(** * Rows *)

Definition local_device : DeviceInfo := mkDeviceInfo true [].

(** Every write of the table is before [b]. *)
Definition below (b : Z) (t : Table) : Prop := map_Forall (fun _ row => write_stamp row < b) t.

Lemma judged_local item old :
  judged true local_device item old
  = (mkDataOperStatus (match old with
                       | None => NOEXISTED
                       | Some row => if deleted_row row then DELETED else EXISTED
                       end)
       (is_delete (flag item) || is_miss_query (flag item))
       (match old with Some row => writeTimestamp item <=? write_stamp row | None => false end), item).
Proof.
  unfold judged, JudgeSyncSaveType. destruct old as [row|]; cbn [existed]; [| done].
  change (writeTimestamp (old_item (Some row))) with (write_stamp row).
  change (has_flag (flag (old_item (Some row))) DELETE_FLAG) with (deleted_row row). cbn.
  by destruct (writeTimestamp item <=? write_stamp row).
Qed.

(** The item of a write. *)
Definition local_item (k : Key) (v : Value) (f now : Z) : DataItem := mkDataItem k v now f [] now [] false [].

Lemma save_row_local policy k v f now old :
  f = LOCAL_FLAG \/ f = Z.lor LOCAL_FLAG DELETE_FLAG ->
  (forall row, old = Some row -> write_stamp row < now) ->
  save_row policy true local_device (local_item k v f now) old
  = if is_delete f && match live_row old with None => true | Some _ => false end then old
    else Some (new_row local_device (local_item k v f now) old).
Proof.
  intros Hf Hnow. unfold save_row, ignored, IsNeedIgnoredData. cbn [di_isLocal local_device negb andb].
  rewrite andb_false_r, judged_local. unfold deletes_nothing. cbn [preStatus isDefeated flag local_item writeTimestamp].
  replace (match old with Some row => now <=? write_stamp row | None => false end) with false.
  2: { destruct old as [row|]; [| done]. specialize (Hnow row eq_refl). symmetry. by apply Z.leb_gt. }
  rewrite orb_false_r.
  destruct Hf as [-> | ->]; cbn; rewrite ?andb_false_r; [done |].
  destruct old as [row|]; cbn; [| done]. by destruct (deleted_row row).
Qed.

(** Collisions of the digest are disregarded, and time stamps increase; before [last] they
    have 64 bits. *)
Context (hash_total : forall v, is_Some (value_hash v))
        (hash_inj : forall v w h, value_hash v = Some h -> value_hash w = Some h -> v = w)
        (clock_nonneg : forall n, 0 <= clock n)
        (clock_increases : forall n, clock n < clock (S n))
        (last : nat) (clock_range : clock last <= 2 ^ 64).

Lemma clock_mono n n' : (n <= n')%nat -> clock n <= clock n'.
Proof. induction 1 as [|n' _ IH]; [done |]. specialize (clock_increases n'). lia. Qed.

Lemma clock_bits n : (n < last)%nat -> 0 <= clock n < 2 ^ 64.
Proof.
  intros Hn. pose proof (clock_mono (S n) last Hn). pose proof (clock_increases n). pose proof (clock_nonneg n). lia.
Qed.

(** A row of a local write. *)
Lemma new_row_local k v f now old : f = LOCAL_FLAG \/ f = Z.lor LOCAL_FLAG DELETE_FLAG -> 0 <= now < 2 ^ 64 ->
  live_row (Some (new_row local_device (local_item k v f now) old)) = (if is_delete f then None else Some v)
  /\ write_stamp (new_row local_device (local_item k v f now) old) = now.
Proof.
  intros Hf Hnow. split; [| by apply u64_signed]. cbn [live_row]. unfold new_row.
  rewrite deleted_saved by (by destruct Hf as [-> | ->]). cbn. by destruct Hf as [-> | ->].
Qed.

(** A write sets the value of its key and nothing else. *)
Lemma save_table_local policy k k' v f now t h :
  f = LOCAL_FLAG /\ k' = k /\ k <> [] \/ f = Z.lor LOCAL_FLAG DELETE_FLAG /\ k' = h ->
  value_hash k = Some h -> 0 <= now < 2 ^ 64 -> table_wf t -> below now t ->
  let t' := save_table policy true local_device (local_item k' v f now) t in
  table_wf t' /\ below (now + 1) t'
  /\ forall k0, live t' k0 = after [(k, if is_delete f then None else Some v)] (live t) k0.
Proof.
  intros Hf Hh Hnow Hwf Hb. cbv zeta.
  assert (Hf' : f = LOCAL_FLAG \/ f = Z.lor LOCAL_FLAG DELETE_FLAG) by tauto.
  assert (Hhash : item_hash (local_item k' v f now) = Some h).
  { unfold item_hash. destruct Hf as [(-> & -> & _) | [-> ->]]; cbn; done. }
  split.
  { apply save_table_wf; [by destruct Hf' as [-> | ->] | | done]. destruct Hf as [(-> & -> & ?) | [-> _]]; done. }
  unfold save_table. rewrite Hhash, save_row_local; [| done | intros row Hr; by apply (Hb h)].
  destruct (new_row_local k' v f now (t !! h) Hf' Hnow) as [Hlive Hstamp].
  set (row' := new_row _ _ _) in *. split.
  - intros h' row. destruct (decide (h = h')) as [<-|Hn].
    + rewrite lookup_partial_alter_eq. destruct (_ && _); [intros Hr; specialize (Hb h row Hr); cbn in Hb; lia |].
      intros [= <-]. lia.
    + rewrite lookup_partial_alter_ne by done. intros Hr. specialize (Hb h' row Hr). cbn in Hb. lia.
  - intros k0. destruct (hash_total k0) as [h0 Hh0]. rewrite (live_alter _ _ _ k0 h0 Hh0). unfold after. cbn.
    destruct (decide (h = h0)) as [<-|Hn].
    + assert (k0 = k) as -> by (by eapply hash_inj). rewrite decide_True by done.
      destruct (is_delete f); cbn [andb]; [| done]. by destruct (live_row (t !! h)) eqn:El.
    + rewrite decide_False; [done |]. intros ->. congruence.
Qed.

(** * After a failure *)

(** [I] holds of the data base again after [m], whatever fails on the way, and the result, if
    there is one, satisfies [Q]. *)
Definition holds {A} (I : Database -> Prop) (m : M A) (Q : A -> Prop) : Prop := forall x, I (db x) ->
  I (db (m x).2) /\ match (m x).1 with inr a => Q a | inl _ => True end.

Section Holds.
Context (I : Database -> Prop) (I_lost : forall d, I d -> I (mkDatabase (committed d) None)).

Lemma holds_ret {A} (a : A) (Q : A -> Prop) : Q a -> holds I (ret a) Q.
Proof. by intros Hq x Hx. Qed.

Lemma holds_throw {A} e (Q : A -> Prop) : holds I (throw e) Q.
Proof. by intros x Hx. Qed.

Lemma holds_gets {A} (f : Executor -> A) (Q : A -> Prop) : (forall x, Q (f x)) -> holds I (gets f) Q.
Proof. intros Hq x Hx. split; [done | apply Hq]. Qed.

Lemma holds_modify f : (forall x, db (f x) = db x) -> holds I (modify f) (fun _ => True).
Proof. intros Hf x Hx. cbn. by rewrite Hf. Qed.

Lemma holds_bind {A B} (m : M A) (k : A -> M B) (P : A -> Prop) (Q : B -> Prop) :
  holds I m P -> (forall a, P a -> holds I (k a) Q) -> holds I (bind m k) Q.
Proof.
  intros Hm Hk x Hx. unfold bind. destruct (Hm x Hx) as [Hi Hp]. destruct (m x) as [[e|a] x1]; [done |].
  by apply Hk.
Qed.

Lemma holds_try {A} (m : M A) (Q : A -> Prop) : holds I m Q ->
  holds I (try_ m) (fun r => match r with inr a => Q a | inl _ => True end).
Proof. intros Hm x Hx. unfold try_. destruct (Hm x Hx). by destruct (m x). Qed.

Lemma holds_any {A} (m : M A) (Q : A -> Prop) : holds I m Q -> holds I m (fun _ => True).
Proof. intros Hm x Hx. destruct (Hm x Hx). by destruct (m x) as [[] ?]. Qed.

Lemma holds_try_any {A} (m : M A) : holds I m (fun _ => True) -> holds I (try_ m) (fun _ => True).
Proof. intros Hm x Hx. unfold try_. destruct (Hm x Hx). by destruct (m x). Qed.

Lemma holds_raw x : I (db x) -> I (db (raw_call x).2).
Proof.
  intros Hx. unfold raw_call. destruct (sq_fault (sq_calls x)) as [f|]; [| done].
  destruct (is_failure f); [| done]. destruct (rolls_back f); [by apply I_lost | done].
Qed.

Lemma holds_call : holds I sq_call (fun _ => True).
Proof.
  intros x Hx. apply holds_raw in Hx. unfold sq_call. by destruct (raw_call x) as [[f|] x'].
Qed.

Lemma holds_step {A} (st : Stmt) (mem : bool) (run : Table -> option (A * Table)) (Q : A -> Prop) :
  (forall d a t, I d -> run (table d) = Some (a, t) -> I (put_table d t) /\ Q a) ->
  holds I (StepWithRetry st mem run) Q.
Proof.
  intros Hrun. destruct st; [| apply holds_throw]. unfold StepWithRetry. generalize (Z.to_nat MAX_STEP_TIMES) as n.
  induction n as [|n IH]; intros x Hx; cbn [step_loop]; apply holds_raw in Hx;
    (destruct (raw_call x) as [[f|] x1]; cbn [snd] in Hx;
     [destruct (_ && mem); [try done; by apply IH | done] |]);
    (destruct (run (table (db x1))) as [[a t]|] eqn:E; [cbn; by apply Hrun | done]).
Qed.

Lemma holds_read {A} (st : Stmt) (mem : bool) (f : Table -> A) (Q : A -> Prop) : (forall t, Q (f t)) ->
  holds I (StepWithRetry st mem (fun t => Some (f t, t))) Q.
Proof. intros Hq. apply holds_step. intros d a t Hd [= <- <-]. by rewrite put_table_same. Qed.

Lemma holds_with_code {A} e (r : Z + A) (Q : A -> Prop) : match r with inr a => Q a | inl _ => True end ->
  holds I (with_code e r) Q.
Proof.
  intros Hr. destruct r as [e'|a]; [apply holds_throw |]. unfold with_code.
  destruct (e =? E_OK); [by apply holds_ret | apply holds_throw].
Qed.

Lemma holds_corrupted e : holds I (CheckCorruptedStatus e) (fun _ => True).
Proof. intros x Hx. unfold CheckCorruptedStatus. by destruct (_ =? _). Qed.

End Holds.

(** Goes through a function that does not write; [known] deals with the functions it calls. *)
Tactic Notation "holds_steps" constr(lost) "with" tactic3(known) :=
  repeat first
    [ known | apply holds_throw | apply (holds_call _ lost) | apply holds_corrupted
    | apply holds_modify; intros; reflexivity
    | apply holds_gets; intros; exact Logic.I
    | apply (holds_read _ lost); intros; exact Logic.I
    | apply holds_ret; exact Logic.I
    | apply holds_with_code; by case_match
    | apply (holds_bind _ _ _ (fun _ => True)); [| intros ? _]
    | apply holds_try_any
    | match goal with |- holds _ (match ?r with _ => _ end) _ => destruct r end ].

Section Damage.
Context (I : Database -> Prop) (I_lost : forall d, I d -> I (mkDatabase (committed d) None)).

Lemma holds_bind_blob st v perm : holds I (BindBlobToStatement st v perm) (fun _ => True).
Proof. unfold BindBlobToStatement. holds_steps I_lost with fail. Qed.

Lemma holds_get_statement st : holds I (GetStatement st) (fun _ => True).
Proof. unfold GetStatement. holds_steps I_lost with fail. Qed.

Lemma holds_reset st fin e : holds I (ResetStatement st fin e) (fun _ => True).
Proof. unfold ResetStatement. cbv zeta. holds_steps I_lost with fail. Qed.

Lemma holds_reset_save fin e : holds I (reset_save_statements fin e) (fun _ => True).
Proof. unfold reset_save_statements. holds_steps I_lost with (apply holds_reset). Qed.

Lemma holds_reset_sync e : holds I (ResetSaveSyncStatements e) (fun _ => True).
Proof. unfold ResetSaveSyncStatements. holds_steps I_lost with (apply holds_reset_save). Qed.

Lemma holds_prepare : holds I PrepareForSavingData (fun _ => True).
Proof.
  unfold PrepareForSavingData, checked. cbv zeta.
  holds_steps I_lost with (first [apply holds_get_statement | apply holds_reset_save]).
Qed.

Lemma holds_finish {A} (r : Z + A) st (Q : A -> Prop) : match r with inr a => Q a | inl _ => True end ->
  holds I (finish r st) Q.
Proof.
  intros Hr. unfold finish. eapply holds_bind; [apply holds_reset | intros [? ?] _].
  eapply holds_bind; [apply holds_corrupted | intros ? _]. by apply holds_with_code.
Qed.

Lemma holds_GetKvData k : holds I (GetKvData k) (fun _ => True).
Proof.
  unfold GetKvData, with_statement.
  holds_steps I_lost with (first [apply holds_get_statement | apply holds_bind_blob | apply holds_finish; by case_match]).
Qed.

(** ** Saving an item of the application *)

Lemma holds_GetSyncDataItemPre item h : item_hash item = Some h ->
  holds I (GetSyncDataItemPre item) (fun r => r.1 = h).
Proof.
  intros Hh. unfold GetSyncDataItemPre. apply (holds_bind _ _ _ (fun h' => h' = h)).
  { unfold item_hash, CalcValueHash in *. destruct (_ || _); [apply holds_ret; congruence |].
    rewrite Hh. by apply holds_ret. }
  intros ? ->. apply (holds_bind _ _ _ (fun _ => True)); [| by intros ? _; apply holds_ret].
  unfold GetSyncDataPreByHashKey, GetColumnBlobValue.
  holds_steps I_lost with (apply holds_bind_blob).
Qed.

Lemma holds_leave {A} e (Q : A -> Prop) : holds I (leave e) Q.
Proof.
  unfold leave. apply (holds_bind _ _ _ (fun _ => True)); [apply holds_reset_sync | intros ? _; apply holds_throw].
Qed.

Lemma judge_local item get ex : (JudgeSyncSaveType item get [] ex true).2 = item.
Proof. unfold JudgeSyncSaveType, TransferHash. cbn. by repeat case_match. Qed.

Lemma holds_PrepareForNotify item h : item_hash item = Some h ->
  holds I (PrepareForNotifyConflictAndObserver item local_device true) (fun r => r.1 = item /\ nd_hashKey r.2 = h).
Proof.
  intros Hh. unfold PrepareForNotifyConflictAndObserver.
  eapply holds_bind; [apply holds_try, holds_GetSyncDataItemPre; exact Hh |].
  intros [e|[h' get]]; [intros _; apply holds_leave |]. cbn [fst]. intros ->.
  apply (holds_bind _ _ _ (fun _ => True)); [by apply holds_gets |]. intros policy _.
  destruct (IsNeedIgnoredData _ _ _ _ _); [apply holds_leave |]. cbn [di_deviceName local_device].
  pose proof (judge_local item (default newDataItem get) (match get with Some _ => true | None => false end)) as Hj.
  destruct (JudgeSyncSaveType _ _ _ _ _) as [status item']. cbn [snd] in Hj. subst item'.
  apply (holds_bind _ _ _ (fun _ => True)); [by apply holds_modify |]. intros [] _.
  destruct (deletes_nothing _ _); [apply holds_leave |].
  apply (holds_bind _ _ _ (fun _ => True)).
  { unfold GetSyncDataItemExt, GetColumnBlobValue. holds_steps I_lost with fail. }
  intros [e|get'] _; [apply holds_leave | by apply holds_ret].
Qed.

(** The only thing that is written is the row of the item. *)
Lemma holds_SaveSyncDataItem item h : item_hash item = Some h -> is_miss_query (flag item) = false ->
  (forall d orig, I d -> I (put_table d (<[h := saved_row item orig []]> (table d)))) ->
  holds I (SaveSyncDataItem item local_device 0 true) (fun m => m <= Z.max (timestamp item) 0).
Proof.
  intros Hh Hm Hwrite. unfold SaveSyncDataItem.
  eapply holds_bind; [apply holds_try, holds_PrepareForNotify; exact Hh |].
  intros [e|[item' nd]]; [intros _; destruct (_ =? _); [apply holds_ret; lia | apply holds_throw] |].
  cbn [fst snd]. intros [-> Hnd].
  apply (holds_bind _ _ _ (fun _ => True)); [by apply holds_modify |]. intros [] _.
  destruct (isDefeated _).
  { apply (holds_bind _ _ _ (fun _ => True)); [apply holds_reset_sync |]. intros e _. apply holds_with_code. lia. }
  cbv zeta. apply (holds_bind _ _ _ (fun _ => True)).
  { apply holds_try_any. unfold SaveSyncDataToDatabase, BindSavedSyncData, BindDevForSavedSyncData, BindInt64ToStatement.
    rewrite Hm, Hnd. cbv zeta. change (TransferHash (di_deviceName local_device)) with ([] : list byte).
    holds_steps I_lost with (first [apply holds_bind_blob | apply (holds_step _ I_lost)]);
      intros d u t Hd; destruct (negb _); unfold UPDATE_SYNC, INSERT_SYNC.
    - intros [= _ <-]. split; [| done]. destruct (table d !! h); [by apply Hwrite | by rewrite put_table_same].
    - destruct (table d !! h); [done |]. intros [= _ <-]. split; [by apply Hwrite | done]. }
  intros r _. apply (holds_bind _ _ _ (fun _ => True)); [destruct r; [by apply holds_ret | by apply holds_modify] |].
  intros ? _. apply (holds_bind _ _ _ (fun _ => True)); [apply holds_reset_sync |]. intros e _.
  apply holds_with_code. lia.
Qed.

End Damage.

(** * Inside a transaction *)

(** The connection has the handle, and [t] is the table inside the transaction. *)
Record inside (base : Table) s (t : Table) : Prop := {
  in_db : db (exec s) = mkDatabase base (Some t);
  in_handle : writeHandle_ (conn s) = true
}.

(** After an error: the transaction is lost or not. *)
Record broken (base : Table) s : Prop := {
  br_db : committed (db (exec s)) = base;
  br_handle : writeHandle_ (conn s) = true
}.

(** The table is well formed and older than the next time stamp. *)
Record fresh s (t : Table) : Prop := {
  fs_wf : table_wf t;
  fs_below : below (clock (ticks s)) t
}.

(** The connection has seen no later time stamp. *)
Definition clocked s : Prop := cn_currentMaxTimestamp_ (conn s) <= clock (ticks s).

Lemma inside_broken base s t : inside base s t -> broken base s.
Proof. intros [E ?]. split; [by rewrite E | done]. Qed.

Lemma fresh_later s s' t : fresh s t -> (ticks s <= ticks s')%nat -> fresh s' t.
Proof.
  intros [Hw Hb] Hle. split; [done |]. eapply map_Forall_impl; [exact Hb |]. intros h row Hr. cbn in Hr |- *.
  pose proof (clock_mono _ _ Hle). lia.
Qed.

(** What writing [ws] in the transaction leads to. *)
Definition outcome (base : Table) (ws : Writes) s (t : Table) (ok : Z -> Prop) (e : Z) s' : Prop :=
  (ticks s <= ticks s' <= ticks s + length ws)%nat /\ clocked s'
  /\ (ok e /\ (exists t', inside base s' t' /\ fresh s' t' /\ forall k, live t' k = after ws (live t) k)
      \/ ~ ok e /\ broken base s').

Lemma save_stamp_local policy item old :
  0 <= timestamp item -> save_stamp policy true local_device item old 0 <= timestamp item.
Proof.
  intros Ht. unfold save_stamp. destruct (ignored _ _ _ _); [done |]. rewrite judged_local. cbn.
  destruct old as [row|]; [destruct (_ <=? _) |]; lia.
Qed.

Lemma SaveEntryNormally_spec base s t item :
  inside base s t -> clocked s -> 0 <= timestamp item <= clock (ticks s) ->
  let '(e, s') := SaveEntryNormally s item in
  ticks s' = ticks s /\ clocked s'
  /\ (accepted e /\ inside base s' (save_table (conflictResolvePolicy_ (exec s)) true local_device item t)
      \/ ~ accepted e /\ broken base s').
Proof.
  intros [Hdb Hh] Hck Hstamp. unfold SaveEntryNormally, run. set (x0 := set_committed (exec s) _).
  unfold bind. pose proof (PrepareForSavingData_spec x0) as Hpr. unfold result in Hpr.
  assert (Hbad : forall e, bad e -> ~ accepted e) by (intros e (? & ? & _) [? | ?]; congruence).
  destruct (PrepareForSavingData x0) as [[e|[]] x1].
  { destruct Hpr as [[_ Hco _] Hb]. cbv beta iota. split_and!; [done | done |]. right. split; [auto |].
    split; cbn; [by rewrite Hco; cbn; rewrite Hdb | done]. }
  assert (Hdb1 : db x1 = mkDatabase base (Some t)) by (rewrite (qu_db _ _ Hpr); exact Hdb).
  assert (Hp1 : conflictResolvePolicy_ x1 = conflictResolvePolicy_ (exec s)) by apply Hpr.
  pose proof (SaveSyncDataItem_spec item local_device 0 true x1) as Hs. rewrite Hdb1, Hp1 in Hs.
  specialize (Hs (mk_is_Some _ _ eq_refl)). change (table (mkDatabase base (Some t))) with t in Hs.
  fold local_device. destruct (SaveSyncDataItem item local_device 0 true x1) as [r x2].
  destruct Hs as [([h Hhash] & [_ Hsv _] & Hr) | ([_ Hco _] & e & -> & Hb)].
  - rewrite Hdb1, Hp1 in Hsv. cbn in Hsv.
    destruct Hr as [-> | (m & -> & Hm)]; cbv beta iota zeta.
    + split_and!; [done | done |]. left. split; [by right | by split; cbn].
    + split_and!; [done | | left; split; [by left | by split; cbn]].
      unfold clocked in *. cbn. rewrite (Hm h Hhash).
      pose proof (save_stamp_local (conflictResolvePolicy_ (exec s)) item (t !! h) (proj1 Hstamp)).
      destruct (_ <? _); lia.
  - cbv beta iota zeta. split_and!; [done | done |]. right. split; [auto |].
    split; cbn; [by rewrite Hco, Hdb1 | done].
Qed.

(** One write, with the next time stamp. *)
Lemma save_local base s t k k' v f h :
  inside base s t -> clocked s -> fresh s t -> (ticks s < last)%nat -> value_hash k = Some h ->
  f = LOCAL_FLAG /\ k' = k /\ k <> [] \/ f = Z.lor LOCAL_FLAG DELETE_FLAG /\ k' = h ->
  let '(e, s') := SaveEntryNormally (GetCurrentTimestamp s).2 (local_item k' v f (clock (ticks s))) in
  outcome base [(k, if is_delete f then None else Some v)] s t accepted e s'.
Proof.
  intros Hin Hck [Hwf Hb] Hlast Hh Hf. pose proof (clock_increases (ticks s)) as Hlt.
  pose proof (clock_bits (ticks s) Hlast) as Hr.
  set (s1 := (GetCurrentTimestamp s).2).
  assert (Hin1 : inside base s1 t) by (by destruct Hin; split).
  assert (Hck1 : clocked s1) by (unfold clocked in *; cbn; lia).
  pose proof (SaveEntryNormally_spec base s1 t (local_item k' v f (clock (ticks s))) Hin1 Hck1) as Hs. cbn in Hs.
  specialize (Hs ltac:(lia)). destruct (SaveEntryNormally _ _) as [e s'].
  destruct Hs as (Ht & Hck' & Hs). split_and!; [cbn; lia | cbn; lia | done |].
  destruct Hs as [[He Hin'] | ?]; [left | by right]. split; [done |].
  destruct (save_table_local (conflictResolvePolicy_ (exec s)) k k' v f (clock (ticks s)) t h Hf Hh Hr Hwf Hb)
    as (Hwf' & Hb' & Hlive). eexists. split; [exact Hin' |]. split; [| exact Hlive]. split; [done |].
  eapply map_Forall_impl; [exact Hb' |]. intros h' row Hrow. cbn in Hrow |- *. rewrite Ht. lia.
Qed.

Lemma SaveEntry_eq s entry isDelete : clocked s ->
  SaveEntry s entry isDelete 0
  = let checked := if isDelete then (E_OK, None) else CheckValueAndAmendIfNeed false entry.2 in
    if negb (checked.1 =? E_OK) then (checked.1, s)
    else SaveEntryNormally (GetCurrentTimestamp s).2
           (local_item entry.1 (default entry.2 checked.2) (if isDelete then Z.lor LOCAL_FLAG DELETE_FLAG else LOCAL_FLAG)
              (clock (ticks s))).
Proof.
  intros Hck. unfold SaveEntry, GetCurrentTimestamp. cbv zeta. destruct (negb _); [done |]. cbn [conn ticks].
  unfold clocked in Hck. rewrite (proj2 (Z.ltb_ge _ _) Hck). done.
Qed.

Lemma SaveEntry_put base s t k v :
  inside base s t -> clocked s -> fresh s t -> (ticks s < last)%nat -> k <> [] ->
  let '(e, s') := SaveEntry s (k, v) false 0 in
  outcome base [(k, Some (stored_value v))] s t (fun e => e = E_OK) e s'.
Proof.
  intros Hin Hck Hfr Hlast Hk. rewrite SaveEntry_eq by done. cbv zeta. unfold stored_value. cbn [fst snd].
  destruct (CheckValueAndAmendIfNeed false v) as [e v']. cbn [fst snd].
  destruct (e =? E_OK) eqn:Ee; cbn [negb].
  - destruct (hash_total k) as [h Hh].
    pose proof (save_local base s t k k (default v v') LOCAL_FLAG h Hin Hck Hfr Hlast Hh) as Hs.
    specialize (Hs ltac:(left; done)). destruct (SaveEntryNormally _ _) as [e1 s1].
    destruct Hs as (Ht & Hck' & [[[-> | ->] Hr] | [Hn Hr]]); (split; [done |]); (split; [done |]); [by left | right | right].
    + destruct Hr as (t' & Hin' & _). split; [done | by eapply inside_broken].
    + split; [| done]. intros ->. apply Hn. by left.
  - apply Z.eqb_neq in Ee. split_and!; [done | cbn; lia | done | right]. split; [done | by eapply inside_broken].
Qed.

Lemma SaveEntry_delete base s t k v :
  inside base s t -> clocked s -> fresh s t -> (ticks s < last)%nat ->
  let '(e, s') := SaveEntry s ((CalcValueHash k).2, v) true 0 in outcome base [(k, None)] s t accepted e s'.
Proof.
  intros Hin Hck Hfr Hlast. rewrite SaveEntry_eq by done. cbn [negb Z.eqb E_OK fst snd default].
  destruct (hash_total k) as [h Hh]. unfold CalcValueHash. rewrite Hh. cbn [snd].
  apply (save_local base s t k h v (Z.lor LOCAL_FLAG DELETE_FLAG) h Hin Hck Hfr Hlast Hh). by right.
Qed.

(** After a first write, more of them. *)
Lemma outcome_next base ws1 ws2 s t (ok1 ok2 : Z -> Prop) s1 t1 e2 s2 :
  (ticks s <= ticks s1 <= ticks s + length ws1)%nat -> (forall k, live t1 k = after ws1 (live t) k) ->
  outcome base ws2 s1 t1 ok2 e2 s2 -> outcome base (ws1 ++ ws2) s t ok2 e2 s2.
Proof.
  intros Hle Hl (Ht & Hck & Hr). split; [rewrite length_app; lia |]. split; [done |]. destruct Hr as [[He (t2 & Hin & Hfr & Hl2)] | ?]; [left | by right].
  split; [done |]. exists t2. split_and!; [done | done |]. intros k. rewrite Hl2, after_app. unfold after at 1 2. by rewrite Hl.
Qed.

Lemma SaveSyncEntries_spec base entries : forall s t, inside base s t -> clocked s -> fresh s t ->
  (ticks s + length entries <= last)%nat ->
  Forall (fun e : Entry => e.1 <> []) entries ->
  let '(e, s') := SaveSyncEntries s entries in
  outcome base ((fun e : Entry => (e.1, Some (stored_value e.2))) <$> entries) s t (fun e => e = E_OK) e s'.
Proof.
  induction entries as [|[k v] entries IH]; intros s t Hin Hck Hfr Hlast Hk; cbn [SaveSyncEntries length] in *.
  { split_and!; [done | cbn; lia | done | left]. split; [done |]. exists t. done. }
  apply Forall_cons in Hk as [Hk Hks]. pose proof (SaveEntry_put base s t k v Hin Hck Hfr ltac:(lia) Hk) as Hone.
  destruct (SaveEntry s (k, v) false 0) as [e s1]. destruct Hone as (Ht & Hck1 & [[-> (t1 & Hin1 & Hfr1 & Hl1)] | [He Hb]]).
  - cbn [negb Z.eqb E_OK]. cbn [length] in Ht. specialize (IH s1 t1 Hin1 Hck1 Hfr1 ltac:(lia) Hks). destruct (SaveSyncEntries s1 entries) as [e2 s2].
    rewrite fmap_cons. apply (outcome_next base [(k, Some (stored_value v))] _ s t (fun e => e = E_OK) _ s1 t1); done.
  - rewrite (proj2 (Z.eqb_neq _ _) He). cbn [negb]. split; [cbn in *; rewrite length_fmap; lia |]. split; [done | by right].
Qed.

Lemma delete_loop_spec base keys : forall e0 s t, accepted e0 -> inside base s t -> clocked s -> fresh s t ->
  (ticks s + length keys <= last)%nat ->
  let '(e, s') := delete_loop s e0 keys in outcome base ((fun k => (k, None)) <$> keys) s t accepted e s'.
Proof.
  induction keys as [|k keys IH]; intros e0 s t He0 Hin Hck Hfr Hlast; cbn [delete_loop length] in *.
  { split_and!; [done | cbn; lia | done | left]. split; [done |]. exists t. done. }
  pose proof (SaveEntry_delete base s t k [] Hin Hck Hfr ltac:(lia)) as Hone. change (snd (CalcValueHash k)) with (CalcValueHash k).2.
  destruct (SaveEntry s _ true 0) as [e s1]. destruct Hone as (Ht & Hck1 & [[He (t1 & Hin1 & Hfr1 & Hl1)] | [He Hb]]).
  - replace (negb (e =? E_OK) && negb (e =? - E_NOT_FOUND)) with false by (by destruct He as [-> | ->]).
    cbn [length] in Ht. specialize (IH e s1 t1 He Hin1 Hck1 Hfr1 ltac:(lia)). destruct (delete_loop s1 e keys) as [e2 s2].
    rewrite fmap_cons. apply (outcome_next base [(k, None)] _ s t accepted _ s1 t1); done.
  - assert (e <> E_OK /\ e <> - E_NOT_FOUND) as [Hn1 Hn2] by (split; intros ->; apply He; [by left | by right]).
    rewrite (proj2 (Z.eqb_neq _ _) Hn1), (proj2 (Z.eqb_neq _ _) Hn2). cbn [negb andb].
    split; [cbn in *; rewrite length_fmap; lia |]. split; [done | by right].
Qed.

Lemma DeleteSyncEntries_spec base keys s t : inside base s t -> clocked s -> fresh s t ->
  (ticks s + length keys <= last)%nat ->
  let '(e, s') := DeleteSyncEntries s keys in
  outcome base ((fun k => (k, None)) <$> keys) s t (fun e => e = E_OK) e s'.
Proof.
  intros Hin Hck Hfr Hlast. unfold DeleteSyncEntries.
  pose proof (delete_loop_spec base keys E_OK s t (or_introl eq_refl) Hin Hck Hfr Hlast) as Hd.
  destruct (delete_loop s E_OK keys) as [e s']. destruct Hd as (Ht & Hck' & [[He Hr] | [He Hr]]); (split; [done |]); (split; [done |]).
  - left. split; [by destruct He as [-> | ->] | done].
  - right. split; [| done]. intros E. apply He. destruct (e =? - E_NOT_FOUND) eqn:En; [right; by apply Z.eqb_eq | by left].
Qed.

(** ** What is left of the writes *)

(** A table in which each key has the value of [m] or one of [ws], written before [b]. *)
Record partly (m : View) (ws : Writes) (b : Z) (t : Table) : Prop := {
  pa_wf : table_wf t;
  pa_below : below b t;
  pa_mixes : mixes m ws (live t)
}.

Lemma partly_mono m ws ws' b b' t : ws ⊆ ws' -> b <= b' -> partly m ws b t -> partly m ws' b' t.
Proof.
  intros Hws Hb [Hwf Hbl Hmx]. split; [done | |].
  - eapply map_Forall_impl; [exact Hbl |]. intros h row Hr. cbn in Hr |- *. lia.
  - intros k. destruct (Hmx k); [by left | right; auto].
Qed.

(** One more of the writes. *)
Lemma partly_write m ws b k k' v f now t orig h :
  f = LOCAL_FLAG /\ k' = k /\ k <> [] \/ f = Z.lor LOCAL_FLAG DELETE_FLAG /\ k' = h ->
  value_hash k = Some h -> 0 <= now < 2 ^ 64 -> now < b -> (k, if is_delete f then None else Some v) ∈ ws ->
  partly m ws b t -> partly m ws b (<[h := saved_row (local_item k' v f now) orig []]> t).
Proof.
  intros Hf Hh Hnow Hb Hin [Hwf Hbl Hmx]. set (row := saved_row _ _ _).
  assert (Hdel : deleted_row row = is_delete f) by (apply deleted_saved; by destruct Hf as [(-> & _) | (-> & _)]).
  split.
  - apply map_Forall_insert_2; [| done]. unfold row_wf. rewrite Hdel.
    destruct Hf as [(-> & -> & Hk) | (-> & _)]; [by split | done].
  - apply map_Forall_insert_2; [| done]. replace (write_stamp row) with now; [done |]. symmetry. by apply u64_signed.
  - intros k0. destruct (hash_total k0) as [h0 Hh0]. unfold live. rewrite Hh0.
    destruct (decide (h = h0)) as [<- | Hn].
    + assert (k0 = k) as -> by (by eapply hash_inj). right. rewrite lookup_insert_eq. cbn [live_row]. by rewrite Hdel; destruct (is_delete f).
    + rewrite lookup_insert_ne by done. specialize (Hmx k0). unfold live in Hmx. by rewrite Hh0 in Hmx.
Qed.

(** Something has failed: if the transaction is still there it has some of the writes [wp]
    on top of [w]; otherwise some of the writes [wc] may have been committed. *)
Definition tainted (base : Table) (m w : View) (wc wp : Writes) (b : Z) (d : Database) : Prop :=
  partly m wc b (committed d) /\ forall t, pending d = Some t -> partly w wp b t /\ committed d = base.

Lemma tainted_lost base m w wc wp b d : tainted base m w wc wp b d ->
  tainted base m w wc wp b (mkDatabase (committed d) None).
Proof. by intros [? _]. Qed.

Lemma tainted_mono base m w wc wp wc' wp' b b' d : wc ⊆ wc' -> wp ⊆ wp' -> b <= b' ->
  tainted base m w wc wp b d -> tainted base m w wc' wp' b' d.
Proof.
  intros Hc Hp Hb [H1' H2']. split; [by eapply partly_mono |]. intros t Ht. destruct (H2' t Ht).
  split; [by eapply partly_mono | done].
Qed.

Record failed (base : Table) (m w : View) (wc wp : Writes) s : Prop := {
  fa_db : tainted base m w wc wp (clock (ticks s)) (db (exec s));
  fa_handle : writeHandle_ (conn s) = true;
  fa_clocked : clocked s
}.

(** One write after a failure. *)
Lemma save_failed base m w wc wp s k k' v f h :
  failed base m w wc wp s -> (ticks s < last)%nat -> value_hash k = Some h ->
  f = LOCAL_FLAG /\ k' = k /\ k <> [] \/ f = Z.lor LOCAL_FLAG DELETE_FLAG /\ k' = h ->
  (k, if is_delete f then None else Some v) ∈ wc -> (k, if is_delete f then None else Some v) ∈ wp ->
  let '(e, s') := SaveEntryNormally (GetCurrentTimestamp s).2 (local_item k' v f (clock (ticks s))) in
  failed base m w wc wp s' /\ ticks s' = S (ticks s).
Proof.
  intros [Hdb Hh Hck] Hlast Hkh Hf Hc Hp. pose proof (clock_increases (ticks s)) as Hlt.
  pose proof (clock_bits (ticks s) Hlast) as Hr. unfold SaveEntryNormally, run. set (s1 := (GetCurrentTimestamp s).2).
  set (x0 := set_committed (exec s1) _). set (item := local_item k' v f (clock (ticks s))).
  set (I := tainted base m w wc wp (clock (S (ticks s)))).
  assert (Hhash : item_hash item = Some h).
  { unfold item_hash, item. destruct Hf as [(-> & -> & _) | [-> ->]]; cbn; done. }
  assert (Hx0 : I (db x0)) by (eapply tainted_mono; [done | done | | exact Hdb]; lia).
  assert (Hs : holds I (PrepareForSavingData;; SaveSyncDataItem item local_device 0 true)
    (fun stamp => stamp <= Z.max (timestamp item) 0)).
  { apply (holds_bind _ _ _ (fun _ => True)); [apply holds_prepare; apply tainted_lost | intros _ _].
    apply (holds_SaveSyncDataItem I (tainted_lost base m w wc wp _) item h Hhash).
    - unfold item. by destruct Hf as [(-> & _) | (-> & _)].
    - intros d orig [H1' H2']. unfold put_table, table. destruct (pending d) as [t|] eqn:Ep; cbn.
      + destruct (H2' t eq_refl) as [Hpa Hbase]. split; [done |]. cbn. intros t' [= <-]. split; [| done].
        by eapply partly_write.
      + split; [| done]. cbn. by eapply partly_write. }
  destruct (Hs x0 Hx0) as [HI Hm]. fold local_device. destruct (bind _ _ x0) as [[e|stamp] x]; cbn [fst snd] in *; cbv beta iota zeta.
  - split; [| done]. split; [exact HI | exact Hh |]. unfold clocked in *. cbn. lia.
  - split; [| done]. split; [exact HI | exact Hh |]. unfold clocked in *. cbn in Hm |- *.
    destruct (_ <? _); [| lia]. lia.
Qed.

Lemma SaveEntry_put_failed base m w wc wp s k v : failed base m w wc wp s -> (ticks s < last)%nat -> k <> [] ->
  (k, Some (stored_value v)) ∈ wc -> (k, Some (stored_value v)) ∈ wp ->
  let '(e, s') := SaveEntry s (k, v) false 0 in failed base m w wc wp s' /\ (ticks s' <= S (ticks s))%nat.
Proof.
  intros Hfa Hlast Hk Hc Hp. rewrite SaveEntry_eq by apply Hfa. cbv zeta. unfold stored_value in *. cbn [fst snd] in *.
  destruct (CheckValueAndAmendIfNeed false v) as [e v']. cbn [fst snd] in *.
  destruct (e =? E_OK); cbn [negb]; [| split; [done | lia]]. destruct (hash_total k) as [h Hh].
  pose proof (save_failed base m w wc wp s k k (default v v') LOCAL_FLAG h Hfa Hlast Hh ltac:(by left) Hc Hp) as Hs.
  destruct (SaveEntryNormally _ _). destruct Hs as [? ->]. done.
Qed.

Lemma SaveEntry_delete_failed base m w wc wp s k v : failed base m w wc wp s -> (ticks s < last)%nat ->
  (k, None) ∈ wc -> (k, None) ∈ wp ->
  let '(e, s') := SaveEntry s ((CalcValueHash k).2, v) true 0 in failed base m w wc wp s' /\ (ticks s' <= S (ticks s))%nat.
Proof.
  intros Hfa Hlast Hc Hp. rewrite SaveEntry_eq by apply Hfa. cbn [negb Z.eqb E_OK fst snd default].
  destruct (hash_total k) as [h Hh]. unfold CalcValueHash. rewrite Hh. cbn [snd].
  pose proof (save_failed base m w wc wp s k h v (Z.lor LOCAL_FLAG DELETE_FLAG) h Hfa Hlast Hh ltac:(by right) Hc Hp) as Hs.
  destruct (SaveEntryNormally _ _). destruct Hs as [? ->]. done.
Qed.

(** A batch after a failure. *)
Definition taints (ws : Writes) (save : Store -> Z * Store) : Prop := forall base m w wc wp s,
  failed base m w wc wp s -> ws ⊆ wc -> ws ⊆ wp -> (ticks s + length ws <= last)%nat ->
  let '(e, s') := save s in failed base m w wc wp s' /\ (ticks s' <= ticks s + length ws)%nat.

Lemma SaveSyncEntries_taints entries : Forall (fun e : Entry => e.1 <> []) entries ->
  taints ((fun e : Entry => (e.1, Some (stored_value e.2))) <$> entries) (fun s => SaveSyncEntries s entries).
Proof.
  induction 1 as [|[k v] entries Hk _ IH]; intros base m w wc wp s Hfa Hc Hp Hlast; cbn [SaveSyncEntries fmap list_fmap length] in *.
  { split; [done | lia]. }
  cbn [fst snd] in *. pose proof (SaveEntry_put_failed base m w wc wp s k v Hfa ltac:(lia) Hk (Hc _ ltac:(left)) (Hp _ ltac:(left))) as Hs.
  destruct (SaveEntry s (k, v) false 0) as [e s1]. destruct Hs as [Hfa1 Ht].
  destruct (negb _); [split; [done | lia] |].
  specialize (IH base m w wc wp s1 Hfa1 (fun x Hx => Hc x (list_elem_of_further _ _ _ Hx))
    (fun x Hx => Hp x (list_elem_of_further _ _ _ Hx)) ltac:(unfold fmap in *; lia)).
  cbv beta in IH. destruct (SaveSyncEntries s1 entries). destruct IH. split; [done | unfold fmap in *; lia].
Qed.

Lemma delete_loop_taints keys : forall e0, taints ((fun k => (k, None)) <$> keys) (fun s => delete_loop s e0 keys).
Proof.
  induction keys as [|k keys IH]; intros e0 base m w wc wp s Hfa Hc Hp Hlast; cbn [delete_loop fmap list_fmap length] in *.
  { split; [done | lia]. }
  pose proof (SaveEntry_delete_failed base m w wc wp s k [] Hfa ltac:(lia) (Hc _ ltac:(left)) (Hp _ ltac:(left))) as Hs.
  change (snd (CalcValueHash k)) with (CalcValueHash k).2. destruct (SaveEntry s _ true 0) as [e s1]. destruct Hs as [Hfa1 Ht].
  destruct (negb _ && _); [split; [done | lia] |].
  specialize (IH e base m w wc wp s1 Hfa1 (fun x Hx => Hc x (list_elem_of_further _ _ _ Hx))
    (fun x Hx => Hp x (list_elem_of_further _ _ _ Hx)) ltac:(unfold fmap in *; lia)).
  cbv beta in IH. destruct (delete_loop s1 e keys). destruct IH. split; [done | unfold fmap in *; lia].
Qed.

Lemma DeleteSyncEntries_taints keys : taints ((fun k => (k, None)) <$> keys) (fun s => DeleteSyncEntries s keys).
Proof.
  intros base m w wc wp s Hfa Hc Hp Hlast. unfold DeleteSyncEntries.
  pose proof (delete_loop_taints keys E_OK base m w wc wp s Hfa Hc Hp Hlast) as Hd. cbv beta in Hd.
  by destruct (delete_loop s E_OK keys).
Qed.

(** * Transactions *)

Record idle (base : Table) s : Prop := {
  id_db : committed (db (exec s)) = base;
  id_handle : writeHandle_ (conn s) = false
}.

Lemma release_spec s : committed (db (exec (release s))) = committed (db (exec s)) /\ conn (release s) = conn s
  /\ ticks (release s) = ticks s.
Proof.
  unfold release, run. destruct (Reset_spec (set_committed (exec s) None)) as (x' & -> & Hc & _). done.
Qed.

Lemma StartTransactionNormally_spec base s env : idle base s ->
  let '(e, s') := StartTransactionNormally s env in
  ticks s' = ticks s /\ cn_currentMaxTimestamp_ (conn s') = cn_currentMaxTimestamp_ (conn s)
  /\ (e = E_OK /\ inside base s' base /\ transactionEntrySize_ (conn s') = 0 \/ e <> E_OK /\ idle base s').
Proof.
  intros [Hdb Hh]. unfold StartTransactionNormally, GetHandle. rewrite Hh.
  assert (Hrel : forall s1, committed (db (exec s1)) = base -> writeHandle_ (conn s1) = false -> ticks s1 = ticks s ->
    cn_currentMaxTimestamp_ (conn s1) = cn_currentMaxTimestamp_ (conn s) -> forall e, e <> E_OK ->
    ticks (release s1) = ticks s /\ cn_currentMaxTimestamp_ (conn (release s1)) = cn_currentMaxTimestamp_ (conn s)
    /\ (e = E_OK /\ inside base (release s1) base /\ transactionEntrySize_ (conn (release s1)) = 0
        \/ e <> E_OK /\ idle base (release s1))).
  { intros s1 Hc1 Hh1 Ht1 Hm1 e He. destruct (release_spec s1) as (Hc & Hcn & Ht). rewrite Hcn, Ht.
    split_and!; [done | done | right]. split; [done |]. split; [congruence | by rewrite Hcn]. }
  destruct (env_handle env =? E_OK) eqn:Eh; cbn [negb].
  2: { apply Z.eqb_neq in Eh. split_and!; [done | done | by right]. }
  destruct (env_logOver env); [by apply Hrel |].
  destruct (bool_decide _ && negb _); [by apply Hrel |].
  unfold run. pose proof (StartTransaction_spec (set_committed (exec s) None)) as Hst.
  destruct (StartTransaction _) as [[e|[]] x]; cbv beta iota zeta.
  - destruct Hst as [[_ Hc _] (He & _)]. apply Hrel; [cbn in Hc |- *; by rewrite Hc | done..].
  - destruct Hst as (_ & _ & _ & _ & _ & Hd). split_and!; [done | done | left]. split_and!; [done | | done].
    split; [| done]. cbn. by rewrite Hd; cbn; rewrite Hdb.
Qed.

(** A commit makes the data of the transaction the data of the store, or changes nothing. *)
Lemma CommitInner_spec s :
  let '(e, s') := CommitInner s in
  ticks s' = ticks s /\ cn_currentMaxTimestamp_ (conn s') = cn_currentMaxTimestamp_ (conn s)
  /\ exists t, idle t s' /\ if e =? E_OK then pending (db (exec s)) = Some t else t = committed (db (exec s)).
Proof.
  unfold CommitInner, run. pose proof (Commit_spec (set_committed (exec s) None)) as Hc.
  destruct (Commit _) as [r x]. set (s1 := set_exec s _).
  destruct (release_spec s1) as (Hc1 & Hcn & Ht). cbv zeta. cbn [ticks conn cn_currentMaxTimestamp_ SetMaxTimestamp add_events set_conn].
  rewrite Hcn, Ht. split_and!; [done | done |]. exists (committed (db x)). split; [by split |].
  destruct r as [e|[]]; cbn.
  - destruct Hc as [[_ Hco _] (He & _)]. rewrite (proj2 (Z.eqb_neq _ _) He). exact Hco.
  - destruct Hc as (t' & Ht' & _ & _ & _ & _ & ->). exact Ht'.
Qed.

Lemma RollbackInner_spec base s : broken base s ->
  let '(e, s') := RollbackInner s in
  ticks s' = ticks s /\ cn_currentMaxTimestamp_ (conn s') = 0 /\ idle base s'.
Proof.
  intros [Hdb Hh]. unfold RollbackInner, run. pose proof (Rollback_spec (set_committed (exec s) None)) as Hr.
  destruct (Rollback _) as [r x]. cbv zeta. set (s1 := set_conn _ _). destruct (release_spec s1) as (Hc1 & Hcn & Ht).
  rewrite Hcn, Ht. split_and!; [done | done |]. split; [| by rewrite Hcn]. rewrite Hc1. cbn.
  destruct r as [e|[]]; [destruct Hr as [[_ -> _] _]; done | destruct Hr as (_ & _ & _ & ->); done].
Qed.

(** * Phases *)

Definition models s (p : Phase) : Prop :=
  match p with
  | Idle m => exists base, idle base s /\ fresh s base /\ clocked s /\ forall k, live base k = m k
  | Busy m w => exists base t, inside base s t /\ fresh s base /\ fresh s t /\ clocked s
                  /\ (forall k, live base k = m k) /\ forall k, live t k = w k
  | Failed m w ws => exists base, failed base m w [] ws s
  end.

(** Writing in a transaction. *)
Definition saves (ws : Writes) (save : Store -> Z * Store) : Prop := taints ws save /\ forall base s t,
  inside base s t -> clocked s -> fresh s t -> (ticks s + length ws <= last)%nat ->
  let '(e, s') := save s in outcome base ws s t (fun e => e = E_OK) e s'.

(** ** Failed transactions *)

Lemma fresh_partly s t m : fresh s t -> (forall k, live t k = m k) -> forall ws, partly m ws (clock (ticks s)) t.
Proof. intros [? ?] Hl ws. split; [done | done |]. intros k. by left. Qed.

Lemma partly_fresh s t m ws : partly m ws (clock (ticks s)) t -> fresh s t.
Proof. by intros [? ? _]. Qed.

Lemma partly_exact m b t : partly m [] b t -> forall k, live t k = m k.
Proof. intros [_ _ Hm] k. destruct (Hm k) as [? | Hin]; [done |]. by apply elem_of_nil in Hin. Qed.

(** The transaction goes on, but any write may have been done or not. *)
Lemma busy_failed m w s ws : models s (Busy m w) -> models s (Failed m w ws).
Proof.
  intros (base & t & Hin & Hfb & Hft & Hck & Hlb & Hlt). exists base. split; [| apply Hin | done].
  rewrite (in_db _ _ _ Hin). split; cbn; [by apply fresh_partly |]. intros t' [= <-].
  split; [by apply fresh_partly | done].
Qed.

Lemma failed_mono base m w wc wp wc' wp' s : wc ⊆ wc' -> wp ⊆ wp' ->
  failed base m w wc wp s -> failed base m w wc' wp' s.
Proof.
  intros Hc Hp [Hdb ? ?]. split; [| done..]. apply (tainted_mono _ _ _ wc wp _ _ (clock (ticks s))); [done | done | lia | done].
Qed.

(** What is committed, as it is now. *)
Lemma failed_now base m w wc wp s : failed base m w wc wp s ->
  mixes m wc (live (committed (db (exec s)))) /\ models s (Failed (live (committed (db (exec s)))) w wp).
Proof.
  intros [[Hc Hp] Hh Hck]. split; [apply Hc |]. exists base. split; [| done..]. split; [| done].
  destruct Hc. split; [done | done | by left].
Qed.

Lemma after_ext ws m m' k : (forall k, m k = m' k) -> after ws m k = after ws m' k.
Proof. intros E. unfold after. by rewrite E. Qed.

Lemma fresh_same s s' t : ticks s' = ticks s -> fresh s t -> fresh s' t.
Proof. intros E Hf. eapply fresh_later; [done |]. by rewrite E. Qed.

Lemma batch_idle m s env n save ws : models s (Idle m) -> saves ws save -> n <= MAX_TRANSACTION_ENTRY_SIZE ->
  (ticks s + length ws <= last)%nat ->
  let '(e, s') := batch s env n save in
  models s' (Idle (if e =? E_OK then after ws m else m)) /\ (ticks s' <= ticks s + length ws)%nat.
Proof.
  intros (base & Hid & Hfr & Hck & Hl) [_ Hsave] Hn Hlast. unfold batch. rewrite (id_handle _ _ Hid). cbn [negb].
  pose proof (StartTransactionNormally_spec base s env Hid) as Hst.
  destruct (StartTransactionNormally s env) as [e s1]. destruct Hst as (Ht1 & Hm1 & Hst).
  assert (Hck1 : clocked s1) by (unfold clocked in *; by rewrite Hm1, Ht1).
  assert (Hfr1 : fresh s1 base) by (by apply (fresh_same s)).
  destruct Hst as [(-> & Hin1 & Hz) | [He Hid1]].
  2: { rewrite (proj2 (Z.eqb_neq _ _) He). cbn [negb]. rewrite (proj2 (Z.eqb_neq _ _) He). split; [by exists base | lia]. }
  cbn [negb Z.eqb E_OK]. rewrite Hz. rewrite (proj2 (Z.ltb_ge _ _)) by (unfold MAX_TRANSACTION_ENTRY_SIZE in *; lia).
  specialize (Hsave base s1 base Hin1 Hck1 Hfr1 ltac:(lia)). destruct (save s1) as [e s2].
  destruct Hsave as (Ht2 & Hck2 & [[-> (t & Hin2 & Hfr2 & Hl2)] | [He Hb]]).
  - cbn [Z.eqb E_OK]. set (s3 := set_conn s2 _). assert (Hin3 : inside base s3 t) by (by destruct Hin2; split).
    pose proof (CommitInner_spec s3) as Hc. destruct (CommitInner s3) as [e s4].
    destruct Hc as (Ht4 & Hm4 & t4 & Hid4 & Et4). rewrite (in_db _ _ _ Hin3) in Et4.
    assert (t4 = if e =? E_OK then t else base) as -> by (destruct (e =? E_OK); cbn in Et4; congruence).
    assert (Hck4 : clocked s4) by (unfold clocked in *; by rewrite Hm4, Ht4).
    split; [| rewrite Ht4; change (ticks s3) with (ticks s2); lia].
    exists (if e =? E_OK then t else base). split_and!; [done | | done |].
    + destruct (e =? E_OK); [by apply (fresh_same s2) | apply (fresh_later s1); [done | rewrite Ht4; apply Ht2]].
    + intros k. destruct (e =? E_OK); [rewrite Hl2; by apply after_ext | done].
  - rewrite (proj2 (Z.eqb_neq _ _) He). pose proof (RollbackInner_spec base s2 Hb) as Hr.
    destruct (RollbackInner s2) as [ei s3]. destruct Hr as (Ht3 & Hm3 & Hid3).
    assert (Hne : (if negb (ei =? E_OK) then ei else e) =? E_OK = false).
    { destruct (ei =? E_OK) eqn:Ei; cbn [negb]; [by apply Z.eqb_neq | done]. }
    rewrite Hne. split; [| lia]. exists base. split_and!; [done | | | done].
    + apply (fresh_later s1); [done | rewrite Ht3; apply Ht2].
    + unfold clocked. rewrite Hm3. apply clock_nonneg.
Qed.

Lemma batch_busy m w s env n save ws : models s (Busy m w) -> saves ws save ->
  (ticks s + length ws <= last)%nat ->
  let '(e, s') := batch s env n save in
  models s' (if e =? E_OK then Busy m (after ws w) else Failed m w ws) /\ (ticks s' <= ticks s + length ws)%nat.
Proof.
  intros Hm [Htaint Hsave] Hlast. pose proof (busy_failed m w s ws Hm) as [base' Hfa].
  pose proof Hm as (base & t & Hin & Hfb & Hft & Hck & Hlb & Hlt). unfold batch. rewrite (in_handle _ _ _ Hin).
  cbn [negb Z.eqb E_OK]. destruct (_ <? _); [split; [by apply busy_failed | lia] |].
  specialize (Hsave base s t Hin Hck Hft Hlast).
  specialize (Htaint base' m w ws ws s (failed_mono _ _ _ _ _ _ _ _ (list_subseteq_nil ws) (reflexivity ws) Hfa)
    (reflexivity ws) (reflexivity ws) Hlast).
  destruct (save s) as [e s2]. destruct Htaint as [[[_ Hpd] Hh2 _] _].
  destruct Hsave as (Ht2 & Hck2 & [[-> (t2 & Hin2 & Hfr2 & Hl2)] | [He Hb]]).
  - cbn [Z.eqb E_OK]. split; [| cbn; lia]. exists base, t2. split_and!; [by destruct Hin2; split | | | done | done |].
    + apply (fresh_later s); [done | apply Ht2].
    + by apply (fresh_same s2).
    + intros k. rewrite Hl2. by apply after_ext.
  - rewrite (proj2 (Z.eqb_neq _ _) He). split; [| lia]. exists base'. split; [| done..]. split; [| done].
    rewrite (br_db _ _ Hb). apply fresh_partly; [apply (fresh_later s); [done | apply Ht2] | done].
Qed.

Lemma batch_failed m w ws0 s env n save ws : models s (Failed m w ws0) -> saves ws save ->
  (ticks s + length ws <= last)%nat ->
  let '(e, s') := batch s env n save in
  exists m', mixes m ws m' /\ models s' (Failed m' w (ws0 ++ ws)) /\ (ticks s' <= ticks s + length ws)%nat.
Proof.
  intros [base Hfa] [Htaint _] Hlast. unfold batch. rewrite (fa_handle _ _ _ _ _ _ Hfa). cbn [negb Z.eqb E_OK].
  apply (failed_mono _ _ _ _ _ ws (ws0 ++ ws)) in Hfa; [| set_solver | set_solver].
  destruct (_ <? _).
  { destruct (failed_now _ _ _ _ _ _ Hfa). eexists. split_and!; [done | done | lia]. }
  specialize (Htaint base m w ws (ws0 ++ ws) s Hfa ltac:(set_solver) ltac:(set_solver) Hlast).
  destruct (save s) as [e s2]. destruct Htaint as [Hfa2 Ht2]. cbv beta iota zeta.
  assert (Hfa3 : failed base m w ws (ws0 ++ ws) (if e =? E_OK then
      set_conn s2 (mkConnection (writeHandle_ (conn s2)) (transactionEntrySize_ (conn s2) + n)
        (cn_currentMaxTimestamp_ (conn s2)) (committedData_ (conn s2)) (transactionExeFlag_ (conn s2))) else s2)).
  { destruct Hfa2. by destruct (e =? E_OK); split. }
  destruct (failed_now _ _ _ _ _ _ Hfa3) as [Hmx Hmo]. eexists. split_and!; [exact Hmx | exact Hmo |].
  by destruct (e =? E_OK).
Qed.

(** * Reading *)

Lemma finish_code {A} e st x : exists e' x', finish (A := A) (inl e) st x = (inl e', x') /\ kept e x (calm x) e' x'.
Proof.
  unfold finish, bind. destruct (ResetStatement_spec st true (code_of (A := A) (inl e)) x) as (st' & e' & x1 & -> & Hk & _).
  cbv beta iota. destruct (CheckCorruptedStatus_spec e' x1) as (x2 & -> & Hc). cbn. do 2 eexists. split; [reflexivity |].
  destruct Hk as [[-> ?] | [? ?]]; [left; split; [done | by etrans] | right; split; [etrans; eauto with exec | done]].
Qed.

Definition find (t : Table) (k : Key) : option Value :=
  r_value ∘ snd <$> head (filter (fun kv : Key * SyncRow => r_key kv.2 = k) (map_to_list t)).

(** The row that is found by its key is the row of the key. *)
Lemma find_live t k : table_wf t -> k <> [] -> find t k = live t k.
Proof.
  intros Hwf Hk. unfold find. destruct (filter _ (map_to_list t)) as [|[h row] l] eqn:E.
  - symmetry. unfold live. destruct (value_hash k) as [h|] eqn:Hh; [| done].
    destruct (t !! h) as [row|] eqn:Er; [| done]. cbn. specialize (Hwf h row Er). unfold row_wf in Hwf.
    destruct (deleted_row row); [done |]. exfalso. destruct Hwf as [Hr _].
    assert (Hin : (h, row) ∈ filter (fun kv : Key * SyncRow => r_key kv.2 = k) (map_to_list t)).
    { apply list_elem_of_filter. split; [by eapply hash_inj | by apply elem_of_map_to_list]. }
    rewrite E in Hin. by apply elem_of_nil in Hin.
  - assert (Hin : (h, row) ∈ filter (fun kv : Key * SyncRow => r_key kv.2 = k) (map_to_list t)) by (rewrite E; left).
    apply list_elem_of_filter in Hin as [Hkey Hrow%elem_of_map_to_list]. cbn in Hkey.
    specialize (Hwf h row Hrow). unfold row_wf in Hwf. cbn. unfold live.
    destruct (deleted_row row) eqn:Ed; [congruence |]. destruct Hwf as [Hh _]. rewrite Hkey in Hh.
    rewrite Hh, Hrow. cbn. by rewrite Ed.
Qed.

Lemma GetKvData_spec k x :
  match GetKvData k x with
  | (inr (v, _), x') => calm x x' /\ find (table (db x)) k = Some v
  | (inl e, x') => e = - E_NOT_FOUND /\ calm x x' /\ find (table (db x)) k = None \/ damaged x x' /\ bad e
  end.
Proof.
  unfold GetKvData, with_statement, bind at 1, try_ at 1. pose proof (GetStatement_spec None x) as Hg. unfold result in Hg.
  destruct (GetStatement None x) as [[e|st] x1].
  { destruct Hg as [Hd Hb]. destruct (finish_code (A := Value * Z) e None x1) as (e' & x2 & -> & Hk).
    right. destruct Hk as [[-> Hc] | [Hd2 Hb2]]; (split; [etrans; eauto with exec | done]). }
  destruct Hg as [Hc1 _]. unfold bind at 1, try_ at 1.
  set (body := bind _ _).
  assert (Hbody : match body x1 with
    | (inr (v, _), x') => calm x1 x' /\ find (table (db x1)) k = Some v
    | (inl e, x') => e = - E_NOT_FOUND /\ calm x1 x' /\ find (table (db x1)) k = None \/ damaged x1 x' /\ bad e
    end).
  { unfold body, bind. pose proof (BindBlobToStatement_spec st k false x1) as Hb. unfold result in Hb.
    destruct (BindBlobToStatement st k false x1) as [[e|[]] x2]; [by right |]. destruct Hb as [Hc2 _].
    unfold gets. pose proof (step_read_spec st (isMemDb_ x2) (fun t => (fun kv : Key * SyncRow => (r_value kv.2, r_w_timestamp kv.2))
          <$> head (filter (fun kv : Key * SyncRow => r_key kv.2 = k) (map_to_list t))) x2) as Hs. unfold result in Hs.
    unfold SELECT_SYNC_VALUE_WTIMESTAMP. destruct (StepWithRetry _ _ _ x2) as [[e|a] x3].
    - right. destruct Hs. split; [etrans; eauto with exec | done].
    - destruct Hs as [Hc3 ->]. rewrite (qu_db _ _ (ca_quiet _ _ Hc2)). unfold find.
      destruct (head _) as [[h row]|]; cbn; [split; [by etrans | done] | left; split_and!; [done | by etrans | done]]. }
  rewrite (qu_db _ _ (ca_quiet _ _ Hc1)) in Hbody. destruct (body x1) as [[e|[v w]] x2].
  - destruct (finish_code (A := Value * Z) e st x2) as (e' & x3 & -> & Hk).
    destruct Hbody as [(-> & Hc2 & Hf) | [Hd Hb]].
    + assert (calm x x2) by (by etrans). destruct Hk as [[-> Hc3] | [Hd3 Hb3]]; [left | right].
      * split_and!; [done | by etrans | done].
      * split; [etrans; eauto with exec | done].
    + right. assert (damaged x x2) by (etrans; eauto with exec).
      destruct Hk as [[-> Hc] | [Hd2 Hb2]]; (split; [etrans; eauto with exec | done]).
  - destruct Hbody as [Hc2 Hf]. assert (Hc : calm x x2) by (by etrans).
    pose proof (finish_spec (inr (v, w)) st x2 (fun a x' => a = (v, w) /\ calm x2 x') ltac:(by intros)) as Hfin.
    unfold result in Hfin. destruct (finish (inr (v, w)) st x2) as [[e|a] x3].
    + right. destruct Hfin. split; [etrans; eauto with exec | done].
    + destruct Hfin as [-> Hc3]. split; [by etrans | done].
Qed.

Lemma read_ok_found m k v : m k = Some v -> read_ok m k E_OK v = true.
Proof. intros E. unfold read_ok. cbn. by apply bool_decide_eq_true. Qed.

Lemma read_ok_missing m k : m k = None -> read_ok m k (- E_NOT_FOUND) [] = true.
Proof. intros E. unfold read_ok. cbn. by apply bool_decide_eq_true. Qed.

Lemma read_ok_error m k e : e <> E_OK -> e <> - E_NOT_FOUND -> read_ok m k e [] = true.
Proof. intros H1' H2'. unfold read_ok. by rewrite (proj2 (Z.eqb_neq _ _) H1'), (proj2 (Z.eqb_neq _ _) H2'). Qed.

(** * Every call *)

Lemma checked_keys {A} (l : list A) (k : A -> Key) (v : A -> Value) :
  first_error ((fun a => CheckDataStatus (k a) (v a)) <$> l) = E_OK -> Forall (fun a => k a <> []) l.
Proof.
  intros Hf%first_error_ok. apply Forall_fmap in Hf. eapply Forall_impl; [exact Hf |].
  intros a Ha E. unfold compose in Ha. by rewrite E in Ha.
Qed.

Lemma entries_valid entries : CheckSyncEntriesValid entries = E_OK ->
  NaturalStore.size entries <= MAX_TRANSACTION_ENTRY_SIZE /\ saves ((fun e : Entry => (e.1, Some (stored_value e.2))) <$> entries)
    (fun s => SaveSyncEntries s entries).
Proof.
  unfold CheckSyncEntriesValid. destruct (MAX_BATCH_SIZE <? NaturalStore.size entries) eqn:Es; [done |]. apply Z.ltb_ge in Es.
  destruct (negb write_permission); [done |]. intros Hk%checked_keys. split; [done |].
  split; [by apply SaveSyncEntries_taints |].
  intros base s t Hin Hck Hfr Hlast. rewrite length_fmap in Hlast. by apply SaveSyncEntries_spec.
Qed.

Lemma keys_valid keys : CheckSyncKeysValid keys = E_OK ->
  NaturalStore.size keys <= MAX_TRANSACTION_ENTRY_SIZE /\ saves ((fun k => (k, None)) <$> keys) (fun s => DeleteSyncEntries s keys).
Proof.
  unfold CheckSyncKeysValid. destruct (MAX_BATCH_SIZE <? NaturalStore.size keys) eqn:Es; [done |]. apply Z.ltb_ge in Es.
  destruct (negb write_permission); [done |]. intros _. split; [done |].
  split; [by apply DeleteSyncEntries_taints |].
  intros base s t Hin Hck Hfr Hlast. rewrite length_fmap in Hlast. by apply DeleteSyncEntries_spec.
Qed.

(** A status that a handle is not refused with. *)
Definition plausible (c : Call) : Prop := match c with CGet reader _ => reader <> - E_NOT_FOUND | _ => True end.

(** How many time stamps a call takes at most. *)
Definition cost (c : Call) : nat := length (writes_of c).

(** The answer is allowed, and leads to a phase of which the store is a model. *)
Definition answered s (p : Phase) (c : Call) (e : Z) (v : Value) (s' : Store) : Prop :=
  exists p', next p c e v p' /\ models s' p' /\ (ticks s' <= ticks s + cost c)%nat.

Definition is_write (c : Call) : bool := match c with CPut _ _ | CDelete _ _ => true | _ => false end.

(** A batch that is checked first. *)
Lemma write_models s p c env n check save : is_write c = true -> models s p ->
  (ticks s + cost c <= last)%nat ->
  (check = E_OK -> n <= MAX_TRANSACTION_ENTRY_SIZE /\ saves (writes_of c) save) ->
  let '(e, s') := if negb (check =? E_OK) then (check, s) else batch s env n save in answered s p c e [] s'.
Proof.
  intros Hc Hm Hlast Hok. unfold answered, cost in *.
  assert (Hnext : forall e p', next p c e [] p' <-> match p with
    | Idle m => p' = Idle (if e =? E_OK then after (writes_of c) m else m)
    | Busy m w => p' = if e =? E_OK then Busy m (after (writes_of c) w) else Failed m w (writes_of c)
    | Failed m w ws => exists m', mixes m (writes_of c) m' /\ p' = Failed m' w (ws ++ writes_of c)
    end) by (intros e p'; by destruct p, c).
  destruct (check =? E_OK) eqn:Ec; cbn [negb].
  - apply Z.eqb_eq in Ec. destruct (Hok Ec) as [Hn Hs]. destruct p as [m|m w|m w ws].
    + pose proof (batch_idle m s env n save _ Hm Hs Hn Hlast) as Hb.
      destruct (batch s env n save) as [e s']. destruct Hb. eexists. rewrite Hnext. done.
    + pose proof (batch_busy m w s env n save _ Hm Hs Hlast) as Hb.
      destruct (batch s env n save) as [e s']. destruct Hb. eexists. rewrite Hnext. done.
    + pose proof (batch_failed m w ws s env n save _ Hm Hs Hlast) as Hb.
      destruct (batch s env n save) as [e s']. destruct Hb as (m' & ? & ? & ?). eexists. rewrite Hnext. eauto.
  - destruct p as [m|m w|m w ws].
    + exists (Idle m). rewrite Hnext, Ec. split_and!; [done | done | lia].
    + exists (Failed m w (writes_of c)). rewrite Hnext, Ec. split_and!; [done | by apply busy_failed | lia].
    + exists (Failed m w (ws ++ writes_of c)). rewrite Hnext. split_and!; [exists m; split; [by left | done] | | lia].
      destruct Hm as [base Hfa]. exists base. eapply failed_mono; [| | exact Hfa]; set_solver.
Qed.

Lemma get_idle m s reader k : models s (Idle m) -> reader <> - E_NOT_FOUND ->
  let '(r, s') := Get s reader k in
  read_ok m k (code_of r) (match r with inr v => v | inl _ => [] end) = true /\ models s' (Idle m) /\ ticks s' = ticks s.
Proof.
  intros Hm Hr. pose proof Hm as (base & [Hdb Hh] & [Hwf Hb] & Hck & Hl). unfold Get.
  destruct ((MAX_KEY_SIZE <? NaturalStore.size k) || is_empty k) eqn:Ek; [by split |].
  apply orb_false_iff in Ek as [_ Ek]. rewrite Hh.
  destruct (reader =? E_OK) eqn:Er; cbn [negb].
  2: { apply Z.eqb_neq in Er. split; [by apply read_ok_error | done]. }
  pose proof (GetKvData_spec k (set_db (exec s) (mkDatabase (committed (db (exec s))) None))) as Hg.
  destruct (GetKvData k _) as [r x']. split_and!; [| | done].
  - cbn in Hg. rewrite Hdb, find_live, Hl in Hg; [| done | by intros ->].
    destruct r as [e|[v w]]; cbn.
    + destruct Hg as [(-> & _ & ?) | (_ & ? & ? & _)]; [by apply read_ok_missing | by apply read_ok_error].
    + apply read_ok_found, Hg.
  - exists base. split_and!; [by split | by split | done | done].
Qed.

(** A read keeps a failed transaction as it is, or loses it. *)
Lemma get_keeps m w ws s reader k : models s (Failed m w ws) ->
  models (Get s reader k).2 (Failed m w ws) /\ ticks (Get s reader k).2 = ticks s.
Proof.
  intros [base Hfa]. pose proof Hfa as [Hdb Hh Hck]. unfold Get. destruct (_ || _); [split; [by exists base | done] |].
  rewrite Hh. unfold run.
  destruct (holds_GetKvData _ (tainted_lost base m w [] ws (clock (ticks s))) k
    (set_committed (exec s) (committedData (exec s))) Hdb) as [HI _].
  destruct (GetKvData k _) as [r x']. split; [| done]. by exists base.
Qed.

Lemma get_busy m w s reader k : models s (Busy m w) ->
  let '(r, s') := Get s reader k in
  read_ok w k (code_of r) (match r with inr v => v | inl _ => [] end) = true
  /\ models s' (if (code_of r =? E_OK) || (code_of r =? - E_NOT_FOUND) then Busy m w else Failed m w [])
  /\ ticks s' = ticks s.
Proof.
  intros Hm. pose proof (get_keeps m w [] s reader k (busy_failed m w s [] Hm)) as [Hfl Htk].
  pose proof Hm as (base & t & [Hdb Hh] & Hfb & [Hwf Hb] & Hck & Hlb & Hlt). unfold Get in *.
  destruct ((MAX_KEY_SIZE <? NaturalStore.size k) || is_empty k) eqn:Ek;
    [split_and!; [done | by apply busy_failed | done] |].
  apply orb_false_iff in Ek as [_ Ek]. rewrite Hh in *. unfold run in *.
  pose proof (GetKvData_spec k (set_committed (exec s) (committedData (exec s)))) as Hg.
  destruct (GetKvData k _) as [r x']. cbn in Hg. rewrite Hdb in Hg. cbn in Hg. rewrite find_live, Hlt in Hg; [| done | by intros ->].
  assert (Hbusy : calm (set_committed (exec s) (committedData (exec s))) x' ->
    models (set_exec s (set_committed x' None)) (Busy m w)).
  { intros [[_ E _] _]. cbn in E. exists base, t.
    split_and!; [split; [cbn; by rewrite E | done] | by apply (fresh_same s) | by split | done..]. }
  destruct r as [e|[v w']]; cbn.
  - destruct Hg as [(-> & Hc & ?) | ([_ Hc _] & He & He' & _)].
    + split_and!; [by apply read_ok_missing | by apply Hbusy | done].
    + split_and!; [by apply read_ok_error | | done]. by rewrite (proj2 (Z.eqb_neq _ _) He), (proj2 (Z.eqb_neq _ _) He').
  - destruct Hg. split_and!; [by apply read_ok_found | by apply Hbusy | done].
Qed.

(** A read after a failure: from the transaction, or from what is committed. *)
Lemma get_failed m w ws s reader k : models s (Failed m w ws) ->
  let '(r, s') := Get s reader k in
  exists r', (r' = m \/ mixes w ws r')
    /\ read_ok r' k (code_of r) (match r with inr v => v | inl _ => [] end) = true.
Proof.
  intros [base [[Hc Hp] Hh Hck]]. unfold Get.
  destruct ((MAX_KEY_SIZE <? NaturalStore.size k) || is_empty k) eqn:Ek; [exists m; split; [by left | done] |].
  apply orb_false_iff in Ek as [_ Ek]. rewrite Hh. unfold run.
  pose proof (GetKvData_spec k (set_committed (exec s) (committedData (exec s)))) as Hg.
  destruct (GetKvData k _) as [r x']. cbn [db set_committed] in Hg.
  assert (Hread : exists r', (r' = m \/ mixes w ws r') /\ find (table (db (exec s))) k = r' k).
  { unfold table. destruct (pending (db (exec s))) as [t|]; cbn [default].
    - destruct (Hp t eq_refl) as [[Hwf _ Hmx] _]. exists (live t). split; [by right |]. apply find_live; [done | by intros ->].
    - exists m. split; [by left |]. rewrite find_live; [by eapply partly_exact | apply Hc | by intros ->]. }
  destruct Hread as (r' & Hr' & Hf). rewrite Hf in Hg. exists r'. split; [done |].
  destruct r as [e|[v w']]; cbn.
  - destruct Hg as [(-> & _ & ?) | (_ & He & He' & _)]; [by apply read_ok_missing | by apply read_ok_error].
  - destruct Hg. by apply read_ok_found.
Qed.

Lemma models_flag s p b : models s p -> models (set_exe_flag s b) p.
Proof.
  assert (Hf : forall t, fresh s t -> fresh (set_exe_flag s b) t) by (intros t; by apply fresh_same).
  destruct p as [m|m w|m w ws]; [intros (base & [] & ? & Hck & ?) | intros (base & t & [] & ? & ? & Hck & ? & ?)
    | intros (base & [])].
  - exists base. split_and!; [by split | by apply Hf | done..].
  - exists base, t. split_and!; [by split | by apply Hf | by apply Hf | done..].
  - exists base. by split.
Qed.

Lemma models_handle s p : models s p -> writeHandle_ (conn s) = match p with Idle _ => false | _ => true end.
Proof. by destruct p; [intros (? & [] & _) | intros (? & ? & [] & _) | intros (? & [])]. Qed.

(** An answer that does not take a time stamp. *)
Lemma answered_at s p c e v s' p' : next p c e v p' -> models s' p' -> ticks s' = ticks s -> answered s p c e v s'.
Proof. intros Hn Hm Ht. exists p'. split_and!; [done | done | lia]. Qed.

Lemma start_models s p env : models s p ->
  let '(e, s') := cn_StartTransaction s env in answered s p (CStart env) e [] s'.
Proof.
  intros Hm. unfold cn_StartTransaction. rewrite (models_handle s p Hm).
  destruct p as [m|m w|m w ws]; [| by eapply answered_at | by eapply answered_at].
  pose proof Hm as (base & Hid & Hfr & Hck & Hl).
  pose proof (StartTransactionNormally_spec base s env Hid) as Hst.
  destruct (StartTransactionNormally s env) as [e s1]. destruct Hst as (Ht1 & Hm1 & Hst).
  assert (Hck1 : clocked s1) by (unfold clocked in *; by rewrite Hm1, Ht1).
  assert (Hfr1 : fresh s1 base) by (by apply (fresh_same s)).
  destruct Hst as [(-> & Hin1 & _) | [He Hid1]].
  - eapply answered_at; [reflexivity | | done]. cbn [Z.eqb E_OK]. apply models_flag. exists base, base. done.
  - rewrite (proj2 (Z.eqb_neq _ _) He). eapply answered_at; [cbn; by rewrite (proj2 (Z.eqb_neq _ _) He) | | done].
    exists base. done.
Qed.

(** What a commit leads to, from what the transaction has and what is committed. *)
Lemma commit_leads s p e s' t : models s p -> idle t s' -> ticks s' = ticks s ->
  cn_currentMaxTimestamp_ (conn s') = cn_currentMaxTimestamp_ (conn s) ->
  (if e =? E_OK then pending (db (exec s)) = Some t else t = committed (db (exec s))) ->
  match p with Idle _ => True | _ => exists m', next p CCommit e [] (Idle m') /\ models s' (Idle m') end.
Proof.
  intros Hm Hid Ht Hmx Et.
  assert (Hck : clocked s -> clocked s') by (unfold clocked; by rewrite Hmx, Ht).
  destruct p as [m|m w|m w ws]; [done | |].
  - destruct Hm as (base & t0 & Hin & Hfb & Hft & Hck0 & Hlb & Hlt). rewrite (in_db _ _ _ Hin) in Et. cbn in Et.
    eexists. split; [reflexivity |]. exists t. destruct (e =? E_OK); [injection Et as -> | subst t];
      (split_and!; [done | by apply (fresh_same s) | by apply Hck | done]).
  - destruct Hm as [base [[Hc Hp] Hh Hck0]]. destruct (e =? E_OK) eqn:Ee.
    + destruct (Hp t Et) as [Hpt _]. exists (live t). split; [exists (live t); rewrite Ee; split; [apply Hpt | done] |].
      exists t. split_and!; [done | apply (fresh_same s); [done | by eapply partly_fresh] | by apply Hck | done].
    + exists m. split; [exists m; by rewrite Ee |]. exists t. subst t.
      split_and!; [done | apply (fresh_same s); [done | by eapply partly_fresh] | by apply Hck | by eapply partly_exact].
Qed.

Lemma commit_models s p : models s p -> let '(e, s') := cn_Commit s in answered s p CCommit e [] s'.
Proof.
  intros Hm. unfold cn_Commit. rewrite (models_handle s p Hm).
  pose proof (CommitInner_spec s) as Hc. destruct p as [m|m w|m w ws]; cbn [negb]; [by eapply answered_at | |];
    destruct (CommitInner s) as [e s']; destruct Hc as (Ht & Hmx & t & Hid & Et);
    destruct (commit_leads s _ e s' t Hm Hid Ht Hmx Et) as (m' & Hn & Hmo);
    (eapply answered_at; [exact Hn | destruct (e =? E_OK); [by apply models_flag | done] | by destruct (e =? E_OK)]).
Qed.

Lemma rollback_failed m w ws s : models s (Failed m w ws) -> exists e s', cn_RollBack s = (e, s') /\ models s' (Idle m)
  /\ ticks s' = ticks s.
Proof.
  intros [base [[Hc Hp] Hh Hck]]. unfold cn_RollBack. rewrite Hh. cbn [negb].
  pose proof (RollbackInner_spec (committed (db (exec s))) s ltac:(by split)) as Hr.
  destruct (RollbackInner s) as [e s']. destruct Hr as (Ht & Hmx & Hid).
  assert (Hm : models s' (Idle m)).
  { exists (committed (db (exec s))). split_and!; [done | apply (fresh_same s); [done | by eapply partly_fresh] | |
      by eapply partly_exact]. unfold clocked. rewrite Hmx. apply clock_nonneg. }
  do 2 eexists. split; [reflexivity |]. destruct (e =? E_OK); [split; [by apply models_flag | done] | done].
Qed.

Lemma rollback_models s p : models s p -> let '(e, s') := cn_RollBack s in answered s p CRollBack e [] s'.
Proof.
  intros Hm. destruct p as [m|m w|m w ws].
  - unfold cn_RollBack. rewrite (models_handle s _ Hm). by eapply answered_at.
  - apply (busy_failed m w s []), rollback_failed in Hm as (e & s' & -> & ? & ?). by eapply answered_at.
  - apply rollback_failed in Hm as (e & s' & -> & ? & ?). by eapply answered_at.
Qed.

Lemma read_models s p reader k : models s p -> reader <> - E_NOT_FOUND ->
  let '(r, s') := Get s reader k in
  answered s p (CGet reader k) (code_of r) (match r with inr v => v | inl _ => [] end) s'.
Proof.
  intros Hm Hp. destruct p as [m|m w|m w ws].
  - pose proof (get_idle m s reader k Hm Hp) as Hg. destruct (Get s reader k) as [r s']. destruct Hg as (Hr & Hg & Ht).
    by eapply answered_at.
  - pose proof (get_busy m w s reader k Hm) as Hg. destruct (Get s reader k) as [r s']. destruct Hg as (Hr & Hg & Ht).
    by eapply answered_at.
  - pose proof (get_failed m w ws s reader k Hm) as Hg. pose proof (get_keeps m w ws s reader k Hm) as [Hk Ht].
    destruct (Get s reader k) as [r s']. by eapply answered_at.
Qed.

Lemma call_models s p c : models s p -> plausible c -> (ticks s + cost c <= last)%nat ->
  let '(e, v, s') := call s c in answered s p c e v s'.
Proof.
  intros Hm Hp Hlast. destruct c as [env entries|env keys|reader k|env| |]; cbn [call].
  - pose proof (write_models s p (CPut env entries) env (NaturalStore.size entries) (CheckSyncEntriesValid entries)
      (fun s => SaveSyncEntries s entries) eq_refl Hm Hlast (entries_valid entries)) as Hw.
    unfold PutBatch. cbv zeta. by destruct (if negb _ then _ else _).
  - pose proof (write_models s p (CDelete env keys) env (NaturalStore.size keys) (CheckSyncKeysValid keys)
      (fun s => DeleteSyncEntries s keys) eq_refl Hm Hlast (keys_valid keys)) as Hw.
    unfold DeleteBatch. cbv zeta. by destruct (if negb _ then _ else _).
  - pose proof (read_models s p reader k Hm Hp). by destruct (Get s reader k).
  - pose proof (start_models s p env Hm). by destruct (cn_StartTransaction s env).
  - pose proof (commit_models s p Hm). by destruct (cn_Commit s).
  - pose proof (rollback_models s p Hm). by destruct (cn_RollBack s).
Qed.

Definition total (cs : list Call) : nat := sum_list_with cost cs.

Lemma history_models cs : forall s p, models s p -> Forall plausible cs -> (ticks s + total cs <= last)%nat ->
  let '(answers, s') := history s cs in exists p', allowed p answers p' /\ models s' p'.
Proof.
  induction cs as [|c cs IH]; intros s p Hm Hp Hlast; cbn [history]; [by eexists |]. apply Forall_cons in Hp as [Hc Hp].
  cbn [total sum_list_with] in *. pose proof (call_models s p c Hm Hc ltac:(lia)) as Hs.
  destruct (call s c) as [[e v] s1]. destruct Hs as (p' & Hn & Hm' & Ht).
  specialize (IH s1 p' Hm' Hp ltac:(unfold total; lia)). destruct (history s1 cs) as [answers s'].
  destruct IH as (q & Ha & Hq). exists q. split; [| done]. by exists p'.
Qed.

End Store.

Section Claim.
Context `{Sqlite} `{ValueHash} `{StoreConfig}
        (hash_total : forall v, is_Some (value_hash v))
        (hash_inj : forall v w h, value_hash v = Some h -> value_hash w = Some h -> v = w)
        (clock_nonneg : forall n, 0 <= clock n)
        (clock_increases : forall n, clock n < clock (S n)).

(** What the data base has in a phase: the committed rows, and what the transaction sees. *)
Definition shows (s : Store) (p : Phase) : Prop :=
  match p with
  | Idle m => forall k, live (committed (db (exec s))) k = m k
  | Busy m w => forall k, live (committed (db (exec s))) k = m k /\ live (table (db (exec s))) k = w k
  | Failed m w ws => (forall k, live (committed (db (exec s))) k = m k)
      /\ ((forall k, live (table (db (exec s))) k = m k) \/ mixes w ws (live (table (db (exec s)))))
  end.

(** C30: Whatever the application does and whatever fails in SQLite, the answers of a
    connection are those of a finite map with transactions ([next]), and the data base has
    the data of the map ([shows]): a batch outside of a transaction is written as a whole or
    not at all, inside of one it is seen by the transaction only, a commit makes everything
    visible or nothing, a roll back nothing, and a read finds the last value written. After a
    failure inside of a transaction, a roll back still gives back what is committed, no key
    ever has a value that was not written to it, a commit that succeeds keeps everything that
    was written before the failure; but of the writes called for since the failure, any may
    be in the transaction or committed at once, and any may be missing. (Keys have different
    digests, every time stamp is later than those before and has 64 bits, and no read handle
    is refused with the code of a missing key.) *)
Theorem connection_refines (s : Store) cs :
  writeHandle_ (conn s) = false -> table_wf (committed (db (exec s))) ->
  below (clock (ticks s)) (committed (db (exec s))) -> cn_currentMaxTimestamp_ (conn s) <= clock (ticks s) ->
  Forall plausible cs -> clock (ticks s + total cs)%nat <= 2 ^ 64 ->
  let '(answers, s') := history s cs in
  exists p, allowed (Idle (live (committed (db (exec s))))) answers p /\ shows s' p.
Proof.
  intros Hh Hwf Hb Hck Hp Hr.
  pose proof (history_models hash_total hash_inj clock_nonneg clock_increases _ Hr cs s
    (Idle (live (committed (db (exec s)))))) as Hm.
  destruct (history s cs) as [answers s']. destruct Hm as (p & Ha & Hm); [| done | done |].
  { exists (committed (db (exec s))). by split_and!. }
  exists p. split; [done |]. destruct p as [m|m w|m w ws]; cbn.
  - destruct Hm as (base & [-> _] & _ & _ & Hl). done.
  - destruct Hm as (base & t & [-> _] & _ & _ & _ & Hl & Hlt). done.
  - destruct Hm as [base [[Hc Hpd] _ _]]. pose proof (partly_exact _ _ _ Hc) as Hl. split; [done |].
    unfold table. destruct (pending (db (exec s'))) as [t|]; cbn [default]; [right; by apply (Hpd t eq_refl) | by left].
Qed.

End Claim.

(** A transaction in which the disk is full at the second of three batches, so that SQLite
    rolls it back; it is then rolled back by the application. *)
Definition disk_full : Sqlite :=
  {| sq_fault := fun n => if (n =? 45)%nat then Some (mkFault SQLITE_FULL false true) else None |}.

Definition full_calls : list Call :=
  let put k v := CPut Sample.ready [([k], [v])] in
  [put x61 x31; CStart Sample.ready; put x62 x32; put x63 x33; put x64 x34; CRollBack; CGet E_OK [x62]; CGet E_OK [x64]].

Lemma connection_refines_witness :
  let '(answers, s') := history (H := disk_full) (H0 := Sample.hash) (H1 := Sample.config) Sample.store full_calls in
  exists p, allowed (H0 := Sample.config) (Idle (live (H := Sample.hash) ∅)) answers p /\ shows (H0 := Sample.hash) s' p.
Proof.
  exact (connection_refines (H := disk_full) (H0 := Sample.hash) (H1 := Sample.config)
    ltac:(intros v; by eexists) ltac:(intros v w h [= <-] [= ->]; done) ltac:(intros n; cbn; lia)
    ltac:(intros n; cbn; lia) Sample.store full_calls eq_refl ltac:(by intros h row Hr) ltac:(by intros h row Hr) ltac:(cbn; lia)
    ltac:(repeat constructor; discriminate) ltac:(cbn; lia)).
Defined.

(** The answers: the second batch fails, the third one succeeds although the transaction is
    gone, the roll back fails, and the third batch is there. *)
Example full_disk_commits_at_once :
  (fun a : Call * Z * Value => a.1.2) <$> (history (H := disk_full) (H0 := Sample.hash) (H1 := Sample.config)
    Sample.store full_calls).1
  = [E_OK; E_OK; E_OK; - SQLITE_FULL; E_OK; - SQLITE_ERROR; - E_NOT_FOUND; E_OK].
Proof. vm_compute. reflexivity. Qed.
