(* ===== verification/SyncRead.v ===== *)
(** Model of the reading side of a store: the pages of data that the syncer sends
    ([GetSyncData] and [GetSyncDataNext] of [SQLiteSingleVerNaturalStore],
    storage/src/sqlite/sqlite_single_ver_natural_store.cpp, with
    sqlite_single_ver_storage_executor.cpp and [SQLiteSingleVerContinueToken],
    sqlite_single_ver_continue_token.cpp). *)

From S2P Require Import Prelude Memory Parcel CommTypes SyncStorage CommitNotify SqliteUtils StoreExecutor NaturalStore.
From Stdlib Require Import ZArith Lia.
From Stdlib Require Import Strings.Byte.
From stdpp Require Import base numbers list sorting gmap.

Open Scope Z_scope.
Open Scope exec_scope.

Definition INT64_MAX : Z := 2 ^ 63 - 1.

Record DataSizeSpecInfo := mkDataSizeSpecInfo {
  blockSize : Z;
  packetSize : Z
}.

(** * Statements *)

Abbreviation Row := (Key * SyncRow)%type.

Definition stamp_le (a b : Row) : Prop := r_timestamp a.2 <= r_timestamp b.2.

#[export] Instance stamp_le_dec : RelDecision stamp_le.
Proof. intros a b. unfold stamp_le. apply _. Defined.

(** [ORDER BY timestamp ASC]. *)
Definition by_stamp (rows : list Row) : list Row := merge_sort stamp_le rows.

(** [timestamp >= ? AND timestamp < ?], on signed integers. *)
Definition in_range (begin end_ : Z) (row : Row) : Prop :=
  to_signed 64 begin <= r_timestamp row.2 < to_signed 64 end_.

Definition SELECT_SYNC_ENTRIES (begin end_ : Z) (t : Table) : list Row :=
  by_stamp (filter (fun row => in_range begin end_ row /\ Z.land (r_flag row.2) 2 = 2) (map_to_list t)).

Definition SELECT_SYNC_DELETED_ENTRIES (begin end_ : Z) (t : Table) : list Row :=
  by_stamp (filter (fun row => in_range begin end_ row /\ Z.land (r_flag row.2) 3 = 3) (map_to_list t)).

Definition SELECT_SYNC_MODIFY (begin end_ : Z) (t : Table) : list Row :=
  by_stamp (filter (fun row => in_range begin end_ row /\ Z.land (r_flag row.2) 3 = 2) (map_to_list t)).

(** A query of a synchronization: the statuses of [GetQueryHelper] and
    [GetSyncDataQuerySql], the number of values that are bound, [IsQueryOnlyByKey], and the
    rows that it selects. *)
Record SyncQuery := mkSyncQuery {
  sq_helper : Z;
  sq_sql : Z;
  sq_binds : nat;
  sq_only_key : bool;
  sq_rows : Table -> list Row
}.

Definition SELECT_QUERY (q : SyncQuery) (begin end_ : Z) (t : Table) : list Row :=
  by_stamp (filter (in_range begin end_) (sq_rows q t)).

(** * Reading rows *)

(** The size of an item in a packet. *)
Definition GetDataItemSerialSize (item : DataItem) (appendLen : Z) : Z :=
  let devLength := Z.max 40 (zlen (origDev item)) in
  u64 (GetUInt64Len * 3 + GetUInt32Len + GetVectorCharLen (key item) + GetVectorCharLen (value item) + devLength + appendLen).

(** The item of a row; a deleted row is sent with its hash key. *)
Definition GetDataItemForSync (row : Row) : DataItem :=
  let f := Z.land (u64 (r_flag row.2)) (Z.lnot LOCAL_FLAG) in
  mkDataItem (if is_delete f then row.1 else r_key row.2) (r_value row.2) (u64 (r_timestamp row.2)) f
    (r_ori_device row.2) (u64 (r_w_timestamp row.2)) [] false [].

(** The packet cannot hold the item. *)
Definition packet_full (info : DataSizeSpecInfo) (total : Z) (items : list DataItem) : bool :=
  (blockSize info <? total) && negb (is_empty items) || (packetSize info <=? zlen items).

Section Executor.
Context `{Sqlite} `{ValueHash}.

Definition PrepareForSyncDataByTime : M Stmt :=
  st <- GetStatement None;;
  r <- try_ (BindInt64ToStatement;; BindInt64ToStatement);;
  match r with
  | inl e => '(_, e) <- ResetStatement st true e;; e <- CheckCorruptedStatus e;; throw e
  | inr _ => ret st
  end.

(** The rows of the statement one after the other: the items and the error code. *)
Fixpoint GetSyncDataItems (st : Stmt) (info : DataSizeSpecInfo) (appendLength : Z) (rows : list Row)
    (dataTotalSize : Z) (dataItems : list DataItem) : M (list DataItem * Z) :=
  r <- try_ (step_select st);;
  match r, rows with
  | inl e, _ => ret (dataItems, e)
  | inr _, [] => ret (dataItems, - E_FINISHED)
  | inr _, row :: rows =>
    let item := GetDataItemForSync row in
    let total := u64 (dataTotalSize + GetDataItemSerialSize item appendLength) in
    if packet_full info total dataItems then ret (dataItems, - E_UNFINISHED)
    else GetSyncDataItems st info appendLength rows total (dataItems ++ [item])
  end.

(** [GetSyncDataByTimestamp] and [GetDeletedSyncDataByTimestamp]: [select] are the rows. *)
Definition get_by_stamp (select : Table -> list Row) (info : DataSizeSpecInfo) (appendLength : Z)
    (dataItems : list DataItem) : M (list DataItem * Z) :=
  r <- try_ PrepareForSyncDataByTime;;
  match r with
  | inl e => ret (dataItems, e)
  | inr st =>
    rows <- gets (fun x => select (table (db x)));;
    '(dataItems, errCode) <- GetSyncDataItems st info appendLength rows 0 dataItems;;
    '(_, errCode) <- ResetStatement st true errCode;;
    errCode <- CheckCorruptedStatus errCode;;
    ret (dataItems, errCode)
  end.

Definition GetSyncDataByTimestamp (begin end_ : Z) : DataSizeSpecInfo -> Z -> list DataItem -> M (list DataItem * Z) :=
  get_by_stamp (SELECT_SYNC_ENTRIES begin end_).

Definition GetDeletedSyncDataByTimestamp (begin end_ : Z)
    : DataSizeSpecInfo -> Z -> list DataItem -> M (list DataItem * Z) :=
  get_by_stamp (SELECT_SYNC_DELETED_ENTRIES begin end_).

(** ** Queries *)

Definition AppendDataItem (info : DataSizeSpecInfo) (appendLength : Z) (item : DataItem) (dataTotalSize : Z)
    (dataItems : list DataItem) : Z * Z * list DataItem :=
  let total := u64 (dataTotalSize + GetDataItemSerialSize item appendLength) in
  if packet_full info total dataItems then (- E_UNFINISHED, total, dataItems)
  else (E_OK, total, dataItems ++ [item]).

(** [n] values are bound; if that fails the statement is finalized. *)
Definition bind_or_reset (st : Stmt) (n : nat) : M (Stmt * Z) :=
  r <- try_ (bind_values n);;
  match r with
  | inl e => ResetStatement st true e
  | inr _ => ret (st, E_OK)
  end.

Definition GetFullDataStatement : M (Stmt * Z) :=
  r <- try_ (GetStatement None);;
  match r with
  | inl e => ret (None, e)
  | inr st => bind_or_reset st 2
  end.

(** [GetQueryDataStatement] with [GetQuerySyncStatement] of the helper. *)
Definition GetQueryDataStatement (q : SyncQuery) : M (Stmt * Z) :=
  if negb (sq_helper q =? E_OK) then ret (None, sq_helper q)
  else if negb (sq_sql q =? E_OK) then ret (None, - E_INVALID_QUERY_FORMAT)
  else
    r <- try_ (GetStatement None);;
    match r with
    | inl _ => ret (None, - E_INVALID_QUERY_FORMAT)
    | inr st => bind_or_reset st (sq_binds q)
    end.

(** An item that is not selected: its hash key, so that the other device forgets it. *)
Definition missing_item (item : DataItem) : DataItem :=
  mkDataItem (default (key item) (value_hash (key item))) [] (timestamp item)
    (Z.lor (flag item) REMOTE_DEVICE_DATA_MISS_QUERY) (origDev item) (writeTimestamp item) [] false [].

(** How the inner loop ends: at the row that matches, at the end of the rows, or with an
    error. *)
Inductive FullEnd :=
  | Matched (rows : list Row) (total : Z) (items : list DataItem)
  | FullFinished (total : Z) (items : list DataItem)
  | Stopped (items : list DataItem) (errCode : Z).

Fixpoint full_loop (st : Stmt) (info : DataSizeSpecInfo) (appendLength : Z) (matchItem : option DataItem)
    (rows : list Row) (total : Z) (items : list DataItem) : M FullEnd :=
  r <- try_ (step_select st);;
  match r, rows with
  | inl e, _ => ret (Stopped items e)
  | inr _, [] => ret (FullFinished total items)
  | inr _, row :: rows =>
    let fullItem := GetDataItemForSync row in
    let '(hit, item) := match matchItem with
                        | Some m => if bool_decide (key m = key fullItem) then (true, m) else (false, missing_item fullItem)
                        | None => (false, missing_item fullItem)
                        end in
    let '(errCode, total, items) := AppendDataItem info appendLength item total items in
    if errCode =? - E_UNFINISHED then ret (Stopped items errCode)
    else if hit : bool then ret (Matched rows total items)
    else full_loop st info appendLength matchItem rows total items
  end.

(** The outer loop; [full] are the rows left, or [None] after their end. *)
Fixpoint query_loop (fullStmt queryStmt : Stmt) (info : DataSizeSpecInfo) (appendLength : Z) (rows : list Row)
    (full : option (list Row)) (total : Z) (items : list DataItem) : M (list DataItem * Z) :=
  r <- try_ (step_select queryStmt);;
  match r with
  | inl e => ret (items, e)
  | inr _ =>
    let matchItem := GetDataItemForSync <$> head rows in
    r <- (match full with
          | None => ret (FullFinished total items)
          | Some full => full_loop fullStmt info appendLength matchItem full total items
          end);;
    match r, rows with
    | Stopped items e, _ => ret (items, e)
    | Matched full total items, _ :: rows =>
      query_loop fullStmt queryStmt info appendLength rows (Some full) total items
    | FullFinished total items, _ :: rows => query_loop fullStmt queryStmt info appendLength rows None total items
    | FullFinished _ items, [] | Matched _ _ items, [] => ret (items, - E_FINISHED)
    end
  end.

Definition GetSyncDataWithQuery (q : SyncQuery) (begin end_ : Z) (info : DataSizeSpecInfo) (appendLength : Z)
    (dataItems : list DataItem) : M (list DataItem * Z) :=
  '(queryStmt, errCode) <- GetQueryDataStatement q;;
  '(fullStmt, r) <- (
    if negb (errCode =? E_OK) then ret (None, (dataItems, errCode))
    else
      rows <- gets (fun x => SELECT_QUERY q begin end_ (table (db x)));;
      if sq_only_key q then
        r <- GetSyncDataItems queryStmt info appendLength rows 0 dataItems;; ret (None, r)
      else
        '(fullStmt, errCode) <- GetFullDataStatement;;
        if negb (errCode =? E_OK) then ret (fullStmt, (dataItems, errCode))
        else
          full <- gets (fun x => SELECT_SYNC_MODIFY begin end_ (table (db x)));;
          r <- query_loop fullStmt queryStmt info appendLength rows (Some full) 0 dataItems;;
          ret (fullStmt, r));;
  let '(dataItems, errCode) := r in
  '(_, errCode) <- ResetStatement fullStmt true errCode;;
  '(_, errCode) <- ResetStatement queryStmt true errCode;;
  errCode <- CheckCorruptedStatus errCode;;
  ret (dataItems, errCode).

End Executor.

(** * Tokens *)

Abbreviation TimeRanges := (list (DeviceID * (Z * Z))).

(** [SQLiteSingleVerContinueToken]; the ranges are ordered by device. *)
Record ContinueToken := mkContinueToken {
  queryObject_ : option SyncQuery;
  timeRanges_ : TimeRanges;
  deleteTimeRanges_ : TimeRanges
}.

(** [SyncTimeRange]. *)
Record SyncTimeRange := mkSyncTimeRange {
  beginTime : Z;
  deleteBeginTime : Z;
  endTime : Z;
  deleteEndTime : Z
}.

Implicit Types token : ContinueToken.

Definition newToken (begin end_ : Z) : ContinueToken := mkContinueToken None [([], (begin, end_))] [].

Definition newQueryToken (r : SyncTimeRange) (q : SyncQuery) : ContinueToken :=
  mkContinueToken (Some q) [([], (beginTime r, endTime r))] [([], (deleteBeginTime r, deleteEndTime r))].

Definition GetBeginTimestamp (ranges : TimeRanges) : Z := match ranges with [] => 0 | (_, (b, _)) :: _ => b end.
Definition GetEndTimestamp (ranges : TimeRanges) : Z := match ranges with [] => INT64_MAX | (_, (_, e)) :: _ => e end.

(** The device is looked up, those before it are removed. *)
Fixpoint drop_devices (deviceID : DeviceID) (nextBeginTime : Z) (ranges : TimeRanges) : option TimeRanges :=
  match ranges with
  | [] => None
  | (d, (b, e)) :: rest =>
    if bool_decide (d = deviceID) then Some ((d, (nextBeginTime, e)) :: rest)
    else drop_devices deviceID nextBeginTime rest
  end.

Definition RemovePrevDevAndSetBeginTime (deviceID : DeviceID) (nextBeginTime : Z) (ranges : TimeRanges) : TimeRanges :=
  default ranges (drop_devices deviceID nextBeginTime ranges).

Definition SetNextBeginTime token (deviceID : DeviceID) (nextBeginTime : Z) : ContinueToken :=
  mkContinueToken (queryObject_ token) (RemovePrevDevAndSetBeginTime deviceID nextBeginTime (timeRanges_ token))
    (deleteTimeRanges_ token).

Definition SetDeletedNextBeginTime token (deviceID : DeviceID) (nextBeginTime : Z) : ContinueToken :=
  mkContinueToken (queryObject_ token) (timeRanges_ token)
    (RemovePrevDevAndSetBeginTime deviceID nextBeginTime (deleteTimeRanges_ token)).

Definition FinishGetQueryData token : ContinueToken := mkContinueToken (queryObject_ token) [] (deleteTimeRanges_ token).

(** The time from which the next page is read. *)
Definition next_begin (item : DataItem) : Z := Z.min (u64 (timestamp item + 1)) INT64_MAX.

Definition ProcessContinueToken (deviceID : DeviceID) (dataItems : list DataItem) (errCode : Z) token
    : Z * option ContinueToken :=
  if negb (errCode =? - E_UNFINISHED) then (errCode, None)
  else match last dataItems with
       | None => (- E_INTERNAL_ERROR, None)
       | Some item => (errCode, Some (SetNextBeginTime token deviceID (next_begin item)))
       end.

Definition ProcessContinueTokenForQuerySync (dataItems : list DataItem) (errCode : Z) token : Z * option ContinueToken :=
  if negb (errCode =? - E_UNFINISHED) then (errCode, None)
  else match last dataItems with
       | None => (- E_INTERNAL_ERROR, None)
       | Some item =>
         (errCode, Some (if has_flag (flag item) DELETE_FLAG
                         then SetDeletedNextBeginTime (FinishGetQueryData token) [] (next_begin item)
                         else SetNextBeginTime token [] (next_begin item)))
       end.

(** * The store *)

(** The status of [GetHandle] for reading, and whether the token and the entries can be
    allocated. *)
Record ReadEnv := mkReadEnv {
  re_handle : Z;
  re_token : bool;
  re_entries : bool
}.

Definition finished_ok (errCode : Z) : Z := if errCode =? - E_FINISHED then E_OK else errCode.
Definition page_ok (errCode : Z) : bool := (errCode =? E_OK) || (errCode =? - E_UNFINISHED).

(** Half of the block is used. (The source compares in [float], which is exact up to 2^24.) *)
Fixpoint reaches_threshold (info : DataSizeSpecInfo) (appendLen total : Z) (items : list DataItem) : bool :=
  match items with
  | [] => false
  | item :: items =>
    let total := u64 (total + GetDataItemSerialSize item appendLen) in
    if blockSize info <=? 2 * total then true else reaches_threshold info appendLen total items
  end.

Definition CanHoldDeletedData (dataItems : list DataItem) (info : DataSizeSpecInfo) (appendLen : Z) : bool :=
  negb (reaches_threshold info appendLen 0 dataItems).

Section Store.
Context `{Sqlite} `{ValueHash}.
Implicit Types s : Store.

(** A read handle sees what is committed. *)
Definition read {A} s (m : M A) : (Z + A) * Store :=
  let '(r, x) := m (set_db (exec s) (mkDatabase (committed (db (exec s))) None)) in
  (r, set_exec s (set_db x (db (exec s)))).

Definition items_of (r : Z + list DataItem * Z) : list DataItem * Z :=
  match r with inl e => ([], e) | inr p => p end.

(** The page after [token]. *)
Definition read_page s (env : ReadEnv) (info : DataSizeSpecInfo) token : Z * list DataItem * Store :=
  if negb (re_handle env =? E_OK) then (re_handle env, [], s)
  else
    let '(r, s) := read s (GetSyncDataByTimestamp (GetBeginTimestamp (timeRanges_ token)) (GetEndTimestamp (timeRanges_ token))
                             info GetAppendedLen []) in
    let '(items, errCode) := items_of r in
    (finished_ok errCode, items, s).

(** [GetSyncData]: the status, the entries, the token if there is more, and the store. *)
Definition GetSyncData s (env : ReadEnv) (begin end_ : Z) (info : DataSizeSpecInfo)
    : Z * list DataItem * option ContinueToken * Store :=
  if (end_ <=? begin) || (MAX_SYNC_BLOCK_SIZE <? blockSize info) then (- E_INVALID_ARGS, [], None, s)
  else if negb (re_token env) then (- E_OUT_OF_MEMORY, [], None, s)
  else
    let token := newToken begin end_ in
    let '(errCode, items, s) := read_page s env info token in
    let items := if page_ok errCode then items else [] in
    let '(errCode, token) := ProcessContinueToken [] items errCode token in
    if page_ok errCode && negb (is_empty items) && negb (re_entries env) then (- E_OUT_OF_MEMORY, [], token, s)
    else (errCode, if page_ok errCode then items else [], token, s).

(** [GetSyncDataNext] without a query. *)
Definition GetSyncDataNext_plain s (env : ReadEnv) token (info : DataSizeSpecInfo)
    : Z * list DataItem * option ContinueToken * Store :=
  if MAX_SYNC_BLOCK_SIZE <? blockSize info then (- E_INVALID_ARGS, [], Some token, s)
  else if negb (re_handle env =? E_OK) then (re_handle env, [], None, s)
  else
    let '(errCode, items, s) := read_page s env info token in
    let '(errCode, token) := ProcessContinueToken [] items errCode token in
    (errCode, items, token, s).

Definition GetSyncDataForQuerySync s (env : ReadEnv) token (info : DataSizeSpecInfo)
    : Z * list DataItem * option ContinueToken * Store :=
  let append := GetAppendedLen in
  let '(errCode, items, token, s) :=
    if negb (re_handle env =? E_OK) then (re_handle env, [], token, s)
    else
      let '(r, s) :=
        match timeRanges_ token, queryObject_ token with
        | _ :: _, Some q => read s (GetSyncDataWithQuery q (GetBeginTimestamp (timeRanges_ token))
                                      (GetEndTimestamp (timeRanges_ token)) info append [])
        | _, _ => (inr ([], E_OK), s)
        end in
      let '(items, errCode) := items_of r in
      if (errCode =? E_OK) || (errCode =? - E_FINISHED) then
        let token := FinishGetQueryData token in
        match deleteTimeRanges_ token with
        | [] => (finished_ok errCode, items, token, s)
        | _ :: _ =>
          if CanHoldDeletedData items info append then
            let '(r, s) := read s (GetDeletedSyncDataByTimestamp (GetBeginTimestamp (deleteTimeRanges_ token))
                                     (GetEndTimestamp (deleteTimeRanges_ token)) info append items) in
            let '(items, errCode) := items_of r in
            (finished_ok errCode, items, token, s)
          else (- E_UNFINISHED, items, token, s)
        end
      else (errCode, items, token, s) in
  let items := if page_ok errCode then items else [] in
  let '(errCode, token) := ProcessContinueTokenForQuerySync items errCode token in
  (errCode, items, token, s).

(** [GetKvEntriesByDataItems] fails: the entries and the token are released. *)
Definition entries_or_release (env : ReadEnv) (r : Z * list DataItem * option ContinueToken * Store)
    : Z * list DataItem * option ContinueToken * Store :=
  let '(errCode, items, token, s) := r in
  if negb (page_ok errCode) then (errCode, [], token, s)
  else if negb (is_empty items) && negb (re_entries env) then (- E_OUT_OF_MEMORY, [], None, s)
  else (errCode, items, token, s).

Definition GetSyncDataNext s (env : ReadEnv) token (info : DataSizeSpecInfo)
    : Z * list DataItem * option ContinueToken * Store :=
  entries_or_release env (match queryObject_ token with
                          | Some _ => GetSyncDataForQuerySync s env token info
                          | None => GetSyncDataNext_plain s env token info
                          end).

(** [GetSyncData] for a query. *)
Definition GetSyncData_query s (env : ReadEnv) (q : SyncQuery) (range : SyncTimeRange) (info : DataSizeSpecInfo)
    : Z * list DataItem * option ContinueToken * Store :=
  if negb ((beginTime range <=? endTime range) && (deleteBeginTime range <=? deleteEndTime range))
  then (- E_INVALID_ARGS, [], None, s)
  else if negb (re_token env) then (- E_OUT_OF_MEMORY, [], None, s)
  else entries_or_release env (GetSyncDataForQuerySync s env (newQueryToken range q) info).

End Store.
