(* ===== verification/SyncPages.v ===== *)
(** The data that a store gives to the syncer page by page is complete: whatever is written
    between two pages, every local write of the time range is in one of them. *)

From S2P Require Import Prelude Memory Parcel CommTypes SyncStorage CommitNotify SqliteUtils StoreExecutor SqliteFacts.
From S2P Require Import NaturalStore SyncRead.
From Stdlib Require Import ZArith Lia.
From Stdlib Require Import Strings.Byte.
From stdpp Require Import base numbers list sorting gmap.

Open Scope Z_scope.
Open Scope exec_scope.

(** * Rows in the order of their time stamps *)

Definition local_row (row : SyncRow) : Prop := Z.land (r_flag row) 2 = 2.
#[export] Instance local_row_dec row : Decision (local_row row).
Proof. unfold local_row. apply _. Defined.

Definition stamp (row : Row) : Z := r_timestamp row.2.

(** Local writes have different time stamps, which are not negative. *)
Record stamped (t : Table) : Prop := {
  st_unique : forall h1 h2 row1 row2, t !! h1 = Some row1 -> t !! h2 = Some row2 -> local_row row1 -> local_row row2 ->
    r_timestamp row1 = r_timestamp row2 -> h1 = h2;
  st_range : forall h row, t !! h = Some row -> local_row row -> 0 <= r_timestamp row < INT64_MAX
}.

#[local] Instance stamp_le_total : Total stamp_le.
Proof. intros a b. unfold stamp_le. lia. Qed.
#[local] Instance stamp_le_trans : Transitive stamp_le.
Proof. intros a b c. unfold stamp_le. lia. Qed.

Lemma signed_small b : 0 <= b <= INT64_MAX -> to_signed 64 b = b.
Proof.
  unfold INT64_MAX, to_signed, wrap. intros Hb. rewrite Z.mod_small by lia. destruct (_ <? _) eqn:E; [done |].
  apply Z.ltb_ge in E. change (2 ^ (64 - 1)) with (2 ^ 63) in E. lia.
Qed.

Lemma select_elem b e t row : 0 <= b <= INT64_MAX -> 0 <= e <= INT64_MAX ->
  row ∈ SELECT_SYNC_ENTRIES b e t <-> t !! row.1 = Some row.2 /\ local_row row.2 /\ b <= stamp row < e.
Proof.
  intros Hb He. unfold SELECT_SYNC_ENTRIES, by_stamp, in_range. rewrite (merge_sort_Permutation stamp_le).
  rewrite list_elem_of_filter, !signed_small by done. destruct row as [h row]. rewrite elem_of_map_to_list. cbn.
  unfold local_row. tauto.
Qed.

(** Strictly increasing. *)
Abbreviation ascending := (StronglySorted (fun a b : Row => stamp a < stamp b)).

Lemma by_stamp_ascending rows t : stamped t -> NoDup rows ->
  (forall row, row ∈ rows -> t !! row.1 = Some row.2 /\ local_row row.2) -> ascending (by_stamp rows).
Proof.
  intros Ht Hnd Hin. unfold by_stamp.
  assert (Hs : StronglySorted stamp_le (merge_sort stamp_le rows)) by (apply StronglySorted_merge_sort; apply _).
  assert (Hnd' : NoDup (merge_sort stamp_le rows)) by (by rewrite (merge_sort_Permutation stamp_le)).
  assert (Hin' : forall row, row ∈ merge_sort stamp_le rows -> t !! row.1 = Some row.2 /\ local_row row.2).
  { intros row. rewrite (merge_sort_Permutation stamp_le). apply Hin. }
  revert Hs Hnd' Hin'. clear Hnd Hin. generalize (merge_sort stamp_le rows). clear rows. intros rows Hs.
  induction Hs as [|a rows Hs IH Ha]; intros Hnd Hin; [constructor |].
  apply NoDup_cons in Hnd as [Hna Hnd]. constructor; [apply IH; [done | intros; apply Hin; by right] |].
  apply Forall_forall. intros c Hc. rewrite Forall_forall in Ha. specialize (Ha c Hc). change (stamp a <= stamp c) in Ha.
  destruct (decide (stamp a = stamp c)) as [E|]; [| lia]. exfalso. apply Hna.
  destruct (Hin a) as [Ha1 Ha2]; [left |]. destruct (Hin c) as [Hc1 Hc2]; [by right |].
  replace a with c; [done |]. destruct a as [ha ra], c as [hc rc]. cbn in *.
  assert (ha = hc) as -> by (eapply st_unique; eauto). congruence.
Qed.

Lemma select_ascending b e t : stamped t -> ascending (SELECT_SYNC_ENTRIES b e t).
Proof.
  intros Ht. eapply by_stamp_ascending; [done | apply NoDup_filter, NoDup_map_to_list |].
  intros [h row] [[_ ?] ?%elem_of_map_to_list]%list_elem_of_filter. done.
Qed.

Lemma ascending_split rows1 rows2 : ascending (rows1 ++ rows2) ->
  ascending rows1 /\ forall r, last rows1 = Some r -> Forall (fun row => stamp row <= stamp r) rows1
    /\ Forall (fun row => stamp r < stamp row) rows2.
Proof.
  induction rows1 as [|a rows1 IH]; intros Hs; [split; [constructor | done] |].
  inversion Hs as [|? ? Hs' Ha]; subst. destruct (IH Hs') as [H1 H2]. apply Forall_app in Ha as [Ha1 Ha2].
  split; [by constructor |]. intros r Hr. destruct rows1 as [|b rows1].
  - injection Hr as <-. split; [by repeat constructor | done].
  - destruct (H2 r Hr) as [Hall Hgt]. split; [| done]. constructor; [| done].
    assert (Hb : stamp a < stamp b) by (by inversion Ha1).
    assert (stamp b <= stamp r) by (by inversion Hall). cbn beta. lia.
Qed.

Lemma ascending_app rows1 rows2 : ascending rows1 -> ascending rows2 ->
  (forall a b, a ∈ rows1 -> b ∈ rows2 -> stamp a < stamp b) -> ascending (rows1 ++ rows2).
Proof.
  induction 1 as [|a rows1 Hs IH Ha]; intros H2 Hlt; [done |]. cbn. constructor.
  - apply IH; [done |]. intros x y Hx Hy. apply Hlt; [by right | done].
  - apply Forall_app. split; [done |]. apply Forall_forall. intros b Hb. apply Hlt; [left | done].
Qed.

(** * A page *)

Section Pages.
Context `{Sqlite} `{ValueHash}.

Lemma step_select_spec st x : result (step_select st) x (fun _ x' => calm x x').
Proof.
  unfold step_select. apply (result_bind _ _ _ (fun _ x' => x' = x)); [done |]. intros mem x' ->. split; [done |].
  eapply result_mono; [| apply (step_read_spec st mem (fun _ => tt))]. by intros ? ? [? _].
Qed.

(** What reading from [rows] gives: some of them, and the reason to stop. *)
Definition page_of (rows : list Row) (info : DataSizeSpecInfo) (items0 items : list DataItem) (e : Z) : Prop :=
  bad e \/ exists rows1 rows2, rows = rows1 ++ rows2 /\ items = items0 ++ (GetDataItemForSync <$> rows1)
    /\ (e = - E_FINISHED /\ rows2 = []
        \/ e = - E_UNFINISHED /\ rows2 <> [] /\ (1 <= packetSize info -> items <> [])).

Lemma GetSyncDataItems_spec st info app rows : forall total items0 x,
  exists items e x', GetSyncDataItems st info app rows total items0 x = (inr (items, e), x')
    /\ page_of rows info items0 items e.
Proof.
  induction rows as [|row rows IH]; intros total items0 x; cbn [GetSyncDataItems]; unfold bind, try_;
    pose proof (step_select_spec st x) as Hs; unfold result in Hs; destruct (step_select st x) as [[e|[]] x1].
  1, 3: do 3 eexists; split; [reflexivity | left; apply Hs].
  - do 3 eexists. split; [reflexivity |]. right. exists [], []. cbn. rewrite app_nil_r. auto.
  - cbv beta iota zeta. set (total' := u64 _). destruct (packet_full info total' items0) eqn:Ef.
    + do 3 eexists. split; [reflexivity |]. right. exists [], (row :: rows). cbn. rewrite app_nil_r.
      split_and!; [done | done | right]. split_and!; [done | done |]. intros Hp ->. unfold packet_full in Ef. cbn in Ef.
      rewrite andb_false_r in Ef. apply Z.leb_le in Ef. unfold zlen in Ef. cbn in Ef. lia.
    + destruct (IH total' (items0 ++ [GetDataItemForSync row]) x1) as (items & e & x' & E & Hp).
      do 3 eexists. split; [exact E |]. destruct Hp as [? | (rows1 & rows2 & -> & -> & Hr)]; [by left | right].
      exists (row :: rows1), rows2. rewrite <- app_assoc in *. split_and!; done.
Qed.

Lemma PrepareForSyncDataByTime_spec x : result PrepareForSyncDataByTime x (fun _ x' => calm x x').
Proof.
  unfold PrepareForSyncDataByTime. eapply result_bind; [apply GetStatement_spec |]. intros st x1 [Hc _].
  split; [auto with exec |]. unfold result, bind at 1, try_.
  assert (Hb : result (BindInt64ToStatement;; BindInt64ToStatement) x1 (fun _ x' => calm x1 x')).
  { eapply result_bind; [apply sq_call_spec |]. intros [] x2 H2. split; [auto with exec |].
    eapply result_mono; [| apply sq_call_spec]. intros [] x3 H3. by etrans. }
  unfold result in Hb. destruct ((BindInt64ToStatement;; BindInt64ToStatement) x1) as [[e|[]] x2]; [| cbn; by etrans].
  destruct Hb as [Hd Hb]. unfold bind. destruct (ResetStatement_spec st true e x2) as (st3 & e3 & x3 & -> & Hk & _).
  cbv beta iota. destruct (CheckCorruptedStatus_spec e3 x3) as (x4 & -> & Hc4). cbn.
  destruct Hk as [[-> Hc3] | [Hd3 Hb3]]; (split; [| done]); (etrans; [exact Hd |]; etrans; eauto with exec).
Qed.

Lemma get_by_stamp_spec select info app items0 x :
  exists items e x', get_by_stamp select info app items0 x = (inr (items, e), x')
    /\ page_of (select (table (db x))) info items0 items e.
Proof.
  unfold get_by_stamp, bind at 1, try_. pose proof (PrepareForSyncDataByTime_spec x) as Hp. unfold result in Hp.
  destruct (PrepareForSyncDataByTime x) as [[e|st] x1].
  { do 3 eexists. split; [reflexivity | left; apply Hp]. }
  unfold bind, gets. rewrite (qu_db _ _ (ca_quiet _ _ Hp)).
  destruct (GetSyncDataItems_spec st info app (select (table (db x))) 0 items0 x1) as (items & e & x2 & -> & Hpage).
  cbv beta iota. destruct (ResetStatement_spec st true e x2) as (st3 & e3 & x3 & -> & Hk & _). cbv beta iota.
  destruct (CheckCorruptedStatus_spec e3 x3) as (x4 & -> & _). do 3 eexists. split; [reflexivity |].
  destruct Hk as [[-> _] | [_ Hb]]; [done | by left].
Qed.

(** A page of a store. *)
Definition rows_of (b e : Z) (s : Store) : list Row := SELECT_SYNC_ENTRIES b e (committed (db (exec s))).

Definition page (b e : Z) (s : Store) (info : DataSizeSpecInfo) (items : list DataItem) (errCode : Z) : Prop :=
  exists rows1 rows2, rows_of b e s = rows1 ++ rows2 /\ items = GetDataItemForSync <$> rows1
    /\ (errCode = E_OK /\ rows2 = []
        \/ errCode = - E_UNFINISHED /\ rows2 <> [] /\ (1 <= packetSize info -> items <> [])).

Lemma read_page_spec s env info token :
  let '(e, items, s') := read_page s env info token in
  re_handle env = E_OK -> page_ok e = true ->
  page (GetBeginTimestamp (timeRanges_ token)) (GetEndTimestamp (timeRanges_ token)) s info items e.
Proof.
  unfold read_page. destruct (re_handle env =? E_OK) eqn:Eh; cbn [negb]; [| apply Z.eqb_neq in Eh; by intros].
  unfold read, GetSyncDataByTimestamp.
  destruct (get_by_stamp_spec (SELECT_SYNC_ENTRIES (GetBeginTimestamp (timeRanges_ token)) (GetEndTimestamp (timeRanges_ token)))
    info GetAppendedLen [] (set_db (exec s) (mkDatabase (committed (db (exec s))) None))) as (items & e & x' & -> & Hp).
  cbn [items_of]. intros _ Hok. destruct Hp as [(Hb1 & _ & _ & Hb2 & Hb3 & _) | (rows1 & rows2 & Hr & -> & Hc)].
  - exfalso. unfold page_ok, finished_ok in Hok. rewrite (proj2 (Z.eqb_neq _ _) Hb2) in Hok.
    rewrite (proj2 (Z.eqb_neq _ _) Hb1), (proj2 (Z.eqb_neq _ _) Hb3) in Hok. done.
  - exists rows1, rows2. split_and!; [done | done |]. destruct Hc as [[-> ->] | (-> & ? & ?)]; [by left | by right].
Qed.

(** * All pages *)

(** What a page finds: the store at that time, and the limits of the packet. *)
Record Request := mkRequest {
  rq_store : Store;
  rq_env : ReadEnv;
  rq_info : DataSizeSpecInfo
}.

(** The other pages, if the page says that there are any. *)
Definition then_pages (r : Z * list DataItem * option ContinueToken * Store) (s0 : Store)
    (more : ContinueToken -> Z * list DataItem * Store) : Z * list DataItem * Store :=
  let '(e, items, next, _) := r in
  match next with
  | Some token => if e =? - E_UNFINISHED then let '(e, rest, s) := more token in (e, items ++ rest, s) else (e, items, s0)
  | None => (e, items, s0)
  end.

(** The pages after the first, until there is no more data, an error, or no request: the
    status, the items, and the store of the last page. *)
Fixpoint more_pages (token : ContinueToken) (s0 : Store) (rqs : list Request) : Z * list DataItem * Store :=
  match rqs with
  | [] => (- E_UNFINISHED, [], s0)
  | rq :: rqs =>
    then_pages (GetSyncDataNext (rq_store rq) (rq_env rq) token (rq_info rq)) (rq_store rq)
      (fun token => more_pages token (rq_store rq) rqs)
  end.

Definition all_pages (begin end_ : Z) (rq : Request) (rqs : list Request) : Z * list DataItem * Store :=
  then_pages (GetSyncData (rq_store rq) (rq_env rq) begin end_ (rq_info rq)) (rq_store rq)
    (fun token => more_pages token (rq_store rq) rqs).

Definition rq_table (rq : Request) : Table := committed (db (exec (rq_store rq))).

(** A local write of the later table was there before, or is later than all that were. *)
Definition later_writes (t t' : Table) : Prop := forall h row, t' !! h = Some row -> local_row row ->
  t !! h = Some row \/ forall h0 row0, t !! h0 = Some row0 -> local_row row0 -> r_timestamp row0 < r_timestamp row.

(** A handle is not refused with the status of a page. *)
Definition plausible_read (rq : Request) : Prop := page_ok (re_handle (rq_env rq)) = (re_handle (rq_env rq) =? E_OK).

(** The items are the local writes of [[b, e)] in the order of their time stamps. *)
Definition complete (b e : Z) (items : list DataItem) (t : Table) : Prop :=
  exists rows, items = GetDataItemForSync <$> rows /\ ascending rows
    /\ Forall (fun row => b <= stamp row < e /\ local_row row.2) rows
    /\ forall h row, t !! h = Some row -> local_row row -> b <= r_timestamp row < e -> (h, row) ∈ rows.

Lemma last_item rows1 : last (GetDataItemForSync <$> rows1) = GetDataItemForSync <$> last rows1.
Proof.
  induction rows1 as [|a rows IH]; [done |]. rewrite fmap_cons. destruct rows as [|b rows]; [done |].
  rewrite fmap_cons in *. cbn [last] in *. exact IH.
Qed.

(** The next page begins after the last row of this one. *)
Lemma page_next b e s info items : stamped (committed (db (exec s))) -> 0 <= b <= INT64_MAX -> 0 <= e <= INT64_MAX ->
  page b e s info items (- E_UNFINISHED) -> forall item, last items = Some item ->
  exists rows, items = GetDataItemForSync <$> rows /\ ascending rows
    /\ Forall (fun row => b <= stamp row < next_begin item /\ stamp row < e /\ local_row row.2) rows
    /\ (forall h row, committed (db (exec s)) !! h = Some row -> local_row row ->
          b <= r_timestamp row < next_begin item -> (h, row) ∈ rows)
    /\ b < next_begin item <= INT64_MAX
    /\ exists h row, committed (db (exec s)) !! h = Some row /\ local_row row /\ next_begin item = r_timestamp row + 1.
Proof.
  intros Hst Hb He (rows1 & rows2 & Hrows & -> & Hc) item Hlast.
  destruct Hc as [[? _] | (_ & Hne & _)]; [done |].
  assert (Hel : forall row, row ∈ rows1 ++ rows2 <-> committed (db (exec s)) !! row.1 = Some row.2 /\ local_row row.2
    /\ b <= stamp row < e) by (intros row; rewrite <- Hrows; by apply select_elem).
  pose proof (select_ascending b e _ Hst) as Hasc. unfold rows_of in Hrows. rewrite Hrows in Hasc.
  destruct (ascending_split rows1 rows2 Hasc) as [Hasc1 Hsplit].
  rewrite last_item in Hlast. destruct (last rows1) as [r|] eqn:Er; [| done]. injection Hlast as <-.
  destruct (Hsplit r eq_refl) as [Hle Hgt].
  assert (Hr : r ∈ rows1) by (by apply last_Some_elem_of). pose proof (proj1 (Hel r)) as Hr'.
  destruct Hr' as (Hr1 & Hr2 & Hr3); [apply elem_of_app; by left |].
  pose proof (st_range _ Hst r.1 r.2 Hr1 Hr2) as Hrange. unfold stamp in Hr3.
  assert (Hnext : next_begin (GetDataItemForSync r) = stamp r + 1).
  { unfold next_begin. cbn [timestamp GetDataItemForSync]. unfold stamp, INT64_MAX in *.
    rewrite (wrap_small 64 (r_timestamp r.2)), (wrap_small 64 (_ + 1)) by lia. apply Z.min_l. lia. }
  rewrite Hnext. exists rows1. split_and!; [done | done | | | unfold stamp in *; lia.. |].
  - apply Forall_forall. intros row Hrow. pose proof (proj1 (Forall_forall _ _) Hle row Hrow) as Hle'. cbn in Hle'.
    destruct (proj1 (Hel row)) as (_ & ? & ?); [apply elem_of_app; by left |]. split_and!; [lia.. | done].
  - intros h row Hrow Hloc Hts. assert (Hin : (h, row) ∈ rows1 ++ rows2).
    { apply Hel. cbn. unfold stamp in *. cbn. split_and!; [done | done | lia |].
      destruct rows2 as [|r2 rows2]; [done |]. apply Forall_cons in Hgt as [Hgt _].
      destruct (proj1 (Hel r2)) as (_ & _ & ?); [apply elem_of_app; right; left |]. unfold stamp in *. lia. }
    apply elem_of_app in Hin as [Hin | Hin]; [done |].
    pose proof (proj1 (Forall_forall _ _) Hgt _ Hin) as Hgt'. cbn in Hgt'. unfold stamp in *. cbn in *. lia.
  - exists r.1, r.2. done.
Qed.

Lemma page_last b e s info items : stamped (committed (db (exec s))) -> 0 <= b <= INT64_MAX -> 0 <= e <= INT64_MAX ->
  page b e s info items E_OK -> complete b e items (committed (db (exec s))).
Proof.
  intros Hst Hb He (rows1 & rows2 & Hrows & -> & Hc). destruct Hc as [[_ ->] | [? _]]; [| done].
  rewrite app_nil_r in Hrows. exists rows1. rewrite <- Hrows. unfold rows_of.
  split_and!; [done | by apply select_ascending | |].
  - apply Forall_forall. intros row Hrow. apply select_elem in Hrow as (_ & ? & ?); done.
  - intros h row Hrow Hloc Hts. by apply select_elem.
Qed.

(** A page of [GetSyncDataNext]. *)
Lemma GetSyncDataNext_page rq b e :
  plausible_read rq ->
  let '(err, items, next, _) := GetSyncDataNext (rq_store rq) (rq_env rq) (newToken b e) (rq_info rq) in
  page_ok err = true ->
  page b e (rq_store rq) (rq_info rq) items err
  /\ (err = - E_UNFINISHED -> exists item, last items = Some item /\ next = Some (newToken (next_begin item) e))
  /\ (err = E_OK -> next = None).
Proof.
  intros Hpl. unfold GetSyncDataNext, entries_or_release. cbn [queryObject_ newToken].
  assert (Hp : let '(err, items, next, s') := GetSyncDataNext_plain (rq_store rq) (rq_env rq) (newToken b e) (rq_info rq) in
    page_ok err = true -> page b e (rq_store rq) (rq_info rq) items err
    /\ (err = - E_UNFINISHED -> exists item, last items = Some item /\ next = Some (newToken (next_begin item) e))
    /\ (err = E_OK -> next = None)).
  { unfold GetSyncDataNext_plain. destruct (MAX_SYNC_BLOCK_SIZE <? _); [done |].
    destruct (re_handle (rq_env rq) =? E_OK) eqn:Eh; cbn [negb]; [| intros Hok; unfold plausible_read in Hpl; congruence].
    apply Z.eqb_eq in Eh. pose proof (read_page_spec (rq_store rq) (rq_env rq) (rq_info rq) (newToken b e)) as Hp.
    destruct (read_page _ _ _ _) as [[err items] s']. unfold ProcessContinueToken.
    destruct (err =? - E_UNFINISHED) eqn:Eu; cbn [negb].
    - apply Z.eqb_eq in Eu as ->. destruct (last items) as [item|] eqn:El; [| done]. intros _.
      split_and!; [by apply Hp | | done]. intros _. exists item. done.
    - apply Z.eqb_neq in Eu. intros Hok. split_and!; [by apply Hp | done | done]. }
  destruct (GetSyncDataNext_plain _ _ _ _) as [[[err items] next] s'].
  destruct (page_ok err) eqn:Eok; cbn [negb]; [| intros Hok; congruence].
  destruct (_ && _); [done |]. intros _. by apply Hp.
Qed.

Lemma GetSyncData_page rq b e :
  let '(err, items, next, _) := GetSyncData (rq_store rq) (rq_env rq) b e (rq_info rq) in
  plausible_read rq -> page_ok err = true ->
  page b e (rq_store rq) (rq_info rq) items err
  /\ (err = - E_UNFINISHED -> exists item, last items = Some item /\ next = Some (newToken (next_begin item) e))
  /\ (err = E_OK -> next = None).
Proof.
  unfold GetSyncData. destruct (_ || _); [done |]. destruct (negb (re_token _)); [done |].
  pose proof (read_page_spec (rq_store rq) (rq_env rq) (rq_info rq) (newToken b e)) as Hp.
  assert (Hh : let '(err, items, _) := read_page (rq_store rq) (rq_env rq) (rq_info rq) (newToken b e) in
    re_handle (rq_env rq) <> E_OK -> err = re_handle (rq_env rq) /\ items = []).
  { unfold read_page. destruct (re_handle (rq_env rq) =? E_OK) eqn:Eh; cbn [negb]; [| done].
    apply Z.eqb_eq in Eh. repeat case_match; by intros. }
  destruct (read_page _ _ _ _) as [[err items] s']. unfold ProcessContinueToken. intros.
  destruct (err =? - E_UNFINISHED) eqn:Eu; cbn [negb].
  - apply Z.eqb_eq in Eu as ->. change (page_ok (- E_UNFINISHED)) with true. cbn [andb].
    destruct (last items) as [item|] eqn:El; [| done].
    change (page_ok (- E_UNFINISHED)) with true; cbn [andb]; destruct (negb (is_empty items) && negb (re_entries (rq_env rq))); [done |]. intros Hpl _.
    destruct (decide (re_handle (rq_env rq) = E_OK)) as [Eh | Eh]; [| by destruct (Hh Eh) as [_ ->]].
    split_and!; [by apply Hp | | done]. intros _. exists item. done.
  - apply Z.eqb_neq in Eu. destruct (page_ok err) eqn:Eok; cbn [andb].
    + destruct (_ && _); [done |]. intros Hpl _.
      destruct (decide (re_handle (rq_env rq) = E_OK)) as [Eh | Eh].
      * split_and!; [by apply Hp | done | done].
      * destruct (Hh Eh) as [-> _]. unfold plausible_read in Hpl. apply Z.eqb_neq in Eh. congruence.
    + intros _ Hok. congruence.
Qed.

(** Pages of [[b, e)], given those of [[b', e)]. *)
Lemma complete_app b b' e rows1 items2 t t' :
  ascending rows1 -> b <= b' -> Forall (fun row => b <= stamp row < b' /\ stamp row < e /\ local_row row.2) rows1 ->
  (forall h row, t !! h = Some row -> local_row row -> b <= r_timestamp row < b' -> (h, row) ∈ rows1) ->
  (exists h row, t !! h = Some row /\ local_row row /\ b' = r_timestamp row + 1) ->
  t = t' \/ later_writes t t' -> complete b' e items2 t' ->
  complete b e ((GetDataItemForSync <$> rows1) ++ items2) t'.
Proof.
  intros Hasc Hbb Hall Hin (h0 & row0 & Hr0 & Hl0 & ->) Hlater (rows2 & -> & Hasc2 & Hall2 & Hin2).
  exists (rows1 ++ rows2). rewrite fmap_app. split_and!; [done | | |].
  - apply ascending_app; [done | done |]. intros x y Hx Hy. pose proof (proj1 (Forall_forall _ _) Hall x Hx) as Hx'.
    pose proof (proj1 (Forall_forall _ _) Hall2 y Hy) as Hy'. cbn in *. lia.
  - apply Forall_app. split; eapply Forall_impl; [exact Hall | | exact Hall2 |]; cbn; intros row (? & ?); [tauto |].
    split; [lia | done].
  - intros h row Hrow Hloc Hts. apply elem_of_app.
    destruct (decide (r_timestamp row < r_timestamp row0 + 1)) as [Hlt|Hge]; [left | right; apply Hin2; [done | done | lia]].
    apply Hin; [| done | lia]. destruct Hlater as [-> | Hlater]; [done |].
    destruct (Hlater h row Hrow Hloc) as [? | Hnew]; [done |]. specialize (Hnew h0 row0 Hr0 Hl0). lia.
Qed.

Definition paced (rqs : list Request) : Prop :=
  Forall (fun rq => plausible_read rq /\ stamped (rq_table rq) /\ 1 <= packetSize (rq_info rq)) rqs.

(** What the pages from [b] on give. *)
Definition pages_ok (b e : Z) (rqs : list Request) (r : Z * list DataItem * Store) : Prop :=
  let '(err, items, s) := r in
  (err = E_OK -> complete b e items (committed (db (exec s))) /\ Exists (fun rq => rq_store rq = s) rqs)
  /\ (err = - E_UNFINISHED -> (length rqs <= length items)%nat).

Lemma pages_step b e rq rqs r : 0 <= b <= INT64_MAX -> 0 <= e <= INT64_MAX -> stamped (rq_table rq) ->
  1 <= packetSize (rq_info rq) -> Forall (fun rq' => later_writes (rq_table rq) (rq_table rq')) rqs ->
  (let '(err, items, next, _) := r in page_ok err = true ->
    page b e (rq_store rq) (rq_info rq) items err
    /\ (err = - E_UNFINISHED -> exists item, last items = Some item /\ next = Some (newToken (next_begin item) e))
    /\ (err = E_OK -> next = None)) ->
  (forall b', 0 <= b' <= INT64_MAX -> pages_ok b' e rqs (more_pages (newToken b' e) (rq_store rq) rqs)) ->
  pages_ok b e (rq :: rqs) (then_pages r (rq_store rq) (fun token => more_pages token (rq_store rq) rqs)).
Proof.
  intros Hb He Hst Hps Hl1 Hp IH. destruct r as [[[err items] next] s']. cbn [then_pages]. unfold pages_ok.
  destruct next as [token|].
  - destruct (err =? - E_UNFINISHED) eqn:Eu.
    + apply Z.eqb_eq in Eu as ->. destruct (Hp eq_refl) as (Hpage & Hnext & _).
      destruct (Hnext eq_refl) as (item & Hlast & [= ->]).
      destruct (page_next b e _ _ _ Hst Hb He Hpage item Hlast) as (rows & -> & Hasc & Hall & Hin & Hbb & Hex).
      specialize (IH (next_begin item) ltac:(lia)).
      destruct (more_pages _ _ rqs) as [[err rest] s2]. destruct IH as [IH1 IH2]. split.
      * intros Ho. destruct (IH1 Ho) as [Hc Hex2]. split; [| by right].
        eapply complete_app; [done | | exact Hall | exact Hin | exact Hex | right | exact Hc]; [lia |].
        apply Exists_exists in Hex2 as (rq' & Hrq' & <-). by apply (proj1 (Forall_forall _ _) Hl1).
      * intros Ho. specialize (IH2 Ho). rewrite length_app. cbn [length].
        destruct rows as [|r rows]; [done |]. cbn [fmap list_fmap length]. lia.
    + apply Z.eqb_neq in Eu. split; [intros -> | done]. exfalso. destruct (Hp eq_refl) as (_ & _ & Hn). by specialize (Hn eq_refl).
  - split.
    + intros ->. destruct (Hp eq_refl) as (Hpage & _ & _). split; [by apply (page_last b e _ (rq_info rq)) | by left].
    + intros ->. destruct (Hp eq_refl) as (_ & Hnext & _). by destruct (Hnext eq_refl) as (? & _ & ?).
Qed.

Lemma more_pages_ok e rqs : 0 <= e <= INT64_MAX -> paced rqs -> forall b s0, 0 <= b <= INT64_MAX ->
  ForallOrdPairs (fun rq rq' => later_writes (rq_table rq) (rq_table rq')) rqs ->
  pages_ok b e rqs (more_pages (newToken b e) s0 rqs).
Proof.
  intros He. induction rqs as [|rq rqs IH]; intros Hpl b s0 Hb Hlater; cbn [more_pages]; [split; [done | cbn; lia] |].
  apply Forall_cons in Hpl as [(Hpl & Hst & Hps) Hpls]. inversion Hlater as [|? ? Hl1 Hl2]; subst.
  apply pages_step; try done; [| intros; by apply IH]. by apply GetSyncDataNext_page.
Qed.

(** C31: Page by page, all local writes of a time range are read, each once and in the order
    of the time stamps, also when the application writes between two pages and however small
    the packets are: when a page says that there is no more data, every local write that the
    store then holds has been read. An error is never taken for the end of the data, and a
    page that is not the last has at least one item. *)
Theorem pages_complete b e rq rqs :
  0 <= b <= INT64_MAX -> 0 <= e <= INT64_MAX -> paced (rq :: rqs) ->
  ForallOrdPairs (fun rq rq' => later_writes (rq_table rq) (rq_table rq')) (rq :: rqs) ->
  let '(err, items, s) := all_pages b e rq rqs in
  (err = E_OK -> complete b e items (committed (db (exec s))))
  /\ (err = - E_UNFINISHED -> (length (rq :: rqs) <= length items)%nat).
Proof.
  intros Hb He Hpl Hlater. apply Forall_cons in Hpl as [(Hpl & Hst & Hps) Hpls].
  inversion Hlater as [|? ? Hl1 Hl2]; subst. unfold all_pages. pose proof (GetSyncData_page rq b e) as Hp.
  pose proof (pages_step b e rq rqs (GetSyncData (rq_store rq) (rq_env rq) b e (rq_info rq)) Hb He Hst Hps Hl1) as Hs.
  destruct (GetSyncData _ _ _ _ _) as [[[err items] next] s'].
  specialize (Hs (Hp Hpl) (fun b' Hb' => more_pages_ok e rqs He Hpls b' (rq_store rq) Hb' Hl2)).
  destruct (then_pages _ _ _) as [[err' items'] s2]. destruct Hs as [Hs1 Hs2]. split; [intros E; by apply Hs1 | done].
Qed.

End Pages.

(** * A sample *)

Module PageSample.

#[export] Instance hash : ValueHash := {| value_hash := fun v => Some (x68 :: v) |}.
#[export] Instance reliable : Sqlite := {| sq_fault := fun _ => None |}.

Definition row (k : byte) (t : Z) : SyncRow := mkSyncRow [k] [k] t 2 [] [] t.
Definition store (t : Table) : Store :=
  mkStore (mkExecutor (mkDatabase t None) 0 false false false DEFAULT_LAST_WIN None None None None) 0 0 [] newConnection.
Definition request (t : Table) : Request := mkRequest (store t) (mkReadEnv E_OK true true) (mkDataSizeSpecInfo 1024 1).

Definition t0 : Table := {[ [x01] := row x61 5; [x02] := row x62 7 ]}.
(** The application writes the first key again. *)
Definition t1 : Table := <[ [x01] := row x61 9 ]> t0.

End PageSample.

(** One row per page; the first key is written after it was sent, and is sent again. *)
Lemma pages_complete_witness :
  let '(err, items, s) := all_pages (H := PageSample.reliable) (H0 := PageSample.hash) 0 100
    (PageSample.request PageSample.t0) [PageSample.request PageSample.t1; PageSample.request PageSample.t1] in
  err = E_OK /\ timestamp <$> items = [5; 7; 9] /\ complete 0 100 items (committed (db (exec s))).
Proof.
  pose proof (pages_complete (H := PageSample.reliable) (H0 := PageSample.hash) 0 100 (PageSample.request PageSample.t0)
    [PageSample.request PageSample.t1; PageSample.request PageSample.t1] ltac:(unfold INT64_MAX; lia) ltac:(unfold INT64_MAX; lia)) as Hc.
  assert (E : let '(err, items, _) := all_pages (H := PageSample.reliable) (H0 := PageSample.hash) 0 100
    (PageSample.request PageSample.t0) [PageSample.request PageSample.t1; PageSample.request PageSample.t1] in
    err = E_OK /\ timestamp <$> items = [5; 7; 9]) by (vm_compute; split; reflexivity).
  assert (H0 : forall h row, PageSample.t0 !! h = Some row ->
    h = [x01] /\ row = PageSample.row x61 5 \/ h = [x02] /\ row = PageSample.row x62 7).
  { intros h row Hr. unfold PageSample.t0 in Hr. apply lookup_insert_Some in Hr as [[<- <-] | [_ Hr]]; [auto |].
    apply lookup_singleton_Some in Hr as [<- <-]. auto. }
  assert (H1 : forall h row, PageSample.t1 !! h = Some row ->
    h = [x01] /\ row = PageSample.row x61 9 \/ h = [x02] /\ row = PageSample.row x62 7).
  { intros h row Hr. unfold PageSample.t1 in Hr. apply lookup_insert_Some in Hr as [[<- <-] | [Hn Hr%H0]]; [auto |].
    destruct Hr as [[-> _] | ?]; [done | auto]. }
  assert (S0 : stamped PageSample.t0).
  { split.
    - intros h1 h2 row1 row2 [[-> ->] | [-> ->]]%H0 [[-> ->] | [-> ->]]%H0 _ _; done.
    - intros h row [[-> ->] | [-> ->]]%H0 _; cbn; unfold INT64_MAX; lia. }
  assert (S1 : stamped PageSample.t1).
  { split.
    - intros h1 h2 row1 row2 [[-> ->] | [-> ->]]%H1 [[-> ->] | [-> ->]]%H1 _ _; done.
    - intros h row [[-> ->] | [-> ->]]%H1 _; cbn; unfold INT64_MAX; lia. }
  assert (L01 : later_writes PageSample.t0 PageSample.t1).
  { intros h row [[-> ->] | [-> ->]]%H1 _; [right | left; reflexivity].
    intros h0 row0 [[-> ->] | [-> ->]]%H0 _; cbn; lia. }
  assert (L11 : later_writes PageSample.t1 PageSample.t1) by (intros h row Hr _; by left).
  destruct (all_pages _ _ _ _) as [[err items] s]. destruct E as [-> E]. split_and!; [done | done |].
  apply Hc; [| | done].
  - apply Forall_cons. split; [split_and!; [done | exact S0 | cbn; lia] |].
    apply Forall_cons. split; [split_and!; [done | exact S1 | cbn; lia] |].
    apply Forall_cons. split; [split_and!; [done | exact S1 | cbn; lia] |]. apply Forall_nil. done.
  - constructor; [apply Forall_cons; split; [exact L01 |]; apply Forall_cons; split; [exact L01 | by apply Forall_nil] |].
    constructor; [apply Forall_cons; split; [exact L11 | by apply Forall_nil] |]. constructor; constructor.
Defined.
