(* ===== verification/QueryMerge.v ===== *)
(** The rows of a query and the rows that changed are read side by side: the result is the
    changed rows in their order, each as it is if the query selects it, and as missing
    otherwise. *)

From S2P Require Import Prelude Memory Parcel CommTypes SyncStorage CommitNotify SqliteUtils StoreExecutor SqliteFacts.
From S2P Require Import NaturalStore ChangesReported SyncRead SyncPages.
From Stdlib Require Import ZArith Lia.
From Stdlib Require Import Strings.Byte.
From stdpp Require Import base numbers list sorting gmap.

Open Scope Z_scope.
Open Scope exec_scope.

#[export] Instance sync_row_eq : EqDecision SyncRow.
Proof. solve_decision. Defined.

Lemma elem_split {A} (x : A) l : x ∈ l -> NoDup l -> exists l1 l2, l = l1 ++ x :: l2 /\ x ∉ l1 /\ x ∉ l2.
Proof.
  intros (l1 & l2 & ->)%list_elem_of_split Hnd. apply NoDup_app in Hnd as (_ & Hd & Hnd). apply NoDup_cons in Hnd as [Hx _].
  exists l1, l2. split_and!; [done | | done]. intros Hin. apply (Hd x Hin). left.
Qed.

(** The rows that are selected, in an ascending list of rows. *)
Lemma ascending_nodup rows : ascending rows -> NoDup rows.
Proof.
  induction 1 as [|a rows _ IH Ha]; constructor; [| done]. intros Hin.
  pose proof (proj1 (Forall_forall _ _) Ha a Hin) as Hlt. cbn in Hlt. lia.
Qed.

Lemma ascending_head rows1 a rows2 : ascending (rows1 ++ a :: rows2) -> Forall (fun b => stamp a < stamp b) rows2.
Proof.
  induction rows1 as [|c rows1 IH]; cbn; intros Hs; inversion Hs; subst; [done | auto].
Qed.

Section Merge.
Context `{Sqlite} `{ValueHash}.

Abbreviation row_key := (fun row : Row => key (GetDataItemForSync row)).

(** How a changed row is sent. *)
Definition sent (selected : list Row) (row : Row) : DataItem :=
  if bool_decide (row ∈ selected) then GetDataItemForSync row else missing_item (GetDataItemForSync row).

(** Some of the rows were added to the packet, which is full now. *)
Definition stopped (f : Row -> DataItem) (rows : list Row) (info : DataSizeSpecInfo) (items0 items : list DataItem)
    (e : Z) : Prop :=
  bad e \/ exists rows1 rows2, rows = rows1 ++ rows2 /\ items = items0 ++ (f <$> rows1)
    /\ e = - E_UNFINISHED /\ rows2 <> [] /\ (1 <= packetSize info -> items <> []).

Lemma stopped_more f pre rows info items0 items e :
  stopped f rows info (items0 ++ (f <$> pre)) items e -> stopped f (pre ++ rows) info items0 items e.
Proof.
  intros [? | (rows1 & rows2 & -> & -> & Hr)]; [by left | right]. exists (pre ++ rows1), rows2.
  by rewrite fmap_app, !app_assoc.
Qed.

Lemma packet_full_nonempty info total items : 1 <= packetSize info -> packet_full info total items = true -> items <> [].
Proof.
  intros Hp Hf ->. unfold packet_full in Hf. cbn in Hf. rewrite andb_false_r in Hf. apply Z.leb_le in Hf.
  unfold zlen in Hf. cbn in Hf. lia.
Qed.

(** The inner loop, from the rows [full]; the first of them that is selected is [m]. *)
Lemma full_loop_spec st info app f m : forall full total items0 x,
  (forall pre post, full = pre ++ post -> (forall r, m = Some r -> r ∉ pre) -> Forall (fun row => f row = missing_item (GetDataItemForSync row)) pre) ->
  (forall r, m = Some r -> r ∈ full /\ f r = GetDataItemForSync r) ->
  NoDup (row_key <$> full) ->
  exists r x', full_loop st info app (GetDataItemForSync <$> m) full total items0 x = (inr r, x')
    /\ match r with
       | Stopped items e => stopped f full info items0 items e
       | Matched post _ items => exists pre a, m = Some a /\ full = pre ++ a :: post /\ items = items0 ++ (f <$> pre ++ [a])
       | FullFinished _ items => m = None /\ items = items0 ++ (f <$> full)
       end.
Proof.
  induction full as [|row full IH]; intros total items0 x Hmiss Hm Hnd; cbn [full_loop]; unfold bind, try_;
    pose proof (step_select_spec st x) as Hs; unfold result in Hs; destruct (step_select st x) as [[e|[]] x1].
  1, 3: do 2 eexists; split; [reflexivity | left; apply Hs].
  - do 2 eexists. split; [reflexivity |]. cbn. rewrite app_nil_r. split; [| done].
    destruct m as [r|]; [| done]. destruct (Hm r eq_refl) as [Hin _]. by apply elem_of_nil in Hin.
  - rewrite fmap_cons in Hnd. apply NoDup_cons in Hnd as [Hk Hnd].
    assert (Hhit : (match GetDataItemForSync <$> m with
        | Some mi => if bool_decide (key mi = key (GetDataItemForSync row)) then (true, mi)
                     else (false, missing_item (GetDataItemForSync row))
        | None => (false, missing_item (GetDataItemForSync row)) end)
      = (bool_decide (m = Some row), f row)).
    { destruct m as [r|]; cbn.
      - destruct (Hm r eq_refl) as [Hin Hf]. destruct (decide (r = row)) as [->|Hne].
        + rewrite !bool_decide_eq_true_2 by done. by rewrite Hf.
        + rewrite (bool_decide_eq_false_2 (Some r = Some row)) by congruence. rewrite bool_decide_eq_false_2.
          * f_equal. symmetry. pose proof (Hmiss [row] full eq_refl) as Hms.
            assert (Forall (fun row => f row = missing_item (GetDataItemForSync row)) [row]) as Hf1.
            { apply Hms. intros r' [= <-]. by intros ?%list_elem_of_singleton. }
            by inversion Hf1.
          * intros E. apply Hk. apply elem_of_cons in Hin as [? | Hin]; [done |].
            apply list_elem_of_fmap. exists r. split; [exact (eq_sym E) | done].
      - f_equal. symmetry. pose proof (Hmiss [row] full eq_refl ltac:(done)) as Hf1. by inversion Hf1. }
    rewrite Hhit. unfold AppendDataItem. set (total' := u64 _).
    destruct (packet_full info total' items0) eqn:Ef; cbv beta iota zeta.
    + rewrite Z.eqb_refl. do 2 eexists. split; [reflexivity |]. right. exists [], (row :: full). cbn. rewrite app_nil_r.
      split_and!; try done. intros Hp. by eapply packet_full_nonempty.
    + change (E_OK =? - E_UNFINISHED) with false. cbv iota. case_bool_decide as Emr.
      * do 2 eexists. split; [reflexivity |]. exists [], row. done.
      * destruct (IH total' (items0 ++ [f row]) x1) as (r & x' & E & Hr).
        -- intros pre post -> Hpre. eapply Forall_cons_1, (Hmiss (row :: pre) post eq_refl).
           intros r Hr. apply not_elem_of_cons. split; [congruence | by apply Hpre].
        -- intros r Hr. destruct (Hm r Hr) as [Hin Hf]. split; [| done]. apply elem_of_cons in Hin as [->|]; [congruence | done].
        -- done.
        -- do 2 eexists. split; [exact E |]. destruct r as [post tt items|tt items|items e].
           ++ destruct Hr as (pre & a & -> & -> & ->). exists (row :: pre), a. split_and!; [done | done |].
              by rewrite <- app_assoc.
           ++ destruct Hr as [-> ->]. split; [done |]. by rewrite <- app_assoc.
           ++ apply (stopped_more f [row] full). done.
Qed.

(** Reading the rows [rows], sent as [f] says: all of them, or until the packet is full. *)
Definition page_by (f : Row -> DataItem) (rows : list Row) (info : DataSizeSpecInfo) (items0 items : list DataItem)
    (e : Z) : Prop :=
  stopped f rows info items0 items e \/ e = - E_FINISHED /\ items = items0 ++ (f <$> rows).

Lemma page_by_more f pre rows info items0 items e :
  page_by f rows info (items0 ++ (f <$> pre)) items e -> page_by f (pre ++ rows) info items0 items e.
Proof.
  intros [Hs | [-> ->]]; [left; by apply stopped_more | right]. by rewrite fmap_app, app_assoc.
Qed.

(** The rows [rows] are selected among [full]. *)
Record selects (f : Row -> DataItem) (rows full : list Row) : Prop := {
  se_rows : ascending rows;
  se_full : ascending full;
  se_keys : NoDup (row_key <$> full);
  se_sub : forall r, r ∈ rows -> r ∈ full;
  se_sent : forall r, r ∈ full -> f r = if bool_decide (r ∈ rows) then GetDataItemForSync r
                                       else missing_item (GetDataItemForSync r)
}.

Lemma selects_before f rows full pre post : selects f rows full -> full = pre ++ post ->
  (forall r, head rows = Some r -> r ∉ pre) -> Forall (fun row => f row = missing_item (GetDataItemForSync row)) pre.
Proof.
  intros [Hrows Hfull _ Hsub Hsent] -> Hpre. apply Forall_forall. intros row Hrow.
  rewrite Hsent by (apply elem_of_app; by left). rewrite bool_decide_eq_false_2; [done |]. intros Hin.
  destruct rows as [|r rows]; [by apply elem_of_nil in Hin |]. specialize (Hpre r eq_refl).
  assert (Hr : r ∈ post). { pose proof (Hsub r ltac:(left)) as Hr. by apply elem_of_app in Hr as [? | ?]. }
  assert (Hlt : stamp row < stamp r).
  { clear -Hfull Hrow Hr. induction pre as [|a pre IH]; [by apply elem_of_nil in Hrow |].
    cbn in Hfull. inversion Hfull as [|? ? Hs Ha]; subst. apply elem_of_cons in Hrow as [-> | Hrow]; [| auto].
    apply (proj1 (Forall_forall _ _) Ha r). apply elem_of_app. by right. }
  apply elem_of_cons in Hin as [-> | Hin]; [lia |]. inversion Hrows as [|? ? _ Ha]; subst.
  pose proof (proj1 (Forall_forall _ _) Ha row Hin) as Hlt'. cbn in Hlt'. lia.
Qed.

Lemma selects_after f r rows pre post : selects f (r :: rows) (pre ++ r :: post) -> selects f rows post.
Proof.
  intros [Hrows Hfull Hkeys Hsub Hsent]. pose proof (ascending_head pre r post Hfull) as Hgt.
  inversion Hrows as [|? ? Hrows' Ha]; subst.
  assert (Hpost : forall x, x ∈ pre ++ r :: post -> stamp r < stamp x -> x ∈ post).
  { intros x [Hx | Hx]%elem_of_app Hlt.
    - exfalso. assert (stamp x < stamp r); [| lia]. clear -Hfull Hx.
      induction pre as [|a pre IH]; [by apply elem_of_nil in Hx |]. cbn in Hfull. inversion Hfull as [|? ? Hs Ha]; subst.
      apply elem_of_cons in Hx as [-> | Hx]; [| auto].
      apply (proj1 (Forall_forall _ _) Ha r). apply elem_of_app. right. left.
    - apply elem_of_cons in Hx as [-> | Hx]; [lia | done]. }
  split; [done | | | |].
  - clear -Hfull. induction pre as [|a pre IH]; cbn in Hfull; inversion Hfull; subst; [done | auto].
  - rewrite fmap_app, fmap_cons in Hkeys. apply NoDup_app in Hkeys as (_ & _ & Hk). by apply NoDup_cons in Hk as [_ ?].
  - intros x Hx. apply Hpost; [apply Hsub; by right |]. by apply (proj1 (Forall_forall _ _) Ha).
  - intros x Hx. rewrite Hsent by (apply elem_of_app; right; by right).
    replace (bool_decide (x ∈ r :: rows)) with (bool_decide (x ∈ rows)); [done |].
    apply bool_decide_ext. split; [by right |]. intros [-> | Hx']%elem_of_cons; [| done].
    pose proof (proj1 (Forall_forall _ _) Hgt r Hx) as Hlt. cbn in Hlt. lia.
Qed.

Lemma query_loop_spec fullStmt queryStmt info app f : forall rows full total items0 x, selects f rows full ->
  exists items e x', query_loop fullStmt queryStmt info app rows (Some full) total items0 x = (inr (items, e), x')
    /\ page_by f full info items0 items e.
Proof.
  induction rows as [|r rows IH]; intros full total items0 x Hsel; cbn [query_loop]; unfold bind at 1, try_;
    pose proof (step_select_spec queryStmt x) as Hs; unfold result in Hs;
    destruct (step_select queryStmt x) as [[e|[]] x1].
  1, 3: do 3 eexists; split; [reflexivity | left; left; apply Hs].
  - cbv beta iota zeta. unfold bind. cbn [head fmap option_fmap option_map].
    destruct (full_loop_spec fullStmt info app f None full total items0 x1) as (end_ & x2 & E & Hr).
    { intros pre post Hf Hp. by apply (selects_before f [] full pre post). }
    { done. }
    { apply Hsel. }
    cbn [fmap option_fmap option_map] in E. rewrite E. cbv iota. destruct end_ as [post tt items|tt items|items e].
    + by destruct Hr as (? & ? & ? & _).
    + destruct Hr as [_ ->]. do 3 eexists. split; [reflexivity |]. by right.
    + do 3 eexists. split; [reflexivity |]. by left.
  - cbv beta iota zeta. unfold bind. cbn [head].
    destruct (full_loop_spec fullStmt info app f (Some r) full total items0 x1) as (end_ & x2 & E & Hr).
    { intros pre post Hf Hp. by apply (selects_before f (r :: rows) full pre post). }
    { intros r' [= <-]. split; [apply Hsel; left |].
      rewrite (se_sent _ _ _ Hsel) by (apply Hsel; left). rewrite bool_decide_eq_true_2; [done | left]. }
    { apply Hsel. }
    rewrite E. cbv iota. destruct end_ as [post tt items|tt items|items e].
    + destruct Hr as (pre & a & [= <-] & -> & ->).
      destruct (IH post tt (items0 ++ (f <$> pre ++ [r])) x2) as (items & e & x3 & E3 & Hp); [by eapply selects_after |].
      do 3 eexists. split; [exact E3 |]. replace (pre ++ r :: post) with ((pre ++ [r]) ++ post) by (by rewrite <- app_assoc).
      by apply page_by_more.
    + by destruct Hr.
    + do 3 eexists. split; [reflexivity |]. by left.
Qed.

(** * Statements *)

Lemma bind_values_calm n x : result (bind_values n) x (fun _ x' => calm x x').
Proof.
  revert x. induction n as [|n IH]; intros x; [by apply result_ret |].
  eapply result_bind; [apply sq_call_spec |]. intros [] x1 H1. split; [auto with exec |].
  eapply result_mono; [| apply IH]. intros [] x2 H2. by etrans.
Qed.

(** A statement is prepared, or there is an error. *)
Definition prepared_stmt (e : Z) x x' : Prop := e = E_OK /\ calm x x' \/ bad e.

Lemma bind_or_reset_spec st n x : exists st' e x', bind_or_reset st n x = (inr (st', e), x') /\ prepared_stmt e x x'.
Proof.
  unfold bind_or_reset, bind, try_. pose proof (bind_values_calm n x) as Hb. unfold result in Hb.
  destruct (bind_values n x) as [[e|[]] x1]; cbv iota; [| do 3 eexists; (split; [reflexivity |]); by left].
  destruct (ResetStatement_spec st true e x1) as (st' & e' & x' & -> & Hk & _). do 3 eexists. split; [reflexivity |].
  right. destruct Hk as [[-> _] | [_ ?]]; [apply Hb | done].
Qed.

Lemma GetFullDataStatement_spec x : exists st e x', GetFullDataStatement x = (inr (st, e), x') /\ prepared_stmt e x x'.
Proof.
  unfold GetFullDataStatement, bind, try_. pose proof (GetStatement_spec None x) as Hg. unfold result in Hg.
  destruct (GetStatement None x) as [[e|st] x1]; [do 3 eexists; (split; [reflexivity |]); right; apply Hg |].
  destruct (bind_or_reset_spec st 2 x1) as (st' & e & x' & -> & Hp). do 3 eexists. split; [reflexivity |].
  destruct Hp as [[-> Hc] | ?]; [left; split; [done |]; etrans; [apply Hg | done] | by right].
Qed.

Lemma GetQueryDataStatement_spec q x : sq_helper q <> - E_FINISHED -> sq_helper q <> - E_UNFINISHED ->
  exists st e x', GetQueryDataStatement q x = (inr (st, e), x')
    /\ (e = E_OK /\ calm x x' \/ e <> E_OK /\ e <> - E_FINISHED /\ e <> - E_UNFINISHED).
Proof.
  intros H1' H2'. unfold GetQueryDataStatement. destruct (sq_helper q =? E_OK) eqn:E1; cbn [negb].
  2: { apply Z.eqb_neq in E1. do 3 eexists. split; [reflexivity |]. by right. }
  destruct (sq_sql q =? E_OK); cbn [negb]; [| do 3 eexists; split; [reflexivity |]; by right].
  unfold bind, try_. pose proof (GetStatement_spec None x) as Hg. unfold result in Hg.
  destruct (GetStatement None x) as [[e|st] x1]; [do 3 eexists; (split; [reflexivity |]); by right |].
  destruct (bind_or_reset_spec st (sq_binds q) x1) as (st' & e & x' & -> & Hp). do 3 eexists. split; [reflexivity |].
  destruct Hp as [[-> Hc] | (? & _ & _ & ? & ? & _)]; [left; split; [done |]; etrans; [apply Hg | done] | by right].
Qed.

(** * Changed rows *)

Definition changed_row (row : SyncRow) : Prop := Z.land (r_flag row) 3 = 2.

Lemma changed_local row : changed_row row -> local_row row.
Proof.
  unfold changed_row, local_row. intros E. change 2 with (Z.land 3 2) at 1. rewrite Z.land_assoc, E. done.
Qed.

Lemma changed_bit row : changed_row row -> Z.testbit (r_flag row) 0 = false.
Proof.
  unfold changed_row. intros E. assert (Hb : Z.testbit (Z.land (r_flag row) 3) 0 = false) by (by rewrite E).
  rewrite Z.land_spec in Hb. cbn [Z.testbit] in Hb. by rewrite andb_true_r in Hb.
Qed.

Lemma land_one f : Z.land f 1 = Z.b2z (Z.testbit f 0).
Proof. change 1 with (Z.ones 1) at 1. rewrite Z.land_ones by lia. rewrite Z.bit0_mod. done. Qed.

Lemma u64_bit f : Z.testbit (u64 f) 0 = Z.testbit f 0.
Proof. unfold wrap. by rewrite Z.mod_pow2_bits_low. Qed.

Lemma changed_live row : changed_row row -> deleted_row row = false.
Proof.
  intros Hc. unfold deleted_row, has_flag, DELETE_FLAG. by rewrite land_one, u64_bit, changed_bit.
Qed.

Lemma changed_key h row : changed_row row -> key (GetDataItemForSync (h, row)) = r_key row.
Proof.
  intros Hc. cbn [key GetDataItemForSync fst snd]. unfold is_delete, DELETE_FLAG.
  rewrite land_one, Z.land_spec, u64_bit, changed_bit by done. done.
Qed.

Lemma modify_elem b e t row : 0 <= b <= INT64_MAX -> 0 <= e <= INT64_MAX ->
  row ∈ SELECT_SYNC_MODIFY b e t <-> t !! row.1 = Some row.2 /\ changed_row row.2 /\ b <= stamp row < e.
Proof.
  intros Hb He. unfold SELECT_SYNC_MODIFY, by_stamp, in_range. rewrite (merge_sort_Permutation stamp_le).
  rewrite list_elem_of_filter, !signed_small by done. destruct row as [h row]. rewrite elem_of_map_to_list. cbn.
  unfold changed_row. tauto.
Qed.

(** The rows of the query are changed rows of the table, each once. *)
Definition proper_query (q : SyncQuery) (t : Table) : Prop :=
  NoDup (sq_rows q t) /\ forall row, row ∈ sq_rows q t -> t !! row.1 = Some row.2 /\ changed_row row.2.

Lemma query_elem q b e t row : 0 <= b <= INT64_MAX -> 0 <= e <= INT64_MAX ->
  row ∈ SELECT_QUERY q b e t <-> row ∈ sq_rows q t /\ b <= stamp row < e.
Proof.
  intros Hb He. unfold SELECT_QUERY, by_stamp, in_range. rewrite (merge_sort_Permutation stamp_le).
  rewrite list_elem_of_filter, !signed_small by done. unfold stamp. tauto.
Qed.

Lemma query_selects q b e t : 0 <= b <= INT64_MAX -> 0 <= e <= INT64_MAX -> table_wf t -> stamped t -> proper_query q t ->
  selects (sent (sq_rows q t)) (SELECT_QUERY q b e t) (SELECT_SYNC_MODIFY b e t).
Proof.
  intros Hb He Hwf Hst [Hnd Hq].
  assert (Hfull : ascending (SELECT_SYNC_MODIFY b e t)).
  { eapply by_stamp_ascending; [done | apply NoDup_filter, NoDup_map_to_list |].
    intros [h row] [[_ Hc] Hr%elem_of_map_to_list]%list_elem_of_filter. split; [done | by apply changed_local]. }
  split; [| done | | |].
  - eapply by_stamp_ascending; [done | by apply NoDup_filter |].
    intros row [_ Hr]%list_elem_of_filter. destruct (Hq row Hr). split; [done | by apply changed_local].
  - apply NoDup_fmap_2_strong; [| by apply ascending_nodup].
    intros [h1 row1] [h2 row2] (Ht1 & Hc1 & _)%modify_elem (Ht2 & Hc2 & _)%modify_elem E; try done. cbn [fst snd] in *.
    rewrite !changed_key in E by done. pose proof (Hwf h1 row1 Ht1) as W1. pose proof (Hwf h2 row2 Ht2) as W2.
    unfold row_wf in W1, W2. rewrite changed_live in W1, W2 by done. rewrite E in W1.
    assert (h1 = h2) as -> by (destruct W1, W2; congruence). congruence.
  - intros row [Hr Hts]%query_elem; try done. apply modify_elem; try done. destruct (Hq row Hr). done.
  - intros row (_ & _ & Hts)%modify_elem; try done. unfold sent.
    replace (bool_decide (row ∈ SELECT_QUERY q b e t)) with (bool_decide (row ∈ sq_rows q t)); [done |].
    apply bool_decide_ext. rewrite query_elem by done. tauto.
Qed.

(** C32: Reading for a query side by side with the changed rows gives, for every changed row
    of the time range in the order of the time stamps, the row itself if the query selects
    it, and otherwise its hash key marked as missing the query: all of them when the reading
    ends, a non-empty prefix when the packet is full. *)
Theorem query_page_merged q b e info app x :
  0 <= b <= INT64_MAX -> 0 <= e <= INT64_MAX -> 1 <= packetSize info ->
  sq_only_key q = false -> sq_helper q <> - E_FINISHED -> sq_helper q <> - E_UNFINISHED ->
  table_wf (table (db x)) -> stamped (table (db x)) -> proper_query q (table (db x)) ->
  exists items err x', GetSyncDataWithQuery q b e info app [] x = (inr (items, err), x')
    /\ let all := sent (sq_rows q (table (db x))) <$> SELECT_SYNC_MODIFY b e (table (db x)) in
       (err = - E_FINISHED -> items = all)
       /\ (err = - E_UNFINISHED -> items <> [] /\ exists rest, rest <> [] /\ all = items ++ rest)
       /\ err <> E_OK.
Proof.
  intros Hb He Hps Hok Hh1 Hh2 Hwf Hst Hq. set (t := table (db x)) in *. unfold GetSyncDataWithQuery, bind at 1.
  destruct (GetQueryDataStatement_spec q x Hh1 Hh2) as (queryStmt & e1 & x1 & -> & Hp1). cbv beta iota.
  unfold bind at 1. set (body := if negb (e1 =? E_OK) then _ else _).
  assert (Hbody : exists fullStmt items err x2, body x1 = (inr (fullStmt, (items, err)), x2)
    /\ (page_by (sent (sq_rows q t)) (SELECT_SYNC_MODIFY b e t) info [] items err
        \/ err <> E_OK /\ err <> - E_FINISHED /\ err <> - E_UNFINISHED)).
  { unfold body. destruct Hp1 as [[-> Hc1] | (Ho & Hn1 & Hn2)].
    2: { rewrite (proj2 (Z.eqb_neq _ _) Ho). cbn [negb]. do 4 eexists. split; [reflexivity | by right]. }
    cbn [negb Z.eqb E_OK]. unfold bind, gets. rewrite (qu_db _ _ (ca_quiet _ _ Hc1)), Hok. fold t.
    destruct (GetFullDataStatement_spec x1) as (fullStmt & e2 & x2 & -> & Hp2). cbv beta iota.
    destruct Hp2 as [[-> Hc2] | Hbad].
    2: { pose proof Hbad as (Ho & _ & _ & Hf & Hu & _). rewrite (proj2 (Z.eqb_neq _ _) Ho). cbn [negb].
         do 4 eexists. split; [reflexivity | by right]. }
    cbn [negb Z.eqb E_OK]. rewrite (qu_db _ _ (ca_quiet _ _ Hc2)), (qu_db _ _ (ca_quiet _ _ Hc1)). fold t.
    destruct (query_loop_spec fullStmt queryStmt info app (sent (sq_rows q t)) (SELECT_QUERY q b e t)
      (SELECT_SYNC_MODIFY b e t) 0 [] x2) as (items & err & x3 & -> & Hp); [by apply query_selects |].
    do 4 eexists. split; [reflexivity | by left]. }
  destruct Hbody as (fullStmt & items & err & x2 & -> & Hr). cbv beta iota zeta. unfold bind.
  destruct (ResetStatement_spec fullStmt true err x2) as (st3 & e3 & x3 & -> & Hk3 & _). cbv beta iota.
  destruct (ResetStatement_spec queryStmt true e3 x3) as (st4 & e4 & x4 & -> & Hk4 & _). cbv beta iota.
  destruct (CheckCorruptedStatus_spec e4 x4) as (x5 & -> & _). cbn. do 3 eexists. split; [reflexivity |].
  assert (Hfin : e4 = err \/ bad e4) by (destruct Hk4 as [[-> _] | [_ ?]]; [destruct Hk3 as [[-> _] | [_ ?]] |]; auto).
  destruct Hfin as [-> | (? & _ & _ & ? & ? & _)]; [| done].
  destruct Hr as [[[(? & _ & _ & ? & ? & _) | (rows1 & rows2 & -> & -> & -> & Hne & Hi)] | [-> ->]] | (? & ? & ?)]; [done | | | done].
  - split_and!; [done | | done]. intros _. split; [by apply Hi |]. exists (sent (sq_rows q t) <$> rows2).
    rewrite fmap_app. split; [by destruct rows2 | done].
  - done.
Qed.

End Merge.

(** Two changed rows, of which the query selects the second. *)
Lemma query_page_merged_witness :
  let row k t : SyncRow := PageSample.row k t in
  let t : Table := {[ [x68; x61] := row x61 5; [x68; x62] := row x62 7 ]} in
  let q := mkSyncQuery E_OK E_OK 3 false (fun _ => [([x68; x62], row x62 7)]) in
  let x := exec (PageSample.store t) in
  exists items err x', GetSyncDataWithQuery (H := PageSample.reliable) (H0 := PageSample.hash)
      q 0 100 (mkDataSizeSpecInfo 1024 10) GetAppendedLen [] x = (inr (items, err), x')
    /\ err = - E_FINISHED
    /\ items = sent (H0 := PageSample.hash) [([x68; x62], row x62 7)] <$> SELECT_SYNC_MODIFY 0 100 t
    /\ (key <$> items) = [[x68; x61]; [x62]].
Proof.
  intros row t q x.
  assert (Ht : forall h r, t !! h = Some r -> h = [x68; x61] /\ r = row x61 5 \/ h = [x68; x62] /\ r = row x62 7).
  { intros h r Hr. unfold t in Hr. apply lookup_insert_Some in Hr as [[<- <-] | [_ Hr]]; [auto |].
    apply lookup_singleton_Some in Hr as [<- <-]. auto. }
  destruct (query_page_merged (H := PageSample.reliable) (H0 := PageSample.hash) q 0 100 (mkDataSizeSpecInfo 1024 10)
    GetAppendedLen x) as (items & err & x' & E & Hf & _).
  - unfold INT64_MAX. lia.
  - unfold INT64_MAX. lia.
  - cbn. lia.
  - done.
  - done.
  - done.
  - intros h r [[-> ->] | [-> ->]]%Ht; done.
  - split.
    + intros h1 h2 r1 r2 [[-> ->] | [-> ->]]%Ht [[-> ->] | [-> ->]]%Ht _ _; done.
    + intros h r [[-> ->] | [-> ->]]%Ht _; cbn; unfold INT64_MAX; lia.
  - split; [apply NoDup_singleton |]. intros r ->%list_elem_of_singleton. done.
  - exists items, err, x'.
    assert (E' : match GetSyncDataWithQuery (H := PageSample.reliable) (H0 := PageSample.hash) q 0 100
      (mkDataSizeSpecInfo 1024 10) GetAppendedLen [] x with
      | (inr (items, err), _) => err = - E_FINISHED /\ (key <$> items) = [[x68; x61]; [x62]]
      | _ => False end) by (vm_compute; split; reflexivity).
    rewrite E in E'. destruct E' as [Ee Ek]. split_and!; [done | done | by apply Hf | done].
Defined.
