(* ===== verification/SubscribeManager.v ===== *)
(** Model of [SubscribeManager] (syncer/src/subscribe_manager.cpp): the queries this device
    has subscribed at others, and the queries others have subscribed here; each with the
    number of devices that use a query. *)

From S2P Require Import Prelude Memory CommTypes SyncStorage CommitNotify QuerySync.
From Stdlib Require Import ZArith Lia.
From Stdlib Require Import Strings.Byte.
From stdpp Require Import base numbers list gmap sorting.

Open Scope Z_scope.

Definition MAX_SUBSCRIBE_NUM_PER_DEV : nat := 4.
Definition MAX_SUBSCRIBE_NUM_PER_DB : nat := 8.
Definition MAX_DEVICES_NUM : nat := 32.

Inductive SubscribeStatus := NOT_ACTIVE | ACTIVE.

#[export] Instance subscribe_status_eq : EqDecision SubscribeStatus.
Proof. solve_decision. Defined.

Abbreviation QueryId := (list byte).
Abbreviation SubscribeMap := (gmap DeviceID (gmap QueryId SubscribeStatus)).
Abbreviation SubscribedTotalMap := (gmap QueryId (QuerySyncObject * Z)).

(** A map of each kind: the local subscriptions and the remote ones have one pair each. *)
Record Subscriptions := mkSubscriptions {
  subscribeMap : SubscribeMap;
  subscribedTotalMap : SubscribedTotalMap
}.

Definition noSubscriptions : Subscriptions := mkSubscriptions ∅ ∅.

Record SubscribeManager := mkSubscribeManager {
  local_ : Subscriptions;
  unFinishedLocalAutoSubMap_ : gmap DeviceID (gset QueryId);
  remote_ : Subscriptions
}.

Definition newSubscribeManager : SubscribeManager := mkSubscribeManager noSubscriptions ∅ noSubscriptions.

(** A [std::map] is walked in the order of its keys. *)
Definition key_le (a b : Key) : Prop := key_ltb b a = false.

#[export] Instance key_le_dec a b : Decision (key_le a b).
Proof. unfold key_le. apply _. Defined.

Definition key_order {A} (x y : Key * A) : Prop := key_le x.1 y.1.

#[export] Instance key_order_dec {A} (x y : Key * A) : Decision (key_order x y).
Proof. unfold key_order. apply _. Defined.

Definition in_order {A} (m : gmap Key A) : list (Key * A) := merge_sort key_order (map_to_list m).

(** * The operations on a pair of maps *)

Implicit Types s : Subscriptions.

(** The body of the loop of [ClearSubscribeQuery]; [int] counts that are never negative. *)
Definition release_query (t : SubscribedTotalMap) (queryId : QueryId) : SubscribedTotalMap :=
  match t !! queryId with
  | None => t
  | Some (query, n) =>
    let n := if 0 <? n then n - 1 else n in
    if n =? 0 then delete queryId t else <[queryId := (query, n)]> t
  end.

Definition ClearSubscribeQuery (device : DeviceID) s : Subscriptions :=
  match subscribeMap s !! device with
  | None => s
  | Some queries =>
    mkSubscriptions (delete device (subscribeMap s))
      (fold_left release_query (in_order queries).*1 (subscribedTotalMap s))
  end.

Definition ReserveSubscribeQuery (device : DeviceID) (queryId : QueryId) (query : QuerySyncObject) s : Z * Subscriptions :=
  let iter := subscribeMap s !! device in
  let allIter := subscribedTotalMap s !! queryId in
  let mine := default ∅ iter in
  if bool_decide (allIter = None) && (MAX_SUBSCRIBE_NUM_PER_DB <=? base.size (subscribedTotalMap s))%nat
  then (- E_MAX_LIMITS, s)
  else if bool_decide (iter = None) && (MAX_DEVICES_NUM <=? base.size (subscribeMap s))%nat then (- E_MAX_LIMITS, s)
  else if bool_decide (is_Some iter) && bool_decide (mine !! queryId = None)
          && (MAX_SUBSCRIBE_NUM_PER_DEV <=? base.size mine)%nat then (- E_MAX_LIMITS, s)
  else if bool_decide (mine !! queryId = Some ACTIVE) then (E_OK, s)
  else
    let isNeedInc := bool_decide (mine !! queryId = None) in
    let mine := if isNeedInc then <[queryId := NOT_ACTIVE]> mine else mine in
    let total := match allIter with
                 | None => <[queryId := (query, 1)]> (subscribedTotalMap s)
                 | Some (q, n) => if isNeedInc then <[queryId := (q, n + 1)]> (subscribedTotalMap s)
                                  else subscribedTotalMap s
                 end in
    (E_OK, mkSubscriptions (<[device := mine]> (subscribeMap s)) total).

Definition ActiveSubscribeQuery (device : DeviceID) (queryId : QueryId) s : Z * Subscriptions :=
  match subscribedTotalMap s !! queryId, subscribeMap s !! device with
  | None, _ | _, None => (- E_INTERNAL_ERROR, s)
  | Some _, Some mine =>
    match mine !! queryId with
    | None => (- E_INTERNAL_ERROR, s)
    | Some _ => (E_OK, mkSubscriptions (<[device := <[queryId := ACTIVE]> mine]> (subscribeMap s)) (subscribedTotalMap s))
    end
  end.

(** The end of [DeleteSubscribeQuery] and of [RemoveSubscribeQuery]. *)
Definition drop_query (device : DeviceID) (queryId : QueryId) (mine : gmap QueryId SubscribeStatus) s : Subscriptions :=
  let devices := <[device := delete queryId mine]> (subscribeMap s) in
  match subscribedTotalMap s !! queryId with
  | None => mkSubscriptions devices (subscribedTotalMap s)
  | Some (query, n) =>
    mkSubscriptions devices (if n - 1 <=? 0 then delete queryId (subscribedTotalMap s)
                             else <[queryId := (query, n - 1)]> (subscribedTotalMap s))
  end.

(** A query that was subscribed successfully before stays. *)
Definition DeleteSubscribeQuery (device : DeviceID) (queryId : QueryId) s : Subscriptions :=
  match subscribeMap s !! device with
  | None => s
  | Some mine =>
    match mine !! queryId with
    | None | Some ACTIVE => s
    | Some NOT_ACTIVE => drop_query device queryId mine s
    end
  end.

Definition RemoveSubscribeQuery (device : DeviceID) (queryId : QueryId) s : Subscriptions :=
  match subscribeMap s !! device with
  | None => s
  | Some mine => match mine !! queryId with None => s | Some _ => drop_query device queryId mine s end
  end.

Definition GetSubscribeQueries (device : DeviceID) s : list QuerySyncObject :=
  match subscribeMap s !! device with
  | None => []
  | Some mine => omap (fun queryInfo => fst <$> subscribedTotalMap s !! queryInfo.1) (in_order mine)
  end.

(** * The manager *)

Section Manager.
Context `{Host} `{ValueHash}.
Implicit Types m : SubscribeManager.

Definition set_local m s : SubscribeManager := mkSubscribeManager s (unFinishedLocalAutoSubMap_ m) (remote_ m).
Definition set_remote m s : SubscribeManager := mkSubscribeManager (local_ m) (unFinishedLocalAutoSubMap_ m) s.
Definition set_unfinished m (u : gmap DeviceID (gset QueryId)) : SubscribeManager :=
  mkSubscribeManager (local_ m) u (remote_ m).

Definition ClearRemoteSubscribeQuery (device : DeviceID) m : SubscribeManager :=
  set_remote m (ClearSubscribeQuery device (remote_ m)).

Definition ClearAllRemoteQuery m : SubscribeManager := set_remote m noSubscriptions.

Definition ClearLocalSubscribeQuery (device : DeviceID) m : SubscribeManager :=
  set_local (set_unfinished m (delete device (unFinishedLocalAutoSubMap_ m))) (ClearSubscribeQuery device (local_ m)).

Definition ReserveRemoteSubscribeQuery (device : DeviceID) (query : QuerySyncObject) m : option (Z * SubscribeManager) :=
  queryId ← GetIdentify query;
  let '(errCode, s) := ReserveSubscribeQuery device queryId query (remote_ m) in
  Some (errCode, set_remote m s).

Definition ActiveRemoteSubscribeQuery (device : DeviceID) (query : QuerySyncObject) m : option (Z * SubscribeManager) :=
  queryId ← GetIdentify query;
  let '(errCode, s) := ActiveSubscribeQuery device queryId (remote_ m) in
  Some (errCode, set_remote m s).

Definition ReserveLocalSubscribeQuery (device : DeviceID) (query : QuerySyncObject) m : option (Z * SubscribeManager) :=
  queryId ← GetIdentify query;
  let '(errCode, s) := ReserveSubscribeQuery device queryId query (local_ m) in
  Some (errCode, set_local m s).

Definition ActiveLocalSubscribeQuery (device : DeviceID) (query : QuerySyncObject) m : option (Z * SubscribeManager) :=
  queryId ← GetIdentify query;
  let '(errCode, s) := ActiveSubscribeQuery device queryId (local_ m) in
  let m := set_local m s in
  if negb (errCode =? E_OK) then Some (errCode, m)
  else Some (errCode, set_unfinished m (alter (fun ids => ids ∖ {[queryId]}) device (unFinishedLocalAutoSubMap_ m))).

Definition DeleteLocalSubscribeQuery (device : DeviceID) (query : QuerySyncObject) m : option SubscribeManager :=
  queryId ← GetIdentify query; Some (set_local m (DeleteSubscribeQuery device queryId (local_ m))).

Definition DeleteRemoteSubscribeQuery (device : DeviceID) (query : QuerySyncObject) m : option SubscribeManager :=
  queryId ← GetIdentify query; Some (set_remote m (DeleteSubscribeQuery device queryId (remote_ m))).

Definition PutLocalUnFiniedSubQueries (device : DeviceID) (subscribeQueries : list QuerySyncObject) m
    : option SubscribeManager :=
  match subscribeQueries with
  | [] => Some (set_unfinished m (delete device (unFinishedLocalAutoSubMap_ m)))
  | _ =>
    ids ← mapM GetIdentify subscribeQueries;
    Some (set_unfinished m (<[device := list_to_set ids]> (unFinishedLocalAutoSubMap_ m)))
  end.

(** The ids of a device in the order of their set. *)
Definition GetAllUnFinishSubQueries m : list (DeviceID * list QuerySyncObject) :=
  (fun item => (item.1, omap (fun id => fst <$> subscribedTotalMap (local_ m) !! id) (merge_sort key_le (elements item.2))))
    <$> filter (fun item => item.2 <> (∅ : gset QueryId)) (in_order (unFinishedLocalAutoSubMap_ m)).

Definition RemoveRemoteSubscribeQuery (device : DeviceID) (query : QuerySyncObject) m : option SubscribeManager :=
  queryId ← GetIdentify query; Some (set_remote m (RemoveSubscribeQuery device queryId (remote_ m))).

Definition RemoveLocalSubscribeQuery (device : DeviceID) (query : QuerySyncObject) m : option SubscribeManager :=
  queryId ← GetIdentify query;
  let m := set_local m (RemoveSubscribeQuery device queryId (local_ m)) in
  match unFinishedLocalAutoSubMap_ m !! device with
  | Some ids =>
    if decide (queryId ∈ ids) then
      let ids := ids ∖ {[queryId]} in
      Some (set_unfinished m (if decide (ids = ∅) then delete device (unFinishedLocalAutoSubMap_ m)
                              else <[device := ids]> (unFinishedLocalAutoSubMap_ m)))
    else Some m
  | None => Some m
  end.

Definition GetLocalSubscribeQueries (device : DeviceID) m : list QuerySyncObject := GetSubscribeQueries device (local_ m).
Definition GetRemoteSubscribeQueries (device : DeviceID) m : list QuerySyncObject := GetSubscribeQueries device (remote_ m).

Definition IsRemoteContainSubscribe (device : DeviceID) (query : QuerySyncObject) m : option bool :=
  match subscribeMap (remote_ m) !! device with
  | None => Some false
  | Some mine => queryId ← GetIdentify query; Some (bool_decide (is_Some (mine !! queryId)))
  end.

Definition GetRemoteSubscribeQueryIds (device : DeviceID) m : list QueryId :=
  match subscribeMap (remote_ m) !! device with
  | None => []
  | Some mine => filter (fun id => is_Some (subscribedTotalMap (remote_ m) !! id)) (in_order mine).*1
  end.

(** The loop of [LocalSubscribeLimitCheck]: the devices there would be. *)
Fixpoint devices_fit (devices : list DeviceID) (devNum : nat) (known : SubscribeMap) : bool :=
  match devices with
  | [] => true
  | device :: devices =>
    if bool_decide (is_Some (known !! device)) then devices_fit devices devNum known
    else if (MAX_DEVICES_NUM <? S devNum)%nat then false else devices_fit devices (S devNum) known
  end.

Definition LocalSubscribeLimitCheck (devices : list DeviceID) (query : QuerySyncObject) m : option Z :=
  if negb (devices_fit devices (base.size (subscribeMap (local_ m))) (subscribeMap (local_ m))) then Some (- E_MAX_LIMITS)
  else
    queryId ← GetIdentify query;
    if bool_decide (subscribedTotalMap (local_ m) !! queryId = None)
       && (MAX_SUBSCRIBE_NUM_PER_DB <=? base.size (subscribedTotalMap (local_ m)))%nat
    then Some (- E_MAX_LIMITS) else Some E_OK.

End Manager.
