(* ===== verification/SubscribeFacts.v ===== *)
(** The subscriptions are counted: in every reachable state of [SubscribeManager] the number
    kept for a query is the number of devices that use it, a query is kept as long as it is
    used, and the limits hold. *)

From S2P Require Import Prelude Memory CommTypes SyncStorage CommitNotify QuerySync SubscribeManager.
From Stdlib Require Import ZArith Lia.
From Stdlib Require Import Strings.Byte.
From stdpp Require Import base numbers list gmap sorting.

Open Scope Z_scope.

Abbreviation Mine := (gmap QueryId SubscribeStatus).

Definition uses (q : QueryId) (d : DeviceID * Mine) : Prop := is_Some (d.2 !! q).

#[export] Instance uses_dec q d : Decision (uses q d).
Proof. unfold uses. apply _. Defined.

(** The number of the devices that use [q]. *)
Definition users (q : QueryId) (m : SubscribeMap) : nat := base.size (filter (uses q) m).

Definition uses_n (q : QueryId) (mine : Mine) : nat := if decide (is_Some (mine !! q)) then 1 else 0.

Lemma users_insert q d mine m : users q (<[d := mine]> m) = (users q (delete d m) + uses_n q mine)%nat.
Proof.
  unfold users, uses_n. rewrite <- insert_delete_eq.
  rewrite map_filter_insert. unfold uses at 1. cbn [snd].
  destruct (decide (is_Some (mine !! q))) as [Hq | Hq].
  - rewrite map_size_insert_None; [lia |]. apply map_lookup_filter_None. left. apply lookup_delete_eq.
  - rewrite delete_delete_eq. lia.
Qed.

Lemma users_delete q d m : users q m = (users q (delete d m) + uses_n q (default ∅ (m !! d)))%nat.
Proof.
  destruct (m !! d) as [mine|] eqn:E; cbn [default id].
  - rewrite <- (users_insert q d mine). by rewrite insert_id.
  - rewrite delete_id by done. unfold uses_n. rewrite lookup_empty, decide_False; [lia |]. by intros [? ?].
Qed.

Lemma users_none q m : users q m = 0%nat <-> forall d mine, m !! d = Some mine -> mine !! q = None.
Proof.
  unfold users. rewrite map_size_empty_iff, map_empty_filter. unfold map_Forall, uses. cbn.
  split; intros Hm d mine E; specialize (Hm d mine E); destruct (mine !! q); try done. exfalso. eauto.
Qed.

Lemma uses_n_insert q id st mine : uses_n q (<[id := st]> mine) = if decide (q = id) then 1%nat else uses_n q mine.
Proof.
  unfold uses_n. destruct (decide (q = id)) as [-> | Hne].
  - rewrite lookup_insert_eq. by rewrite decide_True by eauto.
  - by rewrite lookup_insert_ne by done.
Qed.

Lemma uses_n_delete q id mine : uses_n q (delete id mine) = if decide (q = id) then 0%nat else uses_n q mine.
Proof.
  unfold uses_n. destruct (decide (q = id)) as [-> | Hne].
  - rewrite lookup_delete_eq. by rewrite decide_False by (by intros [? ?]).
  - by rewrite lookup_delete_ne by done.
Qed.

Lemma uses_n_spec q mine : uses_n q mine = if decide (mine !! q = None) then 0%nat else 1%nat.
Proof. unfold uses_n. destruct (mine !! q); [by rewrite decide_True by eauto | by rewrite decide_False by (by intros [? ?])]. Qed.

Lemma filter_id {A} (P : A -> Prop) `{!forall x, Decision (P x)} l : Forall P l -> filter P l = l.
Proof. induction 1 as [|x l Hx Hl IH]; [done |]. rewrite filter_cons_True by done. by f_equal. Qed.

Section Facts.
Context `{Host} `{ValueHash}.

(** The entry that is kept for a query with [n] users. *)
Definition counted (q : QueryId) (entry : option (QuerySyncObject * Z)) (n : nat) : Prop :=
  match entry with
  | Some (query, k) => k = Z.of_nat n /\ (0 < n)%nat /\ GetIdentify query = Some q
  | None => n = 0%nat
  end.

Record subs_ok (s : Subscriptions) : Prop := {
  so_count : forall q, counted q (subscribedTotalMap s !! q) (users q (subscribeMap s));
  so_total : (base.size (subscribedTotalMap s) <= MAX_SUBSCRIBE_NUM_PER_DB)%nat;
  so_devices : (base.size (subscribeMap s) <= MAX_DEVICES_NUM)%nat;
  so_device : forall d mine, subscribeMap s !! d = Some mine -> (base.size mine <= MAX_SUBSCRIBE_NUM_PER_DEV)%nat
}.

Lemma no_subs_ok : subs_ok noSubscriptions.
Proof.
  split; cbn.
  - intros q. rewrite lookup_empty. cbn. by apply users_none.
  - unfold MAX_SUBSCRIBE_NUM_PER_DB. rewrite map_size_empty. lia.
  - rewrite map_size_empty. lia.
  - intros d mine E. by rewrite lookup_empty in E.
Qed.

(** A device's queries change at one place. *)
Lemma devices_insert (s : Subscriptions) (d : DeviceID) (mine : Mine) : is_Some (subscribeMap s !! d) ->
  base.size (<[d := mine]> (subscribeMap s)) = base.size (subscribeMap s).
Proof. intros Hd. by apply map_size_insert_Some. Qed.

Lemma device_insert (s : Subscriptions) (d : DeviceID) (mine : Mine) :
  (base.size mine <= MAX_SUBSCRIBE_NUM_PER_DEV)%nat -> subs_ok s ->
  forall d' mine', <[d := mine]> (subscribeMap s) !! d' = Some mine' -> (base.size mine' <= MAX_SUBSCRIBE_NUM_PER_DEV)%nat.
Proof.
  intros Hm [_ _ _ Hd] d' mine'. destruct (decide (d' = d)) as [-> | Hne].
  - rewrite lookup_insert_eq. by intros [= <-].
  - rewrite lookup_insert_ne by done. apply Hd.
Qed.

Lemma size_insert_le {A} (m : gmap QueryId A) q v :
  base.size (<[q := v]> m) = if decide (is_Some (m !! q)) then base.size m else S (base.size m).
Proof.
  case_decide as Hq; [by apply map_size_insert_Some |]. apply map_size_insert_None.
  by apply eq_None_not_Some.
Qed.

(** The count of one query changes. *)
Lemma counted_others (s : Subscriptions) (m' : SubscribeMap) (t' : SubscribedTotalMap) id :
  subs_ok s ->
  (forall q, q <> id -> users q m' = users q (subscribeMap s) /\ t' !! q = subscribedTotalMap s !! q) ->
  counted id (t' !! id) (users id m') ->
  forall q, counted q (t' !! q) (users q m').
Proof.
  intros [Hc _ _ _] Ho Hid q. destruct (decide (q = id)) as [-> | Hne]; [done |].
  destruct (Ho q Hne) as [-> ->]. apply Hc.
Qed.

Lemma reserve_ok d q query s : subs_ok s -> GetIdentify query = Some q -> subs_ok (ReserveSubscribeQuery d q query s).2.
Proof.
  intros Hs Hq. unfold ReserveSubscribeQuery.
  destruct (bool_decide (subscribedTotalMap s !! q = None) && _) eqn:L1; [done |].
  destruct (bool_decide (subscribeMap s !! d = None) && _) eqn:L2; [done |].
  destruct (bool_decide (is_Some (subscribeMap s !! d)) && _ && _) eqn:L3; [done |].
  destruct (bool_decide (_ = Some ACTIVE)) eqn:L4; [done |]. apply bool_decide_eq_false in L4 as Ha. cbn [snd].
  pose proof (so_count s Hs) as Hc. pose proof (users_delete q d (subscribeMap s)) as Hu.
  set (mine := default ∅ (subscribeMap s !! d)) in *.
  assert (Hmine : (base.size mine <= MAX_SUBSCRIBE_NUM_PER_DEV)%nat).
  { subst mine. destruct (subscribeMap s !! d) as [mi|] eqn:E; cbn; [by apply (so_device s Hs) in E |].
    rewrite map_size_empty. lia. }
  split; cbn [subscribeMap subscribedTotalMap].
  - apply (counted_others s _ _ q Hs).
    + intros q' Hne. split.
      * rewrite users_insert, (users_delete q' d (subscribeMap s)). fold mine.
        destruct (bool_decide (mine !! q = None)) eqn:Hm; [| done]. by rewrite uses_n_insert, decide_False by done.
      * destruct (subscribedTotalMap s !! q) as [[query' n]|] eqn:Et; [| by rewrite lookup_insert_ne by done].
        destruct (bool_decide (mine !! q = None)) eqn:Hm; [by rewrite lookup_insert_ne by done | done].
    + specialize (Hc q). rewrite users_insert. rewrite uses_n_spec in Hu.
      destruct (bool_decide_reflect (mine !! q = None)) as [Hm | Hm].
      * rewrite uses_n_insert, decide_True by done. rewrite decide_True in Hu by done.
        destruct (subscribedTotalMap s !! q) as [[query' n]|] eqn:Et; rewrite lookup_insert_eq; cbn in Hc |- *.
        -- destruct Hc as (-> & ? & ?). split; [lia |]. split; [lia | done].
        -- split; [lia |]. split; [lia | done].
      * rewrite uses_n_spec, decide_False by done. rewrite decide_False in Hu by done.
        destruct (subscribedTotalMap s !! q) as [[query' n]|] eqn:Et; [| cbn in Hc; lia].
        rewrite Et. cbn in Hc |- *. destruct Hc as (-> & ? & ?). split; [lia | split; [lia | done]].
  - pose proof (so_total s Hs). destruct (subscribedTotalMap s !! q) as [[query' n]|] eqn:Et.
    + destruct (bool_decide (mine !! q = None)) eqn:Hm; [| done]. rewrite size_insert_le, Et, decide_True by eauto. done.
    + rewrite size_insert_le, Et, decide_False by (by intros [? ?]).
      rewrite bool_decide_eq_true_2 in L1 by done. cbn [andb] in L1. apply Nat.leb_gt in L1. lia.
  - pose proof (so_devices s Hs). destruct (subscribeMap s !! d) as [mi|] eqn:E.
    + rewrite devices_insert by eauto. done.
    + rewrite map_size_insert_None by done. rewrite bool_decide_eq_true_2 in L2 by done.
      cbn [andb] in L2. apply Nat.leb_gt in L2. lia.
  - apply device_insert; [| done]. destruct (bool_decide_reflect (mine !! q = None)) as [Hm | Hm]; [| done].
    rewrite map_size_insert_None by done. subst mine.
    destruct (subscribeMap s !! d) as [mi|] eqn:E; cbn [default id] in *; [| rewrite map_size_empty; unfold MAX_SUBSCRIBE_NUM_PER_DEV; lia].
    rewrite bool_decide_eq_true_2 in L3 by eauto. cbn [andb] in L3. apply Nat.leb_gt in L3. lia.
Qed.

Lemma active_ok d q s : subs_ok s -> subs_ok (ActiveSubscribeQuery d q s).2.
Proof.
  intros Hs. unfold ActiveSubscribeQuery.
  destruct (subscribedTotalMap s !! q) as [e|] eqn:Et; [| done].
  destruct (subscribeMap s !! d) as [mine|] eqn:Ed; [| done].
  destruct (mine !! q) as [st|] eqn:Eq; [| done]. cbn [snd].
  split; cbn [subscribeMap subscribedTotalMap]; [| apply Hs |..].
  - intros q'. rewrite users_insert. pose proof (so_count s Hs q') as Hc.
    rewrite (users_delete q' d), Ed in Hc. cbn [default id] in Hc.
    rewrite uses_n_insert. destruct (decide (q' = q)) as [-> |]; [| done].
    by rewrite uses_n_spec, decide_False in Hc by congruence.
  - rewrite devices_insert by eauto. apply Hs.
  - apply device_insert; [| done]. rewrite map_size_insert_Some by eauto. by apply (so_device s Hs) in Ed.
Qed.

Lemma drop_ok d q mine st s : subs_ok s -> subscribeMap s !! d = Some mine -> mine !! q = Some st ->
  subs_ok (drop_query d q mine s).
Proof.
  intros Hs Ed Eq. unfold drop_query.
  pose proof (so_count s Hs q) as Hc. rewrite (users_delete q d), Ed in Hc. cbn [default id] in Hc.
  rewrite uses_n_spec, decide_False in Hc by congruence.
  destruct (subscribedTotalMap s !! q) as [[query n]|] eqn:Et; [| cbn in Hc; lia].
  cbn in Hc. destruct Hc as (-> & _ & Hid).
  split; cbn [subscribeMap subscribedTotalMap].
  - apply (counted_others s _ _ q Hs).
    + intros q' Hne. split.
      * rewrite users_insert, (users_delete q' d (subscribeMap s)), Ed. cbn [default id].
        by rewrite uses_n_delete, decide_False by done.
      * case_match; [by rewrite lookup_delete_ne by done | by rewrite lookup_insert_ne by done].
    + rewrite users_insert, uses_n_delete, decide_True by done.
      destruct (Z.leb_spec (Z.of_nat (users q (delete d (subscribeMap s)) + 1) - 1) 0).
      * rewrite lookup_delete_eq. cbn. lia.
      * rewrite lookup_insert_eq. cbn. split; [lia | split; [lia | done]].
  - pose proof (so_total s Hs). case_match.
    + rewrite map_size_delete_Some by eauto. lia.
    + rewrite size_insert_le, Et, decide_True by eauto. done.
  - rewrite devices_insert by eauto. apply Hs.
  - apply device_insert; [| done]. pose proof (so_device s Hs d mine Ed).
    rewrite map_size_delete_Some by eauto. lia.
Qed.

Lemma delete_ok d q s : subs_ok s -> subs_ok (DeleteSubscribeQuery d q s).
Proof.
  intros Hs. unfold DeleteSubscribeQuery. destruct (subscribeMap s !! d) as [mine|] eqn:Ed; [| done].
  destruct (mine !! q) as [[]|] eqn:Eq; [by eapply drop_ok | done | done].
Qed.

Lemma remove_ok d q s : subs_ok s -> subs_ok (RemoveSubscribeQuery d q s).
Proof.
  intros Hs. unfold RemoveSubscribeQuery. destruct (subscribeMap s !! d) as [mine|] eqn:Ed; [| done].
  destruct (mine !! q) as [st|] eqn:Eq; [by eapply drop_ok | done].
Qed.

(** What [release_query] leaves of an entry. *)
Definition released (entry : option (QuerySyncObject * Z)) : option (QuerySyncObject * Z) :=
  '(query, n) ← entry; if n <=? 1 then None else Some (query, n - 1).

Lemma release_lookup t q q' : (forall query n, t !! q = Some (query, n) -> 0 < n) ->
  release_query t q !! q' = if decide (q' = q) then released (t !! q) else t !! q'.
Proof.
  intros Hn. unfold release_query. destruct (t !! q) as [[query n]|] eqn:E; cbn [released mbind option_bind].
  - specialize (Hn _ _ eq_refl). rewrite (proj2 (Z.ltb_lt 0 n)) by done.
    destruct (decide (q' = q)) as [-> | Hne].
    + destruct (Z.eqb_spec (n - 1) 0); destruct (Z.leb_spec n 1); try lia; [apply lookup_delete_eq | apply lookup_insert_eq].
    + case_match; [by rewrite lookup_delete_ne by done | by rewrite lookup_insert_ne by done].
  - destruct (decide (q' = q)) as [-> |]; [done | done].
Qed.

Lemma release_all ids : NoDup ids -> forall t : SubscribedTotalMap,
  (forall q query n, t !! q = Some (query, n) -> 0 < n) ->
  forall q, fold_left release_query ids t !! q = if decide (q ∈ ids) then released (t !! q) else t !! q.
Proof.
  induction 1 as [|id ids Hid Hnd IH]; intros t Ht q; cbn [fold_left].
  { by rewrite decide_False by apply not_elem_of_nil. }
  rewrite IH.
  - rewrite release_lookup by apply Ht.
    destruct (decide (q = id)) as [-> | Hne].
    + rewrite decide_False by done. by rewrite decide_True by apply list_elem_of_here.
    + destruct (decide (q ∈ ids)); [by rewrite decide_True by by apply list_elem_of_further |].
      rewrite decide_False; [done |]. by intros [? | ?]%elem_of_cons.
  - intros q' query n. rewrite release_lookup by apply Ht. case_decide as Hq; [| apply Ht].
    subst q'. destruct (t !! id) as [[query' n']|] eqn:E; [| done]. cbn.
    destruct (Z.leb_spec n' 1); [done |]. intros [= <- <-]. lia.
Qed.

Lemma in_order_keys {A} (m : gmap Key A) : NoDup (in_order m).*1 /\ forall k, k ∈ (in_order m).*1 <-> is_Some (m !! k).
Proof.
  assert (Hp : (in_order m).*1 ≡ₚ (map_to_list m).*1) by (apply fmap_Permutation, merge_sort_Permutation).
  split.
  - rewrite Hp. apply NoDup_fst_map_to_list.
  - intros k. rewrite Hp, list_elem_of_fmap. split.
    + intros ([k' v] & -> & Hin%elem_of_map_to_list). eauto.
    + intros [v Hv]. exists (k, v). by rewrite elem_of_map_to_list.
Qed.

Lemma release_size ids : forall t : SubscribedTotalMap, (base.size (fold_left release_query ids t) <= base.size t)%nat.
Proof.
  induction ids as [|id ids IH]; intros t; cbn [fold_left]; [done |]. etrans; [apply IH |].
  unfold release_query. destruct (t !! id) as [[query n]|] eqn:E; [| done].
  repeat case_match; try (rewrite map_size_delete_Some by eauto; lia);
    rewrite size_insert_le, E, decide_True by eauto; done.
Qed.

Lemma clear_ok d s : subs_ok s -> subs_ok (ClearSubscribeQuery d s).
Proof.
  intros Hs. unfold ClearSubscribeQuery. destruct (subscribeMap s !! d) as [mine|] eqn:Ed; [| done].
  destruct (in_order_keys mine) as [Hnd Hk].
  split; cbn [subscribeMap subscribedTotalMap].
  - intros q. rewrite release_all; [| done |].
    2:{ intros q' query n Et. pose proof (so_count s Hs q') as Hc. rewrite Et in Hc. cbn in Hc. lia. }
    pose proof (so_count s Hs q) as Hc. rewrite (users_delete q d), Ed in Hc. cbn [default id] in Hc.
    rewrite uses_n_spec in Hc. destruct (decide (q ∈ (in_order mine).*1)) as [Hin | Hin]; rewrite Hk in Hin.
    + rewrite decide_False in Hc by (destruct Hin; congruence).
      destruct (subscribedTotalMap s !! q) as [[query n]|]; cbn in Hc |- *; [| lia].
      destruct Hc as (-> & _ & Hid). destruct (Z.leb_spec (Z.of_nat (users q (delete d (subscribeMap s)) + 1)) 1); cbn; [lia |].
      split; [lia | split; [lia | done]].
    + rewrite decide_True in Hc by (by apply eq_None_not_Some). by rewrite Nat.add_0_r in Hc.
  - etrans; [apply release_size | apply Hs].
  - etrans; [apply map_subseteq_size, delete_subseteq | apply Hs].
  - intros d' mine' E. apply lookup_delete_Some in E as [_ E]. by apply (so_device s Hs) in E.
Qed.

(** Every query a device has subscribed is found. *)
Lemma queries_found s d mine : subs_ok s -> subscribeMap s !! d = Some mine ->
  mapM GetIdentify (GetSubscribeQueries d s) = Some (in_order mine).*1.
Proof.
  intros Hs Ed. unfold GetSubscribeQueries. rewrite Ed.
  assert (Hin : forall x, x ∈ in_order mine -> is_Some (mine !! x.1)).
  { intros x Hx. apply in_order_keys. by apply list_elem_of_fmap_2. }
  induction (in_order mine) as [|[q st] l IH]; [done |]. cbn [omap list_omap fmap list_fmap fst].
  assert (Hq : is_Some (mine !! q)) by (apply (Hin (q, st)), list_elem_of_here).
  pose proof (so_count s Hs q) as Hc. rewrite (users_delete q d), Ed in Hc. cbn [default id] in Hc.
  rewrite uses_n_spec, decide_False in Hc by (destruct Hq; congruence).
  destruct (subscribedTotalMap s !! q) as [[query n]|]; [| cbn in Hc; lia]. cbn in Hc |- *.
  destruct Hc as (_ & _ & ->). cbn. rewrite IH; [done |]. intros x Hx. apply Hin. by apply list_elem_of_further.
Qed.

(** * Runs *)

Inductive SubOp :=
  | SClearRemote (d : DeviceID) | SClearAllRemote | SClearLocal (d : DeviceID)
  | SReserveRemote (d : DeviceID) (q : QuerySyncObject) | SActiveRemote (d : DeviceID) (q : QuerySyncObject)
  | SReserveLocal (d : DeviceID) (q : QuerySyncObject) | SActiveLocal (d : DeviceID) (q : QuerySyncObject)
  | SDeleteLocal (d : DeviceID) (q : QuerySyncObject) | SDeleteRemote (d : DeviceID) (q : QuerySyncObject)
  | SPutUnfinished (d : DeviceID) (qs : list QuerySyncObject)
  | SRemoveRemote (d : DeviceID) (q : QuerySyncObject) | SRemoveLocal (d : DeviceID) (q : QuerySyncObject).

Definition sub_step (m : SubscribeManager) (op : SubOp) : option SubscribeManager :=
  match op with
  | SClearRemote d => Some (ClearRemoteSubscribeQuery d m)
  | SClearAllRemote => Some (ClearAllRemoteQuery m)
  | SClearLocal d => Some (ClearLocalSubscribeQuery d m)
  | SReserveRemote d q => snd <$> ReserveRemoteSubscribeQuery d q m
  | SActiveRemote d q => snd <$> ActiveRemoteSubscribeQuery d q m
  | SReserveLocal d q => snd <$> ReserveLocalSubscribeQuery d q m
  | SActiveLocal d q => snd <$> ActiveLocalSubscribeQuery d q m
  | SDeleteLocal d q => DeleteLocalSubscribeQuery d q m
  | SDeleteRemote d q => DeleteRemoteSubscribeQuery d q m
  | SPutUnfinished d qs => PutLocalUnFiniedSubQueries d qs m
  | SRemoveRemote d q => RemoveRemoteSubscribeQuery d q m
  | SRemoveLocal d q => RemoveLocalSubscribeQuery d q m
  end.

Fixpoint sub_run (m : SubscribeManager) (ops : list SubOp) : option SubscribeManager :=
  match ops with
  | [] => Some m
  | op :: ops => m ← sub_step m op; sub_run m ops
  end.

Definition manager_ok (m : SubscribeManager) : Prop := subs_ok (local_ m) /\ subs_ok (remote_ m).

Lemma sub_step_ok m op m' : manager_ok m -> sub_step m op = Some m' -> manager_ok m'.
Proof.
  intros [Hl Hr] E. destruct op; cbn in E;
    unfold ClearRemoteSubscribeQuery, ClearAllRemoteQuery, ClearLocalSubscribeQuery, ReserveRemoteSubscribeQuery,
      ActiveRemoteSubscribeQuery, ReserveLocalSubscribeQuery, ActiveLocalSubscribeQuery, DeleteLocalSubscribeQuery,
      DeleteRemoteSubscribeQuery, PutLocalUnFiniedSubQueries, RemoveRemoteSubscribeQuery, RemoveLocalSubscribeQuery in E;
    try (destruct (GetIdentify q) as [id|] eqn:Eid; [| discriminate E]; cbn in E).
  - injection E as <-. split; [done | by apply clear_ok].
  - injection E as <-. split; [done | apply no_subs_ok].
  - injection E as <-. split; [by apply clear_ok | done].
  - destruct (ReserveSubscribeQuery d id q (remote_ m)) as [e s] eqn:Es. injection E as <-.
    split; [done |]. change s with (e, s).2. rewrite <- Es. by apply reserve_ok.
  - destruct (ActiveSubscribeQuery d id (remote_ m)) as [e s] eqn:Es. injection E as <-.
    split; [done |]. change s with (e, s).2. rewrite <- Es. by apply active_ok.
  - destruct (ReserveSubscribeQuery d id q (local_ m)) as [e s] eqn:Es. injection E as <-.
    split; [| done]. change s with (e, s).2. rewrite <- Es. by apply reserve_ok.
  - destruct (ActiveSubscribeQuery d id (local_ m)) as [e s] eqn:Es.
    assert (subs_ok s) by (change s with (e, s).2; rewrite <- Es; by apply active_ok).
    destruct (e =? E_OK); injection E as <-; by split.
  - injection E as <-. split; [by apply delete_ok | done].
  - injection E as <-. split; [done | by apply delete_ok].
  - destruct qs as [|q qs]; [by injection E as <-; split |].
    destruct (mapM GetIdentify (q :: qs)); [| discriminate E]. injection E as <-. by split.
  - injection E as <-. split; [done | by apply remove_ok].
  - assert (subs_ok (RemoveSubscribeQuery d id (local_ m))) by by apply remove_ok.
    repeat case_match; injection E as <-; by split.
Qed.

(** C36: In every state that a [SubscribeManager] can reach by any calls, in any order and with
    any devices and queries, the subscriptions are consistent, at this device and of the
    others: the number kept for a query is the number of the devices that have it, a query
    that no device has is not kept, there are at most 8 queries and 32 devices, and at most 4
    queries of a device; and asked for the queries of a device it gives exactly those that
    the device has subscribed. *)
Theorem subscriptions_consistent ops m : sub_run newSubscribeManager ops = Some m ->
  subs_ok (local_ m) /\ subs_ok (remote_ m) /\
  forall d, match subscribeMap (remote_ m) !! d with
            | Some mine => GetRemoteSubscribeQueryIds d m = (in_order mine).*1
                           /\ mapM GetIdentify (GetRemoteSubscribeQueries d m) = Some (in_order mine).*1
            | None => GetRemoteSubscribeQueryIds d m = [] /\ GetRemoteSubscribeQueries d m = []
            end.
Proof.
  intros E. assert (Hok : manager_ok m).
  { revert E. assert (manager_ok newSubscribeManager) as H' by (split; apply no_subs_ok). revert H'.
    generalize newSubscribeManager as m0. induction ops as [|op ops IH]; intros m0 H' E.
    - by injection E as <-.
    - cbn [sub_run] in E. apply bind_Some in E as (m1 & E1 & E). apply (IH m1); [| done]. by apply (sub_step_ok m0 op). }
  destruct Hok as [Hl Hr]. split; [done |]. split; [done |]. intros d.
  destruct (subscribeMap (remote_ m) !! d) as [mine|] eqn:Ed.
  - split; [| by apply queries_found]. unfold GetRemoteSubscribeQueryIds. rewrite Ed.
    apply filter_id. apply Forall_forall. intros q Hq%in_order_keys.
    pose proof (so_count _ Hr q) as Hc. rewrite (users_delete q d), Ed in Hc. cbn [default id] in Hc.
    rewrite uses_n_spec, decide_False in Hc by (destruct Hq; congruence).
    destruct (subscribedTotalMap (remote_ m) !! q); [eauto | cbn in Hc; lia].
  - unfold GetRemoteSubscribeQueryIds, GetRemoteSubscribeQueries, GetSubscribeQueries. by rewrite Ed.
Qed.

End Facts.

(** * A run *)

Module SubscribeSample.

#[local] Instance hash : ValueHash := {| value_hash := fun bs => Some bs |}.
#[local] Existing Instance x86_host.

Definition prefix (k : byte) : QuerySyncObject :=
  mkQuerySyncObject [] [k] SYNC_DATA_TABLE [] [] true false false INVALID_LIMIT 0 false false true false 0.

(** A device subscribes two queries, another one of them, and the first goes. *)
Definition ops : list SubOp :=
  [SReserveRemote [x61] (prefix x01); SActiveRemote [x61] (prefix x01); SReserveRemote [x61] (prefix x02);
   SReserveRemote [x62] (prefix x01); SDeleteRemote [x61] (prefix x02); SClearRemote [x61]].

(** The queries that are kept after a run, and what a device is told that subscribes then. *)
Definition then_reserve (ops : list SubOp) (device : DeviceID) : option (nat * Z) :=
  m ← sub_run newSubscribeManager ops;
  '(errCode, _) ← ReserveRemoteSubscribeQuery device (prefix x01) m;
  Some (base.size (subscribedTotalMap (remote_ m)), errCode).

Lemma subscriptions_consistent_witness :
  then_reserve ops [x63] = Some (1%nat, E_OK) /\
  match sub_run newSubscribeManager ops with
  | Some m => subs_ok (local_ m) /\ subs_ok (remote_ m)
  | None => False
  end.
Proof.
  split; [vm_compute; reflexivity |].
  destruct (sub_run newSubscribeManager ops) as [m|] eqn:E; [| vm_compute in E; discriminate E].
  destruct (subscriptions_consistent ops m E) as (Hl & Hr & _). exact (conj Hl Hr).
Defined.

(** A device that has given up its last query still takes one of the 32 places: after 32
    devices have come and gone, nobody has subscribed anything and nobody can. *)
Definition come_and_gone : list SubOp :=
  concat ((fun n => let d := [z2b (Z.of_nat n)] in [SReserveRemote d (prefix x01); SRemoveRemote d (prefix x01)]) <$> seq 0 32).

Lemma places_stay_taken : then_reserve come_and_gone [xff] = Some (0%nat, - E_MAX_LIMITS).
Proof. vm_compute. reflexivity. Qed.

End SubscribeSample.
