(* ===== verification/SyncWorld.v ===== *)
(** The state of the synchronization with one device: the task context
    ([SyncTaskContext], [SingleVerSyncTaskContext], [SingleVerKvSyncTaskContext]), the
    operations of the application, the sliding window of [SingleVerDataSync], the meta data
    with the storage, and what has been sent; with the interface of the storage
    ([SyncGenericInterface]), the answers of the world outside, and a monad for the code
    that works on all of it. *)

From S2P Require Import Prelude Memory CommTypes AppMessage SyncStorage CommitNotify QuerySync KvEntry.
From S2P Require Import SyncPacket DbAbility WaterMark MetaData SyncRead SubscribeManager.
From Stdlib Require Import ZArith Lia.
From Stdlib Require Import Strings.Byte.
From stdpp Require Import base numbers list gmap.

Open Scope Z_scope.

(** A record with one field changed: [c] is its expansion and [old] the field in it. *)
Ltac put_field c old v :=
  let c := eval red in c in
  let t := eval pattern old in c in
  match t with ?f _ => let r := eval cbv beta in (f v) in exact r end.

(** * Modes and status codes (syncer/src/sync_types.h, sync_operation.h) *)

Definition PUSH : Z := 0.
Definition PULL : Z := 1.
Definition PUSH_AND_PULL : Z := 2.
Definition AUTO_PUSH : Z := 3.
Definition AUTO_PULL : Z := 4.
Definition RESPONSE_PULL : Z := 5.
Definition QUERY_PULL : Z := 7.
Definition QUERY_PUSH_PULL : Z := 8.
Definition SUBSCRIBE_QUERY : Z := 9.
Definition UNSUBSCRIBE_QUERY : Z := 10.
Definition AUTO_SUBSCRIBE_QUERY : Z := 11.
Definition QUERY_SYNC_MODE_BASE : Z := QUERY_PUSH.

Inductive SyncType := MANUAL_FULL_SYNC_TYPE | AUTO_SYNC_TYPE | QUERY_SYNC_TYPE | INVALID_SYNC_TYPE.

#[export] Instance sync_type_eq : EqDecision SyncType.
Proof. solve_decision. Defined.

Definition OP_WAITING : Z := 0.
Definition OP_SYNCING : Z := 1.
Definition OP_SEND_FINISHED : Z := 2.
Definition OP_RECV_FINISHED : Z := 3.
Definition OP_FINISHED_ALL : Z := 4.
Definition OP_FAILED : Z := 5.
Definition OP_TIMEOUT : Z := 6.
Definition OP_PERMISSION_CHECK_FAILED : Z := 7.
Definition OP_COMM_ABNORMAL : Z := 8.
Definition OP_EKEYREVOKED_FAILURE : Z := 10.

Definition NO_NEED_RETRY : Z := 0.
Definition NEED_RETRY : Z := 1.

(** [SingleVerSyncTarget]: the device is asked ([REQUEST]) or asks ([RESPONSE]). An operation
    is a pointer. *)
Inductive TaskType := REQUEST | RESPONSE.

Record SyncTarget := mkSyncTarget {
  tg_operation : option Z;
  tg_taskType : option TaskType;
  tg_mode : Z;
  tg_endWaterMark : Z;
  tg_responseSessionId : Z;
  tg_query : QuerySyncObject;
  tg_isQuerySync : bool
}.

(** [SyncOperation], less the callbacks themselves; [op_userCallback] says whether there is one. *)
Record SyncOperation := mkSyncOperation {
  op_devices : list DeviceID;
  op_syncId : Z;
  op_mode : Z;
  op_userCallback : bool;
  op_statuses : gmap DeviceID Z;
  op_isBlockSync : bool;
  op_isAutoSync : bool;
  op_isFinished : bool;
  op_isKilled : bool;
  op_query : QuerySyncObject;
  op_isQuerySync : bool;
  op_isAutoSubscribe : bool
}.

Record SecurityOption := mkSecurityOption { securityLabel : Z; securityFlag : Z }.

(** * The task context *)

Record TaskContext {Tok : Type} := mkTaskContext {
  cx_requestTargetQueue : list SyncTarget;
  cx_responseTargetQueue : list SyncTarget;
  cx_syncOperation : option Z;
  cx_syncId : Z;
  cx_mode : Z;
  cx_isAutoSync : bool;
  cx_status : Z;
  cx_taskExecStatus : Z;
  cx_deviceId : DeviceID;
  cx_timeOffset : Z;
  cx_retryTime : Z;
  cx_isNeedRetry : Z;
  cx_requestSessionId : Z;
  cx_lastRequestSessionId : Z;
  cx_sequenceId : Z;
  cx_timerId : Z;
  cx_timeout : Z;
  cx_remoteSoftwareVersion : Z;
  cx_remoteSoftwareVersionId : Z;
  cx_isCommNormal : bool;
  cx_taskErrCode : Z;
  cx_packetId : Z;
  cx_syncTaskRetryStatus : bool;
  cx_isSyncRetry : bool;
  cx_negotiationCount : Z;
  cx_isAutoSubscribe : bool;
  cx_isNeedResetAbilitySync : bool;
  cx_token : option Tok;
  cx_endMark : Z;
  cx_responseSessionId : Z;
  cx_needClearRemoteStaleData : bool;
  cx_remoteSecOption : SecurityOption;
  cx_isReceivcPermitChecked : bool;
  cx_isSendPermitChecked : bool;
  cx_isSchemaSync : bool;
  cx_isReceiveWaterMarkErr : bool;
  cx_remoteDbAbility : DbAbility;
  cx_subManager : bool;
  cx_lastFullSyncTaskStatus : Z;
  cx_lastQuerySyncTaskStatusMap : gmap (list byte) Z;
  cx_query : QuerySyncObject;
  cx_isQuerySync : bool;
  cx_permitSync : bool
}.

Arguments TaskContext : clear implicits.

Section Context_.
Context {Tok : Type}.
Implicit Types c : TaskContext Tok.

Definition same_context c : TaskContext Tok :=
  mkTaskContext Tok (cx_requestTargetQueue c) (cx_responseTargetQueue c) (cx_syncOperation c) (cx_syncId c) (cx_mode c)
    (cx_isAutoSync c) (cx_status c) (cx_taskExecStatus c) (cx_deviceId c) (cx_timeOffset c) (cx_retryTime c)
    (cx_isNeedRetry c) (cx_requestSessionId c) (cx_lastRequestSessionId c) (cx_sequenceId c) (cx_timerId c) (cx_timeout c)
    (cx_remoteSoftwareVersion c) (cx_remoteSoftwareVersionId c) (cx_isCommNormal c) (cx_taskErrCode c) (cx_packetId c)
    (cx_syncTaskRetryStatus c) (cx_isSyncRetry c) (cx_negotiationCount c) (cx_isAutoSubscribe c)
    (cx_isNeedResetAbilitySync c) (cx_token c) (cx_endMark c) (cx_responseSessionId c) (cx_needClearRemoteStaleData c)
    (cx_remoteSecOption c) (cx_isReceivcPermitChecked c) (cx_isSendPermitChecked c) (cx_isSchemaSync c)
    (cx_isReceiveWaterMarkErr c) (cx_remoteDbAbility c) (cx_subManager c) (cx_lastFullSyncTaskStatus c)
    (cx_lastQuerySyncTaskStatusMap c) (cx_query c) (cx_isQuerySync c) (cx_permitSync c).

Definition set_requestTargetQueue c (v : list SyncTarget) : TaskContext Tok :=
  ltac:(put_field (same_context c) (cx_requestTargetQueue c) v).
Definition set_responseTargetQueue c (v : list SyncTarget) : TaskContext Tok :=
  ltac:(put_field (same_context c) (cx_responseTargetQueue c) v).
Definition set_syncOperation c (v : option Z) : TaskContext Tok :=
  ltac:(put_field (same_context c) (cx_syncOperation c) v).
Definition set_syncId c (v : Z) : TaskContext Tok := ltac:(put_field (same_context c) (cx_syncId c) v).
Definition SetMode c (v : Z) : TaskContext Tok := ltac:(put_field (same_context c) (cx_mode c) v).
Definition set_isAutoSync c (v : bool) : TaskContext Tok := ltac:(put_field (same_context c) (cx_isAutoSync c) v).
Definition set_status c (v : Z) : TaskContext Tok := ltac:(put_field (same_context c) (cx_status c) v).
Definition SetTaskExecStatus c (v : Z) : TaskContext Tok := ltac:(put_field (same_context c) (cx_taskExecStatus c) v).
Definition SetTimeOffset c (v : Z) : TaskContext Tok := ltac:(put_field (same_context c) (cx_timeOffset c) v).
Definition SetRetryTime c (v : Z) : TaskContext Tok := ltac:(put_field (same_context c) (cx_retryTime c) v).
Definition SetRetryStatus c (v : Z) : TaskContext Tok := ltac:(put_field (same_context c) (cx_isNeedRetry c) v).
Definition set_requestSessionId c (v : Z) : TaskContext Tok := ltac:(put_field (same_context c) (cx_requestSessionId c) v).
Definition set_lastRequestSessionId c (v : Z) : TaskContext Tok :=
  ltac:(put_field (same_context c) (cx_lastRequestSessionId c) v).
Definition set_sequenceId c (v : Z) : TaskContext Tok := ltac:(put_field (same_context c) (cx_sequenceId c) v).
Definition set_timerId c (v : Z) : TaskContext Tok := ltac:(put_field (same_context c) (cx_timerId c) v).
Definition set_timeout c (v : Z) : TaskContext Tok := ltac:(put_field (same_context c) (cx_timeout c) v).
Definition set_remoteSoftwareVersion c (v : Z) : TaskContext Tok :=
  ltac:(put_field (same_context c) (cx_remoteSoftwareVersion c) v).
Definition set_remoteSoftwareVersionId c (v : Z) : TaskContext Tok :=
  ltac:(put_field (same_context c) (cx_remoteSoftwareVersionId c) v).
Definition set_isCommNormal c (v : bool) : TaskContext Tok := ltac:(put_field (same_context c) (cx_isCommNormal c) v).
Definition SetTaskErrCode c (v : Z) : TaskContext Tok := ltac:(put_field (same_context c) (cx_taskErrCode c) v).
Definition set_packetId c (v : Z) : TaskContext Tok := ltac:(put_field (same_context c) (cx_packetId c) v).
Definition set_syncTaskRetryStatus c (v : bool) : TaskContext Tok :=
  ltac:(put_field (same_context c) (cx_syncTaskRetryStatus c) v).
Definition SetSyncRetry c (v : bool) : TaskContext Tok := ltac:(put_field (same_context c) (cx_isSyncRetry c) v).
Definition set_negotiationCount c (v : Z) : TaskContext Tok := ltac:(put_field (same_context c) (cx_negotiationCount c) v).
Definition set_isAutoSubscribe c (v : bool) : TaskContext Tok := ltac:(put_field (same_context c) (cx_isAutoSubscribe c) v).
Definition SetIsNeedResetAbilitySync c (v : bool) : TaskContext Tok :=
  ltac:(put_field (same_context c) (cx_isNeedResetAbilitySync c) v).
Definition SetContinueToken c (v : option Tok) : TaskContext Tok := ltac:(put_field (same_context c) (cx_token c) v).
Definition SetEndMark c (v : Z) : TaskContext Tok := ltac:(put_field (same_context c) (cx_endMark c) v).
Definition SetResponseSessionId c (v : Z) : TaskContext Tok := ltac:(put_field (same_context c) (cx_responseSessionId c) v).
Definition EnableClearRemoteStaleData c (v : bool) : TaskContext Tok :=
  ltac:(put_field (same_context c) (cx_needClearRemoteStaleData c) v).
Definition SetReceivcPermitCheck c (v : bool) : TaskContext Tok :=
  ltac:(put_field (same_context c) (cx_isReceivcPermitChecked c) v).
Definition SetSendPermitCheck c (v : bool) : TaskContext Tok :=
  ltac:(put_field (same_context c) (cx_isSendPermitChecked c) v).
Definition SetIsSchemaSync c (v : bool) : TaskContext Tok := ltac:(put_field (same_context c) (cx_isSchemaSync c) v).
Definition SetReceiveWaterMarkErr c (v : bool) : TaskContext Tok :=
  ltac:(put_field (same_context c) (cx_isReceiveWaterMarkErr c) v).
Definition set_lastFullSyncTaskStatus c (v : Z) : TaskContext Tok :=
  ltac:(put_field (same_context c) (cx_lastFullSyncTaskStatus c) v).
Definition set_lastQuerySyncTaskStatusMap c (v : gmap (list byte) Z) : TaskContext Tok :=
  ltac:(put_field (same_context c) (cx_lastQuerySyncTaskStatusMap c) v).
Definition SetQuery c (v : QuerySyncObject) : TaskContext Tok := ltac:(put_field (same_context c) (cx_query c) v).
Definition SetQuerySync c (v : bool) : TaskContext Tok := ltac:(put_field (same_context c) (cx_isQuerySync c) v).

End Context_.

(** * The sliding window ([SingleVerDataSync], syncer/src/single_ver_data_sync.h) *)

Record ReSendInfo := mkReSendInfo {
  ri_start : Z;
  ri_end : Z;
  ri_deleteBeginTime : Z;
  ri_deleteEndTime : Z;
  ri_packetId : Z
}.

Record DataSync := mkDataSync {
  ds_mtuSize : Z;
  ds_deviceId : DeviceID;
  ds_mode : Z;
  ds_sessionId : Z;
  ds_reSendMap : gmap Z ReSendInfo;
  ds_windowSize : Z;
  ds_maxSequenceIdHasSent : Z;
  ds_isAllDataHasSent : bool;
  ds_sessionEndTimestamp : Z
}.

Section DataSyncFields.
Implicit Types d : DataSync.

Definition same_data_sync d : DataSync :=
  mkDataSync (ds_mtuSize d) (ds_deviceId d) (ds_mode d) (ds_sessionId d) (ds_reSendMap d) (ds_windowSize d)
    (ds_maxSequenceIdHasSent d) (ds_isAllDataHasSent d) (ds_sessionEndTimestamp d).

Definition set_mtuSize d (v : Z) : DataSync := ltac:(put_field (same_data_sync d) (ds_mtuSize d) v).
Definition set_mode d (v : Z) : DataSync := ltac:(put_field (same_data_sync d) (ds_mode d) v).
Definition set_sessionId d (v : Z) : DataSync := ltac:(put_field (same_data_sync d) (ds_sessionId d) v).
Definition set_reSendMap d (v : gmap Z ReSendInfo) : DataSync := ltac:(put_field (same_data_sync d) (ds_reSendMap d) v).
Definition set_windowSize d (v : Z) : DataSync := ltac:(put_field (same_data_sync d) (ds_windowSize d) v).
Definition set_maxSequenceIdHasSent d (v : Z) : DataSync :=
  ltac:(put_field (same_data_sync d) (ds_maxSequenceIdHasSent d) v).
Definition set_isAllDataHasSent d (v : bool) : DataSync := ltac:(put_field (same_data_sync d) (ds_isAllDataHasSent d) v).
Definition SetSessionEndTimestamp d (v : Z) : DataSync := ltac:(put_field (same_data_sync d) (ds_sessionEndTimestamp d) v).

End DataSyncFields.

(** [begin()] of a map: its least key. *)
Definition least_entry {A} (m : gmap Z A) : option (Z * A) :=
  foldr (fun kv best => match best with
                        | Some b => if kv.1 <? b.1 then Some kv else best
                        | None => Some kv
                        end) None (map_to_list m).

(** [WatchDogController] (syncer/src/sync_state_machine.h), one for each direction. *)
Record WatchDog := mkWatchDog {
  refCount : Z;
  feedDogUpperLimit : Z;
  feedDogCnt : Z;
  feedDogTimerId : Z
}.

Inductive SyncDirectionFlag := SEND | RECEIVE.

(** * The state machine of a device *)

(** [SingleVerSyncStateMachine::State], and [Event], with its numbers below. *)
Inductive State :=
  | IDLE | TIME_SYNC | ABILITY_SYNC | WAIT_FOR_RECEIVE_DATA_FINISH | SYNC_TASK_FINISHED | SYNC_TIME_OUT | INNER_ERR
  | START_INITIACTIVE_DATA_SYNC | START_PASSIVE_DATA_SYNC | SYNC_CONTROL_CMD.

#[export] Instance state_eq : EqDecision State.
Proof. solve_decision. Defined.

Record Machine := mkMachine {
  currentState : State;
  watchDogStarted : bool;
  saveDataNotifyTimerId : Z;
  saveDataNotifyCount : Z;
  currentRemoteVersionId : Z;
  abilitySyncFinished : bool
}.

Definition newMachine : Machine := mkMachine IDLE false 0 0 0 false.

(** * The storage and the world outside *)

Definition SYNC_SVD : Z := 1.
Definition SYNC_RELATION : Z := 3.

(** [SyncGenericInterface] (storage/include/sync_generic_interface.h), with the objects it
    works on: the storage [St] and its tokens [Tok]. To remove the data of a device the
    storage calls the syncer, which resets the water marks of the device. *)
Class SyncGenericInterface (St Tok : Type) := {
  sg_GetSyncData : St -> Z -> Z -> DataSizeSpecInfo -> Z * list SendDataItem * option Tok * St;
  sg_GetSyncData_query : St -> QuerySyncObject -> SyncTimeRange -> Z -> DataSizeSpecInfo
    -> Z * list SendDataItem * option Tok * St;
  sg_GetSyncDataNext : St -> Tok -> DataSizeSpecInfo -> Z * list SendDataItem * option Tok * St;
  sg_ReleaseContinueToken : St -> Tok -> St;
  sg_PutSyncDataWithQuery : St -> QuerySyncObject -> list SendDataItem -> DeviceID -> Z * St;
  sg_RemoveDeviceData : Metadata St -> DeviceID -> bool -> option (Z * Metadata St);
  sg_InterceptData : St -> list SendDataItem -> DeviceID -> DeviceID -> Z * list SendDataItem * St;
  sg_CheckAndInitQueryCondition : St -> QuerySyncObject -> Z * St;
  sg_AddSubscribe : St -> list byte -> QuerySyncObject -> bool -> Z * St;
  sg_RemoveSubscribe : St -> list byte -> Z * St;
  sg_GetCompressionOption : St -> bool * Z;
  sg_GetCompressionAlgo : St -> list Z;
  sg_GetSecurityOption : St -> Z * SecurityOption;
  sg_IsReadable : St -> bool;
  sg_GetInterfaceType : Z
}.

(** What the communicator, the runtime and the memory answer; the number is that of the
    call. [env_alloc] is whether an allocation succeeds, [env_send] the status of
    [SendMessage], [env_timer] that of [SetTimer] with the timer. *)
Class SyncEnv := {
  env_now : nat -> option Z;
  env_alloc : nat -> bool;
  env_send : nat -> SyncMessage -> Z;
  env_mtu : nat -> Z;
  env_timeout : nat -> Z;
  env_remoteVersion : nat -> Z * Z;
  env_schedule : nat -> Z;
  env_timer : nat -> Z * Z;
  env_security : nat -> DeviceID -> SecurityOption -> bool;
  env_permission : nat -> DeviceID -> Z -> Z;
  env_killed : nat -> bool;
  local_identity : DeviceID
}.

(** What others are told. *)
Inductive SyncEvent :=
  | EComplete (syncId : Z) (statuses : gmap DeviceID Z)
  | EFinished (syncId : Z)
  | ETaskAdded
  | EPushFinished (device : DeviceID)
  | EStepScheduled
  | EClearDataMsg.

Record World {St Tok : Type} := mkWorld {
  w_ds : DataSync;
  w_cx : TaskContext Tok;
  w_md : Metadata St;
  w_clock : SysClock;
  w_ops : gmap Z SyncOperation;
  w_sub : SubscribeManager;
  w_sendDog : WatchDog;
  w_recvDog : WatchDog;
  w_machine : Machine;
  w_sent : list SyncMessage;
  w_events : list SyncEvent;
  w_tick : nat
}.

Arguments World : clear implicits.
Arguments mkWorld {St Tok}.

Section WorldFields.
Context {St Tok : Type}.
Implicit Types w : World St Tok.

Definition same_world w : World St Tok :=
  mkWorld (w_ds w) (w_cx w) (w_md w) (w_clock w) (w_ops w) (w_sub w) (w_sendDog w) (w_recvDog w) (w_machine w) (w_sent w)
    (w_events w) (w_tick w).

Definition set_ds w (v : DataSync) : World St Tok := ltac:(put_field (same_world w) (w_ds w) v).
Definition set_cx w (v : TaskContext Tok) : World St Tok := ltac:(put_field (same_world w) (w_cx w) v).
Definition set_md w (v : Metadata St) : World St Tok := ltac:(put_field (same_world w) (w_md w) v).
Definition set_clock w (v : SysClock) : World St Tok := ltac:(put_field (same_world w) (w_clock w) v).
Definition set_ops w (v : gmap Z SyncOperation) : World St Tok := ltac:(put_field (same_world w) (w_ops w) v).
Definition set_sub w (v : SubscribeManager) : World St Tok := ltac:(put_field (same_world w) (w_sub w) v).
Definition set_sendDog w (v : WatchDog) : World St Tok := ltac:(put_field (same_world w) (w_sendDog w) v).
Definition set_recvDog w (v : WatchDog) : World St Tok := ltac:(put_field (same_world w) (w_recvDog w) v).
Definition set_machine w (v : Machine) : World St Tok := ltac:(put_field (same_world w) (w_machine w) v).
Definition set_sent w (v : list SyncMessage) : World St Tok := ltac:(put_field (same_world w) (w_sent w) v).
Definition set_events w (v : list SyncEvent) : World St Tok := ltac:(put_field (same_world w) (w_events w) v).
Definition set_tick w (v : nat) : World St Tok := ltac:(put_field (same_world w) (w_tick w) v).

End WorldFields.

(** * Actions *)

(** [None] is undefined behaviour. *)
Definition Act (St Tok A : Type) : Type := World St Tok -> option (A * World St Tok).

#[export] Instance act_ret {St Tok} : MRet (Act St Tok) := fun A a w => Some (a, w).
#[export] Instance act_bind {St Tok} : MBind (Act St Tok) := fun A B k m w =>
  match m w with Some (a, w) => k a w | None => None end.

Section Actions.
Context {St Tok : Type}.
Abbreviation A_ := (Act St Tok).

(** Any function of the state. *)
Definition on_world {A} (f : World St Tok -> option (A * World St Tok)) : A_ A := f.

(** Reads of the state. *)
Definition cx {A} (f : TaskContext Tok -> A) : A_ A := fun w => Some (f (w_cx w), w).
Definition ds {A} (f : DataSync -> A) : A_ A := fun w => Some (f (w_ds w), w).
Definition storage {A} (f : St -> A) : A_ A := fun w => Some (f (md_store (w_md w)), w).

(** Changes of the state. *)
Definition on_cx (f : TaskContext Tok -> TaskContext Tok) : A_ unit := fun w => Some (tt, set_cx w (f (w_cx w))).
Definition on_ds (f : DataSync -> DataSync) : A_ unit := fun w => Some (tt, set_ds w (f (w_ds w))).
Definition emit (e : SyncEvent) : A_ unit := fun w => Some (tt, set_events w (w_events w ++ [e])).

(** An answer from outside. *)
Definition ask {A} (f : nat -> A) : A_ A := fun w => Some (f (w_tick w), set_tick w (S (w_tick w))).

(** A call of the storage, of the meta data, of the subscriptions. *)
Definition on_storage {A} (f : St -> A * St) : A_ A := fun w =>
  let '(a, st) := f (md_store (w_md w)) in Some (a, set_md w (set_store (w_md w) st)).
Definition on_meta {A} (f : Metadata St -> A * Metadata St) : A_ A := fun w =>
  let '(a, m) := f (w_md w) in Some (a, set_md w m).
Definition try_meta {A} (f : Metadata St -> option (A * Metadata St)) : A_ A := fun w =>
  '(a, m) ← f (w_md w); Some (a, set_md w m).
Definition try_sub {A} (f : SubscribeManager -> option (A * SubscribeManager)) : A_ A := fun w =>
  '(a, s) ← f (w_sub w); Some (a, set_sub w s).

(** A value that exists unless computing it is undefined. *)
Definition defined {A} (o : option A) : A_ A := fun w => a ← o; Some (a, w).

End Actions.
