(* ===== verification/SyncTask.v ===== *)
(** Model of the tasks of a synchronization: [SyncOperation] (syncer/src/sync_operation.cpp),
    the targets (sync_target.cpp, single_ver_sync_target.cpp) and the task context of a
    device (sync_task_context.cpp, single_ver_sync_task_context.cpp,
    single_ver_kv_sync_task_context.cpp), less the state machine it owns. *)

From S2P Require Import Prelude Memory CommTypes Numerals AppMessage SyncStorage CommitNotify QuerySync KvEntry.
From S2P Require Import SyncPacket DbAbility WaterMark MetaData TimeHelper SubscribeManager SyncWorld.
From Stdlib Require Import ZArith Lia.
From Stdlib Require Import Strings.Byte.
From stdpp Require Import base numbers list gmap.

Open Scope Z_scope.

Definition AUTO_RETRY_TIMES : Z := 3.
Definition MANUAL_RETRY_TIMES : Z := 1.
Definition NEGOTIATION_LIMIT : Z := 2.
Definition TASK_INIT : Z := 0.
Definition RUNNING : Z := 1.

Definition is_ok (errCode : Z) : bool := errCode =? E_OK.

(** * Modes *)

Definition TransferSyncMode (mode : Z) : Z :=
  if (QUERY_PUSH <=? mode) && (mode <=? QUERY_PUSH_PULL) then mode - QUERY_SYNC_MODE_BASE else mode.

Definition GetSyncType (mode : Z) : SyncType :=
  if (mode =? PUSH) || (mode =? PULL) || (mode =? PUSH_AND_PULL) || (mode =? RESPONSE_PULL) then MANUAL_FULL_SYNC_TYPE
  else if (mode =? AUTO_PULL) || (mode =? AUTO_PUSH) then AUTO_SYNC_TYPE
  else if (mode =? QUERY_PUSH) || (mode =? QUERY_PULL) || (mode =? QUERY_PUSH_PULL) then QUERY_SYNC_TYPE
  else INVALID_SYNC_TYPE.

Definition is_query_type (t : SyncType) : bool := bool_decide (t = QUERY_SYNC_TYPE).

(** * Operations *)

Section Operation.
Implicit Types op : SyncOperation.

Definition newSyncOperation (syncId : Z) (devices : list DeviceID) (mode : Z) (userCallback isBlockSync : bool)
    : SyncOperation :=
  mkSyncOperation devices syncId mode userCallback ∅ isBlockSync false false false newQuerySyncObject false false.

Definition same_operation op : SyncOperation :=
  mkSyncOperation (op_devices op) (op_syncId op) (op_mode op) (op_userCallback op) (op_statuses op) (op_isBlockSync op)
    (op_isAutoSync op) (op_isFinished op) (op_isKilled op) (op_query op) (op_isQuerySync op) (op_isAutoSubscribe op).

Definition set_statuses op (v : gmap DeviceID Z) : SyncOperation := ltac:(put_field (same_operation op) (op_statuses op) v).
Definition set_isFinished op (v : bool) : SyncOperation := ltac:(put_field (same_operation op) (op_isFinished op) v).

(** [insert] keeps what is there. *)
Definition op_Initialize op : SyncOperation :=
  let statuses := fold_left (fun m d => match m !! d with Some _ => m | None => <[d := OP_WAITING]> m end)
                    (op_devices op) (op_statuses op) in
  let '(mode, auto, sub) :=
    if op_mode op =? AUTO_PUSH then (PUSH, true, op_isAutoSubscribe op)
    else if op_mode op =? AUTO_PULL then (PULL, true, op_isAutoSubscribe op)
    else if op_mode op =? AUTO_SUBSCRIBE_QUERY then (SUBSCRIBE_QUERY, op_isAutoSync op, true)
    else (op_mode op, op_isAutoSync op, op_isAutoSubscribe op) in
  mkSyncOperation (op_devices op) (op_syncId op) mode (op_userCallback op) statuses (op_isBlockSync op) auto
    (op_isFinished op) (op_isKilled op) (op_query op) (op_isQuerySync op) sub.

Definition op_SetStatus op (deviceId : DeviceID) (status : Z) : SyncOperation :=
  if op_isKilled op then op
  else if op_isFinished op then op
  else match op_statuses op !! deviceId with
       | None => op
       | Some old => if OP_FINISHED_ALL <=? old then op else set_statuses op (<[deviceId := status]> (op_statuses op))
       end.

Definition op_SetUnfinishedDevStatus op (status : Z) : SyncOperation :=
  if op_isKilled op then op
  else if op_isFinished op then op
  else set_statuses op ((fun old => if OP_FINISHED_ALL <=? old then old else status) <$> op_statuses op).

Definition op_GetStatus op (deviceId : DeviceID) : Z := default (- E_INVALID_ARGS) (op_statuses op !! deviceId).

Definition op_CheckIsAllFinished op : bool :=
  bool_decide (map_Forall (fun _ status => OP_FINISHED_ALL <= status) (op_statuses op)).

Definition op_SetQuery op (query : QuerySyncObject) : SyncOperation :=
  let mode := if negb (op_mode op =? SUBSCRIBE_QUERY) && negb (op_mode op =? UNSUBSCRIBE_QUERY)
              then op_mode op + QUERY_SYNC_MODE_BASE else op_mode op in
  mkSyncOperation (op_devices op) (op_syncId op) mode (op_userCallback op) (op_statuses op) (op_isBlockSync op)
    (op_isAutoSync op) (op_isFinished op) (op_isKilled op) query true (op_isAutoSubscribe op).

End Operation.

(** * Targets *)

Definition newSyncTarget : SyncTarget := mkSyncTarget None None 0 0 0 newQuerySyncObject false.

Definition SetSyncOperation (t : SyncTarget) (ptr : Z) (op : SyncOperation) : SyncTarget :=
  if negb (op_isKilled op)
  then mkSyncTarget (Some ptr) (Some REQUEST) (op_mode op) (tg_endWaterMark t) (tg_responseSessionId t)
         (op_query op) (op_isQuerySync op)
  else mkSyncTarget (Some ptr) (tg_taskType t) (tg_mode t) (tg_endWaterMark t) (tg_responseSessionId t)
         (tg_query t) (tg_isQuerySync t).

Definition tg_set (t : SyncTarget) (taskType : TaskType) (endWaterMark : Z) : SyncTarget :=
  mkSyncTarget (tg_operation t) (Some taskType) (tg_mode t) endWaterMark (tg_responseSessionId t) (tg_query t)
    (tg_isQuerySync t).

(** * The context *)

Section Context_.
Context `{Host} `{ValueHash} `{DeviceHash} `{SyncEnv} {St Tok : Type} `{SyncStorage St} `{SyncGenericInterface St Tok}.
Abbreviation A_ := (Act St Tok).
Implicit Types c : TaskContext Tok.

(** The operation a pointer points to. *)
Definition operation (ptr : Z) : A_ SyncOperation := fun w => op ← w_ops w !! ptr; Some (op, w).
Definition on_operation (ptr : Z) (f : SyncOperation -> SyncOperation) : A_ unit := fun w =>
  op ← w_ops w !! ptr; Some (tt, set_ops w (<[ptr := f op]> (w_ops w))).

(** [SyncOperation::Finished]. A callback that cannot be scheduled is lost. *)
Definition Finished (ptr : Z) : A_ unit :=
  op ← operation ptr;
  if op_isKilled op || op_isFinished op then mret tt
  else
    _ ← on_operation ptr (fun op => set_isFinished op true);
    _ ← (if op_userCallback op then
           if op_isBlockSync op then emit (EComplete (op_syncId op) (op_statuses op))
           else
             errCode ← ask env_schedule;
             if is_ok errCode then emit (EComplete (op_syncId op) (op_statuses op)) else mret tt
         else mret tt);
    emit (EFinished (op_syncId op)).

Definition GetSyncRetryTimes c : Z :=
  if cx_isAutoSync c || (cx_mode c =? SUBSCRIBE_QUERY) || (cx_mode c =? UNSUBSCRIBE_QUERY)
  then AUTO_RETRY_TIMES else MANUAL_RETRY_TIMES.

Definition GetSyncRetryTimeout c (retryTime : Z) : Z :=
  if cx_isAutoSync c then cx_timeout c * 2 ^ retryTime else cx_timeout c.

Definition IsAutoLiftWaterMark c : bool := cx_negotiationCount c <? NEGOTIATION_LIMIT.
Definition IncNegotiationCount c : TaskContext Tok := set_negotiationCount c (u32 (cx_negotiationCount c + 1)).
Definition IncSequenceId c : TaskContext Tok := set_sequenceId c (u32 (cx_sequenceId c + 1)).
Definition ReSetSequenceId c : TaskContext Tok := set_sequenceId c 1.
Definition IncPacketId c : TaskContext Tok := set_packetId c (u64 (cx_packetId c + 1)).
Definition SetRemoteSoftwareVersion c (version : Z) : TaskContext Tok :=
  set_remoteSoftwareVersionId (set_remoteSoftwareVersion c version) (u64 (cx_remoteSoftwareVersionId c + 1)).

Definition IsSkipTimeoutError c (errCode : Z) : bool :=
  (errCode =? - E_TIMEOUT) && cx_syncTaskRetryStatus c && (cx_retryTime c <? GetSyncRetryTimes c).

Definition IsTargetQueueEmpty c : bool := is_empty (cx_requestTargetQueue c) && is_empty (cx_responseTargetQueue c).

Definition FindResponseSyncTarget c (responseSessionId : Z) : bool :=
  existsb (fun t => tg_responseSessionId t =? responseSessionId) (cx_responseTargetQueue c).

(** [GetQuerySyncId] and [GetDeleteSyncId] of the context of a key-value store. *)
Definition GetQuerySyncId : A_ (list byte) := q ← cx cx_query; defined (GetIdentify q).
Definition GetDeleteSyncId c : DeviceID := cx_deviceId c.

Definition ResetLastPushTaskStatus c : TaskContext Tok :=
  set_lastQuerySyncTaskStatusMap (set_lastFullSyncTaskStatus c OP_WAITING) ∅.

Definition SaveLastPushTaskExecStatus (finalStatus : Z) : A_ unit :=
  c ← cx id;
  if IsTargetQueueEmpty c then on_cx ResetLastPushTaskStatus
  else if (cx_mode c =? PUSH) || (cx_mode c =? PUSH_AND_PULL) || (cx_mode c =? RESPONSE_PULL)
  then on_cx (fun c => set_lastFullSyncTaskStatus c finalStatus)
  else if (cx_mode c =? QUERY_PUSH) || (cx_mode c =? QUERY_PUSH_PULL) then
    ptr ← defined (cx_syncOperation c);
    op ← operation ptr;
    queryId ← defined (GetIdentify (op_query op));
    on_cx (fun c => set_lastQuerySyncTaskStatusMap c (<[queryId := finalStatus]> (cx_lastQuerySyncTaskStatusMap c)))
  else mret tt.

(** Both halves done is the end, unless the data could not be read. *)
Definition final_status (status operationStatus taskErrCode : Z) : Z :=
  if ((status =? OP_SEND_FINISHED) && (operationStatus =? OP_RECV_FINISHED))
     || ((status =? OP_RECV_FINISHED) && (operationStatus =? OP_SEND_FINISHED))
  then if taskErrCode =? - E_EKEYREVOKED then OP_EKEYREVOKED_FAILURE else OP_FINISHED_ALL
  else status.

Definition SetOperationStatus (status : Z) : A_ unit :=
  c ← cx id;
  match cx_syncOperation c with
  | None => mret tt
  | Some ptr =>
    op ← operation ptr;
    let finalStatus := final_status status (op_GetStatus op (cx_deviceId c)) (cx_taskErrCode c) in
    _ ← on_operation ptr (fun op => op_SetStatus op (cx_deviceId c) finalStatus);
    _ ← (if OP_FINISHED_ALL <=? finalStatus then SaveLastPushTaskExecStatus finalStatus else mret tt);
    op ← operation ptr;
    if op_CheckIsAllFinished op then Finished ptr else mret tt
  end.

Definition GetOperationStatus : A_ Z :=
  c ← cx id;
  match cx_syncOperation c with
  | None => mret OP_FINISHED_ALL
  | Some ptr => op ← operation ptr; mret (op_GetStatus op (cx_deviceId c))
  end.

(** * Timers *)

Definition StartTimer : A_ Z :=
  c ← cx id;
  if 0 <? cx_timerId c then mret (- E_UNEXPECTED_DATA)
  else
    '(errCode, timerId) ← ask env_timer;
    if negb (is_ok errCode) then mret errCode
    else _ ← on_cx (fun c => set_timerId c timerId); mret errCode.

Definition StopTimer c : TaskContext Tok := if cx_timerId c =? 0 then c else set_timerId c 0.

Definition ModifyTimer : A_ Z :=
  c ← cx id;
  if cx_timerId c =? 0 then mret (- E_UNEXPECTED_DATA) else ask (fun n => fst (env_timer n)).

(** * The feeding of the watch dog ([StartFeedDogForSync] of sync_state_machine.cpp) *)

Definition SAVE_DATA_NOTIFY_INTERVAL : Z := 2000.

Definition dog (flag : SyncDirectionFlag) : A_ WatchDog := fun w =>
  Some (match flag with SEND => w_sendDog w | RECEIVE => w_recvDog w end, w).
Definition set_dog (flag : SyncDirectionFlag) (d : WatchDog) : A_ unit := fun w =>
  Some (tt, match flag with SEND => set_sendDog w d | RECEIVE => set_recvDog w d end).

Definition GetFeedDogTimeout (timeoutCount : Z) : Z := if 255 <? timeoutCount then 255 else u8 timeoutCount.

Definition StartFeedDogForSync (time : Z) (flag : SyncDirectionFlag) : A_ bool :=
  let cnt := GetFeedDogTimeout (time / SAVE_DATA_NOTIFY_INTERVAL) in
  d ← dog flag;
  let d := mkWatchDog (refCount d + 1) (feedDogUpperLimit d) (feedDogCnt d) (feedDogTimerId d) in
  if 0 <? feedDogTimerId d then
    _ ← set_dog flag (mkWatchDog (refCount d) (Z.max cnt (feedDogUpperLimit d)) 0 (feedDogTimerId d)); mret false
  else
    _ ← set_dog flag (mkWatchDog (refCount d) cnt (feedDogCnt d) (feedDogTimerId d));
    '(errCode, timerId) ← ask env_timer;
    if negb (is_ok errCode) then mret false
    else _ ← set_dog flag (mkWatchDog (refCount d) cnt (feedDogCnt d) timerId); mret true.

Definition StopFeedDogForSync (flag : SyncDirectionFlag) : A_ unit :=
  d ← dog flag;
  if feedDogTimerId d =? 0 then mret tt else set_dog flag (mkWatchDog 0 (feedDogUpperLimit d) 0 0).

Definition DecRefCountOfFeedDogTimer (flag : SyncDirectionFlag) : A_ unit :=
  d ← dog flag;
  if feedDogTimerId d =? 0 then mret tt
  else
    _ ← set_dog flag (mkWatchDog (refCount d - 1) (feedDogUpperLimit d) (feedDogCnt d) (feedDogTimerId d));
    if refCount d - 1 <=? 0 then StopFeedDogForSync flag else mret tt.

(** * The queues of targets *)

Definition CancelCurrentSyncRetryIfNeed (newTargetMode : Z) : A_ unit :=
  c ← cx id;
  if negb (cx_isAutoSync c) then mret tt
  else if (newTargetMode =? cx_mode c) || (TransferSyncMode newTargetMode =? PUSH_AND_PULL) then
    _ ← on_cx (fun c => SetRetryTime c AUTO_RETRY_TIMES);
    _ ← ModifyTimer;
    mret tt
  else mret tt.

(** [onSyncTaskAdd_] is registered by the engine. *)
Definition AddSyncTarget (target : SyncTarget) : A_ Z :=
  match tg_taskType target with
  | None => mret (- E_INVALID_ARGS)
  | Some t =>
    _ ← on_cx (fun c => match t with
                        | REQUEST => set_requestTargetQueue c (cx_requestTargetQueue c ++ [target])
                        | RESPONSE => set_responseTargetQueue c (cx_responseTargetQueue c ++ [target])
                        end);
    _ ← CancelCurrentSyncRetryIfNeed (tg_mode target);
    c ← cx id;
    if cx_taskExecStatus c =? RUNNING then mret E_OK
    else
      errCode ← ask env_schedule;
      _ ← (if is_ok errCode then emit ETaskAdded else mret tt);
      mret E_OK
  end.

(** The time of the [TimeHelper] of the context. *)
Definition GetCurrentLocalTime : A_ Z :=
  now ← ask env_now;
  on_world (fun w => let '(time, (m, clock)) := GetTime (w_md w) (w_clock w) now in
                     Some (time, set_clock (set_md w m) clock)).

(** The target of an automatic synchronization that waits already, with its place. *)
Fixpoint find_auto (ops : gmap Z SyncOperation) (isQuerySync : bool) (queryId : list byte) (queue : list SyncTarget)
    : option (option nat) :=
  match queue with
  | [] => Some None
  | t :: queue =>
    op ← (match tg_operation t with
          | None => Some None
          | Some ptr => Some <$> ops !! ptr
          end);
    let isAuto := match op with Some op => op_isAutoSync op | None => false end in
    found ← (if isQuerySync then
               match op with
               | Some op => id ← GetIdentify (op_query op); Some (bool_decide (id = queryId) && isAuto)
               | None => Some false
               end
             else Some isAuto);
    if found : bool then Some (Some O) else rest ← find_auto ops isQuerySync queryId queue; Some (option_map S rest)
  end.

Definition AddSyncOperation (ptr : Z) : A_ Z :=
  op ← operation ptr;
  found ← (if op_isAutoSync op then
             queryId ← defined (GetIdentify (op_query op));
             c ← cx id;
             on_world (fun w => r ← find_auto (w_ops w) (op_isQuerySync op) queryId (cx_requestTargetQueue c); Some (r, w))
           else mret None);
  match found with
  | Some i =>
    time ← GetCurrentLocalTime;
    _ ← on_cx (fun c => set_requestTargetQueue c
                 (alter (fun t => mkSyncTarget (tg_operation t) (tg_taskType t) (tg_mode t) time (tg_responseSessionId t)
                                    (tg_query t) (tg_isQuerySync t)) i (cx_requestTargetQueue c)));
    c ← cx id;
    _ ← on_operation ptr (fun op => op_SetStatus op (cx_deviceId c) OP_FINISHED_ALL);
    mret E_OK
  | None =>
    alloc ← ask env_alloc;
    if negb alloc then mret (- E_OUT_OF_MEMORY)
    else
      let newTarget := SetSyncOperation newSyncTarget ptr op in
      time ← GetCurrentLocalTime;
      _ ← AddSyncTarget (tg_set newTarget REQUEST time);
      mret E_OK
  end.

Definition PopResponseTarget : A_ (Z * SyncTarget) :=
  c ← cx id;
  match cx_responseTargetQueue c with
  | [] => mret (- E_LENGTH_ERROR, newSyncTarget)
  | t :: queue => _ ← on_cx (fun c => set_responseTargetQueue c queue); mret (E_OK, t)
  end.

(** The first request with this id is taken out. *)
Fixpoint remove_sync_id (ops : gmap Z SyncOperation) (syncId : Z) (queue : list SyncTarget) : option (option (list SyncTarget)) :=
  match queue with
  | [] => Some None
  | t :: queue =>
    id ← (match tg_operation t with None => Some 0 | Some ptr => op_syncId <$> ops !! ptr end);
    if id =? syncId then Some (Some queue)
    else rest ← remove_sync_id ops syncId queue; Some (option_map (cons t) rest)
  end.

Definition RemoveSyncOperation (syncId : Z) : A_ Z :=
  c ← cx id;
  r ← on_world (fun w => r ← remove_sync_id (w_ops w) syncId (cx_requestTargetQueue c); Some (r, w));
  match r with
  | None => mret (- E_INVALID_ARGS)
  | Some queue => _ ← on_cx (fun c => set_requestTargetQueue c queue); mret E_OK
  end.

Definition ClearSyncOperation c : TaskContext Tok := set_syncOperation c None.

(** [CopyTargetData] of both classes. *)
Definition CopyTargetData (target : SyncTarget) (timeout : Z) : A_ unit :=
  _ ← on_cx (fun c => SetMode c (tg_mode target));
  _ ← on_cx (fun c => set_status c OP_SYNCING);
  _ ← on_cx (fun c => SetRetryStatus c NO_NEED_RETRY);
  _ ← on_cx (fun c => SetTaskErrCode c E_OK);
  _ ← on_cx (fun c => set_packetId c 0);
  _ ← on_cx (fun c => set_isCommNormal c true);
  _ ← on_cx (fun c => set_syncTaskRetryStatus c (cx_isSyncRetry c));
  _ ← on_cx (fun c => set_timeout c (to_signed 32 timeout));
  _ ← on_cx (fun c => set_negotiationCount c 0);
  _ ← on_cx (fun c => set_syncOperation c (tg_operation target));
  _ ← on_cx ReSetSequenceId;
  _ ← (match tg_operation target with
       | Some ptr =>
         op ← operation ptr;
         _ ← on_cx (fun c => set_syncId c (op_syncId op));
         _ ← on_cx (fun c => set_isAutoSync c (op_isAutoSync op));
         _ ← on_cx (fun c => set_isAutoSubscribe c (op_isAutoSubscribe op));
         c ← cx id;
         _ ← (if cx_isAutoSync c || (cx_mode c =? SUBSCRIBE_QUERY) || (cx_mode c =? UNSUBSCRIBE_QUERY)
              then on_cx (fun c => set_syncTaskRetryStatus c true) else mret tt);
         now ← ask env_now;
         time ← on_world (fun w => let '(t, clock) := GetSysCurrentTime (w_clock w) now in Some (t, set_clock w clock));
         let hash := Hash32Func (cx_deviceId c ++ to_string (op_syncId op) ++ to_string time) in
         let sessionId := if cx_lastRequestSessionId c =? hash then u32 (hash + 1) else hash in
         _ ← on_cx (fun c => set_requestSessionId c sessionId);
         on_cx (fun c => set_lastRequestSessionId c sessionId)
       | None => on_cx (fun c => set_isAutoSync c false)
       end);
  _ ← on_cx (fun c => SetMode c (tg_mode target));
  _ ← on_cx (fun c => SetEndMark c (tg_endWaterMark target));
  _ ← (if tg_mode target =? RESPONSE_PULL then on_cx (fun c => SetResponseSessionId c (tg_responseSessionId target))
       else mret tt);
  _ ← on_cx (fun c => SetQuery c (tg_query target));
  on_cx (fun c => SetQuerySync c (tg_isQuerySync target)).

(** The loop of [MoveToNextTarget]: requests first; a killed operation is skipped. The lists
    are what is left of the two queues. *)
Fixpoint next_request (ops : gmap Z SyncOperation) (queue : list SyncTarget) : option (option SyncTarget * list SyncTarget) :=
  match queue with
  | [] => Some (None, [])
  | t :: queue =>
    killed ← (match tg_operation t with None => Some false | Some ptr => op_isKilled <$> ops !! ptr end);
    if killed : bool then next_request ops queue else Some (Some t, queue)
  end.

Definition MoveToNextTarget : A_ unit :=
  _ ← on_cx ClearSyncOperation;
  timeout ← ask env_timeout;
  c ← cx id;
  '(target, requests) ← on_world (fun w => r ← next_request (w_ops w) (cx_requestTargetQueue c); Some (r, w));
  _ ← on_cx (fun c => set_requestTargetQueue c requests);
  match target with
  | Some t => CopyTargetData t timeout
  | None =>
    '(target, responses) ← on_world (fun w => r ← next_request (w_ops w) (cx_responseTargetQueue c); Some (r, w));
    _ ← on_cx (fun c => set_responseTargetQueue c responses);
    match target with Some t => CopyTargetData t timeout | None => mret tt end
  end.

(** * The end of a task *)

(** [SyncTaskContext::Clear]. *)
Definition base_Clear c : TaskContext Tok :=
  let c := StopTimer c in
  let c := SetRetryTime c 0 in
  let c := set_sequenceId c 1 in
  let c := set_syncId c 0 in
  let c := set_isAutoSync c false in
  let c := set_requestSessionId c 0 in
  let c := SetRetryStatus c NO_NEED_RETRY in
  let c := SetMode c INVALID_MODE in
  let c := set_status c OP_WAITING in
  let c := SetTaskErrCode c E_OK in
  let c := set_packetId c 0 in
  set_isAutoSubscribe c false.

(** [SingleVerSyncTaskContext::Clear]; the operation is gone when its status is set. *)
Definition Clear : A_ unit :=
  _ ← on_cx (fun c => SetRetryTime c 0);
  _ ← on_cx ClearSyncOperation;
  _ ← on_cx base_Clear;
  _ ← on_cx (fun c => SetMode c INVALID_MODE);
  _ ← on_cx (fun c => set_syncId c 0);
  _ ← on_cx (fun c => set_isAutoSync c false);
  _ ← SetOperationStatus OP_WAITING;
  _ ← on_cx (fun c => SetEndMark c 0);
  _ ← on_cx (fun c => SetResponseSessionId c 0);
  _ ← on_cx (fun c => SetQuery c newQuerySyncObject);
  on_cx (fun c => SetQuerySync c false).

Definition Abort_ (status : Z) : A_ unit :=
  c ← cx id;
  _ ← (match cx_syncOperation c with
       | None => mret tt
       | Some ptr =>
         _ ← on_operation ptr (fun op => op_SetStatus op (cx_deviceId c) status);
         if OP_FINISHED_ALL <=? status then
           op ← operation ptr; if op_CheckIsAllFinished op then Finished ptr else mret tt
         else mret tt
       end);
  _ ← StopFeedDogForSync SEND;
  _ ← StopFeedDogForSync RECEIVE;
  Clear.

Definition ReleaseContinueToken : A_ unit :=
  c ← cx id;
  match cx_token c with
  | None => mret tt
  | Some token =>
    _ ← on_storage (fun st => (tt, sg_ReleaseContinueToken st token));
    on_cx (fun c => SetContinueToken c None)
  end.

(** * Abilities and skipping *)

Definition COMPRESSALGOMAP : list (Z * AbilityItem) := [(ZLIB, DATABASE_COMPRESSION_ZLIB)].

Definition GetRemoteCompressAlgo c : list Z :=
  fst <$> filter (fun algo => GetAbilityItem (cx_remoteDbAbility c) algo.2 = SUPPORT_MARK) COMPRESSALGOMAP.

(** The least algorithm that both know. *)
Definition ChooseCompressAlgo : A_ Z :=
  c ← cx id;
  localAlgorithmSet ← storage (fun st => sg_GetCompressionAlgo (Tok := Tok) st);
  mret (default NONE (head (filter (fun a => a ∈ localAlgorithmSet) (GetRemoteCompressAlgo c)))).

(** [GetCorrectedSendWaterMarkForCurrentTask]: the status and the water mark. *)
Definition GetCorrectedSendWaterMarkForCurrentTask : A_ (Z * Z) :=
  c ← cx id;
  ptr ← defined (cx_syncOperation c);
  op ← operation ptr;
  if op_isQuerySync op then
    queryId ← defined (GetIdentify (op_query op));
    now ← ask env_now;
    try_meta (fun m => GetSendQueryWaterMark m queryId (cx_deviceId c) 0
                         (cx_lastFullSyncTaskStatus c =? OP_FINISHED_ALL) now)
  else mark ← on_meta (fun m => GetLocalWaterMark m (cx_deviceId c)); mret (E_OK, mark).

Definition compare_mark : A_ bool :=
  maxTimestampInDb ← storage SyncStorage.GetMaxTimestamp;
  '(errCode, localWaterMark) ← GetCorrectedSendWaterMarkForCurrentTask;
  if negb (is_ok errCode) then mret false else mret (maxTimestampInDb <? localWaterMark).

Definition IsCurrentSyncTaskCanBeSkipped : A_ bool :=
  c ← cx id;
  if cx_mode c =? PUSH then
    if negb (cx_lastFullSyncTaskStatus c =? OP_FINISHED_ALL) then mret false else compare_mark
  else if cx_mode c =? QUERY_PUSH then
    match cx_syncOperation c with
    | None => mret true
    | Some ptr =>
      op ← operation ptr;
      queryId ← defined (GetIdentify (op_query op));
      match cx_lastQuerySyncTaskStatusMap c !! queryId with
      | None => if negb (cx_lastFullSyncTaskStatus c =? OP_FINISHED_ALL) then mret false else compare_mark
      | Some status => if negb (status =? OP_FINISHED_ALL) then mret false else compare_mark
      end
    end
  else mret false.

End Context_.
