(* ===== verification/DataSync.v ===== *)
(** Model of [SingleVerDataSync] (syncer/src/single_ver_data_sync.cpp) and
    [SingleVerDataSyncUtils] (single_ver_data_sync_utils.cpp): how data is read, sent in a
    sliding window, acknowledged and sent again, and how data that arrives is saved; with the
    water marks of both sides. *)

From S2P Require Import Prelude Memory CommTypes SerialBuffer ProtocolProto AppMessage SyncStorage CommitNotify QuerySync KvEntry.
From S2P Require Import SyncPacket DbAbility WaterMark MetaData TimeHelper SyncRead SubscribeManager SyncWorld SyncTask.
From Stdlib Require Import ZArith Lia.
From Stdlib Require Import Strings.Byte.
From stdpp Require Import base numbers list gmap.

Open Scope Z_scope.

Definition SOFTWARE_VERSION_BASE : Z := 100.
Definition SOFTWARE_VERSION_RELEASE_1_0 : Z := 101.
Definition SOFTWARE_VERSION_RELEASE_5_0 : Z := 105.

Definition SEND_FINISHED : Z := 0xff.
Definition LOCAL_WATER_MARK_NOT_INIT : Z := 0xaa.
Definition WATER_MARK_INVALID : Z := 0xbb.

Definition HIGH_VERSION_WINDOW_SIZE : Z := 3.
Definition LOW_VERSION_WINDOW_SIZE : Z := 1.
Definition NOTIFY_MIN_MTU_SIZE : Z := 30 * 1024.
Definition MAX_NORMAL_PACK_ITEM_SIZE : Z := 4000.
Definition MAX_HPMODE_PACK_ITEM_SIZE : Z := 2000.
Definition MAX_TIMESTAMP : Z := INT64_MAX.
Definition NOT_SURPPORT_SEC_CLASSIFICATION : Z := 0xff.
Definition CHECK_FLAG_SEND : Z := 1.
Definition CHECK_FLAG_RECEIVE : Z := 2.

Definition ACK_PACKET_RESERVED_INDEX_LOCAL_WATER_MARK : nat := 0.
Definition ACK_PACKET_RESERVED_INDEX_DELETE_WATER_MARK : nat := 2.

(** * SingleVerDataSyncUtils *)

Record UpdateWaterMark := mkUpdateWaterMark {
  normalUpdateMark : bool;
  deleteUpdateMark : bool
}.

Definition IsGetDataSuccessfully (errCode : Z) : bool := (errCode =? E_OK) || (errCode =? - E_UNFINISHED).

Definition GetMessageId (syncType : SyncType) : Z :=
  if is_query_type syncType then QUERY_SYNC_MESSAGE else DATA_SYNC_MESSAGE.

(** The items of a packet; a null pointer is skipped. *)
Definition GetMaxSendDataTime (inData : list SendDataItem) : Z :=
  fold_left (fun stamp item => match item with Some e => Z.max stamp (timestamp e) | None => stamp end) inData 0.

Definition full_range (acc : SyncTimeRange * UpdateWaterMark) (item : SendDataItem) : SyncTimeRange * UpdateWaterMark :=
  match item with
  | None => acc
  | Some e =>
    let '(r, u) := acc in
    (mkSyncTimeRange (Z.min (beginTime r) (timestamp e)) (deleteBeginTime r) (Z.max (endTime r) (timestamp e)) (deleteEndTime r),
     mkUpdateWaterMark true (deleteUpdateMark u))
  end.

Definition GetFullSyncDataTimeRange (inData : list SendDataItem) (localMark : Z) : SyncTimeRange * UpdateWaterMark :=
  fold_left full_range inData (mkSyncTimeRange localMark 0 localMark 0, mkUpdateWaterMark false false).

Definition query_range (acc : SyncTimeRange * UpdateWaterMark) (item : SendDataItem) : SyncTimeRange * UpdateWaterMark :=
  match item with
  | None => acc
  | Some e =>
    let '(r, u) := acc in
    if Z.land (flag e) DELETE_FLAG =? 0 then
      (mkSyncTimeRange (Z.min (beginTime r) (timestamp e)) (deleteBeginTime r) (Z.max (endTime r) (timestamp e)) (deleteEndTime r),
       mkUpdateWaterMark true (deleteUpdateMark u))
    else
      (mkSyncTimeRange (beginTime r) (Z.min (deleteBeginTime r) (timestamp e)) (endTime r) (Z.max (deleteEndTime r) (timestamp e)),
       mkUpdateWaterMark (normalUpdateMark u) true)
  end.

Definition GetQuerySyncDataTimeRange (inData : list SendDataItem) (localMark deleteLocalMark : Z)
    : SyncTimeRange * UpdateWaterMark :=
  fold_left query_range inData
    (mkSyncTimeRange localMark deleteLocalMark localMark deleteLocalMark, mkUpdateWaterMark false false).

Definition ReviseLocalMark (syncType : SyncType) (r : SyncTimeRange) (updateMark : UpdateWaterMark) : SyncTimeRange :=
  mkSyncTimeRange (beginTime r) (deleteBeginTime r)
    (if normalUpdateMark updateMark then u64 (endTime r + 1) else endTime r)
    (if deleteUpdateMark updateMark && is_query_type syncType then u64 (deleteEndTime r + 1) else deleteEndTime r).

Definition GetRecvDataTimeRange (syncType : SyncType) (data : list SendDataItem) : SyncTimeRange * UpdateWaterMark :=
  if negb (is_query_type syncType) then GetFullSyncDataTimeRange data 0 else GetQuerySyncDataTimeRange data 0 0.

Definition utils_GetSyncDataTimeRange (syncType : SyncType) (localMark deleteMark : Z) (inData : list SendDataItem)
    : SyncTimeRange * UpdateWaterMark :=
  if negb (is_query_type syncType) then GetFullSyncDataTimeRange inData localMark
  else GetQuerySyncDataTimeRange inData localMark deleteMark.

Definition with_origDev (e : DataItem) (d : DeviceID) : DataItem :=
  mkDataItem (key e) (value e) (timestamp e) (flag e) d (writeTimestamp e) (dev e) (neglect e) (hashKey e).

Definition TransDbDataItemToSendDataItem (localHashName : DeviceID) (outData : list SendDataItem) : list SendDataItem :=
  option_map (fun e => with_origDev e (if is_empty (origDev e) then localHashName else origDev e)) <$> outData.

Definition TransferForeignOrigDevName (deviceName localHashName : DeviceID) : DeviceID :=
  if bool_decide (localHashName = deviceName) then [] else deviceName.

(** The time stamps in the time of this device, never in its future. *)
Definition item_to_local (offset currentLocalTime : Z) (localHashName : DeviceID) (e : DataItem) : DataItem :=
  let stamp := u64 (timestamp e - u64 offset) in
  let write := if negb (writeTimestamp e =? 0) then u64 (writeTimestamp e - u64 offset) else writeTimestamp e in
  mkDataItem (key e) (value e) (if currentLocalTime <? stamp then currentLocalTime else stamp) (flag e)
    (TransferForeignOrigDevName (origDev e) localHashName)
    (if currentLocalTime <? write then currentLocalTime else write) (dev e) (neglect e) (hashKey e).

Definition GetReSendMode (mode sequenceId : Z) (syncType : SyncType) : Z :=
  let curMode := TransferSyncMode mode in
  if (curMode =? PUSH) || (curMode =? PULL) then mode
  else if curMode =? RESPONSE_PULL then (if is_query_type syncType then QUERY_PUSH else PUSH)
  else if sequenceId =? 1 then (if is_query_type syncType then QUERY_PUSH_PULL else PUSH_AND_PULL)
  else if is_query_type syncType then QUERY_PUSH else PUSH.

Definition TranslateErrCodeIfNeed (mode version errCode : Z) : Z :=
  if (TransferSyncMode mode =? PUSH_AND_PULL) && (SOFTWARE_VERSION_RELEASE_2_0 <? version) && (errCode =? - E_EKEYREVOKED)
  then E_OK else errCode.

Definition IsFeedbackError (m : SyncMessage) : bool := IsFeedbackErrorMessage (errorNo_ m).

Definition GetControlCmdType (mode : Z) : Z :=
  if mode =? SUBSCRIBE_QUERY then SUBSCRIBE_QUERY_CMD
  else if mode =? UNSUBSCRIBE_QUERY then UNSUBSCRIBE_QUERY_CMD else INVALID_CONTROL_CMD.

Definition GetModeByControlCmdType (controlCmd : Z) : Z :=
  if controlCmd =? SUBSCRIBE_QUERY_CMD then SUBSCRIBE_QUERY
  else if controlCmd =? UNSUBSCRIBE_QUERY_CMD then UNSUBSCRIBE_QUERY else INVALID_MODE.

Definition SetMessageHeadInfo (m : SyncMessage) (inMsgType : Z) (inTarget : DeviceID) (inSequenceId inSessionId : Z)
    : SyncMessage :=
  let m := (SetMessageType m inMsgType).2 in
  AppMessage.SetSessionId (SetSequenceId (SetTarget m inTarget) inSequenceId) inSessionId.

(** The limit and the order of a query make water marks meaningless. *)
Definition no_marks (q : QuerySyncObject) : bool := hasLimit_ q || hasOrderBy_ q.

(** [QueryObject::IsQueryOnlyByKey]. *)
Definition IsQueryOnlyByKey (q : QuerySyncObject) : bool :=
  forallb (fun node => (operFlag node =? LIMIT) || (operFlag node =? QUERY_BY_KEY_PREFIX) || (operFlag node =? IN_KEYS))
    (queryObjNodes_ q).

Definition current_version (remote : Z) : Z := Z.min remote SOFTWARE_VERSION_CURRENT.

Record SyncEntry := mkSyncEntry {
  entries : list SendDataItem;
  compressedEntries : list byte
}.
Definition noEntry : SyncEntry := mkSyncEntry [] [].

Record DataSyncReSendInfo := mkDataSyncReSendInfo {
  rs_sessionId : Z;
  rs_sequenceId : Z;
  rs_start : Z;
  rs_end : Z;
  rs_deleteDataStart : Z;
  rs_deleteDataEnd : Z;
  rs_packetId : Z
}.

Section DataSync.
Context `{Host} `{Heap} `{Zlib} `{ValueHash} `{DeviceHash} `{SyncEnv} {St Tok : Type} `{SyncStorage St}.
Context `{SyncGenericInterface St Tok}.
Abbreviation A_ := (Act St Tok).

Definition cur_type : A_ SyncType :=
  q ← cx cx_isQuerySync; mret (if q : bool then QUERY_SYNC_TYPE else MANUAL_FULL_SYNC_TYPE).

Definition version : A_ Z := v ← cx cx_remoteSoftwareVersion; mret (current_version v).

(** * Water marks *)

(** The statuses are not looked at; the mark is 0 then. *)
Definition ds_GetLocalWaterMark (syncType : SyncType) (queryIdentify : list byte) : A_ Z :=
  c ← cx id;
  if negb (is_query_type syncType) then on_meta (fun m => GetLocalWaterMark m (cx_deviceId c))
  else
    now ← ask env_now;
    '(_, mark) ← try_meta (fun m => GetSendQueryWaterMark m queryIdentify (cx_deviceId c) 0 (IsAutoLiftWaterMark c) now);
    mret mark.

Definition ds_GetPeerWaterMark (syncType : SyncType) (queryIdentify : list byte) (deviceId : DeviceID) : A_ Z :=
  if negb (is_query_type syncType) then on_meta (fun m => GetPeerWaterMark m deviceId)
  else
    now ← ask env_now;
    '(_, mark) ← try_meta (fun m => GetRecvQueryWaterMark m queryIdentify deviceId 0 now);
    mret mark.

Definition GetPeerDeleteSyncWaterMark (deviceId : DeviceID) : A_ Z :=
  '(_, mark) ← try_meta (fun m => GetRecvDeleteSyncWaterMark m deviceId 0); mret mark.

Definition GetLocalDeleteSyncWaterMark : A_ Z :=
  c ← cx id;
  '(_, mark) ← try_meta (fun m => GetSendDeleteSyncWaterMark m (GetDeleteSyncId c) 0 (IsAutoLiftWaterMark c));
  mret mark.

Definition GetSyncDataTimeRange (syncType : SyncType) (inData : list SendDataItem) : A_ (SyncTimeRange * UpdateWaterMark) :=
  queryId ← GetQuerySyncId;
  localMark ← ds_GetLocalWaterMark syncType queryId;
  deleteMark ← GetLocalDeleteSyncWaterMark;
  mret (utils_GetSyncDataTimeRange syncType localMark deleteMark inData).

Definition ds_SaveLocalWaterMark (syncType : SyncType) (dataTimeRange : SyncTimeRange) (isCheckBeforUpdate : bool) : A_ Z :=
  c ← cx id;
  queryId ← GetQuerySyncId;
  if negb (is_query_type syncType) then
    covered ← (if isCheckBeforUpdate then
                 localMark ← ds_GetLocalWaterMark syncType queryId; mret (endTime dataTimeRange <=? localMark)
               else mret false);
    if covered : bool then mret E_OK
    else on_meta (fun m => SaveLocalWaterMark m (cx_deviceId c) (endTime dataTimeRange))
  else
    '(isNeedUpdateMark, isNeedUpdateDeleteMark) ←
      (if isCheckBeforUpdate then
         localMark ← ds_GetLocalWaterMark syncType queryId;
         deleteDataWaterMark ← GetLocalDeleteSyncWaterMark;
         mret (negb (endTime dataTimeRange <=? localMark), negb (deleteEndTime dataTimeRange <=? deleteDataWaterMark))
       else mret (true, true));
    errCode ← (if isNeedUpdateMark : bool then
                 now ← ask env_now;
                 now' ← ask env_now;
                 try_meta (fun m => md_SetSendQueryWaterMark m queryId (cx_deviceId c) (endTime dataTimeRange) now now')
               else mret E_OK);
    if negb (is_ok errCode) then mret errCode
    else if isNeedUpdateDeleteMark : bool
    then try_meta (fun m => md_SetSendDeleteSyncWaterMark m (GetDeleteSyncId c) (deleteEndTime dataTimeRange))
    else mret errCode.

Definition UpdatePeerWaterMark (syncType : SyncType) (queryId : list byte) (peerWatermark peerDeletedWatermark : Z) : A_ unit :=
  if (peerWatermark =? 0) && (peerDeletedWatermark =? 0) then mret tt
  else
    c ← cx id;
    if negb (is_query_type syncType)
    then _ ← on_meta (fun m => SavePeerWaterMark m (cx_deviceId c) peerWatermark true); mret tt
    else
      _ ← (if negb (peerWatermark =? 0) then
             now ← ask env_now;
             now' ← ask env_now;
             try_meta (fun m => md_SetRecvQueryWaterMark m queryId (cx_deviceId c) peerWatermark now now')
           else mret E_OK);
      if negb (peerDeletedWatermark =? 0)
      then _ ← try_meta (fun m => md_SetRecvDeleteSyncWaterMark m (GetDeleteSyncId c) peerDeletedWatermark); mret tt
      else mret tt.

Definition UpdateQueryPeerWaterMark (syncType : SyncType) (queryId : list byte) (dataTime : SyncTimeRange)
    (isUpdateWaterMark : UpdateWaterMark) : A_ unit :=
  UpdatePeerWaterMark syncType queryId
    (if normalUpdateMark isUpdateWaterMark then u64 (endTime dataTime + 1) else endTime dataTime)
    (if deleteUpdateMark isUpdateWaterMark then u64 (deleteEndTime dataTime + 1) else deleteEndTime dataTime).

(** * Reading data *)

Definition UpdateMtuSize : A_ unit :=
  mtu ← ask env_mtu; on_ds (fun d => set_mtuSize d (u32 (mtu * 9) / 10)).

(** A compression rate of 0 divides by zero. *)
Definition GetDataSizeSpecInfo (packetSize : Z) : A_ DataSizeSpecInfo :=
  '(_, compressionRate) ← storage (fun st => sg_GetCompressionOption (Tok := Tok) st);
  mtu ← ds ds_mtuSize;
  if compressionRate =? 0 then defined None
  else mret (mkDataSizeSpecInfo (Z.min MAX_SYNC_BLOCK_SIZE (u32 (mtu * 100) / compressionRate)) packetSize).

Definition GetUnsyncData (packetSize : Z) : A_ (Z * list SendDataItem) :=
  curType ← cur_type;
  queryId ← GetQuerySyncId;
  startMark ← ds_GetLocalWaterMark curType queryId;
  let endMark := MAX_TIMESTAMP in
  if endMark <? startMark then mret (E_OK, [])
  else
    c ← cx id;
    _ ← (match cx_token c with
         | Some token => on_storage (fun st => (tt, sg_ReleaseContinueToken st token))
         | None => mret tt
         end);
    info ← GetDataSizeSpecInfo packetSize;
    '(errCode, outData, token) ←
      (if negb (is_query_type curType) then
         on_storage (fun st => sg_GetSyncData st startMark endMark info)
       else
         deletedStartMark ← GetLocalDeleteSyncWaterMark;
         queryId ← GetQuerySyncId;
         now ← ask env_now;
         '(errCode, lastQueryTimestamp) ← try_meta (fun m => GetLastQueryTime m queryId (cx_deviceId c) 0 now);
         if negb (is_ok errCode) then mret (errCode, [], None)
         else on_storage (fun st => sg_GetSyncData_query st (cx_query c)
                                      (mkSyncTimeRange startMark deletedStartMark endMark endMark) lastQueryTimestamp info));
    _ ← on_cx (fun c => SetContinueToken c token);
    mret (errCode, outData).

Definition GetNextUnsyncData (token : Tok) (packetSize : Z) : A_ (Z * list SendDataItem) :=
  info ← GetDataSizeSpecInfo packetSize;
  '(errCode, outData, token) ← on_storage (fun st => sg_GetSyncDataNext st token info);
  _ ← on_cx (fun c => SetContinueToken c token);
  mret (errCode, outData).

Definition GetData (packetSize : Z) : A_ (Z * list SendDataItem) :=
  _ ← UpdateMtuSize;
  c ← cx id;
  '(errCode, outData) ←
    (if cx_isNeedRetry c =? NEED_RETRY then
       _ ← on_cx (fun c => SetRetryStatus c NO_NEED_RETRY);
       GetUnsyncData packetSize
     else match cx_token c with
          | None => GetUnsyncData packetSize
          | Some token => GetNextUnsyncData token packetSize
          end);
  if IsGetDataSuccessfully errCode
  then mret (errCode, TransDbDataItemToSendDataItem (TransferHashString local_identity) outData)
  else mret (errCode, outData).

Definition InterceptData (items : list SendDataItem) : A_ (Z * list SendDataItem) :=
  remote ← ds ds_deviceId;
  on_storage (fun st => sg_InterceptData st items local_identity remote).

Definition packet_size (version : Z) : Z :=
  if SOFTWARE_VERSION_RELEASE_2_0 <? version then MAX_HPMODE_PACK_ITEM_SIZE else MAX_NORMAL_PACK_ITEM_SIZE.

(** The end of [GetDataWithPerformanceRecord] and of [GetReSendData]: the status, with the data. *)
Definition intercept_and_compress (errCode : Z) (outData : list SendDataItem) : A_ (Z * SyncEntry) :=
  v ← version;
  '(innerCode, outData) ← InterceptData outData;
  if negb (is_ok innerCode) then
    _ ← on_cx (fun c => SetTaskErrCode c innerCode);
    mret (innerCode, mkSyncEntry outData [])
  else
    '(needCompressOnSync, _) ← storage (fun st => sg_GetCompressionOption (Tok := Tok) st);
    remoteAlgo ← ChooseCompressAlgo;
    if needCompressOnSync && negb (remoteAlgo =? NONE) then
      '(compressCode, compressed) ← defined (Compress outData [] (mkCompressInfo remoteAlgo v));
      mret (if negb (is_ok compressCode) then compressCode else errCode, mkSyncEntry outData compressed)
    else mret (errCode, mkSyncEntry outData []).

Definition GetDataWithPerformanceRecord : A_ (Z * SyncEntry) :=
  v ← version;
  '(errCode, outData) ← GetData (packet_size v);
  if negb (IsGetDataSuccessfully errCode) then
    _ ← on_cx (fun c => SetTaskErrCode c errCode);
    mret (errCode, mkSyncEntry outData [])
  else intercept_and_compress errCode outData.

(** * Sending *)

(** A new message with an object: out of memory, or the message. *)
Definition new_message (messageId : Z) (o : SyncObject) : A_ (option SyncMessage) :=
  message ← ask env_alloc;
  if negb message then mret None
  else
    holder ← ask env_alloc;
    if negb holder then mret None
    else mret (Some (set_object (SetMessageId emptyMessage messageId) o)).

(** The status; a message that is accepted is on its way. *)
Definition Send (message : SyncMessage) (packetLen : Z) : A_ Z :=
  mtuSize ← ds ds_mtuSize;
  c ← cx id;
  startFeedDogRet ←
    (if (mtuSize <? packetLen) && (NOTIFY_MIN_MTU_SIZE <? mtuSize)
     then StartFeedDogForSync (u32 (u64 (packetLen * u64 (cx_timeout c)) / mtuSize)) SEND
     else mret false);
  errCode ← ask (fun n => env_send n message);
  if is_ok errCode then on_world (fun w => Some (errCode, set_sent w (w_sent w ++ [message])))
  else
    _ ← (if startFeedDogRet : bool then StopFeedDogForSync SEND else mret tt);
    mret errCode.

Definition SetPacketId (packet : DataRequestPacket) (version : Z) : A_ DataRequestPacket :=
  if SOFTWARE_VERSION_RELEASE_2_0 <? version then
    _ ← on_cx IncPacketId;
    c ← cx id;
    mret (SetReserved packet [cx_packetId c])
  else mret packet.

Definition UpdateSendInfo (dataTimeRange : SyncTimeRange) : A_ unit :=
  c ← cx id;
  on_ds (fun d =>
    let sequenceId := u32 (ds_maxSequenceIdHasSent d + 1) in
    let info := mkReSendInfo (beginTime dataTimeRange) (endTime dataTimeRange) (deleteBeginTime dataTimeRange)
                  (deleteEndTime dataTimeRange) (cx_packetId c) in
    let d := set_maxSequenceIdHasSent d sequenceId in
    let d := set_reSendMap d (<[sequenceId := info]> (ds_reSendMap d)) in
    let d := set_windowSize d (ds_windowSize d - 1) in
    match cx_token c with None => set_isAllDataHasSent d true | Some _ => d end).

Definition FillDataRequestPacket (syncData : SyncEntry) (sendCode mode : Z) : A_ DataRequestPacket :=
  curType ← cur_type;
  v ← version;
  '(needCompressOnSync, _) ← storage (fun st => sg_GetCompressionOption (Tok := Tok) st);
  queryId ← GetQuerySyncId;
  localMark ← ds_GetLocalWaterMark curType queryId;
  c ← cx id;
  peerMark ← ds_GetPeerWaterMark curType queryId (cx_deviceId c);
  deleteMark ← GetLocalDeleteSyncWaterMark;
  let p := newDataRequest in
  let p := if (negb (mode =? RESPONSE_PULL) && is_ok sendCode) || ((mode =? RESPONSE_PULL) && (sendCode =? SEND_FINISHED))
           then SetLastSequence p else p in
  let tmpMode := if mode =? RESPONSE_PULL then (if is_query_type curType then QUERY_PUSH else PUSH) else mode in
  let p := SetData p (entries syncData) in
  let p := SetCompressData p (compressedEntries syncData) in
  let p := SetBasicInfo p sendCode v tmpMode in
  let p := SetWaterMark p localMark peerMark deleteMark in
  let p := if TransferSyncMode mode =? PUSH_AND_PULL
           then SyncPacket.SetSessionId (SetEndWaterMark p (cx_endMark c)) (cx_requestSessionId c) else p in
  let p := SyncPacket.SetQuery p (cx_query c) in
  let p := SetQueryId p queryId in
  curAlgo ← ChooseCompressAlgo;
  let p := if needCompressOnSync && negb (curAlgo =? NONE) then SetCompressAlgo (SetCompressDataMark p) curAlgo else p in
  p ← SetPacketId p v;
  mret (if is_query_type curType && no_marks (cx_query c) then SetUpdateWaterMark p else p).

Definition SendDataPacket (syncType : SyncType) (packet : DataRequestPacket) : A_ Z :=
  message ← new_message (GetMessageId syncType) (ODataRequest packet);
  match message with
  | None => mret (- E_OUT_OF_MEMORY)
  | Some message =>
    let packetLen := rq_CalculateLen packet (GetMessageId syncType) in
    c ← cx id;
    Send (SetMessageHeadInfo message TYPE_REQUEST (cx_deviceId c) (cx_sequenceId c) (cx_requestSessionId c)) packetLen
  end.

(** The receiver is told to wait when the packet is larger than the MTU. *)
Definition SendResetWatchDogPacket (packetLen : Z) : A_ unit :=
  mtuSize ← ds ds_mtuSize;
  if (packetLen <=? mtuSize) || (mtuSize <? NOTIFY_MIN_MTU_SIZE) then mret tt
  else
    c ← cx id;
    v ← version;
    let data := u64 (packetLen * u64 (cx_timeout c)) / mtuSize in
    message ← new_message DATA_SYNC_MESSAGE (ODataAck (mkDataAck data (- E_SAVE_DATA_NOTIFY) v []));
    match message with
    | None => mret tt
    | Some message =>
      _ ← Send (SetMessageHeadInfo message TYPE_NOTIFY (cx_deviceId c) (cx_sequenceId c) (cx_responseSessionId c)) 0;
      mret tt
    end.

Definition SendPullResponseDataPkt (ackCode : Z) (syncOutData : SyncEntry) : A_ Z :=
  alloc ← ask env_alloc;
  if negb alloc then mret (- E_OUT_OF_MEMORY)
  else
    syncType ← cur_type;
    packet ← FillDataRequestPacket syncOutData ackCode RESPONSE_PULL;
    let packetLen := rq_CalculateLen packet (GetMessageId syncType) in
    message ← new_message (GetMessageId syncType) (ODataRequest packet);
    match message with
    | None => mret (- E_OUT_OF_MEMORY)
    | Some message =>
      c ← cx id;
      let message := SetMessageHeadInfo message TYPE_REQUEST (cx_deviceId c) (cx_sequenceId c) (cx_responseSessionId c) in
      _ ← SendResetWatchDogPacket packetLen;
      Send message packetLen
    end.

(** * Starting a synchronization *)

Definition QuerySyncCheck (c : TaskContext Tok) : bool :=
  if negb (cx_isQuerySync c) then true
  else
    let version := current_version (cx_remoteSoftwareVersion c) in
    if version <=? SOFTWARE_VERSION_RELEASE_1_0 then true
    else if version <? SOFTWARE_VERSION_RELEASE_4_0 then false
    else if (version <? SOFTWARE_VERSION_RELEASE_5_0) && negb (IsQueryOnlyByKey (cx_query c)) then false
    else if hasInKeys_ (cx_query c) && negb (GetAbilityItem (cx_remoteDbAbility c) INKEYS_QUERY =? SUPPORT_MARK) then false
    else true.

Definition RemoveDeviceDataIfNeed : A_ Z :=
  c ← cx id;
  if cx_remoteSoftwareVersion c <=? SOFTWARE_VERSION_RELEASE_3_0 then mret E_OK
  else
    clearRemoteDataMark ← on_meta (fun m => GetRemoveDataMark m (cx_deviceId c));
    if clearRemoteDataMark =? 0 then mret E_OK
    else
      errCode ← (if cx_needClearRemoteStaleData c && (clearRemoteDataMark =? REMOVE_DEVICE_DATA_MARK)
                 then try_meta (fun m => sg_RemoveDeviceData (Tok := Tok) m (cx_deviceId c) true) else mret E_OK);
      if negb (is_ok errCode) then mret errCode
      else if clearRemoteDataMark =? REMOVE_DEVICE_DATA_MARK
      then on_meta (fun m => ResetMetaDataAfterRemoveData m (cx_deviceId c))
      else mret E_OK.

(** The marks are saved when the packet is on its way; the status of that is not looked at. *)
Definition save_marks (curType : SyncType) (dataTime : SyncTimeRange) (isUpdateWaterMark : UpdateWaterMark) : A_ Z :=
  q ← cx cx_query;
  if is_query_type curType && no_marks q then mret E_OK
  else _ ← ds_SaveLocalWaterMark curType (ReviseLocalMark curType dataTime isUpdateWaterMark) false; mret E_OK.

Definition RequestStart (mode : Z) : A_ Z :=
  c ← cx id;
  if negb (QuerySyncCheck c) then _ ← on_cx (fun c => SetTaskErrCode c (- E_NOT_SUPPORT)); mret (- E_NOT_SUPPORT)
  else
    errCode ← RemoveDeviceDataIfNeed;
    if negb (is_ok errCode) then _ ← on_cx (fun c => SetTaskErrCode c errCode); mret errCode
    else
      '(errCode, syncData) ← GetDataWithPerformanceRecord;
      let errCode := TranslateErrCodeIfNeed mode (cx_remoteSoftwareVersion c) errCode in
      if negb (IsGetDataSuccessfully errCode) then mret errCode
      else
        alloc ← ask env_alloc;
        if negb alloc then mret (- E_OUT_OF_MEMORY)
        else
          curType ← cur_type;
          '(dataTime, isUpdateWaterMark) ← GetSyncDataTimeRange curType (entries syncData);
          _ ← (if is_ok errCode
               then on_ds (fun d => SetSessionEndTimestamp d (Z.max (endTime dataTime) (deleteEndTime dataTime)))
               else mret tt);
          packet ← FillDataRequestPacket syncData errCode mode;
          errCode ← SendDataPacket curType packet;
          _ ← (if is_ok errCode || (errCode =? - E_TIMEOUT) then UpdateSendInfo dataTime else mret tt);
          if is_ok errCode then save_marks curType dataTime isUpdateWaterMark else mret errCode.

Definition PushStart : A_ Z :=
  curType ← cur_type; RequestStart (if is_query_type curType then QUERY_PUSH else PUSH).

Definition PushPullStart : A_ Z := mode ← cx cx_mode; RequestStart mode.

Definition PullRequestStart : A_ Z :=
  c ← cx id;
  if negb (QuerySyncCheck c) then _ ← on_cx (fun c => SetTaskErrCode c (- E_NOT_SUPPORT)); mret (- E_NOT_SUPPORT)
  else
    errCode ← RemoveDeviceDataIfNeed;
    if negb (is_ok errCode) then _ ← on_cx (fun c => SetTaskErrCode c errCode); mret errCode
    else
      alloc ← ask env_alloc;
      if negb alloc then mret (- E_OUT_OF_MEMORY)
      else
        syncType ← cur_type;
        queryId ← GetQuerySyncId;
        peerMark ← ds_GetPeerWaterMark syncType queryId (cx_deviceId c);
        localMark ← ds_GetLocalWaterMark syncType queryId;
        deleteMark ← GetLocalDeleteSyncWaterMark;
        v ← version;
        let p := SetBasicInfo newDataRequest E_OK v (cx_mode c) in
        let p := SetWaterMark p localMark peerMark deleteMark in
        let p := SetEndWaterMark p (cx_endMark c) in
        let p := SyncPacket.SetSessionId p (cx_requestSessionId c) in
        let p := SyncPacket.SetQuery p (cx_query c) in
        let p := SetQueryId p queryId in
        let p := SetLastSequence p in
        p ← SetPacketId p v;
        _ ← UpdateSendInfo (mkSyncTimeRange localMark deleteMark localMark deleteMark);
        SendDataPacket syncType p.

Definition PullResponseStart : A_ Z :=
  '(errCode, syncData) ← GetDataWithPerformanceRecord;
  if negb (IsGetDataSuccessfully errCode) then
    c ← cx id;
    _ ← (if SOFTWARE_VERSION_RELEASE_2_0 <? cx_remoteSoftwareVersion c then SendPullResponseDataPkt errCode syncData
         else mret E_OK);
    mret errCode
  else
    token ← cx cx_token;
    let ackCode := match token with None => if is_ok errCode then SEND_FINISHED else E_OK | Some _ => E_OK end in
    curType ← cur_type;
    '(dataTime, isUpdateWaterMark) ← GetSyncDataTimeRange curType (entries syncData);
    _ ← (if is_ok errCode
         then on_ds (fun d => SetSessionEndTimestamp d (Z.max (endTime dataTime) (deleteEndTime dataTime)))
         else mret tt);
    errCode ← SendPullResponseDataPkt ackCode syncData;
    _ ← (if is_ok errCode || (errCode =? - E_TIMEOUT) then UpdateSendInfo dataTime else mret tt);
    if is_ok errCode then save_marks curType dataTime isUpdateWaterMark else mret errCode.

Definition ResetSyncStatus (inMode : Z) : A_ unit :=
  _ ← on_cx ReSetSequenceId;
  c ← cx id;
  let mode := TransferSyncMode inMode in
  on_ds (fun d =>
    let d := set_mode d inMode in
    let d := set_maxSequenceIdHasSent d 0 in
    let d := set_isAllDataHasSent d false in
    let d := set_reSendMap d ∅ in
    let d := set_windowSize d (if cx_remoteSoftwareVersion c <? SOFTWARE_VERSION_RELEASE_3_0
                               then LOW_VERSION_WINDOW_SIZE else HIGH_VERSION_WINDOW_SIZE) in
    set_sessionId d (if (mode =? PUSH) || (mode =? PUSH_AND_PULL) || (mode =? PULL)
                     then cx_requestSessionId c else cx_responseSessionId c)).

(** One round of the loop of [InnerSyncStart]: [Some r] is its [return r]. *)
Definition inner_round : A_ (option Z) :=
  d ← ds id;
  if (ds_windowSize d <=? 0) || ds_isAllDataHasSent d then mret (Some E_OK)
  else
    let mode := TransferSyncMode (ds_mode d) in
    if mode =? PULL then mret (Some (- E_INVALID_ARGS))
    else
      _ ← on_cx IncSequenceId;
      errCode ← (if (mode =? PUSH) || (mode =? PUSH_AND_PULL) then PushStart else PullResponseStart);
      if (mode =? PUSH_AND_PULL) && (errCode =? - E_EKEYREVOKED) then
        _ ← on_ds (fun d => set_isAllDataHasSent d true);
        mret (Some (- E_EKEYREVOKED))
      else
        c ← cx id;
        if IsSkipTimeoutError c errCode then mret (Some E_OK)
        else if negb (is_ok errCode) then mret (Some errCode)
        else mret None.

(** The loop; [None] when [fuel] rounds were not enough. *)
Fixpoint inner_loop (fuel : nat) : A_ (option Z) :=
  match fuel with
  | O => mret None
  | S fuel => r ← inner_round; match r with Some e => mret (Some e) | None => inner_loop fuel end
  end.

(** A round that does not return takes a place of the window. *)
Definition InnerSyncStart : A_ Z :=
  window ← ds ds_windowSize;
  r ← inner_loop (S (Z.to_nat window));
  defined r.

Definition InnerClearSyncStatus (d : DataSync) : DataSync :=
  let d := set_sessionId d 0 in
  let d := set_reSendMap d ∅ in
  let d := set_windowSize d 0 in
  let d := set_maxSequenceIdHasSent d 0 in
  set_isAllDataHasSent d false.

Definition ClearSyncStatus : A_ unit := on_ds InnerClearSyncStatus.

(** * Sending again *)

(** What was sent is read again, by its time range. *)
Definition GetReSendData (i : DataSyncReSendInfo) : A_ (Z * SyncEntry) :=
  c ← cx id;
  if TransferSyncMode (cx_mode c) =? PULL then mret (E_OK, noEntry)
  else
    v ← version;
    info ← GetDataSizeSpecInfo (packet_size v);
    curType ← cur_type;
    '(errCode, outData, token) ←
      (if negb (is_query_type curType) then
         on_storage (fun st => sg_GetSyncData st (rs_start i) (u64 (rs_end i + 1)) info)
       else
         on_storage (fun st => sg_GetSyncData_query st (cx_query c)
                                 (mkSyncTimeRange (rs_start i) (rs_deleteDataStart i) (u64 (rs_end i + 1))
                                    (u64 (rs_deleteDataEnd i + 1))) 0 info));
    _ ← (match token with
         | Some token => on_storage (fun st => (tt, sg_ReleaseContinueToken st token))
         | None => mret tt
         end);
    if (errCode =? - E_BUSY) || (errCode =? - E_EKEYREVOKED) then
      _ ← on_cx (fun c => SetTaskErrCode c errCode);
      mret (errCode, mkSyncEntry outData [])
    else if negb (IsGetDataSuccessfully errCode) then mret (errCode, mkSyncEntry outData [])
    else intercept_and_compress errCode outData.

Definition FillRequestReSendPacket (i : DataSyncReSendInfo) (syncData : SyncEntry) (sendCode : Z) : A_ DataRequestPacket :=
  curType ← cur_type;
  queryId ← GetQuerySyncId;
  c ← cx id;
  peerMark ← ds_GetPeerWaterMark curType queryId (cx_deviceId c);
  v ← version;
  sessionEnd ← ds ds_sessionEndTimestamp;
  let reSendMode := GetReSendMode (cx_mode c) (rs_sequenceId i) curType in
  let isLast := sessionEnd =? Z.max (rs_end i) (rs_deleteDataEnd i) in
  let p := newDataRequest in
  let p := if isLast || (TransferSyncMode (cx_mode c) =? PULL) then SetLastSequence p else p in
  let sendCode := if is_ok sendCode && isLast && (cx_mode c =? RESPONSE_PULL) then SEND_FINISHED else sendCode in
  let p := SetData p (entries syncData) in
  let p := SetCompressData p (compressedEntries syncData) in
  let p := SetBasicInfo p sendCode v reSendMode in
  let p := SetWaterMark p (rs_start i) peerMark (rs_deleteDataStart i) in
  let p := if negb (TransferSyncMode reSendMode =? PUSH)
           then SyncPacket.SetQuery (SetEndWaterMark p (cx_endMark c)) (cx_query c) else p in
  let p := SetQueryId p queryId in
  let p := if SOFTWARE_VERSION_RELEASE_2_0 <? v then SetReserved p [rs_packetId i] else p in
  '(needCompressOnSync, _) ← storage (fun st => sg_GetCompressionOption (Tok := Tok) st);
  curAlgo ← ChooseCompressAlgo;
  mret (if needCompressOnSync && negb (curAlgo =? NONE) then SetCompressAlgo (SetCompressDataMark p) curAlgo else p).

Definition SendReSendPacket (packet : DataRequestPacket) (sessionId sequenceId : Z) : A_ Z :=
  syncType ← cur_type;
  message ← new_message (GetMessageId syncType) (ODataRequest packet);
  match message with
  | None => mret (- E_OUT_OF_MEMORY)
  | Some message =>
    c ← cx id;
    Send (SetMessageHeadInfo message TYPE_REQUEST (cx_deviceId c) sequenceId sessionId)
      (rq_CalculateLen packet (GetMessageId syncType))
  end.

Definition ReSend (i : DataSyncReSendInfo) : A_ Z :=
  '(errCode, syncData) ← GetReSendData i;
  if negb (IsGetDataSuccessfully errCode) then mret errCode
  else
    curType ← cur_type;
    alloc ← ask env_alloc;
    if negb alloc then mret (- E_OUT_OF_MEMORY)
    else
      packet ← FillRequestReSendPacket i syncData errCode;
      errCode ← SendReSendPacket packet (rs_sessionId i) (rs_sequenceId i);
      c ← cx id;
      _ ← (if is_ok errCode && negb (TransferSyncMode (cx_mode c) =? PULL) then
             let deleteEnd := if (rs_deleteDataStart i <? rs_deleteDataEnd i) && is_query_type curType
                              then u64 (rs_deleteDataEnd i + 1) else rs_deleteDataEnd i in
             let end_ := if rs_start i <? rs_end i then u64 (rs_end i + 1) else rs_end i in
             ds_SaveLocalWaterMark curType (mkSyncTimeRange (rs_start i) (rs_deleteDataStart i) end_ deleteEnd) true
           else mret E_OK);
      mret errCode.

Definition ReSendData : A_ Z :=
  d ← ds id;
  match least_entry (ds_reSendMap d) with
  | None => mret (- E_INTERNAL_ERROR)
  | Some (sequenceId, i) =>
    ReSend (mkDataSyncReSendInfo (ds_sessionId d) sequenceId (ri_start i) (ri_end i) (ri_deleteBeginTime i)
              (ri_deleteEndTime i) (ri_packetId i))
  end.

(** * Start, acknowledgement *)

Definition SyncStart (mode : Z) : A_ Z :=
  session ← ds ds_sessionId;
  if negb (session =? 0) then ReSendData
  else
    _ ← ResetSyncStatus mode;
    let tmpMode := TransferSyncMode mode in
    errCode ← (if tmpMode =? PUSH then PushStart
               else if tmpMode =? PUSH_AND_PULL then PushPullStart
               else if tmpMode =? PULL then PullRequestStart
               else PullResponseStart);
    c ← cx id;
    if IsSkipTimeoutError c errCode then mret E_OK
    else if negb (is_ok errCode) then mret errCode
    else if (tmpMode =? PUSH_AND_PULL) && (cx_taskErrCode c =? - E_EKEYREVOKED) then mret (- E_EKEYREVOKED)
    else InnerSyncStart.

(** The time that a query was last sent up to, for tables of a relational store. *)
Definition save_query_time (lastQueryTime : Z) : A_ Z :=
  c ← cx id;
  if cx_isQuerySync c && (sg_GetInterfaceType (St := St) (Tok := Tok) =? SYNC_RELATION) then
    queryId ← GetQuerySyncId;
    now ← ask env_now;
    '(errCode, dbLastQueryTime) ← try_meta (fun m => GetLastQueryTime m queryId (cx_deviceId c) 0 now);
    if is_ok errCode && (dbLastQueryTime <? lastQueryTime) then
      now ← ask env_now;
      now' ← ask env_now;
      try_meta (fun m => md_SetLastQueryTime m queryId (cx_deviceId c) lastQueryTime now now')
    else mret errCode
  else mret E_OK.

Definition TryContinueSync (message : option SyncMessage) : A_ Z :=
  match message with
  | None => mret (- E_INVALID_ARGS)
  | Some message =>
    packet ← defined (GetDataAck message);
    match packet with
    | None => mret (- E_INVALID_ARGS)
    | Some packet =>
      d ← ds id;
      if negb (sessionId_ message =? ds_sessionId d) then mret E_OK
      else match ds_reSendMap d !! sequenceId_ message with
           | None => mret E_OK
           | Some info =>
             _ ← on_ds (fun d => set_windowSize (set_reSendMap d (delete (sequenceId_ message) (ds_reSendMap d)))
                                   (ds_windowSize d + 1));
             errCode ← save_query_time (ri_end info);
             if negb (is_ok errCode) then mret errCode
             else
               d ← ds id;
               if negb (ds_isAllDataHasSent d) then InnerSyncStart
               else if bool_decide (ds_reSendMap d = ∅) then
                 _ ← SetOperationStatus OP_SEND_FINISHED;
                 _ ← ClearSyncStatus;
                 mret (- E_FINISHED)
               else mret E_OK
           end
    end
  end.

Definition AckPacketIdCheck (message : option SyncMessage) : A_ bool :=
  match message with
  | None => mret false
  | Some message =>
    if (messageType_ message =? TYPE_NOTIFY) || IsFeedbackError message then mret true
    else
      packet ← defined (GetDataAck message);
      match packet with
      | None => mret false
      | Some packet =>
        let packetId := ak_GetPacketId packet in
        d ← ds id;
        match ds_reSendMap d !! sequenceId_ message with
        | None => mret true
        | Some info => mret (negb (IsPacketIdValid packetId && negb (packetId =? ri_packetId info)))
        end
      end
  end.

Definition PushAndPullKeyRevokHandle (c : TaskContext Tok) : TaskContext Tok :=
  if (SOFTWARE_VERSION_RELEASE_2_0 <? cx_remoteSoftwareVersion c) && (TransferSyncMode (cx_mode c) =? PUSH_AND_PULL)
     && (cx_taskErrCode c =? - E_EKEYREVOKED)
  then SetTaskErrCode c E_OK else c.

(** The other device has lost what this one sent; [reserved] is not empty in the last case. *)
Definition DealRemoveDeviceDataByAck (ackWaterMark : Z) (reserved : list Z) : A_ Z :=
  c ← cx id;
  curType ← cur_type;
  isNeedClearRemoteData ←
    (if SOFTWARE_VERSION_RELEASE_3_0 <? cx_remoteSoftwareVersion c then
       mark ← on_meta (fun m => GetRemoveDataMark m (cx_deviceId c)); mret (negb (mark =? 0))
     else match reserved with
          | [] =>
            queryId ← defined (GetIdentify (cx_query c));
            localMark ← ds_GetLocalWaterMark curType queryId;
            mret (negb (localMark =? 0) && (ackWaterMark =? 0))
          | first :: _ =>
            queryId ← GetQuerySyncId;
            peerMark ← ds_GetPeerWaterMark curType queryId (cx_deviceId c);
            mret ((first =? 0) && negb (peerMark =? 0))
          end);
  if negb isNeedClearRemoteData then mret E_OK
  else
    errCode ← try_meta (fun m => sg_RemoveDeviceData (Tok := Tok) m (cx_deviceId c) true);
    if negb (is_ok errCode) then mret errCode
    else if SOFTWARE_VERSION_RELEASE_3_0 <? cx_remoteSoftwareVersion c
    then on_meta (fun m => ResetMetaDataAfterRemoveData m (cx_deviceId c))
    else mret errCode.

Definition DealWaterMarkException (ackWaterMark : Z) (reserved : list Z) : A_ Z :=
  curType ← cur_type;
  match (if is_query_type curType then reserved !! ACK_PACKET_RESERVED_INDEX_DELETE_WATER_MARK else Some 0) with
  | None => mret (- E_INVALID_ARGS)
  | Some deletedWaterMark =>
    errCode ← ds_SaveLocalWaterMark curType (mkSyncTimeRange 0 0 ackWaterMark deletedWaterMark) false;
    if negb (is_ok errCode) then mret errCode
    else
      _ ← on_cx (fun c => SetRetryStatus c NEED_RETRY);
      _ ← on_cx IncNegotiationCount;
      _ ← on_cx PushAndPullKeyRevokHandle;
      c ← cx id;
      if negb (cx_needClearRemoteStaleData c) then mret (- E_RE_SEND_DATA)
      else
        errCode ← DealRemoveDeviceDataByAck ackWaterMark reserved;
        mret (if negb (is_ok errCode) then errCode else - E_RE_SEND_DATA)
  end.

Definition AckRecv (message : SyncMessage) : A_ Z :=
  if IsFeedbackError message then mret (- errorNo_ message)
  else
    packet ← defined (GetDataAck message);
    match packet with
    | None => mret (- E_INVALID_ARGS)
    | Some packet =>
      let recvCode := ak_recvCode packet in
      if recvCode =? - E_VERSION_NOT_SUPPORT then mret (- E_VERSION_NOT_SUPPORT)
      else if (recvCode =? - E_NEED_ABILITY_SYNC) || (recvCode =? - E_NOT_PERMIT) then
        _ ← ReleaseContinueToken; mret recvCode
      else if recvCode =? LOCAL_WATER_MARK_NOT_INIT then DealWaterMarkException (ak_data packet) (ak_reserved packet)
      else
        _ ← (if (recvCode =? - E_SAVE_DATA_NOTIFY) && negb (ak_data packet =? 0)
             then StartFeedDogForSync (u32 (ak_data packet)) RECEIVE else mret false);
        if negb (is_ok recvCode) && negb (recvCode =? WATER_MARK_INVALID) then mret recvCode
        else
          c ← cx id;
          mret (if ((sessionId_ message =? cx_responseSessionId c) || (sessionId_ message =? cx_requestSessionId c))
                   && bool_decide (cx_token c = None :> option Tok)
                then - E_NO_DATA_SEND else - E_SEND_DATA)
    end.

(** * Receiving *)

Definition SetAckPacket (packet : DataRequestPacket) (recvCode maxSendDataTime : Z) : A_ DataAckPacket :=
  let curType := GetSyncType (rq_mode packet) in
  localMark ← ds_GetLocalWaterMark curType (rq_queryId packet);
  c ← cx id;
  data ← (if is_ok recvCode && negb (maxSendDataTime =? 0) then mret (u64 (maxSendDataTime + 1))
          else if negb (recvCode =? WATER_MARK_INVALID) then ds_GetPeerWaterMark curType (rq_queryId packet) (cx_deviceId c)
          else mret 0);
  v ← version;
  let packetId := if SOFTWARE_VERSION_RELEASE_2_0 <? v then rq_GetPacketId packet else 0 in
  let reserved := localMark :: (if (SOFTWARE_VERSION_RELEASE_2_0 <? v) && (0 <? packetId) then [packetId] else []) in
  reserved ← (if is_query_type curType && negb (recvCode =? WATER_MARK_INVALID) then
                deletedPeerMark ← GetPeerDeleteSyncWaterMark (GetDeleteSyncId c);
                mret (reserved ++ [deletedPeerMark])
              else mret reserved);
  mret (mkDataAck data recvCode v reserved).

Definition SendDataAck (message : SyncMessage) (recvCode maxSendDataTime : Z) : A_ Z :=
  packet ← defined (GetDataRequest message);
  match packet with
  | None => mret (- E_INVALID_ARGS)
  | Some packet =>
    alloc ← ask env_alloc;
    if negb alloc then mret (- E_OUT_OF_MEMORY)
    else
      ack ← SetAckPacket packet recvCode maxSendDataTime;
      holder ← ask env_alloc;
      if negb holder then mret (- E_OUT_OF_MEMORY)
      else
        c ← cx id;
        let ackMessage := set_object (SetMessageId emptyMessage (messageId_ message)) (ODataAck ack) in
        Send (SetMessageHeadInfo ackMessage TYPE_RESPONSE (cx_deviceId c) (sequenceId_ message) (sessionId_ message)) 0
  end.

Definition SendFinishedDataAck (message : SyncMessage) : A_ unit := _ ← SendDataAck message E_OK 0; mret tt.

Definition SendSaveDataNotifyPacket (pktVersion sessionId sequenceId inMsgId : Z) : A_ unit :=
  if negb (inMsgId =? DATA_SYNC_MESSAGE) && negb (inMsgId =? QUERY_SYNC_MESSAGE) then mret tt
  else
    message ← new_message inMsgId (ODataAck (mkDataAck 0 (- E_SAVE_DATA_NOTIFY) pktVersion []));
    match message with
    | None => mret tt
    | Some message =>
      c ← cx id;
      _ ← Send (SetMessageHeadInfo message TYPE_NOTIFY (cx_deviceId c) sequenceId sessionId) 0;
      mret tt
    end.

Definition SendControlAck (message : SyncMessage) (recvCode controlCmdType : Z) : A_ Z :=
  v ← version;
  ackMessage ← new_message (messageId_ message) (OControlAck (ca_SetPacketHead recvCode v (to_signed 32 controlCmdType) 0));
  match ackMessage with
  | None => mret (- E_OUT_OF_MEMORY)
  | Some ackMessage =>
    c ← cx id;
    Send (SetMessageHeadInfo ackMessage TYPE_RESPONSE (cx_deviceId c) (sequenceId_ message) (sessionId_ message)) 0
  end.

Definition DoAbilitySyncIfNeed (message : SyncMessage) (isControlMsg : bool) : A_ Z :=
  '(errCode, remoteCommunicatorVersion) ← ask env_remoteVersion;
  if errCode =? - E_NOT_FOUND then mret (- E_VERSION_NOT_SUPPORT)
  else if remoteCommunicatorVersion =? 0 then
    _ ← on_cx (fun c => SetRemoteSoftwareVersion c SOFTWARE_VERSION_EARLIEST); mret E_OK
  else
    _ ← (if isControlMsg then SendControlAck message (- E_NEED_ABILITY_SYNC) 0
         else SendDataAck message (- E_NEED_ABILITY_SYNC) 0);
    mret (- E_WAIT_NEXT_MESSAGE).

Definition CheckPermitReceiveData : A_ bool :=
  c ← cx id;
  if securityLabel (cx_remoteSecOption c) =? NOT_SURPPORT_SEC_CLASSIFICATION then mret true
  else ask (fun n => env_security n local_identity (cx_remoteSecOption c)).

(** [SingleVerDataSyncUtils::RunPermissionCheck]. *)
Definition utils_RunPermissionCheck (mode : Z) : A_ Z :=
  c ← cx id;
  let flag := if mode =? PUSH then CHECK_FLAG_RECEIVE
              else if mode =? PULL then CHECK_FLAG_SEND
              else if mode =? PUSH_AND_PULL then Z.lor CHECK_FLAG_SEND CHECK_FLAG_RECEIVE
              else CHECK_FLAG_RECEIVE in
  if negb (sg_GetInterfaceType (St := St) (Tok := Tok) =? SYNC_RELATION)
  then ask (fun n => env_permission n (cx_deviceId c) flag) else mret E_OK.

Definition RunPermissionCheck (message : SyncMessage) (packet : DataRequestPacket) : A_ Z :=
  let mode := TransferSyncMode (rq_mode packet) in
  errCode ← utils_RunPermissionCheck mode;
  c ← cx id;
  if negb (is_ok errCode) then
    _ ← (if SOFTWARE_VERSION_EARLIEST <? cx_remoteSoftwareVersion c then SendDataAck message (- E_NOT_PERMIT) 0
         else mret E_OK);
    mret (- E_NOT_PERMIT)
  else if (SOFTWARE_VERSION_RELEASE_2_0 <? current_version (cx_remoteSoftwareVersion c)) && negb (mode =? PULL)
          && negb (cx_isReceivcPermitChecked c) then
    permitReceive ← CheckPermitReceiveData;
    if permitReceive : bool then _ ← on_cx (fun c => SetReceivcPermitCheck c true); mret errCode
    else
      _ ← SendDataAck message (- E_SECURITY_OPTION_CHECK_ERROR) (GetMaxSendDataTime (rq_data packet));
      mret (- E_SECURITY_OPTION_CHECK_ERROR)
  else mret errCode.

Definition CheckSchemaStrategy (message : SyncMessage) : A_ Z :=
  c ← cx id;
  if negb (cx_isSchemaSync c) then _ ← SendDataAck message (- E_NEED_ABILITY_SYNC) 0; mret (- E_NEED_ABILITY_SYNC)
  else if negb (cx_permitSync c) then _ ← SendDataAck message (- E_SCHEMA_MISMATCH) 0; mret (- E_SCHEMA_MISMATCH)
  else mret E_OK.

Definition RequestQueryCheck (packet : DataRequestPacket) : A_ Z :=
  if negb (is_query_type (GetSyncType (rq_mode packet))) then mret E_OK
  else on_storage (fun st => sg_CheckAndInitQueryCondition (Tok := Tok) st (rq_query packet)).

Definition DataRequestRecvPre (message : option SyncMessage) : A_ (Z + SyncMessage * DataRequestPacket) :=
  match message with
  | None => mret (inl (- E_INVALID_ARGS))
  | Some message =>
    packet ← defined (GetDataRequest message);
    match packet with
    | None => mret (inl (- E_INVALID_ARGS))
    | Some packet =>
      let finish := fun errCode => mret (if is_ok errCode then inr (message, packet) else inl errCode) in
      c ← cx id;
      if cx_remoteSoftwareVersion c <=? SOFTWARE_VERSION_BASE then errCode ← DoAbilitySyncIfNeed message false; finish errCode
      else
        let sendCode := rq_sendCode packet in
        if sendCode =? - E_VERSION_NOT_SUPPORT then
          _ ← SendDataAck message (- E_VERSION_NOT_SUPPORT) 0; mret (inl (- E_WAIT_NEXT_MESSAGE))
        else if negb (is_ok sendCode) && negb (sendCode =? SEND_FINISHED)
                && (sessionId_ message =? cx_requestSessionId c) then mret (inl sendCode)
        else
          errCode ← RunPermissionCheck message packet;
          if negb (is_ok errCode) then mret (inl errCode)
          else
            errCode ← (if SOFTWARE_VERSION_RELEASE_2_0 <? current_version (cx_remoteSoftwareVersion c)
                       then CheckSchemaStrategy message else mret errCode);
            errCode ← (if is_ok errCode then RequestQueryCheck packet else mret errCode);
            if negb (is_ok errCode) then _ ← SendDataAck message errCode 0; mret (inl errCode)
            else mret (inr (message, packet))
    end
  end.

Definition RemoveDeviceDataHandle (message : SyncMessage) (packet : DataRequestPacket) (maxSendDataTime : Z) : A_ Z :=
  c ← cx id;
  let newer := SOFTWARE_VERSION_RELEASE_3_0 <? cx_remoteSoftwareVersion c in
  isNeedClearRemoteData ←
    (if newer then
       mark ← on_meta (fun m => GetRemoveDataMark m (cx_deviceId c)); mret (mark =? REMOVE_DEVICE_DATA_MARK)
     else
       queryId ← GetQuerySyncId;
       peerMark ← ds_GetPeerWaterMark (GetSyncType (rq_mode packet)) queryId (cx_deviceId c);
       mret ((rq_localWaterMark packet =? 0) && negb (peerMark =? 0)));
  if negb isNeedClearRemoteData then mret E_OK
  else
    errCode ← (if cx_needClearRemoteStaleData c then
                 errCode ← try_meta (fun m => sg_RemoveDeviceData (Tok := Tok) m (cx_deviceId c) true);
                 if negb (is_ok errCode) then _ ← SendDataAck message errCode maxSendDataTime; mret errCode
                 else
                   _ ← (if cx_remoteSoftwareVersion c =? SOFTWARE_VERSION_EARLIEST
                        then on_meta (fun m => SaveLocalWaterMark m (cx_deviceId c) 0) else mret E_OK);
                   mret E_OK
               else mret E_OK);
    if negb (is_ok errCode) then mret errCode
    else if newer then
      errCode ← on_meta (fun m => ResetMetaDataAfterRemoveData m (cx_deviceId c));
      if negb (is_ok errCode) then _ ← SendDataAck message errCode maxSendDataTime; mret errCode
      else mret E_OK
    else mret E_OK.

(** The sender believes this device has more than it has: it is told where to start. *)
Definition WaterMarkErrHandle (syncType : SyncType) (message : SyncMessage) (packet : DataRequestPacket) : A_ bool :=
  c ← cx id;
  peerMark ← ds_GetPeerWaterMark syncType (rq_queryId packet) (cx_deviceId c);
  deletedMark ← (if is_query_type syncType then GetPeerDeleteSyncWaterMark (GetDeleteSyncId c) else mret 0);
  if (negb (is_query_type syncType) && (peerMark <? rq_localWaterMark packet))
     || (is_query_type syncType && ((peerMark <? rq_localWaterMark packet) || (deletedMark <? rq_deletedWatermark packet)))
  then
    _ ← on_cx (fun c => SetReceiveWaterMarkErr c true);
    _ ← SendDataAck message LOCAL_WATER_MARK_NOT_INIT 0;
    mret true
  else mret false.

Definition GetPullEndWatermark (packet : DataRequestPacket) : A_ Z :=
  let mode := TransferSyncMode (rq_mode packet) in
  if (mode =? PULL) || (mode =? PUSH_AND_PULL) then
    c ← cx id;
    offset ← on_meta (fun m => GetTimeOffset m (cx_deviceId c));
    mret (u64 (rq_endWaterMark packet - u64 offset))
  else mret 0.

(** [TransSendDataItemToLocal] changes the items of the message before they are saved. *)
Definition SaveData (inData : list SendDataItem) (query : QuerySyncObject) : A_ Z :=
  if is_empty inData then mret E_OK
  else
    c ← cx id;
    currentLocalTime ← GetCurrentLocalTime;
    let items := option_map (item_to_local (cx_timeOffset c) currentLocalTime (TransferHashString local_identity)) <$> inData in
    on_storage (fun st => sg_PutSyncDataWithQuery (Tok := Tok) st query items (cx_deviceId c)).

Definition RemotePushFinished (sendCode inMode msgSessionId contextSessionId : Z) : A_ unit :=
  let mode := TransferSyncMode inMode in
  if negb (mode =? PUSH) && negb (mode =? PUSH_AND_PULL) && negb (mode =? QUERY_PUSH) && negb (mode =? QUERY_PUSH_PULL)
  then mret tt
  else if is_ok sendCode && negb (msgSessionId =? 0) && negb (msgSessionId =? contextSessionId)
  then d ← ds ds_deviceId; emit (EPushFinished d)
  else mret tt.

(** The status and the pull's end mark. *)
Definition DataRequestRecv (message : option SyncMessage) : A_ (Z * Z) :=
  pre ← DataRequestRecvPre message;
  match pre with
  | inl errCode => mret (errCode, 0)
  | inr (message, packet) =>
    let data := rq_data packet in
    let curType := GetSyncType (rq_mode packet) in
    _ ← on_cx (fun c => SetReceiveWaterMarkErr c false);
    let '(dataTime, isUpdateWaterMark) := GetRecvDataTimeRange curType data in
    errCode ← RemoveDeviceDataHandle message packet (endTime dataTime);
    if negb (is_ok errCode) then mret (errCode, 0)
    else
      markError ← WaterMarkErrHandle curType message packet;
      if markError : bool then mret (E_OK, 0)
      else
        pullEndWatermark ← GetPullEndWatermark packet;
        errCode ← SaveData data (rq_query packet);
        if negb (is_ok errCode) then
          _ ← SendDataAck message errCode (endTime dataTime); mret (errCode, pullEndWatermark)
        else
          readable ← storage (fun st => sg_IsReadable (Tok := Tok) st);
          '(errCode, pullEndWatermark) ←
            (if (0 <? pullEndWatermark) && negb readable then
               errCode ← SendDataAck message (- E_EKEYREVOKED) (endTime dataTime); mret (errCode, 0)
             else
               errCode ← SendDataAck message (if negb (is_empty data) then E_OK else WATER_MARK_INVALID) (endTime dataTime);
               mret (errCode, pullEndWatermark));
          c ← cx id;
          _ ← RemotePushFinished (rq_sendCode packet) (rq_mode packet) (sessionId_ message) (cx_requestSessionId c);
          _ ← (if negb (is_query_type curType) && normalUpdateMark isUpdateWaterMark
               then UpdatePeerWaterMark curType [] (u64 (endTime dataTime + 1)) 0
               else if is_query_type curType && IsNeedUpdateWaterMark packet
               then UpdateQueryPeerWaterMark curType (rq_queryId packet) dataTime isUpdateWaterMark
               else mret tt);
          if negb (is_ok errCode) then mret (errCode, pullEndWatermark)
          else if rq_sendCode packet =? SEND_FINISHED then mret (- E_RECV_FINISHED, pullEndWatermark)
          else mret (errCode, pullEndWatermark)
  end.

(** * Permission to send *)

Definition IsPermitRemoteDeviceRecvData (deviceId : DeviceID) (remoteSecOption : SecurityOption) : A_ bool :=
  if securityLabel remoteSecOption =? NOT_SURPPORT_SEC_CLASSIFICATION then mret true
  else
    '(errCode, localSecOption) ← storage (fun st => sg_GetSecurityOption (Tok := Tok) st);
    if errCode =? - E_NOT_SUPPORT then mret true else ask (fun n => env_security n deviceId localSecOption).

Definition CheckPermitSendData (inMode : Z) : A_ Z :=
  c ← cx id;
  let mode := TransferSyncMode inMode in
  if (current_version (cx_remoteSoftwareVersion c) <=? SOFTWARE_VERSION_RELEASE_2_0) || (mode =? PULL) then mret E_OK
  else if cx_isSendPermitChecked c then mret E_OK
  else
    isPermitSync ← (if (mode =? PUSH) || (mode =? PUSH_AND_PULL) || (mode =? RESPONSE_PULL)
                    then IsPermitRemoteDeviceRecvData (cx_deviceId c) (cx_remoteSecOption c) else mret true);
    if isPermitSync : bool then _ ← on_cx (fun c => SetSendPermitCheck c true); mret E_OK
    else if (mode =? PUSH) || (mode =? PUSH_AND_PULL) then
      _ ← on_cx (fun c => SetTaskErrCode c (- E_SECURITY_OPTION_CHECK_ERROR)); mret (- E_SECURITY_OPTION_CHECK_ERROR)
    else if mode =? RESPONSE_PULL then
      _ ← SendPullResponseDataPkt (- E_SECURITY_OPTION_CHECK_ERROR) noEntry; mret (- E_SECURITY_OPTION_CHECK_ERROR)
    else if mode =? SUBSCRIBE_QUERY then mret (- E_SECURITY_OPTION_CHECK_ERROR)
    else mret E_OK.

End DataSync.
