(* ===== verification/SyncLogic.v ===== *)
(** A program logic for actions: what an action leaves as it was ([stays], proved by walking
    through the code), and what it establishes ([wp]). *)

From S2P Require Import Prelude Memory CommTypes SerialBuffer ProtocolProto AppMessage SyncStorage CommitNotify QuerySync KvEntry.
From S2P Require Import SyncPacket DbAbility WaterMark MetaData TimeHelper SyncRead SubscribeManager SyncWorld SyncTask DataSync.
From Stdlib Require Import ZArith Lia.
From Stdlib Require Import Strings.Byte.
From stdpp Require Import base numbers list gmap.

Open Scope Z_scope.

Section Logic.
Context {St Tok : Type}.
Abbreviation W := (World St Tok).
Abbreviation A_ := (Act St Tok).

(** Every run of [m] leads to a state that is [R]-related to the one before. *)
Definition stays {A} (R : relation W) (m : A_ A) : Prop := forall w a w', m w = Some (a, w') -> R w w'.

(** Every run of [m] from [w] ends with [Q]. *)
Definition wp {A} (m : A_ A) (Q : A -> W -> Prop) (w : W) : Prop :=
  match m w with Some (a, w') => Q a w' | None => True end.

Section Stays.
Context (R : relation W) `{!PreOrder R}.

Lemma stays_mret {A} (a : A) : stays R (mret a).
Proof. intros w ? ? [= <- <-]. reflexivity. Qed.

Lemma stays_mbind {A B} (m : A_ A) (k : A -> A_ B) : stays R m -> (forall a, stays R (k a)) -> stays R (m ≫= k).
Proof.
  intros Hm Hk w b w' E. unfold mbind, act_bind in E. destruct (m w) as [[a w1]|] eqn:E1; [| done].
  etrans; [by eapply Hm | by eapply Hk].
Qed.

Lemma stays_cx {A} (f : TaskContext Tok -> A) : stays R (cx f).
Proof. intros w ? ? [= <- <-]. reflexivity. Qed.
Lemma stays_ds {A} (f : DataSync -> A) : stays R (ds f).
Proof. intros w ? ? [= <- <-]. reflexivity. Qed.
Lemma stays_storage {A} (f : St -> A) : stays R (storage f).
Proof. intros w ? ? [= <- <-]. reflexivity. Qed.
Lemma stays_defined {A} (o : option A) : stays R (defined o).
Proof. intros w a w' (x & _ & [= <- <-])%bind_Some. reflexivity. Qed.
Lemma stays_operation ptr : stays R (operation ptr).
Proof. intros w a w' (x & _ & [= <- <-])%bind_Some. reflexivity. Qed.
Lemma stays_dog flag : stays R (dog flag).
Proof. intros w ? ? [= <- <-]. reflexivity. Qed.

Lemma stays_on_cx f : (forall w, R w (set_cx w (f (w_cx w)))) -> stays R (on_cx f).
Proof. intros Hf w ? ? [= <- <-]. apply Hf. Qed.
Lemma stays_on_ds f : (forall w, R w (set_ds w (f (w_ds w)))) -> stays R (on_ds f).
Proof. intros Hf w ? ? [= <- <-]. apply Hf. Qed.
Lemma stays_emit e : (forall w, R w (set_events w (w_events w ++ [e]))) -> stays R (emit e).
Proof. intros Hf w ? ? [= <- <-]. apply Hf. Qed.
Lemma stays_ask {A} (f : nat -> A) : (forall w, R w (set_tick w (S (w_tick w)))) -> stays R (ask f).
Proof. intros Hf w ? ? [= <- <-]. apply Hf. Qed.
Lemma stays_on_operation ptr f : (forall w ops, R w (set_ops w ops)) -> stays R (on_operation ptr f).
Proof. intros Hf w a w' (x & _ & [= <- <-])%bind_Some. apply Hf. Qed.
Lemma stays_set_dog flag d : (forall w d, R w (set_sendDog w d) /\ R w (set_recvDog w d)) -> stays R (set_dog flag d).
Proof. intros Hf w ? ? [= <- <-]. destruct flag; apply Hf. Qed.
Lemma stays_on_storage {A} (f : St -> A * St) :
  (forall w a st, f (md_store (w_md w)) = (a, st) -> R w (set_md w (set_store (w_md w) st))) -> stays R (on_storage f).
Proof. intros Hf w a w' E. unfold on_storage in E. destruct (f _) as [b st] eqn:Ef. injection E as <- <-. eauto. Qed.
Lemma stays_on_meta {A} (f : Metadata St -> A * Metadata St) :
  (forall w a m, f (w_md w) = (a, m) -> R w (set_md w m)) -> stays R (on_meta f).
Proof. intros Hf w a w' E. unfold on_meta in E. destruct (f _) as [b st] eqn:Ef. injection E as <- <-. eauto. Qed.
Lemma stays_try_meta {A} (f : Metadata St -> option (A * Metadata St)) :
  (forall w a m, f (w_md w) = Some (a, m) -> R w (set_md w m)) -> stays R (try_meta f).
Proof. intros Hf w a w' ([b m] & Ef & [= <- <-])%bind_Some. eauto. Qed.
Lemma stays_try_sub {A} (f : SubscribeManager -> option (A * SubscribeManager)) :
  (forall w s, R w (set_sub w s)) -> stays R (try_sub f).
Proof. intros Hf w a w' ([b m] & Ef & [= <- <-])%bind_Some. eauto. Qed.

End Stays.

Lemma stays_mono {A} (R R' : relation W) (m : A_ A) : (forall w w', R w w' -> R' w w') -> stays R m -> stays R' m.
Proof. intros HR Hm w a w' E. eauto. Qed.

(** * Postconditions *)

Lemma wp_ret {A} (a : A) Q w : Q a w -> wp (mret a) Q w.
Proof. done. Qed.

Lemma wp_bind {A B} (m : A_ A) (k : A -> A_ B) Q w : wp m (fun a => wp (k a) Q) w -> wp (m ≫= k) Q w.
Proof. unfold wp, mbind, act_bind. by destruct (m w) as [[a w']|]. Qed.

Lemma wp_cx {A} (f : TaskContext Tok -> A) Q w : Q (f (w_cx w)) w -> wp (cx f) Q w.
Proof. done. Qed.
Lemma wp_ds {A} (f : DataSync -> A) Q w : Q (f (w_ds w)) w -> wp (ds f) Q w.
Proof. done. Qed.
Lemma wp_storage {A} (f : St -> A) Q w : Q (f (md_store (w_md w))) w -> wp (storage f) Q w.
Proof. done. Qed.
Lemma wp_on_cx f Q w : Q tt (set_cx w (f (w_cx w))) -> wp (on_cx f) Q w.
Proof. done. Qed.
Lemma wp_on_ds f Q w : Q tt (set_ds w (f (w_ds w))) -> wp (on_ds f) Q w.
Proof. done. Qed.
Lemma wp_ask {A} (f : nat -> A) Q w : (forall a, a = f (w_tick w) -> Q a (set_tick w (S (w_tick w)))) -> wp (ask f) Q w.
Proof. intros HQ. by apply HQ. Qed.
Lemma wp_defined {A} (o : option A) Q w : (forall a, o = Some a -> Q a w) -> wp (defined o) Q w.
Proof. intros HQ. unfold wp, defined. destruct o; [by apply HQ | done]. Qed.
Lemma wp_on_storage {A} (f : St -> A * St) Q w :
  (forall a st, f (md_store (w_md w)) = (a, st) -> Q a (set_md w (set_store (w_md w) st))) -> wp (on_storage f) Q w.
Proof. intros HQ. unfold wp, on_storage. destruct (f _) as [a st] eqn:E. by apply HQ. Qed.
Lemma wp_on_meta {A} (f : Metadata St -> A * Metadata St) Q w :
  (forall a m, f (w_md w) = (a, m) -> Q a (set_md w m)) -> wp (on_meta f) Q w.
Proof. intros HQ. unfold wp, on_meta. destruct (f _) as [a st] eqn:E. by apply HQ. Qed.
Lemma wp_try_meta {A} (f : Metadata St -> option (A * Metadata St)) Q w :
  (forall a m, f (w_md w) = Some (a, m) -> Q a (set_md w m)) -> wp (try_meta f) Q w.
Proof. intros HQ. unfold wp, try_meta. destruct (f _) as [[a st]|] eqn:E; [by apply HQ | done]. Qed.

(** What a call leaves as it was is enough for the rest. *)
Lemma wp_stays {A} (R : relation W) (m : A_ A) Q w : stays R m -> (forall a w', R w w' -> Q a w') -> wp m Q w.
Proof. intros Hm HQ. unfold wp. destruct (m w) as [[a w']|] eqn:E; [| done]. eapply HQ, Hm, E. Qed.

Lemma wp_mono {A} (m : A_ A) (Q Q' : A -> W -> Prop) w : wp m Q w -> (forall a w', Q a w' -> Q' a w') -> wp m Q' w.
Proof. unfold wp. destruct (m w) as [[a w']|]; [intros ? HQ; by apply HQ | done]. Qed.

Lemma wp_any {A} (m : A_ A) (Q : A -> W -> Prop) w : (forall a w', Q a w') -> wp m Q w.
Proof. unfold wp. intros HQ. destruct (m w) as [[a w']|]; auto. Qed.

Lemma wp_both {A} (R : relation W) (m : A_ A) (Q : A -> W -> Prop) w :
  stays R m -> wp m Q w -> wp m (fun a w' => Q a w' /\ R w w') w.
Proof. unfold wp. intros Hm HQ. destruct (m w) as [[a w']|] eqn:E; [split; [done | by eapply Hm] | done]. Qed.

Lemma wp_use {A} (m : A_ A) Q w a w' : wp m Q w -> m w = Some (a, w') -> Q a w'.
Proof. unfold wp. by intros HQ E; rewrite E in HQ. Qed.

Lemma wp_stays_iff {A} (R : relation W) (m : A_ A) : (forall w, wp m (fun _ => R w) w) -> stays R m.
Proof. intros Hm w a w' E. apply (wp_use m (fun _ => R w) w a w'); [apply Hm | done]. Qed.

End Logic.

Create HintDb stays.

(** A walk through the code; [tac] is for the changes of the state. What is called and has no
    lemma is opened. *)
Ltac stays_open t :=
  lazymatch t with
  | ?f _ => stays_open f
  | _ => unfold t
  end.

Ltac stays_with tac :=
  repeat first
    [ solve [eauto with stays]
    | lazymatch goal with
      | |- forall _, _ => intros ?
      | |- stays _ (mbind _ _) => apply stays_mbind; [apply _ | |]
      | |- stays _ (mret _) => apply stays_mret; apply _
      | |- stays _ (cx _) => apply stays_cx; apply _
      | |- stays _ (ds _) => apply stays_ds; apply _
      | |- stays _ (storage _) => apply stays_storage; apply _
      | |- stays _ (defined _) => apply stays_defined; apply _
      | |- stays _ (operation _) => apply stays_operation; apply _
      | |- stays _ (dog _) => apply stays_dog; apply _
      | |- stays _ (on_cx _) => apply stays_on_cx; tac
      | |- stays _ (on_ds _) => apply stays_on_ds; tac
      | |- stays _ (emit _) => apply stays_emit; tac
      | |- stays _ (ask _) => apply stays_ask; tac
      | |- stays _ (on_operation _ _) => apply stays_on_operation; tac
      | |- stays _ (set_dog _ _) => apply stays_set_dog; tac
      | |- stays _ (on_storage _) => apply stays_on_storage; tac
      | |- stays _ (on_meta _) => apply stays_on_meta; tac
      | |- stays _ (try_meta _) => apply stays_try_meta; tac
      | |- stays _ (try_sub _) => apply stays_try_sub; tac
      | |- stays _ (on_world _) => tac
      | |- stays _ (if ?b then _ else _) => destruct b
      | |- stays _ (match ?x with _ => _ end) => destruct x
      | |- stays _ (let _ := _ in _) => cbv zeta
      | |- stays _ ?t => stays_open t
      end ].

(** A walk with postconditions, through what needs no thought. *)
Ltac wp_step :=
  lazymatch goal with
  | |- wp (mbind _ _) _ _ => apply wp_bind
  | |- wp (mret _) _ _ => apply wp_ret
  | |- wp (cx _) _ _ => apply wp_cx
  | |- wp (ds _) _ _ => apply wp_ds
  | |- wp (storage _) _ _ => apply wp_storage
  | |- wp (on_cx _) _ _ => apply wp_on_cx
  | |- wp (on_ds _) _ _ => apply wp_on_ds
  | |- wp (ask _) _ _ => apply wp_ask; intros
  | |- wp (defined _) _ _ => apply wp_defined; intros
  end; cbv beta.
Ltac wp_steps := repeat wp_step.
