(* ===== verification/DataSyncFacts.v ===== *)
(** The sliding window of the data synchronization: how many packets are on their way, which
    of them are not acknowledged yet, and when the sending is over. *)

From S2P Require Import Prelude Memory CommTypes SerialBuffer ProtocolProto AppMessage SyncStorage CommitNotify QuerySync KvEntry.
From S2P Require Import SyncPacket DbAbility WaterMark MetaData TimeHelper SyncRead SubscribeManager SyncWorld SyncTask DataSync SyncLogic.
From Stdlib Require Import ZArith Lia.
From Stdlib Require Import Strings.Byte.
From stdpp Require Import base numbers list gmap.

Open Scope Z_scope.

Section Window.
Context `{Host} `{Heap} `{Zlib} `{ValueHash} `{DeviceHash} `{SyncEnv} {St Tok : Type} `{SyncStorage St}.
Context `{SyncGenericInterface St Tok}.
Abbreviation W := (World St Tok).

(** * What keeps the window *)

Definition window_of (w : W) : Z * Z * gmap Z ReSendInfo * Z * Z :=
  let d := w_ds w in (ds_mode d, ds_sessionId d, ds_reSendMap d, ds_windowSize d, ds_maxSequenceIdHasSent d).

Definition same_window (w w' : W) : Prop := window_of w' = window_of w /\ (w_tick w <= w_tick w')%nat.

#[local] Instance same_window_pre : PreOrder same_window.
Proof. split; [done |]. intros w1 w2 w3 [E1 L1] [E2 L2]. split; [congruence | lia]. Qed.

Ltac window_change :=
  lazymatch goal with
  | |- stays _ (on_world _) =>
    let E := fresh in intros ? ? ? E; unfold on_world in E; repeat case_match; try apply bind_Some in E as (? & _ & E); simplify_eq
  | _ => intros
  end; repeat split; first [done | cbn; lia].
Ltac window := stays_with window_change.

Lemma StartFeedDogForSync_window t flag : stays same_window (StartFeedDogForSync (St := St) (Tok := Tok) t flag).
Proof. window. Qed.
Lemma Send_window m len : stays same_window (Send (St := St) (Tok := Tok) m len).
Proof. window. Qed.
Lemma SetOperationStatus_window s : stays same_window (SetOperationStatus (St := St) (Tok := Tok) s).
Proof. window. Qed.
Lemma RemoveDeviceDataIfNeed_window : stays same_window (RemoveDeviceDataIfNeed (St := St) (Tok := Tok)).
Proof. window. Qed.
Lemma GetDataWithPerformanceRecord_window : stays same_window (GetDataWithPerformanceRecord (St := St) (Tok := Tok)).
Proof. window. Qed.
Lemma GetSyncDataTimeRange_window t l : stays same_window (GetSyncDataTimeRange (St := St) (Tok := Tok) t l).
Proof. window. Qed.
Lemma FillDataRequestPacket_window d c m : stays same_window (FillDataRequestPacket (St := St) (Tok := Tok) d c m).
Proof. window. Qed.
Lemma SendDataPacket_window t p : stays same_window (SendDataPacket (St := St) (Tok := Tok) t p).
Proof. window. Qed.
Lemma save_marks_window t r u : stays same_window (save_marks (St := St) (Tok := Tok) t r u).
Proof. window. Qed.
Lemma ReSendData_window : stays same_window (ReSendData (St := St) (Tok := Tok)).
Proof. window. Qed.
Lemma save_query_time_window t : stays same_window (save_query_time (St := St) (Tok := Tok) t).
Proof. window. Qed.
Lemma SendPullResponseDataPkt_window c d : stays same_window (SendPullResponseDataPkt (St := St) (Tok := Tok) c d).
Proof. window. Qed.

#[local] Hint Resolve StartFeedDogForSync_window Send_window SetOperationStatus_window RemoveDeviceDataIfNeed_window
  GetDataWithPerformanceRecord_window GetSyncDataTimeRange_window FillDataRequestPacket_window SendDataPacket_window
  save_marks_window ReSendData_window save_query_time_window SendPullResponseDataPkt_window : stays.

(** * One packet more *)

(** The packet takes a place of the window and waits for its acknowledgement. *)
Definition one_more (w w' : W) : Prop :=
  exists info, window_of w' =
    (ds_mode (w_ds w), ds_sessionId (w_ds w), <[u32 (ds_maxSequenceIdHasSent (w_ds w) + 1) := info]> (ds_reSendMap (w_ds w)),
     ds_windowSize (w_ds w) - 1, u32 (ds_maxSequenceIdHasSent (w_ds w) + 1))
  /\ (w_tick w < w_tick w')%nat.

Definition sends (w : W) (e : Z) (w' : W) : Prop := same_window w w' /\ e <> E_OK \/ one_more w w'.

Lemma UpdateSendInfo_more r w1 : wp (UpdateSendInfo r) (fun _ w' => forall w, same_window w w1 ->
  (w_tick w < w_tick w1)%nat -> one_more w w') w1.
Proof.
  unfold UpdateSendInfo. wp_steps. intros w [E L] Ht. unfold one_more, window_of in *. cbn in *.
  injection E as E1 E2 E3 E4 E5. rewrite <- E1, <- E2, <- E3, <- E4, <- E5.
  destruct (cx_token (w_cx w1)); eexists; (split; [reflexivity | done]).
Qed.

Lemma same_tick w w1 : same_window w w1 -> same_window w (set_tick w1 (S (w_tick w1))).
Proof. intros [E L]. split; [done | cbn; lia]. Qed.

(** As before, but something was asked. *)
Definition advanced (w w' : W) : Prop := same_window w w' /\ (w_tick w < w_tick w')%nat.

Lemma advanced_ask w w1 : same_window w w1 -> advanced w (set_tick w1 (S (w_tick w1))).
Proof. intros [E L]. repeat split; cbn; [done | lia | lia]. Qed.

Lemma advanced_then w w1 w2 : advanced w w1 -> same_window w1 w2 -> advanced w w2.
Proof. intros [? ?] H12. split; [by etrans | destruct H12; lia]. Qed.

Lemma same_then w w1 w2 : same_window w w1 -> same_window w1 w2 -> same_window w w2.
Proof. intros. by etrans. Qed.

Lemma more_then w w1 w2 : one_more w w1 -> same_window w1 w2 -> one_more w w2.
Proof. intros (info & E & L) [E2 L2]. exists info. split; [congruence | lia]. Qed.

(** A call on the way to the packet. *)
Tactic Notation "call" simple_intropattern(a) simple_intropattern(w) simple_intropattern(Hw) :=
  wp_steps; eapply (wp_stays same_window); [solve [eauto with stays | window] | intros a w Hw].

Lemma not_ok e : is_ok e = false -> e <> E_OK.
Proof. unfold is_ok. by intros ?%Z.eqb_neq. Qed.

(** The end of [RequestStart] and of [PullResponseStart]. *)
Lemma sent_then t r u e w0 w1 :
  advanced w0 w1 ->
  wp (_ ← (if is_ok e || (e =? - E_TIMEOUT) then UpdateSendInfo r else mret tt);
      if is_ok e then save_marks t r u else mret e) (sends w0) w1.
Proof.
  intros [Hs Ht]. wp_steps. destruct (is_ok e) eqn:Ee; cbn [orb].
  - eapply wp_mono; [apply UpdateSendInfo_more |]. intros [] w2 Hm. specialize (Hm w0 Hs Ht).
    eapply wp_stays; [apply save_marks_window |]. intros e' w3 Hw3. right. by eapply more_then.
  - destruct (e =? - E_TIMEOUT).
    + eapply wp_mono; [apply UpdateSendInfo_more |]. intros [] w2 Hm. wp_steps. right. by apply Hm.
    + wp_steps. left. split; [done | by apply not_ok].
Qed.


Lemma RequestStart_sends mode w : wp (RequestStart mode) (sends w) w.
Proof.
  unfold RequestStart. wp_steps. destruct (QuerySyncCheck _); cbn [negb].
  2: { wp_steps. left. split; [by split; [| cbn; lia] | done]. }
  call e1 w1 Hw1. destruct (is_ok e1) eqn:Ee1; cbn [negb].
  2: { wp_steps. left. split; [etrans; [apply Hw1 |]; split; [done | cbn; lia] | by apply not_ok]. }
  call [e2 data] w2 Hw2. destruct (IsGetDataSuccessfully _) eqn:Eg; cbn [negb].
  2: { wp_steps. left. split; [by etrans |]. intros E. unfold IsGetDataSuccessfully in Eg. rewrite E in Eg. done. }
  wp_steps. subst. destruct (env_alloc _); cbn [negb].
  2: { wp_steps. left. split; [| done]. by apply same_tick; etrans. }
  pose proof (advanced_ask w w2 (same_then _ _ _ Hw1 Hw2)) as Hw.
  call t w3 Hw3. call [r u] w4 Hw4. call [] w5 Hw5. call p w6 Hw6. call e7 w7 Hw7.
  apply sent_then. repeat (eapply advanced_then; [| eassumption]). done.
Qed.

Lemma PullRequestStart_sends w : wp PullRequestStart (sends w) w.
Proof.
  unfold PullRequestStart. wp_steps. destruct (QuerySyncCheck _); cbn [negb].
  2: { wp_steps. left. split; [by split; [| cbn; lia] | done]. }
  call e1 w1 Hw1. destruct (is_ok e1) eqn:Ee1; cbn [negb].
  2: { wp_steps. left. split; [etrans; [apply Hw1 |]; split; [done | cbn; lia] | by apply not_ok]. }
  wp_steps. subst. destruct (env_alloc _); cbn [negb].
  2: { wp_steps. left. split; [by apply same_tick | done]. }
  pose proof (advanced_ask w w1 Hw1) as Hw.
  call t w3 Hw3. call q w4 Hw4. call p w5 Hw5. call l w6 Hw6. call d w7 Hw7. call v w8 Hw8. call pk w9 Hw9.
  wp_steps. eapply wp_mono; [apply UpdateSendInfo_more |]. intros [] w10 Hm.
  call e11 w11 Hw11. right. eapply more_then; [| done]. apply Hm; repeat (eapply advanced_then; [| eassumption]); done.
Qed.

Lemma SendPullResponseDataPkt_asks c d w : wp (SendPullResponseDataPkt c d) (fun _ => advanced w) w.
Proof.
  unfold SendPullResponseDataPkt. wp_steps. subst.
  eapply (wp_stays same_window); [window |]. intros e w1 Hw1. eapply advanced_then; [apply advanced_ask; reflexivity | done].
Qed.

Lemma PullResponseStart_sends w : wp PullResponseStart (sends w) w.
Proof.
  unfold PullResponseStart. call [e1 data] w1 Hw1. destruct (IsGetDataSuccessfully e1) eqn:Eg; cbn [negb].
  2: { call ? w2 Hw2. wp_steps. left. split; [by etrans |]. by intros ->. }
  call t w2 Hw2. call [r u] w3 Hw3. call [] w4 Hw4. wp_steps.
  eapply wp_mono; [apply SendPullResponseDataPkt_asks |]. cbv beta. intros e5 w5 [Hw5 Ht]. apply sent_then.
  assert (Hw : same_window w w4) by (by repeat (eapply same_then; [| eassumption])). split; [by etrans | destruct Hw; lia].
Qed.

(** * Rounds *)

Lemma IncSequenceId_window : stays same_window (on_cx (St := St) (Tok := Tok) IncSequenceId).
Proof. window. Qed.

Lemma sends_after w w1 e w' : same_window w w1 -> sends w1 e w' -> sends w e w'.
Proof.
  intros Hw [[Hs He] | (info & E & L)].
  - left. split; [by etrans | done].
  - right. exists info. destruct Hw as [Hw Ht]. unfold window_of in Hw. injection Hw as Hw1 Hw2 Hw3 Hw4 Hw5. rewrite Hw1, Hw2, Hw3, Hw4, Hw5 in E. split; [done | lia].
Qed.

Lemma sends_then w e w1 w' : sends w e w1 -> same_window w1 w' -> forall e', (e <> E_OK -> e' <> E_OK) -> sends w e' w'.
Proof.
  intros [[Hs He] | Hm] Hw e' He'; [left; split; [by etrans | auto] | right; by eapply more_then].
Qed.

(** A round ends the loop, or sends one packet more. *)
Lemma inner_round_sends w : wp inner_round (fun r w' =>
  is_Some r /\ same_window w w' \/ 0 < ds_windowSize (w_ds w) /\ one_more w w') w.
Proof.
  unfold inner_round. wp_steps. destruct (ds_windowSize _ <=? 0) eqn:Ew; cbn [orb].
  { wp_steps. left. split; [by eexists | reflexivity]. }
  apply Z.leb_gt in Ew. cbn in Ew. destruct (ds_isAllDataHasSent _); [wp_steps; left; split; [by eexists | reflexivity] |].
  destruct (_ =? PULL); [wp_steps; left; split; [by eexists | reflexivity] |].
  wp_steps. set (w1 := set_cx w _). assert (Hw1 : same_window w w1) by (repeat split; cbn; lia).
  apply wp_mono with (Q := sends w).
  { eapply wp_mono; [| intros ? ?; apply sends_after, Hw1].
    destruct ((_ =? PUSH) || _); [| apply PullResponseStart_sends].
    unfold PushStart. call t w2 Hw2. eapply wp_mono; [apply RequestStart_sends |]. intros ? ?. by apply sends_after. }
  intros e w2 Hs. destruct (_ && (e =? - E_EKEYREVOKED)) eqn:Er.
  { wp_steps. destruct Hs as [[Hs _] | Hm].
    - left. split; [by eexists |]. etrans; [apply Hs |]. split; [done | cbn; lia].
    - right. split; [done |]. eapply more_then; [apply Hm |]. split; [done | cbn; lia]. }
  wp_steps. destruct Hs as [[Hs He] | Hm].
  - destruct (IsSkipTimeoutError _ e); [wp_steps; left; split; [by eexists | done] |].
    destruct (is_ok e) eqn:Ee; cbn [negb]; [by apply Z.eqb_eq in Ee | wp_steps; left; split; [by eexists | done]].
  - destruct (IsSkipTimeoutError _ e); [wp_steps; by right |]. destruct (is_ok e); cbn [negb]; wp_steps; by right.
Qed.

(** * The invariant *)

(** The packets of the session so far, numbered from 1: [acked] are those acknowledged. The
    numbers are 32 bits wide; the second part is about fewer answers from outside than that. *)
Record window_ok (w : W) (acked : gset Z) : Prop := {
  wo_window : 0 <= ds_windowSize (w_ds w);
  wo_total : ds_windowSize (w_ds w) + Z.of_nat (base.size (ds_reSendMap (w_ds w))) <= HIGH_VERSION_WINDOW_SIZE;
  wo_max : Z.of_nat (w_tick w) < 2 ^ 32 -> 0 <= ds_maxSequenceIdHasSent (w_ds w) <= Z.of_nat (w_tick w);
  wo_sent : Z.of_nat (w_tick w) < 2 ^ 32 -> forall k,
    k ∈ acked \/ is_Some (ds_reSendMap (w_ds w) !! k) <-> 1 <= k <= ds_maxSequenceIdHasSent (w_ds w);
  wo_once : Z.of_nat (w_tick w) < 2 ^ 32 -> forall k, k ∈ acked -> ds_reSendMap (w_ds w) !! k = None
}.

Lemma window_ok_same w w' acked : window_ok w acked -> same_window w w' -> window_ok w' acked.
Proof.
  intros [Hw Ht Hm Hs Ho] [E L]. unfold window_of in E. injection E as E1 E2 E3 E4 E5.
  split; rewrite ?E3, ?E4, ?E5; [done | done | | |]; intros Hl; [specialize (Hm ltac:(lia)); lia | apply Hs; lia | apply Ho; lia].
Qed.

Lemma window_ok_more w w' acked : window_ok w acked -> 0 < ds_windowSize (w_ds w) -> one_more w w' -> window_ok w' acked.
Proof.
  intros [Hw Ht Hm Hs Ho] Hpos (info & E & L). unfold window_of in E. injection E as E1 E2 E3 E4 E5. split; rewrite ?E3, ?E4, ?E5.
  - lia.
  - rewrite map_size_insert. destruct (ds_reSendMap (w_ds w) !! _); unfold id; lia.
  - intros Hl. specialize (Hm ltac:(lia)). rewrite (wrap_small 32) by lia. lia.
  - intros Hl k. specialize (Hm ltac:(lia)). rewrite (wrap_small 32) by lia. specialize (Hs ltac:(lia) k).
    destruct (decide (k = ds_maxSequenceIdHasSent (w_ds w) + 1)) as [-> | Hk].
    + rewrite lookup_insert_eq. split; [lia | intros _; right; by eexists].
    + rewrite lookup_insert_ne by done. rewrite Hs. lia.
  - intros Hl k Hk. specialize (Hm ltac:(lia)). rewrite (wrap_small 32) by lia. specialize (Hs ltac:(lia) k).
    rewrite lookup_insert_ne; [apply Ho; [lia | done] | intros <-]. assert (1 <= ds_maxSequenceIdHasSent (w_ds w) + 1 <= ds_maxSequenceIdHasSent (w_ds w)); [apply Hs; by left | lia].
Qed.

(** The session and its mode do not change. *)
Definition session_of (w : W) : Z := ds_sessionId (w_ds w).

Lemma more_session w w' : one_more w w' -> session_of w' = session_of w.
Proof. intros (info & E & _). unfold window_of, session_of in *. by injection E. Qed.
Lemma same_session w w' : same_window w w' -> session_of w' = session_of w.
Proof. intros [E _]. unfold window_of, session_of in *. by injection E. Qed.

Lemma more_window w w' : one_more w w' -> ds_windowSize (w_ds w') = ds_windowSize (w_ds w) - 1.
Proof. intros (info & E & _). unfold window_of in *. by injection E. Qed.

(** The loop ends by itself. *)
Lemma inner_loop_ends fuel : forall w acked, window_ok w acked -> ds_windowSize (w_ds w) < Z.of_nat fuel ->
  wp (inner_loop fuel) (fun r w' => is_Some r /\ window_ok w' acked /\ session_of w' = session_of w) w.
Proof.
  induction fuel as [|fuel IH]; intros w acked Hok Hf; [destruct Hok; lia |]. cbn [inner_loop]. wp_steps.
  eapply wp_mono; [apply inner_round_sends |]. cbv beta. intros r w1 [[[e ->] Hs] | [Hpos Hm]].
  - wp_steps. split_and!; [by eexists | by eapply window_ok_same | by apply same_session].
  - pose proof (window_ok_more _ _ _ Hok Hpos Hm) as Hok1. destruct r as [e|].
    { wp_steps. split_and!; [by eexists | done | by apply more_session]. }
    eapply wp_mono; [apply (IH w1 acked Hok1); rewrite (more_window _ _ Hm); lia |]. cbv beta.
    intros r w2 (? & ? & ->). rewrite (more_session _ _ Hm). done.
Qed.

Lemma InnerSyncStart_ok w acked : window_ok w acked ->
  wp InnerSyncStart (fun _ w' => window_ok w' acked /\ session_of w' = session_of w) w.
Proof.
  intros Hok. unfold InnerSyncStart. wp_steps.
  eapply wp_mono; [apply (inner_loop_ends _ w acked Hok); destruct Hok; lia |]. cbv beta.
  intros r w1 (_ & ? & ?). by wp_steps.
Qed.

Lemma ResetSyncStatus_ok mode w : wp (ResetSyncStatus mode) (fun _ w' => window_ok w' ∅ /\ 0 < ds_windowSize (w_ds w')) w.
Proof.
  unfold ResetSyncStatus. wp_steps. cbn. split; [split; cbn; rewrite ?map_size_empty |]; unfold HIGH_VERSION_WINDOW_SIZE, LOW_VERSION_WINDOW_SIZE;
    try (destruct (_ <? _); lia); try lia.
  - intros _ k. rewrite lookup_empty. split; [intros [?%elem_of_empty | [? ?]]; done | lia].
  - intros _ k. by rewrite lookup_empty.
Qed.

Lemma SyncStart_ok mode w acked : window_ok w acked ->
  wp (SyncStart mode) (fun _ w' => window_ok w' (if session_of w =? 0 then ∅ else acked)) w.
Proof.
  intros Hok. unfold SyncStart. wp_steps. unfold session_of. destruct (ds_sessionId (w_ds w) =? 0); cbn [negb].
  2: { eapply wp_stays; [apply ReSendData_window |]. intros e w1 Hw1. by eapply window_ok_same. }
  wp_steps. eapply wp_mono; [apply ResetSyncStatus_ok |]. cbv beta. intros [] w1 [Hok1 Hpos]. wp_steps.
  apply wp_mono with (Q := sends w1).
  { destruct (_ =? PUSH). { unfold PushStart. call t w2 Hw2. eapply wp_mono; [apply RequestStart_sends |]. intros ? ?. by apply sends_after. }
    destruct (_ =? PUSH_AND_PULL). { unfold PushPullStart. wp_steps. apply RequestStart_sends. }
    destruct (_ =? PULL); [apply PullRequestStart_sends | apply PullResponseStart_sends]. }
  intros e w2 Hs. assert (Hok2 : window_ok w2 ∅).
  { destruct Hs as [[Hs _] | Hm]; [by eapply window_ok_same | by eapply window_ok_more]. }
  wp_steps. destruct (IsSkipTimeoutError _ _); [by wp_steps |]. destruct (is_ok e); cbn [negb]; [| by wp_steps].
  destruct (_ && _); [by wp_steps |]. eapply wp_mono; [by apply InnerSyncStart_ok |]. by intros ? ? [? _].
Qed.

(** The acknowledgement counts if it is for a packet of the session that is on its way. *)
Definition counts (w : W) (message : SyncMessage) : bool :=
  (match GetDataAck message with Some (Some _) => true | _ => false end)
  && (sessionId_ message =? session_of w) && bool_decide (is_Some (ds_reSendMap (w_ds w) !! sequenceId_ message)).

Definition acked_next (w : W) (message : SyncMessage) (acked : gset Z) : gset Z :=
  if counts w message then acked ∪ {[sequenceId_ message]} else acked.

Lemma window_ok_ack w acked k info : window_ok w acked -> ds_reSendMap (w_ds w) !! k = Some info ->
  window_ok (set_ds w (set_windowSize (set_reSendMap (w_ds w) (delete k (ds_reSendMap (w_ds w)))) (ds_windowSize (w_ds w) + 1)))
    (acked ∪ {[k]}).
Proof.
  intros [Hw Ht Hm Hs Ho] Ek. split; cbn.
  - lia.
  - rewrite map_size_delete_Some by (by eexists).
    assert (base.size (ds_reSendMap (w_ds w)) <> 0%nat) by (eapply map_size_ne_0_lookup_2; by eexists). lia.
  - done.
  - intros Hl k'. rewrite <- (Hs Hl k'), elem_of_union, elem_of_singleton. destruct (decide (k' = k)) as [-> | Hne].
    + rewrite lookup_delete_eq. split; [intros _; right; by eexists | intros _; left; by right].
    + rewrite lookup_delete_ne by done. tauto.
  - intros Hl k' [Hk | ->%elem_of_singleton]%elem_of_union; [| apply lookup_delete_eq].
    destruct (decide (k' = k)) as [-> | Hne]; [apply lookup_delete_eq | rewrite lookup_delete_ne by done; by apply Ho].
Qed.

Lemma window_ok_clear (w : W) : window_ok (set_ds w (InnerClearSyncStatus (w_ds w))) ∅.
Proof.
  split; cbn; rewrite ?map_size_empty; unfold HIGH_VERSION_WINDOW_SIZE; try lia.
  - intros _ k. rewrite lookup_empty. split; [intros [?%elem_of_empty | [? ?]]; done | lia].
  - intros _ k. by rewrite lookup_empty.
Qed.

(** No session. *)
Definition window_closed (w : W) : Prop := ds_sessionId (w_ds w) = 0 /\ ds_maxSequenceIdHasSent (w_ds w) = 0.

(** All packets of the session have been acknowledged. *)
Definition all_acked (w : W) (acked : gset Z) : Prop :=
  Z.of_nat (w_tick w) < 2 ^ 32 -> forall k, 1 <= k <= ds_maxSequenceIdHasSent (w_ds w) -> k ∈ acked.

Lemma TryContinueSync_ok message w acked : window_ok w acked ->
  wp (TryContinueSync (Some message)) (fun _ w' =>
    window_ok w' (acked_next w message acked) /\ session_of w' = session_of w
    \/ window_ok w' ∅ /\ window_closed w' /\ all_acked w (acked_next w message acked)) w.
Proof.
  intros Hok. unfold TryContinueSync, acked_next, counts. wp_steps. rewrite H7. destruct a as [packet|]; [| wp_steps; by left].
  wp_steps. change (ds_sessionId (id (w_ds w))) with (session_of w). cbn [andb id].
  destruct (sessionId_ message =? session_of w); cbn [negb andb]; [| wp_steps; by left].
  destruct (ds_reSendMap (w_ds w) !! sequenceId_ message) as [info|] eqn:Ei.
  2: { rewrite bool_decide_eq_false_2 by (by intros [? ?]). wp_steps. by left. }
  rewrite bool_decide_eq_true_2 by (by eexists). wp_steps.
  pose proof (window_ok_ack _ _ _ _ Hok Ei) as Hok1. set (w1 := set_ds w _) in *.
  assert (Hs1 : session_of w1 = session_of w) by done.
  assert (Hm1 : ds_maxSequenceIdHasSent (w_ds w1) = ds_maxSequenceIdHasSent (w_ds w) /\ w_tick w1 = w_tick w) by done.
  clearbody w1. call e w2 Hw2. pose proof (window_ok_same _ _ _ Hok1 Hw2) as Hok2. pose proof (same_session _ _ Hw2) as Hs2.
  destruct (is_ok e); cbn [negb]; [| wp_steps; left; split; [done | unfold session_of in *; congruence]]. wp_steps.
  destruct (ds_isAllDataHasSent _); cbn [negb].
  2: { eapply wp_mono; [by apply InnerSyncStart_ok |]. cbv beta. intros ? w3 [? Hs3]. left. split; [done | unfold session_of in *; congruence]. }
  destruct (bool_decide _) eqn:Ee; [| wp_steps; left; split; [done | unfold session_of in *; congruence]].
  apply bool_decide_eq_true in Ee. cbn in Ee. call [] w3 Hw3. unfold ClearSyncStatus. wp_steps. right.
  split_and!; [apply window_ok_clear | done |]. intros Hl k Hk. destruct Hw2 as [Ew2 Ht2]. unfold window_of in Ew2.
  injection Ew2 as _ _ E3 _ E5. destruct Hok1 as [_ _ _ Hs Ho]. destruct Hm1 as [Em1 Et1].
  destruct (proj2 (Hs ltac:(lia) k) ltac:(lia)) as [? | Hk2]; [done |]. rewrite <- E3, Ee, lookup_empty in Hk2. by destruct Hk2.
Qed.

(** * Runs *)

(** What happens to the window of a device: a start (or a time-out, which sends again), a data
    acknowledgement, an abort, or anything else, which keeps it. *)
Inductive window_step : W * gset Z -> W * gset Z -> Prop :=
  | step_start w acked mode e w' : SyncStart mode w = Some (e, w') ->
    window_step (w, acked) (w', if session_of w =? 0 then ∅ else acked)
  | step_ack w acked message e w' : TryContinueSync (Some message) w = Some (e, w') ->
    window_step (w, acked)
      (w', if ds_maxSequenceIdHasSent (w_ds w') =? 0 then ∅ else acked_next w message acked)
  | step_clear w acked w' : ClearSyncStatus w = Some (tt, w') -> window_step (w, acked) (w', ∅)
  | step_other w acked w' : same_window w w' -> window_step (w, acked) (w', acked).

(** The window of a [SingleVerDataSync] that was just made. *)
Definition window_new (w : W) : Prop := window_of w = (0, 0, ∅, 0, 0).

Lemma window_new_ok w : window_new w -> window_ok w ∅.
Proof.
  intros E. unfold window_new, window_of in E. injection E as _ _ E3 E4 E5.
  split; rewrite ?E3, ?E4, ?E5, ?map_size_empty; unfold HIGH_VERSION_WINDOW_SIZE; try lia.
  - intros _ k. rewrite lookup_empty. split; [intros [?%elem_of_empty | [? ?]]; done | lia].
  - intros _ k. by rewrite lookup_empty.
Qed.

(** Nothing sent, nothing acknowledged. *)
Lemma window_ok_none w acked : window_ok w acked -> ds_maxSequenceIdHasSent (w_ds w) = 0 -> window_ok w ∅.
Proof.
  intros [Hw Ht Hm Hs Ho] E. split; try done. intros Hl k. specialize (Hs Hl k). split; [| lia].
  intros [?%elem_of_empty | Hk]; [done |]. apply Hs. by right.
Qed.

Lemma window_step_ok s s' : window_step s s' -> window_ok s.1 s.2 -> window_ok s'.1 s'.2.
Proof.
  destruct 1 as [w acked mode e w' E | w acked message e w' E | w acked w' E | w acked w' Hs]; cbn; intros Hok.
  - exact (wp_use _ _ w e w' (SyncStart_ok mode w acked Hok) E).
  - pose proof (wp_use _ _ w e w' (TryContinueSync_ok message w acked Hok) E) as Hr. cbv beta in Hr.
    destruct (_ =? 0) eqn:Em; destruct Hr as [[Hok' _] | (Hok' & [_ Hc] & _)]; try done.
    + apply Z.eqb_eq in Em. by eapply window_ok_none.
    + by apply Z.eqb_neq in Em.
  - unfold ClearSyncStatus, on_ds in E. injection E as <-. apply window_ok_clear.
  - by eapply window_ok_same.
Qed.

(** C37: Whatever the application, the other device, the storage and the network do, the data
    synchronization of a device has at most three packets on their way, and its loop of sending
    ends by itself. As long as the 32 bit numbers last, every packet of a session is either
    acknowledged or kept to be sent again, never both; and an acknowledgement ends the session
    only when all packets of it have been acknowledged. *)
Theorem window_sound w0 w acked : window_new w0 -> rtc window_step (w0, ∅) (w, acked) ->
  (0 <= ds_windowSize (w_ds w)
   /\ ds_windowSize (w_ds w) + Z.of_nat (base.size (ds_reSendMap (w_ds w))) <= HIGH_VERSION_WINDOW_SIZE)
  /\ (forall r w', inner_loop (S (Z.to_nat (ds_windowSize (w_ds w)))) w = Some (r, w') -> is_Some r)
  /\ (Z.of_nat (w_tick w) < 2 ^ 32 ->
      forall k, 1 <= k <= ds_maxSequenceIdHasSent (w_ds w) ->
        (k ∈ acked /\ ds_reSendMap (w_ds w) !! k = None) \/ (k ∉ acked /\ is_Some (ds_reSendMap (w_ds w) !! k)))
  /\ (forall message e w', TryContinueSync (Some message) w = Some (e, w') ->
      session_of w' = session_of w \/ window_closed w' /\ all_acked w (acked_next w message acked)).
Proof.
  intros Hnew Hrun. assert (Hok : window_ok w acked).
  { apply window_new_ok in Hnew. revert Hnew.
    change (window_ok (w0, ∅ : gset Z).1 (w0, ∅ : gset Z).2 -> window_ok (w, acked).1 (w, acked).2).
    induction Hrun as [|s1 s2 s3 Hs _ IH]; [done |]. intros ?. apply IH. by eapply window_step_ok. }
  split_and!; [apply Hok | apply Hok | | |].
  - intros r w' E. refine (proj1 (wp_use _ _ w r w' (inner_loop_ends _ w acked Hok _) E)). destruct Hok; lia.
  - intros Hl k Hk. destruct Hok as [_ _ _ Hs Ho]. destruct (proj2 (Hs Hl k) Hk) as [Hk' | Hk'].
    + left. split; [done | by apply Ho].
    + right. split; [| done]. intros Hk2. rewrite (Ho Hl k Hk2) in Hk'. by destruct Hk'.
  - intros message e w' E. pose proof (wp_use _ _ w e w' (TryContinueSync_ok message w acked Hok) E) as Hr. cbv beta in Hr.
    destruct Hr as [[_ ?] | (_ & ? & ?)]; [by left | by right].
Qed.

End Window.
