(* ===== verification/SyncViews.v ===== *)
(** What the synchronization of a device sees of the meta data (the water marks of the device,
    whatever is cached), and the laws of a storage that gives its data page by page. *)

From S2P Require Import Prelude Memory Parcel CommTypes SerialBuffer ProtocolProto AppMessage SyncStorage CommitNotify QuerySync KvEntry.
From S2P Require Import SyncPacket DbAbility WaterMark MetaData TimeHelper SyncRead SubscribeManager SyncWorld SyncTask DataSync SyncLogic.
From Stdlib Require Import ZArith Lia.
From Stdlib Require Import Strings.Byte.
From stdpp Require Import base numbers list gmap.

Open Scope Z_scope.

(** * The meta data of a device *)

Section View.
Context `{Host} `{DeviceHash} {St : Type} `{SyncStorage St}.
Implicit Types (m : Metadata St) (d dev : DeviceID).

Definition hash_id_of m d : DeviceID :=
  default (DEVICEID_PREFIX_KEY ++ TransferHashString d) (deviceIdToHashDeviceIdMap_ m !! d).

Definition view m d : MetaDataValue := default emptyMetaDataValue (metadataMap_ m !! hash_id_of m d).

(** A read: the views stay, and so do the storage and the connection to it; the clock goes on. *)
Definition read_only m m' : Prop :=
  (forall d, view m' d = view m d) /\ md_store m' = md_store m /\ naturalStoragePtr_ m' = naturalStoragePtr_ m
  /\ lastLocalTime_ m <= lastLocalTime_ m'.

#[export] Instance read_only_pre : PreOrder read_only.
Proof. split; [done |]. intros m1 m2 m3 (V1 & S1 & N1 & L1) (V2 & S2 & N2 & L2). split_and!; [intros d; by rewrite V2 | congruence | congruence | lia]. Qed.

Lemma GetHashDeviceId_view m d h m' : GetHashDeviceId m d true = (h, m') ->
  h = hash_id_of m d /\ read_only m m' /\ metadataMap_ m' = metadataMap_ m /\ deviceIdToHashDeviceIdMap_ m' !! d = Some h.
Proof.
  unfold GetHashDeviceId. cbn. destruct (deviceIdToHashDeviceIdMap_ m !! d) as [h'|] eqn:E; intros [= <- <-].
  - unfold hash_id_of. rewrite E. done.
  - split_and!; [by unfold hash_id_of; rewrite E | | done | cbn; by rewrite lookup_insert_eq]. split_and!; [| done | done | done].
    intros d'. unfold view, hash_id_of. cbn. destruct (decide (d = d')) as [<- |]; [| by rewrite lookup_insert_ne].
    by rewrite lookup_insert_eq, E.
Qed.

Lemma GetMetaDataValue_view m d v m' : GetMetaDataValue m d true = (v, m') ->
  v = view m d /\ read_only m m' /\ deviceIdToHashDeviceIdMap_ m' !! d = Some (hash_id_of m d).
Proof.
  unfold GetMetaDataValue. destruct (GetHashDeviceId m d true) as [h m1] eqn:Eh.
  apply GetHashDeviceId_view in Eh as (-> & Hr & Em & Ed). unfold GetMetadataFromMap. rewrite Em.
  destruct (metadataMap_ m !! hash_id_of m d) as [v'|] eqn:Ev; intros [= <- <-]; unfold view at 1; rewrite Ev; [done |].
  split_and!; [done | | done]. etrans; [apply Hr |]. split_and!; [| done | done | done].
  intros d'. unfold view, PutMetadataToMap. cbn. change (hash_id_of _ d') with (hash_id_of m1 d').
  destruct (decide (hash_id_of m1 d' = hash_id_of m d)) as [-> |]; [| by rewrite lookup_insert_ne].
  by rewrite lookup_insert_eq, Em, Ev.
Qed.

Lemma GetLocalWaterMark_view m d x m' : GetLocalWaterMark m d = (x, m') -> x = localWaterMark (view m d) /\ read_only m m'.
Proof.
  unfold GetLocalWaterMark. destruct (GetMetaDataValue m d true) as [v m1] eqn:E. intros [= <- <-].
  by apply GetMetaDataValue_view in E as (-> & ? & _).
Qed.
Lemma GetPeerWaterMark_view m d x m' : GetPeerWaterMark m d = (x, m') -> x = peerWaterMark (view m d) /\ read_only m m'.
Proof.
  unfold GetPeerWaterMark. destruct (GetMetaDataValue m d true) as [v m1] eqn:E. intros [= <- <-].
  by apply GetMetaDataValue_view in E as (-> & ? & _).
Qed.
Lemma GetTimeOffset_view m d x m' : GetTimeOffset m d = (x, m') -> read_only m m'.
Proof.
  unfold GetTimeOffset. destruct (GetMetaDataValue m d true) as [v m1] eqn:E. intros [= <- <-].
  by apply GetMetaDataValue_view in E as (-> & ? & _).
Qed.
Lemma GetRemoveDataMark_view m d x m' : GetRemoveDataMark m d = (x, m') ->
  x = clearDeviceDataMark (view m d) /\ read_only m m'.
Proof.
  unfold GetRemoveDataMark. destruct (GetHashDeviceId m d true) as [h m1] eqn:Eh.
  apply GetHashDeviceId_view in Eh as (-> & Hr & Em & _). rewrite Em. unfold view.
  by destruct (metadataMap_ m !! hash_id_of m d); intros [= <- <-].
Qed.

Lemma read_delete_mark_view m d r m' : read_delete_mark m d = Some (r, m') -> read_only m m'.
Proof. unfold read_delete_mark. by intros ([r' h] & _ & [= <- <-])%bind_Some. Qed.
Lemma GetSendDeleteSyncWaterMark_view m d x b r m' : GetSendDeleteSyncWaterMark m d x b = Some (r, m') -> read_only m m'.
Proof.
  unfold GetSendDeleteSyncWaterMark. intros ([[e q] m1] & Hr%read_delete_mark_view & E)%bind_Some.
  destruct (e =? E_OK); [| by injection E as <- <-]. cbn [negb] in E. destruct b; [| by injection E as <- <-].
  destruct (GetLocalWaterMark m1 d) as [l m2] eqn:El. apply GetLocalWaterMark_view in El as [_ Hl].
  injection E as <- <-. by etrans.
Qed.

(** [SetLastLocalTime] is not about devices. *)
Lemma GetTime_view m c now t m' c' : GetTime m c now = (t, (m', c')) -> read_only m m'.
Proof.
  unfold GetTime. destruct (GetSysCurrentTime c now) as [s c1]. unfold SetLastLocalTime.
  repeat case_match; intros [= <- <- <-]; split_and!; cbn; (done || (rewrite ?Z.ltb_lt in *; lia)).
Qed.

(** A save replaces the value of the device, or fails. *)
Lemma SaveMetaDataValue_view m d v e m' : deviceIdToHashDeviceIdMap_ m !! d = Some (hash_id_of m d) ->
  SaveMetaDataValue m d v = (e, m') ->
  naturalStoragePtr_ m' = naturalStoragePtr_ m
  /\ (md_store m' = md_store m \/ exists k x e', PutMetaData (md_store m) k x = (e', md_store m'))
  /\ (if e =? E_OK then view m' d = v else forall d', view m' d' = view m d').
Proof.
  intros Ed. unfold SaveMetaDataValue. unfold GetHashDeviceId. cbn [negb]. rewrite Ed. unfold SetMetadataToDb.
  destruct (naturalStoragePtr_ m) eqn:En; cbn [negb].
  2: { intros [= <- <-]. split_and!; [by rewrite En | by left | done]. }
  destruct (PutMetaData (md_store m) (hash_id_of m d) (SerializeMetaData v)) as [e1 st] eqn:Ep.
  destruct (e1 =? E_OK) eqn:Ee1; cbn [negb]; intros [= <- <-].
  - split_and!; [done | right; by do 3 eexists |]. cbn. unfold view, hash_id_of, PutMetadataToMap. cbn.
    rewrite Ed. cbn [default]. by rewrite lookup_insert_eq.
  - rewrite Ee1. split_and!; [done | right; by do 3 eexists | done].
Qed.

End View.

(** * A storage that gives its data page by page *)

(** What a device that sends relies on, in a storage that is [store_ok]. [local_write] are the
    current writes of this device, as entries; a later write has a time stamp of at least
    [next_stamp]. [tok_begin] is where a token goes on, [plain_token] that it is one of a full
    synchronization; [batch] is what holds for all entries that are read at once. *)
Class PagedStorage (St Tok : Type) := {
  store_ok : St -> Prop;
  local_write : St -> DataItem -> Prop;
  next_stamp : St -> Z;
  tok_begin : Tok -> Z;
  plain_token : Tok -> Prop;
  batch : list SendDataItem -> Prop
}.

Section Paged.
Context `{PagedStorage St Tok}.
Implicit Types (st : St) (out : list SendDataItem).

(** [st'] is [st] later. *)
Definition grows st st' : Prop :=
  (store_ok st -> store_ok st')
  /\ (forall e, local_write st' e -> local_write st e \/ next_stamp st <= timestamp e)
  /\ next_stamp st <= next_stamp st'.

#[export] Instance grows_pre : PreOrder grows.
Proof.
  split; [by intros st; split_and!; auto with lia |]. intros st1 st2 st3 (O1 & W1 & N1) (O2 & W2 & N2). split_and!; [auto | | lia].
  intros e [? | ?]%W2; [auto | right; lia].
Qed.

(** The entries are from [lm] on and have every write from there up to their latest time
    stamp; they may carry the name of a device as their origin. *)
Definition covers st (lm : Z) out : Prop :=
  (forall x, x ∈ out -> exists e, x = Some e /\ lm <= timestamp e < next_stamp st)
  /\ (forall e e', local_write st e -> lm <= timestamp e -> Some e' ∈ out -> timestamp e <= timestamp e' ->
        exists o, Some (with_origDev e o) ∈ out)
  /\ batch out.

(** A page from [b] on: the status, the entries and the token for the rest. A failed read has
    no entries, and no token when the key of the data base has been revoked; its
    status is never that of a time-out or of the end of a synchronization. *)
Definition page_gives st (b c : Z) out (tok : option Tok) st' : Prop :=
  grows st st' /\ covers st b out
  /\ (IsGetDataSuccessfully c = false -> out = [])
  /\ (c = - E_EKEYREVOKED -> tok = None) /\ c <> - E_TIMEOUT /\ c <> - E_FINISHED.

(** The token goes on after the last entry. *)
Definition token_after (c : Z) out (tok : option Tok) : Prop :=
  IsGetDataSuccessfully c = true -> forall t, tok = Some t ->
    plain_token t /\ (exists e, Some e ∈ out /\ tok_begin t = timestamp e + 1)
    /\ (forall e, Some e ∈ out -> timestamp e < tok_begin t).

End Paged.

(** Nothing intercepts the data, and writes of meta data succeed. *)
Class PagedLaws (St Tok : Type) `{PagedStorage St Tok, SyncStorage St, SyncGenericInterface St Tok} : Prop := {
  pl_next : forall (st : St), store_ok st -> 0 <= next_stamp st < INT64_MAX;
  pl_stamp : forall (st : St) e, store_ok st -> local_write st e -> 0 <= timestamp e;
  pl_read : forall (st : St) b e info c out tok st', store_ok st -> 0 <= b <= INT64_MAX -> 0 <= e <= INT64_MAX ->
    1 <= packetSize info -> sg_GetSyncData st b e info = (c, out, tok, st') ->
    page_gives st b c out tok st' /\ (e = MAX_TIMESTAMP -> token_after c out tok);
  pl_read_next : forall (st : St) t info c out tok st', store_ok st -> plain_token t -> 1 <= packetSize info ->
    sg_GetSyncDataNext st t info = (c, out, tok, st') ->
    page_gives st (tok_begin t) c out tok st' /\ token_after c out tok;
  pl_release : forall (st : St) (t : Tok), grows st (sg_ReleaseContinueToken st t);
  pl_intercept : forall (st : St) items d d' c out st', sg_InterceptData (Tok := Tok) st items d d' = (c, out, st') ->
    c = E_OK /\ out = items /\ grows st st';
  pl_meta : forall (st : St) k v e st', PutMetaData st k v = (e, st') -> e = E_OK /\ grows st st';
  pl_batch_nil : batch [];
  pl_batch_label : forall h out, batch out -> batch (TransDbDataItemToSendDataItem h out)
}.

Section PagedFacts.
Context `{PagedLaws St Tok}.
Implicit Types (st : St) (out : list SendDataItem).

Lemma covers_grows st st' lm out : grows st st' -> covers st lm out -> covers st' lm out.
Proof.
  intros (_ & Hw & Hn) (Hx & Hc & Hb). split_and!; [| | done].
  - intros x (e & -> & ?)%Hx. exists e. split; [done | lia].
  - intros e e' [He | He]%Hw Hl Hin Hle; [eauto |]. apply Hx in Hin as (e2 & [= <-] & ?). lia.
Qed.

Lemma covers_nil st lm : covers st lm [].
Proof. split_and!; [intros x Hx | intros e e' _ _ Hx | apply pl_batch_nil]; by apply elem_of_nil in Hx. Qed.

(** The origin is filled in before the entries are sent. *)
Lemma covers_label st lm h out : covers st lm out -> covers st lm (TransDbDataItemToSendDataItem h out).
Proof.
  intros (Hx & Hc & Hb). split_and!; [| | by apply pl_batch_label]; unfold TransDbDataItemToSendDataItem.
  - intros x (y & -> & Hy)%list_elem_of_fmap. apply Hx in Hy as (e & -> & He). cbn. eexists. split; [done | exact He].
  - intros e e' He Hl (y & Ey & Hy)%list_elem_of_fmap Hle. destruct y as [e2|]; [| done]. injection Ey as ->. cbn in Hle.
    destruct (Hc e e2 He Hl Hy Hle) as [o Ho]. eexists. apply list_elem_of_fmap. eexists. split; [| exact Ho]. reflexivity.
Qed.

End PagedFacts.
