(* ===== verification/SyncSender.v ===== *)
(** What a device sends in a full synchronization: every data packet has all writes of the
    device from the water mark it carries up to its latest time stamp, whatever the other device
    acknowledges. *)

From S2P Require Import Prelude Memory Parcel CommTypes SerialBuffer ProtocolProto AppMessage SyncStorage CommitNotify QuerySync KvEntry.
From S2P Require Import SyncPacket DbAbility WaterMark MetaData TimeHelper SyncRead SubscribeManager SyncWorld SyncTask DataSync SyncLogic SyncViews.
From Stdlib Require Import ZArith Lia.
From Stdlib Require Import Strings.Byte.
From stdpp Require Import base numbers list gmap.

Open Scope Z_scope.

Create HintDb ordinary.

Section Sender.
Context `{Host} `{Heap} `{Zlib} `{ValueHash} `{DeviceHash} `{SyncEnv} `{PagedLaws St Tok}.
Abbreviation W := (World St Tok).

Abbreviation store w := (md_store (w_md w)).

(** * What keeps the state of a sender *)

Definition local_mark (w : W) : Z := localWaterMark (view (w_md w) (cx_deviceId (w_cx w))).

(** The task in the context. *)
Definition task_of (w : W) : DeviceID * bool * Z * Z :=
  let c := w_cx w in (cx_deviceId c, cx_isQuerySync c, cx_mode c, cx_remoteSoftwareVersion c).

(** Where the reading goes on. *)
Definition place_of (w : W) : option Tok * Z := (cx_token (w_cx w), cx_isNeedRetry (w_cx w)).

Record settled (w w' : W) : Prop := {
  se_store : grows (store w) (store w');
  se_view : forall d, view (w_md w') d = view (w_md w) d;
  se_ptr : naturalStoragePtr_ (w_md w') = naturalStoragePtr_ (w_md w);
  se_task : task_of w' = task_of w;
  se_map : ds_reSendMap (w_ds w') = ds_reSendMap (w_ds w)
}.

#[export] Instance settled_pre : PreOrder settled.
Proof.
  split; [by intros w; split; [reflexivity | done..] |]. intros w1 w2 w3 [] []. split; [by etrans | | | |]; intros; etrans; eauto.
Qed.

(** Besides, the messages that are sent have data packets that are [P]. *)
Definition ships (P : DataRequestPacket -> Prop) (w w' : W) : Prop :=
  settled w w' /\ place_of w' = place_of w /\ exists ms, w_sent w' = w_sent w ++ ms
    /\ Forall (fun m => forall p, GetDataRequest m = Some (Some p) -> P p) ms.

#[export] Instance ships_pre P : PreOrder (ships P).
Proof.
  split; [intros w; split_and!; [reflexivity | done | exists []; by rewrite app_nil_r] |].
  intros w1 w2 w3 (S1 & T1 & m1 & E1 & F1) (S2 & T2 & m2 & E2 & F2). split_and!; [by etrans | congruence |].
  exists (m1 ++ m2). rewrite E2, E1, app_assoc. split; [done | by apply Forall_app].
Qed.

(** Nothing is sent. *)
Definition quiet : relation W := ships (fun _ => False).

#[export] Instance quiet_pre : PreOrder quiet := ships_pre _.

Lemma ships_mono (P P' : DataRequestPacket -> Prop) w w' : ships P w w' -> (forall p, P p -> P' p) -> ships P' w w'.
Proof. intros (Hs & Hp & ms & E & Hm) HP. split_and!; [done | done |]. exists ms. split; [done |]. eapply Forall_impl; [exact Hm |]. cbn. auto. Qed.

Lemma quiet_same (w w' : W) : settled w w' -> place_of w' = place_of w -> w_sent w' = w_sent w -> forall P, ships P w w'.
Proof. intros Hh Hp E P. split_and!; [done | done |]. exists []. by rewrite app_nil_r. Qed.

Lemma settled_meta w m : read_only (w_md w) m -> settled w (set_md w m).
Proof. intros (Hv & Hs & Hp & _). split; cbn; [rewrite Hs; reflexivity | done | done | done | done]. Qed.

Lemma settled_store w st : grows (store w) st -> settled w (set_md w (set_store (w_md w) st)).
Proof. intros Hg. by split. Qed.

Ltac quiet_change :=
  idtac; lazymatch goal with
  | |- stays _ (on_world _) =>
    let E := fresh in intros ? ? ? E; unfold on_world in E; repeat case_match; simplify_eq; apply quiet_same; [split; [reflexivity | done..] | done | done]
  | |- forall _ _ _, _ -> _ _ (set_md _ (set_store _ _)) =>
    let a := fresh in let E := fresh in intros ? a ? E; apply quiet_same; [apply settled_store | done | done];
    first [destruct a as [? ?]; apply pl_intercept in E; apply E | injection E as <- <-; apply pl_release]
  | |- forall _ _ _, _ -> _ _ (set_md _ _) =>
    let E := fresh in intros ? ? ? E; apply quiet_same; [apply settled_meta | done | done];
    first [by apply GetLocalWaterMark_view in E as [_ E] | by apply GetPeerWaterMark_view in E as [_ E]
          | by apply GetRemoveDataMark_view in E as [_ E] | eapply GetTimeOffset_view, E
          | eapply GetSendDeleteSyncWaterMark_view, E]
  | _ => intros; lazymatch goal with |- _ /\ _ => split | _ => idtac end; (apply quiet_same; [split; [reflexivity | done..] | done | done])
  end.
Ltac quiet := stays_with quiet_change.

Lemma StartFeedDogForSync_quiet P t flag : stays (ships P) (StartFeedDogForSync (St := St) (Tok := Tok) t flag).
Proof. quiet. Qed.
Lemma GetLocalDeleteSyncWaterMark_quiet P : stays (ships P) (GetLocalDeleteSyncWaterMark (St := St) (Tok := Tok)).
Proof. quiet. Qed.
Lemma intercept_and_compress_quiet P e l : stays (ships P) (intercept_and_compress (St := St) (Tok := Tok) e l).
Proof. quiet. Qed.

#[local] Hint Resolve StartFeedDogForSync_quiet GetLocalDeleteSyncWaterMark_quiet intercept_and_compress_quiet : stays.

Lemma cur_type_quiet P : stays (ships P) (cur_type (St := St) (Tok := Tok)).
Proof. quiet. Qed.
Lemma GetDataSizeSpecInfo_quiet P n : stays (ships P) (GetDataSizeSpecInfo (St := St) (Tok := Tok) n).
Proof. quiet. Qed.
Lemma UpdateMtuSize_quiet P : stays (ships P) (UpdateMtuSize (St := St) (Tok := Tok)).
Proof. quiet. Qed.
Lemma GetQuerySyncId_quiet P : stays (ships P) (GetQuerySyncId (St := St) (Tok := Tok)).
Proof. quiet. Qed.
Lemma full_peer_mark_quiet P q d : stays (ships P) (ds_GetPeerWaterMark (St := St) (Tok := Tok) MANUAL_FULL_SYNC_TYPE q d).
Proof. unfold ds_GetPeerWaterMark. change (is_query_type MANUAL_FULL_SYNC_TYPE) with false. cbn [negb]. quiet. Qed.
Lemma full_local_mark_quiet P q : stays (ships P) (ds_GetLocalWaterMark (St := St) (Tok := Tok) MANUAL_FULL_SYNC_TYPE q).
Proof. unfold ds_GetLocalWaterMark. change (is_query_type MANUAL_FULL_SYNC_TYPE) with false. cbn [negb]. quiet. Qed.
Lemma new_message_quiet P i o : stays (ships P) (new_message (St := St) (Tok := Tok) i o).
Proof. quiet. Qed.
Lemma SetPacketId_quiet P p v : stays (ships P) (SetPacketId (St := St) (Tok := Tok) p v).
Proof. quiet. Qed.
Lemma ChooseCompressAlgo_quiet P : stays (ships P) (ChooseCompressAlgo (St := St) (Tok := Tok)).
Proof. quiet. Qed.
Lemma version_quiet P : stays (ships P) (version (St := St) (Tok := Tok)).
Proof. quiet. Qed.

(** A message that is sent is one of those that may be. *)
Lemma Send_ships P m len : (forall p, GetDataRequest m = Some (Some p) -> P p) -> stays (ships P) (Send (St := St) (Tok := Tok) m len).
Proof.
  intros HP. unfold Send. quiet. intros w e w' [= <- <-]. split_and!; [split; [reflexivity | done..] | done |]. cbn. exists [m].
  split; [done | by apply Forall_singleton].
Qed.

Lemma head_request m t d s i p : GetDataRequest (SetMessageHeadInfo m t d s i) = Some (Some p) -> GetDataRequest m = Some (Some p).
Proof. unfold SetMessageHeadInfo, SetMessageType. by destruct (_ && _). Qed.

(** Neither that the time is over, nor that a key was revoked, nor that the sending is over. *)
Definition sent_code (e : Z) : Prop := e <> - E_TIMEOUT /\ e <> - E_EKEYREVOKED /\ e <> - E_FINISHED.

(** ** The statuses of the compression *)

Definition ordinary (m : Run Z) : Prop := forall p r q, m p = Some (r, q) -> sent_code r.

Lemma run_bind_inv {A B} (m : Run A) (k : A -> Run B) p r : (m ≫= k) p = Some r -> exists a q, k a q = Some r.
Proof. unfold mbind, run_bind. intros ([a q] & _ & E)%bind_Some. eauto. Qed.

Ltac ordinary_at E :=
  repeat lazymatch type of E with
  | (_ ≫= _) _ = Some _ => apply run_bind_inv in E as (? & ? & E)
  | mret _ _ = Some _ => injection E as <- <-
  | fail_with _ _ = Some _ => unfold fail_with in E
  | Some _ = Some _ => injection E as <- <-
  | (if ?b then _ else _) = Some _ => destruct b
  | (if ?b then _ else _) _ = Some _ => destruct b
  | (let _ := _ in _) = Some _ => cbv zeta in E
  end; try done.

Lemma WriteInteger_ordinary n x : ordinary (WriteInteger n x).
Proof. intros p r q E. unfold WriteInteger in E. ordinary_at E. Qed.
Lemma WriteVectorChar_ordinary l : ordinary (WriteVectorChar l).
Proof. intros p r q E. unfold WriteVectorChar, WriteVector in E. ordinary_at E. Qed.
Lemma WriteString_ordinary l : ordinary (WriteString l).
Proof. intros p r q E. unfold WriteString in E. ordinary_at E. Qed.
Lemma ordinary_ret r : sent_code r -> ordinary (mret r).
Proof. intros Hr p r' q [= <- <-]. done. Qed.
Lemma ordinary_bind {A} (m : Run A) k : (forall a, ordinary (k a)) -> ordinary (m ≫= k).
Proof. intros Hk p r q (a & q' & E)%run_bind_inv. by eapply Hk. Qed.
Lemma ordinary_then (m : Run Z) k : ordinary m -> (forall c, sent_code c -> ordinary (k c)) -> ordinary (m ≫= k).
Proof.
  intros Hm Hk p r q E. unfold mbind, run_bind in E. apply bind_Some in E as ([c p1] & E1 & E).
  eapply Hk; [by eapply Hm | exact E].
Qed.
Lemma ordinary_if (b : bool) m1 m2 : ordinary m1 -> ordinary m2 -> ordinary (if b then m1 else m2).
Proof. by destruct b. Qed.
Lemma then_write_ordinary m k : ordinary m -> ordinary k -> ordinary (then_write m k).
Proof. intros Hm Hk. apply ordinary_then; [done |]. intros c Hc. apply ordinary_if; [done | by apply ordinary_ret]. Qed.

#[local] Hint Resolve WriteInteger_ordinary WriteVectorChar_ordinary WriteString_ordinary ordinary_ret ordinary_if ordinary_then
  then_write_ordinary : ordinary.

Lemma SerializeData_ordinary e v : ordinary (SerializeData e v).
Proof.
  apply then_write_ordinary; [apply WriteInteger_ordinary |]. unfold AdaptToVersion. destruct (version_unsupported v).
  { by intros p r q [= <- <-]. }
  assert (Ho : ordinary (SerializeDataByVersion e v)).
  { unfold SerializeDataByVersion, SerializeDataByFirstVersion, SerializeDataByLaterVersion, WriteUInt64.
    apply ordinary_then; [auto 10 with ordinary |]. intros c Hc. apply ordinary_if; [by apply ordinary_ret |].
    apply then_write_ordinary; [auto with ordinary |]. apply ordinary_if; [auto with ordinary | by apply ordinary_ret]. }
  intros p r q E. unfold mbind, run_bind in E. apply bind_Some in E as ([[[c l] e'] p1] & E1 & E2).
  apply bind_Some in E1 as ([c1 p2] & E1 & E3). injection E3 as <- <- <- <-. injection E2 as <- <-. by eapply Ho.
Qed.

Lemma write_entries_ordinary l v : ordinary (write_entries l v).
Proof.
  induction l as [|[e|] l IH]; cbn; [by apply ordinary_ret | | done]. apply then_write_ordinary; [apply SerializeData_ordinary | done].
Qed.

Lemma Compress_ordinary l d i c out : Compress l d i = Some (c, out) -> sent_code c.
Proof.
  unfold Compress. destruct (_ =? 0); [by intros [= <- <-] |]. intros ([c1 p1] & E1 & E)%bind_Some.
  assert (Hc1 : sent_code c1).
  { revert E1. apply then_write_ordinary; [apply WriteInteger_ordinary |]. apply ordinary_bind. intros _. apply write_entries_ordinary. }
  destruct (c1 =? E_OK); cbn [negb] in E; [| by injection E as <- <-].
  destruct (GetInstance registered_compression (compressAlgo i)) as [inst|] eqn:Ei; [| by injection E as <- <-].
  assert (inst = zlib_instance) as ->.
  { unfold registered_compression, Register, GetInstance in Ei. rewrite (lookup_empty ZLIB : compressionAlgos no_compression !! ZLIB = None) in Ei. cbn [compressionAlgos no_compression] in Ei. by apply lookup_insert_Some in Ei as [[_ <-] | [_ ?%lookup_empty_Some]]. }
  injection E as E. unfold zlib_instance in E. cbn in E. unfold zlib_Compress in E. repeat case_match; by injection E as <- <-.
Qed.

(** * The invariant of a sender *)

(** A storage of earlier. *)
Context (st0 : St).

(** A packet of a full synchronization that has every write from its water mark on. *)
Definition sound_packet (st : St) (p : DataRequestPacket) : Prop :=
  is_query_type (GetSyncType (rq_mode p)) = false /\ 0 <= rq_localWaterMark p /\ covers st (rq_localWaterMark p) (rq_data p).

Definition sent_end (i : ReSendInfo) : Z := if ri_start i <? ri_end i then ri_end i + 1 else ri_end i.

(** The device answers a full synchronization with one that does not want its data removed. *)
Record sender_base (w : W) : Prop := {
  sb_since : grows st0 (store w);
  sb_store : store_ok (store w);
  sb_full : cx_isQuerySync (w_cx w) = false;
  sb_version : SOFTWARE_VERSION_RELEASE_3_0 < cx_remoteSoftwareVersion (w_cx w);
  sb_clear : clearDeviceDataMark (view (w_md w) (cx_deviceId (w_cx w))) = 0;
  sb_ptr : naturalStoragePtr_ (w_md w) = true;
  sb_mark : 0 <= local_mark w < INT64_MAX;
  sb_map : forall k i, ds_reSendMap (w_ds w) !! k = Some i -> 0 <= ri_start i <= ri_end i /\ sent_end i <= local_mark w;
  sb_sent : forall m p, m ∈ w_sent w -> GetDataRequest m = Some (Some p) -> sound_packet (store w) p
}.

(** The reading goes on where the local water mark is. *)
Definition in_step (w : W) : Prop := forall t, cx_token (w_cx w) = Some t ->
  plain_token t /\ (cx_isNeedRetry (w_cx w) = NEED_RETRY \/ tok_begin t = local_mark w).

Definition sender_ok (w : W) : Prop := sender_base w /\ in_step w.

Lemma settled_mark w w' : settled w w' -> local_mark w' = local_mark w.
Proof. intros [_ Hv _ Ht _]. unfold local_mark. unfold task_of in Ht. injection Ht as -> _ _ _. by rewrite Hv. Qed.

Lemma sound_grows st st' p : grows st st' -> sound_packet st p -> sound_packet st' p.
Proof. intros Hg (Hm & Hp & Hc). split_and!; [done | done | by eapply covers_grows]. Qed.

(** Same as before, with more sound packets sent. *)
Lemma base_settled w w' ms : settled w w' -> w_sent w' = w_sent w ++ ms ->
  Forall (fun m => forall p, GetDataRequest m = Some (Some p) -> sound_packet (store w) p) ms ->
  sender_base w -> sender_base w'.
Proof.
  intros Hs Es Hms [Bsince Bo Bf Bv Bc Bp Bm Bmap Bs]. pose proof (settled_mark _ _ Hs) as El. destruct Hs as [Hg Hv Hp Ht Hm].
  unfold task_of in Ht. injection Ht as Td Tq _ Tv. split; rewrite ?El, ?Hm, ?Td, ?Tq, ?Tv, ?Hv, ?Hp; try done.
  - by etrans.
  - by apply Hg.
  - intros m p Hin E. rewrite Es in Hin. apply elem_of_app in Hin as [Hin | Hin]; (eapply sound_grows; [exact Hg |]).
    + by eapply Bs.
    + rewrite Forall_forall in Hms. by eapply Hms.
Qed.

Lemma base_ships P w w' : ships P w w' -> (forall p, P p -> sound_packet (store w) p) -> sender_base w -> sender_base w'.
Proof.
  intros (Hs & _ & ms & Es & Hms) HP. eapply base_settled; [exact Hs | exact Es |]. eapply Forall_impl; [exact Hms |]. cbn. auto.
Qed.

Lemma in_step_ships P w w' : ships P w w' -> in_step w -> in_step w'.
Proof.
  intros (Hs & Hp & _) Hi t. unfold place_of in Hp. injection Hp as -> ->. rewrite (settled_mark _ _ Hs). apply Hi.
Qed.

Lemma base_quiet w w' : quiet w w' -> sender_base w -> sender_base w'.
Proof. intros Hq. by eapply base_ships; [exact Hq |]. Qed.

(** * What is read *)

Abbreviation FULL := MANUAL_FULL_SYNC_TYPE.

Lemma cur_type_full w : cx_isQuerySync (w_cx w) = false -> wp cur_type (fun t w' => t = FULL /\ quiet w w') w.
Proof. intros E. apply wp_both; [apply cur_type_quiet |]. unfold cur_type. wp_steps. by rewrite E. Qed.

Lemma local_mark_read q w : wp (ds_GetLocalWaterMark FULL q) (fun x w' => x = local_mark w /\ quiet w w') w.
Proof.
  apply wp_both; [apply full_local_mark_quiet |]. unfold ds_GetLocalWaterMark. wp_steps. cbn. apply wp_on_meta.
  intros x m E. by apply GetLocalWaterMark_view in E as [-> _].
Qed.

(** The mark of a full synchronization is saved. *)
Lemma SaveLocalWaterMark_view m d x e m' : naturalStoragePtr_ m = true -> SaveLocalWaterMark m d x = (e, m') ->
  e = E_OK /\ view m' d = set_localWaterMark (view m d) x /\ grows (md_store m) (md_store m')
  /\ naturalStoragePtr_ m' = true.
Proof.
  intros Hp. unfold SaveLocalWaterMark. destruct (GetMetaDataValue m d true) as [v m1] eqn:Ev.
  apply GetMetaDataValue_view in Ev as (-> & (Hv & Hs & Hn & Hlast) & Ed). unfold SaveMetaDataValue, GetHashDeviceId. cbn [negb]. rewrite Ed.
  unfold SetMetadataToDb. rewrite Hn, Hp, Hs. cbn [negb]. destruct (PutMetaData _ _ _) as [e1 st] eqn:Ep.
  apply pl_meta in Ep as [-> Hg]. cbn. intros [= <- <-]. cbn. split_and!; [done | | done | congruence].
  unfold view, hash_id_of, PutMetadataToMap. cbn. rewrite Ed. cbn [default]. by rewrite lookup_insert_eq.
Qed.

(** The token goes on after the last of the entries. *)
Definition fits (out : list SendDataItem) (tok : option Tok) : Prop := forall t, tok = Some t ->
  plain_token t /\ (exists e, Some e ∈ out /\ tok_begin t = timestamp e + 1)
  /\ (forall e, Some e ∈ out -> timestamp e < tok_begin t).

(** As [quiet], but the reading may have gone on. *)
Definition drift (w w' : W) : Prop := settled w w' /\ exists ms, w_sent w' = w_sent w ++ ms
  /\ Forall (fun m => forall p, GetDataRequest m <> Some (Some p)) ms.

#[export] Instance drift_pre : PreOrder drift.
Proof.
  split; [intros w; split; [reflexivity | exists []; by rewrite app_nil_r] |].
  intros w1 w2 w3 (S1 & m1 & E1 & F1) (S2 & m2 & E2 & F2). split; [by etrans |].
  exists (m1 ++ m2). rewrite E2, E1, app_assoc. split; [done | by apply Forall_app].
Qed.

Lemma quiet_drift w w' : quiet w w' -> drift w w'.
Proof. intros (Hs & _ & ms & E & Hm). split; [done |]. exists ms. split; [done |]. eapply Forall_impl; [exact Hm |]. naive_solver. Qed.

Lemma base_drift w w' : drift w w' -> sender_base w -> sender_base w'.
Proof.
  intros (Hs & ms & E & Hm). eapply base_settled; [exact Hs | exact E |]. eapply Forall_impl; [exact Hm |]. naive_solver.
Qed.

(** A page has been read; the state of the reading may be broken when that failed. *)
Record page_read (w : W) (c : Z) (out : list SendDataItem) (w' : W) : Prop := {
  pr_drift : drift w w';
  pr_covers : covers (store w') (local_mark w) out;
  pr_token : IsGetDataSuccessfully c = true -> fits out (cx_token (w_cx w'));
  pr_time : c <> - E_TIMEOUT /\ c <> - E_FINISHED;
  pr_revoked : c = - E_EKEYREVOKED -> out = [] /\ cx_token (w_cx w') = None
}.

Lemma drift_same (w w' : W) : settled w w' -> w_sent w' = w_sent w -> drift w w'.
Proof. intros Hs E. split; [done |]. exists []. by rewrite app_nil_r. Qed.

Lemma info_size n w : wp (GetDataSizeSpecInfo n) (fun i w' => packetSize i = n /\ quiet w w') w.
Proof.
  apply wp_both; [apply GetDataSizeSpecInfo_quiet |]. unfold GetDataSizeSpecInfo. wp_steps.
  destruct (sg_GetCompressionOption _) as [b r]. wp_steps. by destruct (r =? 0); wp_steps.
Qed.

(** What a storage gave is put into the context. *)
Lemma page_kept w w1 b c out tok st : drift w w1 -> local_mark w = b -> page_gives (store w1) b c out tok st ->
  token_after c out tok ->
  page_read w c out (set_cx (set_md w1 (set_store (w_md w1) st)) (SetContinueToken (w_cx (set_md w1 (set_store (w_md w1) st))) tok)).
Proof.
  intros Hd <- (Hg & Hc & He & Hk & Htime) Ht. split; [| | | done |].
  - etrans; [exact Hd |]. apply drift_same; [| done]. by split.
  - cbn. by eapply covers_grows.
  - cbn. exact Ht.
  - cbn. intros Hr. split; [apply He; by rewrite Hr | by apply Hk].
Qed.

Lemma GetUnsyncData_reads n w : 1 <= n -> sender_base w -> wp (GetUnsyncData n) (fun r w' => page_read w r.1 r.2 w') w.
Proof.
  intros Hn Hb. unfold GetUnsyncData. wp_steps. eapply wp_mono; [apply cur_type_full, sb_full, Hb |]. cbv beta.
  intros ? w1 [-> Hw1]. wp_steps. eapply (wp_stays quiet); [apply GetQuerySyncId_quiet |]. intros q w2 Hw2.
  wp_steps. eapply wp_mono; [apply local_mark_read |]. cbv beta. intros ? w3 [-> Hw3].
  assert (Hw : quiet w w2) by (by etrans). pose proof (base_quiet _ _ Hw Hb) as Hb2.
  pose proof (sb_mark _ Hb2) as Hm. rewrite (proj2 (Z.ltb_ge _ _)) by (unfold MAX_TIMESTAMP; lia). wp_steps.
  assert (Hd3 : drift w w3) by (apply quiet_drift; by etrans).
  apply wp_mono with (Q := fun _ => drift w).
  { destruct (cx_token _) as [t|]; [| by wp_steps]. apply wp_on_storage. intros [] st [= <-].
    etrans; [exact Hd3 |]. apply drift_same; [| done]. apply settled_store, pl_release. }
  intros [] w4 Hd4. wp_steps. eapply wp_mono; [apply info_size |]. cbv beta. intros info w5 [Ei Hw5].
  assert (Hd5 : drift w w5) by (etrans; [exact Hd4 | by apply quiet_drift]). cbn [is_query_type].
  change (is_query_type FULL) with false. cbn [negb]. wp_steps. apply wp_on_storage. intros [[c out] tok] st E. wp_steps.
  assert (El : local_mark w2 = local_mark w) by (apply settled_mark, Hw).
  apply pl_read in E as [Hp Ht].
  - eapply page_kept; [exact Hd5 | exact (eq_sym El) | exact Hp | by apply Ht].
  - by apply sb_store, (base_drift _ _ Hd5).
  - lia.
  - unfold MAX_TIMESTAMP, INT64_MAX. lia.
  - lia.
Qed.

Lemma GetData_reads n w : 1 <= n -> sender_ok w -> wp (GetData n) (fun r w' => page_read w r.1 r.2 w') w.
Proof.
  intros Hn [Hb Hi]. unfold GetData. wp_steps. eapply (wp_stays quiet); [apply UpdateMtuSize_quiet |]. intros [] w1 Hw1. wp_steps.
  pose proof (base_quiet _ _ Hw1 Hb) as Hb1. pose proof (in_step_ships _ _ _ Hw1 Hi) as Hi1.
  pose proof (settled_mark _ _ (proj1 Hw1)) as El. apply quiet_drift in Hw1.
  assert (Hfrom : forall w2 r w', drift w w2 -> page_read w2 r.1 r.2 w' -> page_read w r.1 r.2 w').
  { intros w2 r w' Hd [Pd Pc Pt Pm Pr]. split; [by etrans | | done | done | done]. by rewrite <- (settled_mark _ _ (proj1 Hd)). }
  apply wp_mono with (Q := fun r w' => page_read w r.1 r.2 w').
  { unfold id. destruct (_ =? NEED_RETRY) eqn:Er.
    - wp_steps. set (w2 := set_cx w1 _).
      assert (Hd : drift w1 w2) by (apply drift_same; [by split; [reflexivity | ..] | done]).
      eapply wp_mono; [apply GetUnsyncData_reads; [done | by eapply base_drift] |]. intros r w'. apply Hfrom. by etrans.
    - destruct (cx_token (w_cx w1)) as [t|] eqn:Et.
      + destruct (Hi1 t Et) as [Hp [Hr | Hbeg]]; [apply Z.eqb_neq in Er; done |].
        unfold GetNextUnsyncData. wp_steps. eapply wp_mono; [apply info_size |]. cbv beta. intros info w2 [Ei Hw2].
        wp_steps. apply wp_on_storage. intros [[c out] tok] st E. wp_steps.
        apply pl_read_next in E as [Hg Ht]; [| by apply sb_store, (base_quiet _ _ Hw2) | done | lia].
        eapply page_kept; [| | exact Hg | exact Ht]; [etrans; [exact Hw1 | by apply quiet_drift] | congruence].
      + eapply wp_mono; [by apply GetUnsyncData_reads |]. intros r w'. by apply Hfrom. }
  intros [c out] w' [Pd Pc Pt Pm Pr]. destruct (IsGetDataSuccessfully c) eqn:Es; wp_steps; cbn; [| by split; rewrite ?Es].
  split; [done | by apply covers_label | | done | intros ->; done]. intros Hs t Et. destruct (Pt Hs t Et) as (Hpl & (e & He & Ebeg) & Hlt).
  split_and!; [done | |].
  - eexists. split; [apply list_elem_of_fmap; eexists; split; [| exact He]; reflexivity | done].
  - intros e' (x & Ex & Hx)%list_elem_of_fmap. destruct x as [e2|]; [| done]. injection Ex as ->. cbn. by apply Hlt.
Qed.

(** A token that keeps, and a status that is another error. *)
Lemma page_read_then w c out w1 w2 : page_read w c out w1 -> quiet w1 w2 -> page_read w c out w2.
Proof.
  intros [Pd Pc Pt Pm Pr] Hq. pose proof Hq as (Hs & Hp & _). unfold place_of in Hp. injection Hp as Et _.
  split; rewrite ?Et; [etrans; [exact Pd | by apply quiet_drift] | eapply covers_grows; [apply Hs | done] | done | done | done].
Qed.

Lemma page_read_code w c c' out w' : page_read w c out w' -> IsGetDataSuccessfully c = true -> sent_code c' ->
  page_read w c' out w'.
Proof. intros [Pd Pc Pt Pm Pr] Hs (Hc1 & Hc2 & Hc3). split; auto; done. Qed.

Lemma intercept_keeps c out w : wp (intercept_and_compress c out) (fun r w' =>
  (entries r.2 = out /\ (r.1 = c \/ sent_code r.1)) /\ quiet w w') w.
Proof.
  apply wp_both; [apply intercept_and_compress_quiet |]. unfold intercept_and_compress, version, InterceptData. wp_steps.
  apply wp_on_storage. intros [c1 out1] st E. apply pl_intercept in E as (-> & -> & _). cbn [is_ok negb]. change (is_ok E_OK) with true. cbn [negb]. wp_steps.
  destruct (sg_GetCompressionOption _) as [need rate]. wp_steps. unfold ChooseCompressAlgo. wp_steps.
  destruct (need && _); wp_steps; [| by split; [| left]]. destruct a as [c2 comp]. wp_steps. cbn. split; [done |].
  destruct (is_ok c2); cbn [negb]; [by left | right]. by eapply Compress_ordinary.
Qed.

Lemma packet_size_pos v : 1 <= packet_size v.
Proof. unfold packet_size, MAX_HPMODE_PACK_ITEM_SIZE, MAX_NORMAL_PACK_ITEM_SIZE. destruct (_ <? _); lia. Qed.

Lemma GetDataWithPerformanceRecord_reads w : sender_ok w ->
  wp GetDataWithPerformanceRecord (fun r w' => page_read w r.1 (entries r.2) w') w.
Proof.
  intros Hok. unfold GetDataWithPerformanceRecord, version. wp_steps.
  eapply wp_mono; [apply GetData_reads; [apply packet_size_pos | exact Hok] |].
  intros [c out] w1 Hp. cbn [fst snd] in Hp. destruct (IsGetDataSuccessfully c) eqn:Es; cbn [negb].
  - eapply wp_mono; [apply intercept_keeps |]. cbv beta. intros r w2 [[Ee Hc] Hq]. rewrite Ee.
    eapply page_read_then; [| exact Hq]. destruct Hc as [-> | Hc]; [done | by eapply page_read_code].
  - wp_steps. cbn. eapply page_read_then; [exact Hp |]. apply quiet_same; [by split; [reflexivity |..] | done | done].
Qed.

(** * The range of the entries *)

Lemma full_range_fold lm out : (forall x, x ∈ out -> exists e, x = Some e /\ lm <= timestamp e) -> forall r u,
  beginTime r = lm -> let '(r', u') := fold_left full_range out (r, u) in
  beginTime r' = lm /\ endTime r <= endTime r' /\ (forall e, Some e ∈ out -> timestamp e <= endTime r')
  /\ (out = [] /\ r' = r /\ u' = u
      \/ out <> [] /\ normalUpdateMark u' = true /\ (endTime r' = endTime r \/ exists e, Some e ∈ out /\ endTime r' = timestamp e)).
Proof.
  induction out as [|x out IH]; intros Hx r u Hr; cbn [fold_left].
  { split_and!; [done | lia | by intros e ?%elem_of_nil | by left]. }
  destruct (Hx x) as (e & -> & He); [left |]. cbn [full_range].
  specialize (IH ltac:(intros y Hy; apply Hx; by right)
    (mkSyncTimeRange (Z.min (beginTime r) (timestamp e)) (deleteBeginTime r) (Z.max (endTime r) (timestamp e)) (deleteEndTime r))
    (mkUpdateWaterMark true (deleteUpdateMark u)) ltac:(cbn; lia)).
  destruct (fold_left full_range out _) as [r' u']. cbn in IH. destruct IH as (Hb & Hle & Hall & Hend).
  split_and!; [done | lia | |].
  - intros e' [[= ->] | Hin]%elem_of_cons; [lia | by apply Hall].
  - right. split; [done |]. destruct Hend as [(-> & -> & ->) | (_ & Hu & [Eend | (e' & Hin & Eend)])]; cbn.
    + split; [done |]. destruct (Z.max_spec (endTime r) (timestamp e)) as [[? E] | [? E]]; [right | left; done].
      exists e. split; [left | done].
    + split; [done |]. destruct (Z.max_spec (endTime r) (timestamp e)) as [[? E] | [? E]]; [right | left; lia].
      exists e. split; [left | lia].
    + split; [done |]. right. exists e'. split; [by right | done].
Qed.

Definition range_ok (lm : Z) (out : list SendDataItem) (r : SyncTimeRange) (u : UpdateWaterMark) : Prop :=
  beginTime r = lm
  /\ (out = [] /\ endTime r = lm /\ normalUpdateMark u = false
      \/ normalUpdateMark u = true /\ (exists e, Some e ∈ out /\ endTime r = timestamp e)
         /\ (forall e, Some e ∈ out -> timestamp e <= endTime r)).

Lemma full_range_ok lm out : (forall x, x ∈ out -> exists e, x = Some e /\ lm <= timestamp e) ->
  range_ok lm out (GetFullSyncDataTimeRange out lm).1 (GetFullSyncDataTimeRange out lm).2.
Proof.
  intros Hx. unfold GetFullSyncDataTimeRange.
  pose proof (full_range_fold lm out) as Hf. specialize (Hf Hx
    (mkSyncTimeRange lm 0 lm 0) (mkUpdateWaterMark false false) eq_refl).
  destruct (fold_left _ _ _) as [r u]. cbn in *. destruct Hf as (Hb & Hle & Hall & Hend). split; [done |].
  destruct Hend as [(-> & -> & ->) | (Hne & Hu & He)]; [by left | right]. split_and!; [done | | done].
  destruct He as [Eend | He]; [| done]. destruct out as [|x out]; [done |].
  destruct (Hx x) as (e & -> & ?); [left |]. exists e. split; [left |]. specialize (Hall e ltac:(left)). lia.
Qed.

(** * What is sent *)

Lemma time_range_read out w : sender_base w -> wp (GetSyncDataTimeRange FULL out) (fun r w' =>
  r = GetFullSyncDataTimeRange out (local_mark w) /\ quiet w w') w.
Proof.
  intros Hb. unfold GetSyncDataTimeRange. wp_steps. eapply (wp_stays quiet); [apply GetQuerySyncId_quiet |]. intros q w1 Hw1.
  wp_steps. eapply wp_mono; [apply local_mark_read |]. cbv beta. intros ? w2 [-> Hw2]. wp_steps.
  eapply (wp_stays quiet); [apply GetLocalDeleteSyncWaterMark_quiet |]. intros d w3 Hw3. wp_steps.
  rewrite (settled_mark _ _ (proj1 Hw1)). split; [done | by etrans; [etrans |]].
Qed.

Lemma peer_mark_read q d w : wp (ds_GetPeerWaterMark FULL q d) (fun x w' => x = peerWaterMark (view (w_md w) d) /\ quiet w w') w.
Proof.
  apply wp_both; [apply full_peer_mark_quiet |]. unfold ds_GetPeerWaterMark. cbn. apply wp_on_meta.
  intros x m E. by apply GetPeerWaterMark_view in E as [-> _].
Qed.

(** The mode of a full synchronization. *)
Definition full_mode (mode : Z) : Prop := mode = PUSH \/ mode = PULL \/ mode = PUSH_AND_PULL \/ mode = RESPONSE_PULL.

Lemma full_mode_type mode : full_mode mode -> is_query_type (GetSyncType mode) = false.
Proof. by intros [-> | [-> | [-> | ->]]]. Qed.

Definition is_data (lm : Z) (out : list SendDataItem) (p : DataRequestPacket) : Prop :=
  rq_localWaterMark p = lm /\ rq_data p = out /\ is_query_type (GetSyncType (rq_mode p)) = false.

Lemma FillDataRequestPacket_fills data code mode w : sender_base w -> full_mode mode ->
  wp (FillDataRequestPacket data code mode) (fun p w' => is_data (local_mark w) (entries data) p /\ quiet w w') w.
Proof.
  intros Hb Hm. unfold FillDataRequestPacket, version. wp_steps. eapply wp_mono; [apply cur_type_full, sb_full, Hb |]. cbv beta.
  intros ? w1 [-> Hw1]. wp_steps. destruct (sg_GetCompressionOption _) as [need rate]. wp_steps.
  eapply (wp_stays quiet); [apply GetQuerySyncId_quiet |]. intros q w2 Hw2. wp_steps.
  eapply wp_mono; [apply local_mark_read |]. cbv beta. intros ? w3 [-> Hw3]. wp_steps.
  eapply wp_mono; [apply peer_mark_read |]. cbv beta. intros ? w4 [-> Hw4]. wp_steps.
  eapply (wp_stays quiet); [apply GetLocalDeleteSyncWaterMark_quiet |]. intros d w5 Hw5. wp_steps.
  eapply (wp_stays quiet); [apply ChooseCompressAlgo_quiet |]. intros a w6 Hw6. cbv zeta. wp_steps.
  assert (Hw : quiet w w6) by (repeat (etrans; [| eassumption]); reflexivity).
  assert (Hw12 : quiet w w2) by (by transitivity w1). rewrite (settled_mark _ _ (proj1 Hw12)).
  set (p := SetQueryId _ q). set (p' := if need && _ then _ else p).
  assert (Hp : is_data (local_mark w) (entries data) p').
  { assert (Hp : is_data (local_mark w) (entries data) p).
    { unfold p, is_data. destruct (_ || _), (_ =? PUSH_AND_PULL); cbn; (split_and!; [done | done |]);
        destruct Hm as [-> | [-> | [-> | ->]]]; done. }
    unfold p'. destruct (need && _); [| done]. exact Hp. }
  clearbody p'. clear p. change (is_query_type FULL) with false. cbn [andb].
  unfold SetPacketId. destruct (_ <? _); wp_steps; [| by split].
  split; [exact Hp |]. etrans; [exact Hw |]. apply quiet_same; [by split; [reflexivity | ..] | done | done].
Qed.

Lemma new_message_made id_ o w : wp (new_message id_ o) (fun r w' => (forall m, r = Some m -> holderPtr_ m = Some o) /\ quiet w w') w.
Proof.
  apply wp_both; [apply new_message_quiet |]. unfold new_message. wp_steps. destruct a; cbn [negb]; wp_steps; [| done].
  destruct a; cbn [negb]; wp_steps; [| done]. by intros m [= <-].
Qed.

(** The communicator. *)
Context (Hsend : forall n m, sent_code (env_send n m)).

Lemma Send_sends P m len w : (forall p, GetDataRequest m = Some (Some p) -> P p) ->
  wp (Send m len) (fun e w' => sent_code e /\ ships P w w') w.
Proof.
  intros HP. apply wp_both; [by apply Send_ships |]. unfold Send. wp_steps.
  apply wp_any. intros b w1. wp_steps. subst. destruct (is_ok _); [apply Hsend |]. wp_steps. apply wp_any. intros [] w2.
  wp_steps. apply Hsend.
Qed.

Lemma head_made m o t d s i p : holderPtr_ m = Some (ODataRequest o) ->
  GetDataRequest (SetMessageHeadInfo m t d s i) = Some (Some p) -> p = o.
Proof. intros E Ep%head_request. unfold GetDataRequest in Ep. rewrite E in Ep. by injection Ep. Qed.

Lemma SendDataPacket_sends P t p w : P p -> wp (SendDataPacket t p) (fun e w' => sent_code e /\ ships P w w') w.
Proof.
  intros Hp. unfold SendDataPacket. wp_steps. eapply wp_mono; [apply new_message_made |]. cbv beta. intros [m|] w1 [Em Hw1]; wp_steps.
  - eapply wp_mono; [apply (Send_sends P) |]; cbv beta; [intros p' E; by rewrite (head_made _ _ _ _ _ _ _ (Em m eq_refl) E) |].
    intros e w2 [? Hw2]. split; [done |]. etrans; [by eapply ships_mono |]. exact Hw2.
  - split; [done | by eapply ships_mono].
Qed.

(** * After a packet has been sent *)

(** The statuses after which a session may go on. *)
Definition fine (e : Z) : Prop := e = E_OK \/ e = - E_EKEYREVOKED \/ e = - E_FINISHED.

(** The outcome of sending: the invariant, and the reading in step unless the session aborts. *)
Definition outcome (e : Z) (w : W) : Prop := e <> - E_TIMEOUT /\ sender_base w /\ (fine e -> in_step w).

Lemma outcome_ok e w : e <> - E_TIMEOUT -> sender_ok w -> outcome e w.
Proof. by intros ? [? ?]. Qed.

(** The invariant with another mark and other packets to send again. *)
Lemma base_marked w w1 m' x e : sender_base w -> quiet w w1 ->
  SaveLocalWaterMark (w_md w1) (cx_deviceId (w_cx w1)) x = (e, m') -> 0 <= x < INT64_MAX ->
  e = E_OK /\ forall w', w_md w' = m' -> task_of w' = task_of w -> w_sent w' = w_sent w1 ->
  (forall k i, ds_reSendMap (w_ds w') !! k = Some i -> 0 <= ri_start i <= ri_end i /\ sent_end i <= x) ->
  local_mark w' = x /\ sender_base w'.
Proof.
  intros Hb Hq E Hx. pose proof (base_quiet _ _ Hq Hb) as [Bsince Bo Bf Bv Bc Bp Bm Bmap Bs].
  apply SaveLocalWaterMark_view in E as (-> & Ev & Hg & Hn); [| done]. split; [done |].
  intros w' Em Et Es Hmap. rewrite <- (se_task _ _ (proj1 Hq)) in Et. unfold task_of in Et. injection Et as Td Tq _ Tv.
  assert (El : local_mark w' = x) by (unfold local_mark; by rewrite Td, Em, Ev).
  split; [done |]. split; rewrite ?El, ?Em, ?Td, ?Tq, ?Tv, ?Ev, ?Es; try done.
  - by etrans.
  - by apply Hg.
  - intros m p Hin Hp. eapply sound_grows; [exact Hg |]. by eapply Bs.
Qed.

(** Where the mark goes. *)
Lemma next_mark r u out w x : sender_base w -> range_ok (local_mark w) out r u -> covers (store w) (local_mark w) out ->
  fits out (cx_token (w_cx w)) -> x = endTime (ReviseLocalMark FULL r u) ->
  local_mark w <= x < INT64_MAX /\ local_mark w <= endTime r /\ (if local_mark w <? endTime r then endTime r + 1 else endTime r) <= x
  /\ forall t, cx_token (w_cx w) = Some t -> plain_token t /\ tok_begin t = x.
Proof.
  intros Hb [Hbeg Hend] [Hin _] Hf ->. pose proof (sb_mark _ Hb) as Hm. pose proof (pl_next (store w) (sb_store _ Hb)) as Hn.
  unfold ReviseLocalMark. cbn [endTime]. destruct Hend as [(-> & -> & ->) | (-> & (e & He & Ee) & Hall)].
  - rewrite Z.ltb_irrefl. split_and!; [lia | lia | lia | lia |]. intros t Et. destruct (Hf t Et) as (_ & (e & He & _) & _).
    by apply elem_of_nil in He.
  - destruct (Hin _ He) as (e' & [= <-] & ?). rewrite (wrap_small 64) by (unfold INT64_MAX in *; lia).
    split_and!; [lia | lia | lia | destruct (_ <? _); lia |]. intros t Et.
    destruct (Hf t Et) as (? & (e2 & He2 & Et2) & Hlt). split; [done |]. pose proof (Hlt e He). pose proof (Hall e2 He2). lia.
Qed.

(** A packet of this range is on its way: it may be sent again, and the mark moves to its end. *)
Lemma marks_move r u out w : sender_base w -> range_ok (local_mark w) out r u -> covers (store w) (local_mark w) out ->
  fits out (cx_token (w_cx w)) ->
  wp (_ ← UpdateSendInfo r; save_marks FULL r u) outcome w.
Proof.
  intros Hb Hr Hc Hf. destruct (next_mark r u out w _ Hb Hr Hc Hf eq_refl) as (Hx & He0 & Hend & Htok).
  pose proof (proj1 Hr) as Hbeg. pose proof (sb_mark _ Hb) as Hm.
  set (x := endTime (ReviseLocalMark FULL r u)) in *. unfold UpdateSendInfo. wp_steps. set (w1 := set_ds w _).
  unfold save_marks. wp_steps. change (is_query_type FULL) with false. cbn [andb]. unfold ds_SaveLocalWaterMark, GetQuerySyncId. wp_steps.
  change (is_query_type FULL) with false. cbn [negb]. wp_steps. apply wp_on_meta. intros e m' E. wp_steps.
  assert (Hmap : forall k i, ds_reSendMap (w_ds w1) !! k = Some i -> 0 <= ri_start i <= ri_end i /\ sent_end i <= x).
  { assert (Ei : exists k i, ds_reSendMap (w_ds w1) = <[k := i]> (ds_reSendMap (w_ds w)) /\ ri_start i = local_mark w /\ ri_end i = endTime r).
    { unfold w1. cbn. do 2 eexists. split; [by destruct (cx_token _) |]. by cbn. }
    destruct Ei as (k & i & -> & Ei1 & Ei2). intros k' i' [[_ <-] | [_ Hk]]%lookup_insert_Some.
    - unfold sent_end. rewrite Ei1, Ei2. lia.
    - destruct (sb_map _ Hb _ _ Hk) as (? & ?). lia. }
  destruct (base_marked w w m' x e Hb ltac:(reflexivity) E ltac:(lia)) as [-> Hsaved].
  destruct (Hsaved (set_md w1 m') eq_refl eq_refl eq_refl Hmap) as [El Hb']. split_and!; [done | done |].
  intros _ t Et. destruct (Htok t Et) as [? ?]. split; [done | right; congruence].
Qed.

(** The end of [RequestStart] and of [PullResponseStart]. *)
Lemma sent_outcome r u out e w : sender_base w -> range_ok (local_mark w) out r u -> covers (store w) (local_mark w) out ->
  fits out (cx_token (w_cx w)) -> sent_code e ->
  wp (_ ← (if is_ok e || (e =? - E_TIMEOUT) then UpdateSendInfo r else mret tt);
      if is_ok e then save_marks FULL r u else mret e) outcome w.
Proof.
  intros Hb Hr Hc Hf (Ht & Hk & Hfin). rewrite (proj2 (Z.eqb_neq _ _) Ht). destruct (is_ok e) eqn:Ee; cbn [orb]; [by eapply marks_move |].
  wp_steps. split_and!; [done | done |]. by intros [-> | [-> | ->]].
Qed.

(** * Starting *)

Lemma remove_not_needed w : sender_base w -> wp RemoveDeviceDataIfNeed (fun e w' => e = E_OK /\ quiet w w') w.
Proof.
  intros Hb. unfold RemoveDeviceDataIfNeed. wp_steps. rewrite (proj2 (Z.leb_gt _ _)) by apply Hb. wp_steps. apply wp_on_meta.
  intros x m E. apply GetRemoveDataMark_view in E as [-> Hr]. cbn. rewrite (sb_clear _ Hb). wp_steps. split; [done |].
  apply quiet_same; [by apply settled_meta | done | done].
Qed.

Lemma query_check_full c : cx_isQuerySync (Tok := Tok) c = false -> QuerySyncCheck c = true.
Proof. intros E. unfold QuerySyncCheck. by rewrite E. Qed.

(** A page that has been read can be sent. *)
Record page_ready (out : list SendDataItem) (w : W) : Prop := {
  rd_base : sender_base w;
  rd_covers : covers (store w) (local_mark w) out;
  rd_token : fits out (cx_token (w_cx w))
}.

Lemma ready_quiet out w w' : page_ready out w -> quiet w w' -> page_ready out w'.
Proof.
  intros [Rb Rc Rt] Hq. pose proof Hq as (Hs & Hp & _). unfold place_of in Hp. injection Hp as Et _.
  split; rewrite ?Et, ?(settled_mark _ _ Hs); [by eapply base_quiet | eapply covers_grows; [apply Hs | done] | done].
Qed.

(** The packet of the page has been sent or not. *)
Lemma page_sent out w e w' : page_ready out w -> sent_code e -> ships (is_data (local_mark w) out) w w' ->
  wp (_ ← (if is_ok e || (e =? - E_TIMEOUT) then UpdateSendInfo (GetFullSyncDataTimeRange out (local_mark w)).1 else mret tt);
      if is_ok e then save_marks FULL (GetFullSyncDataTimeRange out (local_mark w)).1 (GetFullSyncDataTimeRange out (local_mark w)).2
      else mret e) outcome w'.
Proof.
  intros [Rb Rc Rt] He Hs. pose proof (settled_mark _ _ (proj1 Hs)) as El. pose proof Hs as (Hs' & Hp & _).
  unfold place_of in Hp. injection Hp as Et _. apply (sent_outcome _ _ out); rewrite ?El, ?Et; try done.
  - eapply base_ships; [exact Hs | | done]. intros p (E1 & E2 & E3). unfold sound_packet. rewrite E1, E2. split_and!; [done | | done]. apply (sb_mark _ Rb).
  - apply full_range_ok. destruct Rc as [Hx _]. intros x (x0 & -> & ? & _)%Hx. eauto.
  - eapply covers_grows; [apply Hs' | done].
Qed.

Lemma session_end_quiet (b : bool) x : stays quiet (if b then on_ds (St := St) (Tok := Tok) (fun d => SetSessionEndTimestamp d x) else mret tt).
Proof. quiet. Qed.

Lemma translate_success mode v c c' : c' = TranslateErrCodeIfNeed mode v c -> IsGetDataSuccessfully c' = true ->
  IsGetDataSuccessfully c = true \/ c = - E_EKEYREVOKED.
Proof. intros -> Hs. unfold TranslateErrCodeIfNeed in *. destruct (_ && _ && (c =? _)) eqn:E; [right | by left]. apply andb_prop in E as [_ ?%Z.eqb_eq]. done. Qed.

Lemma page_read_ready w c out w' : sender_base w -> page_read w c out w' ->
  IsGetDataSuccessfully c = true \/ c = - E_EKEYREVOKED -> page_ready out w'.
Proof.
  intros Hb [Pd Pc Pt Pm Pr] Hc. pose proof (settled_mark _ _ (proj1 Pd)) as El. split; [by eapply base_drift | by rewrite El |].
  destruct Hc as [Hc | Hc]; [by apply Pt |]. destruct (Pr Hc) as [_ ->]. by intros t.
Qed.

(** Reading failed. *)
Lemma page_read_failed w c out w' : sender_base w -> page_read w c out w' -> IsGetDataSuccessfully c = false -> outcome c w'.
Proof.
  intros Hb [Pd Pc Pt Pm Pr] Hc. split_and!; [apply Pm | by eapply base_drift |]. intros [-> | [E | E]]; [done | | by destruct Pm]. intros t. destruct (Pr E) as [_ ->]. done.
Qed.

Lemma RequestStart_outcome mode w : sender_ok w -> full_mode mode -> wp (RequestStart mode) outcome w.
Proof.
  intros Hok Hm. unfold RequestStart. wp_steps. rewrite query_check_full by apply Hok. cbn [negb]. wp_steps.
  eapply wp_mono; [by apply remove_not_needed, Hok |]. cbv beta. intros ? w1 [-> Hw1]. change (is_ok E_OK) with true. cbn [negb]. wp_steps.
  pose proof (base_quiet _ _ Hw1 (proj1 Hok)) as Hb1. pose proof (in_step_ships _ _ _ Hw1 (proj2 Hok)) as Hi1.
  eapply wp_mono; [by apply GetDataWithPerformanceRecord_reads |]. cbv beta. intros [c data] w2 Hp. cbn [fst snd] in Hp. cbv zeta.
  set (c' := TranslateErrCodeIfNeed _ _ c). destruct (IsGetDataSuccessfully c') eqn:Es; cbn [negb].
  2: { wp_steps. unfold c', TranslateErrCodeIfNeed in Es |- *. destruct (_ && _ && _); [done |]. by eapply page_read_failed. }
  pose proof (page_read_ready _ _ _ _ Hb1 Hp (translate_success _ _ _ _ eq_refl Es)) as Hr. wp_steps. destruct a; cbn [negb].
  2: { wp_steps. split_and!; [done | | by intros [? | [? | ?]]]. apply (base_quiet w2); [| apply Hr]. apply quiet_same; [by split; [reflexivity |..] | done | done]. }
  wp_steps. set (w3 := set_tick w2 _). assert (Hw3 : quiet w2 w3) by (apply quiet_same; [by split; [reflexivity |..] | done | done]).
  apply (ready_quiet _ _ w3) in Hr; [| done]. clearbody w3.
  eapply wp_mono; [apply cur_type_full, sb_full, Hr |]. cbv beta. intros ? w4 [-> Hw4]. pose proof (ready_quiet _ _ _ Hr Hw4) as Hr4. wp_steps.
  eapply wp_mono; [apply time_range_read, Hr4 |]. cbv beta. intros [r u] w5 [Er Hw5]. pose proof (ready_quiet _ _ _ Hr4 Hw5) as Hr5. wp_steps.
  eapply (wp_stays quiet); [apply session_end_quiet |]. intros [] w6 Hw6. pose proof (ready_quiet _ _ _ Hr5 Hw6) as Hr6. wp_steps.
  eapply wp_mono; [apply FillDataRequestPacket_fills; [apply Hr6 | done] |]. cbv beta. intros p w7 [Hp7 Hw7]. wp_steps.
  eapply wp_mono; [apply (SendDataPacket_sends (is_data (local_mark w6) (entries data))), Hp7 |]. cbv beta. intros e w8 [He Hw8].
  assert (El : local_mark w4 = local_mark w6) by (rewrite (settled_mark _ _ (proj1 Hw6)); symmetry; apply settled_mark, Hw5).
  rewrite El in Er. pose proof (page_sent _ w6 e w8 Hr6 He) as Hsent. rewrite <- Er in Hsent. apply Hsent.
  transitivity w7; [by eapply ships_mono | done].
Qed.

Lemma ok_quiet w w' : quiet w w' -> sender_ok w -> sender_ok w'.
Proof. intros Hq [Hb Hi]. split; [by eapply base_quiet | by eapply in_step_ships]. Qed.

Lemma PushStart_outcome w : sender_ok w -> wp PushStart outcome w.
Proof.
  intros Hok. unfold PushStart. wp_steps. eapply wp_mono; [apply cur_type_full, sb_full, Hok |]. cbv beta. intros ? w1 [-> Hw1].
  apply RequestStart_outcome; [by eapply ok_quiet | by left].
Qed.

(** A packet without data: it may be sent again, the mark stays. *)
Lemma UpdateSendInfo_same d w : sender_ok w ->
  wp (UpdateSendInfo (mkSyncTimeRange (local_mark w) d (local_mark w) d)) (fun _ w' => sender_ok w' /\ local_mark w' = local_mark w) w.
Proof.
  intros [Hb Hi]. unfold UpdateSendInfo. wp_steps. pose proof (sb_mark _ Hb) as Hm. set (w1 := set_ds w _).
  assert (Ei : exists k i, ds_reSendMap (w_ds w1) = <[k := i]> (ds_reSendMap (w_ds w)) /\ ri_start i = local_mark w /\ ri_end i = local_mark w).
  { unfold w1. cbn. do 2 eexists. split; [by destruct (cx_token _) |]. by cbn. }
  destruct Ei as (k & i & Ei & E1 & E2). destruct Hb as [Bsince Bo Bf Bv Bc Bp Bm Bmap Bs]. split; [| done]. split; [| exact Hi].
  split; try done. intros k' i'. rewrite Ei. intros [[_ <-] | [_ Hk]]%lookup_insert_Some; [| exact (Bmap _ _ Hk)].
  unfold sent_end. rewrite E1, E2, Z.ltb_irrefl. change (local_mark w1) with (local_mark w). lia.
Qed.

Lemma SetPacketId_fields p v w : wp (SetPacketId p v) (fun p' w' =>
  (rq_localWaterMark p' = rq_localWaterMark p /\ rq_data p' = rq_data p /\ rq_mode p' = rq_mode p) /\ quiet w w') w.
Proof. apply wp_both; [apply SetPacketId_quiet |]. unfold SetPacketId. destruct (_ <? _); by wp_steps. Qed.

Lemma PullRequestStart_outcome w : sender_ok w -> full_mode (cx_mode (w_cx w)) -> wp PullRequestStart outcome w.
Proof.
  intros Hok Hm. unfold PullRequestStart. wp_steps. rewrite query_check_full by apply Hok. cbn [negb]. wp_steps.
  eapply wp_mono; [by apply remove_not_needed, Hok |]. cbv beta. intros ? w1 [-> Hw1]. change (is_ok E_OK) with true. cbn [negb]. wp_steps.
  pose proof (ok_quiet _ _ Hw1 Hok) as Hok1. set (w2 := set_tick w1 _).
  assert (Hw2 : quiet w1 w2) by (apply quiet_same; [by split; [reflexivity |..] | done | done]). pose proof (ok_quiet _ _ Hw2 Hok1) as Hok2.
  destruct a; cbn [negb]; [| wp_steps; by apply outcome_ok]. clearbody w2. wp_steps.
  eapply wp_mono; [apply cur_type_full, sb_full, Hok2 |]. cbv beta. intros ? w3 [-> Hw3]. pose proof (ok_quiet _ _ Hw3 Hok2) as Hok3. wp_steps.
  eapply (wp_stays quiet); [apply GetQuerySyncId_quiet |]. intros q w4 Hw4. pose proof (ok_quiet _ _ Hw4 Hok3) as Hok4. wp_steps.
  eapply wp_mono; [apply peer_mark_read |]. cbv beta. intros ? w5 [-> Hw5]. pose proof (ok_quiet _ _ Hw5 Hok4) as Hok5. wp_steps.
  eapply wp_mono; [apply local_mark_read |]. cbv beta. intros ? w6 [-> Hw6]. pose proof (ok_quiet _ _ Hw6 Hok5) as Hok6. wp_steps.
  eapply (wp_stays quiet); [apply GetLocalDeleteSyncWaterMark_quiet |]. intros d w7 Hw7. pose proof (ok_quiet _ _ Hw7 Hok6) as Hok7. wp_steps.
  eapply (wp_stays quiet); [apply version_quiet |]. intros v w8 Hw8. pose proof (ok_quiet _ _ Hw8 Hok7) as Hok8. cbv zeta. wp_steps.
  eapply wp_mono; [apply SetPacketId_fields |]. cbv beta. intros p w9 [(E1 & E2 & E3) Hw9]. pose proof (ok_quiet _ _ Hw9 Hok8) as Hok9. wp_steps.
  assert (Hw59 : quiet w5 w9) by (transitivity w6; [done | transitivity w7; [done | by transitivity w8]]).
  pose proof (settled_mark _ _ (proj1 Hw59)) as El. rewrite <- El. rewrite <- El in E1.
  eapply wp_mono; [by apply UpdateSendInfo_same |]. cbv beta. intros [] w10 [Hok10 El10].
  eapply wp_mono; [apply (SendDataPacket_sends (eq p)); reflexivity |]. cbv beta. intros e w11 [[He _] Hw11]. apply outcome_ok; [done |].
  split; [| by eapply in_step_ships, Hok10]. eapply base_ships; [exact Hw11 | | apply Hok10]. intros ? <-. split_and!.
  - rewrite E3. cbn. by apply full_mode_type.
  - rewrite E1. cbn. apply (sb_mark _ (proj1 Hok9)).
  - rewrite E2. apply covers_nil.
Qed.

Lemma SendResetWatchDogPacket_quiet n : stays quiet (SendResetWatchDogPacket (St := St) (Tok := Tok) n).
Proof.
  unfold SendResetWatchDogPacket. apply stays_mbind; [apply _ | apply stays_ds; apply _ |]. intros mtu. destruct (_ || _); [apply stays_mret; apply _ |].
  apply stays_mbind; [apply _ | apply stays_cx; apply _ |]. intros c. apply stays_mbind; [apply _ | apply version_quiet |]. intros v.
  apply wp_stays_iff. intros w. wp_steps. eapply wp_mono; [apply new_message_made |]. cbv beta. intros [m|] w1 [Em Hw1]; wp_steps; [| done].
  eapply wp_mono; [apply (Send_sends (fun _ => False)) |]; cbv beta.
  - intros p E%head_request. unfold GetDataRequest in E. by rewrite (Em m eq_refl) in E.
  - intros e w2 [_ Hw2]. wp_steps. by transitivity w1.
Qed.

Lemma SendPullResponseDataPkt_sends code data w : sender_base w ->
  wp (SendPullResponseDataPkt code data) (fun e w' => sent_code e /\ ships (is_data (local_mark w) (entries data)) w w') w.
Proof.
  intros Hb. unfold SendPullResponseDataPkt. wp_steps. set (w1 := set_tick w _).
  assert (Hw1 : quiet w w1) by (apply quiet_same; [by split; [reflexivity |..] | done | done]).
  destruct a; cbn [negb]; [| wp_steps; split; [done | by eapply ships_mono]].
  pose proof (base_quiet _ _ Hw1 Hb) as Hb1. rewrite <- (settled_mark _ _ (proj1 Hw1)). 
  enough (wp (syncType ← cur_type; packet ← FillDataRequestPacket data code RESPONSE_PULL;
    let packetLen := rq_CalculateLen packet (GetMessageId syncType) in
    message ← new_message (GetMessageId syncType) (ODataRequest packet);
    match message with
    | None => mret (- E_OUT_OF_MEMORY)
    | Some message =>
      c ← cx id;
      let message := SetMessageHeadInfo message TYPE_REQUEST (cx_deviceId c) (cx_sequenceId c) (cx_responseSessionId c) in
      _ ← SendResetWatchDogPacket packetLen;
      Send message packetLen
    end) (fun e w' => sent_code e /\ ships (is_data (local_mark w1) (entries data)) w1 w') w1) as Hwp.
  { eapply wp_mono; [exact Hwp |]. cbv beta. intros e w' [? ?]. split; [done |]. transitivity w1; [by eapply ships_mono | done]. }
  clearbody w1. wp_steps. eapply wp_mono; [apply cur_type_full, sb_full, Hb1 |]. cbv beta. intros ? w2 [-> Hw2]. wp_steps.
  eapply wp_mono; [apply FillDataRequestPacket_fills; [by eapply base_quiet | by do 3 right] |]. cbv beta. intros p w3 [Hp Hw3]. cbv zeta. wp_steps.
  rewrite (settled_mark _ _ (proj1 Hw2)) in Hp. eapply wp_mono; [apply new_message_made |]. cbv beta. intros [m|] w4 [Em Hw4]; wp_steps.
  2: { split; [done |]. eapply ships_mono; [transitivity w2; [exact Hw2 | transitivity w3; [exact Hw3 | exact Hw4]] | done]. }
  eapply (wp_stays quiet); [apply SendResetWatchDogPacket_quiet |]. intros [] w5 Hw5.
  eapply wp_mono; [apply (Send_sends (is_data (local_mark w1) (entries data))) |]; cbv beta.
  - intros p' E. by rewrite (head_made _ _ _ _ _ _ _ (Em m eq_refl) E).
  - intros e w6 [He Hw6]. split; [done |]. transitivity w5; [| done]. eapply ships_mono;
      [transitivity w2; [exact Hw2 | transitivity w3; [exact Hw3 | transitivity w4; [exact Hw4 | exact Hw5]]] | done].
Qed.

Lemma PullResponseStart_outcome w : sender_ok w -> wp PullResponseStart outcome w.
Proof.
  intros Hok. unfold PullResponseStart. wp_steps.
  eapply wp_mono; [by apply GetDataWithPerformanceRecord_reads |]. cbv beta. intros [c data] w1 Hp. cbn [fst snd] in Hp.
  destruct (IsGetDataSuccessfully c) eqn:Es; cbn [negb]; wp_steps.
  2: { pose proof (page_read_failed _ _ _ _ (proj1 Hok) Hp Es) as (Htime & Hb1 & Hi1). pose proof (settled_mark _ _ (proj1 (pr_drift _ _ _ _ Hp))) as El.
    apply wp_mono with (Q := fun _ => ships (is_data (local_mark w1) (entries data)) w1).
    { destruct (_ <? _); [| by wp_steps]. eapply wp_mono; [by apply SendPullResponseDataPkt_sends |]. by intros ? ? [_ ?]. }
    intros ? w2 Hw2. wp_steps. split_and!; [done | | by intros ?; eapply in_step_ships, Hi1]. eapply base_ships; [exact Hw2 | | done].
    intros p (E1 & E2 & E3). unfold sound_packet. rewrite E1, E2. split_and!; [done | apply (sb_mark _ Hb1) |]. rewrite El. apply Hp. }
  pose proof (page_read_ready _ _ _ _ (proj1 Hok) Hp (or_introl Es)) as Hr. cbv zeta.
  eapply wp_mono; [apply cur_type_full, sb_full, Hr |]. cbv beta. intros ? w4 [-> Hw4]. pose proof (ready_quiet _ _ _ Hr Hw4) as Hr4. wp_steps.
  eapply wp_mono; [apply time_range_read, Hr4 |]. cbv beta. intros [r u] w5 [Er Hw5]. pose proof (ready_quiet _ _ _ Hr4 Hw5) as Hr5. wp_steps.
  eapply (wp_stays quiet); [apply session_end_quiet |]. intros [] w6 Hw6. pose proof (ready_quiet _ _ _ Hr5 Hw6) as Hr6. wp_steps.
  eapply wp_mono; [apply SendPullResponseDataPkt_sends, Hr6 |]. cbv beta. intros e w8 [He Hw8].
  assert (El : local_mark w4 = local_mark w6) by (rewrite (settled_mark _ _ (proj1 Hw6)); symmetry; apply settled_mark, Hw5).
  rewrite El in Er. pose proof (page_sent _ w6 e w8 Hr6 He) as Hsent. rewrite <- Er in Hsent. by apply Hsent.
Qed.

(** * The window *)

(** A round, or the loop: its end with an outcome, or on with the next. *)
Definition round_outcome (r : option Z) (w : W) : Prop :=
  match r with Some e => outcome e w | None => sender_ok w end.

Lemma quiet_ds w d : ds_reSendMap d = ds_reSendMap (w_ds w) -> quiet w (set_ds w d).
Proof. intros E. apply quiet_same; [by split; [reflexivity |..] | done | done]. Qed.

Lemma outcome_quiet e w w' : quiet w w' -> outcome e w -> outcome e w'.
Proof. intros Hq (Ht & Hb & Hi). split_and!; [done | by eapply base_quiet | intros ?; eapply in_step_ships; [exact Hq | auto]]. Qed.

Lemma no_skip c e : e <> - E_TIMEOUT -> IsSkipTimeoutError (Tok := Tok) c e = false.
Proof. intros He. unfold IsSkipTimeoutError. by rewrite (proj2 (Z.eqb_neq _ _) He). Qed.

Lemma inner_round_outcome w : sender_ok w -> wp inner_round round_outcome w.
Proof.
  intros Hok. unfold inner_round. wp_steps. destruct (_ || _); [wp_steps; by apply outcome_ok |].
  destruct (_ =? PULL); [wp_steps; by apply outcome_ok |]. wp_steps. set (w1 := set_cx w _).
  assert (Hok1 : sender_ok w1) by (eapply ok_quiet; [| exact Hok]; apply quiet_same; [by split; [reflexivity |..] | done | done]).
  apply wp_mono with (Q := outcome); [destruct (_ || _); [by apply PushStart_outcome | by apply PullResponseStart_outcome] |].
  intros e w2 Ho. destruct (_ && (e =? - E_EKEYREVOKED)) eqn:Er.
  { apply andb_prop in Er as [_ Er%Z.eqb_eq]. subst e. wp_steps. eapply outcome_quiet; [by apply quiet_ds | done]. }
  wp_steps. pose proof Ho as (Ht & Hb & Hi). rewrite no_skip by done. destruct (is_ok e) eqn:Ee; cbn [negb]; wp_steps; [| done].
  apply Z.eqb_eq in Ee. split; [done | by apply Hi; left].
Qed.

Lemma inner_loop_outcome fuel : forall w, sender_ok w -> wp (inner_loop fuel) round_outcome w.
Proof.
  induction fuel as [|fuel IH]; intros w Hok; cbn [inner_loop]; [by wp_steps |]. wp_steps.
  eapply wp_mono; [by apply inner_round_outcome |]. intros [e|] w1 Hr; [by wp_steps | by apply IH].
Qed.

Lemma InnerSyncStart_outcome w : sender_ok w -> wp InnerSyncStart outcome w.
Proof.
  intros Hok. unfold InnerSyncStart. wp_steps. eapply wp_mono; [by apply inner_loop_outcome |]. intros r w1 Hr.
  destruct r as [e|]; [by apply wp_ret | done].
Qed.

(** * Sending again *)

(** What may be sent again. *)
Definition again_ok (w : W) (i : DataSyncReSendInfo) : Prop :=
  0 <= rs_start i <= rs_end i /\ (if rs_start i <? rs_end i then rs_end i + 1 else rs_end i) <= local_mark w.

Lemma GetReSendData_reads i w : sender_ok w -> again_ok w i -> wp (GetReSendData i) (fun r w' =>
  r.1 <> - E_TIMEOUT /\ covers (store w') (rs_start i) (entries r.2) /\ quiet w w') w.
Proof.
  intros Hok [Hs He]. unfold GetReSendData, version. wp_steps.
  destruct (_ =? PULL); [wp_steps; split_and!; [done | apply covers_nil | reflexivity] |]. wp_steps.
  eapply wp_mono; [apply info_size |]. cbv beta. intros info w1 [Ei Hw1]. pose proof (ok_quiet _ _ Hw1 Hok) as Hok1. wp_steps.
  eapply wp_mono; [apply cur_type_full, sb_full, Hok1 |]. cbv beta. intros ? w2 [-> Hw2]. pose proof (ok_quiet _ _ Hw2 Hok1) as Hok2.
  change (is_query_type FULL) with false. cbn [negb]. wp_steps. apply wp_on_storage. intros [[c out] tok] st E.
  pose proof (sb_mark _ (proj1 Hok)) as Hm. assert (Hend : 0 <= rs_end i < INT64_MAX) by (destruct (_ <? _) eqn:El; lia).
  apply pl_read in E as [(Hg & Hc & _ & _ & Htime & _) _]; [| apply (sb_store _ (proj1 Hok2)) | lia | rewrite (wrap_small 64); unfold INT64_MAX in *; lia |].
  2: { rewrite Ei. apply packet_size_pos. }
  set (w3 := set_md w2 _). assert (Hw3 : quiet w w3).
  { transitivity w1; [done | transitivity w2; [done |]]. by apply quiet_same; [apply settled_store | ..]. }
  assert (Hc3 : covers (store w3) (rs_start i) out) by (cbn; by eapply covers_grows). clearbody w3. wp_steps.
  apply wp_mono with (Q := fun _ w' => covers (store w') (rs_start i) out /\ quiet w w').
  { destruct tok as [tok|]; [| by wp_steps]. apply wp_on_storage. intros [] st' [= <-]. cbn. pose proof (pl_release (store w3) tok) as Hg3.
    split; [by eapply covers_grows | transitivity w3; [done |]]. by apply quiet_same; [apply settled_store | ..]. }
  intros [] w4 [Hc4 Hw4]. destruct (_ || _).
  { wp_steps. cbn. split_and!; [done | done | transitivity w4; [done |]]. apply quiet_same; [by split; [reflexivity |..] | done | done]. }
  destruct (IsGetDataSuccessfully c); cbn [negb]; [| by wp_steps].
  eapply wp_mono; [apply intercept_keeps |]. cbv beta. intros r w5 [[Er Hr] Hw5]. rewrite Er. split_and!.
  - destruct Hr as [-> | [? _]]; done.
  - eapply covers_grows; [apply Hw5 | done].
  - by transitivity w4.
Qed.

Lemma resend_mode mode n : full_mode mode -> is_query_type (GetSyncType (GetReSendMode mode n FULL)) = false.
Proof. intros [-> | [-> | [-> | ->]]]; unfold GetReSendMode; cbn; by destruct (n =? 1). Qed.

Lemma FillRequestReSendPacket_fills i data code w : sender_ok w -> full_mode (cx_mode (w_cx w)) ->
  wp (FillRequestReSendPacket i data code) (fun p w' => is_data (rs_start i) (entries data) p /\ quiet w w') w.
Proof.
  intros Hok Hm. unfold FillRequestReSendPacket, version. wp_steps.
  eapply wp_mono; [apply cur_type_full, sb_full, Hok |]. cbv beta. intros ? w1 [-> Hw1]. wp_steps.
  eapply (wp_stays quiet); [apply GetQuerySyncId_quiet |]. intros q w2 Hw2. wp_steps.
  eapply wp_mono; [apply peer_mark_read |]. cbv beta. intros ? w3 [-> Hw3]. wp_steps.
  destruct (sg_GetCompressionOption _) as [need rate]. wp_steps.
  eapply (wp_stays quiet); [apply ChooseCompressAlgo_quiet |]. intros a w4 Hw4. cbv zeta. wp_steps.
  split; [| transitivity w1; [done | transitivity w2; [done | by transitivity w3]]].
  assert (Em : cx_mode (w_cx w2) = cx_mode (w_cx w)).
  { assert (Hw12 : quiet w w2) by (by transitivity w1). pose proof (se_task _ _ (proj1 Hw12)) as E. unfold task_of in E. by injection E. }
  pose proof (resend_mode _ (rs_sequenceId i) Hm) as Ht. unfold id. rewrite Em. generalize (GetReSendMode (cx_mode (w_cx w)) (rs_sequenceId i) FULL), Ht.
  intros md Hmd. unfold is_data. destruct (need && _), (_ <? _), (negb (_ =? PUSH)), (_ || _); cbn; done.
Qed.

Lemma save_covered r w : sender_ok w -> endTime r <= local_mark w ->
  wp (ds_SaveLocalWaterMark FULL r true) (fun e w' => quiet w w') w.
Proof.
  intros Hok Hr. unfold ds_SaveLocalWaterMark, GetQuerySyncId. wp_steps. change (is_query_type FULL) with false. cbn [negb]. wp_steps.
  eapply wp_mono; [apply local_mark_read |]. cbv beta. intros ? w1 [-> Hw1]. wp_steps. rewrite (proj2 (Z.leb_le _ _) Hr). by wp_steps.
Qed.

Lemma SendReSendPacket_sends p session n w : sender_ok w ->
  wp (SendReSendPacket p session n) (fun e w' => sent_code e /\ ships (eq p) w w') w.
Proof.
  intros Hok. unfold SendReSendPacket. wp_steps. eapply wp_mono; [apply cur_type_full, sb_full, Hok |]. cbv beta. intros ? w1 [-> Hw1]. wp_steps.
  eapply wp_mono; [apply new_message_made |]. cbv beta. intros [m|] w2 [Em Hw2]; wp_steps.
  2: { split; [done |]. eapply ships_mono; [transitivity w1; [exact Hw1 | exact Hw2] | done]. }
  eapply wp_mono; [apply (Send_sends (eq p)) |]; cbv beta.
  - intros p' E. by rewrite (head_made _ _ _ _ _ _ _ (Em m eq_refl) E).
  - intros e w3 [? ?]. split; [done |]. transitivity w2; [| done]. eapply ships_mono; [transitivity w1; [exact Hw1 | exact Hw2] | done].
Qed.

Lemma ReSend_outcome i w : sender_ok w -> full_mode (cx_mode (w_cx w)) -> again_ok w i -> wp (ReSend i) outcome w.
Proof.
  intros Hok Hm Ha. unfold ReSend. wp_steps. eapply wp_mono; [by apply GetReSendData_reads |]. cbv beta.
  intros [c data] w1 (Htime & Hc & Hw1). cbn [fst snd] in *. pose proof (ok_quiet _ _ Hw1 Hok) as Hok1.
  destruct (IsGetDataSuccessfully c); cbn [negb]; wp_steps; [| by apply outcome_ok].
  eapply wp_mono; [apply cur_type_full, sb_full, Hok1 |]. cbv beta. intros ? w2 [-> Hw2]. wp_steps. set (w3 := set_tick w2 _).
  assert (Hw3 : quiet w1 w3) by (transitivity w2; [done |]; apply quiet_same; [by split; [reflexivity |..] | done | done]).
  pose proof (ok_quiet _ _ Hw3 Hok1) as Hok3. destruct a; cbn [negb]; [| wp_steps; by apply outcome_ok]. clearbody w3. wp_steps.
  assert (Hw13 : quiet w w3) by (by transitivity w1). pose proof (se_task _ _ (proj1 Hw13)) as Et. unfold task_of in Et. injection Et as _ _ Em _.
  eapply wp_mono; [apply FillRequestReSendPacket_fills; [done | by rewrite Em] |]. cbv beta. intros p w4 [(E1 & E2 & E3) Hw4].
  pose proof (ok_quiet _ _ Hw4 Hok3) as Hok4. wp_steps.
  eapply wp_mono; [by apply SendReSendPacket_sends |]. cbv beta. intros e w6 [[He _] Hw6].
  assert (Hsound : sound_packet (store w4) p).
  { unfold sound_packet. rewrite E1, E2. split_and!; [done | apply Ha |]. eapply covers_grows; [| exact Hc]. etrans; [apply Hw3 | apply Hw4]. }
  assert (Hw : quiet w w4) by (by transitivity w3).
  assert (Hok6 : sender_ok w6).
  { split; [| eapply in_step_ships; [exact Hw6 | apply Hok4]]. eapply base_ships; [exact Hw6 | by intros ? <- | apply Hok4]. }
  assert (El : local_mark w6 = local_mark w) by (rewrite (settled_mark _ _ (proj1 Hw6)); apply settled_mark, Hw). wp_steps.
  apply wp_mono with (Q := fun _ => quiet w6).
  { destruct (_ && _); [| by wp_steps]. cbv zeta. apply save_covered; [done |]. cbn. rewrite El. destruct Ha as [? Ha].
    pose proof (sb_mark _ (proj1 Hok)). destruct (rs_start i <? rs_end i); [| lia]. rewrite (wrap_small 64); unfold INT64_MAX in *; lia. }
  intros ? w7 Hw7. wp_steps. apply outcome_ok; [done | by eapply ok_quiet].
Qed.

Lemma least_entry_elem {A} (m : gmap Z A) k a : least_entry m = Some (k, a) -> m !! k = Some a.
Proof.
  intros E. apply elem_of_map_to_list. unfold least_entry in E. revert k a E. induction (map_to_list m) as [|[k' a'] l IH]; cbn; [done |].
  intros k a. destruct (foldr _ _ l) as [[k2 a2]|]; [| intros E; simplify_eq; left].
  cbn [fst]. destruct (k' <? k2); intros E; simplify_eq; [left | right; by apply IH].
Qed.

Lemma ReSendData_outcome w : sender_ok w -> full_mode (cx_mode (w_cx w)) -> wp ReSendData outcome w.
Proof.
  intros Hok Hm. unfold ReSendData. wp_steps. cbn [id]. destruct (least_entry _) as [[k i]|] eqn:E; [| wp_steps; by apply outcome_ok].
  apply least_entry_elem in E. apply ReSend_outcome; [done | done |]. apply (sb_map _ (proj1 Hok)) in E as [? ?]. by split.
Qed.

(** * Start and continuation *)

(** Fewer packets to send again. *)
Lemma fewer_again w d : sender_ok w -> ds_reSendMap d ⊆ ds_reSendMap (w_ds w) -> sender_ok (set_ds w d).
Proof. intros [[Bsince Bo Bf Bv Bc Bp Bm Bmap Bs] Hi] Hd. split; [| exact Hi]. split; try done. cbn. intros k i Hk. eapply Bmap, lookup_weaken; done. Qed.

Lemma reset_sender_ok mode w : sender_ok w -> wp (ResetSyncStatus mode) (fun _ w' => sender_ok w' /\ task_of w' = task_of w) w.
Proof.
  intros Hok. unfold ResetSyncStatus. wp_steps. split; [| done]. apply fewer_again; [| apply map_empty_subseteq].
  eapply ok_quiet; [| exact Hok]. apply quiet_same; [by split; [reflexivity |..] | done | done].
Qed.

Lemma SyncStart_outcome mode w : sender_ok w -> full_mode (cx_mode (w_cx w)) -> wp (SyncStart mode) outcome w.
Proof.
  intros Hok Hm. unfold SyncStart. wp_steps. destruct (_ =? 0); cbn [negb]; [| by apply ReSendData_outcome]. wp_steps.
  eapply wp_mono; [by apply reset_sender_ok |]. cbv beta. intros [] w1 [Hok1 Et]. unfold task_of in Et. injection Et as _ _ Em _.
  wp_steps. apply wp_mono with (Q := outcome).
  { destruct (_ =? PUSH); [by apply PushStart_outcome |].
    destruct (_ =? PUSH_AND_PULL); [unfold PushPullStart; wp_steps; apply RequestStart_outcome; [done | by rewrite Em] |].
    destruct (_ =? PULL); [apply PullRequestStart_outcome; [done | by rewrite Em] | by apply PullResponseStart_outcome]. }
  intros e w2 Ho. wp_steps. pose proof Ho as (Ht & Hb & Hi). rewrite no_skip by done. destruct (is_ok e) eqn:Ee; cbn [negb]; [| by wp_steps].
  apply Z.eqb_eq in Ee. assert (Hok2 : sender_ok w2) by (split; [done | by apply Hi; left]).
  destruct (_ && _); [wp_steps; by apply outcome_ok | by apply InnerSyncStart_outcome].
Qed.

Lemma save_query_time_full x w : sender_ok w -> wp (save_query_time x) (fun e w' => e = E_OK /\ w' = w) w.
Proof. intros Hok. unfold save_query_time. wp_steps. cbn [id]. rewrite (sb_full _ (proj1 Hok)). by wp_steps. Qed.

Lemma SetOperationStatus_quiet s : stays quiet (SetOperationStatus (St := St) (Tok := Tok) s).
Proof. quiet. Qed.

(** All packets are acknowledged, or more are sent. *)
Lemma TryContinueSync_outcome message w : sender_ok w -> wp (TryContinueSync message) outcome w.
Proof.
  intros Hok. unfold TryContinueSync.
  destruct message as [message|]; [| wp_steps; by apply outcome_ok]. wp_steps. destruct a as [packet|]; [| wp_steps; by apply outcome_ok]. wp_steps.
  destruct (_ =? _); cbn [negb]; [| wp_steps; by apply outcome_ok]. destruct (ds_reSendMap _ !! _) as [info|]; [| wp_steps; by apply outcome_ok].
  wp_steps. set (w1 := set_ds w _). assert (Hok1 : sender_ok w1) by (apply fewer_again; [done | apply delete_subseteq]). clearbody w1.
  eapply wp_mono; [by apply save_query_time_full |]. cbv beta. intros ? w2 [-> ->]. change (is_ok E_OK) with true. cbn [negb]. wp_steps.
  destruct (ds_isAllDataHasSent _); cbn [negb].
  2: by apply InnerSyncStart_outcome.
  destruct (bool_decide _); [| wp_steps; by apply outcome_ok]. wp_steps.
  eapply (wp_stays quiet); [apply SetOperationStatus_quiet |]. intros [] w3 Hw3. unfold ClearSyncStatus. wp_steps. apply outcome_ok; [done |].
  apply fewer_again; [by eapply ok_quiet | apply map_empty_subseteq].
Qed.

End Sender.
