(* ===== verification/ControlSync.v ===== *)
(** Model of the control commands of [SingleVerDataSync] (syncer/src/single_ver_data_sync.cpp,
    single_ver_data_sync_utils.cpp): a device subscribes a query at another one, or gives a
    subscription up. *)

From S2P Require Import Prelude Memory CommTypes SerialBuffer ProtocolProto AppMessage SyncStorage CommitNotify QuerySync KvEntry.
From S2P Require Import SyncPacket DbAbility WaterMark MetaData TimeHelper SyncRead SubscribeManager SyncWorld SyncTask DataSync.
From Stdlib Require Import ZArith Lia.
From Stdlib Require Import Strings.Byte.
From stdpp Require Import base numbers list gmap.

Open Scope Z_scope.

(** [SubscribeRequest] with its head set; the query follows. *)
Definition new_subscribe (sendCode version controlCmd flag : Z) (query : QuerySyncObject) : SubscribeRequest :=
  mkSubscribe (cr_SetPacketHead sendCode version controlCmd flag) query.

(** Whether a message asks for the data of a subscribed query, and the query. *)
Definition IsNeedTriggerQueryAutoSync (inMsg : option SyncMessage) : option (bool * option QuerySyncObject) :=
  match inMsg with
  | None => Some (false, None)
  | Some inMsg =>
    if negb (messageId_ inMsg =? CONTROL_SYNC_MESSAGE) then Some (false, None)
    else
      packet ← GetControlRequest inMsg;
      match packet with
      | None => Some (false, None)
      | Some packet =>
        if (cr_controlCmdType packet =? SUBSCRIBE_QUERY_CMD) && (messageType_ inMsg =? TYPE_REQUEST) then
          subPacket ← GetSubscribe inMsg;
          subPacket ← subPacket;
          Some (true, Some (sr_query subPacket))
        else Some (false, None)
      end
  end.

Section Control.
Context `{Host} `{Heap} `{Zlib} `{ValueHash} `{DeviceHash} `{SyncEnv} {St Tok : Type} `{SyncStorage St}.
Context `{SyncGenericInterface St Tok}.
Abbreviation A_ := (Act St Tok).

Definition delete_local (device : DeviceID) (query : QuerySyncObject) : A_ unit :=
  try_sub (fun s => s ← DeleteLocalSubscribeQuery device query s; Some (tt, s)).

(** * Asking *)

Definition ControlCmdStartCheck : A_ Z :=
  c ← cx id;
  if negb (cx_mode c =? SUBSCRIBE_QUERY) && negb (cx_mode c =? UNSUBSCRIBE_QUERY) then mret (- E_INVALID_ARGS)
  else if (cx_mode c =? SUBSCRIBE_QUERY) && hasInKeys_ (cx_query c)
          && negb (GetAbilityItem (cx_remoteDbAbility c) INKEYS_QUERY =? SUPPORT_MARK) then mret (- E_NOT_SUPPORT)
  else if negb (cx_mode c =? SUBSCRIBE_QUERY) || cx_isReceivcPermitChecked c then mret E_OK
  else
    permitReceive ← CheckPermitReceiveData;
    if permitReceive : bool then _ ← on_cx (fun c => SetReceivcPermitCheck c true); mret E_OK
    else mret (- E_SECURITY_OPTION_CHECK_ERROR).

Definition FillControlRequestPacket : A_ SubscribeRequest :=
  c ← cx id;
  v ← version;
  let flag := if (cx_mode c =? SUBSCRIBE_QUERY) && cx_isAutoSubscribe c then IS_AUTO_SUBSCRIBE else 0 in
  mret (new_subscribe E_OK v (GetControlCmdType (cx_mode c)) flag (cx_query c)).

Definition SendControlPacket (packet : SubscribeRequest) : A_ Z :=
  message ← new_message CONTROL_SYNC_MESSAGE (OSubscribe packet);
  match message with
  | None => mret (- E_OUT_OF_MEMORY)
  | Some message =>
    c ← cx id;
    Send (SetMessageHeadInfo message TYPE_REQUEST (cx_deviceId c) (cx_sequenceId c) (cx_requestSessionId c))
      (sr_CalculateLen packet)
  end.

Definition ControlCmdStart : A_ Z :=
  c ← cx id;
  if negb (cx_subManager c) then mret (- E_INVALID_ARGS)
  else
    errCode ← ControlCmdStartCheck;
    if negb (is_ok errCode) then mret errCode
    else
      alloc ← ask env_alloc;
      if negb alloc then mret (- E_OUT_OF_MEMORY)
      else
        errCode ← (if cx_mode c =? SUBSCRIBE_QUERY
                   then try_sub (ReserveLocalSubscribeQuery (cx_deviceId c) (cx_query c)) else mret E_OK);
        if negb (is_ok errCode) then mret errCode
        else
          packet ← FillControlRequestPacket;
          errCode ← SendControlPacket packet;
          _ ← (if negb (is_ok errCode) && (cx_mode c =? SUBSCRIBE_QUERY) then delete_local (cx_deviceId c) (cx_query c)
               else mret tt);
          mret errCode.

Definition ControlAckErrorHandle : A_ unit :=
  c ← cx id;
  if cx_mode c =? SUBSCRIBE_QUERY then delete_local (cx_deviceId c) (cx_query c) else mret tt.

Definition ControlCmdAckRecv (message : SyncMessage) : A_ Z :=
  c ← cx id;
  if negb (cx_subManager c) then mret (- E_INVALID_ARGS)
  else if IsFeedbackError message then _ ← ControlAckErrorHandle; mret (- errorNo_ message)
  else
    packet ← defined (GetControlAck message);
    match packet with
    | None => mret (- E_INVALID_ARGS)
    | Some packet =>
      let cmdType := u32 (ca_controlCmdType packet) in
      if negb (is_ok (ca_recvCode packet)) then _ ← ControlAckErrorHandle; mret (ca_recvCode packet)
      else
        errCode ← (if cmdType =? SUBSCRIBE_QUERY_CMD
                   then try_sub (ActiveLocalSubscribeQuery (cx_deviceId c) (cx_query c))
                   else if cmdType =? UNSUBSCRIBE_QUERY_CMD
                   then try_sub (fun s => s ← RemoveLocalSubscribeQuery (cx_deviceId c) (cx_query c) s; Some (E_OK, s))
                   else mret E_OK);
        mret (if negb (is_ok errCode) then errCode else - E_NO_DATA_SEND)
    end.

(** * Being asked *)

Definition ControlCmdRequestRecvPre (message : SyncMessage) (packet : ControlRequestPacket) : A_ Z :=
  c ← cx id;
  if cx_remoteSoftwareVersion c <=? SOFTWARE_VERSION_BASE then DoAbilitySyncIfNeed message true
  else if INVALID_CONTROL_CMD <=? cr_controlCmdType packet then
    _ ← SendControlAck message (- E_NOT_SUPPORT) (cr_controlCmdType packet); mret (- E_WAIT_NEXT_MESSAGE)
  else mret E_OK.

Definition SubscribeRequestRecvPre (packet : SubscribeRequest) (message : SyncMessage) : A_ Z :=
  let controlCmdType := cr_controlCmdType (sr_control packet) in
  if negb (controlCmdType =? SUBSCRIBE_QUERY_CMD) then mret E_OK
  else
    errCode ← (if negb (SyncPacket.IsAutoSubscribe packet)
               then on_storage (fun st => sg_CheckAndInitQueryCondition (Tok := Tok) st (sr_query packet)) else mret E_OK);
    if negb (is_ok errCode) then _ ← SendControlAck message errCode controlCmdType; mret (- E_WAIT_NEXT_MESSAGE)
    else
      let mode := GetModeByControlCmdType controlCmdType in
      if INVALID_MODE <=? mode then
        _ ← SendControlAck message (- E_INVALID_ARGS) controlCmdType; mret (- E_WAIT_NEXT_MESSAGE)
      else
        errCode ← CheckPermitSendData mode;
        _ ← (if negb (is_ok errCode) then SendControlAck message errCode controlCmdType else mret E_OK);
        mret errCode.

Definition remove_trigger (queryId : list byte) : A_ Z := on_storage (fun st => sg_RemoveSubscribe (Tok := Tok) st queryId).

Definition SubscribeRequestRecv (message : SyncMessage) : A_ Z :=
  packet ← defined (GetSubscribe message);
  match packet with
  | None => mret (- E_INVALID_ARGS)
  | Some packet =>
    errCode ← SubscribeRequestRecvPre packet message;
    if negb (is_ok errCode) then mret errCode
    else
      let controlCmdType := cr_controlCmdType (sr_control packet) in
      let query := sr_query packet in
      c ← cx id;
      if negb (cx_subManager c) then _ ← SendControlAck message (- E_NOT_REGISTER) controlCmdType; mret (- E_INVALID_ARGS)
      else
        queryId ← defined (GetIdentify query);
        errCode ← on_storage (fun st => sg_AddSubscribe (Tok := Tok) st queryId query (SyncPacket.IsAutoSubscribe packet));
        if negb (is_ok errCode) then _ ← SendControlAck message errCode controlCmdType; mret errCode
        else
          errCode ← try_sub (ReserveRemoteSubscribeQuery (cx_deviceId c) query);
          if negb (is_ok errCode) then
            _ ← remove_trigger queryId;
            _ ← SendControlAck message errCode controlCmdType;
            mret errCode
          else
            errCode ← SendControlAck message E_OK controlCmdType;
            if negb (is_ok errCode) then
              _ ← remove_trigger queryId;
              _ ← try_sub (fun s => s ← DeleteRemoteSubscribeQuery (cx_deviceId c) query s; Some (tt, s));
              mret errCode
            else _ ← try_sub (ActiveRemoteSubscribeQuery (cx_deviceId c) query); mret errCode
  end.

Definition UnsubscribeRequestRecv (message : SyncMessage) : A_ Z :=
  packet ← defined (GetSubscribe message);
  match packet with
  | None => mret (- E_INVALID_ARGS)
  | Some packet =>
    let controlCmdType := cr_controlCmdType (sr_control packet) in
    let query := sr_query packet in
    c ← cx id;
    if negb (cx_subManager c) then _ ← SendControlAck message (- E_NOT_REGISTER) controlCmdType; mret (- E_INVALID_ARGS)
    else
      queryId ← defined (GetIdentify query);
      contained ← try_sub (fun s => b ← IsRemoteContainSubscribe (cx_deviceId c) query s; Some (b, s));
      errCode ← (if contained : bool then remove_trigger queryId else mret E_OK);
      if negb (is_ok errCode) then _ ← SendControlAck message errCode controlCmdType; mret errCode
      else
        errCode ← SendControlAck message E_OK controlCmdType;
        if negb (is_ok errCode) then mret errCode
        else
          _ ← try_sub (fun s => s ← RemoveRemoteSubscribeQuery (cx_deviceId c) query s; Some (tt, s));
          _ ← on_meta (fun m => (tt, RemoveQueryFromRecordSet m (cx_deviceId c) queryId));
          mret errCode
  end.

Definition ControlCmdRequestRecv (message : SyncMessage) : A_ Z :=
  packet ← defined (GetControlRequest message);
  match packet with
  | None => mret (- E_INVALID_ARGS)
  | Some packet =>
    errCode ← ControlCmdRequestRecvPre message packet;
    if negb (is_ok errCode) then mret errCode
    else if cr_controlCmdType packet =? SUBSCRIBE_QUERY_CMD then SubscribeRequestRecv message
    else if cr_controlCmdType packet =? UNSUBSCRIBE_QUERY_CMD then UnsubscribeRequestRecv message
    else mret errCode
  end.

(** Whoever subscribes is permitted: the security of the device is not looked at, and is not
    looked at later either, because the check counts as done. *)
Lemma subscriber_permitted (w w' : World St Tok) e : CheckPermitSendData SUBSCRIBE_QUERY w = Some (e, w') -> e = E_OK.
Proof.
  unfold CheckPermitSendData, cx, on_cx, mbind, act_bind, mret, act_ret.
  destruct (_ || _); [by intros [= <- _] |]. destruct (cx_isSendPermitChecked (id (w_cx w))); by intros [= <- _].
Qed.

End Control.
