(* ===== verification/SyncMachine.v ===== *)
(** Model of the state machine of a device: [SyncStateMachine] (syncer/src/sync_state_machine.cpp)
    and [SingleVerSyncStateMachine] (single_ver_sync_state_machine.cpp), with what the task
    context does through it. Every handler runs as a whole, as under [stateMachineLock_]. The
    exchanges of time and abilities are an interface. *)

From S2P Require Import Prelude Memory CommTypes SerialBuffer ProtocolProto AppMessage SyncStorage CommitNotify QuerySync KvEntry.
From S2P Require Import SyncPacket DbAbility WaterMark MetaData TimeHelper SyncRead SubscribeManager SyncWorld SyncTask DataSync ControlSync.
From Stdlib Require Import ZArith Lia.
From Stdlib Require Import Strings.Byte.
From stdpp Require Import base numbers list gmap.

Open Scope Z_scope.

Inductive Event :=
  | START_SYNC_EVENT | TIME_SYNC_FINISHED_EVENT | ABILITY_SYNC_FINISHED_EVENT | VERSION_NOT_SUPPOR_EVENT | SEND_DATA_EVENT
  | SEND_FINISHED_EVENT | RECV_FINISHED_EVENT | NEED_ABILITY_SYNC_EVENT | RESPONSE_TASK_FINISHED_EVENT
  | START_PULL_RESPONSE_EVENT | WAIT_ACK_EVENT | ALL_TASK_FINISHED_EVENT | TIME_OUT_EVENT | INNER_ERR_EVENT
  | WAIT_TIME_OUT_EVENT | RE_SEND_DATA_EVENT | CONTROL_CMD_EVENT | ANY_EVENT.

#[export] Instance event_eq : EqDecision Event.
Proof. solve_decision. Defined.

(** The number of [VERSION_NOT_SUPPOR_EVENT]. *)
Definition VERSION_NOT_SUPPOR_EVENT_number : Z := 4.

Definition TIME_SYNC_MESSAGE : Z := 1.
Definition ABILITY_SYNC_MESSAGE : Z := 7.
Definition UNKNOW_MESSAGE : Z := 10.
Definition CHECK_SUCCESS : Z := 0.
Definition LAST_NOTIFY : Z := 0xfe.
Definition MAXT_SAVE_DATA_NOTIFY_COUNT : Z := 15.
Definition FINISHED : Z := 3.

Definition OP_SECURITY_OPTION_CHECK_FAILURE : Z := 9.
Definition OP_BUSY_FAILURE : Z := 11.
Definition OP_SCHEMA_INCOMPATIBLE : Z := 12.
Definition OP_QUERY_FORMAT_FAILURE : Z := 13.
Definition OP_QUERY_FIELD_FAILURE : Z := 14.
Definition OP_NOT_SUPPORT : Z := 15.
Definition OP_INTERCEPT_DATA_FAIL : Z := 16.
Definition OP_MAX_LIMITS : Z := 17.
Definition OP_SCHEMA_CHANGED : Z := 18.

(** * The table *)

Definition STATE_SWITCH_TABLE_V3 : list (State * Event * State) :=
  [ (IDLE, START_SYNC_EVENT, TIME_SYNC);

    (TIME_SYNC, TIME_SYNC_FINISHED_EVENT, ABILITY_SYNC);
    (TIME_SYNC, TIME_OUT_EVENT, SYNC_TIME_OUT);
    (TIME_SYNC, INNER_ERR_EVENT, INNER_ERR);

    (ABILITY_SYNC, VERSION_NOT_SUPPOR_EVENT, INNER_ERR);
    (ABILITY_SYNC, ABILITY_SYNC_FINISHED_EVENT, START_INITIACTIVE_DATA_SYNC);
    (ABILITY_SYNC, TIME_OUT_EVENT, SYNC_TIME_OUT);
    (ABILITY_SYNC, INNER_ERR_EVENT, INNER_ERR);
    (ABILITY_SYNC, CONTROL_CMD_EVENT, SYNC_CONTROL_CMD);

    (START_INITIACTIVE_DATA_SYNC, NEED_ABILITY_SYNC_EVENT, ABILITY_SYNC);
    (START_INITIACTIVE_DATA_SYNC, TIME_OUT_EVENT, SYNC_TIME_OUT);
    (START_INITIACTIVE_DATA_SYNC, INNER_ERR_EVENT, INNER_ERR);
    (START_INITIACTIVE_DATA_SYNC, SEND_FINISHED_EVENT, START_PASSIVE_DATA_SYNC);
    (START_INITIACTIVE_DATA_SYNC, RE_SEND_DATA_EVENT, START_INITIACTIVE_DATA_SYNC);

    (START_PASSIVE_DATA_SYNC, SEND_FINISHED_EVENT, START_PASSIVE_DATA_SYNC);
    (START_PASSIVE_DATA_SYNC, RESPONSE_TASK_FINISHED_EVENT, WAIT_FOR_RECEIVE_DATA_FINISH);
    (START_PASSIVE_DATA_SYNC, TIME_OUT_EVENT, SYNC_TIME_OUT);
    (START_PASSIVE_DATA_SYNC, INNER_ERR_EVENT, INNER_ERR);
    (START_PASSIVE_DATA_SYNC, NEED_ABILITY_SYNC_EVENT, ABILITY_SYNC);
    (START_PASSIVE_DATA_SYNC, RE_SEND_DATA_EVENT, START_PASSIVE_DATA_SYNC);

    (WAIT_FOR_RECEIVE_DATA_FINISH, RECV_FINISHED_EVENT, SYNC_TASK_FINISHED);
    (WAIT_FOR_RECEIVE_DATA_FINISH, START_PULL_RESPONSE_EVENT, START_PASSIVE_DATA_SYNC);
    (WAIT_FOR_RECEIVE_DATA_FINISH, TIME_OUT_EVENT, SYNC_TIME_OUT);
    (WAIT_FOR_RECEIVE_DATA_FINISH, INNER_ERR_EVENT, INNER_ERR);
    (WAIT_FOR_RECEIVE_DATA_FINISH, NEED_ABILITY_SYNC_EVENT, ABILITY_SYNC);

    (SYNC_CONTROL_CMD, SEND_FINISHED_EVENT, SYNC_TASK_FINISHED);
    (SYNC_CONTROL_CMD, TIME_OUT_EVENT, SYNC_TIME_OUT);
    (SYNC_CONTROL_CMD, INNER_ERR_EVENT, INNER_ERR);
    (SYNC_CONTROL_CMD, NEED_ABILITY_SYNC_EVENT, ABILITY_SYNC);

    (SYNC_TASK_FINISHED, ALL_TASK_FINISHED_EVENT, IDLE);
    (SYNC_TASK_FINISHED, START_SYNC_EVENT, TIME_SYNC);

    (SYNC_TIME_OUT, ANY_EVENT, SYNC_TASK_FINISHED);
    (INNER_ERR, ANY_EVENT, SYNC_TASK_FINISHED) ].

(** [InitStateSwitchTable]: a later row of the same state and event replaces an earlier one. *)
Definition EventToState : Type := list (Event * State).
Definition event_find (event : Event) (m : EventToState) : option State :=
  snd <$> find (fun x => bool_decide (x.1 = event)) m.
Definition event_put (event : Event) (out : State) (m : EventToState) : EventToState :=
  (event, out) :: filter (fun x => x.1 <> event) m.

Definition switch_find (state : State) (t : list (State * EventToState)) : option EventToState :=
  snd <$> find (fun x => bool_decide (x.1 = state)) t.

Definition InitStateSwitchTable (rows : list (State * Event * State)) : list (State * EventToState) :=
  fold_left (fun t row =>
               let '(state, event, out) := row in
               match switch_find state t with
               | None => t ++ [(state, [(event, out)])]
               | Some _ => (fun x => if bool_decide (x.1 = state) then (state, event_put event out x.2) else x) <$> t
               end) rows [].

Definition switchTable : list (State * EventToState) := InitStateSwitchTable STATE_SWITCH_TABLE_V3.

(** * What the exchanges of time and abilities answer *)

(** [TimeSync] and [AbilitySync]: whether the time must be exchanged, the start of an exchange,
    the time offset with its status, what an answer does to the context, with its status. *)
Class Handshake (Tok : Type) := {
  hs_needTimeSync : nat -> bool;
  hs_timeSyncStart : nat -> Z;
  hs_timeOffset : nat -> Z * Z;
  hs_timeRequestRecv : nat -> SyncMessage -> Z;
  hs_timeAckRecv : nat -> SyncMessage -> Z;
  hs_abilityStart : nat -> Z;
  hs_abilityRequestRecv : nat -> SyncMessage -> TaskContext Tok -> Z * TaskContext Tok;
  hs_abilityAckRecv : nat -> SyncMessage -> TaskContext Tok -> Z * TaskContext Tok;
  hs_abilityAckNotifyRecv : nat -> SyncMessage -> TaskContext Tok -> TaskContext Tok;
  hs_ackCode : SyncMessage -> option Z
}.

Section Machine.
Context `{Host} `{Heap} `{Zlib} `{ValueHash} `{DeviceHash} `{SyncEnv} {St Tok : Type} `{SyncStorage St}.
Context `{SyncGenericInterface St Tok} `{Handshake Tok}.
Abbreviation A_ := (Act St Tok).

Definition machine {A} (f : Machine -> A) : A_ A := fun w => Some (f (w_machine w), w).
Definition on_machine (f : Machine -> Machine) : A_ unit := fun w => Some (tt, set_machine w (f (w_machine w))).
(** A call that changes the context and answers. *)
Definition on_context {A} (f : nat -> TaskContext Tok -> A * TaskContext Tok) : A_ A := fun w =>
  let '(a, c) := f (w_tick w) (w_cx w) in Some (a, set_tick (set_cx w c) (S (w_tick w))).

Definition set_state (s : State) (m : Machine) : Machine :=
  mkMachine s (watchDogStarted m) (saveDataNotifyTimerId m) (saveDataNotifyCount m) (currentRemoteVersionId m)
    (abilitySyncFinished m).
Definition set_watchDogStarted (b : bool) (m : Machine) : Machine :=
  mkMachine (currentState m) b (saveDataNotifyTimerId m) (saveDataNotifyCount m) (currentRemoteVersionId m)
    (abilitySyncFinished m).
Definition set_saveDataNotify (timerId count : Z) (m : Machine) : Machine :=
  mkMachine (currentState m) (watchDogStarted m) timerId count (currentRemoteVersionId m) (abilitySyncFinished m).
Definition set_currentRemoteVersionId (v : Z) (m : Machine) : Machine :=
  mkMachine (currentState m) (watchDogStarted m) (saveDataNotifyTimerId m) (saveDataNotifyCount m) v (abilitySyncFinished m).
Definition SetAbilitySyncFinishedStatus (b : bool) (m : Machine) : Machine :=
  mkMachine (currentState m) (watchDogStarted m) (saveDataNotifyTimerId m) (saveDataNotifyCount m)
    (currentRemoteVersionId m) b.

(** * Switching *)

(** There is one table, of the version of the machine. A state that is not in it is an error. *)
Definition SwitchMachineState (event : Event) : A_ Z :=
  m ← machine id;
  match switch_find (currentState m) switchTable with
  | None => _ ← on_machine (set_state INNER_ERR); mret E_OK
  | Some eventToState =>
    match event_find event eventToState with
    | None => mret (- E_NOT_FOUND)
    | Some s => _ ← on_machine (set_state s); mret E_OK
    end
  end.

Definition TransforTimeOutErrCodeToEvent (c : TaskContext Tok) : Event :=
  if cx_syncTaskRetryStatus c && (cx_retryTime c <? GetSyncRetryTimes c) then WAIT_TIME_OUT_EVENT else TIME_OUT_EVENT.

(** The second case is as in the source, which names the event there. *)
Definition TransformErrCodeToEvent (errCode : Z) (c : TaskContext Tok) : Event :=
  if errCode =? - E_TIMEOUT then TransforTimeOutErrCodeToEvent c
  else if errCode =? - VERSION_NOT_SUPPOR_EVENT_number then VERSION_NOT_SUPPOR_EVENT
  else if errCode =? - E_SEND_DATA then SEND_DATA_EVENT
  else if errCode =? - E_NO_DATA_SEND then SEND_FINISHED_EVENT
  else if errCode =? - E_RECV_FINISHED then RECV_FINISHED_EVENT
  else if errCode =? - E_NEED_ABILITY_SYNC then NEED_ABILITY_SYNC_EVENT
  else if errCode =? - E_NO_SYNC_TASK then ALL_TASK_FINISHED_EVENT
  else if errCode =? - E_NEED_PULL_REPONSE then START_PULL_RESPONSE_EVENT
  else if errCode =? - E_RE_SEND_DATA then RE_SEND_DATA_EVENT
  else INNER_ERR_EVENT.

(** * The watch dog *)

Definition StartWatchDog : A_ Z :=
  errCode ← StartTimer;
  _ ← (if is_ok errCode then on_machine (set_watchDogStarted true) else mret tt);
  mret errCode.

Definition ResetWatchDog : A_ Z :=
  m ← machine id;
  if negb (watchDogStarted m) then mret E_OK
  else
    _ ← on_cx StopTimer;
    _ ← on_cx (fun c => SetRetryTime c 0);
    StartTimer.

Definition StopWatchDog : A_ unit :=
  _ ← on_machine (set_watchDogStarted false);
  on_cx StopTimer.

Definition StartSaveDataNotify : A_ bool :=
  m ← machine id;
  if 0 <? saveDataNotifyTimerId m then _ ← on_machine (fun m => set_saveDataNotify (saveDataNotifyTimerId m) 0 m); mret false
  else
    '(errCode, timerId) ← ask env_timer;
    if negb (is_ok errCode) then mret false
    else _ ← on_machine (fun m => set_saveDataNotify timerId (saveDataNotifyCount m) m); mret true.

Definition StopSaveDataNotify : A_ unit :=
  m ← machine id;
  if saveDataNotifyTimerId m =? 0 then mret tt else on_machine (set_saveDataNotify 0 0).

(** The tasks of the two timers. *)
Definition DoSaveDataNotify (sessionId sequenceId inMsgId : Z) : A_ unit :=
  _ ← ResetWatchDog;
  m ← machine id;
  if MAXT_SAVE_DATA_NOTIFY_COUNT <=? saveDataNotifyCount m then StopSaveDataNotify
  else
    v ← version;
    _ ← SendSaveDataNotifyPacket v sessionId sequenceId inMsgId;
    on_machine (fun m => set_saveDataNotify (saveDataNotifyTimerId m) (u8 (saveDataNotifyCount m + 1)) m).

Definition DoFeedDogForSync (flag : SyncDirectionFlag) : A_ unit :=
  _ ← ResetWatchDog;
  d ← dog flag;
  if feedDogUpperLimit d <=? feedDogCnt d then StopFeedDogForSync flag
  else set_dog flag (mkWatchDog (refCount d) (feedDogUpperLimit d) (u8 (feedDogCnt d + 1)) (feedDogTimerId d)).

(** * The states *)

Definition PrepareNextSyncTask : A_ Z :=
  errCode ← StartWatchDog;
  if negb (is_ok errCode) then mret errCode
  else
    _ ← on_machine (fun m => if bool_decide (currentState m = IDLE) || bool_decide (currentState m = SYNC_TASK_FINISHED)
                             then m else set_state IDLE m);
    mret E_OK.

(** The loop of [ExecNextTask]; every round takes a target out of a queue. *)
Fixpoint exec_tasks (fuel : nat) : A_ (option Z) :=
  c ← cx id;
  if IsTargetQueueEmpty c then
    _ ← on_cx (fun c => SetTaskExecStatus c FINISHED);
    _ ← Clear;
    mret (Some (- E_NO_SYNC_TASK))
  else match fuel with
       | O => mret None
       | S fuel =>
         _ ← MoveToNextTarget;
         skip ← IsCurrentSyncTaskCanBeSkipped;
         if skip : bool then _ ← SetOperationStatus OP_FINISHED_ALL; exec_tasks fuel
         else
           errCode ← PrepareNextSyncTask;
           _ ← (if negb (is_ok errCode) then SetOperationStatus OP_FAILED else mret tt);
           mret (Some errCode)
       end.

Definition targets (c : TaskContext Tok) : nat := (length (cx_requestTargetQueue c) + length (cx_responseTargetQueue c))%nat.

Definition ExecNextTask : A_ Z :=
  n ← cx targets;
  r ← exec_tasks n;
  defined r.

(** [ClearDataMsg] empties the message schedule, a component of its own: it is told to. *)
Definition AbortInner : A_ unit :=
  killed ← ask env_killed;
  _ ← (if killed : bool then emit EClearDataMsg else mret tt);
  _ ← ClearSyncStatus;
  c ← cx id;
  _ ← (match cx_token c with
       | Some token => on_storage (fun st => (tt, sg_ReleaseContinueToken st token))
       | None => mret tt
       end);
  _ ← on_cx (fun c => SetContinueToken c None);
  Clear.

Definition DoInitiactiveDataSyncWithSlidingWindow : A_ Event :=
  mode ← cx cx_mode;
  errCode ←
    (if (mode =? PUSH) || (mode =? QUERY_PUSH) then
       _ ← SetOperationStatus OP_RECV_FINISHED; mode ← cx cx_mode; SyncStart mode
     else if (mode =? PULL) || (mode =? QUERY_PULL) then
       _ ← SetOperationStatus OP_SEND_FINISHED; mode ← cx cx_mode; SyncStart mode
     else if (mode =? PUSH_AND_PULL) || (mode =? QUERY_PUSH_PULL) || (mode =? RESPONSE_PULL) then SyncStart mode
     else mret (- E_NOT_SUPPORT));
  if is_ok errCode then mret WAIT_ACK_EVENT
  else
    c ← cx id;
    if (TransferSyncMode (cx_mode c) =? PUSH_AND_PULL) && (errCode =? - E_EKEYREVOKED) then mret WAIT_ACK_EVENT
    else
      let ignoreInnerErr := negb (cx_responseSessionId c =? 0) && negb (cx_requestSessionId c =? 0) in
      let event := TransformErrCodeToEvent errCode c in
      mret (if ignoreInnerErr && bool_decide (event = INNER_ERR_EVENT) then SEND_FINISHED_EVENT else event).

Definition PreStartPullResponse : A_ unit :=
  '(_, target) ← PopResponseTarget;
  _ ← on_cx (fun c => SetEndMark c (tg_endWaterMark target));
  _ ← on_cx (fun c => SetResponseSessionId c (tg_responseSessionId target));
  _ ← on_cx (fun c => SetMode c RESPONSE_PULL);
  _ ← on_cx ReSetSequenceId;
  _ ← on_cx (fun c => SetQuerySync c (tg_isQuerySync target));
  on_cx (fun c => SetQuery c (tg_query target)).

Definition DoPassiveDataSyncWithSlidingWindow : A_ Event :=
  c ← cx id;
  if is_empty (cx_responseTargetQueue c) then mret RESPONSE_TASK_FINISHED_EVENT
  else
    _ ← PreStartPullResponse;
    errCode ← SyncStart RESPONSE_PULL;
    mret (if negb (is_ok errCode) then RESPONSE_TASK_FINISHED_EVENT else WAIT_ACK_EVENT).

Definition DoInitiactiveControlSync : A_ Event :=
  _ ← SetOperationStatus OP_RECV_FINISHED;
  errCode ← ControlCmdStart;
  if is_ok errCode then mret WAIT_ACK_EVENT
  else
    _ ← on_cx (fun c => SetTaskErrCode c errCode);
    c ← cx id;
    mret (TransformErrCodeToEvent errCode c).

Definition DoWaitForDataRecv : A_ Event :=
  c ← cx id;
  if negb (is_empty (cx_responseTargetQueue c)) then mret START_PULL_RESPONSE_EVENT
  else
    status ← GetOperationStatus;
    if status =? OP_FINISHED_ALL then mret RECV_FINISHED_EVENT
    else if (TransferSyncMode (cx_mode c) =? PUSH_AND_PULL) && (status =? OP_EKEYREVOKED_FAILURE)
            && (SOFTWARE_VERSION_RELEASE_2_0 <? cx_remoteSoftwareVersion c)
    then mret RECV_FINISHED_EVENT
    else mret WAIT_ACK_EVENT.

Definition DoTimeSync : A_ Event :=
  need ← ask hs_needTimeSync;
  if need : bool then
    errCode ← ask hs_timeSyncStart;
    if is_ok errCode then mret WAIT_ACK_EVENT
    else
      _ ← on_cx (fun c => SetTaskErrCode c errCode);
      c ← cx id;
      mret (TransformErrCodeToEvent errCode c)
  else mret TIME_SYNC_FINISHED_EVENT.

Definition GetEventAfterTimeSync (mode : Z) : Event :=
  if (mode =? SUBSCRIBE_QUERY) || (mode =? UNSUBSCRIBE_QUERY) then CONTROL_CMD_EVENT else ABILITY_SYNC_FINISHED_EVENT.

Definition DoAbilitySync : A_ Event :=
  '(errCode, remoteCommunicatorVersion) ← ask env_remoteVersion;
  if negb (is_ok errCode) then mret INNER_ERR_EVENT
  else if remoteCommunicatorVersion =? 0 then
    _ ← on_cx (fun c => SetRemoteSoftwareVersion c SOFTWARE_VERSION_EARLIEST);
    mode ← cx cx_mode;
    mret (GetEventAfterTimeSync mode)
  else
    reset ← cx cx_isNeedResetAbilitySync;
    _ ← (if reset : bool then
           _ ← on_machine (SetAbilitySyncFinishedStatus false); on_cx (fun c => SetIsNeedResetAbilitySync c false)
         else mret tt);
    finished ← machine abilitySyncFinished;
    if finished : bool then mode ← cx cx_mode; mret (GetEventAfterTimeSync mode)
    else
      errCode ← ask hs_abilityStart;
      if negb (is_ok errCode) then c ← cx id; mret (TransformErrCodeToEvent errCode c) else mret WAIT_ACK_EVENT.

Definition DoSyncTaskFinished : A_ Event :=
  _ ← StopWatchDog;
  _ ← ClearSyncStatus;
  errCode ← ExecNextTask;
  if is_ok errCode then mret START_SYNC_EVENT else c ← cx id; mret (TransformErrCodeToEvent errCode c).

(** A subscription that did not get through is forgotten. *)
Definition forget_subscription : A_ unit :=
  c ← cx id;
  if (cx_mode c =? SUBSCRIBE_QUERY) && cx_subManager c then delete_local (cx_deviceId c) (cx_query c) else mret tt.

Definition DoTimeout : A_ Event :=
  _ ← forget_subscription;
  _ ← Abort_ OP_TIMEOUT;
  _ ← Clear;
  _ ← AbortInner;
  mret ANY_EVENT.

Definition statusMap : list (Z * Z) :=
  [ (- E_SCHEMA_MISMATCH, OP_SCHEMA_INCOMPATIBLE); (- E_EKEYREVOKED, OP_EKEYREVOKED_FAILURE);
    (- E_SECURITY_OPTION_CHECK_ERROR, OP_SECURITY_OPTION_CHECK_FAILURE); (- E_BUSY, OP_BUSY_FAILURE);
    (- E_NOT_PERMIT, OP_PERMISSION_CHECK_FAILED); (- E_TIMEOUT, OP_TIMEOUT);
    (- E_INVALID_QUERY_FORMAT, OP_QUERY_FORMAT_FAILURE); (- E_INVALID_QUERY_FIELD, OP_QUERY_FIELD_FAILURE);
    (- E_FEEDBACK_UNKNOWN_MESSAGE, OP_NOT_SUPPORT); (- E_FEEDBACK_COMMUNICATOR_NOT_FOUND, OP_COMM_ABNORMAL);
    (- E_NOT_SUPPORT, OP_NOT_SUPPORT); (- E_INTERCEPT_DATA_FAIL, OP_INTERCEPT_DATA_FAIL);
    (- E_MAX_LIMITS, OP_MAX_LIMITS); (- E_DISTRIBUTED_SCHEMA_CHANGED, OP_SCHEMA_CHANGED);
    (- E_NOT_REGISTER, OP_NOT_SUPPORT) ].

Definition GetSyncOperationStatus (errCode : Z) : Z :=
  match find (fun x => x.1 =? errCode) statusMap with Some (_, status) => status | None => OP_FAILED end.

Definition DoInnerErr : A_ Event :=
  c ← cx id;
  _ ← (if negb (cx_isCommNormal c) then _ ← forget_subscription; Abort_ OP_COMM_ABNORMAL
       else Abort_ (GetSyncOperationStatus (cx_taskErrCode c)));
  _ ← Clear;
  _ ← AbortInner;
  mret ANY_EVENT.

(** [stateMapping_]; [IDLE] has no action. *)
Definition state_action (s : State) : option (A_ Event) :=
  match s with
  | IDLE => None
  | TIME_SYNC => Some DoTimeSync
  | ABILITY_SYNC => Some DoAbilitySync
  | WAIT_FOR_RECEIVE_DATA_FINISH => Some DoWaitForDataRecv
  | SYNC_TASK_FINISHED => Some DoSyncTaskFinished
  | SYNC_TIME_OUT => Some DoTimeout
  | INNER_ERR => Some DoInnerErr
  | START_INITIACTIVE_DATA_SYNC => Some DoInitiactiveDataSyncWithSlidingWindow
  | START_PASSIVE_DATA_SYNC => Some DoPassiveDataSyncWithSlidingWindow
  | SYNC_CONTROL_CMD => Some DoInitiactiveControlSync
  end.

(** One round of [SyncStepInner]: whether there is another. *)
Definition step_round : A_ bool :=
  s ← machine currentState;
  match state_action s with
  | None => mret false
  | Some action =>
    event ← action;
    if bool_decide (event = WAIT_ACK_EVENT) then mret false
    else
      errCode ← SwitchMachineState event;
      s ← machine currentState;
      mret (is_ok errCode && negb (bool_decide (s = IDLE)))
  end.

Fixpoint step_loop (fuel : nat) : A_ bool :=
  match fuel with
  | O => mret false
  | S fuel => more ← step_round; if more : bool then step_loop fuel else mret true
  end.

(** A target that is taken out of its queue gives at most nine rounds. *)
Definition step_fuel (c : TaskContext Tok) : nat := (9 * targets c + 9)%nat.

Definition SyncStepInner : A_ unit :=
  n ← cx step_fuel;
  finished ← step_loop n;
  if finished : bool then mret tt else defined None.

Definition SwitchStateAndStep (event : Event) : A_ unit :=
  errCode ← SwitchMachineState event;
  if is_ok errCode then SyncStepInner else mret tt.

(** * Starting, time-outs, aborting *)

(** [SyncStep] leaves the step to another thread, which runs [SyncStepInnerLocked]. *)
Definition SyncStep : A_ unit :=
  errCode ← ask env_schedule;
  if is_ok errCode then emit EStepScheduled else mret tt.

Definition SyncStepInnerLocked : A_ unit :=
  killed ← ask env_killed;
  if killed : bool then mret tt else SyncStepInner.

Definition StartSyncInner : A_ Z :=
  errCode ← PrepareNextSyncTask;
  _ ← (if is_ok errCode then SwitchStateAndStep START_SYNC_EVENT else mret tt);
  mret errCode.

Definition StartSync : A_ Z :=
  killed ← ask env_killed;
  if killed : bool then mret (- E_OBJ_IS_KILLED) else StartSyncInner.

Definition StepToTimeout (timerId : Z) : A_ unit :=
  timer ← cx cx_timerId;
  if negb (timer =? timerId) then mret tt else SwitchStateAndStep TIME_OUT_EVENT.

Definition TimeoutCallback (timerId : Z) : A_ Z :=
  killed ← ask env_killed;
  if killed : bool then mret (- E_OBJ_IS_KILLED)
  else
    c ← cx id;
    if negb (cx_timerId c =? timerId) then mret (- E_UNEXPECTED_DATA)
    else if (GetSyncRetryTimes c <=? cx_retryTime c) || negb (cx_syncTaskRetryStatus c) then
      _ ← StepToTimeout timerId; mret E_OK
    else
      _ ← on_cx (fun c => SetRetryTime c (cx_retryTime c + 1));
      _ ← on_cx (fun c => SetRetryStatus c NEED_RETRY);
      _ ← ModifyTimer;
      _ ← SyncStep;
      mret E_OK.

(** The task that [SyncStateMachine::Abort] schedules. *)
Definition machine_Abort : A_ unit :=
  _ ← AbortInner;
  _ ← StopWatchDog;
  on_machine (set_state IDLE).

Definition CommErrAbort : A_ unit :=
  errCode ← SwitchMachineState INNER_ERR_EVENT;
  if is_ok errCode then SyncStep else mret tt.

Definition CommErrHandlerFuncInner (errCode sessionId : Z) : A_ unit :=
  c ← cx id;
  if negb (sessionId =? cx_requestSessionId c) then mret tt
  else if is_ok errCode then mret tt
  else _ ← on_cx (fun c => set_isCommNormal c false); CommErrAbort.

(** The requests that wait are over, one after the other. *)
Fixpoint kill_targets (queue : list SyncTarget) : A_ unit :=
  match queue with
  | [] => mret tt
  | t :: queue =>
    _ ← (match tg_operation t with
         | None => mret tt
         | Some ptr =>
           c ← cx id;
           op ← operation ptr;
           _ ← on_operation ptr (fun op => op_SetStatus op (cx_deviceId c)
                                   (if op_isAutoSync op then OP_FINISHED_ALL else OP_COMM_ABNORMAL));
           op ← operation ptr;
           if op_CheckIsAllFinished op then Finished ptr else mret tt
         end);
    kill_targets queue
  end.

Definition ClearAllSyncTask : A_ unit :=
  queue ← cx cx_requestTargetQueue;
  _ ← on_cx (fun c => set_requestTargetQueue c []);
  _ ← on_cx (fun c => set_responseTargetQueue c []);
  _ ← kill_targets queue;
  status ← cx cx_taskExecStatus;
  _ ← (if status =? RUNNING then _ ← on_cx (fun c => set_isCommNormal c false); CommErrAbort else mret tt);
  on_cx ResetLastPushTaskStatus.

(** * Messages *)

Definition IsPacketValid (inMsg : SyncMessage) (c : TaskContext Tok) : bool :=
  if (messageId_ inMsg <? TIME_SYNC_MESSAGE) || (UNKNOW_MESSAGE <=? messageId_ inMsg) then false
  else
    let isResponseType := messageType_ inMsg =? TYPE_RESPONSE in
    if isResponseType && (messageId_ inMsg =? CONTROL_SYNC_MESSAGE) && negb (sessionId_ inMsg =? cx_requestSessionId c)
    then false
    else if isResponseType && negb (messageId_ inMsg =? TIME_SYNC_MESSAGE)
            && negb (sessionId_ inMsg =? cx_requestSessionId c) && negb (sessionId_ inMsg =? cx_responseSessionId c)
    then false
    else true.

Definition MessageCallbackPre (inMsg : SyncMessage) : A_ Z :=
  killed ← ask env_killed;
  if killed : bool then mret (- E_OBJ_IS_KILLED)
  else c ← cx id; mret (if negb (IsPacketValid inMsg c) then - E_INVALID_ARGS else E_OK).

Definition IsNeedErrCodeHandle (sessionId : Z) (c : TaskContext Tok) : bool :=
  (sessionId =? cx_requestSessionId c) || (cx_remoteSoftwareVersion c =? SOFTWARE_VERSION_RELEASE_2_0).

Definition IsNeedResetWatchdog (inMsg : SyncMessage) (c : TaskContext Tok) : bool :=
  if IsNeedErrCodeHandle (sessionId_ inMsg) c then true
  else ((messageType_ inMsg =? TYPE_RESPONSE) || (messageType_ inMsg =? TYPE_NOTIFY))
       && (sessionId_ inMsg =? cx_responseSessionId c).

Definition reset_watch_dog (inMsg : SyncMessage) : A_ unit :=
  c ← cx id;
  if IsNeedResetWatchdog inMsg c then _ ← ResetWatchDog; mret tt else mret tt.

Definition PushPullDataRequestEvokeErrHandle : A_ unit :=
  c ← cx id;
  if (SOFTWARE_VERSION_RELEASE_2_0 <? cx_remoteSoftwareVersion c) && (TransferSyncMode (cx_mode c) =? PUSH_AND_PULL) then
    _ ← on_cx (fun c => SetTaskErrCode c (- E_EKEYREVOKED));
    _ ← SetOperationStatus OP_RECV_FINISHED;
    SwitchStateAndStep RECV_FINISHED_EVENT
  else
    _ ← on_cx (fun c => SetTaskErrCode c (- E_EKEYREVOKED));
    SwitchStateAndStep INNER_ERR_EVENT.

(** The statuses that the application gets to know. *)
Definition is_task_error (errCode : Z) : bool :=
  bool_decide (errCode ∈ [- E_BUSY; - E_DISTRIBUTED_SCHEMA_CHANGED; - E_DISTRIBUTED_SCHEMA_NOT_FOUND;
    - E_FEEDBACK_COMMUNICATOR_NOT_FOUND; - E_FEEDBACK_UNKNOWN_MESSAGE; - E_INTERCEPT_DATA_FAIL; - E_INVALID_QUERY_FIELD;
    - E_INVALID_QUERY_FORMAT; - E_MAX_LIMITS; - E_NOT_REGISTER; - E_NOT_SUPPORT; - E_SECURITY_OPTION_CHECK_ERROR]).

Definition DataRecvErrCodeHandle (sessionId errCode : Z) : A_ unit :=
  c ← cx id;
  if negb (IsNeedErrCodeHandle sessionId c) then mret tt
  else if is_ok errCode then mret tt
  else if errCode =? - E_RECV_FINISHED then
    _ ← SetOperationStatus OP_RECV_FINISHED; SwitchStateAndStep RECV_FINISHED_EVENT
  else if errCode =? - E_EKEYREVOKED then PushPullDataRequestEvokeErrHandle
  else
    _ ← (if is_task_error errCode then on_cx (fun c => SetTaskErrCode c errCode) else mret tt);
    SwitchStateAndStep INNER_ERR_EVENT.

Definition AddPullResponseTarget (inMsg : SyncMessage) (pullEndWatermark : Z) : A_ unit :=
  if pullEndWatermark =? 0 then mret tt
  else
    c ← cx id;
    if (cx_responseSessionId c =? sessionId_ inMsg) || FindResponseSyncTarget c (sessionId_ inMsg) then mret tt
    else
      packet ← defined (GetDataRequest inMsg);
      match packet with
      | None => mret tt
      | Some packet =>
        alloc ← ask env_alloc;
        if negb alloc then mret tt
        else
          let isQuery := messageId_ inMsg =? QUERY_SYNC_MESSAGE in
          let target := mkSyncTarget None (Some RESPONSE) RESPONSE_PULL pullEndWatermark (sessionId_ inMsg)
                          (if isQuery then rq_query packet else newQuerySyncObject) isQuery in
          errCode ← AddSyncTarget target;
          if negb (is_ok errCode) then mret tt
          else
            s ← machine currentState;
            if bool_decide (s = WAIT_FOR_RECEIVE_DATA_FINISH) then
              c ← cx id; SwitchStateAndStep (TransformErrCodeToEvent (- E_NEED_PULL_REPONSE) c)
            else mret tt
      end.

Definition HandleDataRequestRecv (inMsg : SyncMessage) : A_ Z :=
  _ ← ask env_timeout;
  '(errCode, offset) ← ask hs_timeOffset;
  if negb (is_ok errCode) then mret errCode
  else
    _ ← on_cx (fun c => SetTimeOffset c offset);
    _ ← DecRefCountOfFeedDogTimer RECEIVE;
    _ ← reset_watch_dog inMsg;
    isNeedStop ← StartSaveDataNotify;
    '(errCode, pullEndWaterkark) ← DataRequestRecv (Some inMsg);
    _ ← (if isNeedStop : bool then StopSaveDataNotify else mret tt);
    if errCode =? - E_NEED_ABILITY_SYNC then mret errCode
    else
      _ ← DataRecvErrCodeHandle (sessionId_ inMsg) errCode;
      _ ← (if 0 <? pullEndWaterkark then AddPullResponseTarget inMsg pullEndWaterkark else mret tt);
      mret E_OK.

Definition NeedAbilitySyncHandle : A_ unit :=
  m ← machine id;
  c ← cx id;
  _ ← (if currentRemoteVersionId m =? cx_remoteSoftwareVersionId c
       then on_cx (fun c => SetRemoteSoftwareVersion c 0)
       else on_machine (set_currentRemoteVersionId (cx_remoteSoftwareVersionId c)));
  _ ← on_machine (SetAbilitySyncFinishedStatus false);
  ClearSyncStatus.

Definition DataAckRecvErrCodeHandle (errCode : Z) (handleError : bool) : A_ unit :=
  if errCode =? - E_NEED_ABILITY_SYNC then NeedAbilitySyncHandle
  else if errCode =? - E_NOT_PERMIT then
    if handleError then SetOperationStatus OP_PERMISSION_CHECK_FAILED else mret tt
  else if is_task_error errCode || (errCode =? - E_EKEYREVOKED) then
    if handleError then on_cx (fun c => SetTaskErrCode c errCode) else mret tt
  else mret tt.

Definition ResponsePullError (errCode : Z) (ignoreInnerErr : bool) : A_ unit :=
  c ← cx id;
  let event := TransformErrCodeToEvent errCode c in
  SwitchStateAndStep (if ignoreInnerErr && bool_decide (event = INNER_ERR_EVENT) then RESPONSE_TASK_FINISHED_EVENT else event).

Definition HandleDataAckRecvWithSlidingWindow (errCode : Z) (inMsg : SyncMessage) (ignoreInnerErr : bool) : A_ unit :=
  _ ← (if errCode =? - E_RE_SEND_DATA then ClearSyncStatus else mret tt);
  if (errCode =? - E_NO_DATA_SEND) || (errCode =? - E_SEND_DATA) then
    ret ← TryContinueSync (Some inMsg);
    if ret =? - E_FINISHED then SwitchStateAndStep SEND_FINISHED_EVENT
    else if is_ok ret then mret tt
    else ResponsePullError ret ignoreInnerErr
  else ResponsePullError errCode ignoreInnerErr.

Definition HandleDataAckRecv (inMsg : SyncMessage) : A_ Z :=
  _ ← (if messageType_ inMsg =? TYPE_RESPONSE then DecRefCountOfFeedDogTimer SEND else mret tt);
  c ← cx id;
  if negb (IsPacketValid inMsg c) then mret (- E_INVALID_ARGS)
  else
    _ ← reset_watch_dog inMsg;
    c ← cx id;
    valid ← (if SOFTWARE_VERSION_RELEASE_2_0 <? cx_remoteSoftwareVersion c then AckPacketIdCheck (Some inMsg) else mret true);
    if negb valid then mret E_OK
    else
      isNeedStop ← StartSaveDataNotify;
      errCode ← AckRecv inMsg;
      _ ← (if isNeedStop : bool then StopSaveDataNotify else mret tt);
      if errCode =? - E_SAVE_DATA_NOTIFY then mret errCode
      else
        _ ← (if (errCode =? - E_NEED_ABILITY_SYNC) || (errCode =? - E_RE_SEND_DATA) then StopFeedDogForSync SEND
             else mret tt);
        c ← cx id;
        let ignoreInnerErr := (sessionId_ inMsg =? cx_responseSessionId c) && negb (cx_requestSessionId c =? 0) in
        _ ← DataAckRecvErrCodeHandle errCode (negb ignoreInnerErr);
        _ ← HandleDataAckRecvWithSlidingWindow errCode inMsg ignoreInnerErr;
        mret errCode.

Definition ControlAckRecvErrCodeHandle (errCode : Z) : A_ unit :=
  if errCode =? - E_NEED_ABILITY_SYNC then NeedAbilitySyncHandle
  else if errCode =? - E_NO_DATA_SEND then SetOperationStatus OP_SEND_FINISHED
  else if errCode =? - E_NOT_PERMIT then SetOperationStatus OP_PERMISSION_CHECK_FAILED
  else on_cx (fun c => SetTaskErrCode c errCode).

Definition HandleControlAckRecv (inMsg : SyncMessage) : A_ Z :=
  _ ← reset_watch_dog inMsg;
  errCode ← ControlCmdAckRecv inMsg;
  _ ← ControlAckRecvErrCodeHandle errCode;
  c ← cx id;
  _ ← SwitchStateAndStep (TransformErrCodeToEvent errCode c);
  mret E_OK.

(** Less the queue of requests, which is the data message schedule. *)
Definition DataPktRecv (inMsg : SyncMessage) : A_ Z :=
  if messageType_ inMsg =? TYPE_REQUEST then _ ← HandleDataRequestRecv inMsg; mret (- E_NOT_NEED_DELETE_MSG)
  else if (messageType_ inMsg =? TYPE_RESPONSE) || (messageType_ inMsg =? TYPE_NOTIFY) then HandleDataAckRecv inMsg
  else mret (- E_INVALID_ARGS).

Definition ControlPktRecv (inMsg : SyncMessage) : A_ Z :=
  if messageType_ inMsg =? TYPE_REQUEST then ControlCmdRequestRecv inMsg
  else if messageType_ inMsg =? TYPE_RESPONSE then HandleControlAckRecv inMsg
  else mret (- E_INVALID_ARGS).

Definition TimeMarkSyncRecv (inMsg : SyncMessage) : A_ Z :=
  _ ← ResetWatchDog;
  if messageType_ inMsg =? TYPE_REQUEST then ask (fun n => hs_timeRequestRecv n inMsg)
  else if messageType_ inMsg =? TYPE_RESPONSE then
    errCode ← ask (fun n => hs_timeAckRecv n inMsg);
    if negb (is_ok errCode) then
      c ← cx id;
      _ ← (if negb (sessionId_ inMsg =? 0) && (sessionId_ inMsg =? cx_requestSessionId c) then
             _ ← on_cx (fun c => SetTaskErrCode c errCode); CommErrAbort
           else mret tt);
      mret errCode
    else _ ← SwitchStateAndStep TIME_SYNC_FINISHED_EVENT; mret E_OK
  else mret (- E_INVALID_ARGS).

Definition JumpStatusAfterAbilitySync (mode : Z) : A_ unit :=
  if (mode =? SUBSCRIBE_QUERY) || (mode =? UNSUBSCRIBE_QUERY) then SwitchStateAndStep CONTROL_CMD_EVENT
  else SwitchStateAndStep ABILITY_SYNC_FINISHED_EVENT.

(** The abilities are known: the version they are of, and on with the task. *)
Definition ability_finished : A_ unit :=
  _ ← on_machine (SetAbilitySyncFinishedStatus true);
  id_ ← cx cx_remoteSoftwareVersionId;
  on_machine (set_currentRemoteVersionId id_).

Definition AbilitySyncRecv (inMsg : SyncMessage) : A_ Z :=
  c ← cx id;
  let mine := sessionId_ inMsg =? cx_requestSessionId c in
  if messageType_ inMsg =? TYPE_REQUEST then on_context (fun n => hs_abilityRequestRecv n inMsg)
  else if (messageType_ inMsg =? TYPE_RESPONSE) && mine then
    errCode ← on_context (fun n => hs_abilityAckRecv n inMsg);
    _ ← ResetWatchDog;
    c ← cx id;
    _ ← (if negb (is_ok errCode) then SwitchStateAndStep (TransformErrCodeToEvent errCode c)
         else if cx_remoteSoftwareVersion c <=? SOFTWARE_VERSION_RELEASE_2_0 then
           _ ← ability_finished; mode ← cx cx_mode; JumpStatusAfterAbilitySync mode
         else mret tt);
    mret E_OK
  else if messageType_ inMsg =? TYPE_NOTIFY then
    match hs_ackCode inMsg with
    | None => mret (- E_INVALID_ARGS)
    | Some ackCode =>
      if negb (ackCode =? CHECK_SUCCESS) && negb (ackCode =? LAST_NOTIFY) then
        _ ← SwitchStateAndStep INNER_ERR_EVENT; mret E_OK
      else if (ackCode =? LAST_NOTIFY) && mine then
        _ ← ability_finished;
        _ ← on_cx (fun c => SetIsSchemaSync c true);
        _ ← ResetWatchDog;
        mode ← cx cx_mode;
        _ ← JumpStatusAfterAbilitySync mode;
        mret E_OK
      else if negb (ackCode =? LAST_NOTIFY) then
        _ ← on_context (fun n c => (tt, hs_abilityAckNotifyRecv n inMsg c)); mret E_OK
      else mret E_OK
    end
  else mret (- E_NOT_SUPPORT).

Definition ReceiveMessageCallback (inMsg : SyncMessage) : A_ Z :=
  errCode ← MessageCallbackPre inMsg;
  if negb (is_ok errCode) then mret errCode
  else if messageId_ inMsg =? TIME_SYNC_MESSAGE then TimeMarkSyncRecv inMsg
  else if messageId_ inMsg =? ABILITY_SYNC_MESSAGE then AbilitySyncRecv inMsg
  else if (messageId_ inMsg =? DATA_SYNC_MESSAGE) || (messageId_ inMsg =? QUERY_SYNC_MESSAGE) then DataPktRecv inMsg
  else if messageId_ inMsg =? CONTROL_SYNC_MESSAGE then ControlPktRecv inMsg
  else mret (- E_NOT_SUPPORT).

End Machine.
