(* ===== verification/StepTermination.v ===== *)
(** The loop of [SyncStepInner] (syncer/src/sync_state_machine.cpp) ends: no task makes the state
    machine go round for ever, whatever the devices, the storage and the memory answer, as long as
    they do not answer with the two statuses that start a task again. *)

From S2P Require Import Prelude Memory Parcel CommTypes SerialBuffer ProtocolProto AppMessage SyncStorage CommitNotify QuerySync KvEntry.
From S2P Require Import SyncPacket DbAbility WaterMark MetaData TimeHelper SyncRead SubscribeManager SyncWorld SyncTask DataSync SyncLogic.
From S2P Require Import ControlSync SyncMachine.
From Stdlib Require Import ZArith Lia.
From Stdlib Require Import Strings.Byte.
From stdpp Require Import base numbers list gmap relations.

Open Scope Z_scope.

(** * Statuses *)

(** A status that does not take a task back to the exchange of abilities, or to its start. *)
Definition steady (e : Z) : Prop := e <> - E_NEED_ABILITY_SYNC /\ e <> - E_RE_SEND_DATA.

(** What the storage and the communicator answer is steady, and a token from the storage gives
    steady answers, too. *)
Class SteadyAnswers (St Tok : Type) `{SyncEnv} `{SyncStorage St} `{SyncGenericInterface St Tok} := {
  steady_token : Tok -> Prop;
  steady_read : forall st b e info, match sg_GetSyncData (Tok := Tok) st b e info with
    (c, _, tok, _) => steady c /\ (forall t, tok = Some t -> steady_token t) end;
  steady_query : forall st q range time info, match sg_GetSyncData_query (Tok := Tok) st q range time info with
    (c, _, tok, _) => steady c /\ (forall t, tok = Some t -> steady_token t) end;
  steady_next : forall st t info, steady_token t -> match sg_GetSyncDataNext (Tok := Tok) st t info with
    (c, _, tok, _) => steady c /\ (forall t, tok = Some t -> steady_token t) end;
  steady_remove : forall m d b c m', sg_RemoveDeviceData (Tok := Tok) m d b = Some (c, m') -> steady c;
  steady_intercept : forall st items d d', steady (sg_InterceptData (Tok := Tok) st items d d').1.1;
  steady_get : forall (st : St) k, steady (GetMetaData st k).1;
  steady_put : forall (st : St) k v, steady (PutMetaData st k v).1;
  steady_send : forall n m, steady (env_send n m)
}.

Section Steps.
Context `{Host} `{Heap} `{Zlib} `{ValueHash} `{DeviceHash} `{SyncEnv} {St Tok : Type} `{SyncStorage St}.
Context `{SyncGenericInterface St Tok} `{Handshake Tok} `{!SteadyAnswers St Tok}.
Abbreviation W := (World St Tok).
Abbreviation A_ := (Act St Tok).

Definition token_ok (w : W) : Prop := forall t, cx_token (w_cx w) = Some t -> steady_token t.

(** * What keeps the state and the queues *)

Definition queues (c : TaskContext Tok) : list SyncTarget * list SyncTarget := (cx_requestTargetQueue c, cx_responseTargetQueue c).

Record kept (w w' : W) : Prop := {
  kp_state : currentState (w_machine w') = currentState (w_machine w);
  kp_queues : queues (w_cx w') = queues (w_cx w);
  kp_token : token_ok w -> token_ok w'
}.

#[local] Instance kept_pre : PreOrder kept.
Proof.
  split; [done |]. intros w1 w2 w3 [S1 Q1 T1] [S2 Q2 T2]. split; [congruence | congruence | auto].
Qed.

Ltac kept_change :=
  lazymatch goal with
  | |- stays _ (on_world _) =>
    let E := fresh in intros ? ? ? E; unfold on_world in E; repeat case_match; try apply bind_Some in E as (? & _ & E); simplify_eq
  | _ => intros
  end; repeat split;
  first [done | cbv [base_Clear StopTimer PushAndPullKeyRevokHandle]; repeat case_match; done].
Ltac keeps := stays_with kept_change.

Lemma StartFeedDogForSync_kept t flag : stays kept (StartFeedDogForSync (St := St) (Tok := Tok) t flag).
Proof. keeps. Qed.
Lemma StopFeedDogForSync_kept flag : stays kept (StopFeedDogForSync (St := St) (Tok := Tok) flag).
Proof. keeps. Qed.
Lemma Send_kept m len : stays kept (Send (St := St) (Tok := Tok) m len).
Proof. keeps. Qed.
Lemma SetOperationStatus_kept s : stays kept (SetOperationStatus (St := St) (Tok := Tok) s).
Proof. keeps. Qed.
Lemma RemoveDeviceDataIfNeed_kept : stays kept (RemoveDeviceDataIfNeed (St := St) (Tok := Tok)).
Proof. keeps. Qed.

#[local] Hint Resolve StartFeedDogForSync_kept StopFeedDogForSync_kept Send_kept SetOperationStatus_kept RemoveDeviceDataIfNeed_kept : stays.

(** * What is answered *)

(** [m] answers with [P], and keeps the state and the queues. *)
Definition yields {A} (P : A -> Prop) (m : A_ A) : Prop := forall w, token_ok w -> wp m (fun a w' => P a /\ kept w w') w.

Lemma yields_ret {A} (P : A -> Prop) a : P a -> yields P (mret a).
Proof. intros Ha w _. by apply wp_ret. Qed.

Lemma yields_bind {A B} (Q : A -> Prop) (P : B -> Prop) m k :
  yields Q m -> (forall a, Q a -> yields P (k a)) -> yields P (m ≫= k).
Proof.
  intros Hm Hk w Hw. apply wp_bind. eapply wp_mono; [by apply Hm |]. intros a w1 [Ha K1].
  eapply wp_mono; [apply Hk; [done | by apply K1] |]. intros b w2 [Hb K2]. split; [done | by etrans].
Qed.

Lemma yields_kept {A} (m : A_ A) : stays kept m -> yields (fun _ => True) m.
Proof. intros Hm w _. eapply wp_stays; [exact Hm |]. done. Qed.

Lemma yields_skip {A B} (P : B -> Prop) (m : A_ A) k : stays kept m -> (forall a, yields P (k a)) -> yields P (m ≫= k).
Proof. intros Hm Hk. eapply yields_bind; [by apply yields_kept |]. auto. Qed.

Lemma yields_mono {A} (P Q : A -> Prop) (m : A_ A) : yields P m -> (forall a, P a -> Q a) -> yields Q m.
Proof. intros Hm HPQ w Hw. eapply wp_mono; [by apply Hm |]. intros a w' [? ?]. auto. Qed.

Lemma yields_stays {A} (P : A -> Prop) (m : A_ A) : stays kept m -> (forall w, wp m (fun a _ => P a) w) -> yields P m.
Proof. intros Hm HP w _. by apply wp_both. Qed.

(** A call whose answer is known to be steady. *)
Lemma yields_ask (f : nat -> Z) : (forall n, steady (f n)) -> yields steady (ask (St := St) (Tok := Tok) f).
Proof. intros Hf. apply yields_stays; [keeps |]. intros w. apply wp_ask. by intros ? ->. Qed.
Lemma yields_on_meta (f : Metadata St -> Z * Metadata St) :
  (forall m, steady (f m).1) -> yields steady (on_meta (Tok := Tok) f).
Proof.
  intros Hf. apply yields_stays; [keeps |]. intros w. apply wp_on_meta. intros a m E. specialize (Hf (w_md w)). by rewrite E in Hf.
Qed.
Lemma yields_try_meta {A} (P : A -> Prop) (f : Metadata St -> option (A * Metadata St)) :
  (forall m a m', f m = Some (a, m') -> P a) -> yields P (try_meta (Tok := Tok) f).
Proof. intros Hf. apply yields_stays; [keeps |]. intros w. apply wp_try_meta. eauto. Qed.
Lemma yields_on_storage {A} (P : A -> Prop) (f : St -> A * St) :
  (forall st, P (f st).1) -> yields P (on_storage (Tok := Tok) f).
Proof.
  intros Hf. apply yields_stays; [keeps |]. intros w. apply wp_on_storage. intros a st E.
  specialize (Hf (md_store (w_md w))). by rewrite E in Hf.
Qed.

Create HintDb yields.

Ltac steady_done := first [done | assumption | split; discriminate | cbn; case_match; first [done | assumption]].

(** A walk through the code: a status of a call is steady, or nothing is to be known of it. *)
Ltac yields_walk :=
  repeat first
    [ solve [eauto with yields]
    | lazymatch goal with
      | |- forall _, _ => intros ?
      | |- yields _ (mret _) => apply yields_ret; first [steady_done | solve [eauto with yields]]
      | |- yields _ (ask _) => apply yields_ask
      | |- @yields ?B ?P (@mbind _ _ ?A _ ?k ?m) =>
        first
          [ lazymatch A with
            | Z => apply (yields_bind (A := Z) (B := B) steady P m k); [solve [yields_walk] |]
            | (Z * _)%type => apply (yields_bind (A := A) (B := B) (fun r : A => steady (fst r)) P m k); [solve [yields_walk] |]
            end
          | apply (yields_skip (A := A) (B := B) P m k); [solve [keeps] |] ]
      | |- yields _ (if ?b then _ else _) => destruct b
      | |- yields _ (match ?x with _ => _ end) => destruct x
      | |- yields _ (let _ := _ in _) => cbv zeta
      end ].

#[local] Hint Resolve steady_send steady_intercept steady_get steady_put : yields.

Lemma Send_steady m len : yields steady (Send (St := St) (Tok := Tok) m len).
Proof.
  unfold Send. yields_walk. intros w _. by split.
Qed.
#[local] Hint Resolve Send_steady : yields.

Lemma SendDataPacket_steady t p : yields steady (SendDataPacket (St := St) (Tok := Tok) t p).
Proof. unfold SendDataPacket. yields_walk. Qed.
Lemma SendReSendPacket_steady p s n : yields steady (SendReSendPacket (St := St) (Tok := Tok) p s n).
Proof. unfold SendReSendPacket. yields_walk. Qed.
Lemma SendPullResponseDataPkt_steady c d : yields steady (SendPullResponseDataPkt (St := St) (Tok := Tok) c d).
Proof. unfold SendPullResponseDataPkt. yields_walk. Qed.
#[local] Hint Resolve SendDataPacket_steady SendReSendPacket_steady SendPullResponseDataPkt_steady : yields.

(** * Meta data *)

Lemma SetMetadataToDb_steady (m : Metadata St) k v : steady (SetMetadataToDb m k v).1.
Proof.
  unfold SetMetadataToDb. destruct (naturalStoragePtr_ m); [| done].
  pose proof (steady_put (md_store m) k v) as Hp. by destruct (PutMetaData _ _ _).
Qed.

Lemma SaveMetaDataValue_steady (m : Metadata St) d v : steady (SaveMetaDataValue m d v).1.
Proof.
  unfold SaveMetaDataValue. destruct (GetHashDeviceId m d true) as [h m1].
  pose proof (SetMetadataToDb_steady m1 h (SerializeMetaData v)) as Hs. destruct (SetMetadataToDb _ _ _) as [e m2].
  by destruct (negb _).
Qed.

Lemma ResetMetaDataAfterRemoveData_steady (m : Metadata St) d : steady (ResetMetaDataAfterRemoveData m d).1.
Proof.
  unfold ResetMetaDataAfterRemoveData. destruct (GetHashDeviceId m d true) as [h m1].
  destruct (metadataMap_ m1 !! h); [apply SaveMetaDataValue_steady | done].
Qed.

Lemma SerializeQueryWaterMark_steady q e v : SerializeQueryWaterMark q = Some (e, v) -> steady e.
Proof. unfold SerializeQueryWaterMark. intros ([? p] & _ & E)%bind_Some. by destruct (isError_ p); injection E as <- _. Qed.

Lemma DeSerializeQueryWaterMark_steady bs q e v : DeSerializeQueryWaterMark bs q = Some (e, v) -> steady e.
Proof. unfold DeSerializeQueryWaterMark. intros ([? p] & _ & E)%bind_Some. by destruct (isError_ p); injection E as <- _. Qed.

Lemma PutQueryWaterMarkToDB_steady h (st : St) k q now e v st' : PutQueryWaterMarkToDB h st k q now = Some ((e, v), st') -> steady e.
Proof.
  unfold PutQueryWaterMarkToDB, SaveQueryWaterMarkToDB, helper_SetMetadataToDb.
  destruct now as [t|]; [| by intros [= <- _ _]]. intros ([e1 st1] & E1 & [= <- _ _])%bind_Some.
  apply bind_Some in E1 as ([e2 v2] & E2%SerializeQueryWaterMark_steady & E). destruct (negb _); [by injection E as <- _ |].
  destruct (storage_ h); [injection E as E | by injection E as <- _].
  match type of E with PutMetaData ?a ?b ?c = _ => pose proof (steady_put a b c) as Hp; by rewrite E in Hp end.
Qed.

Lemma GetQueryWaterMark_steady h (st : St) q d now e v hs : GetQueryWaterMark h st q d now = Some ((e, v), hs) -> steady e.
Proof.
  unfold GetQueryWaterMark. destruct (GetHashQuerySyncDeviceId h d q) as [k h1]. unfold GetQueryWaterMarkInCacheAndDb.
  destruct (lru_Get _ _) as [[q1|] l]; [by intros [= <- _ _] |]. intros ([e1 q1] & E1 & E)%bind_Some.
  apply bind_Some in E as ([[e2 q2] st2] & E2 & E).
  assert (H1' : steady e1).
  { revert E1. unfold GetQueryWaterMarkFromDB, helper_GetMetadataFromDb. destruct (storage_ h1).
    - pose proof (steady_get st k) as Hg. destruct (GetMetaData st k) as [e0 bs]. destruct (negb (e0 =? _)); [by intros [= <- _] |].
      intros E1. by apply DeSerializeQueryWaterMark_steady in E1.
    - by intros [= <- _]. }
  assert (steady e2).
  { destruct (e1 =? _); [by eapply PutQueryWaterMarkToDB_steady | by injection E2 as <- _ _]. }
  destruct (negb _); by injection E as <- _ _.
Qed.

Lemma GetLastQueryTime_steady (m : Metadata St) q d t now r m' : GetLastQueryTime m q d t now = Some (r, m') -> steady r.1.
Proof.
  unfold GetLastQueryTime, read_mark, with_helper. intros ([[e v] m1] & E1 & E)%bind_Some.
  apply bind_Some in E1 as ([[e1 v1] [h st]] & E1%GetQueryWaterMark_steady & [= <- _ _]).
  destruct (negb _); by injection E as <- _.
Qed.

Lemma remove_steady d b : yields steady (try_meta (fun m => sg_RemoveDeviceData (St := St) (Tok := Tok) m d b)).
Proof. apply yields_try_meta. intros ? ? ?. apply steady_remove. Qed.
Lemma reset_steady d : yields steady (on_meta (Tok := Tok) (fun m : Metadata St => ResetMetaDataAfterRemoveData m d)).
Proof. apply yields_on_meta. intros. apply ResetMetaDataAfterRemoveData_steady. Qed.
Lemma last_query_time_steady q d t now :
  yields (fun r => steady r.1) (try_meta (Tok := Tok) (fun m : Metadata St => GetLastQueryTime m q d t now)).
Proof. apply yields_try_meta. intros ? ? ?. apply GetLastQueryTime_steady. Qed.
#[local] Hint Resolve remove_steady reset_steady last_query_time_steady : yields.

Lemma RemoveDeviceDataIfNeed_steady : yields steady (RemoveDeviceDataIfNeed (St := St) (Tok := Tok)).
Proof. unfold RemoveDeviceDataIfNeed. yields_walk. Qed.
#[local] Hint Resolve RemoveDeviceDataIfNeed_steady : yields.

(** * Compression *)

Definition run_steady (r : Run Z) : Prop := forall p e p', r p = Some (e, p') -> steady e.

Lemma then_write_steady m k : run_steady m -> run_steady k -> run_steady (then_write m k).
Proof.
  intros Hm Hk p e p' ([a p1] & E1 & E)%bind_Some. destruct (a =? E_OK); [by eapply Hk | injection E as <- _; by eapply Hm].
Qed.

(** The cases of a primitive that writes. *)
Ltac write_cases :=
  let E := fresh "E" in intros ? ? ? E;
  repeat first
    [ done
    | injection E as <- _; steady_done
    | lazymatch type of E with
      | mbind _ _ _ = _ => apply bind_Some in E as ([] & _ & E)
      | (if ?b then _ else _) _ = _ => destruct b
      | (if ?b then _ else _) = _ => destruct b
      | fail_with _ _ = _ => unfold fail_with in E
      | mret _ _ = _ => unfold mret, Parcel.run_ret in E
      | (let _ := _ in _) = _ => cbv zeta in E
      end ].

Lemma WriteInteger_steady n v : run_steady (WriteInteger n v).
Proof. unfold WriteInteger. write_cases. Qed.
Lemma WriteVectorChar_steady v : run_steady (WriteVectorChar v).
Proof. unfold WriteVectorChar, WriteVector. write_cases. Qed.
Lemma WriteString_steady v : run_steady (WriteString v).
Proof. unfold WriteString. write_cases. Qed.

Lemma SerializeDataByVersion_steady e v : run_steady (SerializeDataByVersion e v).
Proof.
  intros p c p' ([a p1] & E1 & E)%bind_Some. assert (Ha : steady a).
  { revert E1. unfold SerializeDataByFirstVersion. generalize p a p1.
    repeat first [apply WriteString_steady | apply then_write_steady; [first [apply WriteVectorChar_steady | apply WriteInteger_steady] |]]. }
  destruct (_ || _); [by injection E as <- _ |]. revert E. unfold SerializeDataByLaterVersion. generalize p1 c p'.
  apply then_write_steady; [apply WriteInteger_steady |]. destruct (_ <=? _); [apply WriteVectorChar_steady | by intros ? ? ? [= <- _]].
Qed.

Lemma SerializeDatas_steady l v : run_steady (SerializeDatas l v).
Proof.
  unfold SerializeDatas. apply then_write_steady; [apply WriteInteger_steady |]. intros p c p' ([[] p1] & _ & E)%bind_Some.
  revert E. generalize p1 c p'. induction l as [|[e|] l IH]; cbn [write_entries]; [by intros ? ? ? [= <- _] | | done].
  apply then_write_steady; [| done]. unfold SerializeData. apply then_write_steady; [apply WriteInteger_steady |].
  intros q x q' ([[[a b] d] q1] & E1 & [= <- _])%bind_Some. revert E1. unfold AdaptToVersion.
  destruct (version_unsupported v); [by intros [= <- _ _ _] |].
  intros ([x1 q2] & E1%SerializeDataByVersion_steady & [= <- _ _ _])%bind_Some. done.
Qed.

Lemma instance_zlib algo : GetInstance registered_compression algo = if decide (algo = ZLIB) then Some zlib_instance else None.
Proof.
  unfold GetInstance. change (compressionAlgos registered_compression) with (<[ZLIB := zlib_instance]> (∅ : gmap Z DataCompression)).
  destruct (decide (algo = ZLIB)) as [->|Hn]; [by rewrite lookup_insert_eq | by rewrite lookup_insert_ne].
Qed.

Lemma Compress_steady l d i r : Compress l d i = Some r -> steady r.1.
Proof.
  unfold Compress. destruct (_ =? 0); [by intros [= <-] |]. intros ([e p] & E1%SerializeDatas_steady & E)%bind_Some.
  destruct (negb _); [by injection E as <- |]. rewrite instance_zlib in E. destruct (decide _); [| by injection E as <-].
  injection E as <-. cbn. unfold zlib_Compress. destruct (_ || _); [done |]. destruct (compress _ _) as [z [o n]].
  by destruct (negb _).
Qed.

Lemma compressed_steady l d i : yields (fun r => steady r.1) (defined (St := St) (Tok := Tok) (Compress l d i)).
Proof. apply yields_stays; [keeps |]. intros w. apply wp_defined. intros r. apply Compress_steady. Qed.
Lemma InterceptData_steady items : yields (fun r => steady r.1) (InterceptData (St := St) (Tok := Tok) items).
Proof. unfold InterceptData. apply yields_skip; [keeps |]. intros d. apply yields_on_storage. intros st. apply steady_intercept. Qed.
#[local] Hint Resolve compressed_steady InterceptData_steady : yields.

(** * Reading *)

Lemma intercept_and_compress_steady e l : steady e -> yields (fun r => steady r.1) (intercept_and_compress (St := St) (Tok := Tok) e l).
Proof. intros He. unfold intercept_and_compress. yields_walk. Qed.

(** What is read comes with a steady status and a steady token, which is remembered. *)
Definition read_ok (r : Z * list SendDataItem * option Tok) : Prop := steady r.1.1 /\ forall t, r.2 = Some t -> steady_token t.

Lemma remember_steady (read : A_ (Z * list SendDataItem * option Tok)) : yields read_ok read ->
  yields (fun r => steady r.1)
    ('(errCode, outData, token) ← read; _ ← on_cx (fun c => SetContinueToken c token); mret (errCode, outData)).
Proof.
  intros Hr. eapply yields_bind; [exact Hr |]. intros [[e l] tok] [He Ht].
  apply (yields_bind (fun _ => True)); [| intros [] _; by apply yields_ret].
  intros w _. apply wp_on_cx. split; [done |]. by split.
Qed.

Lemma context_steady : yields (fun c => forall t, cx_token c = Some t -> steady_token t) (cx (St := St) (Tok := Tok) id).
Proof. intros w Hw. by apply wp_cx. Qed.

Lemma GetUnsyncData_steady n : yields (fun r => steady r.1) (GetUnsyncData (St := St) (Tok := Tok) n).
Proof.
  unfold GetUnsyncData. do 3 (apply yields_skip; [keeps |]; intros ?). destruct (_ <? _); [by apply yields_ret |].
  do 3 (apply yields_skip; [keeps |]; intros ?). apply remember_steady. destruct (negb _).
  - apply yields_on_storage. intros st. match goal with |- context [sg_GetSyncData ?a ?b ?c ?d] => pose proof (steady_read a b c d) as Hr end.
    by destruct (sg_GetSyncData _ _ _ _) as [[[c l] tok] st'].
  - do 3 (apply yields_skip; [keeps |]; intros ?). eapply yields_bind; [apply last_query_time_steady |]. intros [e t] He.
    destruct (negb _); [by apply yields_ret |]. apply yields_on_storage. intros st.
    match goal with |- context [sg_GetSyncData_query ?a ?b ?c ?d ?e] => pose proof (steady_query a b c d e) as Hr end.
    by destruct (sg_GetSyncData_query _ _ _ _ _) as [[[c l] tok] st'].
Qed.

Lemma GetNextUnsyncData_steady t n : steady_token t -> yields (fun r => steady r.1) (GetNextUnsyncData (St := St) (Tok := Tok) t n).
Proof.
  intros Ht. unfold GetNextUnsyncData. apply yields_skip; [keeps |]. intros info. apply remember_steady. apply yields_on_storage.
  intros st. pose proof (steady_next st t info Ht) as Hr. by destruct (sg_GetSyncDataNext _ _ _) as [[[c l] tok] st'].
Qed.

Lemma GetData_steady n : yields (fun r => steady r.1) (GetData (St := St) (Tok := Tok) n).
Proof.
  unfold GetData. apply yields_skip; [keeps |]. intros []. eapply yields_bind; [apply context_steady |]. intros c Hc.
  apply (yields_bind (fun r => steady r.1)); [| intros [e l] He; by destruct (IsGetDataSuccessfully e); apply yields_ret].
  destruct (_ =? NEED_RETRY); [apply yields_skip; [keeps |]; intros []; apply GetUnsyncData_steady |].
  destruct (cx_token c) as [t|] eqn:Et; [by apply GetNextUnsyncData_steady, Hc | apply GetUnsyncData_steady].
Qed.
#[local] Hint Resolve GetData_steady : yields.

Lemma GetDataWithPerformanceRecord_steady : yields (fun r => steady r.1) (GetDataWithPerformanceRecord (St := St) (Tok := Tok)).
Proof.
  unfold GetDataWithPerformanceRecord. yields_walk. by apply intercept_and_compress_steady.
Qed.
#[local] Hint Resolve GetDataWithPerformanceRecord_steady : yields.

(** * Starting *)

Lemma GetSyncDataTimeRange_kept t l : stays kept (GetSyncDataTimeRange (St := St) (Tok := Tok) t l).
Proof. keeps. Qed.
Lemma FillDataRequestPacket_kept d c m : stays kept (FillDataRequestPacket (St := St) (Tok := Tok) d c m).
Proof. keeps. Qed.
Lemma FillRequestReSendPacket_kept i d c : stays kept (FillRequestReSendPacket (St := St) (Tok := Tok) i d c).
Proof. keeps. Qed.
Lemma ds_SaveLocalWaterMark_kept t r b : stays kept (ds_SaveLocalWaterMark (St := St) (Tok := Tok) t r b).
Proof. keeps. Qed.
Lemma SendPullResponseDataPkt_kept c d : stays kept (SendPullResponseDataPkt (St := St) (Tok := Tok) c d).
Proof. keeps. Qed.
#[local] Hint Resolve GetSyncDataTimeRange_kept FillDataRequestPacket_kept FillRequestReSendPacket_kept ds_SaveLocalWaterMark_kept
  SendPullResponseDataPkt_kept : stays.

Lemma save_marks_steady t r u : yields steady (save_marks (St := St) (Tok := Tok) t r u).
Proof. unfold save_marks. yields_walk. Qed.

Lemma translate_steady mode v e : steady e -> steady (TranslateErrCodeIfNeed mode v e).
Proof. intros He. unfold TranslateErrCodeIfNeed. by destruct (_ && _). Qed.
#[local] Hint Resolve save_marks_steady translate_steady : yields.

Lemma RequestStart_steady mode : yields steady (RequestStart (St := St) (Tok := Tok) mode).
Proof. unfold RequestStart. yields_walk. Qed.

Lemma PullRequestStart_steady : yields steady (PullRequestStart (St := St) (Tok := Tok)).
Proof. unfold PullRequestStart. yields_walk. Qed.

Lemma PullResponseStart_steady : yields steady (PullResponseStart (St := St) (Tok := Tok)).
Proof. unfold PullResponseStart. yields_walk. Qed.

#[local] Hint Resolve RequestStart_steady PullRequestStart_steady PullResponseStart_steady : yields.

Lemma PushStart_steady : yields steady (PushStart (St := St) (Tok := Tok)).
Proof. unfold PushStart. yields_walk. Qed.
Lemma PushPullStart_steady : yields steady (PushPullStart (St := St) (Tok := Tok)).
Proof. unfold PushPullStart. yields_walk. Qed.
#[local] Hint Resolve PushStart_steady PushPullStart_steady : yields.

(** Of what may be missing. *)
Definition if_any (o : option Z) : Prop := forall e, o = Some e -> steady e.

Lemma any_some e : steady e -> if_any (Some e).
Proof. by intros He ? [= <-]. Qed.
Lemma any_none : if_any None.
Proof. done. Qed.
#[local] Hint Resolve any_some any_none : yields.
#[local] Hint Extern 1 (steady (- _)) => (split; discriminate) : yields.
#[local] Hint Extern 1 (steady E_OK) => (split; discriminate) : yields.

Lemma inner_round_steady : yields if_any (inner_round (St := St) (Tok := Tok)).
Proof. unfold inner_round. yields_walk. Qed.

Lemma inner_loop_steady n : yields if_any (inner_loop (St := St) (Tok := Tok) n).
Proof.
  induction n as [|n IH]; cbn [inner_loop]; [by apply yields_ret |]. eapply yields_bind; [apply inner_round_steady |].
  intros [e|] He; [| done]. by apply yields_ret.
Qed.

Lemma defined_any (o : option Z) : if_any o -> yields steady (defined (St := St) (Tok := Tok) o).
Proof. intros Ho. apply yields_stays; [keeps |]. intros w. apply wp_defined. auto. Qed.

Lemma InnerSyncStart_steady : yields steady (InnerSyncStart (St := St) (Tok := Tok)).
Proof.
  unfold InnerSyncStart. apply yields_skip; [keeps |]. intros n. eapply yields_bind; [apply inner_loop_steady |].
  intros o Ho. by apply defined_any.
Qed.

Lemma GetReSendData_steady i : yields (fun r => steady r.1) (GetReSendData (St := St) (Tok := Tok) i).
Proof.
  unfold GetReSendData. apply yields_skip; [keeps |]. intros c. destruct (_ =? PULL); [by apply yields_ret |].
  do 3 (apply yields_skip; [keeps |]; intros ?). apply (yields_bind read_ok).
  { destruct (negb _); apply yields_on_storage; intros st.
    - match goal with |- context [sg_GetSyncData ?a ?b ?c ?d] => pose proof (steady_read a b c d) as Hr end.
      by destruct (sg_GetSyncData _ _ _ _) as [[[? ?] ?] ?].
    - match goal with |- context [sg_GetSyncData_query ?a ?b ?c ?d ?e] => pose proof (steady_query a b c d e) as Hr end.
      by destruct (sg_GetSyncData_query _ _ _ _ _) as [[[? ?] ?] ?]. }
  intros [[e l] tok] [He _]. cbn [fst snd] in He. yields_walk. by apply intercept_and_compress_steady.
Qed.

Lemma ReSendData_steady : yields steady (ReSendData (St := St) (Tok := Tok)).
Proof.
  unfold ReSendData, ReSend. apply yields_skip; [keeps |]. intros d. destruct (least_entry _) as [[n i]|]; [| by apply yields_ret].
  eapply yields_bind; [apply GetReSendData_steady |]. intros [e l] He. yields_walk.
Qed.
#[local] Hint Resolve InnerSyncStart_steady ReSendData_steady : yields.

Lemma SyncStart_steady mode : yields steady (SyncStart (St := St) (Tok := Tok) mode).
Proof. unfold SyncStart. yields_walk. Qed.

Lemma ReserveSubscribeQuery_steady d id q t : steady (ReserveSubscribeQuery d id q t).1.
Proof. unfold ReserveSubscribeQuery. by repeat case_match. Qed.

Lemma reserve_steady d q : yields steady (try_sub (St := St) (Tok := Tok) (ReserveLocalSubscribeQuery d q)).
Proof.
  apply yields_stays; [keeps |]. intros w. unfold wp, try_sub, ReserveLocalSubscribeQuery. destruct (GetIdentify q) as [id|]; [| done].
  cbn. pose proof (ReserveSubscribeQuery_steady d id q (local_ (w_sub w))) as Hr. by destruct (ReserveSubscribeQuery _ _ _ _).
Qed.

Lemma SendControlPacket_steady p : yields steady (SendControlPacket (St := St) (Tok := Tok) p).
Proof. unfold SendControlPacket. yields_walk. Qed.

Lemma ControlCmdStartCheck_steady : yields steady (ControlCmdStartCheck (St := St) (Tok := Tok)).
Proof. unfold ControlCmdStartCheck. yields_walk. Qed.
#[local] Hint Resolve reserve_steady SendControlPacket_steady ControlCmdStartCheck_steady : yields.

Lemma ControlCmdStart_steady : yields steady (ControlCmdStart (St := St) (Tok := Tok)).
Proof. unfold ControlCmdStart. yields_walk. Qed.

(** * The actions of the states *)

(** Where an event leads from a state. *)
Definition leads (s : State) (event : Event) : option State := m ← switch_find s switchTable; event_find event m.

(** A bound on the rounds that the present task may still make, less what the queues hold. *)
Definition rank (s : State) (responses : bool) : nat :=
  match s with
  | TIME_SYNC => 7
  | ABILITY_SYNC => 6
  | START_INITIACTIVE_DATA_SYNC | SYNC_CONTROL_CMD => 5
  | START_PASSIVE_DATA_SYNC => if responses then 2 else 4
  | WAIT_FOR_RECEIVE_DATA_FINISH => 3
  | SYNC_TIME_OUT | INNER_ERR => 2
  | SYNC_TASK_FINISHED => 1
  | IDLE => 0
  end.

Definition measure (w : W) : nat :=
  (9 * targets (w_cx w) + rank (currentState (w_machine w)) (negb (is_empty (cx_responseTargetQueue (w_cx w)))))%nat.

Lemma in_table s : is_Some (switch_find s switchTable).
Proof. destruct s; vm_compute; eauto. Qed.

(** The event leads down. *)
Definition descends (s : State) (responses : bool) (event : Event) : Prop :=
  forall s', leads s event = Some s' -> s' <> IDLE -> (rank s' responses < rank s responses)%nat.

Lemma descends_compute s responses event :
  match leads s event with
  | Some s' => bool_decide (s' = IDLE) || bool_decide (rank s' responses < rank s responses)%nat
  | None => true
  end = true -> descends s responses event.
Proof.
  intros Hb s' E Hs. rewrite E in Hb. apply orb_prop in Hb as [Hb|Hb]; apply bool_decide_eq_true in Hb; [contradiction | exact Hb].
Qed.

(** From these states every event leads down. *)
Lemma always_down s responses event : s ∈ [TIME_SYNC; ABILITY_SYNC; SYNC_TIME_OUT; INNER_ERR] -> descends s responses event.
Proof.
  intros Hs. apply descends_compute. repeat apply elem_of_cons in Hs as [-> | Hs]; [.. | by apply elem_of_nil in Hs];
    destruct event, responses; vm_compute; reflexivity.
Qed.

(** From these, every event but those of the two statuses. *)
Definition goes_on (event : Event) : Prop := event <> NEED_ABILITY_SYNC_EVENT /\ event <> RE_SEND_DATA_EVENT.

Lemma steady_goes_on e (c : TaskContext Tok) : steady e -> goes_on (TransformErrCodeToEvent e c).
Proof.
  intros [H1' H2']. unfold TransformErrCodeToEvent, TransforTimeOutErrCodeToEvent.
  rewrite (proj2 (Z.eqb_neq _ _) H1'), (proj2 (Z.eqb_neq _ _) H2').
  repeat match goal with |- goes_on (if ?b then _ else _) => destruct b end; done.
Qed.

Lemma steady_down s responses event : s ∈ [START_INITIACTIVE_DATA_SYNC; SYNC_CONTROL_CMD] -> goes_on event ->
  descends s responses event.
Proof.
  intros Hs [H1' H2']. apply descends_compute.
  repeat apply elem_of_cons in Hs as [-> | Hs]; [.. | by apply elem_of_nil in Hs];
    destruct event, responses; first [done | vm_compute; reflexivity].
Qed.

(** * Actions that leave the queues alone *)

Lemma machine_kept {A} (f : Machine -> A) : stays kept (machine (St := St) (Tok := Tok) f).
Proof. intros w a w' [= <- <-]. reflexivity. Qed.
Lemma on_machine_kept f : (forall m, currentState (f m) = currentState m) -> stays kept (on_machine (St := St) (Tok := Tok) f).
Proof. intros Hf w a w' [= <- <-]. split; [apply Hf | done | done]. Qed.
#[local] Hint Resolve machine_kept : stays.
#[local] Hint Extern 2 (stays kept (on_machine _)) => (apply on_machine_kept; intros; reflexivity) : stays.

Lemma Clear_kept : stays kept (Clear (St := St) (Tok := Tok)).
Proof. keeps. Qed.
Lemma Abort_kept s : stays kept (Abort_ (St := St) (Tok := Tok) s).
Proof. keeps. Qed.
Lemma AbortInner_kept : stays kept (AbortInner (St := St) (Tok := Tok)).
Proof. keeps. Qed.
Lemma forget_subscription_kept : stays kept (forget_subscription (St := St) (Tok := Tok)).
Proof. keeps. Qed.
Lemma StopWatchDog_kept : stays kept (StopWatchDog (St := St) (Tok := Tok)).
Proof. keeps. Qed.
#[local] Hint Resolve Clear_kept Abort_kept AbortInner_kept forget_subscription_kept StopWatchDog_kept : stays.

Lemma DoTimeSync_kept : stays kept (DoTimeSync (St := St) (Tok := Tok)).
Proof. keeps. Qed.
Lemma DoAbilitySync_kept : stays kept (DoAbilitySync (St := St) (Tok := Tok)).
Proof. keeps. Qed.
Lemma DoTimeout_kept : stays kept (DoTimeout (St := St) (Tok := Tok)).
Proof. keeps. Qed.
Lemma DoInnerErr_kept : stays kept (DoInnerErr (St := St) (Tok := Tok)).
Proof. keeps. Qed.
Lemma DoWaitForDataRecv_kept : stays kept (DoWaitForDataRecv (St := St) (Tok := Tok)).
Proof. keeps. Qed.

Lemma initiactive_goes_on : yields goes_on (DoInitiactiveDataSyncWithSlidingWindow (St := St) (Tok := Tok)).
Proof.
  unfold DoInitiactiveDataSyncWithSlidingWindow. apply yields_skip; [keeps |]. intros mode. apply (yields_bind steady).
  { pose proof SyncStart_steady. yields_walk. }
  intros e He. destruct (is_ok e); [by apply yields_ret |]. apply yields_skip; [keeps |]. intros c.
  destruct (_ && _); [by apply yields_ret |]. apply yields_ret. pose proof (steady_goes_on e c He). by destruct (_ && _).
Qed.

Lemma control_goes_on : yields goes_on (DoInitiactiveControlSync (St := St) (Tok := Tok)).
Proof.
  unfold DoInitiactiveControlSync. apply yields_skip; [keeps |]. intros []. eapply yields_bind; [apply ControlCmdStart_steady |].
  intros e He. destruct (is_ok e); [by apply yields_ret |]. apply yields_skip; [keeps |]. intros [].
  apply yields_skip; [keeps |]. intros c. apply yields_ret. by apply steady_goes_on.
Qed.

(** * Actions that take targets out of the queues *)

(** The state is the same, and no target has come. *)
Record fewer (w w' : W) : Prop := {
  fw_state : currentState (w_machine w') = currentState (w_machine w);
  fw_targets : (targets (w_cx w') <= targets (w_cx w))%nat;
  fw_token : token_ok w -> token_ok w'
}.

#[local] Instance fewer_pre : PreOrder fewer.
Proof. split; [done |]. intros w1 w2 w3 [S1 Q1 T1] [S2 Q2 T2]. split; [congruence | lia | auto]. Qed.

Lemma kept_targets w w' : kept w w' -> targets (w_cx w') = targets (w_cx w).
Proof. intros [_ E _]. unfold queues in E. injection E as E1 E2. unfold targets. by rewrite E1, E2. Qed.

Lemma kept_fewer w w' : kept w w' -> fewer w w'.
Proof. intros K. split; [apply K | by rewrite (kept_targets w w' K) | apply K]. Qed.

(** A call that keeps, then the rest. *)
Lemma wp_kept {A B} (m : A_ A) (k : A -> A_ B) Q w :
  stays kept m -> (forall a w', kept w w' -> wp (k a) Q w') -> wp (m ≫= k) Q w.
Proof. intros Hm Hk. apply wp_bind. by eapply wp_stays. Qed.

(** What is left of a queue. *)
Definition less_one (q q' : list SyncTarget) (t : option SyncTarget) : Prop :=
  (length q' < length q)%nat \/ q = [] /\ q' = [] /\ t = None.

Lemma next_request_less ops q t q' : next_request ops q = Some (t, q') -> less_one q q' t.
Proof.
  revert t q'. induction q as [|x q IH]; intros t q'; cbn [next_request]; [intros [= <- <-]; by right |].
  intros (b & _ & E)%bind_Some. left. destruct b; [| injection E as <- <-; cbn; lia].
  apply IH in E as [? | (-> & -> & _)]; cbn; lia.
Qed.

Lemma CopyTargetData_kept t timeout : stays kept (CopyTargetData (St := St) (Tok := Tok) t timeout).
Proof. keeps. Qed.

Lemma wp_next q (Q : option SyncTarget * list SyncTarget -> W -> Prop) w :
  (forall t q', less_one q q' t -> Q (t, q') w) ->
  wp (on_world (fun w => r ← next_request (w_ops w) q; Some (r, w))) Q w.
Proof.
  intros HQ. unfold wp, on_world. destruct (next_request (w_ops w) q) as [[t q']|] eqn:E; [| done]. cbn.
  apply HQ. by eapply next_request_less.
Qed.

(** One target less, at least. *)
Definition taken (w w' : W) : Prop := fewer w w' /\ (targets (w_cx w') < targets (w_cx w))%nat.

Lemma taken_kept w1 w2 w3 : taken w1 w2 -> kept w2 w3 -> taken w1 w3.
Proof. intros [F L] K. split; [etrans; [exact F | by apply kept_fewer] | by rewrite (kept_targets w2 w3 K)]. Qed.

Lemma MoveToNextTarget_taken w : IsTargetQueueEmpty (w_cx w) = false -> wp MoveToNextTarget (fun _ => taken w) w.
Proof.
  intros Hne. unfold MoveToNextTarget. apply wp_kept; [keeps |]. intros [] w1 K1. apply wp_kept; [keeps |]. intros timeout w2 K2.
  assert (K : kept w w2) by (by etrans). clear K1 K2. wp_steps. cbn [id].
  pose proof (kp_queues _ _ K) as Eq. unfold queues in Eq. injection Eq as Eq1 Eq2.
  assert (Hcopy : forall w3 t, taken w w3 -> wp (CopyTargetData t timeout) (fun _ => taken w) w3).
  { intros w3 t Hw3. eapply wp_stays; [apply CopyTargetData_kept |]. intros _ w4 K4. by eapply taken_kept. }
  apply wp_next. intros t1 q1 L1. wp_steps. unfold IsTargetQueueEmpty in Hne. rewrite <- Eq1, <- Eq2 in Hne.
  assert (Ht : forall w', currentState (w_machine w') = currentState (w_machine w2) -> cx_token (w_cx w') = cx_token (w_cx w2) ->
    (targets (w_cx w') < targets (w_cx w2))%nat -> taken w w').
  { intros w' Es Et Hl. split; [| by rewrite <- (kept_targets w w2 K)]. split; [rewrite Es; apply K | |].
    - rewrite (kept_targets w w2 K) in Hl. lia.
    - intros Hw t. rewrite Et. by apply K. }
  unfold targets in Ht. destruct t1 as [t1|]; [apply Hcopy, Ht; [done | done | destruct L1 as [? | (_ & _ & ?)]; [cbn; lia | done]] |].
  apply wp_bind, wp_next. intros t2 q2 L2. wp_steps.
  assert (Hl : (length q1 + length q2 < length (cx_requestTargetQueue (w_cx w2)) + length (cx_responseTargetQueue (w_cx w2)))%nat).
  { destruct L1 as [? | (E1 & -> & _)], L2 as [? | (E2 & -> & _)]; rewrite ?E1, ?E2 in *; cbn in *; [lia.. | done]. }
  destruct t2 as [t2|]; [apply Hcopy, Ht; done | by apply Ht].
Qed.

Lemma PrepareNextSyncTask_kept w : currentState (w_machine w) = SYNC_TASK_FINISHED -> wp PrepareNextSyncTask (fun _ => kept w) w.
Proof.
  intros Es. unfold PrepareNextSyncTask. apply wp_kept; [keeps |]. intros e w1 K1. destruct (negb _); [done |].
  rewrite <- (kp_state _ _ K1) in Es. apply wp_bind. unfold wp at 1, on_machine. rewrite Es. cbn. etrans; [exact K1 |]. by split.
Qed.

Lemma skipped_kept : stays kept (IsCurrentSyncTaskCanBeSkipped (St := St) (Tok := Tok)).
Proof. keeps. Qed.

(** The loop ends: a task is taken, or all queues are empty. *)
Lemma exec_tasks_taken n : forall w, (targets (w_cx w) <= n)%nat -> currentState (w_machine w) = SYNC_TASK_FINISHED ->
  wp (exec_tasks n) (fun r w' => exists e, r = Some e /\ fewer w w' /\ (is_ok e = true -> taken w w')) w.
Proof.
  induction n as [|n IH]; intros w Hn Es; cbn [exec_tasks]; wp_steps; cbn [id]; destruct (IsTargetQueueEmpty (w_cx w)) eqn:Ee.
  1, 3: apply wp_kept; [keeps |]; intros [] w1 K1; apply wp_kept; [keeps |]; intros [] w2 K2; apply wp_ret;
    eexists; split; [done |]; split; [apply kept_fewer; by etrans | done].
  - exfalso. unfold IsTargetQueueEmpty in Ee. unfold targets in Hn. destruct (cx_requestTargetQueue _), (cx_responseTargetQueue _); cbn in *; (done || lia).
  - apply wp_bind. eapply wp_mono; [by apply MoveToNextTarget_taken |]. intros [] w1 T1. apply wp_kept; [apply skipped_kept |].
    intros skip w2 K2. pose proof (taken_kept _ _ _ T1 K2) as T2. clear T1 K2. destruct skip.
    + apply wp_kept; [keeps |]. intros [] w3 K3. pose proof (taken_kept _ _ _ T2 K3) as [F3 L3].
      eapply wp_mono; [apply IH; [lia | by rewrite (fw_state _ _ F3)] |]. intros r w' (e & -> & F & _). exists e.
      assert (F' : fewer w w') by (by etrans). split; [done |]. split; [done |]. intros _. split; [done |].
      pose proof (fw_targets _ _ F). lia.
    + apply wp_bind. eapply wp_mono; [apply PrepareNextSyncTask_kept; by rewrite (fw_state _ _ (proj1 T2)) |]. intros e w3 K3.
      pose proof (taken_kept _ _ _ T2 K3) as T3. apply wp_kept; [keeps |]. intros [] w4 K4.
      pose proof (taken_kept _ _ _ T3 K4) as T4. apply wp_ret. exists e. split; [done |]. split; [apply T4 | done].
Qed.

Lemma DoSyncTaskFinished_taken w : currentState (w_machine w) = SYNC_TASK_FINISHED ->
  wp DoSyncTaskFinished (fun event w' => fewer w w' /\ (event = START_SYNC_EVENT -> taken w w')) w.
Proof.
  intros Es. unfold DoSyncTaskFinished. apply wp_kept; [keeps |]. intros [] w1 K1. apply wp_kept; [keeps |]. intros [] w2 K2.
  assert (K : kept w w2) by (by etrans). clear K1 K2. apply wp_bind. unfold ExecNextTask. wp_steps.
  eapply wp_mono; [apply exec_tasks_taken; [done | by rewrite (kp_state _ _ K)] |]. intros r w3 (e & -> & F & T).
  assert (F' : fewer w w3) by (etrans; [by apply kept_fewer | done]). apply wp_defined. intros ? [= <-]. destruct (is_ok e) eqn:Ee.
  - apply wp_ret. split; [done |]. intros _. split; [done |]. rewrite <- (kept_targets _ _ K). by apply T.
  - wp_steps. split; [done |]. intros E. exfalso. revert E. unfold TransformErrCodeToEvent, TransforTimeOutErrCodeToEvent.
    by repeat match goal with |- (if ?b then _ else _) = _ -> _ => destruct b end.
Qed.

Lemma DoPassive_taken w : is_empty (cx_responseTargetQueue (w_cx w)) = false -> token_ok w ->
  wp DoPassiveDataSyncWithSlidingWindow
    (fun event w' => taken w w' /\ (event = RESPONSE_TASK_FINISHED_EVENT \/ event = WAIT_ACK_EVENT)) w.
Proof.
  intros Hne Hw. unfold DoPassiveDataSyncWithSlidingWindow. wp_steps. cbn [id]. rewrite Hne. apply wp_bind.
  assert (Hpop : wp PreStartPullResponse (fun _ => taken w) w).
  { unfold PreStartPullResponse, PopResponseTarget. wp_steps. cbn [id].
    destruct (cx_responseTargetQueue (w_cx w)) as [|t queue] eqn:Eq; [done |]. wp_steps.
    unfold taken, targets. cbn. rewrite Eq. cbn. split; [| lia]. split; [done | | done]. unfold targets. cbn. rewrite Eq. cbn. lia. }
  eapply wp_mono; [exact Hpop |]. intros [] w1 T1. apply wp_bind.
  eapply wp_mono; [apply SyncStart_steady; by apply T1 |]. intros e w2 [_ K2]. apply wp_ret.
  split; [by eapply taken_kept |]. destruct (negb _); auto.
Qed.

(** * Rounds *)

(** A round that is followed by another. *)
Definition next_round (w w' : W) : Prop := step_round w = Some (true, w').

Lemma switch_leads event (w : W) : SwitchMachineState event w =
  match leads (currentState (w_machine w)) event with
  | Some s => Some (E_OK, set_machine w (set_state s (w_machine w)))
  | None => Some (- E_NOT_FOUND, w)
  end.
Proof.
  unfold SwitchMachineState, leads, machine, on_machine, mbind, act_bind, option_bind, mret, act_ret, id.
  destruct (in_table (currentState (w_machine w))) as [m ->]. by destruct (event_find event m).
Qed.

(** A round ends with a lower measure, or is the last. *)
Definition round_ok (w : W) : Prop :=
  wp step_round (fun more w' => (token_ok w -> token_ok w') /\ (more = true -> (measure w' < measure w)%nat)) w.

Lemma round_intro action w Q : state_action (currentState (w_machine w)) = Some action ->
  wp action Q w -> (forall event w', Q event w' -> fewer w w' /\
    forall s', leads (currentState (w_machine w)) event = Some s' -> s' <> IDLE -> event <> WAIT_ACK_EVENT ->
      (9 * targets (w_cx w') + rank s' (negb (is_empty (cx_responseTargetQueue (w_cx w')))) < measure w)%nat) ->
  round_ok w.
Proof.
  intros Ea Hw HQ. unfold round_ok, step_round. apply wp_bind. unfold wp at 1, machine. rewrite Ea. apply wp_bind.
  eapply wp_mono; [exact Hw |]. intros event w1 [F1 Hs]%HQ. destruct (bool_decide_reflect (event = WAIT_ACK_EVENT)) as [|Hn].
  { apply wp_ret. split; [apply F1 | discriminate]. }
  unfold wp, mbind, act_bind. rewrite switch_leads, (fw_state _ _ F1).
  destruct (leads (currentState (w_machine w)) event) as [s'|] eqn:El; [| split; [apply F1 | discriminate]].
  unfold mret, act_ret. split; [apply F1 |]. cbn [is_ok Z.eqb E_OK w_machine set_machine currentState set_state andb].
  destruct (bool_decide_reflect (s' = IDLE)) as [|Hi]; [discriminate |]. intros _. by apply (Hs s').
Qed.

(** The actions that keep the queues. *)
Lemma round_kept action w (P : Event -> Prop) : state_action (currentState (w_machine w)) = Some action ->
  wp action (fun event w' => P event /\ kept w w') w ->
  (forall event, P event -> descends (currentState (w_machine w)) (negb (is_empty (cx_responseTargetQueue (w_cx w)))) event) ->
  round_ok w.
Proof.
  intros Ea Hw Hd. eapply round_intro; [exact Ea | exact Hw |]. intros event w' [HP K]. split; [by apply kept_fewer |].
  intros s' El Hi _. rewrite (kept_targets _ _ K). pose proof (kp_queues _ _ K) as Eq. unfold queues in Eq. injection Eq as _ ->.
  unfold measure. pose proof (Hd event HP s' El Hi). lia.
Qed.

Lemma round_always action w : state_action (currentState (w_machine w)) = Some action -> stays kept action ->
  currentState (w_machine w) ∈ [TIME_SYNC; ABILITY_SYNC; SYNC_TIME_OUT; INNER_ERR] -> round_ok w.
Proof.
  intros Ea Hk Hs. eapply (round_kept _ _ (fun _ => True)); [exact Ea | |].
  - eapply wp_stays; [exact Hk |]. auto.
  - intros event _. by apply always_down.
Qed.

Lemma wait_event responses event : event <> NEED_ABILITY_SYNC_EVENT -> (event = START_PULL_RESPONSE_EVENT -> responses = true) ->
  descends WAIT_FOR_RECEIVE_DATA_FINISH responses event.
Proof.
  intros Hn Hr. apply descends_compute. destruct responses, event;
    first [by destruct Hn | by specialize (Hr eq_refl) | vm_compute; reflexivity].
Qed.

Lemma wait_down w : currentState (w_machine w) = WAIT_FOR_RECEIVE_DATA_FINISH -> round_ok w.
Proof.
  intros Es. eapply (round_kept _ _ (fun event => event <> NEED_ABILITY_SYNC_EVENT
    /\ (event = START_PULL_RESPONSE_EVENT -> is_empty (cx_responseTargetQueue (w_cx w)) = false))); rewrite ?Es; [reflexivity | |].
  - apply wp_both; [apply DoWaitForDataRecv_kept |]. unfold DoWaitForDataRecv. wp_steps. cbn [id].
    destruct (is_empty (cx_responseTargetQueue (w_cx w))); cbn [negb]; [| by apply wp_ret].
    apply wp_bind, wp_any. intros status w'. by repeat destruct (_ =? _) || destruct (_ && _); apply wp_ret.
  - intros event [Hn Hr]. apply wait_event; [done |]. intros E. by rewrite (Hr E).
Qed.

Lemma passive_down w : currentState (w_machine w) = START_PASSIVE_DATA_SYNC -> token_ok w -> round_ok w.
Proof.
  intros Es Hw. destruct (is_empty (cx_responseTargetQueue (w_cx w))) eqn:Ee.
  - eapply (round_kept _ _ (eq RESPONSE_TASK_FINISHED_EVENT)); rewrite ?Es, ?Ee; [reflexivity | |].
    + unfold DoPassiveDataSyncWithSlidingWindow. wp_steps. cbn [id]. rewrite Ee. apply wp_ret. by split.
    + intros event <-. apply descends_compute. vm_compute. reflexivity.
  - eapply round_intro; rewrite ?Es; [reflexivity | by apply DoPassive_taken |]. intros event w' [[F L] He]. split; [done |].
    intros s' El _ Hn. destruct He as [-> | ->]; [| contradiction]. vm_compute in El. injection El as <-. unfold measure.
    rewrite Es, Ee. cbn [rank negb]. lia.
Qed.

Lemma finished_down w : currentState (w_machine w) = SYNC_TASK_FINISHED -> round_ok w.
Proof.
  intros Es. eapply round_intro; rewrite ?Es; [reflexivity | by apply DoSyncTaskFinished_taken |].
  intros event w' [F T]. split; [done |]. intros s' El Hi _. destruct event; vm_compute in El; try discriminate; injection El as <-.
  - destruct (T eq_refl) as [_ L]. unfold measure. rewrite Es. cbn [rank]. lia.
  - contradiction.
Qed.

Lemma round_down w : token_ok w -> round_ok w.
Proof.
  intros Hw. destruct (currentState (w_machine w)) eqn:Es.
  - unfold round_ok, wp, step_round, machine, mbind, act_bind. rewrite Es. cbn. done.
  - eapply round_always; rewrite ?Es; [reflexivity | apply DoTimeSync_kept | set_solver].
  - eapply round_always; rewrite ?Es; [reflexivity | apply DoAbilitySync_kept | set_solver].
  - by apply wait_down.
  - by apply finished_down.
  - eapply round_always; rewrite ?Es; [reflexivity | apply DoTimeout_kept | set_solver].
  - eapply round_always; rewrite ?Es; [reflexivity | apply DoInnerErr_kept | set_solver].
  - eapply round_kept; rewrite ?Es; [reflexivity | by apply initiactive_goes_on |]. intros event He.
    apply steady_down; [set_solver | done].
  - by apply passive_down.
  - eapply round_kept; rewrite ?Es; [reflexivity | by apply control_goes_on |]. intros event He.
    apply steady_down; [set_solver | done].
Qed.

(** * The loop *)

Lemma next_round_down w w' : token_ok w -> next_round w w' -> token_ok w' /\ (measure w' < measure w)%nat.
Proof. intros Hw E. destruct (wp_use _ _ _ _ _ (round_down w Hw) E) as [Ht Hm]. auto. Qed.

Lemma rounds_bounded n : forall w w', token_ok w -> nsteps next_round n w w' -> (n + measure w' <= measure w)%nat.
Proof.
  induction n as [|n IH]; intros w w' Hw Hr; inversion Hr as [|? ? w1 ? E Hs]; subst; [done |].
  destruct (next_round_down _ _ Hw E) as [Hw1 Hm]. pose proof (IH _ _ Hw1 Hs). lia.
Qed.

Lemma rounds_acc n : forall w, token_ok w -> (measure w < n)%nat -> Acc (flip next_round) w.
Proof.
  induction n as [|n IH]; intros w Hw Hm; [lia |]. constructor. intros w' E. destruct (next_round_down _ _ Hw E) as [Hw' Hm'].
  apply IH; [done | lia].
Qed.

(** How a run of the loop ends: with the last round, or with one that is undefined. *)
Definition ends (w : W) (r : option (unit * W)) : Prop :=
  exists n w1, nsteps next_round n w w1
    /\ step_round w1 = match r with Some (_, w') => Some (false, w') | None => None end.

Lemma step_loop_ends n : forall w, token_ok w -> (measure w < n)%nat ->
  match step_loop n w with
  | Some (b, w') => b = true /\ ends w (Some (tt, w'))
  | None => ends w None
  end.
Proof.
  induction n as [|n IH]; intros w Hw Hm; [lia |]. cbn [step_loop]. unfold mbind, act_bind.
  destruct (step_round w) as [[[|] w1]|] eqn:E.
  - destruct (next_round_down _ _ Hw E) as [Hw1 Hm1]. specialize (IH w1 Hw1 ltac:(lia)).
    destruct (step_loop n w1) as [[b w']|]; [destruct IH as [-> (k & w2 & Hk & E2)]; split; [done |] | destruct IH as (k & w2 & Hk & E2)];
      exists (S k), w2; (split; [by econstructor | done]).
  - split; [done |]. exists O, w. split; [constructor | exact E].
  - exists O, w. split; [constructor | exact E].
Qed.

Lemma measure_fuel w : (measure w < step_fuel (w_cx w))%nat.
Proof. unfold measure, step_fuel. destruct (currentState _), (negb _); cbn [rank]; lia. Qed.

(** C38: The loop of [SyncStepInner] ends from every state of the machine, whatever the queues of
    tasks hold: there is no infinite sequence of rounds; there are at most nine rounds for every
    task that waits, and nine more; and what the model of the loop answers is the end of the
    real one, that is, the state after a last round, or undefined behaviour of a round. The
    storage and the communicator must not answer with the statuses that ask for an exchange of
    abilities or for a new start: these make the machine go back. *)
Theorem sync_step_terminates (w : W) : token_ok w ->
  Acc (flip next_round) w
  /\ (forall n w', nsteps next_round n w w' -> (n < step_fuel (w_cx w))%nat)
  /\ ends w (SyncStepInner w).
Proof.
  intros Hw. pose proof (measure_fuel w) as Hm. split; [by eapply rounds_acc |]. split.
  - intros n w' Hr. pose proof (rounds_bounded n w w' Hw Hr). lia.
  - pose proof (step_loop_ends (step_fuel (w_cx w)) w Hw Hm) as He. unfold SyncStepInner, cx, mbind, act_bind.
    destruct (step_loop _ w) as [[b w']|]; [| exact He]. by destruct He as [-> He].
Qed.

End Steps.
