(* ===== verification/SenderRuns.v ===== *)
(** A device that sends, whatever it is told: starts, acknowledgements in any order and of any
    content, aborts, and everything else that happens in between. *)

From S2P Require Import Prelude Memory Parcel CommTypes SerialBuffer ProtocolProto AppMessage SyncStorage CommitNotify QuerySync KvEntry.
From S2P Require Import SyncPacket DbAbility WaterMark MetaData TimeHelper SyncRead SubscribeManager SyncWorld SyncTask DataSync SyncLogic SyncViews.
From S2P Require Import SyncSender ControlSync SyncMachine.
From Stdlib Require Import ZArith Lia.
From Stdlib Require Import Strings.Byte.
From stdpp Require Import base numbers list gmap.

Open Scope Z_scope.

Section Runs.
Context `{Host} `{Heap} `{Zlib} `{ValueHash} `{DeviceHash} `{SyncEnv} `{PagedLaws St Tok}.
Abbreviation W := (World St Tok).
Abbreviation store w := (md_store (w_md w)).

Section Since.
(** A storage of earlier. *)
Context (st0 : St).
Abbreviation sender_base := (SyncSender.sender_base st0).
Abbreviation sender_ok := (SyncSender.sender_ok st0).
Abbreviation outcome := (SyncSender.outcome st0).

(** * Acknowledgements *)

(** The window is cleared. *)
Definition cleared (w : W) : W := set_ds w (InnerClearSyncStatus (w_ds w)).

Lemma cleared_ok w : sender_ok w -> sender_ok (cleared w).
Proof. intros Hok. apply fewer_again; [done | apply map_empty_subseteq]. Qed.

Lemma cleared_quiet w w' : quiet w w' -> sender_ok (cleared w) -> sender_ok (cleared w').
Proof.
  intros ([Hg Hv Hp Ht Hm] & Hpl & Hs). apply ok_quiet. split_and!; [by split | done | done].
Qed.

Definition ack_in_range (message : SyncMessage) : Prop := forall p, GetDataAck message = Some (Some p) -> 0 <= ak_data p < INT64_MAX.

Lemma ReleaseContinueToken_ok w : sender_ok w -> wp ReleaseContinueToken (fun _ w' => sender_ok w') w.
Proof.
  intros [Hb Hi]. unfold ReleaseContinueToken. wp_steps. destruct (cx_token _) as [t|]; [| by wp_steps]. wp_steps.
  apply wp_on_storage. intros [] st [= <-]. wp_steps. split; [| by intros ?]. eapply (base_drift _ w); [| done].
  apply drift_same; [| done]. split; cbn; [apply pl_release | done..].
Qed.

Lemma DealRemoveDeviceDataByAck_quiet mark reserved w : sender_base (cleared w) ->
  wp (DealRemoveDeviceDataByAck mark reserved) (fun e w' => e = E_OK /\ quiet w w') w.
Proof.
  intros Hb. unfold DealRemoveDeviceDataByAck. wp_steps. eapply wp_mono; [apply cur_type_full, Hb |]. cbv beta. intros ? w1 [-> Hw1].
  pose proof (sb_clear _ _ Hb) as Hc. cbn in Hc. cbn [id]. rewrite (proj2 (Z.ltb_lt _ _)) by apply Hb. wp_steps. apply wp_on_meta. intros x m E.
  apply GetRemoveDataMark_view in E as [-> Hr]. cbn. rewrite (se_view _ _ (proj1 Hw1)), Hc. wp_steps. split; [done |].
  transitivity w1; [done |]. apply quiet_same; [by apply settled_meta | done | done].
Qed.

Lemma DealWaterMarkException_ok mark reserved w : sender_ok w -> 0 <= mark < INT64_MAX ->
  wp (DealWaterMarkException mark reserved) (fun e w' => e = - E_RE_SEND_DATA /\ sender_ok (cleared w')) w.
Proof.
  intros [Hb Hi] Hm. unfold DealWaterMarkException. wp_steps. eapply wp_mono; [apply cur_type_full, Hb |]. cbv beta. intros ? w1 [-> Hw1].
  change (is_query_type MANUAL_FULL_SYNC_TYPE) with false. cbv iota. unfold ds_SaveLocalWaterMark, GetQuerySyncId. wp_steps.
  change (is_query_type MANUAL_FULL_SYNC_TYPE) with false. cbn [negb]. wp_steps. apply wp_on_meta. intros e m' E. cbn in E.
  destruct (base_marked st0 w w1 m' mark e Hb Hw1 E Hm) as [-> Hsaved]. change (is_ok E_OK) with true. cbn [negb]. wp_steps.
  match goal with |- wp _ _ ?w' => set (w2 := w') end.
  assert (Hw2 : w_md w2 = m' /\ task_of w2 = task_of w1 /\ w_sent w2 = w_sent w1 /\ cx_token (w_cx w2) = cx_token (w_cx w1) /\ cx_isNeedRetry (w_cx w2) = NEED_RETRY).
  { unfold w2, PushAndPullKeyRevokHandle. cbn. destruct (_ && _ && _); done. }
  clearbody w2. destruct Hw2 as (E1 & E2 & E3 & E4 & E5).
  assert (Hok2 : sender_ok (cleared w2)).
  { destruct (Hsaved (cleared w2)) as [El Hb2]; [done | | done | |].
    - change (task_of (cleared w2)) with (task_of w2). rewrite E2. apply Hw1.
    - intros k i Hk. cbn in Hk. by rewrite lookup_empty in Hk.
    - split; [done |]. intros t Et. cbn in Et. rewrite E4 in Et. split; [| by left]. eapply (in_step_ships _ _ _ Hw1 Hi t Et). }
  destruct (negb _); wp_steps; [done |]. eapply wp_mono; [by apply DealRemoveDeviceDataByAck_quiet, Hok2 |]. cbv beta.
  intros ? w3 [-> Hw3]. wp_steps. split; [done | by eapply cleared_quiet].
Qed.

(** An acknowledgement that makes the device send again clears the window. *)
Definition after_ack (e : Z) (w : W) : W := if e =? - E_RE_SEND_DATA then cleared w else w.

Lemma after_ack_ok e w : sender_ok w -> sender_ok (after_ack e w).
Proof. intros Hok. unfold after_ack. destruct (_ =? _); [by apply cleared_ok | done]. Qed.

Lemma AckRecv_ok message w : sender_ok w -> ack_in_range message -> wp (AckRecv message) (fun e w' => sender_ok (after_ack e w')) w.
Proof.
  intros Hok Hr. unfold AckRecv. destruct (IsFeedbackError message); [wp_steps; by apply after_ack_ok |]. wp_steps.
  destruct a as [p|]; [| wp_steps; by apply after_ack_ok]. cbv zeta. destruct (_ =? _); [wp_steps; by apply after_ack_ok |].
  destruct (_ || _).
  { wp_steps. eapply wp_mono; [by apply ReleaseContinueToken_ok |]. cbv beta. intros [] w1 Hok1. wp_steps. by apply after_ack_ok. }
  destruct (_ =? LOCAL_WATER_MARK_NOT_INIT).
  { eapply wp_mono; [apply DealWaterMarkException_ok; [done | by apply Hr] |]. cbv beta. intros ? w1 [-> Hok1]. exact Hok1. }
  wp_steps. eapply (wp_stays quiet); [destruct (_ && _); [apply StartFeedDogForSync_quiet | apply stays_mret; apply _] |]. intros b w1 Hw1.
  pose proof (ok_quiet _ _ _ Hw1 Hok) as Hok1. destruct (_ && _); wp_steps; by apply after_ack_ok.
Qed.

(** * Aborting *)

(** What [Clear] leaves. *)
Record cleans (w w' : W) : Prop := {
  cl_meta : w_md w' = w_md w;
  cl_ds : w_ds w' = w_ds w;
  cl_sent : w_sent w' = w_sent w;
  cl_device : cx_deviceId (w_cx w') = cx_deviceId (w_cx w);
  cl_version : cx_remoteSoftwareVersion (w_cx w') = cx_remoteSoftwareVersion (w_cx w);
  cl_token : cx_token (w_cx w') = cx_token (w_cx w);
  cl_full : cx_isQuerySync (w_cx w) = false -> cx_isQuerySync (w_cx w') = false
}.

#[local] Instance cleans_pre : PreOrder cleans.
Proof. split; [by intros w; split |]. intros w1 w2 w3 [] []. split; try congruence. auto. Qed.

Lemma Clear_cleans : stays cleans (Clear (St := St) (Tok := Tok)).
Proof. stays_with ltac:(idtac; intros; unfold base_Clear, StopTimer; repeat case_match; split; done). Qed.

Lemma cleans_base w w' : cleans w w' -> sender_base w -> sender_base w'.
Proof.
  intros [Em Ed Es Edev Ev Et Ef] [Bsince Bo Bf Bv Bc Bp Bm Bmap Bs]. assert (El : local_mark w' = local_mark w) by (unfold local_mark; by rewrite Em, Edev).
  split; rewrite ?El, ?Em, ?Ed, ?Es, ?Edev, ?Ev; try done. by apply Ef.
Qed.

Lemma AbortInner_ok w : sender_base w -> wp AbortInner (fun _ w' => sender_ok w') w.
Proof.
  intros Hb. unfold AbortInner, ClearSyncStatus. wp_steps.
  apply wp_mono with (Q := fun _ => sender_base).
  { destruct Hb as [Bsince Bo Bf Bv Bc Bp Bm Bmap Bs]. case_match; wp_steps; by split. }
  clear dependent w. intros [] w Hb. wp_steps. set (w1 := set_ds w _).
  assert (Hb1 : sender_base w1).
  { destruct Hb as [Bsince Bo Bf Bv Bc Bp Bm Bmap Bs]. by split. }
  clearbody w1. apply wp_mono with (Q := fun _ => sender_base).
  { destruct (cx_token _) as [t|]; [| by wp_steps]. apply wp_on_storage. intros [] st [= <-]. eapply base_drift; [| exact Hb1].
    apply drift_same; [apply settled_store, pl_release | done]. }
  intros [] w2 Hb2. wp_steps. eapply (wp_stays cleans); [apply Clear_cleans |]. intros [] w3 Hc.
  split; [| intros t; by rewrite (cl_token _ _ Hc)]. apply (cleans_base _ _ Hc). destruct Hb2 as [Bsince Bo Bf Bv Bc Bp Bm Bmap Bs]. by split.
Qed.

(** * Steps *)

(** What else happens on the device: the application writes, data arrives, other tasks of full
    synchronizations come and go, messages that carry no data are sent, a time-out makes the
    device read again. *)
Record other (w w' : W) : Prop := {
  ot_store : grows (store w) (store w');
  ot_device : cx_deviceId (w_cx w') = cx_deviceId (w_cx w);
  ot_mark : local_mark w' = local_mark w;
  ot_clear : clearDeviceDataMark (view (w_md w') (cx_deviceId (w_cx w))) = clearDeviceDataMark (view (w_md w) (cx_deviceId (w_cx w)));
  ot_ptr : naturalStoragePtr_ (w_md w') = naturalStoragePtr_ (w_md w);
  ot_full : cx_isQuerySync (w_cx w') = false;
  ot_version : cx_remoteSoftwareVersion (w_cx w') = cx_remoteSoftwareVersion (w_cx w);
  ot_map : ds_reSendMap (w_ds w') ⊆ ds_reSendMap (w_ds w);
  ot_token : cx_token (w_cx w') = None
    \/ cx_token (w_cx w') = cx_token (w_cx w)
       /\ (cx_isNeedRetry (w_cx w') = cx_isNeedRetry (w_cx w) \/ cx_isNeedRetry (w_cx w') = NEED_RETRY);
  ot_sent : exists ms, w_sent w' = w_sent w ++ ms /\ Forall (fun m => forall p, GetDataRequest m <> Some (Some p)) ms
}.

Lemma other_ok w w' : other w w' -> sender_ok w -> sender_ok w'.
Proof.
  intros [Og Od Om Oc Op Of Ov Omap Ot (ms & Os & Hms)] [[Bsince Bo Bf Bv Bc Bp Bm Bmap Bs] Hi]. split.
  - split; rewrite ?Om, ?Od, ?Op, ?Ov, ?Os, ?Oc; try done.
    + by etrans.
    + by apply Og.
    + intros k i Hk. eapply Bmap, lookup_weaken; done.
    + intros m p [Hin | Hin]%elem_of_app E; [eapply sound_grows; [exact Og | by eapply Bs] |].
      rewrite Forall_forall in Hms. by destruct (Hms m Hin p).
  - intros t Et. destruct Ot as [Ot | [Ot Or]]; [congruence |]. rewrite Ot in Et. destruct (Hi t Et) as [? Hi']. split; [done |].
    rewrite Om. destruct Or as [-> | ->]; [done | by left].
Qed.

End Since.

(** After the start or the continuation of a session: it goes on, or an error has left no continue
    token behind, or the session is aborted, once its operation is told and its timers are stopped.
    Sessions the device starts itself end like this (below, [initiator_settles],
    [continuation_settles]). What is left out are the two paths on which an error is ignored and a
    continue token stays: a pull response whose first packet is read but cannot be sent
    ([DoPassiveDataSyncWithSlidingWindow]), and the errors of the one session while another goes on
    ([ignoreInnerErr]). *)
Definition settles (e : Z) (w w' : W) : Prop :=
  (fine e \/ cx_token (w_cx w) = None) /\ w' = w \/ exists wa, cleans w wa /\ AbortInner wa = Some (tt, w').

Inductive sender_step : W -> W -> Prop :=
  | send_start mode e w w1 w' : full_mode (cx_mode (w_cx w)) -> SyncStart mode w = Some (e, w1) -> settles e w1 w' -> sender_step w w'
  | send_continue message e w w1 w' : TryContinueSync message w = Some (e, w1) -> settles e w1 w' -> sender_step w w'
  | send_ack message e w w1 : ack_in_range message -> AckRecv message w = Some (e, w1) -> sender_step w (after_ack e w1)
  | send_abort w w' : AbortInner w = Some (tt, w') -> sender_step w w'
  | send_other w w' : other w w' -> sender_step w w'.

(** Nothing has been sent yet. *)
Record sender_new (w : W) : Prop := {
  sn_store : store_ok (store w);
  sn_full : cx_isQuerySync (w_cx w) = false;
  sn_version : SOFTWARE_VERSION_RELEASE_3_0 < cx_remoteSoftwareVersion (w_cx w);
  sn_clear : clearDeviceDataMark (view (w_md w) (cx_deviceId (w_cx w))) = 0;
  sn_ptr : naturalStoragePtr_ (w_md w) = true;
  sn_mark : 0 <= local_mark w < INT64_MAX;
  sn_map : ds_reSendMap (w_ds w) = ∅;
  sn_token : cx_token (w_cx w) = None;
  sn_sent : w_sent w = []
}.

Lemma sender_new_ok w : sender_new w -> sender_ok (store w) w.
Proof.
  intros []. split; [split; [reflexivity | try done..] | intros t; congruence].
  - intros k i. by rewrite sn_map0, lookup_empty.
  - intros m p. by rewrite sn_sent0, elem_of_nil.
Qed.

Context (Hsend : forall n m, sent_code (env_send n m)).

Lemma settles_ok st0 e w w' : outcome st0 e w -> settles e w w' -> sender_ok st0 w'.
Proof.
  intros (_ & Hb & Hi) [[[Hf | Hn] ->] | (wa & Hc & E)]; [by split; auto | split; [done | intros t; congruence] |].
  exact (wp_use _ _ wa tt w' (AbortInner_ok st0 wa (cleans_base _ _ _ Hc Hb)) E).
Qed.

Lemma sender_step_ok st0 w w' : sender_step w w' -> sender_ok st0 w -> sender_ok st0 w'.
Proof.
  destruct 1 as [mode e w w1 w' Hm E Hs | message e w w1 w' E Hs | message e w w1 Hr E | w w' E | w w' Ho]; intros Hok.
  - eapply settles_ok; [| exact Hs]. exact (wp_use _ _ w e w1 (SyncStart_outcome st0 Hsend mode w Hok Hm) E).
  - eapply settles_ok; [| exact Hs]. exact (wp_use _ _ w e w1 (TryContinueSync_outcome st0 Hsend message w Hok) E).
  - exact (wp_use _ _ w e w1 (AckRecv_ok st0 message w Hok Hr) E).
  - exact (wp_use _ _ w tt w' (AbortInner_ok st0 w (proj1 Hok)) E).
  - by eapply other_ok.
Qed.

(** Seen from now. *)
Lemma sender_now st0 w : sender_ok st0 w -> sender_ok (store w) w.
Proof. intros [[] Hi]. split; [split; [reflexivity | done..] | done]. Qed.

(** The storage of a sender only gains. *)
Lemma sender_step_grows st0 w w' : sender_step w w' -> sender_ok st0 w -> grows (store w) (store w').
Proof. intros Hs Hok%sender_now. apply (sb_since _ _ (proj1 (sender_step_ok _ _ _ Hs Hok))). Qed.

End Runs.

(** * The state machine settles the sessions *)

Section Sessions.
Context `{Host} `{Heap} `{Zlib} `{ValueHash} `{DeviceHash} `{SyncEnv} `{PagedLaws St Tok} `{Handshake Tok}.
Abbreviation W := (World St Tok).
Abbreviation state w := (currentState (w_machine w)).

#[local] Existing Instance cleans_pre.

Ltac cleans_change := idtac; intros; unfold base_Clear, StopTimer; repeat case_match; split; done.
Ltac cleans := stays_with cleans_change.

Lemma SetOperationStatus_cleans x : stays cleans (SetOperationStatus (St := St) (Tok := Tok) x).
Proof. cleans. Qed.

Lemma forget_subscription_cleans : stays cleans (forget_subscription (St := St) (Tok := Tok)).
Proof. cleans. Qed.

Lemma Abort_cleans x : stays cleans (Abort_ (St := St) (Tok := Tok) x).
Proof. cleans. Qed.

#[local] Hint Resolve SetOperationStatus_cleans forget_subscription_cleans Abort_cleans Clear_cleans : stays.

Lemma bind_inv {A B} (m : Act St Tok A) (k : A -> Act St Tok B) w b w' :
  (m ≫= k) w = Some (b, w') -> exists a w1, m w = Some (a, w1) /\ k a w1 = Some (b, w').
Proof. unfold mbind, act_bind. destruct (m w) as [[a w1]|]; [| done]. cbn. eauto. Qed.

Lemma machine_cleans (w : W) m : cleans w (set_machine w m).
Proof. by split. Qed.

(** The session is aborted in between. *)
Definition aborts (w w' : W) : Prop := exists wa wb, cleans w wa /\ AbortInner wa = Some (tt, wb) /\ cleans wb w'.

Lemma DoInnerErr_aborts w event w' : DoInnerErr w = Some (event, w') -> event = ANY_EVENT /\ exists wa, cleans w wa /\ AbortInner wa = Some (tt, w').
Proof.
  unfold DoInnerErr. intros (c & w1 & [= <- <-] & E)%bind_inv. apply bind_inv in E as ([] & w2 & E2 & E).
  apply bind_inv in E as ([] & w3 & E3 & E). apply bind_inv in E as ([] & w4 & E4 & [= <- <-]). split; [done |].
  exists w3. split; [| done]. transitivity w2; [| exact (Clear_cleans _ _ _ E3)]. revert E2.
  assert (Hs : stays cleans (if negb (cx_isCommNormal (id (w_cx w))) then _ ← forget_subscription (St := St) (Tok := Tok); Abort_ OP_COMM_ABNORMAL
    else Abort_ (GetSyncOperationStatus (cx_taskErrCode (id (w_cx w)))))) by cleans. apply Hs.
Qed.

Lemma switch_cleans event w c w' : SwitchMachineState (St := St) (Tok := Tok) event w = Some (c, w') -> cleans w w'.
Proof.
  unfold SwitchMachineState. intros (m & w1 & [= <- <-] & E)%bind_inv. destruct (switch_find _ switchTable) as [t|]; [destruct (event_find event t)|];
    try apply bind_inv in E as ([] & w2 & [= <-] & E); unfold mret, act_ret in E; simplify_eq; by split.
Qed.

(** A round in the state of an error aborts the session. *)
Lemma error_round_aborts w b w' : state w = INNER_ERR -> step_round w = Some (b, w') -> aborts w w'.
Proof.
  intros Hs. unfold step_round. intros (s & w1 & [= <- <-] & E)%bind_inv. rewrite Hs in E. cbn [state_action] in E.
  apply bind_inv in E as (event & w2 & (-> & wa & Hwa & Ea)%DoInnerErr_aborts & E). exists wa, w2. split_and!; [done | done |].
  rewrite bool_decide_false in E by done. apply bind_inv in E as (c & w3 & E3%switch_cleans & E).
  apply bind_inv in E as (s & w4 & [= _ <-] & [= _ <-]). done.
Qed.

(** * Starting leaves the machine alone *)

Definition same_machine (w w' : W) : Prop := w_machine w' = w_machine w.

#[local] Instance same_machine_pre : PreOrder same_machine.
Proof. split; [done | intros w1 w2 w3; unfold same_machine; congruence]. Qed.

Ltac same_change :=
  lazymatch goal with
  | |- stays _ (on_world _) =>
    let E := fresh in intros ? ? ? E; unfold on_world in E; repeat case_match; try apply bind_Some in E as (? & _ & E); simplify_eq
  | _ => intros
  end; repeat split; done.
Ltac same := stays_with same_change.

Lemma StartFeedDogForSync_same t flag : stays same_machine (StartFeedDogForSync (St := St) (Tok := Tok) t flag).
Proof. same. Qed.
Lemma Send_same m len : stays same_machine (Send (St := St) (Tok := Tok) m len).
Proof. same. Qed.
Lemma SetOperationStatus_same x : stays same_machine (SetOperationStatus (St := St) (Tok := Tok) x).
Proof. same. Qed.
Lemma RemoveDeviceDataIfNeed_same : stays same_machine (RemoveDeviceDataIfNeed (St := St) (Tok := Tok)).
Proof. same. Qed.
#[local] Hint Resolve StartFeedDogForSync_same Send_same SetOperationStatus_same RemoveDeviceDataIfNeed_same : stays.

Lemma RequestStart_same mode : stays same_machine (RequestStart (St := St) (Tok := Tok) mode).
Proof. same. Qed.
Lemma PullResponseStart_same : stays same_machine (PullResponseStart (St := St) (Tok := Tok)).
Proof. same. Qed.
Lemma PullRequestStart_same : stays same_machine (PullRequestStart (St := St) (Tok := Tok)).
Proof. same. Qed.
#[local] Hint Resolve RequestStart_same PullResponseStart_same PullRequestStart_same : stays.

Lemma inner_loop_same n : stays same_machine (inner_loop (St := St) (Tok := Tok) n).
Proof. induction n; cbn [inner_loop]; same. Qed.
#[local] Hint Resolve inner_loop_same : stays.

Lemma SyncStart_same mode : stays same_machine (SyncStart (St := St) (Tok := Tok) mode).
Proof. same. Qed.

(** The states of a session in which an error is one of the table. *)
Definition in_session (s : State) : bool :=
  match s with START_INITIACTIVE_DATA_SYNC | START_PASSIVE_DATA_SYNC | WAIT_FOR_RECEIVE_DATA_FINISH => true | _ => false end.

Lemma error_row s : in_session s = true -> exists t, switch_find s switchTable = Some t /\ event_find INNER_ERR_EVENT t = Some INNER_ERR.
Proof. destruct s; try done; intros _; (eexists; split; [vm_compute; reflexivity | vm_compute; reflexivity]). Qed.

Lemma switch_error w : in_session (state w) = true ->
  SwitchMachineState (St := St) (Tok := Tok) INNER_ERR_EVENT w = Some (E_OK, set_machine w (set_state INNER_ERR (w_machine w))).
Proof.
  intros (t & Ht & Hr)%error_row. unfold SwitchMachineState, mbind, act_bind, machine, id. cbn [mbind option_bind].
  by rewrite Ht, Hr.
Qed.

(** A status that is an error of the session, and is not ignored for another one. *)
Definition is_error (e : Z) (w : W) : Prop :=
  TransformErrCodeToEvent e (w_cx w) = INNER_ERR_EVENT /\ (cx_responseSessionId (w_cx w) = 0 \/ cx_requestSessionId (w_cx w) = 0).

(** What starts a session of the device itself is [SyncStart]; a status that is an error makes the
    machine go to the state of an error, unless the session waits for its acknowledgement. *)
Lemma initiative_event w event w1 : state w = START_INITIACTIVE_DATA_SYNC -> full_mode (cx_mode (w_cx w)) ->
  DoInitiactiveDataSyncWithSlidingWindow w = Some (event, w1) ->
  exists mode e w0, cleans w w0 /\ SyncStart mode w0 = Some (e, w1) /\ state w1 = START_INITIACTIVE_DATA_SYNC
    /\ (is_error e w1 -> event = WAIT_ACK_EVENT /\ fine e \/ event = INNER_ERR_EVENT).
Proof.
  intros Hs Hm. unfold DoInitiactiveDataSyncWithSlidingWindow.
  intros (m0 & w2 & [= <- <-] & E)%bind_inv. apply bind_inv in E as (e & w3 & Es & E).
  assert (exists mode w0, cleans w w0 /\ same_machine w w0 /\ SyncStart mode w0 = Some (e, w3)) as (mode & w0 & Hw0 & Hs0 & Estart).
  { destruct (_ || _) eqn:E1; [| destruct (_ || _) eqn:E2 in Es; [| destruct (_ || _) eqn:E3 in Es]].
    1, 2: apply bind_inv in Es as ([] & w4 & E4 & Es); apply bind_inv in Es as (mode & w5 & [= <- <-] & Es);
      exists (cx_mode (w_cx w4)), w4; split_and!; [by eapply SetOperationStatus_cleans | by eapply SetOperationStatus_same | done].
    - exists (cx_mode (w_cx w)), w. by split.
    - exfalso. destruct Hm as [Hm | [Hm | [Hm | Hm]]]; rewrite Hm in E1, E2, E3; done. }
  exists mode, e, w0. pose proof (SyncStart_same _ _ _ _ Estart) as Hs3. unfold same_machine in *.
  destruct (is_ok e) eqn:Eok.
  { injection E as <- <-. split_and!; [done | done | congruence |]. intros _. left. split; [done |]. left. by apply Z.eqb_eq. }
  apply bind_inv in E as (c & w4 & [= <- <-] & E). cbv zeta in E. unfold id in *. destruct (_ && _) eqn:Er in E.
  { injection E as <- <-. split_and!; [done | done | congruence |]. intros _. left. split; [done |]. right. left.
    by apply andb_true_iff in Er as [_ ?%Z.eqb_eq]. }
  injection E as <- <-. split_and!; [done | done | congruence |]. intros [Hev Hids]. right. rewrite Hev.
  destruct Hids as [-> | ->]; cbn [Z.eqb negb andb]; [done | by rewrite andb_false_r].
Qed.

(** A round that starts a session of the device itself, if the status is an error: the session
    waits for its acknowledgement, or the next round aborts. *)
Lemma initiator_settles w b w1 : state w = START_INITIACTIVE_DATA_SYNC -> full_mode (cx_mode (w_cx w)) -> step_round w = Some (b, w1) ->
  exists mode e w0 w', cleans w w0 /\ SyncStart mode w0 = Some (e, w')
    /\ (is_error e w' -> (b = false /\ fine e /\ w1 = w') \/ (b = true /\ forall b' w2, step_round w1 = Some (b', w2) -> aborts w' w2)).
Proof.
  intros Hs Hm. unfold step_round at 1. intros (s & w2 & [= <- <-] & E)%bind_inv. rewrite Hs in E. cbn [state_action] in E.
  apply bind_inv in E as (event & w' & (mode & e & w0 & Hw0 & Estart & Hst & Hev)%initiative_event & E); [| done..].
  exists mode, e, w0, w'. split_and!; [done | done |]. intros [[-> Hf] | ->]%Hev.
  - rewrite bool_decide_true in E by done. injection E as <- <-. by left.
  - rewrite bool_decide_false in E by done. right. apply bind_inv in E as (c & w3 & E3 & E). rewrite switch_error in E3 by by rewrite Hst.
    injection E3 as <- <-. apply bind_inv in E as (s & w4 & [= <- <-] & [= <- <-]). split; [done |].
    intros b' w2 E2. apply error_round_aborts in E2 as (wa & wb & Hwa & Ea & Hwb); [| done]. exists wa, wb. split_and!; [| done | done].
    etrans; [| exact Hwa]. apply machine_cleans.
Qed.

(** A session that goes on after an acknowledgement and meets an error that is not ignored: the
    first round that follows aborts it. *)
Lemma continuation_settles e w w' : in_session (state w) = true -> TransformErrCodeToEvent e (w_cx w) = INNER_ERR_EVENT ->
  ResponsePullError e false w = Some (tt, w') -> exists w1, aborts w w1 /\ (w' = w1 \/ exists n, step_loop n w1 = Some (true, w')).
Proof.
  intros Hs Hev. unfold ResponsePullError. intros (c & w1 & [= <- <-] & E)%bind_inv. cbv zeta in E. unfold id in E. rewrite Hev in E.
  cbn [andb] in E. unfold SwitchStateAndStep in E. apply bind_inv in E as (x & w2 & E2 & E). rewrite (switch_error w Hs) in E2.
  injection E2 as <- <-. change (is_ok E_OK) with true in E. cbv iota in E. unfold SyncStepInner in E.
  apply bind_inv in E as (n & w3 & [= <- <-] & E). apply bind_inv in E as (finished & w3 & E3 & E).
  destruct finished; [| done]. injection E as <-. destruct (step_fuel _) as [|n] eqn:En; [done |]. cbn [step_loop] in E3.
  apply bind_inv in E3 as (more & w4 & (wa & wb & Hwa & Ea & Hwb)%error_round_aborts & E4); [| done].
  exists w4. split; [exists wa, wb; split_and!; [etrans; [apply machine_cleans | exact Hwa] | done | done] |].
  destruct more; [right; by exists n | left; by injection E4].
Qed.

End Sessions.
