(* ===== verification/SyncSafety.v ===== *)
(** Two devices: no write of the one is lost on the way to the other. First the device that
    receives: its peer water mark moves only over data that has been saved. *)

From S2P Require Import Prelude Memory Parcel CommTypes SerialBuffer ProtocolProto AppMessage SyncStorage CommitNotify QuerySync KvEntry.
From S2P Require Import SyncPacket DbAbility WaterMark MetaData TimeHelper SyncRead SubscribeManager SyncWorld SyncTask DataSync SyncLogic SyncViews.
From S2P Require Import SyncSender ControlSync SyncMachine SenderRuns.
From Stdlib Require Import ZArith Lia.
From Stdlib Require Import Strings.Byte.
From stdpp Require Import base numbers list gmap.

Open Scope Z_scope.

(** What a device that receives relies on: [saved] are the entries that have been put into the
    storage; [room] says that it can take more, [puttable] which entries it takes at once. *)
Class SavingStorage (St : Type) := {
  saved : St -> DataItem -> Prop;
  room : St -> Prop;
  puttable : list SendDataItem -> Prop
}.

Definition keeps `{SavingStorage St} (st st' : St) : Prop := forall e, saved st e -> saved st' e.

#[export] Instance keeps_pre `{SavingStorage St} : PreOrder keeps.
Proof. split; [by intros st e |]. intros st1 st2 st3 K1 K2 e He. by apply K2, K1. Qed.

Class SavingLaws (St Tok : Type) `{SavingStorage St, SyncStorage St, SyncGenericInterface St Tok} : Prop := {
  sv_meta : forall (st : St) k v e st', PutMetaData st k v = (e, st') -> keeps st st' /\ (room st -> room st');
  sv_put : forall (st : St) q items d c st', room st -> puttable items -> sg_PutSyncDataWithQuery (Tok := Tok) st q items d = (c, st') ->
    keeps st st' /\ (c = E_OK -> forall e, Some e ∈ items -> saved st' e)
}.

Section Receiver.
Context `{Host} `{Heap} `{Zlib} `{ValueHash} `{DeviceHash} `{SyncEnv} `{SavingLaws St Tok}.
Abbreviation W := (World St Tok).
Abbreviation store w := (md_store (w_md w)).

(** * What keeps the state of a receiver *)

Record firm (w w' : W) : Prop := {
  fi_store : keeps (store w) (store w');
  fi_room : room (store w) -> room (store w');
  fi_view : forall d, view (w_md w') d = view (w_md w) d;
  fi_device : cx_deviceId (w_cx w') = cx_deviceId (w_cx w);
  fi_version : cx_remoteSoftwareVersion (w_cx w') = cx_remoteSoftwareVersion (w_cx w);
  fi_offset : cx_timeOffset (w_cx w') = cx_timeOffset (w_cx w);
  fi_clock : lastLocalTime_ (w_md w) <= lastLocalTime_ (w_md w')
}.

#[export] Instance firm_pre : PreOrder firm.
Proof. split; [by intros w; split |]. intros w1 w2 w3 [] []. split; [by etrans | auto | ..]; intros; etrans; eauto. Qed.

(** The same, after data was saved. *)
Record loose (w w' : W) : Prop := {
  lo_store : keeps (store w) (store w');
  lo_view : forall d, view (w_md w') d = view (w_md w) d;
  lo_device : cx_deviceId (w_cx w') = cx_deviceId (w_cx w);
  lo_version : cx_remoteSoftwareVersion (w_cx w') = cx_remoteSoftwareVersion (w_cx w);
  lo_offset : cx_timeOffset (w_cx w') = cx_timeOffset (w_cx w);
  lo_clock : lastLocalTime_ (w_md w) <= lastLocalTime_ (w_md w')
}.

#[export] Instance loose_pre : PreOrder loose.
Proof. split; [by intros w; split |]. intros w1 w2 w3 [] []. split; [by etrans | ..]; intros; etrans; eauto. Qed.

Lemma firm_loose w w' : firm w w' -> loose w w'.
Proof. intros []. by split. Qed.

Lemma firm_meta w m : read_only (w_md w) m -> firm w (set_md w m).
Proof. intros (Hv & Hs & Hp & Hl). split; cbn; rewrite ?Hs; try done. Qed.

Ltac firm_change :=
  idtac; lazymatch goal with
  | |- stays _ (on_world _) =>
    let E := fresh in intros ? ? ? E; unfold on_world in E; repeat case_match; simplify_eq;
    first [by split | match goal with G : GetTime _ _ _ = _ |- _ => apply GetTime_view in G as (? & Gs & ? & ?); split; cbn; rewrite ?Gs; done end]
  | |- forall _ _ _, _ -> _ _ (set_md _ _) =>
    let E := fresh in intros ? ? ? E; apply firm_meta;
    first [by apply GetLocalWaterMark_view in E as [_ E] | by apply GetPeerWaterMark_view in E as [_ E]
          | by apply GetRemoveDataMark_view in E as [_ E] | eapply GetTimeOffset_view, E]
  | _ => intros; lazymatch goal with |- _ /\ _ => split | _ => idtac end; by split
  end.
Ltac firm := stays_with firm_change.

Lemma StartFeedDogForSync_firm t flag : stays firm (StartFeedDogForSync (St := St) (Tok := Tok) t flag).
Proof. firm. Qed.
Lemma Send_firm m len : stays firm (Send (St := St) (Tok := Tok) m len).
Proof. firm. Qed.
Lemma full_local_firm t q : is_query_type t = false -> stays firm (ds_GetLocalWaterMark (St := St) (Tok := Tok) t q).
Proof. intros E. unfold ds_GetLocalWaterMark. rewrite E. cbn [negb]. firm. Qed.
Lemma full_peer_firm t q d : is_query_type t = false -> stays firm (ds_GetPeerWaterMark (St := St) (Tok := Tok) t q d).
Proof. intros E. unfold ds_GetPeerWaterMark. rewrite E. cbn [negb]. firm. Qed.

#[local] Hint Resolve StartFeedDogForSync_firm Send_firm full_local_firm full_peer_firm : stays.

Lemma SetAckPacket_firm p c t : is_query_type (GetSyncType (rq_mode p)) = false -> stays firm (SetAckPacket (St := St) (Tok := Tok) p c t).
Proof. intros E. unfold SetAckPacket. rewrite E. cbn [andb]. firm. Qed.

Definition full_packet (m : SyncMessage) : Prop := forall p, GetDataRequest m = Some (Some p) -> is_query_type (GetSyncType (rq_mode p)) = false.

Lemma stays_defined_bind {A B} (o : option A) (k : A -> Act St Tok B) : (forall a, o = Some a -> stays firm (k a)) -> stays firm (defined o ≫= k).
Proof.
  intros Hk w b w' E. unfold mbind, act_bind, defined in E. destruct o as [a|]; cbn in E; [| done]. exact (Hk a eq_refl w b w' E).
Qed.

Lemma SendDataAck_firm m c t : full_packet m -> stays firm (SendDataAck (St := St) (Tok := Tok) m c t).
Proof.
  intros Hm. unfold SendDataAck. apply stays_defined_bind. intros [p|] E; [| firm].
  pose proof (SetAckPacket_firm p c t (Hm p E)) as Hp. firm.
Qed.

Lemma utils_RunPermissionCheck_firm mode : stays firm (utils_RunPermissionCheck (St := St) (Tok := Tok) mode).
Proof. firm. Qed.
Lemma CheckPermitReceiveData_firm : stays firm (CheckPermitReceiveData (St := St) (Tok := Tok)).
Proof. firm. Qed.
Lemma RemotePushFinished_firm a b c d : stays firm (RemotePushFinished (St := St) (Tok := Tok) a b c d).
Proof. firm. Qed.
Lemma GetPullEndWatermark_firm p : stays firm (GetPullEndWatermark (St := St) (Tok := Tok) p).
Proof. firm. Qed.
Lemma GetCurrentLocalTime_firm : stays firm (GetCurrentLocalTime (St := St) (Tok := Tok)).
Proof. firm. Qed.

#[local] Hint Resolve SendDataAck_firm utils_RunPermissionCheck_firm CheckPermitReceiveData_firm RemotePushFinished_firm
  GetPullEndWatermark_firm GetCurrentLocalTime_firm : stays.

Lemma RunPermissionCheck_firm m p : full_packet m -> stays firm (RunPermissionCheck (St := St) (Tok := Tok) m p).
Proof. intros Hm. firm. Qed.
Lemma CheckSchemaStrategy_firm m : full_packet m -> stays firm (CheckSchemaStrategy (St := St) (Tok := Tok) m).
Proof. intros Hm. firm. Qed.
Lemma RequestQueryCheck_firm p : is_query_type (GetSyncType (rq_mode p)) = false -> stays firm (RequestQueryCheck (St := St) (Tok := Tok) p).
Proof. intros E. unfold RequestQueryCheck. rewrite E. cbn [negb]. firm. Qed.

#[local] Hint Resolve RunPermissionCheck_firm CheckSchemaStrategy_firm RequestQueryCheck_firm : stays.

(** * Receiving *)

Definition peer_mark (w : W) : Z := peerWaterMark (view (w_md w) (cx_deviceId (w_cx w))).

(** What is known of the clocks: the offsets of the time of the device that sends, and a time
    that the device that receives has given out. *)
Context (offsets : Z -> Prop) (since : Z).

(** The device that sends does not want its data removed. *)
Record receiver_ok (w : W) : Prop := {
  rc_offset : offsets (cx_timeOffset (w_cx w));
  rc_clock : 0 <= since <= lastLocalTime_ (w_md w);
  rc_version : SOFTWARE_VERSION_RELEASE_3_0 < cx_remoteSoftwareVersion (w_cx w);
  rc_clear : clearDeviceDataMark (view (w_md w) (cx_deviceId (w_cx w))) <> REMOVE_DEVICE_DATA_MARK
}.

Lemma loose_ok w w' : loose w w' -> receiver_ok w -> receiver_ok w'.
Proof. intros [_ Hv Hd Hr Ho Hl] [Ro Rt Rv Rc]. split; rewrite ?Hr, ?Hd, ?Hv, ?Ho; [done | lia | done | done]. Qed.

Lemma loose_mark w w' : loose w w' -> peer_mark w' = peer_mark w.
Proof. intros [_ Hv Hd _ _ _]. unfold peer_mark. by rewrite Hd, Hv. Qed.

Lemma DataRequestRecvPre_firm m p w : receiver_ok w -> GetDataRequest m = Some (Some p) -> full_packet m ->
  wp (DataRequestRecvPre (Some m)) (fun r w' => (forall m' p', r = inr (m', p') -> m' = m /\ p' = p) /\ firm w w') w.
Proof.
  intros [_ _ Rv _] Ep Hm. unfold DataRequestRecvPre. wp_steps. rewrite Ep in *. simplify_eq. wp_steps. cbn [id].
  rewrite (proj2 (Z.leb_gt _ _)) by (unfold SOFTWARE_VERSION_RELEASE_3_0, SOFTWARE_VERSION_BASE in *; lia).
  destruct (_ =? - E_VERSION_NOT_SUPPORT).
  { wp_steps. eapply (wp_stays firm); [by apply SendDataAck_firm |]. intros ? w1 Hw1. by wp_steps. }
  destruct (_ && _); [by wp_steps |]. wp_steps. eapply (wp_stays firm); [by apply RunPermissionCheck_firm |]. intros e1 w1 Hw1.
  destruct (is_ok e1); cbn [negb]; [| by wp_steps]. wp_steps.
  eapply (wp_stays firm); [destruct (_ <? _); [by apply CheckSchemaStrategy_firm | apply stays_mret; apply _] |]. intros e2 w2 Hw2. wp_steps.
  eapply (wp_stays firm); [destruct (is_ok e2); [apply RequestQueryCheck_firm, Hm, Ep | apply stays_mret; apply _] |]. intros e3 w3 Hw3.
  assert (Hw : firm w w3) by (transitivity w1; [done | by transitivity w2]).
  destruct (is_ok e3); cbn [negb]; wp_steps; [split; [| done]; intros m' p' E'; by simplify_eq |].
  eapply (wp_stays firm); [by apply SendDataAck_firm |]. intros ? w4 Hw4. wp_steps. split; [done | by transitivity w3].
Qed.

Lemma RemoveDeviceDataHandle_firm m p t w : receiver_ok w ->
  wp (RemoveDeviceDataHandle m p t) (fun e w' => e = E_OK /\ firm w w') w.
Proof.
  intros [_ _ Rv Rc]. unfold RemoveDeviceDataHandle. wp_steps. cbn [id]. rewrite (proj2 (Z.ltb_lt _ _) Rv). wp_steps.
  apply wp_on_meta. intros x md E. apply GetRemoveDataMark_view in E as [-> Hr]. wp_steps.
  rewrite (proj2 (Z.eqb_neq _ _) Rc). cbn [negb]. wp_steps. split; [done | by apply firm_meta].
Qed.

(** The mark of the packet is not beyond the peer water mark, or nothing happens. *)
Lemma WaterMarkErrHandle_firm m p w : full_packet m -> is_query_type (GetSyncType (rq_mode p)) = false ->
  wp (WaterMarkErrHandle (GetSyncType (rq_mode p)) m p) (fun b w' => (b = false -> rq_localWaterMark p <= peer_mark w) /\ firm w w') w.
Proof.
  intros Hm Hq. unfold WaterMarkErrHandle. rewrite Hq. cbn [negb andb orb]. wp_steps.
  apply wp_mono with (Q := fun x w' => x = peer_mark w /\ firm w w').
  { apply wp_both; [by apply full_peer_firm |]. unfold ds_GetPeerWaterMark. rewrite Hq. cbn. apply wp_on_meta.
    intros x md E. by apply GetPeerWaterMark_view in E as [-> _]. }
  intros ? w1 [-> Hw1]. wp_steps. rewrite orb_false_r. destruct (peer_mark w <? rq_localWaterMark p) eqn:E; wp_steps.
  - eapply (wp_stays firm); [by apply SendDataAck_firm |]. intros ? w2 Hw2. wp_steps. split; [done |].
    transitivity w1; [done |]. etrans; [| exact Hw2]. by split.
  - apply Z.ltb_ge in E. done.
Qed.

(** What a saved entry has become. *)
Definition copy_of (e e' : DataItem) : Prop :=
  exists offset now, offsets offset /\ since < now < 2 ^ 64 /\ e' = item_to_local offset now (TransferHashString local_identity) e.

(** The storage takes the entries, whatever becomes of their time stamps. *)
Definition takes (data : list SendDataItem) : Prop := forall offset now h, 0 <= now < 2 ^ 64 -> puttable (option_map (item_to_local offset now h) <$> data).

(** The largest time is not given out yet. *)
Definition clock_runs (w : W) : Prop := lastLocalTime_ (w_md w) < 2 ^ 64 - 1.

Lemma GetTime_later (m : Metadata St) c now t m' c' : 0 <= lastLocalTime_ m -> GetTime m c now = (t, (m', c')) -> lastLocalTime_ m' < 2 ^ 64 - 1 ->
  lastLocalTime_ m < t.
Proof.
  intros H0' E Hl. unfold GetTime in E. destruct (GetSysCurrentTime c now) as [x c1]. unfold GetLastLocalTime in E.
  destruct (_ || _) eqn:Eb; injection E as <- <- _; rewrite SetLastLocalTime_max in Hl.
  - rewrite (wrap_small 64) by lia. lia.
  - apply orb_false_iff in Eb as [?%Z.leb_gt _]. lia.
Qed.

Lemma GetCurrentLocalTime_range w : 0 <= lastLocalTime_ (w_md w) ->
  wp GetCurrentLocalTime (fun t w' => (0 <= t < 2 ^ 64 /\ (clock_runs w' -> lastLocalTime_ (w_md w) < t)) /\ firm w w') w.
Proof.
  intros Hl. apply wp_both; [apply GetCurrentLocalTime_firm |].
  unfold GetCurrentLocalTime. wp_steps. unfold wp, on_world. destruct (GetTime _ _ _) as [t [m' c']] eqn:E. cbn. split.
  - unfold GetTime in E. destruct (GetSysCurrentTime _ _) as [x c]. destruct (_ || _); injection E as <- _ _; apply (wrap_range 64); lia.
  - intros Hr. eapply (GetTime_later _ _ _ _ m' c'); [| exact E | exact Hr]. done.
Qed.

Lemma SaveData_saves data q w : receiver_ok w -> room (store w) -> takes data -> wp (SaveData data q) (fun c w' =>
  (c = E_OK -> clock_runs w' -> forall e, Some e ∈ data -> exists e', copy_of e e' /\ saved (store w') e') /\ loose w w') w.
Proof.
  intros Hok Hroom Ht. pose proof (rc_clock _ Hok) as Hsince. unfold SaveData. destruct (is_empty data) eqn:Ee.
  { wp_steps. split; [| reflexivity]. destruct data; [by intros _ _ e ?%elem_of_nil | done]. }
  wp_steps. eapply wp_mono; [apply GetCurrentLocalTime_range; lia |]. cbv beta. intros now w1 [[Hnow Hlate] Hw1]. cbv zeta. apply wp_on_storage.
  intros c st E. apply sv_put in E as [Hk Hs]; [| by apply Hw1 | by apply Ht]. cbn.
  split; [| transitivity w1; [by apply firm_loose | by split]].
  intros -> Hruns e He. eexists. split; [| apply Hs; [done |]; apply list_elem_of_fmap; by exists (Some e)].
  do 2 eexists. split_and!; [exact (rc_offset _ Hok) | | apply Hnow | done]. specialize (Hlate Hruns). lia.
Qed.

(** The peer water mark is saved, or not. *)
Definition moved (x : Z) (w w' : W) : Prop :=
  keeps (store w) (store w') /\ cx_deviceId (w_cx w') = cx_deviceId (w_cx w) /\ (receiver_ok w -> receiver_ok w')
  /\ lastLocalTime_ (w_md w) <= lastLocalTime_ (w_md w') /\ (peer_mark w' = x \/ peer_mark w' = peer_mark w).

Lemma loose_moved x w w' : loose w w' -> moved x w w'.
Proof. intros Hf. split_and!; [apply Hf | apply Hf | by apply loose_ok | apply Hf | right; by apply loose_mark]. Qed.

Lemma moved_loose x w w1 w' : loose w w1 -> moved x w1 w' -> moved x w w'.
Proof.
  intros Hf (K & D & R & L & P). rewrite (loose_mark _ _ Hf) in P.
  split_and!; [etrans; [apply Hf | done] | rewrite D; apply Hf | intros ?; by apply R, (loose_ok w) | etrans; [apply Hf | done] | done].
Qed.

Lemma SavePeerWaterMark_moves w x c m' : SavePeerWaterMark (w_md w) (cx_deviceId (w_cx w)) x true = (c, m') -> moved x w (set_md w m').
Proof.
  unfold SavePeerWaterMark. destruct (GetMetaDataValue _ _ true) as [v m1] eqn:Ev.
  apply GetMetaDataValue_view in Ev as (-> & (Hv & Hs & Hn & Hlast) & Ed). intros E.
  assert (Hl : lastLocalTime_ m' = lastLocalTime_ m1) by (pose proof (save_value_last m1 (cx_deviceId (w_cx w)) (set_peerWaterMark (view (w_md w) (cx_deviceId (w_cx w))) x)) as El; by rewrite E in El).
  apply SaveMetaDataValue_view in E as (_ & Hst & Hview).
  2: { rewrite Ed. unfold hash_id_of. by rewrite Ed. }
  rewrite Hs in Hst. set (d := cx_deviceId (w_cx w)) in *.
  assert (Hk : keeps (store w) (md_store m')) by (destruct Hst as [-> | (k & y & e' & [Hp _]%sv_meta)]; done).
  assert (Hd : view m' d = set_peerWaterMark (view (w_md w) d) x \/ view m' d = view (w_md w) d) by (destruct (c =? E_OK); [by left | right; by rewrite Hview]).
  split_and!; [done | done | | cbn; lia |].
  - intros [Ro Rt Rv Rc]. split; [done | cbn; lia | done |]. cbn. fold d. by destruct Hd as [-> | ->].
  - unfold peer_mark. cbn. fold d. destruct Hd as [-> | ->]; [by left | by right].
Qed.

Lemma UpdatePeerWaterMark_moves t x w : is_query_type t = false -> wp (UpdatePeerWaterMark t [] x 0) (fun _ w' => moved x w w') w.
Proof.
  intros Hq. unfold UpdatePeerWaterMark. destruct (_ && _); [wp_steps; apply loose_moved; reflexivity |]. wp_steps. rewrite Hq. cbn [negb]. wp_steps.
  apply wp_on_meta. intros c m' E. wp_steps. by eapply SavePeerWaterMark_moves.
Qed.

(** What a packet does: the mark stays where it is, or the packet started there or before, is
    saved, and the mark is after its latest entry. *)
Definition received (p : DataRequestPacket) (w w' : W) : Prop :=
  keeps (store w) (store w') /\ cx_deviceId (w_cx w') = cx_deviceId (w_cx w) /\ receiver_ok w'
  /\ (peer_mark w' = peer_mark w
      \/ rq_localWaterMark p <= peer_mark w
         /\ (clock_runs w' -> forall e, Some e ∈ rq_data p -> exists e', copy_of e e' /\ saved (store w') e')
         /\ exists e, Some e ∈ rq_data p /\ peer_mark w' = u64 (timestamp e + 1)
                      /\ forall e', Some e' ∈ rq_data p -> timestamp e' <= timestamp e).

Lemma loose_received p w w' : receiver_ok w -> loose w w' -> received p w w'.
Proof. intros Hok Hf. split_and!; [apply Hf | apply Hf | by eapply loose_ok | left; by apply loose_mark]. Qed.

Lemma firm_received p w w' : receiver_ok w -> firm w w' -> received p w w'.
Proof. intros Hok ?%firm_loose. by apply loose_received. Qed.

Lemma DataRequestRecv_received m p w : receiver_ok w -> room (store w) -> takes (rq_data p) -> GetDataRequest m = Some (Some p) ->
  is_query_type (GetSyncType (rq_mode p)) = false -> (forall x, x ∈ rq_data p -> exists e, x = Some e /\ 0 <= timestamp e) ->
  wp (DataRequestRecv (Some m)) (fun _ w' => received p w w') w.
Proof.
  intros Hok Hroom Htakes Ep Hq Hdata. assert (Hm : full_packet m) by (intros p' Ep'; by simplify_eq).
  unfold DataRequestRecv. wp_steps. eapply wp_mono; [by eapply DataRequestRecvPre_firm |]. cbv beta. intros [c|[m' p']] w1 [Er Hw1].
  { wp_steps. by apply firm_received. }
  destruct (Er m' p' eq_refl) as [-> ->]. clear Er. cbv zeta. wp_steps. set (w2 := set_cx w1 _).
  assert (Hw2 : firm w w2) by (transitivity w1; [done | by split]). clearbody w2.
  unfold GetRecvDataTimeRange. rewrite Hq. cbn [negb]. destruct (GetFullSyncDataTimeRange (rq_data p) 0) as [r u] eqn:Eru.
  pose proof (full_range_ok 0 (rq_data p) Hdata) as [_ Hrange]. rewrite Eru in Hrange. cbn [fst snd] in Hrange. wp_steps.
  eapply wp_mono; [apply RemoveDeviceDataHandle_firm, (loose_ok _ _ (firm_loose _ _ Hw2) Hok) |]. cbv beta. intros ? w3 [-> Hw3].
  change (is_ok E_OK) with true. cbn [negb]. wp_steps.
  eapply wp_mono; [by apply WaterMarkErrHandle_firm |]. cbv beta. intros b w4 [Hb Hw4].
  assert (Hf4 : firm w w4) by (transitivity w2; [done | by transitivity w3]). destruct b; [wp_steps; by apply firm_received |].
  assert (Hf3 : firm w w3) by (by transitivity w2). rewrite (loose_mark _ _ (firm_loose _ _ Hf3)) in Hb. specialize (Hb eq_refl). wp_steps.
  eapply (wp_stays firm); [apply GetPullEndWatermark_firm |]. intros pull w5 Hw5. wp_steps.
  assert (Hf5 : firm w w5) by (by transitivity w4).
  eapply wp_mono; [apply SaveData_saves; [exact (loose_ok _ _ (firm_loose _ _ Hf5) Hok) | by apply Hf5 | done] |]. cbv beta. intros c w6 [Hs Hw6].
  assert (Hf6 : loose w w6) by (transitivity w5; [by apply firm_loose | done]). destruct (is_ok c) eqn:Ec; cbn [negb]; wp_steps.
  2: { eapply (wp_stays firm); [by apply SendDataAck_firm |]. intros ? w7 Hw7%firm_loose. wp_steps. apply loose_received; [done | by transitivity w6]. }
  apply Z.eqb_eq in Ec. specialize (Hs Ec).
  apply wp_mono with (Q := fun _ w' => loose w6 w').
  { destruct (_ && _); wp_steps; (eapply (wp_stays firm); [by apply SendDataAck_firm |]; intros ? w7 ?%firm_loose; by wp_steps). }
  intros [c' pull'] w7 Hw7. wp_steps. eapply (wp_stays firm); [apply RemotePushFinished_firm |]. intros [] w8 Hw8%firm_loose. wp_steps.
  assert (Hf8 : loose w w8) by (transitivity w6; [done | by transitivity w7]).
  assert (Hkeep : keeps (store w6) (store w8)) by (etrans; [apply Hw7 | apply Hw8]).
  apply wp_mono with (Q := fun _ w' => received p w w').
  2: { intros [] w9 Hr. destruct (is_ok c'); cbn [negb]; [| by wp_steps]. destruct (_ =? SEND_FINISHED); by wp_steps. }
  cbn [andb]. destruct (normalUpdateMark u) eqn:Eu; [| wp_steps; by apply loose_received].
  eapply wp_mono; [by apply UpdatePeerWaterMark_moves |]. cbv beta. intros [] w9 Hmv. pose proof (moved_loose _ _ _ _ Hf8 Hmv) as (K & D & R & L & P).
  split_and!; [done | done | by apply R |]. destruct P as [P | P]; [right | by left].
  destruct Hrange as [(_ & _ & ?) | (_ & (e & He & Ee) & Hall)]; [congruence |]. split_and!; [done | |].
  - intros Hruns e0 He0. destruct Hmv as (Hk9 & _ & _ & L9 & _). pose proof (lo_clock _ _ Hw7). pose proof (lo_clock _ _ Hw8).
    destruct (Hs ltac:(unfold clock_runs in *; lia) e0 He0) as (e' & ? & ?). exists e'. split; [done |]. by apply Hk9, Hkeep.
  - exists e. split_and!; [done | by rewrite P, Ee | intros e' He'; rewrite <- Ee; by apply Hall].
Qed.

End Receiver.

Section Safety.
Context `{Host} `{Heap} `{Zlib} `{ValueHash} `{DeviceHash}.

(** The device that sends and the one that receives, each with its own storage and
    surroundings. *)
Context (envA envB : SyncEnv) `{PagedLaws StA TokA} `{SavingLaws StB TokB}.
Abbreviation WA := (World StA TokA).
Abbreviation WB := (World StB TokB).
Abbreviation store w := (md_store (w_md w)).

(** The offsets the device that receives has for the time of the other, and a time it has given
    out before. *)
Context (offsets : Z -> Prop) (since : Z).
Abbreviation receiver_ok := (SyncSafety.receiver_ok offsets since).
Abbreviation received := (SyncSafety.received (H4 := envB) offsets since).
Abbreviation copy_of := (SyncSafety.copy_of (H4 := envB) offsets since).

(** What else happens on the device that receives: it keeps what it has and the peer water mark,
    or it removes the data of the device and starts anew. *)
Definition receiver_other (w w' : WB) : Prop :=
  receiver_ok w' /\ (keeps (store w) (store w') /\ peer_mark w' = peer_mark w \/ peer_mark w' = 0).

(** A packet that was sent arrives, now, later, several times or never, as the data of some
    message; the storage has room for it, and the clock has not come to its end. *)
Inductive system_step : WA * WB -> WA * WB -> Prop :=
  | step_sender wA wA' wB : sender_step (H4 := envA) wA wA' -> system_step (wA, wB) (wA', wB)
  | step_deliver wA wB wB' m m' p r : room (store wB) -> m ∈ w_sent wA -> GetDataRequest m = Some (Some p) -> GetDataRequest m' = Some (Some p) ->
    DataRequestRecv (H4 := envB) (Some m') wB = Some (r, wB') -> clock_runs wB' -> system_step (wA, wB) (wA, wB')
  | step_receiver wA wB wB' : receiver_other wB wB' -> system_step (wA, wB) (wA, wB').

(** A write of the one device has reached the storage of the other, with the time stamps and the
    origin as that device sees them. *)
Definition arrived (stB : StB) (e : DataItem) : Prop :=
  exists o e', copy_of (with_origDev e o) e' /\ saved stB e'.

Lemma arrived_keeps stB stB' e : keeps stB stB' -> arrived stB e -> arrived stB' e.
Proof. intros Hk (o & e' & ? & ?). exists o, e'. split; [done | by apply Hk]. Qed.

(** What the device that receives believes to have, it has. *)
Record system_ok (wA : WA) (wB : WB) : Prop := {
  so_sender : exists st0, sender_ok st0 wA;
  so_receiver : receiver_ok wB;
  so_mark : peer_mark wB <= next_stamp (store wA);
  so_arrived : forall e, local_write (store wA) e -> timestamp e < peer_mark wB -> arrived (store wB) e
}.

Context (Hsend : forall n m, sent_code (env_send (SyncEnv := envA) n m)).
(** The one storage takes what the other gives. *)
Context (Htakes : forall out, batch out -> takes out).

Lemma deliver_ok wA wB wB' p : clock_runs wB' -> sound_packet (store wA) p -> received p wB wB' -> system_ok wA wB -> system_ok wA wB'.
Proof.
  intros Hruns (_ & Hlm & Hx & Hc & _) (Hk & _ & Hr & Hp) [[st0 Ss] Sr Sm Sa]. destruct Hp as [Hp | (Hle & Hs & e & He & Hp & Hmax)].
  - split; rewrite ?Hp; [by exists st0 | done | done |]. intros e He Hlt. eapply arrived_keeps; [exact Hk | auto].
  - destruct (Hx _ He) as (e' & [= <-] & Hrange). pose proof (pl_next _ (sb_store _ _ (proj1 Ss))) as Hn.
    assert (Hpeer : peer_mark wB' = timestamp e + 1) by (rewrite Hp; apply (wrap_small 64); unfold INT64_MAX in *; lia).
    split; [by exists st0 | done | lia |]. intros e0 He0 Hlt.
    destruct (decide (timestamp e0 < peer_mark wB)) as [Hold | Hnew]; [eapply arrived_keeps; [exact Hk | auto] |].
    destruct (Hc e0 e He0) as [o Ho]; [lia | done | lia |]. destruct (Hs Hruns _ Ho) as (e1 & Hcopy & Hsaved). by exists o, e1.
Qed.

Lemma system_step_ok s s' : system_step s s' -> system_ok s.1 s.2 -> system_ok s'.1 s'.2.
Proof.
  destruct 1 as [wA wA' wB Hs | wA wB wB' m m' p r Hroom Hm Ep Ep' E Hruns | wA wB wB' [Hr Ho]]; cbn; intros Hok.
  - destruct Hok as [[st0 Ss] Sr Sm Sa]. pose proof (sender_step_grows Hsend st0 wA wA' Hs Ss) as (Gok & Gw & Gn).
    split; [exists st0; exact (sender_step_ok Hsend st0 wA wA' Hs Ss) | done | lia |].
    intros e [He | He]%Gw Hlt; [by apply Sa | lia].
  - pose proof Hok as [[st0 Ss] Sr Sm Sa]. pose proof (sb_sent _ _ (proj1 Ss) m p Hm Ep) as Hsound. pose proof Hsound as (Hq & Hlm & Hx & _ & Hbatch).
    assert (Hdata : forall x, x ∈ rq_data p -> exists e, x = Some e /\ 0 <= timestamp e).
    { intros x (e & -> & ? & _)%Hx. exists e. split; [done | lia]. }
    eapply deliver_ok; [exact Hruns | exact Hsound | | exact Hok].
    exact (wp_use _ _ wB r wB' (DataRequestRecv_received offsets since m' p wB Sr Hroom (Htakes _ Hbatch) Ep' Hq Hdata) E).
  - destruct Hok as [[st0 Ss] Sr Sm Sa]. destruct Ho as [[Hk Hp] | Hp].
    + split; rewrite ?Hp; [by exists st0 | done | done |]. intros e He Hlt. eapply arrived_keeps; [exact Hk | auto].
    + pose proof (pl_next _ (sb_store _ _ (proj1 Ss))) as Hn. split; rewrite ?Hp; [by exists st0 | done | lia |].
      intros e He Hlt. pose proof (pl_stamp _ e (sb_store _ _ (proj1 Ss)) He). lia.
Qed.

(** From the first contact on. *)
Lemma system_safe wA0 wB0 wA wB : sender_new wA0 -> receiver_ok wB0 -> peer_mark wB0 = 0 ->
  rtc system_step (wA0, wB0) (wA, wB) -> system_ok wA wB.
Proof.
  intros Hnew Hr Hp Hrun. change (system_ok (wA, wB).1 (wA, wB).2).
  assert (Hok0 : system_ok (wA0, wB0).1 (wA0, wB0).2).
  { pose proof (sender_new_ok _ Hnew) as Ss. pose proof (sn_store _ Hnew) as Hst. cbn. pose proof (pl_next _ Hst).
    split; rewrite ?Hp; [by eexists | done | lia |]. intros e He Hlt. pose proof (pl_stamp _ e Hst He). lia. }
  revert Hok0. induction Hrun as [|s1 s2 s3 Hs _ IH]; [done |]. intros Hok. apply IH. by eapply system_step_ok.
Qed.

End Safety.
