(* ===== verification/NaturalSync.v ===== *)
(** The natural store gives its data page by page, and saves what it receives, as the
    synchronization relies on: the interfaces [PagedLaws] and [SavingLaws] are discharged by the
    reading and the writing side of the store; and two devices with natural stores. *)

From S2P Require Import Prelude Memory Parcel CommTypes SerialBuffer SyncStorage CommitNotify SqliteUtils StoreExecutor SqliteFacts StoreExecutorFacts.
From S2P Require Import NaturalStore NaturalStoreFacts Convergence QuerySync KvEntry SyncPacket DbAbility MetaData SyncRead SyncPages QueryMerge SubscribeManager SyncWorld.
From S2P Require Import SyncTask DataSync SyncViews SyncSender ControlSync SyncMachine StepTermination SenderRuns SyncSafety.
From Stdlib Require Import ZArith Lia.
From Stdlib Require Import Strings.Byte.
From stdpp Require Import base numbers list sorting gmap.

Open Scope Z_scope.

(** The store, its meta data (another table, with an interface of its own), and how many calls it
    has had. *)
Record NsState {Mt : Type} := mkNsState {
  ns_store : Store;
  ns_meta : Mt;
  ns_calls : nat
}.
Arguments NsState : clear implicits.
Arguments mkNsState {Mt}.

Section Natural.
Context `{Sqlite} `{ValueHash} `{StoreConfig} {Mt : Type} `{SyncStorage Mt}.
(** What the calls find; how a query is evaluated. *)
Context (reads : nat -> ReadEnv) (saves : nat -> Env) (as_query : QuerySyncObject -> Query).
Abbreviation Ns := (NsState Mt).
Implicit Types st : Ns.

#[export] Instance ns_storage : SyncStorage Ns := {|
  SyncStorage.GetMetaData := fun st => GetMetaData (ns_meta st);
  PutMetaData := fun st k v => let '(e, m) := PutMetaData (ns_meta st) k v in (e, mkNsState (ns_store st) m (ns_calls st));
  DeleteMetaData := fun st ks => let '(e, m) := DeleteMetaData (ns_meta st) ks in (e, mkNsState (ns_store st) m (ns_calls st));
  DeleteMetaDataByPrefixKey := fun st k =>
    let '(e, m) := DeleteMetaDataByPrefixKey (ns_meta st) k in (e, mkNsState (ns_store st) m (ns_calls st));
  GetAllMetaKeys := fun st => GetAllMetaKeys (ns_meta st);
  SyncStorage.GetMaxTimestamp := fun st => NaturalStore.GetMaxTimestamp (ns_store st)
|}.

(** A read of the store, with the answers of the surroundings to it. *)
Definition ns_read (f : Store -> ReadEnv -> Z * list DataItem * option ContinueToken * Store) st
    : Z * list SendDataItem * option ContinueToken * Ns :=
  let '(c, items, tok, s) := f (ns_store st) (reads (ns_calls st)) in
  (c, Some <$> items, tok, mkNsState s (ns_meta st) (S (ns_calls st))).

(** Entries are saved. *)
Definition ns_put st (q : QuerySyncObject) (items : list SendDataItem) (device : DeviceID) : Z * Ns :=
  let '(c, s) := PutSyncDataWithQuery (ns_store st) (saves (ns_calls st)) (as_query q) items device in
  (c, mkNsState s (ns_meta st) (S (ns_calls st))).

(** The interface of the natural store: reading and saving, and [rest]. *)
Definition ns_interface (rest : SyncGenericInterface Ns ContinueToken) : SyncGenericInterface Ns ContinueToken := {|
  sg_GetSyncData := fun st b e info => ns_read (fun s env => GetSyncData s env b e info) st;
  sg_GetSyncDataNext := fun st t info => ns_read (fun s env => GetSyncDataNext s env t info) st;
  sg_GetSyncData_query := sg_GetSyncData_query (SyncGenericInterface := rest);
  sg_ReleaseContinueToken := fun st _ => st;
  sg_PutSyncDataWithQuery := ns_put;
  sg_RemoveDeviceData := sg_RemoveDeviceData (SyncGenericInterface := rest);
  sg_InterceptData := sg_InterceptData (SyncGenericInterface := rest);
  sg_CheckAndInitQueryCondition := sg_CheckAndInitQueryCondition (SyncGenericInterface := rest);
  sg_AddSubscribe := sg_AddSubscribe (SyncGenericInterface := rest);
  sg_RemoveSubscribe := sg_RemoveSubscribe (SyncGenericInterface := rest);
  sg_GetCompressionOption := sg_GetCompressionOption (SyncGenericInterface := rest);
  sg_GetCompressionAlgo := sg_GetCompressionAlgo (SyncGenericInterface := rest);
  sg_GetSecurityOption := sg_GetSecurityOption (SyncGenericInterface := rest);
  sg_IsReadable := sg_IsReadable (SyncGenericInterface := rest);
  sg_GetInterfaceType := sg_GetInterfaceType (SyncGenericInterface := rest)
|}.

Definition ns_table st : Table := committed (db (exec (ns_store st))).

(** An entry of a full synchronization that can be saved. *)
Record ns_entry (e : DataItem) : Prop := {
  ne_local : has_flag (flag e) LOCAL_FLAG = false;
  ne_query : is_miss_query (flag e) = false;
  ne_stamp : 0 <= writeTimestamp e < 2 ^ 64;
  ne_hash : is_Some (item_hash e)
}.

(** Entries of different keys. *)
Definition ns_batch (out : list SendDataItem) : Prop :=
  exists items, out = Some <$> items /\ Forall ns_entry items /\ NoDup (item_hash <$> items).

(** Local writes have different time stamps, not beyond the largest the store knows; they are
    found by the hash of their key. *)
Record ns_ok st : Prop := {
  no_stamped : stamped (ns_table st);
  no_max : forall h row, ns_table st !! h = Some row -> local_row row -> r_timestamp row <= currentMaxTimestamp_ (ns_store st);
  no_range : 0 <= currentMaxTimestamp_ (ns_store st) < INT64_MAX - 1;
  no_entry : forall h row, ns_table st !! h = Some row -> local_row row ->
    is_miss_query (flag (GetDataItemForSync (h, row))) = false /\ item_hash (GetDataItemForSync (h, row)) = Some h
}.

#[export] Instance ns_paged : PagedStorage Ns ContinueToken := {|
  store_ok := ns_ok;
  local_write := fun st e => exists h row, ns_table st !! h = Some row /\ local_row row /\ e = GetDataItemForSync (h, row);
  next_stamp := fun st => currentMaxTimestamp_ (ns_store st) + 1;
  tok_begin := fun t => GetBeginTimestamp (timeRanges_ t);
  plain_token := fun t => exists b, t = newToken b INT64_MAX /\ 0 <= b <= INT64_MAX;
  batch := ns_batch
|}.

(** * Reading changes nothing *)

Lemma read_keeps {A} s (m : M A) : let '(_, s') := read s m in
  db (exec s') = db (exec s) /\ currentMaxTimestamp_ s' = currentMaxTimestamp_ s.
Proof. unfold read. destruct (m _) as [r x]. done. Qed.

Lemma read_page_keeps s env info token : let '(_, _, s') := read_page s env info token in
  db (exec s') = db (exec s) /\ currentMaxTimestamp_ s' = currentMaxTimestamp_ s.
Proof.
  unfold read_page. destruct (negb _); [done |]. pose proof (read_keeps s (GetSyncDataByTimestamp (GetBeginTimestamp (timeRanges_ token))
    (GetEndTimestamp (timeRanges_ token)) info GetAppendedLen [])) as Hk.
  destruct (read s _) as [r s']. by destruct (items_of r).
Qed.

Lemma GetSyncData_keeps s env b e info : let '(_, _, _, s') := GetSyncData s env b e info in
  db (exec s') = db (exec s) /\ currentMaxTimestamp_ s' = currentMaxTimestamp_ s.
Proof.
  unfold GetSyncData. destruct (_ || _); [done |]. destruct (negb _); [done |].
  pose proof (read_page_keeps s env info (newToken b e)) as Hk. destruct (read_page _ _ _ _) as [[c items] s'].
  destruct (ProcessContinueToken _ _ _ _) as [c' tok]. by destruct (_ && _ && _).
Qed.

Lemma GetSyncDataNext_keeps s env b e info : let '(_, _, _, s') := GetSyncDataNext s env (newToken b e) info in
  db (exec s') = db (exec s) /\ currentMaxTimestamp_ s' = currentMaxTimestamp_ s.
Proof.
  unfold GetSyncDataNext, GetSyncDataNext_plain, entries_or_release. cbn [queryObject_ newToken].
  destruct (_ <? _); [by destruct (negb _) |]. destruct (negb (re_handle env =? E_OK)); [repeat case_match; by simplify_eq |].
  pose proof (read_page_keeps s env info (newToken b e)) as Hk. destruct (read_page _ _ _ _) as [[c items] s'].
  destruct (ProcessContinueToken _ _ _ _) as [c' tok]. destruct (negb _); [done |]. by destruct (_ && _).
Qed.

(** * Statuses *)

(** A handle is not refused with the status of a page, of a time-out or of an end. *)
Definition honest_env (env : ReadEnv) : Prop :=
  page_ok (re_handle env) = (re_handle env =? E_OK) /\ re_handle env <> - E_TIMEOUT /\ re_handle env <> - E_FINISHED.

Definition calm_code (c : Z) : Prop := c <> - E_TIMEOUT /\ c <> - E_FINISHED.

Lemma read_page_code s env info token : honest_env env -> let '(e, _, _) := read_page s env info token in calm_code e.
Proof.
  intros (_ & Ht & Hf). unfold read_page. destruct (negb _); [done |]. unfold read, GetSyncDataByTimestamp.
  destruct (get_by_stamp_spec (SELECT_SYNC_ENTRIES (GetBeginTimestamp (timeRanges_ token)) (GetEndTimestamp (timeRanges_ token)))
    info GetAppendedLen [] (set_db (exec s) (mkDatabase (committed (db (exec s))) None))) as (items & e & x' & -> & Hp).
  cbn [items_of]. unfold finished_ok. destruct Hp as [(_ & _ & _ & Hb2 & _ & Hb & _) | (rows1 & rows2 & _ & _ & [[-> _] | [-> _]])]; [| done..].
  rewrite (proj2 (Z.eqb_neq _ _) Hb2). done.
Qed.

(** ** Statuses that start nothing again *)

Lemma bad_steady e : bad e -> steady e.
Proof. intros Hb. split; apply Hb. Qed.

(** [m] answers with [P], or with a steady status. *)
Definition sound {A} (P : A -> Prop) (m : M A) : Prop :=
  forall x, match (m x).1 with inr a => P a | inl e => steady e end.

Lemma sound_ret {A} (P : A -> Prop) a : P a -> sound P (ret a).
Proof. by intros Ha x. Qed.

Lemma sound_bind {A B} (Q : A -> Prop) (P : B -> Prop) (m : M A) k :
  sound Q m -> (forall a, Q a -> sound P (k a)) -> sound P (bind m k).
Proof.
  intros Hm Hk x. unfold bind. specialize (Hm x). destruct (m x) as [[e|a] x']; [done |]. by apply Hk.
Qed.

Lemma sound_try {A} (m : M A) : (forall x, exists P, result m x P) ->
  sound (fun r : Z + A => forall e, r = inl e -> steady e) (try_ m).
Proof.
  intros Hm x. unfold try_. destruct (Hm x) as [P Hr]. unfold result in Hr. destruct (m x) as [[e|a] x']; cbn; [| done].
  intros ? [= <-]. apply bad_steady, Hr.
Qed.

Lemma sound_gets {A} (f : Executor -> A) : sound (fun _ => True) (gets f).
Proof. by intros x. Qed.

Lemma reset_sound stm e : steady e -> sound (fun r => steady r.2) (ResetStatement stm true e).
Proof.
  intros He x. destruct (ResetStatement_spec stm true e x) as (stm' & e' & x' & -> & Hk & _). cbn.
  destruct Hk as [[-> _] | [_ ?]]; [done | by apply bad_steady].
Qed.

Lemma corrupted_sound e : steady e -> sound steady (CheckCorruptedStatus e).
Proof. intros He x. by destruct (CheckCorruptedStatus_spec e x) as (x' & -> & _). Qed.

Lemma items_sound stm info app : forall rows total items, sound (fun r => steady r.2) (GetSyncDataItems stm info app rows total items).
Proof.
  induction rows as [|row rows IH]; intros total items; cbn [GetSyncDataItems];
    (eapply sound_bind; [apply sound_try; eexists; apply step_select_spec |]); intros [e|u] He; try (apply sound_ret; auto; done).
  cbv zeta. destruct (packet_full _ _ _); [by apply sound_ret | apply IH].
Qed.

Lemma full_loop_sound stm info app m : forall rows total items,
  sound (fun r => forall l e, r = Stopped l e -> steady e) (full_loop stm info app m rows total items).
Proof.
  induction rows as [|row rows IH]; intros total items; cbn [full_loop];
    (eapply sound_bind; [apply sound_try; eexists; apply step_select_spec |]); intros [e|u] He;
    try (apply sound_ret; by intros ? ? [= <- <-]; auto).
  cbv zeta. destruct (match m with Some _ => _ | None => _ end) as [hit item]. unfold AppendDataItem.
  destruct (packet_full _ _ _); cbn; [by apply sound_ret; intros ? ? [= <- <-] |]. destruct hit; [by apply sound_ret | apply IH].
Qed.

Lemma query_loop_sound fs qs info app : forall rows full total items,
  sound (fun r => steady r.2) (query_loop fs qs info app rows full total items).
Proof.
  induction rows as [|row rows IH]; intros full total items; cbn [query_loop];
    (eapply sound_bind; [apply sound_try; eexists; apply step_select_spec |]); intros [e|u] He; try (apply sound_ret; auto; done).
  all: cbv zeta; apply (sound_bind (fun r => forall l e, r = Stopped l e -> steady e));
    [destruct full; [apply full_loop_sound | by apply sound_ret] |].
  all: intros [rs t l|t l|l e] Hr; first [apply IH | apply sound_ret; first [done | by eapply Hr]].
Qed.

Lemma bind_or_reset_sound stm k : sound (fun r => steady r.2) (bind_or_reset stm k).
Proof.
  unfold bind_or_reset. eapply sound_bind; [apply sound_try; eexists; apply bind_values_calm |].
  intros [e|u] He; [by apply reset_sound, He | by apply sound_ret].
Qed.

Lemma query_statement_sound q : steady (sq_helper q) -> sound (fun r => steady r.2) (GetQueryDataStatement q).
Proof.
  intros Hq. unfold GetQueryDataStatement. destruct (negb _); [by apply sound_ret |]. destruct (negb _); [by apply sound_ret |].
  eapply sound_bind; [apply sound_try; eexists; apply GetStatement_spec |].
  intros [e|stm] He; [by apply sound_ret | apply bind_or_reset_sound].
Qed.

Lemma full_statement_sound : sound (fun r => steady r.2) GetFullDataStatement.
Proof.
  unfold GetFullDataStatement. eapply sound_bind; [apply sound_try; eexists; apply GetStatement_spec |].
  intros [e|stm] He; [by apply sound_ret; apply He | apply bind_or_reset_sound].
Qed.

Lemma query_read_sound q b e info app l : steady (sq_helper q) -> sound (fun r => steady r.2) (GetSyncDataWithQuery q b e info app l).
Proof.
  intros Hq. unfold GetSyncDataWithQuery. eapply sound_bind; [by apply query_statement_sound |]. intros [stm c] Hc.
  apply (sound_bind (fun r => steady r.2.2)).
  { destruct (negb _); [by apply sound_ret |]. eapply sound_bind; [apply sound_gets |]. intros rows _. destruct (sq_only_key q).
    - eapply sound_bind; [apply items_sound |]. intros r Hr. by apply sound_ret.
    - eapply sound_bind; [apply full_statement_sound |]. intros [fs c'] Hc'. destruct (negb _); [by apply sound_ret |].
      eapply sound_bind; [apply sound_gets |]. intros full _. eapply sound_bind; [apply query_loop_sound |].
      intros r Hr. by apply sound_ret. }
  intros [fs [items c1]] Hc1. cbn in Hc1. do 2 (eapply sound_bind; [by apply reset_sound |]; intros [? ?] ?).
  eapply sound_bind; [by apply corrupted_sound |]. intros c2 Hc2. by apply sound_ret.
Qed.

Lemma stamp_read_sound select info app l : sound (fun r => steady r.2) (get_by_stamp select info app l).
Proof.
  unfold get_by_stamp. eapply sound_bind; [apply sound_try; eexists; apply PrepareForSyncDataByTime_spec |].
  intros [e|stm] He; [by apply sound_ret; apply He |]. eapply sound_bind; [apply sound_gets |]. intros rows _.
  eapply sound_bind; [apply items_sound |]. intros [items c] Hc. eapply sound_bind; [by apply reset_sound |]. intros [? ?] ?.
  eapply sound_bind; [by apply corrupted_sound |]. intros c2 Hc2. by apply sound_ret.
Qed.

(** A token is for a query whose helper has a steady status, or for no query. *)
Definition helper_steady (t : ContinueToken) : Prop := match queryObject_ t with Some q => steady (sq_helper q) | None => True end.

Lemma read_steady s (m : M (list DataItem * Z)) : sound (fun r => steady r.2) m -> steady (items_of (read s m).1).2.
Proof. intros Hm. unfold read. pose proof (Hm (set_db (exec s) (mkDatabase (committed (db (exec s))) None))) as Hx. destruct (m _) as [[e|[l e]] x]; done. Qed.

Lemma finished_steady e : steady e -> steady (finished_ok e).
Proof. intros He. unfold finished_ok. by destruct (_ =? _). Qed.

Lemma read_page_steady s env info token : steady (re_handle env) -> steady (read_page s env info token).1.1.
Proof.
  intros He. unfold read_page. destruct (negb _); [done |].
  match goal with |- context [read s ?m] => pose proof (read_steady s m (stamp_read_sound _ _ _ _)) as Hr end.
  destruct (read s _) as [r s']. cbn in Hr. destruct (items_of r) as [items c]. by apply finished_steady.
Qed.

(** A status is steady, and so is what comes after the token. *)
Definition steady_page (c : Z) (tok : option ContinueToken) : Prop := steady c /\ forall t, tok = Some t -> helper_steady t.

Lemma process_steady d items c t : steady c -> helper_steady t ->
  let '(c', tok) := ProcessContinueToken d items c t in steady_page c' tok.
Proof.
  intros Hc Ht. unfold ProcessContinueToken. destruct (negb _); [by split |].
  destruct (last items); [| by split]. split; [done |]. by intros ? [= <-].
Qed.

Lemma process_query_steady items c t : steady c -> helper_steady t ->
  let '(c', tok) := ProcessContinueTokenForQuerySync items c t in steady_page c' tok.
Proof.
  intros Hc Ht. unfold ProcessContinueTokenForQuerySync. destruct (negb _); [by split |].
  destruct (last items); [| by split]. split; [done |]. intros ? [= <-]. by destruct (has_flag _ _).
Qed.

Lemma GetSyncData_steady s env b e info : steady (re_handle env) ->
  let '(c, _, tok, _) := GetSyncData s env b e info in steady_page c tok.
Proof.
  intros He. unfold GetSyncData. destruct (_ || _); [by split |]. destruct (negb _); [by split |].
  pose proof (read_page_steady s env info (newToken b e) He) as Hc. destruct (read_page _ _ _ _) as [[c items] s']. cbn in Hc.
  pose proof (process_steady [] (if page_ok c then items else []) c (newToken b e) Hc I) as Hp.
  destruct (ProcessContinueToken _ _ _ _) as [c' tok]. destruct (_ && _ && _); [split; [done | apply Hp] | done].
Qed.

Lemma plain_next_steady s env t info : steady (re_handle env) -> helper_steady t ->
  let '(c, _, tok, _) := GetSyncDataNext_plain s env t info in steady_page c tok.
Proof.
  intros He Ht. unfold GetSyncDataNext_plain. destruct (_ <? _); [split; [done | by intros ? [= <-]] |]. destruct (negb _); [by split |].
  pose proof (read_page_steady s env info t He) as Hc. destruct (read_page _ _ _ _) as [[c items] s']. cbn in Hc.
  pose proof (process_steady [] items c t Hc Ht) as Hp. by destruct (ProcessContinueToken _ _ _ _) as [c' tok].
Qed.

Lemma query_page_steady items c t (s : Store) : steady c -> helper_steady t ->
  let '(c', _, tok, _) := (let l := if page_ok c then items else [] in
    let '(e, tok) := ProcessContinueTokenForQuerySync l c t in (e, l, tok, s)) in steady_page c' tok.
Proof.
  intros Hc Ht. cbv zeta. pose proof (process_query_steady (if page_ok c then items else []) c t Hc Ht) as Hp.
  by destruct (ProcessContinueTokenForQuerySync _ _ _) as [c' tok].
Qed.

(** The rows of the query. *)
Definition query_rows (s : Store) t info : (Z + list DataItem * Z) * Store :=
  match timeRanges_ t, queryObject_ t with
  | _ :: _, Some q => read s (GetSyncDataWithQuery q (GetBeginTimestamp (timeRanges_ t)) (GetEndTimestamp (timeRanges_ t)) info GetAppendedLen [])
  | _, _ => (inr ([], E_OK), s)
  end.

Lemma query_rows_steady s t info : helper_steady t -> steady (items_of (query_rows s t info).1).2.
Proof.
  unfold helper_steady, query_rows. intros Ht. destruct (timeRanges_ t); [done |]. destruct (queryObject_ t); [| done].
  by apply read_steady, query_read_sound.
Qed.

(** They are followed by the deleted ones if there is room. *)
Lemma query_next_steady s env t info : steady (re_handle env) -> helper_steady t ->
  let '(c, _, tok, _) := GetSyncDataForQuerySync s env t info in steady_page c tok.
Proof.
  intros He Ht. unfold GetSyncDataForQuerySync. cbv zeta. destruct (negb _); [by apply query_page_steady |].
  pose proof (query_rows_steady s t info Ht) as Hr. fold (query_rows s t info). destruct (query_rows s t info) as [r s'].
  cbn [fst] in Hr. destruct (items_of r) as [items c]. cbn [snd] in Hr. destruct (_ || _); [| by apply query_page_steady].
  destruct (deleteTimeRanges_ _); [apply query_page_steady; [by apply finished_steady | done] |].
  destruct (CanHoldDeletedData _ _ _); [| by apply query_page_steady]. unfold GetDeletedSyncDataByTimestamp.
  match goal with |- context [read s' ?m] => pose proof (read_steady s' m (stamp_read_sound _ _ _ _)) as Hd end.
  destruct (read s' _) as [r2 s2]. cbn [fst] in Hd. destruct (items_of r2) as [items2 c2].
  apply query_page_steady; [by apply finished_steady | done].
Qed.

Lemma entries_steady env r : steady_page r.1.1.1 r.1.2 -> let '(c, _, tok, _) := entries_or_release env r in steady_page c tok.
Proof.
  destruct r as [[[c items] tok] s]. intros Hr. unfold entries_or_release. destruct (negb _); [done |]. by destruct (_ && _).
Qed.

Lemma GetSyncDataNext_steady s env t info : steady (re_handle env) -> helper_steady t ->
  let '(c, _, tok, _) := GetSyncDataNext s env t info in steady_page c tok.
Proof.
  intros He Ht. unfold GetSyncDataNext. apply entries_steady. destruct (queryObject_ t).
  - pose proof (query_next_steady s env t info He Ht) as Hp. by destruct (GetSyncDataForQuerySync s env t info) as [[[c items] tok] s'].
  - pose proof (plain_next_steady s env t info He Ht) as Hp. by destruct (GetSyncDataNext_plain s env t info) as [[[c items] tok] s'].
Qed.

(** A status that is not of a page comes without items; that of a revoked key without token. *)
Definition failure_bare (c : Z) (items : list DataItem) (tok : option ContinueToken) : Prop :=
  (page_ok c = false -> items = []) /\ (c = - E_EKEYREVOKED -> tok = None) /\ calm_code c.

Lemma process_code c items token c' tok : ProcessContinueToken [] items c token = (c', tok) -> calm_code c ->
  (c' = c \/ c' = - E_INTERNAL_ERROR) /\ (c' = - E_EKEYREVOKED -> tok = None) /\ calm_code c'.
Proof.
  unfold ProcessContinueToken. destruct (c =? - E_UNFINISHED) eqn:Eu; cbn [negb].
  - apply Z.eqb_eq in Eu as ->. destruct (last items); intros [= <- <-] ?; (split_and!; [auto | done | done]).
  - intros [= <- <-] ?. split_and!; [auto | done | done].
Qed.

Lemma GetSyncData_bare s env b e info : honest_env env -> let '(c, items, tok, _) := GetSyncData s env b e info in failure_bare c items tok.
Proof.
  intros Henv. unfold GetSyncData. destruct (_ || _); [by split_and!|]. destruct (negb _); [by split_and! |].
  pose proof (read_page_code s env info (newToken b e) Henv) as Hc. destruct (read_page _ _ _ _) as [[c items] s'].
  destruct (ProcessContinueToken _ _ _ _) as [c' tok] eqn:Ep. apply process_code in Ep as (_ & Hr & Hc'); [| done].
  destruct (_ && _ && _); [by split_and! |]. split_and!; [by intros -> | done | done].
Qed.

Lemma GetSyncDataNext_bare s env b e info : honest_env env ->
  let '(c, items, tok, _) := GetSyncDataNext s env (newToken b e) info in failure_bare c items tok.
Proof.
  intros Henv. pose proof Henv as (_ & Ht & Hf). unfold GetSyncDataNext, GetSyncDataNext_plain, entries_or_release. cbn [queryObject_ newToken].
  destruct (_ <? _); [by split_and! |]. destruct (negb (re_handle env =? E_OK)) eqn:Eh.
  { destruct (page_ok (re_handle env)) eqn:Ep; cbn [negb]; [| by split_and!]. cbn. by split_and!; [rewrite Ep | |]. }
  pose proof (read_page_code s env info (newToken b e) Henv) as Hc. destruct (read_page _ _ _ _) as [[c items] s'].
  destruct (ProcessContinueToken _ _ _ _) as [c' tok] eqn:Ep. apply process_code in Ep as (_ & Hr & Hc'); [| done].
  destruct (page_ok c') eqn:Eok; cbn [negb]; [| by split_and!]. destruct (_ && _); [by split_and! |]. by split_and!; [rewrite Eok | |].
Qed.

(** * Batches *)

Lemma batch_map f out : (forall e, key (f e) = key e /\ flag (f e) = flag e /\ (0 <= writeTimestamp e < 2 ^ 64 -> 0 <= writeTimestamp (f e) < 2 ^ 64)) ->
  ns_batch out -> ns_batch (option_map f <$> out).
Proof.
  intros Hf (items & -> & Hall & Hnd). exists (f <$> items). rewrite <- !list_fmap_compose.
  assert (Eh : forall e, item_hash (f e) = item_hash e) by (intros e; unfold item_hash; by destruct (Hf e) as (-> & -> & _)).
  split_and!; [by apply list_fmap_ext | |].
  - apply Forall_fmap. eapply Forall_impl; [exact Hall |]. intros e [El Eq Es Ei]. destruct (Hf e) as (_ & Ef & Hs).
    split; cbn; rewrite ?Ef, ?Eh; auto.
  - rewrite (list_fmap_ext (item_hash ∘ f) item_hash items); [done | intros; apply Eh].
Qed.

Lemma local_entry st h row : ns_ok st -> ns_table st !! h = Some row -> local_row row -> ns_entry (GetDataItemForSync (h, row)).
Proof.
  intros Hok Ht Hl. destruct (no_entry _ Hok _ _ Ht Hl) as [Hm Hh]. split; cbn.
  - unfold has_flag, LOCAL_FLAG. rewrite <- Z.land_assoc. change (Z.land (Z.lnot 2) 2) with 0. by rewrite Z.land_0_r.
  - done.
  - apply (wrap_range 64). lia.
  - by rewrite Hh.
Qed.

(** * Pages *)

Lemma page_item b e st info items c row : ns_ok st -> 0 <= b <= INT64_MAX -> 0 <= e <= INT64_MAX -> page b e (ns_store st) info items c ->
  row ∈ rows_of b e (ns_store st) -> timestamp (GetDataItemForSync row) = stamp row /\ b <= stamp row < e
    /\ stamp row < currentMaxTimestamp_ (ns_store st) + 1 /\ 0 <= stamp row.
Proof.
  intros [Ns Nm Nr] Hb He _ Hrow. apply select_elem in Hrow as (Ht & Hl & Hrange); [| done..].
  pose proof (st_range _ Ns _ _ Ht Hl). pose proof (Nm _ _ Ht Hl). cbn. unfold stamp in *.
  rewrite (wrap_small 64) by (unfold INT64_MAX in *; lia). lia.
Qed.

Lemma page_batch b e st info items c : ns_ok st -> 0 <= b <= INT64_MAX -> 0 <= e <= INT64_MAX ->
  page b e (ns_store st) info items c -> ns_batch (Some <$> items).
Proof.
  intros Hok Hb He (rows1 & rows2 & Hrows & -> & _). exists (GetDataItemForSync <$> rows1).
  assert (Hin : forall row, row ∈ rows1 -> ns_table st !! row.1 = Some row.2 /\ local_row row.2).
  { intros row Hrow. assert (Hr : row ∈ rows_of b e (ns_store st)) by (rewrite Hrows; apply elem_of_app; by left).
    by apply select_elem in Hr as (? & ? & _). }
  split_and!; [done | |].
  - apply Forall_fmap, Forall_forall. intros [h row] [? ?]%Hin. by eapply local_entry.
  - rewrite <- list_fmap_compose. apply NoDup_fmap_2_strong.
    + intros [h1 r1] [h2 r2] [H1' L1]%Hin [H2' L2]%Hin E. cbn in *.
      rewrite (proj2 (no_entry _ Hok _ _ H1' L1)), (proj2 (no_entry _ Hok _ _ H2' L2)) in E. congruence.
    + pose proof (select_ascending b e _ (no_stamped _ Hok)) as Hasc. unfold rows_of, ns_table in *. rewrite Hrows in Hasc.
      apply ascending_split in Hasc as [Hasc _]. clear -Hasc. induction Hasc as [|a rows Hs IH Ha]; [constructor |].
      constructor; [| done]. intros Hin. rewrite Forall_forall in Ha. specialize (Ha a Hin). cbn in Ha. lia.
Qed.

Lemma page_covers b e st info items c : ns_ok st -> 0 <= b <= INT64_MAX -> 0 <= e <= INT64_MAX ->
  page b e (ns_store st) info items c -> covers st b (Some <$> items).
Proof.
  intros Hok Hb He Hp. pose proof Hp as (rows1 & rows2 & Hrows & -> & _).
  assert (Hitem : forall row, row ∈ rows1 ++ rows2 -> timestamp (GetDataItemForSync row) = stamp row /\ b <= stamp row < e
    /\ stamp row < currentMaxTimestamp_ (ns_store st) + 1 /\ 0 <= stamp row) by (intros row; rewrite <- Hrows; by eapply page_item).
  split_and!.
  - intros x (d & -> & (row & -> & Hrow)%list_elem_of_fmap)%list_elem_of_fmap. destruct (Hitem row) as (Ets & ? & ? & ?); [apply elem_of_app; by left |].
    exists (GetDataItemForSync row). rewrite Ets. cbn [next_stamp ns_paged]. split; [done | lia].
  - intros d d' (h & r & Ht & Hl & ->) Hle (d2 & [= <-] & (row & -> & Hrow)%list_elem_of_fmap)%list_elem_of_fmap Hts.
    destruct (Hitem row) as (Ets & Hr1 & _); [apply elem_of_app; by left |]. rewrite Ets in Hts.
    pose proof (st_range _ (no_stamped _ Hok) _ _ Ht Hl) as Hrange.
    assert (Es : timestamp (GetDataItemForSync (h, r)) = r_timestamp r) by (cbn; apply (wrap_small 64); unfold INT64_MAX in *; lia).
    rewrite Es in Hle, Hts. assert (Hin : (h, r) ∈ rows1 ++ rows2).
    { rewrite <- Hrows. apply select_elem; [done | done |]. unfold stamp. cbn. unfold stamp in *. split_and!; [done | done | lia | lia]. }
    exists (origDev (GetDataItemForSync (h, r))).
    replace (with_origDev _ _) with (GetDataItemForSync (h, r)) by done. apply list_elem_of_fmap_2, list_elem_of_fmap_2.
    apply elem_of_app in Hin as [Hin | Hin]; [done |]. exfalso.
    pose proof (select_ascending b e _ (no_stamped _ Hok)) as Hasc. unfold rows_of, ns_table in *. rewrite Hrows in Hasc.
    destruct (ascending_split rows1 rows2 Hasc) as [_ Hsplit]. destruct (last rows1) as [z|] eqn:Ez.
    + destruct (Hsplit z eq_refl) as [Hall Hgt]. rewrite Forall_forall in Hall, Hgt. specialize (Hall _ Hrow). specialize (Hgt _ Hin).
      cbn beta in *. unfold stamp in *. cbn in *. lia.
    + apply last_None in Ez as ->. by apply elem_of_nil in Hrow.
  - exact (page_batch b e st info _ c Hok Hb He Hp).
Qed.

Lemma batch_nil : ns_batch [].
Proof. exists []. split_and!; [done | constructor | constructor]. Qed.

Lemma no_page_covers st b : covers st b [].
Proof. split_and!; [intros x Hx | intros e e' _ _ Hx | apply batch_nil]; by apply elem_of_nil in Hx. Qed.

(** The token of a page. *)
Lemma page_token b st info items item : ns_ok st -> 0 <= b <= INT64_MAX -> page b INT64_MAX (ns_store st) info items (- E_UNFINISHED) ->
  last items = Some item -> token_after (- E_UNFINISHED) (Some <$> items) (Some (newToken (next_begin item) INT64_MAX)).
Proof.
  intros Hok Hb Hp Hlast _ t [= <-]. assert (He : 0 <= INT64_MAX <= INT64_MAX) by (unfold INT64_MAX; lia).
  destruct (page_next b INT64_MAX (ns_store st) info items (no_stamped _ Hok) Hb He Hp item Hlast) as (rows & -> & Hasc & Hall & _ & Hn & h & row & Ht & Hl & En).
  rewrite last_item in Hlast. destruct (last rows) as [z|] eqn:Ez; [| done]. injection Hlast as <-.
  assert (Hz : z ∈ rows) by (by apply last_Some_elem_of).
  pose proof Hp as (rows1 & rows2 & Hrows & Erows & _).
  assert (Hstamp : forall r, r ∈ rows -> timestamp (GetDataItemForSync r) = stamp r /\ stamp r < next_begin (GetDataItemForSync z)).
  { intros r Hr. rewrite Forall_forall in Hall. destruct (Hall r Hr) as (? & ? & ?). split; [| lia]. cbn. unfold stamp in *.
    apply (wrap_small 64). unfold INT64_MAX in *. lia. }
  split_and!; [exists (next_begin (GetDataItemForSync z)); split; [done | lia] | |].
  - exists (GetDataItemForSync z). split; [by apply list_elem_of_fmap_2, list_elem_of_fmap_2 |]. cbn [tok_begin ns_paged timeRanges_ newToken GetBeginTimestamp].
    destruct (Hstamp z Hz) as [E1 E2]. unfold next_begin at 1. rewrite E1. rewrite (wrap_small 64) by (unfold stamp, INT64_MAX in *; rewrite Forall_forall in Hall; specialize (Hall z Hz); cbn beta in Hall; unfold stamp in *; lia).
    rewrite Forall_forall in Hall. specialize (Hall z Hz). cbn beta in Hall. lia.
  - intros d (d2 & [= <-] & (r & -> & Hr)%list_elem_of_fmap)%list_elem_of_fmap. destruct (Hstamp r Hr) as [-> ?]. done.
Qed.

Lemma keeps_grows st s m n : db (exec s) = db (exec (ns_store st)) /\ currentMaxTimestamp_ s = currentMaxTimestamp_ (ns_store st) ->
  grows st (mkNsState s m n).
Proof.
  intros [Ed Em]. unfold grows. cbn. unfold ns_table. cbn. rewrite Ed, Em. split_and!; [| by left | lia].
  intros [Ns Nm Nr]. unfold ns_table in *. split; unfold ns_table; cbn; by rewrite ?Ed, ?Em.
Qed.

(** A page as the synchronization relies on it. *)
Lemma page_laws b e st info c items tok s n : ns_ok st -> 0 <= b <= INT64_MAX -> 0 <= e <= INT64_MAX ->
  db (exec s) = db (exec (ns_store st)) /\ currentMaxTimestamp_ s = currentMaxTimestamp_ (ns_store st) ->
  failure_bare c items tok ->
  (page_ok c = true -> page b e (ns_store st) info items c
    /\ (c = - E_UNFINISHED -> exists item, last items = Some item /\ tok = Some (newToken (next_begin item) e))
    /\ (c = E_OK -> tok = None)) ->
  page_gives st b c (Some <$> items) tok (mkNsState s (ns_meta st) n) /\ (e = INT64_MAX -> token_after c (Some <$> items) tok).
Proof.
  intros Hok Hb He Hk (Hbare & Hrev & Ht & Hf) Hp. split.
  - split_and!; [by apply keeps_grows | | intros Hc; by rewrite (Hbare Hc) | done | done | done].
    destruct (page_ok c) eqn:Ec; [by eapply page_covers, Hp | rewrite Hbare by done; apply no_page_covers].
  - intros -> Hc. destruct (Hp Hc) as (Hpage & Hu & Hd). change (page_ok c = true) in Hc.
    apply orb_true_iff in Hc as [->%Z.eqb_eq | ->%Z.eqb_eq]; [intros t; by rewrite (Hd eq_refl) |].
    destruct (Hu eq_refl) as (item & Hl & ->). by eapply (page_token b st info items item).
Qed.

Section Laws.
Context (rest : SyncGenericInterface Ns ContinueToken) (Hreads : forall n, honest_env (reads n)).
Context (Hintercept : forall st items d d' c out st', sg_InterceptData (SyncGenericInterface := rest) st items d d' = (c, out, st') ->
  c = E_OK /\ out = items /\ grows st st').
Context (Hmeta : forall (m : Mt) k v, (PutMetaData m k v).1 = E_OK).

Lemma ns_read_next st b info c out tok st' : ns_ok st -> 0 <= b <= INT64_MAX ->
  ns_read (fun s env => GetSyncDataNext s env (newToken b INT64_MAX) info) st = (c, out, tok, st') ->
  page_gives st b c out tok st' /\ token_after c out tok.
Proof.
  intros Hok Hb. unfold ns_read. set (env := reads (ns_calls st)). assert (Henv : honest_env env) by apply Hreads.
  pose proof (GetSyncDataNext_keeps (ns_store st) env b INT64_MAX info) as Hk.
  pose proof (GetSyncDataNext_bare (ns_store st) env b INT64_MAX info Henv) as Hbare.
  pose proof (GetSyncDataNext_page (mkRequest (ns_store st) env info) b INT64_MAX (proj1 Henv)) as Hp. cbn [rq_store rq_env rq_info] in Hp.
  destruct (GetSyncDataNext _ _ _ _) as [[[c1 items] tok1] s]. intros [= <- <- <- <-].
  assert (He : 0 <= INT64_MAX <= INT64_MAX) by (unfold INT64_MAX; lia).
  pose proof (page_laws b INT64_MAX st info c1 items tok1 s (S (ns_calls st)) Hok Hb He Hk Hbare Hp) as [? Ht]. auto.
Qed.

(** The natural store keeps what the synchronization relies on in a storage: every page that
    is read, the first or one with a token, has all local writes from where it starts up to its
    last entry, and its token goes on right after it. *)
Lemma natural_store_paged :
  PagedLaws Ns ContinueToken (H := ns_paged) (H0 := ns_storage) (H1 := ns_interface rest).
Proof.
  split.
  - intros st [_ _ Hr]. cbn. lia.
  - intros st e Hok (h & row & Ht & Hl & ->). pose proof (st_range _ (no_stamped _ Hok) _ _ Ht Hl). cbn.
    rewrite (wrap_small 64) by (unfold INT64_MAX in *; lia). lia.
  - intros st b e info c out tok st' Hok Hb He _. cbn. unfold ns_read. set (env := reads (ns_calls st)).
    assert (Henv : honest_env env) by apply Hreads.
    pose proof (GetSyncData_keeps (ns_store st) env b e info) as Hk. pose proof (GetSyncData_bare (ns_store st) env b e info Henv) as Hbare.
    pose proof (GetSyncData_page (mkRequest (ns_store st) env info) b e) as Hp. cbn [rq_store rq_env rq_info] in Hp.
    destruct (GetSyncData _ _ _ _ _) as [[[c1 items] tok1] s]. intros [= <- <- <- <-].
    exact (page_laws b e st info c1 items tok1 s (S (ns_calls st)) Hok Hb He Hk Hbare (Hp (proj1 Henv))).
  - intros st t info c out tok st' Hok (b & -> & Hb) _ E. by apply (ns_read_next st b info).
  - intros st t. reflexivity.
  - exact Hintercept.
  - intros st k v e st'. cbn. specialize (Hmeta (ns_meta st) k v). destruct (PutMetaData (ns_meta st) k v) as [e1 m]. cbn in Hmeta.
    intros [= <- <-]. split; [done |]. by apply keeps_grows.
  - apply batch_nil.
  - intros h out. by apply batch_map.
Qed.

End Laws.

(** * Answers of the natural store *)

(** The statuses of the store never take a task back, if those of its handles and of what [rest]
    does for it do not. *)
Definition natural_store_steady `{SyncEnv} (rest : SyncGenericInterface Ns ContinueToken) :
  (forall n, steady (re_handle (reads n))) ->
  (forall st q range time info, let '(c, _, tok, _) := sg_GetSyncData_query (SyncGenericInterface := rest) st q range time info in steady_page c tok) ->
  (forall m d b c m', sg_RemoveDeviceData (SyncGenericInterface := rest) m d b = Some (c, m') -> steady c) ->
  (forall st items d d', steady (sg_InterceptData (SyncGenericInterface := rest) st items d d').1.1) ->
  (forall (m : Mt) k, steady (GetMetaData m k).1) -> (forall (m : Mt) k v, steady (PutMetaData m k v).1) ->
  (forall n m, steady (env_send n m)) ->
  SteadyAnswers Ns ContinueToken (H0 := ns_storage) (H1 := ns_interface rest).
Proof.
  intros Hreads Hquery Hremove Hintercept Hget Hput Hsend.
  refine {| steady_token := helper_steady |}; [| exact Hquery | | exact Hremove | exact Hintercept | intros; apply Hget | | exact Hsend].
  - intros st b e info. cbn. unfold ns_read. pose proof (GetSyncData_steady (ns_store st) _ b e info (Hreads (ns_calls st))) as Hp.
    by destruct (GetSyncData _ _ _ _ _) as [[[c items] tok] s].
  - intros st t info Ht. cbn. unfold ns_read.
    pose proof (GetSyncDataNext_steady (ns_store st) _ t info (Hreads (ns_calls st)) Ht) as Hp.
    by destruct (GetSyncDataNext _ _ _ _) as [[[c items] tok] s].
  - intros st k v. cbn. specialize (Hput (ns_meta st) k v). by destruct (PutMetaData _ _ _).
Defined.

(** * Saving *)

(** A write has been saved when there is one of its key that is at least as late. *)
Definition ns_saved st (e : DataItem) : Prop :=
  exists h row, item_hash e = Some h /\ ns_table st !! h = Some row /\ writeTimestamp e <= write_stamp row.

(** The last write wins, and no time stamp is the last that there is: repeated data is saved with
    the next one. *)
Definition ns_room st : Prop :=
  conflictResolvePolicy_ (exec (ns_store st)) = DEFAULT_LAST_WIN
  /\ forall h row, ns_table st !! h = Some row -> write_stamp row < 2 ^ 64 - 1.

#[export] Instance ns_saving : SavingStorage Ns := {| saved := ns_saved; room := ns_room; puttable := ns_batch |}.

Definition later_table (t t' : Table) : Prop :=
  forall h row, t !! h = Some row -> exists row', t' !! h = Some row' /\ write_stamp row <= write_stamp row'.

#[local] Instance later_table_pre : PreOrder later_table.
Proof.
  split; [intros t h row Hr; by exists row |]. intros t1 t2 t3 T1 T2 h row (r2 & E2 & L2)%T1.
  destruct (T2 h r2 E2) as (r3 & E3 & L3). exists r3. split; [done | lia].
Qed.

Lemma write_stamp_row di item old : 0 <= writeTimestamp item < 2 ^ 64 -> write_stamp (new_row di item old) = writeTimestamp item.
Proof. intros Hw. unfold write_stamp, new_row, saved_row. cbn. by apply u64_signed. Qed.

(** A row after an entry was saved in its place. *)
Lemma save_row_later permit di item old : ns_entry item -> (forall row, old = Some row -> write_stamp row < 2 ^ 64 - 1) ->
  exists row', save_row DEFAULT_LAST_WIN permit di item old = Some row' /\ writeTimestamp item <= write_stamp row'
    /\ forall row, old = Some row -> write_stamp row <= write_stamp row'.
Proof.
  intros [Hl Hm Hw _] Hroom. unfold save_row, ignored, IsNeedIgnoredData. rewrite (andb_false_r (negb _)), andb_false_r.
  unfold judged, JudgeSyncSaveType. destruct old as [row|]; cbn [existed].
  2: { unfold deletes_nothing. rewrite Hl, andb_false_r, Hm. eexists. split_and!; [done | | done]. by rewrite write_stamp_row. }
  change (writeTimestamp (old_item (Some row))) with (write_stamp row). specialize (Hroom row eq_refl).
  assert (Hrow : 0 <= write_stamp row) by apply (wrap_range 64 (r_w_timestamp row) ltac:(lia)).
  destruct (writeTimestamp item <=? write_stamp row) eqn:El; [apply Z.leb_le in El; destruct (negb _ && _ && permit) | apply Z.leb_gt in El];
    unfold deletes_nothing; cbn [flag set_stamps isDefeated preStatus]; rewrite Hl, andb_false_r; cbn [orb]; rewrite ?Hm.
  - eexists. split; [done |]. rewrite (wrap_small 64 (write_stamp row + 1)) by lia. rewrite write_stamp_row by (cbn; lia).
    cbn. split; [lia |]. intros ? [= <-]. lia.
  - exists row. split_and!; [done | done |]. by intros ? [= <-].
  - eexists. split; [done |]. rewrite write_stamp_row by done. split; [lia |]. intros ? [= <-]. lia.
Qed.

Lemma apply_later permit di item t h : ns_entry item -> item_hash item = Some h ->
  (forall row, t !! h = Some row -> write_stamp row < 2 ^ 64 - 1) ->
  let t' := apply_update permit t (di, item) in
  later_table t t' /\ (exists row, t' !! h = Some row /\ writeTimestamp item <= write_stamp row) /\ forall h', h' <> h -> t' !! h' = t !! h'.
Proof.
  intros He Hh Hroom. unfold apply_update, save_table. cbn. rewrite Hh.
  destruct (save_row_later permit di item (t !! h) He Hroom) as (row' & -> & Hle & Hold). split_and!.
  - intros h' row Hr. destruct (decide (h = h')) as [<- | Hn]; [| exists row; by rewrite lookup_partial_alter_ne].
    exists row'. rewrite lookup_partial_alter_eq. auto.
  - exists row'. by rewrite lookup_partial_alter_eq.
  - intros h' Hn. by rewrite lookup_partial_alter_ne.
Qed.

Lemma apply_all_later permit di items : forall t, Forall ns_entry items -> NoDup (item_hash <$> items) ->
  (forall e h row, e ∈ items -> item_hash e = Some h -> t !! h = Some row -> write_stamp row < 2 ^ 64 - 1) ->
  let t' := apply_all permit (pair di <$> items) t in
  later_table t t' /\ forall e, e ∈ items -> exists h row, item_hash e = Some h /\ t' !! h = Some row /\ writeTimestamp e <= write_stamp row.
Proof.
  induction items as [|item items IH]; intros t Hall Hnd Hroom.
  { split; [reflexivity | by intros e ?%elem_of_nil]. }
  apply Forall_cons in Hall as [He Hall]. rewrite fmap_cons in Hnd. apply NoDup_cons in Hnd as [Hn Hnd].
  destruct (ne_hash _ He) as [h Hh]. rewrite Hh in Hn.
  destruct (apply_later permit di item t h He Hh) as (Ht & (row & Hr & Hle) & Hother); [intros row; eapply Hroom; [left | done] |].
  destruct (IH (apply_update permit t (di, item)) Hall Hnd) as [Hlater Hsaved].
  { intros e h' r Hin Hh'. rewrite Hother; [by eapply Hroom; [right |] |]. intros ->. apply Hn. rewrite <- Hh'. by apply list_elem_of_fmap_2. }
  unfold apply_all in *. cbn [fmap list_fmap fold_left]. split; [by etrans |].
  intros e [-> | Hin]%elem_of_cons; [| by apply Hsaved]. destruct (Hlater h row Hr) as (row' & Hr' & Hle'). exists h, row'.
  split_and!; [done | done | lia].
Qed.

(** The entry as it is saved: without the device. *)
Definition bare_item (e : DataItem) : DataItem :=
  mkDataItem (key e) (value e) (timestamp e) (flag e) (origDev e) (writeTimestamp e) [] false [].

Lemma later_keeps st st' : later_table (ns_table st) (ns_table st') -> keeps st st'.
Proof. intros Ht e (h & row & Hh & Hr & Hle). destruct (Ht h row Hr) as (row' & Hr' & Hle'). exists h, row'. split_and!; [done | done | lia]. Qed.

Context (Hschema : schema_valid = false).

Lemma no_miss_flag f : is_miss_query f = false -> has_flag f REMOTE_DEVICE_DATA_MISS_QUERY = false.
Proof.
  unfold is_miss_query, has_flag, REMOTE_DEVICE_DATA_MISS_QUERY. intros Hq%Z.eqb_neq. apply negb_false_iff, Z.eqb_eq.
  destruct (Z.testbit f 4) eqn:Et; [exfalso; apply Hq |]; apply Z.bits_inj'; intros n Hn; rewrite Z.land_spec; change 16 with (2 ^ 4);
    rewrite Z.pow2_bits_eqb by lia; destruct (Z.eqb_spec 4 n) as [<- |]; by rewrite ?Et, ?andb_false_r, ?Z.bits_0.
Qed.

(** What saving a batch does to the table. *)
Lemma sync_result_batch policy q items device t : policy = DEFAULT_LAST_WIN -> Forall ns_entry items ->
  (sync_result policy q (Some <$> items) device t).1 = apply_all (negb dual_tuple) (pair (sender device) <$> (bare_item <$> items)) t.
Proof.
  intros -> Hall. unfold sync_result, NaturalStoreFacts.received, CheckAmendValueContentForSyncProcedure. rewrite Hschema. cbn [negb].
  assert (Eo : omap id (Some <$> items) = items).
  { clear Hall. induction items as [|e items IH]; [done |]. change (e :: omap id (Some <$> items) = e :: items). by rewrite IH. }
  rewrite Eo. fold bare_item. assert (Ec : checked_items (sender device) q t (bare_item <$> items) = bare_item <$> items).
  { unfold checked_items. destruct (q_empty q); [done |]. rewrite <- list_fmap_compose. apply list_fmap_ext. intros k e Hk. cbn.
    unfold checked_item. cbn [flag bare_item]. rewrite Forall_forall in Hall.
    by rewrite (no_miss_flag _ (ne_query _ (Hall e (list_elem_of_lookup_2 _ _ _ Hk)))). }
  change (fun e : DataItem => _) with bare_item. rewrite Ec, save_all_apply. f_equal. f_equal.
  clear. induction items as [|e items IH]; [done |]. rewrite fmap_cons, filter_cons_True by done. by rewrite IH.
Qed.

(** The natural store keeps what the synchronization relies on when it saves: the entries of a
    batch are saved, each as it is or because there is a later write of its key, and no other
    write is replaced by an earlier one. *)
Lemma natural_store_saving rest : SavingLaws Ns ContinueToken (H := ns_saving) (H0 := ns_storage) (H1 := ns_interface rest).
Proof.
  split.
  - intros st k v e st'. cbn. destruct (PutMetaData _ k v) as [e1 m]. intros [= <- <-]. split; [by apply later_keeps | done].
  - intros st q out d c st' [Hpol Hroom] (items & -> & Hall & Hnd). cbn. unfold ns_put.
    pose proof (PutSyncDataWithQuery_cases (ns_store st) (saves (ns_calls st)) (as_query q) (Some <$> items) d) as Hc.
    destruct (PutSyncDataWithQuery _ _ _ _ _) as [e s]. intros [= <- <-]. destruct Hc as (_ & _ & _ & Hc).
    destruct (e =? E_OK) eqn:Ee.
    2: { apply Z.eqb_neq in Ee. destruct Hc as (Hc & _). split; [apply later_keeps; unfold ns_table; cbn; by rewrite Hc | done]. }
    destruct Hc as (_ & Hdb & _).
    assert (Ht : ns_table (mkNsState s (ns_meta st) (S (ns_calls st))) = apply_all (negb dual_tuple) (pair (sender d) <$> (bare_item <$> items)) (ns_table st)).
    { unfold ns_table. cbn. rewrite Hdb. cbn. by apply sync_result_batch. }
    destruct (apply_all_later (negb dual_tuple) (sender d) (bare_item <$> items) (ns_table st)) as [Hlater Hsaved].
    { apply Forall_fmap. eapply Forall_impl; [exact Hall |]. by intros x []. }
    { by rewrite <- list_fmap_compose. }
    { intros x h row _ _. apply Hroom. }
    split; [apply later_keeps; by rewrite Ht |]. intros _ x (y & [= <-] & Hx)%list_elem_of_fmap.
    destruct (Hsaved (bare_item x)) as (h & row & Hh & Hr & Hle); [by apply list_elem_of_fmap_2 |]. exists h, row.
    rewrite Ht. done.
Qed.

End Natural.

(** * Two devices with natural stores *)

Section Devices.
Context `{Host} `{Heap} `{Zlib} `{ValueHash} `{DeviceHash}.
(** Each device has its own surroundings, its own data base and its own meta data. *)
Context (envA envB : SyncEnv) (sqA sqB : Sqlite) (configA configB : StoreConfig) {MtA MtB : Type} `{SyncStorage MtA, SyncStorage MtB}.
Context (readsA readsB : nat -> ReadEnv) (savesA savesB : nat -> Env) (as_queryA as_queryB : QuerySyncObject -> Query).
Context (restA : SyncGenericInterface (NsState MtA) ContinueToken) (restB : SyncGenericInterface (NsState MtB) ContinueToken).
Abbreviation WA := (World (NsState MtA) ContinueToken).
Abbreviation WB := (World (NsState MtB) ContinueToken).
Abbreviation store w := (md_store (w_md w)).

#[local] Instance saving_store : SavingStorage (NsState MtB) := ns_saving.

(** The offsets that the receiving device has for the time of the other, and a time that its clock
    has already given out. *)
Context (offsets : Z -> Prop) (since : Z).
Abbreviation receiver_ok := (SyncSafety.receiver_ok offsets since).

Abbreviation natural_step :=
  (system_step envA envB
     (H6 := ns_interface (H := sqA) (H1 := configA) readsA savesA as_queryA restA)
     (H10 := ns_interface (H := sqB) (H1 := configB) readsB savesB as_queryB restB) offsets since).

(** A row of the one device has reached the other: there is a row of its key there that is at least
    as late. The time of the write is taken in the time of that device, by an offset it has, and
    not beyond a later time of its clock. *)
Definition row_arrived (stB : NsState MtB) (h : Key) (row : SyncRow) : Prop :=
  exists offset now row', offsets offset /\ since < now < 2 ^ 64 /\ ns_table stB !! h = Some row'
    /\ writeTimestamp (item_to_local offset now (TransferHashString (local_identity (SyncEnv := envB))) (GetDataItemForSync (h, row)))
       <= write_stamp row'.

(** Sends do not time out, handles are refused with their own statuses, nothing intercepts the data,
    writes of meta data succeed, and the receiving store has no schema. *)
Context (Hsend : forall n m, sent_code (env_send (SyncEnv := envA) n m)) (Hreads : forall n, honest_env (readsA n)).
Context (Hintercept : forall (st : NsState MtA) items d d' c out st', sg_InterceptData (SyncGenericInterface := restA) st items d d' = (c, out, st') ->
  c = E_OK /\ out = items /\ grows st st').
Context (Hmeta : forall (m : MtA) k v, (PutMetaData m k v).1 = E_OK) (Hschema : schema_valid (StoreConfig := configB) = false).

Lemma batch_takes out : ns_batch out -> takes out.
Proof.
  intros Hb offset now h Hnow. revert Hb. apply batch_map. intros e. split_and!; [done | done |]. cbn. intros Hw.
  pose proof (wrap_range 64 (writeTimestamp e - u64 offset) ltac:(lia)). destruct (negb _), (_ <? _); lia.
Qed.

(** C2: In full synchronizations between two stores, for every local write of the sending device that
    is older than the peer water mark of the receiving device, the receiving store has a row of the
    same key that is at least as late, in the time of the receiving device (by one of the offsets
    it has had, and not beyond its clock). This holds whatever the network loses, repeats or
    reorders, whatever is written in between, whatever fails in SQLite when the rows are read or
    saved, and whenever sessions abort and start again. It is assumed that
    - on the sending device every write of meta data succeeds, no send answers that it timed out
      (nor that keys are revoked or the session is finished), the handles for reading are refused
      with statuses of their own, and nothing intercepts the data;
    - an error when a session starts or goes on leaves no continue token, or is followed by
      [AbortInner]: so it is in the sessions the device starts itself ([initiator_settles],
      [continuation_settles]), but not when the first packet of a pull response cannot be sent or
      an error is ignored because another session is going on;
    - the local writes of the sender have different time stamps, which are not beyond the largest
      time stamp of its store, and acknowledgements carry water marks in the range of 0 to INT64_MAX;
    - both devices know that the other has a version after 3.0, and neither is to remove the data
      of the other;
    - the receiving store has no schema, its last write wins, and its time stamps and its clock have
      not come to the end of 64 bits. *)
Theorem sync_no_loss (wA0 : WA) (wB0 : WB) (wA : WA) (wB : WB) : sender_new wA0 -> receiver_ok wB0 -> peer_mark wB0 = 0 ->
  rtc natural_step (wA0, wB0) (wA, wB) ->
  forall h row, ns_table (store wA) !! h = Some row -> local_row row -> r_timestamp row < peer_mark wB -> row_arrived (store wB) h row.
Proof.
  intros Hnew Hr Hp Hrun h row Ht Hl Hlt.
  pose proof (natural_store_paged (H := sqA) (H1 := configA) readsA savesA as_queryA restA Hreads Hintercept Hmeta) as LA.
  pose proof (natural_store_saving (H := sqB) (H1 := configB) readsB savesB as_queryB Hschema restB) as LB.
  destruct (system_safe envA envB (H7 := LA) (H11 := LB) offsets since Hsend batch_takes wA0 wB0 wA wB Hnew Hr Hp Hrun) as [[st0 [Hb _]] _ _ Harrived].
  pose proof (st_range _ (no_stamped _ (sb_store _ _ Hb)) _ _ Ht Hl) as Hrange.
  destruct (Harrived (GetDataItemForSync (h, row))) as (o & e' & (offset & now & Ho & Hnow & ->) & h' & row' & Hh & Hr' & Hle).
  - exists h, row. done.
  - cbn. rewrite (wrap_small 64); [done | unfold INT64_MAX in *; lia].
  - assert (Some h' = Some h) as [= ->] by (rewrite <- Hh; exact (proj2 (no_entry _ (sb_store _ _ Hb) _ _ Ht Hl))).
    exists offset, now, row'. done.
Qed.

End Devices.
