(* ===== verification/SyncSample.v ===== *)
(** Two devices with natural stores in a run: the theorems about the synchronization apply; and a
    run in which a send times out. *)

From S2P Require Import Prelude Memory Parcel CommTypes SerialBuffer ProtocolProto AppMessage SyncStorage CommitNotify SqliteUtils StoreExecutor.
From S2P Require Import SqliteFacts NaturalStore NaturalStoreFacts Convergence QuerySync KvEntry SyncPacket DbAbility WaterMark MetaData TimeHelper SyncRead SyncPages.
From S2P Require Import SubscribeManager SyncWorld SyncTask DataSync SyncLogic DataSyncFacts SyncViews SyncSender ControlSync SyncMachine StepTermination SenderRuns.
From S2P Require Import SyncSafety NaturalSync.
From Stdlib Require Import ZArith Lia.
From Stdlib Require Import Strings.Byte.
From stdpp Require Import base numbers list gmap.

Open Scope Z_scope.

Module Devices.

#[local] Existing Instance x86_host.
#[local] Existing Instance zero_heap.
#[local] Instance zlib : Zlib :=
  {| compressBound := id; compress := fun _ src => (Z_OK, (src, zlen src)); uncompress := fun _ src => (Z_OK, (src, zlen src)) |}.
#[local] Instance hash : ValueHash := {| value_hash := fun v => Some (x68 :: v) |}.
#[local] Instance device_hash : DeviceHash := {| TransferHashString := fun d => x68 :: d |}.
#[local] Instance sqlite : Sqlite := {| sq_fault := fun _ => None |}.
#[local] Instance config : StoreConfig := {|
  dual_tuple := false; conflict_flag := 0; write_permission := true; schema_valid := false;
  schema_check := fun _ _ => (E_OK, None); clock := Z.of_nat
|}.

(** * Surroundings *)

Definition env (id_ : DeviceID) (send : SyncMessage -> Z) : SyncEnv := {|
  env_now := fun n => Some (1000000 + Z.of_nat n);
  env_alloc := fun _ => true;
  env_send := fun _ m => send m;
  env_mtu := fun _ => 1000;
  env_timeout := fun _ => 1000;
  env_remoteVersion := fun _ => (E_OK, SOFTWARE_VERSION_CURRENT);
  env_schedule := fun _ => E_OK;
  env_timer := fun n => (E_OK, Z.of_nat n + 1);
  env_security := fun _ _ _ => true;
  env_permission := fun _ _ _ => E_OK;
  env_killed := fun _ => false;
  local_identity := id_
|}.

Definition devA : DeviceID := [x61].
Definition devB : DeviceID := [x62].

Definition envA : SyncEnv := env devA (fun _ => E_OK).
Definition envB : SyncEnv := env devB (fun _ => E_OK).
(** The sending of the second packet times out. *)
Definition busyA : SyncEnv := env devA (fun m => if sequenceId_ m =? 2 then - E_TIMEOUT else E_OK).

(** Meta data in memory. *)
Definition Meta : Type := gmap Key Value.

#[local] Instance meta_storage : SyncStorage Meta := {|
  SyncStorage.GetMetaData := fun m k => match m !! k with Some v => (E_OK, v) | None => (- E_NOT_FOUND, []) end;
  PutMetaData := fun m k v => (E_OK, <[k := v]> m);
  DeleteMetaData := fun m ks => (E_OK, foldr delete m ks);
  DeleteMetaDataByPrefixKey := fun m pre => (E_OK, filter (fun kv => has_prefix pre kv.1 = false) m);
  GetAllMetaKeys := fun m => (E_OK, (map_to_list m).*1);
  SyncStorage.GetMaxTimestamp := fun _ => 0
|}.

(** What the store does not do itself. *)
Definition interface {St Tok} : SyncGenericInterface St Tok := {|
  sg_GetSyncData := fun st _ _ _ => (E_OK, [], None, st);
  sg_GetSyncData_query := fun st _ _ _ _ => (E_OK, [], None, st);
  sg_GetSyncDataNext := fun st _ _ => (E_OK, [], None, st);
  sg_ReleaseContinueToken := fun st _ => st;
  sg_PutSyncDataWithQuery := fun st _ _ _ => (E_OK, st);
  sg_RemoveDeviceData := fun m _ _ => Some (E_OK, m);
  sg_InterceptData := fun st items _ _ => (E_OK, items, st);
  sg_CheckAndInitQueryCondition := fun st _ => (E_OK, st);
  sg_AddSubscribe := fun st _ _ _ => (E_OK, st);
  sg_RemoveSubscribe := fun st _ => (E_OK, st);
  sg_GetCompressionOption := fun _ => (false, 100);
  sg_GetCompressionAlgo := fun _ => [];
  sg_GetSecurityOption := fun _ => (E_OK, mkSecurityOption 0 0);
  sg_IsReadable := fun _ => true;
  sg_GetInterfaceType := SYNC_SVD
|}.

(** * The stores *)

Abbreviation St := (NsState Meta).
Abbreviation W := (World St ContinueToken).

Definition reads (n : nat) : ReadEnv := mkReadEnv E_OK true true.
Definition saves (n : nat) : Env := mkEnv E_OK false true.
Definition as_query (q : QuerySyncObject) : Query := full.

#[local] Instance natural : SyncGenericInterface St ContinueToken := ns_interface reads saves as_query interface.
#[local] Instance paged : PagedStorage St ContinueToken := ns_paged.
#[local] Instance saving : SavingStorage St := ns_saving.

(** Rows are found by the hash of their key. *)
Definition row (k : byte) (t : Z) : SyncRow := mkSyncRow [k] (replicate 600 k) t 2 [] [] t.
Definition hash_of (k : byte) : Key := [x68; k].
Definition table : Table := {[ hash_of x61 := row x61 5; hash_of x62 := row x62 7; hash_of x63 := row x63 9 ]}.

Definition store (t : Table) (max : Z) : St := mkNsState
  (mkStore (mkExecutor (mkDatabase t None) 0 false false false DEFAULT_LAST_WIN None None None None) max 0 [] newConnection) ∅ 0.

(** * The state of a device *)

Definition new_context (device : DeviceID) (mode session : Z) : TaskContext ContinueToken :=
  mkTaskContext ContinueToken [] [] None 1 mode false OP_SYNCING RUNNING device 0 0 NO_NEED_RETRY session 0 1 0 1000 SOFTWARE_VERSION_CURRENT 1 true E_OK 0
    false false 0 false false None 0 0 false (mkSecurityOption 0 0) false false true false newDbAbility true 0 ∅ newQuerySyncObject false true.

Definition new_world (device : DeviceID) (mode session : Z) (st : St) : W :=
  mkWorld (mkDataSync 0 device 0 0 ∅ 0 0 false 0) (new_context device mode session)
    (mkMetadata 0 true ∅ ∅ 0 newHelper ∅ st) initialClock ∅ newSubscribeManager (mkWatchDog 0 0 0 0) (mkWatchDog 0 0 0 0) newMachine [] [] 0.

Definition wA0 : W := new_world devB PUSH 1 (store table 9).
Definition wB0 : W := new_world devA PUSH 2 (store ∅ 0).

(** * A run *)

(** The state after an action; [status] is what it says. *)
Definition after {A} (m : Act St ContinueToken A) (w : W) : W := match m w with Some (_, w) => w | None => w end.
Definition status {A} (m : Act St ContinueToken A) (w : W) : option A := fst <$> m w.

Lemma after_eq {A} (m : Act St ContinueToken A) w a : status m w = Some a -> m w = Some (a, after m w).
Proof. unfold status, after. destruct (m w) as [[]|]; [by intros [= ->] | done]. Qed.

Lemma after_is {A} (m : Act St ContinueToken A) w a w' : w' = after m w -> status m w = Some a -> m w = Some (a, w').
Proof. intros ->. apply after_eq. Qed.

Definition sent_message (n : nat) (w : W) : SyncMessage := default emptyMessage (w_sent w !! n).

Abbreviation startA e := (SyncStart (H4 := e) (St := St) (Tok := ContinueToken) PUSH).
Abbreviation continueA e m := (TryContinueSync (H4 := e) (St := St) (Tok := ContinueToken) (Some m)).
Abbreviation receiveB m := (DataRequestRecv (H4 := envB) (St := St) (Tok := ContinueToken) (Some m)).

(** The device sends three packets. The second arrives first and is refused; then the first, the
    second again, twice, and the third. The acknowledgements of the first and the second arrive. *)
Definition wA1 := after (startA envA) wA0.
Definition packet1 := sent_message 0 wA1.
Definition packet2 := sent_message 1 wA1.
Definition packet3 := sent_message 2 wA1.
Definition wB1 := after (receiveB packet2) wB0.
Definition wB2 := after (receiveB packet1) wB1.
Definition wB3 := after (receiveB packet2) wB2.
Definition wB4 := after (receiveB packet2) wB3.
Definition wB5 := after (receiveB packet3) wB4.
Definition ack1 := sent_message 1 wB5.
Definition ack2 := sent_message 2 wB5.
Definition wA2 := after (continueA envA ack1) wA1.
Definition wA3 := after (continueA envA ack2) wA2.

Lemma reads_honest n : honest_env (reads n).
Proof. by split. Qed.

Lemma table_rows h r : table !! h = Some r -> exists k t, h = hash_of k /\ r = row k t /\ (k = x61 /\ t = 5 \/ k = x62 /\ t = 7 \/ k = x63 /\ t = 9).
Proof.
  unfold table. intros [[<- <-] | [_ [[<- <-] | [_ [<- <-]%lookup_singleton_Some]]%lookup_insert_Some]]%lookup_insert_Some; eauto 10.
Qed.

Lemma store_good : ns_ok (store table 9).
Proof.
  split.
  - split.
    + intros h1 h2 r1 r2 (k1 & t1 & -> & -> & K1)%table_rows (k2 & t2 & -> & -> & K2)%table_rows _ _ E. cbn in E.
      destruct K1 as [[-> ->] | [[-> ->] | [-> ->]]], K2 as [[-> ->] | [[-> ->] | [-> ->]]]; done.
    + intros h r (k & t & -> & -> & K)%table_rows _. cbn. unfold INT64_MAX. destruct K as [[_ ->] | [[_ ->] | [_ ->]]]; lia.
  - intros h r (k & t & -> & -> & K)%table_rows _. cbn. destruct K as [[_ ->] | [[_ ->] | [_ ->]]]; lia.
  - cbn. unfold INT64_MAX. lia.
  - by intros h r (k & t & -> & -> & _)%table_rows _.
Qed.

Lemma wA0_new : sender_new wA0.
Proof. split; [apply store_good | done..]. Qed.

(** The clocks agree; the receiving device has given out no time yet. *)
Abbreviation receiver_ok := (SyncSafety.receiver_ok (eq 0) 0).
Abbreviation system_step e := (SyncSafety.system_step e envB (eq 0) 0).

Lemma wB0_ok : receiver_ok wB0.
Proof. split; (done || (cbn; lia)). Qed.

Lemma step_sends e wA wB mode w : cx_mode (w_cx wA) = PUSH -> status (SyncStart (H4 := e) mode) wA = Some E_OK ->
  w = after (SyncStart (H4 := e) mode) wA -> system_step e (wA, wB) (w, wB).
Proof.
  intros Hm Hs ->. apply step_sender. apply (send_start mode E_OK wA (after (SyncStart (H4 := e) mode) wA)).
  - left. exact Hm.
  - by apply after_eq.
  - left. split; [by left; left | done].
Qed.

Lemma step_goes_on e wA wB m w : status (continueA e m) wA = Some E_OK -> w = after (continueA e m) wA ->
  system_step e (wA, wB) (w, wB).
Proof. intros Hs ->. apply step_sender. eapply send_continue; [apply after_eq; exact Hs | left; split; [by left; left | done]]. Qed.

(** The message with the number [n], if it is of data, and a receiver that has room. *)
Definition has_data (n : nat) (w : W) : bool :=
  (n <? length (w_sent w))%nat && match GetDataRequest (sent_message n w) with Some (Some _) => true | _ => false end.
Definition has_room (w : W) : bool :=
  forallb (fun hr => write_stamp hr.2 <? 2 ^ 64 - 1) (map_to_list (ns_table (md_store (w_md w))))
  && (conflictResolvePolicy_ (exec (ns_store (md_store (w_md w)))) =? DEFAULT_LAST_WIN).

Lemma has_room_ok w : has_room w = true -> room (md_store (w_md w)).
Proof.
  intros [Hs Hp]%andb_prop. apply Z.eqb_eq in Hp. split; [done |]. intros h r Hr. rewrite forallb_forall in Hs.
  apply Z.ltb_lt. apply (Hs (h, r)). by apply list_elem_of_In, elem_of_map_to_list.
Qed.

Lemma sent_in n w : (n <? length (w_sent w))%nat = true -> sent_message n w ∈ w_sent w.
Proof.
  intros Hn%Nat.ltb_lt. unfold sent_message. destruct (lookup_lt_is_Some_2 _ _ Hn) as [m Em]. rewrite Em. by eapply list_elem_of_lookup_2.
Qed.

Lemma step_arrives e wA wB n r w : has_room wB = true -> has_data n wA = true -> status (receiveB (sent_message n wA)) wB = Some r ->
  (lastLocalTime_ (w_md (after (receiveB (sent_message n wA)) wB)) <? 2 ^ 64 - 1) = true ->
  w = after (receiveB (sent_message n wA)) wB -> system_step e (wA, wB) (wA, w).
Proof.
  intros Hr%has_room_ok [Hn Hd]%andb_prop Hs Hc ->. apply Z.ltb_lt in Hc. destruct (GetDataRequest (sent_message n wA)) as [[p|]|] eqn:Ep; try done.
  eapply step_deliver; [exact Hr | | exact Ep | exact Ep | apply after_eq; exact Hs | exact Hc]. by apply sent_in.
Qed.

Ltac evaluate := vm_compute; reflexivity.

Lemma run_ok : rtc (system_step envA) (wA0, wB0) (wA3, wB5).
Proof.
  apply rtc_l with (wA1, wB0); [apply (step_sends envA wA0 wB0 PUSH); [done | evaluate | by unfold wA1] |].
  apply rtc_l with (wA1, wB1); [eapply (step_arrives envA wA1 wB0 1); [evaluate | evaluate | evaluate | evaluate | by unfold wB1, packet2] |].
  apply rtc_l with (wA1, wB2); [eapply (step_arrives envA wA1 wB1 0); [evaluate | evaluate | evaluate | evaluate | by unfold wB2, packet1] |].
  apply rtc_l with (wA1, wB3); [eapply (step_arrives envA wA1 wB2 1); [evaluate | evaluate | evaluate | evaluate | by unfold wB3, packet2] |].
  apply rtc_l with (wA1, wB4); [eapply (step_arrives envA wA1 wB3 1); [evaluate | evaluate | evaluate | evaluate | by unfold wB4, packet2] |].
  apply rtc_l with (wA1, wB5); [eapply (step_arrives envA wA1 wB4 2); [evaluate | evaluate | evaluate | evaluate | by unfold wB5, packet3] |].
  apply rtc_l with (wA2, wB5); [apply (step_goes_on envA wA1 wB5 ack1); [evaluate | by unfold wA2] |].
  apply rtc_once, (step_goes_on envA wA2 wB5 ack2); [evaluate | by unfold wA3].
Qed.

Lemma envA_sends n m : sent_code (env_send (SyncEnv := envA) n m).
Proof. by split_and!. Qed.

(** All three writes have arrived. *)
Lemma sync_no_loss_witness :
  peer_mark wB5 = 10 /\ forall h r, ns_table (md_store (w_md wA3)) !! h = Some r -> local_row r -> r_timestamp r < 10 ->
    row_arrived envB (eq 0) 0 (md_store (w_md wB5)) h r.
Proof.
  assert (E : peer_mark wB5 = 10) by (vm_compute; reflexivity). split; [exact E |]. rewrite <- E.
  assert (E0 : peer_mark wB0 = 0) by (vm_compute; reflexivity).
  refine (sync_no_loss envA envB sqlite sqlite config config reads reads saves saves as_query as_query interface interface
    (eq 0) 0 envA_sends reads_honest _ _ eq_refl wA0 wB0 wA3 wB5 wA0_new wB0_ok E0 run_ok).
  - intros st items d d' c out st' [= <- <- <-]. split; [reflexivity | split; reflexivity].
  - intros m k v. reflexivity.
Defined.

(** The window after the acknowledgements of two of the three packets. *)
Lemma window_sound_witness :
  ds_windowSize (w_ds wA3) = 2 /\ ds_maxSequenceIdHasSent (w_ds wA3) = 3
  /\ (ds_windowSize (w_ds wA3) + Z.of_nat (base.size (ds_reSendMap (w_ds wA3))) <= HIGH_VERSION_WINDOW_SIZE)
  /\ forall k, 1 <= k <= 3 -> k ∈ ({[1; 2]} : gset Z) \/ is_Some (ds_reSendMap (w_ds wA3) !! k).
Proof.
  assert (E1 : status (startA envA) wA0 = Some E_OK) by evaluate. apply after_eq in E1.
  assert (E2 : status (continueA envA ack1) wA1 = Some E_OK) by evaluate. apply after_eq in E2.
  assert (E3 : status (continueA envA ack2) wA2 = Some E_OK) by evaluate. apply after_eq in E3.
  fold wA1 in E1. fold wA2 in E2. fold wA3 in E3.
  assert (Hrun : rtc (window_step (H4 := envA)) (wA0, ∅) (wA3, {[1; 2]})).
  { apply rtc_l with (wA1, ∅); [exact (step_start (H4 := envA) wA0 ∅ PUSH E_OK wA1 E1) |].
    pose proof (step_ack (H4 := envA) wA1 ∅ ack1 E_OK wA2 E2) as S2. pose proof (step_ack (H4 := envA) wA2 {[1]} ack2 E_OK wA3 E3) as S3.
    match type of S2 with window_step _ (_, ?a) => replace a with ({[1]} : gset Z) in S2 by evaluate end.
    match type of S3 with window_step _ (_, ?a) => replace a with ({[1; 2]} : gset Z) in S3 by evaluate end.
    exact (rtc_l _ _ _ _ S2 (rtc_once _ _ S3)). }
  destruct (window_sound (H4 := envA) wA0 wA3 {[1; 2]} eq_refl Hrun) as ([_ Hw] & _ & Hk & _).
  assert (Et : Z.of_nat (w_tick wA3) < 2 ^ 32) by evaluate. assert (Em : ds_maxSequenceIdHasSent (w_ds wA3) = 3) by evaluate.
  specialize (Hk Et). rewrite Em in Hk. split; [evaluate |]. split; [exact Em |]. split; [exact Hw |].
  intros k Hrange. destruct (Hk k Hrange) as [[? _] | [_ ?]]; [left | right]; assumption.
Defined.

(** * A time-out of a send *)

(** The same device, which tries again what times out. *)
Definition vA0 : W := set_cx wA0 (set_syncTaskRetryStatus (w_cx wA0) true).
Definition vA1 := after (startA busyA) vA0.
Definition vB1 := after (receiveB (sent_message 0 vA1)) wB0.
Definition vA2 := after (continueA busyA (sent_message 0 vB1)) vA1.
Definition vB2 := after (receiveB (sent_message 1 vA2)) vB1.
Definition vA3 := after (AbortInner (H4 := busyA)) vA2.

Lemma busy_start : rtc (system_step busyA) (vA0, wB0) (vA1, vB1).
Proof.
  apply rtc_l with (vA1, wB0); [apply (step_sends busyA vA0 wB0 PUSH); [done | evaluate | by unfold vA1] |].
  apply rtc_once; eapply (step_arrives busyA vA1 wB0 0); [evaluate | evaluate | evaluate | evaluate | by unfold vB1].
Qed.

Lemma busy_run : rtc (system_step busyA) (vA0, wB0) (vA3, vB2).
Proof.
  etrans; [apply busy_start |].
  apply rtc_l with (vA2, vB1); [apply (step_goes_on busyA vA1 vB1 (sent_message 0 vB1)); [evaluate | by unfold vA2] |].
  apply rtc_l with (vA2, vB2); [eapply (step_arrives busyA vA2 vB1 1); [evaluate | evaluate | evaluate | evaluate | by unfold vB2] |].
  assert (E : status (AbortInner (H4 := busyA)) vA2 = Some tt) by evaluate. apply after_eq in E.
  apply rtc_once, step_sender. unfold vA3. exact (send_abort (H4 := busyA) vA2 _ E).
Qed.

Lemma busy_sends n m : env_send (SyncEnv := busyA) n m = - E_TIMEOUT <-> sequenceId_ m = 2.
Proof. cbn. destruct (sequenceId_ m =? 2) eqn:E; [apply Z.eqb_eq in E | apply Z.eqb_neq in E]; split; done. Qed.

Lemma vA0_new : sender_new vA0.
Proof. split; [apply store_good | done..]. Qed.

Definition message3 : SyncMessage := sent_message 1 vA2.
Definition data3 : DataRequestPacket :=
  match GetDataRequest message3 with Some (Some p) => p | _ => newDataRequest end.


(** * A step of the state machine *)

(** The times agree, and the abilities are known. *)
#[local] Instance known : Handshake ContinueToken := {|
  hs_needTimeSync := fun _ => false;
  hs_timeSyncStart := fun _ => E_OK;
  hs_timeOffset := fun _ => (E_OK, 0);
  hs_timeRequestRecv := fun _ _ => E_OK;
  hs_timeAckRecv := fun _ _ => E_OK;
  hs_abilityStart := fun _ => E_OK;
  hs_abilityRequestRecv := fun _ _ c => (E_OK, c);
  hs_abilityAckRecv := fun _ _ c => (E_OK, c);
  hs_abilityAckNotifyRecv := fun _ _ c => c;
  hs_ackCode := fun _ => None
|}.

#[local] Instance answers : SteadyAnswers (H := envA) St ContinueToken.
Proof.
  apply (natural_store_steady reads saves as_query (H3 := envA) interface); try (intros; split; discriminate).
  - by intros.
  - by intros ? ? ? ? ? [= <- _].
  - intros m k. cbn. destruct (m !! k); split; discriminate.
Defined.

(** One task is over, another waits: a push to the other device. *)
Definition push : SyncOperation := op_Initialize (newSyncOperation 2 [devB] PUSH false false).
Definition waiting : SyncTarget := SetSyncOperation newSyncTarget 1 push.
Definition tA0 : W :=
  set_machine (set_ops (set_cx wA0 (set_requestTargetQueue (w_cx wA0) [waiting])) {[ 1 := push ]})
    (mkMachine SYNC_TASK_FINISHED true 0 0 1 true).
Definition tA1 := after (SyncStepInner (H4 := envA)) tA0.

(** The task is taken, and its three packets are sent; then the machine waits. *)
Lemma sync_step_terminates_witness :
  currentState (w_machine tA1) = START_INITIACTIVE_DATA_SYNC /\ length (w_sent tA1) = 3%nat /\ targets (w_cx tA1) = 0%nat
  /\ Acc (flip (next_round (H4 := envA))) tA0 /\ ends (H4 := envA) tA0 (Some (tt, tA1)).
Proof.
  assert (E : status (SyncStepInner (H4 := envA)) tA0 = Some tt) by evaluate. apply after_eq in E. fold tA1 in E.
  assert (Hw : token_ok (H4 := envA) tA0) by (intros t Ht; discriminate Ht).
  destruct (sync_step_terminates (H4 := envA) tA0 Hw) as (Hacc & _ & Hends). rewrite E in Hends.
  split; [evaluate |]. split; [evaluate |]. split; [evaluate |]. split; [exact Hacc | exact Hends].
Defined.

End Devices.
