(* ===== verification/SendTaskScheduler.v ===== *)
(** Model of [SendTaskScheduler] (communicator/src/send_task_scheduler.cpp): the tasks
    waiting to be sent, by priority and destination, with the targets that are delayed. *)

From S2P Require Import Prelude Memory SerialBuffer CommTypes.
From Stdlib Require Import ZArith Lia.
From Stdlib Require Import Strings.Byte.
From stdpp Require Import base numbers list gmap.

Open Scope Z_scope.

Definition MAX_CAPACITY : Z := 67108864.
Definition EXTRA_CAPACITY_FOR_NORMAL_PRIORITY : Z := 33554432.
Definition EXTRA_CAPACITY_FOR_HIGH_PRIORITY : Z := 67108864.

Inductive TargetPolicy := NO_DELAY | DELAY.

#[export] Instance TargetPolicy_eq_dec : EqDecision TargetPolicy.
Proof. solve_decision. Defined.

(** [onEnd] is a callback of the caller; here its identity, [None] when it is empty. *)
Record SendTask := mkSendTask {
  st_buffer : SerialBuffer;
  st_dstTarget : cstring;
  st_onEnd : option Z
}.

Record SendTaskInfo := mkSendTaskInfo {
  delayFlag : bool;
  taskPrio : Priority
}.

Record SendTaskScheduler := mkScheduler {
  curTotalSizeByByte_ : Z;
  curTotalSizeByTask_ : Z;
  delayTaskCount_ : Z;
  priorityOrder_ : list Priority;
  extraCapacityInByteByPrio_ : gmap Priority Z;
  policyMap_ : gmap cstring TargetPolicy;
  taskCountByPrio_ : gmap Priority Z;
  taskDelayCountByPrio_ : gmap Priority Z;
  taskOrderByPrio_ : gmap Priority (list cstring);
  taskGroupByPrio_ : gmap Priority (gmap cstring (list SendTask));
  scheduledFlag_ : bool;
  lastScheduleTarget_ : cstring;
  lastSchedulePriority_ : Priority
}.

Definition emptyScheduler : SendTaskScheduler :=
  mkScheduler 0 0 0 [] ∅ ∅ ∅ ∅ ∅ ∅ false [] LOW.

(** [operator[]] on the maps: a missing entry reads as the zero value. *)
Definition count_of (m : gmap Priority Z) (prio : Priority) : Z := default 0 (m !! prio).
Definition order_of (s : SendTaskScheduler) (prio : Priority) : list cstring :=
  default [] (taskOrderByPrio_ s !! prio).
Definition groups_of (s : SendTaskScheduler) (prio : Priority) : gmap cstring (list SendTask) :=
  default ∅ (taskGroupByPrio_ s !! prio).
Definition tasks_of (s : SendTaskScheduler) (prio : Priority) (target : cstring) : list SendTask :=
  default [] (groups_of s prio !! target).
Definition policy_of (s : SendTaskScheduler) (target : cstring) : TargetPolicy :=
  default NO_DELAY (policyMap_ s !! target).

Definition set_tasks (s : SendTaskScheduler) (prio : Priority) (target : cstring)
    (tasks : list SendTask) : gmap Priority (gmap cstring (list SendTask)) :=
  <[prio := <[target := tasks]> (groups_of s prio)]> (taskGroupByPrio_ s).

Definition Initialize (s : SendTaskScheduler) : SendTaskScheduler :=
  let order := [HIGH; NORMAL; LOW] in
  let zeros (m : gmap Priority Z) := foldr (fun p => <[p := 0]>) m order in
  mkScheduler (curTotalSizeByByte_ s) (curTotalSizeByTask_ s) (delayTaskCount_ s) order
    (<[HIGH := EXTRA_CAPACITY_FOR_HIGH_PRIORITY]>
       (<[NORMAL := EXTRA_CAPACITY_FOR_NORMAL_PRIORITY]> (zeros (extraCapacityInByteByPrio_ s))))
    (policyMap_ s) (zeros (taskCountByPrio_ s)) (zeros (taskDelayCountByPrio_ s))
    (taskOrderByPrio_ s) (foldr (fun p => <[p := ∅]>) (taskGroupByPrio_ s) order)
    (scheduledFlag_ s) (lastScheduleTarget_ s) (lastSchedulePriority_ s).

Definition AddSendTaskIntoSchedule (s : SendTaskScheduler) (inTask : SendTask) (inPrio : Priority)
    : Z * SendTaskScheduler :=
  if u32 (MAX_CAPACITY + count_of (extraCapacityInByteByPrio_ s) inPrio) <=? curTotalSizeByByte_ s
  then (- E_CONTAINER_FULL, s)
  else
    let target := st_dstTarget inTask in
    let delayed := if decide (policy_of s target = DELAY) then 1 else 0 in
    (E_OK, mkScheduler
       (u32 (curTotalSizeByByte_ s + GetSize (st_buffer inTask)))
       (u32 (curTotalSizeByTask_ s + 1))
       (u32 (delayTaskCount_ s + delayed))
       (priorityOrder_ s) (extraCapacityInByteByPrio_ s)
       (<[target := policy_of s target]> (policyMap_ s))
       (<[inPrio := u32 (count_of (taskCountByPrio_ s) inPrio + 1)]> (taskCountByPrio_ s))
       (<[inPrio := u32 (count_of (taskDelayCountByPrio_ s) inPrio + delayed)]> (taskDelayCountByPrio_ s))
       (<[inPrio := order_of s inPrio ++ [target]]> (taskOrderByPrio_ s))
       (set_tasks s inPrio target (tasks_of s inPrio target ++ [inTask]))
       (scheduledFlag_ s) (lastScheduleTarget_ s) (lastSchedulePriority_ s)).

(** The result of looking for a task: [Undefined] is [front()] of an empty list. *)
Inductive Scheduled :=
  | Found (task : SendTask) (info : SendTaskInfo)
  | NoTask (errCode : Z)
  | Undefined.

Definition front_task (tasks : list SendTask) (info : SendTaskInfo) : Scheduled :=
  match tasks with
  | task :: _ => Found task info
  | [] => Undefined
  end.

Fixpoint ScheduleDelayTask (s : SendTaskScheduler) (prios : list Priority) : Scheduled :=
  match prios with
  | [] => NoTask (- E_INTERNAL_ERROR)
  | prio :: prios =>
    if count_of (taskCountByPrio_ s) prio =? 0 then ScheduleDelayTask s prios
    else match order_of s prio with
         | [] => Undefined
         | dstTarget :: _ => front_task (tasks_of s prio dstTarget) (mkSendTaskInfo true prio)
         end
  end.

(** The first target of the order list that is not delayed. *)
Definition first_no_delay (s : SendTaskScheduler) (order : list cstring) : option cstring :=
  find (fun target => bool_decide (policy_of s target = NO_DELAY)) order.

Fixpoint ScheduleNoDelayTask (s : SendTaskScheduler) (prios : list Priority) : Scheduled :=
  match prios with
  | [] => NoTask (- E_INTERNAL_ERROR)
  | prio :: prios =>
    if (count_of (taskCountByPrio_ s) prio =? 0)
       || (count_of (taskCountByPrio_ s) prio =? count_of (taskDelayCountByPrio_ s) prio)
    then ScheduleNoDelayTask s prios
    else match first_no_delay s (order_of s prio) with
         | None => NoTask (- E_INTERNAL_ERROR)
         | Some dstTarget => front_task (tasks_of s prio dstTarget) (mkSendTaskInfo false prio)
         end
  end.

Definition set_last (s : SendTaskScheduler) (target : cstring) (prio : Priority) : SendTaskScheduler :=
  mkScheduler (curTotalSizeByByte_ s) (curTotalSizeByTask_ s) (delayTaskCount_ s) (priorityOrder_ s)
    (extraCapacityInByteByPrio_ s) (policyMap_ s) (taskCountByPrio_ s) (taskDelayCountByPrio_ s)
    (taskOrderByPrio_ s) (taskGroupByPrio_ s) true target prio.

Definition ScheduleOutSendTask (s : SendTaskScheduler) : Scheduled * SendTaskScheduler :=
  if curTotalSizeByTask_ s =? 0 then (NoTask (- E_CONTAINER_EMPTY), s)
  else
    let out := if delayTaskCount_ s =? curTotalSizeByTask_ s
               then ScheduleDelayTask s (priorityOrder_ s)
               else ScheduleNoDelayTask s (priorityOrder_ s) in
    match out with
    | Found task info => (out, set_last s (st_dstTarget task) (taskPrio info))
    | _ => (out, s)
    end.

(** [erase] of the first occurrence. *)
Fixpoint erase_first (target : cstring) (order : list cstring) : list cstring :=
  match order with
  | [] => []
  | t :: order => if decide (t = target) then order else t :: erase_first target order
  end.

(** [None]: [front()] of an empty list. *)
Definition FinalizeLastScheduleTask (s : SendTaskScheduler) : option (Z * SendTaskScheduler) :=
  if curTotalSizeByTask_ s =? 0 then Some (- E_CONTAINER_EMPTY, s)
  else if negb (scheduledFlag_ s) then Some (- E_NOT_PERMIT, s)
  else
    let prio := lastSchedulePriority_ s in
    let target := lastScheduleTarget_ s in
    match tasks_of s prio target with
    | [] => None
    | task :: tasks =>
      let isFullBefore := MAX_CAPACITY <=? curTotalSizeByByte_ s in
      let bytes := u32 (curTotalSizeByByte_ s - GetSize (st_buffer task)) in
      let isFullAfter := MAX_CAPACITY <=? bytes in
      let total := u32 (curTotalSizeByTask_ s - 1) in
      let delayed := if decide (policy_of s target = DELAY) then 1 else 0 in
      let delay := u32 (delayTaskCount_ s - delayed) in
      let s' := mkScheduler bytes total delay (priorityOrder_ s) (extraCapacityInByteByPrio_ s)
        (<[target := policy_of s target]> (policyMap_ s))
        (<[prio := u32 (count_of (taskCountByPrio_ s) prio - 1)]> (taskCountByPrio_ s))
        (<[prio := u32 (count_of (taskDelayCountByPrio_ s) prio - delayed)]> (taskDelayCountByPrio_ s))
        (<[prio := erase_first target (order_of s prio)]> (taskOrderByPrio_ s))
        (set_tasks s prio target tasks) false target prio in
      let errCode :=
        if isFullBefore && negb isFullAfter then - E_CONTAINER_FULL_TO_NOTFULL
        else if total =? 0 then - E_CONTAINER_NOTEMPTY_TO_EMPTY
        else if total =? delay then - E_CONTAINER_ONLY_DELAY_TASK
        else E_OK in
      Some (errCode, s')
    end.

(** [TaskDelayCountByPrio_] and [delayTaskCount_] move by the number of tasks of the
    target in each priority, up or down. *)
Definition move_delay (s : SendTaskScheduler) (inTarget : cstring) (policy : TargetPolicy)
    (sign : Z) : SendTaskScheduler :=
  let '(delay, delays) :=
    fold_left (fun '(delay, delays) prio =>
      let count := u32 (Z.of_nat (length (tasks_of s prio inTarget))) in
      (u32 (delay + sign * count), <[prio := u32 (count_of delays prio + sign * count)]> delays))
      (priorityOrder_ s) (delayTaskCount_ s, taskDelayCountByPrio_ s) in
  mkScheduler (curTotalSizeByByte_ s) (curTotalSizeByTask_ s) delay (priorityOrder_ s)
    (extraCapacityInByteByPrio_ s) (<[inTarget := policy]> (policyMap_ s)) (taskCountByPrio_ s) delays
    (taskOrderByPrio_ s) (taskGroupByPrio_ s) (scheduledFlag_ s) (lastScheduleTarget_ s)
    (lastSchedulePriority_ s).

Definition DelayTaskByTarget (s : SendTaskScheduler) (inTarget : cstring) : Z * SendTaskScheduler :=
  match policyMap_ s !! inTarget with
  | None => (- E_NOT_FOUND, s)
  | Some DELAY => (E_OK, s)
  | Some NO_DELAY => (E_OK, move_delay s inTarget DELAY 1)
  end.

Definition NoDelayTaskByTarget (s : SendTaskScheduler) (inTarget : cstring) : Z * SendTaskScheduler :=
  match policyMap_ s !! inTarget with
  | None => (- E_NOT_FOUND, s)
  | Some NO_DELAY => (E_OK, s)
  | Some DELAY => (E_OK, move_delay s inTarget NO_DELAY (-1))
  end.

Definition GetTotalTaskCount (s : SendTaskScheduler) : Z := curTotalSizeByTask_ s.
Definition GetNoDelayTaskCount (s : SendTaskScheduler) : Z :=
  u32 (curTotalSizeByTask_ s - delayTaskCount_ s).

(** The loop of [Finalize]; the result says how the loop ended: [Some true] when the
    scheduler is empty, [Some false] at the [break], [None] when the fuel ran out or the
    behaviour is undefined. *)
Fixpoint finalize_loop (fuel : nat) (s : SendTaskScheduler) : option bool * SendTaskScheduler :=
  match fuel with
  | O => (None, s)
  | S fuel =>
    if GetTotalTaskCount s =? 0 then (Some true, s)
    else match ScheduleOutSendTask s with
         | (Found _ _, s) =>
           match FinalizeLastScheduleTask s with
           | Some (_, s) => finalize_loop fuel s
           | None => (None, s)
           end
         | (NoTask _, s) => (Some false, s)
         | (Undefined, s) => (None, s)
         end
  end.

Definition Finalize (s : SendTaskScheduler) : option bool * SendTaskScheduler :=
  finalize_loop (S (Z.to_nat (GetTotalTaskCount s))) s.
