(* ===== verification/SchedulerFacts.v ===== *)
(** [SendTaskScheduler] implements one queue per priority: the abstract scheduler keeps
    the waiting tasks of each priority in the order they were added, and the concrete
    counters, order lists and per-target lists are views of it. *)

From S2P Require Import Prelude Memory SerialBuffer CommTypes SendTaskScheduler.
From Stdlib Require Import ZArith Lia.
From Stdlib Require Import Strings.Byte.
From stdpp Require Import base numbers list gmap.

Open Scope Z_scope.

(** * The abstract scheduler *)

Record Queues := mkQueues {
  queue : Priority -> list SendTask;
  policies : gmap cstring TargetPolicy;
  last : option (cstring * Priority)
}.

Definition delayed (ps : gmap cstring TargetPolicy) (t : SendTask) : bool :=
  bool_decide (ps !! st_dstTarget t = Some DELAY).

(** The tasks of the given priorities, in this order. *)
Definition tagged (A : Queues) (prios : list Priority) : list (Priority * SendTask) :=
  flat_map (fun p => map (pair p) (queue A p)) prios.

Definition priorities : list Priority := [HIGH; NORMAL; LOW].
Definition waiting (A : Queues) : list (Priority * SendTask) := tagged A priorities.

Definition task_bytes (ts : list (Priority * SendTask)) : Z :=
  foldr (fun pt n => GetSize (st_buffer (snd pt)) + n) 0 ts.

Definition set_queue (A : Queues) (p : Priority) (ts : list SendTask) : Queues :=
  mkQueues (fun p' => if decide (p' = p) then ts else queue A p') (policies A) (last A).

Definition capacity (p : Priority) : Z :=
  match p with
  | LOW => MAX_CAPACITY
  | NORMAL => MAX_CAPACITY + EXTRA_CAPACITY_FOR_NORMAL_PRIORITY
  | HIGH => MAX_CAPACITY + EXTRA_CAPACITY_FOR_HIGH_PRIORITY
  end.

(** The next task: the first one that is not delayed, in priority order and then in the
    order of arrival; the first one at all when all are delayed. *)
Definition next_task (A : Queues) : option (Priority * SendTask) :=
  match find (fun pt => negb (delayed (policies A) (snd pt))) (waiting A) with
  | Some pt => Some pt
  | None => head (waiting A)
  end.

Fixpoint remove_first (target : cstring) (ts : list SendTask) : list SendTask :=
  match ts with
  | [] => []
  | t :: ts => if decide (st_dstTarget t = target) then ts else t :: remove_first target ts
  end.

Inductive Op :=
  | Add (task : SendTask) (prio : Priority)
  | Schedule
  | FinishLast
  | Delay (target : cstring)
  | NoDelay (target : cstring).

Inductive Out :=
  | Code (errCode : Z)
  | Task (task : SendTask) (info : SendTaskInfo).

Definition all_delayed (A : Queues) : bool :=
  forallb (fun pt => delayed (policies A) (snd pt)) (waiting A).

Definition set_policy (A : Queues) (target : cstring) (p : TargetPolicy) : Out * Queues :=
  match policies A !! target with
  | None => (Code (- E_NOT_FOUND), A)
  | Some _ => (Code E_OK, mkQueues (queue A) (<[target := p]> (policies A)) (last A))
  end.

Definition spec (A : Queues) (op : Op) : Out * Queues :=
  match op with
  | Add task prio =>
    if capacity prio <=? task_bytes (waiting A) then (Code (- E_CONTAINER_FULL), A)
    else
      let target := st_dstTarget task in
      let A' := set_queue A prio (queue A prio ++ [task]) in
      (Code E_OK, mkQueues (queue A')
        (<[target := default NO_DELAY (policies A !! target)]> (policies A)) (last A))
  | Schedule =>
    match next_task A with
    | None => (Code (- E_CONTAINER_EMPTY), A)
    | Some (p, task) =>
      (Task task (mkSendTaskInfo (delayed (policies A) task) p),
       mkQueues (queue A) (policies A) (Some (st_dstTarget task, p)))
    end
  | FinishLast =>
    match waiting A, last A with
    | [], _ => (Code (- E_CONTAINER_EMPTY), A)
    | _, None => (Code (- E_NOT_PERMIT), A)
    | _, Some (target, p) =>
      let B := set_queue A p (remove_first target (queue A p)) in
      let A' := mkQueues (queue B) (policies A) None in
      (Code (if (MAX_CAPACITY <=? task_bytes (waiting A))
                && negb (MAX_CAPACITY <=? task_bytes (waiting A')) then - E_CONTAINER_FULL_TO_NOTFULL
             else if bool_decide (waiting A' = []) then - E_CONTAINER_NOTEMPTY_TO_EMPTY
             else if all_delayed A' then - E_CONTAINER_ONLY_DELAY_TASK
             else E_OK), A')
    end
  | Delay target => set_policy A target DELAY
  | NoDelay target => set_policy A target NO_DELAY
  end.

(** The concrete operations with the same interface; [None] is undefined behaviour. *)
Definition exec (s : SendTaskScheduler) (op : Op) : option (Out * SendTaskScheduler) :=
  match op with
  | Add task prio => let '(e, s) := AddSendTaskIntoSchedule s task prio in Some (Code e, s)
  | Schedule =>
    match ScheduleOutSendTask s with
    | (Found task info, s) => Some (Task task info, s)
    | (NoTask e, s) => Some (Code e, s)
    | (Undefined, _) => None
    end
  | FinishLast => '(e, s) ← FinalizeLastScheduleTask s; Some (Code e, s)
  | Delay target => let '(e, s) := DelayTaskByTarget s target in Some (Code e, s)
  | NoDelay target => let '(e, s) := NoDelayTaskByTarget s target in Some (Code e, s)
  end.

(** A task has a buffer with content. *)
Definition task_ok (t : SendTask) : Prop := 0 < GetSize (st_buffer t) <= MAX_TOTAL_LEN.

(** * The abstraction relation *)

Definition len {A} (l : list A) : Z := Z.of_nat (length l).

Record implements (s : SendTaskScheduler) (A : Queues) : Prop := {
  im_prios : priorityOrder_ s = priorities;
  im_extra : forall p, u32 (MAX_CAPACITY + count_of (extraCapacityInByteByPrio_ s) p) = capacity p;
  im_policy : policyMap_ s = policies A;
  im_order : forall p, order_of s p = map st_dstTarget (queue A p);
  im_group : forall p t, tasks_of s p t = filter (fun x => st_dstTarget x = t) (queue A p);
  im_count : forall p, count_of (taskCountByPrio_ s) p = len (queue A p);
  im_delay : forall p, count_of (taskDelayCountByPrio_ s) p =
    len (filter (fun t => Is_true (delayed (policies A) t)) (queue A p));
  im_bytes : curTotalSizeByByte_ s = task_bytes (waiting A);
  im_total : curTotalSizeByTask_ s = len (waiting A);
  im_delays : delayTaskCount_ s =
    len (filter (fun pt => Is_true (delayed (policies A) (snd pt))) (waiting A));
  im_last : scheduledFlag_ s = true <-> is_Some (last A);
  im_last_at : forall t p, last A = Some (t, p) ->
    lastScheduleTarget_ s = t /\ lastSchedulePriority_ s = p
}.

(** What holds of the abstract scheduler throughout. *)
Record queues_ok (A : Queues) : Prop := {
  qo_tasks : forall p t, t ∈ queue A p -> task_ok t /\ is_Some (policies A !! st_dstTarget t);
  qo_bytes : task_bytes (waiting A) < capacity HIGH + MAX_TOTAL_LEN;
  qo_last : forall t p, last A = Some (t, p) -> exists x, x ∈ queue A p /\ st_dstTarget x = t
}.

(** * Sums over the waiting tasks *)

Section Sums.
Implicit Types (f : SendTask -> Z) (ts : list SendTask).

Definition msum f ts : Z := foldr (fun t n => f t + n) 0 ts.

Definition total f (A : Queues) : Z :=
  msum f (queue A HIGH) + msum f (queue A NORMAL) + msum f (queue A LOW).

Lemma msum_app f ts ts' : msum f (ts ++ ts') = msum f ts + msum f ts'.
Proof. unfold msum. induction ts as [|t ts IH]; cbn; lia. Qed.

Lemma msum_single f t : msum f [t] = f t.
Proof. unfold msum. cbn. lia. Qed.

Lemma msum_nonneg f ts : (forall t, t ∈ ts -> 0 <= f t) -> 0 <= msum f ts.
Proof.
  induction ts as [|t ts IH]; intros Hf; cbn; [lia|].
  pose proof (Hf t ltac:(apply elem_of_cons; auto)).
  assert (0 <= msum f ts) by (apply IH; intros; apply Hf, elem_of_cons; auto).
  unfold msum in *. lia.
Qed.

Lemma msum_le f g ts : (forall t, t ∈ ts -> f t <= g t) -> msum f ts <= msum g ts.
Proof.
  induction ts as [|t ts IH]; intros Hf; cbn; [lia|].
  pose proof (Hf t ltac:(apply elem_of_cons; auto)).
  assert (msum f ts <= msum g ts) by (apply IH; intros; apply Hf, elem_of_cons; auto).
  unfold msum in *. lia.
Qed.

Lemma total_set_queue f A p ts :
  total f (set_queue A p ts) = total f A + msum f ts - msum f (queue A p).
Proof.
  unfold total, set_queue. cbn [queue]. destruct p; repeat case_decide; congruence || lia.
Qed.

Lemma msum_in_total f A p :
  (forall p t, t ∈ queue A p -> 0 <= f t) -> 0 <= msum f (queue A p) <= total f A.
Proof.
  intros Hf. assert (Hp : forall p, 0 <= msum f (queue A p))
    by (intros p'; apply msum_nonneg; eauto).
  pose proof (Hp HIGH). pose proof (Hp NORMAL). pose proof (Hp LOW). unfold total.
  destruct p; lia.
Qed.

Lemma foldr_waiting f A :
  foldr (fun (pt : Priority * SendTask) n => f (snd pt) + n) 0 (waiting A) = total f A.
Proof.
  assert (Hmap : forall p ts n, foldr (fun (pt : Priority * SendTask) n => f (snd pt) + n) n
            (map (pair p) ts) = msum f ts + n).
  { intros p ts n. induction ts as [|t ts IH]; cbn; [lia|]. rewrite IH. unfold msum. lia. }
  unfold waiting, tagged, total. cbn. rewrite !foldr_app, !Hmap. cbn. lia.
Qed.

Definition size_of (t : SendTask) : Z := GetSize (st_buffer t).
Definition one (_ : SendTask) : Z := 1.
Definition delay_of (ps : gmap cstring TargetPolicy) (t : SendTask) : Z :=
  if delayed ps t then 1 else 0.
Definition to_target (target : cstring) (t : SendTask) : Z :=
  if decide (st_dstTarget t = target) then 1 else 0.

Lemma bytes_total A : task_bytes (waiting A) = total size_of A.
Proof. apply (foldr_waiting size_of). Qed.

Lemma len_foldr {B} (l : list B) : len l = foldr (fun _ n => 1 + n) 0 l.
Proof. induction l as [|x l IH]; [reflexivity|]. cbn [foldr]. rewrite <- IH. unfold len. cbn [length]. lia. Qed.

Lemma len_msum ts : len ts = msum one ts.
Proof. apply len_foldr. Qed.

Lemma len_total A : len (waiting A) = total one A.
Proof. rewrite len_foldr. apply (foldr_waiting one). Qed.

Lemma len_filter {B} (P : B -> Prop) `{!forall x, Decision (P x)} (l : list B) :
  len (filter P l) = foldr (fun x n => (if decide (P x) then 1 else 0) + n) 0 l.
Proof.
  induction l as [|x l IH]; [reflexivity|]. rewrite filter_cons. cbn [foldr]. rewrite <- IH.
  case_decide; unfold len; cbn [length]; lia.
Qed.

Lemma decide_is_true (b : bool) : (if decide (Is_true b) then 1 else 0) = (if b then 1 else 0).
Proof. destruct b; reflexivity. Qed.

Lemma len_delayed ps ts :
  len (filter (fun t => Is_true (delayed ps t)) ts) = msum (delay_of ps) ts.
Proof.
  rewrite len_filter. unfold msum. induction ts as [|t ts IH]; [reflexivity|]. cbn [foldr].
  rewrite IH, decide_is_true. reflexivity.
Qed.

Lemma delays_total ps A :
  len (filter (fun pt : Priority * SendTask => Is_true (delayed ps (snd pt))) (waiting A))
  = total (delay_of ps) A.
Proof.
  rewrite len_filter, <- foldr_waiting. induction (waiting A) as [|t ts IH]; [reflexivity|].
  cbn [foldr]. rewrite IH, decide_is_true. reflexivity.
Qed.

Lemma len_to_target target ts :
  len (filter (fun x => st_dstTarget x = target) ts) = msum (to_target target) ts.
Proof. rewrite len_filter. reflexivity. Qed.

End Sums.

(** * Removing the first task of a target *)

Lemma erase_first_map target ts :
  erase_first target (map st_dstTarget ts) = map st_dstTarget (remove_first target ts).
Proof.
  induction ts as [|t ts IH]; [reflexivity|]. cbn. case_decide; [reflexivity|]. cbn. by rewrite IH.
Qed.

Lemma filter_remove_first target target' ts :
  filter (fun x => st_dstTarget x = target') (remove_first target ts) =
  if decide (target = target') then tail (filter (fun x => st_dstTarget x = target') ts)
  else filter (fun x => st_dstTarget x = target') ts.
Proof.
  induction ts as [|t ts IH]; cbn [remove_first]; [by case_decide|].
  rewrite (filter_cons _ t ts).
  destruct (decide (st_dstTarget t = target)) as [<-|Hne].
  - destruct (decide (st_dstTarget t = target')); reflexivity.
  - rewrite filter_cons, IH. destruct (decide (target = target')) as [<-|]; [|reflexivity].
    rewrite !decide_False by exact Hne. reflexivity.
Qed.

Lemma msum_remove_first f target ts x rest :
  filter (fun t => st_dstTarget t = target) ts = x :: rest ->
  msum f ts = f x + msum f (remove_first target ts) /\ st_dstTarget x = target /\ x ∈ ts.
Proof.
  induction ts as [|t ts IH]; [discriminate|]. rewrite filter_cons. cbn [remove_first].
  case_decide as Hd.
  - intros [= -> _]. split; [reflexivity|]. split; [exact Hd|]. apply elem_of_cons. auto.
  - intros Hf. destruct (IH Hf) as (E & Hx & Hin). split_and!; [|exact Hx|apply elem_of_cons; auto].
    unfold msum in *. cbn [foldr]. lia.
Qed.

Lemma elem_of_remove_first target ts t : t ∈ remove_first target ts -> t ∈ ts.
Proof.
  induction ts as [|t' ts IH]; cbn; [auto|]. case_decide; rewrite ?elem_of_cons; [auto|].
  intros [->|]; auto.
Qed.

(** * Bounds: no counter wraps *)

Lemma delay_le_one ps t : 0 <= delay_of ps t <= one t.
Proof. unfold delay_of, one. destruct (delayed ps t); lia. Qed.

Lemma totals_bounded A :
  queues_ok A ->
  0 <= total one A <= total size_of A /\ total size_of A < capacity HIGH + MAX_TOTAL_LEN /\
  0 <= total (delay_of (policies A)) A <= total one A.
Proof.
  intros [Ht Hb _]. rewrite bytes_total in Hb.
  assert (Hle : forall p, 0 <= msum one (queue A p) <= msum size_of (queue A p)).
  { intros p. split; [apply msum_nonneg; unfold one; lia|]. apply msum_le.
    intros t Hin. destruct (Ht _ _ Hin) as [Hok _]. unfold task_ok, one, size_of in *. lia. }
  assert (Hd : forall p, 0 <= msum (delay_of (policies A)) (queue A p) <= msum one (queue A p)).
  { intros p. split; [apply msum_nonneg|apply msum_le]; intros; apply delay_le_one. }
  unfold total in *. pose proof (Hle HIGH). pose proof (Hle NORMAL). pose proof (Hle LOW).
  pose proof (Hd HIGH). pose proof (Hd NORMAL). pose proof (Hd LOW). lia.
Qed.

Lemma queue_bounded A p :
  queues_ok A ->
  0 <= msum one (queue A p) <= total one A /\
  0 <= msum (delay_of (policies A)) (queue A p) <= msum one (queue A p).
Proof.
  intros _. split; [apply msum_in_total; unfold one; lia|].
  split; [apply msum_nonneg|apply msum_le]; intros; apply delay_le_one.
Qed.

Lemma capacity_le p : 0 < capacity p <= capacity HIGH.
Proof. destruct p; vm_compute; intuition congruence. Qed.

Lemma cap_const : capacity HIGH + MAX_TOTAL_LEN = 239075328.
Proof. reflexivity. Qed.

Lemma policy_of_delay s A t :
  policyMap_ s = policies A -> policy_of s (st_dstTarget t) = DELAY <-> delayed (policies A) t = true.
Proof.
  intros E. unfold policy_of, delayed. rewrite E, bool_decide_eq_true.
  destruct (policies A !! st_dstTarget t) as [[]|]; cbn; split; congruence.
Qed.

Lemma delay_flag s A t :
  policyMap_ s = policies A ->
  (if decide (policy_of s (st_dstTarget t) = DELAY) then 1 else 0) = delay_of (policies A) t.
Proof.
  intros E. unfold delay_of. pose proof (policy_of_delay s A t E) as Hp.
  case_decide; destruct (delayed (policies A) t); try reflexivity; exfalso; intuition congruence.
Qed.

(** Recording the policy a target has already does not change who is delayed. *)
Lemma delayed_insert_same ps target t :
  delayed (<[target := default NO_DELAY (ps !! target)]> ps) t = delayed ps t.
Proof.
  unfold delayed. apply bool_decide_ext. destruct (decide (target = st_dstTarget t)) as [->|].
  - rewrite lookup_insert_eq. destruct (ps !! st_dstTarget t); cbn; split; congruence.
  - rewrite lookup_insert_ne by assumption. reflexivity.
Qed.

Lemma msum_ext f g ts : (forall t, f t = g t) -> msum f ts = msum g ts.
Proof. intros E. unfold msum. induction ts as [|t ts IH]; cbn; [reflexivity|]. rewrite IH, E. reflexivity. Qed.

Lemma count_of_insert m p v p' :
  count_of (<[p := v]> m) p' = if decide (p' = p) then v else count_of m p'.
Proof.
  unfold count_of. rewrite lookup_insert. repeat case_decide; congruence || reflexivity.
Qed.

Lemma tasks_of_set s s' p t ts p' t' :
  taskGroupByPrio_ s' = set_tasks s p t ts ->
  tasks_of s' p' t' = if decide (p' = p) then if decide (t' = t) then ts else tasks_of s p t'
                      else tasks_of s p' t'.
Proof.
  intros E. unfold tasks_of, groups_of at 1. rewrite E. unfold set_tasks. rewrite lookup_insert.
  destruct (decide (p = p')) as [<-|]; [|rewrite decide_False by congruence; reflexivity].
  rewrite decide_True by reflexivity. change (default ∅ (Some ?x)) with x. rewrite lookup_insert.
  repeat case_decide; congruence || reflexivity.
Qed.

(** All counters as sums over the queues. *)
Ltac to_sums := rewrite ?len_delayed, ?len_msum, ?bytes_total, ?len_total, ?delays_total in *.

(** * Adding a task *)

Lemma exec_add s A task p :
  implements s A -> queues_ok A -> task_ok task ->
  exists s', exec s (Add task p) = Some (fst (spec A (Add task p)), s') /\
    implements s' (snd (spec A (Add task p))) /\ queues_ok (snd (spec A (Add task p))).
Proof.
  intros Him Hq Htask. pose proof Him as [Hpr Hex Hpol Hord Hgrp Hcnt Hdel Hby Htot Hdls Hl Hla].
  cbn [exec spec]. unfold AddSendTaskIntoSchedule. rewrite Hex, Hby.
  destruct (Z.leb_spec (capacity p) (task_bytes (waiting A))) as [Hfull|Hroom];
    [eexists; split; [reflexivity|]; split; assumption|].
  rewrite (delay_flag s A task Hpol). eexists. split; [reflexivity|]. cbn [snd fst].
  set (target := st_dstTarget task). set (ps := <[target := _]> (policies A)).
  pose proof (totals_bounded A Hq) as (Hb1 & Hb2 & Hb3). rewrite cap_const in Hb2.
  pose proof (delay_le_one (policies A) task) as Hd1.
  unfold task_ok, MAX_TOTAL_LEN in Htask. unfold one in Hd1. pose proof (capacity_le p) as Hcap.
  assert (Hcap2 : capacity HIGH = 134217728) by reflexivity.
  change (GetSize (st_buffer task)) with (size_of task) in *.
  assert (Hps : forall ts, msum (delay_of ps) ts = msum (delay_of (policies A)) ts).
  { intros ts. apply msum_ext. intros t. unfold delay_of, ps, target.
    rewrite delayed_insert_same. reflexivity. }
  assert (Hqueue : forall f, total f (mkQueues (queue (set_queue A p (queue A p ++ [task]))) ps (last A))
                   = total f A + f task).
  { intros f. change (total f (mkQueues _ _ _)) with (total f (set_queue A p (queue A p ++ [task]))).
    rewrite total_set_queue, msum_app, msum_single. lia. }
  split.
  - constructor; cbn [priorityOrder_ extraCapacityInByteByPrio_ policyMap_ curTotalSizeByByte_
      curTotalSizeByTask_ delayTaskCount_ taskCountByPrio_ taskDelayCountByPrio_ scheduledFlag_
      lastScheduleTarget_ lastSchedulePriority_ last policies]; auto; to_sums.
    + unfold policy_of. rewrite Hpol. reflexivity.
    + intros p'. unfold order_of at 1. cbn [taskOrderByPrio_]. rewrite lookup_insert. cbn [queue set_queue].
      repeat case_decide; try congruence; [|apply Hord]. subst. cbn. rewrite Hord, map_app. reflexivity.
    + intros p' t'. erewrite (tasks_of_set s) by reflexivity. cbn [queue set_queue].
      destruct (decide (p' = p)) as [->|]; [|apply Hgrp].
      rewrite filter_app, filter_cons, filter_nil, <- Hgrp. fold target.
      repeat case_decide; subst; try congruence. rewrite app_nil_r. reflexivity.
    + intros p'. rewrite count_of_insert. cbn [queue set_queue]. rewrite Hcnt.
      pose proof (queue_bounded A p Hq) as [Hq1 _].
      case_decide; to_sums; [|rewrite Hcnt; to_sums; reflexivity]. subst.
      rewrite msum_app, msum_single, wrap_small; [reflexivity|lia].
    + intros p'. rewrite count_of_insert. cbn [queue set_queue]. rewrite len_delayed, Hps.
      pose proof (queue_bounded A p Hq) as [Hq1 Hq2]. specialize (Hdel p) as Hdp. to_sums.
      case_decide; [|rewrite Hdel; to_sums; reflexivity]. subst.
      rewrite Hdp, msum_app, msum_single, wrap_small; lia.
    + rewrite Hqueue. apply wrap_small. lia.
    + rewrite Hqueue, Htot, wrap_small; [reflexivity|lia].
    + rewrite Hdls, wrap_small by lia.
      rewrite <- Hqueue. unfold total. cbn [queue policies]. rewrite !Hps. reflexivity.
  - constructor; cbn [policies last].
    + intros p' t. cbn [queue set_queue].
      assert (Hins : forall x, is_Some (policies A !! st_dstTarget x) -> is_Some (ps !! st_dstTarget x)).
      { intros x Hx. unfold ps. destruct (decide (target = st_dstTarget x)) as [<-|].
        - rewrite lookup_insert_eq. eauto.
        - rewrite lookup_insert_ne by assumption. exact Hx. }
      case_decide; [|intros Hin; destruct (qo_tasks _ Hq _ _ Hin); auto].
      rewrite elem_of_app, list_elem_of_singleton. intros [Hin| ->].
      * destruct (qo_tasks _ Hq _ _ Hin); auto.
      * split; [exact Htask|]. unfold ps, target. rewrite lookup_insert_eq. eauto.
    + to_sums. rewrite Hqueue, cap_const. lia.
    + intros t p' Hlast. destruct (qo_last _ Hq _ _ Hlast) as (x & Hx & Hxt).
      exists x. split; [|exact Hxt]. cbn [queue set_queue]. case_decide; [subst|exact Hx].
      apply elem_of_app. auto.
Qed.

(** * Delaying a target and ending the delay *)

Definition delay_sign (new : TargetPolicy) : Z := match new with DELAY => 1 | NO_DELAY => -1 end.

Lemma delay_of_change ps target old new x :
  ps !! target = Some old -> old <> new ->
  delay_of (<[target := new]> ps) x = delay_of ps x + delay_sign new * to_target target x.
Proof.
  intros Hold Hne. unfold delay_of, to_target, delayed, delay_sign.
  destruct (decide (st_dstTarget x = target)) as [->|Ht].
  - rewrite lookup_insert_eq, Hold. destruct old, new; try congruence; reflexivity.
  - rewrite lookup_insert_ne by congruence. destruct (bool_decide _); lia.
Qed.

Lemma msum_change ps target old new ts :
  ps !! target = Some old -> old <> new ->
  msum (delay_of (<[target := new]> ps)) ts =
    msum (delay_of ps) ts + delay_sign new * msum (to_target target) ts.
Proof.
  intros Hold Hne. unfold msum. induction ts as [|t ts IH]; cbn; [lia|].
  rewrite IH, (delay_of_change ps target old new t Hold Hne). lia.
Qed.

Lemma exec_move s A target old new :
  implements s A -> queues_ok A -> policies A !! target = Some old -> old <> new ->
  implements (move_delay s target new (delay_sign new))
    (mkQueues (queue A) (<[target := new]> (policies A)) (last A)).
Proof.
  intros Him Hq Hold Hne. pose proof Him as [Hpr Hex Hpol Hord Hgrp Hcnt Hdel Hby Htot Hdls Hl Hla].
  set (A' := mkQueues (queue A) (<[target := new]> (policies A)) (last A)).
  pose proof (totals_bounded A Hq) as (Hb1 & Hb2 & Hb3). rewrite cap_const in Hb2.
  assert (Hch : forall p, msum (delay_of (policies A')) (queue A p) =
    msum (delay_of (policies A)) (queue A p) + delay_sign new * msum (to_target target) (queue A p)).
  { intros p. apply (msum_change _ _ old); assumption. }
  assert (Hrange : forall p, 0 <= msum (delay_of (policies A')) (queue A p) <= msum one (queue A p) /\
            0 <= msum (to_target target) (queue A p) <= msum one (queue A p)).
  { intros p. split; split; (apply msum_nonneg || apply msum_le); intros t _;
      try apply delay_le_one; unfold to_target, one; case_decide; lia. }
  assert (Hq' : forall p, 0 <= msum one (queue A p)) by (intros; apply msum_nonneg; unfold one; lia).
  assert (Hlen : forall p, u32 (Z.of_nat (length (tasks_of s p target)))
                           = msum (to_target target) (queue A p)).
  { intros p. rewrite Hgrp. fold (len (filter (fun x => st_dstTarget x = target) (queue A p))).
    rewrite len_to_target. apply wrap_small. pose proof (Hrange p) as [_ ?].
    pose proof (Hq' HIGH). pose proof (Hq' NORMAL). pose proof (Hq' LOW).
    unfold total in Hb1, Hb2. destruct p; lia. }
  unfold total in Hb1, Hb2, Hb3. to_sums. unfold total in Hby, Htot, Hdls.
  pose proof (Hq' HIGH). pose proof (Hq' NORMAL). pose proof (Hq' LOW).
  pose proof (Hch HIGH). pose proof (Hch NORMAL). pose proof (Hch LOW).
  pose proof (Hrange HIGH) as [? ?]. pose proof (Hrange NORMAL) as [? ?].
  pose proof (Hrange LOW) as [? ?].
  assert (Hdp : forall p, count_of (taskDelayCountByPrio_ s) p = msum (delay_of (policies A)) (queue A p))
    by (intros p; rewrite Hdel, len_delayed; reflexivity).
  unfold move_delay. rewrite Hpr. cbn [priorities fold_left]. rewrite !Hlen.
  constructor; cbn [priorityOrder_ extraCapacityInByteByPrio_ policyMap_ curTotalSizeByByte_
      curTotalSizeByTask_ delayTaskCount_ taskCountByPrio_ taskDelayCountByPrio_ scheduledFlag_
      lastScheduleTarget_ lastSchedulePriority_]; auto; to_sums.
  - rewrite Hpol. reflexivity.
  - intros p. to_sums. rewrite !count_of_insert. cbn [queue policies A'].
    rewrite (msum_change _ _ old) by assumption. assert (Hw : forall p, u32 (count_of (taskDelayCountByPrio_ s) p
        + delay_sign new * msum (to_target target) (queue A p)) =
        msum (delay_of (policies A)) (queue A p) + delay_sign new * msum (to_target target) (queue A p)).
    { intros p'. rewrite Hdp. apply wrap_small. rewrite <- Hch. pose proof (Hrange p').
      pose proof (Hq' p'). destruct p'; lia. }
    destruct p; repeat case_decide; try congruence; rewrite ?count_of_insert;
      repeat case_decide; try congruence; rewrite <- Hw; reflexivity.
  - exact Hby.
  - exact Htot.
  - unfold total, A'. cbn [queue policies]. rewrite !(msum_change _ _ old) by assumption. rewrite Hdls.
    pose proof (queue_bounded A HIGH Hq) as [_ ?]. pose proof (queue_bounded A NORMAL Hq) as [_ ?].
    pose proof (queue_bounded A LOW Hq) as [_ ?].
    rewrite (wrap_small 32 (_ + delay_sign new * msum (to_target target) (queue A HIGH))) by lia.
    rewrite (wrap_small 32 (_ + delay_sign new * msum (to_target target) (queue A NORMAL))) by lia.
    rewrite wrap_small; lia.
Qed.

(** * Looking for the next task *)

Lemma find_app {B} (f : B -> bool) l1 l2 :
  find f (l1 ++ l2) = match find f l1 with Some x => Some x | None => find f l2 end.
Proof. induction l1 as [|x l1 IH]; [reflexivity|]. cbn. destruct (f x); [reflexivity|exact IH]. Qed.

Lemma find_tagged (f : SendTask -> bool) p ts :
  find (fun pt : Priority * SendTask => f (snd pt)) (map (pair p) ts) = pair p <$> find f ts.
Proof. induction ts as [|t ts IH]; [reflexivity|]. cbn. destruct (f t); [reflexivity|exact IH]. Qed.

Lemma all_delayed_count ps ts :
  msum (delay_of ps) ts = msum one ts <-> find (fun t => negb (delayed ps t)) ts = None.
Proof.
  induction ts as [|t ts IH]; [split; reflexivity|].
  change (msum (delay_of ps) (t :: ts)) with (delay_of ps t + msum (delay_of ps) ts).
  change (msum one (t :: ts)) with (1 + msum one ts).
  assert (msum (delay_of ps) ts <= msum one ts) by (apply msum_le; intros; apply delay_le_one).
  unfold delay_of at 1. cbn [find]. destruct (delayed ps t); cbn [negb]; rewrite <- ?IH; split;
    try discriminate; lia.
Qed.

Lemma first_no_delay_map s A ts :
  policyMap_ s = policies A ->
  first_no_delay s (map st_dstTarget ts) =
    st_dstTarget <$> find (fun t => negb (delayed (policies A) t)) ts.
Proof.
  intros E. unfold first_no_delay. induction ts as [|t ts IH]; [reflexivity|]. cbn [map find].
  pose proof (policy_of_delay s A t E) as Hp.
  destruct (policy_of s (st_dstTarget t)), (delayed (policies A) t); cbn; auto;
    exfalso; intuition congruence.
Qed.

(** The task found is the first one of its target. *)
Lemma find_first_of_target ps ts t :
  find (fun t => negb (delayed ps t)) ts = Some t ->
  exists rest, filter (fun x => st_dstTarget x = st_dstTarget t) ts = t :: rest.
Proof.
  induction ts as [|x ts IH]; [discriminate|]. cbn [find]. rewrite filter_cons.
  destruct (delayed ps x) eqn:Hx; cbn [negb].
  - intros Hf. destruct (IH Hf) as [rest Hr]. rewrite decide_False; [eauto|].
    intros Heq. apply find_some in Hf as [_ Ht]. unfold delayed in *. rewrite Heq in Hx.
    rewrite Hx in Ht. discriminate.
  - intros [= ->]. rewrite decide_True by reflexivity. eauto.
Qed.

Lemma ScheduleDelayTask_eq s A prios :
  implements s A ->
  ScheduleDelayTask s prios =
    match head (tagged A prios) with
    | Some (p, t) => Found t (mkSendTaskInfo true p)
    | None => NoTask (- E_INTERNAL_ERROR)
    end.
Proof.
  intros Him. induction prios as [|p prios IH]; [reflexivity|]. cbn [ScheduleDelayTask].
  unfold tagged. cbn [flat_map]. rewrite (im_count _ _ Him), (im_order _ _ Him).
  destruct (queue A p) as [|t ts] eqn:Eq; [exact IH|].
  change (len (t :: ts) =? 0) with false. cbn [map app head].
  rewrite (im_group _ _ Him), Eq, filter_cons, decide_True by reflexivity. reflexivity.
Qed.

Lemma ScheduleNoDelayTask_eq s A prios :
  implements s A ->
  ScheduleNoDelayTask s prios =
    match find (fun pt => negb (delayed (policies A) (snd pt))) (tagged A prios) with
    | Some (p, t) => Found t (mkSendTaskInfo false p)
    | None => NoTask (- E_INTERNAL_ERROR)
    end.
Proof.
  intros Him. induction prios as [|p prios IH]; [reflexivity|]. cbn [ScheduleNoDelayTask].
  unfold tagged. cbn [flat_map]. fold (tagged A prios).
  rewrite find_app, (find_tagged (fun t => negb (delayed (policies A) t))).
  pose proof (all_delayed_count (policies A) (queue A p)) as Hall.
  rewrite (im_count _ _ Him), (im_delay _ _ Him), (im_order _ _ Him), len_delayed, len_msum.
  rewrite (first_no_delay_map s A) by apply Him.
  destruct (find _ (queue A p)) as [t|] eqn:Ef; cbn [fmap option_fmap option_map].
  - assert (Hne : msum one (queue A p) =? msum (delay_of (policies A)) (queue A p) = false).
    { apply Z.eqb_neq. intros E. symmetry in E. apply Hall in E. congruence. }
    assert (Hz : msum one (queue A p) =? 0 = false).
    { destruct (queue A p); [discriminate|]. rewrite <- len_msum. reflexivity. }
    rewrite Hz, Hne. cbn [orb]. destruct (find_first_of_target _ _ _ Ef) as [rest Hr].
    rewrite (im_group _ _ Him), Hr. reflexivity.
  - assert (Heq : msum one (queue A p) =? msum (delay_of (policies A)) (queue A p) = true)
      by (apply Z.eqb_eq; symmetry; apply Hall; reflexivity).
    rewrite Heq, orb_true_r. exact IH.
Qed.

Lemma find_none_all {B} (f : B -> bool) l : find f l = None <-> forallb (fun x => negb (f x)) l = true.
Proof.
  induction l as [|x l IH]; [split; reflexivity|]. cbn. destruct (f x); cbn; [split; discriminate|].
  exact IH.
Qed.

Lemma all_delayed_total A :
  total (delay_of (policies A)) A = total one A <->
  find (fun pt => negb (delayed (policies A) (snd pt))) (waiting A) = None.
Proof.
  rewrite <- !foldr_waiting.
  assert (Hm : forall f l, foldr (fun (pt : Priority * SendTask) n => f (snd pt) + n) 0 l
                           = msum f (map snd l)).
  { intros f l. unfold msum. induction l as [|pt l IH]; cbn; congruence. }
  rewrite !Hm, all_delayed_count. induction (waiting A) as [|pt l IH]; [split; reflexivity|].
  cbn [map find]. destruct (delayed (policies A) (snd pt)); cbn; [exact IH|split; discriminate].
Qed.

Lemma elem_of_waiting A p t : (p, t) ∈ waiting A <-> t ∈ queue A p.
Proof.
  unfold waiting, tagged. rewrite list_elem_of_In, in_flat_map. split.
  - intros (p' & _ & Hin). apply in_map_iff in Hin as (t' & [= <- <-] & Hin).
    by apply list_elem_of_In.
  - intros Hin. exists p. split; [destruct p; cbn; auto|]. apply in_map_iff. exists t.
    split; [reflexivity|by apply list_elem_of_In].
Qed.

Lemma next_task_waiting A p t : next_task A = Some (p, t) -> t ∈ queue A p.
Proof.
  intros E. apply elem_of_waiting, list_elem_of_In. unfold next_task in E.
  destruct (find _ (waiting A)) as [[p' t']|] eqn:Ef.
  - injection E as -> ->. apply find_some in Ef. tauto.
  - destruct (waiting A); [discriminate|]. injection E as ->. left. reflexivity.
Qed.

(** * Scheduling a task out *)

Lemma exec_schedule s A :
  implements s A -> queues_ok A ->
  exists s', exec s Schedule = Some (fst (spec A Schedule), s') /\
    implements s' (snd (spec A Schedule)) /\ queues_ok (snd (spec A Schedule)).
Proof.
  intros Him Hq. pose proof Him as [Hpr Hex Hpol Hord Hgrp Hcnt Hdel Hby Htot Hdls Hl Hla].
  assert (Hout : exec s Schedule =
    Some (fst (spec A Schedule),
          match next_task A with Some (p, t) => set_last s (st_dstTarget t) p | None => s end)).
  { cbn [exec spec]. unfold ScheduleOutSendTask. rewrite Htot, Hdls, Hpr.
    fold priorities. rewrite (ScheduleDelayTask_eq s A), (ScheduleNoDelayTask_eq s A) by exact Him.
    fold (waiting A). pose proof (all_delayed_total A) as Hall. to_sums.
    unfold next_task.
    destruct (find _ (waiting A)) as [[p t]|] eqn:Ef.
    - assert (Hz : total one A =? 0 = false).
      { rewrite <- len_total. destruct (waiting A); [discriminate|reflexivity]. }
      rewrite Hz. destruct (Z.eqb_spec (total (delay_of (policies A)) A) (total one A)) as [E|_].
      { apply Hall in E. discriminate. }
      cbn. apply find_some in Ef as [_ Ht]. cbn in Ht. destruct (delayed (policies A) t); [discriminate|].
      reflexivity.
    - rewrite <- len_total. destruct (waiting A) as [|[p t] w] eqn:Ew; [reflexivity|].
      change (len ((p, t) :: w) =? 0) with false. rewrite <- Ew, len_total.
      destruct (Z.eqb_spec (total (delay_of (policies A)) A) (total one A)) as [_|E].
      2: { exfalso. apply E, Hall. reflexivity. }
      rewrite Ew. cbn. cbn in Ef. destruct (delayed (policies A) t); [reflexivity|discriminate]. }
  rewrite Hout. eexists. split; [reflexivity|]. cbn [spec].
  destruct (next_task A) as [[p t]|] eqn:En; cbn [fst snd]; [|split; assumption].
  split.
  - constructor; auto; cbn.
    + split; eauto.
    + intros t' p' [= <- <-]. auto.
  - destruct Hq as [Hq1 Hq2 Hq3]. constructor; auto. cbn. intros t' p' [= <- <-].
    exists t. split; [exact (next_task_waiting _ _ _ En)|reflexivity].
Qed.

(** * Finishing the last scheduled task *)

Lemma empty_waiting A : bool_decide (waiting A = []) = (total one A =? 0).
Proof.
  rewrite <- len_total. destruct (waiting A) as [|pt w]; [reflexivity|].
  rewrite bool_decide_false by discriminate. reflexivity.
Qed.

Lemma all_delayed_eqb A :
  all_delayed A = (total (delay_of (policies A)) A =? total one A).
Proof.
  pose proof (all_delayed_total A) as Hall. rewrite find_none_all in Hall.
  assert (E : forallb (fun pt => negb (negb (delayed (policies A) (snd pt)))) (waiting A)
              = all_delayed A).
  { clear Hall. unfold all_delayed. induction (waiting A) as [|pt w IH]; [reflexivity|]. cbn.
    rewrite IH, negb_involutive. reflexivity. }
  rewrite E in Hall. destruct (Z.eqb_spec (total (delay_of (policies A)) A) (total one A)) as [H|H].
  - apply Hall, H.
  - destruct (all_delayed A); [|reflexivity]. exfalso. apply H, Hall. reflexivity.
Qed.

Lemma exec_finish s A :
  implements s A -> queues_ok A ->
  exists s', exec s FinishLast = Some (fst (spec A FinishLast), s') /\
    implements s' (snd (spec A FinishLast)) /\ queues_ok (snd (spec A FinishLast)).
Proof.
  intros Him Hq. pose proof Him as [Hpr Hex Hpol Hord Hgrp Hcnt Hdel Hby Htot Hdls Hl Hla].
  cbn [exec spec]. unfold FinalizeLastScheduleTask. rewrite Htot.
  destruct (waiting A) as [|pt w] eqn:Ew.
  { eexists. split; [reflexivity|]. split; assumption. }
  change (len (pt :: w) =? 0) with false. rewrite <- Ew in *. clear pt w Ew. cbv iota.
  destruct (last A) as [[target p]|] eqn:El.
  2: { destruct (scheduledFlag_ s).
       - destruct Hl as [Hl _]. destruct (Hl eq_refl) as [? [=]].
       - eexists. split; [reflexivity|]. split; assumption. }
  assert (Hflag : scheduledFlag_ s = true) by (apply Hl; eauto). rewrite Hflag. cbn [negb].
  destruct (Hla _ _ eq_refl) as [-> ->].
  destruct (qo_last _ Hq _ _ El) as (x & Hx & Hxt).
  rewrite Hgrp. destruct (filter (fun x => st_dstTarget x = target) (queue A p)) as [|t rest] eqn:Ef.
  { assert (Hin : x ∈ filter (fun x => st_dstTarget x = target) (queue A p))
      by (apply list_elem_of_filter; auto). rewrite Ef in Hin. by apply not_elem_of_nil in Hin. }
  assert (Hrm : forall f, msum f (queue A p) = f t + msum f (remove_first target (queue A p)))
    by (intros f; apply (msum_remove_first f target _ t rest Ef)).
  destruct (msum_remove_first one target _ t rest Ef) as (_ & Htt & Htin).
  set (B := mkQueues _ (policies A) None).
  assert (HB : forall f, total f B = total f A - f t).
  { intros f. change (total f B) with (total f (set_queue A p (remove_first target (queue A p)))).
    rewrite total_set_queue, (Hrm f). lia. }
  pose proof (totals_bounded A Hq) as (Hb1 & Hb2 & Hb3). rewrite cap_const in Hb2.
  assert (HqB : queues_ok B).
  { constructor; cbn [policies last B].
    - intros p' t' Hin. apply (qo_tasks _ Hq p'). cbn [queue B set_queue] in Hin.
      destruct (decide (p' = p)) as [->|]; [|exact Hin]. exact (elem_of_remove_first _ _ _ Hin).
    - rewrite bytes_total, HB, cap_const. destruct (qo_tasks _ Hq _ _ Htin) as [Hok _].
      unfold task_ok in Hok. change (GetSize (st_buffer t)) with (size_of t) in Hok. lia.
    - discriminate. }
  pose proof (totals_bounded B HqB) as (HB1 & HB2 & HB3). rewrite cap_const in HB2.
  replace (if decide (policy_of s target = DELAY) then 1 else 0) with (delay_of (policies A) t)
    by (rewrite <- (delay_flag s A t Hpol), Htt; reflexivity). to_sums.
  change (GetSize (st_buffer t)) with (size_of t).
  change (total one A - 1) with (total one A - one t).
  rewrite Hby, Hdls, <- (HB size_of), <- (HB (delay_of (policies A))), <- (HB one).
  cbn [policies B] in HB3. rewrite !(wrap_small 32) by lia.
  cbn [mbind option_bind]. eexists. split; [cbn [fst]; do 3 f_equal|cbn [snd]; split; [|exact HqB]].
  - destruct (_ && _); [reflexivity|]. rewrite (empty_waiting B).
    destruct (total one B =? 0); [reflexivity|]. rewrite (all_delayed_eqb B).
    cbn [policies B]. rewrite Z.eqb_sym. reflexivity.
  - pose proof (queue_bounded A p Hq) as [Hq1 Hq2].
    pose proof (queue_bounded B p HqB) as [HqB1 HqB2]. cbn [policies B] in HqB2.
    assert (HqB' : forall p', queue B p' = if decide (p' = p) then remove_first target (queue A p)
                                           else queue A p') by reflexivity.
    rewrite HqB', decide_True in HqB1, HqB2 by reflexivity.
    constructor; cbn [priorityOrder_ extraCapacityInByteByPrio_ policyMap_ curTotalSizeByByte_
      curTotalSizeByTask_ delayTaskCount_ taskCountByPrio_ taskDelayCountByPrio_ scheduledFlag_
      lastScheduleTarget_ lastSchedulePriority_ last policies B]; auto; to_sums.
    + unfold policy_of. rewrite Hpol. apply insert_id.
      destruct (qo_tasks _ Hq _ _ Htin) as [_ [pol Hpo]]. rewrite Htt in Hpo. rewrite Hpo. reflexivity.
    + intros p'. unfold order_of at 1. cbn [taskOrderByPrio_]. rewrite lookup_insert.
      rewrite HqB'. repeat case_decide; try congruence; [|apply Hord]. subst p'.
      change (default [] (Some ?l)) with l. rewrite Hord. apply erase_first_map.
    + intros p' t'. erewrite (tasks_of_set s) by reflexivity. rewrite HqB'.
      destruct (decide (p' = p)) as [->|]; [|apply Hgrp]. rewrite filter_remove_first.
      repeat case_decide; subst; try congruence; [|apply Hgrp]. rewrite Ef. reflexivity.
    + intros p'. rewrite count_of_insert. rewrite HqB'.
      destruct (decide (p' = p)) as [->|]; to_sums; [|rewrite Hcnt; to_sums; reflexivity].
      rewrite Hcnt. to_sums.
      pose proof (Hrm one) as Hr. change (one t) with 1 in Hr. rewrite wrap_small; lia.
    + intros p'. rewrite count_of_insert. rewrite HqB'.
      destruct (decide (p' = p)) as [->|]; to_sums; [|rewrite Hdel; to_sums; reflexivity].
      rewrite Hdel. to_sums.
      pose proof (Hrm (delay_of (policies A))). rewrite wrap_small; lia.
    + reflexivity.
    + reflexivity.
    + reflexivity.
    + split; [discriminate|]. intros [? [=]].
    + discriminate.
Qed.

(** * Runs *)

(** Setting the policy of a known target, to a new value or the one it has. *)
Lemma exec_policy s A target new :
  implements s A -> queues_ok A ->
  exists s', (let '(e, s) := match policies A !! target with
                             | None => (- E_NOT_FOUND, s)
                             | Some old => if decide (old = new) then (E_OK, s)
                                           else (E_OK, move_delay s target new (delay_sign new))
                             end in Some (Code e, s)) =
             Some (fst (set_policy A target new), s') /\
    implements s' (snd (set_policy A target new)) /\ queues_ok (snd (set_policy A target new)).
Proof.
  intros Him Hq. unfold set_policy. destruct (policies A !! target) as [old|] eqn:E;
    [|eexists; split; [reflexivity|]; split; assumption].
  assert (Hq' : queues_ok (mkQueues (queue A) (<[target := new]> (policies A)) (last A))).
  { destruct Hq as [H1 H2 H3]. constructor; auto. intros p t Hin. destruct (H1 _ _ Hin) as [Hok Hs].
    split; [exact Hok|]. cbn. destruct (decide (target = st_dstTarget t)) as [<-|].
    - rewrite lookup_insert_eq. eauto.
    - rewrite lookup_insert_ne by assumption. exact Hs. }
  destruct (decide (old = new)) as [->|Hne]; (eexists; split; [reflexivity|]); cbn [snd].
  - split; [|exact Hq']. rewrite insert_id by exact E. destruct A. exact Him.
  - split; [|exact Hq']. apply (exec_move s A target old new); assumption.
Qed.

Definition op_ok (op : Op) : Prop := match op with Add task _ => task_ok task | _ => True end.

Lemma exec_spec s A op :
  implements s A -> queues_ok A -> op_ok op ->
  exists s', exec s op = Some (fst (spec A op), s') /\
    implements s' (snd (spec A op)) /\ queues_ok (snd (spec A op)).
Proof.
  intros Him Hq Hop. destruct op as [task p| | |t|t].
  - apply exec_add; assumption.
  - apply exec_schedule; assumption.
  - apply exec_finish; assumption.
  - cbn [exec spec]. unfold DelayTaskByTarget. rewrite (im_policy _ _ Him).
    destruct (exec_policy s A t DELAY Him Hq) as (s' & E & ?). exists s'. split; [|assumption].
    rewrite <- E. destruct (policies A !! t) as [[]|]; reflexivity.
  - cbn [exec spec]. unfold NoDelayTaskByTarget. rewrite (im_policy _ _ Him).
    destruct (exec_policy s A t NO_DELAY Him Hq) as (s' & E & ?). exists s'. split; [|assumption].
    rewrite <- E. destruct (policies A !! t) as [[]|]; reflexivity.
Qed.

Fixpoint run (s : SendTaskScheduler) (ops : list Op) : option (list Out * SendTaskScheduler) :=
  match ops with
  | [] => Some ([], s)
  | op :: ops => '(out, s) ← exec s op; '(outs, s) ← run s ops; Some (out :: outs, s)
  end.

Fixpoint spec_run (A : Queues) (ops : list Op) : list Out * Queues :=
  match ops with
  | [] => ([], A)
  | op :: ops =>
    let '(out, A) := spec A op in
    let '(outs, A) := spec_run A ops in (out :: outs, A)
  end.

Definition emptyQueues : Queues := mkQueues (fun _ => []) ∅ None.

Lemma initial_implements : implements (Initialize emptyScheduler) emptyQueues.
Proof.
  constructor; try reflexivity; try (intros []; reflexivity); try discriminate.
  cbn. split; [discriminate|]. intros [? [=]].
Qed.

Lemma initial_queues_ok : queues_ok emptyQueues.
Proof.
  constructor; [|vm_compute; reflexivity|discriminate].
  intros p t Hin. by apply not_elem_of_nil in Hin.
Qed.

Lemma run_spec s A ops :
  implements s A -> queues_ok A -> Forall op_ok ops ->
  exists s', run s ops = Some (fst (spec_run A ops), s') /\
    implements s' (snd (spec_run A ops)) /\ queues_ok (snd (spec_run A ops)).
Proof.
  intros Him Hq Hops. revert s A Him Hq. induction Hops as [|op ops Hop _ IH]; intros s A Him Hq.
  - exists s. auto.
  - destruct (exec_spec s A op Him Hq Hop) as (s1 & E1 & Him1 & Hq1). cbn [run spec_run].
    rewrite E1. cbn [mbind option_bind]. destruct (spec A op) as [out A1]. cbn [fst snd] in *.
    destruct (IH s1 A1 Him1 Hq1) as (s2 & E2 & Him2 & Hq2). rewrite E2.
    destruct (spec_run A1 ops) as [outs A2]. cbn in *. eauto.
Qed.

(** C5: over any sequence of operations on a freshly initialized scheduler, with tasks
    whose buffers are not empty, the scheduler gives exactly the answers of the abstract
    scheduler (one first-in-first-out queue per priority and a policy per target), never
    takes the front of an empty list, and never holds as much as the capacity for the
    highest priority plus one task. *)
Theorem scheduler_refines ops :
  Forall op_ok ops ->
  exists s, run (Initialize emptyScheduler) ops = Some (fst (spec_run emptyQueues ops), s) /\
    implements s (snd (spec_run emptyQueues ops)) /\
    0 <= curTotalSizeByByte_ s < capacity HIGH + MAX_TOTAL_LEN /\
    0 <= delayTaskCount_ s <= curTotalSizeByTask_ s.
Proof.
  intros Hops.
  destruct (run_spec _ _ ops initial_implements initial_queues_ok Hops) as (s & E & Him & Hq).
  exists s. split; [exact E|]. split; [exact Him|].
  pose proof (totals_bounded _ Hq). destruct Him as [_ _ _ _ _ _ _ Hby Htot Hdls _ _].
  to_sums. rewrite Hby, Htot, Hdls. lia.
Qed.

(** * Draining *)

Lemma next_task_none A : next_task A = None <-> waiting A = [].
Proof.
  unfold next_task. destruct (waiting A) as [|pt w]; [split; reflexivity|].
  destruct (find _ _); split; discriminate.
Qed.

(** One round of [Finalize] takes one task out. *)
Lemma drain_round s A :
  implements s A -> queues_ok A -> waiting A <> [] ->
  exists task info s1 e s2 A2,
    ScheduleOutSendTask s = (Found task info, s1) /\ FinalizeLastScheduleTask s1 = Some (e, s2) /\
    implements s2 A2 /\ queues_ok A2 /\ len (waiting A2) = len (waiting A) - 1.
Proof.
  intros Him Hq Hne. destruct (next_task A) as [[p t]|] eqn:En;
    [|apply next_task_none in En; contradiction].
  destruct (exec_schedule s A Him Hq) as (s1 & E1 & Him1 & Hq1). cbn [exec spec] in E1.
  cbn [spec] in Him1, Hq1. rewrite En in E1, Him1, Hq1. cbn [fst snd] in E1, Him1, Hq1.
  set (A1 := mkQueues (queue A) (policies A) (Some (st_dstTarget t, p))) in *.
  destruct (ScheduleOutSendTask s) as [[task info|e|] s1'] eqn:Es; try discriminate.
  injection E1 as -> -> ->.
  destruct (exec_finish s1 A1 Him1 Hq1) as (s2 & E2 & Him2 & Hq2). cbn [exec spec] in E2.
  destruct (FinalizeLastScheduleTask s1) as [[e s2']|] eqn:Ef; [|discriminate].
  injection E2 as _ ->. exists t. eexists _, s1, e, s2, _. split; [reflexivity|].
  split; [exact Ef|]. split; [exact Him2|]. split; [exact Hq2|].
  cbn [spec]. change (waiting A1) with (waiting A). destruct (waiting A) as [|pt w] eqn:Ew; [done|].
  rewrite <- Ew. clear Ew pt w Hne. cbn [last A1 snd]. rewrite !len_total.
  change (total one (mkQueues ?q _ _)) with (total one (mkQueues q (policies A) (last A))).
  change (total one (mkQueues (queue ?B) _ _)) with (total one B). rewrite total_set_queue.
  pose proof (next_task_waiting _ _ _ En) as Hin. cbn [queue A1].
  destruct (filter (fun x => st_dstTarget x = st_dstTarget t) (queue A p)) as [|x rest] eqn:Efl.
  { assert (Hin' : t ∈ filter (fun x => st_dstTarget x = st_dstTarget t) (queue A p))
      by (apply list_elem_of_filter; auto). rewrite Efl in Hin'. by apply not_elem_of_nil in Hin'. }
  destruct (msum_remove_first one _ _ _ _ Efl) as (Hm & _). change (one x) with 1 in Hm.
  change (total one A1) with (total one A). lia.
Qed.

Lemma finalize_loop_drains fuel s A :
  implements s A -> queues_ok A -> len (waiting A) < Z.of_nat fuel ->
  exists s' A', finalize_loop fuel s = (Some true, s') /\ implements s' A' /\ waiting A' = [].
Proof.
  revert s A. induction fuel as [|fuel IH]; intros s A Him Hq Hlt; [unfold len in Hlt; lia|].
  cbn [finalize_loop]. unfold GetTotalTaskCount. rewrite (im_total _ _ Him).
  destruct (waiting A) as [|pt w] eqn:Ew.
  { exists s, A. auto. }
  change (len (pt :: w) =? 0) with false. cbv iota. rewrite <- Ew in *.
  destruct (drain_round s A Him Hq) as (task & info & s1 & e & s2 & A2 & E1 & E2 & Him2 & Hq2 & Hl);
    [congruence|].
  rewrite E1, E2. apply (IH s2 A2); auto. lia.
Qed.

(** C14: shutting the scheduler down takes out every task, one per round of its loop;
    the loop ends with the scheduler empty and never at its internal-error exit. *)
Theorem finalize_drains s A :
  implements s A -> queues_ok A ->
  exists s', Finalize s = (Some true, s') /\ GetTotalTaskCount s' = 0 /\
    curTotalSizeByByte_ s' = 0 /\ forall p t, tasks_of s' p t = [].
Proof.
  intros Him Hq. pose proof (totals_bounded A Hq) as (Hb & _).
  destruct (finalize_loop_drains (S (Z.to_nat (GetTotalTaskCount s))) s A Him Hq)
    as (s' & A' & E & Him' & Hw).
  { unfold GetTotalTaskCount. rewrite (im_total _ _ Him). lia. }
  exists s'. split; [exact E|]. unfold GetTotalTaskCount.
  rewrite (im_total _ _ Him'), (im_bytes _ _ Him'), Hw. split; [reflexivity|]. split; [reflexivity|].
  intros p t. rewrite (im_group _ _ Him').
  assert (Hqe : queue A' p = []).
  { destruct (queue A' p) as [|x q] eqn:Eq; [reflexivity|]. exfalso.
    assert (Hin : (p, x) ∈ waiting A') by (apply elem_of_waiting; rewrite Eq; apply elem_of_cons; auto).
    rewrite Hw in Hin. by apply not_elem_of_nil in Hin. }
  rewrite Hqe. reflexivity.
Qed.

(** * Which task comes next *)

Definition rank (p : Priority) : Z := match p with LOW => 0 | NORMAL => 1 | HIGH => 2 end.

Lemma find_tagged_split (f : SendTask -> bool) A prios p t :
  find (fun pt => f (snd pt)) (tagged A prios) = Some (p, t) ->
  exists ps1 ps2, prios = ps1 ++ p :: ps2 /\ find f (queue A p) = Some t /\
    forall p', p' ∈ ps1 -> find f (queue A p') = None.
Proof.
  induction prios as [|p0 prios IH]; [discriminate|]. unfold tagged. cbn [flat_map].
  fold (tagged A prios). rewrite find_app, find_tagged.
  destruct (find f (queue A p0)) as [t0|] eqn:E; cbn [fmap option_fmap option_map].
  - intros [= <- <-]. exists [], prios. split_and!; auto. intros p' Hin.
    by apply not_elem_of_nil in Hin.
  - intros Hf. destruct (IH Hf) as (ps1 & ps2 & -> & Ht & Hn). exists (p0 :: ps1), ps2.
    split_and!; auto. intros p' Hin. apply elem_of_cons in Hin as [->|Hin]; auto.
Qed.

Lemma higher_before ps1 ps2 p p' :
  priorities = ps1 ++ p :: ps2 -> rank p < rank p' -> p' ∈ ps1.
Proof.
  unfold priorities. intros E Hr. destruct ps1 as [|a [|b [|c [|d ps1]]]]; simplify_eq/=; destruct p'; cbn in Hr;
    try lia; rewrite ?elem_of_cons; auto.
Qed.

Lemma find_prefix {B} (f : B -> bool) l x :
  find f l = Some x -> exists l1 l2, l = l1 ++ x :: l2 /\ f x = true /\ forall y, y ∈ l1 -> f y = false.
Proof.
  induction l as [|y l IH]; [discriminate|]. cbn. destruct (f y) eqn:E.
  - intros [= ->]. exists [], l. split_and!; auto. intros z Hz. by apply not_elem_of_nil in Hz.
  - intros Hf. destruct (IH Hf) as (l1 & l2 & -> & Hx & Hn). exists (y :: l1), l2.
    split_and!; auto. intros z Hz. apply elem_of_cons in Hz as [->|]; auto.
Qed.

(** C13: the task scheduled out is waiting at the priority reported; if some waiting task
    is not delayed, it is the oldest task of its priority that is not delayed, and every
    task of a higher priority is delayed; if all are delayed, it is the oldest task of its
    priority and nothing waits at a higher priority. *)
Theorem schedule_order s A task info s' :
  implements s A -> queues_ok A -> ScheduleOutSendTask s = (Found task info, s') ->
  exists older newer, queue A (taskPrio info) = older ++ task :: newer /\
    (delayFlag info = false -> delayed (policies A) task = false /\
       (forall t, t ∈ older -> delayed (policies A) t = true) /\
       (forall p t, rank (taskPrio info) < rank p -> t ∈ queue A p -> delayed (policies A) t = true)) /\
    (delayFlag info = true -> older = [] /\
       (forall p t, t ∈ queue A p -> delayed (policies A) t = true) /\
       (forall p, rank (taskPrio info) < rank p -> queue A p = [])).
Proof.
  intros Him Hq E. destruct (exec_schedule s A Him Hq) as (s1 & E1 & _). cbn [exec spec] in E1.
  rewrite E in E1. unfold next_task in E1.
  destruct (find _ (waiting A)) as [[p t]|] eqn:Ef.
  - cbn in E1. injection E1 as -> -> _. cbn [taskPrio delayFlag].
    assert (Hd : delayed (policies A) t = false).
    { apply find_some in Ef as [_ Ht]. cbn in Ht. by destruct (delayed (policies A) t). }
    destruct (find_tagged_split (fun t => negb (delayed (policies A) t)) _ _ _ _ Ef)
      as (ps1 & ps2 & Hps & Hft & Hhigh).
    destruct (find_prefix _ _ _ Hft) as (older & newer & Hqp & _ & Hold).
    exists older, newer. split; [exact Hqp|]. rewrite Hd. split; [|discriminate]. intros _.
    split_and!; [reflexivity|..].
    + intros x Hx. specialize (Hold x Hx). by destruct (delayed (policies A) x).
    + intros p' x Hr Hx. pose proof (Hhigh p' (higher_before _ _ _ _ Hps Hr)) as Hn.
      apply list_elem_of_In, (find_none _ _ Hn) in Hx. by destruct (delayed (policies A) x).
  - destruct (head (waiting A)) as [[p t]|] eqn:Eh; [|discriminate].
    cbn in E1. injection E1 as -> -> _. cbn [taskPrio delayFlag].
    assert (Hall : forall p t, t ∈ queue A p -> delayed (policies A) t = true).
    { intros p' x Hx. apply elem_of_waiting, list_elem_of_In in Hx.
      apply (find_none _ _ Ef) in Hx. cbn in Hx. by destruct (delayed (policies A) x). }
    assert (Eh' : find (fun pt : Priority * SendTask => (fun _ => true) (snd pt)) (tagged A priorities)
                  = Some (p, t)).
    { fold (waiting A). destruct (waiting A); [discriminate|exact Eh]. }
    destruct (find_tagged_split (fun _ => true) _ _ _ _ Eh') as (ps1 & ps2 & Hps & Hft & Hhigh).
    destruct (queue A p) as [|x q] eqn:Eq; [discriminate|]. injection Hft as ->.
    exists [], q. split; [reflexivity|].
    assert (Ht : t ∈ queue A p) by (rewrite Eq; apply elem_of_cons; auto).
    rewrite (Hall p t Ht). split; [discriminate|]. intros _.
    split_and!; [reflexivity|exact Hall|].
    intros p' Hr. pose proof (Hhigh p' (higher_before _ _ _ _ Hps Hr)) as Hn.
    destruct (queue A p'); [reflexivity|discriminate].
Qed.

(** * A concrete run *)

Definition sample_task (n : Z) (target : cstring) : SendTask :=
  mkSendTask (mkSerialBuffer (Some []) (Some 0) None n 0 n 0 0 false) target None.

Definition sample_ops : list Op :=
  [Add (sample_task 40 [x61]) LOW; Add (sample_task 48 [x62]) HIGH; Add (sample_task 56 [x61]) HIGH;
   Schedule; Delay [x62]; Schedule; FinishLast].

Lemma sample_ops_ok : Forall op_ok sample_ops.
Proof. repeat constructor; vm_compute; congruence. Qed.

Definition sample_scheduler : SendTaskScheduler :=
  match run (Initialize emptyScheduler) sample_ops with Some (_, s) => s | None => emptyScheduler end.
Definition sample_queues : Queues := snd (spec_run emptyQueues sample_ops).

Lemma sample_implements : implements sample_scheduler sample_queues /\ queues_ok sample_queues.
Proof.
  destruct (run_spec _ _ sample_ops initial_implements initial_queues_ok sample_ops_ok)
    as (s & E & Him & Hq).
  unfold sample_scheduler, sample_queues. rewrite E. auto.
Qed.

Lemma scheduler_refines_witness :
  exists s, run (Initialize emptyScheduler) sample_ops = Some (fst (spec_run emptyQueues sample_ops), s) /\
    implements s (snd (spec_run emptyQueues sample_ops)) /\
    0 <= curTotalSizeByByte_ s < capacity HIGH + MAX_TOTAL_LEN /\
    0 <= delayTaskCount_ s <= curTotalSizeByTask_ s.
Proof. apply (scheduler_refines sample_ops). exact sample_ops_ok. Defined.

Lemma finalize_drains_witness :
  exists s', Finalize sample_scheduler = (Some true, s') /\ GetTotalTaskCount s' = 0 /\
    curTotalSizeByByte_ s' = 0 /\ forall p t, tasks_of s' p t = [].
Proof.
  apply (finalize_drains sample_scheduler sample_queues).
  - apply sample_implements.
  - apply sample_implements.
Defined.

(** The high-priority task is for a delayed target, so the low-priority one goes first. *)
Lemma schedule_order_witness :
  exists older newer, queue sample_queues LOW = older ++ sample_task 40 [x61] :: newer /\
    (false = false -> delayed (policies sample_queues) (sample_task 40 [x61]) = false /\
       (forall t, t ∈ older -> delayed (policies sample_queues) t = true) /\
       (forall p t, rank LOW < rank p -> t ∈ queue sample_queues p ->
          delayed (policies sample_queues) t = true)) /\
    (false = true -> older = [] /\
       (forall p t, t ∈ queue sample_queues p -> delayed (policies sample_queues) t = true) /\
       (forall p, rank LOW < rank p -> queue sample_queues p = [])).
Proof.
  apply (schedule_order sample_scheduler sample_queues (sample_task 40 [x61])
           (mkSendTaskInfo false LOW) (snd (ScheduleOutSendTask sample_scheduler))).
  - apply sample_implements.
  - apply sample_implements.
  - vm_compute. reflexivity.
Defined.
