(* ===== verification/FrameRetainer.v ===== *)
(** Model of [FrameRetainer] (communicator/src/frame_retainer.cpp): frames received for
    a communicator that is not there yet are kept for a while, in order. *)

From S2P Require Import Prelude Memory SerialBuffer CommTypes.
From Stdlib Require Import ZArith Lia.
From Stdlib Require Import Strings.Byte.
From stdpp Require Import base numbers list gmap.

Open Scope Z_scope.

Definition MAX_CAPACITY : Z := 67108864.
Definition MAX_RETAIN_TIME : Z := 10.
Definition MAX_RETAIN_FRAME_SIZE : Z := 33554432.
Definition MAX_RETAIN_FRAME_PER_LABEL_PER_TARGET : Z := 5.

Record FrameInfo := mkFrameInfo {
  fi_buffer : option SerialBuffer;
  fi_srcTarget : cstring;
  fi_commLabel : LabelType;
  fi_frameId : Z
}.

Record RetainWork := mkRetainWork {
  rw_buffer : SerialBuffer;
  rw_frameId : Z;
  rw_remainTime : Z
}.

Abbreviation RetainWorkPool := (gmap LabelType (gmap cstring (gmap Z RetainWork))).

Record FrameRetainer := mkFrameRetainer {
  isTimerWork_ : bool;
  totalSizeByByte_ : Z;
  totalRetainFrames_ : Z;
  incRetainOrder_ : Z;
  retainWorkPool_ : RetainWorkPool
}.

Definition emptyFrameRetainer : FrameRetainer := mkFrameRetainer false 0 0 0 ∅.

(** [SetTimer] of the runtime context returns [errCode]. *)
Definition Initialize (r : FrameRetainer) (errCode : Z) : FrameRetainer :=
  if negb (errCode =? E_OK) then r
  else mkFrameRetainer true (totalSizeByByte_ r) (totalRetainFrames_ r) (incRetainOrder_ r)
         (retainWorkPool_ r).

Definition Finalize (r : FrameRetainer) : FrameRetainer :=
  mkFrameRetainer false 0 0 (incRetainOrder_ r) ∅.

(** [retainWorkPool_[label][target]]. *)
Definition works_at (pool : RetainWorkPool) (label : LabelType) (target : cstring)
    : gmap Z RetainWork :=
  default ∅ (default ∅ (pool !! label) !! target).

Definition set_works_at (pool : RetainWorkPool) (label : LabelType) (target : cstring)
    (works : gmap Z RetainWork) : RetainWorkPool :=
  <[label := <[target := works]> (default ∅ (pool !! label))]> pool.

(** All frames of the pool, each with its order, label and target. *)
Definition frames_in (targets : gmap cstring (gmap Z RetainWork))
    : list (Z * (cstring * RetainWork)) :=
  flat_map (fun tw : cstring * gmap Z RetainWork =>
    map (fun ow : Z * RetainWork => (fst ow, (fst tw, snd ow))) (map_to_list (snd tw)))
    (map_to_list targets).

Definition all_frames (pool : RetainWorkPool) : list (Z * (LabelType * cstring * RetainWork)) :=
  flat_map (fun lt : LabelType * gmap cstring (gmap Z RetainWork) =>
    map (fun x : Z * (cstring * RetainWork) => (fst x, (fst lt, fst (snd x), snd (snd x))))
      (frames_in (snd lt)))
    (map_to_list pool).

(** The statistics after the given frames left the pool. *)
Definition forget (r : FrameRetainer) (works : list RetainWork) (pool : RetainWorkPool)
    : FrameRetainer :=
  mkFrameRetainer (isTimerWork_ r)
    (foldl (fun n w => u32 (n - GetSize (rw_buffer w))) (totalSizeByByte_ r) works)
    (foldl (fun n _ => u32 (n - 1)) (totalRetainFrames_ r) works)
    (incRetainOrder_ r) pool.

(** Entries whose map became empty are removed, at both levels. *)
Definition nonempty {K A} `{Countable K} (m : gmap K A) : option (gmap K A) :=
  if decide (m = ∅) then None else Some m.

Definition ShrinkRetainWorkPool (r : FrameRetainer) : FrameRetainer :=
  mkFrameRetainer (isTimerWork_ r) (totalSizeByByte_ r) (totalRetainFrames_ r) (incRetainOrder_ r)
    (omap (M := gmap LabelType)
       (fun targets => nonempty (omap (M := gmap cstring) (fun works => nonempty works) targets))
       (retainWorkPool_ r)).

(** The loop over [discardOrder]; the boolean is false at the early return. *)
Fixpoint discard_loop (r : FrameRetainer) (discardOrder : list (Z * (LabelType * cstring)))
    : bool * FrameRetainer :=
  if totalSizeByByte_ r <=? MAX_CAPACITY then (true, r)
  else match discardOrder with
       | [] => (false, r)
       | (order, (label, target)) :: discardOrder =>
         let works := works_at (retainWorkPool_ r) label target in
         let r := match works !! order with
                  | None => r
                  | Some work => forget r [work]
                      (set_works_at (retainWorkPool_ r) label target (delete order works))
                  end in
         discard_loop r discardOrder
       end.

Definition DiscardObsoleteFramesIfNeed (r : FrameRetainer) : FrameRetainer :=
  if totalSizeByByte_ r <=? MAX_CAPACITY then r
  else
    let discardOrder : gmap Z (LabelType * cstring) :=
      list_to_map (map (fun '(order, (label, target, _)) => (order, (label, target)))
                     (all_frames (retainWorkPool_ r))) in
    match discard_loop r (in_key_order discardOrder) with
    | (true, r) => ShrinkRetainWorkPool r
    | (false, r) => r
    end.

Section Retain.
Context `{Heap}.

Definition RetainFrame (r : FrameRetainer) (inFrame : FrameInfo) : FrameRetainer :=
  match fi_buffer inFrame with
  | None => r
  | Some buffer =>
    if MAX_RETAIN_FRAME_SIZE <? GetSize buffer then r
    else
      let '(errCode, buffer) := ConvertForCrossThread buffer in
      if negb (errCode =? E_OK) then r
      else
        let label := fi_commLabel inFrame in
        let target := fi_srcTarget inFrame in
        let work := mkRetainWork buffer (fi_frameId inFrame) MAX_RETAIN_TIME in
        let works := works_at (retainWorkPool_ r) label target in
        let '(discarded, works) :=
          if MAX_RETAIN_FRAME_PER_LABEL_PER_TARGET <=? Z.of_nat (size works)
          then match in_key_order works with
               | (order, oldest) :: _ => ([oldest], delete order works)
               | [] => ([], works)
               end
          else ([], works) in
        let r := forget r discarded (retainWorkPool_ r) in
        let order := incRetainOrder_ r in
        let r := mkFrameRetainer (isTimerWork_ r)
          (u32 (totalSizeByByte_ r + GetSize buffer)) (u32 (totalRetainFrames_ r + 1))
          (u64 (order + 1))
          (set_works_at (retainWorkPool_ r) label target (<[order := work]> works)) in
        DiscardObsoleteFramesIfNeed r
  end.

End Retain.

Definition FetchFramesForSpecificCommunicator (r : FrameRetainer) (inCommLabel : LabelType)
    : list FrameInfo * FrameRetainer :=
  match retainWorkPool_ r !! inCommLabel with
  | None => ([], r)
  | Some perLabel =>
    let fetchOrder : gmap Z (cstring * RetainWork) := list_to_map (frames_in perLabel) in
    let fetched := in_key_order fetchOrder in
    (map (fun '(_, (target, work)) =>
            mkFrameInfo (Some (rw_buffer work)) target inCommLabel (rw_frameId work)) fetched,
     forget r (map (fun x => snd (snd x)) fetched) (delete inCommLabel (retainWorkPool_ r)))
  end.

Definition tick (work : RetainWork) : RetainWork :=
  mkRetainWork (rw_buffer work) (rw_frameId work) (u32 (rw_remainTime work - 1)).

(** A frame whose time is up is discarded. *)
Definition surveil (work : RetainWork) : option RetainWork :=
  if rw_remainTime (tick work) =? 0 then None else Some (tick work).

Definition PeriodicalSurveillance (r : FrameRetainer) : FrameRetainer :=
  let frames := map (fun x => snd (snd x)) (all_frames (retainWorkPool_ r)) in
  let overtime := filter (fun work => rw_remainTime (tick work) = 0) frames in
  ShrinkRetainWorkPool
    (forget r overtime
       (fmap (M := gmap LabelType)
          (fmap (M := gmap cstring) (omap (M := gmap Z) surveil)) (retainWorkPool_ r))).
