(* ===== verification/RetainerFacts.v ===== *)
(** [FrameRetainer] implements a log of retained frames in the order of retention: the
    nested maps and the statistics are views of the log. *)

From S2P Require Import Prelude Memory SerialBuffer CommTypes FrameRetainer.
From Stdlib Require Import ZArith Lia.
From Stdlib Require Import Strings.Byte.
From stdpp Require Import base numbers list gmap sorting.

Open Scope Z_scope.

(** * The log *)

Abbreviation Entry := (Z * (LabelType * cstring * RetainWork))%type.
Definition e_order (e : Entry) : Z := fst e.
Definition e_label (e : Entry) : LabelType := fst (fst (snd e)).
Definition e_target (e : Entry) : cstring := snd (fst (snd e)).
Definition e_work (e : Entry) : RetainWork := snd (snd e).
Definition work_size (w : RetainWork) : Z := GetSize (rw_buffer w).

Definition log_bytes (log : list Entry) : Z :=
  foldr (fun e n => work_size (e_work e) + n) 0 log.

Definition order_lt {A} (x y : Z * A) : Prop := fst x < fst y.

Definition at_place (label : LabelType) (target : cstring) (e : Entry) : Prop :=
  e_label e = label /\ e_target e = target.

#[export] Instance at_place_dec label target e : Decision (at_place label target e).
Proof. unfold at_place. apply _. Defined.

(** The frame may be retained. *)
Definition work_ok (w : RetainWork) : Prop :=
  0 < work_size w <= MAX_RETAIN_FRAME_SIZE /\ 1 <= rw_remainTime w <= MAX_RETAIN_TIME.

Record represents (r : FrameRetainer) (log : list Entry) : Prop := {
  rp_lookup : forall label target order w,
    works_at (retainWorkPool_ r) label target !! order = Some w <-> (order, (label, target, w)) ∈ log;
  rp_sorted : StronglySorted order_lt log;
  rp_orders : forall e, e ∈ log -> 0 <= e_order e < incRetainOrder_ r;
  rp_inc : 0 <= incRetainOrder_ r <= UINT64_MAX;
  rp_bytes : totalSizeByByte_ r = log_bytes log;
  rp_frames : totalRetainFrames_ r = Z.of_nat (length log);
  rp_works : forall e, e ∈ log -> work_ok (e_work e)
}.

(** * Maps and sorted lists *)

Lemma NoDup_flat_map {A B} (f : A -> list B) l :
  NoDup l -> (forall x, x ∈ l -> NoDup (f x)) ->
  (forall x y z, x ∈ l -> y ∈ l -> z ∈ f x -> z ∈ f y -> x = y) ->
  NoDup (flat_map f l).
Proof.
  induction 1 as [|x l Hx Hl IH]; intros Hf Hd; [constructor|]. cbn [flat_map].
  apply NoDup_app. split_and!.
  - apply Hf, elem_of_cons. auto.
  - intros z Hz Hz'. apply list_elem_of_In, in_flat_map in Hz' as (y & Hy & Hzy).
    apply list_elem_of_In in Hy, Hzy. apply Hx.
    rewrite (Hd x y z); auto; apply elem_of_cons; auto.
  - apply IH; [intros y Hy; apply Hf, elem_of_cons; auto|].
    intros y y' z Hy Hy'. apply Hd; apply elem_of_cons; auto.
Qed.

Lemma elem_of_flat_map {A B} (f : A -> list B) l y :
  y ∈ flat_map f l <-> exists x, x ∈ l /\ y ∈ f x.
Proof.
  rewrite list_elem_of_In, in_flat_map. setoid_rewrite list_elem_of_In. reflexivity.
Qed.

Lemma sorted_keys_NoDup {A} (l : list (Z * A)) : StronglySorted order_lt l -> NoDup l.*1.
Proof.
  induction 1 as [|x l Hl IH Hx]; [constructor|]. cbn. constructor; [|exact IH].
  intros Hin. apply list_elem_of_fmap in Hin as (y & E & Hy).
  rewrite Forall_forall in Hx. specialize (Hx y Hy). unfold order_lt in Hx. lia.
Qed.

Lemma sorted_lt_le {A} (l : list (Z * A)) : StronglySorted order_lt l -> StronglySorted key_le l.
Proof.
  induction 1 as [|x l Hl IH Hx]; constructor; [exact IH|].
  eapply Forall_impl; [exact Hx|]. unfold order_lt, key_le. lia.
Qed.

#[export] Instance key_le_total {A} : Total (@key_le A).
Proof. intros x y. unfold key_le. lia. Qed.

#[export] Instance key_le_trans {A} : Transitive (@key_le A).
Proof. intros x y z. unfold key_le. lia. Qed.

(** Iterating over a map given by a sorted list gives the list back. *)
Lemma in_key_order_sorted {A} (m : gmap Z A) (l : list (Z * A)) :
  StronglySorted order_lt l -> (forall k v, m !! k = Some v <-> (k, v) ∈ l) -> in_key_order m = l.
Proof.
  intros Hs Hm. pose proof (sorted_keys_NoDup l Hs) as Hnd.
  assert (Hperm : in_key_order m ≡ₚ l).
  { unfold in_key_order. rewrite merge_sort_Permutation. apply NoDup_Permutation.
    - apply NoDup_map_to_list.
    - apply NoDup_fmap_1 in Hnd. exact Hnd.
    - intros [k v]. rewrite elem_of_map_to_list. apply Hm. }
  apply (StronglySorted_unique_strong key_le).
  - intros [k v] [k' v'] H1 H2 Hle Hle'. unfold key_le in *. cbn in *. assert (k = k') as <- by lia.
    rewrite Hperm in H1. apply Hm in H1, H2. congruence.
  - unfold in_key_order. apply (StronglySorted_merge_sort key_le).
  - apply sorted_lt_le, Hs.
  - exact Hperm.
Qed.

Lemma sorted_filter {A} (P : Z * A -> Prop) `{!forall x, Decision (P x)} l :
  StronglySorted order_lt l -> StronglySorted order_lt (filter P l).
Proof.
  induction 1 as [|x l Hl IH Hx]; [constructor|]. rewrite filter_cons. case_decide; [|exact IH].
  constructor; [exact IH|]. rewrite Forall_forall in *. intros y Hy.
  apply list_elem_of_filter in Hy as [_ Hy]. auto.
Qed.

Lemma sorted_map {A B} (f : Z * A -> Z * B) l :
  (forall x, fst (f x) = fst x) -> StronglySorted order_lt l -> StronglySorted order_lt (map f l).
Proof.
  intros Hf. induction 1 as [|x l Hl IH Hx]; [constructor|]. cbn. constructor; [exact IH|].
  apply Forall_forall. intros y Hy. apply list_elem_of_fmap in Hy as (z & -> & Hz).
  unfold order_lt. rewrite !Hf. apply (proj1 (Forall_forall _ _) Hx z Hz).
Qed.

(** * The pool *)

Lemma works_at_set pool l t ws l' t' :
  works_at (set_works_at pool l t ws) l' t' =
    if decide (l = l' /\ t = t') then ws else works_at pool l' t'.
Proof.
  unfold works_at, set_works_at. rewrite lookup_insert.
  destruct (decide (l = l')) as [<-|]; [|rewrite decide_False by tauto; reflexivity].
  change (default ∅ (Some ?x)) with x. rewrite lookup_insert.
  destruct (decide (t = t')) as [<-|]; [rewrite decide_True by tauto; reflexivity|].
  rewrite decide_False by tauto. reflexivity.
Qed.

Lemma elem_of_frames_in targets o t w :
  (o, (t, w)) ∈ frames_in targets <-> default ∅ (targets !! t) !! o = Some w.
Proof.
  unfold frames_in. rewrite elem_of_flat_map. split.
  - intros ([t' ws] & Ht & Hin). apply elem_of_map_to_list in Ht.
    apply list_elem_of_fmap in Hin as ([o' w'] & [= -> -> ->] & Hin).
    apply elem_of_map_to_list in Hin. cbn in *. rewrite Ht. exact Hin.
  - intros Hl. destruct (targets !! t) as [ws|] eqn:Et; cbn in Hl; [|by rewrite lookup_empty in Hl].
    exists (t, ws). split; [by apply elem_of_map_to_list|].
    apply list_elem_of_fmap. exists (o, w). split; [reflexivity|]. by apply elem_of_map_to_list.
Qed.

Lemma elem_of_all_frames pool o l t w :
  (o, (l, t, w)) ∈ all_frames pool <-> works_at pool l t !! o = Some w.
Proof.
  unfold all_frames, works_at. rewrite elem_of_flat_map. split.
  - intros ([l' ts] & Hl & Hin). apply elem_of_map_to_list in Hl.
    apply list_elem_of_fmap in Hin as ([o' [t' w']] & [= -> -> -> ->] & Hin).
    apply elem_of_frames_in in Hin. cbn in *. rewrite Hl. exact Hin.
  - intros Hw. destruct (pool !! l) as [ts|] eqn:El; cbn in Hw;
      [|by rewrite lookup_empty in Hw; cbn in Hw; rewrite lookup_empty in Hw].
    exists (l, ts). split; [by apply elem_of_map_to_list|].
    apply list_elem_of_fmap. exists (o, (t, w)). split; [reflexivity|]. by apply elem_of_frames_in.
Qed.

Lemma NoDup_frames_in targets : NoDup (frames_in targets).
Proof.
  apply NoDup_flat_map; [apply NoDup_map_to_list|..].
  - intros [t ws] _. apply NoDup_fmap_2; [|apply NoDup_map_to_list].
    intros [] [] [= -> ->]. reflexivity.
  - intros [t ws] [t' ws'] z Ht Ht' Hz Hz'.
    apply list_elem_of_fmap in Hz as ([] & -> & _), Hz' as ([] & [= _ <- _] & _).
    apply elem_of_map_to_list in Ht, Ht'. cbn in *. congruence.
Qed.

Lemma NoDup_all_frames pool : NoDup (all_frames pool).
Proof.
  apply NoDup_flat_map; [apply NoDup_map_to_list|..].
  - intros [l ts] _. apply NoDup_fmap_2; [|apply NoDup_frames_in].
    intros [? []] [? []] [= -> -> ->]. reflexivity.
  - intros [l ts] [l' ts'] z Hl Hl' Hz Hz'.
    apply list_elem_of_fmap in Hz as ([? []] & -> & _), Hz' as ([? []] & [= _ <- _ _] & _).
    apply elem_of_map_to_list in Hl, Hl'. cbn in *. congruence.
Qed.

Lemma all_frames_log r log : represents r log -> all_frames (retainWorkPool_ r) ≡ₚ log.
Proof.
  intros Hr. apply NoDup_Permutation.
  - apply NoDup_all_frames.
  - apply (NoDup_fmap_1 fst), sorted_keys_NoDup, Hr.
  - intros [o [[l t] w]]. rewrite elem_of_all_frames. apply Hr.
Qed.

Lemma unique_order (log : list Entry) (x y : Entry) :
  StronglySorted order_lt log -> x ∈ log -> y ∈ log -> e_order x = e_order y -> x = y.
Proof.
  intros Hs Hx Hy E. induction Hs as [|z log Hs IH Hz]; [by apply not_elem_of_nil in Hx|].
  pose proof (proj1 (Forall_forall _ _) Hz) as Hz'. unfold order_lt, e_order in *.
  apply elem_of_cons in Hx as [->|Hx], Hy as [->|Hy]; auto.
  - specialize (Hz' y Hy). lia.
  - specialize (Hz' x Hx). lia.
Qed.

Lemma NoDup_log (log : list Entry) : StronglySorted order_lt log -> NoDup log.
Proof. intros Hs. apply (NoDup_fmap_1 fst), sorted_keys_NoDup, Hs. Qed.

(** * Statistics *)

Lemma log_bytes_app a b : log_bytes (a ++ b) = log_bytes a + log_bytes b.
Proof. unfold log_bytes. induction a as [|e a IH]; cbn; lia. Qed.

Lemma log_bytes_perm a b : a ≡ₚ b -> log_bytes a = log_bytes b.
Proof. unfold log_bytes. induction 1; cbn; lia. Qed.

Lemma log_bytes_bounds log :
  (forall e, e ∈ log -> work_ok (e_work e)) -> Z.of_nat (length log) <= log_bytes log.
Proof.
  intros Hw. induction log as [|e log IH]; [cbn; lia|].
  pose proof (Hw e ltac:(apply elem_of_cons; auto)) as [? _].
  assert (Z.of_nat (length log) <= log_bytes log)
    by (apply IH; intros; apply Hw, elem_of_cons; auto).
  unfold log_bytes in *. cbn [length foldr]. lia.
Qed.

(** Forgetting frames takes them off the statistics. *)
Lemma forget_stats r log gone kept pool :
  represents r log -> log ≡ₚ gone ++ kept -> log_bytes log < 2 ^ 32 ->
  let r' := forget r (map e_work gone) pool in
  totalSizeByByte_ r' = log_bytes kept /\ totalRetainFrames_ r' = Z.of_nat (length kept) /\
  incRetainOrder_ r' = incRetainOrder_ r /\ retainWorkPool_ r' = pool.
Proof.
  intros Hr Hp Hmax. cbn. pose proof (log_bytes_bounds log (rp_works _ _ Hr)) as Hlen.
  rewrite (rp_bytes _ _ Hr), (rp_frames _ _ Hr), (log_bytes_perm _ _ Hp), (Permutation_length Hp),
    log_bytes_app, length_app, Nat2Z.inj_add.
  assert (Hg : log_bytes gone + log_bytes kept < 2 ^ 32 /\
               Z.of_nat (length gone) + Z.of_nat (length kept) < 2 ^ 32).
  { rewrite (log_bytes_perm _ _ Hp), (Permutation_length Hp), log_bytes_app, length_app in *. lia. }
  assert (Hw : forall e, e ∈ gone -> work_ok (e_work e)).
  { intros e He. apply (rp_works _ _ Hr). rewrite Hp. apply elem_of_app. auto. }
  assert (Hk : 0 <= log_bytes kept).
  { assert (Hkw : forall e, e ∈ kept -> work_ok (e_work e))
      by (intros e He; apply (rp_works _ _ Hr); rewrite Hp; apply elem_of_app; auto).
    pose proof (log_bytes_bounds kept Hkw). lia. }
  split_and!; [|..|reflexivity|reflexivity]; clear Hp Hlen; destruct Hg as [Hg1 Hg2].
  - induction gone as [|e gone IH]; cbn [map foldl]; [cbn; lia|].
    pose proof (Hw e ltac:(apply elem_of_cons; auto)) as [? _].
    assert (Hw' : forall e, e ∈ gone -> work_ok (e_work e)) by (intros; apply Hw, elem_of_cons; auto).
    pose proof (log_bytes_bounds gone Hw') as Hb. unfold log_bytes in *. cbn [foldr length] in *.
    fold (work_size (e_work e)). rewrite (wrap_small 32) by lia.
    replace (_ + _ + _ - _) with (log_bytes gone + log_bytes kept) by (unfold log_bytes; lia).
    apply IH; [lia|lia|exact Hw'].
  - clear Hg1 Hk Hw. induction gone as [|e gone IH]; cbn [map foldl length]; [lia|].
    cbn [length] in Hg2. rewrite (wrap_small 32) by lia.
    replace (_ - 1) with (Z.of_nat (length gone) + Z.of_nat (length kept)) by lia. apply IH. lia.
Qed.

(** * Operations on the log *)

Fixpoint drop_first (P : Entry -> Prop) `{!forall e, Decision (P e)} (log : list Entry) : list Entry :=
  match log with
  | [] => []
  | e :: log => if decide (P e) then log else e :: drop_first P log
  end.

Fixpoint trim (log : list Entry) : list Entry :=
  if log_bytes log <=? MAX_CAPACITY then log
  else match log with [] => [] | _ :: log => trim log end.

Definition make_room (label : LabelType) (target : cstring) (log : list Entry) : list Entry :=
  if MAX_RETAIN_FRAME_PER_LABEL_PER_TARGET <=? Z.of_nat (length (filter (at_place label target) log))
  then drop_first (at_place label target) log else log.

Definition retain (log : list Entry) (e : Entry) : list Entry :=
  trim (make_room (e_label e) (e_target e) log ++ [e]).

Definition age (e : Entry) : option Entry :=
  if rw_remainTime (e_work e) =? 1 then None
  else Some (e_order e, (e_label e, e_target e, tick (e_work e))).

(** What the log guarantees: bounded size and at most 5 frames of a source for a label. *)
Definition log_ok (log : list Entry) : Prop :=
  log_bytes log <= MAX_CAPACITY /\
  forall label target, (length (filter (at_place label target) log) <= 5)%nat.

Lemma trim_bytes log : log_bytes (trim log) <= MAX_CAPACITY.
Proof.
  induction log as [|e log IH]; [cbn; unfold MAX_CAPACITY; lia|]. cbn [trim].
  destruct (Z.leb_spec (log_bytes (e :: log)) MAX_CAPACITY); assumption.
Qed.

Lemma trim_suffix log : exists gone, log = gone ++ trim log.
Proof.
  induction log as [|e log [gone IH]]; [exists []; reflexivity|]. cbn [trim].
  destruct (log_bytes (e :: log) <=? MAX_CAPACITY); [exists []; reflexivity|].
  exists (e :: gone). cbn. congruence.
Qed.

Lemma drop_first_split P `{!forall e, Decision (P e)} log e rest :
  filter P log = e :: rest ->
  exists a b, log = a ++ e :: b /\ drop_first P log = a ++ b /\ P e /\ filter P a = [].
Proof.
  induction log as [|x log IH]; [discriminate|]. rewrite filter_cons. cbn [drop_first].
  case_decide as Hx.
  - intros [= -> _]. exists [], log. auto.
  - intros Hf. destruct (IH Hf) as (a & b & -> & -> & He & Ha). exists (x :: a), b.
    rewrite filter_cons, decide_False by exact Hx. auto.
Qed.

(** * Shrinking the maps changes no frame *)

Lemma default_nonempty {K A} `{Countable K} (m : gmap K A) : default ∅ (nonempty m) = m.
Proof. unfold nonempty. case_decide; [subst; reflexivity|reflexivity]. Qed.

Lemma works_at_shrink r l t :
  works_at (retainWorkPool_ (ShrinkRetainWorkPool r)) l t = works_at (retainWorkPool_ r) l t.
Proof.
  unfold works_at, ShrinkRetainWorkPool. cbn. rewrite lookup_omap.
  destruct (retainWorkPool_ r !! l) as [ts|]; [|reflexivity]. cbn.
  rewrite default_nonempty, lookup_omap. destruct (ts !! t) as [ws|]; [|reflexivity]. cbn.
  apply default_nonempty.
Qed.

Lemma represents_ext r r' log :
  represents r log ->
  (forall l t, works_at (retainWorkPool_ r') l t = works_at (retainWorkPool_ r) l t) ->
  totalSizeByByte_ r' = totalSizeByByte_ r -> totalRetainFrames_ r' = totalRetainFrames_ r ->
  incRetainOrder_ r' = incRetainOrder_ r -> represents r' log.
Proof.
  intros [] Hw Hb Hf Hi. constructor; rewrite ?Hb, ?Hf, ?Hi; auto. intros. rewrite Hw. auto.
Qed.

Lemma shrink_represents r log : represents r log -> represents (ShrinkRetainWorkPool r) log.
Proof.
  intros Hr. apply (represents_ext r); try reflexivity; [exact Hr|]. apply works_at_shrink.
Qed.

(** * Removing one frame *)

Lemma sorted_remove {A} (a b : list (Z * A)) e :
  StronglySorted order_lt (a ++ e :: b) -> StronglySorted order_lt (a ++ b).
Proof.
  induction a as [|x a IH]; cbn; intros Hs; apply StronglySorted_inv in Hs as [Hs Hx]; [exact Hs|].
  constructor; [apply IH, Hs|]. apply Forall_app in Hx as [H1 H2].
  apply Forall_app. split; [exact H1|]. by inversion H2.
Qed.

Lemma remove_represents r a e b :
  represents r (a ++ e :: b) -> log_bytes (a ++ e :: b) < 2 ^ 32 ->
  represents (forget r [e_work e] (set_works_at (retainWorkPool_ r) (e_label e) (e_target e)
    (delete (e_order e) (works_at (retainWorkPool_ r) (e_label e) (e_target e))))) (a ++ b).
Proof.
  intros Hr Hmax. set (pool := set_works_at _ _ _ _).
  destruct (forget_stats r (a ++ e :: b) [e] (a ++ b) pool Hr) as (H1 & H2 & H3 & H4);
    [rewrite <- Permutation_middle; reflexivity|exact Hmax|].
  pose proof (rp_sorted _ _ Hr) as Hs. pose proof (NoDup_log _ Hs) as Hnd.
  assert (Hin : forall x, x ∈ a ++ b <-> x ∈ a ++ e :: b /\ x <> e).
  { intros x. apply NoDup_app in Hnd as (_ & Hd & Hnd). apply NoDup_cons in Hnd as [Hnd _].
    rewrite !elem_of_app, elem_of_cons. split; [|intuition congruence].
    intros [Hx|Hx]; (split; [tauto|]); intros ->; [|contradiction].
    apply (Hd e Hx), elem_of_cons. auto. }
  constructor; change (map e_work [e]) with [e_work e] in *; rewrite ?H1, ?H2, ?H3, ?H4; auto.
  - intros l t o w. unfold pool. rewrite works_at_set, Hin.
    destruct (decide (e_label e = l /\ e_target e = t)) as [[<- <-]|Hne].
    + rewrite lookup_delete_Some, (rp_lookup _ _ Hr). split.
      * intros [Hne Hx]. split; [exact Hx|]. intros E. apply Hne. rewrite <- E. reflexivity.
      * intros [Hx Hne]. split; [|exact Hx]. intros E. apply Hne.
        apply (unique_order _ _ _ Hs); [exact Hx|apply elem_of_app; right; apply elem_of_cons; auto|].
        symmetry. exact E.
    + rewrite (rp_lookup _ _ Hr). split; [|tauto]. intros Hx. split; [exact Hx|].
      intros E. apply Hne. rewrite <- E. auto.
  - apply (sorted_remove a b e), Hs.
  - intros x Hx. apply (rp_orders _ _ Hr), Hin, Hx.
  - apply Hr.
  - intros x Hx. apply (rp_works _ _ Hr), Hin, Hx.
Qed.

(** * Discarding until the capacity holds *)

Definition place (e : Entry) : Z * (LabelType * cstring) := (e_order e, (e_label e, e_target e)).

Lemma discard_loop_trim r log :
  represents r log -> log_bytes log < 2 ^ 32 ->
  exists r', discard_loop r (map place log) = (true, r') /\ represents r' (trim log).
Proof.
  revert r. induction log as [|e log IH]; intros r Hr Hmax.
  - exists r. cbn [map discard_loop trim]. rewrite (rp_bytes _ _ Hr). auto.
  - cbn [map discard_loop trim]. rewrite (rp_bytes _ _ Hr).
    destruct (log_bytes (e :: log) <=? MAX_CAPACITY); [eauto|].
    assert (Hl : works_at (retainWorkPool_ r) (e_label e) (e_target e) !! e_order e = Some (e_work e)).
    { apply (rp_lookup _ _ Hr). destruct e as [? [[]]]. apply elem_of_cons. auto. }
    unfold place at 1. rewrite Hl. apply IH.
    + apply (remove_represents r [] e log Hr Hmax).
    + pose proof (rp_works _ _ Hr e ltac:(apply elem_of_cons; auto)) as [? _].
      unfold log_bytes in *. cbn [foldr] in Hmax. lia.
Qed.

Lemma discard_represents r log :
  represents r log -> log_bytes log < 2 ^ 32 ->
  represents (DiscardObsoleteFramesIfNeed r) (trim log).
Proof.
  intros Hr Hmax. unfold DiscardObsoleteFramesIfNeed. rewrite (rp_bytes _ _ Hr).
  destruct (Z.leb_spec (log_bytes log) MAX_CAPACITY) as [Hle|Hgt].
  - replace (trim log) with log; [exact Hr|]. destruct log; [reflexivity|]. cbn [trim].
    destruct (Z.leb_spec (log_bytes (p :: log)) MAX_CAPACITY); [reflexivity|lia].
  - pose proof (rp_sorted _ _ Hr) as Hs.
    assert (Hord : in_key_order (list_to_map (map (fun '(order, (label, target, _)) =>
        (order, (label, target))) (all_frames (retainWorkPool_ r))) : gmap Z (LabelType * cstring))
        = map place log).
    { assert (Hsp : StronglySorted order_lt (map place log)) by (apply sorted_map; [|exact Hs]; reflexivity).
      apply in_key_order_sorted; [exact Hsp|]. intros k v.
      assert (Hperm : map (fun '(order, (label, target, _)) => (order, (label, target)))
                (all_frames (retainWorkPool_ r)) ≡ₚ map place log).
      { rewrite (all_frames_log r log Hr). apply reflexive_eq, map_ext. intros [? [[] ?]]. reflexivity. }
      rewrite <- elem_of_list_to_map by (rewrite Hperm; apply sorted_keys_NoDup, Hsp).
      rewrite Hperm. reflexivity. }
    rewrite Hord. destruct (discard_loop_trim r log Hr Hmax) as (r' & -> & Hr').
    apply shrink_represents, Hr'.
Qed.

(** * Retaining a frame *)

Lemma works_at_list r log l t :
  represents r log ->
  in_key_order (works_at (retainWorkPool_ r) l t) =
    map (fun e => (e_order e, e_work e)) (filter (at_place l t) log).
Proof.
  intros Hr. apply in_key_order_sorted.
  - apply sorted_map; [reflexivity|]. apply sorted_filter, Hr.
  - intros o w. rewrite (rp_lookup _ _ Hr). split.
    + intros Hin. apply list_elem_of_fmap. exists (o, (l, t, w)). split; [reflexivity|].
      apply list_elem_of_filter. split; [|exact Hin]. split; reflexivity.
    + intros Hin. apply list_elem_of_fmap in Hin as ([o' [[l' t'] w']] & [= -> ->] & Hin).
      apply list_elem_of_filter in Hin as [[E1 E2] Hin]. cbn in E1, E2. subst. exact Hin.
Qed.

Lemma size_in_key_order {A} (m : gmap Z A) : size m = length (in_key_order m).
Proof. unfold in_key_order. rewrite merge_sort_Permutation. symmetry. apply length_map_to_list. Qed.

(** The state after making room for a frame of the place, as [RetainFrame] computes it. *)
Lemma make_room_represents r log l t :
  represents r log -> log_bytes log < 2 ^ 32 ->
  let works := works_at (retainWorkPool_ r) l t in
  exists discarded works',
    (if MAX_RETAIN_FRAME_PER_LABEL_PER_TARGET <=? Z.of_nat (size works)
     then match in_key_order works with
          | (order, oldest) :: _ => ([oldest], delete order works)
          | [] => ([], works)
          end
     else ([], works)) = (discarded, works') /\
    represents (forget r discarded (set_works_at (retainWorkPool_ r) l t works')) (make_room l t log).
Proof.
  intros Hr Hmax. cbv zeta.
  assert (Hsame : represents (forget r [] (set_works_at (retainWorkPool_ r) l t
                    (works_at (retainWorkPool_ r) l t))) log).
  { apply (represents_ext r); try reflexivity; [exact Hr|]. intros l' t'. cbn.
    rewrite works_at_set. case_decide as Hd; [destruct Hd; subst; reflexivity|reflexivity]. }
  rewrite size_in_key_order, (works_at_list r log l t Hr), length_map. unfold make_room.
  destruct (Z.leb_spec MAX_RETAIN_FRAME_PER_LABEL_PER_TARGET
              (Z.of_nat (length (filter (at_place l t) log)))) as [Hfull|]; [|eauto].
  destruct (filter (at_place l t) log) as [|e rest] eqn:Ef.
  { cbn in Hfull. unfold MAX_RETAIN_FRAME_PER_LABEL_PER_TARGET in Hfull. lia. }
  cbn [map]. destruct (drop_first_split (at_place l t) log e rest Ef) as (a & b & -> & -> & [<- <-] & _).
  eexists _, _. split; [reflexivity|]. apply remove_represents; assumption.
Qed.

Lemma add_represents r log l t w :
  represents r log -> incRetainOrder_ r < UINT64_MAX -> work_ok w -> log_bytes log < 2 ^ 32 - 2 ^ 27 ->
  represents (mkFrameRetainer (isTimerWork_ r) (u32 (totalSizeByByte_ r + work_size w))
      (u32 (totalRetainFrames_ r + 1)) (u64 (incRetainOrder_ r + 1))
      (set_works_at (retainWorkPool_ r) l t
         (<[incRetainOrder_ r := w]> (works_at (retainWorkPool_ r) l t))))
    (log ++ [(incRetainOrder_ r, (l, t, w))]).
Proof.
  intros Hr Hinc Hw Hmax. pose proof Hr as [Hl Hs Ho Hi Hb Hf Hws].
  pose proof (log_bytes_bounds log Hws) as Hlen. unfold UINT64_MAX in *.
  pose proof Hw as [Hsz _]. unfold MAX_RETAIN_FRAME_SIZE in Hsz.
  constructor; cbn.
  - intros l' t' o w'. rewrite works_at_set, elem_of_app, list_elem_of_singleton.
    destruct (decide (l = l' /\ t = t')) as [[<- <-]|Hne].
    + rewrite lookup_insert_Some, Hl. split.
      * intros [[<- <-]|[_ Hin]]; auto.
      * intros [Hin|[= -> ->]]; [|auto]. right. split; [|exact Hin].
        specialize (Ho _ Hin). cbn in Ho. lia.
    + rewrite Hl. split; [auto|]. intros [Hin|[= -> -> -> ->]]; [exact Hin|tauto].
  - clear -Hs Ho. induction Hs as [|x log Hs IH Hx]; cbn; [repeat constructor|].
    constructor; [apply IH; intros; apply Ho, elem_of_cons; auto|].
    apply Forall_app. split; [exact Hx|]. repeat constructor. unfold order_lt. cbn.
    apply (Ho x), elem_of_cons. auto.
  - intros e He. rewrite (wrap_small 64) by lia. apply elem_of_app in He as [He|He].
    + specialize (Ho e He). lia.
    + apply list_elem_of_singleton in He as ->. cbn. lia.
  - unfold UINT64_MAX. rewrite (wrap_small 64); lia.
  - rewrite Hb, log_bytes_app, (wrap_small 32) by lia. unfold log_bytes at 3. cbn. lia.
  - rewrite Hf, length_app, (wrap_small 32) by lia. cbn. lia.
  - intros e He. apply elem_of_app in He as [He|He]; [auto|].
    apply list_elem_of_singleton in He as ->. exact Hw.
Qed.

Section Retaining.
Context `{Heap}.

(** The buffer kept for a frame, if it is accepted at all. *)
Definition accepted (frame : FrameInfo) : option SerialBuffer :=
  match fi_buffer frame with
  | None => None
  | Some buffer =>
    if MAX_RETAIN_FRAME_SIZE <? GetSize buffer then None
    else let '(errCode, buffer) := ConvertForCrossThread buffer in
         if errCode =? E_OK then Some buffer else None
  end.

Definition new_entry (order : Z) (frame : FrameInfo) (buffer : SerialBuffer) : Entry :=
  (order, (fi_commLabel frame, fi_srcTarget frame,
           mkRetainWork buffer (fi_frameId frame) MAX_RETAIN_TIME)).

Lemma ConvertForCrossThread_size b b' :
  ConvertForCrossThread b = (E_OK, b') -> GetSize b' = GetSize b.
Proof.
  unfold ConvertForCrossThread. destruct (externalBytes_ b) as [ext|] eqn:E; [|intros [= <-]; reflexivity].
  destruct (heap_new _); [|discriminate]. destruct (memcpy_s _ _ _ _); [|discriminate].
  intros [= <-]. unfold GetSize. rewrite E. cbn. rewrite andb_false_r. reflexivity.
Qed.

Lemma accepted_size frame b :
  accepted frame = Some b -> (forall b0, fi_buffer frame = Some b0 -> 0 < GetSize b0) ->
  0 < GetSize b <= MAX_RETAIN_FRAME_SIZE.
Proof.
  unfold accepted. destruct (fi_buffer frame) as [b0|]; [|discriminate]. intros E Hpos.
  specialize (Hpos b0 eq_refl). destruct (Z.ltb_spec MAX_RETAIN_FRAME_SIZE (GetSize b0)); [discriminate|].
  destruct (ConvertForCrossThread b0) as [e b'] eqn:Ec.
  destruct (Z.eqb_spec e E_OK) as [->|]; [|discriminate]. injection E as <-.
  rewrite (ConvertForCrossThread_size _ _ Ec). lia.
Qed.

Lemma make_room_sublist l t log : make_room l t log `sublist_of` log.
Proof.
  unfold make_room. destruct (_ <=? _); [|reflexivity].
  induction log as [|e log IH]; [reflexivity|]. cbn [drop_first]. case_decide.
  - apply sublist_cons, reflexivity.
  - apply sublist_skip, IH.
Qed.

Lemma log_bytes_sublist (a b : list Entry) :
  a `sublist_of` b -> (forall e, e ∈ b -> work_ok (e_work e)) -> log_bytes a <= log_bytes b.
Proof.
  induction 1 as [|e a b Hs IH|e a b Hs IH]; intros Hw; [cbn; lia|..];
    pose proof (Hw e ltac:(apply elem_of_cons; auto)) as [? _];
    assert (log_bytes a <= log_bytes b) by (apply IH; intros; apply Hw, elem_of_cons; auto);
    unfold log_bytes in *; cbn [foldr]; lia.
Qed.

Lemma filter_sublist_length (P : Entry -> Prop) `{!forall e, Decision (P e)} (a b : list Entry) :
  a `sublist_of` b -> (length (filter P a) <= length (filter P b))%nat.
Proof.
  induction 1 as [|e a b _ IH|e a b _ IH]; [reflexivity|..]; rewrite !filter_cons;
    case_decide; cbn [length]; lia.
Qed.

Lemma RetainFrame_eq r log frame :
  represents r log -> log_ok log -> incRetainOrder_ r < UINT64_MAX ->
  (forall b0, fi_buffer frame = Some b0 -> 0 < GetSize b0) ->
  match accepted frame with
  | None => RetainFrame r frame = r
  | Some b => represents (RetainFrame r frame) (retain log (new_entry (incRetainOrder_ r) frame b))
  end.
Proof.
  intros Hr [Hcap _] Hinc Hpos. pose proof (accepted_size frame) as Hsz. revert Hsz.
  unfold accepted, RetainFrame. destruct (fi_buffer frame) as [b0|]; [|reflexivity]. intros Hsz.
  destruct (MAX_RETAIN_FRAME_SIZE <? GetSize b0); [reflexivity|].
  destruct (ConvertForCrossThread b0) as [e b]. destruct (e =? E_OK); cbn [negb]; [|reflexivity].
  specialize (Hsz b eq_refl Hpos). unfold MAX_CAPACITY, MAX_RETAIN_FRAME_SIZE in *.
  set (l := fi_commLabel frame). set (t := fi_srcTarget frame).
  destruct (make_room_represents r log l t Hr ltac:(lia)) as (discarded & works & -> & Hr1).
  set (r1 := forget r discarded (set_works_at (retainWorkPool_ r) l t works)) in *.
  assert (Hlog1 : log_bytes (make_room l t log) <= log_bytes log)
    by (apply log_bytes_sublist; [apply make_room_sublist|apply Hr]).
  pose proof (add_represents r1 (make_room l t log) l t
    (mkRetainWork b (fi_frameId frame) MAX_RETAIN_TIME) Hr1 Hinc) as Hr2.
  unfold retain, new_entry. cbn [e_label e_target fst snd]. fold l t.
  apply discard_represents.
  - eapply represents_ext; [apply Hr2| |reflexivity|reflexivity|reflexivity].
    + split; cbn; unfold work_size, MAX_RETAIN_FRAME_SIZE, MAX_RETAIN_TIME; cbn; lia.
    + lia.
    + intros l' t'. cbn. rewrite !works_at_set. case_decide as Hd; [|reflexivity].
      rewrite decide_True by auto. reflexivity.
  - rewrite log_bytes_app. unfold log_bytes at 2. cbn. unfold work_size. cbn. lia.
Qed.

Lemma retain_ok log e :
  log_ok log -> (forall x, x ∈ log -> work_ok (e_work x)) -> log_ok (retain log e).
Proof.
  intros [_ Hper] Hw. split; [apply trim_bytes|]. intros l t. unfold retain.
  destruct (trim_suffix (make_room (e_label e) (e_target e) log ++ [e])) as [gone Hg].
  assert (Hle : (length (filter (at_place l t) (trim (make_room (e_label e) (e_target e) log ++ [e])))
                 <= length (filter (at_place l t) (make_room (e_label e) (e_target e) log ++ [e])))%nat).
  { rewrite Hg at 2. rewrite filter_app, length_app. lia. }
  etrans; [exact Hle|]. rewrite filter_app, length_app, filter_cons, filter_nil.
  specialize (Hper l t) as Hlt.
  assert (Hsub : forall l' t', (length (filter (at_place l t) (make_room l' t' log))
                  <= length (filter (at_place l t) log))%nat).
  { intros l' t'. apply filter_sublist_length, make_room_sublist. }
  case_decide as Hd; cbn [length]; [|specialize (Hsub (e_label e) (e_target e)); lia].
  destruct Hd as [<- <-]. unfold make_room.
  destruct (Z.leb_spec MAX_RETAIN_FRAME_PER_LABEL_PER_TARGET
    (Z.of_nat (length (filter (at_place (e_label e) (e_target e)) log)))) as [Hfull|Hroom];
    unfold MAX_RETAIN_FRAME_PER_LABEL_PER_TARGET in *; [|lia].
  destruct (filter (at_place (e_label e) (e_target e)) log) as [|x rest] eqn:Ef; [cbn in Hfull; lia|].
  destruct (drop_first_split _ log x rest Ef) as (a & b & -> & -> & Hx & Ha).
  rewrite filter_app, Ha. rewrite filter_app, Ha, filter_cons, decide_True in Ef by exact Hx.
  cbn [app] in *. injection Ef as ->. cbn [length] in Hlt. lia.
Qed.

End Retaining.

(** * Fetching the frames of a communicator *)

Definition for_label (label : LabelType) (e : Entry) : Prop := e_label e = label.

#[export] Instance for_label_dec label e : Decision (for_label label e).
Proof. unfold for_label. apply _. Defined.

Definition frame_of (e : Entry) : FrameInfo :=
  mkFrameInfo (Some (rw_buffer (e_work e))) (e_target e) (e_label e) (rw_frameId (e_work e)).

Lemma list_eq_nil_filter (P : Entry -> Prop) `{!forall e, Decision (P e)} (log : list Entry) :
  (forall e, e ∈ log -> ~ P e) -> filter P log = [].
Proof.
  induction log as [|e log IH]; intros Hn; [reflexivity|].
  rewrite filter_cons, decide_False by (apply Hn, elem_of_cons; auto).
  apply IH. intros x Hx. apply Hn, elem_of_cons. auto.
Qed.

Lemma list_filter_all (P : Entry -> Prop) `{!forall e, Decision (P e)} (log : list Entry) :
  (forall e, e ∈ log -> P e) -> filter P log = log.
Proof.
  induction log as [|e log IH]; intros Hn; [reflexivity|].
  rewrite filter_cons, decide_True by (apply Hn, elem_of_cons; auto).
  f_equal. apply IH. intros x Hx. apply Hn, elem_of_cons. auto.
Qed.

Lemma filter_partition (P : Entry -> Prop) `{!forall e, Decision (P e)} (log : list Entry) :
  log ≡ₚ filter P log ++ filter (fun e => ~ P e) log.
Proof.
  induction log as [|e log IH]; [reflexivity|]. rewrite !filter_cons.
  repeat case_decide; try tauto; [cbn; by f_equiv|]. rewrite <- Permutation_middle. by f_equiv.
Qed.

Lemma works_at_delete_label r l l' t :
  works_at (delete l (retainWorkPool_ r)) l' t =
    if decide (l = l') then ∅ else works_at (retainWorkPool_ r) l' t.
Proof.
  unfold works_at. destruct (decide (l = l')) as [<-|].
  - rewrite lookup_delete_eq. cbn. by rewrite lookup_empty.
  - rewrite lookup_delete_ne by assumption. reflexivity.
Qed.

Lemma fetch_represents r log label :
  represents r log -> log_bytes log < 2 ^ 32 ->
  exists r', FetchFramesForSpecificCommunicator r label =
      (map frame_of (filter (for_label label) log), r') /\
    represents r' (filter (fun e => ~ for_label label e) log).
Proof.
  intros Hr Hmax. pose proof (rp_sorted _ _ Hr) as Hs. unfold FetchFramesForSpecificCommunicator.
  destruct (retainWorkPool_ r !! label) as [perLabel|] eqn:El.
  - set (fetched := in_key_order _).
    assert (Hf : fetched = map (fun e => (e_order e, (e_target e, e_work e))) (filter (for_label label) log)).
    { assert (Hsp : StronglySorted order_lt
        (map (fun e => (e_order e, (e_target e, e_work e))) (filter (for_label label) log)))
        by (apply sorted_map; [reflexivity|]; apply sorted_filter, Hs).
      apply in_key_order_sorted; [exact Hsp|]. intros k v.
      assert (Hperm : frames_in perLabel ≡ₚ
        map (fun e => (e_order e, (e_target e, e_work e))) (filter (for_label label) log)).
      { apply NoDup_Permutation; [apply NoDup_frames_in|apply (NoDup_fmap_1 fst), sorted_keys_NoDup, Hsp|].
        intros [o [t w]]. rewrite elem_of_frames_in. pose proof (rp_lookup _ _ Hr label t o w) as Hlk.
        unfold works_at in Hlk. rewrite El in Hlk. cbn in Hlk. rewrite Hlk. split.
        - intros Hin. apply list_elem_of_fmap. exists (o, (label, t, w)). split; [reflexivity|].
          apply list_elem_of_filter. split; [reflexivity|exact Hin].
        - intros Hin. apply list_elem_of_fmap in Hin as ([o' [[l' t'] w']] & [= -> -> ->] & Hin).
          apply list_elem_of_filter in Hin as [E Hin]. unfold for_label, e_label in E. cbn in E.
          subst. exact Hin. }
      rewrite <- elem_of_list_to_map by (rewrite Hperm; apply sorted_keys_NoDup, Hsp).
      rewrite Hperm. reflexivity. }
    rewrite Hf, !map_map. eexists. split; [f_equal; apply map_ext_in|].
    + intros [o [[l t] w]] Hin. apply list_elem_of_In, list_elem_of_filter in Hin as [E _].
      unfold for_label, e_label in E. cbn in E. subst. reflexivity.
    + cbn [fst snd]. change (map (fun x : Entry => e_work x)) with (map e_work).
      destruct (forget_stats r log (filter (for_label label) log)
        (filter (fun e => ~ for_label label e) log) (delete label (retainWorkPool_ r)) Hr)
        as (H1 & H2 & H3 & H4); [apply filter_partition|exact Hmax|].
      constructor; rewrite ?H1, ?H2, ?H3, ?H4; auto.
      * intros l t o w. rewrite works_at_delete_label, list_elem_of_filter. unfold for_label. cbn.
        case_decide as Hd; [|rewrite (rp_lookup _ _ Hr); intuition congruence].
        rewrite lookup_empty. split; [discriminate|]. intros [Hn _]. exfalso. apply Hn. congruence.
      * apply sorted_filter, Hs.
      * intros e He. apply list_elem_of_filter in He as [_ He]. apply (rp_orders _ _ Hr), He.
      * apply Hr.
      * intros e He. apply list_elem_of_filter in He as [_ He]. apply (rp_works _ _ Hr), He.
  - assert (Hno : forall e, e ∈ log -> ~ for_label label e).
    { intros [o [[l t] w]] He E. cbn in E. unfold for_label, e_label in E. cbn in E. subst l.
      apply (rp_lookup _ _ Hr) in He. unfold works_at in He. rewrite El in He. cbn in He.
      rewrite lookup_empty in He. cbn in He. by rewrite lookup_empty in He. }
    assert (E1 : filter (for_label label) log = []).
    { apply list_eq_nil_filter. intros e He. apply Hno, He. }
    assert (E2 : filter (fun e => ~ for_label label e) log = log).
    { apply list_filter_all. intros e He. apply Hno, He. }
    rewrite E1, E2. exists r. auto.
Qed.

(** * A surveillance tick *)

Lemma tick_time w : work_ok w -> rw_remainTime (tick w) = rw_remainTime w - 1.
Proof. intros [_ Ht]. unfold MAX_RETAIN_TIME in Ht. cbn. apply wrap_small. lia. Qed.

Definition overtime (e : Entry) : Prop := rw_remainTime (tick (e_work e)) = 0.

#[export] Instance overtime_dec e : Decision (overtime e).
Proof. unfold overtime. apply _. Defined.

Lemma age_spec e : work_ok (e_work e) ->
  age e = if decide (overtime e) then None
          else Some (e_order e, (e_label e, e_target e, tick (e_work e))).
Proof.
  intros Hw. unfold age. pose proof (tick_time _ Hw) as Ht.
  destruct (Z.eqb_spec (rw_remainTime (e_work e)) 1), (decide (overtime e)) as [Ho|Ho];
    try reflexivity; exfalso; unfold overtime in Ho; lia.
Qed.

(** The aged log, as a filter and a map. *)
Lemma omap_age log :
  (forall e, e ∈ log -> work_ok (e_work e)) ->
  omap age log = map (fun e => (e_order e, (e_label e, e_target e, tick (e_work e))))
                   (filter (fun e => ~ overtime e) log).
Proof.
  induction log as [|e log IH]; intros Hw; [reflexivity|].
  rewrite filter_cons. cbn [omap list_omap].
  change (list_omap Entry Entry age log) with (omap age log).
  rewrite IH by (intros; apply Hw, elem_of_cons; auto).
  rewrite age_spec by (apply Hw, elem_of_cons; auto).
  destruct (decide (overtime e)); destruct (decide (~ overtime e)); tauto || reflexivity.
Qed.

Lemma log_bytes_ticked log :
  log_bytes (map (fun e => (e_order e, (e_label e, e_target e, tick (e_work e)))) log) = log_bytes log.
Proof. unfold log_bytes. induction log as [|e log IH]; cbn; [reflexivity|]. rewrite IH. reflexivity. Qed.

Lemma filter_map_works (log : list Entry) :
  filter (fun w => rw_remainTime (tick w) = 0) (map (fun x : Entry => snd (snd x)) log)
  = map e_work (filter overtime log).
Proof.
  induction log as [|e log IH]; [reflexivity|]. cbn [map]. rewrite !filter_cons.
  destruct (decide (overtime e)) as [H|H]; unfold overtime, e_work in H.
  - rewrite decide_True by exact H. cbn [map]. rewrite IH. reflexivity.
  - rewrite decide_False by exact H. exact IH.
Qed.

Lemma filter_perm (P : Entry -> Prop) `{!forall e, Decision (P e)} (a b : list Entry) :
  a ≡ₚ b -> filter P a ≡ₚ filter P b.
Proof. intros ->. reflexivity. Qed.

Lemma works_at_surveil pool l t :
  works_at (fmap (M := gmap LabelType) (fmap (M := gmap cstring) (omap (M := gmap Z) surveil)) pool) l t
  = omap surveil (works_at pool l t).
Proof.
  unfold works_at. rewrite lookup_fmap. destruct (pool !! l) as [ts|]; cbn.
  - rewrite lookup_fmap. destruct (ts !! t); cbn; [reflexivity|]. by rewrite omap_empty.
  - rewrite !lookup_empty. cbn. by rewrite omap_empty.
Qed.

Lemma tick_represents r log :
  represents r log -> log_bytes log < 2 ^ 32 ->
  represents (PeriodicalSurveillance r) (omap age log).
Proof.
  intros Hr Hmax. unfold PeriodicalSurveillance. apply shrink_represents.
  pose proof (all_frames_log r log Hr) as Hperm. rewrite filter_map_works.
  set (pool := fmap _ _). rewrite (omap_age log (rp_works _ _ Hr)).
  destruct (forget_stats r log (filter overtime (all_frames (retainWorkPool_ r)))
    (filter (fun e => ~ overtime e) log) pool Hr) as (H1 & H2 & H3 & H4); [|exact Hmax|].
  { rewrite (filter_perm overtime _ _ Hperm). apply filter_partition. }
  constructor; rewrite ?H1, ?H2, ?H3, ?H4; auto.
  - intros l t o w. unfold pool. rewrite works_at_surveil, lookup_omap_Some. split.
    + intros (w0 & Hs & Hl). apply (rp_lookup _ _ Hr) in Hl. apply list_elem_of_fmap.
      exists (o, (l, t, w0)). unfold surveil in Hs. destruct (Z.eqb_spec (rw_remainTime (tick w0)) 0);
        [discriminate|]. injection Hs as <-. split; [reflexivity|].
      apply list_elem_of_filter. auto.
    + intros Hin. apply list_elem_of_fmap in Hin as ([o' [[l' t'] w']] & [= -> -> -> ->] & Hin).
      apply list_elem_of_filter in Hin as [Hno Hin]. exists w'.
      unfold overtime, e_work in Hno. cbn [snd] in Hno. unfold surveil.
      destruct (Z.eqb_spec (rw_remainTime (tick w')) 0); [contradiction|].
      split; [reflexivity|]. apply (rp_lookup _ _ Hr), Hin.
  - apply sorted_map; [reflexivity|]. apply sorted_filter, Hr.
  - intros e He. apply list_elem_of_fmap in He as (e' & -> & He).
    apply list_elem_of_filter in He as [_ He]. apply (rp_orders _ _ Hr _ He).
  - apply Hr.
  - symmetry. apply log_bytes_ticked.
  - rewrite length_map. reflexivity.
  - intros e He. apply list_elem_of_fmap in He as (e' & -> & He).
    apply list_elem_of_filter in He as [Hno He]. pose proof (rp_works _ _ Hr _ He) as Hw.
    pose proof (tick_time _ Hw) as Ht. unfold overtime in Hno. rewrite Ht in Hno.
    destruct Hw as [Hsz Htime]. split; [exact Hsz|]. cbn [e_work snd fst]. rewrite Ht. lia.
Qed.

(** * Runs *)

Section Runs.
Context `{Heap}.

Inductive RetainerOp :=
  | Retain (frame : FrameInfo)
  | Fetch (label : LabelType)
  | Tick.

Definition op_frames_ok (op : RetainerOp) : Prop :=
  match op with
  | Retain frame => forall b, fi_buffer frame = Some b -> 0 < GetSize b
  | _ => True
  end.

Definition exec (r : FrameRetainer) (op : RetainerOp) : list FrameInfo * FrameRetainer :=
  match op with
  | Retain frame => ([], RetainFrame r frame)
  | Fetch label => FetchFramesForSpecificCommunicator r label
  | Tick => ([], PeriodicalSurveillance r)
  end.

(** The same on a log and the number of the next frame. *)
Definition spec (st : Z * list Entry) (op : RetainerOp) : list FrameInfo * (Z * list Entry) :=
  let '(next, log) := st in
  match op with
  | Retain frame =>
    match accepted frame with
    | None => ([], (next, log))
    | Some b => ([], (next + 1, retain log (new_entry next frame b)))
    end
  | Fetch label => (map frame_of (filter (for_label label) log),
                    (next, filter (fun e => ~ for_label label e) log))
  | Tick => ([], (next, omap age log))
  end.

Lemma discard_loop_inc order : forall r, incRetainOrder_ (snd (discard_loop r order)) = incRetainOrder_ r.
Proof.
  induction order as [|[o [l t]] order IH]; intros r; cbn [discard_loop];
    destruct (_ <=? _); try reflexivity.
  rewrite IH. destruct (_ !! _); reflexivity.
Qed.

Lemma discard_inc r : incRetainOrder_ (DiscardObsoleteFramesIfNeed r) = incRetainOrder_ r.
Proof.
  unfold DiscardObsoleteFramesIfNeed. destruct (_ <=? _); [reflexivity|].
  set (order := in_key_order _). pose proof (discard_loop_inc order r) as Hi.
  destruct (discard_loop r order) as [[] r']; exact Hi.
Qed.

Lemma RetainFrame_inc r frame :
  incRetainOrder_ (RetainFrame r frame) =
    match accepted frame with None => incRetainOrder_ r | Some _ => u64 (incRetainOrder_ r + 1) end.
Proof.
  unfold accepted, RetainFrame. destruct (fi_buffer frame) as [b0|]; [|reflexivity].
  destruct (_ <? _); [reflexivity|]. destruct (ConvertForCrossThread b0) as [e b].
  destruct (e =? E_OK); cbn [negb]; [|reflexivity].
  destruct (if _ <=? _ then _ else _) as [discarded works]. rewrite discard_inc. reflexivity.
Qed.

Lemma log_ok_sublist (a b : list Entry) :
  log_ok b -> a `sublist_of` b -> (forall e, e ∈ b -> work_ok (e_work e)) -> log_ok a.
Proof.
  intros [H1 H2] Hs Hw. split.
  - etrans; [apply (log_bytes_sublist a b Hs Hw)|exact H1].
  - intros l t. etrans; [apply filter_sublist_length, Hs|apply H2].
Qed.

Lemma filter_sublist_of (P : Entry -> Prop) `{!forall e, Decision (P e)} (log : list Entry) :
  filter P log `sublist_of` log.
Proof.
  induction log as [|e log IH]; [constructor|]. rewrite filter_cons.
  case_decide; [apply sublist_skip|apply sublist_cons]; exact IH.
Qed.

Lemma age_log_ok log :
  log_ok log -> (forall e, e ∈ log -> work_ok (e_work e)) -> log_ok (omap age log).
Proof.
  intros Hok Hw. rewrite (omap_age log Hw).
  assert (Hf : log_ok (filter (fun e => ~ overtime e) log))
    by (apply (log_ok_sublist _ log Hok); [apply filter_sublist_of|exact Hw]).
  destruct Hf as [H1 H2]. split; [rewrite log_bytes_ticked; exact H1|].
  intros l t. etrans; [|apply (H2 l t)]. generalize (filter (fun e => ~ overtime e) log). clear.
  intros log. induction log as [|e log IH]; [reflexivity|]. cbn [map]. rewrite !filter_cons.
  change (at_place l t (e_order e, (e_label e, e_target e, tick (e_work e)))) with (at_place l t e).
  destruct (decide (at_place l t e)) as [Hd|Hd];
    destruct (decide (at_place l t (e_order e, (e_label e, e_target e, tick (e_work e)))));
    cbn [length]; try lia; contradiction.
Qed.

Lemma retainer_exec_spec r next log op :
  represents r log -> log_ok log -> incRetainOrder_ r = next -> next < UINT64_MAX -> op_frames_ok op ->
  let '(out, (next', log')) := spec (next, log) op in
  exists r', exec r op = (out, r') /\ represents r' log' /\ log_ok log' /\
    incRetainOrder_ r' = next' /\ next' <= next + 1.
Proof.
  intros Hr Hok Hn Hlt Hop. pose proof Hok as [Hcap _].
  assert (Hmax : log_bytes log < 2 ^ 32) by (unfold MAX_CAPACITY in Hcap; lia).
  pose proof (rp_works _ _ Hr) as Hw. destruct op as [frame|label|]; cbn [spec exec].
  - pose proof (RetainFrame_eq r log frame Hr Hok ltac:(lia) Hop) as He.
    pose proof (RetainFrame_inc r frame) as Hi. destruct (accepted frame) as [b|].
    + rewrite Hn in *. eexists. split; [reflexivity|]. split; [exact He|].
      split; [apply retain_ok; assumption|]. rewrite Hi, wrap_small; [lia|].
      destruct Hr. unfold UINT64_MAX in *. lia.
    + rewrite He. exists r. split_and!; auto. lia.
  - destruct (fetch_represents r log label Hr Hmax) as (r' & E & Hr').
    exists r'. split; [exact E|]. split; [exact Hr'|].
    split; [apply (log_ok_sublist _ log Hok); [apply filter_sublist_of|exact Hw]|].
    unfold FetchFramesForSpecificCommunicator in E.
    destruct (retainWorkPool_ r !! label); injection E as _ <-; cbn; lia.
  - eexists. split; [reflexivity|]. split; [apply tick_represents; assumption|].
    split; [apply age_log_ok; assumption|]. cbn. lia.
Qed.

Fixpoint run (r : FrameRetainer) (ops : list RetainerOp) : list (list FrameInfo) * FrameRetainer :=
  match ops with
  | [] => ([], r)
  | op :: ops => let '(out, r) := exec r op in let '(outs, r) := run r ops in (out :: outs, r)
  end.

Fixpoint spec_run (st : Z * list Entry) (ops : list RetainerOp)
    : list (list FrameInfo) * (Z * list Entry) :=
  match ops with
  | [] => ([], st)
  | op :: ops => let '(out, st) := spec st op in let '(outs, st) := spec_run st ops in (out :: outs, st)
  end.

Lemma retainer_run_spec ops : forall r next log,
  represents r log -> log_ok log -> incRetainOrder_ r = next ->
  next + Z.of_nat (length ops) <= UINT64_MAX -> Forall op_frames_ok ops ->
  let '(outs, (next', log')) := spec_run (next, log) ops in
  exists r', run r ops = (outs, r') /\ represents r' log' /\ log_ok log' /\ incRetainOrder_ r' = next'.
Proof.
  induction ops as [|op ops IH]; intros r next log Hr Hok Hn Hlt Hops; [cbn; eauto|].
  apply Forall_cons in Hops as [Hop Hops]. cbn [run spec_run length] in *.
  pose proof (retainer_exec_spec r next log op Hr Hok Hn ltac:(lia) Hop) as Hx.
  destruct (spec (next, log) op) as [out [next1 log1]]. destruct Hx as (r1 & -> & Hr1 & Hok1 & Hn1 & Hle).
  specialize (IH r1 next1 log1 Hr1 Hok1 Hn1 ltac:(lia) Hops).
  destruct (spec_run (next1, log1) ops) as [outs [next' log']].
  destruct IH as (r' & -> & ?). eauto.
Qed.

Lemma empty_represents : represents emptyFrameRetainer [].
Proof.
  constructor; try reflexivity; try (intros e He; by apply not_elem_of_nil in He).
  - intros l t o w. unfold works_at. cbn. rewrite !lookup_empty. cbn. rewrite !lookup_empty.
    split; [discriminate|]. intros Hin. by apply not_elem_of_nil in Hin.
  - constructor.
  - vm_compute. intuition congruence.
Qed.

Lemma empty_log_ok : log_ok [].
Proof. split; [vm_compute; discriminate|]. intros l t. cbn. lia. Qed.

(** C8: over any sequence of retained frames, fetches and timer ticks, the retainer gives
    out the frames a plain log gives out: a fetch returns all frames kept for the label in
    the order of retention, the log never exceeds 64 MB, keeps at most 5 frames of a source
    for a label (the oldest goes first in both cases), and the statistics are exactly the
    sums over the log. *)
Theorem retainer_refines ops outs next log :
  Forall op_frames_ok ops -> Z.of_nat (length ops) <= UINT64_MAX ->
  spec_run (0, []) ops = (outs, (next, log)) ->
  exists r, run emptyFrameRetainer ops = (outs, r) /\
    totalSizeByByte_ r = log_bytes log /\ totalRetainFrames_ r = Z.of_nat (length log) /\
    log_bytes log <= MAX_CAPACITY /\
    (forall label target, (length (filter (at_place label target) log) <= 5)%nat) /\
    (forall label target order w,
       works_at (retainWorkPool_ r) label target !! order = Some w <->
       (order, (label, target, w)) ∈ log).
Proof.
  intros Hops Hlen Hs.
  pose proof (retainer_run_spec ops emptyFrameRetainer 0 [] empty_represents empty_log_ok eq_refl
                ltac:(lia) Hops) as Hx.
  rewrite Hs in Hx. destruct Hx as (r & E & Hr & [H1 H2] & _). exists r.
  destruct Hr. split_and!; auto.
Qed.

Fixpoint ticks (n : nat) (r : FrameRetainer) : FrameRetainer :=
  match n with O => r | S n => ticks n (PeriodicalSurveillance r) end.

Lemma ticks_represents n : forall r log,
  represents r log -> log_ok log ->
  (forall e, e ∈ log -> rw_remainTime (e_work e) <= Z.of_nat n) -> represents (ticks n r) [].
Proof.
  induction n as [|n IH]; intros r log Hr Hok Ht.
  - assert (log = []) as ->; [|exact Hr]. destruct log as [|e log]; [reflexivity|].
    pose proof (rp_works _ _ Hr e ltac:(apply elem_of_cons; auto)) as [_ ?].
    specialize (Ht e ltac:(apply elem_of_cons; auto)). lia.
  - cbn [ticks]. pose proof (rp_works _ _ Hr) as Hw.
    assert (Hmax : log_bytes log < 2 ^ 32) by (destruct Hok; unfold MAX_CAPACITY in *; lia).
    apply (IH _ (omap age log)); [apply tick_represents; assumption|apply age_log_ok; assumption|].
    intros e He. rewrite (omap_age log Hw) in He. apply list_elem_of_fmap in He as (e' & -> & He).
    apply list_elem_of_filter in He as [_ He]. cbn [e_work snd].
    rewrite (tick_time _ (Hw _ He)). specialize (Ht _ He). lia.
Qed.

(** C15: frames that nobody fetches are gone after ten ticks of the timer, and the
    statistics are back to zero. *)
Theorem retained_frames_expire r log :
  represents r log -> log_ok log ->
  let r' := ticks (Z.to_nat MAX_RETAIN_TIME) r in
  totalSizeByByte_ r' = 0 /\ totalRetainFrames_ r' = 0 /\
  forall label, fst (FetchFramesForSpecificCommunicator r' label) = [].
Proof.
  intros Hr Hok. cbv zeta.
  assert (He : represents (ticks (Z.to_nat MAX_RETAIN_TIME) r) []).
  { apply (ticks_represents _ r log Hr Hok). intros e He. destruct (rp_works _ _ Hr e He) as [_ ?].
    unfold MAX_RETAIN_TIME in *. lia. }
  split; [apply (rp_bytes _ _ He)|]. split; [apply (rp_frames _ _ He)|].
  intros label. destruct (fetch_represents _ [] label He ltac:(cbn; lia)) as (r' & -> & _). reflexivity.
Qed.

End Runs.

(** * A concrete run *)

Section RetainerSample.
Local Existing Instance zero_heap.

Definition sample_frame (n : Z) (target : cstring) : FrameInfo :=
  mkFrameInfo (Some (mkSerialBuffer (Some []) (Some 0) None n 0 n 0 0 false)) target [x01] n.

Definition sample_retains : list RetainerOp :=
  [Retain (sample_frame 40 [x61]); Retain (sample_frame 41 [x62]); Tick;
   Retain (sample_frame 42 [x61]); Retain (sample_frame 43 [x61]); Retain (sample_frame 44 [x61]);
   Retain (sample_frame 45 [x61]); Retain (sample_frame 46 [x61])].

Lemma sample_retains_ok : Forall op_frames_ok (sample_retains ++ [Fetch [x01]]).
Proof. repeat constructor; intros b [= <-]; vm_compute; congruence. Qed.

(** The fetch gives six frames in order: the oldest of the six of one source was dropped. *)
Lemma retainer_refines_witness :
  exists r, run emptyFrameRetainer (sample_retains ++ [Fetch [x01]]) =
      ([[]; []; []; []; []; []; []; [];
        map (fun '(n, t) => sample_frame n t)
          [(41, [x62]); (42, [x61]); (43, [x61]); (44, [x61]); (45, [x61]); (46, [x61])]], r) /\
    totalSizeByByte_ r = 0 /\ totalRetainFrames_ r = 0 /\ 0 <= MAX_CAPACITY /\
    (forall label target, (length (filter (at_place label target) []) <= 5)%nat) /\
    (forall label target order w,
       works_at (retainWorkPool_ r) label target !! order = Some w <->
       (order, (label, target, w)) ∈ []).
Proof.
  apply (retainer_refines (sample_retains ++ [Fetch [x01]]) _ 7 []).
  - exact sample_retains_ok.
  - vm_compute. discriminate.
  - vm_compute. reflexivity.
Defined.

Definition sample_retainer : FrameRetainer := snd (run emptyFrameRetainer sample_retains).
Definition sample_log : list Entry := snd (snd (spec_run (0, []) sample_retains)).

Lemma sample_represents : represents sample_retainer sample_log /\ log_ok sample_log.
Proof.
  pose proof (retainer_run_spec sample_retains emptyFrameRetainer 0 [] empty_represents empty_log_ok
                eq_refl ltac:(vm_compute; discriminate)
                (proj1 (proj1 (Forall_app _ _ _) sample_retains_ok))) as Hx.
  unfold sample_retainer, sample_log.
  destruct (spec_run (0, []) sample_retains) as [outs [next log]].
  destruct Hx as (r & -> & Hr & Hok & _). auto.
Qed.

Lemma retained_frames_expire_witness :
  totalSizeByByte_ (ticks 10 sample_retainer) = 0 /\
  totalRetainFrames_ (ticks 10 sample_retainer) = 0 /\
  forall label, fst (FetchFramesForSpecificCommunicator (ticks 10 sample_retainer) label) = [].
Proof.
  apply (retained_frames_expire sample_retainer sample_log).
  - apply sample_represents.
  - apply sample_represents.
Defined.

End RetainerSample.
