(* ===== verification/CommunicatorLinker.v ===== *)
(** Model of [CommunicatorLinker] (communicator/src/communicator_linker.cpp): which
    remote devices are online, which labels they have opened, and the label exchange
    messages with their acknowledgements and retransmissions. *)

From S2P Require Import Prelude Memory Numerals SerialBuffer CommTypes ProtocolProto.
From Stdlib Require Import ZArith Lia.
From Stdlib Require Import Strings.Byte.
From stdpp Require Import base numbers list gmap.

Open Scope Z_scope.

Definition TIME_LAPSE_FOR_WAITING_ACK : Z := 5000.
Definition TIME_LAPSE_FOR_RETRY_SEND : Z := 1000.
Definition RETRANSMIT_LIMIT : Z := 20.
Definition RETRANSMIT_LIMIT_EQUAL_INTERVAL : Z := 5.

(** What the linker uses of the aggregator [aggregator_] points to, whose state is [A]:
    a frame is handed over for sending (non-blocking, high priority). The answer is a
    status and the buffer as it was left, which is again the caller's when the status is
    not [E_OK]. *)
Class Aggregator (A : Type) := {
  hand_over : A -> cstring -> SerialBuffer -> FrameType -> (Z * SerialBuffer) * A
}.

(** An action waiting for its timer, with its count-down in milliseconds. *)
Inductive Suspended :=
  | SuspendLabel (toTarget : cstring) (inBuff : SerialBuffer) (inSequenceId inRetransmitCount : Z)
      (inCountDown : Z)
  | SuspendAck (toTarget : cstring) (inBuff : SerialBuffer) (inSequenceId inAckTriggerId : Z)
      (inCountDown : Z).

(** [cl_refs]: the references the pending sends hold on the linker. [cl_suspended]: the
    timers that are set. *)
Record CommunicatorLinker {A : Type} := mkLinker {
  localDistinctValue_ : Z;
  incSequenceId_ : Z;
  incAckTriggerId_ : Z;
  targetDistinctValue_ : gmap cstring Z;
  topRecvLabelSeq_ : gmap cstring Z;
  waitAckSeq_ : gmap cstring Z;
  recvAckSeq_ : gmap cstring Z;
  ackTriggerId_ : gmap cstring Z;
  localOnlineLabels_ : gset LabelType;
  remoteOnlineTarget_ : gset cstring;
  targetMapOnlineLabels_ : gmap cstring (gset LabelType);
  cl_refs : Z;
  cl_suspended : list Suspended;
  aggregator_ : A
}.

Arguments CommunicatorLinker : clear implicits.
Arguments mkLinker {A}.

Section Linker.
Context `{Host} `{Heap} {A : Type} `{!Aggregator A}.
Implicit Types k : CommunicatorLinker A.

(** The constructor. *)
Definition newLinker (inAggregator : A) : CommunicatorLinker A :=
  mkLinker 0 0 0 ∅ ∅ ∅ ∅ ∅ ∅ ∅ ∅ 0 [] inAggregator.

(** [curTime] is 0 when the system time is not available. *)
Definition Initialize k (curTime : Z) : CommunicatorLinker A :=
  mkLinker (HashFunc (to_string curTime)) (incSequenceId_ k) (incAckTriggerId_ k)
    (targetDistinctValue_ k) (topRecvLabelSeq_ k) (waitAckSeq_ k) (recvAckSeq_ k)
    (ackTriggerId_ k) (localOnlineLabels_ k) (remoteOnlineTarget_ k) (targetMapOnlineLabels_ k)
    (cl_refs k) (cl_suspended k) (aggregator_ k).

Definition labels_of k (target : cstring) : gset LabelType :=
  default ∅ (targetMapOnlineLabels_ k !! target).

(** * Record updates *)

Definition set_exchange k (distinct top : gmap cstring Z) : CommunicatorLinker A :=
  mkLinker (localDistinctValue_ k) (incSequenceId_ k) (incAckTriggerId_ k) distinct top
    (waitAckSeq_ k) (recvAckSeq_ k) (ackTriggerId_ k) (localOnlineLabels_ k)
    (remoteOnlineTarget_ k) (targetMapOnlineLabels_ k) (cl_refs k) (cl_suspended k)
    (aggregator_ k).

Definition set_acks k (wait recv trigger : gmap cstring Z) : CommunicatorLinker A :=
  mkLinker (localDistinctValue_ k) (incSequenceId_ k) (incAckTriggerId_ k)
    (targetDistinctValue_ k) (topRecvLabelSeq_ k) wait recv trigger (localOnlineLabels_ k)
    (remoteOnlineTarget_ k) (targetMapOnlineLabels_ k) (cl_refs k) (cl_suspended k)
    (aggregator_ k).

Definition set_counters k (seq ack : Z) : CommunicatorLinker A :=
  mkLinker (localDistinctValue_ k) seq ack (targetDistinctValue_ k) (topRecvLabelSeq_ k)
    (waitAckSeq_ k) (recvAckSeq_ k) (ackTriggerId_ k) (localOnlineLabels_ k)
    (remoteOnlineTarget_ k) (targetMapOnlineLabels_ k) (cl_refs k) (cl_suspended k)
    (aggregator_ k).

Definition set_online k (local : gset LabelType) (remote : gset cstring)
    (labels : gmap cstring (gset LabelType)) : CommunicatorLinker A :=
  mkLinker (localDistinctValue_ k) (incSequenceId_ k) (incAckTriggerId_ k)
    (targetDistinctValue_ k) (topRecvLabelSeq_ k) (waitAckSeq_ k) (recvAckSeq_ k)
    (ackTriggerId_ k) local remote labels (cl_refs k) (cl_suspended k) (aggregator_ k).

Definition set_pending k (refs : Z) (suspended : list Suspended) (a : A) : CommunicatorLinker A :=
  mkLinker (localDistinctValue_ k) (incSequenceId_ k) (incAckTriggerId_ k)
    (targetDistinctValue_ k) (topRecvLabelSeq_ k) (waitAckSeq_ k) (recvAckSeq_ k)
    (ackTriggerId_ k) (localOnlineLabels_ k) (remoteOnlineTarget_ k) (targetMapOnlineLabels_ k)
    refs suspended a.

Definition set_aggregator k (a : A) : CommunicatorLinker A :=
  set_pending k (cl_refs k) (cl_suspended k) a.
Definition IncObjRef k : CommunicatorLinker A :=
  set_pending k (cl_refs k + 1) (cl_suspended k) (aggregator_ k).
Definition DecObjRef k : CommunicatorLinker A :=
  set_pending k (cl_refs k - 1) (cl_suspended k) (aggregator_ k).

(** The action runs once, after its count-down: from the timer of the runtime context,
    or from a thread of its own when the timer cannot be set. *)
Definition SuspendByOnceTimer k (action : Suspended) : CommunicatorLinker A :=
  set_pending k (cl_refs k) (cl_suspended k ++ [action]) (aggregator_ k).

(** [m[key]] of a map of integers: a missing entry is created as 0. *)
Definition touch (m : gmap cstring Z) (key : cstring) : gmap cstring Z :=
  <[key := default 0 (m !! key)]> m.

(** * Sending *)

Definition GetDynamicTimeLapseForWaitingAck (inRetransmitCount : Z) : Z :=
  if inRetransmitCount <=? RETRANSMIT_LIMIT_EQUAL_INTERVAL then TIME_LAPSE_FOR_WAITING_ACK
  else
    let subsequentRetransmit := u32 (inRetransmitCount - RETRANSMIT_LIMIT_EQUAL_INTERVAL) in
    u32 (subsequentRetransmit * subsequentRetransmit * TIME_LAPSE_FOR_WAITING_ACK).

(** Whether a label exchange need not be sent any more. *)
Definition label_obsolete k (toTarget : cstring)
    (inSequenceId inRetransmitCount : Z) : bool :=
  negb (inRetransmitCount <=? RETRANSMIT_LIMIT)
  || negb (bool_decide (toTarget ∈ remoteOnlineTarget_ k))
  || (inSequenceId <? default 0 (waitAckSeq_ k !! toTarget))
  || match recvAckSeq_ k !! toTarget with Some seq => inSequenceId <=? seq | None => false end.

Definition SendLabelExchange k (toTarget : cstring) (inBuff : SerialBuffer)
    (inSequenceId inRetransmitCount : Z) : CommunicatorLinker A :=
  let noNeedToSend := label_obsolete k toTarget inSequenceId inRetransmitCount in
  let k := set_acks k (touch (waitAckSeq_ k) toTarget) (recvAckSeq_ k) (ackTriggerId_ k) in
  if noNeedToSend then DecObjRef k
  else
    let '(error, cloneBuffer) := Clone inBuff in
    let '((errCode, inBuff), a) :=
      hand_over (aggregator_ k) toTarget inBuff COMMUNICATION_LABEL_EXCHANGE in
    let k := set_aggregator k a in
    if errCode =? E_OK then
      match cloneBuffer with
      | Some cloneBuffer =>
        if error =? E_OK then
          SuspendByOnceTimer k
            (SuspendLabel toTarget cloneBuffer inSequenceId (u32 (inRetransmitCount + 1))
               (GetDynamicTimeLapseForWaitingAck inRetransmitCount))
        else k
      | None => k
      end
    else
      SuspendByOnceTimer k
        (SuspendLabel toTarget inBuff inSequenceId inRetransmitCount TIME_LAPSE_FOR_RETRY_SEND).

Definition ack_obsolete k (toTarget : cstring)
    (inSequenceId inAckTriggerId : Z) : bool :=
  match topRecvLabelSeq_ k !! toTarget with Some seq => inSequenceId <? seq | None => false end
  || (inAckTriggerId <? default 0 (ackTriggerId_ k !! toTarget)).

Definition SendLabelExchangeAck k (toTarget : cstring)
    (inBuff : SerialBuffer) (inSequenceId inAckTriggerId : Z) : CommunicatorLinker A :=
  let noNeedToSend := ack_obsolete k toTarget inSequenceId inAckTriggerId in
  let k := set_acks k (waitAckSeq_ k) (recvAckSeq_ k) (touch (ackTriggerId_ k) toTarget) in
  if noNeedToSend then DecObjRef k
  else
    let '((errCode, inBuff), a) :=
      hand_over (aggregator_ k) toTarget inBuff COMMUNICATION_LABEL_EXCHANGE_ACK in
    let k := set_aggregator k a in
    if errCode =? E_OK then DecObjRef k
    else
      SuspendByOnceTimer k
        (SuspendAck toTarget inBuff inSequenceId inAckTriggerId TIME_LAPSE_FOR_RETRY_SEND).

(** A timer of the linker is due: its action runs. *)
Definition timer_due k (action : Suspended) : CommunicatorLinker A :=
  match action with
  | SuspendLabel toTarget inBuff inSequenceId inRetransmitCount _ =>
    SendLabelExchange k toTarget inBuff inSequenceId inRetransmitCount
  | SuspendAck toTarget inBuff inSequenceId inAckTriggerId _ =>
    SendLabelExchangeAck k toTarget inBuff inSequenceId inAckTriggerId
  end.

(** * Events *)

Definition TriggerLabelExchangeEvent k (toTarget : cstring)
    : Z * CommunicatorLinker A :=
  let sequenceId := incSequenceId_ k in
  let k := set_counters k (u64 (sequenceId + 1)) (incAckTriggerId_ k) in
  let onlineLabels := localOnlineLabels_ k in
  match BuildLabelExchange (localDistinctValue_ k) sequenceId onlineLabels with
  | (error, None) => (error, k)
  | (error, Some buffer) =>
    if negb (error =? E_OK) then (error, k)
    else
      let abort := match waitAckSeq_ k !! toTarget with
                   | None => false
                   | Some seq => sequenceId <? seq
                   end in
      if abort then (E_OK, k)
      else
        let k := set_acks k (<[toTarget := sequenceId]> (waitAckSeq_ k)) (recvAckSeq_ k)
                   (ackTriggerId_ k) in
        (E_OK, SendLabelExchange (IncObjRef k) toTarget buffer sequenceId 0)
  end.

Definition TriggerLabelExchangeAckEvent k (toTarget : cstring)
    (inSequenceId : Z) : Z * CommunicatorLinker A :=
  match BuildLabelExchangeAck (localDistinctValue_ k) inSequenceId with
  | (errCode, None) => (errCode, k)
  | (errCode, Some buffer) =>
    if negb (errCode =? E_OK) then (errCode, k)
    else
      let ackId := incAckTriggerId_ k in
      let k := set_counters k (incSequenceId_ k) (u64 (ackId + 1)) in
      let k := set_acks k (waitAckSeq_ k) (recvAckSeq_ k) (<[toTarget := ackId]> (ackTriggerId_ k)) in
      (E_OK, SendLabelExchangeAck (IncObjRef k) toTarget buffer inSequenceId ackId)
  end.

(** The out parameter is only assigned when the target was offline. *)
Definition TargetOnline k (inTarget : cstring)
    (outRelatedLabels : gset LabelType) : (Z * gset LabelType) * CommunicatorLinker A :=
  let '(outRelatedLabels, k) :=
    if bool_decide (inTarget ∈ remoteOnlineTarget_ k) then (outRelatedLabels, k)
    else (labels_of k inTarget,
          set_online k (localOnlineLabels_ k) ({[inTarget]} ∪ remoteOnlineTarget_ k)
            (<[inTarget := labels_of k inTarget]> (targetMapOnlineLabels_ k))) in
  let '(errCode, k) := TriggerLabelExchangeEvent k inTarget in
  ((errCode, outRelatedLabels), k).

Definition TargetOffline k (inTarget : cstring)
    : (Z * gset LabelType) * CommunicatorLinker A :=
  let outRelatedLabels := labels_of k inTarget in
  let k := set_online k (localOnlineLabels_ k) (remoteOnlineTarget_ k ∖ {[inTarget]})
             (<[inTarget := outRelatedLabels]> (targetMapOnlineLabels_ k)) in
  let k := set_exchange k (delete inTarget (targetDistinctValue_ k))
             (delete inTarget (topRecvLabelSeq_ k)) in
  ((E_OK, outRelatedLabels), k).

(** The loop that triggers a label exchange for each of the targets. *)
Fixpoint trigger_all k (targets : list cstring) : bool * CommunicatorLinker A :=
  match targets with
  | [] => (false, k)
  | target :: targets =>
    let '(errCode, k) := TriggerLabelExchangeEvent k target in
    let '(everFail, k) := trigger_all k targets in
    (negb (errCode =? E_OK) || everFail, k)
  end.

Definition IncreaseLocalLabel k (inLabel : LabelType) (outOnlineTarget : gset cstring)
    : (Z * gset cstring) * CommunicatorLinker A :=
  let k := set_online k ({[inLabel]} ∪ localOnlineLabels_ k) (remoteOnlineTarget_ k)
             (targetMapOnlineLabels_ k) in
  let outOnlineTarget :=
    filter (fun target => target ∈ remoteOnlineTarget_ k /\ inLabel ∈ labels_of k target)
      (dom (targetMapOnlineLabels_ k)) ∪ outOnlineTarget in
  let '(everFail, k) := trigger_all k (set_in_order (remoteOnlineTarget_ k)) in
  ((if everFail then - E_INTERNAL_ERROR else E_OK, outOnlineTarget), k).

Definition DecreaseLocalLabel k (inLabel : LabelType)
    : Z * CommunicatorLinker A :=
  let k := set_online k (localOnlineLabels_ k ∖ {[inLabel]}) (remoteOnlineTarget_ k)
             (targetMapOnlineLabels_ k) in
  let '(everFail, k) := trigger_all k (set_in_order (remoteOnlineTarget_ k)) in
  (if everFail then - E_INTERNAL_ERROR else E_OK, k).

(** * Receiving *)

Definition DetectDistinctValueChange k (inTarget : cstring)
    (inDistinctValue : Z) : CommunicatorLinker A :=
  match targetDistinctValue_ k !! inTarget with
  | None => set_exchange k (<[inTarget := inDistinctValue]> (targetDistinctValue_ k))
              (topRecvLabelSeq_ k)
  | Some old =>
    if old =? inDistinctValue then k
    else set_exchange k (<[inTarget := inDistinctValue]> (targetDistinctValue_ k))
           (delete inTarget (topRecvLabelSeq_ k))
  end.

(** The differences found by the two loops: true for a label that came online. *)
Definition change_labels (before latest : gset LabelType) : gmap LabelType bool :=
  set_to_map (fun label => (label, true)) (latest ∖ before)
  ∪ set_to_map (fun label => (label, false)) (before ∖ latest).

Definition ReceiveLabelExchange k (inTarget : cstring)
    (inLatestLabels : gset LabelType) (inDistinctValue inSequenceId : Z)
    (outChangeLabels : gmap LabelType bool)
    : (Z * gmap LabelType bool) * CommunicatorLinker A :=
  let k := DetectDistinctValueChange k inTarget inDistinctValue in
  let outdated := match topRecvLabelSeq_ k !! inTarget with
                  | None => false
                  | Some top => inSequenceId <? top
                  end in
  if outdated then ((- E_OUT_OF_DATE, outChangeLabels), k)
  else
    let k := set_exchange k (targetDistinctValue_ k)
               (<[inTarget := inSequenceId]> (topRecvLabelSeq_ k)) in
    let outChangeLabels := change_labels (labels_of k inTarget) inLatestLabels ∪ outChangeLabels in
    let k := set_online k (localOnlineLabels_ k) (remoteOnlineTarget_ k)
               (<[inTarget := inLatestLabels]> (targetMapOnlineLabels_ k)) in
    let '(_, k) := TriggerLabelExchangeAckEvent k inTarget inSequenceId in
    ((E_OK, outChangeLabels), k).

Definition ReceiveLabelExchangeAck k (inTarget : cstring)
    (inDistinctValue inSequenceId : Z) : Z * CommunicatorLinker A :=
  let k := DetectDistinctValueChange k inTarget inDistinctValue in
  match waitAckSeq_ k !! inTarget with
  | None => (- E_NOT_FOUND, k)
  | Some wait =>
    if wait <? inSequenceId then (- E_NOT_FOUND, k)
    else
      let outdated := match recvAckSeq_ k !! inTarget with
                      | None => false
                      | Some recv => inSequenceId <=? recv
                      end in
      if outdated then (- E_OUT_OF_DATE, k)
      else (E_OK, set_acks k (waitAckSeq_ k) (<[inTarget := inSequenceId]> (recvAckSeq_ k))
                    (ackTriggerId_ k))
  end.

Definition GetOnlineRemoteTarget k : gset cstring := remoteOnlineTarget_ k.
Definition IsRemoteTargetOnline k (inTarget : cstring) : bool :=
  bool_decide (inTarget ∈ remoteOnlineTarget_ k).

End Linker.
