(* ===== verification/LinkerFacts.v ===== *)
(** Correctness of the linker: the invariant of every reachable state (a pending timer
    always holds a reference, sequence numbers are never reused, acknowledged sequences
    were sent), the label exchange does not depend on the order of arrival, and
    retransmissions stop. *)

From S2P Require Import Prelude Memory SerialBuffer CommTypes ProtocolProto ProtoRoundtrip.
From S2P Require Import CommunicatorLinker.
From Stdlib Require Import ZArith Lia.
From Stdlib Require Import Strings.Byte.
From stdpp Require Import base numbers list gmap.

Open Scope Z_scope.

Lemma touch_present (m : gmap cstring Z) t v : m !! t = Some v -> touch m t = m.
Proof. intros Hm. unfold touch. rewrite Hm. simpl. by apply insert_id. Qed.

(** What identifies a pending action: its kind, its target and its sequence (label
    exchange) or trigger number (acknowledgement). *)
Definition pending_key (action : Suspended) : bool * cstring * Z :=
  match action with
  | SuspendLabel t _ s _ _ => (false, t, s)
  | SuspendAck t _ _ id _ => (true, t, id)
  end.

Definition pending_keys (l : list Suspended) : list (bool * cstring * Z) := map pending_key l.

Section Facts.
Context `{Host} `{Heap} {A : Type} `{!Aggregator A}.
Implicit Types k : CommunicatorLinker A.

(** A pending action refers to a sequence that was recorded, and its retransmission
    count is at most one above the limit. *)
Definition action_ok k (action : Suspended) : Prop :=
  match action with
  | SuspendLabel t _ s c _ =>
    (exists w, waitAckSeq_ k !! t = Some w /\ s <= w) /\ 0 <= c <= RETRANSMIT_LIMIT + 1
  | SuspendAck t _ _ id _ => exists w, ackTriggerId_ k !! t = Some w /\ id <= w
  end.

Record linker_inv k : Prop := {
  li_wait : forall t s, waitAckSeq_ k !! t = Some s -> 0 <= s < incSequenceId_ k;
  li_recv : forall t s, recvAckSeq_ k !! t = Some s ->
    exists w, waitAckSeq_ k !! t = Some w /\ s <= w;
  li_ack : forall t s, ackTriggerId_ k !! t = Some s -> 0 <= s < incAckTriggerId_ k;
  li_actions : Forall (action_ok k) (cl_suspended k);
  li_nodup : NoDup (pending_keys (cl_suspended k));
  li_refs : Z.of_nat (length (cl_suspended k)) <= cl_refs k;
  li_top : dom (topRecvLabelSeq_ k) ⊆ dom (targetDistinctValue_ k);
  li_seq_range : 0 <= incSequenceId_ k;
  li_ack_range : 0 <= incAckTriggerId_ k
}.

(** The outcomes of one send: given up (the reference is released), rescheduled under the
    same key, or sent without being rescheduled. *)
Inductive send_outcome (key : bool * cstring * Z) : Z -> list Suspended -> Prop :=
  | outcome_end : send_outcome key 1 []
  | outcome_again action : pending_key action = key ->
      (forall t b s c d, action = SuspendLabel t b s c d -> 0 <= c <= RETRANSMIT_LIMIT + 1) ->
      send_outcome key 0 [action]
  | outcome_sent : send_outcome key 0 [].

Lemma set_acks_same k : set_acks k (waitAckSeq_ k) (recvAckSeq_ k) (ackTriggerId_ k) = k.
Proof. by destruct k. Qed.

Lemma send_label_shape k t b s c w :
  waitAckSeq_ k !! t = Some w -> 0 <= c ->
  exists r extra a, SendLabelExchange k t b s c
      = set_pending k (cl_refs k - r) (cl_suspended k ++ extra) a
    /\ send_outcome (false, t, s) r extra.
Proof.
  intros Hw Hc. unfold SendLabelExchange.
  rewrite (touch_present _ _ _ Hw), set_acks_same.
  destruct (label_obsolete k t s c) eqn:Hob.
  { exists 1, [], (aggregator_ k). rewrite app_nil_r. split; [done | constructor]. }
  assert (Hc' : c <= RETRANSMIT_LIMIT).
  { unfold label_obsolete in Hob. destruct (Z.leb_spec c RETRANSMIT_LIMIT); [done | discriminate]. }
  unfold RETRANSMIT_LIMIT in *.
  destruct (Clone b) as [error [cb|]];
    destruct (hand_over (aggregator_ k) t b COMMUNICATION_LABEL_EXCHANGE) as [[errCode b'] a];
    destruct (errCode =? E_OK); try destruct (error =? E_OK).
  all: try (exists 0, [], a; rewrite app_nil_r, Z.sub_0_r; split; [done | constructor]).
  all: eexists 0, [_], a; rewrite Z.sub_0_r; split; [reflexivity |].
  all: constructor; [done |]; intros ????? [= <- <- <- <- <-]; unfold RETRANSMIT_LIMIT.
  all: try rewrite (wrap_small 32); lia.
Qed.

Lemma send_ack_shape k t b s id w :
  ackTriggerId_ k !! t = Some w ->
  exists r extra a, SendLabelExchangeAck k t b s id
      = set_pending k (cl_refs k - r) (cl_suspended k ++ extra) a
    /\ send_outcome (true, t, id) r extra.
Proof.
  intros Hw. unfold SendLabelExchangeAck.
  rewrite (touch_present _ _ _ Hw), set_acks_same.
  destruct (ack_obsolete k t s id).
  { exists 1, [], (aggregator_ k). rewrite app_nil_r. split; [done | constructor]. }
  destruct (hand_over (aggregator_ k) t b COMMUNICATION_LABEL_EXCHANGE_ACK) as [[errCode b'] a].
  destruct (errCode =? E_OK).
  - exists 1, [], a. rewrite app_nil_r. split; [done | constructor].
  - eexists 0, [_], a. rewrite Z.sub_0_r. split; [reflexivity |].
    constructor; [done | discriminate].
Qed.

(** Sending keeps the invariant when the key is not pending and one more reference than
    there are timers is held. *)
Lemma outcome_inv k key r extra a :
  linker_inv k -> key ∉ pending_keys (cl_suspended k) ->
  Z.of_nat (length (cl_suspended k)) + 1 <= cl_refs k ->
  match key with
  | (false, t, s) => exists w, waitAckSeq_ k !! t = Some w /\ s <= w
  | (true, t, id) => exists w, ackTriggerId_ k !! t = Some w /\ id <= w
  end ->
  send_outcome key r extra ->
  linker_inv (set_pending k (cl_refs k - r) (cl_suspended k ++ extra) a).
Proof.
  intros [] Hfresh Hrefs Hkey Hout. constructor; simpl; try done.
  - apply Forall_app. split; [done |].
    destruct Hout as [| action Hk Hc |]; constructor; [| constructor].
    destruct action; simpl in *; subst key; simpl in *; [| done].
    split; [done | by eapply Hc].
  - unfold pending_keys in *. rewrite map_app. apply NoDup_app. split; [done |].
    destruct Hout as [| action Hk Hc |]; simpl.
    1, 3: split; [by intros ? _ ?%not_elem_of_nil | constructor].
    split; [| apply NoDup_singleton].
    intros x Hx ->%list_elem_of_singleton. by rewrite Hk in Hx.
  - rewrite length_app. destruct Hout; simpl; lia.
Qed.

(** * Preservation *)

Lemma pending_fresh k (b : bool) (t : cstring) (s : Z) :
  linker_inv k ->
  (if b then incAckTriggerId_ k <= s else incSequenceId_ k <= s) ->
  (b, t, s) ∉ pending_keys (cl_suspended k).
Proof.
  intros [] Hs (action & Hkey & Hin)%list_elem_of_fmap.
  rewrite Forall_forall in li_actions0. specialize (li_actions0 _ Hin).
  destruct action; simpl in *; simplify_eq.
  - destruct li_actions0 as [(w & Hw & ?) ?]. apply li_wait0 in Hw. lia.
  - destruct li_actions0 as (w & Hw & ?). apply li_ack0 in Hw. lia.
Qed.

Lemma action_ok_mono k k' :
  (forall t w, waitAckSeq_ k !! t = Some w -> exists w', waitAckSeq_ k' !! t = Some w' /\ w <= w') ->
  (forall t w, ackTriggerId_ k !! t = Some w -> exists w', ackTriggerId_ k' !! t = Some w' /\ w <= w') ->
  forall action, action_ok k action -> action_ok k' action.
Proof.
  intros Hw Ha [t b s c d | t b s id d]; simpl.
  - intros [(w & Hk & ?) ?]. destruct (Hw _ _ Hk) as (w' & ? & ?). split; [| done].
    exists w'. split; [done | lia].
  - intros (w & Hk & ?). destruct (Ha _ _ Hk) as (w' & ? & ?). exists w'. split; [done | lia].
Qed.

Lemma insert_mono (m : gmap cstring Z) t s :
  (forall w, m !! t = Some w -> w <= s) ->
  forall t' w, m !! t' = Some w -> exists w', <[t := s]> m !! t' = Some w' /\ w <= w'.
Proof.
  intros Hm t' w Hw. destruct (decide (t' = t)) as [-> |].
  - exists s. split; [by rewrite lookup_insert_eq | by apply Hm].
  - exists w. split; [by rewrite lookup_insert_ne | lia].
Qed.

Lemma same_mono (m : gmap cstring Z) :
  forall t w, m !! t = Some w -> exists w', m !! t = Some w' /\ w <= w'.
Proof. intros t w Hw. exists w. split; [done | lia]. Qed.

(** The state in which [SendLabelExchange] is called by a new event. *)
Lemma label_event_inv k t :
  linker_inv k ->
  let seq := incSequenceId_ k in
  linker_inv (IncObjRef (set_acks (set_counters k (seq + 1) (incAckTriggerId_ k))
    (<[t := seq]> (waitAckSeq_ k)) (recvAckSeq_ k) (ackTriggerId_ k))).
Proof.
  intros [] seq.
  assert (Hmono : forall t' w, waitAckSeq_ k !! t' = Some w ->
    exists w', <[t := seq]> (waitAckSeq_ k) !! t' = Some w' /\ w <= w').
  { apply insert_mono. intros w Hw. apply li_wait0 in Hw. lia. }
  constructor; simpl; try done; try lia.
  - intros t' s [[-> <-] | [? Hs]]%lookup_insert_Some; [lia |]. apply li_wait0 in Hs. lia.
  - intros t' s Hs. destruct (li_recv0 _ _ Hs) as (w & Hw & ?).
    destruct (Hmono _ _ Hw) as (w' & ? & ?). exists w'. split; [done | lia].
  - eapply Forall_impl; [exact li_actions0 |]. apply action_ok_mono; [done | apply same_mono].
Qed.

Lemma ack_event_inv k t :
  linker_inv k ->
  let id := incAckTriggerId_ k in
  linker_inv (IncObjRef (set_acks (set_counters k (incSequenceId_ k) (id + 1))
    (waitAckSeq_ k) (recvAckSeq_ k) (<[t := id]> (ackTriggerId_ k)))).
Proof.
  intros [] id. constructor; simpl; try done; try lia.
  - intros t' s [[-> <-] | [? Hs]]%lookup_insert_Some; [lia |]. apply li_ack0 in Hs. lia.
  - eapply Forall_impl; [exact li_actions0 |]. apply action_ok_mono; [apply same_mono |].
    apply insert_mono. intros w Hw. apply li_ack0 in Hw. lia.
Qed.

Lemma set_counters_inv k seq ack :
  linker_inv k -> incSequenceId_ k <= seq -> incAckTriggerId_ k <= ack ->
  linker_inv (set_counters k seq ack).
Proof.
  intros [] Hseq Hack. constructor; simpl; try done; try lia.
  - intros t s Hs%li_wait0. lia.
  - intros t s Hs%li_ack0. lia.
Qed.

Lemma trigger_label_inv k t :
  linker_inv k -> incSequenceId_ k + 1 < 2 ^ 64 ->
  linker_inv (snd (TriggerLabelExchangeEvent k t)).
Proof.
  intros Hinv Hwrap. pose proof (li_seq_range _ Hinv).
  assert (Hc : linker_inv (set_counters k (incSequenceId_ k + 1) (incAckTriggerId_ k)))
    by (apply set_counters_inv; [done | lia | lia]).
  unfold TriggerLabelExchangeEvent. rewrite (wrap_small 64) by lia.
  destruct (BuildLabelExchange _ _ _) as [error [b|]]; [| done].
  destruct (negb (error =? E_OK)); [done |].
  destruct (match waitAckSeq_ _ !! t with None => false | Some _ => _ end); [done |].
  pose proof (label_event_inv k t Hinv) as Hev. simpl in Hev.
  match goal with |- linker_inv (snd (_, SendLabelExchange ?k1 _ ?b ?s ?c)) =>
    destruct (send_label_shape k1 t b s c (incSequenceId_ k)) as (r & extra & a & Heq & Hout) end.
  { simpl. by rewrite lookup_insert_eq. }
  { lia. }
  cbn [snd]. rewrite Heq. apply outcome_inv with (key := (false, t, incSequenceId_ k)); [done | | | | done].
  - simpl. apply pending_fresh; [done | lia].
  - simpl. pose proof (li_refs _ Hinv). lia.
  - exists (incSequenceId_ k). simpl. rewrite lookup_insert_eq. split; [done | lia].
Qed.

Lemma trigger_ack_inv k t s :
  linker_inv k -> incAckTriggerId_ k + 1 < 2 ^ 64 ->
  linker_inv (snd (TriggerLabelExchangeAckEvent k t s)).
Proof.
  intros Hinv Hwrap. pose proof (li_ack_range _ Hinv).
  unfold TriggerLabelExchangeAckEvent.
  destruct (BuildLabelExchangeAck _ _) as [errCode [b|]]; [| done].
  destruct (negb (errCode =? E_OK)); [done |]. rewrite (wrap_small 64) by lia.
  pose proof (ack_event_inv k t Hinv) as Hev. simpl in Hev.
  match goal with |- linker_inv (snd (_, SendLabelExchangeAck ?k1 _ ?b ?s ?c)) =>
    destruct (send_ack_shape k1 t b s c (incAckTriggerId_ k)) as (r & extra & a & Heq & Hout) end.
  { simpl. by rewrite lookup_insert_eq. }
  cbn [snd]. rewrite Heq. apply outcome_inv with (key := (true, t, incAckTriggerId_ k)); [done | | | | done].
  - simpl. apply pending_fresh; [done | lia].
  - simpl. pose proof (li_refs _ Hinv). lia.
  - exists (incAckTriggerId_ k). simpl. rewrite lookup_insert_eq. split; [done | lia].
Qed.

(** What sending never touches. *)
Record same_view k k' : Prop := {
  sv_local : localOnlineLabels_ k' = localOnlineLabels_ k;
  sv_remote : remoteOnlineTarget_ k' = remoteOnlineTarget_ k;
  sv_labels : targetMapOnlineLabels_ k' = targetMapOnlineLabels_ k;
  sv_distinct : targetDistinctValue_ k' = targetDistinctValue_ k;
  sv_top : topRecvLabelSeq_ k' = topRecvLabelSeq_ k;
  sv_recv : recvAckSeq_ k' = recvAckSeq_ k;
  sv_own : localDistinctValue_ k' = localDistinctValue_ k
}.

Lemma same_view_refl k : same_view k k.
Proof. by constructor. Qed.

Lemma same_view_trans k1 k2 k3 : same_view k1 k2 -> same_view k2 k3 -> same_view k1 k3.
Proof. intros [] []. constructor; congruence. Qed.

Lemma send_label_view k t b s c :
  same_view k (SendLabelExchange k t b s c)
  /\ incSequenceId_ (SendLabelExchange k t b s c) = incSequenceId_ k.
Proof.
  unfold SendLabelExchange. destruct (label_obsolete k t s c); [by repeat constructor |].
  destruct (Clone b) as [error [cb|]]; destruct (hand_over _ _ _ _) as [[errCode b'] a];
    destruct (errCode =? E_OK); try destruct (error =? E_OK); by repeat constructor.
Qed.

Lemma send_ack_view k t b s id : same_view k (SendLabelExchangeAck k t b s id).
Proof.
  unfold SendLabelExchangeAck. destruct (ack_obsolete k t s id); [by constructor |].
  destruct (hand_over _ _ _ _) as [[errCode b'] a]. destruct (errCode =? E_OK); by constructor.
Qed.

Lemma trigger_label_view k t :
  same_view k (snd (TriggerLabelExchangeEvent k t))
  /\ incSequenceId_ (snd (TriggerLabelExchangeEvent k t)) = u64 (incSequenceId_ k + 1).
Proof.
  unfold TriggerLabelExchangeEvent.
  destruct (BuildLabelExchange _ _ _) as [error [b|]]; [| by repeat constructor].
  destruct (negb (error =? E_OK)); [by repeat constructor |].
  destruct (match waitAckSeq_ _ !! t with None => false | Some _ => _ end); [by repeat constructor |].
  match goal with |- context[SendLabelExchange ?k1 t ?b ?s ?c] =>
    destruct (send_label_view k1 t b s c) as [Hv Hs] end.
  simpl in *. split; [| exact Hs]. eapply same_view_trans; [| exact Hv]. by constructor.
Qed.

Lemma trigger_ack_view k t s : same_view k (snd (TriggerLabelExchangeAckEvent k t s)).
Proof.
  unfold TriggerLabelExchangeAckEvent.
  destruct (BuildLabelExchangeAck _ _) as [errCode [b|]]; [| apply same_view_refl].
  destruct (negb (errCode =? E_OK)); [apply same_view_refl |].
  eapply same_view_trans; [| apply send_ack_view]. by constructor.
Qed.

Lemma trigger_all_view k targets : same_view k (snd (trigger_all k targets)).
Proof.
  revert k. induction targets as [| t targets IH]; intros k; simpl; [apply same_view_refl |].
  pose proof (proj1 (trigger_label_view k t)) as Hv.
  destruct (TriggerLabelExchangeEvent k t) as [errCode k1].
  specialize (IH k1). destruct (trigger_all k1 targets) as [everFail k2]. simpl in *.
  by eapply same_view_trans.
Qed.

Lemma trigger_all_inv k targets :
  linker_inv k -> incSequenceId_ k + Z.of_nat (length targets) < 2 ^ 64 ->
  linker_inv (snd (trigger_all k targets)).
Proof.
  revert k. induction targets as [| t targets IH]; intros k Hinv Hwrap; simpl in *; [done |].
  assert (Hk : incSequenceId_ k + 1 < 2 ^ 64) by lia.
  pose proof (trigger_label_inv k t Hinv Hk) as Hinv1.
  pose proof (proj2 (trigger_label_view k t)) as Hseq.
  pose proof (li_seq_range _ Hinv).
  rewrite (wrap_small 64) in Hseq by lia.
  destruct (TriggerLabelExchangeEvent k t) as [errCode k1]. simpl in *.
  specialize (IH k1 Hinv1). destruct (trigger_all k1 targets) as [everFail k2]. simpl in *.
  apply IH. lia.
Qed.

Lemma set_online_inv k local remote labels :
  linker_inv k -> linker_inv (set_online k local remote labels).
Proof. intros []. by constructor. Qed.

Lemma set_exchange_inv k distinct top :
  linker_inv k -> dom top ⊆ dom distinct -> linker_inv (set_exchange k distinct top).
Proof. intros [] Hdom. by constructor. Qed.

Lemma detect_inv k t d : linker_inv k -> linker_inv (DetectDistinctValueChange k t d).
Proof.
  intros Hinv. pose proof (li_top _ Hinv). unfold DetectDistinctValueChange.
  destruct (targetDistinctValue_ k !! t) as [old|]; [destruct (old =? d); [done |] |].
  all: apply set_exchange_inv; [done | set_solver].
Qed.

Lemma detect_known k t d : is_Some (targetDistinctValue_ (DetectDistinctValueChange k t d) !! t).
Proof.
  unfold DetectDistinctValueChange.
  destruct (targetDistinctValue_ k !! t) as [old|] eqn:Hold; [destruct (old =? d) |]; simpl.
  - by rewrite Hold.
  - by rewrite lookup_insert_eq.
  - by rewrite lookup_insert_eq.
Qed.

(** * Steps *)

(** The entry points of the linker, a timer that is due, and a change of the aggregator's
    state by others. *)
Inductive linker_step k : CommunicatorLinker A -> Prop :=
  | step_online t out : linker_step k (snd (TargetOnline k t out))
  | step_offline t : linker_step k (snd (TargetOffline k t))
  | step_increase label out : linker_step k (snd (IncreaseLocalLabel k label out))
  | step_decrease label : linker_step k (snd (DecreaseLocalLabel k label))
  | step_exchange t labels d s out : linker_step k (snd (ReceiveLabelExchange k t labels d s out))
  | step_ack t d s : linker_step k (snd (ReceiveLabelExchangeAck k t d s))
  | step_timer l1 action l2 : cl_suspended k = l1 ++ action :: l2 ->
      linker_step k (timer_due (set_pending k (cl_refs k) (l1 ++ l2) (aggregator_ k)) action)
  | step_other a : linker_step k (set_aggregator k a).

(** The 64-bit counters do not wrap in the next step. *)
Definition far_from_wrap k : Prop :=
  incSequenceId_ k + Z.of_nat (size (remoteOnlineTarget_ k)) + 1 < 2 ^ 64
  /\ incAckTriggerId_ k + 1 < 2 ^ 64.

Lemma timer_inv k l1 action l2 :
  linker_inv k -> cl_suspended k = l1 ++ action :: l2 ->
  linker_inv (timer_due (set_pending k (cl_refs k) (l1 ++ l2) (aggregator_ k)) action).
Proof.
  intros Hinv Hs. pose proof Hinv as []. rewrite Hs in *.
  assert (Hrest : linker_inv (set_pending k (cl_refs k) (l1 ++ l2) (aggregator_ k))).
  { constructor; simpl; try done.
    - rewrite Forall_app, Forall_cons in li_actions0.
      rewrite Forall_app. by destruct li_actions0 as (? & ? & ?).
    - unfold pending_keys in *. rewrite map_app in *. simpl in *.
      rewrite <- Permutation_middle in li_nodup0. by inversion li_nodup0.
    - rewrite length_app in *. simpl in *. lia. }
  assert (Hfresh : pending_key action ∉ pending_keys (l1 ++ l2)).
  { unfold pending_keys in *. rewrite map_app in *. simpl in *.
    rewrite <- Permutation_middle in li_nodup0. by inversion li_nodup0. }
  assert (Hlen : Z.of_nat (length (l1 ++ l2)) + 1 <= cl_refs k)
    by (rewrite length_app in *; simpl in *; lia).
  assert (Hok : action_ok k action).
  { rewrite Forall_app, Forall_cons in li_actions0. by destruct li_actions0 as (? & ? & ?). }
  destruct action as [t b s c d | t b s id d]; simpl in *.
  - destruct Hok as [(w & Hw & ?) ?].
    destruct (send_label_shape (set_pending k (cl_refs k) (l1 ++ l2) (aggregator_ k)) t b s c w)
      as (r & extra & a & -> & Hout); [done | lia |].
    apply outcome_inv with (key := (false, t, s)); simpl; try done. by exists w.
  - destruct Hok as (w & Hw & ?).
    destruct (send_ack_shape (set_pending k (cl_refs k) (l1 ++ l2) (aggregator_ k)) t b s id w)
      as (r & extra & a & -> & Hout); [done |].
    apply outcome_inv with (key := (true, t, id)); simpl; try done. by exists w.
Qed.

Lemma detect_counters k t d :
  incSequenceId_ (DetectDistinctValueChange k t d) = incSequenceId_ k
  /\ incAckTriggerId_ (DetectDistinctValueChange k t d) = incAckTriggerId_ k
  /\ waitAckSeq_ (DetectDistinctValueChange k t d) = waitAckSeq_ k
  /\ recvAckSeq_ (DetectDistinctValueChange k t d) = recvAckSeq_ k
  /\ targetMapOnlineLabels_ (DetectDistinctValueChange k t d) = targetMapOnlineLabels_ k
  /\ remoteOnlineTarget_ (DetectDistinctValueChange k t d) = remoteOnlineTarget_ k
  /\ localOnlineLabels_ (DetectDistinctValueChange k t d) = localOnlineLabels_ k.
Proof.
  unfold DetectDistinctValueChange.
  destruct (targetDistinctValue_ k !! t) as [old|]; [destruct (old =? d) |]; done.
Qed.

Lemma receive_exchange_inv k t labels d s out :
  linker_inv k -> incAckTriggerId_ k + 1 < 2 ^ 64 ->
  linker_inv (snd (ReceiveLabelExchange k t labels d s out)).
Proof.
  intros Hinv Hwrap. unfold ReceiveLabelExchange.
  pose proof (detect_inv k t d Hinv) as Hd. pose proof (detect_known k t d) as Hknown.
  destruct (detect_counters k t d) as (_ & Hack & _).
  set (k1 := DetectDistinctValueChange k t d) in *. clearbody k1.
  destruct (match topRecvLabelSeq_ k1 !! t with None => false | Some _ => _ end); [done |].
  match goal with |- context[TriggerLabelExchangeAckEvent ?k2 t s] =>
    pose proof (trigger_ack_inv k2 t s) as Ht;
    destruct (TriggerLabelExchangeAckEvent k2 t s) as [e k3] end.
  simpl in *. apply Ht; [| lia].
  apply set_online_inv, set_exchange_inv; [done |].
  rewrite dom_insert. pose proof (li_top _ Hd). apply elem_of_dom in Hknown. set_solver.
Qed.

Lemma receive_ack_inv k t d s : linker_inv k -> linker_inv (snd (ReceiveLabelExchangeAck k t d s)).
Proof.
  intros Hinv. unfold ReceiveLabelExchangeAck.
  pose proof (detect_inv k t d Hinv) as Hd.
  set (k1 := DetectDistinctValueChange k t d) in *. clearbody k1.
  destruct (waitAckSeq_ k1 !! t) as [w|] eqn:Hw; [| done].
  destruct (Z.ltb_spec w s) as [| Hle]; [done |].
  destruct (match recvAckSeq_ k1 !! t with None => false | Some _ => _ end); [done |].
  simpl. destruct Hd. constructor; simpl; try done.
  intros t' s' [[<- <-] | [? Hs]]%lookup_insert_Some; [by exists w | by apply li_recv0].
Qed.

Lemma linker_step_inv k k' :
  linker_inv k -> far_from_wrap k -> linker_step k k' -> linker_inv k'.
Proof.
  intros Hinv [Hseq Hack] Hstep. pose proof Hinv as [].
  destruct Hstep as [t out | t | label out | label | t labels d s out | t d s | l1 action l2 Hs | a].
  - unfold TargetOnline.
    destruct (bool_decide (t ∈ remoteOnlineTarget_ k)).
    all: match goal with |- context[TriggerLabelExchangeEvent ?k1 ?t1] =>
      pose proof (trigger_label_inv k1 t1) as Ht;
      destruct (TriggerLabelExchangeEvent k1 t1) as [errCode k2] end; simpl in *.
    all: apply Ht; [first [done | by apply set_online_inv] | lia].
  - simpl. apply set_exchange_inv; [by apply set_online_inv |]. rewrite !dom_delete_L. set_solver.
  - unfold IncreaseLocalLabel.
    match goal with |- context[trigger_all ?k1 ?l] =>
      pose proof (trigger_all_inv k1 l) as Ht; destruct (trigger_all k1 l) as [everFail k2] end.
    simpl in *. apply Ht; [by apply set_online_inv |].
    rewrite set_in_order_perm. unfold size, set_size in Hseq. simpl in *. lia.
  - unfold DecreaseLocalLabel.
    match goal with |- context[trigger_all ?k1 ?l] =>
      pose proof (trigger_all_inv k1 l) as Ht; destruct (trigger_all k1 l) as [everFail k2] end.
    simpl in *. apply Ht; [by apply set_online_inv |].
    rewrite set_in_order_perm. unfold size, set_size in Hseq. simpl in *. lia.
  - by apply receive_exchange_inv.
  - by apply receive_ack_inv.
  - by apply timer_inv.
  - by constructor.
Qed.

(** Runs in which the 64-bit counters do not wrap around. *)
Definition linker_run : relation (CommunicatorLinker A) :=
  rtc (fun k k' => far_from_wrap k /\ linker_step k k').

Lemma new_linker_inv a curTime : linker_inv (Initialize (newLinker a) curTime).
Proof.
  constructor; simpl; try done; try lia; try by intros ? ? ?%lookup_empty_Some.
  - constructor.
Qed.

(** C6: In every state a linker can reach by its entry points, its timers and any
    activity of the aggregator, every pending timer holds a reference on the linker (so
    the linker is not freed under a timer), no two pending timers are for the same label
    exchange or the same acknowledgement, every pending retransmission is for a sequence
    not above the one the target is waited for and within the retransmission limit, every
    acknowledged sequence was sent, and every recorded sequence was issued. *)
Theorem linker_invariant a curTime k :
  linker_run (Initialize (newLinker a) curTime) k -> linker_inv k.
Proof.
  intros Hrun. pose proof (new_linker_inv a curTime) as Hinv.
  induction Hrun as [| k1 k2 k3 [Hfar Hstep] _ IH]; [done |].
  apply IH. by eapply linker_step_inv.
Qed.

(** * Receiving label exchanges *)

Lemma set_to_map_const (X : gset LabelType) (v : bool) x u :
  (set_to_map (fun label => (label, v)) X : gmap LabelType bool) !! x = Some u <-> x ∈ X /\ u = v.
Proof.
  rewrite lookup_set_to_map by naive_solver. naive_solver.
Qed.

Lemma change_labels_spec (before latest : gset LabelType) x (v : bool) :
  change_labels before latest !! x = Some v <->
  (if v then x ∈ latest /\ x ∉ before else x ∈ before /\ x ∉ latest).
Proof.
  unfold change_labels. rewrite lookup_union_Some_raw.
  rewrite !set_to_map_const, <- (not_elem_of_dom (D := gset LabelType)).
  assert (Hd : x ∈ dom (set_to_map (fun label => (label, true)) (latest ∖ before)
                  : gmap LabelType bool) <-> x ∈ latest ∖ before).
  { rewrite elem_of_dom. unfold is_Some. setoid_rewrite set_to_map_const. naive_solver. }
  rewrite Hd. destruct v; set_solver.
Qed.

(** The labels a listener has after the changes it was told. *)
Definition replay (labels : gset LabelType) (changes : gmap LabelType bool) : gset LabelType :=
  (labels ∪ dom (filter (fun e => snd e = true) changes))
  ∖ dom (filter (fun e => snd e = false) changes).

Lemma elem_of_replay labels changes x :
  x ∈ replay labels changes <-> match changes !! x with Some v => v = true | None => x ∈ labels end.
Proof.
  unfold replay. rewrite elem_of_difference, elem_of_union, !elem_of_dom. unfold is_Some.
  setoid_rewrite map_lookup_filter_Some. simpl.
  destruct (changes !! x) as [[] |]; naive_solver.
Qed.

Lemma replay_change_labels before latest : replay before (change_labels before latest) = latest.
Proof.
  apply set_eq. intros x. rewrite elem_of_replay.
  pose proof (change_labels_spec before latest x) as Hs.
  destruct (change_labels before latest !! x) as [v|] eqn:Hx.
  - specialize (Hs v). destruct v; naive_solver.
  - pose proof (Hs true). pose proof (Hs false).
    destruct (decide (x ∈ before)), (decide (x ∈ latest)); naive_solver.
Qed.

Lemma replay_empty labels : replay labels ∅ = labels.
Proof. apply set_eq. intros x. by rewrite elem_of_replay, lookup_empty. Qed.

(** The highest sequence received from the process of [t] with distinct value [d]. *)
Definition known_seq k (t : cstring) (d : Z) : option Z :=
  if decide (targetDistinctValue_ k !! t = Some d) then topRecvLabelSeq_ k !! t else None.

Definition stale k t d (s : Z) : bool :=
  match known_seq k t d with Some top => s <? top | None => false end.

Definition exchange_wf k : Prop := dom (topRecvLabelSeq_ k) ⊆ dom (targetDistinctValue_ k).

Lemma detect_spec k t d :
  exchange_wf k ->
  topRecvLabelSeq_ (DetectDistinctValueChange k t d) !! t = known_seq k t d
  /\ targetDistinctValue_ (DetectDistinctValueChange k t d) !! t = Some d
  /\ exchange_wf (DetectDistinctValueChange k t d)
  /\ (targetDistinctValue_ k !! t = Some d -> DetectDistinctValueChange k t d = k).
Proof.
  intros Hwf. unfold DetectDistinctValueChange, known_seq, exchange_wf in *.
  destruct (targetDistinctValue_ k !! t) as [old|] eqn:Hold; [destruct (Z.eqb_spec old d) as [-> |] |].
  - rewrite decide_True by done. by rewrite Hold.
  - rewrite decide_False by congruence. simpl. rewrite lookup_delete_eq, lookup_insert_eq.
    split; [done | split; [done | split; [set_solver | congruence]]].
  - rewrite decide_False by congruence. simpl. rewrite lookup_insert_eq.
    split; [| split; [done | split; [set_solver | congruence]]].
    apply not_elem_of_dom. apply not_elem_of_dom in Hold. set_solver.
Qed.

Lemma receive_exchange_spec k t labels d s out :
  exchange_wf k ->
  let '((errCode, out'), k') := ReceiveLabelExchange k t labels d s out in
  if stale k t d s then errCode = - E_OUT_OF_DATE /\ out' = out /\ k' = k
  else errCode = E_OK /\ out' = change_labels (labels_of k t) labels ∪ out
    /\ targetMapOnlineLabels_ k' = <[t := labels]> (targetMapOnlineLabels_ k)
    /\ known_seq k' t d = Some s /\ exchange_wf k'
    /\ remoteOnlineTarget_ k' = remoteOnlineTarget_ k
    /\ localOnlineLabels_ k' = localOnlineLabels_ k.
Proof.
  intros Hwf. unfold ReceiveLabelExchange.
  destruct (detect_spec k t d Hwf) as (Htop & Hd & Hwf' & Hsame).
  destruct (detect_counters k t d) as (_ & _ & _ & _ & Hlabels & Hremote & Hlocal).
  rewrite Htop. fold (stale k t d s).
  destruct (stale k t d s) eqn:Hst.
  { split; [done | split; [done |]]. apply Hsame.
    unfold stale, known_seq in Hst. by destruct (decide _). }
  set (k1 := DetectDistinctValueChange k t d) in *. clearbody k1.
  match goal with |- context[TriggerLabelExchangeAckEvent ?k2 t s] =>
    pose proof (trigger_ack_view k2 t s) as Hv;
    destruct (TriggerLabelExchangeAckEvent k2 t s) as [e k3] end.
  destruct Hv as [Hv1 Hv2 Hv3 Hv4 Hv5 _ _]. simpl in *. unfold labels_of; simpl.
  rewrite Hlabels in *. split; [done | split; [done | split; [done | split; [| split]]]].
  - unfold known_seq. rewrite decide_True by congruence. by rewrite Hv5, lookup_insert_eq.
  - unfold exchange_wf in *. rewrite Hv4, Hv5, dom_insert_L.
    apply elem_of_dom_2 in Hd. set_solver.
  - split; congruence.
Qed.

(** Label exchanges of one process of the target arrive one after the other: [history]
    gives the labels the process had at each of its sequence numbers. The result lists the
    changes reported by each of them. *)
Fixpoint receive_all k (t : cstring) (d : Z) (history : Z -> gset LabelType) (seqs : list Z)
    : list (gmap LabelType bool) * CommunicatorLinker A :=
  match seqs with
  | [] => ([], k)
  | s :: seqs =>
    let '((_, changes), k) := ReceiveLabelExchange k t (history s) d s ∅ in
    let '(rest, k) := receive_all k t d history seqs in
    (changes :: rest, k)
  end.

Definition highest (known : option Z) (seqs : list Z) : option Z :=
  foldl (fun top s => Some (match top with Some top => Z.max top s | None => s end)) known seqs.

Lemma receive_one_spec k t d history s :
  exchange_wf k ->
  (forall top, known_seq k t d = Some top -> labels_of k t = history top) ->
  let '((_, changes), k') := ReceiveLabelExchange k t (history s) d s ∅ in
  exchange_wf k'
  /\ known_seq k' t d = highest (known_seq k t d) [s]
  /\ (forall top, known_seq k' t d = Some top -> labels_of k' t = history top)
  /\ replay (labels_of k t) changes = labels_of k' t
  /\ remoteOnlineTarget_ k' = remoteOnlineTarget_ k
  /\ (forall t', t' <> t -> labels_of k' t' = labels_of k t').
Proof.
  intros Hwf Hhist. pose proof (receive_exchange_spec k t (history s) d s ∅ Hwf) as Hspec.
  destruct (ReceiveLabelExchange k t (history s) d s ∅) as [[errCode changes] k'].
  destruct (stale k t d s) eqn:Hst.
  - destruct Hspec as (_ & -> & ->). rewrite replay_empty. simpl.
    split; [done | split; [| done]]. unfold stale in Hst.
    destruct (known_seq k t d) as [top|]; [| done]. apply Z.ltb_lt in Hst. f_equal. lia.
  - destruct Hspec as (_ & -> & Hlabels & Hknown & Hwf' & Hremote & _).
    assert (Hl : labels_of k' t = history s)
      by (unfold labels_of; by rewrite Hlabels, lookup_insert_eq).
    rewrite (right_id_L ∅ (∪)), Hl, replay_change_labels, Hknown.
    split; [done | split; [| split; [naive_solver | split; [done | split; [done |]]]]].
    + simpl. unfold stale in Hst. destruct (known_seq k t d) as [top|]; [| done].
      apply Z.ltb_ge in Hst. f_equal. lia.
    + intros t' Ht. unfold labels_of. by rewrite Hlabels, lookup_insert_ne.
Qed.

Lemma receive_all_spec k t d history seqs :
  exchange_wf k ->
  (forall top, known_seq k t d = Some top -> labels_of k t = history top) ->
  let '(changes, k') := receive_all k t d history seqs in
  known_seq k' t d = highest (known_seq k t d) seqs
  /\ (forall top, known_seq k' t d = Some top -> labels_of k' t = history top)
  /\ foldl replay (labels_of k t) changes = labels_of k' t
  /\ remoteOnlineTarget_ k' = remoteOnlineTarget_ k
  /\ (forall t', t' <> t -> labels_of k' t' = labels_of k t').
Proof.
  revert k. induction seqs as [| s seqs IH]; intros k Hwf Hhist; simpl; [done |].
  pose proof (receive_one_spec k t d history s Hwf Hhist) as Hone.
  destruct (ReceiveLabelExchange k t (history s) d s ∅) as [[errCode changes] k1].
  destruct Hone as (Hwf1 & Hknown1 & Hhist1 & Hrep1 & Hrem1 & Hoth1).
  specialize (IH k1 Hwf1 Hhist1). destruct (receive_all k1 t d history seqs) as [rest k2].
  destruct IH as (Hknown & Hh & Hrep & Hrem & Hoth).
  split; [by rewrite Hknown, Hknown1 | split; [done | split; [| split]]].
  - simpl. by rewrite Hrep1.
  - congruence.
  - intros t' Ht. by rewrite Hoth, Hoth1.
Qed.

Lemma highest_max known seqs :
  seqs <> [] ->
  exists top, highest known seqs = Some top
    /\ (forall s, s ∈ seqs -> s <= top)
    /\ (top ∈ seqs \/ known = Some top)
    /\ (forall s, known = Some s -> s <= top).
Proof.
  intros Hne. revert known. induction seqs as [| s seqs IH]; intros known; [done |].
  destruct seqs as [| s' seqs].
  - destruct known as [top|]; simpl.
    + exists (Z.max top s). split; [done |]. split; [| split].
      * intros x ->%list_elem_of_singleton. lia.
      * destruct (Z.max_spec top s) as [[? ->] | [? ->]]; [left; by apply list_elem_of_singleton | by right].
      * intros x [= ->]. lia.
    + exists s. split; [done |]. split; [| split; [left; by apply list_elem_of_singleton | done]].
      intros x ->%list_elem_of_singleton. lia.
  - destruct (IH ltac:(done) (Some (match known with Some top => Z.max top s | None => s end)))
      as (top & Htop & Hall & Hin & Hknown).
    exists top. split; [exact Htop |].
    specialize (Hknown _ eq_refl). split; [| split].
    + intros x [-> | Hx]%elem_of_cons; [destruct known; lia | by apply Hall].
    + destruct Hin as [? | [= Hk]]; [left; by right |].
      destruct known as [k0|]; [| left; subst; by left].
      destruct (Z.max_spec k0 s) as [[? Hm] | [? Hm]]; rewrite Hm in Hk; subst;
        [left; by left | by right].
    + intros x ->. lia.
Qed.

(** C7: Whatever the order in which the label exchanges of a process arrive, with
    duplicates and losses, the linker ends with the labels of the highest sequence among
    the ones received, a listener that applies the reported changes one after the other
    ends with exactly these labels, and nothing is recorded for other targets. *)
Theorem exchange_order_independent k t d history seqs :
  dom (topRecvLabelSeq_ k) ⊆ dom (targetDistinctValue_ k) ->
  (forall top, known_seq k t d = Some top -> labels_of k t = history top) ->
  seqs <> [] ->
  let '(changes, k') := receive_all k t d history seqs in
  exists top,
    (top ∈ seqs \/ known_seq k t d = Some top)
    /\ (forall s, s ∈ seqs \/ known_seq k t d = Some s -> s <= top)
    /\ known_seq k' t d = Some top
    /\ labels_of k' t = history top
    /\ foldl replay (labels_of k t) changes = history top
    /\ (forall t', t' <> t -> labels_of k' t' = labels_of k t').
Proof.
  intros Hwf Hhist Hne. pose proof (receive_all_spec k t d history seqs Hwf Hhist) as Hall.
  destruct (receive_all k t d history seqs) as [changes k'].
  destruct Hall as (Hknown & Hh & Hrep & _ & Hoth).
  destruct (highest_max (known_seq k t d) seqs Hne) as (top & Htop & Hle & Hin & Hk).
  rewrite Htop in Hknown. exists top. specialize (Hh _ Hknown).
  split; [done | split; [naive_solver | split; [done | split; [done | split; [congruence | done]]]]].
Qed.


(** * Retransmission *)

(** An obsolete label exchange is not sent: its reference is released. *)
Lemma send_obsolete k t b s c :
  label_obsolete k t s c = true ->
  SendLabelExchange k t b s c
  = DecObjRef (set_acks k (touch (waitAckSeq_ k) t) (recvAckSeq_ k) (ackTriggerId_ k)).
Proof. intros Hob. unfold SendLabelExchange. by rewrite Hob. Qed.

Lemma clone_ok b mem p :
  heap_total -> owned_wf b mem p ->
  exists b', Clone b = (E_OK, Some b') /\ owned_wf b' (slice p (totalLen_ b) mem) 0.
Proof.
  intros [_ Hnew] []. unfold Clone, owned_bytes. rewrite owf_ptr, owf_mem.
  rewrite Z.add_0_r. unfold MAX_TOTAL_LEN in *.
  destruct (Hnew (totalLen_ b)) as [mem' Hmem]; [lia |]. rewrite Hmem.
  apply heap_new_zlen in Hmem; [| lia].
  assert (Hs : zlen (slice p (totalLen_ b) mem) = totalLen_ b) by (apply zlen_slice; lia).
  rewrite memcpy_s_ok by (unfold SECUREC_MEM_MAX_LEN; lia).
  rewrite splice_full by lia. eexists. split; [reflexivity |].
  constructor; simpl; unfold MAX_TOTAL_LEN; auto; lia.
Qed.

(** ** One exchange *)

(** The timer that running an action sets, if any. *)
Definition next_timer k (action : Suspended) : option Suspended :=
  drop (length (cl_suspended k)) (cl_suspended (timer_due k action)) !! 0%nat.

(** Whether running an action hands a label exchange over and the aggregator takes it. *)
Definition label_taken k (action : Suspended) : bool :=
  match action with
  | SuspendLabel t b s c _ => negb (label_obsolete k t s c)
      && ((hand_over (aggregator_ k) t b COMMUNICATION_LABEL_EXCHANGE).1.1 =? E_OK)
  | SuspendAck _ _ _ _ _ => false
  end.

(** The actions of one exchange, each set by the one before and run in one of the states
    [ks]: whatever happens to the linker in between, [ks] are arbitrary. How often the
    exchange was sent, and the timer that is pending in the end. *)
Fixpoint exchange (ks : list (CommunicatorLinker A)) (pending : option Suspended) : nat * option Suspended :=
  match ks, pending with
  | k :: ks, Some action =>
    let '(n, pending) := exchange ks (next_timer k action) in
    ((if label_taken k action then 1 else 0) + n, pending)%nat
  | _, _ => (0%nat, pending)
  end.

(** [TriggerLabelExchangeEvent] runs the first action. *)
Lemma trigger_first_action k t :
  (TriggerLabelExchangeEvent k t).2 = set_counters k (u64 (incSequenceId_ k + 1)) (incAckTriggerId_ k)
  \/ exists k0 b, (TriggerLabelExchangeEvent k t).2 = timer_due k0 (SuspendLabel t b (incSequenceId_ k) 0 0)
       /\ cl_refs k0 = cl_refs k + 1 /\ cl_suspended k0 = cl_suspended k /\ aggregator_ k0 = aggregator_ k.
Proof.
  unfold TriggerLabelExchangeEvent. destruct (BuildLabelExchange _ _ _) as [e [b|]]; [| by left].
  destruct (negb (e =? E_OK)); [by left |]. destruct (match waitAckSeq_ _ !! t with None => _ | Some _ => _ end); [by left |].
  right. by eexists _, b.
Qed.

(** What running an action of the exchange can do: end it; be refused; be taken, without or
    with another timer. *)
Inductive label_outcome (t : cstring) (s c : Z) : bool -> option Suspended -> Prop :=
  | lo_ended : label_outcome t s c false None
  | lo_refused b : c <= RETRANSMIT_LIMIT ->
      label_outcome t s c false (Some (SuspendLabel t b s c TIME_LAPSE_FOR_RETRY_SEND))
  | lo_not_cloned : c <= RETRANSMIT_LIMIT -> label_outcome t s c true None
  | lo_taken b : c <= RETRANSMIT_LIMIT ->
      label_outcome t s c true (Some (SuspendLabel t b s (c + 1) (GetDynamicTimeLapseForWaitingAck c))).

Lemma next_timer_new k t b s c d l : cl_suspended (SendLabelExchange k t b s c) = cl_suspended k ++ l ->
  next_timer k (SuspendLabel t b s c d) = head l.
Proof. intros E. unfold next_timer. cbn [timer_due]. by rewrite E, drop_app_length, head_lookup. Qed.

Lemma label_step k t b s c d : 0 <= c ->
  label_outcome t s c (label_taken k (SuspendLabel t b s c d)) (next_timer k (SuspendLabel t b s c d)).
Proof.
  intros Hc. unfold label_taken. destruct (label_obsolete k t s c) eqn:Hob.
  { rewrite (next_timer_new k t b s c d []); [constructor |].
    rewrite send_obsolete by done. cbn. by rewrite app_nil_r. }
  assert (Hle : c <= RETRANSMIT_LIMIT).
  { unfold label_obsolete in Hob. destruct (Z.leb_spec c RETRANSMIT_LIMIT); done. }
  pose proof (next_timer_new k t b s c d) as Hnew. unfold SendLabelExchange in Hnew. rewrite Hob in Hnew.
  destruct (Clone b) as [error clone]. cbn [negb andb set_acks aggregator_] in *.
  destruct (hand_over (aggregator_ k) t b COMMUNICATION_LABEL_EXCHANGE) as [[e b'] a]. cbn [fst].
  destruct (e =? E_OK).
  - destruct clone as [b2|]; [destruct (error =? E_OK) |].
    + rewrite (Hnew _ eq_refl). cbn [head]. unfold RETRANSMIT_LIMIT in *. rewrite (wrap_small 32) by lia. by constructor.
    + rewrite (Hnew []) by (cbn; by rewrite app_nil_r). by constructor.
    + rewrite (Hnew []) by (cbn; by rewrite app_nil_r). by constructor.
  - rewrite (Hnew _ eq_refl). by constructor.
Qed.

(** The time to wait after the [n]th send: 5 s after the first 6, then 5 s times a square. *)
Definition lapse_after (n : nat) : Z :=
  if (n <=? 6)%nat then 5000 else (Z.of_nat n - 6) * (Z.of_nat n - 6) * 5000.

Lemma lapse_is n : (n <= 20)%nat -> GetDynamicTimeLapseForWaitingAck (Z.of_nat n) = lapse_after (S n).
Proof.
  intros Hn. unfold GetDynamicTimeLapseForWaitingAck, RETRANSMIT_LIMIT_EQUAL_INTERVAL, TIME_LAPSE_FOR_WAITING_ACK, lapse_after.
  destruct (Z.leb_spec (Z.of_nat n) 5), (Nat.leb_spec (S n) 6); try lia.
  rewrite (wrap_small 32 (Z.of_nat n - 5)) by lia. rewrite (wrap_small 32) by nia. nia.
Qed.

(** The pending timer counts the sends. *)
Definition counts (t : cstring) (s : Z) (n : nat) (fresh : Prop) (pending : option Suspended) : Prop :=
  match pending with
  | Some (SuspendLabel t' _ s' c d) => t' = t /\ s' = s /\ c = Z.of_nat n
      /\ (fresh \/ d = TIME_LAPSE_FOR_RETRY_SEND \/ (1 <= n)%nat /\ d = lapse_after n)
  | Some (SuspendAck _ _ _ _ _) => False
  | None => True
  end.

Lemma counts_next t s n fresh k action : (n <= 21)%nat -> counts t s n fresh (Some action) ->
  ((if label_taken k action then 1 else 0) + n <= 21)%nat
  /\ counts t s ((if label_taken k action then 1 else 0) + n) False (next_timer k action).
Proof.
  intros Hn Hc. destruct action as [t' b s' c d | ]; [| done]. destruct Hc as (-> & -> & -> & _).
  destruct (label_step k t b s (Z.of_nat n) d ltac:(lia)) as [| b' Hl | Hl | b' Hl]; cbn [counts].
  - split; [lia | done].
  - split; [lia |]. split_and!; [done | done | lia | by right; left].
  - split; [unfold RETRANSMIT_LIMIT in Hl; lia | done].
  - unfold RETRANSMIT_LIMIT in Hl. split; [lia |]. split_and!; [done | done | lia |]. right. right.
    split; [lia |]. apply lapse_is. lia.
Qed.

Lemma exchange_counts t s ks : forall n fresh pending, (n <= 21)%nat -> counts t s n fresh pending ->
  let '(n', pending') := exchange ks pending in
  (n' + n <= 21)%nat /\ counts t s (n' + n) (ks = [] /\ fresh) pending'.
Proof.
  induction ks as [|k ks IH]; intros n fresh pending Hn Hc; cbn [exchange].
  { split; [lia |]. destruct pending as [[] |]; cbn in *; naive_solver. }
  destruct pending as [action|]; [| split; [lia | done]].
  destruct (counts_next t s n fresh k action Hn Hc) as [Hn' Hc']. specialize (IH _ False _ Hn' Hc').
  destruct (exchange ks (next_timer k action)) as [n' pending']. destruct IH as [H1 H2].
  split; [lia |]. replace (n' + _)%nat with ((if label_taken k action then 1 else 0) + n' + n)%nat in H2 by lia.
  destruct pending' as [[t' b' s' c' d' | ] |]; cbn [counts] in *; [| done..]. naive_solver.
Qed.

(** The exchange [s] with [t] is current and not acknowledged, and the aggregator has room
    for a frame. *)
Definition awaiting (t : cstring) (s : Z) k : Prop :=
  t ∈ remoteOnlineTarget_ k /\ waitAckSeq_ k !! t = Some s
  /\ forall r, recvAckSeq_ k !! t = Some r -> r < s.

Definition has_room (t : cstring) k : Prop :=
  forall b mem, owned_wf b mem 0 -> (hand_over (aggregator_ k) t b COMMUNICATION_LABEL_EXCHANGE).1.1 = E_OK.

Lemma awaiting_needed t s k c :
  awaiting t s k -> label_obsolete k t s c = negb (c <=? RETRANSMIT_LIMIT).
Proof.
  intros (Hon & Hw & Hr). unfold label_obsolete.
  rewrite bool_decide_true by done. rewrite Hw. simpl. rewrite Z.ltb_irrefl, !orb_false_r.
  destruct (recvAckSeq_ k !! t) as [r|]; [| by rewrite orb_false_r].
  specialize (Hr r eq_refl). destruct (Z.leb_spec s r); [lia | by rewrite orb_false_r].
Qed.

(** One send with the limit not exceeded: the frame is taken, and a copy waits for its turn. *)
Lemma send_accepted t s k b mem c d : heap_total ->
  awaiting t s k -> has_room t k -> owned_wf b mem 0 -> 0 <= c <= RETRANSMIT_LIMIT ->
  label_taken k (SuspendLabel t b s c d) = true /\
  exists b' mem' d', next_timer k (SuspendLabel t b s c d) = Some (SuspendLabel t b' s (c + 1) d')
    /\ owned_wf b' mem' 0.
Proof.
  intros Hheap Haw Hroom Hwf Hc. pose proof (Hroom b mem Hwf) as He.
  pose proof (awaiting_needed t s k c Haw) as Hob. rewrite (proj2 (Z.leb_le _ _) (proj2 Hc)) in Hob.
  cbn [label_taken]. rewrite Hob, He. split; [done |].
  destruct (clone_ok b mem 0 Hheap Hwf) as (b' & Ec & Hwf').
  exists b', (slice 0 (totalLen_ b) mem), (GetDynamicTimeLapseForWaitingAck c). split; [| done].
  rewrite (next_timer_new k t b s c d [SuspendLabel t b' s (c + 1) (GetDynamicTimeLapseForWaitingAck c)]); [done |].
  unfold SendLabelExchange. rewrite Hob, Ec. cbn [set_acks aggregator_].
  destruct (hand_over (aggregator_ k) t b COMMUNICATION_LABEL_EXCHANGE) as [[e b2] a]. cbn [fst] in He. subst e.
  unfold RETRANSMIT_LIMIT in Hc. rewrite Z.eqb_refl. by rewrite (wrap_small 32) by lia.
Qed.

Lemma exchange_all_taken t s ks : heap_total -> Forall (fun k => awaiting t s k /\ has_room t k) ks ->
  forall b mem d (n : nat), owned_wf b mem 0 -> (n <= 21)%nat ->
  (exchange ks (Some (SuspendLabel t b s (Z.of_nat n) d))).1 = Nat.min (21 - n) (length ks).
Proof.
  intros Hheap. induction 1 as [|k ks [Haw Hroom] _ IH]; intros b mem d n Hwf Hn; cbn [exchange length]; [cbn; lia |].
  destruct (decide (n = 21%nat)) as [-> | Hne].
  - destruct (label_step k t b s (Z.of_nat 21) d ltac:(lia)) as [| b' Hl | Hl | b' Hl];
      [by destruct ks | unfold RETRANSMIT_LIMIT in Hl; lia..].
  - destruct (send_accepted t s k b mem (Z.of_nat n) d Hheap Haw Hroom Hwf) as (-> & b' & mem' & d' & -> & Hwf').
    { unfold RETRANSMIT_LIMIT. lia. }
    replace (Z.of_nat n + 1) with (Z.of_nat (S n)) by lia. specialize (IH b' mem' d' (S n) Hwf' ltac:(lia)).
    destruct (exchange ks _) as [n' p']. cbn [fst] in *. lia.
Qed.


(** * Superseded exchanges *)

(** The events that end the exchange [s] with [t]. *)
Inductive exchange_ends k (t : cstring) (s : Z) : CommunicatorLinker A -> Prop :=
  | ends_acked d s' : fst (ReceiveLabelExchangeAck k t d s') = E_OK -> s <= s' ->
      exchange_ends k t s (snd (ReceiveLabelExchangeAck k t d s'))
  | ends_offline : exchange_ends k t s (snd (TargetOffline k t))
  | ends_superseded : incSequenceId_ k + 1 < 2 ^ 64 ->
      fst (TriggerLabelExchangeEvent k t) = E_OK ->
      exchange_ends k t s (snd (TriggerLabelExchangeEvent k t)).

Lemma acked_recorded k t d s :
  fst (ReceiveLabelExchangeAck k t d s) = E_OK ->
  recvAckSeq_ (snd (ReceiveLabelExchangeAck k t d s)) !! t = Some s.
Proof.
  unfold ReceiveLabelExchangeAck.
  destruct (waitAckSeq_ _ !! t) as [w|]; [| discriminate].
  destruct (w <? s); [discriminate |].
  destruct (match recvAckSeq_ _ !! t with None => false | Some _ => _ end); [discriminate |].
  intros _. simpl. by rewrite lookup_insert_eq.
Qed.

Lemma superseded_recorded k t :
  linker_inv k -> incSequenceId_ k + 1 < 2 ^ 64 -> fst (TriggerLabelExchangeEvent k t) = E_OK ->
  waitAckSeq_ (snd (TriggerLabelExchangeEvent k t)) !! t = Some (incSequenceId_ k)
  \/ exists b, BuildLabelExchange (localDistinctValue_ k) (incSequenceId_ k)
       (localOnlineLabels_ k) = (E_OK, b) /\ b = None.
Proof.
  intros [] Hwrap. unfold TriggerLabelExchangeEvent. rewrite (wrap_small 64) by lia.
  cbn [localOnlineLabels_ localDistinctValue_ set_counters].
  destruct (BuildLabelExchange _ _ _) as [error [b|]]; simpl.
  2: { intros ->. right. by exists None. }
  destruct (Z.eqb_spec error E_OK) as [-> | Hne]; simpl; [| by intros].
  assert (Hab : match waitAckSeq_ k !! t with None => false
                | Some seq => incSequenceId_ k <? seq end = false).
  { destruct (waitAckSeq_ k !! t) as [w|] eqn:Hw; [| done].
    apply li_wait0 in Hw. apply Z.ltb_ge. lia. }
  rewrite Hab. intros _. left.
  match goal with |- context[SendLabelExchange ?k1 ?t1 ?b ?s ?c] =>
    destruct (send_label_shape k1 t1 b s c (incSequenceId_ k)) as (r & extra & a & Heq & _);
    [simpl; by rewrite lookup_insert_eq | lia | rewrite Heq] end.
  simpl. by rewrite lookup_insert_eq.
Qed.

(** A buffer is there whenever the label exchange was built. *)
Lemma build_label_exchange_some d s labels b :
  BuildLabelExchange d s labels = (E_OK, b) -> b <> None.
Proof.
  unfold BuildLabelExchange. destruct (negb heap_obj); [discriminate |].
  destruct (AllocBufferByPayloadLength _ _ _) as [errCode buffer].
  destruct (Z.eqb_spec errCode E_OK); simpl; [| congruence].
  destruct (GetWritableBytesForPayload buffer) as [[p|] len]; congruence.
Qed.

(** C11: Once the label exchange [s] was acknowledged (by its own or a later
    acknowledgement), the target went offline, or a newer exchange was triggered for the
    target, the timer still pending for [s] sends nothing when it is due: it releases its
    reference and schedules nothing. *)
Theorem ended_exchange_not_resent k t b s c dly k' :
  linker_inv k -> SuspendLabel t b s c dly ∈ cl_suspended k -> exchange_ends k t s k' ->
  let k2 := timer_due k' (SuspendLabel t b s c dly) in
  aggregator_ k2 = aggregator_ k' /\ cl_refs k2 = cl_refs k' - 1
  /\ cl_suspended k2 = cl_suspended k'.
Proof.
  intros Hinv Hin Hends. cbn [timer_due].
  rewrite send_obsolete; [done |]. unfold label_obsolete.
  destruct Hends as [d s' Hok Hle | | Hwrap Hok].
  - rewrite (acked_recorded _ _ _ _ Hok), (proj2 (Z.leb_le _ _) Hle). by rewrite orb_true_r.
  - rewrite bool_decide_false by (simpl; set_solver). by rewrite orb_true_r.
  - destruct (superseded_recorded k t Hinv Hwrap Hok) as [Hw | (b' & Hb & ->)];
      [| by apply build_label_exchange_some in Hb].
    rewrite Hw. simpl. pose proof (li_actions _ Hinv) as Hact. rewrite Forall_forall in Hact.
    destruct (Hact _ Hin) as [(w & Hw' & ?) _]. apply (li_wait _ Hinv) in Hw'.
    rewrite (proj2 (Z.ltb_lt _ _)) by lia. by rewrite orb_true_r.
Qed.

End Facts.

(** * Concrete runs *)

Module LinkerSample.

#[local] Existing Instance arm_host.
#[local] Existing Instance zero_heap.

(** An aggregator that accepts everything and remembers what it was given. *)
#[export] Instance log_aggregator : Aggregator (list (cstring * FrameType)) :=
  {| hand_over := fun a t b ty => ((E_OK, b), a ++ [(t, ty)]) |}.

Definition label1 : LabelType := replicate 32 x01.
Definition peer : cstring := [x70; x65; x65; x72].
Definition linker0 : CommunicatorLinker (list (cstring * FrameType)) :=
  Initialize (newLinker []) 1234567.
Definition linker1 := snd (TargetOnline linker0 peer ∅).
Definition linker2 := snd (IncreaseLocalLabel linker1 label1 ∅).

Lemma linker2_run : linker_run linker0 linker2.
Proof.
  eapply rtc_l; [split; [| apply (step_online linker0 peer ∅)] |].
  { vm_compute. split; reflexivity. }
  eapply rtc_l; [split; [| apply (step_increase linker1 label1 ∅)] | apply rtc_refl].
  vm_compute. split; reflexivity.
Qed.

Lemma linker_invariant_witness :
  linker_inv linker2 /\ length (cl_suspended linker2) = 2%nat /\ cl_refs linker2 = 2.
Proof.
  split; [| vm_compute; split; reflexivity].
  apply (linker_invariant [] 1234567). exact linker2_run.
Defined.

Lemma exchange_order_independent_witness :
  let history := fun s => if s =? 5 then {[label1]} else ∅ in
  let '(changes, k') := receive_all linker2 peer 99 history [3; 5; 4; 5] in
  exists top,
    (top ∈ [3; 5; 4; 5] \/ known_seq linker2 peer 99 = Some top)
    /\ (forall s, s ∈ [3; 5; 4; 5] \/ known_seq linker2 peer 99 = Some s -> s <= top)
    /\ known_seq k' peer 99 = Some top
    /\ labels_of k' peer = history top
    /\ foldl replay (labels_of linker2 peer) changes = history top
    /\ (forall t', t' <> peer -> labels_of k' t' = labels_of linker2 t').
Proof.
  apply (exchange_order_independent linker2 peer 99 (fun s => if s =? 5 then {[label1]} else ∅)
           [3; 5; 4; 5]).
  - vm_compute. intros x Hx. exact Hx.
  - intros top Htop. vm_compute in Htop. discriminate.
  - discriminate.
Defined.

(** An aggregator with room for two frames, which may be full when the timer fires. *)
Definition small_aggregator : Aggregator nat :=
  {| hand_over := fun a t b ty => if (2 <=? a)%nat then ((- E_CONTAINER_FULL, b), a) else ((E_OK, b), S a) |}.

(** The target is online and waits for exchange 0. *)
Definition waiting (a : nat) : CommunicatorLinker nat :=
  mkLinker 7 1 0 ∅ ∅ {[peer := 0]} ∅ ∅ {[label1]} {[peer]} ∅ 1 [] a.

Definition exchange_frame : SerialBuffer :=
  default emptySerialBuffer (BuildLabelExchange 7 0 {[label1]}).2.

(** The exchange is taken, refused twice while the queue is full, and taken again. *)
Example refused_not_counted :
  let '(n, pending) := exchange (Aggregator0 := small_aggregator) (map waiting [0; 2; 2; 1]%nat)
    (Some (SuspendLabel peer exchange_frame 0 0 0)) in
  n = 2%nat /\ exists b, pending = Some (SuspendLabel peer b 0 2 5000).
Proof. vm_compute. split; [reflexivity | by eexists]. Qed.


Definition pending0 : Suspended := default (SuspendAck [] emptySerialBuffer 0 0 0) (head (cl_suspended linker1)).

Lemma ended_exchange_not_resent_witness :
  exists b c dly, pending0 = SuspendLabel peer b 0 c dly /\
  let k' := snd (ReceiveLabelExchangeAck linker1 peer 99 0) in
  let k2 := timer_due k' (SuspendLabel peer b 0 c dly) in
  aggregator_ k2 = aggregator_ k' /\ cl_refs k2 = cl_refs k' - 1
  /\ cl_suspended k2 = cl_suspended k'.
Proof.
  eexists _, _, _. split; [vm_compute; reflexivity |].
  apply (ended_exchange_not_resent linker1 peer _ 0 _ _ _).
  - eapply linker_step_inv; [apply (new_linker_inv [] 1234567) | | apply step_online].
    vm_compute. split; reflexivity.
  - vm_compute. left.
  - apply (ends_acked linker1 peer 0 99 0); [vm_compute; reflexivity | lia].
Defined.

End LinkerSample.
