(* ===== verification/SendSide.v ===== *)
(** Model of the sending half of [CommunicatorAggregator]
    (communicator/src/communicator_aggregator.cpp): the state [CreateSendTask] works on,
    shared by the aggregator, its communicators and the linker. *)

From S2P Require Import Prelude Memory SerialBuffer CommTypes ProtocolProto AppMessage.
From S2P Require Import SendTaskScheduler CommunicatorLinker.
From Stdlib Require Import ZArith Lia.
From Stdlib Require Import Strings.Byte.
From stdpp Require Import base numbers list gmap.

Open Scope Z_scope.

Record ExtendInfo := mkExtendInfo {
  ei_appId : cstring;
  ei_storeId : cstring;
  ei_userId : cstring;
  ei_dstTarget : cstring
}.

(** What the aggregator uses of [IAdapter], whose state is [D]. [GetLocalIdentity] leaves
    the empty string when it fails. *)
Class Adapter (D : Type) := {
  GetLocalIdentity : D -> cstring;
  GetMtuSize : D -> cstring -> Z;
  SendBytes : D -> cstring -> list byte -> Z * D;
  GetExtendHeaderHandle : D -> ExtendInfo -> option ExtendHeaderHandle
}.

Record TaskConfig := mkTaskConfig {
  tc_nonBlock : bool;
  tc_timeout : Z;
  tc_prio : Priority
}.

Record SendSide {D : Type} := mkSendSide {
  scheduler_ : SendTaskScheduler;
  incFrameId_ : Z;
  localSourceId_ : Z;
  wakingSignal_ : bool;
  shutdown_ : bool;
  adapterHandle_ : D
}.

Arguments SendSide : clear implicits.
Arguments mkSendSide {D}.

(** A call of an [OnSendEnd] callback with its result. *)
Abbreviation SendEnd := (Z * Z)%type.

Section Send.
Context `{Host} `{Heap} {D : Type} `{!Adapter D}.
Implicit Types s : SendSide D.

Definition set_scheduler s (sched : SendTaskScheduler) : SendSide D :=
  mkSendSide sched (incFrameId_ s) (localSourceId_ s) (wakingSignal_ s) (shutdown_ s)
    (adapterHandle_ s).

Definition set_waking s (signal : bool) : SendSide D :=
  mkSendSide (scheduler_ s) (incFrameId_ s) (localSourceId_ s) signal (shutdown_ s)
    (adapterHandle_ s).

Definition set_adapter s (d : D) : SendSide D :=
  mkSendSide (scheduler_ s) (incFrameId_ s) (localSourceId_ s) (wakingSignal_ s) (shutdown_ s) d.

(** [incFrameId_.fetch_add(1)] on a 32-bit counter. *)
Definition next_frame_id s : Z * SendSide D :=
  (incFrameId_ s,
   mkSendSide (scheduler_ s) (u32 (incFrameId_ s + 1)) (localSourceId_ s) (wakingSignal_ s)
     (shutdown_ s) (adapterHandle_ s)).

Definition GenerateLocalSourceId s : SendSide D :=
  mkSendSide (scheduler_ s) (incFrameId_ s) (HashFunc (GetLocalIdentity (adapterHandle_ s)))
    (wakingSignal_ s) (shutdown_ s) (adapterHandle_ s).

Definition ReGenerateLocalSourceIdIfNeed s : bool * SendSide D :=
  let s := GenerateLocalSourceId s in
  (negb (localSourceId_ s =? 0), s).

(** The callback runs in a task of the runtime context. *)
Definition DoOnSendEndByTaskIfNeed (onEnd : option Z) (result : Z) : list SendEnd :=
  match onEnd with Some callback => [(callback, result)] | None => [] end.

(** The part of [CreateSendTask] before the task is added: the early returns with their
    result, the buffer left to the caller and the callbacks, or the task. *)
Definition prepare_send s (dstTarget : cstring) (inBuff : option SerialBuffer)
    (inType : FrameType) (onEnd : option Z)
    : ((Z * option SerialBuffer) * list SendEnd + SendTask) * SendSide D :=
  match inBuff with
  | None => (inl ((- E_INVALID_ARGS, None), []), s)
  | Some inBuff =>
    let '(known, s) := ReGenerateLocalSourceIdIfNeed s in
    if negb known
    then (inl ((E_OK, None), DoOnSendEndByTaskIfNeed onEnd (- E_PERIPHERAL_INTERFACE_FAIL)), s)
    else
      let '(frameId, s) := next_frame_id s in
      let info := mkPhyHeaderInfo (localSourceId_ s) frameId inType in
      let '(errCode, inBuff) := SetPhyHeader (Some inBuff) info in
      match inBuff with
      | None => (inl ((errCode, None), []), s)
      | Some buffer =>
        if negb (errCode =? E_OK) then (inl ((errCode, Some buffer), []), s)
        else (inr (mkSendTask buffer dstTarget onEnd), s)
      end
  end.

(** The part after the task was added, or not. *)
Definition send_added s (task : SendTask) (errCode : Z)
    : ((Z * option SerialBuffer) * list SendEnd) * SendSide D :=
  if negb (errCode =? E_OK) then (((errCode, Some (st_buffer task)), []), s)
  else (((E_OK, None), []), set_waking s true).

Definition add_task s (task : SendTask) (prio : Priority) : Z * SendSide D :=
  let '(errCode, sched) := AddSendTaskIntoSchedule (scheduler_ s) task prio in
  (errCode, set_scheduler s sched).

(** [CreateSendTask] with a non-blocking configuration. *)
Definition create_nonblock s (dstTarget : cstring) (inBuff : option SerialBuffer)
    (inType : FrameType) (inPrio : Priority) (onEnd : option Z)
    : ((Z * option SerialBuffer) * list SendEnd) * SendSide D :=
  match prepare_send s dstTarget inBuff inType onEnd with
  | (inl result, s) => (result, s)
  | (inr task, s) =>
    let '(errCode, s) := add_task s task inPrio in
    send_added s task errCode
  end.

(** The wait on [retryCv_] with its predicate: each element of [wakes] is what the other
    threads did to the state before a wake-up; the predicate is evaluated first and after
    each of them. The boolean says whether the predicate held in the end. *)
Fixpoint retry_wait s (task : SendTask) (prio : Priority) (wakes : list (SendSide D -> SendSide D))
    : bool * SendSide D :=
  if shutdown_ s then (true, s)
  else
    let '(retCode, s) := add_task s task prio in
    if retCode =? E_OK then (true, s)
    else match wakes with
         | [] => (false, s)
         | other :: wakes => retry_wait (other s) task prio wakes
         end.

(** [None]: an unlimited wait that is not over. *)
Definition RetryUntilTimeout s (inTask : SendTask) (timeout : Z) (inPrio : Priority)
    (wakes : list (SendSide D -> SendSide D)) : option (Z * SendSide D) :=
  let '(errCode, s) := add_task s inTask inPrio in
  if errCode =? E_OK then Some (E_OK, s)
  else
    let '(done, s) := retry_wait s inTask inPrio wakes in
    if (timeout =? 0) && negb done then None
    else if shutdown_ s then Some (E_OK, s)
    else if negb done then Some (- E_TIMEOUT, s)
    else Some (E_OK, s).

Definition CreateSendTask s (dstTarget : cstring) (inBuff : option SerialBuffer)
    (inType : FrameType) (inConfig : TaskConfig) (onEnd : option Z)
    (wakes : list (SendSide D -> SendSide D))
    : option (((Z * option SerialBuffer) * list SendEnd) * SendSide D) :=
  match prepare_send s dstTarget inBuff inType onEnd with
  | (inl result, s) => Some (result, s)
  | (inr task, s) =>
    '(errCode, s) ← (if tc_nonBlock inConfig then Some (add_task s task (tc_prio inConfig))
                     else RetryUntilTimeout s task (tc_timeout inConfig) (tc_prio inConfig) wakes);
    Some (send_added s task errCode)
  end.

(** The linker's view of the aggregator. *)
#[export] Instance send_aggregator : Aggregator (SendSide D) :=
  {| hand_over := fun s t b ty =>
       let '(((errCode, rest), _), s) := create_nonblock s t (Some b) ty HIGH None in
       ((errCode, default b rest), s) |}.

(** [TriggerVersionNegotiation] of the aggregator and of the communicator. *)
Definition TriggerVersionNegotiation s (dstTarget : cstring) : SendSide D :=
  match BuildEmptyFrameForVersionNegotiate with
  | (errCode, buffer) =>
    if negb (errCode =? E_OK) then s
    else snd (create_nonblock s dstTarget buffer EMPTY HIGH None)
  end.

End Send.
