(* ===== verification/Communicator.v ===== *)
(** Model of [Communicator] (communicator/src/communicator.cpp): the endpoint of one
    label, between the aggregator and the module above. Calls of the callbacks that the
    modules above registered are reported as events. *)

From S2P Require Import Prelude Memory SerialBuffer CommTypes ProtocolProto AppMessage.
From S2P Require Import SendTaskScheduler SendSide.
From Stdlib Require Import ZArith Lia.
From Stdlib Require Import Strings.Byte.
From stdpp Require Import base numbers list gmap.

Open Scope Z_scope.

(** A callback is its identity, [None] when it is empty. *)
Abbreviation callback := (option Z).

(** [RegCallBack]: the result, the callback now registered with its finalizer, and the
    finalizer that was called. *)
Definition RegCallBack {T} (newCallback oldCallback : option T)
    (newFinalizer oldFinalizer : callback) : (Z * callback) * (option T * callback) :=
  match newCallback, oldCallback with
  | Some _, Some _ => ((- E_ALREADY_REGISTER, None), (oldCallback, oldFinalizer))
  | Some _, None => ((E_OK, None), (newCallback, newFinalizer))
  | None, Some _ => ((E_OK, oldFinalizer), (None, None))
  | None, None => ((- E_NOT_PERMIT, None), (oldCallback, oldFinalizer))
  end.

Record Communicator := mkCommunicator {
  cm_commLabel_ : LabelType;
  onlineTargets_ : gset cstring;
  onMessageHandle_ : callback;
  cm_onConnectHandle_ : callback;
  onSendableHandle_ : callback;
  onMessageFinalizer_ : callback;
  cm_onConnectFinalizer_ : callback;
  onSendableFinalizer_ : callback
}.

(** The constructor. *)
Definition newCommunicator (inLabel : LabelType) : Communicator :=
  mkCommunicator inLabel ∅ None None None None None None.

Section Events.
Context {Obj : Type}.

(** [Terminated]: an exception left the communication thread. [UndefinedBehaviour]: the
    front of an empty list was read. *)
Inductive Event :=
  | OnMessage (label : LabelType) (srcTarget : cstring) (inMsg : Message Obj)
  | OnConnect (label : LabelType) (target : cstring) (isConnect : bool)
  | OnSendable (label : LabelType)
  | OnProcessConnect (target : cstring) (isConnect : bool)
  | OnSendEnd (onEnd : Z) (result : Z)
  | OnFinalize (finalizer : Z)
  | Terminated
  | UndefinedBehaviour.

End Events.

Arguments Event : clear implicits.

Section Comm.
Context `{Host} `{Heap} {D : Type} `{!Adapter D} {Obj : Type}.
Variable msgIdMapFunc_ : Registry Obj.
Implicit Types s : SendSide D.
Implicit Types c : Communicator.

Definition finalizer_events (finalizer : callback) : list (Event Obj) :=
  match finalizer with Some f => [OnFinalize f] | None => [] end.

Definition RegOnMessageCallback c (onMessage inOper : callback) : (Z * list (Event Obj)) * Communicator :=
  let '((errCode, called), (handle, finalizer)) :=
    RegCallBack onMessage (onMessageHandle_ c) inOper (onMessageFinalizer_ c) in
  ((errCode, finalizer_events called),
   mkCommunicator (cm_commLabel_ c) (onlineTargets_ c) handle (cm_onConnectHandle_ c)
     (onSendableHandle_ c) finalizer (cm_onConnectFinalizer_ c) (onSendableFinalizer_ c)).

(** A new connect callback is told the targets that are already online. *)
Definition RegOnConnectCallback c (onConnect inOper : callback) : (Z * list (Event Obj)) * Communicator :=
  let '((errCode, called), (handle, finalizer)) :=
    RegCallBack onConnect (cm_onConnectHandle_ c) inOper (cm_onConnectFinalizer_ c) in
  let told := match onConnect with
              | Some _ => if errCode =? E_OK
                          then map (fun target => OnConnect (cm_commLabel_ c) target true)
                                 (set_in_order (onlineTargets_ c))
                          else []
              | None => []
              end in
  ((errCode, finalizer_events called ++ told),
   mkCommunicator (cm_commLabel_ c) (onlineTargets_ c) (onMessageHandle_ c) handle
     (onSendableHandle_ c) (onMessageFinalizer_ c) finalizer (onSendableFinalizer_ c)).

Definition RegOnSendableCallback c (onSendable inOper : callback) : (Z * list (Event Obj)) * Communicator :=
  let '((errCode, called), (handle, finalizer)) :=
    RegCallBack onSendable (onSendableHandle_ c) inOper (onSendableFinalizer_ c) in
  ((errCode, finalizer_events called),
   mkCommunicator (cm_commLabel_ c) (onlineTargets_ c) (onMessageHandle_ c) (cm_onConnectHandle_ c)
     handle (onMessageFinalizer_ c) (cm_onConnectFinalizer_ c) finalizer).

Definition set_onlineTargets c (targets : gset cstring) : Communicator :=
  mkCommunicator (cm_commLabel_ c) targets (onMessageHandle_ c) (cm_onConnectHandle_ c)
    (onSendableHandle_ c) (onMessageFinalizer_ c) (cm_onConnectFinalizer_ c)
    (onSendableFinalizer_ c).

Definition OnConnectChange c (target : cstring) (isConnect : bool)
    : list (Event Obj) * Communicator :=
  match target with
  | [] => ([], c)
  | _ :: _ =>
    let c := set_onlineTargets c
      (if isConnect then {[target]} ∪ onlineTargets_ c else onlineTargets_ c ∖ {[target]}) in
    match cm_onConnectHandle_ c with
    | Some _ => ([OnConnect (cm_commLabel_ c) target isConnect], c)
    | None => ([], c)
    end
  end.

Definition OnSendAvailable c : list (Event Obj) :=
  match onSendableHandle_ c with
  | Some _ => [OnSendable (cm_commLabel_ c)]
  | None => []
  end.

(** The common body of [TriggerUnknownMessageFeedback] and
    [TriggerCommunicatorNotFoundFeedback]: a request is answered by its header with an
    error number. *)
Definition send_feedback s (dstTarget : cstring) (label : LabelType)
    (oriMsg : option (Message Obj)) (errorNo : Z) : list (Event Obj) * SendSide D :=
  match oriMsg with
  | None => ([], s)
  | Some oriMsg =>
    if negb (messageType_ oriMsg =? TYPE_REQUEST) then ([], s)
    else
      let oriMsg := SetErrorNo (snd (SetMessageType oriMsg TYPE_RESPONSE)) errorNo in
      match BuildFeedbackMessageFrame msgIdMapFunc_ (Some oriMsg) label with
      | None => ([Terminated], s)
      | Some (errCode, buffer) =>
        if negb (errCode =? E_OK) then ([], s)
        else ([], snd (create_nonblock s dstTarget buffer APPLICATION_MESSAGE HIGH None))
      end
  end.

Definition TriggerUnknownMessageFeedback c s (dstTarget : cstring) (oriMsg : option (Message Obj))
    : list (Event Obj) * SendSide D :=
  send_feedback s dstTarget (cm_commLabel_ c) oriMsg E_FEEDBACK_UNKNOWN_MESSAGE.

Definition OnBufferReceive c s (srcTarget : cstring) (inBuf : option SerialBuffer)
    : list (Event Obj) * SendSide D :=
  match srcTarget, inBuf, onMessageHandle_ c with
  | _ :: _, Some inBuf, Some _ =>
    match ToMessage msgIdMapFunc_ (Some inBuf) false with
    | None => ([Terminated], s)
    | Some (error, message) =>
      if negb (error =? E_OK) then
        if error =? - E_VERSION_NOT_SUPPORT then ([], TriggerVersionNegotiation s srcTarget)
        else if error =? - E_NOT_REGISTER
        then TriggerUnknownMessageFeedback c s srcTarget message
        else ([], s)
      else match message with
           | Some message => ([OnMessage (cm_commLabel_ c) srcTarget message], s)
           | None => ([], s)
           end
    end
  | _, _, _ => ([], s)
  end.

Record SendConfig := mkSendConfig {
  sc_nonBlock : bool;
  sc_isNeedExtendHead : bool;
  sc_timeout : Z;
  sc_paramInfo : ExtendInfo
}.

(** [None]: an exception, or a wait that is not over. *)
Definition SendMessage c s (dstTarget : cstring) (inMsg : option (Message Obj))
    (config : SendConfig) (onEnd : option Z) (wakes : list (SendSide D -> SendSide D))
    : option ((Z * list SendEnd) * SendSide D) :=
  match dstTarget, inMsg with
  | _ :: _, Some inMsg =>
    let extendHandle := if sc_isNeedExtendHead config
                        then GetExtendHeaderHandle (adapterHandle_ s) (sc_paramInfo config)
                        else None in
    if sc_isNeedExtendHead config && is_null extendHandle
    then Some ((- E_FEEDBACK_COMMUNICATOR_NOT_FOUND, []), s)
    else
      '(error, buffer) ← ToSerialBuffer msgIdMapFunc_ (Some inMsg) extendHandle false;
      if negb (error =? E_OK) then Some ((error, []), s)
      else
        let '(errCode, buffer) := SetDivergeHeader buffer (cm_commLabel_ c) in
        if negb (errCode =? E_OK) then Some ((errCode, []), s)
        else
          '(((errCode, _), ends), s) ←
            CreateSendTask s dstTarget buffer APPLICATION_MESSAGE
              (mkTaskConfig (sc_nonBlock config) (sc_timeout config) (prio_ inMsg)) onEnd wakes;
          Some ((errCode, ends), s)
  | _, _ => Some ((- E_INVALID_ARGS, []), s)
  end.

End Comm.
