(* ===== verification/CommunicatorAggregator.v ===== *)
(** Model of [CommunicatorAggregator] (communicator/src/communicator_aggregator.cpp): it
    owns the communicators, the combiner, the retainer, the linker and the scheduler,
    sends what they hand over and dispatches what the adapter receives. *)

From S2P Require Import Prelude Memory SerialBuffer FrameHeader CommTypes ProtocolProto.
From S2P Require Import Fragmentation FrameCombiner AppMessage SendTaskScheduler FrameRetainer.
From S2P Require Import CommunicatorLinker SendSide Communicator.
From Stdlib Require Import ZArith Lia.
From Stdlib Require Import Strings.Byte.
From stdpp Require Import base numbers list gmap.

Open Scope Z_scope.

(** [onCommLackHandle_] is asked whether to retain a frame for a label nobody serves; its
    answer is a status. The state [CreateSendTask] works on is reached through the linker,
    which holds the aggregator. [events]: the callbacks that were called, in order. *)
Record CommunicatorAggregator {D Obj : Type} := mkAggregator {
  commMap_ : gmap LabelType (Communicator * bool);
  combiner_ : FrameCombiner;
  retainer_ : FrameRetainer;
  commLinker_ : CommunicatorLinker (SendSide D);
  versionMap_ : gmap cstring Z;
  onCommLackHandle_ : option (LabelType -> cstring -> Z);
  onCommLackFinalizer_ : callback;
  onConnectHandle_ : callback;
  onConnectFinalizer_ : callback;
  isCommunicatorNotFoundFeedbackEnable_ : bool;
  events : list (Event Obj)
}.

Arguments CommunicatorAggregator : clear implicits.
Arguments mkAggregator {D Obj}.

Section Aggr.
Context `{Host} `{Heap} {D : Type} `{!Adapter D} {Obj : Type}.
Variable msgIdMapFunc_ : Registry Obj.
Implicit Types g : CommunicatorAggregator D Obj.

Definition send_side g : SendSide D := aggregator_ (commLinker_ g).

(** * Record updates *)

Definition set_commMap g (m : gmap LabelType (Communicator * bool)) : CommunicatorAggregator D Obj :=
  mkAggregator m (combiner_ g) (retainer_ g) (commLinker_ g) (versionMap_ g) (onCommLackHandle_ g)
    (onCommLackFinalizer_ g) (onConnectHandle_ g) (onConnectFinalizer_ g)
    (isCommunicatorNotFoundFeedbackEnable_ g) (events g).

Definition set_combiner g (c : FrameCombiner) : CommunicatorAggregator D Obj :=
  mkAggregator (commMap_ g) c (retainer_ g) (commLinker_ g) (versionMap_ g) (onCommLackHandle_ g)
    (onCommLackFinalizer_ g) (onConnectHandle_ g) (onConnectFinalizer_ g)
    (isCommunicatorNotFoundFeedbackEnable_ g) (events g).

Definition set_retainer g (r : FrameRetainer) : CommunicatorAggregator D Obj :=
  mkAggregator (commMap_ g) (combiner_ g) r (commLinker_ g) (versionMap_ g) (onCommLackHandle_ g)
    (onCommLackFinalizer_ g) (onConnectHandle_ g) (onConnectFinalizer_ g)
    (isCommunicatorNotFoundFeedbackEnable_ g) (events g).

Definition set_linker g (k : CommunicatorLinker (SendSide D)) : CommunicatorAggregator D Obj :=
  mkAggregator (commMap_ g) (combiner_ g) (retainer_ g) k (versionMap_ g) (onCommLackHandle_ g)
    (onCommLackFinalizer_ g) (onConnectHandle_ g) (onConnectFinalizer_ g)
    (isCommunicatorNotFoundFeedbackEnable_ g) (events g).

Definition set_send_side g (s : SendSide D) : CommunicatorAggregator D Obj :=
  set_linker g (set_aggregator (commLinker_ g) s).

Definition set_connect g (handle finalizer : callback) : CommunicatorAggregator D Obj :=
  mkAggregator (commMap_ g) (combiner_ g) (retainer_ g) (commLinker_ g) (versionMap_ g)
    (onCommLackHandle_ g) (onCommLackFinalizer_ g) handle finalizer
    (isCommunicatorNotFoundFeedbackEnable_ g) (events g).

Definition set_lack g (handle : option (LabelType -> cstring -> Z)) (finalizer : callback)
    : CommunicatorAggregator D Obj :=
  mkAggregator (commMap_ g) (combiner_ g) (retainer_ g) (commLinker_ g) (versionMap_ g)
    handle finalizer (onConnectHandle_ g) (onConnectFinalizer_ g)
    (isCommunicatorNotFoundFeedbackEnable_ g) (events g).

Definition SetRemoteCommunicatorVersion g (target : cstring) (version : Z)
    : CommunicatorAggregator D Obj :=
  mkAggregator (commMap_ g) (combiner_ g) (retainer_ g) (commLinker_ g)
    (<[target := version]> (versionMap_ g)) (onCommLackHandle_ g) (onCommLackFinalizer_ g)
    (onConnectHandle_ g) (onConnectFinalizer_ g) (isCommunicatorNotFoundFeedbackEnable_ g) (events g).

Definition emit g (es : list (Event Obj)) : CommunicatorAggregator D Obj :=
  mkAggregator (commMap_ g) (combiner_ g) (retainer_ g) (commLinker_ g) (versionMap_ g)
    (onCommLackHandle_ g) (onCommLackFinalizer_ g) (onConnectHandle_ g) (onConnectFinalizer_ g)
    (isCommunicatorNotFoundFeedbackEnable_ g) (events g ++ es).

(** An action of a communicator on the sending side. *)
Definition on_send_side g (action : SendSide D -> list (Event Obj) * SendSide D)
    : CommunicatorAggregator D Obj :=
  let '(es, s) := action (send_side g) in emit (set_send_side g s) es.

(** [commMap_.count(label) != 0 && commMap_.at(label).second]. *)
Definition activated g (label : LabelType) : option Communicator :=
  match commMap_ g !! label with
  | Some (c, true) => Some c
  | _ => None
  end.

(** * Communicators *)

Definition AllocCommunicator g (commLabel : LabelType) : (Z * bool) * CommunicatorAggregator D Obj :=
  if negb (zlen commLabel =? COMM_LABEL_LENGTH) then ((- E_INVALID_ARGS, false), g)
  else match commMap_ g !! commLabel with
       | Some _ => ((- E_ALREADY_ALLOC, false), g)
       | None =>
         if negb heap_obj then ((- E_OUT_OF_MEMORY, false), g)
         else ((E_OK, true),
               set_commMap g (<[commLabel := (newCommunicator commLabel, false)]> (commMap_ g)))
       end.

(** The label of a 64-bit number: its big-endian bytes, then zeros. *)
Definition realLabel (commLabel : Z) : LabelType :=
  store_int 8 (HostToNet 8 commLabel) ++ replicate (Z.to_nat (COMM_LABEL_LENGTH - 8)) x00.

Definition ReleaseCommunicator g (commLabel : LabelType) : CommunicatorAggregator D Obj :=
  match commMap_ g !! commLabel with
  | None => g
  | Some _ =>
    let g := set_commMap g (delete commLabel (commMap_ g)) in
    let '(_, k) := DecreaseLocalLabel (commLinker_ g) commLabel in
    set_linker g k
  end.

(** [OnConnectChange] of the communicator of a label. *)
Definition connect_change g (label : LabelType) (target : cstring) (isConnect : bool)
    : CommunicatorAggregator D Obj :=
  match commMap_ g !! label with
  | None => g
  | Some (c, active) =>
    let '(es, c) := OnConnectChange c target isConnect in
    emit (set_commMap g (<[label := (c, active)]> (commMap_ g))) es
  end.

Definition deliver g (label : LabelType) (srcTarget : cstring) (buffer : option SerialBuffer)
    : CommunicatorAggregator D Obj :=
  match commMap_ g !! label with
  | None => g
  | Some (c, _) => on_send_side g (fun s => OnBufferReceive msgIdMapFunc_ c s srcTarget buffer)
  end.

Definition ActivateCommunicator g (commLabel : LabelType) : CommunicatorAggregator D Obj :=
  match commMap_ g !! commLabel with
  | None => g
  | Some (_, true) => g
  | Some (c, false) =>
    let g := set_commMap g (<[commLabel := (c, true)]> (commMap_ g)) in
    let '((_, onlineTargets), k) := IncreaseLocalLabel (commLinker_ g) commLabel ∅ in
    let g := set_linker g k in
    let g := fold_left (fun g target => connect_change g commLabel target true)
               (set_in_order onlineTargets) g in
    let '(framesToRedeliver, r) := FetchFramesForSpecificCommunicator (retainer_ g) commLabel in
    let g := set_retainer g r in
    fold_left (fun g frame => deliver g commLabel (fi_srcTarget frame) (fi_buffer frame))
      framesToRedeliver g
  end.

Definition AllocCommunicator64 g (commLabel : Z) : (Z * bool) * CommunicatorAggregator D Obj :=
  AllocCommunicator g (realLabel commLabel).

Definition RegCommunicatorLackCallback g (onCommLack : option (LabelType -> cstring -> Z))
    (inOper : callback) : Z * CommunicatorAggregator D Obj :=
  let '((errCode, called), (handle, finalizer)) :=
    RegCallBack onCommLack (onCommLackHandle_ g) inOper (onCommLackFinalizer_ g) in
  (errCode, emit (set_lack g handle finalizer) (finalizer_events called)).

Definition EnableCommunicatorNotFoundFeedback g (isEnable : bool) : CommunicatorAggregator D Obj :=
  mkAggregator (commMap_ g) (combiner_ g) (retainer_ g) (commLinker_ g) (versionMap_ g)
    (onCommLackHandle_ g) (onCommLackFinalizer_ g) (onConnectHandle_ g) (onConnectFinalizer_ g)
    isEnable (events g).

(** The payload that fits into a packet to a target. *)
Definition GetCommunicatorAggregatorMtuSize g (target : cstring) : Z :=
  u32 (GetMtuSize (adapterHandle_ (send_side g)) target - GetLengthBeforeSerializedData).

Definition aggr_RegOnConnectCallback g (onConnect inOper : callback)
    : Z * CommunicatorAggregator D Obj :=
  let '((errCode, called), (handle, finalizer)) :=
    RegCallBack onConnect (onConnectHandle_ g) inOper (onConnectFinalizer_ g) in
  let told := match onConnect with
              | Some _ => if errCode =? E_OK
                          then map (fun target => OnProcessConnect target true)
                                 (set_in_order (GetOnlineRemoteTarget (commLinker_ g)))
                          else []
              | None => []
              end in
  (errCode, emit (set_connect g handle finalizer) (finalizer_events called ++ told)).

(** [None]: no record. *)
Definition GetRemoteCommunicatorVersion g (target : cstring) : option Z := versionMap_ g !! target.

(** * Sending *)

Definition NotifySendableToAllCommunicator g : CommunicatorAggregator D Obj :=
  fold_left (fun g label =>
    match activated g label with
    | Some c => emit g (OnSendAvailable c)
    | None => g
    end) (set_in_order (dom (commMap_ g))) g.

Definition TaskFinalizer g (inTask : SendTask) (result : Z) : CommunicatorAggregator D Obj :=
  let g := match st_onEnd inTask with
           | Some onEnd => emit g [OnSendEnd onEnd result]
           | None => g
           end in
  match FinalizeLastScheduleTask (scheduler_ (send_side g)) with
  | None => emit g [UndefinedBehaviour]
  | Some (errCode, sched) =>
    let g := set_send_side g (set_scheduler (send_side g) sched) in
    if errCode =? - E_CONTAINER_NOTEMPTY_TO_EMPTY then NotifySendableToAllCommunicator g else g
  end.

(** The loop over the packets: the last status, and whether the task is to be finalized. *)
Fixpoint send_packets (s : SendSide D) (dstTarget : cstring) (eachPacket : list (list byte))
    : (Z * bool) * SendSide D :=
  match eachPacket with
  | [] => ((E_OK, true), s)
  | packet :: rest =>
    let '(errCode, d) := SendBytes (adapterHandle_ s) dstTarget packet in
    let s := set_adapter s d in
    if errCode =? - E_WAIT_RETRY then
      let '(_, sched) := DelayTaskByTarget (scheduler_ s) dstTarget in
      ((errCode, false), set_scheduler s sched)
    else if negb (errCode =? E_OK) then ((errCode, true), s)
    else send_packets s dstTarget rest
  end.

Definition SendPacketsAndDisposeTask g (inTask : SendTask) (eachPacket : list (list byte))
    : CommunicatorAggregator D Obj :=
  let '((errCode, taskNeedFinalize), s) :=
    send_packets (send_side g) (st_dstTarget inTask) eachPacket in
  let g := set_send_side g s in
  if taskNeedFinalize then TaskFinalizer g inTask errCode else g.

(** A frame that is not split is sent from its extended head on. *)
Definition whole_packet (buffer : SerialBuffer) : list byte :=
  match bytes_ buffer, oringinalBytes_ buffer with
  | Some p, Some mem =>
    slice (p - GetExtendHeadLength buffer)
      (snd (GetReadOnlyBytesForEntireBuffer buffer) + GetExtendHeadLength buffer) mem
  | _, _ => []
  end.

(** The packets of a frame for an MTU. *)
Definition packets_of (buffer : SerialBuffer) (mtu : Z) : Z * list (list byte) :=
  let '(errCode, piecePackets) := SplitFrameIntoPacketsIfNeed buffer mtu in
  (errCode, match piecePackets with
            | [] => [whole_packet buffer]
            | _ :: _ => map fst piecePackets
            end).

(** One round of the loop of the sending thread. When there is nothing to send it sleeps
    until it is signalled, and clears the signal. *)
Definition SendDataRoutine g : CommunicatorAggregator D Obj :=
  let s := send_side g in
  if shutdown_ s then g
  else if GetNoDelayTaskCount (scheduler_ s) =? 0 then
    if wakingSignal_ s then set_send_side g (set_waking s false) else g
  else
    match ScheduleOutSendTask (scheduler_ s) with
    | (Found taskToSend _, sched) =>
      let s := set_scheduler s sched in
      let g := set_send_side g s in
      let '(errCode, eachPacket) :=
        packets_of (st_buffer taskToSend)
          (GetMtuSize (adapterHandle_ s) (st_dstTarget taskToSend)) in
      if negb (errCode =? E_OK) then TaskFinalizer g taskToSend errCode
      else SendPacketsAndDisposeTask g taskToSend eachPacket
    | (NoTask _, sched) => set_send_side g (set_scheduler s sched)
    | (Undefined, sched) => emit (set_send_side g (set_scheduler s sched)) [UndefinedBehaviour]
    end.

Definition OnSendable g (target : cstring) : CommunicatorAggregator D Obj :=
  let s := send_side g in
  let '(errCode, sched) := NoDelayTaskByTarget (scheduler_ s) target in
  let s := set_scheduler s sched in
  if negb (errCode =? E_OK) then set_send_side g s else set_send_side g (set_waking s true).

(** * Feedback *)

Definition TriggerCommunicatorNotFoundFeedback g (dstTarget : cstring) (dstLabel : LabelType)
    (oriMsg : option (Message Obj)) : CommunicatorAggregator D Obj :=
  on_send_side g (fun s =>
    send_feedback msgIdMapFunc_ s dstTarget dstLabel oriMsg E_FEEDBACK_COMMUNICATOR_NOT_FOUND).

Definition TryToFeedbackWhenCommunicatorNotFound g (dstTarget : cstring) (dstLabel : LabelType)
    (inOriFrame : option SerialBuffer) : CommunicatorAggregator D Obj :=
  match isCommunicatorNotFoundFeedbackEnable_ g, dstTarget, inOriFrame with
  | true, _ :: _, Some _ =>
    match ToMessage msgIdMapFunc_ inOriFrame true with
    | None => emit g [Terminated]
    | Some (errCode, None) =>
      if errCode =? - E_VERSION_NOT_SUPPORT
      then set_send_side g (TriggerVersionNegotiation (send_side g) dstTarget) else g
    | Some (_, Some message) =>
      TriggerCommunicatorNotFoundFeedback g dstTarget dstLabel (Some message)
    end
  | _, _, _ => g
  end.

(** * Receiving *)

Definition OnTargetChange g (target : cstring) (isConnect : bool) : CommunicatorAggregator D Obj :=
  match target with
  | [] => g
  | _ :: _ =>
    let g := match onConnectHandle_ g with
             | Some _ => emit g [OnProcessConnect target isConnect]
             | None => g
             end in
    let '((_, relatedLabels), k) := if isConnect then TargetOnline (commLinker_ g) target ∅
                                    else TargetOffline (commLinker_ g) target in
    let g := set_linker g k in
    fold_left (fun g label =>
      match activated g label with
      | Some _ => if negb isConnect || bool_decide (label ∈ relatedLabels)
                  then connect_change g label target isConnect else g
      | None => g
      end) (set_in_order (dom (commMap_ g))) g
  end.

Definition TryDeliverAppLayerFrameToCommunicatorNoMutex g (srcTarget : cstring)
    (inFrameBuffer : option SerialBuffer) (toLabel : LabelType)
    : Z * CommunicatorAggregator D Obj :=
  match activated g toLabel with
  | Some _ => (E_OK, deliver g toLabel srcTarget inFrameBuffer)
  | None => (- E_NOT_FOUND, g)
  end.

(** [others]: what happened to the communicators while [onCommLackHandle_] was asked
    without the lock. *)
Definition OnAppLayerFrameReceive g (srcTarget : cstring) (inFrameBuffer : option SerialBuffer)
    (inResult : ParseResult) (userId : cstring)
    (others : CommunicatorAggregator D Obj -> CommunicatorAggregator D Obj)
    : Z * CommunicatorAggregator D Obj :=
  let toLabel := commLabel_ inResult in
  let '(errCode, g) := TryDeliverAppLayerFrameToCommunicatorNoMutex g srcTarget inFrameBuffer toLabel in
  if errCode =? E_OK then (E_OK, g)
  else
    let errCode := match onCommLackHandle_ g with
                   | Some handle => handle toLabel userId
                   | None => - E_NOT_FOUND
                   end in
    let g := others g in
    let '(errCodeAgain, g) :=
      TryDeliverAppLayerFrameToCommunicatorNoMutex g srcTarget inFrameBuffer toLabel in
    if errCodeAgain =? E_OK then (E_OK, g)
    else if negb (errCode =? E_OK)
    then (errCode, TryToFeedbackWhenCommunicatorNotFound g srcTarget toLabel inFrameBuffer)
    else (E_OK, set_retainer g (RetainFrame (retainer_ g)
                  (mkFrameInfo inFrameBuffer srcTarget toLabel (frameId_ inResult)))).

(** The overload that gets the received bytes. *)
Definition OnAppLayerBytesReceive g (srcTarget : cstring) (bytes : list byte) (length : Z)
    (inResult : ParseResult) (userId : cstring)
    (others : CommunicatorAggregator D Obj -> CommunicatorAggregator D Obj)
    : Z * CommunicatorAggregator D Obj :=
  if negb heap_obj then (- E_OUT_OF_MEMORY, g)
  else
    let '(errCode, buffer) := SetExternalBuff emptySerialBuffer (Some bytes)
      (u32 (length - pr_paddingLen_ inResult)) GetAppLayerFrameHeaderLength in
    if negb (errCode =? E_OK) then (- E_INTERNAL_ERROR, g)
    else OnAppLayerFrameReceive g srcTarget (Some buffer) inResult userId others.

Definition OnCommLayerFrameReceive g (srcTarget : cstring) (inResult : ParseResult)
    : Z * CommunicatorAggregator D Obj :=
  if decide (frameType_ inResult = COMMUNICATION_LABEL_EXCHANGE_ACK) then
    let '(errCode, k) := ReceiveLabelExchangeAck (commLinker_ g) srcTarget
      (labelExchangeDistinctValue_ inResult) (labelExchangeSequenceId_ inResult) in
    (errCode, set_linker g k)
  else
    let '((errCode, changedLabels), k) := ReceiveLabelExchange (commLinker_ g) srcTarget
      (latestCommLabels_ inResult) (labelExchangeDistinctValue_ inResult)
      (labelExchangeSequenceId_ inResult) ∅ in
    let g := set_linker g k in
    if negb (errCode =? E_OK) then (errCode, g)
    else if negb (IsRemoteTargetOnline (commLinker_ g) srcTarget) then (E_OK, g)
    else (E_OK, fold_left (fun g label =>
      match activated g label, changedLabels !! label with
      | Some _, Some isOnline => connect_change g label srcTarget isOnline
      | _, _ => g
      end) (set_in_order (dom changedLabels)) g).

Definition OnFragmentReceive g (srcTarget : cstring) (bytes : list byte) (length : Z)
    (inResult : ParseResult) (userId : cstring)
    (others : CommunicatorAggregator D Obj -> CommunicatorAggregator D Obj)
    : CommunicatorAggregator D Obj :=
  let '((frame, errorNo), c) := AssembleFrameFragment (combiner_ g) bytes length inResult in
  let g := set_combiner g c in
  if negb (errorNo =? E_OK) then g
  else match frame with
       | None => g
       | Some (frameBuffer, frameResult) =>
         let '(errCode, frameResult) := CheckAndParseFrame (Some frameBuffer) frameResult in
         if negb (errCode =? E_OK) then
           if errCode =? - E_VERSION_NOT_SUPPORT
           then set_send_side g (TriggerVersionNegotiation (send_side g) srcTarget) else g
         else if decide (frameType_ frameResult = APPLICATION_MESSAGE)
         then snd (OnAppLayerFrameReceive g srcTarget (Some frameBuffer) frameResult userId others)
         else snd (OnCommLayerFrameReceive g srcTarget frameResult)
       end.

Definition OnBytesReceive g (srcTarget : cstring) (bytes : list byte) (length : Z)
    (userId : cstring) (others : CommunicatorAggregator D Obj -> CommunicatorAggregator D Obj)
    : CommunicatorAggregator D Obj :=
  let '(errCode, packetResult) :=
    CheckAndParsePacket srcTarget (Some bytes) length emptyParseResult in
  if negb (errCode =? E_OK) then
    if errCode =? - E_VERSION_NOT_SUPPORT
    then set_send_side g (TriggerVersionNegotiation (send_side g) srcTarget) else g
  else
    let g := SetRemoteCommunicatorVersion g srcTarget (dbVersion_ packetResult) in
    if decide (frameType_ packetResult = EMPTY) then g
    else if isFragment_ packetResult
    then OnFragmentReceive g srcTarget bytes length packetResult userId others
    else if decide (frameType_ packetResult = APPLICATION_MESSAGE)
    then snd (OnAppLayerBytesReceive g srcTarget bytes length packetResult userId others)
    else snd (OnCommLayerFrameReceive g srcTarget packetResult).

(** * Life cycle *)

(** The constructor, with the adapter that [Initialize] is given. *)
Definition newAggregator (inAdapter : D) : CommunicatorAggregator D Obj :=
  mkAggregator ∅ emptyFrameCombiner emptyFrameRetainer
    (newLinker (mkSendSide emptyScheduler 0 0 false false inAdapter))
    ∅ None None None None true [].

(** [Initialize] when the adapter accepts the callbacks and starts; [timer] is the status
    of setting the timer of the retainer, [curTime] the system time. *)
Definition Initialize g (timer curTime : Z) : CommunicatorAggregator D Obj :=
  let g := set_retainer g (FrameRetainer.Initialize (retainer_ g) timer) in
  let s := send_side g in
  let s := set_scheduler s (SendTaskScheduler.Initialize (scheduler_ s)) in
  let g := set_send_side g s in
  let g := set_linker g (CommunicatorLinker.Initialize (commLinker_ g) curTime) in
  set_send_side g (GenerateLocalSourceId (send_side g)).

(** [Finalize] once the sending thread has left its loop: the boolean of the scheduler
    says whether its queues were emptied. The linker is only unreferenced. *)
Definition Finalize g : option bool * CommunicatorAggregator D Obj :=
  let s := send_side g in
  let s := mkSendSide (scheduler_ s) (incFrameId_ s) (localSourceId_ s) true true
             (adapterHandle_ s) in
  let '(drained, sched) := SendTaskScheduler.Finalize (scheduler_ s) in
  let g := set_send_side g (set_scheduler s sched) in
  let g := set_retainer g (FrameRetainer.Finalize (retainer_ g)) in
  (drained, set_combiner g (FrameCombiner.Finalize (combiner_ g))).

End Aggr.
