(* ===== verification/AggregatorFacts.v ===== *)
(** Correctness of the aggregator: the view of every communicator of who is online is
    exactly what the linker knows, in every reachable state. *)

From S2P Require Import Prelude Memory SerialBuffer FrameHeader CommTypes ProtocolProto.
From S2P Require Import Fragmentation FrameCombiner AppMessage SendTaskScheduler FrameRetainer.
From S2P Require Import CommunicatorLinker LinkerFacts SendSide Communicator.
From S2P Require Import CommunicatorAggregator.
From Stdlib Require Import ZArith Lia.
From Stdlib Require Import Strings.Byte.
From stdpp Require Import base numbers list gmap.

Open Scope Z_scope.

Lemma set_in_order_NoDup (X : gset LabelType) : NoDup (set_in_order X).
Proof. rewrite set_in_order_perm. apply NoDup_elements. Qed.

Section Facts.
Context `{Host} `{Heap} {D : Type} `{!Adapter D} {Obj : Type}.
Variable reg : Registry Obj.
Implicit Types g : CommunicatorAggregator D Obj.
Implicit Types c : Communicator.

(** * Steps that leave the communicators and the linker's view alone *)

Record same_net g g' : Prop := {
  sn_map : commMap_ g' = commMap_ g;
  sn_view : same_view (commLinker_ g) (commLinker_ g')
}.

Lemma same_net_refl g : same_net g g.
Proof. constructor; [done | apply same_view_refl]. Qed.

Lemma same_net_trans g1 g2 g3 : same_net g1 g2 -> same_net g2 g3 -> same_net g1 g3.
Proof. intros [] []. constructor; [congruence | by eapply same_view_trans]. Qed.

Lemma emit_net g es : same_net g (emit g es).
Proof. constructor; [done | apply same_view_refl]. Qed.

Lemma combiner_net g f : same_net g (set_combiner g f).
Proof. constructor; [done | apply same_view_refl]. Qed.

Lemma retainer_net g r : same_net g (set_retainer g r).
Proof. constructor; [done | apply same_view_refl]. Qed.

Lemma version_net g t v : same_net g (SetRemoteCommunicatorVersion g t v).
Proof. constructor; [done | apply same_view_refl]. Qed.

Lemma send_side_net g s : same_net g (set_send_side g s).
Proof. constructor; [done | by constructor]. Qed.

(** Peels the updates off the resulting state, last one first. *)
Ltac net_with last :=
  repeat match goal with
  | |- same_net ?g ?g => apply same_net_refl
  | Hn : same_net ?g ?g' |- same_net ?g ?g' => exact Hn
  | |- same_net _ (emit _ _) => eapply same_net_trans; [| apply emit_net]
  | |- same_net _ (set_combiner _ _) => eapply same_net_trans; [| apply combiner_net]
  | |- same_net _ (set_retainer _ _) => eapply same_net_trans; [| apply retainer_net]
  | |- same_net _ (SetRemoteCommunicatorVersion _ _ _) => eapply same_net_trans; [| apply version_net]
  | |- same_net _ (set_send_side _ _) => eapply same_net_trans; [| apply send_side_net]
  | |- same_net _ _ => eapply same_net_trans; [| solve [last]]
  end.
Ltac net := net_with fail.

Lemma on_send_side_net g action : same_net g (on_send_side g action).
Proof. unfold on_send_side. destruct (action (send_side g)) as [es s]. net. Qed.

Lemma deliver_net g label t b : same_net g (deliver reg g label t b).
Proof.
  unfold deliver. destruct (commMap_ g !! label) as [[c a]|]; net_with ltac:(apply on_send_side_net).
Qed.

Lemma fold_net {X} (f : CommunicatorAggregator D Obj -> X -> CommunicatorAggregator D Obj) xs g :
  (forall g x, same_net g (f g x)) -> same_net g (fold_left f xs g).
Proof.
  intros Hf. revert g. induction xs as [| x xs IH]; intros g; simpl; [net |].
  eapply same_net_trans; [apply Hf | apply IH].
Qed.

Lemma notify_sendable_net g : same_net g (NotifySendableToAllCommunicator g).
Proof. apply fold_net. intros g' l. destruct (activated g' l); net. Qed.

Lemma task_finalizer_net g task result : same_net g (TaskFinalizer g task result).
Proof.
  unfold TaskFinalizer.
  set (g1 := match st_onEnd task with Some _ => _ | None => _ end).
  assert (H1 : same_net g g1) by (unfold g1; destruct (st_onEnd task); net).
  clearbody g1. destruct (FinalizeLastScheduleTask _) as [[errCode sched]|]; [| net].
  destruct (errCode =? _); net_with ltac:(apply notify_sendable_net).
Qed.

Lemma routine_net g : same_net g (SendDataRoutine g).
Proof.
  unfold SendDataRoutine. destruct (shutdown_ _); [net |].
  destruct (GetNoDelayTaskCount _ =? 0); [destruct (wakingSignal_ _); net |].
  destruct (ScheduleOutSendTask _) as [[task info | errCode |] sched]; [| net | net].
  destruct (packets_of _ _) as [errCode packets].
  destruct (negb _); [net_with ltac:(apply task_finalizer_net) |].
  unfold SendPacketsAndDisposeTask.
  destruct (send_packets _ _ _) as [[e again] s].
  destruct again; net_with ltac:(apply task_finalizer_net).
Qed.

Lemma sendable_net g t : same_net g (OnSendable g t).
Proof.
  unfold OnSendable. destruct (NoDelayTaskByTarget _ _) as [errCode sched].
  destruct (negb _); net.
Qed.

Lemma feedback_net g t label b : same_net g (TryToFeedbackWhenCommunicatorNotFound reg g t label b).
Proof.
  unfold TryToFeedbackWhenCommunicatorNotFound.
  destruct (isCommunicatorNotFoundFeedbackEnable_ g), t, b as [b|]; try net.
  destruct (ToMessage reg (Some b) true) as [[errCode [m|]]|]; [| destruct (errCode =? _) |];
    net_with ltac:(apply on_send_side_net).
Qed.

Lemma try_deliver_net g t b label :
  same_net g (snd (TryDeliverAppLayerFrameToCommunicatorNoMutex reg g t b label)).
Proof.
  unfold TryDeliverAppLayerFrameToCommunicatorNoMutex. destruct (activated g label);
    simpl; net_with ltac:(apply deliver_net).
Qed.

(** * The invariant *)

(** The linker knows [t] to be online and to serve [label]. *)
Definition serves (k : CommunicatorLinker (SendSide D)) (label : LabelType) (t : cstring) : Prop :=
  t ∈ remoteOnlineTarget_ k /\ label ∈ labels_of k t.

Record view_inv g : Prop := {
  vi_label : forall label c act, commMap_ g !! label = Some (c, act) -> cm_commLabel_ c = label;
  vi_online : forall label c act, commMap_ g !! label = Some (c, act) ->
    forall t, t ∈ onlineTargets_ c <-> act = true /\ serves (commLinker_ g) label t;
  vi_local : forall label, label ∈ localOnlineLabels_ (commLinker_ g) <->
    exists c, commMap_ g !! label = Some (c, true);
  vi_named : [] ∉ remoteOnlineTarget_ (commLinker_ g);
  vi_exchange : exchange_wf (commLinker_ g)
}.

Lemma same_net_inv g g' : same_net g g' -> view_inv g -> view_inv g'.
Proof.
  intros [Hm [V1 V2 V3 V4 V5 _ _]] []. unfold exchange_wf in *.
  constructor; unfold serves, labels_of, exchange_wf in *; by rewrite ?Hm, ?V1, ?V2, ?V3, ?V4, ?V5.
Qed.

Lemma connect_change_map g label t b :
  commMap_ (connect_change g label t b)
    = alter (fun '(c, act) => (snd (OnConnectChange (Obj := Obj) c t b), act)) label (commMap_ g)
  /\ commLinker_ (connect_change g label t b) = commLinker_ g.
Proof.
  unfold connect_change. destruct (commMap_ g !! label) as [[c act]|] eqn:Hm.
  - destruct (OnConnectChange c t b) as [es c'] eqn:Hc. split; [| done]. simpl.
    apply map_eq. intros l. destruct (decide (l = label)) as [-> |].
    + rewrite lookup_insert_eq, lookup_alter_eq, Hm. simpl. by rewrite Hc.
    + by rewrite lookup_insert_ne, lookup_alter_ne.
  - split; [| done]. rewrite alter_id; [done |]. intros x Hx. congruence.
Qed.

Lemma connect_change_targets c t b :
  t <> [] ->
  snd (OnConnectChange (Obj := Obj) c t b) = set_onlineTargets c
    (if b then {[t]} ∪ onlineTargets_ c else onlineTargets_ c ∖ {[t]}).
Proof.
  intros Ht. unfold OnConnectChange. destruct t; [done |].
  destruct (cm_onConnectHandle_ _); done.
Qed.

(** A loop over labels that changes at most the communicator of the label at hand. *)
Lemma fold_labels (F : CommunicatorAggregator D Obj -> LabelType -> CommunicatorAggregator D Obj)
    (u : LabelType -> Communicator * bool -> Communicator * bool) ls g :
  (forall g l, commMap_ (F g l) = alter (u l) l (commMap_ g) /\ commLinker_ (F g l) = commLinker_ g) ->
  NoDup ls ->
  commLinker_ (fold_left F ls g) = commLinker_ g
  /\ forall l, commMap_ (fold_left F ls g) !! l
       = (if decide (l ∈ ls) then u l else id) <$> commMap_ g !! l.
Proof.
  intros HF. revert g. induction ls as [| x ls IH]; intros g Hnd.
  { split; [done |]. intros l. rewrite decide_False by apply not_elem_of_nil.
    simpl. by rewrite option_fmap_id. }
  apply NoDup_cons in Hnd as [Hx Hnd]. simpl. destruct (IH (F g x) Hnd) as [Hk Hm].
  destruct (HF g x) as [Hmx Hkx]. split; [congruence |].
  intros l. rewrite Hm, Hmx. destruct (decide (l = x)) as [-> |].
  - rewrite decide_False by done. rewrite decide_True by by left.
    rewrite lookup_alter_eq. by rewrite option_fmap_id.
  - rewrite lookup_alter_ne by done.
    destruct (decide (l ∈ ls)); [by rewrite decide_True by by right |].
    rewrite decide_False; [done |]. by intros [? | ?]%elem_of_cons.
Qed.

(** * The linker's operations, as far as the view goes *)

Implicit Types k : CommunicatorLinker (SendSide D).

Lemma increase_view k label out :
  let '((_, out'), k') := IncreaseLocalLabel k label out in
  same_view (set_online k ({[label]} ∪ localOnlineLabels_ k) (remoteOnlineTarget_ k)
    (targetMapOnlineLabels_ k)) k'
  /\ forall t, t ∈ out' <-> serves k label t \/ t ∈ out.
Proof.
  unfold IncreaseLocalLabel.
  match goal with |- context[trigger_all ?k1 ?l] =>
    pose proof (trigger_all_view k1 l) as Hv; destruct (trigger_all k1 l) as [fail k2] end.
  split; [exact Hv |]. intros t. unfold serves, labels_of. simpl.
  rewrite elem_of_union, elem_of_filter, elem_of_dom. unfold labels_of. simpl.
  destruct (targetMapOnlineLabels_ k !! t) as [ls|]; simpl; split; try naive_solver.
  intros [[_ Hin] | ?]; [set_solver | by right].
Qed.

Lemma decrease_view k label :
  same_view (set_online k (localOnlineLabels_ k ∖ {[label]}) (remoteOnlineTarget_ k)
    (targetMapOnlineLabels_ k)) (snd (DecreaseLocalLabel k label)).
Proof.
  unfold DecreaseLocalLabel.
  match goal with |- context[trigger_all ?k1 ?l] =>
    pose proof (trigger_all_view k1 l) as Hv; destruct (trigger_all k1 l) as [fail k2] end.
  exact Hv.
Qed.

Lemma online_view k t :
  let '((_, related), k') := TargetOnline k t ∅ in
  (forall t', labels_of k' t' = labels_of k t')
  /\ remoteOnlineTarget_ k' = {[t]} ∪ remoteOnlineTarget_ k
  /\ localOnlineLabels_ k' = localOnlineLabels_ k
  /\ targetDistinctValue_ k' = targetDistinctValue_ k /\ topRecvLabelSeq_ k' = topRecvLabelSeq_ k
  /\ related = if decide (t ∈ remoteOnlineTarget_ k) then ∅ else labels_of k t.
Proof.
  unfold TargetOnline. destruct (decide (t ∈ remoteOnlineTarget_ k)) as [Hin | Hout].
  - rewrite bool_decide_true by done.
    pose proof (proj1 (trigger_label_view k t)) as [V1 V2 V3 V4 V5 _ _].
    destruct (TriggerLabelExchangeEvent k t) as [errCode k']. simpl in *. unfold labels_of.
    rewrite V1, V2, V3, V4, V5. split; [done | split; [set_solver | done]].
  - rewrite bool_decide_false by done.
    match goal with |- context[TriggerLabelExchangeEvent ?k1 t] =>
      pose proof (proj1 (trigger_label_view k1 t)) as [V1 V2 V3 V4 V5 _ _];
      destruct (TriggerLabelExchangeEvent k1 t) as [errCode k'] end.
    simpl in *. unfold labels_of. rewrite V1, V2, V3, V4, V5.
    split; [| done]. intros t'. destruct (decide (t' = t)) as [-> |].
    + by rewrite lookup_insert_eq.
    + by rewrite lookup_insert_ne.
Qed.

Lemma timer_view k action : same_view k (timer_due k action).
Proof. destruct action; simpl; [apply send_label_view | apply send_ack_view]. Qed.

Lemma receive_ack_exchange k t d s :
  exchange_wf k ->
  let k' := snd (ReceiveLabelExchangeAck k t d s) in
  localOnlineLabels_ k' = localOnlineLabels_ k /\ remoteOnlineTarget_ k' = remoteOnlineTarget_ k
  /\ targetMapOnlineLabels_ k' = targetMapOnlineLabels_ k /\ exchange_wf k'.
Proof.
  intros Hwf. destruct (detect_spec k t d Hwf) as (_ & _ & Hwf' & _).
  destruct (detect_counters k t d) as (_ & _ & _ & _ & H1 & H2 & H3).
  unfold ReceiveLabelExchangeAck.
  destruct (waitAckSeq_ _ !! t) as [w|]; [destruct (w <? s) |]; try done.
  destruct (match recvAckSeq_ _ !! t with None => false | Some _ => _ end); done.
Qed.

(** * Preservation *)

Lemma alloc_inv g label : view_inv g -> view_inv (snd (AllocCommunicator g label)).
Proof.
  intros Hinv. unfold AllocCommunicator. destruct (negb _); [done |].
  destruct (commMap_ g !! label) as [x|] eqn:Hm; [done |].
  destruct (negb heap_obj); [done |]. destruct Hinv. constructor; simpl; try done.
  - intros l c act [[<- [= <- <-]] | [_ Hl]]%lookup_insert_Some; [done | by eapply vi_label0].
  - intros l c act [[<- [= <- <-]] | [_ Hl]]%lookup_insert_Some t; [simpl; set_solver |].
    by apply vi_online0.
  - intros l. rewrite vi_local0. destruct (decide (l = label)) as [-> |].
    + rewrite Hm, lookup_insert_eq. split; intros [? ?]; simplify_eq.
    + by rewrite lookup_insert_ne.
Qed.

Lemma release_inv g label : view_inv g -> view_inv (ReleaseCommunicator g label).
Proof.
  intros Hinv. unfold ReleaseCommunicator.
  destruct (commMap_ g !! label) as [x|] eqn:Hm; [| done]. cbn [commLinker_ set_commMap].
  pose proof (decrease_view (commLinker_ g) label) as [V1 V2 V3 V4 V5 _ _].
  destruct (DecreaseLocalLabel (commLinker_ g) label) as [errCode k']. simpl in *.
  destruct Hinv. constructor; simpl.
  - intros l c act [_ Hl]%lookup_delete_Some. by eapply vi_label0.
  - intros l c act [_ Hl]%lookup_delete_Some t. rewrite (vi_online0 _ _ _ Hl).
    unfold serves, labels_of. by rewrite V2, V3.
  - intros l. rewrite V1. destruct (decide (l = label)) as [-> |].
    + rewrite lookup_delete_eq. split; [set_solver | by intros [? ?]].
    + rewrite lookup_delete_ne by done. rewrite <- vi_local0. set_solver.
  - by rewrite V2.
  - unfold exchange_wf in *. by rewrite V4, V5.
Qed.

(** Telling one communicator the targets in a list. *)
Lemma tell_online g label ts c act :
  (forall t, t ∈ ts -> t <> []) -> commMap_ g !! label = Some (c, act) ->
  let g' := fold_left (fun g target => connect_change g label target true) ts g in
  commLinker_ g' = commLinker_ g
  /\ (forall l, l <> label -> commMap_ g' !! l = commMap_ g !! l)
  /\ exists c', commMap_ g' !! label = Some (c', act) /\ cm_commLabel_ c' = cm_commLabel_ c
     /\ forall t, t ∈ onlineTargets_ c' <-> t ∈ ts \/ t ∈ onlineTargets_ c.
Proof.
  revert g c. induction ts as [| t ts IH]; intros g c Hne Hm; simpl.
  { split; [done | split; [done |]]. exists c. split; [done | split; [done |]]. set_solver. }
  destruct (connect_change_map g label t true) as [Hcm Hck].
  assert (Hm' : commMap_ (connect_change g label t true) !! label
    = Some (set_onlineTargets c ({[t]} ∪ onlineTargets_ c), act)).
  { rewrite Hcm, lookup_alter_eq, Hm. simpl. rewrite connect_change_targets; [done |]. apply Hne. by left. }
  destruct (IH (connect_change g label t true) _ ltac:(intros; apply Hne; by right) Hm')
    as (Hk & Hoth & c' & Hc' & Hl & Ht).
  split; [congruence | split].
  - intros l Hl'. rewrite Hoth, Hcm by done. by rewrite lookup_alter_ne.
  - exists c'. split; [done | split; [done |]]. intros x. rewrite Ht. simpl. set_solver.
Qed.

Lemma activate_inv g label : view_inv g -> view_inv (ActivateCommunicator reg g label).
Proof.
  intros Hinv. unfold ActivateCommunicator.
  destruct (commMap_ g !! label) as [[c []]|] eqn:Hm; [done | | done].
  cbn [commLinker_ set_commMap].
  pose proof (increase_view (commLinker_ g) label ∅) as Hinc.
  destruct (IncreaseLocalLabel (commLinker_ g) label ∅) as [[errCode out] k'].
  destruct Hinc as [[V1 V2 V3 V4 V5 _ _] Hout]. simpl in *.
  set (g1 := set_commMap g (<[label := (c, true)]> (commMap_ g))) in *.
  pose proof Hinv as [].
  assert (Hnamed : forall t, t ∈ set_in_order out -> t <> []).
  { intros t Ht ->. apply elem_of_set_in_order, Hout in Ht as [[Ht _] | Ht]; set_solver. }
  destruct (tell_online (set_linker g1 k') label (set_in_order out) c true Hnamed)
    as (Hk & Hoth & c' & Hc' & Hl & Ht); [by simpl; rewrite lookup_insert_eq |].
  set (g2 := fold_left _ (set_in_order out) (set_linker g1 k')) in *. clearbody g2.
  assert (Hg2 : view_inv g2).
  { constructor; rewrite ?Hk; simpl.
    - intros l c2 act Hc2. destruct (decide (l = label)) as [-> |].
      + rewrite Hc' in Hc2. injection Hc2 as <- <-. rewrite Hl. by eapply vi_label0.
      + rewrite Hoth in Hc2 by done. simpl in Hc2. rewrite lookup_insert_ne in Hc2 by done.
        by eapply vi_label0.
    - intros l c2 act Hc2 t. unfold serves, labels_of. rewrite V2, V3.
      destruct (decide (l = label)) as [-> |].
      + rewrite Hc' in Hc2. injection Hc2 as <- <-. rewrite Ht, elem_of_set_in_order, Hout.
        rewrite (vi_online0 _ _ _ Hm). unfold serves, labels_of. set_solver.
      + rewrite Hoth in Hc2 by done. simpl in Hc2. rewrite lookup_insert_ne in Hc2 by done.
        apply (vi_online0 _ _ _ Hc2).
    - intros l. rewrite V1. destruct (decide (l = label)) as [-> |].
      + split; [by exists c' | set_solver].
      + rewrite Hoth by done. simpl. rewrite lookup_insert_ne by done. rewrite <- vi_local0. set_solver.
    - by rewrite V2.
    - unfold exchange_wf in *. by rewrite V4, V5. }
  destruct (FetchFramesForSpecificCommunicator (retainer_ g2) label) as [frames r].
  eapply same_net_inv; [| exact Hg2].
  eapply same_net_trans; [apply (retainer_net g2 r) |]. apply fold_net. intros; apply deliver_net.
Qed.

(** The loop body of [OnTargetChange] and of [OnCommLayerFrameReceive]. *)
Definition notify_if (cond : LabelType -> option bool) (t : cstring) (label : LabelType)
    (e : Communicator * bool) : Communicator * bool :=
  match e, cond label with
  | (c, true), Some b => (snd (OnConnectChange (Obj := Obj) c t b), true)
  | _, _ => e
  end.

Lemma notify_step cond t g label :
  let g' := match activated g label, cond label with
            | Some _, Some b => connect_change g label t b
            | _, _ => g
            end in
  commMap_ g' = alter (notify_if cond t label) label (commMap_ g) /\ commLinker_ g' = commLinker_ g.
Proof.
  unfold activated. assert (Hid : forall e, commMap_ g !! label = Some e ->
    notify_if cond t label e = e -> alter (notify_if cond t label) label (commMap_ g) = commMap_ g).
  { intros e He Hfix. apply alter_id. intros x Hx. congruence. }
  destruct (commMap_ g !! label) as [[c []]|] eqn:Hm; [destruct (cond label) as [b|] eqn:Hc | |].
  - destruct (connect_change_map g label t b) as [Hmap Hk]. simpl. rewrite Hmap, Hk. split; [| done].
    apply alter_ext. intros [c' a'] Hx. rewrite Hm in Hx. injection Hx as <- <-.
    unfold notify_if. by rewrite Hc.
  - split; [| done]. symmetry. apply (Hid (c, true)); [done |]. unfold notify_if. by rewrite Hc.
  - split; [| done]. symmetry. by apply (Hid (c, false)).
  - split; [| done]. symmetry. apply alter_id. congruence.
Qed.

(** All labels in a set are told; the others must have no news. *)
Lemma notify_all g (X : gset LabelType) cond t (F : CommunicatorAggregator D Obj -> LabelType ->
    CommunicatorAggregator D Obj) :
  (forall g l, F g l = match activated g l, cond l with
                       | Some _, Some b => connect_change g l t b | _, _ => g end) ->
  (forall l, is_Some (commMap_ g !! l) -> is_Some (cond l) -> l ∈ X) ->
  let g' := fold_left F (set_in_order X) g in
  commLinker_ g' = commLinker_ g
  /\ forall l, commMap_ g' !! l = notify_if cond t l <$> commMap_ g !! l.
Proof.
  intros HF HX. destruct (fold_labels F (notify_if cond t) (set_in_order X) g) as [Hk Hm].
  - intros g' l. rewrite HF. apply notify_step.
  - apply set_in_order_NoDup.
  - split; [done |]. intros l. rewrite Hm. destruct (decide (l ∈ set_in_order X)) as [| Hnot]; [done |].
    destruct (commMap_ g !! l) as [[c act]|] eqn:Hl; [| done]. simpl. f_equal.
    unfold notify_if. destruct act; [| done]. destruct (cond l) as [b|] eqn:Hc; [| done].
    destruct Hnot. apply elem_of_set_in_order, HX; by rewrite ?Hl, ?Hc.
Qed.

(** The communicators were told the news of one target; for every label the news are what
    changed in the linker. *)
Lemma notified_inv g g' k' cond t :
  view_inv g -> t <> [] -> commLinker_ g' = k' ->
  (forall l, commMap_ g' !! l = notify_if cond t l <$> commMap_ g !! l) ->
  localOnlineLabels_ k' = localOnlineLabels_ (commLinker_ g) ->
  [] ∉ remoteOnlineTarget_ k' -> exchange_wf k' ->
  (forall l t', t' <> t -> serves k' l t' <-> serves (commLinker_ g) l t') ->
  (forall l, match cond l with
             | Some b => b = true <-> serves k' l t
             | None => serves k' l t <-> serves (commLinker_ g) l t
             end) ->
  view_inv g'.
Proof.
  intros [] Ht <- Hm Hlocal Hnamed Hwf Hother Hcond. constructor; try done.
  - intros l c act Hl. rewrite Hm in Hl. destruct (commMap_ g !! l) as [[c0 a0]|] eqn:Hg; [| done].
    simpl in Hl. injection Hl as Hl. pose proof (vi_label0 _ _ _ Hg).
    unfold notify_if in Hl. destruct a0, (cond l) as [b|]; injection Hl as <- <-; try done.
    by rewrite connect_change_targets.
  - intros l c act Hl x. rewrite Hm in Hl. destruct (commMap_ g !! l) as [[c0 a0]|] eqn:Hg; [| done].
    simpl in Hl. injection Hl as Hl. pose proof (vi_online0 _ _ _ Hg x) as Hx.
    specialize (Hcond l). pose proof (Hother l x) as Ho. unfold notify_if in Hl.
    destruct a0; [destruct (cond l) as [b|] |]; injection Hl as <- <-.
    + rewrite connect_change_targets by done. simpl. destruct (decide (x = t)) as [-> | Hne].
      * destruct b; rewrite ?elem_of_union, ?elem_of_difference, elem_of_singleton;
          destruct Hcond as [Hc1 Hc2]; split; naive_solver.
      * rewrite Ho by done.
        destruct b; rewrite ?elem_of_union, ?elem_of_difference, elem_of_singleton, Hx; tauto.
    + destruct (decide (x = t)) as [-> | Hne]; [by rewrite Hx, Hcond | by rewrite Ho by done].
    + rewrite Hx. naive_solver.
  - intros l. rewrite Hlocal, vi_local0, Hm. split.
    + intros [c Hc]. rewrite Hc. unfold notify_if. simpl. destruct (cond l); by eexists.
    + intros [c Hc]. destruct (commMap_ g !! l) as [[c0 []]|]; [by eexists | | done].
      simpl in Hc. unfold notify_if in Hc. by destruct (cond l).
Qed.

(** The loop of [OnTargetChange]. *)
Definition tell_related (t : cstring) (b : bool) (related : gset LabelType) g (label : LabelType)
    : CommunicatorAggregator D Obj :=
  match activated g label with
  | Some _ => if negb b || bool_decide (label ∈ related) then connect_change g label t b else g
  | None => g
  end.

Lemma target_loop g (related : gset LabelType) t b :
  let g' := fold_left (tell_related t b related) (set_in_order (dom (commMap_ g))) g in
  commLinker_ g' = commLinker_ g
  /\ forall l, commMap_ g' !! l
       = notify_if (fun l => if negb b || bool_decide (l ∈ related) then Some b else None) t l
         <$> commMap_ g !! l.
Proof.
  apply notify_all.
  - intros g1 l. unfold tell_related. destruct (activated g1 l); [| done].
    by destruct (negb b || bool_decide (l ∈ related)).
  - intros l Hl _. by apply elem_of_dom.
Qed.

Lemma target_online_inv g t :
  view_inv g -> t <> [] ->
  let '((_, related), k) := TargetOnline (commLinker_ g) t ∅ in
  view_inv (fold_left (tell_related t true related) (set_in_order (dom (commMap_ g))) (set_linker g k)).
Proof.
  intros Hinv Ht. pose proof (online_view (commLinker_ g) t) as Hon.
  destruct (TargetOnline (commLinker_ g) t ∅) as [[errCode related] k'].
  destruct Hon as (Hl & Hr & Hloc & Hd & Htop & Hrel).
  destruct (target_loop (set_linker g k') related t true) as [Hk Hm].
  pose proof (vi_named _ Hinv). pose proof (vi_exchange _ Hinv).
  eapply notified_inv; [exact Hinv | exact Ht | exact Hk | exact Hm | done | | | |]; cbn [commLinker_ set_linker].
  - rewrite Hr. set_solver.
  - unfold exchange_wf in *. by rewrite Hd, Htop.
  - intros l t' Hne. unfold serves. rewrite Hl, Hr. set_solver.
  - intros l. unfold serves. rewrite Hl, Hr, Hrel. cbn [negb orb].
    destruct (decide (t ∈ remoteOnlineTarget_ (commLinker_ g))).
    + rewrite bool_decide_false by set_solver. set_solver.
    + case_bool_decide; set_solver.
Qed.

Lemma offline_labels k t t' : labels_of (snd (TargetOffline k t)) t' = labels_of k t'.
Proof.
  unfold labels_of. simpl. destruct (decide (t' = t)) as [-> |].
  - by rewrite lookup_insert_eq.
  - by rewrite lookup_insert_ne.
Qed.

Lemma target_offline_inv g t :
  view_inv g -> t <> [] ->
  let '((_, related), k) := TargetOffline (commLinker_ g) t in
  view_inv (fold_left (tell_related t false related) (set_in_order (dom (commMap_ g))) (set_linker g k)).
Proof.
  intros Hinv Ht. pose proof (offline_labels (commLinker_ g) t) as Hlab.
  destruct (TargetOffline (commLinker_ g) t) as [[errCode related] k'] eqn:Hoff.
  injection Hoff as _ _ Hk'. cbn [snd] in Hlab.
  destruct (target_loop (set_linker g k') related t false) as [Hk Hm].
  pose proof (vi_named _ Hinv). pose proof (vi_exchange _ Hinv).
  eapply notified_inv; [exact Hinv | exact Ht | exact Hk | exact Hm | | | | |]; cbn [commLinker_ set_linker].
  - by rewrite <- Hk'.
  - rewrite <- Hk'. simpl. set_solver.
  - unfold exchange_wf in *. rewrite <- Hk'. simpl. rewrite !dom_delete_L. set_solver.
  - intros l t' Hne. unfold serves. rewrite Hlab, <- Hk'. simpl. set_solver.
  - intros l. unfold serves. rewrite <- Hk'. simpl. set_solver.
Qed.

Lemma target_change_inv g t b : view_inv g -> view_inv (OnTargetChange g t b).
Proof.
  intros Hinv. unfold OnTargetChange. destruct t as [| x t]; [done |].
  set (g0 := match onConnectHandle_ g with Some _ => _ | None => _ end).
  assert (Hinv0 : view_inv g0).
  { eapply same_net_inv; [| exact Hinv]. unfold g0. destruct (onConnectHandle_ g); net. }
  clearbody g0. destruct b.
  - pose proof (target_online_inv g0 (x :: t) Hinv0 ltac:(done)) as Ht.
    by destruct (TargetOnline (commLinker_ g0) (x :: t) ∅) as [[errCode related] k'].
  - pose proof (target_offline_inv g0 (x :: t) Hinv0 ltac:(done)) as Ht.
    by destruct (TargetOffline (commLinker_ g0) (x :: t)) as [[errCode related] k'].
Qed.

(** A label exchange from an online target is news for the labels that changed. *)
Lemma exchange_inv g t labels d s :
  view_inv g ->
  let '((errCode, changes), k) := ReceiveLabelExchange (commLinker_ g) t labels d s ∅ in
  view_inv (if errCode =? E_OK then
              if IsRemoteTargetOnline k t then
                fold_left (fun g label =>
                  match activated g label, changes !! label with
                  | Some _, Some isOnline => connect_change g label t isOnline
                  | _, _ => g
                  end) (set_in_order (dom changes)) (set_linker g k)
              else set_linker g k
            else set_linker g k).
Proof.
  intros Hinv. pose proof Hinv as [].
  pose proof (receive_exchange_spec (commLinker_ g) t labels d s ∅ vi_exchange0) as Hspec.
  destruct (ReceiveLabelExchange (commLinker_ g) t labels d s ∅) as [[errCode changes] k].
  destruct (stale _ t d s).
  { destruct Hspec as (-> & _ & ->). simpl. eapply same_net_inv; [| exact Hinv].
    constructor; [done | apply same_view_refl]. }
  destruct Hspec as (-> & Hch & Hlab & _ & Hwf & Hrem & Hloc). simpl (E_OK =? E_OK).
  assert (Hsame : forall t', t' <> t -> labels_of k t' = labels_of (commLinker_ g) t').
  { intros t' Hne. unfold labels_of. by rewrite Hlab, lookup_insert_ne. }
  assert (Hnew : labels_of k t = labels) by (unfold labels_of; by rewrite Hlab, lookup_insert_eq).
  rewrite (right_id_L ∅ (∪)) in Hch. unfold IsRemoteTargetOnline. case_bool_decide as Hon.
  - rewrite Hrem in Hon. assert (Ht : t <> []) by (intros ->; done).
    edestruct (notify_all (set_linker g k) (dom changes) (fun l => changes !! l) t) as [Hk Hm];
      [reflexivity | intros l _ Hl; by apply elem_of_dom |].
    eapply notified_inv; [exact Hinv | exact Ht | exact Hk | exact Hm | | | | |];
      cbn [commLinker_ set_linker]; [done | by rewrite Hrem | done | |].
    + intros l t' Hne. unfold serves. by rewrite Hrem, Hsame.
    + intros l. unfold serves. rewrite Hrem, Hnew.
      pose proof (change_labels_spec (labels_of (commLinker_ g) t) labels l) as Hcs.
      rewrite <- Hch in Hcs. destruct (changes !! l) as [b|] eqn:Hl.
      * pose proof (proj1 (Hcs b) eq_refl) as Hb. clear - Hb Hon. destruct b; [tauto |].
        split; [done | tauto].
      * assert (Hno : ~ (l ∈ labels /\ l ∉ labels_of (commLinker_ g) t)
                      /\ ~ (l ∈ labels_of (commLinker_ g) t /\ l ∉ labels))
          by (split; [intros Hx%(Hcs true) | intros Hx%(Hcs false)]; done).
        clear - Hno. destruct (decide (l ∈ labels)), (decide (l ∈ labels_of (commLinker_ g) t)); tauto.
  - assert (Hsv : forall l t', serves k l t' <-> serves (commLinker_ g) l t').
    { intros l t'. unfold serves. rewrite Hrem in *. destruct (decide (t' = t)) as [-> |]; [naive_solver |].
      by rewrite Hsame. }
    constructor; simpl; try done.
    + intros l c act Hl x. rewrite Hsv. by apply vi_online0.
    + by rewrite Hloc.
    + by rewrite Hrem.
Qed.

Lemma comm_layer_inv g t r : view_inv g -> view_inv (snd (OnCommLayerFrameReceive g t r)).
Proof.
  intros Hinv. pose proof Hinv as []. unfold OnCommLayerFrameReceive.
  destruct (decide (frameType_ r = COMMUNICATION_LABEL_EXCHANGE_ACK)).
  - pose proof (receive_ack_exchange (commLinker_ g) t (labelExchangeDistinctValue_ r)
      (labelExchangeSequenceId_ r) vi_exchange0) as (V1 & V2 & V3 & V4).
    destruct (ReceiveLabelExchangeAck _ _ _ _) as [errCode k]. simpl in *.
    constructor; simpl; unfold serves, labels_of in *; by rewrite ?V1, ?V2, ?V3.
  - pose proof (exchange_inv g t (latestCommLabels_ r) (labelExchangeDistinctValue_ r)
      (labelExchangeSequenceId_ r) Hinv) as He.
    destruct (ReceiveLabelExchange _ _ _ _ _ _) as [[errCode changes] k].
    cbn [commLinker_ set_linker]. destruct (errCode =? E_OK); [| done].
    by destruct (IsRemoteTargetOnline k t).
Qed.

Lemma app_layer_inv g t b r user others :
  view_inv g -> (forall g, view_inv g -> view_inv (others g)) ->
  view_inv (snd (OnAppLayerFrameReceive reg g t b r user others)).
Proof.
  intros Hinv Hoth. unfold OnAppLayerFrameReceive.
  pose proof (try_deliver_net g t b (commLabel_ r)) as Hn.
  destruct (TryDeliverAppLayerFrameToCommunicatorNoMutex reg g t b (commLabel_ r)) as [e1 g1].
  simpl in Hn. assert (H1 : view_inv g1) by by eapply same_net_inv.
  destruct (e1 =? E_OK); [done |].
  pose proof (Hoth _ H1) as H2. set (g2 := others g1) in *. clearbody g2.
  pose proof (try_deliver_net g2 t b (commLabel_ r)) as Hn2.
  destruct (TryDeliverAppLayerFrameToCommunicatorNoMutex reg g2 t b (commLabel_ r)) as [e2 g3].
  simpl in Hn2. assert (H3 : view_inv g3) by by eapply same_net_inv.
  destruct (e2 =? E_OK); [done |]. destruct (negb _); simpl.
  - eapply same_net_inv; [apply feedback_net | done].
  - eapply same_net_inv; [apply retainer_net | done].
Qed.

Lemma fragment_inv g t bytes len r user others :
  view_inv g -> (forall g, view_inv g -> view_inv (others g)) ->
  view_inv (OnFragmentReceive reg g t bytes len r user others).
Proof.
  intros Hinv Hoth. unfold OnFragmentReceive.
  destruct (AssembleFrameFragment (combiner_ g) bytes len r) as [[frame errorNo] f].
  assert (H1 : view_inv (set_combiner g f)) by (eapply same_net_inv; [apply combiner_net | done]).
  set (g1 := set_combiner g f) in *. clearbody g1.
  destruct (negb _); [done |]. destruct frame as [[fb fr]|]; [| done].
  destruct (CheckAndParseFrame (Some fb) fr) as [errCode fr'].
  destruct (negb _).
  - destruct (errCode =? _); [eapply same_net_inv; [apply send_side_net |] |]; done.
  - destruct (decide _); [by apply app_layer_inv | by apply comm_layer_inv].
Qed.

Lemma bytes_inv g t bytes len user others :
  view_inv g -> (forall g, view_inv g -> view_inv (others g)) ->
  view_inv (OnBytesReceive reg g t bytes len user others).
Proof.
  intros Hinv Hoth. unfold OnBytesReceive.
  destruct (CheckAndParsePacket t (Some bytes) len emptyParseResult) as [errCode r].
  destruct (negb _).
  { destruct (errCode =? _); [eapply same_net_inv; [apply send_side_net |] |]; done. }
  assert (H1 : view_inv (SetRemoteCommunicatorVersion g t (dbVersion_ r)))
    by (eapply same_net_inv; [apply version_net | done]).
  set (g1 := SetRemoteCommunicatorVersion g t (dbVersion_ r)) in *. clearbody g1.
  destruct (decide (frameType_ r = EMPTY)); [done |].
  destruct (isFragment_ r); [by apply fragment_inv |].
  destruct (decide (frameType_ r = APPLICATION_MESSAGE)); [| by apply comm_layer_inv].
  unfold OnAppLayerBytesReceive. destruct (negb heap_obj); [done |].
  destruct (SetExternalBuff _ _ _ _) as [errB b]. destruct (negb _); [done | by apply app_layer_inv].
Qed.

(** * Steps *)

(** The entry points of the aggregator, each under its locks. While a frame without
    receiver waits for the answer of the lack callback other steps may happen. A step of
    the sending side stands for [SendMessage] of a communicator, the wake-ups of blocked
    senders and the adapter. *)
Inductive aggr_step : CommunicatorAggregator D Obj -> CommunicatorAggregator D Obj -> Prop :=
  | astep_alloc g label : aggr_step g (snd (AllocCommunicator g label))
  | astep_release g label : aggr_step g (ReleaseCommunicator g label)
  | astep_activate g label : aggr_step g (ActivateCommunicator reg g label)
  | astep_target g t b : aggr_step g (OnTargetChange g t b)
  | astep_receive g t bytes len user others :
      (forall g1, rtc aggr_step g1 (others g1)) ->
      aggr_step g (OnBytesReceive reg g t bytes len user others)
  | astep_routine g : aggr_step g (SendDataRoutine g)
  | astep_sendable g t : aggr_step g (OnSendable g t)
  | astep_send g s : aggr_step g (set_send_side g s)
  | astep_timer g l1 action l2 : cl_suspended (commLinker_ g) = l1 ++ action :: l2 ->
      aggr_step g (set_linker g (timer_due
        (set_pending (commLinker_ g) (cl_refs (commLinker_ g)) (l1 ++ l2) (send_side g)) action))
  | astep_surveil_frames g :
      aggr_step g (set_retainer g (FrameRetainer.PeriodicalSurveillance (retainer_ g)))
  | astep_surveil_works g :
      aggr_step g (set_combiner g (FrameCombiner.PeriodicalSurveillance (combiner_ g))).

Lemma aggr_step_inv : forall g g', aggr_step g g' -> view_inv g -> view_inv g'.
Proof.
  fix IH 3. intros g g' Hstep Hinv.
  destruct Hstep as [g label | g label | g label | g t b | g t bytes len user others Hoth | g | g t
    | g s | g l1 action l2 Hs | g | g].
  - by apply alloc_inv.
  - by apply release_inv.
  - by apply activate_inv.
  - by apply target_change_inv.
  - apply bytes_inv; [exact Hinv |]. intros g1 H1. specialize (Hoth g1). revert H1.
    generalize dependent (others g1). intros g2 Hr.
    refine ((fix loop x y (Hxy : rtc aggr_step x y) : view_inv x -> view_inv y :=
      match Hxy with
      | rtc_refl _ _ => fun Hx => Hx
      | rtc_l _ _ _ _ Hxz Hzy => fun Hx => loop _ _ Hzy (IH _ _ Hxz Hx)
      end) g1 g2 Hr).
  - eapply same_net_inv; [apply routine_net | exact Hinv].
  - eapply same_net_inv; [apply sendable_net | exact Hinv].
  - eapply same_net_inv; [apply send_side_net | exact Hinv].
  - eapply same_net_inv; [| exact Hinv]. constructor; [done |].
    eapply same_view_trans; [| apply timer_view]. by constructor.
  - eapply same_net_inv; [apply retainer_net | exact Hinv].
  - eapply same_net_inv; [apply combiner_net | exact Hinv].
Qed.

Lemma initial_inv (d : D) timer curTime : view_inv (Initialize (newAggregator d) timer curTime).
Proof.
  constructor; simpl; try done.
  intros l. split; [set_solver |]. by intros [? ?].
Qed.

(** C3: In every reachable state of the aggregator, the targets an activated communicator
    believes to be online are exactly those the linker knows to be online and to serve the
    same label; a communicator that is not activated believes nobody to be; and the labels
    announced to the peers are exactly those of the activated communicators. *)
Theorem communicators_view_correct (d : D) timer curTime g :
  rtc aggr_step (Initialize (newAggregator d) timer curTime) g ->
  (forall label c act, commMap_ g !! label = Some (c, act) ->
     cm_commLabel_ c = label
     /\ forall t, t ∈ onlineTargets_ c <->
          act = true /\ t ∈ remoteOnlineTarget_ (commLinker_ g)
          /\ label ∈ labels_of (commLinker_ g) t)
  /\ (forall label, label ∈ localOnlineLabels_ (commLinker_ g) <->
        exists c, commMap_ g !! label = Some (c, true)).
Proof.
  intros Hrun. assert (Hinv : view_inv g).
  { pose proof (initial_inv d timer curTime) as H1.
    induction Hrun as [| g1 g2 g3 Hstep _ IH]; [done |]. apply IH. by eapply aggr_step_inv. }
  destruct Hinv. split; [| done]. intros label c act Hm.
  split; [by eapply vi_label0 | by apply vi_online0].
Qed.

End Facts.

(** * A concrete run *)

Module AggregatorSample.

#[local] Existing Instance x86_host.
#[local] Existing Instance zero_heap.

(** An adapter that knows its own name and sends everything. *)
#[export] Instance plain_adapter : Adapter cstring :=
  {| GetLocalIdentity := fun d => d; GetMtuSize := fun _ _ => 1024;
     SendBytes := fun d _ _ => (E_OK, d); GetExtendHeaderHandle := fun _ _ => None |}.

Definition label1 : LabelType := replicate 32 x01.
Definition self : cstring := [x61].
Definition peer : cstring := [x62].
Definition no_functions : Registry (list byte) := ∅.

(** The peer announces that it serves the label. *)
Definition announcement : list byte :=
  match BuildLabelExchange 77 3 {[label1]} with
  | (_, Some b) =>
    match SetPhyHeader (Some b) (mkPhyHeaderInfo (HashFunc peer) 9 COMMUNICATION_LABEL_EXCHANGE) with
    | (_, Some b) => default [] (fst (GetReadOnlyBytesForEntireBuffer b))
    | _ => []
    end
  | _ => []
  end.

Definition aggr0 : CommunicatorAggregator cstring (list byte) := Initialize (newAggregator self) 0 5.
Definition aggr1 := snd (AllocCommunicator aggr0 label1).
Definition aggr2 := ActivateCommunicator no_functions aggr1 label1.
Definition aggr3 := OnTargetChange aggr2 peer true.
Definition aggr4 := OnBytesReceive no_functions aggr3 peer announcement (zlen announcement) [] id.

Lemma aggr4_reached : rtc (aggr_step no_functions) aggr0 aggr4.
Proof.
  eapply rtc_l; [apply (astep_alloc no_functions aggr0 label1) |].
  eapply rtc_l; [apply (astep_activate no_functions aggr1 label1) |].
  eapply rtc_l; [apply (astep_target no_functions aggr2 peer true) |].
  eapply rtc_l; [apply (astep_receive no_functions aggr3 peer announcement (zlen announcement) [] id) |].
  - intros g. apply rtc_refl.
  - apply rtc_refl.
Qed.

Lemma communicators_view_correct_witness :
  (exists c, commMap_ aggr4 !! label1 = Some (c, true) /\ elements (onlineTargets_ c) = [peer])
  /\ (forall label c act, commMap_ aggr4 !! label = Some (c, act) ->
     cm_commLabel_ c = label
     /\ forall t, t ∈ onlineTargets_ c <->
          act = true /\ t ∈ remoteOnlineTarget_ (commLinker_ aggr4)
          /\ label ∈ labels_of (commLinker_ aggr4) t)
  /\ (forall label, label ∈ localOnlineLabels_ (commLinker_ aggr4) <->
        exists c, commMap_ aggr4 !! label = Some (c, true)).
Proof.
  split.
  - eexists. split; vm_compute; reflexivity.
  - apply (communicators_view_correct no_functions self 0 5). exact aggr4_reached.
Defined.

End AggregatorSample.
