(* ===== verification/Delivery.v ===== *)
(** End-to-end delivery: an application message handed to [SendMessage] of a communicator
    on one device is delivered, once and unchanged, by the aggregator of the device that
    receives its packets, in whatever order they arrive. *)

From S2P Require Import Prelude Memory SerialBuffer FrameHeader CommTypes ProtocolProto.
From S2P Require Import Fragmentation ProtoFacts ProtoRoundtrip FragFacts FrameCombiner.
From S2P Require Import CombinerFacts Reassembly SplitReassemble AppMessage AppMessageFacts.
From S2P Require Import SendTaskScheduler FrameRetainer CommunicatorLinker SendSide.
From S2P Require Import Communicator CommunicatorAggregator AggregatorFacts.
From Stdlib Require Import ZArith Lia.
From Stdlib Require Import Strings.Byte.
From stdpp Require Import base numbers list gmap.

Open Scope Z_scope.

Section Delivery.
Context `{Host} `{Heap} {D : Type} `{!Adapter D} {Obj : Type}.
Variable reg : Registry Obj.
Implicit Types g : CommunicatorAggregator D Obj.
Implicit Types s : SendSide D.

(** * The frame that is queued *)

(** What the message becomes behind the label: message header and data. *)
Definition message_bytes (m : Message Obj) (n : Z) (data : list byte) : list byte :=
  store_mh (mh_ConvertHostToNet (message_header m n)) ++ data.

Definition label_bytes (n : Z) (label : LabelType) : list byte :=
  store_div (div_ConvertHostToNet (diverge_header (n + 24) label)).

(** A buffer that holds the complete frame of [m] from [src], behind an extended head of
    [e] bytes; [hf] is its physical header. *)
Record framed (src : cstring) (label : LabelType) (frameId : Z) (m : Message Obj) (n : Z)
    (data : list byte) (e : Z) (b : SerialBuffer) (mem : list byte) (hf : CommPhyHeader) : Prop := {
  fr_wf : owned_wf b mem e;
  fr_ext : extendHeadLen_ b = e;
  fr_hdr : headerLen_ b = 72;
  fr_pay : payloadLen_ b = n + 24;
  fr_phy : phy_ok hf;
  fr_head : slice e 32 mem = store_phy (phy_ConvertHostToNet hf);
  fr_body : slice (e + 32) (40 + (n + 24)) mem = label_bytes n label ++ message_bytes m n data;
  fr_from : frame_from (hf := hf) src;
  fr_id : phy_frameId hf = frameId;
  fr_type : GetFrameType (phy_packetType hf) = APPLICATION_MESSAGE
}.

Lemma frame_ready src f (m : Message Obj) n o h e head label frameId :
  heap_total -> reg !! messageId_ m = Some f -> codec f m n o -> handle_ok h e head ->
  0 < n < 2 ^ 32 - 8 -> byte8_align 32 n <= MAX_FRAME_LEN - GetLengthBeforeSerializedData ->
  zlen label = COMM_LABEL_LENGTH -> 0 <= frameId < 2 ^ 32 ->
  exists data b0 b1 b2 mem hf, decodes f m n data o /\
    ToSerialBuffer reg (Some m) h false = Some (E_OK, Some b0) /\
    SetDivergeHeader (Some b0) label = (E_OK, Some b1) /\
    SetPhyHeader (Some b1) (mkPhyHeaderInfo (HashFunc src) frameId APPLICATION_MESSAGE)
      = (E_OK, Some b2) /\
    framed src label frameId m n data e b2 mem hf /\
    exists bytes r rb,
      GetReadOnlyBytesForEntireBuffer b2 = (Some bytes, zlen bytes) /\
      CheckAndParsePacket src (Some bytes) (zlen bytes) emptyParseResult = (E_OK, r) /\
      SetExternalBuff emptySerialBuffer (Some bytes) (u32 (zlen bytes - pr_paddingLen_ r))
        GetAppLayerFrameHeaderLength = (E_OK, rb) /\
      frameType_ r = APPLICATION_MESSAGE /\ isFragment_ r = false /\ commLabel_ r = label /\
      GetReadOnlyBytesForPayload rb = (Some (message_bytes m n data), n + 24).
Proof.
  intros Hheap Hreg Hcodec Hh Hn Hal Hl Hf.
  destruct (ToSerialBuffer_ok reg f m n o h e head Hheap Hcodec Hreg Hh ltac:(lia) Hal ltac:(lia))
    as (b0 & mem0 & data & Hdec & Eb & Hwf & He & Hhl & Hpl & Hm8 & _ & Hpay).
  assert (Hpay' := Hpay). rewrite <- Hpl in Hpay'.
  destruct (app_transport src b0 mem0 e label frameId _ Hwf Hhl Hm8 Hl Hf Hpay')
    as (r & rb & (b1 & b2 & bytes & E1 & E2 & E3 & E4 & E5) & H1 & H2 & _ & H3 & Hrd).
  destruct (SetDivergeHeader_ok b0 mem0 e label Hwf Hhl Hl)
    as (b1' & mem1 & E1' & Hwf1 & (L1 & L2 & L3 & L4 & L5) & _ & Hrest).
  rewrite E1 in E1'. injection E1' as <-.
  set (info := mkPhyHeaderInfo (HashFunc src) frameId APPLICATION_MESSAGE) in *.
  assert (Hinfo : info_ok info) by (split; [apply HashFunc_range | split; [exact Hf | discriminate]]).
  unfold GetAppLayerFrameHeaderLength, sizeof_CommPhyHeader, sizeof_CommDivergeHeader,
    sizeof_MessageHeader in Hhl, Hpl, Hpay.
  destruct (SetPhyHeader_ok b1 mem1 e info Hwf1) as (mem2 & E2' & Hwf2 & Hsl & _);
    [unfold sizeof_CommPhyHeader; lia | congruence | done |].
  rewrite E2 in E2'. injection E2' as ->.
  set (hf := seal_phy _ _) in Hsl.
  exists data, b0, b1, (set_memory b1 mem2), mem2, hf. split; [exact Hdec |].
  split; [exact Eb | split; [exact E1 | split; [exact E2 | split]]].
  2: { exists bytes, r, rb. rewrite Hpl in Hrd. split_and!; auto. }
  pose proof Hwf as [_ _ _ _ Hp0 Hzm _ Hpp Hpad Htot Hmax]. unfold MAX_TOTAL_LEN in *.
  rewrite L3 in Hsl. pose proof Hwf2 as [_ _ _ _ _ Hz2 _ _ _ _ _]. cbn [totalLen_ set_memory] in Hz2.
  assert (Hhead : slice e 32 mem2 = store_phy (phy_ConvertHostToNet hf)).
  { replace (slice e 32 mem2) with (slice 0 32 (slice e (totalLen_ b0) mem2))
      by (rewrite slice_slice by lia; f_equal; lia).
    rewrite Hsl, slice_app_l by (rewrite ?zlen_store_phy; lia).
    pose proof (zlen_store_phy (phy_ConvertHostToNet hf)) as Hz. rewrite <- Hz. apply slice_all. }
  constructor; cbn [headerLen_ payloadLen_ extendHeadLen_ set_memory]; try congruence; try lia; try exact Hwf2.
  - unfold hf, seal_phy. apply set_checkSum_ok; [apply build_phy_ok; [done | lia] |].
    apply xor_words_range. lia.
  - replace (slice (e + 32) (40 + (n + 24)) mem2)
      with (slice 32 (40 + (n + 24)) (slice e (totalLen_ b0) mem2))
      by (rewrite slice_slice by lia; f_equal; lia).
    rewrite Hsl, slice_app_r, zlen_store_phy by (rewrite ?zlen_store_phy; lia).
    rewrite Hrest. change (32 - 32) with 0. rewrite Hhl, Hpl.
    unfold sizeof_MessageHeader. rewrite Hhl in Hpay. rewrite Hpay.
    unfold label_bytes, message_bytes. rewrite !app_assoc.
    assert (Hz : zlen ((store_div (div_ConvertHostToNet (diverge_header (n + 24) label)) ++
      store_mh (mh_ConvertHostToNet (message_header m n))) ++ data) = 40 + (n + 24)).
    { rewrite !zlen_app, zlen_store_mh, (dc_len _ _ _ _ _ Hdec).
      rewrite zlen_store_div by exact Hl. lia. }
    rewrite slice_app_l by lia. rewrite <- Hz. apply slice_all.
  - constructor; reflexivity || discriminate.
  - reflexivity.
  - reflexivity.
Qed.

(** * The receiver *)

(** The communicator of [label] is there to take messages. *)
Record listening g (label : LabelType) : Prop := {
  ls_comm : exists c h, commMap_ g !! label = Some (c, true) /\ cm_commLabel_ c = label /\
    onMessageHandle_ c = Some h
}.

(** The receiver's state for everything but the communicators may change. *)
Definition same_upper g g' : Prop := commMap_ g' = commMap_ g /\ events g' = events g.

Lemma deliver_event g label src rb m' :
  listening g label -> src <> [] -> ToMessage reg (Some rb) false = Some (E_OK, Some m') ->
  commMap_ (deliver reg g label src (Some rb)) = commMap_ g /\
  combiner_ (deliver reg g label src (Some rb)) = combiner_ g /\
  events (deliver reg g label src (Some rb)) = events g ++ [OnMessage label src m'].
Proof.
  intros [(c & h & Hm & Hl & Hh)] Hsrc Hmsg. unfold deliver, on_send_side, OnBufferReceive.
  rewrite Hm. destruct src as [| x src]; [done |]. rewrite Hh, Hmsg, Hl. done.
Qed.

Lemma app_frame_event g src rb r user others m' :
  listening g (commLabel_ r) -> src <> [] -> ToMessage reg (Some rb) false = Some (E_OK, Some m') ->
  let g' := snd (OnAppLayerFrameReceive reg g src (Some rb) r user others) in
  commMap_ g' = commMap_ g /\ combiner_ g' = combiner_ g /\
  events g' = events g ++ [OnMessage (commLabel_ r) src m'].
Proof.
  intros Hls Hsrc Hmsg. unfold OnAppLayerFrameReceive, TryDeliverAppLayerFrameToCommunicatorNoMutex,
    activated. pose proof Hls as [(c & h & Hm & _ & _)]. rewrite Hm. simpl (E_OK =? E_OK). cbv iota.
  by apply deliver_event.
Qed.

Lemma message_read (m : Message Obj) f n data o rb :
  heap_total -> reg !! messageId_ m = Some f -> message_ok m ->
  IsFeedbackErrorMessage (errorNo_ m) = false -> decodes f m n data o ->
  0 < n -> byte8_align 32 n <= MAX_FRAME_LEN - GetLengthBeforeSerializedData -> n < 2 ^ 32 - 8 ->
  GetReadOnlyBytesForPayload rb = (Some (message_bytes m n data), n + 24) ->
  ToMessage reg (Some rb) false = Some (E_OK, Some (received m (Some o))).
Proof.
  intros [Hobj _] Hreg Hm Hfb Hcodec Hn Hal Hmax Hrd. unfold ToMessage. rewrite Hobj. cbn [negb].
  rewrite (DeSerializeMessage_ok reg f m n data o rb Hm Hcodec Hreg); [done | | done | done].
  destruct (byte8_align_bounds 32 n) as [? _]; [lia | lia |].
  unfold MAX_FRAME_LEN, GetLengthBeforeSerializedData, sizeof_CommPhyHeader,
    sizeof_CommDivergeHeader, sizeof_MessageHeader in *. lia.
Qed.

(** A frame in one packet. *)
Lemma whole_received g src bytes r rb user others m' :
  heap_total -> listening g (commLabel_ r) -> src <> [] ->
  CheckAndParsePacket src (Some bytes) (zlen bytes) emptyParseResult = (E_OK, r) ->
  SetExternalBuff emptySerialBuffer (Some bytes) (u32 (zlen bytes - pr_paddingLen_ r))
    GetAppLayerFrameHeaderLength = (E_OK, rb) ->
  frameType_ r = APPLICATION_MESSAGE -> isFragment_ r = false ->
  ToMessage reg (Some rb) false = Some (E_OK, Some m') ->
  let g' := OnBytesReceive reg g src bytes (zlen bytes) user others in
  commMap_ g' = commMap_ g /\ events g' = events g ++ [OnMessage (commLabel_ r) src m'].
Proof.
  intros [Hobj _] Hls Hsrc Hparse Hext Htype Hfrag Hmsg.
  unfold OnBytesReceive. rewrite Hparse. cbn [negb Z.eqb E_OK].
  rewrite Htype, Hfrag. cbn [decide].
  rewrite decide_False, decide_True by done.
  unfold OnAppLayerBytesReceive. rewrite Hobj, Hext. cbn [negb Z.eqb E_OK].
  destruct (app_frame_event (SetRemoteCommunicatorVersion g src (dbVersion_ r)) src rb r user others m')
    as (E1 & _ & E3); [by destruct Hls | done | done |]. done.
Qed.

(** * Fragments *)

(** What happens to a complete frame. *)
Definition on_frame g (src : cstring) (frame : SerialBuffer * ParseResult) (user : cstring)
    (others : CommunicatorAggregator D Obj -> CommunicatorAggregator D Obj)
    : CommunicatorAggregator D Obj :=
  let '(errCode, frameResult) := CheckAndParseFrame (Some (fst frame)) (snd frame) in
  if negb (errCode =? E_OK) then
    if errCode =? - E_VERSION_NOT_SUPPORT
    then set_send_side g (TriggerVersionNegotiation (send_side g) src) else g
  else if decide (frameType_ frameResult = APPLICATION_MESSAGE)
  then snd (OnAppLayerFrameReceive reg g src (Some (fst frame)) frameResult user others)
  else snd (OnCommLayerFrameReceive g src frameResult).

(** A packet that the receiver takes for a fragment. *)
Definition is_fragment (src : cstring) (pkt : list byte) : Prop :=
  exists r, CheckAndParsePacket src (Some pkt) (zlen pkt) emptyParseResult = (E_OK, r) /\
    isFragment_ r = true /\ frameType_ r <> EMPTY.

Lemma fragment_received g src pkt user others out c :
  is_fragment src pkt -> receive src (combiner_ g) pkt = ((out, E_OK), c) ->
  exists g1, same_upper g g1 /\ combiner_ g1 = c /\
    OnBytesReceive reg g src pkt (zlen pkt) user others =
      match out with None => g1 | Some frame => on_frame g1 src frame user others end.
Proof.
  intros (r & Hparse & Hfrag & Htype) Hrec. unfold receive in Hrec. rewrite Hparse in Hrec.
  cbn [negb Z.eqb E_OK] in Hrec. unfold OnBytesReceive. rewrite Hparse. cbn [negb Z.eqb E_OK].
  rewrite decide_False by done. rewrite Hfrag. unfold OnFragmentReceive.
  change (combiner_ (SetRemoteCommunicatorVersion g src (dbVersion_ r))) with (combiner_ g).
  rewrite Hrec. cbn [negb Z.eqb E_OK].
  exists (set_combiner (SetRemoteCommunicatorVersion g src (dbVersion_ r)) c).
  split; [done | split; [done |]]. by destruct out as [[fb fr]|].
Qed.

Definition receive_packets g (src : cstring) (user : cstring)
    (others : CommunicatorAggregator D Obj -> CommunicatorAggregator D Obj)
    (pkts : list (list byte)) : CommunicatorAggregator D Obj :=
  fold_left (fun g pkt => OnBytesReceive reg g src pkt (zlen pkt) user others) pkts g.

Lemma fragments_received g src pkts user others k frame c :
  Forall (is_fragment src) pkts ->
  receive_all src (combiner_ g) pkts = (replicate k (None, E_OK) ++ [(Some frame, E_OK)], c) ->
  exists g1, same_upper g g1 /\ combiner_ g1 = c /\
    receive_packets g src user others pkts = on_frame g1 src frame user others.
Proof.
  revert g pkts. induction k as [| k IH]; intros g pkts Hall Hrec.
  - destruct pkts as [| pkt pkts]; [done |]. apply Forall_cons in Hall as [Hp _]. simpl in Hrec.
    destruct (receive src (combiner_ g) pkt) as [out c1] eqn:Hone.
    destruct (receive_all src c1 pkts) as [outs c2] eqn:Hrest.
    injection Hrec as -> -> ->. assert (pkts = []) as ->.
    { destruct pkts as [| p pkts]; [done |]. simpl in Hrest.
      destruct (receive src c1 p) as [o1 c3]. by destruct (receive_all src c3 pkts). }
    simpl in Hrest. injection Hrest as <-.
    destruct (fragment_received g src pkt user others (Some frame) c1 Hp Hone) as (g1 & Hu & Hc & He).
    by exists g1.
  - destruct pkts as [| pkt pkts]; [done |]. apply Forall_cons in Hall as [Hp Hall]. simpl in Hrec.
    destruct (receive src (combiner_ g) pkt) as [out c1] eqn:Hone.
    destruct (receive_all src c1 pkts) as [outs c2] eqn:Hrest.
    injection Hrec as -> -> ->.
    destruct (fragment_received g src pkt user others None c1 Hp Hone) as (g1 & Hu & Hc & He).
    rewrite <- Hc in Hrest. destruct (IH g1 pkts Hall Hrest) as (g2 & Hu2 & Hc2 & He2).
    exists g2. split; [destruct Hu, Hu2; split; congruence | split; [done |]].
    unfold receive_packets in *. simpl. by rewrite He.
Qed.

(** The MTU leaves room behind the extended head and the packet headers, and the frame
    needs fewer than 2^16 packets. *)
Definition mtu_ok (mtu e n : Z) : Prop :=
  e + 40 < mtu < 2 ^ 32 /\ (64 + n) / (mtu - e - 40) + 1 < 2 ^ 16.

Section Framed.
Context {src : cstring} {label : LabelType} {frameId : Z} {m : Message Obj} {n : Z}
  {data : list byte} {e : Z} {b : SerialBuffer} {mem : list byte} {hf : CommPhyHeader}.
Hypothesis Hfr : framed src label frameId m n data e b mem hf.
Hypothesis Hlabel : zlen label = COMM_LABEL_LENGTH.
Hypothesis Hdata : zlen data = n.
Hypothesis Hn : 0 < n /\ 96 + n <= MAX_FRAME_LEN.
Hypothesis He : 0 <= e <= MAX_EXTEND_HEAD_LENGTH.

Lemma framed_sendable mtu : mtu_ok mtu e n -> sendable b mem hf mtu.
Proof.
  intros [Hmtu Hcount]. destruct Hfr. constructor; rewrite ?fr_ext0, ?fr_hdr0, ?fr_pay0; try done;
    unfold sizeof_CommPhyHeader, sizeof_CommPhyOptHeader; try lia.
  replace (72 + (n + 24) - 32) with (64 + n) by lia.
  by replace (mtu - e - 32 - 8) with (mtu - e - 40) by lia.
Qed.

Lemma label_message_len : zlen (label_bytes n label) = 40 /\ zlen (message_bytes m n data) = n + 24.
Proof.
  unfold label_bytes, message_bytes. rewrite zlen_app, zlen_store_mh, Hdata.
  rewrite zlen_store_div by exact Hlabel. lia.
Qed.

Lemma framed_split_length : split_length b = 64 + n.
Proof. destruct Hfr. unfold split_length, sizeof_CommPhyHeader. lia. Qed.

Lemma framed_split_body : split_body b mem = label_bytes n label ++ message_bytes m n data.
Proof.
  unfold split_body. rewrite framed_split_length. destruct Hfr. rewrite fr_ext0.
  unfold sizeof_CommPhyHeader. rewrite <- fr_body0. f_equal. lia.
Qed.

(** The assembled frame is recognised and its payload is the message. *)
Lemma assembled_parsed mtu b' :
  delivered (hf := hf) (info := split_info b mem mtu) (body := split_body b mem) b' ->
  exists r', CheckAndParseFrame (Some b')
      (frame_result (hf := hf) (info := split_info b mem mtu)) = (E_OK, r') /\
    frameType_ r' = APPLICATION_MESSAGE /\ commLabel_ r' = label /\
    GetReadOnlyBytesForPayload b' = (Some (message_bytes m n data), n + 24).
Proof.
  intros (mem' & Hwf & Hbody & Hpad & Htot & Hhl). destruct label_message_len as [Hl1 Hl2].
  cbn [splitLength split_info] in Hbody, Htot. rewrite framed_split_length in Hbody, Htot.
  rewrite framed_split_body in Hbody. pose proof (fr_type _ _ _ _ _ _ _ _ _ _ Hfr) as Ht.
  rewrite Ht in Hhl. unfold frame_header_len in Hhl. rewrite decide_True in Hhl by done.
  unfold GetAppLayerFrameHeaderLength, sizeof_CommPhyHeader, sizeof_CommDivergeHeader in *.
  pose proof Hwf as []. unfold MAX_FRAME_LEN in *.
  assert (Hpl : payloadLen_ b' = n + 24) by lia.
  assert (Hbytes : slice 0 (totalLen_ b') mem' = slice 0 32 mem' ++ label_bytes n label
    ++ message_bytes m n data).
  { rewrite Htot, slice_split by lia. by rewrite <- Hbody. }
  assert (Hz : zlen (slice 0 32 mem' ++ label_bytes n label ++ message_bytes m n data) = totalLen_ b').
  { rewrite <- Hbytes. apply zlen_slice; lia. }
  eexists. split; [| split; [| split]].
  - unfold CheckAndParseFrame. cbn [isFragment_ frame_result frame_info_of].
    unfold GetReadOnlyBytesForEntireFrame. rewrite (read_region_owned _ _ _ _ _ Hwf), Hpad, Z.sub_0_r.
    rewrite (wrap_small 32) by lia. cbn [default]. change (0 + 0) with 0.
    change (default [] (Some ?x)) with x. rewrite Hbytes.
    change (frameType_ (frame_result (info := split_info b mem mtu)))
      with (GetFrameType (phy_packetType hf)).
    rewrite decide_True by done. rewrite <- Hz at 1.
    unfold label_bytes. apply ParseCommDivergeHeader_ok.
    + apply zlen_slice; lia.
    + lia.
    + exact Hlabel.
    + cbn. unfold split_info. cbn [splitLength]. rewrite framed_split_length, (wrap_small 64);
        unfold sizeof_CommPhyHeader; lia.
  - exact Ht.
  - reflexivity.
  - unfold GetReadOnlyBytesForPayload. rewrite (read_region_owned _ _ _ _ _ Hwf), Hhl, Hpl.
    do 2 f_equal. replace (slice (0 + (32 + 40)) (n + 24) mem')
      with (slice 40 (n + 24) (slice 32 (64 + n) mem')) by (rewrite slice_slice by lia; f_equal; lia).
    rewrite Hbody, slice_app_r by lia. rewrite Hl1. change (40 - 40) with 0.
    rewrite <- Hl2. apply slice_all.
Qed.

End Framed.

(** * Sending *)

Lemma add_task_accepts (sched : SendTaskScheduler) task prio :
  curTotalSizeByByte_ sched < u32 (SendTaskScheduler.MAX_CAPACITY
    + count_of (extraCapacityInByteByPrio_ sched) prio) ->
  exists sched', AddSendTaskIntoSchedule sched task prio = (E_OK, sched') /\
    tasks_of sched' prio (st_dstTarget task) = tasks_of sched prio (st_dstTarget task) ++ [task].
Proof.
  intros Hroom. unfold AddSendTaskIntoSchedule.
  rewrite (proj2 (Z.leb_gt _ _) Hroom). eexists. split; [reflexivity |].
  unfold tasks_of at 1, groups_of, set_tasks. simpl. rewrite lookup_insert_eq. simpl.
  by rewrite lookup_insert_eq.
Qed.

Lemma send_message_queues c s dst (m : Message Obj) paramInfo needHead timeout onEnd wakes b0 b1 b2 :
  let src := GetLocalIdentity (adapterHandle_ s) in
  let h := if needHead : bool then GetExtendHeaderHandle (adapterHandle_ s) paramInfo else None in
  dst <> [] -> HashFunc src <> 0 -> (needHead = true -> is_Some h) ->
  curTotalSizeByByte_ (scheduler_ s) < u32 (SendTaskScheduler.MAX_CAPACITY
    + count_of (extraCapacityInByteByPrio_ (scheduler_ s)) (prio_ m)) ->
  ToSerialBuffer reg (Some m) h false = Some (E_OK, Some b0) ->
  SetDivergeHeader (Some b0) (cm_commLabel_ c) = (E_OK, Some b1) ->
  SetPhyHeader (Some b1) (mkPhyHeaderInfo (HashFunc src) (incFrameId_ s) APPLICATION_MESSAGE)
    = (E_OK, Some b2) ->
  exists s', SendMessage reg c s dst (Some m) (mkSendConfig true needHead timeout paramInfo) onEnd wakes
      = Some ((E_OK, []), s') /\
    tasks_of (scheduler_ s') (prio_ m) dst
      = tasks_of (scheduler_ s) (prio_ m) dst ++ [mkSendTask b2 dst onEnd] /\
    wakingSignal_ s' = true.
Proof.
  intros src h Hdst Hsrc Hhead Hroom E0 E1 E2. unfold SendMessage.
  destruct dst as [| x dst]; [done |]. cbn [sc_isNeedExtendHead sc_paramInfo]. fold h.
  assert (Hnull : needHead && is_null h = false).
  { destruct needHead; [| done]. destruct (Hhead eq_refl) as [y ->]. done. }
  rewrite Hnull, E0. cbn [mbind option_bind negb Z.eqb E_OK]. rewrite E1. cbn [negb Z.eqb E_OK].
  unfold CreateSendTask, prepare_send, ReGenerateLocalSourceIdIfNeed.
  cbn [localSourceId_ GenerateLocalSourceId adapterHandle_].
  fold src. rewrite (proj2 (Z.eqb_neq _ _) Hsrc). cbn [negb next_frame_id].
  cbn [localSourceId_ incFrameId_ GenerateLocalSourceId]. fold src. rewrite E2.
  cbn [negb Z.eqb E_OK tc_nonBlock tc_prio sc_nonBlock sc_timeout mbind option_bind].
  unfold add_task. cbn [scheduler_].
  destruct (add_task_accepts (scheduler_ s) (mkSendTask b2 (x :: dst) onEnd) (prio_ m) Hroom)
    as (sched' & Hadd & Htasks). simpl in Hadd |- *. rewrite Hadd. simpl. eauto.
Qed.

Lemma packets_whole b mem p mtu :
  owned_wf b mem p -> extendHeadLen_ b = p -> p <= MAX_EXTEND_HEAD_LENGTH ->
  totalLen_ b + p <= mtu ->
  packets_of b mtu = (E_OK, [slice 0 (totalLen_ b + p) mem]) /\
  drop (Z.to_nat p) (slice 0 (totalLen_ b + p) mem) = slice p (totalLen_ b) mem.
Proof.
  intros Hwf Hp Hmax Hle. pose proof Hwf as []. unfold MAX_TOTAL_LEN, MAX_EXTEND_HEAD_LENGTH in *.
  unfold packets_of, SplitFrameIntoPacketsIfNeed, whole_packet, GetReadOnlyBytesForEntireBuffer,
    GetExtendHeadLength. rewrite (read_region_owned _ _ _ _ _ Hwf), Hp, owf_ptr, owf_mem.
  rewrite (wrap_small 32) by lia. rewrite (proj2 (Z.leb_le _ _) Hle), Z.sub_diag. simpl.
  split; [done |]. replace (totalLen_ b + p) with (p + totalLen_ b) by lia.
  rewrite slice_split by lia. rewrite drop_app_length'; [by rewrite Z.add_0_l |].
  assert (Hz : zlen (slice 0 p mem) = p) by (apply zlen_slice; lia). unfold zlen in Hz. lia.
Qed.

(** * The theorem *)

(** The receiver is ready for a frame of [src]: its combiner is in order and does not know
    the frame yet. *)
Record expecting g (label : LabelType) (src : cstring) (frameId : Z) : Prop := {
  ex_listening : listening g label;
  ex_combiner : combiner_inv (combiner_ g);
  ex_progress : incProgressId_ (combiner_ g) + 2 ^ 16 <= UINT64_MAX;
  ex_unknown : works_of (combiner_ g) (HashFunc src) !! frameId = None
}.

(** All packets of a framed message, in any order. *)
Section Arrival.
Context {src : cstring} {label : LabelType} {frameId : Z} {m : Message Obj} {f : TransformFunc Obj}
  {n : Z} {data : list byte} {o : Obj} {e : Z} {b : SerialBuffer} {mem : list byte}
  {hf : CommPhyHeader} {mtu : Z}.
Hypothesis Hfr : framed src label frameId m n data e b mem hf.
Hypothesis Hsrc : src <> [].
Hypothesis Hheap : heap_total.
Hypothesis Hreg : reg !! messageId_ m = Some f.
Hypothesis Hm : message_ok m.
Hypothesis Hfb : IsFeedbackErrorMessage (errorNo_ m) = false.
Hypothesis Hcodec : decodes f m n data o.
Hypothesis Hn : 0 < n < 2 ^ 32 - 8.
Hypothesis Hal : byte8_align 32 n <= MAX_FRAME_LEN - GetLengthBeforeSerializedData.
Hypothesis Hl : zlen label = COMM_LABEL_LENGTH.
Hypothesis He : 0 <= e <= MAX_EXTEND_HEAD_LENGTH.

Lemma frame_bound : 96 + n <= MAX_FRAME_LEN.
Proof.
  destruct (byte8_align_bounds 32 n); [lia | lia |].
  change GetLengthBeforeSerializedData with 96 in Hal. lia.
Qed.

Lemma read_back rb :
  GetReadOnlyBytesForPayload rb = (Some (message_bytes m n data), n + 24) ->
  ToMessage reg (Some rb) false = Some (E_OK, Some (received m (Some o))).
Proof. by apply (message_read m f n data o rb Hheap Hreg Hm Hfb Hcodec ltac:(lia) Hal ltac:(lia)). Qed.

(** What the receiver is to have seen. *)
Definition delivers g user others (arrived : list (list byte)) : Prop :=
  let g' := receive_packets g src user others arrived in
  commMap_ g' = commMap_ g /\ events g' = events g ++ [OnMessage label src (received m (Some o))].

Lemma whole_delivered g user others bytes r rb :
  GetReadOnlyBytesForEntireBuffer b = (Some bytes, zlen bytes) ->
  CheckAndParsePacket src (Some bytes) (zlen bytes) emptyParseResult = (E_OK, r) ->
  SetExternalBuff emptySerialBuffer (Some bytes) (u32 (zlen bytes - pr_paddingLen_ r))
    GetAppLayerFrameHeaderLength = (E_OK, rb) ->
  frameType_ r = APPLICATION_MESSAGE -> isFragment_ r = false -> commLabel_ r = label ->
  GetReadOnlyBytesForPayload rb = (Some (message_bytes m n data), n + 24) ->
  expecting g label src frameId -> delivers g user others [slice e (totalLen_ b) mem].
Proof.
  intros Erd Eparse Eext Et Ef Elabel Epay [Hls _ _ _].
  pose proof (fr_wf _ _ _ _ _ _ _ _ _ _ Hfr) as Hwf.
  unfold GetReadOnlyBytesForEntireBuffer in Erd. rewrite (read_region_owned _ _ _ _ _ Hwf) in Erd.
  rewrite Z.add_0_r in Erd. injection Erd as Hb _. rewrite Hb.
  unfold delivers, receive_packets. cbn [fold_left].
  rewrite <- Elabel. rewrite <- Elabel in Hls.
  eapply whole_received; try done. by apply read_back.
Qed.

(** The receiver's combiner hands over the frame with the last of its packets. *)
Lemma split_delivered g user others order :
  mtu_ok mtu e n -> mtu < totalLen_ b + e -> expecting g label src frameId ->
  order ≡ₚ seqZ 0 (split_count b mtu) ->
  delivers g user others (packets (hf := hf) (info := split_info b mem mtu)
    (body := split_body b mem) order).
Proof.
  intros Hmtu Hsplit [Hls Hinv Hprog Hnone] Hord. pose proof frame_bound as Hmax.
  pose proof (fr_ext _ _ _ _ _ _ _ _ _ _ Hfr) as Hext. unfold MAX_FRAME_LEN in Hmax.
  assert (Hn' : 0 < n /\ 96 + n <= MAX_FRAME_LEN) by (unfold MAX_FRAME_LEN; lia).
  pose proof (framed_sendable Hfr Hn' He mtu Hmtu) as Hs.
  assert (Hlong : mtu < totalLen_ b + extendHeadLen_ b) by lia.
  pose proof (split_count_bounds Hs Hlong) as [Hc _]. pose proof (split_info_wf Hs Hlong) as Hswf.
  pose proof (fr_from _ _ _ _ _ _ _ _ _ _ Hfr) as Hfrom. pose proof (ff_source _ Hfrom) as Hsid.
  pose proof (fr_id _ _ _ _ _ _ _ _ _ _ Hfr) as Hfid. pose proof (fr_type _ _ _ _ _ _ _ _ _ _ Hfr) as Htype.
  destruct (receive_any_order Hswf src order (combiner_ g) Hheap) as (c' & b' & E' & Hdel & _ & _); auto.
  { unfold frame_long_enough. rewrite Htype, decide_True by done. cbn [splitLength split_info].
    rewrite (framed_split_length Hfr). unfold GetAppLayerFrameHeaderLength, sizeof_CommPhyHeader,
      sizeof_CommDivergeHeader. lia. }
  { cbn [fragCount split_info]. lia. }
  { by rewrite Hsid, Hfid. }
  edestruct (fun Hall => fragments_received g src _ user others _ _ _ Hall E')
    as (g1 & [Hu1 Hu2] & Hc1 & Hfin).
  { apply Forall_forall. intros pkt (i & -> & Hi)%list_elem_of_fmap.
    assert (Hi' : 0 <= i < split_count b mtu) by (rewrite Hord, elem_of_seqZ in Hi; lia).
    destruct Hfrom. eexists. split; [by apply (frag_packet_parse Hswf src i) |]. done. }
  destruct (assembled_parsed Hfr Hl (dc_len _ _ _ _ _ Hcodec) Hn' mtu b' Hdel)
    as (r' & Hcp & Ht' & Hl' & Hpay').
  unfold delivers. rewrite Hfin. unfold on_frame. cbn [fst snd]. rewrite Hcp.
  cbn [negb Z.eqb E_OK]. rewrite decide_True by done.
  destruct (app_frame_event g1 src b' r' user others (received m (Some o))) as (E1 & _ & E3);
    [| done | by apply read_back |].
  { rewrite Hl'. destruct Hls as [Hls]. constructor. by rewrite Hu1. }
  by rewrite E1, E3, Hu1, Hu2, Hl'.
Qed.

(** The packets of the sender, without their extended heads. *)
Lemma split_packets_of :
  mtu_ok mtu e n -> mtu < totalLen_ b + e ->
  exists pkts, packets_of b mtu = (E_OK, pkts) /\
    map (drop (Z.to_nat e)) pkts = packets (hf := hf) (info := split_info b mem mtu)
      (body := split_body b mem) (seqZ 0 (split_count b mtu)).
Proof.
  intros Hmtu Hsplit. pose proof (fr_ext _ _ _ _ _ _ _ _ _ _ Hfr) as Hext.
  assert (Hn' : 0 < n /\ 96 + n <= MAX_FRAME_LEN) by (split; [lia | apply frame_bound]).
  pose proof (framed_sendable Hfr Hn' He mtu Hmtu) as Hs.
  assert (Hlong : mtu < totalLen_ b + extendHeadLen_ b) by lia.
  destruct (split_packets Hs Hlong) as (pieces & Esplit & Hpieces).
  pose proof (SplitFrame_eq Hs Hlong) as Heq. rewrite Esplit in Heq. injection Heq as Heq.
  pose proof (split_count_bounds Hs Hlong) as [Hc _].
  assert (Hlen : length pieces = Z.to_nat (split_count b mtu))
    by (rewrite Heq, length_map; apply length_seqZ).
  exists (map fst pieces). split.
  - unfold packets_of. rewrite Esplit. destruct pieces; [simpl in Hlen; lia | done].
  - rewrite <- Hpieces, map_map. apply map_ext_in. intros [v off] Hin. unfold strip_head. simpl.
    rewrite Heq in Hin. apply in_map_iff in Hin as (j & Hj & _). injection Hj as _ <-. by rewrite Hext.
Qed.

End Arrival.

(** C1: A message that [SendMessage] accepts is queued as one frame; whatever the MTU of
    the adapter, the packets the sending thread makes of the frame, stripped of the extended
    head and received in any order by an aggregator whose communicator of the label
    listens, make it call the message callback exactly once, with the sender's name and the
    message as it was sent, its object being what the registered deserializer makes of the
    data. *)
Theorem message_delivered c s dst (m : Message Obj) f n o paramInfo needHead timeout onEnd wakes
    e head mtu :
  let src := GetLocalIdentity (adapterHandle_ s) in
  let label := cm_commLabel_ c in
  let h := if needHead : bool then GetExtendHeaderHandle (adapterHandle_ s) paramInfo else None in
  heap_total -> dst <> [] -> HashFunc src <> 0 -> 0 <= incFrameId_ s < 2 ^ 32 ->
  (needHead = true -> is_Some h) -> handle_ok h e head -> zlen label = COMM_LABEL_LENGTH ->
  reg !! messageId_ m = Some f -> message_ok m -> IsFeedbackErrorMessage (errorNo_ m) = false ->
  codec f m n o -> 0 < n < 2 ^ 32 - 8 ->
  byte8_align 32 n <= MAX_FRAME_LEN - GetLengthBeforeSerializedData -> mtu_ok mtu e n ->
  curTotalSizeByByte_ (scheduler_ s) < u32 (SendTaskScheduler.MAX_CAPACITY
    + count_of (extraCapacityInByteByPrio_ (scheduler_ s)) (prio_ m)) ->
  exists b s' pkts,
    SendMessage reg c s dst (Some m) (mkSendConfig true needHead timeout paramInfo) onEnd wakes
      = Some ((E_OK, []), s') /\
    tasks_of (scheduler_ s') (prio_ m) dst
      = tasks_of (scheduler_ s) (prio_ m) dst ++ [mkSendTask b dst onEnd] /\
    packets_of b mtu = (E_OK, pkts) /\
    forall arrived g user others,
      arrived ≡ₚ map (drop (Z.to_nat e)) pkts -> expecting g label src (incFrameId_ s) ->
      let g' := receive_packets g src user others arrived in
      commMap_ g' = commMap_ g /\
      events g' = events g ++ [OnMessage label src (received m (Some o))].
Proof.
  intros src label h Hheap Hdst Hsrc0 Hid Hneed Hh Hl Hreg Hm Hfb Hcodec Hn Hal Hmtu Hroom.
  assert (Hsrc : src <> []) by (intros E; by rewrite E in Hsrc0).
  destruct (frame_ready src f m n o h e head label (incFrameId_ s) Hheap Hreg Hcodec Hh Hn Hal Hl Hid)
    as (data & b0 & b1 & b2 & mem & hf & Hdec & E0 & E1 & E2 & Hfr & bytes & r & rb & F1 & F2 & F3 & F4 & F5 & F6 & F7).
  destruct (send_message_queues c s dst m paramInfo needHead timeout onEnd wakes b0 b1 b2
              Hdst Hsrc0 Hneed Hroom E0 E1 E2) as (s' & Hsend & Htasks & _).
  assert (He : 0 <= e <= MAX_EXTEND_HEAD_LENGTH) by (by destruct Hh as (_ & He & _)).
  destruct (Z.le_gt_cases (totalLen_ b2 + e) mtu) as [Hfit | Hsplit].
  - destruct (packets_whole b2 mem e mtu (fr_wf _ _ _ _ _ _ _ _ _ _ Hfr)
      (fr_ext _ _ _ _ _ _ _ _ _ _ Hfr) (proj2 He) Hfit) as [Hp Hd].
    exists b2, s'. eexists. split; [exact Hsend | split; [exact Htasks | split; [exact Hp |]]].
    intros arrived g user others Harr Hex. simpl in Harr. rewrite Hd in Harr.
    apply Permutation_singleton_r in Harr as ->.
    by apply (whole_delivered Hfr Hsrc Hheap Hreg Hm Hfb Hdec Hn Hal g user others bytes r rb).
  - destruct (split_packets_of (mtu := mtu) Hfr Hn Hal He Hmtu ltac:(lia)) as (pkts & Hp & Hd).
    exists b2, s', pkts. split; [exact Hsend | split; [exact Htasks | split; [exact Hp |]]].
    intros arrived g user others Harr Hex. rewrite Hd in Harr. unfold packets in Harr.
    apply Permutation_map_inv in Harr as (order & -> & Hord).
    apply (split_delivered Hfr Hsrc Hheap Hreg Hm Hfb Hdec Hn Hal Hl He); [done | lia | done |].
    by symmetry.
Qed.

End Delivery.

(** * A concrete delivery *)

Module DeliverySample.

#[local] Existing Instance x86_host.
#[local] Existing Instance zero_heap.
Import AggregatorSample.

Definition no_info : ExtendInfo := mkExtendInfo [] [] [] [].

(** The device [self] sends, over an MTU of 88 bytes, a message of 3 bytes to [peer], where
    a communicator listens. *)
Definition sender : SendSide cstring := send_side (D := cstring) (Obj := list byte) aggr0.
Definition endpoint : Communicator :=
  snd (RegOnMessageCallback (Obj := list byte) (newCommunicator raw_label) (Some 1) None).
Definition receiver : CommunicatorAggregator cstring (list byte) :=
  set_commMap (Initialize (newAggregator peer) 0 5) {[raw_label := (endpoint, true)]}.

Lemma receiver_expecting : expecting receiver raw_label self 0.
Proof.
  constructor.
  - constructor. exists endpoint, 1. split; [| split; reflexivity].
    unfold receiver. cbn [commMap_ set_commMap]. apply lookup_singleton_eq.
  - exact empty_combiner_inv.
  - vm_compute. discriminate.
  - vm_compute. reflexivity.
Qed.

Lemma message_delivered_witness :
  exists b s' pkts,
    SendMessage raw_registry endpoint sender peer (Some (raw_message 0))
      (mkSendConfig true false 0 no_info) None [] = Some ((E_OK, []), s') /\
    tasks_of (scheduler_ s') HIGH peer = [mkSendTask b peer None] /\
    packets_of b 88 = (E_OK, pkts) /\
    forall arrived, arrived ≡ₚ map (drop (Z.to_nat 0)) pkts ->
      events (receive_packets raw_registry receiver self [] id arrived)
      = [OnMessage raw_label self (received (raw_message 0) (Some [x01; x02; x03]))].
Proof.
  destruct (message_delivered raw_registry endpoint sender peer (raw_message 0) raw_transform 3
              [x01; x02; x03] no_info false 0 None [] 0 [] 88)
    as (b & s' & pkts & E1 & E2 & E3 & Hall).
  - exact zero_heap_total.
  - discriminate.
  - vm_compute. discriminate.
  - vm_compute. split; [discriminate | reflexivity].
  - discriminate.
  - vm_compute. intuition congruence.
  - reflexivity.
  - reflexivity.
  - apply raw_message_ok. lia.
  - reflexivity.
  - apply raw_codec.
  - lia.
  - vm_compute. discriminate.
  - vm_compute. intuition congruence.
  - vm_compute. reflexivity.
  - exists b, s', pkts. split; [exact E1 | split; [exact E2 | split; [exact E3 |]]].
    intros arrived Harr.
    exact (proj2 (Hall arrived receiver [] id Harr receiver_expecting)).
Defined.

End DeliverySample.
