(* ===== verification/NetworkAdapter.v ===== *)
(** Model of [NetworkAdapter] (communicator/src/network_adapter.cpp), the instance of [Adapter]
    over the communication of the process: which devices are online, what the aggregator is
    told, and the bounds of MTU and time-out. *)

From S2P Require Import Prelude Memory SerialBuffer FrameHeader CommTypes ProtocolProto AppMessage.
From S2P Require Import CommitNotify SendTaskScheduler CommunicatorLinker SendSide Communicator Delivery.
From Stdlib Require Import ZArith Lia.
From Stdlib Require Import Strings.Byte.
From stdpp Require Import base numbers list gmap.

Open Scope Z_scope.

Definition MIN_MTU_SIZE : Z := 1024.
Definition MAX_MTU_SIZE : Z := 5242880.
Definition MIN_TIMEOUT : Z := 5000.
Definition MAX_TIMEOUT : Z := 60000.

(** Of [DBStatus]. *)
Definition OK : Z := 0.
Definition NO_PERMISSION : Z := 9.

(** [IProcessCommunicator] (interfaces/include/iprocess_communicator.h) and the queue of tasks of
    the runtime context: another library's answers, by the number of the call. A device is its
    identifier. *)
Class ProcessCommunicator := {
  pc_Start : nat -> cstring -> Z;
  pc_Stop : nat -> Z;
  pc_RegOnDeviceChange : nat -> bool -> Z;
  pc_RegOnDataReceive : nat -> bool -> Z;
  pc_SendData : nat -> cstring -> list byte -> Z;
  pc_GetMtuSize : nat -> Z;
  pc_GetMtuSize_device : nat -> cstring -> Z;
  pc_GetTimeout : nat -> Z;
  pc_GetTimeout_device : nat -> cstring -> Z;
  pc_GetLocalDeviceInfos : nat -> cstring;
  pc_GetRemoteOnlineDeviceInfosList : nat -> list cstring;
  pc_IsSameProcessLabelStartedOnPeerDevice : nat -> cstring -> bool;
  pc_CheckAndGetDataHeadInfo : nat -> list byte -> Z * Z * list cstring;
  pc_GetExtendHeaderHandle : nat -> ExtendInfo -> option ExtendHeaderHandle;
  rc_ScheduleQueuedTask : nat -> Z
}.

(** The tasks that are queued: to look at the devices that were found at the start, and to report
    a device that has gone. *)
Inductive AsyncTask :=
  | SearchOnline (onlineDev : list cstring)
  | ReportOffline (device : cstring).

(** The calls of the callbacks and finalizers. *)
Inductive AdapterEvent :=
  | OnReceive (srcTarget : cstring) (bytes : list byte) (userId : cstring)
  | OnChange (target : cstring) (isOnline : bool)
  | OnAdapterFinalize (finalizer : Z).

Record NetworkAdapter := mkNetworkAdapter {
  processLabel_ : cstring;
  processCommunicator_ : bool;
  localIdentity_ : cstring;
  isMtuSizeValid_ : bool;
  mtuSize_ : Z;
  onlineRemoteDev_ : gset cstring;
  pendingAsyncTaskCount_ : Z;
  onReceiveHandle_ : callback;
  onChangeHandle_ : callback;
  na_onSendableHandle_ : callback;
  onReceiveFinalizer_ : callback;
  onChangeFinalizer_ : callback;
  na_onSendableFinalizer_ : callback;
  na_queue : list AsyncTask;
  na_events : list AdapterEvent;
  na_calls : nat
}.

Definition newNetworkAdapter (inProcessLabel : cstring) (inCommunicator : bool) : NetworkAdapter :=
  mkNetworkAdapter inProcessLabel inCommunicator [] false 0 ∅ 0 None None None None None None [] [] 0.

Section Fields.
Implicit Types a : NetworkAdapter.

Definition set_identity a (v : cstring) : NetworkAdapter :=
  mkNetworkAdapter (processLabel_ a) (processCommunicator_ a) v (isMtuSizeValid_ a) (mtuSize_ a) (onlineRemoteDev_ a)
    (pendingAsyncTaskCount_ a) (onReceiveHandle_ a) (onChangeHandle_ a) (na_onSendableHandle_ a) (onReceiveFinalizer_ a)
    (onChangeFinalizer_ a) (na_onSendableFinalizer_ a) (na_queue a) (na_events a) (na_calls a).
Definition set_mtu a (v : Z) : NetworkAdapter :=
  mkNetworkAdapter (processLabel_ a) (processCommunicator_ a) (localIdentity_ a) true v (onlineRemoteDev_ a)
    (pendingAsyncTaskCount_ a) (onReceiveHandle_ a) (onChangeHandle_ a) (na_onSendableHandle_ a) (onReceiveFinalizer_ a)
    (onChangeFinalizer_ a) (na_onSendableFinalizer_ a) (na_queue a) (na_events a) (na_calls a).
Definition set_online a (v : gset cstring) : NetworkAdapter :=
  mkNetworkAdapter (processLabel_ a) (processCommunicator_ a) (localIdentity_ a) (isMtuSizeValid_ a) (mtuSize_ a) v
    (pendingAsyncTaskCount_ a) (onReceiveHandle_ a) (onChangeHandle_ a) (na_onSendableHandle_ a) (onReceiveFinalizer_ a)
    (onChangeFinalizer_ a) (na_onSendableFinalizer_ a) (na_queue a) (na_events a) (na_calls a).
Definition set_queue a (pending : Z) (queue : list AsyncTask) : NetworkAdapter :=
  mkNetworkAdapter (processLabel_ a) (processCommunicator_ a) (localIdentity_ a) (isMtuSizeValid_ a) (mtuSize_ a)
    (onlineRemoteDev_ a) pending (onReceiveHandle_ a) (onChangeHandle_ a) (na_onSendableHandle_ a) (onReceiveFinalizer_ a)
    (onChangeFinalizer_ a) (na_onSendableFinalizer_ a) queue (na_events a) (na_calls a).
Definition emit_event a (es : list AdapterEvent) : NetworkAdapter :=
  mkNetworkAdapter (processLabel_ a) (processCommunicator_ a) (localIdentity_ a) (isMtuSizeValid_ a) (mtuSize_ a)
    (onlineRemoteDev_ a) (pendingAsyncTaskCount_ a) (onReceiveHandle_ a) (onChangeHandle_ a) (na_onSendableHandle_ a)
    (onReceiveFinalizer_ a) (onChangeFinalizer_ a) (na_onSendableFinalizer_ a) (na_queue a) (na_events a ++ es) (na_calls a).
Definition set_handles a (receive receiveFin change changeFin sendable sendableFin : callback) : NetworkAdapter :=
  mkNetworkAdapter (processLabel_ a) (processCommunicator_ a) (localIdentity_ a) (isMtuSizeValid_ a) (mtuSize_ a)
    (onlineRemoteDev_ a) (pendingAsyncTaskCount_ a) receive change sendable receiveFin changeFin sendableFin (na_queue a)
    (na_events a) (na_calls a).

(** A call of another library. *)
Definition call {A} (f : nat -> A) a : A * NetworkAdapter :=
  (f (na_calls a),
   mkNetworkAdapter (processLabel_ a) (processCommunicator_ a) (localIdentity_ a) (isMtuSizeValid_ a) (mtuSize_ a)
     (onlineRemoteDev_ a) (pendingAsyncTaskCount_ a) (onReceiveHandle_ a) (onChangeHandle_ a) (na_onSendableHandle_ a)
     (onReceiveFinalizer_ a) (onChangeFinalizer_ a) (na_onSendableFinalizer_ a) (na_queue a) (na_events a) (S (na_calls a))).

End Fields.

(** * MTU and time-out *)

Definition CheckAndAdjustMtuSize (inMtuSize : Z) : Z :=
  if inMtuSize <? MIN_MTU_SIZE then MIN_MTU_SIZE
  else if MAX_MTU_SIZE <? inMtuSize then MAX_MTU_SIZE
  else inMtuSize - inMtuSize mod 8.

Definition CheckAndAdjustTimeout (inTimeout : Z) : Z :=
  if inTimeout <? MIN_TIMEOUT then MIN_TIMEOUT
  else if MAX_TIMEOUT <? inTimeout then MAX_TIMEOUT
  else inTimeout.

Section Network.
Context `{ProcessCommunicator}.
Implicit Types a : NetworkAdapter.

Definition na_GetMtuSize a : Z * NetworkAdapter :=
  if isMtuSizeValid_ a then (mtuSize_ a, a)
  else
    let '(mtu, a) := call pc_GetMtuSize a in
    let a := set_mtu a (CheckAndAdjustMtuSize mtu) in
    (mtuSize_ a, a).

(** Without [OMIT_MTU_CACHE]. *)
Definition na_GetMtuSize_target a (target : cstring) : Z * NetworkAdapter :=
  let '(oriMtuSize, a) := call (fun n => pc_GetMtuSize_device n target) a in
  (CheckAndAdjustMtuSize oriMtuSize, a).

Definition na_GetTimeout a : Z * NetworkAdapter :=
  let '(timeout, a) := call pc_GetTimeout a in (CheckAndAdjustTimeout timeout, a).

Definition na_GetTimeout_target a (target : cstring) : Z * NetworkAdapter :=
  let '(timeout, a) := call (fun n => pc_GetTimeout_device n target) a in (CheckAndAdjustTimeout timeout, a).

(** The identity is left as it is when it is not known. *)
Definition na_GetLocalIdentity a (outTarget : cstring) : (Z * cstring) * NetworkAdapter :=
  let '(identifier, a) := call pc_GetLocalDeviceInfos a in
  if is_empty identifier then ((- E_PERIPHERAL_INTERFACE_FAIL, outTarget), a)
  else ((E_OK, identifier), set_identity a identifier).

(** * Devices come and go *)

Definition OnDeviceChangeHandler a (device : cstring) (isOnline : bool) : NetworkAdapter :=
  let report := fun a => match onChangeHandle_ a with
                         | None => a
                         | Some _ => emit_event a [OnChange device isOnline]
                         end in
  if isOnline then
    let '(started, a) := call (fun n => pc_IsSameProcessLabelStartedOnPeerDevice n device) a in
    if negb started then set_online a (onlineRemoteDev_ a ∖ {[device]})
    else report (set_online a (onlineRemoteDev_ a ∪ {[device]}))
  else report (set_online a (onlineRemoteDev_ a ∖ {[device]})).

(** [pendingAsyncTaskCount_] is an [int]. *)
Definition schedule a (task : AsyncTask) : NetworkAdapter :=
  let a := set_queue a (to_signed 32 (pendingAsyncTaskCount_ a + 1)) (na_queue a) in
  let '(errCode, a) := call rc_ScheduleQueuedTask a in
  if errCode =? E_OK then set_queue a (pendingAsyncTaskCount_ a) (na_queue a ++ [task])
  else set_queue a (to_signed 32 (pendingAsyncTaskCount_ a - 1)) (na_queue a).

Definition SearchOnlineRemoteDeviceAtStartup a : NetworkAdapter :=
  let '(onlineDev, a) := call pc_GetRemoteOnlineDeviceInfosList a in
  if is_empty onlineDev then a else schedule a (SearchOnline onlineDev).

Definition CheckDeviceOnlineAfterReception a (device : cstring) : NetworkAdapter :=
  if bool_decide (device ∈ onlineRemoteDev_ a) then a else OnDeviceChangeHandler a device true.

Definition CheckDeviceOfflineAfterSendFail a (device : cstring) : NetworkAdapter :=
  if bool_decide (device ∈ onlineRemoteDev_ a) then
    let '(started, a) := call (fun n => pc_IsSameProcessLabelStartedOnPeerDevice n device) a in
    if negb started then schedule (set_online a (onlineRemoteDev_ a ∖ {[device]})) (ReportOffline device) else a
  else a.

(** The task at the front of the queue runs. *)
Definition run_task a : NetworkAdapter :=
  match na_queue a with
  | [] => a
  | task :: queue =>
    let a := set_queue a (pendingAsyncTaskCount_ a) queue in
    let a :=
      match task with
      | SearchOnline onlineDev =>
        let '((_, localIdentity), a) := na_GetLocalIdentity a [] in
        fold_left (fun a device => if bool_decide (device = localIdentity) then a else OnDeviceChangeHandler a device true) onlineDev a
      | ReportOffline device => OnDeviceChangeHandler a device false
      end in
    set_queue a (to_signed 32 (pendingAsyncTaskCount_ a - 1)) (na_queue a)
  end.

Definition IsDeviceOnline a (device : cstring) : bool := bool_decide (device ∈ onlineRemoteDev_ a).

(** * Data *)

Definition na_SendBytes a (dstTarget : cstring) (bytes : option (list byte)) (length : Z) : Z * NetworkAdapter :=
  match bytes with
  | None => (- E_INVALID_ARGS, a)
  | Some bytes =>
    if length =? 0 then (- E_INVALID_ARGS, a)
    else
      let '(errCode, a) := call (fun n => pc_SendData n dstTarget bytes) a in
      if negb (errCode =? OK) then (- E_PERIPHERAL_INTERFACE_FAIL, CheckDeviceOfflineAfterSendFail a dstTarget)
      else (E_OK, a)
  end.

(** [None]: the head would be longer than the data, which is then read out of bounds. *)
Definition OnDataReceiveHandler a (srcDevice : cstring) (data : option (list byte)) (length : Z) : option NetworkAdapter :=
  match data with
  | None => Some a
  | Some data =>
    if length =? 0 then Some a
    else
      let '((errCode, headLength, userId), a) := call (fun n => pc_CheckAndGetDataHeadInfo n data) a in
      if errCode =? NO_PERMISSION then Some a
      else match onReceiveHandle_ a with
           | None => Some a
           | Some _ =>
             if length <? headLength then None
             else
               let currentUserId := default [] (head userId) in
               let bytes := take (Z.to_nat (length - headLength)) (drop (Z.to_nat headLength) data) in
               Some (CheckDeviceOnlineAfterReception (emit_event a [OnReceive srcDevice bytes currentUserId]) srcDevice)
           end
  end.

(** * Start, stop and callbacks *)

Definition StartAdapter a : Z * NetworkAdapter :=
  if is_empty (processLabel_ a) then (- E_INVALID_ARGS, a)
  else if negb (processCommunicator_ a) then (- E_INVALID_ARGS, a)
  else
    let '(errCode, a) := call (fun n => pc_Start n (processLabel_ a)) a in
    if negb (errCode =? OK) then (- E_PERIPHERAL_INTERFACE_FAIL, a)
    else
      let '(errCode, a) := call (fun n => pc_RegOnDataReceive n true) a in
      if negb (errCode =? OK) then
        let '(_, a) := call pc_Stop a in (- E_PERIPHERAL_INTERFACE_FAIL, a)
      else
        let '(errCode, a) := call (fun n => pc_RegOnDeviceChange n true) a in
        if negb (errCode =? OK) then
          let '(_, a) := call (fun n => pc_RegOnDataReceive n false) a in
          let '(_, a) := call pc_Stop a in (- E_PERIPHERAL_INTERFACE_FAIL, a)
        else (E_OK, SearchOnlineRemoteDeviceAtStartup a).

(** Up to the wait for the tasks, and whether the wait is over. *)
Definition StopAdapter a : NetworkAdapter :=
  let '(_, a) := call (fun n => pc_RegOnDeviceChange n false) a in
  let '(_, a) := call (fun n => pc_RegOnDataReceive n false) a in
  let '(_, a) := call pc_Stop a in a.

Definition stop_waits a : bool := 0 <? pendingAsyncTaskCount_ a.

Definition finalized (fin : callback) : list AdapterEvent := match fin with Some f => [OnAdapterFinalize f] | None => [] end.

Definition RegBytesReceiveCallback a (onReceive inOper : callback) : Z * NetworkAdapter :=
  let '((errCode, fin), (handle, finalizer)) := RegCallBack onReceive (onReceiveHandle_ a) inOper (onReceiveFinalizer_ a) in
  (errCode, emit_event (set_handles a handle finalizer (onChangeHandle_ a) (onChangeFinalizer_ a) (na_onSendableHandle_ a)
                          (na_onSendableFinalizer_ a)) (finalized fin)).

Definition RegTargetChangeCallback a (onChange inOper : callback) : Z * NetworkAdapter :=
  let '((errCode, fin), (handle, finalizer)) := RegCallBack onChange (onChangeHandle_ a) inOper (onChangeFinalizer_ a) in
  (errCode, emit_event (set_handles a (onReceiveHandle_ a) (onReceiveFinalizer_ a) handle finalizer (na_onSendableHandle_ a)
                          (na_onSendableFinalizer_ a)) (finalized fin)).

Definition RegSendableCallback a (onSendable inOper : callback) : Z * NetworkAdapter :=
  let '((errCode, fin), (handle, finalizer)) := RegCallBack onSendable (na_onSendableHandle_ a) inOper (na_onSendableFinalizer_ a) in
  (errCode, emit_event (set_handles a (onReceiveHandle_ a) (onReceiveFinalizer_ a) (onChangeHandle_ a) (onChangeFinalizer_ a) handle finalizer)
              (finalized fin)).

(** The aggregator's view: its interface does not show that the identity is remembered and that
    calls are counted. *)
#[export] Instance network_adapter : SendSide.Adapter NetworkAdapter := {|
  GetLocalIdentity := fun a => (na_GetLocalIdentity a []).1.2;
  GetMtuSize := fun a target => (na_GetMtuSize_target a target).1;
  SendBytes := fun a dst bytes => na_SendBytes a dst (Some bytes) (zlen bytes);
  GetExtendHeaderHandle := fun a info => pc_GetExtendHeaderHandle (na_calls a) info
|}.

(** * What the aggregator is told *)

(** The last report about a device. *)
Definition told (es : list AdapterEvent) (d : cstring) : option bool :=
  fold_left (fun r e => match e with OnChange t b => if bool_decide (t = d) then Some b else r | _ => r end) es None.

Lemma told_app es es' d : told (es ++ es') d =
  fold_left (fun r e => match e with OnChange t b => if bool_decide (t = d) then Some b else r | _ => r end) es' (told es d).
Proof. apply fold_left_app. Qed.

(** A device that counts as online has been reported; [k] tasks that are running and those in the
    queue are counted. *)
Record na_inv (k : Z) a : Prop := {
  ni_handle : is_Some (onChangeHandle_ a);
  ni_online : forall d, d ∈ onlineRemoteDev_ a -> told (na_events a) d = Some true;
  ni_pending : pendingAsyncTaskCount_ a = to_signed 32 (k + Z.of_nat (length (na_queue a)))
}.

(** What else changes does not matter. *)
Lemma na_inv_same k a a' : onChangeHandle_ a' = onChangeHandle_ a -> onlineRemoteDev_ a' = onlineRemoteDev_ a ->
  na_events a' = na_events a -> pendingAsyncTaskCount_ a' = pendingAsyncTaskCount_ a -> na_queue a' = na_queue a ->
  na_inv k a -> na_inv k a'.
Proof. intros E1 E2 E3 E4 E5 [Ih Io Ip]. split; [by rewrite E1 | rewrite E2, E3; done | by rewrite E4, E5]. Qed.

Lemma call_inv {A} k (f : nat -> A) a x a' : call f a = (x, a') -> na_inv k a -> na_inv k a'.
Proof. intros [= <- <-]. by apply na_inv_same. Qed.

(** The next calls, one after the other. *)
Ltac calls :=
  repeat match goal with
  | |- na_inv ?k ?x =>
    match x with context [call ?f ?a] => let E := fresh in destruct (call f a) as [? ?] eqn:E; apply (call_inv k) in E; [| done] end
  end.

Lemma erase_inv k a d : na_inv k a -> na_inv k (set_online a (onlineRemoteDev_ a ∖ {[d]})).
Proof. intros [Ih Io Ip]. split; [done | | done]. intros d' [? _]%elem_of_difference. by apply Io. Qed.

Lemma OnDeviceChangeHandler_inv k a d b : na_inv k a -> na_inv k (OnDeviceChangeHandler a d b) /\ na_queue (OnDeviceChangeHandler a d b) = na_queue a.
Proof.
  assert (Hreport : forall a b (online : gset cstring), na_inv k a -> (forall d', d' ∈ online -> d' = d /\ b = true \/ d' <> d /\ d' ∈ onlineRemoteDev_ a) ->
    na_inv k (emit_event (set_online a online) [OnChange d b])).
  { intros a1 b1 online [Ih Io Ip] Hd. split; [done | | done]. intros d' Hd'. change (told (na_events a1 ++ [OnChange d b1]) d' = Some true). rewrite told_app. cbn [fold_left].
    destruct (Hd d' Hd') as [[-> ->] | [Hn Hin]]; [by rewrite bool_decide_eq_true_2 | rewrite bool_decide_eq_false_2 by done; by apply Io]. }
  intros Hi. unfold OnDeviceChangeHandler. pose proof (ni_handle _ _ Hi) as [f Hf]. destruct b; cbn.
  - destruct (pc_IsSameProcessLabelStartedOnPeerDevice _ _); cbn; [rewrite Hf |].
    + split; [| done]. eapply (na_inv_same k (emit_event (set_online a (onlineRemoteDev_ a ∪ {[d]})) [OnChange d true])); try done.
      apply Hreport; [done |]. intros d' [Hd' | ->%elem_of_singleton]%elem_of_union; [| by left]. destruct (decide (d' = d)); auto.
    + split; [| done]. by eapply (na_inv_same k (set_online a (onlineRemoteDev_ a ∖ {[d]}))), erase_inv.
  - rewrite Hf. split; [| done]. apply Hreport; [done |]. intros d' [Hd' Hn%not_elem_of_singleton]%elem_of_difference. by right.
Qed.

Lemma signed_step x y : to_signed 32 (to_signed 32 x + y) = to_signed 32 (x + y).
Proof.
  unfold to_signed. assert (E : forall z, (z mod 2 ^ 32 = x mod 2 ^ 32) -> (z + y) mod 2 ^ 32 = (x + y) mod 2 ^ 32).
  { intros z Ez. rewrite <- (Zplus_mod_idemp_l z), <- (Zplus_mod_idemp_l x). by rewrite Ez. }
  rewrite E; [done |]. destruct (_ <? _); [apply Z.mod_mod; lia |]. rewrite <- (Z.mod_add _ 1) by lia.
  replace (x mod 2 ^ 32 - 2 ^ 32 + 1 * 2 ^ 32) with (x mod 2 ^ 32) by lia. apply Z.mod_mod. lia.
Qed.

Lemma signed_back x : to_signed 32 (to_signed 32 x - 1) = to_signed 32 (x - 1).
Proof. exact (signed_step x (- 1)). Qed.

Lemma schedule_inv k a task : na_inv k a -> na_inv k (schedule a task).
Proof.
  intros [Ih Io Ip]. unfold schedule. cbn. destruct (_ =? E_OK); split; cbn; try done; rewrite Ip.
  - rewrite signed_step, length_app, Nat2Z.inj_add. f_equal. cbn. lia.
  - rewrite signed_step, signed_back. f_equal. lia.
Qed.

Lemma search_inv k devices self : forall a, na_inv k a ->
  let a' := fold_left (fun a device => if bool_decide (device = self) then a else OnDeviceChangeHandler a device true) devices a in
  na_inv k a' /\ na_queue a' = na_queue a.
Proof.
  induction devices as [|d devices IH]; intros a Hi; [done |]. cbn [fold_left]. destruct (bool_decide _); [by apply IH |].
  pose proof (OnDeviceChangeHandler_inv k a d true Hi) as [Hi' Eq]. destruct (IH _ Hi') as [? Eq']. split; [done | congruence].
Qed.

Lemma run_task_inv a : na_inv 0 a -> na_inv 0 (run_task a) /\ na_queue (run_task a) = tail (na_queue a).
Proof.
  intros Hi. unfold run_task. destruct (na_queue a) as [|task queue] eqn:Eq; [by rewrite Eq |]. set (a1 := set_queue a _ queue).
  assert (Hi1 : na_inv 1 a1).
  { destruct Hi as [Ih Io Ip]. split; [done | done |]. cbn. rewrite Ip, Eq. f_equal. cbn. lia. }
  assert (Hend : forall a2, na_inv 1 a2 -> na_inv 0 (set_queue a2 (to_signed 32 (pendingAsyncTaskCount_ a2 - 1)) (na_queue a2))).
  { intros a2 [Ih Io Ip]. split; [done | done |]. cbn. rewrite Ip, signed_back. f_equal. lia. }
  change queue with (na_queue a1). clearbody a1. destruct task as [devices | d].
  - unfold na_GetLocalIdentity. cbn.
    match goal with |- context [let '(_, _) := ?p in _] => set (r := p) end.
    assert (Hr : na_inv 1 r.2 /\ na_queue r.2 = na_queue a1).
    { unfold r. destruct (is_empty _); cbn; (split; [by eapply na_inv_same; [.. | exact Hi1] | done]). }
    destruct r as [[e self] a2]. cbn in Hr. destruct Hr as [Hi2 Eq2]. destruct (search_inv 1 devices self a2 Hi2) as [Hi3 Eq3].
    split; [by apply Hend |]. exact (eq_trans Eq3 Eq2).
  - destruct (OnDeviceChangeHandler_inv 1 a1 d false Hi1) as [Hi2 Eq2]. split; [by apply Hend | done].
Qed.

Lemma CheckDeviceOnlineAfterReception_inv k a d : na_inv k a -> na_inv k (CheckDeviceOnlineAfterReception a d).
Proof. intros Hi. unfold CheckDeviceOnlineAfterReception. destruct (bool_decide _); [done |]. by apply OnDeviceChangeHandler_inv. Qed.

Lemma CheckDeviceOfflineAfterSendFail_inv k a d : na_inv k a -> na_inv k (CheckDeviceOfflineAfterSendFail a d).
Proof.
  intros Hi. unfold CheckDeviceOfflineAfterSendFail. destruct (bool_decide _); [| done]. calls. destruct (negb _); [| done]. by apply schedule_inv, erase_inv.
Qed.

(** * Runs *)

(** What happens to an adapter whose target change callback stays registered. *)
Inductive na_step : NetworkAdapter -> NetworkAdapter -> Prop :=
  | nstep_start a : na_step a (StartAdapter a).2
  | nstep_stop a : na_step a (StopAdapter a)
  | nstep_mtu a : na_step a (na_GetMtuSize a).2
  | nstep_mtu_target a target : na_step a (na_GetMtuSize_target a target).2
  | nstep_timeout a : na_step a (na_GetTimeout a).2
  | nstep_timeout_target a target : na_step a (na_GetTimeout_target a target).2
  | nstep_identity a out : na_step a (na_GetLocalIdentity a out).2
  | nstep_send a dst bytes length : na_step a (na_SendBytes a dst bytes length).2
  | nstep_receive a src data length a' : OnDataReceiveHandler a src data length = Some a' -> na_step a a'
  | nstep_change a device isOnline : na_step a (OnDeviceChangeHandler a device isOnline)
  | nstep_task a : na_step a (run_task a)
  | nstep_reg_receive a f fin : na_step a (RegBytesReceiveCallback a f fin).2
  | nstep_reg_change a f fin : na_step a (RegTargetChangeCallback a (Some f) fin).2
  | nstep_reg_sendable a f fin : na_step a (RegSendableCallback a f fin).2.

Ltac same Hi := eapply na_inv_same; [.. | exact Hi]; done.

(** Finalizers and data are no reports. *)
Lemma unreported_inv k a e : (forall t b, e <> OnChange t b) -> na_inv k a -> na_inv k (emit_event a [e]).
Proof.
  intros He [Ih Io Ip]. split; [done | | done]. intros d Hd. specialize (Io d Hd).
  change (told (na_events a ++ [e]) d = Some true). rewrite told_app. cbn [fold_left]. destruct e; [done | by destruct (He target isOnline) | done].
Qed.

Lemma finalized_inv k a fin : na_inv k a -> na_inv k (emit_event a (finalized fin)).
Proof. destruct fin; [by apply unreported_inv |]. apply na_inv_same; try done. apply app_nil_r. Qed.

Lemma na_step_inv a a' : na_step a a' -> na_inv 0 a -> na_inv 0 a'.
Proof.
  destruct 1 as [a|a|a|a t|a|a t|a out|a dst bytes n|a src data n a' E|a d b|a|a f fin|a f fin|a f fin]; intros Hi; try same Hi.
  - unfold StartAdapter. destruct (is_empty _); [done |]. destruct (negb _); [done |]. calls. destruct (negb _); [done |]. calls.
    destruct (negb _); [by calls |]. calls. destruct (negb _); [by calls |]. unfold SearchOnlineRemoteDeviceAtStartup. calls.
    destruct (is_empty _); [done |]. by apply schedule_inv.
  - unfold na_GetMtuSize. destruct (isMtuSizeValid_ a); [done | same Hi].
  - unfold na_GetLocalIdentity. cbn. destruct (is_empty _); same Hi.
  - unfold na_SendBytes. destruct bytes as [bytes|]; [| done]. destruct (_ =? 0); [done |]. calls. destruct (negb _); [| done].
    by apply CheckDeviceOfflineAfterSendFail_inv.
  - unfold OnDataReceiveHandler in E. destruct data as [data|]; [| by injection E as <-]. destruct (n =? 0); [by injection E as <- |].
    destruct (call _ a) as [[[e h] users] a1] eqn:Ec. apply (call_inv 0) in Ec; [| done].
    destruct (_ =? NO_PERMISSION); [by injection E as <- |]. destruct (onReceiveHandle_ a1); [| by injection E as <-].
    destruct (_ <? _); [done |]. injection E as <-. by apply CheckDeviceOnlineAfterReception_inv, unreported_inv.
  - by apply OnDeviceChangeHandler_inv.
  - by apply run_task_inv.
  - unfold RegBytesReceiveCallback. destruct (RegCallBack _ _ _ _) as [[e fin'] [h fin2]]. apply finalized_inv. same Hi.
  - unfold RegTargetChangeCallback, RegCallBack. destruct (ni_handle _ _ Hi) as [g ->]. apply finalized_inv. destruct Hi as [Ih Io Ip]. by split.
  - unfold RegSendableCallback. destruct (RegCallBack _ _ _ _) as [[e fin'] [h fin2]]. apply finalized_inv. same Hi.
Qed.

(** An adapter after the aggregator has registered its callback. *)
Definition na_new (label : cstring) (communicator : bool) (f : Z) (fin : callback) : NetworkAdapter :=
  (RegTargetChangeCallback (newNetworkAdapter label communicator) (Some f) fin).2.

Lemma na_new_inv label communicator f fin : na_inv 0 (na_new label communicator f fin).
Proof. split; [by eexists | done | done]. Qed.

Lemma tasks_run n : forall a, na_inv 0 a -> (length (na_queue a) <= n)%nat -> na_queue (Nat.iter n run_task a) = [] /\ na_inv 0 (Nat.iter n run_task a).
Proof.
  induction n as [|n IH]; intros a Hi Hn; [destruct (na_queue a) as [|t q] eqn:E; [done | cbn in Hn; lia] |].
  rewrite Nat.iter_succ_r. destruct (run_task_inv a Hi) as [Hi' Eq]. apply IH; [done |]. rewrite Eq. revert Hn. destruct (na_queue a); cbn; lia.
Qed.

(** C40: In every run of the network adapter a device that it takes for online has last been reported
    to the aggregator as online; and when [StopAdapter] waits, it is for the tasks that are
    queued (if they are not more than an [int] can count), and its wait is over when as many tasks
    have run. *)
Theorem adapter_sound label communicator f fin a : rtc na_step (na_new label communicator f fin) a ->
  (forall d, IsDeviceOnline a d = true -> told (na_events a) d = Some true)
  /\ (Z.of_nat (length (na_queue a)) < 2 ^ 31 -> stop_waits a = bool_decide (na_queue a <> []))
  /\ stop_waits (Nat.iter (length (na_queue a)) run_task a) = false.
Proof.
  intros Hrun. assert (Hi : na_inv 0 a).
  { pose proof (na_new_inv label communicator f fin) as Hi. revert Hi.
    induction Hrun as [|a1 a2 a3 Hs _ IH]; [done |]. intros Hi. by apply IH, (na_step_inv a1). }
  split_and!.
  - intros d Hd%bool_decide_eq_true. by apply Hi.
  - intros Hn. unfold stop_waits. rewrite (ni_pending _ _ Hi). unfold to_signed. rewrite Z.mod_small by lia.
    rewrite (proj2 (Z.ltb_lt (0 + _) _)) by lia. destruct (na_queue a) as [|t q]; [done |]. rewrite bool_decide_eq_true_2 by done.
    apply Z.ltb_lt. cbn. lia.
  - destruct (tasks_run _ a Hi (le_n _)) as [Eq Hi']. unfold stop_waits. by rewrite (ni_pending _ _ Hi'), Eq.
Qed.

(** * The MTU *)

Lemma mtu_adjusted mtu : let m := CheckAndAdjustMtuSize mtu in MIN_MTU_SIZE <= m <= MAX_MTU_SIZE /\ m mod 8 = 0.
Proof.
  unfold CheckAndAdjustMtuSize, MIN_MTU_SIZE, MAX_MTU_SIZE. destruct (_ <? _) eqn:E1; [by split; [lia |] |].
  destruct (5242880 <? mtu) eqn:E2; [by split; [lia |] |]. apply Z.ltb_ge in E1, E2. lia.
Qed.

(** Whatever MTU the communication of the process reports, the one that frames are split to is a
    multiple of 8 between 1 KB and 5 MB, and with it every message of the permitted length and
    an extended head of up to 464 bytes can be sent: the number of its packets fits 16 bits. *)
Theorem adapter_mtu_ok a target e n : 0 <= e <= 464 -> 0 < n < 2 ^ 32 - 8 ->
  byte8_align 32 n <= MAX_FRAME_LEN - GetLengthBeforeSerializedData ->
  let mtu := GetMtuSize a target in
  MIN_MTU_SIZE <= mtu <= MAX_MTU_SIZE /\ mtu mod 8 = 0 /\ mtu_ok mtu e n.
Proof.
  intros He Hn Hal mtu. destruct (mtu_adjusted (pc_GetMtuSize_device (na_calls a) target)) as [Hr Hm].
  change (CheckAndAdjustMtuSize _) with mtu in Hr, Hm. clearbody mtu. split; [done |]. split; [done |]. unfold MIN_MTU_SIZE, MAX_MTU_SIZE in Hr.
  pose proof (byte8_align_bounds 32 n ltac:(lia) ltac:(lia)) as [[Hle _] _].
  unfold MAX_FRAME_LEN, GetLengthBeforeSerializedData, sizeof_CommPhyHeader, sizeof_CommDivergeHeader, sizeof_MessageHeader in Hal.
  split; [lia |]. assert ((64 + n) / (mtu - e - 40) <= (64 + n) / 520) by (apply Z.div_le_compat_l; lia).
  assert ((64 + n) / 520 < 65000) by (apply Z.div_lt_upper_bound; lia). lia.
Qed.

End Network.

(** * A run *)

Module AdapterSample.

Definition self : cstring := [x61].
Definition peer : cstring := [x62].

(** The process of the other device runs for the first eight calls; nothing can be sent. *)
#[local] Instance communication : ProcessCommunicator := {|
  pc_Start := fun _ _ => OK; pc_Stop := fun _ => OK; pc_RegOnDeviceChange := fun _ _ => OK; pc_RegOnDataReceive := fun _ _ => OK;
  pc_SendData := fun _ _ _ => -1; pc_GetMtuSize := fun _ => 100; pc_GetMtuSize_device := fun _ _ => 1500;
  pc_GetTimeout := fun _ => 0; pc_GetTimeout_device := fun _ _ => 0; pc_GetLocalDeviceInfos := fun _ => self;
  pc_GetRemoteOnlineDeviceInfosList := fun _ => [self; peer];
  pc_IsSameProcessLabelStartedOnPeerDevice := fun n d => (n <? 8)%nat && bool_decide (d = peer);
  pc_CheckAndGetDataHeadInfo := fun _ _ => (OK, 0, []); pc_GetExtendHeaderHandle := fun _ _ => None;
  rc_ScheduleQueuedTask := fun _ => E_OK
|}.

Definition na0 : NetworkAdapter := na_new [x70] true 1 None.
Definition na1 : NetworkAdapter := (StartAdapter na0).2.
Definition na2 : NetworkAdapter := run_task na1.
(** The device comes again when its process has ended; then data is sent to it. *)
Definition na3 : NetworkAdapter := OnDeviceChangeHandler (na_GetMtuSize na2).2 peer true.
Definition na4 : NetworkAdapter := (na_SendBytes na3 peer (Some [x00]) 1).2.

Lemma na2_reached : rtc na_step na0 na2.
Proof. exact (rtc_l na_step _ na1 _ (nstep_start na0) (rtc_once _ _ (nstep_task na1))). Qed.

Lemma adapter_sound_witness :
  IsDeviceOnline na2 peer = true /\ told (na_events na2) peer = Some true /\ stop_waits na1 = true /\ stop_waits na2 = false.
Proof.
  destruct (adapter_sound [x70] true 1 None na2 na2_reached) as (Ht & Hs & _).
  split; [vm_compute; reflexivity |]. split; [apply Ht; vm_compute; reflexivity |]. split; [vm_compute; reflexivity |].
  rewrite Hs; vm_compute; reflexivity.
Defined.

Lemma adapter_mtu_ok_witness : GetMtuSize na2 peer = 1496 /\ mtu_ok 1496 8 1000000.
Proof.
  destruct (adapter_mtu_ok na2 peer 8 1000000) as (_ & _ & Hm); [lia | lia | vm_compute; discriminate |].
  split; [vm_compute; reflexivity | exact Hm].
Defined.

(** A device whose process has ended without notice is taken off the list when it comes again, but
    nobody is told; and as it is off the list, a send that fails does not report it either. *)
Lemma silent_offline : told (na_events na4) peer = Some true /\ IsDeviceOnline na4 peer = false /\ na_queue na4 = [].
Proof. vm_compute. split_and!; reflexivity. Qed.

End AdapterSample.
